(* ===== verification/_CoqProject ===== *)
-Q . S2P
Prelude.v
BlowfishTables.v
Blowfish.v
Message.v
ReadBuffer.v
ShmBuffer.v
TcpSession.v
Channel.v
CodedStream.v
RpcPb.v
Rpc.v
IpmRpc.v
DBPool.v
AutoInc.v
UdpSession.v
Core.v
GLog.v
Game.v
DlBins.v
DlTree.v
DlUnlink.v
DlFit.v
DlSmall.v
DlSpace.v
DlLayout.v
DlInv.v
DlBlocks.v
DlMalloc.v
DlFree.v
DlRun.v
DlSystem.v
DlGrow.v
DlPrepend.v
DlSysAlloc.v
DlAccount.v
DlTrim.v
DlRealloc.v
DlResize.v
DlAlign.v
DlSplit.v
DlHeap.v
DlInfo.v
DlCheck.v
DlChecked.v
NedCache.v
NedPool.v
NedSpace.v
NedPoolList.v
StringUtil.v
JsonValue.v
JsonOrder.v
JsonReader.v
JsonWriter.v
JsonStyled.v
JsonFile.v
JsonRpc.v
ServerConf.v
