(* ===== verification/Prelude.v ===== *)
(** * A verification of JMEngine

    JMEngine is a framework for game servers in C++: asynchronous TCP and UDP
    sessions over boost::asio with length-prefixed messages, remote calls over
    them with protocol buffer envelopes, a Blowfish cipher, a logger, a database
    connection pool, string tools, JSON configuration files and an allocator with
    thread caches. This library models the components of the engine as executable
    functions and proves what makes each of them correct.

    ** Parts and files

    - Prelude: machine integers as [Z] with their wrap-around, byte memory,
      little-endian numbers, the state-and-effects functions that the sessions are
      written in, and the automation.
    - BlowfishTables, Blowfish: source/util/JME_Encrypt.cpp, with the tables of
      the cipher, the key schedule, the block cipher, the three chaining modes in
      place and between buffers, and the entry points on strings.
    - Message, ReadBuffer: include/net/JME_Message.h and JME_ReadBuffer.h, with
      the message loop of [TcpSession::handleRead] that drives the buffer.
    - TcpSession: source/net/JME_TcpSession.cpp, the connection state machine
      and the buffered send path. What the socket, the resolver and the timers
      answer is an argument of each method, what the session asks of them is the
      list of effects the method returns.
    - Channel: the interface that a session offers to the remote calls, as a class
      of operations ([Channel]) with its laws ([ChannelSpec]); the TCP session is
      its instance.
    - CodedStream, RpcPb: the part of the vendored google/protobuf that the
      envelope uses (io/coded_stream, wire_format, wire_format_lite,
      unknown_field_set) and source/rpc/JME_RpcPb.cpp, the generated class of
      the envelope.
    - Rpc: source/rpc/JME_RpcHandler.cpp, JME_RpcServer.cpp, JME_RpcClient.cpp.
    - DBPool: include/db/JME_DBPool.h, the pool and the scope helper that uses it
      through the delegator interface.
    - UdpSession, Core: source/net/JME_UdpSession.cpp, JME_Acceptor.cpp,
      JME_Core.cpp (the thread table and the task thread).
    - GLog: source/log/JME_GLog.cpp and include/log, levels, the two line lists,
      rotation and the writer thread.
    - NedCache, NedPool, NedPoolList: source/memory/nedmalloc.cpp, the thread
      caches as linked lists in a heap of block headers, the pools with their
      memory spaces and threads, and the list of pools.
    - DlBins, DlTree, DlUnlink, DlFit, DlSmall, DlSpace, DlLayout, DlInv, DlBlocks,
      DlMalloc, DlFree, DlRun: include/memory/malloc.c.h, the memory spaces. DlBins has the
      arithmetic of sizes and bins, DlTree the tree bins (bitwise tries of rings), DlSmall
      the small bins, DlSpace the boundary tags, [mspace_malloc], [mspace_free] and a new
      space as far as they do not need the system; DlUnlink and DlFit have the proofs on tree
      bins, DlLayout, DlInv and DlBlocks the runs of chunks and the invariant of a space, DlMalloc
      and DlFree the two operations, DlRun spaces that keep to their memory.
    - DlSystem, DlGrow, DlPrepend, DlSysAlloc, DlAccount, DlTrim: the same file, memory of the system. DlSystem has
      [sys_alloc], [mmap_alloc], [add_segment], [prepend_alloc], [sys_trim], [release_unused_segments]
      and the creation of spaces; DlGrow has the proofs on new segments, DlPrepend those on memory before a
      segment, DlSysAlloc [sys_alloc] as a whole, DlAccount the count of the bytes a space has, DlTrim memory
      given back.
    - DlRealloc, DlResize, DlAlign, DlSplit, DlHeap, DlInfo: the same file, chunks that change. DlRealloc has
      [internal_realloc], [internal_memalign] and [ialloc], DlResize, DlAlign and DlSplit the proofs, DlHeap
      spaces in operation with all of it, DlInfo parameters and statistics. A call for several blocks is a step
      of DlHeap when its sizes add up within the machine word ([elements_ok]); the code does not check that.
    - DlCheck, DlChecked: the same file, the checks of the debug build, and the proofs that they pass.
    - NedSpace: the contract between the pools and the memory spaces, as a class
      ([MemorySpace]) of operations with laws, what the spaces rely on as a class ([System]),
      and the spaces of malloc.c.h over any system as an instance.
    - StringUtil: source/util/JME_String.cpp, on Windows and on Linux.
    - JsonValue, JsonOrder, JsonReader, JsonWriter, JsonStyled, JsonFile:
      source/json/src/json_value.cpp, json_valueiterator.inl, json_reader.cpp,
      json_writer.cpp (the jsoncpp the engine builds) and
      source/json/JME_JsonFile.cpp; JsonOrder holds comparison and iterators,
      JsonStyled the writers that indent.
    - Game, ServerConf, JsonRpc, IpmRpc, ShmBuffer, AutoInc: parts of the older
      engine under backup/ that the present one does not have: random choice, the
      event center and the dispatcher (include/game), the start of a server from its
      configuration (source/game/JME_ServerInterface.cpp), the JSON envelope
      (include/rpc/JME_Rpc.h), calls and messages between processes
      (source/rpc/JME_IPM_Rpc*.cpp, the shared memory buffer of
      include/net/JME_ReadBuffer.h) and the numbers of new records
      (source/db/JME_MongoConnection.cpp).

    Definitions carry the names of the functions they translate; a method of a
    class is a function on the record of its members, a loop is a Fixpoint, and a
    comment says what a definition translates when the name does not.

    ** What is proved

    - Transport: whatever the sizes of partial reads and writes and the order of
      session operations, the messages a peer decodes are a prefix of the messages
      accepted, in order and unchanged; the send buffer is a queue of bytes; the
      message loop computes the framing of the pending bytes and ends.
    - Remote calls, against the channel interface: a call, its execution and its
      answer; every callback runs at most once. The envelope survives
      serialization and parsing, unknown fields included; the unrolled varint code
      agrees with the reference and stays inside of its buffer; every input is
      parsed in bounded time.
    - Cipher: blocks, modes and strings decrypt to what was encrypted; the two
      families of routines agree; the key schedule keeps its tables in range.
    - Concurrency as interleavings of steps: logged lines reach the disk exactly
      once and in order; a pooled connection has one user; posted tasks run once
      each in order; the acceptor always has one accept pending.
    - JSON: the reader answers on every document, and reads back what each of the
      four writers wrote; the comparison of values is one total order; an iteration
      visits every entry once; values behave as maps.
    - Allocator, for any interleaving of calls by any threads: no operation fails an
      assertion, no block is handed out twice, blocks are large enough, none is lost,
      and a cache stays below its limit; the two computations of a bin agree; the
      list of pools is a list.
    - Memory spaces, for any sequence of requests, changes of size, aligned requests, frees and trims and any
      answers of the system: no check fails, the blocks in use are aligned, inside of the memory
      and apart, a call that fails leaves the space as it was, and null is the answer to a request only when the
      system gives no memory; no two free chunks are neighbours. The tree bins give a best fit.
      The statistics count the free chunks. The checks of the debug build find nothing to complain of in any state
      a space gets into. The spaces keep the contract of the pools.
    - Strings: conversions return what the converter wrote, inside their buffers.
    - Older parts: a weighted choice is fair; the event center refines a list of
      listeners per event, against an interface of signals; a server creates what its
      configuration says; the JSON envelope and the shared memory carry what they are
      given as far as their limits, which the theorems name.
    - Where the code does not do what it means to, a theorem says what it does:
      a message that never leaves a full receive buffer, a dropped message that is
      reported as sent, a session that cannot reconnect after a failed name
      resolution, a truncated request that is executed, a callback left behind by
      a failed call, a datagram sent twice, array elements that vanish, comments
      that are lost, an array that wraps to a small block, a cache that comes back.

    ** Bounds and fuel

    Loops that are not structural take fuel, and each has a theorem that the fuel
    is enough: the message loop one round per pending byte ([read_fuel] of
    ReadBuffer), the parser of the envelope one round per input byte, log rotation
    one round more than there are files, the JSON reader two calls per character,
    the JSON writer the depth of the value, the string conversions one round per
    byte, the removal of cached blocks one round per block in the heap. The
    allocator's theorems hold for fewer than 2^32 calls that free, the range of the
    counter that dates the blocks. The loops over the trees of a memory space take 66 rounds,
    more than a tree has levels; its theorems hold for segments of less than 2^40 bytes,
    as the computation of bins is wrong from there on. Integers keep the width of the source: lengths and
    ids wrap where the code lets them.

    ** What is not modelled

    The boost libraries, the operating system, iconv and the code page tables,
    scanf and printf of doubles: they are parameters, or their answers are
    arguments. Allocation and destructors, except where an object can be lost
    (DBPool). Of the memory spaces the contents of blocks, MORECORE and the locks, and an aligned request that gets memory of its own is
    modelled without a theorem; the rest of protocol buffers, and under backup/ the earlier versions
    of components that are modelled in their present form.

    ** Plan

    Next: more of the protocol
    buffers runtime below the envelope (streams, repeated fields); reconnection over several connections in the end-to-end theorem of the
    transport; the remote calls over a lossy channel. *)
From Stdlib Require Export ZArith Lia Bool.
From stdpp Require Export base tactics option list list_numbers numbers gmap strings.

#[export] Set Default Proof Using "Type".
Declare Scope jme_scope.
Delimit Scope jme_scope with jme.
Open Scope jme_scope.
Local Open Scope Z_scope.

(** ** Hint databases

    [jme_len] rewrites lengths and memory accesses, [jme_range] proves that a
    machine integer is in the range of its width. *)
Create Rewrite HintDb jme_len.
Create Rewrite HintDb jme_nlen.
Create HintDb jme_range.

(** ** Machine integers

    A [w]-bit C integer is a [Z]; a conversion to the unsigned (signed) type of
    width [w] is [uwrap w] ([swrap w]). *)
Definition uwrap (w z : Z) : Z := z mod 2 ^ w.
Definition swrap (w z : Z) : Z := (z + 2 ^ (w - 1)) mod 2 ^ w - 2 ^ (w - 1).

Abbreviation u8 := (uwrap 8) (only parsing).
Abbreviation u32 := (uwrap 32) (only parsing).
Abbreviation u64 := (uwrap 64) (only parsing).
Abbreviation i8 := (swrap 8) (only parsing).
Abbreviation i16 := (swrap 16) (only parsing).
Abbreviation i32 := (swrap 32) (only parsing).

Definition in_u (w z : Z) : Prop := 0 <= z < 2 ^ w.
Definition in_s (w z : Z) : Prop := - 2 ^ (w - 1) <= z < 2 ^ (w - 1).

#[global] Instance in_u_dec w z : Decision (in_u w z).
Proof. unfold in_u. apply _. Defined.
#[global] Instance in_s_dec w z : Decision (in_s w z).
Proof. unfold in_s. apply _. Defined.

Lemma uwrap_range w z : 0 <= w -> in_u w (uwrap w z).
Proof. intros. unfold in_u, uwrap. apply Z.mod_pos_bound. lia. Qed.

Lemma uwrap_id w z : in_u w z -> uwrap w z = z.
Proof. unfold in_u, uwrap. intros. by apply Z.mod_small. Qed.

Lemma uwrap_idemp w z : 0 <= w -> uwrap w (uwrap w z) = uwrap w z.
Proof. intros. by apply uwrap_id, uwrap_range. Qed.

Lemma swrap_range w z : 0 < w -> in_s w (swrap w z).
Proof.
  intros. unfold in_s, swrap.
  pose proof (Z.mod_pos_bound (z + 2 ^ (w - 1)) (2 ^ w) ltac:(lia)).
  assert (2 ^ w = 2 * 2 ^ (w - 1)) by (rewrite <- Z.pow_succ_r by lia; f_equal; lia).
  lia.
Qed.

Lemma swrap_id w z : 0 < w -> in_s w z -> swrap w z = z.
Proof.
  unfold in_s, swrap. intros Hw H.
  assert (2 ^ w = 2 * 2 ^ (w - 1)) by (rewrite <- Z.pow_succ_r by lia; f_equal; lia).
  rewrite Z.mod_small; lia.
Qed.

Lemma swrap_uwrap w z : 0 < w -> swrap w (uwrap w z) = swrap w z.
Proof.
  intros. unfold swrap, uwrap. by rewrite Zplus_mod_idemp_l.
Qed.

Lemma uwrap_swrap w z : 0 < w -> uwrap w (swrap w z) = uwrap w z.
Proof.
  intros. unfold swrap, uwrap.
  rewrite Zminus_mod_idemp_l. f_equal. lia.
Qed.

(** *** Bitwise operations stay within the width *)
Lemma in_u_testbit w z :
  0 <= w -> in_u w z <-> 0 <= z /\ forall i, w <= i -> Z.testbit z i = false.
Proof.
  intros Hw. unfold in_u. split.
  - intros [H0 H1]. split; [done|]. intros i Hi.
    rewrite <- (Z.mod_small z (2 ^ w)) by lia. by apply Z.mod_pow2_bits_high.
  - intros [H0 Hb]. split; [done|].
    destruct (decide (z < 2 ^ w)) as [|Hge]; [done|exfalso].
    assert (Hl : w <= Z.log2 z) by (apply Z.log2_le_pow2; lia).
    assert (Hz : 0 < z) by lia.
    specialize (Hb (Z.log2 z) Hl). rewrite Z.bit_log2 in Hb by lia. done.
Qed.

Lemma in_u_lxor w a b : 0 <= w -> in_u w a -> in_u w b -> in_u w (Z.lxor a b).
Proof.
  intros Hw [Ha0 Ha]%in_u_testbit [Hb0 Hb]%in_u_testbit; try done.
  apply in_u_testbit; [done|]. split; [by apply Z.lxor_nonneg|].
  intros i Hi. by rewrite Z.lxor_spec, Ha, Hb.
Qed.

Lemma in_u_lor w a b : 0 <= w -> in_u w a -> in_u w b -> in_u w (Z.lor a b).
Proof.
  intros Hw [Ha0 Ha]%in_u_testbit [Hb0 Hb]%in_u_testbit; try done.
  apply in_u_testbit; [done|]. split; [by apply Z.lor_nonneg|].
  intros i Hi. by rewrite Z.lor_spec, Ha, Hb.
Qed.

Lemma in_u_land_l w a b : 0 <= w -> in_u w a -> in_u w (Z.land a b).
Proof.
  intros Hw [Ha0 Ha]%in_u_testbit; try done.
  apply in_u_testbit; [done|]. split; [apply Z.land_nonneg; auto|].
  intros i Hi. by rewrite Z.land_spec, Ha.
Qed.

Lemma in_u_mono w w' a : 0 <= w <= w' -> in_u w a -> in_u w' a.
Proof.
  unfold in_u. intros Hw Ha. pose proof (Z.pow_le_mono_r 2 w w'). lia.
Qed.

Lemma in_u_shiftr w a n : 0 <= n -> 0 <= w -> in_u w a -> in_u w (Z.shiftr a n).
Proof.
  intros Hn Hw [Ha0 Ha]%in_u_testbit; try done.
  apply in_u_testbit; [done|]. split; [by apply Z.shiftr_nonneg|].
  intros i Hi. rewrite Z.shiftr_spec by lia. apply Ha. lia.
Qed.

Lemma lxor_cancel_r a b : Z.lxor (Z.lxor a b) b = a.
Proof. by rewrite Z.lxor_assoc, Z.lxor_nilpotent, Z.lxor_0_r. Qed.

(** [land] with an all-ones mask is a conversion to the narrower type. *)
Lemma land_ff z : Z.land z 255 = uwrap 8 z.
Proof. change 255 with (Z.ones 8). by rewrite Z.land_ones. Qed.

(** Or-ing a value into the low bits freed by a shift is an addition. *)
Lemma lor_shiftl_add a b n : 0 <= n -> in_u n b -> Z.lor (Z.shiftl a n) b = a * 2 ^ n + b.
Proof.
  intros Hn [Hb0 Hb]%in_u_testbit; [|done].
  rewrite <- Z.shiftl_mul_pow2 by done. symmetry. apply Z.add_nocarry_lor.
  apply Z.bits_inj'. intros i Hi. rewrite Z.land_spec, Z.bits_0.
  destruct (decide (n <= i)); [by rewrite Hb, andb_false_r|].
  by rewrite Z.shiftl_spec_low by lia.
Qed.

(** Four bytes or-ed together in big-endian order. *)
Definition be32 (a b c d : Z) : Z := ((a * 256 + b) * 256 + c) * 256 + d.

Lemma be32_lor a b c d :
  in_u 8 a -> in_u 8 b -> in_u 8 c -> in_u 8 d ->
  Z.lor (Z.lor (Z.lor (Z.lor 0 (uwrap 32 (Z.shiftl a 24))) (uwrap 32 (Z.shiftl b 16)))
    (uwrap 32 (Z.shiftl c 8))) d = be32 a b c d.
Proof.
  unfold in_u. intros Ha Hb Hc Hd. rewrite Z.lor_0_l.
  rewrite !(uwrap_id 32) by (unfold in_u; rewrite Z.shiftl_mul_pow2 by lia; lia).
  rewrite (lor_shiftl_add a (Z.shiftl b 16)) by (unfold in_u; rewrite ?Z.shiftl_mul_pow2 by lia; lia).
  replace (a * 2 ^ 24 + Z.shiftl b 16) with (Z.shiftl (a * 256 + b) 16)
    by (rewrite !Z.shiftl_mul_pow2 by lia; lia).
  rewrite (lor_shiftl_add _ (Z.shiftl c 8)) by (unfold in_u; rewrite ?Z.shiftl_mul_pow2 by lia; lia).
  replace ((a * 256 + b) * 2 ^ 16 + Z.shiftl c 8) with (Z.shiftl ((a * 256 + b) * 256 + c) 8)
    by (rewrite !Z.shiftl_mul_pow2 by lia; lia).
  rewrite lor_shiftl_add by (unfold in_u; lia). unfold be32. lia.
Qed.

#[export] Hint Resolve uwrap_range swrap_range in_u_lxor in_u_lor in_u_shiftr : jme_range.
#[export] Hint Extern 1 (0 <= _) => lia : jme_range.
#[export] Hint Extern 1 (0 < _) => lia : jme_range.

(** Linear arithmetic with quotients by constants. *)
Ltac div_lia := Z.to_euclidean_division_equations; lia.

(** Closed decidable goals, by evaluation. *)
Ltac decide_closed := apply (bool_decide_unpack _); vm_compute; exact I.

(** ** Byte memory

    A block of C memory is a list of bytes; [mem_read] is what reading [n] bytes
    at offset [off] gives and [mem_write] is [memcpy] into it. *)
Abbreviation bytes := (list Z) (only parsing).

Definition byte_ok (b : Z) : Prop := in_u 8 b.
#[global] Instance byte_ok_dec b : Decision (byte_ok b).
Proof. unfold byte_ok. apply _. Defined.
Abbreviation bytes_ok := (Forall byte_ok) (only parsing).

Definition zlen {A} (l : list A) : Z := Z.of_nat (length l).

Definition mem_read (buf : bytes) (off n : Z) : bytes :=
  take (Z.to_nat n) (drop (Z.to_nat off) buf).

Definition mem_write (buf : bytes) (off : Z) (data : bytes) : bytes :=
  take (Z.to_nat off) buf ++ data ++ drop (Z.to_nat off + length data) buf.

(** A property of all bytes, by evaluation. *)
Lemma byte_forall (P : Z -> bool) :
  forallb P (Z.of_nat <$> seq 0 256) = true -> forall b, byte_ok b -> P b = true.
Proof.
  intros H b [H0 H1]. rewrite forallb_forall in H. apply H.
  apply list_elem_of_In, list_elem_of_fmap. exists (Z.to_nat b).
  split; [lia|]. apply elem_of_seq. lia.
Qed.

Lemma zlen_nonneg {A} (l : list A) : 0 <= zlen l.
Proof. unfold zlen. lia. Qed.

Lemma zlen_nil {A} : zlen (@nil A) = 0.
Proof. done. Qed.

Lemma zlen_cons {A} (x : A) l : zlen (x :: l) = 1 + zlen l.
Proof. unfold zlen. simpl. lia. Qed.

Lemma zlen_app {A} (l1 l2 : list A) : zlen (l1 ++ l2) = zlen l1 + zlen l2.
Proof. unfold zlen. rewrite length_app. lia. Qed.

Lemma zlen_take {A} (n : nat) (l : list A) : zlen (take n l) = Z.min (Z.of_nat n) (zlen l).
Proof. unfold zlen. rewrite length_take. lia. Qed.

Lemma zlen_drop {A} (n : nat) (l : list A) : zlen (drop n l) = Z.max 0 (zlen l - Z.of_nat n).
Proof. unfold zlen. rewrite length_drop. lia. Qed.

Lemma zlen_replicate {A} n (x : A) : zlen (replicate n x) = Z.of_nat n.
Proof. unfold zlen. by rewrite length_replicate. Qed.

#[export] Hint Rewrite @zlen_nil @zlen_cons @zlen_app @zlen_take @zlen_drop @zlen_replicate : jme_len.

#[export] Hint Rewrite @length_app @length_take @length_drop @length_replicate @length_map @length_insert : jme_nlen.

Ltac zlen_simpl := autorewrite with jme_len in *.
Ltac zlen_lia :=
  zlen_simpl;
  repeat match goal with
  | l : list ?A |- _ =>
      lazymatch goal with
      | H : 0 <= zlen l |- _ => fail
      | |- _ => pose proof (zlen_nonneg l)
      end
  end; try lia; unfold zlen in *; cbn [length] in *;
  autorewrite with jme_nlen in *; cbn [length] in *; lia.

Lemma mem_read_zlen buf off n :
  0 <= off -> 0 <= n -> off + n <= zlen buf -> zlen (mem_read buf off n) = n.
Proof. intros. unfold mem_read. zlen_lia. Qed.

Lemma mem_write_zlen buf off data :
  0 <= off -> off + zlen data <= zlen buf -> zlen (mem_write buf off data) = zlen buf.
Proof. intros. unfold mem_write. zlen_lia. Qed.

Lemma mem_read_write_same buf off data :
  0 <= off -> off + zlen data <= zlen buf ->
  mem_read (mem_write buf off data) off (zlen data) = data.
Proof.
  intros. unfold mem_read, mem_write.
  rewrite drop_app_length' by zlen_lia.
  rewrite take_app_length' by zlen_lia. done.
Qed.

Lemma mem_read_write_before buf off data o n :
  0 <= off -> 0 <= o -> 0 <= n -> o + n <= off -> off <= zlen buf ->
  mem_read (mem_write buf off data) o n = mem_read buf o n.
Proof.
  intros. unfold mem_read, mem_write.
  rewrite drop_app_le by zlen_lia.
  rewrite take_app_le by zlen_lia.
  rewrite <- (take_drop (Z.to_nat off) buf) at 2.
  rewrite drop_app_le by zlen_lia.
  rewrite take_app_le by zlen_lia. done.
Qed.

Lemma mem_read_split buf off n m :
  0 <= off -> 0 <= n -> 0 <= m ->
  mem_read buf off (n + m) = mem_read buf off n ++ mem_read buf (off + n) m.
Proof.
  intros. unfold mem_read.
  rewrite !Z2Nat.inj_add by lia. rewrite <- drop_drop.
  set (l := drop (Z.to_nat off) buf).
  generalize (Z.to_nat n) (Z.to_nat m) l. clear.
  induction n as [|n IH]; intros m l; simpl; [done|].
  destruct l; simpl; [by rewrite take_nil|]. f_equal. apply IH.
Qed.

Lemma mem_write_write buf off d1 d2 :
  0 <= off -> off + zlen d1 <= zlen buf ->
  mem_write (mem_write buf off d1) (off + zlen d1) d2 = mem_write buf off (d1 ++ d2).
Proof.
  intros. unfold mem_write.
  replace (Z.to_nat (off + zlen d1)) with (Z.to_nat off + length d1)%nat by zlen_lia.
  rewrite (app_assoc (take _ buf) d1).
  rewrite take_app_length' by zlen_lia.
  rewrite <- !app_assoc. do 3 f_equal.
  rewrite (app_assoc (take _ buf) d1), <- drop_drop, drop_app_length' by zlen_lia.
  rewrite drop_drop. f_equal. zlen_lia.
Qed.

Lemma mem_write_nil buf off : mem_write buf off [] = buf.
Proof. unfold mem_write. simpl. by rewrite Nat.add_0_r, take_drop. Qed.

Lemma drop_mem_write buf off d :
  0 <= off -> off + zlen d <= zlen buf ->
  drop (Z.to_nat (off + zlen d)) (mem_write buf off d) = drop (Z.to_nat (off + zlen d)) buf.
Proof.
  intros. unfold mem_write. rewrite app_assoc, drop_app_length' by zlen_lia.
  f_equal. zlen_lia.
Qed.

Lemma mem_read_drop buf off n : mem_read buf off n = take (Z.to_nat n) (drop (Z.to_nat off) buf).
Proof. done. Qed.

(** ** Little-endian integers *)
Fixpoint le_encode (n : nat) (z : Z) : bytes :=
  match n with
  | O => []
  | S n => z mod 256 :: le_encode n (z / 256)
  end.

Fixpoint le_decode (bs : bytes) : Z :=
  match bs with
  | [] => 0
  | b :: bs => b + 256 * le_decode bs
  end.

Lemma le_encode_zlen n z : zlen (le_encode n z) = Z.of_nat n.
Proof. revert z. induction n as [|n IH]; intros z; [done|]. cbn [le_encode]. rewrite zlen_cons, IH. lia. Qed.

Lemma le_encode_length n z : length (le_encode n z) = n.
Proof. pose proof (le_encode_zlen n z). unfold zlen in *. lia. Qed.

Lemma le_encode_ok n z : bytes_ok (le_encode n z).
Proof.
  revert z. induction n as [|n IH]; intros z; cbn [le_encode]; constructor; [|done].
  apply Z.mod_pos_bound. lia.
Qed.

Lemma le_decode_encode n z : le_decode (le_encode n z) = uwrap (8 * Z.of_nat n) z.
Proof.
  revert z. unfold uwrap. induction n as [|n IH]; intros z; cbn [le_encode le_decode].
  - by rewrite Z.mod_1_r.
  - rewrite IH. replace (8 * Z.of_nat (S n)) with (8 + 8 * Z.of_nat n) by lia.
    rewrite Z.pow_add_r, Z.rem_mul_r by lia. done.
Qed.

Lemma le_decode_range bs : bytes_ok bs -> in_u (8 * zlen bs) (le_decode bs).
Proof.
  unfold in_u. induction 1 as [|b bs Hb Hbs IH]; cbn [le_decode]; [by split|].
  rewrite zlen_cons, Z.mul_add_distr_l, Z.pow_add_r by (pose proof (zlen_nonneg bs); lia).
  change (2 ^ (8 * 1)) with 256. unfold byte_ok, in_u in Hb. lia.
Qed.

Lemma le_encode_decode bs : bytes_ok bs -> le_encode (length bs) (le_decode bs) = bs.
Proof.
  induction 1 as [|b bs Hb Hbs IH]; [done|]. cbn [length le_decode le_encode].
  unfold byte_ok, in_u in Hb.
  rewrite (Z.mul_comm 256), Z.mod_add, Z.mod_small by lia.
  rewrite Z.div_add, Z.div_small, Z.add_0_l by lia. by rewrite IH.
Qed.

#[export] Hint Rewrite le_encode_zlen : jme_len.
#[export] Hint Rewrite le_encode_length : jme_nlen.

(** ** State and effects

    Methods that change an object and call out (post a callback, start an
    asynchronous operation, write to a socket) are state transformers that also
    return the list of effects, in order. *)
Definition SW (St Eff A : Type) : Type := St -> St * list Eff * A.

Definition sw_ret {St Eff A} (a : A) : SW St Eff A := fun s => (s, [], a).
Definition sw_bind {St Eff A B} (c : SW St Eff A) (f : A -> SW St Eff B) : SW St Eff B :=
  fun s =>
    let '(s1, e1, a) := c s in
    let '(s2, e2, b) := f a s1 in
    (s2, e1 ++ e2, b).
Definition sw_gets {St Eff A} (f : St -> A) : SW St Eff A := fun s => (s, [], f s).
Definition sw_modify {St Eff} (f : St -> St) : SW St Eff unit := fun s => (f s, [], tt).
Definition sw_emit {St Eff} (e : Eff) : SW St Eff unit := fun s => (s, [e], tt).

Declare Scope sw_scope.
Delimit Scope sw_scope with sw.
Notation "'let!' x := c 'in' k" := (sw_bind c (fun x => k))
  (at level 10, x name, c at level 200, k at level 200) : sw_scope.
Notation "c ;;; k" := (sw_bind c (fun _ => k)) (at level 100, right associativity) : sw_scope.

Definition sw_state {St Eff A} (r : St * list Eff * A) : St := r.1.1.
Definition sw_effects {St Eff A} (r : St * list Eff * A) : list Eff := r.1.2.
Definition sw_value {St Eff A} (r : St * list Eff * A) : A := r.2.

Ltac sw_unfold := unfold sw_bind, sw_ret, sw_gets, sw_modify, sw_emit.

Lemma sw_bind_assoc {St Eff A B C} (c : SW St Eff A) (f : A -> SW St Eff B) (g : B -> SW St Eff C) s :
  sw_bind (sw_bind c f) g s = sw_bind c (fun a => sw_bind (f a) g) s.
Proof.
  unfold sw_bind. destruct (c s) as [[s1 e1] a]. destruct (f a s1) as [[s2 e2] b].
  destruct (g b s2) as [[s3 e3] r]. by rewrite app_assoc.
Qed.

(** ** Assertions in the option monad: a failed one ends the program. *)
Definition guard_ {A} (b : bool) (k : option A) : option A := if b then k else None.
