(* ===== verification/Blowfish.v ===== *)
(** The Blowfish cipher of source/util/JME_Encrypt.cpp and
    include/util/JME_Encrypt.h: the class [CBlowFish] with its key schedule, its
    block cipher, the ECB, CBC and CFB buffer modes (in place and from one
    buffer to another) and the two static entry points [Encrypt] and [Decrypt].

    A buffer is a list of bytes with an explicit offset for each C pointer; the
    loops [for(; n >= 8; n -= 8)] become recursion on the number of iterations,
    which is [n / 8].  A call that would read outside the memory it is given, or
    use tables that were never initialised, is [None]. *)
From S2P Require Import Prelude BlowfishTables.
Local Open Scope Z_scope.

(** ** Data *)

(** [struct SBlock]. *)
Record SBlock : Set := mkSBlock { m_uil : Z; m_uir : Z }.

(** [SBlock::operator^=]. *)
Definition SBlock_xor (a b : SBlock) : SBlock :=
  mkSBlock (Z.lxor (m_uil a) (m_uil b)) (Z.lxor (m_uir a) (m_uir b)).

(** [class CBlowFish]. *)
Record CBlowFish : Set := mkCBlowFish {
  m_oChain0 : SBlock;
  m_oChain : SBlock;
  m_auiP : list Z;
  m_auiS : list (list Z)
}.

(** [enum { ECB=0, CBC=1, CFB=2 }]. *)
Definition ECB : Z := 0.
Definition CBC : Z := 1.
Definition CFB : Z := 2.

(** [CBlowFish::ResetChain]. *)
Definition ResetChain (st : CBlowFish) : CBlowFish :=
  mkCBlowFish (m_oChain0 st) (m_oChain0 st) (m_auiP st) (m_auiS st).

(** ** The block cipher *)

(** [Byte]. *)
Definition Byte (ui : Z) : Z := Z.land ui 0xff.

Definition P_at (st : CBlowFish) (i : nat) : Z := nth i (m_auiP st) 0.
Definition S_at (st : CBlowFish) (j : nat) (i : Z) : Z :=
  nth (Z.to_nat i) (nth j (m_auiS st) []) 0.

(** [CBlowFish::F]: the additions are on [unsigned int]. *)
Definition F (st : CBlowFish) (ui : Z) : Z :=
  u32 (Z.lxor (u32 (S_at st 0 (Byte (Z.shiftr ui 24)) + S_at st 1 (Byte (Z.shiftr ui 16))))
              (S_at st 2 (Byte (Z.shiftr ui 8)))
       + S_at st 3 (Byte ui)).

(** One source line of [Encrypt_4] or [Decrypt_4]:
    [uiRight ^= F(uiLeft)^m_auiP[i]; uiLeft ^= F(uiRight)^m_auiP[j];]. *)
Definition round_pair (st : CBlowFish) (lr : Z * Z) (ij : nat * nat) : Z * Z :=
  let '(uiLeft, uiRight) := lr in
  let '(i, j) := ij in
  let uiRight := Z.lxor uiRight (Z.lxor (F st uiLeft) (P_at st i)) in
  let uiLeft := Z.lxor uiLeft (Z.lxor (F st uiRight) (P_at st j)) in
  (uiLeft, uiRight).

(** [CBlowFish::Encrypt_4]: sixteen rounds, subkeys in increasing order. *)
Definition Encrypt_4 (st : CBlowFish) (block : SBlock) : SBlock :=
  let uiLeft := Z.lxor (m_uil block) (P_at st 0) in
  let uiRight := m_uir block in
  let '(uiLeft, uiRight) :=
    fold_left (round_pair st)
      [(1, 2); (3, 4); (5, 6); (7, 8); (9, 10); (11, 12); (13, 14); (15, 16)]%nat
      (uiLeft, uiRight) in
  let uiRight := Z.lxor uiRight (P_at st 17) in
  mkSBlock uiRight uiLeft.

(** [CBlowFish::Decrypt_4]: sixteen rounds, subkeys in decreasing order. *)
Definition Decrypt_4 (st : CBlowFish) (block : SBlock) : SBlock :=
  let uiLeft := Z.lxor (m_uil block) (P_at st 17) in
  let uiRight := m_uir block in
  let '(uiLeft, uiRight) :=
    fold_left (round_pair st)
      [(16, 15); (14, 13); (12, 11); (10, 9); (8, 7); (6, 5); (4, 3); (2, 1)]%nat
      (uiLeft, uiRight) in
  let uiRight := Z.lxor uiRight (P_at st 0) in
  mkSBlock uiRight uiLeft.

(** ** The key schedule: [CBlowFish::CBlowFish] *)

(** The loop that packs four key bytes into [x], recycling the key bytes when
    all of them have been used; [p] is the index of the pointer [p] in
    [aucLocalKey]. *)
Fixpoint pack_key (aucLocalKey : bytes) (keysize : Z) (n : nat) (x p iCount : Z)
    : Z * Z * Z :=
  match n with
  | O => (x, p, iCount)
  | S n =>
      let x := u32 (Z.shiftl x 8) in
      let x := Z.lor x (nth (Z.to_nat p) aucLocalKey 0) in
      let p := p + 1 in
      let iCount := iCount + 1 in
      if iCount =? keysize then pack_key aucLocalKey keysize n x 0 0
      else pack_key aucLocalKey keysize n x p iCount
  end.

(** [for(i=0; i<18; i++)]: xor the key into the P array. *)
Fixpoint load_P (aucLocalKey : bytes) (keysize : Z) (P : list Z) (p iCount : Z) : list Z :=
  match P with
  | [] => []
  | Pi :: P =>
      let '(x, p, iCount) := pack_key aucLocalKey keysize 4 0 p iCount in
      Z.lxor Pi x :: load_P aucLocalKey keysize P p iCount
  end.

Definition set_P (st : CBlowFish) (i : nat) (v : Z) : CBlowFish :=
  mkCBlowFish (m_oChain0 st) (m_oChain st) (<[i := v]> (m_auiP st)) (m_auiS st).

Definition set_S (st : CBlowFish) (j k : nat) (v : Z) : CBlowFish :=
  mkCBlowFish (m_oChain0 st) (m_oChain st) (m_auiP st) (alter <[k := v]> j (m_auiS st)).

(** [Encrypt_4(block), m_auiP[i++] = block.m_uil, m_auiP[i++] = block.m_uir],
    for the [n] remaining iterations from index [i]. *)
Fixpoint reflect_P (n : nat) (i : nat) (st : CBlowFish) (block : SBlock) : CBlowFish * SBlock :=
  match n with
  | O => (st, block)
  | S n =>
      let block := Encrypt_4 st block in
      let st := set_P (set_P st i (m_uil block)) (S i) (m_uir block) in
      reflect_P n (S (S i)) st block
  end.

(** The same for row [j] of the S boxes. *)
Fixpoint reflect_S (n : nat) (j k : nat) (st : CBlowFish) (block : SBlock)
    : CBlowFish * SBlock :=
  match n with
  | O => (st, block)
  | S n =>
      let block := Encrypt_4 st block in
      let st := set_S (set_S st j k (m_uil block)) j (S k) (m_uir block) in
      reflect_S n j (S (S k)) st block
  end.

Fixpoint reflect_S_rows (rows : list nat) (st : CBlowFish) (block : SBlock)
    : CBlowFish * SBlock :=
  match rows with
  | [] => (st, block)
  | j :: rows => let '(st, block) := reflect_S 128 j 0 st block in reflect_S_rows rows st block
  end.

(** The constructor.  [ucKey] is the memory the key pointer points to.  With
    [keysize < 1] the constructor returns with [m_auiP] and [m_auiS]
    uninitialised, and with a key shorter than [keysize] the [memcpy] reads out
    of bounds: both are [None]. *)
Definition CBlowFish_new (ucKey : bytes) (keysize : Z) (roChain : SBlock) : option CBlowFish :=
  if keysize <? 1 then None else
  let keysize := if 56 <? keysize then 56 else keysize in
  if zlen ucKey <? keysize then None else
  let aucLocalKey := mem_read ucKey 0 keysize in
  let m_auiP := load_P aucLocalKey keysize scm_auiInitP 0 0 in
  let st := mkCBlowFish roChain roChain m_auiP scm_auiInitS in
  let block := mkSBlock 0 0 in
  let '(st, block) := reflect_P 9 0 st block in
  let '(st, block) := reflect_S_rows [0; 1; 2; 3]%nat st block in
  Some st.

(** ** Bytes and blocks *)

(** [BytesToBlock]: big-endian. *)
Definition BytesToBlock (p : bytes) : SBlock :=
  let at_ i := nth i p 0 in
  let l := 0 in
  let l := Z.lor l (u32 (Z.shiftl (at_ 0%nat) 24)) in
  let l := Z.lor l (u32 (Z.shiftl (at_ 1%nat) 16)) in
  let l := Z.lor l (u32 (Z.shiftl (at_ 2%nat) 8)) in
  let l := Z.lor l (at_ 3%nat) in
  let r := 0 in
  let r := Z.lor r (u32 (Z.shiftl (at_ 4%nat) 24)) in
  let r := Z.lor r (u32 (Z.shiftl (at_ 5%nat) 16)) in
  let r := Z.lor r (u32 (Z.shiftl (at_ 6%nat) 8)) in
  let r := Z.lor r (at_ 7%nat) in
  mkSBlock l r.

(** [BlockToBytes]: the eight bytes stored below the pointer, in address order
    (the code stores them from the last to the first). *)
Definition BlockToBytes (b : SBlock) : bytes :=
  [ Byte (Z.shiftr (m_uil b) 24); Byte (Z.shiftr (m_uil b) 16);
    Byte (Z.shiftr (m_uil b) 8); Byte (m_uil b);
    Byte (Z.shiftr (m_uir b) 24); Byte (Z.shiftr (m_uir b) 16);
    Byte (Z.shiftr (m_uir b) 8); Byte (m_uir b) ].

(** ** Buffer modes *)

(** A loop [BytesToBlock(in, work); body; BlockToBytes(work, out+=8)] with
    [in += 8], run [k] times; [body] computes the new [work] and [chain]. *)
Fixpoint block_loop3 (body : SBlock -> SBlock -> SBlock * SBlock) (k : nat)
    (inb : bytes) (ioff : Z) (out : bytes) (ooff : Z) (chain : SBlock) : bytes :=
  match k with
  | O => out
  | S k =>
      let work := BytesToBlock (mem_read inb ioff 8) in
      let '(work, chain) := body work chain in
      block_loop3 body k inb (ioff + 8) (mem_write out ooff (BlockToBytes work)) (ooff + 8) chain
  end.

(** The same loop when input and output are the same buffer. *)
Fixpoint block_loop2 (body : SBlock -> SBlock -> SBlock * SBlock) (k : nat)
    (buf : bytes) (off : Z) (chain : SBlock) : bytes :=
  match k with
  | O => buf
  | S k =>
      let work := BytesToBlock (mem_read buf off 8) in
      let '(work, chain) := body work chain in
      block_loop2 body k (mem_write buf off (BlockToBytes work)) (off + 8) chain
  end.

(** Loop bodies. *)
Definition enc_CBC_body (st : CBlowFish) (work chain : SBlock) : SBlock * SBlock :=
  let work := SBlock_xor work chain in
  let work := Encrypt_4 st work in
  (work, work).

Definition enc_CFB_body (st : CBlowFish) (work chain : SBlock) : SBlock * SBlock :=
  let chain := Encrypt_4 st chain in
  let work := SBlock_xor work chain in
  (work, work).

Definition enc_ECB_body (st : CBlowFish) (work chain : SBlock) : SBlock * SBlock :=
  (Encrypt_4 st work, chain).

Definition dec_CBC_body (st : CBlowFish) (work chain : SBlock) : SBlock * SBlock :=
  let crypt := work in
  let work := Decrypt_4 st work in
  let work := SBlock_xor work chain in
  (work, crypt).

Definition dec_CFB_body (st : CBlowFish) (work chain : SBlock) : SBlock * SBlock :=
  let chain := Encrypt_4 st chain in
  let crypt := work in
  let work := SBlock_xor work chain in
  (work, crypt).

Definition dec_ECB_body (st : CBlowFish) (work chain : SBlock) : SBlock * SBlock :=
  (Decrypt_4 st work, chain).

Definition bad_length (n : Z) : bool := (n =? 0) || negb (n mod 8 =? 0).

(** [CBlowFish::Encrypt_2]: in place. *)
Definition Encrypt_2 (st : CBlowFish) (buf : bytes) (n iMode : Z) : bytes :=
  if bad_length n then buf else
  let k := Z.to_nat (n / 8) in
  if iMode =? CBC then block_loop2 (enc_CBC_body st) k buf 0 (m_oChain st)
  else if iMode =? CFB then block_loop2 (enc_CFB_body st) k buf 0 (m_oChain st)
  else block_loop2 (enc_ECB_body st) k buf 0 (m_oChain st).

(** The CFB loop of [Decrypt_2]: [buf] is neither written nor advanced. *)
Fixpoint dec2_CFB_loop (st : CBlowFish) (k : nat) (buf : bytes) (chain : SBlock) : bytes :=
  match k with
  | O => buf
  | S k =>
      let work := BytesToBlock (mem_read buf 0 8) in
      let chain := Encrypt_4 st chain in
      let crypt := work in
      let work := SBlock_xor work chain in
      dec2_CFB_loop st k buf crypt
  end.

(** [CBlowFish::Decrypt_2]: in place ([x_char] is not used by the code). *)
Definition Decrypt_2 (st : CBlowFish) (buf : bytes) (n iMode : Z) : bytes :=
  if bad_length n then buf else
  let k := Z.to_nat (n / 8) in
  if iMode =? CBC then block_loop2 (dec_CBC_body st) k buf 0 (m_oChain st)
  else if iMode =? CFB then dec2_CFB_loop st k buf (m_oChain st)
  else block_loop2 (dec_ECB_body st) k buf 0 (m_oChain st).

(** [CBlowFish::Encrypt_3]. *)
Definition Encrypt_3 (st : CBlowFish) (inb out : bytes) (n iMode : Z) : bytes :=
  if bad_length n then out else
  let k := Z.to_nat (n / 8) in
  if iMode =? CBC then block_loop3 (enc_CBC_body st) k inb 0 out 0 (m_oChain st)
  else if iMode =? CFB then block_loop3 (enc_CFB_body st) k inb 0 out 0 (m_oChain st)
  else block_loop3 (enc_ECB_body st) k inb 0 out 0 (m_oChain st).

(** [CBlowFish::Decrypt_3]. *)
Definition Decrypt_3 (st : CBlowFish) (inb out : bytes) (n iMode : Z) : bytes :=
  if bad_length n then out else
  let k := Z.to_nat (n / 8) in
  if iMode =? CBC then block_loop3 (dec_CBC_body st) k inb 0 out 0 (m_oChain st)
  else if iMode =? CFB then block_loop3 (dec_CFB_body st) k inb 0 out 0 (m_oChain st)
  else block_loop3 (dec_ECB_body st) k inb 0 out 0 (m_oChain st).

(** ** Entry points *)

(** The length rounded up to whole blocks, in C arithmetic (truncated [%]). *)
Definition padded_length (len : Z) : Z :=
  let nDifference := Z.rem len 8 in
  if negb (nDifference =? 0) then (len - nDifference) + 8 else len.

(** What [Encrypt] and [Decrypt] share: build the cipher, allocate
    [nNewLength + 1] bytes ([garbage] stands for their initial contents), run
    [f] in ECB mode, store the final zero byte and copy [nNewLength] bytes out.
    [strInput] is the memory the input pointer points to: [nNewLength] bytes of
    it are read, whatever [len] is.  [bitCount] is converted from [int] to
    [size_t]; a negative or overflowing length is [None]. *)
Definition crypt_entry (f : CBlowFish -> bytes -> bytes -> Z -> Z -> bytes)
    (strInput strKey : bytes) (bitCount len : Z) (garbage : bytes) : option bytes :=
  st ← CBlowFish_new strKey (u64 bitCount) (mkSBlock 0 0);
  let nNewLength := padded_length len in
  if (nNewLength <? 0) || (2 ^ 31 <=? nNewLength + 1) || (zlen strInput <? nNewLength)
  then None else
  let pszDataOut := mem_read (garbage ++ replicate (Z.to_nat nNewLength + 1) 0) 0 (nNewLength + 1) in
  let pszDataOut := f st strInput pszDataOut nNewLength ECB in
  let pszDataOut := mem_write pszDataOut nNewLength [0] in
  Some (mem_read pszDataOut 0 nNewLength).

(** [CBlowFish::Encrypt]. *)
Definition Encrypt (strInput strKey : bytes) (bitCount len : Z) (garbage : bytes) : option bytes :=
  crypt_entry Encrypt_3 strInput strKey bitCount len garbage.

(** [CBlowFish::Decrypt]. *)
Definition Decrypt (strInput strKey : bytes) (bitCount len : Z) (garbage : bytes) : option bytes :=
  crypt_entry Decrypt_3 strInput strKey bitCount len garbage.

(** * Lemmas *)

(** ** The block cipher is invertible *)

(** A pair of rounds is undone by the same pair with the subkeys swapped, on
    the swapped halves. *)
Lemma round_pair_inverse st l r i j :
  let '(l', r') := round_pair st (l, r) (i, j) in
  round_pair st (r', l') (j, i) = (r, l).
Proof. simpl. by rewrite !lxor_cancel_r. Qed.

Lemma fold_rounds_inverse st ps l r :
  let '(l', r') := fold_left (round_pair st) ps (l, r) in
  fold_left (round_pair st) (reverse ((fun '(i, j) => (j, i)) <$> ps)) (r', l')
  = (r, l).
Proof.
  revert l r. induction ps as [|[i j] ps IH]; intros l r; [done|].
  pose proof (round_pair_inverse st l r i j) as Hinv.
  cbn [fold_left]. destruct (round_pair st (l, r) (i, j)) as [l1 r1] eqn:E1.
  specialize (IH l1 r1).
  destruct (fold_left (round_pair st) ps (l1, r1)) as [l' r'].
  cbn [fmap list_fmap]. rewrite reverse_cons.
  rewrite fold_left_app, IH. exact Hinv.
Qed.

Lemma Decrypt_Encrypt_4 st b : Decrypt_4 st (Encrypt_4 st b) = b.
Proof.
  destruct b as [l r]. unfold Encrypt_4, Decrypt_4. cbn [m_uil m_uir].
  pose proof (fold_rounds_inverse st
    [(1, 2); (3, 4); (5, 6); (7, 8); (9, 10); (11, 12); (13, 14); (15, 16)]%nat
    (Z.lxor l (P_at st 0)) r) as H.
  destruct (fold_left _ _ _) as [l' r'] eqn:E. cbn [m_uil m_uir].
  rewrite lxor_cancel_r.
  change (reverse _) with
    [(16, 15); (14, 13); (12, 11); (10, 9); (8, 7); (6, 5); (4, 3); (2, 1)]%nat in H.
  rewrite H. by rewrite lxor_cancel_r.
Qed.

Lemma Encrypt_Decrypt_4 st b : Encrypt_4 st (Decrypt_4 st b) = b.
Proof.
  destruct b as [l r]. unfold Encrypt_4, Decrypt_4. cbn [m_uil m_uir].
  pose proof (fold_rounds_inverse st
    [(16, 15); (14, 13); (12, 11); (10, 9); (8, 7); (6, 5); (4, 3); (2, 1)]%nat
    (Z.lxor l (P_at st 17)) r) as H.
  destruct (fold_left _ _ _) as [l' r'] eqn:E. cbn [m_uil m_uir].
  rewrite lxor_cancel_r.
  change (reverse _) with
    [(1, 2); (3, 4); (5, 6); (7, 8); (9, 10); (11, 12); (13, 14); (15, 16)]%nat in H.
  rewrite H. by rewrite lxor_cancel_r.
Qed.

(** ** Ranges *)
Definition block_ok (b : SBlock) : Prop := in_u 32 (m_uil b) /\ in_u 32 (m_uir b).

Definition tables_ok (st : CBlowFish) : Prop :=
  length (m_auiP st) = 18%nat /\ Forall (in_u 32) (m_auiP st) /\
  map length (m_auiS st) = [256; 256; 256; 256]%nat /\
  Forall (Forall (in_u 32)) (m_auiS st).

Lemma nth_Forall {A} (Q : A -> Prop) l i d : Forall Q l -> Q d -> Q (nth i l d).
Proof. intros H Hd. revert i. induction H; intros [|i]; simpl; auto. Qed.

Lemma P_at_range st i : tables_ok st -> in_u 32 (P_at st i).
Proof. intros (_ & H & _). unfold P_at. apply nth_Forall; [done|]. unfold in_u; lia. Qed.

Lemma F_range st ui : in_u 32 (F st ui).
Proof. unfold F. auto with jme_range. Qed.

#[local] Hint Resolve P_at_range F_range : jme_range.

Lemma fold_rounds_range st ps l r :
  tables_ok st -> in_u 32 l -> in_u 32 r ->
  let '(l', r') := fold_left (round_pair st) ps (l, r) in in_u 32 l' /\ in_u 32 r'.
Proof.
  intros Hst. revert l r. induction ps as [|[i j] ps IH]; intros l r Hl Hr; [done|].
  cbn [fold_left round_pair]. apply IH; auto 10 with jme_range.
Qed.

Lemma Encrypt_4_ok st b : tables_ok st -> block_ok b -> block_ok (Encrypt_4 st b).
Proof.
  intros Hst [Hl Hr]. unfold Encrypt_4.
  pose proof (fold_rounds_range st
    [(1, 2); (3, 4); (5, 6); (7, 8); (9, 10); (11, 12); (13, 14); (15, 16)]%nat
    (Z.lxor (m_uil b) (P_at st 0)) (m_uir b)) as H.
  destruct (fold_left _ _ _) as [l' r'].
  destruct H; auto with jme_range. split; simpl; auto with jme_range.
Qed.

Lemma Decrypt_4_ok st b : tables_ok st -> block_ok b -> block_ok (Decrypt_4 st b).
Proof.
  intros Hst [Hl Hr]. unfold Decrypt_4.
  pose proof (fold_rounds_range st
    [(16, 15); (14, 13); (12, 11); (10, 9); (8, 7); (6, 5); (4, 3); (2, 1)]%nat
    (Z.lxor (m_uil b) (P_at st 17)) (m_uir b)) as H.
  destruct (fold_left _ _ _) as [l' r'].
  destruct H; auto with jme_range. split; simpl; auto with jme_range.
Qed.

Lemma SBlock_xor_ok a b : block_ok a -> block_ok b -> block_ok (SBlock_xor a b).
Proof. intros [] []. split; simpl; auto with jme_range. Qed.

Lemma SBlock_xor_cancel a b : SBlock_xor (SBlock_xor a b) b = a.
Proof. destruct a, b. unfold SBlock_xor. simpl. by rewrite !lxor_cancel_r. Qed.

(** ** The key schedule builds well-formed tables *)
Lemma tables_ok_set_P st i v : tables_ok st -> in_u 32 v -> tables_ok (set_P st i v).
Proof.
  intros (H1 & H2 & H3 & H4) Hv. unfold tables_ok, set_P; simpl.
  rewrite length_insert. split_and!; auto. by apply Forall_insert.
Qed.

Lemma tables_ok_set_S st j k v : tables_ok st -> in_u 32 v -> tables_ok (set_S st j k v).
Proof.
  intros (H1 & H2 & H3 & H4) Hv. unfold tables_ok, set_S; simpl. split_and!; auto.
  - rewrite <- H3. clear. generalize (m_auiS st). intros S. revert j.
    induction S as [|row S IH]; intros [|j]; simpl; try done.
    + by rewrite length_insert.
    + f_equal. apply IH.
  - apply Forall_alter; [done|]. intros. by apply Forall_insert.
Qed.

Lemma reflect_P_ok n i st b :
  tables_ok st -> block_ok b ->
  let '(st', b') := reflect_P n i st b in tables_ok st' /\ block_ok b'.
Proof.
  revert i st b. induction n as [|n IH]; intros i st b Hst Hb; [done|].
  cbn [reflect_P]. pose proof (Encrypt_4_ok st b Hst Hb) as Hb'. pose proof Hb' as [Hl Hr].
  apply IH; [|done]. apply tables_ok_set_P; [by apply tables_ok_set_P|done].
Qed.

Lemma reflect_S_ok n j k st b :
  tables_ok st -> block_ok b ->
  let '(st', b') := reflect_S n j k st b in tables_ok st' /\ block_ok b'.
Proof.
  revert k st b. induction n as [|n IH]; intros k st b Hst Hb; [done|].
  cbn [reflect_S]. pose proof (Encrypt_4_ok st b Hst Hb) as Hb'. pose proof Hb' as [Hl Hr].
  apply IH; [|done]. apply tables_ok_set_S; [by apply tables_ok_set_S|done].
Qed.

Lemma reflect_S_rows_ok rows st b :
  tables_ok st -> block_ok b ->
  let '(st', b') := reflect_S_rows rows st b in tables_ok st' /\ block_ok b'.
Proof.
  revert st b. induction rows as [|j rows IH]; intros st b Hst Hb; [done|].
  cbn [reflect_S_rows]. pose proof (reflect_S_ok 128 j 0 st b Hst Hb) as H.
  destruct (reflect_S 128 j 0 st b) as [st' b']. destruct H. by apply IH.
Qed.

Lemma pack_key_range key ks n x p c :
  bytes_ok key -> in_u 32 x -> in_u 32 (pack_key key ks n x p c).1.1.
Proof.
  intros Hk. revert x p c. induction n as [|n IH]; intros x p c Hx; [done|].
  cbn [pack_key].
  assert (in_u 32 (Z.lor (uwrap 32 (Z.shiftl x 8)) (nth (Z.to_nat p) key 0))).
  { apply in_u_lor; [lia|auto with jme_range|]. apply (in_u_mono 8); [lia|].
    apply nth_Forall; [done|]. unfold in_u; lia. }
  destruct (_ =? _); by apply IH.
Qed.

Lemma load_P_ok key ks P p c :
  bytes_ok key -> Forall (in_u 32) P ->
  length (load_P key ks P p c) = length P /\ Forall (in_u 32) (load_P key ks P p c).
Proof.
  intros Hk HP. revert p c. induction HP as [|x P Hx HP IH]; intros p c; [done|].
  cbn [load_P]. pose proof (pack_key_range key ks 4 0 p c Hk) as Hr.
  destruct (pack_key key ks 4 0 p c) as [[y p'] c'].
  destruct (IH p' c') as [Hlen Hall]. simpl. split; [by rewrite Hlen|].
  constructor; [|done]. apply in_u_lxor; auto with jme_range. apply Hr. unfold in_u; lia.
Qed.

Lemma CBlowFish_new_Some key ks chain :
  1 <= ks -> Z.min ks 56 <= zlen key ->
  exists st, CBlowFish_new key ks chain = Some st.
Proof.
  intros H1 H2. unfold CBlowFish_new.
  destruct (Z.ltb_spec ks 1); [lia|].
  destruct (Z.ltb_spec 56 ks);
    (match goal with |- context [zlen key <? ?k] => destruct (Z.ltb_spec (zlen key) k); [lia|] end);
    destruct (reflect_P _ _ _ _) as [st b]; destruct (reflect_S_rows _ _ _); eauto.
Qed.

Lemma CBlowFish_new_tables key ks chain st :
  bytes_ok key -> CBlowFish_new key ks chain = Some st -> tables_ok st.
Proof.
  intros Hk. unfold CBlowFish_new.
  destruct (ks <? 1); [done|]. set (ks' := if 56 <? ks then 56 else ks).
  destruct (zlen key <? ks'); [done|].
  assert (Hk' : bytes_ok (mem_read key 0 ks')) by (by apply Forall_take, Forall_drop).
  destruct (load_P_ok _ ks' scm_auiInitP 0 0 Hk' scm_auiInitP_range) as [Hlen Hall].
  set (st0 := mkCBlowFish _ _ _ _).
  assert (Hst0 : tables_ok st0).
  { unfold tables_ok, st0; cbn [m_auiP m_auiS]. rewrite Hlen.
    split_and!; auto using scm_auiInitS_range, scm_auiInitS_lengths. }
  assert (Hb0 : block_ok (mkSBlock 0 0)) by (split; simpl; unfold in_u; lia).
  pose proof (reflect_P_ok 9 0 st0 _ Hst0 Hb0) as H.
  destruct (reflect_P 9 0 st0 _) as [st1 b1]. destruct H as [Hst1 Hb1].
  pose proof (reflect_S_rows_ok [0; 1; 2; 3]%nat st1 b1 Hst1 Hb1) as H.
  destruct (reflect_S_rows _ st1 b1) as [st2 b2]. destruct H as [Hst2 Hb2].
  intros [= <-]. done.
Qed.

(** ** Bytes and blocks *)
Lemma Byte_shiftr x n : 0 <= n -> Byte (Z.shiftr x n) = x / 2 ^ n mod 256.
Proof. intros. unfold Byte. rewrite land_ff, Z.shiftr_div_pow2 by done. done. Qed.

Lemma Byte_mod x : Byte x = x mod 256.
Proof. apply land_ff. Qed.

Lemma bytes_ok_nth p i : bytes_ok p -> in_u 8 (nth i p 0).
Proof. intros. apply (nth_Forall byte_ok); [done|]. unfold byte_ok, in_u; lia. Qed.

Lemma BytesToBlock_be32 p :
  bytes_ok p ->
  BytesToBlock p =
  mkSBlock (be32 (nth 0 p 0) (nth 1 p 0) (nth 2 p 0) (nth 3 p 0))
           (be32 (nth 4 p 0) (nth 5 p 0) (nth 6 p 0) (nth 7 p 0)).
Proof. intros. unfold BytesToBlock. rewrite !be32_lor by (by apply bytes_ok_nth). done. Qed.

Lemma BlockToBytes_ok b : bytes_ok (BlockToBytes b).
Proof.
  unfold BlockToBytes. repeat constructor; unfold byte_ok; rewrite ?Byte_shiftr, ?Byte_mod by lia;
    unfold in_u; apply Z.mod_pos_bound; lia.
Qed.

Lemma be32_bytes x :
  in_u 32 x ->
  be32 (x / 2 ^ 24 mod 256) (x / 2 ^ 16 mod 256) (x / 2 ^ 8 mod 256) (x mod 256) = x.
Proof. unfold in_u, be32. intros. Z.div_mod_to_equations. lia. Qed.

Lemma BytesToBlock_BlockToBytes b : block_ok b -> BytesToBlock (BlockToBytes b) = b.
Proof.
  intros [Hl Hr]. rewrite BytesToBlock_be32 by apply BlockToBytes_ok.
  unfold BlockToBytes. cbn [nth]. rewrite !Byte_shiftr, !Byte_mod by lia.
  rewrite !be32_bytes by done. by destruct b.
Qed.

Lemma BytesToBlock_ok p : bytes_ok p -> block_ok (BytesToBlock p).
Proof.
  intros Hp. rewrite BytesToBlock_be32 by done.
  split; simpl; unfold be32.
  - pose proof (bytes_ok_nth p 0 Hp). pose proof (bytes_ok_nth p 1 Hp).
    pose proof (bytes_ok_nth p 2 Hp). pose proof (bytes_ok_nth p 3 Hp). unfold in_u in *. lia.
  - pose proof (bytes_ok_nth p 4 Hp). pose proof (bytes_ok_nth p 5 Hp).
    pose proof (bytes_ok_nth p 6 Hp). pose proof (bytes_ok_nth p 7 Hp). unfold in_u in *. lia.
Qed.

Lemma bytes_be32 a b c d :
  in_u 8 a -> in_u 8 b -> in_u 8 c -> in_u 8 d ->
  be32 a b c d / 2 ^ 24 mod 256 = a /\ be32 a b c d / 2 ^ 16 mod 256 = b /\
  be32 a b c d / 2 ^ 8 mod 256 = c /\ be32 a b c d mod 256 = d.
Proof. unfold in_u, be32. intros. Z.div_mod_to_equations. lia. Qed.

Lemma BlockToBytes_BytesToBlock p :
  length p = 8%nat -> bytes_ok p -> BlockToBytes (BytesToBlock p) = p.
Proof.
  intros Hlen Hp. rewrite BytesToBlock_be32 by done.
  do 8 (destruct p as [|? p]; [discriminate|]). destruct p; [|discriminate].
  decompose_Forall_hyps. cbn [nth] in *. unfold BlockToBytes; cbn [m_uil m_uir].
  rewrite !Byte_shiftr, !Byte_mod by lia.
  edestruct (bytes_be32 z z0 z1 z2) as (-> & -> & -> & ->); [done..|].
  edestruct (bytes_be32 z3 z4 z5 z6) as (-> & -> & -> & ->); [done..|]. done.
Qed.

(** ** The buffer loops as maps over blocks *)
Fixpoint to_blocks (k : nat) (p : bytes) : list SBlock :=
  match k with
  | O => []
  | S k => BytesToBlock (take 8 p) :: to_blocks k (drop 8 p)
  end.

Fixpoint run_blocks (body : SBlock -> SBlock -> SBlock * SBlock) (chain : SBlock)
    (ws : list SBlock) : list SBlock :=
  match ws with
  | [] => []
  | w :: ws => let '(w', chain') := body w chain in w' :: run_blocks body chain' ws
  end.

Definition from_blocks (ws : list SBlock) : bytes := mjoin (BlockToBytes <$> ws).

Lemma from_blocks_cons w ws : from_blocks (w :: ws) = BlockToBytes w ++ from_blocks ws.
Proof. done. Qed.

Lemma BlockToBytes_zlen w : zlen (BlockToBytes w) = 8.
Proof. done. Qed.

Lemma from_blocks_zlen ws : zlen (from_blocks ws) = 8 * zlen ws.
Proof.
  induction ws as [|w ws IH]; [done|].
  rewrite from_blocks_cons, zlen_app, zlen_cons, BlockToBytes_zlen. lia.
Qed.

Lemma to_blocks_zlen k p : zlen (to_blocks k p) = Z.of_nat k.
Proof. revert p. induction k as [|k IH]; intros p; [done|]. cbn [to_blocks]. rewrite zlen_cons, IH. lia. Qed.

Lemma run_blocks_zlen body chain ws : zlen (run_blocks body chain ws) = zlen ws.
Proof.
  revert chain. induction ws as [|w ws IH]; intros chain; [done|]. cbn [run_blocks].
  destruct (body w chain). by rewrite !zlen_cons, IH.
Qed.

#[local] Hint Rewrite from_blocks_zlen to_blocks_zlen run_blocks_zlen : jme_len.

Lemma block_loop3_spec body k inb ioff out ooff chain :
  0 <= ioff -> 0 <= ooff -> ooff + 8 * Z.of_nat k <= zlen out ->
  block_loop3 body k inb ioff out ooff chain =
  mem_write out ooff (from_blocks (run_blocks body chain (to_blocks k (drop (Z.to_nat ioff) inb)))).
Proof.
  revert ioff out ooff chain. induction k as [|k IH]; intros ioff out ooff chain Hi Ho Hlen.
  - by rewrite mem_write_nil.
  - cbn [block_loop3 to_blocks run_blocks]. rewrite mem_read_drop.
    change (Z.to_nat 8) with 8%nat.
    destruct (body _ chain) as [w' chain'].
    pose proof (BlockToBytes_zlen w') as H8.
    rewrite IH by (rewrite ?mem_write_zlen; lia).
    rewrite from_blocks_cons, <- mem_write_write, H8 by lia.
    do 4 f_equal. rewrite drop_drop. f_equal. lia.
Qed.

Lemma block_loop2_spec body k buf off chain :
  0 <= off -> off + 8 * Z.of_nat k <= zlen buf ->
  block_loop2 body k buf off chain =
  mem_write buf off (from_blocks (run_blocks body chain (to_blocks k (drop (Z.to_nat off) buf)))).
Proof.
  revert buf off chain. induction k as [|k IH]; intros buf off chain Ho Hlen.
  - by rewrite mem_write_nil.
  - cbn [block_loop2 to_blocks run_blocks]. rewrite mem_read_drop.
    change (Z.to_nat 8) with 8%nat.
    destruct (body _ chain) as [w' chain'].
    pose proof (BlockToBytes_zlen w') as H8.
    rewrite IH by (rewrite ?mem_write_zlen; lia).
    rewrite from_blocks_cons, <- mem_write_write, H8 by lia.
    do 4 f_equal. rewrite <- H8, drop_mem_write, H8 by lia. rewrite drop_drop. f_equal. lia.
Qed.

(** Working in place is working from a buffer to itself: no block is read after
    it has been overwritten. *)
Lemma block_loop2_loop3 body k buf chain :
  8 * Z.of_nat k <= zlen buf -> block_loop2 body k buf 0 chain = block_loop3 body k buf 0 buf 0 chain.
Proof. intros. rewrite block_loop2_spec, block_loop3_spec by lia. done. Qed.

Lemma to_from_blocks ws : Forall block_ok ws -> to_blocks (length ws) (from_blocks ws) = ws.
Proof.
  induction 1 as [|w ws Hw Hws IH]; [done|]. cbn [length to_blocks].
  rewrite from_blocks_cons, take_app_length', drop_app_length' by done.
  by rewrite BytesToBlock_BlockToBytes, IH.
Qed.

Lemma from_to_blocks k p :
  bytes_ok p -> 8 * Z.of_nat k <= zlen p -> from_blocks (to_blocks k p) = take (8 * k) p.
Proof.
  revert p. induction k as [|k IH]; intros p Hp Hlen; [done|]. cbn [to_blocks].
  rewrite from_blocks_cons, BlockToBytes_BytesToBlock, IH
    by first [by apply Forall_drop | by apply Forall_take | zlen_lia].
  replace (8 * S k)%nat with (8 + 8 * k)%nat by lia. by rewrite take_take_drop.
Qed.

Lemma to_blocks_ok k p : bytes_ok p -> Forall block_ok (to_blocks k p).
Proof.
  revert p. induction k as [|k IH]; intros p Hp; cbn [to_blocks]; constructor.
  - by apply BytesToBlock_ok, Forall_take.
  - by apply IH, Forall_drop.
Qed.

Lemma to_blocks_app k p q :
  8 * Z.of_nat k <= zlen p -> to_blocks k (p ++ q) = to_blocks k p.
Proof.
  revert p. induction k as [|k IH]; intros p Hlen; [done|]. cbn [to_blocks].
  rewrite take_app_le, drop_app_le, IH by zlen_lia. done.
Qed.

(** ** Mode bodies that undo each other

    [ModeInverse st enc dec]: the decrypting loop body recovers the plain block
    from the cipher block when both see the same chain, and leaves the same
    chain behind. *)
Class ModeInverse (st : CBlowFish) (enc dec : CBlowFish -> SBlock -> SBlock -> SBlock * SBlock) : Prop := {
  mode_inverse w chain : dec st (enc st w chain).1 chain = (w, (enc st w chain).2);
  mode_ok w chain :
    tables_ok st -> block_ok w -> block_ok chain ->
    block_ok (enc st w chain).1 /\ block_ok (enc st w chain).2
}.

#[global] Instance ECB_inverse st : ModeInverse st enc_ECB_body dec_ECB_body.
Proof.
  split; intros w c; unfold enc_ECB_body, dec_ECB_body; simpl.
  - by rewrite Decrypt_Encrypt_4.
  - intros. split; auto using Encrypt_4_ok.
Qed.

#[global] Instance CBC_inverse st : ModeInverse st enc_CBC_body dec_CBC_body.
Proof.
  split; intros w c; unfold enc_CBC_body, dec_CBC_body; simpl.
  - by rewrite Decrypt_Encrypt_4, SBlock_xor_cancel.
  - intros. split; auto using Encrypt_4_ok, SBlock_xor_ok.
Qed.

#[global] Instance CFB_inverse st : ModeInverse st enc_CFB_body dec_CFB_body.
Proof.
  split; intros w c; unfold enc_CFB_body, dec_CFB_body; simpl.
  - by rewrite SBlock_xor_cancel.
  - intros. split; auto using Encrypt_4_ok, SBlock_xor_ok.
Qed.

Section modes.
Context (st : CBlowFish) (enc dec : CBlowFish -> SBlock -> SBlock -> SBlock * SBlock).
Context `{!ModeInverse st enc dec}.

Lemma run_blocks_inverse chain ws :
  run_blocks (dec st) chain (run_blocks (enc st) chain ws) = ws.
Proof using Type*.
  revert chain. induction ws as [|w ws IH]; intros chain; [done|]. cbn [run_blocks].
  pose proof (mode_inverse w chain) as Hinv. destruct (enc st w chain) as [w' chain'].
  simpl in *. by rewrite Hinv, IH.
Qed.

Lemma run_blocks_ok chain ws :
  tables_ok st -> block_ok chain -> Forall block_ok ws -> Forall block_ok (run_blocks (enc st) chain ws).
Proof using Type*.
  intros Hst Hc Hws. revert chain Hc. induction Hws as [|w ws Hw Hws IH]; intros chain Hc; [done|].
  cbn [run_blocks]. destruct (mode_ok w chain Hst Hw Hc) as [H1 H2].
  destruct (enc st w chain) as [w' chain']. constructor; [done|by apply IH].
Qed.

Lemma loop3_roundtrip k inb out out' chain :
  tables_ok st -> block_ok chain -> bytes_ok inb ->
  8 * Z.of_nat k <= zlen inb -> 8 * Z.of_nat k <= zlen out -> 8 * Z.of_nat k <= zlen out' ->
  mem_read (block_loop3 (dec st) k (block_loop3 (enc st) k inb 0 out 0 chain) 0 out' 0 chain)
    0 (8 * Z.of_nat k) = mem_read inb 0 (8 * Z.of_nat k).
Proof using Type*.
  intros Hst Hc Hin H1 H2 H3. rewrite !block_loop3_spec by lia.
  set (ws := to_blocks k (drop (Z.to_nat 0) inb)).
  set (cs := run_blocks (enc st) chain ws).
  assert (Hws : Forall block_ok ws) by (by apply to_blocks_ok, Forall_drop).
  assert (Hcs : Forall block_ok cs) by (by apply run_blocks_ok).
  assert (Hlen : length cs = k).
  { unfold cs, ws. apply Nat2Z.inj. change (zlen (run_blocks (enc st) chain ws) = Z.of_nat k).
    unfold ws. by autorewrite with jme_len. }
  assert (Hcb : to_blocks k (drop (Z.to_nat 0) (mem_write out 0 (from_blocks cs))) = cs).
  { unfold mem_write. simpl. rewrite drop_0, to_blocks_app by zlen_lia.
    rewrite <- Hlen at 1. by apply to_from_blocks. }
  rewrite Hcb. unfold cs. rewrite run_blocks_inverse. unfold ws.
  change (Z.to_nat 0) with 0%nat. rewrite drop_0, from_to_blocks by done.
  unfold mem_write, mem_read. simpl. rewrite drop_0, take_app_length' by zlen_lia.
  f_equal. lia.
Qed.
End modes.

(** ** Lengths accepted by the buffer modes *)
Lemma bad_length_false n : 0 < n -> n mod 8 = 0 -> bad_length n = false.
Proof. intros. unfold bad_length. by rewrite (proj2 (Z.eqb_neq n 0)), H0 by lia. Qed.

Lemma blocks_of_length n : 0 <= n -> n mod 8 = 0 -> n = 8 * Z.of_nat (Z.to_nat (n / 8)).
Proof. intros. rewrite Z2Nat.id by (apply Z.div_pos; lia). Z.div_mod_to_equations. lia. Qed.

Lemma Encrypt_3_zlen st inb out n m : 0 <= n <= zlen out -> zlen (Encrypt_3 st inb out n m) = zlen out.
Proof.
  intros Hn. unfold Encrypt_3, bad_length.
  destruct (Z.eqb_spec n 0); [done|]. destruct (Z.eqb_spec (n mod 8) 0); [|done]. cbn [orb negb].
  pose proof (blocks_of_length n ltac:(lia) ltac:(done)).
  repeat case_match; rewrite block_loop3_spec, mem_write_zlen; zlen_lia.
Qed.

Lemma Decrypt_3_zlen st inb out n m : 0 <= n <= zlen out -> zlen (Decrypt_3 st inb out n m) = zlen out.
Proof.
  intros Hn. unfold Decrypt_3, bad_length.
  destruct (Z.eqb_spec n 0); [done|]. destruct (Z.eqb_spec (n mod 8) 0); [|done]. cbn [orb negb].
  pose proof (blocks_of_length n ltac:(lia) ltac:(done)).
  repeat case_match; rewrite block_loop3_spec, mem_write_zlen; zlen_lia.
Qed.

(** Only the first [n] bytes of the input are read. *)
Lemma Decrypt_3_prefix st inb out n m :
  0 <= n <= zlen inb -> n <= zlen out -> Decrypt_3 st (mem_read inb 0 n) out n m = Decrypt_3 st inb out n m.
Proof.
  intros Hn Ho. unfold Decrypt_3, bad_length.
  destruct (Z.eqb_spec n 0); [done|]. destruct (Z.eqb_spec (n mod 8) 0); [|done]. cbn [orb negb].
  pose proof (blocks_of_length n ltac:(lia) ltac:(done)).
  assert (Hb : to_blocks (Z.to_nat (n / 8)) inb = to_blocks (Z.to_nat (n / 8)) (mem_read inb 0 n)).
  { rewrite <- (take_drop (Z.to_nat n) inb) at 1. unfold mem_read. rewrite drop_0.
    apply to_blocks_app. zlen_lia. }
  repeat case_match; rewrite !block_loop3_spec by lia; change (Z.to_nat 0) with 0%nat;
    by rewrite !drop_0, Hb.
Qed.

Lemma modes_roundtrip st inb out out' n m :
  tables_ok st -> block_ok (m_oChain st) -> bytes_ok inb ->
  0 <= n -> n mod 8 = 0 -> n <= zlen inb -> n <= zlen out -> n <= zlen out' ->
  mem_read (Decrypt_3 st (Encrypt_3 st inb out n m) out' n m) 0 n = mem_read inb 0 n.
Proof.
  intros Hst Hc Hin Hn Hm H1 H2 H3.
  destruct (decide (n = 0)) as [->|]; [done|].
  unfold Encrypt_3, Decrypt_3. rewrite bad_length_false by lia.
  pose proof (blocks_of_length n Hn Hm) as Hk.
  generalize dependent (Z.to_nat (n / 8)). intros k ->.
  repeat case_match; apply loop3_roundtrip; try done; apply _.
Qed.

Lemma padded_length_spec len :
  0 <= len -> padded_length len mod 8 = 0 /\ len <= padded_length len < len + 8.
Proof.
  intros. unfold padded_length. rewrite Z.rem_mod_nonneg by lia.
  destruct (Z.eqb_spec (len mod 8) 0); cbn [negb]; Z.div_mod_to_equations; lia.
Qed.

Lemma padded_length_aligned len : 0 <= len -> len mod 8 = 0 -> padded_length len = len.
Proof. intros H Hm. unfold padded_length. rewrite Z.rem_mod_nonneg, Hm by lia. done. Qed.

(** What a run of [crypt_entry] returns. *)
Lemma crypt_entry_eq f inp key bits len g st :
  CBlowFish_new key (uwrap 64 bits) (mkSBlock 0 0) = Some st ->
  0 <= padded_length len -> padded_length len + 1 < 2 ^ 31 -> padded_length len <= zlen inp ->
  exists out, zlen out = padded_length len + 1 /\
  crypt_entry f inp key bits len g =
    Some (mem_read (mem_write (f st inp out (padded_length len) ECB) (padded_length len) [0])
            0 (padded_length len)).
Proof.
  intros Hst H0 H1 H2. unfold crypt_entry. rewrite Hst. cbn [mbind option_bind].
  destruct (Z.ltb_spec (padded_length len) 0); [lia|].
  destruct (Z.leb_spec (2 ^ 31) (padded_length len + 1)); [lia|].
  destruct (Z.ltb_spec (zlen inp) (padded_length len)); [lia|]. cbn [orb].
  eexists. split; [|reflexivity]. apply mem_read_zlen; [lia..|]. zlen_lia.
Qed.

Lemma reflect_P_chain n i st b : m_oChain (reflect_P n i st b).1 = m_oChain st.
Proof. revert i st b. induction n as [|n IH]; intros; [done|]. cbn [reflect_P]. by rewrite IH. Qed.

Lemma reflect_S_chain n j k st b : m_oChain (reflect_S n j k st b).1 = m_oChain st.
Proof. revert k st b. induction n as [|n IH]; intros; [done|]. cbn [reflect_S]. by rewrite IH. Qed.

Lemma reflect_S_rows_chain rows st b : m_oChain (reflect_S_rows rows st b).1 = m_oChain st.
Proof.
  revert st b. induction rows as [|j rows IH]; intros st b; [done|]. cbn [reflect_S_rows].
  pose proof (reflect_S_chain 128 j 0 st b) as H. destruct (reflect_S 128 j 0 st b).
  by rewrite IH.
Qed.

Lemma CBlowFish_new_chain key ks chain st :
  CBlowFish_new key ks chain = Some st -> m_oChain st = chain.
Proof.
  unfold CBlowFish_new. destruct (ks <? 1); [done|]. set (ks' := if 56 <? ks then 56 else ks).
  destruct (zlen key <? ks'); [done|]. set (st0 := mkCBlowFish _ _ _ _).
  pose proof (reflect_P_chain 9 0 st0 (mkSBlock 0 0)) as H1.
  destruct (reflect_P 9 0 st0 _) as [st1 b1].
  pose proof (reflect_S_rows_chain [0; 1; 2; 3]%nat st1 b1) as H2.
  destruct (reflect_S_rows _ st1 b1) as [st2 b2]. cbn [fst] in *.
  intros [= <-]. by rewrite H2, H1.
Qed.

(** * Properties *)

(** C16. The sixteen rounds of [Encrypt_4] and [Decrypt_4] are inverse
    permutations of the 64-bit blocks, whatever the P and S tables hold. *)
Theorem blowfish_block_bijective (st : CBlowFish) (b : SBlock) :
  Decrypt_4 st (Encrypt_4 st b) = b /\ Encrypt_4 st (Decrypt_4 st b) = b.
Proof. split; [apply Decrypt_Encrypt_4 | apply Encrypt_Decrypt_4]. Qed.

(** C17. The two public entry points are inverse: for a key of at least
    [min(bitCount, 56)] readable bytes and an input with [len] rounded up to a
    multiple of 8 readable bytes, [Encrypt] succeeds with that many bytes, and
    [Decrypt] of its output with the same key gives back the bytes read (whose
    first [len] bytes are the message). *)
Theorem blowfish_string_roundtrip (inp key : bytes) (bitCount len : Z) (g1 g2 : bytes) :
  bytes_ok inp -> bytes_ok key ->
  1 <= bitCount < 2 ^ 31 -> Z.min bitCount 56 <= zlen key ->
  0 <= len -> padded_length len + 1 < 2 ^ 31 -> padded_length len <= zlen inp ->
  exists c, Encrypt inp key bitCount len g1 = Some c /\
    zlen c = padded_length len /\
    Decrypt c key bitCount (padded_length len) g2 = Some (mem_read inp 0 (padded_length len)).
Proof.
  intros Hin Hkey Hb Hks Hlen H31 Hmem.
  assert (Hu : uwrap 64 bitCount = bitCount) by (apply uwrap_id; unfold in_u; lia).
  destruct (padded_length_spec len Hlen) as [Hmod Hge].
  destruct (CBlowFish_new_Some key bitCount (mkSBlock 0 0)) as [st Hst]; [lia..|].
  pose proof (CBlowFish_new_tables _ _ _ _ Hkey Hst) as Hok.
  pose proof (CBlowFish_new_chain _ _ _ _ Hst) as Hch.
  rewrite <- Hu in Hst.
  destruct (crypt_entry_eq Encrypt_3 inp key bitCount len g1 st Hst) as (out1 & Hl1 & HE); [lia..|].
  set (n := padded_length len) in *.
  assert (Hn : padded_length n = n) by (apply padded_length_aligned; lia).
  assert (HL : zlen (Encrypt_3 st inp out1 n ECB) = n + 1) by (rewrite Encrypt_3_zlen; lia).
  eexists. split; [exact HE|]. rewrite mem_read_write_before by lia.
  split; [apply mem_read_zlen; lia|].
  set (c := mem_read _ 0 n). assert (Hc : zlen c = n) by (apply mem_read_zlen; lia).
  destruct (crypt_entry_eq Decrypt_3 c key bitCount n g2 st Hst) as (out2 & Hl2 & HD); [lia..|].
  rewrite Hn in *. unfold Decrypt. rewrite HD. f_equal.
  subst c. rewrite Decrypt_3_prefix by lia.
  rewrite mem_read_write_before by (rewrite ?Decrypt_3_zlen; lia).
  apply modes_roundtrip; try done; try lia. rewrite Hch. split; simpl; unfold in_u; lia.
Qed.

(** Witness of C17: nine bytes of message (padded to sixteen) and a three-byte
    key. *)
Lemma blowfish_string_roundtrip_witness :
  exists c, Encrypt (replicate 16 7) [1; 2; 3] 3 9 [] = Some c /\ zlen c = padded_length 9 /\
    Decrypt c [1; 2; 3] 3 (padded_length 9) [] = Some (mem_read (replicate 16 7) 0 (padded_length 9)).
Proof.
  apply (blowfish_string_roundtrip (replicate 16 7) [1; 2; 3] 3 9 [] []); decide_closed.
Defined.

(** Every buffer mode round-trips: for a length that is a multiple of 8 and
    buffers that hold it, [Decrypt_3] in mode ECB, CBC or CFB recovers from the
    output of [Encrypt_3] in the same mode the bytes that were encrypted. *)
Theorem blowfish_modes_roundtrip (st : CBlowFish) (inb out out' : bytes) (n iMode : Z) :
  tables_ok st -> block_ok (m_oChain st) -> bytes_ok inb ->
  0 <= n -> n mod 8 = 0 -> n <= zlen inb -> n <= zlen out -> n <= zlen out' ->
  mem_read (Decrypt_3 st (Encrypt_3 st inb out n iMode) out' n iMode) 0 n = mem_read inb 0 n.
Proof. apply modes_roundtrip. Qed.

(** A concrete cipher object, for the witnesses: tables of zeroes. *)
Definition zero_cipher : CBlowFish :=
  mkCBlowFish (mkSBlock 1 2) (mkSBlock 1 2) (replicate 18 0) (replicate 4 (replicate 256 0)).

Lemma blowfish_modes_roundtrip_witness :
  mem_read (Decrypt_3 zero_cipher (Encrypt_3 zero_cipher (replicate 16 5) (replicate 16 0) 16 CBC)
    (replicate 16 0) 16 CBC) 0 16 = mem_read (replicate 16 5) 0 16.
Proof.
  apply (blowfish_modes_roundtrip zero_cipher (replicate 16 5) (replicate 16 0) (replicate 16 0) 16 CBC);
    decide_closed.
Defined.

(** The in-place modes are the two-buffer modes applied to one buffer:
    [Encrypt_2] in every mode, and [Decrypt_2] in every mode but CFB, give the
    contents that [Encrypt_3] and [Decrypt_3] give when input and output are
    that buffer. *)
Theorem blowfish_inplace_equiv (st : CBlowFish) (buf : bytes) (n iMode : Z) :
  0 <= n <= zlen buf ->
  Encrypt_2 st buf n iMode = Encrypt_3 st buf buf n iMode /\
  (iMode <> CFB -> Decrypt_2 st buf n iMode = Decrypt_3 st buf buf n iMode).
Proof.
  intros Hn. unfold Encrypt_2, Encrypt_3, Decrypt_2, Decrypt_3, bad_length.
  destruct (Z.eqb_spec n 0); [done|]. destruct (Z.eqb_spec (n mod 8) 0); [|done]. cbn [orb negb].
  pose proof (blocks_of_length n ltac:(lia) ltac:(done)).
  rewrite !block_loop2_loop3 by lia. split; [done|].
  intros Hm%Z.eqb_neq. by rewrite Hm.
Qed.

Lemma blowfish_inplace_equiv_witness :
  Encrypt_2 zero_cipher (replicate 16 5) 16 CBC = Encrypt_3 zero_cipher (replicate 16 5) (replicate 16 5) 16 CBC /\
  Decrypt_2 zero_cipher (replicate 16 5) 16 CBC = Decrypt_3 zero_cipher (replicate 16 5) (replicate 16 5) 16 CBC.
Proof.
  destruct (blowfish_inplace_equiv zero_cipher (replicate 16 5) 16 CBC) as [H1 H2].
  - decide_closed.
  - split; [exact H1|]. apply H2. decide_closed.
Defined.

(** [Decrypt_2] in CFB mode never writes the buffer: it leaves the cipher
    text as it is, for every buffer and length (the loop forgets the
    [BlockToBytes(work, buf+=8)] of the other modes). *)
Theorem Decrypt_2_CFB_leaves_buffer (st : CBlowFish) (buf : bytes) (n : Z) :
  Decrypt_2 st buf n CFB = buf.
Proof.
  unfold Decrypt_2. destruct (bad_length n); [done|]. cbn [Z.eqb CBC CFB Pos.eqb].
  generalize (m_oChain st). induction (Z.to_nat (n / 8)) as [|k IH]; intros c; [done|]. apply IH.
Qed.

(** The constructor, for every key of 1 to 56 readable bytes (longer keys are
    cut to 56), fills the eighteen P entries and the four 256-entry S rows with
    32-bit values. *)
Theorem blowfish_key_schedule (key : bytes) (keysize : Z) (chain : SBlock) :
  bytes_ok key -> 1 <= keysize -> Z.min keysize 56 <= zlen key ->
  exists st, CBlowFish_new key keysize chain = Some st /\ tables_ok st /\ m_oChain st = chain.
Proof.
  intros Hk H1 H2. destruct (CBlowFish_new_Some key keysize chain H1 H2) as [st Hst].
  exists st. split_and!; [done| |]; eauto using CBlowFish_new_tables, CBlowFish_new_chain.
Qed.

Lemma blowfish_key_schedule_witness :
  exists st, CBlowFish_new [9; 8; 7] 3 (mkSBlock 0 0) = Some st /\ tables_ok st /\
    m_oChain st = mkSBlock 0 0.
Proof.
  apply (blowfish_key_schedule [9; 8; 7] 3 (mkSBlock 0 0)); decide_closed.
Defined.

(** The cipher computes Blowfish: the published test vectors for the
    all-zero key and block, for the all-one key and block, and for the key
    0123456789ABCDEF with the block 1111111111111111. *)
Theorem blowfish_test_vectors :
  Encrypt (replicate 8 0) (replicate 8 0) 8 8 []
    = Some [0x4e; 0xf9; 0x97; 0x45; 0x61; 0x98; 0xdd; 0x78] /\
  Encrypt (replicate 8 0xff) (replicate 8 0xff) 8 8 []
    = Some [0x51; 0x86; 0x6f; 0xd5; 0xb8; 0x5e; 0xcb; 0x8a] /\
  Encrypt (replicate 8 0x11) [0x01; 0x23; 0x45; 0x67; 0x89; 0xab; 0xcd; 0xef] 8 8 []
    = Some [0x61; 0xf9; 0xc3; 0x80; 0x22; 0x81; 0xb0; 0x96].
Proof. split_and!; vm_compute; reflexivity. Qed.
