(* ===== verification/Message.v ===== *)
(** Message framing of include/net/JME_Message.h: the packed fourteen-byte
    [MessageHeader], the constructors of [Message], the copy of a received
    message into its own allocation ([Message::create]) and the accessors.

    A message's [_msgData] pointer is modelled by the bytes it points to; the
    header's memory image is little-endian, as on the targets the code supports. *)
From S2P Require Import Prelude.
Local Open Scope Z_scope.

(** ** Constants *)
Definition RPCMessage : Z := 1.
Definition HeartBeat : Z := 2.
Definition MaxMsgLength : Z := 819200.
Definition MessageHeaderLength : Z := 14.

(** [sizeof(long)] and [sizeof(Message)] on an LP64 target: the packed header
    and an eight-byte pointer. *)
Definition sizeof_long : Z := 8.
Definition sizeof_Message : Z := MessageHeaderLength + 8.

(** ** Data *)

(** [struct MessageHeader], fields in memory order. *)
Record MessageHeader : Set := mkMessageHeader {
  _totalLen : Z;
  _msgId : Z;
  _netId : Z;
  _bindId : Z
}.

(** [struct Message]. *)
Record Message : Set := mkMessage {
  _header : MessageHeader;
  _msgData : bytes
}.

#[global] Instance MessageHeader_eq_dec : EqDecision MessageHeader.
Proof. solve_decision. Defined.
#[global] Instance Message_eq_dec : EqDecision Message.
Proof. solve_decision. Defined.

(** ** Constructors *)

(** [MessageHeader(int msgId)]: [_msgId] is a [short]. *)
Definition MessageHeader_new (msgId : Z) : MessageHeader :=
  mkMessageHeader MessageHeaderLength (i16 msgId) 0 0.

(** [Message(short msgId, const string& msgStr)]. *)
Definition Message_new (msgId : Z) (msgStr : bytes) : Message :=
  let h := MessageHeader_new msgId in
  mkMessage (mkMessageHeader (i32 (zlen msgStr + MessageHeaderLength)) (_msgId h) (_netId h) (_bindId h))
    msgStr.

(** [Message(short msgId, int netId, const string& msgStr)]. *)
Definition Message_new_net (msgId netId : Z) (msgStr : bytes) : Message :=
  let h := MessageHeader_new msgId in
  mkMessage (mkMessageHeader (i32 (zlen msgStr + MessageHeaderLength)) (_msgId h) (i32 netId) (_bindId h))
    msgStr.

(** ** Memory image of the header *)
Definition header_bytes (h : MessageHeader) : bytes :=
  le_encode 4 (_totalLen h) ++ le_encode 2 (_msgId h) ++
  le_encode 4 (_netId h) ++ le_encode 4 (_bindId h).

Definition header_of_bytes (bs : bytes) : MessageHeader :=
  mkMessageHeader (i32 (le_decode (mem_read bs 0 4))) (i16 (le_decode (mem_read bs 4 2)))
    (i32 (le_decode (mem_read bs 6 4))) (i32 (le_decode (mem_read bs 10 4))).

(** [Message::messageDataLen]: an [int] difference converted to [size_t]. *)
Definition messageDataLen (m : Message) : Z :=
  u64 (_totalLen (_header m) - MessageHeaderLength).

(** [Message::getMessageStr]: [None] when the pointer does not have
    [messageDataLen] bytes behind it. *)
Definition getMessageStr (m : Message) : option bytes :=
  if messageDataLen m <=? zlen (_msgData m)
  then Some (mem_read (_msgData m) 0 (messageDataLen m)) else None.

(** [Message(const char* data_ptr)] placed in an allocation of [cap] bytes: copy
    the header, then [msgSize] bytes to [this + sizeof(Message)].  [None] when a
    read goes past the [data] or a write past the allocation. *)
Definition Message_copy (data : bytes) (cap : Z) : option Message :=
  if zlen data <? MessageHeaderLength then None else
  let h := header_of_bytes (mem_read data 0 MessageHeaderLength) in
  let msgSize := u64 (_totalLen h - MessageHeaderLength) in
  if (cap <? sizeof_Message + msgSize) || (zlen data <? MessageHeaderLength + msgSize) then None
  else Some (mkMessage h (mem_read data MessageHeaderLength msgSize)).

(** [Message::create(dataPtr, len)]: allocate [len + sizeof(long)] bytes and
    copy. *)
Definition Message_create (data : bytes) (len : Z) : option Message :=
  Message_copy data (len + sizeof_long).

(** ** Well-formed messages *)

(** A header whose fields have their C types. *)
Definition header_ok (h : MessageHeader) : Prop :=
  in_s 32 (_totalLen h) /\ in_s 16 (_msgId h) /\ in_s 32 (_netId h) /\ in_s 32 (_bindId h).

(** A message whose length field counts the header and the data. *)
Definition message_ok (m : Message) : Prop :=
  header_ok (_header m) /\ bytes_ok (_msgData m) /\
  _totalLen (_header m) = MessageHeaderLength + zlen (_msgData m).

#[global] Instance header_ok_dec h : Decision (header_ok h).
Proof. unfold header_ok. apply _. Defined.
#[global] Instance message_ok_dec m : Decision (message_ok m).
Proof. unfold message_ok. apply _. Defined.

(** What a peer sends for a message: header, then data. *)
Definition wire (m : Message) : bytes := header_bytes (_header m) ++ _msgData m.

(** * Lemmas *)
Lemma header_bytes_zlen h : zlen (header_bytes h) = MessageHeaderLength.
Proof. unfold header_bytes. by autorewrite with jme_len. Qed.
Lemma header_bytes_length h : length (header_bytes h) = 14%nat.
Proof. pose proof (header_bytes_zlen h). unfold zlen, MessageHeaderLength in *. lia. Qed.
#[export] Hint Rewrite header_bytes_zlen : jme_len.
#[export] Hint Rewrite header_bytes_length : jme_nlen.

Lemma header_bytes_ok h : bytes_ok (header_bytes h).
Proof. unfold header_bytes. rewrite !Forall_app. auto using le_encode_ok. Qed.

Lemma header_roundtrip h rest : header_ok h -> header_of_bytes (header_bytes h ++ rest) = h.
Proof.
  intros (H1 & H2 & H3 & H4). destruct h as [tl mi ni bi]. cbn [_totalLen _msgId _netId _bindId] in *.
  unfold header_of_bytes, header_bytes, mem_read. cbn [_totalLen _msgId _netId _bindId].
  rewrite <- !app_assoc.
  change (Z.to_nat 0) with 0%nat. change (Z.to_nat 4) with 4%nat. change (Z.to_nat 2) with 2%nat.
  change (Z.to_nat 6) with (4 + 2)%nat. change (Z.to_nat 10) with (4 + 2 + 4)%nat.
  rewrite drop_0, <- !drop_drop.
  rewrite !(drop_app_length' (le_encode 4 tl)) by (by rewrite le_encode_length).
  rewrite !(drop_app_length' (le_encode 2 mi)) by (by rewrite le_encode_length).
  rewrite !(drop_app_length' (le_encode 4 ni)) by (by rewrite le_encode_length).
  rewrite !take_app_length' by (by rewrite le_encode_length).
  rewrite !le_decode_encode. simpl (8 * _).
  rewrite !swrap_uwrap, !swrap_id by (done || lia). done.
Qed.

Lemma message_ok_dataLen m : message_ok m -> messageDataLen m = zlen (_msgData m).
Proof.
  intros ((H1 & _) & _ & Hlen). unfold messageDataLen, in_s, MessageHeaderLength in *. rewrite Hlen.
  pose proof (zlen_nonneg (_msgData m)). rewrite uwrap_id; [lia|]. unfold in_u. lia.
Qed.

Lemma message_ok_str m : message_ok m -> getMessageStr m = Some (_msgData m).
Proof.
  intros H. unfold getMessageStr. rewrite message_ok_dataLen by done.
  rewrite Z.leb_refl. unfold mem_read. rewrite drop_0. f_equal. apply take_ge. zlen_lia.
Qed.

Lemma wire_zlen m : message_ok m -> zlen (wire m) = _totalLen (_header m).
Proof. intros (_ & _ & ->). unfold wire. by autorewrite with jme_len. Qed.

Lemma Message_new_ok msgId s :
  bytes_ok s -> zlen s + MessageHeaderLength < 2 ^ 31 -> message_ok (Message_new msgId s).
Proof.
  intros Hs Hlen. pose proof (zlen_nonneg s). unfold MessageHeaderLength in *.
  unfold message_ok, header_ok, Message_new, MessageHeader_new, MessageHeaderLength.
  cbn [_header _msgData _totalLen _msgId _netId _bindId].
  split_and!; auto with jme_range; try (unfold in_s; lia).
  rewrite swrap_id; [lia|lia|]. unfold in_s. lia.
Qed.

(** Copying a received frame gives back the message that was sent, within the
    allocation made for it. *)
Lemma Message_create_wire m rest :
  message_ok m -> Message_create (wire m ++ rest) (_totalLen (_header m)) = Some m.
Proof.
  intros Hm. pose proof Hm as (Hh & Hd & Hlen).
  pose proof (message_ok_dataLen m Hm) as HdL. unfold messageDataLen in HdL.
  pose proof (zlen_nonneg (_msgData m)). pose proof (zlen_nonneg rest).
  unfold Message_create, Message_copy, wire. rewrite !zlen_app, header_bytes_zlen.
  unfold sizeof_Message, sizeof_long, MessageHeaderLength in *.
  destruct (Z.ltb_spec (14 + zlen (_msgData m) + zlen rest) 14); [lia|].
  assert (Hhd : mem_read ((header_bytes (_header m) ++ _msgData m) ++ rest) 0 14 = header_bytes (_header m) ++ []).
  { unfold mem_read. rewrite drop_0, <- app_assoc, app_nil_r. apply take_app_length'.
    zlen_lia. }
  rewrite Hhd, header_roundtrip by done. rewrite HdL, Hlen.
  destruct (Z.ltb_spec (14 + zlen (_msgData m) + 8) (14 + 8 + zlen (_msgData m))); [lia|].
  destruct (Z.ltb_spec (14 + zlen (_msgData m) + zlen rest) (14 + zlen (_msgData m))); [lia|].
  cbn [orb]. f_equal. destruct m as [h d]. f_equal. cbn [_header _msgData] in *.
  unfold mem_read. rewrite <- app_assoc.
  rewrite drop_app_length' by zlen_lia.
  rewrite take_app_length' by zlen_lia. done.
Qed.

(** * Property *)

(** C22. A received frame copied by [Message::create] is the message that was
    sent: header fields, data and length, within the [len + sizeof(long)] bytes
    allocated for it, whatever bytes follow the frame in the buffer. *)
Theorem message_wire_roundtrip (m : Message) (rest : bytes) :
  message_ok m ->
  Message_create (wire m ++ rest) (_totalLen (_header m)) = Some m /\
  getMessageStr m = Some (_msgData m).
Proof. intros Hm. split; [by apply Message_create_wire|by apply message_ok_str]. Qed.

(** Witness of C22: an RPC message of three bytes. *)
Lemma message_wire_roundtrip_witness :
  Message_create (wire (Message_new RPCMessage [1; 2; 3]) ++ [9]) 17 = Some (Message_new RPCMessage [1; 2; 3]) /\
  getMessageStr (Message_new RPCMessage [1; 2; 3]) = Some [1; 2; 3].
Proof. apply (message_wire_roundtrip (Message_new RPCMessage [1; 2; 3]) [9]). decide_closed. Defined.
