(* ===== verification/ReadBuffer.v ===== *)
(** The receive buffer of include/net/JME_ReadBuffer.h and the loop of
    [TcpSession::handleRead] (source/net/JME_TcpSession.cpp) that takes complete
    messages out of it.

    The buffer is a block of memory with two offsets: bytes below
    [_handleOffest] have been consumed, bytes from [_handleOffest] to
    [_buffOffest] are pending.  The specification is a pure framing function
    [parse] on byte streams; the buffer with its compaction implements it, and
    every chunking of a stream of messages delivers the messages in order. *)
From S2P Require Import Prelude Message.
Local Open Scope Z_scope.

(** ** Data *)

(** [class ReadBuffer]; the two pointers are offsets from [_buffer]. *)
Record ReadBuffer : Set := mkReadBuffer {
  _buffer : bytes;
  _buffSize : Z;
  _buffOffest : Z;
  _handleOffest : Z
}.

Definition ReadBufferError : Z := -1.
Definition ReadBufferNoMessage : Z := 0.

(** ** Operations *)

(** [ReadBuffer(size_t n)]: [mem] is the block of [n] bytes the allocator
    returns, with whatever it contains. *)
Definition ReadBuffer_new (mem : bytes) : ReadBuffer := mkReadBuffer mem (zlen mem) 0 0.

(** [getBuffer]. *)
Definition getBuffer (rb : ReadBuffer) : Z := _buffOffest rb.

(** [reset]. *)
Definition reset (rb : ReadBuffer) : ReadBuffer := mkReadBuffer (_buffer rb) (_buffSize rb) 0 0.

(** [getAvailableBufferSize]. *)
Definition getAvailableBufferSize (rb : ReadBuffer) : Z := _buffSize rb - _buffOffest rb.

(** [onCheckBufferWaining]: whether the warning is logged. *)
Definition onCheckBufferWaining (rb : ReadBuffer) : bool :=
  if _buffOffest rb <? _buffSize rb / 10 * 9 then false else true.

(** [readNewData], with the logging of the warning. *)
Definition readNewData (rb : ReadBuffer) (len : Z) : ReadBuffer * bool :=
  let rb := mkReadBuffer (_buffer rb) (_buffSize rb) (_buffOffest rb + len) (_handleOffest rb) in
  (rb, onCheckBufferWaining rb).

(** [onCheckBuffer]: when more than half of the buffer is consumed, move the
    pending bytes to the front and clear the rest. *)
Definition onCheckBuffer (rb : ReadBuffer) : ReadBuffer :=
  if _buffSize rb / 2 + 1 <? _handleOffest rb then
    let blen := i32 (_buffOffest rb - _handleOffest rb) in
    let buffer := mem_write (_buffer rb) 0 (mem_read (_buffer rb) (_handleOffest rb) blen) in
    let buffer := mem_write buffer blen (replicate (Z.to_nat (_buffSize rb - blen)) 0) in
    mkReadBuffer buffer (_buffSize rb) blen 0
  else rb.

(** [nextMessageLength]: the length field is the little-endian [int] at
    [_handleOffest]. *)
Definition nextMessageLength (rb : ReadBuffer) : Z :=
  if MessageHeaderLength <=? _buffOffest rb - _handleOffest rb then
    let len := i32 (le_decode (mem_read (_buffer rb) (_handleOffest rb) 4)) in
    if len <? MessageHeaderLength then ReadBufferError
    else if len <=? _buffOffest rb - _handleOffest rb then len
    else ReadBufferNoMessage
  else ReadBufferNoMessage.

(** [getMessage(char** buff, size_t* len)]: the returned code and, when the out
    parameters are set, the offset and the length of the message. *)
Definition getMessage (rb : ReadBuffer) : ReadBuffer * Z * option (Z * Z) :=
  let rb := onCheckBuffer rb in
  let len_ := nextMessageLength rb in
  if (MessageHeaderLength <=? len_) && (len_ <=? _buffOffest rb - _handleOffest rb) then
    (mkReadBuffer (_buffer rb) (_buffSize rb) (_buffOffest rb) (_handleOffest rb + len_),
     len_, Some (_handleOffest rb, len_))
  else (rb, len_, None).

(** The bytes the socket stores at [getBuffer()]. *)
Definition socket_fill (rb : ReadBuffer) (data : bytes) : ReadBuffer :=
  mkReadBuffer (mem_write (_buffer rb) (getBuffer rb) data) (_buffSize rb)
    (_buffOffest rb) (_handleOffest rb).

(** How the message loop of [handleRead] ends: [getMessage] reported an error,
    reported no message, or (never, as proved below) a message was used without
    its out parameters set or could not be copied, or the fuel ran out. *)
Inductive read_outcome : Set := RO_error | RO_no_message | RO_fault | RO_fuel.

#[global] Instance read_outcome_eq_dec : EqDecision read_outcome.
Proof. solve_decision. Defined.

(** The [while(1)] loop of [TcpSession::handleRead]: messages are copied by
    [Message::create] and posted in order. *)
Fixpoint read_loop (fuel : nat) (rb : ReadBuffer) : ReadBuffer * list Message * read_outcome :=
  match fuel with
  | O => (rb, [], RO_fuel)
  | S fuel =>
      let '(rb, c, out) := getMessage rb in
      if c =? ReadBufferError then (rb, [], RO_error)
      else if c =? ReadBufferNoMessage then (rb, [], RO_no_message)
      else
        match out with
        | None => (rb, [], RO_fault)
        | Some (data_ptr, l) =>
            match Message_create (drop (Z.to_nat data_ptr) (_buffer rb)) l with
            | None => (rb, [], RO_fault)
            | Some msg =>
                let '(rb, msgs, oc) := read_loop fuel rb in (rb, msg :: msgs, oc)
            end
        end
  end.

(** Every iteration consumes a message of at least fourteen bytes, so one
    iteration per pending byte, plus the last one, is enough fuel. *)
Definition read_fuel (rb : ReadBuffer) : nat := S (Z.to_nat (_buffOffest rb - _handleOffest rb)).

(** The body of [handleRead] on the receive buffer, when the socket delivers
    [data]. *)
Definition receive (rb : ReadBuffer) (data : bytes) : ReadBuffer * list Message * read_outcome :=
  let rb := socket_fill rb data in
  let '(rb, _) := readNewData rb (zlen data) in
  read_loop (read_fuel rb) rb.

(** ** Invariant *)
Definition rb_ok (rb : ReadBuffer) : Prop :=
  zlen (_buffer rb) = _buffSize rb /\ bytes_ok (_buffer rb) /\ _buffSize rb < 2 ^ 31 /\
  0 <= _handleOffest rb <= _buffOffest rb /\ _buffOffest rb <= _buffSize rb.

Definition pending (rb : ReadBuffer) : bytes :=
  mem_read (_buffer rb) (_handleOffest rb) (_buffOffest rb - _handleOffest rb).

(** ** Specification: framing of a byte stream *)
Inductive frame_result : Set := FNeedMore | FBad | FMsg (len : Z).

Definition next_frame (s : bytes) : frame_result :=
  if zlen s <? MessageHeaderLength then FNeedMore
  else
    let len := i32 (le_decode (take 4 s)) in
    if len <? MessageHeaderLength then FBad
    else if len <=? zlen s then FMsg len else FNeedMore.

Definition frame_message (f : bytes) : Message :=
  mkMessage (header_of_bytes (take 14 f)) (drop 14 f).

(** Messages, unconsumed bytes, and whether no bad length was met. *)
Fixpoint parse_fuel (fuel : nat) (s : bytes) : list Message * bytes * bool :=
  match fuel with
  | O => ([], s, true)
  | S fuel =>
      match next_frame s with
      | FNeedMore => ([], s, true)
      | FBad => ([], s, false)
      | FMsg len =>
          let '(ms, r, ok) := parse_fuel fuel (drop (Z.to_nat len) s) in
          (frame_message (take (Z.to_nat len) s) :: ms, r, ok)
      end
  end.

Definition parse (s : bytes) : list Message * bytes * bool := parse_fuel (S (length s)) s.

(** * Lemmas *)

(** ** The framing function *)
Lemma next_frame_bounds s len :
  next_frame s = FMsg len -> MessageHeaderLength <= len <= zlen s.
Proof.
  unfold next_frame. repeat case_match; try done. intros [= <-].
  by rewrite ?Z.ltb_ge, ?Z.leb_le in *.
Qed.

Lemma parse_fuel_enough n m s :
  (length s < n)%nat -> (length s < m)%nat -> parse_fuel n s = parse_fuel m s.
Proof.
  revert m s. induction n as [|n IH]; intros m s Hn Hm; [lia|].
  destruct m as [|m]; [lia|]. cbn [parse_fuel].
  destruct (next_frame s) as [| |len] eqn:E; [done..|].
  apply next_frame_bounds in E. unfold MessageHeaderLength in *.
  rewrite (IH m); [done| |]; rewrite length_drop; zlen_lia.
Qed.

Lemma parse_unfold s :
  parse s =
  match next_frame s with
  | FNeedMore => ([], s, true)
  | FBad => ([], s, false)
  | FMsg len =>
      let '(ms, r, ok) := parse (drop (Z.to_nat len) s) in
      (frame_message (take (Z.to_nat len) s) :: ms, r, ok)
  end.
Proof.
  unfold parse at 1. cbn [parse_fuel]. destruct (next_frame s) as [| |len] eqn:E; [done..|].
  apply next_frame_bounds in E. unfold MessageHeaderLength in *.
  unfold parse. rewrite (parse_fuel_enough (length s) (S (length (drop (Z.to_nat len) s))));
    [done| |]; rewrite ?length_drop; zlen_lia.
Qed.

(** ** Pending bytes *)
Lemma pending_zlen rb : rb_ok rb -> zlen (pending rb) = _buffOffest rb - _handleOffest rb.
Proof. intros (Hl & _ & _ & H1 & H2). unfold pending. apply mem_read_zlen; lia. Qed.

Lemma pending_drop rb :
  rb_ok rb -> exists tail, drop (Z.to_nat (_handleOffest rb)) (_buffer rb) = pending rb ++ tail.
Proof.
  intros _. unfold pending, mem_read.
  exists (drop (Z.to_nat (_buffOffest rb - _handleOffest rb)) (drop (Z.to_nat (_handleOffest rb)) (_buffer rb))).
  by rewrite take_drop.
Qed.

Lemma pending_ok rb : rb_ok rb -> bytes_ok (pending rb).
Proof. intros (_ & H & _). by apply Forall_take, Forall_drop. Qed.

Lemma replicate_zero_ok n : bytes_ok (replicate n 0).
Proof. apply Forall_replicate. unfold byte_ok, in_u. lia. Qed.

Lemma mem_write_ok buf off d : bytes_ok buf -> bytes_ok d -> bytes_ok (mem_write buf off d).
Proof.
  intros Hb Hd. unfold mem_write. rewrite !Forall_app.
  split_and!; [by apply Forall_take|done|by apply Forall_drop].
Qed.

(** ** Compaction *)
Lemma compaction_disjoint rb :
  rb_ok rb -> _buffSize rb / 2 + 1 < _handleOffest rb ->
  i32 (_buffOffest rb - _handleOffest rb) = _buffOffest rb - _handleOffest rb /\
  _buffOffest rb - _handleOffest rb < _handleOffest rb.
Proof.
  intros (Hl & _ & H31 & H1 & H2) Hc. pose proof (zlen_nonneg (_buffer rb)).
  rewrite swrap_id; [|lia|unfold in_s; lia]. split; [done|]. Z.div_mod_to_equations. lia.
Qed.

Lemma onCheckBuffer_spec rb :
  rb_ok rb ->
  rb_ok (onCheckBuffer rb) /\ pending (onCheckBuffer rb) = pending rb /\
  _buffSize (onCheckBuffer rb) = _buffSize rb /\
  _handleOffest (onCheckBuffer rb) <= _buffSize rb / 2 + 1.
Proof.
  intros Hok. unfold onCheckBuffer.
  pose proof Hok as (Hl & Hb & H31 & H1 & H2). pose proof (zlen_nonneg (_buffer rb)).
  assert (0 <= _buffSize rb / 2) by (apply Z.div_pos; lia).
  destruct (Z.ltb_spec (_buffSize rb / 2 + 1) (_handleOffest rb)) as [Hc|Hc]; [|auto with lia].
  destruct (compaction_disjoint rb Hok Hc) as [-> Hdis].
  pose proof (pending_zlen rb Hok) as Hp. fold (pending rb).
  set (blen := _buffOffest rb - _handleOffest rb) in *.
  set (b1 := mem_write (_buffer rb) 0 (pending rb)).
  assert (Hb1 : zlen b1 = _buffSize rb) by (unfold b1; rewrite mem_write_zlen; lia).
  set (z := replicate _ 0). assert (Hz : zlen z = _buffSize rb - blen) by (unfold z; zlen_lia).
  split_and!; cbn [_buffer _buffSize _buffOffest _handleOffest]; try lia.
  - unfold rb_ok. cbn [_buffer _buffSize _buffOffest _handleOffest].
    rewrite mem_write_zlen by lia. split_and!; try lia.
    apply mem_write_ok; [apply mem_write_ok; [done|by apply pending_ok]|apply replicate_zero_ok].
  - unfold pending at 1. cbn [_buffer _buffOffest _handleOffest]. rewrite Z.sub_0_r.
    rewrite mem_read_write_before by lia.
    unfold b1. rewrite <- Hp. apply mem_read_write_same; lia.
Qed.

(** ** [getMessage] takes one frame off the pending bytes *)
Lemma nextMessageLength_spec rb :
  rb_ok rb ->
  nextMessageLength rb =
  match next_frame (pending rb) with
  | FNeedMore => ReadBufferNoMessage
  | FBad => ReadBufferError
  | FMsg len => len
  end.
Proof.
  intros Hok. pose proof (pending_zlen rb Hok) as Hp.
  unfold nextMessageLength, next_frame. rewrite Hp.
  destruct (Z.leb_spec MessageHeaderLength (_buffOffest rb - _handleOffest rb)) as [H14|H14];
    destruct (Z.ltb_spec (_buffOffest rb - _handleOffest rb) MessageHeaderLength); try lia; try done.
  unfold MessageHeaderLength in *.
  assert (Hr : mem_read (_buffer rb) (_handleOffest rb) 4 = take 4 (pending rb)).
  { destruct (pending_drop rb Hok) as [tail Ht]. unfold mem_read. rewrite Ht.
    change (Z.to_nat 4) with 4%nat. rewrite take_app_le; [done|zlen_lia]. }
  rewrite Hr. repeat case_match; done.
Qed.

Lemma getMessage_spec rb :
  rb_ok rb ->
  let '(rb', c, out) := getMessage rb in
  rb_ok rb' /\ _buffSize rb' = _buffSize rb /\
  match next_frame (pending rb) with
  | FNeedMore => c = ReadBufferNoMessage /\ out = None /\ pending rb' = pending rb /\
      _handleOffest rb' <= _buffSize rb' / 2 + 1
  | FBad => c = ReadBufferError /\ out = None /\ pending rb' = pending rb
  | FMsg len => c = len /\ pending rb' = drop (Z.to_nat len) (pending rb) /\
      exists p tail, out = Some (p, len) /\ drop (Z.to_nat p) (_buffer rb') = pending rb ++ tail
  end.
Proof.
  intros Hok. unfold getMessage.
  destruct (onCheckBuffer_spec rb Hok) as (Hok1 & Hpend & Hsize & Hh).
  set (rb1 := onCheckBuffer rb) in *. clearbody rb1.
  rewrite nextMessageLength_spec, Hpend by done.
  pose proof (pending_zlen rb1 Hok1) as Hlen. rewrite Hpend in Hlen.
  destruct (next_frame (pending rb)) as [| |len] eqn:E; cbn [andb Z.leb Z.compare].
  - split_and!; try done. by rewrite Hsize.
  - done.
  - apply next_frame_bounds in E.
    rewrite (proj2 (Z.leb_le MessageHeaderLength len)), (proj2 (Z.leb_le len _)) by lia. cbn [andb].
    pose proof Hok1 as (Hl & Hb & H31 & H1 & H2). unfold MessageHeaderLength in *.
    split_and!; cbn [_buffSize]; try done.
    + unfold rb_ok. cbn [_buffer _buffSize _buffOffest _handleOffest]. split_and!; try done; lia.
    + unfold pending at 1. cbn [_buffer _buffOffest _handleOffest]. rewrite <- Hpend.
      unfold pending, mem_read. rewrite Z2Nat.inj_add, <- drop_drop by lia.
      rewrite skipn_firstn_comm.
      f_equal. lia.
    + destruct (pending_drop rb1 Hok1) as [tail Ht]. rewrite Hpend in Ht. eauto.
Qed.

(** Copying a frame out of the buffer stays within the frame and within the
    allocation. *)
Lemma Message_create_frame s tail len :
  bytes_ok s -> next_frame s = FMsg len ->
  Message_create (s ++ tail) len = Some (frame_message (take (Z.to_nat len) s)).
Proof.
  intros Hs E. pose proof (next_frame_bounds s len E) as Hb. unfold next_frame in E.
  unfold Message_create, Message_copy, sizeof_Message, sizeof_long, MessageHeaderLength in *.
  pose proof (zlen_nonneg tail).
  destruct (Z.ltb_spec (zlen s) 14) as [|H14]; [done|].
  destruct (i32 (le_decode (take 4 s)) <? 14); [done|].
  destruct (i32 (le_decode (take 4 s)) <=? zlen s); [|done]. injection E as E.
  rewrite zlen_app. destruct (Z.ltb_spec (zlen s + zlen tail) 14); [lia|].
  assert (Hh : mem_read (s ++ tail) 0 14 = take 14 s).
  { unfold mem_read. rewrite drop_0. apply take_app_le. zlen_lia. }
  rewrite Hh.
  assert (Hlen : _totalLen (header_of_bytes (take 14 s)) = len).
  { unfold header_of_bytes. cbn [_totalLen]. unfold mem_read. rewrite drop_0, take_take. done. }
  rewrite Hlen.
  pose proof (swrap_range 32 (le_decode (take 4 s)) ltac:(lia)) as Hr. rewrite E in Hr.
  unfold in_s in Hr. rewrite uwrap_id by (unfold in_u; lia).
  destruct (Z.ltb_spec (len + 8) (14 + 8 + (len - 14))); [lia|].
  destruct (Z.ltb_spec (zlen s + zlen tail) (14 + (len - 14))); [lia|]. cbn [orb].
  unfold frame_message. rewrite take_take. f_equal. f_equal; [f_equal; f_equal; lia|].
  unfold mem_read. change (Z.to_nat 14) with 14%nat.
  rewrite drop_app_le by zlen_lia. rewrite take_app_le by zlen_lia.
  rewrite skipn_firstn_comm. f_equal. lia.
Qed.

(** ** The read loop computes [parse] *)
Lemma read_loop_parse fuel rb :
  rb_ok rb -> (length (pending rb) < fuel)%nat ->
  let '(rb', ms, oc) := read_loop fuel rb in
  let '(ms', r, ok) := parse (pending rb) in
  rb_ok rb' /\ _buffSize rb' = _buffSize rb /\ ms = ms' /\ pending rb' = r /\
  oc = (if ok then RO_no_message else RO_error) /\
  (ok = true -> _handleOffest rb' <= _buffSize rb' / 2 + 1).
Proof.
  revert rb. induction fuel as [|fuel IH]; intros rb Hok Hf; [lia|].
  cbn [read_loop]. rewrite parse_unfold.
  pose proof (getMessage_spec rb Hok) as Hg. destruct (getMessage rb) as [[rb1 c] out].
  destruct Hg as (Hok1 & Hsize & Hg).
  destruct (next_frame (pending rb)) as [| |len] eqn:E.
  - destruct Hg as (-> & -> & Hp & Hh). by split_and!.
  - destruct Hg as (-> & -> & Hp). by split_and!.
  - destruct Hg as (-> & Hp & p & tail & -> & Ht).
    pose proof (next_frame_bounds _ _ E) as Hb. unfold MessageHeaderLength in Hb.
    unfold ReadBufferError, ReadBufferNoMessage.
    destruct (Z.eqb_spec len (-1)); [lia|]. destruct (Z.eqb_spec len 0); [lia|].
    rewrite Ht, (Message_create_frame _ _ _ (pending_ok rb Hok) E).
    specialize (IH rb1 Hok1). rewrite Hp in IH.
    assert (Hf' : (length (drop (Z.to_nat len) (pending rb)) < fuel)%nat) by zlen_lia.
    specialize (IH Hf'). destruct (read_loop fuel rb1) as [[rb2 ms] oc].
    destruct (parse (drop (Z.to_nat len) (pending rb))) as [[ms' r] ok].
    destruct IH as (H1 & H2 & -> & H3 & H4 & H5). split_and!; try done. by rewrite H2.
Qed.

(** ** Receiving a chunk *)
Lemma receive_state rb data :
  rb_ok rb -> bytes_ok data -> zlen data <= getAvailableBufferSize rb ->
  let rb1 := (readNewData (socket_fill rb data) (zlen data)).1 in
  rb_ok rb1 /\ pending rb1 = pending rb ++ data /\ _buffSize rb1 = _buffSize rb.
Proof.
  intros (Hl & Hb & H31 & H1 & H2) Hd Hav rb1. unfold getAvailableBufferSize in Hav.
  pose proof (zlen_nonneg data).
  unfold rb1, readNewData, socket_fill, getBuffer. cbn [fst _buffer _buffSize _buffOffest _handleOffest].
  split_and!; [|unfold pending; cbn [_buffer _buffOffest _handleOffest]|done].
  - unfold rb_ok. cbn [_buffer _buffSize _buffOffest _handleOffest].
    rewrite mem_write_zlen by lia. split_and!; try lia. by apply mem_write_ok.
  - replace (_buffOffest rb + zlen data - _handleOffest rb)
      with ((_buffOffest rb - _handleOffest rb) + zlen data) by lia.
    rewrite mem_read_split by lia. f_equal; [apply mem_read_write_before; lia|].
    replace (_handleOffest rb + (_buffOffest rb - _handleOffest rb)) with (_buffOffest rb) by lia.
    apply mem_read_write_same; lia.
Qed.

Lemma receive_parse rb data :
  rb_ok rb -> bytes_ok data -> zlen data <= getAvailableBufferSize rb ->
  let '(rb', ms, oc) := receive rb data in
  let '(ms', r, ok) := parse (pending rb ++ data) in
  rb_ok rb' /\ _buffSize rb' = _buffSize rb /\ ms = ms' /\ pending rb' = r /\
  oc = (if ok then RO_no_message else RO_error) /\
  (ok = true -> _handleOffest rb' <= _buffSize rb' / 2 + 1).
Proof.
  intros Hok Hd Hav. unfold receive.
  destruct (receive_state rb data Hok Hd Hav) as (Hok1 & Hp & Hs).
  destruct (readNewData (socket_fill rb data) (zlen data)) as [rb1 w]. cbn [fst] in *.
  pose proof (read_loop_parse (read_fuel rb1) rb1 Hok1) as H. rewrite Hp, Hs in H. apply H.
  rewrite <- Hp. unfold read_fuel. pose proof (pending_zlen rb1 Hok1). zlen_lia.
Qed.

(** ** Framing of a stream of messages *)
Definition wires (ms : list Message) : bytes := mjoin (wire <$> ms).

Lemma wires_cons m ms : wires (m :: ms) = wire m ++ wires ms.
Proof. done. Qed.

Lemma wire_prefix_length m rest :
  message_ok m -> i32 (le_decode (take 4 (wire m ++ rest))) = _totalLen (_header m).
Proof.
  intros ((H1 & _) & _). unfold wire, header_bytes. rewrite <- !app_assoc.
  rewrite take_app_length' by (by rewrite le_encode_length).
  rewrite le_decode_encode. change (8 * Z.of_nat 4) with 32.
  rewrite swrap_uwrap, swrap_id by (done || lia). done.
Qed.

Lemma frame_message_wire m : message_ok m -> frame_message (wire m) = m.
Proof.
  intros (Hh & _). unfold frame_message, wire.
  rewrite take_app_length', drop_app_length' by (by rewrite header_bytes_length).
  rewrite <- (app_nil_r (header_bytes _)), header_roundtrip by done. by destruct m.
Qed.

Lemma next_frame_wire m s :
  message_ok m -> next_frame (wire m ++ s) = FMsg (_totalLen (_header m)).
Proof.
  intros Hm. pose proof (wire_zlen m Hm) as Hl. pose proof Hm as (_ & _ & Ht).
  pose proof (zlen_nonneg s). pose proof (zlen_nonneg (_msgData m)).
  unfold next_frame. rewrite wire_prefix_length by done. rewrite zlen_app, Hl.
  unfold MessageHeaderLength in *.
  destruct (Z.ltb_spec (_totalLen (_header m) + zlen s) 14); [lia|].
  destruct (Z.ltb_spec (_totalLen (_header m)) 14); [lia|].
  destruct (Z.leb_spec (_totalLen (_header m)) (_totalLen (_header m) + zlen s)); [done|lia].
Qed.

Lemma next_frame_partial m p q rest :
  message_ok m -> p ++ q = wire m ++ rest -> zlen p < _totalLen (_header m) ->
  next_frame p = FNeedMore.
Proof.
  intros Hm Heq Hlt. pose proof Hm as (_ & _ & Ht). pose proof (zlen_nonneg (_msgData m)).
  unfold next_frame. unfold MessageHeaderLength in *.
  destruct (Z.ltb_spec (zlen p) 14); [done|].
  assert (H4 : take 4 p = take 4 (wire m ++ rest)) by (rewrite <- Heq, take_app_le; [done|zlen_lia]).
  rewrite H4, wire_prefix_length by done.
  destruct (Z.ltb_spec (_totalLen (_header m)) 14); [lia|].
  destruct (Z.leb_spec (_totalLen (_header m)) (zlen p)); [lia|done].
Qed.

(** Parsing a prefix of a stream of messages yields the messages it contains
    entirely, and keeps the bytes of the next one. *)
Lemma parse_prefix ms p q :
  Forall message_ok ms -> p ++ q = wires ms ->
  exists got rest p', ms = got ++ rest /\ parse p = (got, p', true) /\
    p' ++ q = wires rest /\
    match rest with [] => p' = [] | m :: _ => zlen p' < _totalLen (_header m) end.
Proof.
  intros Hms. revert p. induction Hms as [|m ms Hm Hms IH]; intros p Heq.
  - apply app_nil in Heq as [-> ->]. by exists [], [], [].
  - rewrite wires_cons in Heq. pose proof (wire_zlen m Hm) as Hl.
    destruct (decide (zlen p < _totalLen (_header m))) as [Hlt|Hge].
    + exists [], (m :: ms), p. rewrite parse_unfold, (next_frame_partial m p q _ Hm Heq Hlt).
      by split_and!.
    + assert (Hp : exists p2, p = wire m ++ p2 /\ p2 ++ q = wires ms).
      { exists (drop (length (wire m)) p).
        assert (Ht : take (length (wire m)) p = wire m).
        { transitivity (take (length (wire m)) (p ++ q)); [by rewrite take_app_le by zlen_lia|].
          rewrite Heq. by apply take_app_length'. }
        split; [by rewrite <- Ht at 1; rewrite take_drop|].
        apply (f_equal (drop (length (wire m)))) in Heq.
        rewrite drop_app_le in Heq by zlen_lia. rewrite Heq. by apply drop_app_length'. }
      destruct Hp as (p2 & -> & Heq2). destruct (IH p2 Heq2) as (got & rest & p' & -> & Hpar & Hq & Hr).
      exists (m :: got), rest, p'. split_and!; try done.
      rewrite parse_unfold, next_frame_wire by done.
      rewrite drop_app_length', take_app_length' by zlen_lia.
      by rewrite Hpar, frame_message_wire.
Qed.

(** ** A connection: reads of any size from the byte stream

    [recv_run ks rb stream] performs one readiness callback per element of [ks]:
    the socket stores at most [k] bytes, at most what fits in the buffer and at
    most what is left of the stream. *)
Definition recv_size (k : Z) (rb : ReadBuffer) (stream : bytes) : Z :=
  Z.min k (Z.min (getAvailableBufferSize rb) (zlen stream)).

Fixpoint recv_run (ks : list Z) (rb : ReadBuffer) (stream : bytes)
    : ReadBuffer * bytes * list Message * bool :=
  match ks with
  | [] => (rb, stream, [], true)
  | k :: ks =>
      let n := Z.to_nat (recv_size k rb stream) in
      let '(rb, ms, oc) := receive rb (take n stream) in
      if decide (oc = RO_no_message) then
        let '(rb, stream, ms', ok) := recv_run ks rb (drop n stream) in (rb, stream, ms ++ ms', ok)
      else (rb, drop n stream, ms, false)
  end.

(** The largest message that is never blocked by a compaction that does not
    take place. *)
Definition max_frame (size : Z) : Z := size - (size / 2 + 1).

(** What holds between two callbacks: the bytes pending, still to come and not
    yet sent ([future]) are the messages [ms] not yet delivered, and the first of
    them is incomplete. *)
Definition recv_inv (rb : ReadBuffer) (stream future : bytes) (ms : list Message) : Prop :=
  rb_ok rb /\ _handleOffest rb <= _buffSize rb / 2 + 1 /\
  pending rb ++ stream ++ future = wires ms /\
  match ms with [] => pending rb = [] | m :: _ => zlen (pending rb) < _totalLen (_header m) end.

Lemma wires_ok ms : Forall message_ok ms -> bytes_ok (wires ms).
Proof.
  induction 1 as [|m ms (_ & Hd & _) _ IH]; [done|]. rewrite wires_cons. unfold wire.
  rewrite !Forall_app. split_and!; auto using header_bytes_ok.
Qed.

Lemma recv_step_inv k rb stream future ms :
  Forall message_ok ms -> recv_inv rb stream future ms -> 0 <= k ->
  let n := Z.to_nat (recv_size k rb stream) in
  exists rb' got rest, ms = got ++ rest /\
    receive rb (take n stream) = (rb', got, RO_no_message) /\
    _buffSize rb' = _buffSize rb /\ recv_inv rb' (drop n stream) future rest.
Proof.
  intros Hms (Hok & Hh & Heq & Hfst) Hk n.
  assert (Hbs : bytes_ok stream).
  { pose proof (wires_ok ms Hms) as H. rewrite <- Heq, !Forall_app in H. by destruct_and!. }
  pose proof Hok as (Hl & _ & _ & H1 & H2). pose proof (zlen_nonneg stream).
  assert (Hav : zlen (take n stream) <= getAvailableBufferSize rb).
  { unfold n, recv_size, getAvailableBufferSize in *. zlen_lia. }
  pose proof (receive_parse rb (take n stream) Hok (Forall_take _ _ _ Hbs) Hav) as Hr.
  destruct (parse_prefix ms (pending rb ++ take n stream) (drop n stream ++ future) Hms)
    as (got & rest & p' & -> & Hpar & Hq & Hrest).
  { by rewrite <- app_assoc, (app_assoc (take n stream)), take_drop. }
  rewrite Hpar in Hr. destruct (receive rb (take n stream)) as [[rb' ms'] oc].
  destruct Hr as (Hok' & Hs' & -> & Hp' & -> & Hh'). exists rb', got, rest.
  unfold recv_inv. rewrite Hp'. split_and!; auto.
Qed.

Lemma recv_run_inv ks rb stream future ms :
  Forall message_ok ms -> recv_inv rb stream future ms -> Forall (Z.le 0) ks ->
  exists rb' stream' got rest, ms = got ++ rest /\
    recv_run ks rb stream = (rb', stream', got, true) /\
    _buffSize rb' = _buffSize rb /\ recv_inv rb' stream' future rest.
Proof.
  intros Hms Hinv Hks. revert rb stream ms Hms Hinv.
  induction Hks as [|k ks Hk Hks IH]; intros rb stream ms Hms Hinv.
  - by exists rb, stream, [], ms.
  - cbn [recv_run].
    destruct (recv_step_inv k rb stream future ms Hms Hinv Hk)
      as (rb1 & got & rest & -> & -> & Hs & Hinv1).
    rewrite decide_True by done. apply Forall_app in Hms as [_ Hrest].
    destruct (IH rb1 _ rest Hrest Hinv1) as (rb2 & s2 & got2 & rest2 & -> & -> & Hs2 & Hinv2).
    exists rb2, s2, (got ++ got2), rest2. split_and!; auto using app_assoc. by rewrite Hs2.
Qed.

(** Progress: with messages of at most [max_frame] bytes, there is always room
    to read more of the stream. *)
Lemma recv_room rb stream future ms :
  Forall (fun m => _totalLen (_header m) <= max_frame (_buffSize rb)) ms ->
  recv_inv rb stream future ms -> stream <> [] -> 0 < getAvailableBufferSize rb.
Proof.
  intros Hmax (Hok & Hh & Heq & Hfst) Hne.
  pose proof (pending_zlen rb Hok) as Hp. unfold getAvailableBufferSize.
  destruct ms as [|m ms].
  - exfalso. apply Hne. rewrite Hfst in Heq. by destruct stream.
  - apply Forall_cons in Hmax as [Hm _]. unfold max_frame in Hm. lia.
Qed.

Lemma recv_run_all ks rb stream ms :
  Forall message_ok ms ->
  Forall (fun m => _totalLen (_header m) <= max_frame (_buffSize rb)) ms ->
  recv_inv rb stream [] ms -> Forall (Z.le 1) ks -> zlen stream <= zlen ks ->
  exists rb', recv_run ks rb stream = (rb', [], ms, true) /\ pending rb' = [].
Proof.
  intros Hms Hmax Hinv Hks. revert rb stream ms Hms Hmax Hinv.
  induction Hks as [|k ks Hk Hks IH]; intros rb stream ms Hms Hmax Hinv Hlen.
  - assert (stream = []) as -> by (destruct stream; [done|zlen_lia]).
    assert (ms = []) as ->.
    { destruct Hinv as (_ & _ & Heq & Hf). destruct ms as [|m ms]; [done|].
      rewrite app_nil_r in Heq. rewrite Heq, wires_cons, zlen_app in Hf.
      apply Forall_cons in Hms as [Hm _]. rewrite (wire_zlen m Hm) in Hf.
      pose proof (zlen_nonneg (wires ms)). lia. }
    exists rb. split; [done|]. by destruct Hinv as (_ & _ & _ & ?).
  - cbn [recv_run].
    destruct (recv_step_inv k rb stream [] ms Hms Hinv)
      as (rb1 & got & rest & -> & -> & Hs & Hinv1); [lia|].
    rewrite decide_True by done.
    assert (Hdrop : zlen (drop (Z.to_nat (recv_size k rb stream)) stream) <= zlen ks).
    { destruct stream as [|b stream'] eqn:Es; [unfold zlen; simpl; rewrite drop_nil; simpl; lia|].
      rewrite <- Es in *. assert (Hroom : 0 < getAvailableBufferSize rb).
      { eapply recv_room; eauto. by rewrite Es. }
      assert (0 < zlen stream) by (subst; zlen_lia).
      unfold recv_size. zlen_lia. }
    apply Forall_app in Hms as [_ Hrest]. apply Forall_app in Hmax as [_ Hmaxr].
    rewrite <- Hs in Hmaxr.
    destruct (IH rb1 _ rest Hrest Hmaxr Hinv1 Hdrop) as (rb2 & -> & Hp). eauto.
Qed.

Lemma recv_inv_fresh mem stream future ms :
  bytes_ok mem -> zlen mem < 2 ^ 31 -> Forall message_ok ms -> stream ++ future = wires ms ->
  recv_inv (ReadBuffer_new mem) stream future ms.
Proof.
  intros Hb H31 Hms Heq. pose proof (zlen_nonneg mem).
  assert (0 <= zlen mem / 2) by (apply Z.div_pos; lia).
  unfold recv_inv, ReadBuffer_new, rb_ok, pending, mem_read. cbn [_buffer _buffSize _buffOffest _handleOffest].
  split_and!; try done; try lia. destruct Hms as [|m ms Hm Hms]; [done|].
  destruct Hm as (_ & _ & ->). pose proof (zlen_nonneg (_msgData m)).
  unfold MessageHeaderLength. zlen_lia.
Qed.

(** * Properties *)

(** C4. The message loop of [handleRead] refines the framing of the pending
    bytes: with the fuel [read_fuel] it always ends, posts exactly the messages
    the pending bytes contain, in order, leaves the unframed tail pending, ends
    with the error outcome exactly when a length below fourteen is met, and
    keeps the buffer well formed. *)
Theorem read_loop_refines_parse (rb : ReadBuffer) :
  rb_ok rb ->
  let '(rb', msgs, oc) := read_loop (read_fuel rb) rb in
  let '(msgs', rest, ok) := parse (pending rb) in
  rb_ok rb' /\ msgs = msgs' /\ pending rb' = rest /\
  oc = (if ok then RO_no_message else RO_error).
Proof.
  intros Hok. pose proof (read_loop_parse (read_fuel rb) rb Hok) as H.
  destruct (read_loop _ rb) as [[rb' ms] oc]. destruct (parse (pending rb)) as [[ms' r] ok].
  destruct H as (H1 & _ & H2 & H3 & H4 & _); [|done].
  unfold read_fuel. pose proof (pending_zlen rb Hok). zlen_lia.
Qed.

(** Witness of C4: a buffer of twenty zero bytes, all pending. *)
Lemma read_loop_refines_parse_witness :
  let rb := mkReadBuffer (replicate 20 0) 20 20 0 in
  let '(rb', msgs, oc) := read_loop (read_fuel rb) rb in
  let '(msgs', rest, ok) := parse (pending rb) in
  rb_ok rb' /\ msgs = msgs' /\ pending rb' = rest /\
  oc = (if ok then RO_no_message else RO_error).
Proof. apply (read_loop_refines_parse (mkReadBuffer (replicate 20 0) 20 20 0)). decide_closed. Defined.

(** C20. Whatever the sizes of the reads, a stream of well-formed messages never
    produces a read error, and what has been delivered is at any time a prefix
    of the messages sent, in order; the bytes pending, still to come and not yet
    sent are exactly the remaining messages. *)
Theorem stream_delivered_in_order (mem : bytes) (msgs : list Message) (ks : list Z) (stream future : bytes) :
  bytes_ok mem -> zlen mem < 2 ^ 31 -> Forall message_ok msgs -> Forall (Z.le 0) ks ->
  stream ++ future = wires msgs ->
  exists rb stream' got rest, msgs = got ++ rest /\
    recv_run ks (ReadBuffer_new mem) stream = (rb, stream', got, true) /\
    pending rb ++ stream' ++ future = wires rest.
Proof.
  intros Hb H31 Hms Hks Heq.
  destruct (recv_run_inv ks _ _ _ msgs Hms (recv_inv_fresh mem _ _ msgs Hb H31 Hms Heq) Hks)
    as (rb & s & got & rest & H1 & H2 & _ & Hinv).
  exists rb, s, got, rest. destruct Hinv as (_ & _ & ? & _). done.
Qed.

(** Witness of C20: two messages read five bytes at a time. *)
Lemma stream_delivered_in_order_witness :
  let msgs := [Message_new RPCMessage [1; 2; 3]; Message_new HeartBeat []] in
  exists rb stream' got rest, msgs = got ++ rest /\
    recv_run [5; 5; 5; 5] (ReadBuffer_new (replicate 64 0)) (take 25 (wires msgs)) = (rb, stream', got, true) /\
    pending rb ++ stream' ++ drop 25 (wires msgs) = wires rest.
Proof.
  apply (stream_delivered_in_order (replicate 64 0)
    [Message_new RPCMessage [1; 2; 3]; Message_new HeartBeat []] [5; 5; 5; 5]
    (take 25 (wires [Message_new RPCMessage [1; 2; 3]; Message_new HeartBeat []]))
    (drop 25 (wires [Message_new RPCMessage [1; 2; 3]; Message_new HeartBeat []]))); decide_closed.
Defined.



(** Compaction copies with [memcpy] between regions that do not overlap, as
    the comment in the code claims: the pending bytes are shorter than the
    consumed prefix; the pending bytes and the invariant are preserved. *)
Theorem compaction_safe (rb : ReadBuffer) :
  rb_ok rb -> _buffSize rb / 2 + 1 < _handleOffest rb ->
  let blen := i32 (_buffOffest rb - _handleOffest rb) in
  0 <= blen /\ 0 + blen <= _handleOffest rb /\
  rb_ok (onCheckBuffer rb) /\ pending (onCheckBuffer rb) = pending rb /\
  _handleOffest (onCheckBuffer rb) = 0.
Proof.
  intros Hok Hc. destruct (compaction_disjoint rb Hok Hc) as [Hb Hd].
  destruct (onCheckBuffer_spec rb Hok) as (H1 & H2 & _). pose proof Hok as (_ & _ & _ & H3 & _).
  split_and!; try done; try lia. unfold onCheckBuffer. by rewrite (proj2 (Z.ltb_lt _ _) Hc).
Qed.

(** An instance of [compaction_safe]: forty of sixty-four bytes consumed. *)
Lemma compaction_safe_witness :
  let rb := mkReadBuffer (replicate 64 0) 64 50 40 in
  0 <= 10 /\ 0 + 10 <= 40 /\ rb_ok (onCheckBuffer rb) /\ pending (onCheckBuffer rb) = pending rb /\
  _handleOffest (onCheckBuffer rb) = 0.
Proof. apply (compaction_safe (mkReadBuffer (replicate 64 0) 64 50 40)); decide_closed. Defined.

(** A buffer that is full with an incomplete message and not more than half
    consumed no longer changes: no byte can be read and nothing is compacted. *)
Definition stalled (rb : ReadBuffer) : Prop :=
  getAvailableBufferSize rb = 0 /\ next_frame (pending rb) = FNeedMore /\
  _handleOffest rb <= _buffSize rb / 2 + 1.

Lemma receive_stalled rb : rb_ok rb -> stalled rb -> receive rb [] = (rb, [], RO_no_message).
Proof.
  intros Hok (Hav & Hnf & Hh). destruct rb as [buf size off hd].
  unfold receive, socket_fill, readNewData, getBuffer. cbn [_buffer _buffSize _buffOffest _handleOffest] in *.
  rewrite mem_write_nil, zlen_nil, Z.add_0_r. unfold read_fuel. cbn [read_loop]. unfold getMessage.
  assert (Hc : onCheckBuffer (mkReadBuffer buf size off hd) = mkReadBuffer buf size off hd).
  { unfold onCheckBuffer. cbn [_buffSize _handleOffest]. by rewrite (proj2 (Z.ltb_ge _ _) Hh). }
  rewrite Hc, nextMessageLength_spec, Hnf by done. done.
Qed.

Lemma recv_run_stalled ks rb stream :
  rb_ok rb -> stalled rb -> Forall (Z.le 0) ks -> recv_run ks rb stream = (rb, stream, [], true).
Proof.
  intros Hok Hst Hks. induction Hks as [|k ks Hk Hks IH]; [done|]. cbn [recv_run].
  assert (Hn : recv_size k rb stream = 0).
  { destruct Hst as [H _]. unfold recv_size. rewrite H. pose proof (zlen_nonneg stream). lia. }
  rewrite Hn, take_0, receive_stalled, decide_True by done.
  change (Z.to_nat 0) with 0%nat. by rewrite drop_0, IH.
Qed.

(** A buffer can stall for ever although every message fits in it: with a
    64-byte buffer, after a message of twenty bytes, a message of fifty bytes is
    never delivered, however often the socket becomes readable. *)
Theorem read_buffer_can_stall :
  exists m1 m2 rb stream,
    message_ok m1 /\ message_ok m2 /\
    _totalLen (_header m1) = 20 /\ _totalLen (_header m2) = 50 /\
    recv_run [64] (ReadBuffer_new (replicate 64 0)) (wires [m1; m2]) = (rb, stream, [m1], true) /\
    stream <> [] /\
    forall ks, Forall (Z.le 0) ks -> recv_run ks rb stream = (rb, stream, [], true).
Proof.
  set (m1 := Message_new RPCMessage (replicate 6 1)). set (m2 := Message_new RPCMessage (replicate 36 2)).
  set (res := recv_run [64] (ReadBuffer_new (replicate 64 0)) (wires [m1; m2])).
  exists m1, m2, (res.1.1.1), (res.1.1.2). split_and!;
    [decide_closed|decide_closed|reflexivity|reflexivity|vm_compute; reflexivity|by vm_compute|].
  intros ks Hks. apply recv_run_stalled; [decide_closed| |done].
  split_and!; by vm_compute.
Qed.
