(* ===== verification/ShmBuffer.v ===== *)
(** The buffer in shared memory of the older engine, [JME_SHM_Buffer] of
    backup/include/net/JME_ReadBuffer.h, and the local path of its session
    (backup/source/net/JME_TcpSession.cpp): two processes on one machine hand messages
    to each other through it.

    The buffer has the layout of the receive buffer ([ReadBuffer]) and the same
    [nextMessageLength] and [onCheckBuffer], the latter called by the writer.
    [None] is an access outside of the mapped memory. *)
From S2P Require Import Prelude Message ReadBuffer.
Local Open Scope Z_scope.

(** [JME_SHM_Buffer(name, n)]: the memory is cleared. *)
Definition SHM_Buffer (n : Z) : ReadBuffer := mkReadBuffer (replicate (Z.to_nat n) 0) n 0 0.

Definition SHM_onCheckBuffer (shm_buff : ReadBuffer) : ReadBuffer := onCheckBuffer shm_buff.
Definition SHM_nextMessageLength (shm_buff : ReadBuffer) : Z := nextMessageLength shm_buff.

(** [writeBuffer], when the memory can be opened (otherwise nothing is written). The
    memory that is mapped is what the object had when it was opened: growing the
    object does not change it. *)
Definition SHM_writeBuffer (opened : bool) (data : bytes) (shm_buff : ReadBuffer) : option ReadBuffer :=
  if opened then
    let b := SHM_onCheckBuffer shm_buff in
    let mapped := zlen (_buffer b) in
    if _buffOffest b + zlen data <=? mapped then
      Some (mkReadBuffer (mem_write (_buffer b) (_buffOffest b) data) (_buffSize b) (_buffOffest b + zlen data) (_handleOffest b))
    else None
  else Some shm_buff.

(** [getMessage]: the code, and the message. *)
Definition SHM_getMessage (shm_buff : ReadBuffer) : option (ReadBuffer * Z * option Message) :=
  let len_ := SHM_nextMessageLength shm_buff in
  if MessageHeaderLength <=? len_ then
    msg ← Message_create (drop (Z.to_nat (_handleOffest shm_buff)) (_buffer shm_buff)) len_;
    Some (mkReadBuffer (_buffer shm_buff) (_buffSize shm_buff) (_buffOffest shm_buff) (_handleOffest shm_buff + len_), len_, Some msg)
  else Some (shm_buff, len_, None).

(** The local branch of [JME_TcpSession::writeMessage]: header, then data. *)
Definition local_write (opened1 opened2 : bool) (msg : Message) (b : ReadBuffer) : option ReadBuffer :=
  b ← SHM_writeBuffer opened1 (header_bytes (_header msg)) b;
  SHM_writeBuffer opened2 (_msgData msg) b.

(** [JME_TcpSession::localRead]: the messages posted, and whether the loop ended
    without a bad length. *)
Fixpoint localRead (fuel : nat) (b : ReadBuffer) : option (ReadBuffer * list Message * bool) :=
  match fuel with
  | O => None
  | S fuel =>
      '(b, c, msg) ← SHM_getMessage b;
      if c =? ReadBufferError then Some (b, [], false)
      else if c =? ReadBufferNoMessage then Some (b, [], true)
      else m ← msg; '(b, ms, ok) ← localRead fuel b; Some (b, m :: ms, ok)
  end.

(** * Lemmas *)
Lemma SHM_writeBuffer_ok b data : rb_ok b -> bytes_ok data -> _buffOffest b + zlen data <= _buffSize b ->
  exists b', SHM_writeBuffer true data b = Some b' /\ rb_ok b' /\ pending b' = pending b ++ data /\ _buffSize b' = _buffSize b /\
    _buffOffest b' <= _buffOffest b + zlen data.
Proof.
  intros Hok Hd Hroom. unfold SHM_writeBuffer, SHM_onCheckBuffer. destruct (onCheckBuffer_spec b Hok) as (Hok1 & Hp & Hs & _).
  assert (Hoff : _buffOffest (onCheckBuffer b) <= _buffOffest b).
  { unfold onCheckBuffer. destruct (Z.ltb_spec (_buffSize b / 2 + 1) (_handleOffest b)) as [Hc|]; [|lia].
    destruct (compaction_disjoint b Hok Hc) as [-> _]. cbn. destruct Hok as (_ & _ & _ & ? & _). lia. }
  pose proof Hok1 as (Hl & _). destruct (Z.leb_spec (_buffOffest (onCheckBuffer b) + zlen data) (zlen (_buffer (onCheckBuffer b)))); [|lia].
  destruct (receive_state (onCheckBuffer b) data Hok1 Hd) as (Hok2 & Hp2 & Hs2); [unfold getAvailableBufferSize; lia|].
  cbn [readNewData socket_fill getBuffer fst _buffer _buffSize _buffOffest _handleOffest] in Hok2, Hp2, Hs2.
  eexists. split; [done|]. split; [exact Hok2|]. split; [by rewrite <- Hp|]. split; [done|]. cbn [_buffOffest]. lia.
Qed.

Lemma local_write_ok b m : rb_ok b -> message_ok m -> _buffOffest b + zlen (wire m) <= _buffSize b ->
  exists b', local_write true true m b = Some b' /\ rb_ok b' /\ pending b' = pending b ++ wire m /\ _buffSize b' = _buffSize b /\
    _buffOffest b' <= _buffOffest b + zlen (wire m).
Proof.
  intros Hok Hm Hroom. unfold wire in *. rewrite zlen_app in *. pose proof (zlen_nonneg (_msgData m)).
  pose proof Hm as (_ & Hd & _). unfold local_write.
  destruct (SHM_writeBuffer_ok b (header_bytes (_header m)) Hok (header_bytes_ok _)) as (b1 & -> & Hok1 & Hp1 & Hs1 & Ho1); [lia|].
  cbn [mbind option_bind]. destruct (SHM_writeBuffer_ok b1 (_msgData m) Hok1 Hd) as (b2 & E2 & Hok2 & Hp2 & Hs2 & Ho2); [lia|].
  exists b2. split_and!; [done|done|by rewrite Hp2, Hp1, <- app_assoc|lia|lia].
Qed.

(** Taking one message. *)
Lemma SHM_getMessage_ok b : rb_ok b ->
  match next_frame (pending b) with
  | FNeedMore => SHM_getMessage b = Some (b, ReadBufferNoMessage, None)
  | FBad => SHM_getMessage b = Some (b, ReadBufferError, None)
  | FMsg len => exists b', SHM_getMessage b = Some (b', len, Some (frame_message (take (Z.to_nat len) (pending b)))) /\ rb_ok b' /\
      pending b' = drop (Z.to_nat len) (pending b) /\ _buffSize b' = _buffSize b /\ _buffOffest b' = _buffOffest b
  end.
Proof.
  intros Hok. unfold SHM_getMessage, SHM_nextMessageLength. rewrite nextMessageLength_spec by done.
  destruct (next_frame (pending b)) as [| |len] eqn:E; [done|done|]. pose proof (next_frame_bounds _ _ E) as Hb.
  destruct (Z.leb_spec MessageHeaderLength len); [|lia]. destruct (pending_drop b Hok) as [tail Ht]. rewrite Ht.
  rewrite (Message_create_frame _ _ _ (pending_ok b Hok) E). cbn [mbind option_bind]. eexists. split; [done|].
  pose proof (pending_zlen b Hok) as Hz. destruct Hok as (Hl & Hby & H31 & H1 & H2). unfold MessageHeaderLength in *.
  split; [unfold rb_ok; cbn [_buffer _buffSize _buffOffest _handleOffest]; split_and!; try done; lia|].
  split; [|done]. unfold pending. cbn [_buffer _buffOffest _handleOffest]. unfold mem_read.
  rewrite Z2Nat.inj_add, <- drop_drop by lia. rewrite skipn_firstn_comm. f_equal. lia.
Qed.

Lemma localRead_parse fuel b : rb_ok b -> (length (pending b) < fuel)%nat ->
  exists b', localRead fuel b = Some (b', (parse (pending b)).1.1, (parse (pending b)).2) /\ rb_ok b' /\
    pending b' = (parse (pending b)).1.2 /\ _buffSize b' = _buffSize b /\ _buffOffest b' = _buffOffest b.
Proof.
  revert b. induction fuel as [|fuel IH]; intros b Hok Hf; [lia|]. cbn [localRead]. rewrite parse_unfold.
  pose proof (SHM_getMessage_ok b Hok) as Hg. destruct (next_frame (pending b)) as [| |len] eqn:E.
  - rewrite Hg. cbn. by exists b.
  - rewrite Hg. cbn. by exists b.
  - destruct Hg as (b1 & -> & Hok1 & Hp1 & Hs1 & Ho1). cbn [mbind option_bind].
    pose proof (next_frame_bounds _ _ E) as Hb. unfold MessageHeaderLength, ReadBufferError, ReadBufferNoMessage in *.
    destruct (Z.eqb_spec len (-1)); [lia|]. destruct (Z.eqb_spec len 0); [lia|].
    destruct (IH b1 Hok1) as (b2 & -> & Hok2 & Hp2 & Hs2 & Ho2); [rewrite Hp1; zlen_lia|]. rewrite Hp1 in *. cbn [mbind option_bind].
    exists b2. destruct (parse (drop (Z.to_nat len) (pending b))) as [[ms r] ok]. cbn in *. split_and!; try done; lia.
Qed.

(** ** Two processes on one buffer *)

(** The writer calls, and the reader's rounds, in the order in which they happen. *)
Inductive ShmOp : Set := ShmWrite (msg : Message) | ShmRead.
Definition shm_fuel (b : ReadBuffer) : nat := S (Z.to_nat (_buffOffest b - _handleOffest b)).
Fixpoint shm_run (ops : list ShmOp) (b : ReadBuffer) : option (ReadBuffer * list Message) :=
  match ops with
  | [] => Some (b, [])
  | ShmWrite m :: ops => b ← local_write true true m b; shm_run ops b
  | ShmRead :: ops => '(b, ms, _) ← localRead (shm_fuel b) b; '(b, ms') ← shm_run ops b; Some (b, ms ++ ms')
  end.

Definition written (ops : list ShmOp) : list Message :=
  omap (fun op => match op with ShmWrite m => Some m | ShmRead => None end) ops.

Lemma parse_wires ms : Forall message_ok ms -> parse (wires ms) = (ms, [], true).
Proof.
  intros Hms. destruct (parse_prefix ms (wires ms) [] Hms) as (got & rest & p' & Eg & Ep & Er & Hr); [by rewrite app_nil_r|].
  rewrite app_nil_r in Er. subst p'. destruct rest as [|m rest]; [rewrite app_nil_r in Eg; by subst got|].
  rewrite Eg in Hms. apply Forall_app in Hms as [_ Hm]. apply Forall_cons in Hm as [Hm _].
  rewrite wires_cons, zlen_app, (wire_zlen m Hm) in Hr. pose proof (zlen_nonneg (wires rest)). lia.
Qed.

Lemma wires_app a b : wires (a ++ b) = wires a ++ wires b.
Proof. unfold wires. by rewrite fmap_app, join_app. Qed.

Lemma shm_run_ok ops b q :
  rb_ok b -> Forall message_ok (q ++ written ops) -> pending b = wires q -> _buffOffest b + zlen (wires (written ops)) <= _buffSize b ->
  exists b' got rest, shm_run ops b = Some (b', got) /\ q ++ written ops = got ++ rest /\ rb_ok b' /\ pending b' = wires rest.
Proof.
  revert b q. induction ops as [|[m|] ops IH]; intros b q Hok Hm Hp Hroom.
  - exists b, [], q. cbn. by rewrite app_nil_r.
  - cbn [shm_run]. change (written (ShmWrite m :: ops)) with (m :: written ops) in *. rewrite wires_cons, zlen_app in Hroom.
    pose proof (zlen_nonneg (wires (written ops))). pose proof Hm as Hm1. apply Forall_app in Hm1 as [_ Hm1]. apply Forall_cons in Hm1 as [Hmm _].
    destruct (local_write_ok b m Hok Hmm) as (b1 & -> & Hok1 & Hp1 & Hs1 & Ho1); [lia|]. cbn [mbind option_bind].
    destruct (IH b1 (q ++ [m])) as (b2 & got & rest & E & Eq & Hok2 & Hp2); [done|by rewrite <- app_assoc| |lia|].
    { rewrite Hp1, Hp, wires_app. unfold wires. cbn. by rewrite app_nil_r. }
    exists b2, got, rest. rewrite <- app_assoc in Eq. by split_and!.
  - cbn [shm_run]. change (written (ShmRead :: ops)) with (written ops) in *. pose proof Hm as Hm1. apply Forall_app in Hm1 as [Hq Hw].
    destruct (localRead_parse (shm_fuel b) b Hok) as (b1 & E1 & Hok1 & Hp1 & Hs1 & Ho1).
    { unfold shm_fuel. pose proof (pending_zlen b Hok). zlen_lia. }
    rewrite Hp, parse_wires in * by done. cbn [fst snd] in *. rewrite E1. cbn [mbind option_bind].
    destruct (IH b1 []) as (b2 & got & rest & E & Eq & Hok2 & Hp2); [done|done|done|lia|]. rewrite E. cbn [mbind option_bind].
    exists b2, (q ++ got), rest. split_and!; try done. cbn in Eq. by rewrite Eq, <- app_assoc.
Qed.


(** A message that does not fit is written behind the mapped memory: the object is
    made larger, but the mapping of the writer is not. *)
Theorem shm_write_overruns (b : ReadBuffer) (data : bytes) :
  rb_ok b -> _buffSize b < _buffOffest (onCheckBuffer b) + zlen data -> SHM_writeBuffer true data b = None.
Proof.
  intros Hok Hlt. unfold SHM_writeBuffer, SHM_onCheckBuffer. destruct (onCheckBuffer_spec b Hok) as ((Hl & _) & _ & Hs & _).
  destruct (Z.leb_spec (_buffOffest (onCheckBuffer b) + zlen data) (zlen (_buffer (onCheckBuffer b)))); [lia|done].
Qed.

Definition sample_message (data : bytes) : Message := mkMessage (mkMessageHeader (14 + zlen data) 1 0 0) data.


(** An instance of [shm_write_overruns]: twenty bytes for sixteen. *)
Lemma shm_write_overruns_witness : SHM_writeBuffer true (replicate 20 7) (SHM_Buffer 16) = None.
Proof.
  apply (shm_write_overruns (SHM_Buffer 16) (replicate 20 7)); [|done]. unfold rb_ok. split; [done|]. split; [apply replicate_zero_ok|]. cbn. lia.
Defined.
