(* ===== verification/TcpSession.v ===== *)
(** The TCP session of include/net/JME_TcpSession.h and
    source/net/JME_TcpSession.cpp: connection state machine, receive path and
    the buffered send path.

    The object is the record [TcpSession]; a method is a transformer of it that
    returns the effects it has on the rest of the system in order: callbacks
    posted to the logic thread, asynchronous operations started on the network
    thread, bytes handed to the socket.  What the socket, the resolver and the
    timer answer are arguments: the completion handlers take the error code they
    are called with, [read_some] and [write_some] return what the caller of the
    model says they return (a transferred size is cut to what was offered, which
    is the contract of those calls).  Error codes are the Linux ones, 0 being
    success. *)
From S2P Require Import Prelude Message ReadBuffer.
Local Open Scope Z_scope.
Local Open Scope sw_scope.

(** ** Data *)
Inductive SessionStatus : Set := Disconnected | Connected | Connecting.
Inductive GameStatus : Set := NullGame | InGame.

#[global] Instance SessionStatus_eq_dec : EqDecision SessionStatus.
Proof. solve_decision. Defined.
#[global] Instance GameStatus_eq_dec : EqDecision GameStatus.
Proof. solve_decision. Defined.

(** [class TcpSession]; [_socket_open] is [_socket.is_open()]. *)
Record TcpSession : Set := mkTcpSession {
  _socket_open : bool;
  _asyncConnect : bool;
  _writeBuffer : option (list Z);
  _writeBufferSize : Z;
  _writeBufferOffest : Z;
  _buff : ReadBuffer;
  _net_id : Z;
  _writing : bool;
  _writeBlockTimes : Z;
  _reading : bool;
  _readBlockTimes : Z;
  _reconnectInterval : Z;
  _ip : string;
  _port : string;
  _status : SessionStatus;
  _gameStatus : GameStatus
}.

(** Assignments to the members. *)
Definition set_socket_open (v : bool) (s : TcpSession) : TcpSession :=
  mkTcpSession v (_asyncConnect s) (_writeBuffer s) (_writeBufferSize s) (_writeBufferOffest s) (_buff s) (_net_id s) (_writing s) (_writeBlockTimes s) (_reading s) (_readBlockTimes s) (_reconnectInterval s) (_ip s) (_port s) (_status s) (_gameStatus s).
Definition set_asyncConnect (v : bool) (s : TcpSession) : TcpSession :=
  mkTcpSession (_socket_open s) v (_writeBuffer s) (_writeBufferSize s) (_writeBufferOffest s) (_buff s) (_net_id s) (_writing s) (_writeBlockTimes s) (_reading s) (_readBlockTimes s) (_reconnectInterval s) (_ip s) (_port s) (_status s) (_gameStatus s).
Definition set_writeBuffer (v : option (list Z)) (s : TcpSession) : TcpSession :=
  mkTcpSession (_socket_open s) (_asyncConnect s) v (_writeBufferSize s) (_writeBufferOffest s) (_buff s) (_net_id s) (_writing s) (_writeBlockTimes s) (_reading s) (_readBlockTimes s) (_reconnectInterval s) (_ip s) (_port s) (_status s) (_gameStatus s).
Definition set_writeBufferSize (v : Z) (s : TcpSession) : TcpSession :=
  mkTcpSession (_socket_open s) (_asyncConnect s) (_writeBuffer s) v (_writeBufferOffest s) (_buff s) (_net_id s) (_writing s) (_writeBlockTimes s) (_reading s) (_readBlockTimes s) (_reconnectInterval s) (_ip s) (_port s) (_status s) (_gameStatus s).
Definition set_writeBufferOffest (v : Z) (s : TcpSession) : TcpSession :=
  mkTcpSession (_socket_open s) (_asyncConnect s) (_writeBuffer s) (_writeBufferSize s) v (_buff s) (_net_id s) (_writing s) (_writeBlockTimes s) (_reading s) (_readBlockTimes s) (_reconnectInterval s) (_ip s) (_port s) (_status s) (_gameStatus s).
Definition set_buff (v : ReadBuffer) (s : TcpSession) : TcpSession :=
  mkTcpSession (_socket_open s) (_asyncConnect s) (_writeBuffer s) (_writeBufferSize s) (_writeBufferOffest s) v (_net_id s) (_writing s) (_writeBlockTimes s) (_reading s) (_readBlockTimes s) (_reconnectInterval s) (_ip s) (_port s) (_status s) (_gameStatus s).
Definition set_net_id (v : Z) (s : TcpSession) : TcpSession :=
  mkTcpSession (_socket_open s) (_asyncConnect s) (_writeBuffer s) (_writeBufferSize s) (_writeBufferOffest s) (_buff s) v (_writing s) (_writeBlockTimes s) (_reading s) (_readBlockTimes s) (_reconnectInterval s) (_ip s) (_port s) (_status s) (_gameStatus s).
Definition set_writing (v : bool) (s : TcpSession) : TcpSession :=
  mkTcpSession (_socket_open s) (_asyncConnect s) (_writeBuffer s) (_writeBufferSize s) (_writeBufferOffest s) (_buff s) (_net_id s) v (_writeBlockTimes s) (_reading s) (_readBlockTimes s) (_reconnectInterval s) (_ip s) (_port s) (_status s) (_gameStatus s).
Definition set_writeBlockTimes (v : Z) (s : TcpSession) : TcpSession :=
  mkTcpSession (_socket_open s) (_asyncConnect s) (_writeBuffer s) (_writeBufferSize s) (_writeBufferOffest s) (_buff s) (_net_id s) (_writing s) v (_reading s) (_readBlockTimes s) (_reconnectInterval s) (_ip s) (_port s) (_status s) (_gameStatus s).
Definition set_reading (v : bool) (s : TcpSession) : TcpSession :=
  mkTcpSession (_socket_open s) (_asyncConnect s) (_writeBuffer s) (_writeBufferSize s) (_writeBufferOffest s) (_buff s) (_net_id s) (_writing s) (_writeBlockTimes s) v (_readBlockTimes s) (_reconnectInterval s) (_ip s) (_port s) (_status s) (_gameStatus s).
Definition set_readBlockTimes (v : Z) (s : TcpSession) : TcpSession :=
  mkTcpSession (_socket_open s) (_asyncConnect s) (_writeBuffer s) (_writeBufferSize s) (_writeBufferOffest s) (_buff s) (_net_id s) (_writing s) (_writeBlockTimes s) (_reading s) v (_reconnectInterval s) (_ip s) (_port s) (_status s) (_gameStatus s).
Definition set_reconnectInterval (v : Z) (s : TcpSession) : TcpSession :=
  mkTcpSession (_socket_open s) (_asyncConnect s) (_writeBuffer s) (_writeBufferSize s) (_writeBufferOffest s) (_buff s) (_net_id s) (_writing s) (_writeBlockTimes s) (_reading s) (_readBlockTimes s) v (_ip s) (_port s) (_status s) (_gameStatus s).
Definition set_ip (v : string) (s : TcpSession) : TcpSession :=
  mkTcpSession (_socket_open s) (_asyncConnect s) (_writeBuffer s) (_writeBufferSize s) (_writeBufferOffest s) (_buff s) (_net_id s) (_writing s) (_writeBlockTimes s) (_reading s) (_readBlockTimes s) (_reconnectInterval s) v (_port s) (_status s) (_gameStatus s).
Definition set_port (v : string) (s : TcpSession) : TcpSession :=
  mkTcpSession (_socket_open s) (_asyncConnect s) (_writeBuffer s) (_writeBufferSize s) (_writeBufferOffest s) (_buff s) (_net_id s) (_writing s) (_writeBlockTimes s) (_reading s) (_readBlockTimes s) (_reconnectInterval s) (_ip s) v (_status s) (_gameStatus s).
Definition set_status (v : SessionStatus) (s : TcpSession) : TcpSession :=
  mkTcpSession (_socket_open s) (_asyncConnect s) (_writeBuffer s) (_writeBufferSize s) (_writeBufferOffest s) (_buff s) (_net_id s) (_writing s) (_writeBlockTimes s) (_reading s) (_readBlockTimes s) (_reconnectInterval s) (_ip s) (_port s) v (_gameStatus s).
Definition set_gameStatus (v : GameStatus) (s : TcpSession) : TcpSession :=
  mkTcpSession (_socket_open s) (_asyncConnect s) (_writeBuffer s) (_writeBufferSize s) (_writeBufferOffest s) (_buff s) (_net_id s) (_writing s) (_writeBlockTimes s) (_reading s) (_readBlockTimes s) (_reconnectInterval s) (_ip s) (_port s) (_status s) v.

(** Error codes. *)
Definition no_error : Z := 0.
Definition would_block : Z := 11.
Definition try_again : Z := 11.

(** Effects. *)
Inductive effect : Set :=
| PostConnectSucceed
| PostConnectFailed (e : Z)
| PostReceiveMessage (m : Message)
| PostReadError (e : Z)
| AsyncReadSome
| AsyncWriteSome
| AsyncConnect (ip port : string)
| ReconnectTimer (seconds : Z)
| SocketWrite (data : list Z)
| SocketClose
| ThrowException.

Abbreviation method A := (SW TcpSession effect A) (only parsing).

(** ** Construction and destruction *)

(** [TcpSession()]. *)
Definition TcpSession_default : TcpSession :=
  mkTcpSession false true None 0 0 (ReadBuffer_new []) 0 false 0 false 0 0 "" "" Disconnected NullGame.

(** [TcpSession(net_handler, n, reconnect)]: [rmem] and [wmem] are the two
    blocks of [n] bytes the allocator returns. *)
Definition TcpSession_new (rmem wmem : bytes) (reconnect : Z) : TcpSession :=
  mkTcpSession false true (Some wmem) (zlen wmem) 0 (ReadBuffer_new rmem) 0 false 0 false 0
    reconnect "" "" Disconnected NullGame.

(** [~TcpSession]. *)
Definition TcpSession_destroy : method unit :=
  sw_modify (set_socket_open false) ;;; sw_emit SocketClose ;;;
  sw_modify (set_writeBuffer None) ;;;
  sw_modify (set_writeBufferOffest 0) ;;;
  sw_modify (set_writing false) ;;;
  sw_modify (set_reading false).

(** ** Small methods *)

(** [isOk]. *)
Definition isOk (s : TcpSession) : bool := bool_decide (_status s = Connected).

(** [setNetId], [setGameStatus], [setAsyncConnect], [resetReadBuffer]. *)
Definition setNetId (id : Z) : method unit := sw_modify (set_net_id id).
Definition setGameStatus (g : GameStatus) : method unit := sw_modify (set_gameStatus g).
Definition setAsyncConnect (b : bool) : method unit := sw_modify (set_asyncConnect b).
Definition resetReadBuffer : method unit := fun s => sw_modify (set_buff (reset (_buff s))) s.

(** [postReadNull]: at most one outstanding read. *)
Definition postReadNull : method unit := fun s =>
  if negb (_socket_open s) || _reading s then sw_ret tt s
  else (sw_modify (set_reading true) ;;; sw_emit AsyncReadSome) s.

(** [postWriteNull]: at most one outstanding write, and only with bytes queued. *)
Definition postWriteNull : method unit := fun s =>
  if negb (_socket_open s) || _writing s || (_writeBufferOffest s =? 0) then sw_ret tt s
  else (sw_modify (set_writing true) ;;; sw_emit AsyncWriteSome) s.

(** ** Connecting *)

(** [handleConnect]. *)
Definition handleConnect (e : Z) : method unit := fun s =>
  if negb (e =? no_error) then
    (sw_modify (set_status Disconnected) ;;;
     sw_emit (PostConnectFailed e) ;;;
     if negb (_reconnectInterval s =? 0) then sw_emit (ReconnectTimer (_reconnectInterval s))
     else sw_ret tt) s
  else
    (sw_modify (set_status Connected) ;;; sw_emit PostConnectSucceed) s.

(** What the environment answers when [onConnect] runs: whether the name
    resolves (asynchronous connect), or whether the address parses, the socket
    could be opened, and the result of the synchronous connect. *)
Record connect_env : Set := mkConnectEnv {
  resolves : bool;
  address_parses : bool;
  opens : bool;
  connect_ec : Z
}.

(** [onConnect]. *)
Definition onConnect (env : connect_env) : method unit := fun s =>
  if negb (bool_decide (_status s = Disconnected)) then sw_ret tt s
  else
    (sw_modify (set_status Connecting) ;;;
     if _asyncConnect s then
       if resolves env then sw_emit (AsyncConnect (_ip s) (_port s)) else sw_emit ThrowException
     else
       sw_modify (set_socket_open false) ;;; sw_emit SocketClose ;;;
       if address_parses env then
         sw_modify (set_socket_open (opens env)) ;;; handleConnect (connect_ec env)
       else sw_emit ThrowException) s.

(** [connect], [reconnect], [onReconnect]. *)
Definition connect (ip port : string) (env : connect_env) : method unit :=
  sw_modify (set_ip ip) ;;; sw_modify (set_port port) ;;; onConnect env.
Definition reconnect (env : connect_env) : method unit := onConnect env.
Definition onReconnect (env : connect_env) : method unit := onConnect env.

(** [start]: [endpoint] is the remote endpoint, or [None] when asking for it
    throws. *)
Definition start (net_id : Z) (endpoint : option (string * string)) : method unit :=
  match endpoint with
  | None => sw_ret tt
  | Some (ip, port) =>
      sw_modify (set_ip ip) ;;; sw_modify (set_port port) ;;;
      sw_modify (set_net_id net_id) ;;; sw_modify (set_status Connected) ;;;
      postReadNull
  end.

(** [stop]: [shutdown_ok] is whether [shutdown] returns (otherwise it throws and
    the socket is not closed). *)
Definition stop (shutdown_ok : bool) : method unit := fun s =>
  (sw_modify (set_reconnectInterval 0) ;;;
   (if _socket_open s then
      if shutdown_ok then sw_modify (set_socket_open false) ;;; sw_emit SocketClose else sw_ret tt
    else sw_ret tt) ;;;
   sw_modify (set_writing false) ;;;
   sw_modify (set_reading false)) s.

(** ** Receiving *)

(** The end of [handleRead], with the error code as it is then. *)
Definition handleRead_tail (error : Z) : method unit := fun s =>
  if (error =? no_error) || (error =? would_block) || (error =? try_again) then
    let s := set_readBlockTimes (_readBlockTimes s + 1) s in
    if 10 <=? _readBlockTimes s then
      (sw_emit (PostReadError error) ;;; sw_modify (set_status Disconnected)) s
    else postReadNull s
  else if error =? 995 then sw_ret tt s
  else (sw_modify (set_status Disconnected) ;;; sw_emit (PostReadError error)) s.

(** [handleRead]: [rd] is the result of [read_some]: the error code and, on
    success, the bytes stored at [getBuffer()]. *)
Definition handleRead (error : Z) (rd : Z * bytes) : method unit := fun s =>
  let s := set_reading false s in
  if error =? no_error then
    let s := set_readBlockTimes 0 s in
    let '(error, data) := rd in
    if error =? no_error then
      let data := take (Z.to_nat (getAvailableBufferSize (_buff s))) data in
      let '(rb, msgs, oc) := receive (_buff s) data in
      let s := set_buff rb s in
      let posts := PostReceiveMessage <$> msgs in
      if decide (oc = RO_error) then
        (set_status Disconnected s, posts ++ [PostReadError error], tt)
      else
        let '(s, effs, r) := handleRead_tail error s in (s, posts ++ effs, r)
    else handleRead_tail error s
  else handleRead_tail error s.

(** ** Sending *)

(** The [do ... while] loop of [handleWrite]: [ws] are the results of the
    successive calls of [write_some] (size and error code), [len] the bytes
    written so far, [off] is [_writeBufferOffest].  When [ws] is exhausted the
    socket would block.  The result is the buffer, the remaining offset, the
    last error and the bytes written. *)
Fixpoint write_loop (ws : list (Z * Z)) (buf : bytes) (len off : Z) : bytes * Z * Z * bytes :=
  let stop_loop error :=
    (if 0 <? len then mem_write buf 0 (mem_read buf len off) else buf, off, error, []) in
  match ws with
  | [] => stop_loop would_block
  | (wlen, error) :: ws =>
      let wlen := Z.min wlen off in
      if wlen <=? 0 then stop_loop error
      else
        let sent := mem_read buf len wlen in
        let off := off - wlen in
        let len := len + wlen in
        if 0 <? off then
          let '(buf, off, error, sent') := write_loop ws buf len off in
          (buf, off, error, sent ++ sent')
        else (buf, off, error, sent)
  end.

(** [handleWrite]. *)
Definition handleWrite (error : Z) (ws : list (Z * Z)) : method unit := fun s =>
  let s := set_writing false s in
  let '(s, effs, error) :=
    if error =? no_error then
      let s := set_writeBlockTimes 0 s in
      match _writeBuffer s with
      | Some buf =>
          if 0 <? _writeBufferOffest s then
            let '(buf, off, error, sent) := write_loop ws buf 0 (_writeBufferOffest s) in
            (set_writeBufferOffest off (set_writeBuffer (Some buf) s), [SocketWrite sent], error)
          else (s, [], error)
      | None => (s, [], error)
      end
    else (s, [], error) in
  if (error =? would_block) || (error =? try_again) then
    let s := set_writeBlockTimes (_writeBlockTimes s + 1) s in
    if 10 <=? _writeBlockTimes s then (s, effs, tt)
    else let '(s, effs', r) := postWriteNull s in (s, effs ++ effs', r)
  else (s, effs, tt).

(** [checkWriteBuffer]: the sum is computed in [size_t], narrowed to [int] and
    compared as [size_t]. *)
Definition checkWriteBuffer (msg : Message) (s : TcpSession) : bool :=
  let destSize := i32 (u64 (_writeBufferOffest s + _totalLen (_header msg))) in
  negb (_writeBufferSize s <? u64 destSize).

(** [writeImpl(data_ptr, len)]; [data] is the memory behind [data_ptr]. *)
Definition writeImpl (data : bytes) (len : Z) : method unit := fun s =>
  let destSize := i32 (u64 (_writeBufferOffest s + len)) in
  if _writeBufferSize s <? u64 destSize then sw_ret tt s
  else
    (sw_modify (fun s =>
       set_writeBufferOffest (_writeBufferOffest s + len)
         (set_writeBuffer
            ((fun buf => mem_write buf (_writeBufferOffest s) (mem_read data 0 len)) <$> _writeBuffer s)
            s)) ;;;
     postWriteNull) s.

(** [writeNolock], [writeLock] (the lock makes the call atomic). *)
Definition writeNolock (data : bytes) (len : Z) : method unit := fun s =>
  if negb (isOk s) then sw_ret tt s
  else if negb (_socket_open s) then sw_ret tt s
  else writeImpl data (i32 len) s.
Definition writeLock (data : bytes) (len : Z) : method unit := writeNolock data len.

(** [writeMessage]. *)
Definition writeMessage (msg : Message) : method bool := fun s =>
  if negb (isOk s) then sw_ret false s
  else if negb (checkWriteBuffer msg s) then (postWriteNull ;;; sw_ret false) s
  else
    match _writeBuffer s with
    | Some _ =>
        (writeNolock (header_bytes (_header msg)) MessageHeaderLength ;;;
         writeNolock (_msgData msg) (messageDataLen msg) ;;;
         sw_ret true) s
    | None => sw_ret false s
    end.

(** ** All the ways a session changes

    One constructor per method or completion handler; [OpConnectDone] is the
    completion of an asynchronous connect, which leaves the socket open or not. *)
Inductive session_op : Set :=
| OpConnect (ip port : string) (env : connect_env)
| OpReconnect (env : connect_env)
| OpConnectDone (opened : bool) (e : Z)
| OpStart (net_id : Z) (endpoint : option (string * string))
| OpStop (shutdown_ok : bool)
| OpHandleRead (error : Z) (rd : Z * list Z)
| OpHandleWrite (error : Z) (ws : list (Z * Z))
| OpWriteMessage (m : Message)
| OpResetReadBuffer
| OpSetAsyncConnect (b : bool)
| OpSetNetId (id : Z)
| OpSetGameStatus (g : GameStatus).

(** A message is accepted when [writeMessage] returns true and the socket is
    open (see [write_message_dropped] below for the other case). *)
Definition session_step (op : session_op) (s : TcpSession) : TcpSession * list effect * list Message :=
  let no_msg (r : TcpSession * list effect * unit) := (sw_state r, sw_effects r, []) in
  match op with
  | OpConnect ip port env => no_msg (connect ip port env s)
  | OpReconnect env => no_msg (reconnect env s)
  | OpConnectDone opened e => no_msg (handleConnect e (set_socket_open opened s))
  | OpStart id ep => no_msg (start id ep s)
  | OpStop b => no_msg (stop b s)
  | OpHandleRead e rd => no_msg (handleRead e rd s)
  | OpHandleWrite e ws => no_msg (handleWrite e ws s)
  | OpWriteMessage m =>
      let r := writeMessage m s in
      (sw_state r, sw_effects r, if sw_value r && _socket_open s then [m] else [])
  | OpResetReadBuffer => no_msg (resetReadBuffer s)
  | OpSetAsyncConnect b => no_msg (setAsyncConnect b s)
  | OpSetNetId id => no_msg (setNetId id s)
  | OpSetGameStatus g => no_msg (setGameStatus g s)
  end.

Fixpoint session_run (ops : list session_op) (s : TcpSession)
    : TcpSession * list effect * list Message :=
  match ops with
  | [] => (s, [], [])
  | op :: ops =>
      let '(s, e1, m1) := session_step op s in
      let '(s, e2, m2) := session_run ops s in
      (s, e1 ++ e2, m1 ++ m2)
  end.

(** The bytes handed to the socket. *)
Fixpoint sent_bytes (effs : list effect) : bytes :=
  match effs with
  | [] => []
  | SocketWrite d :: effs => d ++ sent_bytes effs
  | _ :: effs => sent_bytes effs
  end.

(** ** Invariant *)
Definition write_ok (s : TcpSession) : Prop :=
  match _writeBuffer s with
  | Some buf => zlen buf = _writeBufferSize s /\ _writeBufferSize s < 2 ^ 31 /\
      0 <= _writeBufferOffest s <= _writeBufferSize s
  | None => _writeBufferSize s = 0 /\ _writeBufferOffest s = 0
  end.

Definition session_ok (s : TcpSession) : Prop := rb_ok (_buff s) /\ write_ok s.

(** The bytes queued for sending: the abstract state of the send path. *)
Definition send_queue (s : TcpSession) : bytes :=
  match _writeBuffer s with
  | Some buf => mem_read buf 0 (_writeBufferOffest s)
  | None => []
  end.

(** Operations that do not touch the write buffer. *)
Definition same_write (s s' : TcpSession) : Prop :=
  _writeBuffer s' = _writeBuffer s /\ _writeBufferSize s' = _writeBufferSize s /\
  _writeBufferOffest s' = _writeBufferOffest s.

(** What every operation is allowed to receive: messages and read data made of
    bytes. *)
Definition op_ok (op : session_op) : Prop :=
  match op with
  | OpWriteMessage m => message_ok m
  | OpHandleRead _ (_, data) => bytes_ok data
  | _ => True
  end.

#[global] Instance op_ok_dec op : Decision (op_ok op).
Proof. destruct op; simpl; repeat case_match; apply _. Defined.

(** * Lemmas *)
Lemma sent_bytes_app e1 e2 : sent_bytes (e1 ++ e2) = sent_bytes e1 ++ sent_bytes e2.
Proof. induction e1 as [|[] e1 IH]; simpl; rewrite ?IH, ?app_assoc; done. Qed.

Lemma sent_bytes_posts ms : sent_bytes (PostReceiveMessage <$> ms) = [].
Proof. induction ms; done. Qed.

Lemma same_write_ok s s' : same_write s s' -> write_ok s -> write_ok s'.
Proof. intros (H1 & H2 & H3). unfold write_ok. by rewrite H1, H2, H3. Qed.

Lemma same_write_queue s s' : same_write s s' -> send_queue s' = send_queue s.
Proof. intros (H1 & H2 & H3). unfold send_queue. by rewrite H1, H3. Qed.

(** [quiet r s]: the run [r] from [s] keeps the receive buffer and the write
    buffer and writes nothing to the socket. *)
Definition quiet {A} (r : TcpSession * list effect * A) (s : TcpSession) : Prop :=
  same_write s (sw_state r) /\ _buff (sw_state r) = _buff s /\ sent_bytes (sw_effects r) = [].

Ltac quiet_solve :=
  repeat match goal with |- context [if ?b then _ else _] => destruct b end; done.

Lemma postReadNull_quiet s : quiet (postReadNull s) s.
Proof. unfold postReadNull. quiet_solve. Qed.

Lemma postWriteNull_quiet s : quiet (postWriteNull s) s.
Proof. unfold postWriteNull. quiet_solve. Qed.

Lemma handleConnect_quiet e s : quiet (handleConnect e s) s.
Proof. unfold handleConnect. sw_unfold. quiet_solve. Qed.

Lemma onConnect_quiet env s : quiet (onConnect env s) s.
Proof. unfold onConnect, handleConnect. sw_unfold. quiet_solve. Qed.

Lemma connect_quiet ip port env s : quiet (connect ip port env s) s.
Proof. unfold connect, onConnect, handleConnect. sw_unfold. quiet_solve. Qed.

Lemma start_quiet id ep s : quiet (start id ep s) s.
Proof. unfold start, postReadNull. destruct ep as [[]|]; sw_unfold; quiet_solve. Qed.

Lemma stop_quiet b s : quiet (stop b s) s.
Proof. unfold stop. sw_unfold. quiet_solve. Qed.

Lemma handleRead_tail_quiet e s : quiet (handleRead_tail e s) s.
Proof. unfold handleRead_tail, postReadNull. sw_unfold. quiet_solve. Qed.

Lemma quiet_step {A} (r : TcpSession * list effect * A) s :
  quiet r s -> session_ok s ->
  session_ok (sw_state r) /\ sent_bytes (sw_effects r) ++ send_queue (sw_state r) = send_queue s.
Proof.
  intros (Hw & Hb & He) (Hr & Hwo). rewrite He, (same_write_queue _ _ Hw).
  split; [split|done]; [by rewrite Hb|by eapply same_write_ok].
Qed.

(** [handleRead] keeps the send path and the receive buffer invariant. *)
Lemma handleRead_step e rd s :
  session_ok s -> bytes_ok rd.2 ->
  session_ok (sw_state (handleRead e rd s)) /\
  same_write s (sw_state (handleRead e rd s)) /\ sent_bytes (sw_effects (handleRead e rd s)) = [].
Proof.
  intros [Hrb Hw] Hd. destruct rd as [e' data]. unfold handleRead.
  assert (Htail : forall er t, same_write s t -> rb_ok (_buff t) ->
    session_ok (sw_state (handleRead_tail er t)) /\ same_write s (sw_state (handleRead_tail er t)) /\
    sent_bytes (sw_effects (handleRead_tail er t)) = []).
  { intros er t Ht Hrt. pose proof (handleRead_tail_quiet er t) as Hq.
    destruct Hq as ((H1 & H2 & H3) & Hb & He). destruct Ht as (G1 & G2 & G3).
    assert (same_write s (sw_state (handleRead_tail er t))) by (split_and!; congruence).
    split_and!; [split; [by rewrite Hb|by eapply same_write_ok]|done..]. }
  destruct (e =? no_error); [|by apply Htail].
  destruct (e' =? no_error) eqn:E'; [|by apply Htail].
  cbn [_buff set_readBlockTimes set_reading].
  set (d := take _ data).
  assert (Hav : zlen d <= getAvailableBufferSize (_buff s)).
  { unfold d. destruct Hrb as (_ & _ & _ & _ & Ho). unfold getAvailableBufferSize. zlen_lia. }
  pose proof (receive_parse (_buff s) d Hrb (Forall_take _ _ _ Hd) Hav) as Hr.
  destruct (receive (_buff s) d) as [[rb msgs] oc].
  destruct (parse _) as [[ms' r] ok]. destruct Hr as (Hok & _).
  destruct (decide (oc = RO_error)).
  - cbn [sw_state sw_effects fst snd]. rewrite sent_bytes_app, sent_bytes_posts.
    split_and!; try done.
  - specialize (Htail e' (set_buff rb (set_readBlockTimes 0 (set_reading false s)))).
    destruct (handleRead_tail e' _) as [[t effs] u]. cbn [sw_state sw_effects fst snd] in *.
    rewrite sent_bytes_app, sent_bytes_posts. by apply Htail.
Qed.

(** ** The send loop: what was written followed by what is left is what was
    queued *)
Lemma mem_read_zero buf off : mem_read buf off 0 = [].
Proof. done. Qed.

Lemma write_loop_spec ws buf len off :
  0 <= len -> 0 < off -> len + off <= zlen buf ->
  let '(buf', off', _, sent) := write_loop ws buf len off in
  sent ++ mem_read buf' 0 off' = mem_read buf len off /\ zlen buf' = zlen buf /\ 0 <= off' <= off.
Proof.
  revert len off. induction ws as [|[w e] ws IH]; intros len off Hl Ho Hlen.
  - cbn [write_loop]. destruct (Z.ltb_spec 0 len).
    + assert (Hz : zlen (mem_read buf len off) = off) by (apply mem_read_zlen; lia).
      split_and!; try lia; [|apply mem_write_zlen; lia].
      rewrite <- Hz at 2. apply mem_read_write_same; lia.
    + replace len with 0 by lia. split_and!; done || lia.
  - cbn [write_loop]. destruct (Z.leb_spec (Z.min w off) 0).
    + destruct (Z.ltb_spec 0 len).
      * assert (Hz : zlen (mem_read buf len off) = off) by (apply mem_read_zlen; lia).
        split_and!; try lia; [|apply mem_write_zlen; lia].
        rewrite <- Hz at 2. apply mem_read_write_same; lia.
      * replace len with 0 by lia. split_and!; done || lia.
    + set (n := Z.min w off) in *.
      assert (Hsplit : mem_read buf len off = mem_read buf len n ++ mem_read buf (len + n) (off - n)).
      { replace off with (n + (off - n)) at 1 by lia. apply mem_read_split; lia. }
      destruct (Z.ltb_spec 0 (off - n)).
      * specialize (IH (len + n) (off - n) ltac:(lia) ltac:(lia) ltac:(lia)).
        destruct (write_loop ws buf (len + n) (off - n)) as [[[b o] er] sent].
        destruct IH as (H1 & H2 & H3). rewrite Hsplit, <- H1, app_assoc. split_and!; done || lia.
      * replace (off - n) with 0 in * by lia. rewrite Hsplit, !mem_read_zero, !app_nil_r.
        split_and!; done || lia.
Qed.

Lemma handleWrite_step e ws s :
  session_ok s ->
  session_ok (sw_state (handleWrite e ws s)) /\
  sent_bytes (sw_effects (handleWrite e ws s)) ++ send_queue (sw_state (handleWrite e ws s)) = send_queue s.
Proof.
  intros Hok. pose proof Hok as [Hrb Hw]. unfold handleWrite.
  assert (Htail : forall er t effs, session_ok t -> sent_bytes effs ++ send_queue t = send_queue s ->
    let r := if (er =? would_block) || (er =? try_again) then
      let t := set_writeBlockTimes (_writeBlockTimes t + 1) t in
      if 10 <=? _writeBlockTimes t then (t, effs, tt)
      else let '(t, effs', r) := postWriteNull t in (t, effs ++ effs', r)
    else (t, effs, tt) in
    session_ok (sw_state r) /\ sent_bytes (sw_effects r) ++ send_queue (sw_state r) = send_queue s).
  { intros er t effs Ht Hq r. subst r. destruct (_ || _); [|done]. cbn zeta.
    set (t1 := set_writeBlockTimes _ t). assert (Ht1 : session_ok t1) by done.
    destruct (10 <=? _); [done|].
    pose proof (quiet_step _ t1 (postWriteNull_quiet t1) Ht1) as [H1 H2].
    destruct (postWriteNull t1) as [[t2 e2] u]. cbn [sw_state sw_effects fst snd] in *.
    rewrite sent_bytes_app, <- app_assoc. split; [done|]. by rewrite H2. }
  destruct (e =? no_error); [|by apply (Htail e (set_writing false s) [])].
  destruct (_writeBuffer s) as [buf|] eqn:Eb; cbn [_writeBuffer set_writeBlockTimes set_writing];
    rewrite Eb; [|apply (Htail e _ [])]; [|done|done].
  cbn [_writeBufferOffest set_writeBlockTimes set_writing].
  destruct (Z.ltb_spec 0 (_writeBufferOffest s)) as [Ho|]; [|by apply (Htail e _ [])].
  unfold write_ok in Hw. rewrite Eb in Hw. destruct Hw as (Hz & H31 & Hoff).
  pose proof (write_loop_spec ws buf 0 (_writeBufferOffest s) ltac:(lia) Ho ltac:(lia)) as Hl.
  destruct (write_loop ws buf 0 _) as [[[buf' off'] er] sent]. destruct Hl as (H1 & H2 & H3).
  apply Htail.
  - split; [done|]. unfold write_ok. cbn. lia.
  - unfold send_queue. cbn. rewrite Eb, app_nil_r. exact H1.
Qed.

(** ** Queueing a message *)
Lemma narrow_sum s n :
  0 <= n -> 0 <= _writeBufferOffest s -> _writeBufferSize s < 2 ^ 31 ->
  0 <= _writeBufferSize s -> n < 2 ^ 31 -> _writeBufferOffest s <= _writeBufferSize s ->
  (_writeBufferSize s <? u64 (i32 (u64 (_writeBufferOffest s + n)))) =
  (_writeBufferSize s <? _writeBufferOffest s + n).
Proof.
  intros. rewrite (uwrap_id 64 (_ + n)) by (unfold in_u; lia).
  destruct (decide (_writeBufferOffest s + n < 2 ^ 31)).
  - rewrite swrap_id by (done || unfold in_s; lia). rewrite uwrap_id by (unfold in_u; lia). done.
  - assert (i32 (_writeBufferOffest s + n) = _writeBufferOffest s + n - 2 ^ 32) as ->.
    { unfold swrap. change (32 - 1) with 31.
      rewrite <- (Z.mod_add _ (-1)) by lia. rewrite Z.mod_small; lia. }
    unfold uwrap.
    replace ((_writeBufferOffest s + n - 2 ^ 32) mod 2 ^ 64)
      with ((_writeBufferOffest s + n - 2 ^ 32 + 2 ^ 64) mod 2 ^ 64)
      by (rewrite <- (Z.mod_add (_ - 2 ^ 32) 1) by lia; f_equal; lia).
    rewrite Z.mod_small by lia.
    rewrite !(proj2 (Z.ltb_lt _ _)) by lia. done.
Qed.

(** Appending [len] bytes that fit. *)
Lemma writeImpl_fits data len buf s :
  write_ok s -> _writeBuffer s = Some buf -> 0 <= len <= zlen data ->
  _writeBufferOffest s + len <= _writeBufferSize s ->
  let s' := sw_state (writeImpl data len s) in
  write_ok s' /\ send_queue s' = send_queue s ++ mem_read data 0 len /\
  sent_bytes (sw_effects (writeImpl data len s)) = [] /\
  _buff s' = _buff s /\ _status s' = _status s /\ _socket_open s' = _socket_open s /\
  (exists buf', _writeBuffer s' = Some buf') /\
  _writeBufferSize s' = _writeBufferSize s /\ _writeBufferOffest s' = _writeBufferOffest s + len.
Proof.
  intros Hw Eb Hlen Hfit s'. unfold write_ok in Hw. rewrite Eb in Hw. destruct Hw as (Hz & H31 & Hoff).
  subst s'. unfold writeImpl.
  rewrite narrow_sum by lia. rewrite (proj2 (Z.ltb_ge _ _)) by lia. sw_unfold.
  set (s1 := set_writeBufferOffest _ _).
  assert (Hs1 : _writeBuffer s1 = Some (mem_write buf (_writeBufferOffest s) (mem_read data 0 len)))
    by (unfold s1; cbn; by rewrite Eb).
  assert (Hr : zlen (mem_read data 0 len) = len) by (apply mem_read_zlen; lia).
  pose proof (postWriteNull_quiet s1) as (Hsame & Hbuf & Hsent).
  assert (Hst : _status (sw_state (postWriteNull s1)) = _status s /\
    _socket_open (sw_state (postWriteNull s1)) = _socket_open s)
    by (unfold postWriteNull; quiet_solve).
  destruct (postWriteNull s1) as [[s2 e2] u]. cbn [sw_state sw_effects fst snd app] in *.
  destruct Hsame as (G1 & G2 & G3). destruct Hst as [Hst Hop].
  assert (Gs : _writeBufferSize s1 = _writeBufferSize s) by done.
  assert (Go : _writeBufferOffest s1 = _writeBufferOffest s + len) by done.
  split_and!; try congruence; eauto.
  - unfold write_ok. rewrite G1, G2, G3, Hs1, Gs, Go, mem_write_zlen by lia. lia.
  - unfold send_queue. rewrite G1, G3, Hs1, Go, Eb.
    rewrite mem_read_split by lia. f_equal; [apply mem_read_write_before; lia|].
    rewrite Z.add_0_l. pose proof (mem_read_write_same buf (_writeBufferOffest s) (mem_read data 0 len)) as Hsame.
    rewrite Hr in Hsame. apply Hsame; lia.
  - rewrite G1. eauto.
Qed.

Lemma writeNolock_open data len s :
  isOk s = true -> _socket_open s = true -> in_s 32 len -> writeNolock data len s = writeImpl data len s.
Proof. intros H1 H2 H3. unfold writeNolock. rewrite H1, H2, swrap_id by done. done. Qed.

Lemma writeNolock_closed data len s :
  isOk s = true -> _socket_open s = false -> writeNolock data len s = (s, [], tt).
Proof. intros H1 H2. unfold writeNolock. by rewrite H1, H2. Qed.

Lemma checkWriteBuffer_spec m s :
  message_ok m -> write_ok s ->
  checkWriteBuffer m s = (_writeBufferOffest s + _totalLen (_header m) <=? _writeBufferSize s).
Proof.
  intros ((Ht & _) & _ & Hlen) Hw. unfold checkWriteBuffer, in_s, MessageHeaderLength in *.
  pose proof (zlen_nonneg (_msgData m)).
  assert (0 <= _writeBufferOffest s <= _writeBufferSize s /\ _writeBufferSize s < 2 ^ 31).
  { unfold write_ok in Hw. destruct (_writeBuffer s); lia. }
  rewrite narrow_sum by lia. by rewrite Z.ltb_antisym, negb_involutive.
Qed.

(** The whole of [writeMessage]: what it returns and what it queues. *)
Lemma writeMessage_spec m s :
  session_ok s -> message_ok m ->
  let r := writeMessage m s in
  let fits := _writeBufferOffest s + _totalLen (_header m) <=? _writeBufferSize s in
  sw_value r = isOk s && fits /\ session_ok (sw_state r) /\ sent_bytes (sw_effects r) = [] /\
  send_queue (sw_state r) = send_queue s ++ (if isOk s && fits && _socket_open s then wire m else []).
Proof.
  intros [Hrb Hw] Hm r fits. unfold r, writeMessage.
  destruct (isOk s) eqn:Eok; cbn [negb andb]; [|by rewrite app_nil_r].
  rewrite checkWriteBuffer_spec by done. fold fits. destruct fits eqn:Efit; cbn [negb andb].
  2: { sw_unfold. destruct (quiet_step _ s (postWriteNull_quiet s) (conj Hrb Hw)) as [H1 H2].
       pose proof (postWriteNull_quiet s) as (_ & _ & H3).
       destruct (postWriteNull s) as [[s2 e2] u]. cbn [sw_state sw_effects sw_value fst snd] in *.
       rewrite !app_nil_r. rewrite H3 in H2. done. }
  unfold fits in Efit. apply Z.leb_le in Efit.
  pose proof Hm as ((Ht & _) & _ & Hlen). pose proof (zlen_nonneg (_msgData m)).
  unfold in_s, MessageHeaderLength in *. change (32 - 1) with 31 in Ht.
  destruct (_writeBuffer s) as [buf|] eqn:Eb.
  2: { exfalso. unfold write_ok in Hw. rewrite Eb in Hw. lia. }
  destruct (_socket_open s) eqn:Eop.
  2: { sw_unfold. rewrite !writeNolock_closed by done. cbn [sw_value sw_state sw_effects fst snd app].
       by rewrite app_nil_r. }
  sw_unfold. rewrite writeNolock_open by (done || (unfold in_s; lia)).
  destruct (writeImpl_fits (header_bytes (_header m)) 14 buf s Hw Eb)
    as (W1 & Q1 & S1 & B1 & T1 & O1 & (buf1 & Eb1) & Z1 & F1);
    [rewrite header_bytes_zlen; unfold MessageHeaderLength; lia|lia|].
  destruct (writeImpl (header_bytes (_header m)) 14 s) as [[s1 e1] u1].
  cbn [sw_state sw_effects fst snd] in *.
  rewrite message_ok_dataLen by done.
  rewrite writeNolock_open;
    [|unfold isOk in *; by rewrite T1|congruence|unfold in_s; lia].
  destruct (writeImpl_fits (_msgData m) (zlen (_msgData m)) buf1 s1 W1 Eb1)
    as (W2 & Q2 & S2 & B2 & _); [lia|lia|].
  destruct (writeImpl (_msgData m) (zlen (_msgData m)) s1) as [[s2 e2] u2].
  cbn [sw_state sw_effects sw_value fst snd] in *.
  split_and!; [done|split; congruence| |].
  - rewrite !sent_bytes_app, S1, S2. done.
  - rewrite Q2, Q1, <- app_assoc. f_equal. unfold wire, mem_read. rewrite !drop_0.
    rewrite !take_ge by (rewrite ?header_bytes_length; zlen_lia). done.
Qed.

(** ** Every operation *)
Lemma session_step_spec op s :
  op_ok op -> session_ok s ->
  let '(s', effs, acc) := session_step op s in
  session_ok s' /\ sent_bytes effs ++ send_queue s' = send_queue s ++ wires acc /\
  Forall message_ok acc.
Proof.
  intros Hop Hok. pose proof Hok as [Hrb Hw].
  assert (Hquiet : forall r : TcpSession * list effect * unit, quiet r s ->
    session_ok (sw_state r) /\ sent_bytes (sw_effects r) ++ send_queue (sw_state r) = send_queue s ++ wires [] /\
    Forall message_ok []).
  { intros r Hq. destruct (quiet_step r s Hq Hok) as [H1 H2]. rewrite H2, app_nil_r. done. }
  destruct op; cbn [session_step].
  - apply Hquiet, connect_quiet.
  - apply Hquiet, onConnect_quiet.
  - apply Hquiet. apply (handleConnect_quiet e (set_socket_open opened s)).
  - apply Hquiet, start_quiet.
  - apply Hquiet, stop_quiet.
  - destruct rd as [e' data]. destruct (handleRead_step error (e', data) s Hok Hop) as (H1 & H2 & H3).
    rewrite H3, (same_write_queue _ _ H2), app_nil_r. done.
  - destruct (handleWrite_step error ws s Hok) as [H1 H2]. rewrite app_nil_r. done.
  - destruct (writeMessage_spec m s Hok Hop) as (H1 & H2 & H3 & H4). rewrite H1, H3, H4.
    split_and!; [done| |repeat case_match; by constructor || done].
    cbn [app]. f_equal. destruct (_ && _ && _); [|done]. by rewrite wires_cons, app_nil_r.
  - split_and!; [|by rewrite app_nil_r|done]. split; [|done].
    destruct Hrb as (H1 & H2 & H3 & H4 & H5). unfold rb_ok, reset. cbn. split_and!; try done; lia.
  - by apply Hquiet.
  - by apply Hquiet.
  - by apply Hquiet.
Qed.

Lemma session_run_spec ops s :
  Forall op_ok ops -> session_ok s ->
  let '(s', effs, acc) := session_run ops s in
  session_ok s' /\ sent_bytes effs ++ send_queue s' = send_queue s ++ wires acc /\
  Forall message_ok acc.
Proof.
  intros Hops. revert s. induction Hops as [|op ops Hop Hops IH]; intros s Hok.
  - cbn. by rewrite app_nil_r.
  - cbn [session_run]. pose proof (session_step_spec op s Hop Hok) as H1.
    destruct (session_step op s) as [[s1 e1] m1]. destruct H1 as (Hok1 & Hq1 & Hm1).
    specialize (IH s1 Hok1). destruct (session_run ops s1) as [[s2 e2] m2].
    destruct IH as (Hok2 & Hq2 & Hm2). split_and!; [done| |by apply Forall_app].
    rewrite sent_bytes_app, <- app_assoc, Hq2, app_assoc, Hq1, <- app_assoc. f_equal.
    unfold wires. by rewrite fmap_app, join_app.
Qed.

Lemma session_new_ok rmem wmem reconnect :
  bytes_ok rmem -> zlen rmem < 2 ^ 31 -> zlen wmem < 2 ^ 31 ->
  session_ok (TcpSession_new rmem wmem reconnect) /\ send_queue (TcpSession_new rmem wmem reconnect) = [].
Proof.
  intros Hr H1 H2. pose proof (zlen_nonneg rmem). pose proof (zlen_nonneg wmem).
  unfold session_ok, rb_ok, write_ok. cbn. split_and!; try done; lia.
Qed.

(** A failed name resolution leaves the status at [Connecting], where every
    further attempt returns at once. *)
Lemma onConnect_connecting env s : _status s = Connecting -> onConnect env s = (s, [], tt).
Proof. intros H. unfold onConnect. by rewrite H. Qed.

Lemma reconnect_stuck n env s :
  _status s = Connecting -> session_run (replicate n (OpReconnect env)) s = (s, [], []).
Proof.
  intros H. induction n as [|n IH]; [done|]. cbn [replicate session_run session_step].
  unfold reconnect. rewrite onConnect_connecting by done. cbn [sw_state sw_effects fst snd]. by rewrite IH.
Qed.

(** * Properties *)

(** C3. The send path refines a FIFO of messages: after any sequence of
    operations on a new session (connects, reads, partial and failing writes,
    stops, resets included) the bytes handed to the socket followed by the bytes
    still queued are exactly the wire images of the accepted messages, in the
    order of the calls, and the buffers are well formed. *)
Theorem send_path_refines_fifo (rmem wmem : bytes) (interval : Z) (ops : list session_op) :
  bytes_ok rmem -> zlen rmem < 2 ^ 31 -> zlen wmem < 2 ^ 31 -> Forall op_ok ops ->
  let '(s, effs, accepted) := session_run ops (TcpSession_new rmem wmem interval) in
  session_ok s /\ sent_bytes effs ++ send_queue s = wires accepted.
Proof.
  intros Hb H1 H2 Hops. destruct (session_new_ok rmem wmem interval Hb H1 H2) as [Hok Hq].
  pose proof (session_run_spec ops _ Hops Hok) as H.
  destruct (session_run ops _) as [[s effs] acc]. by rewrite Hq in H; destruct H as (? & ? & _).
Qed.

(** Witness of C3: two messages, the first write accepts ten bytes only. *)
Lemma send_path_refines_fifo_witness :
  let '(s, effs, accepted) := session_run
    [OpSetAsyncConnect false; OpConnect "10.0.0.1" "80" (mkConnectEnv true true true 0);
     OpWriteMessage (Message_new RPCMessage [1; 2; 3]); OpHandleWrite 0 [(10, 0)];
     OpWriteMessage (Message_new HeartBeat [])]
    (TcpSession_new (replicate 64 0) (replicate 64 0) 0) in
  session_ok s /\ sent_bytes effs ++ send_queue s = wires accepted.
Proof.
  apply (send_path_refines_fifo (replicate 64 0) (replicate 64 0) 0
    [OpSetAsyncConnect false; OpConnect "10.0.0.1" "80" (mkConnectEnv true true true 0);
     OpWriteMessage (Message_new RPCMessage [1; 2; 3]); OpHandleWrite 0 [(10, 0)];
     OpWriteMessage (Message_new HeartBeat [])]); decide_closed.
Defined.



(** C23. [writeMessage] on every branch: it returns true exactly when the
    session is connected and the whole frame fits in what is left of the write
    buffer (the narrowing of the sum to [int] never changes that answer); then,
    and only if the socket is open, the header and the data are queued together;
    in the other cases nothing is queued. *)
Theorem write_message_outcome (m : Message) (s : TcpSession) :
  session_ok s -> message_ok m ->
  let r := writeMessage m s in
  let fits := _writeBufferOffest s + _totalLen (_header m) <=? _writeBufferSize s in
  sw_value r = isOk s && fits /\ session_ok (sw_state r) /\ sent_bytes (sw_effects r) = [] /\
  send_queue (sw_state r) = send_queue s ++ (if isOk s && fits && _socket_open s then wire m else []).
Proof. apply writeMessage_spec. Qed.

(** Witness of C23: a started session whose socket is open. *)
Lemma write_message_outcome_witness :
  let m := Message_new RPCMessage [1; 2; 3] in
  let s := set_socket_open true (set_status Connected (TcpSession_new (replicate 64 0) (replicate 64 0) 0)) in
  sw_value (writeMessage m s) = true /\ send_queue (sw_state (writeMessage m s)) = wire m.
Proof.
  destruct (write_message_outcome (Message_new RPCMessage [1; 2; 3])
    (set_socket_open true (set_status Connected (TcpSession_new (replicate 64 0) (replicate 64 0) 0))))
    as (H1 & _ & _ & H4); [decide_closed|decide_closed|]. split; [exact H1|exact H4].
Defined.

(** After [stop] a connected session still reports success for messages
    that fit, and drops them: the status stays connected, so [writeMessage]
    returns true while neither the queue nor the socket gets a byte. *)
Theorem write_message_dropped (m : Message) (s : TcpSession) :
  session_ok s -> message_ok m -> isOk s = true ->
  _writeBufferOffest s + _totalLen (_header m) <= _writeBufferSize s ->
  let s' := sw_state (stop true s) in
  sw_value (writeMessage m s') = true /\
  send_queue (sw_state (writeMessage m s')) = send_queue s /\
  sent_bytes (sw_effects (writeMessage m s')) = [].
Proof.
  intros Hok Hm Hc Hfit s'. destruct (quiet_step _ s (stop_quiet true s) Hok) as [Hok' Hq].
  pose proof (stop_quiet true s) as ((Hb & Hs & Ho) & _ & Hsent). rewrite Hsent in Hq.
  assert (Hst : isOk s' = true /\ _socket_open s' = false)
    by (unfold s', stop, isOk in *; sw_unfold; destruct (_socket_open s) eqn:E; cbn; rewrite ?E; done).
  destruct Hst as [Hst Hop].
  destruct (writeMessage_spec m s' Hok' Hm) as (H1 & _ & H3 & H4).
  rewrite H1, H3, H4, Hst, Hop. unfold s'. rewrite Hs, Ho, (proj2 (Z.leb_le _ _) Hfit).
  cbn [andb]. rewrite app_nil_r. done.
Qed.

(** An instance of [write_message_dropped]. *)
Lemma write_message_dropped_witness :
  let s := set_socket_open true (set_status Connected (TcpSession_new (replicate 64 0) (replicate 64 0) 0)) in
  sw_value (writeMessage (Message_new HeartBeat []) (sw_state (stop true s))) = true.
Proof.
  apply (write_message_dropped (Message_new HeartBeat [])
    (set_socket_open true (set_status Connected (TcpSession_new (replicate 64 0) (replicate 64 0) 0))));
    decide_closed.
Defined.

(** C39. When name resolution fails during an asynchronous connect, the
    exception leaves the session in the state [Connecting]: no callback reports
    the failure and no later reconnect does anything. *)
Theorem resolve_failure_wedges_session (ip port : string) (env env' : connect_env) (s : TcpSession) (n : nat) :
  _status s = Disconnected -> _asyncConnect s = true -> resolves env = false ->
  let '(s', effs, _) := connect ip port env s in
  effs = [ThrowException] /\ _status s' = Connecting /\
  session_run (replicate n (OpReconnect env')) s' = (s', [], []).
Proof.
  intros H1 H2 H3. unfold connect, onConnect. sw_unfold. cbn [set_ip set_port _status _asyncConnect app].
  rewrite H1, H2, H3. cbn. split_and!; [done..|]. by apply reconnect_stuck.
Qed.

(** Witness of C39: a reconnect that would succeed. *)
Lemma resolve_failure_wedges_session_witness :
  let s' := sw_state (connect "db" "80" (mkConnectEnv false true true 0) (TcpSession_new [] [] 5)) in
  session_run (replicate 3 (OpReconnect (mkConnectEnv true true true 0))) s' = (s', [], []).
Proof.
  apply (resolve_failure_wedges_session "db" "80" (mkConnectEnv false true true 0) (mkConnectEnv true true true 0)
    (TcpSession_new [] [] 5) 3); reflexivity.
Defined.
