(* ===== verification/Channel.v ===== *)
(** What a message session promises to its clients (the RPC layer): the
    operations they call, as a type class, and the laws they rely on.  The TCP
    session is an instance; the RPC theorems are proved against the laws only. *)
From S2P Require Import Prelude Message ReadBuffer TcpSession.
Local Open Scope Z_scope.

(** The operations, on a state [C] with effects [E]; the extra arguments are the
    answers of the environment (see TcpSession). *)
Class Channel (C E : Type) := {
  ch_isOk : C -> bool;
  ch_writeMessage : Message -> SW C E bool;
  ch_start : Z -> option (string * string) -> SW C E unit;
  ch_stop : bool -> SW C E unit;
  ch_reconnect : connect_env -> SW C E unit;
  ch_resetReadBuffer : SW C E unit
}.
#[global] Hint Mode Channel ! - : typeclass_instances.

(** An operation that leaves the outgoing bytes alone. *)
Definition keeps_queue {C E : Type} (ok : C -> Prop) (queue : C -> bytes) (op : SW C E unit) : Prop :=
  forall c, ok c -> ok (sw_state (op c)) /\ queue (sw_state (op c)) = queue c.

(** The laws: an invariant, the bytes accepted and not yet sent, and which
    messages are accepted. *)
Class ChannelSpec (C E : Type) {CH : Channel C E} := {
  ch_ok : C -> Prop;
  ch_queue : C -> bytes;
  ch_accepts : Message -> C -> bool;
  ch_accepts_isOk m c : ch_accepts m c = true -> ch_isOk c = true;
  ch_write_spec m c :
    ch_ok c -> message_ok m ->
    let r := ch_writeMessage m c in
    ch_ok (sw_state r) /\ ch_queue (sw_state r) = ch_queue c ++ (if ch_accepts m c then wire m else []) /\
    (ch_accepts m c = true -> sw_value r = true);
  ch_start_keeps id ep : keeps_queue ch_ok ch_queue (ch_start id ep);
  ch_stop_keeps b : keeps_queue ch_ok ch_queue (ch_stop b);
  ch_reconnect_keeps env : keeps_queue ch_ok ch_queue (ch_reconnect env);
  ch_reset_keeps : keeps_queue ch_ok ch_queue ch_resetReadBuffer
}.

(** ** The TCP session is a channel *)
#[global] Instance tcp_channel : Channel TcpSession effect := {|
  ch_isOk := isOk;
  ch_writeMessage := writeMessage;
  ch_start := start;
  ch_stop := stop;
  ch_reconnect := reconnect;
  ch_resetReadBuffer := resetReadBuffer
|}.

Definition tcp_accepts (m : Message) (s : TcpSession) : bool :=
  isOk s && (_writeBufferOffest s + _totalLen (_header m) <=? _writeBufferSize s) && _socket_open s.

Lemma quiet_keeps (op : SW TcpSession effect unit) :
  (forall s, quiet (op s) s) -> keeps_queue session_ok send_queue op.
Proof.
  intros Hq s Hok. destruct (quiet_step (op s) s (Hq s) Hok) as [H1 H2]. split; [done|].
  destruct (Hq s) as (_ & _ & H3). by rewrite H3 in H2.
Qed.

#[global] Program Instance tcp_channel_spec : ChannelSpec TcpSession effect := {|
  ch_ok := session_ok;
  ch_queue := send_queue;
  ch_accepts := tcp_accepts
|}.
Next Obligation. unfold tcp_accepts. intros m s H. apply andb_true_iff in H as [H _]. by apply andb_true_iff in H as [H _]. Qed.
Next Obligation.
  intros m s Hok Hm. destruct (writeMessage_spec m s Hok Hm) as (H1 & H2 & _ & H4). split_and!; [done|done|].
  unfold tcp_accepts. intros H. apply andb_true_iff in H as [H _]. by rewrite <- H.
Qed.
Next Obligation. intros id ep. apply quiet_keeps, start_quiet. Qed.
Next Obligation. intros b. apply quiet_keeps, stop_quiet. Qed.
Next Obligation. intros env. apply quiet_keeps, onConnect_quiet. Qed.
Next Obligation.
  intros s Hok. pose proof (session_step_spec OpResetReadBuffer s I Hok) as H.
  destruct H as (H1 & H2 & _). cbn in H2. rewrite app_nil_r in H2. done.
Qed.
