(* ===== verification/CodedStream.v ===== *)
(** The varint and fixed-width codec of the bundled protocol buffers library
    (include/google/protobuf/io/coded_stream.h, coded_stream.cc and
    coded_stream_inl.h), as far as the RPC messages use it: reading from a flat
    array (what [ParseFromString] does) and writing into an array large enough
    (what [SerializeAsString] does), with the fast and the slow path of each
    routine as the code has them.

    A read that returns false gives [None]; the array readers, which the code
    calls only when it knows that the varint ends inside the buffer, have the
    extra outcome [VOverrun] for a read past the end, and it is proved that their
    guard excludes it. *)
From S2P Require Import Prelude.
Local Open Scope Z_scope.

Definition kMaxVarintBytes : Z := 10.
Definition kMaxVarint32Bytes : Z := 5.
Definition kDefaultTotalBytesLimit : Z := Z.shiftl 64 20.
Definition default_recursion_limit : Z := 100.

(** ** The input stream

    [buffer_] stands for the bytes from [buffer_] to [buffer_end_]; the stream
    is flat, so [current_limit_] is [total_bytes_read_], both the size of the
    array, [buffer_size_after_limit_] is 0 and [Refresh] always fails. *)
Record CodedInputStream : Set := mkCIS {
  buffer_ : list Z;
  total_bytes_read_ : Z;
  last_tag_ : Z;
  legitimate_message_end_ : bool;
  recursion_depth_ : Z
}.

Definition CodedInputStream_new (buffer : bytes) : CodedInputStream :=
  mkCIS buffer (zlen buffer) 0 false 0.

Definition BufferSize (s : CodedInputStream) : Z := zlen (buffer_ s).
Definition set_buffer (b : bytes) (s : CodedInputStream) : CodedInputStream :=
  mkCIS b (total_bytes_read_ s) (last_tag_ s) (legitimate_message_end_ s) (recursion_depth_ s).
Definition set_last_tag (t : Z) (s : CodedInputStream) : CodedInputStream :=
  mkCIS (buffer_ s) (total_bytes_read_ s) t (legitimate_message_end_ s) (recursion_depth_ s).
Definition set_legitimate_message_end (b : bool) (s : CodedInputStream) : CodedInputStream :=
  mkCIS (buffer_ s) (total_bytes_read_ s) (last_tag_ s) b (recursion_depth_ s).
Definition set_recursion_depth (d : Z) (s : CodedInputStream) : CodedInputStream :=
  mkCIS (buffer_ s) (total_bytes_read_ s) (last_tag_ s) (legitimate_message_end_ s) d.

Definition Advance (amount : Z) (s : CodedInputStream) : CodedInputStream :=
  set_buffer (drop (Z.to_nat amount) (buffer_ s)) s.

(** ** Reading varints *)
Inductive varint_read : Set := VDone (v : Z) (rest : list Z) | VCorrupt | VOverrun.

(** [ReadVarint32FromArray], one step per unrolled line: [i] is the number of
    bytes read, [n] how many more may be read. *)
Fixpoint read_varint32_from (n : nat) (i result : Z) (ptr : bytes) : varint_read :=
  match n with
  | O => VCorrupt
  | S n =>
      match ptr with
      | [] => VOverrun
      | b :: ptr =>
          let result :=
            if i <? 4 then Z.lor result (Z.shiftl (Z.land b 0x7F) (7 * i))
            else if i =? 4 then Z.lor result (u32 (Z.shiftl b 28))
            else result in
          if Z.land b 0x80 =? 0 then VDone result ptr
          else read_varint32_from n (i + 1) result ptr
      end
  end.
Definition ReadVarint32FromArray (buffer : bytes) : varint_read :=
  read_varint32_from (Z.to_nat kMaxVarintBytes) 0 0 buffer.

(** The fast path of [ReadVarint64Fallback], in three 32-bit parts. *)
Fixpoint read_varint64_from (n : nat) (i part0 part1 part2 : Z) (ptr : bytes) : varint_read :=
  match n with
  | O => VCorrupt
  | S n =>
      match ptr with
      | [] => VOverrun
      | b :: ptr =>
          let piece := Z.shiftl (Z.land b 0x7F) (7 * (i mod 4)) in
          let part0 := if i / 4 =? 0 then Z.lor part0 piece else part0 in
          let part1 := if i / 4 =? 1 then Z.lor part1 piece else part1 in
          let part2 := if i / 4 =? 2 then Z.lor part2 piece else part2 in
          if Z.land b 0x80 =? 0 then
            VDone (Z.lor (Z.lor part0 (u64 (Z.shiftl part1 28))) (u64 (Z.shiftl part2 56))) ptr
          else read_varint64_from n (i + 1) part0 part1 part2 ptr
      end
  end.

(** [ReadVarint64Slow]. *)
Fixpoint read_varint64_slow (n : nat) (count result : Z) (buffer : bytes) : option (Z * list Z) :=
  match n with
  | O => None
  | S n =>
      match buffer with
      | [] => None
      | b :: buffer =>
          let result := Z.lor result (u64 (Z.shiftl (Z.land b 0x7F) (7 * count))) in
          if Z.land b 0x80 =? 0 then Some (result, buffer)
          else read_varint64_slow n (count + 1) result buffer
      end
  end.
Definition ReadVarint64Slow (buffer : bytes) : option (Z * list Z) :=
  read_varint64_slow (Z.to_nat kMaxVarintBytes) 0 0 buffer.

(** The condition for the fast paths: ten bytes are left, or the last byte of
    the buffer ends a varint. *)
Definition varint_fast_path (buffer : bytes) : bool :=
  (kMaxVarintBytes <=? zlen buffer) ||
  match last buffer with Some b => Z.land b 0x80 =? 0 | None => false end.

Definition of_varint_read (r : varint_read) : option (Z * list Z) :=
  match r with VDone v rest => Some (v, rest) | VCorrupt | VOverrun => None end.

Definition ReadVarint64Fallback (buffer : bytes) : option (Z * list Z) :=
  if varint_fast_path buffer then
    of_varint_read (read_varint64_from (Z.to_nat kMaxVarintBytes) 0 0 0 0 buffer)
  else ReadVarint64Slow buffer.

Definition ReadVarint32Slow (buffer : bytes) : option (Z * list Z) :=
  match ReadVarint64Fallback buffer with
  | Some (v, rest) => Some (u32 v, rest)
  | None => None
  end.

Definition ReadVarint32Fallback (buffer : bytes) : option (Z * list Z) :=
  if varint_fast_path buffer then of_varint_read (ReadVarint32FromArray buffer)
  else ReadVarint32Slow buffer.

(** The inline heads: one-byte varints are read directly. *)
Definition ReadVarint32 (s : CodedInputStream) : option (Z * CodedInputStream) :=
  match buffer_ s with
  | b :: _ => if b <? 0x80 then Some (b, Advance 1 s)
              else '(v, rest) ← ReadVarint32Fallback (buffer_ s); Some (v, set_buffer rest s)
  | [] => '(v, rest) ← ReadVarint32Fallback (buffer_ s); Some (v, set_buffer rest s)
  end.

Definition ReadVarint64 (s : CodedInputStream) : option (Z * CodedInputStream) :=
  match buffer_ s with
  | b :: _ => if b <? 0x80 then Some (b, Advance 1 s)
              else '(v, rest) ← ReadVarint64Fallback (buffer_ s); Some (v, set_buffer rest s)
  | [] => '(v, rest) ← ReadVarint64Fallback (buffer_ s); Some (v, set_buffer rest s)
  end.

(** ** Tags *)

(** [ReadTagSlow]: 0 at the end of the buffer or on a bad varint. *)
Definition ReadTagSlow (s : CodedInputStream) : Z * CodedInputStream :=
  match buffer_ s with
  | [] =>
      (0, set_legitimate_message_end
            (if kDefaultTotalBytesLimit <=? total_bytes_read_ s
             then total_bytes_read_ s =? kDefaultTotalBytesLimit else true) s)
  | _ =>
      match ReadVarint64 s with
      | Some (v, s) => (u32 v, s)
      | None => (0, s)
      end
  end.

Definition ReadTagFallback (s : CodedInputStream) : Z * CodedInputStream :=
  if varint_fast_path (buffer_ s) then
    match ReadVarint32FromArray (buffer_ s) with
    | VDone tag rest => (tag, set_buffer rest s)
    | _ => (0, s)
    end
  else if (BufferSize s =? 0) && (total_bytes_read_ s <? kDefaultTotalBytesLimit) then
    (0, set_legitimate_message_end true s)
  else ReadTagSlow s.

Definition ReadTag (s : CodedInputStream) : Z * CodedInputStream :=
  match buffer_ s with
  | b :: _ =>
      if b <? 0x80 then (b, set_last_tag b (Advance 1 s))
      else let '(t, s) := ReadTagFallback s in (t, set_last_tag t s)
  | [] => let '(t, s) := ReadTagFallback s in (t, set_last_tag t s)
  end.

Definition LastTagWas (expected : Z) (s : CodedInputStream) : bool := last_tag_ s =? expected.
Definition ConsumedEntireMessage (s : CodedInputStream) : bool := legitimate_message_end_ s.

Definition ExpectTag (expected : Z) (s : CodedInputStream) : bool * CodedInputStream :=
  if expected <? Z.shiftl 1 7 then
    match buffer_ s with
    | b :: _ => if b =? expected then (true, Advance 1 s) else (false, s)
    | [] => (false, s)
    end
  else if expected <? Z.shiftl 1 14 then
    match buffer_ s with
    | b0 :: b1 :: _ =>
        if (b0 =? u8 (Z.lor expected 0x80)) && (b1 =? u8 (Z.shiftr expected 7))
        then (true, Advance 2 s) else (false, s)
    | _ => (false, s)
    end
  else (false, s).

Definition ExpectAtEnd (s : CodedInputStream) : bool * CodedInputStream :=
  if BufferSize s =? 0 then (true, set_legitimate_message_end true (set_last_tag 0 s))
  else (false, s).

Definition IncrementRecursionDepth (s : CodedInputStream) : bool * CodedInputStream :=
  let d := recursion_depth_ s + 1 in (d <=? default_recursion_limit, set_recursion_depth d s).
Definition DecrementRecursionDepth (s : CodedInputStream) : CodedInputStream :=
  if 0 <? recursion_depth_ s then set_recursion_depth (recursion_depth_ s - 1) s else s.

(** ** Raw data

    The string readers assign to the string they are given, whether they succeed
    or not: [buffer] is its old value, the result its new one. *)

(** [ReadStringFallback] on a flat stream, called when fewer than [size] bytes
    are left: it stores them and fails, because [Refresh] does. *)
Definition ReadStringFallback (s : CodedInputStream) : bool * list Z * CodedInputStream :=
  (false, buffer_ s, Advance (BufferSize s) s).

Definition InternalReadStringInline (buffer : bytes) (size : Z) (s : CodedInputStream)
    : bool * list Z * CodedInputStream :=
  let size := i32 size in
  if size <? 0 then (false, buffer, s)
  else if size <=? BufferSize s then (true, take (Z.to_nat size) (buffer_ s), Advance size s)
  else ReadStringFallback s.
Definition ReadString (buffer : bytes) (size : Z) (s : CodedInputStream) : bool * list Z * CodedInputStream :=
  if i32 size <? 0 then (false, buffer, s) else InternalReadStringInline buffer size s.
Definition ReadLittleEndian32 (s : CodedInputStream) : option (Z * CodedInputStream) :=
  if 4 <=? BufferSize s then Some (le_decode (take 4 (buffer_ s)), Advance 4 s) else None.
Definition ReadLittleEndian64 (s : CodedInputStream) : option (Z * CodedInputStream) :=
  if 8 <=? BufferSize s then Some (le_decode (take 8 (buffer_ s)), Advance 8 s) else None.

(** ** Writing into an array: the bytes stored at [target] *)

(** [WriteVarint32FallbackToArrayInline]. *)
Definition WriteVarint32FallbackToArrayInline (value : Z) : bytes :=
  let t0 := u8 (Z.lor value 0x80) in
  if Z.shiftl 1 7 <=? value then
    let t1 := u8 (Z.lor (Z.shiftr value 7) 0x80) in
    if Z.shiftl 1 14 <=? value then
      let t2 := u8 (Z.lor (Z.shiftr value 14) 0x80) in
      if Z.shiftl 1 21 <=? value then
        let t3 := u8 (Z.lor (Z.shiftr value 21) 0x80) in
        if Z.shiftl 1 28 <=? value then [t0; t1; t2; t3; u8 (Z.shiftr value 28)]
        else [t0; t1; t2; Z.land t3 0x7F]
      else [t0; t1; Z.land t2 0x7F]
    else [t0; Z.land t1 0x7F]
  else [Z.land t0 0x7F].

(** The [while] loop of the slow paths of [WriteVarint32] and [WriteVarint64]. *)
Fixpoint write_varint_slow (n : nat) (value : Z) : bytes :=
  match n with
  | O => [u8 value]
  | S n =>
      if 0x7F <? value then Z.lor (Z.land (u8 value) 0x7F) 0x80 :: write_varint_slow n (Z.shiftr value 7)
      else [Z.land (u8 value) 0x7F]
  end.

Definition WriteVarint32 (buffer_size value : Z) : bytes :=
  if kMaxVarint32Bytes <=? buffer_size then WriteVarint32FallbackToArrayInline value
  else write_varint_slow (Z.to_nat kMaxVarint32Bytes) value.

Definition WriteVarint32ToArray (value : Z) : bytes :=
  if value <? 0x80 then [value] else WriteVarint32FallbackToArrayInline value.

(** [WriteVarint64ToArrayInline]: the binary search for the size, then the
    stores from the last to the first and the final mask. *)
Definition varint64_size (part0 part1 part2 : Z) : Z :=
  if part2 =? 0 then
    if part1 =? 0 then
      if part0 <? Z.shiftl 1 14 then (if part0 <? Z.shiftl 1 7 then 1 else 2)
      else (if part0 <? Z.shiftl 1 21 then 3 else 4)
    else
      if part1 <? Z.shiftl 1 14 then (if part1 <? Z.shiftl 1 7 then 5 else 6)
      else (if part1 <? Z.shiftl 1 21 then 7 else 8)
  else if part2 <? Z.shiftl 1 7 then 9 else 10.

Definition WriteVarint64ToArrayInline (value : Z) : bytes :=
  let part0 := u32 value in
  let part1 := u32 (Z.shiftr value 28) in
  let part2 := u32 (Z.shiftr value 56) in
  let size := varint64_size part0 part1 part2 in
  let target := take (Z.to_nat size)
    ((fun p => u8 (Z.lor p 0x80)) <$>
       [part0; Z.shiftr part0 7; Z.shiftr part0 14; Z.shiftr part0 21;
        part1; Z.shiftr part1 7; Z.shiftr part1 14; Z.shiftr part1 21;
        part2; Z.shiftr part2 7]) in
  alter (fun b => Z.land b 0x7F) (Z.to_nat (size - 1)) target.

Definition WriteVarint64 (buffer_size value : Z) : bytes :=
  if kMaxVarintBytes <=? buffer_size then WriteVarint64ToArrayInline value
  else write_varint_slow (Z.to_nat kMaxVarintBytes) value.

Definition WriteVarint32SignExtendedToArray (value : Z) : bytes :=
  if value <? 0 then WriteVarint64ToArrayInline (u64 value) else WriteVarint32ToArray (u32 value).
Definition WriteVarint32SignExtended (buffer_size value : Z) : bytes :=
  if value <? 0 then WriteVarint64 buffer_size (u64 value) else WriteVarint32 buffer_size (u32 value).

(** [CodedOutputStream::WriteTagToArray]. *)
Definition CodedWriteTagToArray (value : Z) : bytes :=
  if value <? Z.shiftl 1 7 then [value]
  else if value <? Z.shiftl 1 14 then [u8 (Z.lor value 0x80); u8 (Z.shiftr value 7)]
  else WriteVarint32FallbackToArrayInline value.

Definition WriteLittleEndian32ToArray (value : Z) : bytes := le_encode 4 value.
Definition WriteLittleEndian64ToArray (value : Z) : bytes := le_encode 8 value.

(** ** Sizes *)
Definition VarintSize32Fallback (value : Z) : Z :=
  if value <? Z.shiftl 1 7 then 1
  else if value <? Z.shiftl 1 14 then 2
  else if value <? Z.shiftl 1 21 then 3
  else if value <? Z.shiftl 1 28 then 4
  else 5.
Definition VarintSize32 (value : Z) : Z :=
  if value <? Z.shiftl 1 7 then 1 else VarintSize32Fallback value.
Definition VarintSize32SignExtended (value : Z) : Z :=
  if value <? 0 then 10 else VarintSize32 (u32 value).
Definition VarintSize64 (value : Z) : Z :=
  if value <? Z.shiftl 1 35 then
    if value <? Z.shiftl 1 7 then 1
    else if value <? Z.shiftl 1 14 then 2
    else if value <? Z.shiftl 1 21 then 3
    else if value <? Z.shiftl 1 28 then 4
    else 5
  else
    if value <? Z.shiftl 1 42 then 6
    else if value <? Z.shiftl 1 49 then 7
    else if value <? Z.shiftl 1 56 then 8
    else if value <? Z.shiftl 1 63 then 9
    else 10.

(** ** Specification: base-128 numbers *)

(** At most [n] bytes, least significant group first. *)
Fixpoint varint_decode (n : nat) (buf : bytes) : option (Z * list Z) :=
  match n, buf with
  | S n, b :: buf =>
      if b <? 128 then Some (b, buf)
      else '(v, rest) ← varint_decode n buf; Some (b - 128 + 128 * v, rest)
  | _, _ => None
  end.

Fixpoint varint_encode (n : nat) (v : Z) : bytes :=
  match n with
  | O => [v]
  | S n => if v <? 128 then [v] else (v mod 128 + 128) :: varint_encode n (v / 128)
  end.

(** * Lemmas *)

(** ** Bits of a byte *)
Lemma land_7f b : Z.land b 0x7F = b mod 128.
Proof. change 0x7F with (Z.ones 7). by rewrite Z.land_ones. Qed.

Lemma land_80_byte b : byte_ok b -> (Z.land b 0x80 =? 0) = (b <? 128).
Proof.
  intros Hb. apply eqb_prop. revert b Hb.
  apply (byte_forall (fun b => Bool.eqb (Z.land b 0x80 =? 0) (b <? 128))). by vm_compute.
Qed.

Lemma uwrap_land w a : 0 <= w -> uwrap w a = Z.land a (Z.ones w).
Proof. intros. unfold uwrap. by rewrite Z.land_ones. Qed.

Lemma lor_80 x : u8 (Z.lor x 0x80) = x mod 128 + 128.
Proof.
  rewrite uwrap_land, Z.land_lor_distr_l by lia. rewrite <- (uwrap_land 8 x) by lia.
  assert (Hx : byte_ok (u8 x)) by (apply uwrap_range; lia).
  assert (H : forall b, byte_ok b -> (Z.lor b 0x80 =? b mod 128 + 128) = true)
    by (apply byte_forall; by vm_compute).
  specialize (H _ Hx). apply Z.eqb_eq in H. change (Z.land 0x80 (Z.ones 8)) with 0x80.
  rewrite H. unfold uwrap. f_equal. Z.div_mod_to_equations. lia.
Qed.

Lemma lor_low a b k : 0 <= k -> in_u k a -> Z.lor a (Z.shiftl b k) = a + b * 2 ^ k.
Proof. intros. rewrite Z.lor_comm, lor_shiftl_add by done. lia. Qed.

Lemma uwrap_small_shift w a b k :
  0 <= k -> k <= w -> in_u k a -> Z.lor a (uwrap w (Z.shiftl b k)) = uwrap w (a + b * 2 ^ k).
Proof.
  intros Hk Hkw Ha.
  assert (Ha' : uwrap w a = a) by (apply uwrap_id; eapply in_u_mono; [|done]; lia).
  rewrite <- Ha' at 1. rewrite !uwrap_land, <- Z.land_lor_distr_l by lia.
  by rewrite lor_low.
Qed.

Lemma uwrap_add_high w a b k : 0 <= w <= k -> uwrap w (a + b * 2 ^ k) = uwrap w a.
Proof.
  intros. unfold uwrap. replace (2 ^ k) with (2 ^ (k - w) * 2 ^ w) by (rewrite <- Z.pow_add_r; f_equal; lia).
  rewrite Z.mul_assoc. apply Z.mod_add. lia.
Qed.

(** One decoded group extends the value read so far. *)
Lemma group_in_u full d i : 0 <= i -> in_u (7 * i) full -> 0 <= d < 128 -> in_u (7 * (i + 1)) (full + d * 2 ^ (7 * i)).
Proof.
  unfold in_u. intros Hi Hf Hd. replace (7 * (i + 1)) with (7 * i + 7) by lia.
  rewrite Z.pow_add_r by lia. change (2 ^ 7) with 128.
  pose proof (Z.pow_pos_nonneg 2 (7 * i)). nia.
Qed.

Lemma group_shift full d v i :
  0 <= i -> full + d * 2 ^ (7 * i) + v * 2 ^ (7 * (i + 1)) = full + (d + 128 * v) * 2 ^ (7 * i).
Proof.
  intros Hi. replace (7 * (i + 1)) with (7 * i + 7) by lia.
  rewrite Z.pow_add_r by lia. change (2 ^ 7) with 128. lia.
Qed.

Lemma byte_group b : byte_ok b -> 0 <= Z.land b 0x7F < 128 /\ b = Z.land b 0x7F + (if b <? 128 then 0 else 128).
Proof.
  unfold byte_ok, in_u. intros Hb. rewrite land_7f. destruct (Z.ltb_spec b 128); Z.div_mod_to_equations; lia.
Qed.

Lemma uwrap_lor w a b : 0 <= w -> uwrap w (Z.lor a b) = Z.lor (uwrap w a) (uwrap w b).
Proof. intros. by rewrite !uwrap_land, Z.land_lor_distr_l. Qed.

(** Or-ing group [i] into the wrapped value is adding it. *)
Lemma lor_group w full d i :
  0 <= w -> 0 <= i -> in_u (7 * i) full ->
  Z.lor (uwrap w full) (uwrap w (Z.shiftl d (7 * i))) = uwrap w (full + d * 2 ^ (7 * i)).
Proof. intros Hw Hi Hf. by rewrite <- uwrap_lor, lor_low by (lia || done). Qed.

(** ** The readers compute the base-128 number, modulo their width *)
Definition wrap_decode (w full i : Z) (r : option (Z * list Z)) : option (Z * list Z) :=
  '(v, rest) ← r; Some (uwrap w (full + v * 2 ^ (7 * i)), rest).

Lemma wrap_decode_step w full i n b buf :
  0 <= i -> byte_ok b -> (b <? 128) = false ->
  wrap_decode w full i (varint_decode (S n) (b :: buf)) =
  wrap_decode w (full + Z.land b 0x7F * 2 ^ (7 * i)) (i + 1) (varint_decode n buf).
Proof.
  intros Hi Hb Hlt. cbn [varint_decode]. rewrite Hlt. destruct (byte_group b Hb) as [_ Eb]. rewrite Hlt in Eb.
  destruct (varint_decode n buf) as [[v rest]|]; [|done]. cbn. do 3 f_equal.
  rewrite group_shift by done. do 2 f_equal. lia.
Qed.

Lemma wrap_decode_last w full i n b buf :
  byte_ok b -> (b <? 128) = true ->
  wrap_decode w full i (varint_decode (S n) (b :: buf)) = Some (uwrap w (full + Z.land b 0x7F * 2 ^ (7 * i)), buf).
Proof.
  intros Hb Hlt. cbn [varint_decode]. rewrite Hlt. destruct (byte_group b Hb) as [_ Eb]. rewrite Hlt in Eb.
  cbn. do 5 f_equal. lia.
Qed.

Lemma read_varint64_slow_spec n i full buf :
  0 <= i -> in_u (7 * i) full -> bytes_ok buf ->
  read_varint64_slow n i (u64 full) buf = wrap_decode 64 full i (varint_decode n buf).
Proof.
  revert i full buf. induction n as [|n IH]; intros i full buf Hi Hf Hb; [done|].
  destruct Hb as [|b buf Hb Hbuf]; [done|]. cbn [read_varint64_slow].
  rewrite lor_group by (lia || done). rewrite land_80_byte by done.
  destruct (byte_group b Hb) as [Hd _]. destruct (b <? 128) eqn:E.
  - by rewrite wrap_decode_last.
  - rewrite IH by (lia || done || by apply group_in_u). by rewrite wrap_decode_step.
Qed.

Lemma read_varint32_group full b i :
  0 <= i -> byte_ok b -> in_u (7 * i) full ->
  (if i <? 4 then Z.lor (u32 full) (Z.shiftl (Z.land b 0x7F) (7 * i))
   else if i =? 4 then Z.lor (u32 full) (u32 (Z.shiftl b 28)) else u32 full) =
  u32 (full + Z.land b 0x7F * 2 ^ (7 * i)).
Proof.
  intros Hi Hb Hf. destruct (byte_group b Hb) as [Hd Eb].
  destruct (Z.ltb_spec i 4) as [H4|H4]; [|destruct (Z.eqb_spec i 4) as [->|Hn]].
  - rewrite <- lor_group by (lia || done). f_equal. symmetry. apply uwrap_id. unfold in_u.
    rewrite Z.shiftl_mul_pow2 by lia.
    assert (2 ^ (7 * i) <= 2 ^ 21) by (apply Z.pow_le_mono_r; lia).
    pose proof (Z.pow_pos_nonneg 2 (7 * i)). change (2 ^ 32) with (2 ^ 11 * 2 ^ 21). nia.
  - rewrite <- (lor_group 32 full _ 4) by (lia || done). f_equal. change (7 * 4) with 28.
    rewrite Eb at 1. rewrite !Z.shiftl_mul_pow2 by lia. rewrite Z.mul_add_distr_r.
    destruct (b <? 128); [f_equal; lia|].
    replace (128 * 2 ^ 28) with (8 * 2 ^ 32) by lia. by rewrite uwrap_add_high by lia.
  - by rewrite uwrap_add_high by lia.
Qed.

Lemma read_varint32_from_spec n i full buf :
  0 <= i -> in_u (7 * i) full -> bytes_ok buf ->
  of_varint_read (read_varint32_from n i (u32 full) buf) = wrap_decode 32 full i (varint_decode n buf).
Proof.
  revert i full buf. induction n as [|n IH]; intros i full buf Hi Hf Hb; [done|].
  destruct Hb as [|b buf Hb Hbuf]; [done|]. cbn [read_varint32_from].
  rewrite read_varint32_group, land_80_byte by done.
  destruct (byte_group b Hb) as [Hd _]. destruct (b <? 128) eqn:E.
  - by rewrite wrap_decode_last.
  - rewrite IH by (lia || done || by apply group_in_u). by rewrite wrap_decode_step.
Qed.

(** The three parts of the 64-bit reader. *)
Definition part (k full : Z) : Z :=
  if k =? 0 then full mod 2 ^ 28 else if k =? 1 then (full / 2 ^ 28) mod 2 ^ 28 else full / 2 ^ 56.

Lemma part_group k full d i :
  0 <= i < 10 -> 0 <= d < 128 -> in_u (7 * i) full -> 0 <= k <= 2 ->
  (if i / 4 =? k then Z.lor (part k full) (Z.shiftl d (7 * (i mod 4))) else part k full) =
  part k (full + d * 2 ^ (7 * i)).
Proof.
  intros Hi Hd Hf Hk.
  assert (Hi' : i = 0 \/ i = 1 \/ i = 2 \/ i = 3 \/ i = 4 \/ i = 5 \/ i = 6 \/ i = 7 \/ i = 8 \/ i = 9) by lia.
  assert (Hk' : k = 0 \/ k = 1 \/ k = 2) by lia.
  unfold in_u, part in *.
  repeat destruct Hi' as [->|Hi']; subst; repeat destruct Hk' as [->|Hk']; subst;
    match goal with |- context [if (?a / 4 =? ?b) then _ else _] =>
      let r := eval vm_compute in (a / 4 =? b) in change (a / 4 =? b) with r end; cbv iota;
    repeat match goal with |- context [?a =? ?b] =>
      let r := eval vm_compute in (a =? b) in change (a =? b) with r end; cbv iota;
    repeat match goal with |- context [?a mod 4] =>
      let r := eval vm_compute in (a mod 4) in change (a mod 4) with r end;
    cbn [Z.mul Pos.mul Pos.add] in *; cbn in Hf;
    try (rewrite lor_low by (try lia; unfold in_u; Z.div_mod_to_equations; lia));
    Z.div_mod_to_equations; lia.
Qed.

Lemma parts_join full :
  0 <= full ->
  Z.lor (Z.lor (part 0 full) (u64 (Z.shiftl (part 1 full) 28))) (u64 (Z.shiftl (part 2 full) 56)) = u64 full.
Proof.
  intros H. unfold part. cbn [Z.eqb Pos.eqb].
  rewrite (uwrap_small_shift 64 _ _ 28) by (try lia; unfold in_u; Z.div_mod_to_equations; lia).
  rewrite uwrap_id by (unfold in_u; Z.div_mod_to_equations; lia).
  rewrite uwrap_small_shift by (try lia; unfold in_u; Z.div_mod_to_equations; lia).
  f_equal. Z.div_mod_to_equations. lia.
Qed.

Lemma read_varint64_from_spec n i full buf :
  0 <= i -> Z.of_nat n + i <= 10 -> in_u (7 * i) full -> bytes_ok buf ->
  of_varint_read (read_varint64_from n i (part 0 full) (part 1 full) (part 2 full) buf) =
  wrap_decode 64 full i (varint_decode n buf).
Proof.
  revert i full buf. induction n as [|n IH]; intros i full buf Hi Hn Hf Hb; [done|].
  destruct Hb as [|b buf Hb Hbuf]; [done|]. cbn [read_varint64_from].
  destruct (byte_group b Hb) as [Hd _]. rewrite !part_group by (lia || done). rewrite land_80_byte by done.
  pose proof (group_in_u full _ i Hi Hf Hd) as Hf'. destruct (b <? 128) eqn:E.
  - rewrite wrap_decode_last, parts_join by (done || (destruct Hf'; lia)). done.
  - rewrite IH by (lia || done). by rewrite wrap_decode_step.
Qed.

(** ** The fast paths stay inside the buffer *)
Lemma read_varint32_overrun n i r buf :
  read_varint32_from n i r buf = VOverrun -> (length buf < n)%nat /\ Forall (fun b => Z.land b 0x80 <> 0) buf.
Proof.
  revert i r buf. induction n as [|n IH]; intros i r buf; [done|].
  destruct buf as [|b buf]; cbn [read_varint32_from length]; [intros _; split; [lia|done]|].
  destruct (Z.eqb_spec (Z.land b 0x80) 0); [done|].
  intros H%IH. split; [lia|]. constructor; tauto.
Qed.

Lemma read_varint64_overrun n i p0 p1 p2 buf :
  read_varint64_from n i p0 p1 p2 buf = VOverrun ->
  (length buf < n)%nat /\ Forall (fun b => Z.land b 0x80 <> 0) buf.
Proof.
  revert i p0 p1 p2 buf. induction n as [|n IH]; intros i p0 p1 p2 buf; [done|].
  destruct buf as [|b buf]; cbn [read_varint64_from length]; [intros _; split; [lia|done]|].
  destruct (Z.eqb_spec (Z.land b 0x80) 0); [done|].
  intros H%IH. split; [lia|]. constructor; tauto.
Qed.

Lemma fast_path_contained buf :
  varint_fast_path buf = true -> (length buf < 10)%nat -> Forall (fun b => Z.land b 0x80 <> 0) buf -> False.
Proof.
  unfold varint_fast_path, kMaxVarintBytes. intros [H|H]%orb_true_iff Hl Hf.
  - apply Z.leb_le in H. zlen_lia.
  - destruct (last buf) as [b|] eqn:E; [|done]. apply last_Some in E as [l' ->].
    apply Forall_app in Hf as [_ Hf]. apply Forall_cons in Hf as [Hf _]. by apply Z.eqb_eq in H.
Qed.

(** ** The complete readers *)
Definition read_spec (w : Z) (s : CodedInputStream) : option (Z * CodedInputStream) :=
  '(v, rest) ← varint_decode 10 (buffer_ s); Some (uwrap w v, set_buffer rest s).

Lemma wrap_decode_0 w r : wrap_decode w 0 0 r = '(v, rest) ← r; Some (uwrap w v, rest).
Proof. destruct r as [[v rest]|]; [|done]. cbn. do 3 f_equal. lia. Qed.

Lemma ReadVarint64Fallback_spec buf :
  bytes_ok buf -> ReadVarint64Fallback buf = '(v, rest) ← varint_decode 10 buf; Some (u64 v, rest).
Proof.
  intros Hb. unfold ReadVarint64Fallback, ReadVarint64Slow. rewrite <- wrap_decode_0.
  destruct (varint_fast_path buf).
  - apply (read_varint64_from_spec 10 0 0 buf); done.
  - apply (read_varint64_slow_spec 10 0 0 buf); done.
Qed.

Lemma uwrap_uwrap w w' z : 0 <= w <= w' -> uwrap w (uwrap w' z) = uwrap w z.
Proof.
  intros. rewrite !uwrap_land, <- Z.land_assoc by lia. f_equal.
  apply Z.bits_inj'. intros i Hi. rewrite Z.land_spec, !Z.testbit_ones_nonneg by lia. lia.
Qed.

Lemma ReadVarint32Fallback_spec buf :
  bytes_ok buf -> ReadVarint32Fallback buf = '(v, rest) ← varint_decode 10 buf; Some (u32 v, rest).
Proof.
  intros Hb. unfold ReadVarint32Fallback, ReadVarint32Slow. destruct (varint_fast_path buf) eqn:E.
  - rewrite <- wrap_decode_0. apply (read_varint32_from_spec 10 0 0 buf); done.
  - rewrite ReadVarint64Fallback_spec by done. destruct (varint_decode 10 buf) as [[v r]|]; [|done].
    cbn. by rewrite uwrap_uwrap by lia.
Qed.

Lemma byte_wrap w b : 8 <= w -> byte_ok b -> uwrap w b = b.
Proof. intros. apply uwrap_id. eapply in_u_mono; [|done]. lia. Qed.

Lemma ReadVarint64_spec s : bytes_ok (buffer_ s) -> ReadVarint64 s = read_spec 64 s.
Proof.
  intros Hb. unfold ReadVarint64, read_spec. rewrite ReadVarint64Fallback_spec by done.
  destruct (buffer_ s) as [|b buf] eqn:E; [done|]. apply Forall_cons in Hb as [Hb _].
  destruct (b <? 128) eqn:Eb.
  - cbn [varint_decode]. rewrite Eb. cbn. rewrite byte_wrap by (lia || done).
    unfold Advance. by rewrite E.
  - destruct (varint_decode 10 (b :: buf)) as [[v r]|]; done.
Qed.

Lemma ReadVarint32_spec s : bytes_ok (buffer_ s) -> ReadVarint32 s = read_spec 32 s.
Proof.
  intros Hb. unfold ReadVarint32, read_spec. rewrite ReadVarint32Fallback_spec by done.
  destruct (buffer_ s) as [|b buf] eqn:E; [done|]. apply Forall_cons in Hb as [Hb _].
  destruct (b <? 128) eqn:Eb.
  - cbn [varint_decode]. rewrite Eb. cbn. rewrite byte_wrap by (lia || done).
    unfold Advance. by rewrite E.
  - destruct (varint_decode 10 (b :: buf)) as [[v r]|]; done.
Qed.

Lemma ReadTag_some s v rest :
  bytes_ok (buffer_ s) -> varint_decode 10 (buffer_ s) = Some (v, rest) ->
  ReadTag s = (u32 v, set_last_tag (u32 v) (set_buffer rest s)).
Proof.
  intros Hb Hv.
  assert (Hfall : ReadTagFallback s = (u32 v, set_buffer rest s)).
  { unfold ReadTagFallback. destruct (varint_fast_path (buffer_ s)) eqn:E.
    - pose proof (read_varint32_from_spec 10 0 0 (buffer_ s)) as H. specialize (H ltac:(lia) ltac:(done) Hb).
      rewrite wrap_decode_0, Hv in H. unfold ReadVarint32FromArray.
      change (u32 0) with 0 in H. change (Z.to_nat kMaxVarintBytes) with 10%nat.
      destruct (read_varint32_from 10 0 0 (buffer_ s)); cbn in H; [|done..]. by injection H as -> ->.
    - destruct (buffer_ s) as [|b buf] eqn:Eb; [done|].
      assert ((BufferSize s =? 0) = false) as ->
        by (unfold BufferSize; rewrite Eb, zlen_cons; pose proof (zlen_nonneg buf); lia).
      cbn [andb]. unfold ReadTagSlow. rewrite Eb, ReadVarint64_spec by by rewrite Eb.
      unfold read_spec. rewrite Eb, Hv. cbn. by rewrite uwrap_uwrap by lia. }
  unfold ReadTag. rewrite Hfall. destruct (buffer_ s) as [|b buf] eqn:Eb; [done|].
  destruct (b <? 128) eqn:E; [|done]. apply Forall_cons in Hb as [Hb _].
  cbn [varint_decode] in Hv. rewrite E in Hv. injection Hv as <- <-.
  rewrite byte_wrap by (lia || done). unfold Advance. by rewrite Eb.
Qed.

Lemma ReadTag_nil s :
  buffer_ s = [] -> total_bytes_read_ s < kDefaultTotalBytesLimit ->
  ReadTag s = (0, set_last_tag 0 (set_legitimate_message_end true s)).
Proof.
  intros E Hl. unfold ReadTag, ReadTagFallback, varint_fast_path, BufferSize. rewrite E.
  change (zlen (@nil Z)) with 0. by rewrite (proj2 (Z.ltb_lt _ _) Hl).
Qed.

(** ** Positions only move forward *)
Lemma varint_decode_cons n b buf :
  varint_decode (S n) (b :: buf) =
  if b <? 128 then Some (b, buf) else '(v, rest) ← varint_decode n buf; Some (b - 128 + 128 * v, rest).
Proof. done. Qed.

Lemma varint_decode_suffix n buf v rest :
  varint_decode n buf = Some (v, rest) -> rest `suffix_of` buf /\ (length rest < length buf)%nat.
Proof.
  revert buf v. induction n as [|n IH]; intros [|b buf] v; try done. rewrite varint_decode_cons.
  destruct (b <? 128); [intros [= _ <-]; split; [by exists [b]|cbn; lia]|].
  destruct (varint_decode n buf) as [[v' r']|] eqn:E; [|done]. cbn. intros [= _ <-].
  destruct (IH _ _ E) as [H1 H2]. split; [by apply suffix_cons_r|cbn; lia].
Qed.

Lemma ReadTag_none s :
  bytes_ok (buffer_ s) -> varint_decode 10 (buffer_ s) = None ->
  exists s', ReadTag s = (0, s') /\ buffer_ s' = buffer_ s.
Proof.
  intros Hb Hv.
  assert (Hfall : exists s', ReadTagFallback s = (0, s') /\ buffer_ s' = buffer_ s).
  { unfold ReadTagFallback. destruct (varint_fast_path (buffer_ s)) eqn:E.
    - pose proof (read_varint32_from_spec 10 0 0 (buffer_ s)) as H. specialize (H ltac:(lia) ltac:(done) Hb).
      rewrite wrap_decode_0, Hv in H. unfold ReadVarint32FromArray.
      change (u32 0) with 0 in H. change (Z.to_nat kMaxVarintBytes) with 10%nat.
      destruct (read_varint32_from 10 0 0 (buffer_ s)); cbn in H; [done|eauto..].
    - destruct (_ && _); [eauto|]. unfold ReadTagSlow.
      destruct (buffer_ s) as [|b buf] eqn:Eb; [eauto|].
      rewrite ReadVarint64_spec by by rewrite Eb. unfold read_spec. rewrite Eb, Hv. cbn. eauto. }
  destruct Hfall as (s' & E & Es). unfold ReadTag. rewrite E.
  destruct (buffer_ s) as [|b buf] eqn:Eb; [eauto|].
  destruct (b <? 128) eqn:Elt; [|eauto]. rewrite varint_decode_cons, Elt in Hv. done.
Qed.

(** ** Encoding *)
Definition digit (v : Z) (i : nat) : Z := (v / 2 ^ (7 * Z.of_nat i)) mod 128.

Lemma digit_div v i : digit (v / 128) i = digit v (S i).
Proof.
  unfold digit. rewrite Z.div_div by lia.
  replace (7 * Z.of_nat (S i)) with (7 + 7 * Z.of_nat i) by lia. rewrite Z.pow_add_r by lia. done.
Qed.

(** A number of [s + 1] groups. *)
Lemma varint_encode_digits n s v :
  (s <= n)%nat -> (s = 0%nat \/ 2 ^ (7 * Z.of_nat s) <= v) -> 0 <= v < 2 ^ (7 * (Z.of_nat s + 1)) ->
  varint_encode n v = ((fun i => digit v i + 128) <$> seq 0 s) ++ [digit v s].
Proof.
  revert n v. induction s as [|s IH]; intros n v Hn Hlo Hhi.
  - change (2 ^ (7 * (Z.of_nat 0 + 1))) with 128 in Hhi. unfold digit. cbn [fmap list_fmap seq app].
    change (2 ^ (7 * Z.of_nat 0)) with 1. rewrite Z.div_1_r, Z.mod_small by lia.
    destruct n; cbn; [done|]. by rewrite (proj2 (Z.ltb_lt _ _)) by lia.
  - destruct n as [|n]; [lia|]. destruct Hlo as [|Hlo]; [done|].
    replace (7 * (Z.of_nat (S s) + 1)) with (7 + 7 * (Z.of_nat s + 1)) in Hhi by lia.
    replace (7 * Z.of_nat (S s)) with (7 + 7 * Z.of_nat s) in Hlo by lia.
    rewrite Z.pow_add_r in Hlo, Hhi by lia. change (2 ^ 7) with 128 in *.
    pose proof (Z.pow_pos_nonneg 2 (7 * Z.of_nat s)).
    cbn [varint_encode]. rewrite (proj2 (Z.ltb_ge _ _)) by lia.
    rewrite (IH n (v / 128)); [|lia| |split; [apply Z.div_pos; lia|apply Z.div_lt_upper_bound; lia]].
    + cbn [seq fmap list_fmap app]. rewrite digit_div. f_equal; [by unfold digit; rewrite Z.div_1_r|].
      f_equal. rewrite <- (fmap_S_seq 0 s), <- list_fmap_compose. apply list_fmap_ext. intros i x _.
      unfold compose. by rewrite digit_div.
    + right. apply Z.div_le_lower_bound; lia.
Qed.

Lemma varint_encode_length n s v :
  (s <= n)%nat -> (s = 0%nat \/ 2 ^ (7 * Z.of_nat s) <= v) -> 0 <= v < 2 ^ (7 * (Z.of_nat s + 1)) ->
  zlen (varint_encode n v) = Z.of_nat s + 1.
Proof.
  intros. rewrite (varint_encode_digits n s) by done. rewrite zlen_app.
  unfold zlen. rewrite length_fmap, length_seq. cbn. lia.
Qed.

Lemma varint_encode_ok n v : 0 <= v < 2 ^ (7 * (Z.of_nat n + 1)) -> bytes_ok (varint_encode n v).
Proof.
  revert v. induction n as [|n IH]; intros v Hv; cbn [varint_encode].
  - change (2 ^ (7 * (Z.of_nat 0 + 1))) with 128 in Hv. constructor; [unfold byte_ok, in_u; lia|done].
  - destruct (Z.ltb_spec v 128).
    + constructor; [unfold byte_ok, in_u; lia|done].
    + constructor; [unfold byte_ok, in_u; Z.div_mod_to_equations; lia|]. apply IH.
      replace (7 * (Z.of_nat (S n) + 1)) with (7 + 7 * (Z.of_nat n + 1)) in Hv by lia.
      rewrite Z.pow_add_r in Hv by lia. change (2 ^ 7) with 128 in Hv.
      split; [apply Z.div_pos; lia|apply Z.div_lt_upper_bound; lia].
Qed.

Lemma varint_roundtrip n v rest :
  0 <= v < 2 ^ (7 * (Z.of_nat n + 1)) -> varint_decode (S n) (varint_encode n v ++ rest) = Some (v, rest).
Proof.
  revert v. induction n as [|n IH]; intros v Hv.
  - change (2 ^ (7 * (Z.of_nat 0 + 1))) with 128 in Hv. cbn. by rewrite (proj2 (Z.ltb_lt _ _)) by lia.
  - cbn [varint_encode]. destruct (Z.ltb_spec v 128).
    + cbn [app]. cbn [varint_decode]. by rewrite (proj2 (Z.ltb_lt _ _)) by lia.
    + rewrite <- app_comm_cons. set (b := v mod 128 + 128). rewrite varint_decode_cons.
      rewrite (proj2 (Z.ltb_ge b 128)) by (unfold b; Z.div_mod_to_equations; lia).
      rewrite IH; [cbn; do 2 f_equal; unfold b; Z.div_mod_to_equations; lia|].
      replace (7 * (Z.of_nat (S n) + 1)) with (7 + 7 * (Z.of_nat n + 1)) in Hv by lia.
      rewrite Z.pow_add_r in Hv by lia. change (2 ^ 7) with 128 in Hv.
      split; [apply Z.div_pos; lia|apply Z.div_lt_upper_bound; lia].
Qed.

(** ** The writers compute the base-128 encoding *)

(** Closed powers of two in the goal, evaluated. *)
Ltac pow_eval :=
  repeat match goal with |- context [2 ^ ?e] =>
    let r := eval vm_compute in (2 ^ e) in change (2 ^ e) with r end.
Ltac pow_lia := pow_eval; lia.

Lemma store_group v k : u8 (Z.lor (Z.shiftr v (7 * Z.of_nat k)) 0x80) = digit v k + 128.
Proof. rewrite lor_80, Z.shiftr_div_pow2 by lia. done. Qed.

Lemma mask_group x : Z.land (x mod 128 + 128) 0x7F = x mod 128.
Proof. rewrite land_7f. Z.div_mod_to_equations. lia. Qed.

Lemma mask_digit v k : Z.land (digit v k + 128) 0x7F = digit v k.
Proof. apply mask_group. Qed.

Lemma WriteVarint32Fallback_spec v :
  in_u 32 v -> WriteVarint32FallbackToArrayInline v = varint_encode 9 v.
Proof.
  intros Hv. unfold WriteVarint32FallbackToArrayInline.
  pose proof (store_group v 0) as H0. rewrite Z.shiftr_0_r in H0.
  pose proof (store_group v 1) as H1. pose proof (store_group v 2) as H2. pose proof (store_group v 3) as H3.
  change (7 * Z.of_nat 1) with 7 in H1. change (7 * Z.of_nat 2) with 14 in H2. change (7 * Z.of_nat 3) with 21 in H3.
  rewrite H0, H1, H2, H3, !mask_digit.
  change (Z.shiftl 1 7) with (2 ^ 7). change (Z.shiftl 1 14) with (2 ^ 14).
  change (Z.shiftl 1 21) with (2 ^ 21). change (Z.shiftl 1 28) with (2 ^ 28). unfold in_u in Hv.
  repeat case_match; rewrite ?Z.leb_le, ?Z.leb_gt in *.
  - rewrite (varint_encode_digits 9 4) by pow_lia. cbn. do 5 f_equal.
    rewrite Z.shiftr_div_pow2 by lia. unfold uwrap, digit. change (7 * Z.of_nat 4) with 28.
    rewrite !Z.mod_small by (Z.div_mod_to_equations; lia). done.
  - rewrite (varint_encode_digits 9 3) by pow_lia. done.
  - rewrite (varint_encode_digits 9 2) by pow_lia. done.
  - rewrite (varint_encode_digits 9 1) by pow_lia. done.
  - rewrite (varint_encode_digits 9 0) by pow_lia. done.
Qed.

Lemma WriteVarint32ToArray_spec v : in_u 32 v -> WriteVarint32ToArray v = varint_encode 9 v.
Proof.
  intros Hv. unfold WriteVarint32ToArray. destruct (v <? 0x80) eqn:E; [|by apply WriteVarint32Fallback_spec].
  cbn [varint_encode]. by rewrite E.
Qed.

Lemma CodedWriteTagToArray_spec v : in_u 32 v -> CodedWriteTagToArray v = varint_encode 9 v.
Proof.
  intros Hv. unfold CodedWriteTagToArray. change (Z.shiftl 1 7) with 128. change (Z.shiftl 1 14) with 16384.
  destruct (v <? 128) eqn:E1; [cbn [varint_encode]; by rewrite E1|].
  destruct (Z.ltb_spec v 16384) as [E2|E2]; [|by apply WriteVarint32Fallback_spec].
  apply Z.ltb_ge in E1. rewrite (varint_encode_digits 9 1) by pow_lia. cbn.
  pose proof (store_group v 0) as H0. rewrite Z.shiftr_0_r in H0. rewrite H0. do 2 f_equal.
  rewrite Z.shiftr_div_pow2 by lia. unfold uwrap, digit. change (7 * Z.of_nat 1) with 7.
  rewrite !Z.mod_small by (Z.div_mod_to_equations; lia). done.
Qed.

Lemma write_varint_slow_spec n v :
  0 <= v < 2 ^ (7 * (Z.of_nat n + 1)) -> write_varint_slow n v = varint_encode n v.
Proof.
  revert v. induction n as [|n IH]; intros v Hv; cbn [write_varint_slow varint_encode].
  - change (2 ^ (7 * (Z.of_nat 0 + 1))) with 128 in Hv. f_equal. apply uwrap_id. unfold in_u. lia.
  - rewrite land_7f, Z.shiftr_div_pow2 by lia. change (2 ^ 7) with 128.
    replace (u8 v mod 128) with (v mod 128) by (unfold uwrap; Z.div_mod_to_equations; lia).
    replace (v <? 128) with (negb (0x7F <? v)) by (destruct (Z.ltb_spec 0x7F v), (Z.ltb_spec v 128); lia).
    destruct (Z.ltb_spec 0x7F v) as [H|H]; cbn [negb].
    + f_equal; [|apply IH].
      * change (Z.lor (v mod 128) (Z.shiftl 1 7) = v mod 128 + 1 * 2 ^ 7).
        apply lor_low; [lia|]. unfold in_u. Z.div_mod_to_equations. lia.
      * replace (7 * (Z.of_nat (S n) + 1)) with (7 + 7 * (Z.of_nat n + 1)) in Hv by lia.
        rewrite Z.pow_add_r in Hv by lia. change (2 ^ 7) with 128 in Hv.
        split; [apply Z.div_pos; lia|apply Z.div_lt_upper_bound; lia].
    + by rewrite Z.mod_small by lia.
Qed.

(** The groups of a 64-bit value are groups of its three parts. *)
Lemma digit_part0 v i : (i < 4)%nat -> digit (u32 v) i = digit v i.
Proof.
  intros Hi. unfold digit, uwrap.
  assert (Hi' : i = 0%nat \/ i = 1%nat \/ i = 2%nat \/ i = 3%nat) by lia.
  repeat destruct Hi' as [->|Hi']; subst; cbn; Z.div_mod_to_equations; lia.
Qed.

Lemma digit_shift v k i : digit (Z.shiftr v (7 * Z.of_nat k)) i = digit v (k + i).
Proof.
  unfold digit. rewrite Z.shiftr_div_pow2, Z.div_div by lia. do 2 f_equal.
  rewrite <- Z.pow_add_r by lia. f_equal. lia.
Qed.

Lemma store_part v k i : (i < 4)%nat ->
  u8 (Z.lor (Z.shiftr (u32 (Z.shiftr v (7 * Z.of_nat k))) (7 * Z.of_nat i)) 0x80) = digit v (k + i) + 128.
Proof. intros. by rewrite store_group, digit_part0, digit_shift. Qed.

Lemma varint64_size_spec v :
  in_u 64 v -> exists s : nat,
    varint64_size (u32 v) (u32 (Z.shiftr v 28)) (u32 (Z.shiftr v 56)) = Z.of_nat s + 1 /\
    (s <= 9)%nat /\ (s = 0%nat \/ 2 ^ (7 * Z.of_nat s) <= v) /\ 0 <= v < 2 ^ (7 * (Z.of_nat s + 1)).
Proof.
  unfold in_u, varint64_size. intros Hv. rewrite !Z.shiftr_div_pow2 by lia. unfold uwrap.
  change (Z.shiftl 1 7) with (2 ^ 7). change (Z.shiftl 1 14) with (2 ^ 14). change (Z.shiftl 1 21) with (2 ^ 21).
  repeat case_match; rewrite ?Z.eqb_eq, ?Z.eqb_neq, ?Z.ltb_lt, ?Z.ltb_ge in *;
    match goal with |- exists s, ?x = _ /\ _ => exists (Z.to_nat (x - 1)) end;
    (split; [done|split; [lia|]]); pow_eval; Z.div_mod_to_equations; lia.
Qed.

Lemma WriteVarint64_spec v : in_u 64 v -> WriteVarint64ToArrayInline v = varint_encode 9 v.
Proof.
  intros Hv. unfold WriteVarint64ToArrayInline. destruct (varint64_size_spec v Hv) as (s & -> & Hs & Hlo & Hhi).
  rewrite (varint_encode_digits 9 s) by done. cbn [fmap list_fmap].
  pose proof (store_part v 0) as H0. pose proof (store_part v 4) as H4. pose proof (store_part v 8) as H8.
  rewrite Z.shiftr_0_r in H0. change (7 * Z.of_nat 4) with 28 in H4. change (7 * Z.of_nat 8) with 56 in H8.
  assert (E0 : forall x, Z.shiftr x (7 * Z.of_nat 0) = x) by (intros; apply Z.shiftr_0_r).
  pose proof (H0 0%nat ltac:(lia)) as A0. pose proof (H4 0%nat ltac:(lia)) as A4. pose proof (H8 0%nat ltac:(lia)) as A8.
  rewrite E0 in A0, A4, A8. rewrite A0, A4, A8.
  change 7 with (7 * Z.of_nat 1). change 14 with (7 * Z.of_nat 2). change 21 with (7 * Z.of_nat 3).
  rewrite !H0, !H4, !H8 by lia. rewrite Z.add_simpl_r, Nat2Z.id.
  replace (Z.to_nat (Z.of_nat s + 1)) with (S s) by lia. clear -Hs.
  do 10 (destruct s as [|s]; [cbn; rewrite mask_digit; done|]). lia.
Qed.

Lemma varint_encode_fuel n m v :
  (n <= m)%nat -> 0 <= v < 2 ^ (7 * (Z.of_nat n + 1)) -> varint_encode n v = varint_encode m v.
Proof.
  revert m v. induction n as [|n IH]; intros m v Hm Hv.
  - change (2 ^ (7 * (Z.of_nat 0 + 1))) with 128 in Hv. destruct m; cbn; [done|].
    by rewrite (proj2 (Z.ltb_lt _ _)) by lia.
  - destruct m as [|m]; [lia|]. cbn [varint_encode]. destruct (v <? 128); [done|]. f_equal. apply IH; [lia|].
    replace (7 * (Z.of_nat (S n) + 1)) with (7 + 7 * (Z.of_nat n + 1)) in Hv by lia.
    rewrite Z.pow_add_r in Hv by lia. change (2 ^ 7) with 128 in Hv.
    split; [apply Z.div_pos; lia|apply Z.div_lt_upper_bound; lia].
Qed.

Lemma WriteVarint32_spec size v : in_u 32 v -> WriteVarint32 size v = varint_encode 9 v.
Proof.
  intros Hv. unfold WriteVarint32. destruct (_ <=? _); [by apply WriteVarint32Fallback_spec|].
  unfold in_u in Hv. change (Z.to_nat kMaxVarint32Bytes) with 5%nat.
  rewrite write_varint_slow_spec by pow_lia. apply varint_encode_fuel; [lia|pow_lia].
Qed.

Lemma WriteVarint64_both size v : in_u 64 v -> WriteVarint64 size v = varint_encode 9 v.
Proof.
  intros Hv. unfold WriteVarint64. destruct (_ <=? _); [by apply WriteVarint64_spec|].
  unfold in_u in Hv. change (Z.to_nat kMaxVarintBytes) with 10%nat.
  rewrite write_varint_slow_spec by pow_lia. symmetry. apply varint_encode_fuel; [lia|pow_lia].
Qed.

(** The encoding of a signed 32-bit value is that of its 64-bit extension. *)
Lemma WriteVarint32SignExtended_spec size v :
  in_s 32 v ->
  WriteVarint32SignExtended size v = varint_encode 9 (u64 v) /\
  WriteVarint32SignExtendedToArray v = varint_encode 9 (u64 v).
Proof.
  unfold in_s. intros Hv. unfold WriteVarint32SignExtended, WriteVarint32SignExtendedToArray.
  destruct (Z.ltb_spec v 0) as [Hn|Hn].
  - by rewrite WriteVarint64_both, WriteVarint64_spec by (apply uwrap_range; lia).
  - rewrite WriteVarint32_spec, WriteVarint32ToArray_spec by (apply uwrap_range; lia).
    rewrite !uwrap_id by (unfold in_u; lia). done.
Qed.

(** ** Sizes *)
Lemma VarintSize32_spec v : in_u 32 v -> VarintSize32 v = zlen (varint_encode 9 v).
Proof.
  unfold in_u. intros Hv. unfold VarintSize32, VarintSize32Fallback.
  change (Z.shiftl 1 7) with (2 ^ 7). change (Z.shiftl 1 14) with (2 ^ 14).
  change (Z.shiftl 1 21) with (2 ^ 21). change (Z.shiftl 1 28) with (2 ^ 28).
  repeat case_match; rewrite ?Z.ltb_lt, ?Z.ltb_ge in *; symmetry;
    match goal with |- _ = ?k => let s := eval vm_compute in (Z.to_nat (k - 1)) in
      apply (varint_encode_length 9 s); pow_lia end.
Qed.

Lemma VarintSize64_spec v : in_u 64 v -> VarintSize64 v = zlen (varint_encode 9 v).
Proof.
  unfold in_u. intros Hv. unfold VarintSize64. rewrite !Z.shiftl_mul_pow2 by lia.
  repeat case_match; rewrite ?Z.ltb_lt, ?Z.ltb_ge in *; symmetry;
    match goal with |- _ = ?k => let s := eval vm_compute in (Z.to_nat (k - 1)) in
      apply (varint_encode_length 9 s); pow_lia end.
Qed.

Lemma VarintSize32SignExtended_spec v :
  in_s 32 v -> VarintSize32SignExtended v = zlen (varint_encode 9 (u64 v)).
Proof.
  unfold in_s. intros Hv. unfold VarintSize32SignExtended. destruct (Z.ltb_spec v 0).
  - symmetry. assert (Hu : u64 v = v + 2 ^ 64) by (unfold uwrap; rewrite <- (Z.mod_add v 1), Z.mod_small; lia).
    rewrite Hu. change (2 ^ (32 - 1)) with 2147483648 in Hv. apply (varint_encode_length 9 9); pow_lia.
  - rewrite VarintSize32_spec by (apply uwrap_range; lia). by rewrite !uwrap_id by (unfold in_u; lia).
Qed.

(** ** Reading what was written *)
Lemma varint64_ok v : in_u 64 v -> bytes_ok (varint_encode 9 v).
Proof. unfold in_u. intros. apply varint_encode_ok. pow_lia. Qed.

Lemma decode_encode v rest : in_u 64 v -> varint_decode 10 (varint_encode 9 v ++ rest) = Some (v, rest).
Proof. unfold in_u. intros. apply varint_roundtrip. pow_lia. Qed.

Lemma ReadVarint64_write v rest s :
  in_u 64 v -> bytes_ok rest -> buffer_ s = varint_encode 9 v ++ rest ->
  ReadVarint64 s = Some (v, set_buffer rest s).
Proof.
  intros Hv Hr E. rewrite ReadVarint64_spec by (rewrite E; apply Forall_app; auto using varint64_ok).
  unfold read_spec. rewrite E, decode_encode by done. cbn. by rewrite uwrap_id.
Qed.

Lemma ReadVarint32_write v rest s :
  in_u 64 v -> bytes_ok rest -> buffer_ s = varint_encode 9 v ++ rest ->
  ReadVarint32 s = Some (u32 v, set_buffer rest s).
Proof.
  intros Hv Hr E. rewrite ReadVarint32_spec by (rewrite E; apply Forall_app; auto using varint64_ok).
  unfold read_spec. by rewrite E, decode_encode.
Qed.

(** * Properties *)

(** C18. The unrolled fast paths of the varint readers agree with the byte by
    byte slow path on every buffer, corrupt and truncated ones included, and
    where their guard sends the code they never read past the end of the
    buffer. *)
Theorem varint_fast_paths_sound (buffer : bytes) :
  bytes_ok buffer ->
  ReadVarint64Fallback buffer = ReadVarint64Slow buffer /\
  ReadVarint32Fallback buffer = ('(v, rest) ← ReadVarint64Slow buffer; Some (u32 v, rest)) /\
  (varint_fast_path buffer = true ->
   ReadVarint32FromArray buffer <> VOverrun /\
   read_varint64_from (Z.to_nat kMaxVarintBytes) 0 0 0 0 buffer <> VOverrun).
Proof.
  intros Hb.
  assert (Hslow : ReadVarint64Slow buffer = '(v, rest) ← varint_decode 10 buffer; Some (u64 v, rest)).
  { rewrite <- wrap_decode_0. apply (read_varint64_slow_spec 10 0 0 buffer); done. }
  rewrite Hslow, ReadVarint64Fallback_spec, ReadVarint32Fallback_spec by done. split_and!; [done| |].
  - destruct (varint_decode 10 buffer) as [[v r]|]; [|done]. cbn. by rewrite uwrap_uwrap by lia.
  - intros Hf. split; intros [H1 H2]%read_varint32_overrun || intros [H1 H2]%read_varint64_overrun;
      eapply fast_path_contained; eauto.
Qed.

(** Witness of C18: a three-byte varint that ends the buffer. *)
Lemma varint_fast_paths_sound_witness :
  ReadVarint64Fallback [0x80; 0xFF; 0x01] = ReadVarint64Slow [0x80; 0xFF; 0x01] /\
  ReadVarint32FromArray [0x80; 0xFF; 0x01] <> VOverrun.
Proof.
  destruct (varint_fast_paths_sound [0x80; 0xFF; 0x01]) as (H1 & _ & H3); [decide_closed|].
  split; [exact H1|apply H3; reflexivity].
Defined.

(** C19. Varint round trip: whatever room the output buffer has, the writers
    store the same bytes, as many as the size functions announce, and reading
    them back gives the value and leaves what follows; a signed 32-bit value is
    written as its 64-bit extension and read back by the 32-bit reader. *)
Theorem varint_write_read (value v32 : Z) (size : Z) (rest : bytes) (s : CodedInputStream) :
  in_u 64 value -> in_s 32 v32 -> bytes_ok rest ->
  WriteVarint64 size value = WriteVarint64ToArrayInline value /\
  VarintSize64 value = zlen (WriteVarint64 size value) /\
  ReadVarint64 (set_buffer (WriteVarint64 size value ++ rest) s) = Some (value, set_buffer rest s) /\
  WriteVarint32SignExtended size v32 = WriteVarint32SignExtendedToArray v32 /\
  VarintSize32SignExtended v32 = zlen (WriteVarint32SignExtended size v32) /\
  ReadVarint32 (set_buffer (WriteVarint32SignExtended size v32 ++ rest) s) = Some (u32 v32, set_buffer rest s).
Proof.
  intros Hv H32 Hr. destruct (WriteVarint32SignExtended_spec size v32 H32) as [E1 E2].
  rewrite WriteVarint64_both, WriteVarint64_spec, E1, E2 by done.
  split_and!; [done|by apply VarintSize64_spec| |done|by apply VarintSize32SignExtended_spec|].
  - by rewrite (ReadVarint64_write value rest).
  - rewrite (ReadVarint32_write (u64 v32) rest) by (done || (apply uwrap_range; lia)).
    by rewrite uwrap_uwrap by lia.
Qed.

(** Witness of C19: a 35-bit value and -2, with room for three bytes only. *)
Lemma varint_write_read_witness :
  ReadVarint64 (set_buffer (WriteVarint64 3 0x7FFFFFFFF ++ [7]) (CodedInputStream_new [])) =
    Some (0x7FFFFFFFF, set_buffer [7] (CodedInputStream_new [])) /\
  VarintSize32SignExtended (-2) = zlen (WriteVarint32SignExtended 3 (-2)).
Proof.
  destruct (varint_write_read 0x7FFFFFFFF (-2) 3 [7] (CodedInputStream_new [])) as (_ & _ & H3 & _ & H5 & _);
    [decide_closed|decide_closed|decide_closed|]. split; [exact H3|exact H5].
Defined.
