(* ===== verification/RpcPb.v ===== *)
(** The RPC envelope: the generated message class [jme_rpc]
    (include/rpc/JME_RpcPb.h, source/rpc/JME_RpcPb.cpp) and the parts of the
    bundled protocol buffers library it calls (wire_format.cc,
    wire_format_lite.cc, wire_format_lite_inl.h, unknown_field_set.cc,
    message_lite.cc).

    A parse function that returns false still leaves its message changed: the
    RPC code ignores the return value, so the model returns the flag together
    with the message as it is then.  (The position of the input stream after a
    failed read is not tracked: nothing reads from it any more.) *)
From S2P Require Import Prelude CodedStream.
Local Open Scope Z_scope.

(** ** Tags *)
Definition WIRETYPE_VARINT : Z := 0.
Definition WIRETYPE_FIXED64 : Z := 1.
Definition WIRETYPE_LENGTH_DELIMITED : Z := 2.
Definition WIRETYPE_START_GROUP : Z := 3.
Definition WIRETYPE_END_GROUP : Z := 4.
Definition WIRETYPE_FIXED32 : Z := 5.

Definition MakeTag (field_number type : Z) : Z := u32 (Z.lor (Z.shiftl field_number 3) type).
Definition GetTagWireType (tag : Z) : Z := Z.land tag 7.
Definition GetTagFieldNumber (tag : Z) : Z := Z.shiftr tag 3.

(** ** Unknown fields *)
Inductive UnknownField : Set :=
| UVarint (number value : Z)
| UFixed32 (number value : Z)
| UFixed64 (number value : Z)
| ULengthDelimited (number : Z) (data : list Z)
| UGroup (number : Z) (group : list UnknownField).

Abbreviation UnknownFieldSet := (list UnknownField) (only parsing).

(** [WireFormat::SkipField]; [skip_message] is [SkipMessage] one level down. *)
Definition SkipField_with
    (skip_message : CodedInputStream -> UnknownFieldSet -> bool * CodedInputStream * UnknownFieldSet)
    (tag : Z) (input : CodedInputStream) (unknown_fields : UnknownFieldSet)
    : bool * CodedInputStream * list UnknownField :=
  let number := GetTagFieldNumber tag in
  let type := GetTagWireType tag in
  if type =? WIRETYPE_VARINT then
    match ReadVarint64 input with
    | Some (value, input) => (true, input, unknown_fields ++ [UVarint number value])
    | None => (false, input, unknown_fields)
    end
  else if type =? WIRETYPE_FIXED64 then
    match ReadLittleEndian64 input with
    | Some (value, input) => (true, input, unknown_fields ++ [UFixed64 number value])
    | None => (false, input, unknown_fields)
    end
  else if type =? WIRETYPE_LENGTH_DELIMITED then
    match ReadVarint32 input with
    | Some (length, input) =>
        let '(ok, str, input) := ReadString [] length input in
        (ok, input, unknown_fields ++ [ULengthDelimited number str])
    | None => (false, input, unknown_fields)
    end
  else if type =? WIRETYPE_START_GROUP then
    let '(deep, input) := IncrementRecursionDepth input in
    if negb deep then (false, input, unknown_fields)
    else
      let '(ok, input, group) := skip_message input [] in
      if negb ok then (false, input, unknown_fields ++ [UGroup number group])
      else
        let input := DecrementRecursionDepth input in
        (LastTagWas (MakeTag (GetTagFieldNumber tag) WIRETYPE_END_GROUP) input, input,
         unknown_fields ++ [UGroup number group])
  else if type =? WIRETYPE_END_GROUP then (false, input, unknown_fields)
  else if type =? WIRETYPE_FIXED32 then
    match ReadLittleEndian32 input with
    | Some (value, input) => (true, input, unknown_fields ++ [UFixed32 number value])
    | None => (false, input, unknown_fields)
    end
  else (false, input, unknown_fields).

(** [WireFormat::SkipMessage].  Every round reads at least the byte of a tag:
    more rounds than bytes are never needed (see [SkipMessage_fuel]). *)
Fixpoint SkipMessage (fuel : nat) (input : CodedInputStream) (unknown_fields : UnknownFieldSet)
    : bool * CodedInputStream * list UnknownField :=
  match fuel with
  | O => (false, input, unknown_fields)
  | S fuel =>
      let '(tag, input) := ReadTag input in
      if tag =? 0 then (true, input, unknown_fields)
      else if GetTagWireType tag =? WIRETYPE_END_GROUP then (true, input, unknown_fields)
      else
        let '(ok, input, unknown_fields) := SkipField_with (SkipMessage fuel) tag input unknown_fields in
        if ok then SkipMessage fuel input unknown_fields else (false, input, unknown_fields)
  end.

Definition skip_fuel (input : CodedInputStream) : nat := S (length (buffer_ input)).
Definition SkipField (tag : Z) (input : CodedInputStream) (unknown_fields : UnknownFieldSet)
    : bool * CodedInputStream * list UnknownField :=
  SkipField_with (SkipMessage (skip_fuel input)) tag input unknown_fields.

(** [WireFormatLite::Write...ToArray]. *)
Definition WriteTagToArray (field_number type : Z) : bytes := CodedWriteTagToArray (MakeTag field_number type).
Definition WriteInt32ToArray (field_number value : Z) : bytes :=
  WriteTagToArray field_number WIRETYPE_VARINT ++ WriteVarint32SignExtendedToArray value.
Definition WriteInt64ToArray (field_number value : Z) : bytes :=
  WriteTagToArray field_number WIRETYPE_VARINT ++ WriteVarint64ToArrayInline (u64 value).
Definition WriteFixed32ToArray (field_number value : Z) : bytes :=
  WriteTagToArray field_number WIRETYPE_FIXED32 ++ WriteLittleEndian32ToArray value.
Definition WriteFixed64ToArray (field_number value : Z) : bytes :=
  WriteTagToArray field_number WIRETYPE_FIXED64 ++ WriteLittleEndian64ToArray value.
Definition WriteStringToArray (field_number : Z) (value : bytes) : bytes :=
  WriteTagToArray field_number WIRETYPE_LENGTH_DELIMITED ++ WriteVarint32ToArray (u32 (zlen value)) ++ value.
Definition WriteBytesToArray (field_number : Z) (value : bytes) : bytes :=
  WriteTagToArray field_number WIRETYPE_LENGTH_DELIMITED ++ WriteVarint32ToArray (u32 (zlen value)) ++ value.

(** [WireFormat::SerializeUnknownFieldsToArray]. *)
Fixpoint SerializeUnknownFieldToArray (field : UnknownField) : bytes :=
  match field with
  | UVarint number value => WriteInt64ToArray number value
  | UFixed32 number value => WriteFixed32ToArray number value
  | UFixed64 number value => WriteFixed64ToArray number value
  | ULengthDelimited number data => WriteBytesToArray number data
  | UGroup number group =>
      WriteTagToArray number WIRETYPE_START_GROUP ++
      List.flat_map SerializeUnknownFieldToArray group ++
      WriteTagToArray number WIRETYPE_END_GROUP
  end.
Definition SerializeUnknownFieldsToArray (fields : UnknownFieldSet) : bytes :=
  List.flat_map SerializeUnknownFieldToArray fields.

(** [WireFormat::ComputeUnknownFieldsSize]. *)
Fixpoint ComputeUnknownFieldSize (field : UnknownField) : Z :=
  match field with
  | UVarint number value => VarintSize32 (MakeTag number WIRETYPE_VARINT) + VarintSize64 value
  | UFixed32 number value => VarintSize32 (MakeTag number WIRETYPE_FIXED32) + 4
  | UFixed64 number value => VarintSize32 (MakeTag number WIRETYPE_FIXED64) + 8
  | ULengthDelimited number data =>
      VarintSize32 (MakeTag number WIRETYPE_LENGTH_DELIMITED) + VarintSize32 (u32 (zlen data)) + zlen data
  | UGroup number group =>
      VarintSize32 (MakeTag number WIRETYPE_START_GROUP) +
      List.fold_right (fun f n => ComputeUnknownFieldSize f + n) 0 group +
      VarintSize32 (MakeTag number WIRETYPE_END_GROUP)
  end.
Definition ComputeUnknownFieldsSize (fields : UnknownFieldSet) : Z :=
  List.fold_right (fun f n => ComputeUnknownFieldSize f + n) 0 fields.

(** ** The message

    [method_] and [params_] are [None] while they point to the shared empty
    string [kEmptyString]. *)
Record jme_rpc : Set := mk_jme_rpc {
  _unknown_fields_ : list UnknownField;
  method_ : option (list Z);
  params_ : option (list Z);
  rpc_id_ : Z;
  _cached_size_ : Z;
  _has_bits_ : Z
}.

(** [SharedCtor], hence [jme_rpc()] and [New]. *)
Definition SharedCtor : jme_rpc := mk_jme_rpc [] None None 0 0 0.

Definition with_unknown_fields (u : UnknownFieldSet) (m : jme_rpc) : jme_rpc :=
  mk_jme_rpc u (method_ m) (params_ m) (rpc_id_ m) (_cached_size_ m) (_has_bits_ m).
Definition with_method (v : option (list Z)) (m : jme_rpc) : jme_rpc :=
  mk_jme_rpc (_unknown_fields_ m) v (params_ m) (rpc_id_ m) (_cached_size_ m) (_has_bits_ m).
Definition with_params (v : option (list Z)) (m : jme_rpc) : jme_rpc :=
  mk_jme_rpc (_unknown_fields_ m) (method_ m) v (rpc_id_ m) (_cached_size_ m) (_has_bits_ m).
Definition with_rpc_id (v : Z) (m : jme_rpc) : jme_rpc :=
  mk_jme_rpc (_unknown_fields_ m) (method_ m) (params_ m) v (_cached_size_ m) (_has_bits_ m).
Definition with_cached_size (v : Z) (m : jme_rpc) : jme_rpc :=
  mk_jme_rpc (_unknown_fields_ m) (method_ m) (params_ m) (rpc_id_ m) v (_has_bits_ m).
Definition with_has_bits (v : Z) (m : jme_rpc) : jme_rpc :=
  mk_jme_rpc (_unknown_fields_ m) (method_ m) (params_ m) (rpc_id_ m) (_cached_size_ m) v.

(** *** Accessors of [rpc_id] *)
Definition has_rpc_id (m : jme_rpc) : bool := negb (Z.land (_has_bits_ m) 0x00000001 =? 0).
Definition set_has_rpc_id (m : jme_rpc) : jme_rpc := with_has_bits (Z.lor (_has_bits_ m) 0x00000001) m.
Definition clear_has_rpc_id (m : jme_rpc) : jme_rpc :=
  with_has_bits (Z.land (_has_bits_ m) (u32 (Z.lnot 0x00000001))) m.
Definition clear_rpc_id (m : jme_rpc) : jme_rpc := clear_has_rpc_id (with_rpc_id 0 m).
Definition rpc_id (m : jme_rpc) : Z := rpc_id_ m.
Definition set_rpc_id (value : Z) (m : jme_rpc) : jme_rpc := with_rpc_id value (set_has_rpc_id m).

(** *** Accessors of [method] *)
Definition has_method (m : jme_rpc) : bool := negb (Z.land (_has_bits_ m) 0x00000002 =? 0).
Definition set_has_method (m : jme_rpc) : jme_rpc := with_has_bits (Z.lor (_has_bits_ m) 0x00000002) m.
Definition clear_has_method (m : jme_rpc) : jme_rpc :=
  with_has_bits (Z.land (_has_bits_ m) (u32 (Z.lnot 0x00000002))) m.
Definition clear_method (m : jme_rpc) : jme_rpc :=
  clear_has_method (match method_ m with Some _ => with_method (Some []) m | None => m end).
Definition method (m : jme_rpc) : bytes := default [] (method_ m).
Definition mutable_method (m : jme_rpc) : jme_rpc :=
  let m := set_has_method m in
  match method_ m with Some _ => m | None => with_method (Some []) m end.
Definition set_method (value : bytes) (m : jme_rpc) : jme_rpc := with_method (Some value) (mutable_method m).
Definition release_method (m : jme_rpc) : option (list Z) * jme_rpc :=
  let m := clear_has_method m in
  match method_ m with None => (None, m) | Some temp => (Some temp, with_method None m) end.
Definition set_allocated_method (v : option (list Z)) (m : jme_rpc) : jme_rpc :=
  match v with
  | Some _ => with_method v (set_has_method m)
  | None => with_method None (clear_has_method m)
  end.

(** *** Accessors of [params] *)
Definition has_params (m : jme_rpc) : bool := negb (Z.land (_has_bits_ m) 0x00000004 =? 0).
Definition set_has_params (m : jme_rpc) : jme_rpc := with_has_bits (Z.lor (_has_bits_ m) 0x00000004) m.
Definition clear_has_params (m : jme_rpc) : jme_rpc :=
  with_has_bits (Z.land (_has_bits_ m) (u32 (Z.lnot 0x00000004))) m.
Definition clear_params (m : jme_rpc) : jme_rpc :=
  clear_has_params (match params_ m with Some _ => with_params (Some []) m | None => m end).
Definition params (m : jme_rpc) : bytes := default [] (params_ m).
Definition mutable_params (m : jme_rpc) : jme_rpc :=
  let m := set_has_params m in
  match params_ m with Some _ => m | None => with_params (Some []) m end.
Definition set_params (value : bytes) (m : jme_rpc) : jme_rpc := with_params (Some value) (mutable_params m).
Definition release_params (m : jme_rpc) : option (list Z) * jme_rpc :=
  let m := clear_has_params m in
  match params_ m with None => (None, m) | Some temp => (Some temp, with_params None m) end.
Definition set_allocated_params (v : option (list Z)) (m : jme_rpc) : jme_rpc :=
  match v with
  | Some _ => with_params v (set_has_params m)
  | None => with_params None (clear_has_params m)
  end.

(** *** [Clear], [MergeFrom], [CopyFrom], [IsInitialized], [Swap] *)
Definition Clear (m : jme_rpc) : jme_rpc :=
  let m :=
    if negb (Z.land (_has_bits_ m) 0xff =? 0) then
      let m := with_rpc_id 0 m in
      let m := if has_method m then
                 match method_ m with Some _ => with_method (Some []) m | None => m end else m in
      if has_params m then
        match params_ m with Some _ => with_params (Some []) m | None => m end
      else m
    else m in
  with_unknown_fields [] (with_has_bits 0 m).

Definition MergeFrom (from m : jme_rpc) : jme_rpc :=
  let m :=
    if negb (Z.land (_has_bits_ from) 0xff =? 0) then
      let m := if has_rpc_id from then set_rpc_id (rpc_id from) m else m in
      let m := if has_method from then set_method (method from) m else m in
      if has_params from then set_params (params from) m else m
    else m in
  with_unknown_fields (_unknown_fields_ m ++ _unknown_fields_ from) m.

Definition CopyFrom (from m : jme_rpc) : jme_rpc := MergeFrom from (Clear m).

Definition IsInitialized (m : jme_rpc) : bool := Z.land (_has_bits_ m) 0x00000007 =? 0x00000007.

Definition Swap (m other : jme_rpc) : jme_rpc * jme_rpc :=
  let m' := mk_jme_rpc (_unknown_fields_ other) (method_ other) (params_ other) (rpc_id_ other)
              (_cached_size_ other) (_has_bits_ other) in
  let other' := mk_jme_rpc (_unknown_fields_ m) (method_ m) (params_ m) (rpc_id_ m)
                  (_cached_size_ m) (_has_bits_ m) in
  (m', other').

(** ** Parsing *)

(** [WireFormatLite::ReadPrimitive<int32, TYPE_INT32>]. *)
Definition ReadPrimitive_int32 (input : CodedInputStream) : option (Z * CodedInputStream) :=
  '(temp, input) ← ReadVarint32 input; Some (i32 temp, input).

(** [WireFormatLite::ReadString] and [ReadBytes]; [value] is the old string. *)
Definition WireReadString (value : bytes) (input : CodedInputStream) : bool * list Z * CodedInputStream :=
  match ReadVarint32 input with
  | Some (length, input) => InternalReadStringInline value length input
  | None => (false, value, input)
  end.
Definition WireReadBytes (value : bytes) (input : CodedInputStream) : bool * list Z * CodedInputStream :=
  match ReadVarint32 input with
  | Some (length, input) => InternalReadStringInline value length input
  | None => (false, value, input)
  end.

(** What one round of the parse loop does: [return false], [return true] or go
    on. *)
Inductive round : Set :=
| RFalse (m : jme_rpc) (input : CodedInputStream)
| RTrue (m : jme_rpc) (input : CodedInputStream)
| RNext (m : jme_rpc) (input : CodedInputStream).

(** The code from the label [parse_params] on. *)
Definition parse_params (m : jme_rpc) (input : CodedInputStream) : round :=
  let m := mutable_params m in
  let '(ok, v, input) := WireReadBytes (params m) input in
  let m := with_params (Some v) m in
  if negb ok then RFalse m input
  else
    let '(e, input) := ExpectAtEnd input in
    if e then RTrue m input else RNext m input.

(** The code from the label [parse_method] on. *)
Definition parse_method (m : jme_rpc) (input : CodedInputStream) : round :=
  let m := mutable_method m in
  let '(ok, v, input) := WireReadString (method m) input in
  let m := with_method (Some v) m in
  if negb ok then RFalse m input
  else
    let '(e, input) := ExpectTag 26 input in
    if e then parse_params m input else RNext m input.

Definition parse_rpc_id (m : jme_rpc) (input : CodedInputStream) : round :=
  match ReadPrimitive_int32 input with
  | None => RFalse m input
  | Some (v, input) =>
      let m := set_has_rpc_id (with_rpc_id v m) in
      let '(e, input) := ExpectTag 18 input in
      if e then parse_method m input else RNext m input
  end.

Definition handle_uninterpreted (tag : Z) (m : jme_rpc) (input : CodedInputStream) : round :=
  if GetTagWireType tag =? WIRETYPE_END_GROUP then RTrue m input
  else
    let '(ok, input, u) := SkipField tag input (_unknown_fields_ m) in
    let m := with_unknown_fields u m in
    if ok then RNext m input else RFalse m input.

(** The body of the [while] loop. *)
Definition parse_round (tag : Z) (m : jme_rpc) (input : CodedInputStream) : round :=
  let number := GetTagFieldNumber tag in
  let type := GetTagWireType tag in
  if number =? 1 then
    if type =? WIRETYPE_VARINT then parse_rpc_id m input else handle_uninterpreted tag m input
  else if number =? 2 then
    if type =? WIRETYPE_LENGTH_DELIMITED then parse_method m input else handle_uninterpreted tag m input
  else if number =? 3 then
    if type =? WIRETYPE_LENGTH_DELIMITED then parse_params m input else handle_uninterpreted tag m input
  else handle_uninterpreted tag m input.

(** [MergePartialFromCodedStream]; like [SkipMessage], at most one round per
    byte. *)
Fixpoint merge_loop (fuel : nat) (m : jme_rpc) (input : CodedInputStream) : bool * jme_rpc * CodedInputStream :=
  match fuel with
  | O => (false, m, input)
  | S fuel =>
      let '(tag, input) := ReadTag input in
      if tag =? 0 then (true, m, input)
      else
        match parse_round tag m input with
        | RFalse m input => (false, m, input)
        | RTrue m input => (true, m, input)
        | RNext m input => merge_loop fuel m input
        end
  end.
Definition MergePartialFromCodedStream (m : jme_rpc) (input : CodedInputStream) : bool * jme_rpc * CodedInputStream :=
  merge_loop (skip_fuel input) m input.

(** [MessageLite::ParseFromString] with [InlineParseFromArray],
    [InlineParseFromCodedStream] and [InlineMergeFromCodedStream]. *)
Definition ParseFromString (data : bytes) (m : jme_rpc) : bool * jme_rpc :=
  let input := CodedInputStream_new data in
  let '(ok, m, input) := MergePartialFromCodedStream (Clear m) input in
  (ok && IsInitialized m && ConsumedEntireMessage input, m).

(** ** Serializing *)
Definition SerializeWithCachedSizesToArray (m : jme_rpc) : bytes :=
  (if has_rpc_id m then WriteInt32ToArray 1 (rpc_id m) else []) ++
  (if has_method m then WriteStringToArray 2 (method m) else []) ++
  (if has_params m then WriteBytesToArray 3 (params m) else []) ++
  SerializeUnknownFieldsToArray (_unknown_fields_ m).

Definition Int32Size (value : Z) : Z := VarintSize32SignExtended value.
Definition StringSize (value : bytes) : Z := VarintSize32 (u32 (zlen value)) + zlen value.
Definition BytesSize (value : bytes) : Z := VarintSize32 (u32 (zlen value)) + zlen value.

(** [ByteSize], which also caches the size. *)
Definition ByteSize (m : jme_rpc) : Z * jme_rpc :=
  let total_size :=
    if negb (Z.land (_has_bits_ m) 0xff =? 0) then
      (if has_rpc_id m then 1 + Int32Size (rpc_id m) else 0) +
      (if has_method m then 1 + StringSize (method m) else 0) +
      (if has_params m then 1 + BytesSize (params m) else 0)
    else 0 in
  let total_size := total_size + ComputeUnknownFieldsSize (_unknown_fields_ m) in
  (total_size, with_cached_size total_size m).

(** [AppendPartialToString] on an empty string: [None] when the bytes written do
    not match the size announced, on which the library aborts the process. *)
Definition SerializeAsString (m : jme_rpc) : option (list Z) * jme_rpc :=
  let '(byte_size, m) := ByteSize m in
  let out := SerializeWithCachedSizesToArray m in
  (if zlen out =? byte_size then Some out else None, m).

(** *** Through a [CodedOutputStream]

    [room pos] is the space left in the current chunk of the output when [pos]
    bytes have been written, which decides between the fast and slow writers. *)
Section output_stream.
Variable room : Z -> Z.

Definition out_varint32 (value : Z) (out : bytes) : bytes := out ++ WriteVarint32 (room (zlen out)) value.
Definition out_varint64 (value : Z) (out : bytes) : bytes := out ++ WriteVarint64 (room (zlen out)) value.
Definition out_sign_extended (value : Z) (out : bytes) : bytes :=
  out ++ WriteVarint32SignExtended (room (zlen out)) value.
Definition out_raw (data out : bytes) : bytes := out ++ data.

(** [WireFormatLite::WriteTag], [WriteInt32], [WriteString], [WriteBytes]. *)
Definition out_tag (field_number type : Z) (out : bytes) : bytes := out_varint32 (MakeTag field_number type) out.
Definition WriteInt32 (field_number value : Z) (out : bytes) : bytes :=
  out_sign_extended value (out_tag field_number WIRETYPE_VARINT out).
Definition WriteString (field_number : Z) (value out : bytes) : bytes :=
  out_raw value (out_varint32 (u32 (zlen value)) (out_tag field_number WIRETYPE_LENGTH_DELIMITED out)).
Definition WriteBytes (field_number : Z) (value out : bytes) : bytes :=
  out_raw value (out_varint32 (u32 (zlen value)) (out_tag field_number WIRETYPE_LENGTH_DELIMITED out)).

(** [WireFormat::SerializeUnknownFields]. *)
Fixpoint SerializeUnknownField (out : bytes) (field : UnknownField) {struct field} : bytes :=
  match field with
  | UVarint number value => out_varint64 value (out_varint32 (MakeTag number WIRETYPE_VARINT) out)
  | UFixed32 number value =>
      out_raw (WriteLittleEndian32ToArray value) (out_varint32 (MakeTag number WIRETYPE_FIXED32) out)
  | UFixed64 number value =>
      out_raw (WriteLittleEndian64ToArray value) (out_varint32 (MakeTag number WIRETYPE_FIXED64) out)
  | ULengthDelimited number data =>
      out_raw data (out_varint32 (u32 (zlen data)) (out_varint32 (MakeTag number WIRETYPE_LENGTH_DELIMITED) out))
  | UGroup number group =>
      let out := out_varint32 (MakeTag number WIRETYPE_START_GROUP) out in
      let out := List.fold_left SerializeUnknownField group out in
      out_varint32 (MakeTag number WIRETYPE_END_GROUP) out
  end.
Definition SerializeUnknownFields (fields : UnknownFieldSet) (out : bytes) : bytes :=
  List.fold_left SerializeUnknownField fields out.

Definition SerializeWithCachedSizes (m : jme_rpc) (out : bytes) : bytes :=
  let out := if has_rpc_id m then WriteInt32 1 (rpc_id m) out else out in
  let out := if has_method m then WriteString 2 (method m) out else out in
  let out := if has_params m then WriteBytes 3 (params m) out else out in
  SerializeUnknownFields (_unknown_fields_ m) out.
End output_stream.

(** ** Well-formed messages *)

(** Field numbers are 29-bit and not 0, values fit their type, data are bytes. *)
Definition number_ok (n : Z) : Prop := 0 < n < 2 ^ 29.
Inductive unknown_ok : UnknownField -> Prop :=
| UVarint_ok n v : number_ok n -> in_u 64 v -> unknown_ok (UVarint n v)
| UFixed32_ok n v : number_ok n -> in_u 32 v -> unknown_ok (UFixed32 n v)
| UFixed64_ok n v : number_ok n -> in_u 64 v -> unknown_ok (UFixed64 n v)
| ULengthDelimited_ok n d : number_ok n -> bytes_ok d -> zlen d < 2 ^ 31 -> unknown_ok (ULengthDelimited n d)
| UGroup_ok n g : number_ok n -> Forall unknown_ok g -> unknown_ok (UGroup n g).

(** Nesting of groups. *)
Fixpoint nesting (f : UnknownField) : nat :=
  match f with
  | UGroup _ g => S (List.fold_right (fun f n => Nat.max (nesting f) n) 0%nat g)
  | _ => 0%nat
  end.

Definition field_number (f : UnknownField) : Z :=
  match f with UVarint n _ | UFixed32 n _ | UFixed64 n _ | ULengthDelimited n _ | UGroup n _ => n end.
Definition field_type (f : UnknownField) : Z :=
  match f with
  | UVarint _ _ => WIRETYPE_VARINT
  | UFixed32 _ _ => WIRETYPE_FIXED32
  | UFixed64 _ _ => WIRETYPE_FIXED64
  | ULengthDelimited _ _ => WIRETYPE_LENGTH_DELIMITED
  | UGroup _ _ => WIRETYPE_START_GROUP
  end.

(** The fields the class does know. *)
Definition is_known (f : UnknownField) : bool :=
  ((field_number f =? 1) && (field_type f =? WIRETYPE_VARINT)) ||
  ((field_number f =? 2) && (field_type f =? WIRETYPE_LENGTH_DELIMITED)) ||
  ((field_number f =? 3) && (field_type f =? WIRETYPE_LENGTH_DELIMITED)).

(** The type invariant: only the three bits are used, and a field whose bit is
    not set has its default value. *)
Definition bits_ok (m : jme_rpc) : Prop :=
  in_u 3 (_has_bits_ m) /\
  (has_rpc_id m = false -> rpc_id m = 0) /\
  (has_method m = false -> method m = []) /\
  (has_params m = false -> params m = []).

(** Contents that can be sent. *)
Definition content_ok (m : jme_rpc) : Prop :=
  in_s 32 (rpc_id m) /\ bytes_ok (method m) /\ bytes_ok (params m) /\
  zlen (method m) < 2 ^ 31 /\ zlen (params m) < 2 ^ 31 /\
  Forall (fun f => unknown_ok f /\ (nesting f <= 100)%nat /\ is_known f = false) (_unknown_fields_ m).

(** * Lemmas *)

(** ** Induction over nested groups *)
Lemma UnknownField_nested_ind (P : UnknownField -> Prop) :
  (forall n v, P (UVarint n v)) -> (forall n v, P (UFixed32 n v)) -> (forall n v, P (UFixed64 n v)) ->
  (forall n d, P (ULengthDelimited n d)) -> (forall n g, Forall P g -> P (UGroup n g)) -> forall f, P f.
Proof.
  intros H1 H2 H3 H4 H5. fix IH 1. intros [n v|n v|n v|n d|n g]; [apply H1|apply H2|apply H3|apply H4|].
  apply H5. induction g as [|f g IHg]; constructor; [apply IH|apply IHg].
Qed.

(** ** Tags *)
Lemma MakeTag_value n t : number_ok n -> 0 <= t < 8 -> MakeTag n t = n * 8 + t.
Proof.
  unfold number_ok, MakeTag. intros Hn Ht. rewrite lor_shiftl_add by (unfold in_u; lia).
  apply uwrap_id. unfold in_u. lia.
Qed.

Lemma MakeTag_range n t : number_ok n -> 0 <= t < 8 -> in_u 32 (MakeTag n t) /\ MakeTag n t <> 0.
Proof. intros Hn Ht. rewrite MakeTag_value by done. unfold number_ok, in_u in *. lia. Qed.

Lemma MakeTag_parts n t :
  number_ok n -> 0 <= t < 8 -> GetTagFieldNumber (MakeTag n t) = n /\ GetTagWireType (MakeTag n t) = t.
Proof.
  intros Hn Ht. rewrite MakeTag_value by done. unfold GetTagFieldNumber, GetTagWireType, number_ok in *.
  change 7 with (Z.ones 3). rewrite Z.land_ones, Z.shiftr_div_pow2 by lia. Z.div_mod_to_equations. lia.
Qed.

Lemma in_u_32_64 v : in_u 32 v -> in_u 64 v.
Proof. apply in_u_mono. lia. Qed.

Lemma WriteTagToArray_spec n t : number_ok n -> 0 <= t < 8 -> WriteTagToArray n t = varint_encode 9 (MakeTag n t).
Proof. intros. apply CodedWriteTagToArray_spec. by apply MakeTag_range. Qed.

Lemma field_type_range f : 0 <= field_type f < 8 /\ field_type f <> WIRETYPE_END_GROUP.
Proof. destruct f; vm_compute; split_and!; done. Qed.

Lemma unknown_ok_number f : unknown_ok f -> number_ok (field_number f).
Proof. by inversion 1. Qed.

(** ** A field on the wire is its tag and its payload *)
Definition field_tag (f : UnknownField) : Z := MakeTag (field_number f) (field_type f).

Definition payload (f : UnknownField) : bytes :=
  match f with
  | UVarint _ v => varint_encode 9 v
  | UFixed32 _ v => le_encode 4 v
  | UFixed64 _ v => le_encode 8 v
  | ULengthDelimited _ d => varint_encode 9 (zlen d) ++ d
  | UGroup n g => SerializeUnknownFieldsToArray g ++ varint_encode 9 (MakeTag n WIRETYPE_END_GROUP)
  end.

Lemma zlen_in_u (d : bytes) : zlen d < 2 ^ 31 -> in_u 32 (zlen d).
Proof. pose proof (zlen_nonneg d). unfold in_u. lia. Qed.

Lemma field_wire f : unknown_ok f -> SerializeUnknownFieldToArray f = varint_encode 9 (field_tag f) ++ payload f.
Proof.
  intros Hf. pose proof (unknown_ok_number f Hf) as Hn. unfold field_tag.
  rewrite <- WriteTagToArray_spec by (done || apply field_type_range).
  destruct Hf; cbn [SerializeUnknownFieldToArray payload field_number field_type] in *.
  - unfold WriteInt64ToArray. by rewrite uwrap_id, WriteVarint64_spec.
  - done.
  - done.
  - unfold WriteBytesToArray. rewrite uwrap_id by by apply zlen_in_u.
    by rewrite WriteVarint32ToArray_spec by by apply zlen_in_u.
  - by rewrite (WriteTagToArray_spec n WIRETYPE_END_GROUP).
Qed.

Lemma fields_wire_cons f fs :
  SerializeUnknownFieldsToArray (f :: fs) = SerializeUnknownFieldToArray f ++ SerializeUnknownFieldsToArray fs.
Proof. done. Qed.

Lemma tag_bytes_ok n t : number_ok n -> 0 <= t < 8 -> bytes_ok (varint_encode 9 (MakeTag n t)).
Proof. intros. apply varint64_ok, in_u_32_64. by apply MakeTag_range. Qed.

Lemma fields_bytes_ok_of g :
  Forall (fun f => unknown_ok f -> bytes_ok (SerializeUnknownFieldToArray f)) g -> Forall unknown_ok g ->
  bytes_ok (SerializeUnknownFieldsToArray g).
Proof.
  induction 1 as [|f g Hf _ IH]; [done|]. intros [Hok Hg]%Forall_cons.
  rewrite fields_wire_cons. apply Forall_app. auto.
Qed.

Lemma field_bytes_ok f : unknown_ok f -> bytes_ok (SerializeUnknownFieldToArray f).
Proof.
  induction f as [n v|n v|n v|n d|n g IH] using UnknownField_nested_ind; intros Hf;
    rewrite field_wire by done; pose proof (unknown_ok_number _ Hf) as Hn; apply Forall_app;
    (split; [apply tag_bytes_ok; [done|apply field_type_range]|]); inversion Hf; subst; cbn [payload].
  - by apply varint64_ok.
  - apply le_encode_ok.
  - apply le_encode_ok.
  - apply Forall_app. split; [|done]. by apply varint64_ok, in_u_32_64, zlen_in_u.
  - apply Forall_app. split; [by apply fields_bytes_ok_of|]. by apply tag_bytes_ok.
Qed.

Lemma fields_bytes_ok g : Forall unknown_ok g -> bytes_ok (SerializeUnknownFieldsToArray g).
Proof. apply fields_bytes_ok_of, Forall_true. apply field_bytes_ok. Qed.

Lemma payload_ok f : unknown_ok f -> bytes_ok (payload f).
Proof. intros Hf. pose proof (field_bytes_ok f Hf) as H. rewrite field_wire in H by done. apply Forall_app in H. tauto. Qed.

(** ** Skipping terminates *)

(** [shrinks s s']: [s'] is a later position of the same input. *)
Definition shrinks (s s' : CodedInputStream) : Prop := buffer_ s' `suffix_of` buffer_ s.

Lemma shrinks_ok s s' : shrinks s s' -> bytes_ok (buffer_ s) -> bytes_ok (buffer_ s').
Proof. intros [k ->]. rewrite Forall_app. tauto. Qed.

Lemma shrinks_refl s : shrinks s s.
Proof. by unfold shrinks. Qed.

Lemma shrinks_trans s1 s2 s3 : shrinks s1 s2 -> shrinks s2 s3 -> shrinks s1 s3.
Proof. unfold shrinks. intros. by etransitivity. Qed.

Lemma shrinks_length s s' : shrinks s s' -> (length (buffer_ s') <= length (buffer_ s))%nat.
Proof. apply suffix_length. Qed.

Lemma shrinks_drop n s : shrinks s (set_buffer (drop n (buffer_ s)) s).
Proof. unfold shrinks. cbn. exists (take n (buffer_ s)). by rewrite take_drop. Qed.

Lemma ReadTag_shrinks s :
  bytes_ok (buffer_ s) ->
  shrinks s (ReadTag s).2 /\ ((ReadTag s).1 <> 0 -> (length (buffer_ (ReadTag s).2) < length (buffer_ s))%nat).
Proof.
  intros Hb. destruct (varint_decode 10 (buffer_ s)) as [[v rest]|] eqn:E.
  - rewrite (ReadTag_some s v rest) by done. unfold shrinks. cbn. apply varint_decode_suffix in E. tauto.
  - destruct (ReadTag_none s Hb E) as (s' & -> & Es). unfold shrinks. cbn. by rewrite Es.
Qed.

Lemma ReadVarint_shrinks s :
  bytes_ok (buffer_ s) ->
  (forall v s', ReadVarint64 s = Some (v, s') -> shrinks s s') /\
  (forall v s', ReadVarint32 s = Some (v, s') -> shrinks s s').
Proof.
  intros Hb. rewrite ReadVarint64_spec, ReadVarint32_spec by done. unfold read_spec.
  destruct (varint_decode 10 (buffer_ s)) as [[v rest]|] eqn:E; [|done]. cbn.
  apply varint_decode_suffix in E as [E _]. split; by intros ? ? [= _ <-].
Qed.

Lemma InternalReadStringInline_shrinks old n s : shrinks s (InternalReadStringInline old n s).2.
Proof.
  unfold InternalReadStringInline, ReadStringFallback. repeat case_match; [apply shrinks_refl|apply shrinks_drop..].
Qed.

Lemma ReadString_shrinks old n s : shrinks s (ReadString old n s).2.
Proof. unfold ReadString. case_match; [apply shrinks_refl|]. apply InternalReadStringInline_shrinks. Qed.

Lemma SkipField_shrinks (sm : CodedInputStream -> UnknownFieldSet -> bool * CodedInputStream * UnknownFieldSet) tag s uf :
  bytes_ok (buffer_ s) ->
  (forall s' u, bytes_ok (buffer_ s') -> shrinks s' (sm s' u).1.2) ->
  shrinks s (SkipField_with sm tag s uf).1.2.
Proof.
  intros Hb Hsm. destruct (ReadVarint_shrinks s Hb) as [H64 H32].
  unfold SkipField_with, ReadLittleEndian64, ReadLittleEndian32, IncrementRecursionDepth.
  set (s1 := set_recursion_depth _ s). specialize (Hsm s1 [] Hb).
  assert (H1 : shrinks s s1) by by unfold shrinks.
  repeat case_match; cbn; simplify_eq/=; eauto using shrinks_drop, shrinks_refl.
  - match goal with E : ReadString ?o ?l ?i = _ |- _ => pose proof (ReadString_shrinks o l i) as HR; rewrite E in HR end.
    cbn in HR. eapply shrinks_trans; [|exact HR]. eauto.
  - unfold DecrementRecursionDepth. case_match; exact Hsm.
Qed.

Lemma SkipMessage_shrinks n s uf : bytes_ok (buffer_ s) -> shrinks s (SkipMessage n s uf).1.2.
Proof.
  revert s uf. induction n as [|n IH]; intros s uf Hb; [apply shrinks_refl|]. cbn [SkipMessage].
  destruct (ReadTag_shrinks s Hb) as [HT _]. destruct (ReadTag s) as [tag s1]. cbn in HT.
  do 2 (case_match; [done|]). pose proof (shrinks_ok _ _ HT Hb) as Hb1.
  pose proof (SkipField_shrinks (SkipMessage n) tag s1 uf Hb1 IH) as HF.
  destruct (SkipField_with _ tag s1 uf) as [[ok s2] u2]. cbn in HF.
  pose proof (shrinks_trans _ _ _ HT HF) as H2. case_match; [|done].
  eapply shrinks_trans; [exact H2|]. apply IH. by eapply shrinks_ok.
Qed.

(** With more fuel than bytes the result does not depend on the fuel. *)
Lemma SkipField_with_ext sm sm' tag s uf :
  (forall u, sm (set_recursion_depth (recursion_depth_ s + 1) s) u =
             sm' (set_recursion_depth (recursion_depth_ s + 1) s) u) ->
  SkipField_with sm tag s uf = SkipField_with sm' tag s uf.
Proof. intros H. unfold SkipField_with, IncrementRecursionDepth. by rewrite H. Qed.

Lemma SkipMessage_fuel n m s uf :
  bytes_ok (buffer_ s) -> (length (buffer_ s) < n)%nat -> (length (buffer_ s) < m)%nat ->
  SkipMessage n s uf = SkipMessage m s uf.
Proof.
  revert m s uf. induction n as [|n IH]; intros [|m] s uf Hb Hn Hm; try lia. cbn [SkipMessage].
  destruct (ReadTag_shrinks s Hb) as [HT Hlt]. destruct (ReadTag s) as [tag s1]. cbn in HT, Hlt.
  destruct (Z.eqb_spec tag 0) as [->|Ht]; [done|]. specialize (Hlt Ht). case_match; [done|].
  pose proof (shrinks_ok _ _ HT Hb) as Hb1.
  rewrite (SkipField_with_ext (SkipMessage n) (SkipMessage m))
    by (intros u; apply IH; cbn; (done || lia)).
  pose proof (SkipField_shrinks (SkipMessage m) tag s1 uf Hb1 (SkipMessage_shrinks m)) as HF.
  destruct (SkipField_with _ tag s1 uf) as [[ok s2] u2]. cbn in HF.
  pose proof (shrinks_length _ _ HF). case_match; [|done]. apply IH; [by eapply shrinks_ok|lia..].
Qed.

(** ** Skipping a serialized field gives it back *)
Fixpoint need (f : UnknownField) : nat :=
  match f with
  | UGroup _ g => S (length g + List.fold_right (fun f n => Nat.max (need f) n) 0%nat g)
  | _ => 0%nat
  end.
Definition needs (g : UnknownFieldSet) : nat := List.fold_right (fun f n => Nat.max (need f) n) 0%nat g.
Definition nestings (g : UnknownFieldSet) : nat := List.fold_right (fun f n => Nat.max (nesting f) n) 0%nat g.

Definition skips (f : UnknownField) : Prop :=
  forall n s uf rest, (need f <= n)%nat -> 0 <= recursion_depth_ s ->
  recursion_depth_ s + Z.of_nat (nesting f) <= 100 -> bytes_ok rest -> buffer_ s = payload f ++ rest ->
  exists t, SkipField_with (SkipMessage n) (field_tag f) s uf =
    (true, set_buffer rest (set_last_tag t s), uf ++ [f]).

Lemma ReadTag_write tag rest s :
  in_u 32 tag -> bytes_ok rest -> buffer_ s = varint_encode 9 tag ++ rest ->
  ReadTag s = (tag, set_last_tag tag (set_buffer rest s)).
Proof.
  intros Ht Hr E. rewrite (ReadTag_some s tag rest).
  - by rewrite uwrap_id.
  - rewrite E. apply Forall_app. split; [by apply varint64_ok, in_u_32_64|done].
  - rewrite E. by apply decode_encode, in_u_32_64.
Qed.

Lemma field_tag_parts f :
  unknown_ok f -> GetTagFieldNumber (field_tag f) = field_number f /\ GetTagWireType (field_tag f) = field_type f /\
  in_u 32 (field_tag f) /\ field_tag f <> 0.
Proof.
  intros Hf%unknown_ok_number. destruct (field_type_range f) as [Ht _].
  destruct (MakeTag_parts _ _ Hf Ht). destruct (MakeTag_range _ _ Hf Ht). done.
Qed.

(** Reading back a string whose length is known. *)
Lemma ReadString_exact old d rest s :
  zlen d < 2 ^ 31 -> buffer_ s = d ++ rest ->
  InternalReadStringInline old (zlen d) s = (true, d, set_buffer rest s) /\
  ReadString old (zlen d) s = (true, d, set_buffer rest s).
Proof.
  intros Hd E. pose proof (zlen_nonneg d). pose proof (zlen_nonneg rest).
  assert (HI : InternalReadStringInline old (zlen d) s = (true, d, set_buffer rest s)).
  { unfold InternalReadStringInline, BufferSize, Advance.
    rewrite swrap_id by (lia || (unfold in_s; lia)). rewrite E, zlen_app.
    rewrite (proj2 (Z.ltb_ge _ _)), (proj2 (Z.leb_le _ _)) by lia.
    rewrite take_app_length', drop_app_length' by (unfold zlen; lia). done. }
  split; [done|]. unfold ReadString. rewrite swrap_id by (lia || (unfold in_s; lia)).
  by rewrite (proj2 (Z.ltb_ge _ _)) by lia.
Qed.

Lemma le_read n v rest : in_u (8 * Z.of_nat n) v -> le_decode (take n (le_encode n v ++ rest)) = v /\
  drop n (le_encode n v ++ rest) = rest /\ Z.of_nat n <= zlen (le_encode n v ++ rest).
Proof.
  intros Hv. rewrite take_app_length', drop_app_length' by by rewrite le_encode_length.
  rewrite le_decode_encode, uwrap_id by done. split_and!; [done..|].
  pose proof (le_encode_length n v). pose proof (zlen_nonneg rest). rewrite zlen_app. unfold zlen at 1. lia.
Qed.

(** A list of fields, one round of [SkipMessage] each. *)
Lemma skip_fields g :
  Forall skips g -> Forall unknown_ok g ->
  forall n s uf rest, (needs g <= n)%nat -> 0 <= recursion_depth_ s ->
  recursion_depth_ s + Z.of_nat (nestings g) <= 100 -> bytes_ok rest ->
  buffer_ s = SerializeUnknownFieldsToArray g ++ rest ->
  exists t, SkipMessage (length g + n) s uf = SkipMessage n (set_buffer rest (set_last_tag t s)) (uf ++ g).
Proof.
  intros Hs. induction Hs as [|f g Hf Hg IH]; intros Hok n s uf rest Hn Hd Hnest Hr E.
  - exists (last_tag_ s). cbn in E. rewrite app_nil_r. destruct s; cbn in *. by rewrite E.
  - apply Forall_cons in Hok as [Hokf Hokg]. cbn [needs nestings List.fold_right] in *.
    fold (needs g) (nestings g) in *.
    rewrite fields_wire_cons, field_wire, <- !app_assoc in E by done.
    destruct (field_tag_parts f Hokf) as (_ & Htype & Hrange & Hnz).
    pose proof (payload_ok f Hokf) as Hpok. pose proof (fields_bytes_ok g Hokg) as Hgok.
    cbn [length Nat.add SkipMessage].
    rewrite (ReadTag_write (field_tag f) (payload f ++ SerializeUnknownFieldsToArray g ++ rest))
      by (done || (rewrite !Forall_app; done)).
    rewrite (proj2 (Z.eqb_neq _ _) Hnz), Htype.
    rewrite (proj2 (Z.eqb_neq _ _) (proj2 (field_type_range f))).
    set (s1 := set_last_tag _ _).
    destruct (Hf (length g + n)%nat s1 uf (SerializeUnknownFieldsToArray g ++ rest)) as [t ->];
      [lia|done|cbn; lia|by rewrite Forall_app|done|].
    destruct (IH Hokg n (set_buffer (SerializeUnknownFieldsToArray g ++ rest) (set_last_tag t s1))
      (uf ++ [f]) rest) as [t' ->]; [lia|done|cbn; lia|done|done|].
    exists t'. unfold s1. by rewrite <- app_assoc.
Qed.

Lemma skips_all f : unknown_ok f -> skips f.
Proof.
  induction f as [num v|num v|num v|num d|num g IH] using UnknownField_nested_ind; intros Hf;
    destruct (field_tag_parts _ Hf) as (Hnum & Htype & _ & _); cbn [field_number field_type] in Hnum, Htype;
    intros n s uf rest Hneed Hd Hnest Hr E; unfold SkipField_with; rewrite Hnum, Htype; cbn [Z.eqb Pos.eqb];
    inversion Hf; subst; cbn [payload] in E.
  - exists (last_tag_ s). cbn. rewrite (ReadVarint64_write v rest) by done. by destruct s.
  - exists (last_tag_ s). cbn. unfold ReadLittleEndian32, BufferSize, Advance. rewrite E.
    change (Z.to_nat 4) with 4%nat.
    destruct (le_read 4 v rest) as (-> & -> & Hl); [done|]. rewrite (proj2 (Z.leb_le _ _)) by done. by destruct s.
  - exists (last_tag_ s). cbn. unfold ReadLittleEndian64, BufferSize, Advance. rewrite E.
    change (Z.to_nat 8) with 8%nat.
    destruct (le_read 8 v rest) as (-> & -> & Hl); [done|]. rewrite (proj2 (Z.leb_le _ _)) by done. by destruct s.
  - exists (last_tag_ s). cbn. rewrite <- app_assoc in E.
    rewrite (ReadVarint32_write (zlen d) (d ++ rest))
      by (done || (rewrite Forall_app; done) || by apply in_u_32_64, zlen_in_u).
    rewrite uwrap_id by by apply zlen_in_u.
    destruct (ReadString_exact [] d rest (set_buffer (d ++ rest) s)) as [_ ->]; [done..|]. by destruct s.
  - cbn. unfold IncrementRecursionDepth. cbn [nesting] in Hnest. fold (nestings g) in Hnest.
    rewrite (proj2 (Z.leb_le _ _)) by (unfold default_recursion_limit; lia). cbn [negb].
    cbn [need] in Hneed. fold (needs g) in Hneed.
    assert (exists k, n = (length g + S k)%nat /\ (needs g <= S k)%nat) as (k & -> & Hk)
      by (exists (n - length g - 1)%nat; lia).
    rewrite <- app_assoc in E. set (e := varint_encode 9 _) in *.
    assert (Hnumok : number_ok num) by by inversion Hf.
    destruct (MakeTag_range num WIRETYPE_END_GROUP) as [Her Hen]; [done|done|].
    assert (Heok : bytes_ok (e ++ rest)) by (apply Forall_app; split; [by apply tag_bytes_ok|done]).
    destruct (skip_fields g) with (n := S k) (uf := @nil UnknownField) (rest := e ++ rest)
      (s := set_recursion_depth (recursion_depth_ s + 1) s) as [t Ht];
      [by rewrite Forall_forall in *; auto|done|done|cbn; lia|cbn; lia|done|done|].
    rewrite Ht. cbn [SkipMessage]. rewrite (ReadTag_write (MakeTag num WIRETYPE_END_GROUP) rest) by done.
    rewrite (proj2 (Z.eqb_neq _ _) Hen). destruct (MakeTag_parts num WIRETYPE_END_GROUP) as [_ ->]; [done|done|].
    exists (MakeTag num WIRETYPE_END_GROUP). cbn [Z.eqb Pos.eqb negb]. unfold LastTagWas, DecrementRecursionDepth.
    cbn. rewrite (proj2 (Z.ltb_lt _ _)) by lia. cbn. rewrite Z.eqb_refl. rewrite Z.add_simpl_r. by destruct s.
Qed.

(** ** Sizes announced are sizes written *)
Lemma tag_size n t : number_ok n -> 0 <= t < 8 -> VarintSize32 (MakeTag n t) = zlen (WriteTagToArray n t).
Proof. intros Hn Ht. rewrite WriteTagToArray_spec by done. by apply VarintSize32_spec, MakeTag_range. Qed.

Lemma length_size (d : bytes) : zlen d < 2 ^ 31 ->
  VarintSize32 (u32 (zlen d)) = zlen (WriteVarint32ToArray (u32 (zlen d))).
Proof. intros Hd. rewrite WriteVarint32ToArray_spec by (apply uwrap_range; lia). apply VarintSize32_spec, uwrap_range. lia. Qed.

Lemma field_size f : unknown_ok f -> ComputeUnknownFieldSize f = zlen (SerializeUnknownFieldToArray f).
Proof.
  induction f as [n v|n v|n v|n d|n g IH] using UnknownField_nested_ind; intros Hf; inversion Hf; subst;
    cbn [ComputeUnknownFieldSize SerializeUnknownFieldToArray];
    unfold WriteInt64ToArray, WriteFixed32ToArray, WriteFixed64ToArray, WriteBytesToArray,
      WriteLittleEndian32ToArray, WriteLittleEndian64ToArray;
    rewrite !zlen_app, ?tag_size, ?le_encode_zlen, ?length_size by done; try lia.
  - rewrite uwrap_id, WriteVarint64_spec, VarintSize64_spec by done. done.
  - rewrite Z.add_assoc. do 2 f_equal. clear Hf. induction IH as [|f g Hf IHg IH]; [done|].
    match goal with H : Forall unknown_ok (_ :: _) |- _ => apply Forall_cons in H as [Hokf Hokg] end.
    cbn [List.fold_right List.flat_map]. rewrite zlen_app, Hf, IH by done. done.
Qed.

Lemma fields_size g : Forall unknown_ok g -> ComputeUnknownFieldsSize g = zlen (SerializeUnknownFieldsToArray g).
Proof.
  induction 1 as [|f g Hf Hg IH]; [done|]. rewrite fields_wire_cons, zlen_app.
  cbn [ComputeUnknownFieldsSize List.fold_right]. fold (ComputeUnknownFieldsSize g).
  by rewrite field_size, IH.
Qed.

Lemma content_unknown_ok m : content_ok m -> Forall unknown_ok (_unknown_fields_ m).
Proof. intros (_ & _ & _ & _ & _ & H). eapply Forall_impl; [exact H|]. cbn. tauto. Qed.

Lemma low_bits b : in_u 3 b -> Z.land b 0xff = b.
Proof. unfold in_u. intros. rewrite land_ff. apply uwrap_id. unfold in_u. lia. Qed.

Lemma no_bits m : _has_bits_ m = 0 -> has_rpc_id m = false /\ has_method m = false /\ has_params m = false.
Proof. unfold has_rpc_id, has_method, has_params. by intros ->. Qed.

Lemma ByteSize_spec m :
  in_u 3 (_has_bits_ m) -> content_ok m -> (ByteSize m).1 = zlen (SerializeWithCachedSizesToArray m).
Proof.
  intros Hbits Hc. pose proof (content_unknown_ok m Hc) as Hu.
  destruct Hc as (Hid & Hm & Hp & Hml & Hpl & _). unfold ByteSize, SerializeWithCachedSizesToArray.
  rewrite low_bits by done. cbn [fst]. rewrite !zlen_app, fields_size by done.
  assert (Hid' : 1 + Int32Size (rpc_id m) = zlen (WriteInt32ToArray 1 (rpc_id m))).
  { unfold Int32Size, WriteInt32ToArray. rewrite zlen_app, VarintSize32SignExtended_spec by done.
    by rewrite (proj2 (WriteVarint32SignExtended_spec 0 _ Hid)). }
  assert (Hm' : 1 + StringSize (method m) = zlen (WriteStringToArray 2 (method m))).
  { unfold StringSize, WriteStringToArray. rewrite !zlen_app, length_size by done.
    change (zlen (WriteTagToArray 2 WIRETYPE_LENGTH_DELIMITED)) with 1. lia. }
  assert (Hp' : 1 + BytesSize (params m) = zlen (WriteBytesToArray 3 (params m))).
  { unfold BytesSize, WriteBytesToArray. rewrite !zlen_app, length_size by done.
    change (zlen (WriteTagToArray 3 WIRETYPE_LENGTH_DELIMITED)) with 1. lia. }
  destruct (Z.eqb_spec (_has_bits_ m) 0) as [E|E]; cbn [negb].
  - destruct (no_bits m E) as (-> & -> & ->). change (zlen (@nil Z)) with 0. lia.
  - destruct (has_rpc_id m), (has_method m), (has_params m); change (zlen (@nil Z)) with 0; lia.
Qed.

(** ** The stream writer produces the same bytes *)
Lemma out_varint32_spec room v out : in_u 32 v -> out_varint32 room v out = out ++ varint_encode 9 v.
Proof. intros. unfold out_varint32. by rewrite WriteVarint32_spec. Qed.

Lemma SerializeUnknownField_spec room f out :
  unknown_ok f -> SerializeUnknownField room out f = out ++ SerializeUnknownFieldToArray f.
Proof.
  revert out. induction f as [n v|n v|n v|n d|n g IH] using UnknownField_nested_ind; intros out Hf;
    rewrite field_wire by done; inversion Hf; subst; cbn [SerializeUnknownField payload];
    unfold field_tag; cbn [field_number field_type]; unfold out_raw, out_varint64;
    rewrite ?(out_varint32_spec room (MakeTag _ _)) by by apply MakeTag_range.
  - by rewrite WriteVarint64_both, <- app_assoc.
  - by rewrite <- app_assoc.
  - by rewrite <- app_assoc.
  - rewrite uwrap_id, out_varint32_spec by by apply zlen_in_u. by rewrite <- !app_assoc.
  - rewrite !app_assoc. f_equal. generalize (out ++ varint_encode 9 (MakeTag n WIRETYPE_START_GROUP)).
    clear Hf. induction IH as [|f g Hf IHg IH]; intros out'; [by rewrite app_nil_r|].
    match goal with H : Forall unknown_ok (_ :: _) |- _ => apply Forall_cons in H as [Hokf Hokg] end.
    cbn [List.fold_left]. rewrite Hf, IH by done. by rewrite fields_wire_cons, <- app_assoc.
Qed.

Lemma SerializeWithCachedSizes_spec room m out :
  content_ok m -> SerializeWithCachedSizes room m out = out ++ SerializeWithCachedSizesToArray m.
Proof.
  intros Hc. pose proof (content_unknown_ok m Hc) as Hu. destruct Hc as (Hid & _ & _ & Hml & Hpl & _).
  unfold SerializeWithCachedSizes, SerializeWithCachedSizesToArray.
  assert (Hs : forall n v o, number_ok n -> zlen v < 2 ^ 31 -> WriteBytes room n v o = o ++ WriteBytesToArray n v).
  { intros n v o Hn Hv. unfold WriteBytes, WriteBytesToArray, out_raw, out_tag.
    rewrite !out_varint32_spec, WriteTagToArray_spec, WriteVarint32ToArray_spec
      by (done || (by apply MakeTag_range) || (apply uwrap_range; lia)). by rewrite <- !app_assoc. }
  assert (Hi : forall o, WriteInt32 room 1 (rpc_id m) o = o ++ WriteInt32ToArray 1 (rpc_id m)).
  { intros o. unfold WriteInt32, WriteInt32ToArray, out_sign_extended, out_tag.
    rewrite out_varint32_spec by by apply MakeTag_range.
    destruct (WriteVarint32SignExtended_spec (room (zlen (o ++ varint_encode 9 (MakeTag 1 WIRETYPE_VARINT)))) _ Hid) as [-> ->].
    rewrite WriteTagToArray_spec by done. by rewrite <- app_assoc. }
  assert (Hu' : forall o, SerializeUnknownFields room (_unknown_fields_ m) o =
    o ++ SerializeUnknownFieldsToArray (_unknown_fields_ m)).
  { clear -Hu. induction Hu as [|f g Hf Hg IH]; intros o; [by rewrite app_nil_r|].
    rewrite fields_wire_cons. unfold SerializeUnknownFields in *. cbn [List.fold_left].
    by rewrite IH, SerializeUnknownField_spec, <- app_assoc. }
  rewrite Hu'. rewrite !app_assoc. f_equal.
  change (WriteString room 2 (method m)) with (WriteBytes room 2 (method m)).
  change (WriteStringToArray 2 (method m)) with (WriteBytesToArray 2 (method m)).
  destruct (has_rpc_id m), (has_method m), (has_params m); rewrite ?Hs, ?Hi by done;
    rewrite ?app_nil_r, <- ?app_assoc; done.
Qed.

(** ** Parsing terminates *)
Lemma parse_params_shrinks m s m' s' :
  bytes_ok (buffer_ s) -> parse_params m s = RNext m' s' -> shrinks s s'.
Proof.
  intros Hb. unfold parse_params, WireReadBytes, ExpectAtEnd. destruct (ReadVarint_shrinks s Hb) as [_ H32].
  destruct (ReadVarint32 s) as [[l s1]|]; [|done]. specialize (H32 _ _ eq_refl).
  pose proof (InternalReadStringInline_shrinks (params (mutable_params m)) l s1) as HR.
  repeat case_match; try done. intros [= <- <-]. simplify_eq/=. by eapply shrinks_trans.
Qed.

Lemma ExpectTag_shrinks t s : shrinks s (ExpectTag t s).2.
Proof. unfold ExpectTag. repeat case_match; cbn; try apply shrinks_refl; apply shrinks_drop. Qed.

Lemma parse_method_shrinks m s m' s' :
  bytes_ok (buffer_ s) -> parse_method m s = RNext m' s' -> shrinks s s'.
Proof.
  intros Hb. unfold parse_method, WireReadString. destruct (ReadVarint_shrinks s Hb) as [_ H32].
  destruct (ReadVarint32 s) as [[l s1]|]; [|done]. specialize (H32 _ _ eq_refl).
  pose proof (InternalReadStringInline_shrinks (method (mutable_method m)) l s1) as HR.
  destruct (InternalReadStringInline _ l s1) as [[ok v] s2]. cbn in HR. destruct ok; [|done]. cbn [negb].
  pose proof (ExpectTag_shrinks 26 s2) as HE. destruct (ExpectTag 26 s2) as [e s3]. cbn in HE.
  assert (H3 : shrinks s s3) by eauto using shrinks_trans.
  destruct e; [|by intros [= _ <-]]. intros H%parse_params_shrinks; [by eapply shrinks_trans|by eapply shrinks_ok].
Qed.

Lemma parse_rpc_id_shrinks m s m' s' :
  bytes_ok (buffer_ s) -> parse_rpc_id m s = RNext m' s' -> shrinks s s'.
Proof.
  intros Hb. unfold parse_rpc_id, ReadPrimitive_int32. destruct (ReadVarint_shrinks s Hb) as [_ H32].
  destruct (ReadVarint32 s) as [[l s1]|]; [|done]. specialize (H32 _ _ eq_refl). cbn.
  pose proof (ExpectTag_shrinks 18 s1) as HE. destruct (ExpectTag 18 s1) as [e s3]. cbn in HE.
  assert (H3 : shrinks s s3) by eauto using shrinks_trans.
  destruct e; [|by intros [= _ <-]]. intros H%parse_method_shrinks; [by eapply shrinks_trans|by eapply shrinks_ok].
Qed.

Lemma parse_round_shrinks tag m s m' s' :
  bytes_ok (buffer_ s) -> parse_round tag m s = RNext m' s' -> shrinks s s'.
Proof.
  intros Hb.
  assert (Hun : handle_uninterpreted tag m s = RNext m' s' -> shrinks s s').
  { unfold handle_uninterpreted, SkipField. case_match; [done|].
    pose proof (SkipField_shrinks (SkipMessage (skip_fuel s)) tag s (_unknown_fields_ m) Hb
      (SkipMessage_shrinks _)) as HF.
    destruct (SkipField_with _ tag s _) as [[ok s1] u]. destruct ok; [|done]. by intros [= _ <-]. }
  unfold parse_round.
  repeat case_match; eauto using parse_rpc_id_shrinks, parse_method_shrinks, parse_params_shrinks.
Qed.

Lemma merge_loop_fuel n k m s :
  bytes_ok (buffer_ s) -> (length (buffer_ s) < n)%nat -> (length (buffer_ s) < k)%nat ->
  merge_loop n m s = merge_loop k m s.
Proof.
  revert k m s. induction n as [|n IH]; intros [|k] m s Hb Hn Hk; try lia. cbn [merge_loop].
  destruct (ReadTag_shrinks s Hb) as [HT Hlt]. destruct (ReadTag s) as [tag s1]. cbn in HT, Hlt.
  destruct (Z.eqb_spec tag 0) as [->|Ht]; [done|]. specialize (Hlt Ht).
  pose proof (shrinks_ok _ _ HT Hb) as Hb1.
  destruct (parse_round tag m s1) as [| |m2 s2] eqn:E; [done..|].
  apply parse_round_shrinks in E; [|done]. pose proof (shrinks_length _ _ E).
  apply IH; [by eapply shrinks_ok|lia..].
Qed.

(** ** Parsing what was written *)
Lemma parse_unknown f m s rest :
  unknown_ok f -> (nesting f <= 100)%nat -> is_known f = false -> recursion_depth_ s = 0 -> bytes_ok rest ->
  buffer_ s = payload f ++ rest ->
  exists t, parse_round (field_tag f) m s =
    RNext (with_unknown_fields (_unknown_fields_ m ++ [f]) m) (set_buffer rest (set_last_tag t s)).
Proof.
  intros Hf Hn Hk Hd Hr E. destruct (field_tag_parts f Hf) as (Hnum & Htype & _ & _).
  assert (Hb : bytes_ok (buffer_ s)) by (rewrite E; apply Forall_app; auto using payload_ok).
  destruct (skips_all f Hf (Nat.max (need f) (skip_fuel s)) s (_unknown_fields_ m) rest) as [t Ht];
    [lia|lia|lia|done|done|].
  exists t. assert (Hun : handle_uninterpreted (field_tag f) m s =
    RNext (with_unknown_fields (_unknown_fields_ m ++ [f]) m) (set_buffer rest (set_last_tag t s))).
  { unfold handle_uninterpreted, SkipField. rewrite Htype.
    rewrite (proj2 (Z.eqb_neq _ _) (proj2 (field_type_range f))).
    rewrite (SkipField_with_ext _ (SkipMessage (Nat.max (need f) (skip_fuel s)))), Ht; [done|].
    intros u. apply SkipMessage_fuel; [done|unfold skip_fuel; cbn; lia..]. }
  unfold parse_round. rewrite Hnum, Htype. unfold is_known in Hk. apply orb_false_iff in Hk as [Hk H3].
  apply orb_false_iff in Hk as [H1 H2].
  destruct (field_number f =? 1); [cbn in H1; by rewrite H1|].
  destruct (field_number f =? 2); [cbn in H2; by rewrite H2|].
  destruct (field_number f =? 3); [cbn in H3; by rewrite H3|]. done.
Qed.

Definition top_level_ok (f : UnknownField) : Prop := unknown_ok f /\ (nesting f <= 100)%nat /\ is_known f = false.

(** The unknown fields at the end of a message. *)
Lemma merge_unknowns us :
  Forall top_level_ok us -> forall m s n,
  recursion_depth_ s = 0 -> total_bytes_read_ s < kDefaultTotalBytesLimit ->
  buffer_ s = SerializeUnknownFieldsToArray us ->
  exists s', merge_loop (length us + S n) m s =
    (true, with_unknown_fields (_unknown_fields_ m ++ us) m, s') /\ legitimate_message_end_ s' = true.
Proof.
  induction 1 as [|f us (Hf & Hn & Hk) Hus IH]; intros m s n Hd Ht E.
  - cbn [length Nat.add merge_loop]. rewrite ReadTag_nil by done. rewrite app_nil_r. destruct m. cbn. eauto.
  - rewrite fields_wire_cons, field_wire, <- app_assoc in E by done.
    assert (Hus' : Forall unknown_ok us) by (eapply Forall_impl; [exact Hus|]; unfold top_level_ok; tauto).
    cbn [length Nat.add merge_loop]. destruct (field_tag_parts f Hf) as (_ & _ & Hr & Hnz).
    rewrite (ReadTag_write (field_tag f) (payload f ++ SerializeUnknownFieldsToArray us))
      by (done || (apply Forall_app; auto using payload_ok, fields_bytes_ok)).
    rewrite (proj2 (Z.eqb_neq _ _) Hnz). set (s1 := set_last_tag _ _).
    destruct (parse_unknown f m s1 (SerializeUnknownFieldsToArray us)) as [t ->];
      try done; [by apply fields_bytes_ok|].
    destruct (IH (with_unknown_fields (_unknown_fields_ m ++ [f]) m)
      (set_buffer (SerializeUnknownFieldsToArray us) (set_last_tag t s1)) n) as (s' & -> & Hs'); [done..|].
    exists s'. split; [|done]. destruct m; cbn. by rewrite <- app_assoc.
Qed.

(** The bytes of the three known fields. *)
Definition known_wire (id : Z) (meth par : bytes) : bytes :=
  varint_encode 9 (u64 id) ++ 18 :: varint_encode 9 (zlen meth) ++ meth ++
  26 :: varint_encode 9 (zlen par) ++ par.

Lemma message_wire m :
  content_ok m -> has_rpc_id m = true -> has_method m = true -> has_params m = true ->
  SerializeWithCachedSizesToArray m =
  8 :: known_wire (rpc_id m) (method m) (params m) ++ SerializeUnknownFieldsToArray (_unknown_fields_ m).
Proof.
  intros (Hid & _ & _ & Hml & Hpl & _) H1 H2 H3. unfold SerializeWithCachedSizesToArray, known_wire.
  rewrite H1, H2, H3. unfold WriteInt32ToArray, WriteStringToArray, WriteBytesToArray.
  change (WriteTagToArray 1 WIRETYPE_VARINT) with [8].
  change (WriteTagToArray 2 WIRETYPE_LENGTH_DELIMITED) with [18].
  change (WriteTagToArray 3 WIRETYPE_LENGTH_DELIMITED) with [26].
  rewrite (proj2 (WriteVarint32SignExtended_spec 0 _ Hid)), !WriteVarint32ToArray_spec by (apply uwrap_range; lia).
  rewrite !(uwrap_id 32) by by apply zlen_in_u. cbn [app]. rewrite <- !app_assoc. cbn [app].
  rewrite <- !app_assoc. cbn [app]. by rewrite <- !app_assoc.
Qed.

Lemma WireRead_exact old d rest s :
  zlen d < 2 ^ 31 -> bytes_ok d -> bytes_ok rest -> buffer_ s = varint_encode 9 (zlen d) ++ d ++ rest ->
  WireReadString old s = (true, d, set_buffer rest s) /\ WireReadBytes old s = (true, d, set_buffer rest s).
Proof.
  intros Hl Hd Hr E. pose proof (zlen_in_u d Hl) as Hu.
  assert (H : ReadVarint32 s = Some (zlen d, set_buffer (d ++ rest) s)).
  { rewrite (ReadVarint32_write (zlen d) (d ++ rest)) by (done || (by apply in_u_32_64) || by apply Forall_app).
    by rewrite uwrap_id. }
  unfold WireReadString, WireReadBytes. rewrite H.
  destruct (ReadString_exact old d rest (set_buffer (d ++ rest) s)) as [-> _]; [done..|]. by destruct s.
Qed.

(** The message after the three fields have been read into [m]. *)
Definition filled (id : Z) (meth par : bytes) (m : jme_rpc) : jme_rpc :=
  mk_jme_rpc (_unknown_fields_ m) (Some meth) (Some par) id (_cached_size_ m)
    (Z.lor (Z.lor (Z.lor (_has_bits_ m) 1) 2) 4).

Lemma parse_known id meth par rest m s :
  in_s 32 id -> bytes_ok meth -> bytes_ok par -> zlen meth < 2 ^ 31 -> zlen par < 2 ^ 31 -> bytes_ok rest ->
  buffer_ s = known_wire id meth par ++ rest ->
  parse_rpc_id m s =
  let s' := set_buffer rest s in
  match rest with
  | [] => RTrue (filled id meth par m) (set_legitimate_message_end true (set_last_tag 0 s'))
  | _ => RNext (filled id meth par m) s'
  end.
Proof.
  intros Hid Hm Hp Hml Hpl Hr E. unfold known_wire in E. rewrite <- app_assoc in E. cbn [app] in E.
  rewrite <- !app_assoc in E. cbn [app] in E. rewrite <- app_assoc in E.
  set (r3 := varint_encode 9 (zlen par) ++ par ++ rest) in *.
  set (r2 := varint_encode 9 (zlen meth) ++ meth ++ 26 :: r3) in *.
  assert (Hr3 : bytes_ok r3)
    by (unfold r3; rewrite !Forall_app; split_and!; auto using varint64_ok, in_u_32_64, zlen_in_u).
  assert (Hr2 : bytes_ok r2).
  { unfold r2. rewrite !Forall_app, Forall_cons.
    split_and!; auto using varint64_ok, in_u_32_64, zlen_in_u. decide_closed. }
  unfold parse_rpc_id, ReadPrimitive_int32.
  rewrite (ReadVarint32_write (u64 id) (18 :: r2))
    by (done || (apply uwrap_range; lia) || (constructor; [decide_closed|done])).
  cbn [mbind option_bind]. rewrite uwrap_uwrap, swrap_uwrap, swrap_id by (lia || done).
  unfold ExpectTag at 1. cbn [buffer_ set_buffer].
  change (18 <? Z.shiftl 1 7) with true. change (18 =? 18) with true. cbv iota.
  unfold parse_method. set (m1 := mutable_method _). set (s1 := Advance 1 _).
  destruct (WireRead_exact (method m1) meth (26 :: r3) s1) as [-> _];
    [done|done|constructor; [decide_closed|done]|done|].
  cbn [negb]. unfold ExpectTag. cbn [buffer_ set_buffer].
  change (26 <? Z.shiftl 1 7) with true. change (26 =? 26) with true. cbv iota.
  unfold parse_params. set (m2 := mutable_params _). set (s2 := Advance 1 _).
  destruct (WireRead_exact (params m2) par rest s2) as [_ ->]; [done..|]. cbn [negb].
  unfold ExpectAtEnd, BufferSize. cbn [buffer_ set_buffer].
  assert (Hm2 : with_params (Some par) m2 = filled id meth par m).
  { unfold m2, m1, mutable_params, mutable_method, filled. destruct m as [u [] [] i c h]; done. }
  rewrite Hm2. destruct rest as [|b rest]; [by destruct s|].
  rewrite (proj2 (Z.eqb_neq _ _)) by (rewrite zlen_cons; pose proof (zlen_nonneg rest); lia). by destruct s.
Qed.

Lemma Clear_bits m : _has_bits_ (Clear m) = 0 /\ _unknown_fields_ (Clear m) = [].
Proof. done. Qed.

(** Parsing the bytes of an initialized message, into any message object. *)
Lemma parse_message id meth par us m0 :
  in_s 32 id -> bytes_ok meth -> bytes_ok par -> zlen meth < 2 ^ 31 -> zlen par < 2 ^ 31 ->
  Forall top_level_ok us ->
  let data := 8 :: known_wire id meth par ++ SerializeUnknownFieldsToArray us in
  zlen data < kDefaultTotalBytesLimit ->
  ParseFromString data m0 =
    (true, mk_jme_rpc us (Some meth) (Some par) id (_cached_size_ (Clear m0)) 7).
Proof.
  intros Hid Hm Hp Hml Hpl Hus data Hlen.
  assert (Hus' : Forall unknown_ok us) by (eapply Forall_impl; [exact Hus|]; unfold top_level_ok; tauto).
  pose proof (fields_bytes_ok us Hus') as Hub.
  assert (Hk : bytes_ok (known_wire id meth par)).
  { assert (byte_ok 18 /\ byte_ok 26) as [H18 H26] by (split; decide_closed).
    assert (in_u 64 (u64 id)) by (apply uwrap_range; lia).
    unfold known_wire. rewrite !Forall_app, Forall_cons, !Forall_app, Forall_cons, Forall_app.
    split_and!; auto using varint64_ok, in_u_32_64, zlen_in_u. }
  assert (Hdata : bytes_ok data) by (constructor; [decide_closed|by apply Forall_app]).
  unfold ParseFromString, MergePartialFromCodedStream.
  set (s := CodedInputStream_new data).
  assert (exists k, k = (length us + S (length data + 1))%nat) as [k Hk'] by eauto.
  rewrite (merge_loop_fuel _ (S k) _ s)
    by (done || (unfold skip_fuel, s; cbn [buffer_ CodedInputStream_new]; lia)).
  cbn [merge_loop]. change (ReadTag s) with (8, set_last_tag 8 (Advance 1 s)).
  change (8 =? 0) with false. cbv iota.
  change (parse_round 8 ?m ?i) with (parse_rpc_id m i).
  set (s1 := set_last_tag 8 _).
  rewrite (parse_known id meth par (SerializeUnknownFieldsToArray us) (Clear m0) s1) by done.
  destruct (SerializeUnknownFieldsToArray us) as [|b r] eqn:Eu.
  - assert (us = []) as ->.
    { destruct us as [|f us]; [done|]. rewrite fields_wire_cons in Eu. apply app_eq_nil in Eu as [Eu _].
      apply Forall_cons in Hus' as [Hf _]. rewrite field_wire in Eu by done. apply app_eq_nil in Eu as [Eu _].
      cbn [varint_encode] in Eu. by destruct (_ <? _). }
    done.
  - set (s2 := set_buffer _ s1).
    destruct (merge_unknowns us Hus (filled id meth par (Clear m0)) s2 (length data + 1)) as (s' & Hs & Hl);
      [done|exact Hlen|done|].
    cbv zeta. cbn [Z.eqb]. rewrite Hk', Hs. unfold ConsumedEntireMessage. rewrite Hl. done.
Qed.

(** ** The has-bits invariant under every mutator *)
Inductive rpc_mutator : Set :=
| MSetRpcId (v : Z) | MClearRpcId
| MSetMethod (v : list Z) | MClearMethod | MMutableMethod (v : list Z) | MReleaseMethod
| MSetAllocatedMethod (v : option (list Z))
| MSetParams (v : list Z) | MClearParams | MMutableParams (v : list Z) | MReleaseParams
| MSetAllocatedParams (v : option (list Z))
| MClear | MMergeFrom (from : jme_rpc) | MCopyFrom (from : jme_rpc) | MSwap (other : jme_rpc)
| MByteSize | MParseFromString (data : list Z).

(** [MMutableMethod v] is an assignment of [v] through the pointer that
    [mutable_method] returns. *)
Definition mutate (u : rpc_mutator) (m : jme_rpc) : jme_rpc :=
  match u with
  | MSetRpcId v => set_rpc_id v m
  | MClearRpcId => clear_rpc_id m
  | MSetMethod v => set_method v m
  | MClearMethod => clear_method m
  | MMutableMethod v => with_method (Some v) (mutable_method m)
  | MReleaseMethod => (release_method m).2
  | MSetAllocatedMethod v => set_allocated_method v m
  | MSetParams v => set_params v m
  | MClearParams => clear_params m
  | MMutableParams v => with_params (Some v) (mutable_params m)
  | MReleaseParams => (release_params m).2
  | MSetAllocatedParams v => set_allocated_params v m
  | MClear => Clear m
  | MMergeFrom from => MergeFrom from m
  | MCopyFrom from => CopyFrom from m
  | MSwap other => (Swap m other).1
  | MByteSize => (ByteSize m).2
  | MParseFromString data => (ParseFromString data m).2
  end.

Definition mutator_ok (u : rpc_mutator) : Prop :=
  match u with MMergeFrom from | MCopyFrom from | MSwap from => bits_ok from | _ => True end.

Lemma bits_cases b : in_u 3 b -> b = 0 \/ b = 1 \/ b = 2 \/ b = 3 \/ b = 4 \/ b = 5 \/ b = 6 \/ b = 7.
Proof. unfold in_u. lia. Qed.

(** Case analysis on the eight values of the has-bits of every message in
    sight, then evaluation. *)
Ltac bits_solve :=
  unfold bits_ok, has_rpc_id, has_method, has_params, rpc_id, method, params in *; cbn in *;
  repeat match goal with
  | H : in_u 3 ?b /\ _ |- _ => let H0 := fresh in destruct H as [H0 H]; apply bits_cases in H0;
      repeat (destruct H0 as [->|H0]); try subst b
  end;
  vm_compute; intuition (congruence || auto).

Lemma set_rpc_id_bits v m : bits_ok m -> bits_ok (set_rpc_id v m).
Proof. destruct m as [u [] [] i c b]; intros H; bits_solve. Qed.
Lemma clear_rpc_id_bits m : bits_ok m -> bits_ok (clear_rpc_id m).
Proof. destruct m as [u [] [] i c b]; intros H; bits_solve. Qed.
Lemma set_method_bits v m : bits_ok m -> bits_ok (set_method v m).
Proof. destruct m as [u [] [] i c b]; intros H; bits_solve. Qed.
Lemma clear_method_bits m : bits_ok m -> bits_ok (clear_method m).
Proof. destruct m as [u [] [] i c b]; intros H; bits_solve. Qed.
Lemma release_method_bits m : bits_ok m -> bits_ok (release_method m).2.
Proof. destruct m as [u [] [] i c b]; intros H; bits_solve. Qed.
Lemma set_allocated_method_bits v m : bits_ok m -> bits_ok (set_allocated_method v m).
Proof. destruct m as [u [] [] i c b], v; intros H; bits_solve. Qed.
Lemma set_params_bits v m : bits_ok m -> bits_ok (set_params v m).
Proof. destruct m as [u [] [] i c b]; intros H; bits_solve. Qed.
Lemma clear_params_bits m : bits_ok m -> bits_ok (clear_params m).
Proof. destruct m as [u [] [] i c b]; intros H; bits_solve. Qed.
Lemma release_params_bits m : bits_ok m -> bits_ok (release_params m).2.
Proof. destruct m as [u [] [] i c b]; intros H; bits_solve. Qed.
Lemma set_allocated_params_bits v m : bits_ok m -> bits_ok (set_allocated_params v m).
Proof. destruct m as [u [] [] i c b], v; intros H; bits_solve. Qed.
Lemma with_unknown_fields_bits v m : bits_ok m -> bits_ok (with_unknown_fields v m).
Proof. done. Qed.

Lemma Clear_empty m :
  bits_ok m -> bits_ok (Clear m) /\ rpc_id (Clear m) = 0 /\ method (Clear m) = [] /\ params (Clear m) = [].
Proof. destruct m as [u [] [] i c b]; intros H; bits_solve. Qed.

#[local] Hint Resolve set_rpc_id_bits clear_rpc_id_bits set_method_bits clear_method_bits release_method_bits
  set_allocated_method_bits set_params_bits clear_params_bits release_params_bits set_allocated_params_bits
  with_unknown_fields_bits : core.

Lemma MergeFrom_bits from m : bits_ok m -> bits_ok (MergeFrom from m).
Proof. intros Hm. unfold MergeFrom. apply with_unknown_fields_bits. repeat case_match; auto. Qed.

Lemma parse_set_rpc_id v m : bits_ok m -> bits_ok (set_has_rpc_id (with_rpc_id v m)).
Proof. apply (set_rpc_id_bits v). Qed.

Definition round_msg (r : round) : jme_rpc := match r with RFalse m _ | RTrue m _ | RNext m _ => m end.

Lemma parse_params_bits m s : bits_ok m -> bits_ok (round_msg (parse_params m s)).
Proof.
  intros Hm. unfold parse_params. destruct (WireReadBytes _ s) as [[ok v] s1].
  pose proof (set_params_bits v m Hm) as H. unfold set_params in H. repeat case_match; done.
Qed.

Lemma parse_method_bits m s : bits_ok m -> bits_ok (round_msg (parse_method m s)).
Proof.
  intros Hm. unfold parse_method. destruct (WireReadString _ s) as [[ok v] s1].
  pose proof (set_method_bits v m Hm) as H. unfold set_method in H. repeat case_match; try done.
  by apply parse_params_bits.
Qed.

Lemma parse_round_bits tag m s : bits_ok m -> bits_ok (round_msg (parse_round tag m s)).
Proof.
  intros Hm.
  assert (Hun : bits_ok (round_msg (handle_uninterpreted tag m s))).
  { unfold handle_uninterpreted. repeat case_match; done. }
  assert (Hid : bits_ok (round_msg (parse_rpc_id m s))).
  { unfold parse_rpc_id. destruct (ReadPrimitive_int32 s) as [[v s1]|]; [|done].
    pose proof (parse_set_rpc_id v m Hm). destruct (ExpectTag 18 s1) as [[] s2]; [by apply parse_method_bits|done]. }
  unfold parse_round. repeat case_match; auto using parse_method_bits, parse_params_bits.
Qed.

Lemma merge_loop_bits n m s : bits_ok m -> bits_ok (merge_loop n m s).1.2.
Proof.
  revert m s. induction n as [|n IH]; intros m s Hm; [done|]. cbn [merge_loop].
  destruct (ReadTag s) as [tag s1]. case_match; [done|].
  pose proof (parse_round_bits tag m s1 Hm) as Hr. destruct (parse_round tag m s1); cbn in Hr; auto.
Qed.

Lemma ParseFromString_bits data m : bits_ok m -> bits_ok (ParseFromString data m).2.
Proof.
  intros Hm%Clear_empty. unfold ParseFromString, MergePartialFromCodedStream.
  pose proof (merge_loop_bits (skip_fuel (CodedInputStream_new data)) (Clear m) (CodedInputStream_new data)
    (proj1 Hm)) as H.
  destruct (merge_loop _ _ _) as [[ok m1] s1]. done.
Qed.

Lemma mutate_bits u m : mutator_ok u -> bits_ok m -> bits_ok (mutate u m).
Proof.
  intros Hu Hm. destruct u; cbn [mutate mutator_ok] in *; auto using MergeFrom_bits, ParseFromString_bits.
  - by apply set_method_bits.
  - by apply set_params_bits.
  - by apply Clear_empty.
  - apply MergeFrom_bits. by apply Clear_empty.
Qed.

Lemma mutates_bits us m :
  Forall mutator_ok us -> bits_ok m -> bits_ok (List.fold_left (fun m u => mutate u m) us m).
Proof. intros Hus. revert m. induction Hus; intros m Hm; [done|]. cbn. auto using mutate_bits. Qed.

Lemma CopyFrom_content from m :
  bits_ok from -> bits_ok m ->
  _has_bits_ (CopyFrom from m) = _has_bits_ from /\ rpc_id (CopyFrom from m) = rpc_id from /\
  method (CopyFrom from m) = method from /\ params (CopyFrom from m) = params from /\
  _unknown_fields_ (CopyFrom from m) = _unknown_fields_ from.
Proof.
  intros Hf (Hc & H1 & H2 & H3)%Clear_empty. unfold CopyFrom.
  assert (Hb : _has_bits_ (Clear m) = 0 /\ _unknown_fields_ (Clear m) = []) by done.
  destruct Hb as [Hb Hu]. unfold rpc_id, method, params in H1, H2, H3. clear Hc.
  destruct (Clear m) as [u p q i c b]. cbn in *. subst u i b.
  destruct Hf as (Hbits & G1 & G2 & G3). apply bits_cases in Hbits.
  destruct from as [u' p' q' i' c' b']. unfold has_rpc_id, has_method, has_params, rpc_id, method, params in *.
  cbn in *. destruct p, q, p', q'; cbn in *; repeat (destruct Hbits as [->|Hbits]); subst; cbn in *;
    rewrite ?G1, ?G2, ?G3 by done; subst; done.
Qed.

(** Example: the request of a call with id 1, method "go" and no parameters. *)
Definition example_rpc : jme_rpc :=
  with_unknown_fields [UVarint 9 300; UGroup 10 [ULengthDelimited 1 [7]; UFixed32 2 5]]
    (set_params [] (set_method [103; 111] (set_rpc_id 1 SharedCtor))).

Lemma example_rpc_ok : content_ok example_rpc.
Proof.
  unfold content_ok. split_and!; try decide_closed.
  repeat (apply Forall_cons; split); [..|done]; (split_and!; [|cbn; lia|done]); repeat constructor; decide_closed.
Qed.

(** * Properties *)

(** C6. Round trip of the RPC envelope: serializing an initialized message never
    hits the size-mismatch abort, and parsing the bytes succeeds and restores
    the id, the method, the parameters and every unknown field, nested groups
    included, whatever the message object parsed into contained before. *)
Theorem rpc_message_roundtrip (m m0 : jme_rpc) :
  content_ok m -> _has_bits_ m = 7 ->
  zlen (SerializeWithCachedSizesToArray m) < kDefaultTotalBytesLimit ->
  exists data m', (SerializeAsString m).1 = Some data /\ ParseFromString data m0 = (true, m') /\
    rpc_id m' = rpc_id m /\ method m' = method m /\ params m' = params m /\
    _unknown_fields_ m' = _unknown_fields_ m /\ _has_bits_ m' = 7.
Proof.
  intros Hc Hb Hl. exists (SerializeWithCachedSizesToArray m).
  pose proof (ByteSize_spec m ltac:(by rewrite Hb) Hc) as Hs.
  assert (H : has_rpc_id m = true /\ has_method m = true /\ has_params m = true)
    by (unfold has_rpc_id, has_method, has_params; rewrite Hb; done).
  destruct H as (H1 & H2 & H3). pose proof (message_wire m Hc H1 H2 H3) as Hw. rewrite Hw in Hl.
  pose proof Hc as (Hid & Hm & Hp & Hml & Hpl & Hu).
  eexists. split; [|split; [rewrite Hw; by apply parse_message|done]].
  unfold SerializeAsString. destruct (ByteSize m) as [n m1] eqn:E. cbn in Hs. subst n.
  replace (SerializeWithCachedSizesToArray m1) with (SerializeWithCachedSizesToArray m)
    by (unfold ByteSize in E; injection E as _ <-; done). by rewrite Z.eqb_refl.
Qed.

(** Witness of C6: a message with a nested unknown group. *)
Lemma rpc_message_roundtrip_witness :
  exists data m', (SerializeAsString example_rpc).1 = Some data /\ ParseFromString data SharedCtor = (true, m') /\
    rpc_id m' = rpc_id example_rpc /\ method m' = method example_rpc /\ params m' = params example_rpc /\
    _unknown_fields_ m' = _unknown_fields_ example_rpc /\ _has_bits_ m' = 7.
Proof. apply (rpc_message_roundtrip example_rpc SharedCtor); [exact example_rpc_ok|reflexivity|reflexivity]. Defined.



(** C26. Type invariant: after any sequence of mutators on a new message
    (setters, releases, merges, swaps, parses of arbitrary bytes) only the three
    has-bits are used and a field whose bit is not set reads as its default; and
    [CopyFrom] then makes a message equal to its source in every field. *)
Theorem rpc_has_bits_invariant (us : list rpc_mutator) (m : jme_rpc) :
  Forall mutator_ok us ->
  let r := List.fold_left (fun m u => mutate u m) us SharedCtor in
  bits_ok r /\
  (bits_ok m ->
   _has_bits_ (CopyFrom r m) = _has_bits_ r /\ rpc_id (CopyFrom r m) = rpc_id r /\
   method (CopyFrom r m) = method r /\ params (CopyFrom r m) = params r /\
   _unknown_fields_ (CopyFrom r m) = _unknown_fields_ r).
Proof.
  intros Hus r.
  assert (Hr : bits_ok r).
  { assert (H0 : bits_ok SharedCtor) by (split_and!; done).
    by apply mutates_bits. }
  split; [done|]. intros Hm. by apply CopyFrom_content.
Qed.

(** Witness of C26: a parse that fails, then a release. *)
Lemma rpc_has_bits_invariant_witness :
  bits_ok (List.fold_left (fun m u => mutate u m)
    [MSetRpcId 5; MParseFromString [8; 1; 18; 200]; MReleaseMethod] SharedCtor).
Proof.
  apply (rpc_has_bits_invariant [MSetRpcId 5; MParseFromString [8; 1; 18; 200]; MReleaseMethod] SharedCtor).
  repeat constructor.
Defined.


