(* ===== verification/Rpc.v ===== *)
(** The RPC layer: the handler registry (include/rpc/JME_RpcHandler.h,
    source/rpc/JME_RpcHandler.cpp), the server side
    (JME_RpcServer.h, JME_RpcServer.cpp) and the client with its pending
    callbacks and timeouts (JME_RpcClient.h, JME_RpcClient.cpp).

    The layer is written over any message channel (Channel.v).  User code enters
    as parameters: a handler maps the parameter bytes of a request to the
    serialized result ([None] for a null result), a callback or dead-callback is
    named by a number and its invocation is an effect.  The calls
    [SerializeAsString] on user messages are their results, byte strings. *)
From S2P Require Import Prelude Message TcpSession Channel CodedStream RpcPb.
Local Open Scope Z_scope.
Local Open Scope sw_scope.

(** ** The handler registry *)
Definition RpcHandler : Type := list Z -> option (list Z).
Definition Handlers : Type := gmap (list Z) RpcHandler.

(** [regRpcHandler]: [None] is the abort on a method registered twice. *)
Definition regRpcHandler (method : bytes) (handler : RpcHandler) (handlers : Handlers) : option Handlers :=
  match handlers !! method with
  | Some _ => None
  | None => Some (<[method := handler]> handlers)
  end.

(** [execRpcHandler]. *)
Definition execRpcHandler (handlers : Handlers) (method params : bytes) : option (list Z) :=
  match (handlers !! method : option RpcHandler) with
  | None => None
  | Some h => h params
  end.

(** ** The envelope of a request or response *)
Definition envelope (id : Z) (meth par : bytes) : jme_rpc :=
  set_params par (set_method meth (set_rpc_id id SharedCtor)).

(** [Message msg(RPCMessage, m)] on the serialized envelope; [None] is the abort
    of the serializer. *)
Definition rpc_frame (rpc : jme_rpc) : option Message :=
  match (SerializeAsString rpc).1 with
  | Some m => Some (Message_new RPCMessage m)
  | None => None
  end.

(** ** The server *)
Section server.
Context {C E : Type} {CH : Channel C E}.

Inductive server_effect : Type :=
| SSession (e : E)
| SExec (method params : list Z)
| SAbort.

(** A session operation as a server operation. *)
Definition on_session {A} (op : SW C E A) : SW C server_effect A := fun c =>
  let '(c, effs, a) := op c in (c, SSession <$> effs, a).

(** [RpcServer::response]. *)
Definition response (params : jme_rpc) : SW C server_effect unit :=
  match rpc_frame params with
  | Some msg => let! _ := on_session (ch_writeMessage msg) in sw_ret tt
  | None => sw_emit SAbort
  end.

(** [RpcSessionNetHandler::sessionReceiveMessage]: the result of the parse is
    not looked at. *)
Definition serverReceiveMessage (handlers : Handlers) (msg : Message) : SW C server_effect unit :=
  match getMessageStr msg with
  | None => sw_emit SAbort
  | Some param =>
      let rpc := (ParseFromString param SharedCtor).2 in
      match handlers !! method rpc with
      | None => sw_ret tt
      | Some _ =>
          sw_emit (SExec (method rpc) (params rpc)) ;;;
          match execRpcHandler handlers (method rpc) (params rpc) with
          | Some result => response (envelope (rpc_id rpc) (method rpc) result)
          | None => sw_ret tt
          end
      end
  end.

(** The other callbacks of [RpcSessionNetHandler]. *)
Definition RPCSession : Z := 1.
Definition serverConnectSucceed (endpoint : option (string * string)) : SW C server_effect unit :=
  on_session (ch_start RPCSession endpoint).
Definition serverConnectFailed : SW C server_effect unit := sw_ret tt.
Definition serverDisconnect : SW C server_effect unit := sw_ret tt.
Definition serverReadError (shutdown_ok : bool) : SW C server_effect unit := on_session (ch_stop shutdown_ok).
End server.
Arguments server_effect : clear implicits.

(** ** The client *)

(** [RpcCallback]: [_dt] carries the dead-callback the timer was started with. *)
Record RpcCallback : Set := mkRpcCallback {
  _cb : Z;
  _dt : option Z;
  _checkDead : bool
}.

(** [RpcCallback(cb)] and [RpcCallback(client, cb, t, dcb, methodId)]. *)
Definition RpcCallback_new (cb : Z) : RpcCallback := mkRpcCallback cb None false.
Definition RpcCallback_timed (cb dcb : Z) : RpcCallback := mkRpcCallback cb (Some dcb) true.

Section client.
Context {C E : Type} {CH : Channel C E}.

(** [class RpcClient]; [_session] is what the weak pointer locks to. *)
Record RpcClient : Type := mkRpcClient {
  _session : option C;
  _methodId : Z;
  _cbs : gmap Z RpcCallback
}.

Inductive client_effect : Type :=
| CSession (e : E)
| CCallback (methodId cb : Z) (response : list Z)
| CDeadCallback (dcb : Z)
| CTimerStart (methodId t dcb : Z)
| CTimerCancel (methodId : Z)
| CNullPointer
| CAbort.

Abbreviation client A := (SW RpcClient client_effect A) (only parsing).

Definition set_session (s : option C) (c : RpcClient) : RpcClient := mkRpcClient s (_methodId c) (_cbs c).
Definition set_methodId (i : Z) (c : RpcClient) : RpcClient := mkRpcClient (_session c) i (_cbs c).
Definition set_cbs (m : gmap Z RpcCallback) (c : RpcClient) : RpcClient := mkRpcClient (_session c) (_methodId c) m.

(** [_session.lock()->op]. *)
Definition locked {A} (dflt : A) (op : SW C E A) : client A := fun c =>
  match _session c with
  | None => (c, [CNullPointer], dflt)
  | Some s => let '(s, effs, a) := op s in (set_session (Some s) c, CSession <$> effs, a)
  end.

(** The end of every [callRpcMethod]: build the envelope, frame it, write it. *)
Definition send_request (id : Z) (meth par : bytes) : client bool :=
  match rpc_frame (envelope id meth par) with
  | Some msg => locked false (ch_writeMessage msg)
  | None => sw_emit CAbort ;;; sw_ret false
  end.

Definition next_id (c : RpcClient) : Z := i32 (_methodId c + 1).

(** [callRpcMethod(method, params)]. *)
Definition callRpcMethod (meth par : bytes) : client bool := fun c =>
  match _session c with
  | None => (sw_emit CNullPointer ;;; sw_ret false) c
  | Some s =>
      if negb (ch_isOk s) then sw_ret false c
      else
        (sw_modify (set_methodId (next_id c)) ;;;
         send_request (next_id c) meth par) c
  end.

(** [callRpcMethod(method, params, cb)]. *)
Definition callRpcMethod_cb (meth par : bytes) (cb : Z) : client bool := fun c =>
  match _session c with
  | None => (sw_emit CNullPointer ;;; sw_ret false) c
  | Some s =>
      if negb (ch_isOk s) then sw_ret false c
      else
        (sw_modify (set_methodId (next_id c)) ;;;
         sw_modify (fun c => set_cbs (<[_methodId c := RpcCallback_new cb]> (_cbs c)) c) ;;;
         send_request (next_id c) meth par) c
  end.

(** [callRpcMethod(method, params, cb, dt, dcb)]. *)
Definition callRpcMethod_timed (meth par : bytes) (cb dt dcb : Z) : client bool := fun c =>
  match _session c with
  | None => (sw_emit CNullPointer ;;; sw_ret false) c
  | Some s =>
      if negb (ch_isOk s) then sw_ret false c
      else
        (sw_modify (set_methodId (next_id c)) ;;;
         sw_emit (CTimerStart (next_id c) dt dcb) ;;;
         sw_modify (fun c => set_cbs (<[_methodId c := RpcCallback_timed cb dcb]> (_cbs c)) c) ;;;
         send_request (next_id c) meth par) c
  end.

(** [sessionReceiveMessage]. *)
Definition clientReceiveMessage (msg : Message) : client unit := fun c =>
  match getMessageStr msg with
  | None => sw_emit CAbort c
  | Some m =>
      let rpc := (ParseFromString m SharedCtor).2 in
      match _cbs c !! rpc_id rpc with
      | None => sw_ret tt c
      | Some cb =>
          (sw_modify (fun c => set_cbs (delete (rpc_id rpc) (_cbs c)) c) ;;;
           (if _checkDead cb then sw_emit (CTimerCancel (rpc_id rpc)) else sw_ret tt) ;;;
           sw_emit (CCallback (rpc_id rpc) (_cb cb) (params rpc))) c
      end
  end.

(** [removeDeadRPC] and [RpcDeadCallback]. *)
Definition removeDeadRPC (methodId : Z) : client unit :=
  sw_modify (fun c => set_cbs (delete methodId (_cbs c)) c).
Definition RpcDeadCallback (err methodId dcb : Z) : client unit :=
  if negb (err =? no_error) then sw_ret tt
  else removeDeadRPC methodId ;;; sw_emit (CDeadCallback dcb).

(** The session callbacks. *)
Definition clientConnectSucceed (endpoint : option (string * string)) : client unit :=
  locked tt (ch_start RPCSession endpoint).
Definition clientConnectFailed : client unit := sw_ret tt.
Definition clientDisconnect (env : connect_env) : client unit := locked tt (ch_reconnect env).
Definition clientReadError (env : connect_env) : client unit :=
  locked tt ch_resetReadBuffer ;;; locked tt (ch_reconnect env).

(** [~RpcClient]. *)
Definition RpcClient_destroy (shutdown_ok : bool) : client unit := fun c =>
  match _session c with
  | Some _ => locked tt (ch_stop shutdown_ok) c
  | None => sw_ret tt c
  end.

(** ** All client events, and the calls that registered a callback *)
Inductive client_op : Type :=
| OCall (meth par : list Z)
| OCallCb (meth par : list Z) (cb : Z)
| OCallTimed (meth par : list Z) (cb dt dcb : Z)
| OReceive (msg : Message)
| OTimer (err methodId dcb : Z)
| OConnected (endpoint : option (string * string))
| ODisconnect (env : connect_env)
| OReadError (env : connect_env)
| OExpire.

Definition ready (c : RpcClient) : bool :=
  match _session c with Some s => ch_isOk s | None => false end.

Definition client_step (op : client_op) (c : RpcClient) : RpcClient * list client_effect * list (Z * Z) :=
  match op with
  | OCall meth par => let r := callRpcMethod meth par c in (sw_state r, sw_effects r, [])
  | OCallCb meth par cb =>
      let r := callRpcMethod_cb meth par cb c in
      (sw_state r, sw_effects r, if ready c then [(next_id c, cb)] else [])
  | OCallTimed meth par cb dt dcb =>
      let r := callRpcMethod_timed meth par cb dt dcb c in
      (sw_state r, sw_effects r, if ready c then [(next_id c, cb)] else [])
  | OReceive msg => let r := clientReceiveMessage msg c in (sw_state r, sw_effects r, [])
  | OTimer err id dcb => let r := RpcDeadCallback err id dcb c in (sw_state r, sw_effects r, [])
  | OConnected ep => let r := clientConnectSucceed ep c in (sw_state r, sw_effects r, [])
  | ODisconnect env => let r := clientDisconnect env c in (sw_state r, sw_effects r, [])
  | OReadError env => let r := clientReadError env c in (sw_state r, sw_effects r, [])
  | OExpire => (set_session None c, [], [])
  end.

Fixpoint client_run (ops : list client_op) (c : RpcClient) : RpcClient * list client_effect * list (Z * Z) :=
  match ops with
  | [] => (c, [], [])
  | op :: ops =>
      let '(c, e1, r1) := client_step op c in
      let '(c, e2, r2) := client_run ops c in
      (c, e1 ++ e2, r1 ++ r2)
  end.

(** The callbacks invoked: method id, callback, response. *)
Definition callbacks (effs : list client_effect) : list (Z * Z * list Z) :=
  List.flat_map (fun e => match e with CCallback i cb r => [(i, cb, r)] | _ => [] end) effs.
End client.
Arguments RpcClient : clear implicits.
Arguments client_effect : clear implicits.

(** [RpcClient::RpcClient] and [RpcClient::create] on a TCP session; [alloc n]
    is the block of [n] bytes the allocator returns. *)
Definition RpcClient_new (alloc : Z -> bytes) (ip port : string) (buffSize reconnect : Z) (env : connect_env)
    : RpcClient TcpSession * list effect :=
  let session := TcpSession_new (alloc buffSize) (alloc buffSize) reconnect in
  let '(session, effs, _) := connect ip port env session in
  (mkRpcClient (Some session) 0 ∅, effs).
Definition RpcClient_create (alloc : Z -> bytes) (ip port : string) (buffSize reconnect : Z) (env : connect_env)
    : RpcClient TcpSession * list effect :=
  RpcClient_new alloc ip port reconnect buffSize env.

(** * Lemmas *)

(** ** Envelopes *)

(** Sizes far below the 64 MB the parser accepts. *)
Definition size_ok (meth par : bytes) : Prop :=
  bytes_ok meth /\ bytes_ok par /\ zlen meth + zlen par + 64 <= kDefaultTotalBytesLimit.

#[global] Instance size_ok_dec meth par : Decision (size_ok meth par).
Proof. unfold size_ok. apply _. Defined.

Lemma limit_value : kDefaultTotalBytesLimit = 67108864.
Proof. done. Qed.

Lemma envelope_fields id meth par :
  rpc_id (envelope id meth par) = id /\ method (envelope id meth par) = meth /\
  params (envelope id meth par) = par /\ _unknown_fields_ (envelope id meth par) = [] /\
  _has_bits_ (envelope id meth par) = 7.
Proof. done. Qed.

Lemma envelope_ok id meth par : in_s 32 id -> size_ok meth par -> content_ok (envelope id meth par).
Proof.
  intros Hid (Hm & Hp & Hl). rewrite limit_value in Hl.
  pose proof (zlen_nonneg meth). pose proof (zlen_nonneg par).
  unfold content_ok. cbn [rpc_id method params _unknown_fields_ envelope]. split_and!; try done; cbn; lia.
Qed.

Lemma varint_encode_short v : in_u 64 v -> zlen (varint_encode 9 v) <= 10.
Proof.
  intros Hv. rewrite <- VarintSize64_spec by done. unfold VarintSize64. repeat case_match; lia.
Qed.

Lemma envelope_wire id meth par :
  in_s 32 id -> size_ok meth par ->
  SerializeWithCachedSizesToArray (envelope id meth par) = 8 :: known_wire id meth par /\
  zlen (8 :: known_wire id meth par) <= zlen meth + zlen par + 40 /\
  bytes_ok (8 :: known_wire id meth par).
Proof.
  intros Hid Hs. pose proof (envelope_ok id meth par Hid Hs) as Hc.
  pose proof (message_wire _ Hc eq_refl eq_refl eq_refl) as Hw.
  change (SerializeUnknownFieldsToArray _) with (@nil Z) in Hw. rewrite app_nil_r in Hw. split; [exact Hw|].
  destruct Hs as (Hm & Hp & Hl). rewrite limit_value in Hl.
  pose proof (zlen_nonneg meth). pose proof (zlen_nonneg par).
  assert (H1 : in_u 64 (u64 id)) by (apply uwrap_range; lia).
  assert (H2 : in_u 64 (zlen meth)) by (unfold in_u; lia).
  assert (H3 : in_u 64 (zlen par)) by (unfold in_u; lia).
  assert (byte_ok 8 /\ byte_ok 18 /\ byte_ok 26) as (H8 & H18 & H26) by (split_and!; decide_closed).
  unfold known_wire. split.
  - pose proof (varint_encode_short _ H1). pose proof (varint_encode_short _ H2). pose proof (varint_encode_short _ H3).
    repeat (rewrite zlen_cons || rewrite zlen_app). lia.
  - rewrite Forall_cons, !Forall_app, Forall_cons, !Forall_app, Forall_cons, Forall_app.
    split_and!; auto using varint64_ok.
Qed.

(** The frame of an envelope and what its receiver makes of it. *)
Lemma rpc_frame_roundtrip id meth par :
  in_s 32 id -> size_ok meth par ->
  exists msg, rpc_frame (envelope id meth par) = Some msg /\ message_ok msg /\
    getMessageStr msg = Some (8 :: known_wire id meth par) /\
    let rpc := ParseFromString (8 :: known_wire id meth par) SharedCtor in
    rpc.1 = true /\ rpc_id rpc.2 = id /\ method rpc.2 = meth /\ params rpc.2 = par.
Proof.
  intros Hid Hs. destruct (envelope_wire id meth par Hid Hs) as (Hw & Hlen & Hok).
  pose proof Hs as (Hm & Hp & Hl). rewrite limit_value in Hl.
  pose proof (zlen_nonneg meth). pose proof (zlen_nonneg par).
  set (data := 8 :: known_wire id meth par) in *.
  assert (Hmsg : message_ok (Message_new RPCMessage data))
    by (apply Message_new_ok; [done|pose proof (zlen_nonneg data); unfold MessageHeaderLength; lia]).
  exists (Message_new RPCMessage data). split_and!; [|done|by apply message_ok_str|].
  - unfold rpc_frame, SerializeAsString.
    pose proof (ByteSize_spec (envelope id meth par) ltac:(done) (envelope_ok id meth par Hid Hs)) as HB.
    rewrite Hw in HB. destruct (ByteSize (envelope id meth par)) as [n m1] eqn:EB. cbn in HB. subst n.
    replace (SerializeWithCachedSizesToArray m1) with data
      by (unfold ByteSize in EB; injection EB as _ <-; by rewrite <- Hw). by rewrite Z.eqb_refl.
  - pose proof (parse_message id meth par [] SharedCtor) as HP.
    change (SerializeUnknownFieldsToArray []) with (@nil Z) in HP. rewrite app_nil_r in HP. fold data in HP.
    rewrite HP; try done; rewrite ?limit_value; lia.
Qed.

(** ** The three steps of a call, over any channel that keeps its laws *)
Section spec.
Context {C E : Type} `{CS : ChannelSpec C E}.

(** The handler executions among the effects of the server. *)
Definition exec_log (effs : list (server_effect E)) : list (list Z * list Z) :=
  List.flat_map (fun e => match e with SExec m p => [(m, p)] | _ => [] end) effs.

Lemma exec_log_session (effs : list E) : exec_log (SSession <$> effs) = [].
Proof. by induction effs. Qed.

Lemma call_cb_spec (c : RpcClient C) (s : C) meth par cb msg :
  _session c = Some s -> ch_ok s ->
  rpc_frame (envelope (next_id c) meth par) = Some msg -> message_ok msg -> ch_accepts msg s = true ->
  let r := callRpcMethod_cb meth par cb c in
  sw_value r = true /\ _methodId (sw_state r) = next_id c /\
  _cbs (sw_state r) = <[next_id c := RpcCallback_new cb]> (_cbs c) /\
  exists s', _session (sw_state r) = Some s' /\ ch_ok s' /\ ch_queue s' = ch_queue s ++ wire msg.
Proof.
  intros Es Hok Hf Hm Hacc. unfold callRpcMethod_cb, send_request. rewrite Es, Hf.
  rewrite (ch_accepts_isOk msg s Hacc). cbn [negb]. sw_unfold. unfold locked. cbn. rewrite Es.
  pose proof (ch_write_spec msg s Hok Hm) as (H1 & H2 & H3). rewrite Hacc in H2. specialize (H3 Hacc).
  destruct (ch_writeMessage msg s) as [[s' effs] b]. cbn in *. split_and!; try done. eauto.
Qed.

Lemma server_receive_spec (handlers : Handlers) (h : RpcHandler) (meth par result : bytes) id (srv : C) req rsp :
  handlers !! meth = Some h -> h par = Some result -> ch_ok srv ->
  getMessageStr req = Some (8 :: known_wire id meth par) ->
  let rpc := (ParseFromString (8 :: known_wire id meth par) SharedCtor).2 in
  rpc_id rpc = id /\ method rpc = meth /\ params rpc = par ->
  rpc_frame (envelope id meth result) = Some rsp -> message_ok rsp ->
  let r := serverReceiveMessage handlers req srv in
  exec_log (sw_effects r) = [(meth, par)] /\ ch_ok (sw_state r) /\
  ch_queue (sw_state r) = ch_queue srv ++ (if ch_accepts rsp srv then wire rsp else []).
Proof.
  intros Hh Hr Hok Hstr rpc (E1 & E2 & E3) Hrsp Hm. unfold serverReceiveMessage. rewrite Hstr.
  assert (Hex : execRpcHandler handlers meth par = Some result) by (unfold execRpcHandler; by rewrite Hh).
  fold rpc. rewrite E1, E2, E3, Hh, Hex. unfold response. rewrite Hrsp.
  sw_unfold. unfold on_session. pose proof (ch_write_spec rsp srv Hok Hm) as (H1 & H2 & _).
  destruct (ch_writeMessage rsp srv) as [[s' effs] b]. cbn in *. rewrite app_nil_r.
  split_and!; [|done|done]. by rewrite exec_log_session.
Qed.

Lemma client_receive_spec (c : RpcClient C) id meth result cb rsp :
  getMessageStr rsp = Some (8 :: known_wire id meth result) ->
  let rpc := (ParseFromString (8 :: known_wire id meth result) SharedCtor).2 in
  rpc_id rpc = id /\ method rpc = meth /\ params rpc = result ->
  _cbs c !! id = Some cb ->
  let r := clientReceiveMessage (E := E) rsp c in
  sw_state r = set_cbs (delete id (_cbs c)) c /\ callbacks (sw_effects r) = [(id, _cb cb, result)].
Proof.
  intros Hstr rpc (E1 & _ & E3) Hcb. unfold clientReceiveMessage. rewrite Hstr. fold rpc.
  rewrite E1, E3, Hcb. sw_unfold. by destruct (_checkDead cb).
Qed.

(** ** Pending callbacks *)

(** [regs] are the calls that registered a callback so far, [fired] the
    callbacks invoked so far. *)
Definition pending_inv (c : RpcClient C) (regs : list (Z * Z)) (fired : list (Z * Z * list Z)) : Prop :=
  0 <= _methodId c /\
  (forall i cb, (i, cb) ∈ regs -> 0 < i <= _methodId c) /\ NoDup regs.*1 /\
  NoDup fired.*1.*1 /\ (forall i cb r, (i, cb, r) ∈ fired -> (i, cb) ∈ regs) /\
  (forall i cb, _cbs c !! i = Some cb -> (i, _cb cb) ∈ regs /\ i ∉ fired.*1.*1).

Lemma callbacks_app (e1 e2 : list (client_effect E)) : callbacks (e1 ++ e2) = callbacks e1 ++ callbacks e2.
Proof. apply List.flat_map_app. Qed.

Lemma callbacks_session (effs : list E) : callbacks (CSession <$> effs) = [].
Proof. by induction effs. Qed.

(** Steps that touch neither the ids nor the pending callbacks. *)
Definition idle (c : RpcClient C) (c' : RpcClient C) (effs : list (client_effect E)) : Prop :=
  _methodId c' = _methodId c /\ _cbs c' = _cbs c /\ callbacks effs = [].

Lemma idle_inv c c' effs regs fired :
  idle c c' effs -> pending_inv c regs fired -> pending_inv c' regs (fired ++ callbacks effs).
Proof. intros (H1 & H2 & H3). unfold pending_inv. by rewrite H1, H2, H3, app_nil_r. Qed.

Lemma locked_idle {A} (d : A) (op : SW C E A) c :
  idle c (sw_state (locked d op c)) (sw_effects (locked d op c)).
Proof.
  unfold locked. destruct (_session c) as [s|]; [|done]. destruct (op s) as [[s' effs] a].
  split_and!; [done|done|]. apply callbacks_session.
Qed.

Lemma send_request_idle id meth par c :
  idle c (sw_state (send_request id meth par c)) (sw_effects (send_request id meth par c)).
Proof. unfold send_request. destruct (rpc_frame _); [apply locked_idle|done]. Qed.

Lemma idle_trans c1 c2 c3 e1 e2 : idle c1 c2 e1 -> idle c2 c3 e2 -> idle c1 c3 (e1 ++ e2).
Proof. intros (H1 & H2 & H3) (G1 & G2 & G3). unfold idle. by rewrite callbacks_app, H3, G3, G1, G2. Qed.

(** A call gets a fresh id, with its callback or none registered under it. *)
Lemma fresh_call_inv c (c' : RpcClient C) regs fired o :
  pending_inv c regs fired -> _methodId c + 1 < 2 ^ 31 ->
  _methodId c' = next_id c ->
  _cbs c' = match o with Some cb => <[next_id c := cb]> (_cbs c) | None => _cbs c end ->
  pending_inv c' (regs ++ match o with Some cb => [(next_id c, _cb cb)] | None => [] end) fired.
Proof.
  intros (H0 & Hr & Hnd & Hfd & Hf & Hc) Hmax Hid Hcbs.
  assert (En : next_id c = _methodId c + 1) by (apply swrap_id; [lia|unfold in_s; lia]).
  unfold pending_inv. rewrite Hid, Hcbs, En. destruct o as [cb|]; [|rewrite app_nil_r].
  2: { split_and!; try done; [lia|]. intros i cb Hi%Hr. lia. }
  assert (Hnew : _methodId c + 1 ∉ regs.*1).
  { intros ([i cb'] & Ei & Hi)%list_elem_of_fmap. apply Hr in Hi. cbn in Ei. lia. }
  split_and!; try done; [lia| | | |].
  - intros i cb' Hi. apply elem_of_app in Hi as [Hi%Hr|Hi%list_elem_of_singleton]; [lia|]. simplify_eq. lia.
  - rewrite fmap_app. apply NoDup_app. split_and!; [done| |apply NoDup_singleton].
    intros i Hi ->%list_elem_of_singleton. done.
  - intros i cb' r Hi%Hf. apply elem_of_app. by left.
  - intros i cb'. destruct (decide (i = _methodId c + 1)) as [->|Hne].
    + rewrite lookup_insert_eq. intros [= <-]. split; [apply elem_of_app; right; by apply list_elem_of_singleton|].
      intros ([i cb'] & Ei & Hi)%list_elem_of_fmap. cbn in Ei. apply list_elem_of_fmap in Hi as ([[i' cb''] r'] & Ex & Hx).
      simplify_eq/=. apply Hf in Hx. apply Hr in Hx. lia.
    + rewrite lookup_insert_ne by done. intros [H1 H2]%Hc. split; [|done]. apply elem_of_app. by left.
Qed.

(** A response takes its callback out of the pending ones and invokes it. *)
Lemma receive_inv c msg regs fired :
  pending_inv c regs fired ->
  let r := clientReceiveMessage msg c in
  pending_inv (sw_state r) regs (fired ++ callbacks (sw_effects r : list (client_effect E))).
Proof.
  intros Hinv. unfold clientReceiveMessage. destruct (getMessageStr msg) as [m|]; [|by rewrite app_nil_r].
  set (rpc := (ParseFromString m SharedCtor).2).
  destruct (_cbs c !! rpc_id rpc) as [cb|] eqn:Ecb; [|by rewrite app_nil_r].
  set (r := sw_bind _ _ c).
  assert (Er : sw_state r = set_cbs (delete (rpc_id rpc) (_cbs c)) c /\
    callbacks (sw_effects r : list (client_effect E)) = [(rpc_id rpc, _cb cb, params rpc)])
    by (unfold r; sw_unfold; by destruct (_checkDead cb)).
  destruct Er as [-> ->]. destruct Hinv as (H0 & Hr & Hnd & Hfd & Hf & Hc).
  destruct (Hc _ _ Ecb) as [Hreg Hnot]. unfold pending_inv. cbn [_methodId _cbs set_cbs].
  split_and!; try done.
  - rewrite !fmap_app. apply NoDup_app. split_and!; [done| |apply NoDup_singleton].
    intros i Hi ->%list_elem_of_singleton. done.
  - intros i cb' r' [Hi|Hi%list_elem_of_singleton]%elem_of_app; [by apply (Hf _ _ r')|]. by simplify_eq.
  - intros i cb' [Hne Hl]%lookup_delete_Some. destruct (Hc _ _ Hl) as [H1 H2]. split; [done|].
    rewrite !fmap_app. intros [Hi|Hi%list_elem_of_singleton]%elem_of_app; [done|]. by cbn in Hi.
Qed.

Lemma timer_inv c err id dcb regs fired :
  pending_inv c regs fired ->
  let r := RpcDeadCallback err id dcb c in
  pending_inv (sw_state r) regs (fired ++ callbacks (sw_effects r : list (client_effect E))).
Proof.
  intros Hinv. unfold RpcDeadCallback. destruct (negb _); [by rewrite app_nil_r|].
  cbn. rewrite app_nil_r. destruct Hinv as (H0 & Hr & Hnd & Hfd & Hf & Hc).
  split_and!; try done. cbn. intros i cb [_ Hl]%lookup_delete_Some. by apply Hc.
Qed.

(** The three call variants. *)
Lemma call_inv c op regs fired :
  match op with OCall _ _ | OCallCb _ _ _ | OCallTimed _ _ _ _ _ => True | _ => False end ->
  pending_inv c regs fired -> _methodId c + 1 < 2 ^ 31 ->
  let '(c', effs, new) := client_step op c in
  pending_inv c' (regs ++ new) (fired ++ callbacks (effs : list (client_effect E))) /\ _methodId c' <= _methodId c + 1.
Proof.
  intros Hop Hinv Hmax.
  assert (En : next_id c = _methodId c + 1)
    by (destruct Hinv as [? _]; apply swrap_id; [lia|unfold in_s; lia]).
  assert (Hidle : forall c1 o effs id meth par,
    _methodId c1 = next_id c -> callbacks effs = [] ->
    _cbs c1 = match o with Some cb => <[next_id c := cb]> (_cbs c) | None => _cbs c end ->
    let r := send_request id meth par c1 in
    pending_inv (sw_state r) (regs ++ match o with Some cb => [(next_id c, _cb cb)] | None => [] end)
      (fired ++ callbacks ((effs ++ sw_effects r) : list (client_effect E))) /\
    _methodId (sw_state r) <= _methodId c + 1).
  { intros c1 o effs id meth par H1 He H2 r. pose proof (send_request_idle id meth par c1) as Hi. fold r in Hi.
    split.
    - rewrite callbacks_app, He. apply (idle_inv c1); [done|]. by apply (fresh_call_inv c).
    - destruct Hi as (-> & _). lia. }
  destruct op; try done; cbn [client_step]; unfold ready, callRpcMethod, callRpcMethod_cb, callRpcMethod_timed;
    destruct (_session c) as [s|] eqn:Es; try (destruct (ch_isOk s) eqn:Eok); cbn [negb];
    try (split; [by rewrite !app_nil_r|cbn; lia]).
  - set (c1 := set_methodId (next_id c) c).
    specialize (Hidle c1 None [] (next_id c) meth par eq_refl eq_refl eq_refl).
    sw_unfold. fold c1. by destruct (send_request (next_id c) meth par c1) as [[c2 e2] b2].
  - set (c1 := set_cbs (<[next_id c := RpcCallback_new cb]> (_cbs c)) (set_methodId (next_id c) c)).
    specialize (Hidle c1 (Some (RpcCallback_new cb)) [] (next_id c) meth par eq_refl eq_refl eq_refl).
    sw_unfold. cbn [_methodId _cbs set_methodId]. fold c1.
    by destruct (send_request (next_id c) meth par c1) as [[c2 e2] b2].
  - set (c1 := set_cbs (<[next_id c := RpcCallback_timed cb dcb]> (_cbs c)) (set_methodId (next_id c) c)).
    specialize (Hidle c1 (Some (RpcCallback_timed cb dcb)) [CTimerStart (next_id c) dt dcb] (next_id c) meth par
      eq_refl eq_refl eq_refl).
    sw_unfold. cbn [_methodId _cbs set_methodId]. fold c1.
    by destruct (send_request (next_id c) meth par c1) as [[c2 e2] b2].
Qed.

Lemma client_step_inv op c regs fired :
  pending_inv c regs fired -> _methodId c + 1 < 2 ^ 31 ->
  let '(c', effs, new) := client_step op c in
  pending_inv c' (regs ++ new) (fired ++ callbacks (effs : list (client_effect E))) /\ _methodId c' <= _methodId c + 1.
Proof.
  intros Hinv Hmax.
  assert (Hl : forall (c' : RpcClient C) (effs : list (client_effect E)), idle c c' effs ->
    pending_inv c' (regs ++ []) (fired ++ callbacks effs) /\ _methodId c' <= _methodId c + 1).
  { intros c' effs Hi. rewrite app_nil_r. split; [by apply (idle_inv c)|]. destruct Hi as (-> & _). lia. }
  destruct op; try (by apply (call_inv c)); cbn [client_step].
  - rewrite app_nil_r. split; [by apply receive_inv|]. unfold clientReceiveMessage.
    destruct (getMessageStr msg); [|cbn; lia]. destruct (_cbs c !! _) as [cb|]; [|cbn; lia].
    sw_unfold. destruct (_checkDead cb); cbn; lia.
  - rewrite app_nil_r. split; [by apply timer_inv|]. unfold RpcDeadCallback. destruct (negb _); cbn; lia.
  - apply Hl, locked_idle.
  - apply Hl, locked_idle.
  - apply Hl. unfold clientReadError, sw_bind.
    pose proof (locked_idle tt ch_resetReadBuffer c) as H1.
    destruct (locked tt ch_resetReadBuffer c) as [[c1 e1] u1].
    pose proof (locked_idle tt (ch_reconnect env) c1) as H2.
    destruct (locked tt (ch_reconnect env) c1) as [[c2 e2] u2]. by apply (idle_trans _ c1).
  - by apply (Hl (set_session None c) []).
Qed.

Lemma client_run_inv ops c regs fired :
  pending_inv c regs fired -> _methodId c + Z.of_nat (length ops) < 2 ^ 31 ->
  let '(c', effs, new) := client_run ops c in
  pending_inv c' (regs ++ new) (fired ++ callbacks (effs : list (client_effect E))).
Proof.
  revert c regs fired. induction ops as [|op ops IH]; intros c regs fired Hinv Hmax; [cbn; by rewrite !app_nil_r|].
  cbn [client_run length] in *. pose proof (client_step_inv op c regs fired Hinv) as Hs.
  destruct (client_step op c) as [[c1 e1] r1]. destruct Hs as [Hs1 Hs2]; [lia|].
  specialize (IH c1 _ _ Hs1). destruct (client_run ops c1) as [[c2 e2] r2].
  rewrite callbacks_app, !app_assoc. apply IH. lia.
Qed.
End spec.

(** * Properties *)

(** C1. A remote call, end to end over any two channels that keep their laws:
    the client's request and the server's response frame are well formed; when
    the client's channel accepts the request, [callRpcMethod] returns true,
    queues exactly that frame and remembers the callback under the fresh id; the
    server that receives the frame executes the registered handler once, on
    exactly the parameters of the call, and answers with the response frame; and
    the client that receives the response invokes that callback, once, with the
    handler's result, and forgets it. *)
Theorem rpc_call_end_to_end {C E C' E' : Type} `{CS : ChannelSpec C E} `{CS' : ChannelSpec C' E'}
    (handlers : Handlers) (h : RpcHandler) (meth par result : bytes) (cb : Z)
    (c : RpcClient C) (s : C) (srv : C') :
  handlers !! meth = Some h -> h par = Some result ->
  size_ok meth par -> size_ok meth result -> in_s 32 (_methodId c + 1) ->
  _session c = Some s -> ch_ok s -> ch_ok srv ->
  exists req rsp, message_ok req /\ message_ok rsp /\
  (ch_accepts req s = true ->
   let r := callRpcMethod_cb meth par cb c in
   sw_value r = true /\ _cbs (sw_state r) !! (_methodId c + 1) = Some (RpcCallback_new cb) /\
   exists s', _session (sw_state r) = Some s' /\ ch_queue s' = ch_queue s ++ wire req) /\
  (let r := serverReceiveMessage handlers req srv in
   exec_log (sw_effects r) = [(meth, par)] /\
   ch_queue (sw_state r) = ch_queue srv ++ (if ch_accepts rsp srv then wire rsp else [])) /\
  (forall c' cb', _cbs c' !! (_methodId c + 1) = Some cb' ->
   let r := clientReceiveMessage (C := C) (E := E) rsp c' in
   _cbs (sw_state r) = delete (_methodId c + 1) (_cbs c') /\
   callbacks (sw_effects r) = [(_methodId c + 1, _cb cb', result)]).
Proof.
  intros Hh Hr Hs1 Hs2 Hid Es Hok Hsrv.
  assert (En : next_id c = _methodId c + 1) by by apply swrap_id.
  destruct (rpc_frame_roundtrip _ meth par Hid Hs1) as (req & Freq & Mreq & Sreq & _ & Preq).
  destruct (rpc_frame_roundtrip _ meth result Hid Hs2) as (rsp & Frsp & Mrsp & Srsp & _ & Prsp).
  exists req, rsp. split_and!; [done|done| | |].
  - intros Hacc. cbv zeta. rewrite <- En in Freq.
    destruct (call_cb_spec c s meth par cb req Es Hok Freq Mreq Hacc) as (H1 & _ & H3 & s' & H4 & _ & H6).
    rewrite H3, En, lookup_insert_eq. eauto.
  - destruct (server_receive_spec handlers h meth par result _ srv req rsp Hh Hr Hsrv Sreq Preq Frsp Mrsp)
      as (H1 & _ & H3). done.
  - intros c' cb' Hcb. cbv zeta. destruct (client_receive_spec (E := E) c' _ meth result cb' rsp Srsp Prsp Hcb) as [-> H2]. done.
Qed.

(** Witness of C1: TCP sessions of 256 bytes on both sides and an echo
    handler. *)
Lemma rpc_call_end_to_end_witness :
  let s := set_socket_open true (set_status Connected (TcpSession_new (replicate 256 0) (replicate 256 0) 0)) in
  exists req rsp : Message, message_ok req /\ message_ok rsp.
Proof.
  destruct (rpc_call_end_to_end (<[[101] := (fun p => Some p) : RpcHandler]> (∅ : Handlers)) (fun p => Some p)
    [101] [1; 2] [1; 2] 7
    (mkRpcClient (Some (set_socket_open true (set_status Connected
      (TcpSession_new (replicate 256 0) (replicate 256 0) 0)))) 0 ∅)
    (set_socket_open true (set_status Connected (TcpSession_new (replicate 256 0) (replicate 256 0) 0)))
    (set_socket_open true (set_status Connected (TcpSession_new (replicate 256 0) (replicate 256 0) 0))))
    as (req & rsp & H1 & H2 & _);
    [reflexivity|reflexivity|decide_closed|decide_closed|decide_closed|reflexivity|decide_closed|decide_closed|].
  exists req, rsp. exact (conj H1 H2).
Defined.

(** C5. Responses are matched to calls: over any history of a new client
    (calls, responses in any order, duplicated and forged ones, timeouts,
    reconnections) of fewer than 2^31 events, no callback is invoked twice for
    one call, every invocation is of the callback that the call with that id
    registered, and no two calls share an id. *)
Theorem rpc_callbacks_at_most_once {C E : Type} `{CS : ChannelSpec C E} (ops : list client_op) (s : option C) :
  Z.of_nat (length ops) < 2 ^ 31 ->
  let '(c, effs, calls) := client_run ops (mkRpcClient s 0 ∅) in
  NoDup (callbacks (effs : list (client_effect E))).*1.*1 /\ NoDup calls.*1 /\
  (forall id cb response, (id, cb, response) ∈ callbacks effs -> (id, cb) ∈ calls).
Proof.
  intros Hlen. pose proof (client_run_inv ops (mkRpcClient s 0 ∅) [] []) as H.
  destruct (client_run ops _) as [[c effs] calls].
  assert (H0 : pending_inv (mkRpcClient s 0 ∅) [] []).
  { split_and!; cbn; try done; try apply NoDup_nil_2; try lia; intros; set_solver. }
  destruct (H H0) as (_ & _ & H1 & H2 & H3 & _); [cbn; lia|]. done.
Qed.

(** Witness of C5: a client that is not connected. *)
Lemma rpc_callbacks_at_most_once_witness :
  NoDup (callbacks (client_run (E := effect) [OCallCb [1] [] 5; OTimer 0 1 3]
    (mkRpcClient (None : option TcpSession) 0 ∅)).1.2).*1.*1.
Proof.
  apply (rpc_callbacks_at_most_once [OCallCb [1] [] 5; OTimer 0 1 3] (None : option TcpSession)). reflexivity.
Defined.



(** A call that fails because the write buffer is full leaves its callback
    registered although [callRpcMethod] returns false: it stays there until a
    response with its id arrives. *)
Theorem failed_call_keeps_callback (c : RpcClient TcpSession) (s : TcpSession) (meth par : bytes) (cb : Z) :
  _session c = Some s -> session_ok s -> isOk s = true -> size_ok meth par -> in_s 32 (_methodId c + 1) ->
  _writeBufferSize s < _writeBufferOffest s + 14 + zlen meth + zlen par ->
  let r := callRpcMethod_cb meth par cb c in
  sw_value r = false /\ _cbs (sw_state r) !! (_methodId c + 1) = Some (RpcCallback_new cb).
Proof.
  intros Es Hok Hc Hsz Hid Hfull. assert (En : next_id c = _methodId c + 1) by by apply swrap_id.
  destruct (rpc_frame_roundtrip _ meth par Hid Hsz) as (req & Freq & Mreq & Sreq & _).
  unfold callRpcMethod_cb, send_request. cbn [ch_isOk tcp_channel]. rewrite Es, En, Freq, Hc. cbn [negb]. sw_unfold.
  unfold locked. cbn. rewrite Es.
  destruct (writeMessage_spec req s Hok Mreq) as (Hv & _).
  rewrite (proj2 (Z.leb_gt _ _)), andb_false_r in Hv.
  - destruct (writeMessage req s) as [[s' effs] b]. cbn in *. subst b. by rewrite lookup_insert_eq.
  - pose proof (message_ok_str req Mreq) as Hstr. rewrite Sreq in Hstr. injection Hstr as Hd.
    destruct Mreq as (_ & _ & ->). rewrite <- Hd. unfold known_wire, MessageHeaderLength.
    repeat (rewrite zlen_cons || rewrite zlen_app).
    pose proof (zlen_nonneg (varint_encode 9 (uwrap 64 (_methodId c + 1)))).
    pose proof (zlen_nonneg (varint_encode 9 (zlen meth))). pose proof (zlen_nonneg (varint_encode 9 (zlen par))). lia.
Qed.

(** An instance of [failed_call_keeps_callback]: a 16-byte write buffer. *)
Lemma failed_call_keeps_callback_witness :
  sw_value (callRpcMethod_cb [1; 2] [3] 9 (mkRpcClient (Some (set_status Connected
    (TcpSession_new (replicate 16 0) (replicate 16 0) 0))) 0 ∅)) = false.
Proof.
  apply (failed_call_keeps_callback (mkRpcClient (Some (set_status Connected
    (TcpSession_new (replicate 16 0) (replicate 16 0) 0))) 0 ∅)
    (set_status Connected (TcpSession_new (replicate 16 0) (replicate 16 0) 0)) [1; 2] [3] 9);
    first [reflexivity | decide_closed].
Defined.

(** [RpcClient::create] passes its last two arguments in the wrong order:
    the buffers of the session get the size of the reconnect interval, and the
    interval the buffer size. *)
Theorem create_swaps_arguments (alloc : Z -> bytes) (ip port : string) (buffSize reconnect : Z) (env : connect_env) :
  (forall n, 0 <= n -> zlen (alloc n) = n) -> 0 <= reconnect ->
  forall s, _session (RpcClient_create alloc ip port buffSize reconnect env).1 = Some s ->
  _writeBufferSize s = reconnect /\ _reconnectInterval s = buffSize.
Proof.
  intros Ha Hrec s. unfold RpcClient_create, RpcClient_new.
  pose proof (connect_quiet ip port env (TcpSession_new (alloc reconnect) (alloc reconnect) buffSize)) as [(_ & H2 & _) _].
  assert (H3 : _reconnectInterval (sw_state (connect ip port env
    (TcpSession_new (alloc reconnect) (alloc reconnect) buffSize))) = buffSize).
  { unfold connect, onConnect, handleConnect. sw_unfold. cbn. by destruct env as [[] [] [] []]. }
  destruct (connect ip port env _) as [[s' effs] u]. cbn in *. intros [= <-]. by rewrite H2, Ha.
Qed.

(** An instance of [create_swaps_arguments]: a client created with a buffer of 4096 bytes. *)
Lemma create_swaps_arguments_witness :
  forall s, _session (RpcClient_create (fun n => replicate (Z.to_nat n) 0) "h" "1" 4096 5
    (mkConnectEnv true true true 0)).1 = Some s -> _writeBufferSize s = 5 /\ _reconnectInterval s = 4096.
Proof.
  apply (create_swaps_arguments (fun n => replicate (Z.to_nat n) 0) "h" "1" 4096 5 (mkConnectEnv true true true 0));
    [|lia].
  intros n Hn. unfold zlen. rewrite length_replicate. lia.
Defined.
