(* ===== verification/IpmRpc.v ===== *)
(** Remote calls between processes of one machine in the older engine, over the
    message queues of boost::interprocess: backup/source/rpc/JME_IPM_Rpc.cpp (the
    call) and JME_IPM_RpcClient.cpp (the client). What the queues answer is an
    argument, what is sent to them is an effect. The outer [None] is an access outside
    of a block of memory. *)
From stdpp Require Import gmap.
From S2P Require Import Prelude.
Local Open Scope Z_scope.

Definition MaxRPCMethodLen : Z := 30.
(** [sizeof(method)] of a pointer. *)
Definition sizeof_method : nat := 8.

(** The call as it is put into the queue: [_methodId], [_method], [_len]. *)
Record JME_IPM_RPC : Set := mkIpm { _methodId : Z; _method : list Z; _len : Z }.

(** The messages sent: the parameters to the queue of the call (which takes one
    message of at most [size] bytes), and the call itself. *)
Inductive IpmEffect : Set :=
| send_params (id : Z) (size : Z) (data : list Z)
| send_call (call : JME_IPM_RPC).

(** What the queues answer: whether the queue of the call can be created, and whether
    the queue of the server can be opened. *)
Record Queues : Set := mkQueues { q_create : bool; q_open : bool }.

(** The constructor; [garbage] is what [_method] holds before the copy, [method] the
    memory at the pointer. The answer is what was sent, and whether the constructor
    returned (or threw an exception). A message queue refuses a message longer than
    its maximum. *)
Definition IPM_RPC_new (q : Queues) (garbage method : bytes) (id : Z) (param : bytes) : option (bool * list IpmEffect) :=
  if (length method <? sizeof_method)%nat then None
  else
    let call := mkIpm id (take sizeof_method method ++ drop sizeof_method garbage) (zlen param) in
    if negb (q_create q) then Some (false, [])
    else if negb (q_open q) then Some (false, [])
    else if zlen param <? Z.of_nat sizeof_method then Some (false, [])
    else Some (true, [send_params id (zlen param) (take sizeof_method param); send_call call]).

Section Client.
Context {Cb Dead : Type}.

(** A callback, with the handler of its timeout when it has one. *)
Record JME_IPM_RPCCallback : Type := mkCb { _cb : Cb; _dcb : option Dead }.
Record JME_IPM_RPCClient : Type := mkClient { _mid : Z; _cbs : gmap Z JME_IPM_RPCCallback }.
Definition IPM_RPCClient_new : JME_IPM_RPCClient := mkClient 0 ∅.

(** [callRpcMethod], both variants: the value returned, the client and what was
    sent. The id is a [size_t], the key of the map an [int]. *)
Definition ipm_callRpcMethod (q : Queues) (garbage method param : bytes) (cb : JME_IPM_RPCCallback) (c : JME_IPM_RPCClient)
    : option (bool * JME_IPM_RPCClient * list IpmEffect) :=
  let mid := uwrap 64 (_mid c + 1) in
  '(ok, e) ← IPM_RPC_new q garbage method (i32 mid) param;
  Some (false, mkClient mid (if (ok : bool) then <[i32 mid := cb]> (_cbs c) else _cbs c), e).

(** [RpcDeadCallback], with [removeDeadRPC]: the handler that runs. *)
Definition ipm_RpcDeadCallback (err : bool) (methodId : Z) (dcb : Dead) (c : JME_IPM_RPCClient) : JME_IPM_RPCClient * list Dead :=
  if err then (c, []) else (mkClient (_mid c) (delete methodId (_cbs c)), [dcb]).

(** A call between processes loses what it carries: of the method and of the
    parameters the eight bytes of a pointer arrive, whatever their length; parameters
    shorter than that are refused by the queue and nothing is sent. In every case
    [callRpcMethod] reports failure, and only a call that was sent leaves a
    callback. *)
Theorem ipm_call_truncates (q : Queues) (garbage method param : bytes) (cb : JME_IPM_RPCCallback) (c : JME_IPM_RPCClient) :
  (8 <= length method)%nat -> q_create q = true -> q_open q = true ->
  let id := i32 (uwrap 64 (_mid c + 1)) in
  exists c' e, ipm_callRpcMethod q garbage method param cb c = Some (false, c', e) /\
    (zlen param < 8 -> e = [] /\ _cbs c' = _cbs c) /\
    (8 <= zlen param -> _cbs c' !! id = Some cb /\
       e = [send_params id (zlen param) (take 8 param); send_call (mkIpm id (take 8 method ++ drop 8 garbage) (zlen param))]).
Proof.
  intros Hm Hq1 Hq2 id. unfold ipm_callRpcMethod, IPM_RPC_new. rewrite Hq1, Hq2. cbn [negb]. unfold sizeof_method.
  destruct (Nat.ltb_spec (length method) 8); [lia|]. change (Z.of_nat 8) with 8. fold id.
  destruct (Z.ltb_spec (zlen param) 8); cbn [mbind option_bind]; eexists _, _; (split; [done|]); (split; [|intros; try lia]).
  - intros _. done.
  - lia.
  - cbn [_cbs]. by rewrite lookup_insert_eq.
Qed.

(** A name shorter than a pointer is read past its end. *)
Lemma ipm_short_method q garbage method param cb c : (length method < 8)%nat -> ipm_callRpcMethod q garbage method param cb c = None.
Proof.
  intros Hm. unfold ipm_callRpcMethod, IPM_RPC_new, sizeof_method. destruct (Nat.ltb_spec (length method) 8); [done|lia].
Qed.
End Client.

(** An instance of [ipm_call_truncates]: a call of "transferGold" with ten bytes of parameters. *)
Lemma ipm_call_truncates_witness :
  exists c' e, ipm_callRpcMethod (mkQueues true true) (replicate 30 204) [116; 114; 97; 110; 115; 102; 101; 114; 71; 111; 108; 100; 0]
      [8; 1; 18; 6; 97; 108; 105; 99; 101; 49] (mkCb 1 (None : option Z)) IPM_RPCClient_new = Some (false, c', e) /\
    e = [send_params 1 10 [8; 1; 18; 6; 97; 108; 105; 99]; send_call (mkIpm 1 ([116; 114; 97; 110; 115; 102; 101; 114] ++ replicate 22 204) 10)].
Proof.
  destruct (ipm_call_truncates (mkQueues true true) (replicate 30 204) [116; 114; 97; 110; 115; 102; 101; 114; 71; 111; 108; 100; 0]
      [8; 1; 18; 6; 97; 108; 105; 99; 101; 49] (mkCb 1 (None : option Z)) IPM_RPCClient_new) as (c' & e & E & _ & H); [cbn; lia|done|done|].
  exists c', e. split; [done|]. apply H. cbn. unfold zlen. cbn. lia.
Defined.
