(* ===== verification/DBPool.v ===== *)
(** The connection pool of include/db/JME_DBPool.h: the template classes
    [DBPool] and [DBHelper] and the delegator interface between them.

    A connection object is named by the number under which it was allocated;
    [heap] are the objects allocated and not deleted.  Whether the user's
    connect handler succeeds on an object is the parameter [connects].  The
    queue operations of the pool are one critical section each; creating a
    connection outside the lock touches only the new object. *)
From S2P Require Import Prelude.
Local Open Scope Z_scope.

(** [DBException]: the messages thrown. *)
Inductive DBException : Set := PoolIsNull | GetConnectorFailed.

(** [DBConnDelegator]: what a helper asks of its pool. *)
Class DBConnDelegator (P : Type) := {
  getConn : P -> option Z * P;
  releaseConn : Z -> P -> P
}.

(** [class DBPool]. *)
Record DBPool : Set := mkDBPool {
  _connPool : list Z;
  next_object : Z;
  heap : gset Z
}.

(** [new T] and [delete]. *)
Definition new_conn (p : DBPool) : Z * DBPool :=
  (next_object p, mkDBPool (_connPool p) (next_object p + 1) ({[next_object p]} ∪ heap p)).
Definition delete_conn (c : Z) (p : DBPool) : DBPool :=
  mkDBPool (_connPool p) (next_object p) (heap p ∖ {[c]}).
Definition set_connPool (l : list Z) (p : DBPool) : DBPool := mkDBPool l (next_object p) (heap p).

Section pool.
Variable connects : Z -> bool.

(** The loop of [init]: a connection whose handler fails is not put in the pool
    and not deleted. *)
Fixpoint init_loop (n : nat) (p : DBPool) : DBPool :=
  match n with
  | O => p
  | S n =>
      let '(conn, p) := new_conn p in
      init_loop n (if connects conn then set_connPool (_connPool p ++ [conn]) p else p)
  end.

(** [init], hence the constructor: [None] is the abort on an empty pool. *)
Definition init (n : Z) : option DBPool :=
  if n =? 0 then None else Some (init_loop (Z.to_nat n) (mkDBPool [] 0 ∅)).

(** [getConn]. *)
Definition DBPool_getConn (p : DBPool) : option Z * DBPool :=
  match _connPool p with
  | conn :: rest => (Some conn, set_connPool rest p)
  | [] =>
      let '(conn, p) := new_conn p in
      if negb (connects conn) then (None, delete_conn conn p) else (Some conn, p)
  end.

(** [releaseConn]. *)
Definition DBPool_releaseConn (conn : Z) (p : DBPool) : DBPool := set_connPool (_connPool p ++ [conn]) p.

(** [~DBPool]: delete what is in the pool. *)
Definition DBPool_destroy (p : DBPool) : DBPool := fold_right delete_conn p (_connPool p).

#[local] Instance pool_delegator : DBConnDelegator DBPool := {|
  getConn := DBPool_getConn;
  releaseConn := DBPool_releaseConn
|}.
End pool.

(** [class DBHelper]: its constructors, which throw, and its destructor. *)
Section helper.
Context {P : Type} {D : DBConnDelegator P}.

Record DBHelper : Set := mkDBHelper { _conn : Z }.

Definition DBHelper_new (delegator : option P) : (DBHelper + DBException) * option P :=
  match delegator with
  | None => (inr PoolIsNull, None)
  | Some p =>
      match getConn p with
      | (Some c, p) => (inl (mkDBHelper c), Some p)
      | (None, p) => (inr GetConnectorFailed, Some p)
      end
  end.

Definition DBHelper_destroy (h : DBHelper) (p : P) : P := releaseConn (_conn h) p.
End helper.

(** ** The pool and its helpers as a transition system *)
Record world : Type := mkWorld {
  pool : DBPool;
  helpers : gmap nat DBHelper
}.

Section system.
Variable connects : Z -> bool.
#[local] Existing Instance pool_delegator.

Inductive pool_step : world -> world -> Prop :=
| step_acquire w h d p' :
    helpers w !! h = None ->
    DBHelper_new (D := pool_delegator connects) (Some (pool w)) = (inl d, Some p') ->
    pool_step w (mkWorld p' (<[h := d]> (helpers w)))
| step_throw w e p' :
    DBHelper_new (D := pool_delegator connects) (Some (pool w)) = (inr e, Some p') ->
    pool_step w (mkWorld p' (helpers w))
| step_release w h d :
    helpers w !! h = Some d ->
    pool_step w (mkWorld (DBHelper_destroy (D := pool_delegator connects) d (pool w)) (delete h (helpers w))).

(** The connections a helper holds. *)
Definition held (w : world) (c : Z) : Prop := exists h d, helpers w !! h = Some d /\ _conn d = c.

Definition pool_inv (w : world) : Prop :=
  NoDup (_connPool (pool w)) /\
  (forall c, c ∈ _connPool (pool w) -> c ∈ heap (pool w) /\ connects c = true) /\
  (forall h d, helpers w !! h = Some d ->
     _conn d ∈ heap (pool w) /\ connects (_conn d) = true /\ _conn d ∉ _connPool (pool w)) /\
  (forall h1 h2 d1 d2, helpers w !! h1 = Some d1 -> helpers w !! h2 = Some d2 ->
     _conn d1 = _conn d2 -> h1 = h2) /\
  (forall c, c ∈ heap (pool w) -> c < next_object (pool w)) /\
  (forall c, c ∈ heap (pool w) -> connects c = true -> c ∈ _connPool (pool w) \/ held w c).

(** * Lemmas *)
Lemma held_insert w p' h d c :
  helpers w !! h = None -> held w c \/ c = _conn d -> held (mkWorld p' (<[h := d]> (helpers w))) c.
Proof.
  intros Hn [(h' & d' & Hh & <-)| ->].
  - exists h', d'. cbn. rewrite lookup_insert_ne by (intros ->; congruence). done.
  - exists h, d. cbn. by rewrite lookup_insert_eq.
Qed.

Lemma acquire_inv w h d p' :
  helpers w !! h = None -> pool_inv w ->
  DBHelper_new (D := pool_delegator connects) (Some (pool w)) = (inl d, Some p') ->
  pool_inv (mkWorld p' (<[h := d]> (helpers w))).
Proof.
  intros Hn (Hnd & Hp & Hh & Hinj & Hr & Hall). cbn. unfold DBPool_getConn.
  assert (Hnew : forall c, (forall h' d', helpers w !! h' = Some d' -> _conn d' <> c) -> d = mkDBHelper c ->
    forall h1 h2 d1 d2, <[h := d]> (helpers w) !! h1 = Some d1 -> <[h := d]> (helpers w) !! h2 = Some d2 ->
    _conn d1 = _conn d2 -> h1 = h2).
  { intros c Hc -> h1 h2 d1 d2. rewrite !lookup_insert_Some.
    intros [[<- <-]|[? E1]] [[<- <-]|[? E2]] E; [done| | |by eapply Hinj].
    - by destruct (Hc _ _ E2).
    - by destruct (Hc _ _ E1). }
  destruct (_connPool (pool w)) as [|c rest] eqn:Epool; cbn.
  - destruct (connects (next_object (pool w))) eqn:Ec; cbn; intros [= <- <-].
    assert (Hfresh : next_object (pool w) ∉ heap (pool w)) by (intros H%Hr; lia).
    assert (Hne : forall h' d', helpers w !! h' = Some d' -> _conn d' <> next_object (pool w)).
    { intros h' d' E%Hh Eq. rewrite Eq in E. tauto. }
    split_and!; cbn; try rewrite Epool.
    + apply NoDup_nil_2.
    + intros c Hc. by apply not_elem_of_nil in Hc.
    + intros h' d' [[_ <-]|[_ E]]%lookup_insert_Some; cbn; [set_solver|]. apply Hh in E. set_solver.
    + by apply (Hnew (next_object (pool w))).
    + intros c [Hc|Hc%Hr]%elem_of_union; [apply elem_of_singleton in Hc|]; lia.
    + intros c [Hc|Hc]%elem_of_union Hcc; right; apply held_insert; auto.
      * right. by apply elem_of_singleton in Hc.
      * left. destruct (Hall _ Hc Hcc) as [H|H]; [|done]. by apply not_elem_of_nil in H.
  - intros [= <- <-]. apply NoDup_cons in Hnd as [Hc Hnd].
    assert (Hne : forall h' d', helpers w !! h' = Some d' -> _conn d' <> c).
    { intros h' d' E%Hh Eq. rewrite Eq in E. set_solver. }
    split_and!; cbn; try done.
    + intros c' Hc'. apply Hp. by right.
    + intros h' d' [[_ <-]|[_ E]]%lookup_insert_Some; cbn; [by destruct (Hp c) as [? ?]; [left|]|].
      apply Hh in E. set_solver.
    + by apply (Hnew c).
    + intros c' Hc' Hcc. destruct (Hall _ Hc' Hcc) as [[->|H]%elem_of_cons|H]; [|by left|].
      * right. apply held_insert; auto.
      * right. apply held_insert; auto.
Qed.

Lemma throw_inv w e p' :
  pool_inv w -> DBHelper_new (D := pool_delegator connects) (Some (pool w)) = (inr e, Some p') ->
  pool_inv (mkWorld p' (helpers w)).
Proof.
  intros (Hnd & Hp & Hh & Hinj & Hr & Hall). cbn. unfold DBPool_getConn.
  destruct (_connPool (pool w)) as [|c rest] eqn:Epool; cbn; [|done].
  destruct (connects (next_object (pool w))) eqn:Ec; cbn; [done|]. intros [= <- <-].
  assert (Hfresh : next_object (pool w) ∉ heap (pool w)) by (intros H%Hr; lia).
  assert (Eh : ({[next_object (pool w)]} ∪ heap (pool w)) ∖ {[next_object (pool w)]} = heap (pool w))
    by set_solver.
  unfold pool_inv, held. cbn. rewrite Epool, Eh. split_and!; try done. intros c Hc%Hr. lia.
Qed.

Lemma release_inv w h d :
  pool_inv w -> helpers w !! h = Some d ->
  pool_inv (mkWorld (DBHelper_destroy (D := pool_delegator connects) d (pool w)) (delete h (helpers w))).
Proof.
  intros (Hnd & Hp & Hh & Hinj & Hr & Hall) Hd. destruct (Hh _ _ Hd) as (Hd1 & Hd2 & Hd3).
  split_and!; cbn.
  - apply NoDup_app. split_and!; [done| |apply NoDup_singleton]. set_solver.
  - intros c [Hc|Hc%list_elem_of_singleton]%elem_of_app; [by apply Hp|by subst].
  - intros h' d' [Hne E]%lookup_delete_Some. destruct (Hh _ _ E) as (H1 & H2 & H3). split_and!; [done|done|].
    intros [Hc|Hc%list_elem_of_singleton]%elem_of_app; [done|]. by apply Hne, (Hinj _ _ _ _ Hd E).
  - intros h1 h2 d1 d2 [_ E1]%lookup_delete_Some [_ E2]%lookup_delete_Some. by apply (Hinj _ _ d1 d2).
  - exact Hr.
  - intros c Hc Hcc. destruct (Hall _ Hc Hcc) as [H|(h' & d' & E & <-)]; [left; apply elem_of_app; by left|].
    destruct (decide (h' = h)) as [->|Hne].
    + left. simplify_eq. apply elem_of_app. right. by apply list_elem_of_singleton.
    + right. exists h', d'. cbn. by rewrite lookup_delete_ne.
Qed.

Lemma pool_step_inv w w' : pool_inv w -> pool_step w w' -> pool_inv w'.
Proof.
  intros Hw Hs. destruct Hs as [w h d p' Hn Hnew|w e p' Hnew|w h d Hd];
    [by eapply acquire_inv|by eapply throw_inv|by apply release_inv].
Qed.

Lemma pool_steps_inv w w' : rtc pool_step w w' -> pool_inv w -> pool_inv w'.
Proof. induction 1; eauto using pool_step_inv. Qed.

(** The pool built by [init]: the objects whose handler succeeded, in order. *)
Lemma init_loop_spec n p :
  (forall c, c ∈ heap p -> c < next_object p) ->
  _connPool (init_loop connects n p) =
    _connPool p ++ filter (fun c => connects c = true) ((fun i => next_object p + Z.of_nat i) <$> seq 0 n) /\
  next_object (init_loop connects n p) = next_object p + Z.of_nat n /\
  forall c, c ∈ heap (init_loop connects n p) <-> c ∈ heap p \/ next_object p <= c < next_object p + Z.of_nat n.
Proof.
  revert p. induction n as [|n IH]; intros p Hp; cbn [init_loop].
  - cbn. rewrite app_nil_r. split_and!; [done|lia|]. intros c. split; [auto|]. intros [?|?]; [done|lia].
  - cbn [new_conn]. set (p1 := if connects _ then _ else _).
    assert (H1 : next_object p1 = next_object p + 1 /\ heap p1 = {[next_object p]} ∪ heap p)
      by (unfold p1; by destruct (connects _)).
    destruct H1 as [Hn1 Hh1].
    destruct (IH p1) as (E1 & E2 & E3).
    { rewrite Hn1, Hh1. intros c [Hc%elem_of_singleton|Hc%Hp]%elem_of_union; lia. }
    rewrite E1, E2, Hn1. split_and!; [|lia|].
    + cbn [seq fmap list_fmap]. rewrite Z.add_0_r. rewrite <- (fmap_S_seq 0 n), <- list_fmap_compose.
      replace ((fun i => next_object p + 1 + Z.of_nat i) <$> seq 0 n)
        with (((fun i => next_object p + Z.of_nat i) ∘ S) <$> seq 0 n)
        by (apply list_fmap_ext; intros i x _; unfold compose; lia).
      rewrite filter_cons. unfold p1. destruct (connects (next_object p)) eqn:Ec; cbn; [|by rewrite decide_False].
      by rewrite decide_True, <- app_assoc.
    + intros c. rewrite E3, Hh1, Hn1, elem_of_union, elem_of_singleton. split; intros; [|].
      * destruct H as [[H|H]|H]; [right; lia|by left|right; lia].
      * destruct (decide (c = next_object p)); [by left; left|]. destruct H as [H|H]; [by left; right|right; lia].
Qed.
End system.

Lemma init_inv (connects : Z -> bool) n p :
  init connects n = Some p -> 0 <= n -> pool_inv connects (mkWorld p ∅).
Proof.
  unfold init. destruct (Z.eqb_spec n 0); [done|]. intros [= <-] Hn.
  destruct (init_loop_spec connects (Z.to_nat n) (mkDBPool [] 0 ∅)) as (E1 & E2 & E3); [set_solver|].
  cbn in E1, E2, E3. unfold pool_inv, held. cbn. rewrite E1, E2. split_and!.
  - apply NoDup_filter, NoDup_fmap_2; [|apply NoDup_seq]. intros i j. lia.
  - intros c [Hc Hi]%list_elem_of_filter. split; [|done]. apply E3. right.
    apply list_elem_of_fmap in Hi as (i & -> & Hi%elem_of_seq). lia.
  - intros h d Hd. by rewrite lookup_empty in Hd.
  - intros h1 h2 d1 d2 Hd. by rewrite lookup_empty in Hd.
  - intros c [?|?]%E3; [set_solver|lia].
  - intros c [?|?]%E3 Hc; [set_solver|]. left. apply list_elem_of_filter. split; [done|].
    apply list_elem_of_fmap. exists (Z.to_nat c). split; [lia|]. apply elem_of_seq. lia.
Qed.

(** * Properties *)



(** Construction: the pool holds exactly the connections whose handler
    succeeded, in creation order; those whose handler failed are neither in the
    pool nor deleted, while [getConn] on an empty pool deletes a connection that
    fails and returns null; an empty pool aborts. *)
Theorem pool_init_leaks_failures (connects : Z -> bool) (n : Z) (p : DBPool) :
  0 <= n -> init connects n = Some p ->
  n <> 0 /\
  _connPool p = filter (fun c => connects c = true) (Z.of_nat <$> seq 0 (Z.to_nat n)) /\
  (forall c, 0 <= c < n -> connects c = false -> c ∈ heap p /\ c ∉ _connPool p) /\
  (connects (next_object p) = false ->
   DBPool_getConn connects (set_connPool [] p) =
     (None, mkDBPool [] (next_object p + 1) (heap p))).
Proof.
  intros Hn. unfold init. destruct (Z.eqb_spec n 0) as [|Hne]; [done|]. intros [= <-].
  destruct (init_loop_spec connects (Z.to_nat n) (mkDBPool [] 0 ∅)) as (E1 & E2 & E3); [set_solver|].
  cbn in E1, E2, E3. split_and!; [done|rewrite E1; do 2 f_equal| |].
  - intros c Hc Hf. split; [apply E3; right; lia|]. rewrite E1. intros [H _]%list_elem_of_filter. congruence.
  - intros Hf. unfold DBPool_getConn. cbn. rewrite Hf. cbn. f_equal. unfold delete_conn. cbn. f_equal.
    assert (next_object (init_loop connects (Z.to_nat n) (mkDBPool [] 0 ∅)) ∉
      heap (init_loop connects (Z.to_nat n) (mkDBPool [] 0 ∅))) by (rewrite E3, E2; set_solver by lia).
    set_solver.
Qed.

(** An instance of [pool_init_leaks_failures]: three objects, the second one fails. *)
Lemma pool_init_leaks_failures_witness :
  1 ∈ heap (init_loop (fun c => negb (c =? 1)) 3 (mkDBPool [] 0 ∅)) /\
  1 ∉ _connPool (init_loop (fun c => negb (c =? 1)) 3 (mkDBPool [] 0 ∅)).
Proof.
  apply (pool_init_leaks_failures (fun c => negb (c =? 1)) 3); [lia|reflexivity|lia|reflexivity].
Defined.
