(* ===== verification/AutoInc.v ===== *)
(** The numbers that backup/source/db/JME_MongoConnection.cpp hands out for new
    records: [createAutoIncId] increments a counter in the database and derives the
    number from what the counter was before.

    The database is an interface: [find_and_inc] is the command [findAndModify] with
    [$inc] and [upsert], which answers the document as it was before. *)
From stdpp Require Import gmap.
From S2P Require Import Prelude.
Local Open Scope Z_scope.

Class Counters (Key DB : Type) : Type := {
  counter : Key -> DB -> option Z;
  find_and_inc : Key -> DB -> DB
}.
Class CountersSpec (Key DB : Type) `{EqDecision Key} `{Counters Key DB} : Prop := {
  counter_inc k db : counter k (find_and_inc k db) = Some (default 0 (counter k db) + 1);
  counter_other k k' db : k <> k' -> counter k' (find_and_inc k db) = counter k' db
}.

Section AutoInc.
Context {Key DB : Type} `{!EqDecision Key} {C : Counters Key DB}.

(** [createAutoIncId]. [err] says whether the command failed; a counter is stored as
    an [int]. *)
Definition createAutoIncId (key : Key) (init : Z) (err : bool) (db : DB) : Z * DB :=
  if err then (0, db)
  else (match counter key db with None => init | Some v => i32 (v + 1) end, find_and_inc key db).

(** [n] calls for one key. *)
Fixpoint create_ids (n : nat) (key : Key) (init : Z) (db : DB) : list Z * DB :=
  match n with
  | O => ([], db)
  | S n => let '(id, db) := createAutoIncId key init false db in let '(ids, db) := create_ids n key init db in (id :: ids, db)
  end.

Context {CS : CountersSpec Key DB}.
Set Default Proof Using "All".

Lemma create_ids_from n key init db v : counter key db = Some v -> 0 <= v -> v + Z.of_nat n < 2 ^ 31 ->
  (create_ids n key init db).1 = seqZ (v + 1) (Z.of_nat n) /\ counter key (create_ids n key init db).2 = Some (v + Z.of_nat n).
Proof.
  revert db v. induction n as [|n IH]; intros db v Hv H0 Hb; [cbn; by rewrite Z.add_0_r|]. cbn [create_ids createAutoIncId]. rewrite Hv.
  pose proof (counter_inc key db) as Hc. rewrite Hv in Hc. cbn in Hc.
  destruct (IH (find_and_inc key db) (v + 1) Hc ltac:(lia) ltac:(lia)) as [E1 E2].
  destruct (create_ids n key init (find_and_inc key db)) as [ids db']. cbn [fst snd] in *. split.
  - rewrite E1, swrap_id by (unfold in_s; lia). rewrite (seqZ_cons (v + 1)) by lia. f_equal. f_equal; lia.
  - rewrite E2. f_equal. lia.
Qed.

Lemma create_ids_fresh n key init db : counter key db = None -> Z.of_nat n + 1 < 2 ^ 31 ->
  (create_ids (S n) key init db).1 = init :: seqZ 2 (Z.of_nat n).
Proof.
  intros Hv Hn. cbn [create_ids createAutoIncId]. rewrite Hv. pose proof (counter_inc key db) as Hc. rewrite Hv in Hc. cbn in Hc.
  destruct n as [|n]; [done|].
  destruct (create_ids_from (S n) key init (find_and_inc key db) 1 Hc ltac:(lia) ltac:(lia)) as [E1 _].
  destruct (create_ids (S n) key init (find_and_inc key db)) as [ids db']. cbn [fst] in *. by rewrite E1.
Qed.

(** Numbers for new records, from an empty counter: with the default first number
    one they are consecutive, so all different. With any larger first number [init]
    they are not: the second is 2, and the number of the [init]-th call is [init]
    again. *)
Theorem auto_inc_ids (key : Key) (db : DB) (n : nat) (init : Z) :
  counter key db = None -> Z.of_nat n + 1 < 2 ^ 31 ->
  (create_ids (S n) key 1 db).1 = seqZ 1 (Z.of_nat n + 1) /\
  (2 <= init <= Z.of_nat n + 1 ->
     (create_ids (S n) key init db).1 !! 0%nat = Some init /\
     (create_ids (S n) key init db).1 !! Z.to_nat (init - 1) = Some init).
Proof.
  intros Hv Hn. rewrite !create_ids_fresh by done. split.
  - rewrite (seqZ_cons 1) by lia. f_equal. f_equal; lia.
  - intros Hi. split; [done|]. replace (Z.to_nat (init - 1)) with (S (Z.to_nat (init - 2))) by lia. cbn [lookup list_lookup].
    change (seqZ 2 (Z.of_nat n) !! Z.to_nat (init - 2) = Some init). rewrite lookup_seqZ. lia.
Qed.
End AutoInc.

(** Counters in a finite map. *)
Definition map_counters : Counters Z (gmap Z Z) := {|
  counter k db := db !! k;
  find_and_inc k db := <[k := default 0 (db !! k) + 1]> db
|}.
Lemma map_counters_spec : @CountersSpec Z (gmap Z Z) _ map_counters.
Proof. split; intros; cbn; [by rewrite lookup_insert_eq|by rewrite lookup_insert_ne]. Qed.

(** An instance of [auto_inc_ids]: five records, first number five. *)
Lemma auto_inc_ids_witness :
  (create_ids (C := map_counters) 5 1 1 ∅).1 = [1; 2; 3; 4; 5] /\
  (create_ids (C := map_counters) 5 1 5 ∅).1 !! 0%nat = Some 5 /\ (create_ids (C := map_counters) 5 1 5 ∅).1 !! 4%nat = Some 5.
Proof.
  destruct (auto_inc_ids (C := map_counters) (CS := map_counters_spec) 1 ∅ 4 5) as [H1 H2]; [done|done|].
  split; [exact H1|]. apply H2. done.
Defined.
