(* ===== verification/UdpSession.v ===== *)
(** The UDP session of include/net/JME_UdpSession.h and
    source/net/JME_UdpSession.cpp.  As for the TCP session, a method transforms
    the record and lists its effects; completion handlers take the error code
    and the received bytes as arguments. *)
From S2P Require Import Prelude Message ReadBuffer.
Local Open Scope Z_scope.
Local Open Scope sw_scope.

(** [class UdpSession]. *)
Record UdpSession : Set := mkUdpSession {
  u_buffer : ReadBuffer;
  u_writeBuffer : list Z;
  u_writeBufferSize : Z;
  u_writeBufferOffest : Z;
  _isReading : bool;
  _isWriting : bool
}.

Inductive udp_effect : Set :=
| UPostDoRead
| UAsyncReceive (room : Z)
| UPostReceive (m : Message)
| UAsyncSend (data : list Z)
| UPostWrite
| UBufferOverflow.

Abbreviation udp A := (SW UdpSession udp_effect A) (only parsing).

(** [UdpSession::UdpSession]; [rmem] and [wmem] are the blocks allocated. *)
Definition UdpSession_new (rmem wmem : bytes) : UdpSession :=
  mkUdpSession (ReadBuffer_new rmem) wmem (zlen wmem) 0 false false.

Definition set_u_buffer (b : ReadBuffer) (s : UdpSession) : UdpSession :=
  mkUdpSession b (u_writeBuffer s) (u_writeBufferSize s) (u_writeBufferOffest s) (_isReading s) (_isWriting s).
Definition set_u_write (mem : bytes) (off : Z) (s : UdpSession) : UdpSession :=
  mkUdpSession (u_buffer s) mem (u_writeBufferSize s) off (_isReading s) (_isWriting s).
Definition set_isReading (b : bool) (s : UdpSession) : UdpSession :=
  mkUdpSession (u_buffer s) (u_writeBuffer s) (u_writeBufferSize s) (u_writeBufferOffest s) b (_isWriting s).
Definition set_isWriting (b : bool) (s : UdpSession) : UdpSession :=
  mkUdpSession (u_buffer s) (u_writeBuffer s) (u_writeBufferSize s) (u_writeBufferOffest s) (_isReading s) b.

(** [doRead] and [startRead]. *)
Definition doRead : udp unit := fun s =>
  if _isReading s then sw_ret tt s else sw_emit (UAsyncReceive (getAvailableBufferSize (u_buffer s))) s.
Definition startRead : udp unit := sw_emit UPostDoRead.

(** [onRead]: [data] are the bytes received, stored at [getBuffer()]. *)
Definition onRead (ec : Z) (data : bytes) : udp unit := fun s =>
  let s := set_isReading false s in
  if negb (ec =? 0) || (zlen data <=? 0) then doRead s
  else
    let '(rb, _) := readNewData (socket_fill (u_buffer s) data) (zlen data) in
    let '(rb, ret, msg) := getMessage rb in
    if (ret =? ReadBufferError) || (ret =? ReadBufferNoMessage) then
      doRead (set_u_buffer (reset rb) s)
    else
      let s := set_u_buffer rb s in
      match msg with
      | Some (data_ptr, l) =>
          match Message_create (drop (Z.to_nat data_ptr) (_buffer rb)) l with
          | Some m => sw_emit (UPostReceive m) s
          | None => sw_emit UBufferOverflow s
          end
      | None => sw_ret tt s
      end.

(** [doWrite]. *)
Definition doWrite : udp unit := fun s =>
  sw_emit (UAsyncSend (mem_read (u_writeBuffer s) 0 (u_writeBufferOffest s))) s.

(** [writeMessage]: the code does not compare with [_writeBufferSize]; copying
    past the end of the block is the effect [UBufferOverflow]. *)
Definition writeUdpMessage (msg : Message) : udp unit := fun s =>
  if _isWriting s then sw_ret tt s
  else
    let off := u_writeBufferOffest s in
    let len := messageDataLen msg in
    if zlen (u_writeBuffer s) <? off + MessageHeaderLength + len then sw_emit UBufferOverflow s
    else
      let mem := mem_write (u_writeBuffer s) off (header_bytes (_header msg)) in
      let off := off + MessageHeaderLength in
      let mem := mem_write mem off (mem_read (_msgData msg) 0 len) in
      doWrite (set_u_write mem (off + len) s).

(** [onWrite]. *)
Definition onWrite (ec bytes_writed : Z) : udp unit := fun s =>
  sw_emit UPostWrite (set_u_write (u_writeBuffer s) 0 (set_isWriting false s)).

(** * Lemmas *)

(** Copying header and data one after the other stores the wire image. *)
Lemma udp_store mem off m :
  0 <= off -> message_ok m -> off + _totalLen (_header m) <= zlen mem ->
  let len := messageDataLen m in
  mem_write (mem_write mem off (header_bytes (_header m))) (off + MessageHeaderLength)
    (mem_read (_msgData m) 0 len) = mem_write mem off (wire m).
Proof.
  intros Hoff Hm Hfit len. unfold len. rewrite message_ok_dataLen by done.
  destruct Hm as (_ & _ & Hlen). rewrite Hlen in Hfit. pose proof (zlen_nonneg (_msgData m)).
  unfold MessageHeaderLength in *.
  assert (Hd : mem_read (_msgData m) 0 (zlen (_msgData m)) = _msgData m)
    by (unfold mem_read; rewrite drop_0; apply take_ge; zlen_lia).
  rewrite Hd. unfold wire. rewrite <- mem_write_write by (rewrite ?header_bytes_zlen; unfold MessageHeaderLength; lia).
  by rewrite header_bytes_zlen.
Qed.

Lemma writeUdpMessage_spec m s :
  message_ok m -> _isWriting s = false -> 0 <= u_writeBufferOffest s ->
  u_writeBufferOffest s + _totalLen (_header m) <= zlen (u_writeBuffer s) ->
  writeUdpMessage m s =
  (set_u_write (mem_write (u_writeBuffer s) (u_writeBufferOffest s) (wire m))
     (u_writeBufferOffest s + _totalLen (_header m)) s,
   [UAsyncSend (mem_read (u_writeBuffer s) 0 (u_writeBufferOffest s) ++ wire m)], tt).
Proof.
  intros Hm Hw Ho Hfit. pose proof Hm as (_ & _ & Hlen). pose proof (zlen_nonneg (_msgData m)).
  pose proof (wire_zlen m Hm) as Hz. unfold writeUdpMessage. rewrite Hw.
  rewrite udp_store, message_ok_dataLen by done. unfold MessageHeaderLength in *.
  rewrite (proj2 (Z.ltb_ge _ _)) by lia. unfold doWrite, sw_emit. cbn [u_writeBuffer u_writeBufferOffest set_u_write].
  replace (u_writeBufferOffest s + 14 + zlen (_msgData m)) with (u_writeBufferOffest s + zlen (wire m)) by lia.
  rewrite mem_read_split, Z.add_0_l by lia. rewrite mem_read_write_same, mem_read_write_before by lia.
  by rewrite Hz.
Qed.

Lemma onRead_message m s :
  message_ok m -> rb_ok (u_buffer s) -> pending (u_buffer s) = [] ->
  zlen (wire m) <= getAvailableBufferSize (u_buffer s) ->
  exists rb, onRead 0 (wire m) s = (set_u_buffer rb (set_isReading false s), [UPostReceive m], tt) /\
    rb_ok rb /\ pending rb = [].
Proof.
  intros Hm Hrb Hp Hroom. pose proof (wire_zlen m Hm) as Hz. pose proof Hm as (_ & _ & Hlen).
  pose proof (zlen_nonneg (_msgData m)). unfold MessageHeaderLength in Hlen.
  assert (Hwok : bytes_ok (wire m)) by (pose proof (wires_ok [m]) as H1; unfold wires in H1; cbn in H1;
    rewrite app_nil_r in H1; apply H1; by constructor).
  unfold onRead. rewrite (proj2 (Z.leb_gt (zlen (wire m)) 0)) by lia.
  change (negb (0 =? 0) || false) with false. cbv iota. cbn [u_buffer set_isReading].
  destruct (receive_state (u_buffer s) (wire m) Hrb Hwok Hroom) as (Hok1 & Hp1 & _).
  destruct (readNewData _ _) as [rb1 w]. cbn [fst] in Hok1, Hp1. rewrite Hp in Hp1. cbn [app] in Hp1.
  pose proof (getMessage_spec rb1 Hok1) as HG. destruct (getMessage rb1) as [[rb2 ret] msg].
  destruct HG as (Hok2 & _ & HG). rewrite Hp1, <- (app_nil_r (wire m)), next_frame_wire in HG by done.
  destruct HG as (-> & Hp2 & p & tail & -> & Hd). rewrite app_nil_r in Hp2, Hd.
  rewrite (proj2 (Z.eqb_neq _ ReadBufferError)), (proj2 (Z.eqb_neq _ ReadBufferNoMessage))
    by (unfold ReadBufferError, ReadBufferNoMessage; lia).
  cbn [orb]. rewrite Hd, Message_create_wire by done. exists rb2. split_and!; [done|done|].
  rewrite Hp2, <- Hz. apply drop_ge. unfold zlen. lia.
Qed.

(** * Properties *)

(** Datagram round trip: a session with no write pending sends exactly the
    wire image of the message, and a session whose receive buffer has no bytes
    pending and room for the datagram hands exactly that message to its
    handler. *)
Theorem udp_datagram_roundtrip (m : Message) (s r : UdpSession) :
  message_ok m -> _isWriting s = false -> u_writeBufferOffest s = 0 ->
  _totalLen (_header m) <= zlen (u_writeBuffer s) ->
  rb_ok (u_buffer r) -> pending (u_buffer r) = [] ->
  _totalLen (_header m) <= getAvailableBufferSize (u_buffer r) ->
  exists data, sw_effects (writeUdpMessage m s) = [UAsyncSend data] /\
    sw_effects (onRead 0 data r) = [UPostReceive m] /\
    rb_ok (u_buffer (sw_state (onRead 0 data r))) /\ pending (u_buffer (sw_state (onRead 0 data r))) = [].
Proof.
  intros Hm Hw Ho Hfit Hrb Hp Hroom. exists (wire m). rewrite <- (wire_zlen m Hm) in Hroom.
  split; [rewrite writeUdpMessage_spec by (done || lia); by rewrite Ho|].
  destruct (onRead_message m r Hm Hrb Hp Hroom) as (rb & -> & H1 & H2). done.
Qed.

(** An instance of [udp_datagram_roundtrip]: fresh sessions of 64 bytes. *)
Lemma udp_datagram_roundtrip_witness :
  exists data,
    sw_effects (writeUdpMessage (Message_new 3 [1; 2]) (UdpSession_new (replicate 64 0) (replicate 64 0))) =
      [UAsyncSend data] /\
    sw_effects (onRead 0 data (UdpSession_new (replicate 64 0) (replicate 64 0))) =
      [UPostReceive (Message_new 3 [1; 2])].
Proof.
  destruct (udp_datagram_roundtrip (Message_new 3 [1; 2]) (UdpSession_new (replicate 64 0) (replicate 64 0))
    (UdpSession_new (replicate 64 0) (replicate 64 0))) as (data & H1 & H2 & _);
    first [decide_closed | reflexivity | exists data; exact (conj H1 H2)].
Defined.

(** [writeMessage] does not set [_isWriting], so a second message written
    before the first send completes is not refused: it is sent in one datagram
    behind the first message, which goes out again. *)
Theorem udp_second_write_resends_first (m1 m2 : Message) (s : UdpSession) :
  message_ok m1 -> message_ok m2 -> _isWriting s = false -> u_writeBufferOffest s = 0 ->
  _totalLen (_header m1) + _totalLen (_header m2) <= zlen (u_writeBuffer s) ->
  let r1 := writeUdpMessage m1 s in
  let r2 := writeUdpMessage m2 (sw_state r1) in
  sw_effects r1 = [UAsyncSend (wire m1)] /\ sw_effects r2 = [UAsyncSend (wire m1 ++ wire m2)] /\
  _isWriting (sw_state r2) = false.
Proof.
  intros H1 H2 Hw Ho Hfit r1 r2. pose proof (wire_zlen m1 H1) as Hz1. pose proof (zlen_nonneg (wire m1)).
  assert (0 <= _totalLen (_header m2)) by (rewrite <- (wire_zlen m2 H2); apply zlen_nonneg).
  assert (E1 : r1 = (set_u_write (mem_write (u_writeBuffer s) 0 (wire m1)) (_totalLen (_header m1)) s,
    [UAsyncSend (wire m1)], tt)).
  { unfold r1. rewrite writeUdpMessage_spec by (done || lia). by rewrite Ho. }
  unfold r2. rewrite E1. cbn [sw_state sw_effects fst snd].
  rewrite writeUdpMessage_spec; cbn [u_writeBuffer u_writeBufferOffest set_u_write _isWriting];
    [|done|done|lia|rewrite mem_write_zlen; lia].
  cbn [sw_state sw_effects fst snd]. split_and!; [done| |done].
  rewrite <- Hz1. by rewrite mem_read_write_same by lia.
Qed.

(** An instance of [udp_second_write_resends_first]: two heartbeats. *)
Lemma udp_second_write_resends_first_witness :
  let s := UdpSession_new (replicate 64 0) (replicate 64 0) in
  sw_effects (writeUdpMessage (Message_new HeartBeat []) (sw_state (writeUdpMessage (Message_new 3 [1]) s))) =
    [UAsyncSend (wire (Message_new 3 [1]) ++ wire (Message_new HeartBeat []))].
Proof.
  apply (udp_second_write_resends_first (Message_new 3 [1]) (Message_new HeartBeat [])
    (UdpSession_new (replicate 64 0) (replicate 64 0))); first [decide_closed | reflexivity].
Defined.
