(* ===== verification/Core.v ===== *)
(** The threads of include/net/JME_Core.h and source/net/JME_Core.cpp (named
    threads and the task thread) and the acceptor of JME_Acceptor.h and
    JME_Acceptor.cpp.  Threads and sessions are named by numbers in the order of
    their creation. *)
From S2P Require Import Prelude.
Local Open Scope Z_scope.

(** * Acceptor *)
Module Acceptor.

Inductive acceptor_effect : Set :=
| AsyncAccept (session bufferSize reconnect : Z)
| PostAccepted (session : Z)
| StopSession (session : Z).

(** [class TcpAcceptor]: [waiting] is the session the outstanding
    [async_accept], if any, will fill. *)
Record TcpAcceptor : Set := mkTcpAcceptor {
  next_session : Z;
  waiting : option Z
}.

Definition TcpAcceptor_new : TcpAcceptor := mkTcpAcceptor 0 None.

(** [accept]: create a session and wait for a connection. *)
Definition accept (reconnect bufferSize : Z) (a : TcpAcceptor) : TcpAcceptor * list acceptor_effect :=
  (mkTcpAcceptor (next_session a + 1) (Some (next_session a)),
   [AsyncAccept (next_session a) bufferSize reconnect]).

(** [handlerAccept(session, reconnect, bufferSize, error)]. *)
Definition handlerAccept (session reconnect bufferSize error : Z) (a : TcpAcceptor)
    : TcpAcceptor * list acceptor_effect :=
  let a := mkTcpAcceptor (next_session a) None in
  if error =? 0 then
    let '(a, effs) := accept reconnect bufferSize a in (a, effs ++ [PostAccepted session])
  else if negb (error =? 995) then
    let '(a, effs) := accept reconnect bufferSize a in (a, effs ++ [StopSession session])
  else (a, [StopSession session]).

(** The completions of the outstanding accepts, with their error codes. *)
Fixpoint completions (reconnect bufferSize : Z) (errors : list Z) (a : TcpAcceptor)
    : TcpAcceptor * list acceptor_effect :=
  match errors with
  | [] => (a, [])
  | e :: errors =>
      match waiting a with
      | None => (a, [])
      | Some session =>
          let '(a, effs) := handlerAccept session reconnect bufferSize e a in
          let '(a, effs') := completions reconnect bufferSize errors a in
          (a, effs ++ effs')
      end
  end.

(** The sessions handed to the handler. *)
Definition posted (effs : list acceptor_effect) : list Z :=
  List.flat_map (fun e => match e with PostAccepted s => [s] | _ => [] end) effs.

Lemma posted_app e1 e2 : posted (e1 ++ e2) = posted e1 ++ posted e2.
Proof. apply List.flat_map_app. Qed.

(** The sessions that a run should post: those whose accept completed without
    error, [n] being the first one. *)
Fixpoint accepted_sessions (n : Z) (errors : list Z) : list Z :=
  match errors with
  | [] => []
  | e :: errors => (if e =? 0 then [n] else []) ++ accepted_sessions (n + 1) errors
  end.

Lemma completions_spec reconnect bufferSize errors n :
  Forall (fun e => e <> 995) errors ->
  let '(a, effs) := completions reconnect bufferSize errors (mkTcpAcceptor (n + 1) (Some n)) in
  a = mkTcpAcceptor (n + 1 + zlen errors) (Some (n + zlen errors)) /\
  posted effs = accepted_sessions n errors.
Proof.
  intros He. revert n. induction He as [|e errors He Hes IH]; intros n.
  - cbn. change (zlen (@nil Z)) with 0. by rewrite !Z.add_0_r.
  - cbn [completions waiting]. unfold handlerAccept. cbn [next_session accept accepted_sessions].
    rewrite (proj2 (Z.eqb_neq _ _) He). cbn [negb]. specialize (IH (n + 1)).
    rewrite zlen_cons. destruct (e =? 0); cbn [accept next_session];
      destruct (completions reconnect bufferSize errors _) as [a effs]; destruct IH as [-> IH];
      rewrite !posted_app, IH; (split; [f_equal; [lia|f_equal; lia]|done]).
Qed.

(** The acceptor keeps listening: as long as its accepts are not cancelled
    (error 995), after any sequence of completions, failed ones included,
    exactly one accept is outstanding, for a session not used before; every
    session accepted without error is handed to the handler once, in order, and
    no other. *)
Theorem acceptor_keeps_listening (reconnect bufferSize : Z) (errors : list Z) :
  Forall (fun e => e <> 995) errors ->
  let '(a0, effs0) := accept reconnect bufferSize TcpAcceptor_new in
  let '(a, effs) := completions reconnect bufferSize errors a0 in
  waiting a = Some (zlen errors) /\ next_session a = zlen errors + 1 /\
  posted effs = accepted_sessions 0 errors /\
  (forall session, fst (handlerAccept session reconnect bufferSize 995 a) = mkTcpAcceptor (next_session a) None).
Proof.
  intros He. cbn [accept TcpAcceptor_new next_session].
  pose proof (completions_spec reconnect bufferSize errors 0 He) as H. cbn [Z.add] in *.
  destruct (completions _ _ _ _) as [a effs]. destruct H as [-> H]. cbn. split_and!; try done. lia.
Qed.

(** An instance of [acceptor_keeps_listening]: a failed accept between two good ones. *)
Lemma acceptor_keeps_listening_witness :
  let '(a0, effs0) := accept 0 1024 TcpAcceptor_new in
  let '(a, effs) := completions 0 1024 [0; 24; 0] a0 in
  waiting a = Some 3 /\ posted effs = [0; 2].
Proof.
  destruct (acceptor_keeps_listening 0 1024 [0; 24; 0]) as (H1 & _ & H3 & _); [decide_closed|].
  split; [exact H1|exact H3].
Defined.
End Acceptor.

(** * Named threads *)
Module Threads.

(** [class Thread]: [_thread] is whether [run] has created the thread. *)
Record Thread : Set := mkThread {
  thread_id : Z;
  has_thread : bool;
  service_stopped : bool
}.

(** [class IoServiceCore]; [table] are the thread objects, by number. *)
Record IoServiceCore : Set := mkIoServiceCore {
  table : gmap Z Thread;
  next_thread : Z;
  _netThread : Z;
  _logicThread : Z;
  _namedThread : gmap (list Z) Z
}.

(** [Thread::create], [Thread::run] and [Thread::stop]; [None] is the use of the
    null [_thread]. *)
Definition Thread_create (id : Z) : Thread := mkThread id false false.
Definition Thread_run (t : Thread) : Thread := mkThread (thread_id t) true (service_stopped t).
Definition Thread_stop (t : Thread) : option Thread :=
  if has_thread t then Some (mkThread (thread_id t) true true) else None.

(** [IoServiceCore::IoServiceCore]. *)
Definition IoServiceCore_new : IoServiceCore :=
  mkIoServiceCore (<[1 := Thread_create 1]> {[0 := Thread_create 0]}) 2 0 1 ∅.

Definition set_table (t : gmap Z Thread) (c : IoServiceCore) : IoServiceCore :=
  mkIoServiceCore t (next_thread c) (_netThread c) (_logicThread c) (_namedThread c).

(** [start]. *)
Definition core_start (c : IoServiceCore) : IoServiceCore :=
  set_table (alter Thread_run (_logicThread c) (alter Thread_run (_netThread c) (table c))) c.

(** [getThreadByName], [createNamedThread] and [createThreadByName]. *)
Definition getThreadByName (name : bytes) (c : IoServiceCore) : option Z := _namedThread c !! name.
Definition createNamedThread (name : bytes) (c : IoServiceCore) : Z * IoServiceCore :=
  let id := next_thread c in
  (id, mkIoServiceCore (<[id := Thread_run (Thread_create id)]> (table c)) (id + 1) (_netThread c) (_logicThread c)
         (match _namedThread c !! name with
          | Some _ => _namedThread c
          | None => <[name := id]> (_namedThread c)
          end)).
Definition createThreadByName (name : bytes) (c : IoServiceCore) : Z * IoServiceCore :=
  match getThreadByName name c with
  | Some id => (id, c)
  | None => createNamedThread name c
  end.

(** [stop]: every thread in turn; [None] when one of them was never run. *)
Definition stop_all (ids : list Z) (t : gmap Z Thread) : option (gmap Z Thread) :=
  foldr (fun id acc =>
    t ← acc; th ← t !! id; th ← Thread_stop th; Some (<[id := th]> t)) (Some t) ids.
Definition core_stop (c : IoServiceCore) : option IoServiceCore :=
  t ← stop_all (rev ([_netThread c; _logicThread c] ++ (snd <$> map_to_list (_namedThread c)))) (table c);
  Some (set_table t c).

(** A core whose named threads are distinct objects that have been run. *)
Definition core_inv (c : IoServiceCore) : Prop :=
  (forall id th, table c !! id = Some th -> id < next_thread c) /\
  (forall name id, _namedThread c !! name = Some id ->
     exists th, table c !! id = Some th /\ has_thread th = true) /\
  (forall n1 n2 id, _namedThread c !! n1 = Some id -> _namedThread c !! n2 = Some id -> n1 = n2).

Lemma core_new_inv : core_inv IoServiceCore_new.
Proof.
  split_and!.
  - intros id th. cbn. rewrite lookup_insert_Some, lookup_singleton_Some. intros [[<- _]|[_ [<- _]]]; lia.
  - intros name id H. cbn in H. by rewrite lookup_empty in H.
  - intros n1 n2 id H. cbn in H. by rewrite lookup_empty in H.
Qed.

Lemma createThreadByName_inv name c :
  core_inv c -> core_inv (createThreadByName name c).2 /\
  getThreadByName name (createThreadByName name c).2 = Some (createThreadByName name c).1.
Proof.
  intros (H1 & H2 & H3). unfold createThreadByName, createNamedThread, getThreadByName.
  destruct (_namedThread c !! name) as [id|] eqn:E; cbn; [split; [done|exact E]|].
  rewrite lookup_insert_eq. split; [|done]. split_and!; cbn.
  - intros id th [[<- _]|[_ H%H1]]%lookup_insert_Some; lia.
  - intros n id [[<- <-]|[Hne Hn]]%lookup_insert_Some; [rewrite lookup_insert_eq; eauto|].
    destruct (H2 _ _ Hn) as (th & Ht & Hr). exists th. split; [|done].
    rewrite lookup_insert_ne; [done|]. apply H1 in Ht. lia.
  - intros n1 n2 id [[<- <-]|[Hne1 Hn1]]%lookup_insert_Some [[<- E2]|[Hne2 Hn2]]%lookup_insert_Some; [done| | |by eapply H3].
    + destruct (H2 _ _ Hn2) as (th & Ht & _). apply H1 in Ht. lia.
    + subst id. destruct (H2 _ _ Hn1) as (th & Ht & _). apply H1 in Ht. lia.
Qed.

Definition create_all (names : list (list Z)) (c : IoServiceCore) : IoServiceCore :=
  foldl (fun c n => (createThreadByName n c).2) c names.

Lemma create_all_inv names c : core_inv c -> core_inv (create_all names c).
Proof.
  unfold create_all. revert c. induction names as [|n names IH]; intros c Hc; [done|]. cbn.
  apply IH. by apply createThreadByName_inv.
Qed.

Lemma create_keeps n n' c id :
  getThreadByName n c = Some id -> getThreadByName n (createThreadByName n' c).2 = Some id.
Proof.
  intros H. unfold createThreadByName, createNamedThread, getThreadByName in *.
  destruct (_namedThread c !! n') as [id'|] eqn:E; cbn; [done|].
  rewrite lookup_insert_ne; [done|]. intros ->. congruence.
Qed.

(** Threads by name: after any sequence of [createThreadByName] calls on a
    new core, asking for a name that was created returns its thread, creating it
    again returns the same thread and changes nothing, different names have
    different threads, and the thread has been started. *)
Theorem named_threads_stable (names : list (list Z)) (name : bytes) :
  let c := create_all names IoServiceCore_new in
  let '(id, c1) := createThreadByName name c in
  getThreadByName name c1 = Some id /\ createThreadByName name c1 = (id, c1) /\
  (exists th, table c1 !! id = Some th /\ has_thread th = true) /\
  (forall name', getThreadByName name' c1 = Some id -> name' = name) /\
  (forall name' id', getThreadByName name' c = Some id' -> getThreadByName name' c1 = Some id').
Proof.
  intros c. pose proof (create_all_inv names _ core_new_inv) as Hc. fold c in Hc.
  destruct (createThreadByName_inv name c Hc) as [(H1 & H2 & H3) Hget].
  destruct (createThreadByName name c) as [id c1] eqn:E. cbn in *. split_and!.
  - done.
  - unfold createThreadByName. by rewrite Hget.
  - by apply (H2 name).
  - intros name' Hn. by apply (H3 _ _ id).
  - intros name' id' Hn. pose proof (create_keeps name' name c id' Hn) as HK. by rewrite E in HK.
Qed.

(** [stop] on a core that was never started dereferences the null thread
    pointer. *)
Lemma core_stop_unstarted : core_stop IoServiceCore_new = None.
Proof. by vm_compute. Qed.
End Threads.

(** * The task thread *)
Module TaskThread.
Section task_thread.
(** A task is the function posted; running it gives its result. *)
Context {R : Type}.

(** [class JME_TaskThread]: the queue, the task the worker has taken and not
    finished, and, as history, the tasks posted and the results delivered
    through their futures, in order.  Tasks are numbered by [post]. *)
Record JME_TaskThread : Type := mkTaskThread {
  _stop : bool;
  _tasks : list (nat * (unit -> R));
  running : option (nat * (unit -> R));
  posts : list (nat * (unit -> R));
  results : list (nat * R)
}.

Definition JME_TaskThread_new : JME_TaskThread := mkTaskThread false [] None [] [].

(** The critical section of [post]: enqueue unless stopped. *)
Definition post (f : unit -> R) (t : JME_TaskThread) : JME_TaskThread :=
  let task := (length (posts t), f) in
  mkTaskThread (_stop t) (if _stop t then _tasks t else _tasks t ++ [task]) (running t) (posts t ++ [task]) (results t).

(** The worker: take the first task under the lock, then run it outside. *)
Inductive worker_step : JME_TaskThread -> JME_TaskThread -> Prop :=
| worker_take t task rest :
    running t = None -> _tasks t = task :: rest ->
    worker_step t (mkTaskThread (_stop t) rest (Some task) (posts t) (results t))
| worker_run t n f :
    running t = Some (n, f) ->
    worker_step t (mkTaskThread (_stop t) (_tasks t) None (posts t) (results t ++ [(n, f tt)])).

(** Any interleaving of posting threads and the worker. *)
Inductive task_step : JME_TaskThread -> JME_TaskThread -> Prop :=
| step_post t f : task_step t (post f t)
| step_worker t t' : worker_step t t' -> task_step t t'.

Definition outstanding (t : JME_TaskThread) : list (nat * (unit -> R)) :=
  match running t with Some task => [task] | None => [] end ++ _tasks t.

Definition task_inv (t : JME_TaskThread) : Prop :=
  _stop t = false /\ exists finished,
    posts t = finished ++ outstanding t /\ results t = (fun p => (p.1, p.2 tt)) <$> finished.

Lemma task_step_inv t t' : task_inv t -> task_step t t' -> task_inv t'.
Proof.
  intros (Hs & fin & Hp & Hr) Hstep. destruct Hstep as [t f|t t' Hw]; [|destruct Hw as [t task rest E1 E2|t n f E1]].
  - split; [done|]. exists fin. cbn. rewrite Hs, Hp. unfold outstanding. cbn. by rewrite <- !app_assoc.
  - split; [done|]. exists fin. split; [|done]. cbn. rewrite Hp. unfold outstanding. cbn. by rewrite E1, E2.
  - split; [done|]. exists (fin ++ [(n, f)]). cbn. rewrite Hp, Hr. unfold outstanding. cbn. rewrite E1.
    split; [by rewrite <- app_assoc|]. by rewrite fmap_app.
Qed.

(** C29. First come, first served: in every reachable state of the task thread,
    the results delivered are those of a prefix of the posted tasks, each run
    once, in posting order, and the others are still queued or running; the
    worker can always move while a task is outstanding, and when none is, every
    posted task has its own result. *)
Theorem tasks_fifo (t : JME_TaskThread) :
  rtc task_step JME_TaskThread_new t ->
  exists finished,
    posts t = finished ++ outstanding t /\ results t = (fun p => (p.1, p.2 tt)) <$> finished /\
    (outstanding t <> [] -> exists t', worker_step t t') /\
    (outstanding t = [] -> results t = (fun p => (p.1, p.2 tt)) <$> posts t).
Proof.
  intros Hs.
  assert (Hinv : task_inv t).
  { assert (H0 : task_inv JME_TaskThread_new) by (split; [done|by exists []]).
    induction Hs; eauto using task_step_inv. }
  destruct Hinv as (_ & fin & Hp & Hr). exists fin. split_and!; [done|done| |].
  - unfold outstanding. destruct (running t) as [[n f]|] eqn:E; [eauto using worker_run|].
    destruct (_tasks t) as [|task rest] eqn:E2; [done|]. eauto using worker_take.
  - intros E. rewrite E, app_nil_r in Hp. by subst fin.
Qed.
End task_thread.
Arguments JME_TaskThread : clear implicits.

(** Witness of C29: one task posted, taken and run. *)
Lemma tasks_fifo_witness :
  exists t : JME_TaskThread Z, rtc task_step JME_TaskThread_new t /\ results t = [(0%nat, 7)].
Proof.
  set (task := (0%nat, fun _ : unit => 7)).
  exists (mkTaskThread false [] None [task] [(0%nat, 7)]).
  assert (Hrun : rtc task_step JME_TaskThread_new (mkTaskThread false [] None [task] [(0%nat, 7)])).
  { eapply rtc_l; [apply (step_post _ (fun _ => 7))|].
    eapply rtc_l; [eapply step_worker, worker_take; reflexivity|].
    eapply rtc_l; [eapply step_worker; eapply (worker_run _ 0%nat (fun _ => 7)); reflexivity|]. apply rtc_refl. }
  split; [exact Hrun|]. destruct (tasks_fifo _ Hrun) as (fin & H1 & H2 & _ & H4). exact (H4 eq_refl).
Defined.
End TaskThread.
