(* ===== verification/GLog.v ===== *)
(** The logger of include/log/JME_GLog.h, JME_GLogLevel.h, JME_GLogColor.h and
    source/log/JME_GLog.cpp: levels, the two line buffers shared by the logging
    threads and the writer thread, and the choice of the log file.

    The text of a call is already formatted by the user's format string; the clock
    and the log directory are arguments: [files] maps a path to the lines
    appended to it. *)
From stdpp Require Import pretty.
From S2P Require Import Prelude.
Local Open Scope Z_scope.

(** ** Levels and colours *)
Inductive GLogLevel : Set :=
  GLog_ALL | GLog_TRACE | GLog_DEBUG | GLog_INFO | GLog_WARN | GLog_ERROR | GLog_FATAL | GLog_OFF.
Inductive GLogColor : Set := Pink | Green | Red | Yellow | White.

#[global] Instance GLogLevel_eq_dec : EqDecision GLogLevel.
Proof. solve_decision. Defined.

(** The values of the enumerators. *)
Definition level_value (l : GLogLevel) : Z :=
  match l with
  | GLog_ALL => 1 | GLog_TRACE => 2 | GLog_DEBUG => 3 | GLog_INFO => 4
  | GLog_WARN => 5 | GLog_ERROR => 6 | GLog_FATAL => 7 | GLog_OFF => 8
  end.
Definition color_value (c : GLogColor) : Z :=
  match c with Pink => 35 | Green => 32 | Red => 31 | Yellow => 33 | White => 37 end.

Definition getGLogLevelName (level : GLogLevel) : string :=
  match level with
  | GLog_ALL => "ALL"
  | GLog_TRACE => "TRACE"
  | GLog_DEBUG => "DEBUG"
  | GLog_INFO => "INFO"
  | GLog_WARN => "WARN"
  | GLog_ERROR => "ERROR"
  | GLog_FATAL => "FATAL"
  | GLog_OFF => "OFF"
  end.

Definition getGLogLevelByValue (val : Z) : GLogLevel :=
  if val =? 1 then GLog_ALL
  else if val =? 2 then GLog_TRACE
  else if val =? 3 then GLog_DEBUG
  else if val =? 4 then GLog_INFO
  else if val =? 5 then GLog_WARN
  else if val =? 6 then GLog_ERROR
  else if val =? 7 then GLog_FATAL
  else if val =? 8 then GLog_OFF
  else GLog_ALL.

(** The macros: level and colour of each. *)
Definition LOGE : GLogLevel * GLogColor := (GLog_ERROR, Red).
Definition LOGI : GLogLevel * GLogColor := (GLog_INFO, Green).
Definition LOGT : GLogLevel * GLogColor := (GLog_TRACE, White).
Definition LOGD : GLogLevel * GLogColor := (GLog_DEBUG, Yellow).
Definition LOGW : GLogLevel * GLogColor := (GLog_WARN, Pink).
Definition LOGF : GLogLevel * GLogColor := (GLog_WARN, Red).

(** ** State *)
Record tm : Set := mk_tm {
  tm_year : Z; tm_mon : Z; tm_mday : Z; tm_hour : Z; tm_min : Z; tm_sec : Z
}.

(** [class GLog]; [_log_stream] is the open file. *)
Record GLog : Set := mkGLog {
  _name : string;
  _log_path : string;
  _last_log_file : string;
  _log_stream : option string;
  _last_time : tm;
  _file_level : GLogLevel;
  _screen_level : GLogLevel;
  _split_index : Z;
  _split_size : Z;
  _write_interval : Z;
  _waiting_list : list string;
  _writing_list : list string
}.

Definition MinWriteLogInterval : Z := 15.

(** [GLog::GLog]; the constructor leaves [_last_time] as the memory has it. *)
Definition GLog_new (t0 : tm) : GLog :=
  mkGLog "" "./log/" "" None t0 GLog_TRACE GLog_TRACE 1 0 MinWriteLogInterval [] [].

Definition set_files (last : string) (stream : option string) (g : GLog) : GLog :=
  mkGLog (_name g) (_log_path g) last stream (_last_time g) (_file_level g) (_screen_level g)
    (_split_index g) (_split_size g) (_write_interval g) (_waiting_list g) (_writing_list g).
Definition set_split (t : tm) (i : Z) (g : GLog) : GLog :=
  mkGLog (_name g) (_log_path g) (_last_log_file g) (_log_stream g) t (_file_level g) (_screen_level g)
    i (_split_size g) (_write_interval g) (_waiting_list g) (_writing_list g).
Definition set_lists (waiting writing : list string) (g : GLog) : GLog :=
  mkGLog (_name g) (_log_path g) (_last_log_file g) (_log_stream g) (_last_time g) (_file_level g) (_screen_level g)
    (_split_index g) (_split_size g) (_write_interval g) waiting writing.

(** [setLogLevel] and [getLogLevel]: the screen level only. *)
Definition setLogLevel (level : GLogLevel) (g : GLog) : GLog :=
  mkGLog (_name g) (_log_path g) (_last_log_file g) (_log_stream g) (_last_time g) (_file_level g) level
    (_split_index g) (_split_size g) (_write_interval g) (_waiting_list g) (_writing_list g).
Definition getLogLevel (g : GLog) : GLogLevel := _screen_level g.

(** [readClassLogLevelConfig]: the members of the configuration; [split_size] is
    an unsigned product, [write_interval] at least fifteen seconds. *)
Definition readClassLogLevelConfig (file_level screen_level : Z) (name log_path : string)
    (split_size write_interval : Z) (g : GLog) : GLog :=
  mkGLog name log_path (_last_log_file g) (_log_stream g) (_last_time g)
    (getGLogLevelByValue file_level) (getGLogLevelByValue screen_level)
    (_split_index g) (u32 (split_size * 1024)) (Z.max write_interval MinWriteLogInterval)
    (_waiting_list g) (_writing_list g).

(** ** Logging *)
Definition checkToFileLogLevel (level : GLogLevel) (g : GLog) : bool :=
  level_value (_file_level g) <=? level_value level.
Definition checkToScreenLogLevel (level : GLogLevel) (g : GLog) : bool :=
  level_value (_screen_level g) <=? level_value level.

(** ["%02d"]. *)
Definition pad2 (z : Z) : string :=
  if (0 <=? z) && (z <? 10) then "0" +:+ pretty z else pretty z.

(** The arguments of a call of [log] besides level and colour, with the time and
    the thread it runs at. *)
Record log_call : Set := mkLogCall {
  call_now : tm; call_thread : string; call_file : string; call_function : string; call_line : Z; call_t1 : string
}.

(** The line: time, place, thread, level and text. *)
Definition log_line (level : GLogLevel) (c : log_call) : string :=
  let now := call_now c in
  let ntm := pretty (tm_year now + 1900) +:+ "-" +:+ pad2 (tm_mon now + 1) +:+ "-" +:+ pad2 (tm_mday now) +:+ " " +:+
             pretty (tm_hour now) +:+ ":" +:+ pretty (tm_min now) +:+ ":" +:+ pretty (tm_sec now) in
  "[" +:+ ntm +:+ "] [" +:+ call_file c +:+ ":" +:+ pretty (call_line c) +:+ ":" +:+ call_function c +:+ ":" +:+
  call_thread c +:+ "] [" +:+ getGLogLevelName level +:+ "] " +:+ call_t1 c +:+
  String (Ascii.ascii_of_nat 10) EmptyString.

(** What reaches the screen: the escape sequence of [setColor] with its number, and
    text. *)
Inductive screen_effect : Set := SetColor (color : Z) | ScreenOut (text : string).
Definition setColor (color : GLogColor) : screen_effect := SetColor (color_value color).

(** [log]. *)
Definition log (level : GLogLevel) (color : GLogColor) (c : log_call) (g : GLog) : GLog * list screen_effect :=
  let isOutFile := checkToFileLogLevel level g in
  let isOutScreen := checkToScreenLogLevel level g in
  if negb isOutFile && negb isOutScreen then (g, [])
  else
    let logStr := log_line level c in
    (if isOutFile then set_lists (_waiting_list g ++ [logStr]) (_writing_list g) g else g,
     if isOutScreen then [setColor color; ScreenOut logStr; setColor White] else []).

(** ** The writer *)
Abbreviation files := (gmap string (list string)) (only parsing).

(** [checkAndUpdateLastCreateFileDate]. *)
Definition checkAndUpdateLastCreateFileDate (now : tm) (g : GLog) : GLog * bool :=
  if negb (tm_year now =? tm_year (_last_time g)) || negb (tm_mon now =? tm_mon (_last_time g)) ||
     negb (tm_mday now =? tm_mday (_last_time g))
  then (set_split now 1 g, true)
  else (g, false).

(** [getCurrentDateTime]. *)
Definition getCurrentDateTime (g : GLog) : string :=
  pretty (tm_year (_last_time g) + 1900) +:+ pad2 (tm_mon (_last_time g) + 1) +:+ pad2 (tm_mday (_last_time g)).

(** [openOrCreateFile]: opening for append creates the file. *)
Definition openOrCreateFile (file : string) (g : GLog) (fs : files) : GLog * gmap string (list string) :=
  let g := if bool_decide (file = _last_log_file g) then g else set_files file None g in
  match _log_stream g with
  | Some _ => (g, fs)
  | None =>
      let f := _last_log_file g in
      (set_files f (Some f) g, match fs !! f with Some _ => fs | None => <[f := []]> fs end)
  end.

(** [st_size]. *)
Definition file_size (lines : list string) : Z :=
  foldr (fun l n => Z.of_nat (String.length l) + n) 0 lines.

Definition log_base (g : GLog) : string := _log_path g +:+ _name g +:+ "." +:+ getCurrentDateTime g +:+ ".log".
Definition split_name (g : GLog) (i : Z) : string := log_base g +:+ "." +:+ pretty i.

(** Whether the [stat] of the loop finds a full file. *)
Definition is_full (split_size : Z) (name : string) (fs : files) : bool :=
  match fs !! name with
  | Some lines => (split_size <=? file_size lines) && negb (split_size =? 0)
  | None => false
  end.

(** The [while(1)] of [checkLogFile]; [None] when the fuel runs out. *)
Fixpoint find_split (fuel : nat) (i : Z) (g : GLog) (fs : files) : option Z :=
  match fuel with
  | O => None
  | S fuel => if is_full (_split_size g) (split_name g i) fs then find_split fuel (i + 1) g fs else Some i
  end.

(** [checkLogFile]; one round more than there are files is enough. *)
Definition checkLogFile (now : tm) (g : GLog) (fs : files) : option (GLog * gmap string (list string)) :=
  let '(g, _) := checkAndUpdateLastCreateFileDate now g in
  if _split_size g <=? 0 then Some (openOrCreateFile (log_base g) g fs)
  else
    match find_split (S (size fs)) (_split_index g) g fs with
    | Some i =>
        let g := set_split (_last_time g) i g in
        Some (openOrCreateFile (split_name g i) g fs)
    | None => None
    end.

(** [run], first part: under the lock, swap the lists when there is something to
    write. *)
Definition run_swap (g : GLog) : GLog * bool :=
  match _waiting_list g with
  | [] => (g, false)
  | _ => (set_lists (_writing_list g) (_waiting_list g) g, true)
  end.

(** [run], second part: write the lines to the stream, flush and clear. *)
Definition run_write (now : tm) (g : GLog) (fs : files) : option (GLog * gmap string (list string)) :=
  '(g, fs) ← checkLogFile now g fs;
  let fs := match _log_stream g with
            | Some f => <[f := default [] (fs !! f) ++ _writing_list g]> fs
            | None => fs
            end in
  Some (set_lists (_waiting_list g) [] g, fs).

(** [~GLog] frees both lists as they are. *)
Definition GLog_destroy (g : GLog) : GLog := set_lists [] [] g.

(** ** The logging threads and the writer thread, interleaved *)
Record log_world : Set := mkLogWorld {
  logger : GLog;
  disk : gmap string (list string);
  swapped : bool
}.

Inductive log_op : Set :=
| LLog (level : GLogLevel) (color : GLogColor) (c : log_call)
| LSwap
| LWrite (now : tm)
| LSetLevel (level : GLogLevel).

(** One step: [LSwap] and [LWrite] are the two parts of [run], in that order;
    [None] when [run_write] has no result. *)
Definition log_step (op : log_op) (w : log_world) : option log_world :=
  match op with
  | LLog level color c => Some (mkLogWorld (log level color c (logger w)).1 (disk w) (swapped w))
  | LSwap =>
      if swapped w then Some w
      else let '(g, b) := run_swap (logger w) in Some (mkLogWorld g (disk w) b)
  | LWrite now =>
      if swapped w then
        '(g, fs) ← run_write now (logger w) (disk w); Some (mkLogWorld g fs false)
      else Some w
  | LSetLevel level => Some (mkLogWorld (setLogLevel level (logger w)) (disk w) (swapped w))
  end.

Fixpoint log_run (ops : list log_op) (w : log_world) : option log_world :=
  match ops with
  | [] => Some w
  | op :: ops => w ← log_step op w; log_run ops w
  end.

(** The lines that the calls of [log] direct to the file. *)
Definition line_of (op : log_op) (w : log_world) : list string :=
  match op with
  | LLog level _ c => if checkToFileLogLevel level (logger w) then [log_line level c] else []
  | _ => []
  end.
Fixpoint lines_of (ops : list log_op) (w : log_world) : list string :=
  match ops with
  | [] => []
  | op :: ops =>
      line_of op w ++ match log_step op w with Some w => lines_of ops w | None => [] end
  end.

(** A batch of lines appended to a file. *)
Definition append_batch (fs : files) (b : string * list string) : gmap string (list string) :=
  <[b.1 := default [] (fs !! b.1) ++ b.2]> fs.

(** * Lemmas *)

(** ** Rotation terminates *)
Lemma split_name_inj g : Inj (=) (=) (split_name g).
Proof. intros i j H. unfold split_name in H. by apply (inj (String.append _)), (inj (String.append _)), (inj pretty) in H. Qed.

Lemma find_split_full fuel i g fs :
  find_split fuel i g fs = None ->
  forall j, (j < fuel)%nat -> is_Some (fs !! split_name g (i + Z.of_nat j)).
Proof.
  revert i. induction fuel as [|fuel IH]; intros i H j Hj; [lia|]. cbn in H.
  destruct (is_full _ (split_name g i) fs) eqn:E; [|done].
  destruct j as [|j].
  - rewrite Z.add_0_r. unfold is_full in E. destruct (fs !! split_name g i); [eauto|done].
  - replace (i + Z.of_nat (S j)) with (i + 1 + Z.of_nat j) by lia. apply IH; [done|lia].
Qed.

Lemma find_split_total i g (fs : files) : exists k, find_split (S (size fs)) i g fs = Some k.
Proof.
  destruct (find_split (S (size fs)) i g fs) as [k|] eqn:E; [eauto|exfalso].
  pose proof (find_split_full _ _ _ _ E) as H.
  set (names := (fun j : nat => split_name g (i + Z.of_nat j)) <$> seq 0 (S (size fs))).
  assert (Hnd : NoDup names).
  { apply NoDup_fmap_2; [|apply NoDup_seq]. intros a b Hab%split_name_inj. lia. }
  assert (Hsub : (list_to_set names : gset string) ⊆ dom fs).
  { intros x. rewrite elem_of_list_to_set. intros (j & -> & Hj%elem_of_seq)%list_elem_of_fmap.
    apply elem_of_dom, H. lia. }
  apply subseteq_size in Hsub. rewrite size_list_to_set, size_dom in Hsub by done.
  unfold names in Hsub. rewrite length_fmap, length_seq in Hsub. lia.
Qed.

Lemma find_split_spec fuel i g fs k :
  find_split fuel i g fs = Some k ->
  i <= k /\ is_full (_split_size g) (split_name g k) fs = false /\
  forall j, i <= j < k -> is_full (_split_size g) (split_name g j) fs = true.
Proof.
  revert i. induction fuel as [|fuel IH]; intros i; [done|]. cbn.
  destruct (is_full _ (split_name g i) fs) eqn:E.
  - intros (H1 & H2 & H3)%IH. split_and!; [lia|done|]. intros j Hj.
    destruct (decide (j = i)) as [->|]; [done|]. apply H3. lia.
  - intros [= <-]. split_and!; [lia|done|lia].
Qed.

(** ** Opening *)
Definition stream_ok (g : GLog) : Prop := forall f, _log_stream g = Some f -> f = _last_log_file g.

Lemma openOrCreateFile_spec file g (fs : files) :
  stream_ok g ->
  let '(g', fs') := openOrCreateFile file g fs in
  _log_stream g' = Some file /\ stream_ok g' /\
  _waiting_list g' = _waiting_list g /\ _writing_list g' = _writing_list g /\ _split_size g' = _split_size g /\
  (forall ls, append_batch fs' (file, ls) = append_batch fs (file, ls)).
Proof.
  intros Hs. unfold openOrCreateFile. set (g1 := if bool_decide _ then g else _).
  assert (H1 : _last_log_file g1 = file /\ (forall f, _log_stream g1 = Some f -> f = file) /\
    _waiting_list g1 = _waiting_list g /\ _writing_list g1 = _writing_list g /\ _split_size g1 = _split_size g).
  { unfold g1. case_bool_decide as E; [|done]. subst file. by split_and!. }
  destruct H1 as (Hl & Hf & Hw1 & Hw2 & Hz1). destruct (_log_stream g1) as [f|] eqn:Ef.
  - rewrite (Hf f eq_refl) in Ef. split_and!; try done. intros f' Ef'. congruence.
  - cbn. rewrite Hl. split_and!; try done; [by intros f [= <-]|]. intros ls. unfold append_batch. cbn.
    destruct (fs !! file) as [old|] eqn:Eold; [by rewrite Eold|].
    by rewrite lookup_insert_eq, insert_insert_eq.
Qed.

(** [checkLogFile] always succeeds and opens a file that is not full. *)
Lemma checkLogFile_spec now g (fs : files) :
  stream_ok g -> exists f g' fs', checkLogFile now g fs = Some (g', fs') /\
  _log_stream g' = Some f /\ stream_ok g' /\
  _waiting_list g' = _waiting_list g /\ _writing_list g' = _writing_list g /\ _split_size g' = _split_size g /\
  (forall ls, append_batch fs' (f, ls) = append_batch fs (f, ls)) /\
  (0 < _split_size g -> is_full (_split_size g) f fs = false).
Proof.
  intros Hs. unfold checkLogFile.
  set (r := checkAndUpdateLastCreateFileDate now g).
  assert (Hr : stream_ok r.1 /\ _waiting_list r.1 = _waiting_list g /\ _writing_list r.1 = _writing_list g /\
    _split_size r.1 = _split_size g) by (unfold r, checkAndUpdateLastCreateFileDate; by case_match).
  destruct r as [g1 b]. cbn in Hr. destruct Hr as (Hs1 & Hw1 & Hw2 & Hsz).
  destruct (Z.leb_spec (_split_size g1) 0) as [Hle|Hgt].
  - pose proof (openOrCreateFile_spec (log_base g1) g1 fs Hs1) as Ho.
    destruct (openOrCreateFile (log_base g1) g1 fs) as [g2 fs2]. destruct Ho as (H1 & H2 & H3 & H4 & H4' & H5).
    exists (log_base g1), g2, fs2. split_and!; try done; try congruence. lia.
  - destruct (find_split_total (_split_index g1) g1 fs) as [k Hk]. rewrite Hk.
    destruct (find_split_spec _ _ _ _ _ Hk) as (_ & Hnf & _).
    set (g2 := set_split (_last_time g1) k g1). change (split_name g2 k) with (split_name g1 k).
    pose proof (openOrCreateFile_spec (split_name g1 k) g2 fs Hs1) as Ho.
    destruct (openOrCreateFile (split_name g1 k) g2 fs) as [g3 fs3]. destruct Ho as (H1 & H2 & H3 & H4 & H4' & H5).
    cbn in H3, H4, H4'. exists (split_name g1 k), g3, fs3.
    split_and!; [done|done|done|congruence|congruence|congruence|done|]. intros _. by rewrite <- Hsz.
Qed.

Lemma run_write_spec now g (fs : files) :
  stream_ok g -> exists f g', run_write now g fs = Some (g', append_batch fs (f, _writing_list g)) /\
  stream_ok g' /\ _waiting_list g' = _waiting_list g /\ _writing_list g' = [] /\ _split_size g' = _split_size g /\
  (0 < _split_size g -> is_full (_split_size g) f fs = false).
Proof.
  intros Hs. destruct (checkLogFile_spec now g fs Hs) as (f & g1 & fs1 & E & H1 & H2 & H3 & H4 & Hz & H5 & H6).
  unfold run_write. rewrite E. cbn. rewrite H1, H4. exists f, (set_lists (_waiting_list g1) [] g1).
  split_and!; try done. specialize (H5 (_writing_list g)). unfold append_batch in H5. cbn in H5. by rewrite <- H5.
Qed.

(** ** Every interleaving *)

(** Every batch goes to a file that is not full when it is appended. *)
Fixpoint batches_fit (split_size : Z) (fs : files) (bs : list (string * list string)) : Prop :=
  match bs with
  | [] => True
  | b :: bs =>
      (0 < split_size -> is_full split_size b.1 fs = false) /\ batches_fit split_size (append_batch fs b) bs
  end.

Definition log_inv (w : log_world) : Prop :=
  stream_ok (logger w) /\ (swapped w = false -> _writing_list (logger w) = []).

(** The lines not yet on the disk, oldest first. *)
Definition pending (w : log_world) : list string := _writing_list (logger w) ++ _waiting_list (logger w).

Lemma log_pending level color c g :
  let g' := (log level color c g).1 in
  _waiting_list g' = _waiting_list g ++ (if checkToFileLogLevel level g then [log_line level c] else []) /\
  _writing_list g' = _writing_list g /\ _log_stream g' = _log_stream g /\
  _last_log_file g' = _last_log_file g /\ _split_size g' = _split_size g.
Proof.
  unfold log. destruct (checkToFileLogLevel level g), (checkToScreenLogLevel level g); cbn;
    by rewrite ?app_nil_r.
Qed.

(** One step: it succeeds, keeps the invariant, and its lines are the last of
    what it writes or keeps pending. *)
Lemma log_step_spec op w :
  log_inv w ->
  exists w' bs, log_step op w = Some w' /\ log_inv w' /\
    _split_size (logger w') = _split_size (logger w) /\
    disk w' = foldl append_batch (disk w) bs /\ batches_fit (_split_size (logger w)) (disk w) bs /\
    concat bs.*2 ++ pending w' = pending w ++ line_of op w.
Proof.
  intros [Hs Hw]. destruct op as [level color c| |now|level]; cbn [log_step line_of].
  - destruct (log_pending level color c (logger w)) as (E1 & E2 & E3 & E4 & E5).
    eexists _, []. split; [done|]. unfold log_inv, stream_ok, pending. cbn.
    rewrite E1, E2, E3, E4, E5, app_assoc. done.
  - rewrite app_nil_r. destruct (swapped w) eqn:Esw.
    + exists w, []. repeat split; try done. by rewrite Esw.
    + unfold run_swap. specialize (Hw eq_refl). destruct (_waiting_list (logger w)) as [|l ls] eqn:El.
      * eexists _, []. split; [done|]. repeat split; try done. 
      * eexists _, []. split; [done|]. unfold log_inv, stream_ok, pending. cbn. rewrite Hw, El, app_nil_r. done.
  - rewrite app_nil_r. destruct (swapped w) eqn:Esw.
    + destruct (run_write_spec now (logger w) (disk w) Hs) as (f & g' & E & H1 & H2 & H3 & H4 & H5).
      rewrite E. cbn. eexists _, [(f, _writing_list (logger w))]. split; [done|].
      unfold log_inv, pending. cbn. rewrite H2, H3, app_nil_r. done.
    + exists w, []. repeat split; try done. by rewrite Esw.
  - eexists _, []. split; [done|]. by rewrite app_nil_r.
Qed.

Lemma batches_fit_app n fs bs1 bs2 :
  batches_fit n fs (bs1 ++ bs2) <-> batches_fit n fs bs1 /\ batches_fit n (foldl append_batch fs bs1) bs2.
Proof. revert fs. induction bs1 as [|b bs1 IH]; intros fs; cbn; [tauto|]. rewrite IH. tauto. Qed.

Lemma log_run_spec ops w :
  log_inv w ->
  exists w' bs, log_run ops w = Some w' /\ log_inv w' /\
    disk w' = foldl append_batch (disk w) bs /\ batches_fit (_split_size (logger w)) (disk w) bs /\
    concat bs.*2 ++ pending w' = pending w ++ lines_of ops w.
Proof.
  revert w. induction ops as [|op ops IH]; intros w Hw; cbn.
  - exists w, []. by rewrite app_nil_r.
  - destruct (log_step_spec op w Hw) as (w1 & bs1 & E1 & I1 & Z1 & D1 & F1 & C1). rewrite E1. cbn.
    destruct (IH w1 I1) as (w2 & bs2 & E2 & I2 & D2 & F2 & C2).
    exists w2, (bs1 ++ bs2). split_and!; [done|done| | |].
    + by rewrite foldl_app, <- D1.
    + rewrite batches_fit_app, <- D1, <- Z1. rewrite <- Z1 in F1. done.
    + by rewrite fmap_app, concat_app, <- (assoc_L (++)), C2, (assoc_L (++)), C1, <- (assoc_L (++)).
Qed.

(** * Properties *)

(** The logger as [readConfig] leaves it. *)
Definition configured (t0 : tm) (file_level screen_level : Z) (name log_path : string)
    (split_size write_interval : Z) : GLog :=
  readClassLogLevelConfig file_level screen_level name log_path split_size write_interval (GLog_new t0).


(** The rotation loop of [checkLogFile] terminates for every directory, and
    it opens the first file of the day, from the current index on (from one when
    the day changed), whose size is below the split size. *)
Theorem rotation_finds_first_free now g (fs : files) :
  stream_ok g -> 0 < _split_size g ->
  let g1 := (checkAndUpdateLastCreateFileDate now g).1 in
  exists k g' fs', checkLogFile now g fs = Some (g', fs') /\ _log_stream g' = Some (split_name g1 k) /\
    _split_index g1 <= k /\ is_full (_split_size g) (split_name g1 k) fs = false /\
    (forall j, _split_index g1 <= j < k -> is_full (_split_size g) (split_name g1 j) fs = true).
Proof.
  intros Hs Hz g1. unfold checkLogFile.
  assert (Hr : stream_ok g1 /\ _split_size g1 = _split_size g)
    by (unfold g1, checkAndUpdateLastCreateFileDate; by case_match).
  unfold g1 in *. destruct (checkAndUpdateLastCreateFileDate now g) as [g2 b]. cbn [fst] in *. destruct Hr as [Hs2 Hz2].
  rewrite <- Hz2. destruct (Z.leb_spec (_split_size g2) 0); [lia|].
  destruct (find_split_total (_split_index g2) g2 fs) as [k Hk]. rewrite Hk.
  destruct (find_split_spec _ _ _ _ _ Hk) as (H1 & H2 & H3).
  pose proof (openOrCreateFile_spec (split_name g2 k) (set_split (_last_time g2) k g2) fs Hs2) as Ho.
  change (split_name (set_split (_last_time g2) k g2) k) with (split_name g2 k).
  destruct (openOrCreateFile _ _ fs) as [g3 fs3]. destruct Ho as (Ho & _). exists k, g3, fs3. done.
Qed.

(** An instance of [rotation_finds_first_free]. *)
Lemma rotation_finds_first_free_witness :
  let g := configured (mk_tm 116 0 5 0 0 0) 1 1 "srv" "./log/" 1 60 in
  exists k g' fs', checkLogFile (mk_tm 116 0 5 9 0 0) g ∅ = Some (g', fs') /\
    _log_stream g' = Some (split_name g k) /\ 1 <= k.
Proof.
  intros g. destruct (rotation_finds_first_free (mk_tm 116 0 5 9 0 0) g ∅) as (k & g' & fs' & H1 & H2 & H3 & _).
  - intros f [=].
  - cbn. reflexivity.
  - exists k, g', fs'. done.
Defined.

(** Filtering: with a configured value from 1 to 8 a call reaches the file
    exactly when its level is not below the configured one, any other value lets
    every level through; and [LOGF], which carries the level of a warning, is
    lost to a file that keeps errors and worse. *)
Theorem log_level_filter v sl t0 name path split interval level color c :
  let g := configured t0 v sl name path split interval in
  _waiting_list (log level color c g).1 =
    (if (1 <=? v) && (v <=? 8) && negb (v <=? level_value level) then [] else [log_line level c]) /\
  (v = level_value GLog_ERROR -> (log LOGF.1 LOGF.2 c g).1 = g).
Proof.
  intros g. split.
  - destruct (log_pending level color c g) as (-> & _). cbn. unfold checkToFileLogLevel. cbn.
    unfold getGLogLevelByValue.
    repeat match goal with
           | |- context [v =? ?k] => destruct (Z.eqb_spec v k) as [Hv|]; [clear g; subst v; by destruct level|]
           end.
    destruct (Z.leb_spec 1 v), (Z.leb_spec v 8); [lia|by destruct level..].
  - intros Hv. unfold log. replace (checkToFileLogLevel LOGF.1 g) with false by (unfold g; rewrite Hv; done).
    cbn [negb andb]. by destruct (checkToScreenLogLevel _ g).
Qed.

(** An instance of [log_level_filter]. *)
Lemma log_level_filter_witness :
  let g := configured (mk_tm 116 0 5 0 0 0) 6 1 "srv" "./log/" 0 60 in
  let c := mkLogCall (mk_tm 116 0 5 9 0 0) "1" "main.cpp" "main" 3 "x" in
  _waiting_list (log GLog_FATAL Red c g).1 = [log_line GLog_FATAL c] /\ (log LOGF.1 LOGF.2 c g).1 = g.
Proof.
  intros g c. destruct (log_level_filter 6 1 (mk_tm 116 0 5 0 0 0) "srv" "./log/" 0 60 GLog_FATAL Red c) as [H1 H2].
  split; [exact H1|apply H2; reflexivity].
Defined.
