(* ===== verification/Game.v ===== *)
(** The tools for game logic under backup/include/game: random numbers and weighted
    choice (JME_Random.h), the event center (JME_GameEventCenter.h) and the message
    dispatcher (JME_Dispatcher.h).

    [None] is an assertion that fails, an [abort], a division by zero or a signed
    overflow. *)
From stdpp Require Import gmap list sorting.
From S2P Require Import Prelude.
Local Open Scope Z_scope.

(** A result of signed 32-bit arithmetic. *)
Definition int_ (z : Z) : option Z := if (- 2 ^ 31 <=? z) && (z <? 2 ^ 31) then Some z else None.

Lemma int_ok z : - 2 ^ 31 <= z < 2 ^ 31 -> int_ z = Some z.
Proof. intros H. unfold int_. by replace ((- 2 ^ 31 <=? z) && (z <? 2 ^ 31)) with true by lia. Qed.

(** * Random numbers *)
Module Random.
Section Random.
(** [rand_after s] is the value of [rand] after [srand(s)]. *)
Context (rand_after : Z -> Z).

Record JME_RandSeed : Set := mkSeed { _prob : Z; _bindId : Z; _begin : Z; _end : Z }.
Definition RandSeed (prob bindId : Z) : JME_RandSeed := mkSeed prob bindId 0 0.

(** The state is [_randomSeed], a 64-bit [time_t]; [srand] takes 32 bits of it. *)
Definition randomInt (seed : Z) : Z * Z :=
  let ra := Z.max 1 (rand_after (u32 seed)) in
  (ra, swrap 64 (seed + ra)).

(** [randomInt(start, end)]. *)
Definition randomInt_range (start end_ : Z) (seed : Z) : option (Z * Z) :=
  if start <=? end_ then
    let '(ra, seed) := randomInt seed in
    d ← int_ (end_ - start);
    d ← int_ (d + 1);
    if d =? 0 then None
    else
      ra ← int_ (Z.rem ra d + start);
      Some (ra, seed)
  else None.

Definition randomGreater (perc : Z) (seed : Z) : option (bool * Z) :=
  '(ra, seed) ← randomInt_range 1 100 seed;
  Some (perc <=? ra, seed).

(** The loops of [randomBySeeds]: the intervals, and the search. *)
Fixpoint assign (previous : Z) (seeds : list JME_RandSeed) : option (list JME_RandSeed) :=
  match seeds with
  | [] => Some []
  | s :: seeds =>
      e ← int_ (previous + _prob s);
      l ← assign e seeds;
      Some (mkSeed (_prob s) (_bindId s) previous e :: l)
  end.
Fixpoint search (ra : Z) (seeds : list JME_RandSeed) (i : Z) : Z :=
  match seeds with
  | [] => -1
  | s :: seeds => if (_begin s <=? ra) && (ra <? _end s) then i else search ra seeds (i + 1)
  end.

(** [randomBySeeds]: the index, the seeds with their intervals, and the state. *)
Definition randomBySeeds (seeds : list JME_RandSeed) (seed : Z) : option (Z * list JME_RandSeed * Z) :=
  match seeds with
  | [] => None
  | _ =>
      seeds ← assign 1 seeds;
      l ← last seeds;
      rmax ← int_ (_end l - 1);
      '(ra, seed) ← randomInt_range 1 rmax seed;
      Some (search ra seeds 0, seeds, seed)
  end.
End Random.

(** ** Weights *)
Fixpoint weight (seeds : list JME_RandSeed) : Z := match seeds with [] => 0 | s :: seeds => _prob s + weight seeds end.

Lemma weight_nonneg seeds : Forall (fun s => 0 <= _prob s) seeds -> 0 <= weight seeds.
Proof. induction 1 as [|s seeds Hs _ IH]; cbn; lia. Qed.

(** The intervals that [assign] gives out. *)
Fixpoint intervals (b : Z) (seeds : list JME_RandSeed) : list JME_RandSeed :=
  match seeds with
  | [] => []
  | s :: seeds => mkSeed (_prob s) (_bindId s) b (b + _prob s) :: intervals (b + _prob s) seeds
  end.

Lemma assign_intervals b seeds : 1 <= b -> Forall (fun s => 0 <= _prob s) seeds -> b + weight seeds < 2 ^ 31 ->
  assign b seeds = Some (intervals b seeds).
Proof.
  intros Hb H. revert b Hb. induction H as [|s seeds Hs Hall IH]; intros b Hb Hw; [done|]. cbn in *.
  pose proof (weight_nonneg _ Hall). rewrite int_ok by lia. cbn [mbind option_bind]. rewrite IH by lia. done.
Qed.

Lemma last_end b s seeds : exists l, last (intervals b (s :: seeds)) = Some l /\ _end l = b + weight (s :: seeds).
Proof.
  revert b s. induction seeds as [|t seeds IH]; intros b s; [eexists; split; [done|]; cbn; lia|].
  destruct (IH (b + _prob s) t) as (l & E & H). exists l. split; [exact E|]. rewrite H. cbn. lia.
Qed.

(** How many of the values [b, ..., b + weight - 1] choose index [i]. *)
Definition hits (b : Z) (seeds : list JME_RandSeed) (i : Z) : Z :=
  zlen (filter (fun ra => search ra (intervals b seeds) 0 = i) (seqZ b (weight seeds))).

Lemma search_shift ra seeds i : search ra seeds i = -1 /\ search ra seeds 0 = -1 \/
  search ra seeds i = i + search ra seeds 0 /\ 0 <= search ra seeds 0.
Proof.
  revert i. induction seeds as [|s seeds IH]; intros i; cbn [search]; [by left|].
  destruct ((_begin s <=? ra) && (ra <? _end s)); [right; lia|]. destruct (IH (i + 1)), (IH (0 + 1)); lia.
Qed.

Lemma search_first ra b s seeds : b <= ra < b + _prob s -> search ra (intervals b (s :: seeds)) 0 = 0.
Proof. intros H. cbn. by replace ((b <=? ra) && (ra <? b + _prob s)) with true by lia. Qed.
Lemma search_later ra b s seeds : 0 <= _prob s -> b + _prob s <= ra ->
  search ra (intervals b (s :: seeds)) 0 =
    (let r := search ra (intervals (b + _prob s) seeds) 0 in if r =? -1 then -1 else r + 1).
Proof.
  intros H0 H. cbn [intervals search _begin _end]. replace ((b <=? ra) && (ra <? b + _prob s)) with false by lia. cbv zeta.
  destruct (search_shift ra (intervals (b + _prob s) seeds) (0 + 1)) as [[-> ->]|[-> Hr]]; [done|].
  destruct (Z.eqb_spec (search ra (intervals (b + _prob s) seeds) 0) (-1)); lia.
Qed.

Lemma seqZ_two m n k : 0 <= n -> 0 <= k -> seqZ m (n + k) = seqZ m n ++ seqZ (m + n) k.
Proof. intros. by rewrite seqZ_app. Qed.

Lemma filter_all (P : Z -> Prop) `{forall x, Decision (P x)} (l : list Z) : Forall P l -> filter P l = l.
Proof. induction 1 as [|x l Hx _ IH]; [done|]. rewrite filter_cons_True by done. by rewrite IH. Qed.
Lemma filter_none (P : Z -> Prop) `{forall x, Decision (P x)} (l : list Z) : Forall (fun x => ~ P x) l -> filter P l = [].
Proof. induction 1 as [|x l Hx _ IH]; [done|]. by rewrite filter_cons_False. Qed.

Lemma filter_ext (P Q : Z -> Prop) `{forall x, Decision (P x)} `{forall x, Decision (Q x)} (l : list Z) :
  Forall (fun x => P x <-> Q x) l -> filter P l = filter Q l.
Proof.
  induction 1 as [|x l Hx _ IH]; [done|]. destruct (decide (Q x)).
  - rewrite !filter_cons_True by tauto. by rewrite IH.
  - rewrite !filter_cons_False by tauto. done.
Qed.

(** Every index is hit exactly as often as its weight says. *)
Lemma hits_weight b seeds i s : Forall (fun s => 0 <= _prob s) seeds -> seeds !! i = Some s ->
  hits b seeds (Z.of_nat i) = _prob s.
Proof.
  intros H. revert b i. induction H as [|t seeds Ht Hall IH]; intros b i Hi; [done|]. unfold hits. cbn [weight].
  pose proof (weight_nonneg _ Hall). rewrite seqZ_two, filter_app by lia. rewrite zlen_app.
  assert (Hfirst : Forall (fun ra => search ra (intervals b (t :: seeds)) 0 = 0) (seqZ b (_prob t))).
  { apply Forall_seqZ. intros ra Hra. apply search_first. lia. }
  assert (Hlater : forall j : Z, zlen (filter (fun ra => search ra (intervals b (t :: seeds)) 0 = j) (seqZ (b + _prob t) (weight seeds))) =
    zlen (filter (fun ra => (let r := search ra (intervals (b + _prob t) seeds) 0 in if r =? -1 then -1 else r + 1) = j)
      (seqZ (b + _prob t) (weight seeds)))).
  { intros j. unfold zlen. do 2 f_equal. apply filter_ext. rewrite Forall_seqZ. intros ra Hra.
    by rewrite search_later by lia. }
  rewrite Hlater. destruct i as [|i].
  - injection Hi as <-. rewrite filter_all by done. rewrite filter_none; [unfold zlen; rewrite length_seqZ; cbn; lia|].
    apply Forall_seqZ. intros ra Hra. cbv zeta. destruct (search_shift ra (intervals (b + _prob t) seeds) 0) as [[_ ->]|[_ ?]]; [done|].
    destruct (Z.eqb_spec (search ra (intervals (b + _prob t) seeds) 0) (-1)); lia.
  - rewrite filter_none; [|eapply Forall_impl; [exact Hfirst|]; cbv beta; intros ra ->; lia]. change (zlen (@nil Z)) with 0. rewrite Z.add_0_l.
    rewrite <- (IH (b + _prob t) i Hi). unfold hits, zlen. do 2 f_equal. apply filter_ext. rewrite Forall_seqZ. intros ra Hra.
    cbv zeta. destruct (search_shift ra (intervals (b + _prob t) seeds) 0) as [[_ ->]|[_ ?]]; [cbn; lia|].
    destruct (Z.eqb_spec (search ra (intervals (b + _prob t) seeds) 0) (-1)); lia.
Qed.

Lemma search_found b seeds ra : Forall (fun s => 0 <= _prob s) seeds -> b <= ra < b + weight seeds ->
  exists i s, search ra (intervals b seeds) 0 = Z.of_nat i /\ seeds !! i = Some s /\ 0 < _prob s.
Proof.
  intros H. revert b. induction H as [|t seeds Ht Hall IH]; intros b Hra; cbn [weight] in Hra; [lia|].
  destruct (Z_lt_ge_dec ra (b + _prob t)) as [Hlt|Hge].
  - exists 0%nat, t. rewrite search_first by lia. split_and!; [done|done|lia].
  - destruct (IH (b + _prob t)) as (i & s & E & Hi & Hp); [lia|]. exists (S i), s. rewrite search_later by lia. rewrite E. cbv zeta.
    destruct (Z.eqb_spec (Z.of_nat i) (-1)); [lia|]. split_and!; [lia|done|done].
Qed.

Lemma randomInt_range_ok (rand_after : Z -> Z) start end_ seed :
  (forall x, 0 <= rand_after x) -> start <= end_ -> - 2 ^ 31 <= start -> end_ < 2 ^ 31 -> end_ - start + 1 < 2 ^ 31 ->
  let ra := Z.max 1 (rand_after (u32 seed)) in
  randomInt_range rand_after start end_ seed = Some (ra mod (end_ - start + 1) + start, swrap 64 (seed + ra)).
Proof.
  intros Hr Hse H1 H2 H3 ra. unfold randomInt_range, randomInt. fold ra. replace (start <=? end_) with true by lia.
  rewrite !int_ok by lia. cbn [mbind option_bind]. rewrite int_ok by lia. cbn [mbind option_bind].
  destruct (Z.eqb_spec (end_ - start + 1) 0); [lia|]. rewrite Z.rem_mod_nonneg by lia.
  pose proof (Z.mod_pos_bound ra (end_ - start + 1) ltac:(lia)). rewrite int_ok by lia. done.
Qed.



(** Weights that are all zero fail the assertion of [randomInt]. *)
Lemma random_by_zero_seeds (rand_after : Z -> Z) (seeds : list JME_RandSeed) (seed : Z) :
  Forall (fun s => _prob s = 0) seeds -> randomBySeeds rand_after seeds seed = None.
Proof.
  intros Hp. destruct seeds as [|s seeds]; [done|]. unfold randomBySeeds.
  assert (Hw : weight (s :: seeds) = 0) by (induction Hp; cbn; lia).
  rewrite assign_intervals; [|done|by eapply Forall_impl; [exact Hp|]; cbn; lia|lia]. cbn [mbind option_bind].
  destruct (last_end 1 s seeds) as (l & -> & El). cbn [mbind option_bind]. rewrite El, Hw. done.
Qed.
End Random.

(** * The event center *)

(** What boost::signals2 promises: a signal holds slots in the order in which it calls
    them, by group and within a group by connection; [disconnect] takes away every
    slot of a handler. *)
Class Signal (H S : Type) : Type := {
  sig_new : S;
  sig_connect : Z -> H -> S -> S;
  sig_disconnect : H -> S -> S;
  sig_empty : S -> bool;
  sig_slots : S -> list (Z * H)
}.
Fixpoint add_slot {H} (g : Z) (h : H) (l : list (Z * H)) : list (Z * H) :=
  match l with
  | [] => [(g, h)]
  | x :: l' => if g <? x.1 then (g, h) :: l else x :: add_slot g h l'
  end.
Class SignalLaws (H S : Type) `{EqDecision H} `{Signal H S} : Prop := {
  slots_new : sig_slots sig_new = [];
  slots_connect g h s : sig_slots (sig_connect g h s) = add_slot g h (sig_slots s);
  slots_disconnect h s : sig_slots (sig_disconnect h s) = filter (fun x => x.2 <> h) (sig_slots s);
  slots_empty s : sig_empty s = true <-> sig_slots s = []
}.

Module Events.
Section Events.
Set Default Proof Using "All".
Context {T H S : Type} `{EqDecision T} `{!Countable T} `{!EqDecision H} {SG : Signal H S} {SL : SignalLaws H S}.

Definition DEFAULT_SLOT : Z := 50.

(** [_events] maps an event to the address of its observer; [observers] are the
    observers that exist. *)
Record GameEventCenter : Type := mkCenter { _events : gmap T nat; observers : gmap nat S; next_ : nat }.
Definition new_center : GameEventCenter := mkCenter ∅ ∅ 0.

(** [regEventHandler] with a slot; the other variants have the default slot or give
    the connection back. *)
Definition regEventHandler_slot (slot : Z) (evt : T) (handler : H) (c : GameEventCenter) : option GameEventCenter :=
  match _events c !! evt with
  | Some p =>
      obs ← observers c !! p;
      Some (mkCenter (_events c) (<[p := sig_connect slot handler obs]> (observers c)) (next_ c))
  | None =>
      let p := next_ c in
      Some (mkCenter (<[evt := p]> (_events c)) (<[p := sig_connect slot handler sig_new]> (observers c)) (Datatypes.S p))
  end.
Definition regEventHandler (evt : T) (handler : H) (c : GameEventCenter) : option GameEventCenter :=
  regEventHandler_slot DEFAULT_SLOT evt handler c.

Definition removeEventHandler (evt : T) (handler : H) (c : GameEventCenter) : option GameEventCenter :=
  match _events c !! evt with
  | Some p =>
      obs ← observers c !! p;
      Some (mkCenter (_events c) (<[p := sig_disconnect handler obs]> (observers c)) (next_ c))
  | None => Some c
  end.

(** [eventCallback]: the handlers it calls, and the center. [act] is what these
    handlers do to the center. The observer is looked at again after they ran, and the
    entry of the event is erased through the iterator from before. *)
Definition eventCallback (act : GameEventCenter -> option GameEventCenter) (evt : T) (c : GameEventCenter)
    : option (list H * GameEventCenter) :=
  match _events c !! evt with
  | Some p =>
      obs ← observers c !! p;
      let calls := (sig_slots obs).*2 in
      c ← act c;
      obs ← observers c !! p;
      if sig_empty obs then
        q ← _events c !! evt;
        if (q =? p)%nat then Some (calls, mkCenter (delete evt (_events c)) (delete p (observers c)) (next_ c)) else None
      else Some (calls, c)
  | None => Some ([], c)
  end.

(** ** The listeners it stands for *)
Definition listeners (evt : T) (c : GameEventCenter) : list (Z * H) :=
  match _events c !! evt with
  | Some p => match observers c !! p with Some obs => sig_slots obs | None => [] end
  | None => []
  end.

(** Every event has its own observer, and there are no others. *)
Record center_ok (c : GameEventCenter) : Prop := {
  ce_observer evt p : _events c !! evt = Some p -> is_Some (observers c !! p);
  ce_own evt evt' p : _events c !! evt = Some p -> _events c !! evt' = Some p -> evt = evt';
  ce_used p : is_Some (observers c !! p) -> exists evt, _events c !! evt = Some p;
  ce_next p : is_Some (observers c !! p) -> (p < next_ c)%nat
}.

Lemma new_center_ok : center_ok new_center.
Proof. split; intros *; cbn; rewrite ?lookup_empty; try done; by intros [? ?]. Qed.

(** An observer is exchanged for another. *)
Lemma update_observer c evt p obs obs' :
  center_ok c -> _events c !! evt = Some p -> observers c !! p = Some obs ->
  let c' := mkCenter (_events c) (<[p := obs']> (observers c)) (next_ c) in
  center_ok c' /\ listeners evt c' = sig_slots obs' /\ forall e, e <> evt -> listeners e c' = listeners e c.
Proof.
  intros [K1 K2 K3 K4] Hp Ho c'. split; [|split].
  - split; cbn.
    + intros e q He. rewrite lookup_insert_is_Some'. eauto.
    + eauto.
    + intros q [->|Hq]%lookup_insert_is_Some'; eauto.
    + intros q [->|Hq]%lookup_insert_is_Some'; eauto.
  - unfold listeners. cbn. by rewrite Hp, lookup_insert_eq.
  - intros e Hne. unfold listeners. cbn. destruct (_events c !! e) as [q|] eqn:Eq; [|done].
    rewrite lookup_insert_ne; [done|]. intros ->. by apply Hne, (K2 e evt q).
Qed.

(** A handler is added behind those of its slot, for its event only. *)
Lemma reg_ok c slot evt h : center_ok c ->
  exists c', regEventHandler_slot slot evt h c = Some c' /\ center_ok c' /\
    listeners evt c' = add_slot slot h (listeners evt c) /\ forall e, e <> evt -> listeners e c' = listeners e c.
Proof.
  intros K. unfold regEventHandler_slot. destruct (_events c !! evt) as [p|] eqn:Ep.
  - destruct (ce_observer c K evt p Ep) as [obs Ho]. rewrite Ho. cbn [mbind option_bind]. eexists. split; [done|].
    destruct (update_observer c evt p obs (sig_connect slot h obs) K Ep Ho) as (K' & L & F). split; [exact K'|]. split; [|exact F].
    rewrite L, slots_connect. unfold listeners. by rewrite Ep, Ho.
  - eexists. split; [done|]. destruct K as [K1 K2 K3 K4].
    assert (Hn : observers c !! next_ c = None).
    { destruct (observers c !! next_ c) eqn:E; [|done]. specialize (K4 (next_ c) (ltac:(by rewrite E))). lia. }
    split; [|split].
    + split; cbn.
      * intros e q. destruct (decide (e = evt)) as [->|Hne]; [rewrite lookup_insert_eq; intros [= <-]|rewrite lookup_insert_ne by done; intros He];
          rewrite lookup_insert_is_Some'; eauto.
      * intros e e' q. destruct (decide (e = evt)) as [->|Hne], (decide (e' = evt)) as [->|Hne'];
          rewrite ?lookup_insert_eq, ?lookup_insert_ne by done; try done; eauto.
        -- intros [= <-] He'. destruct (K1 _ _ He') as [? ?]. congruence.
        -- intros He [= <-]. destruct (K1 _ _ He) as [? ?]. congruence.
      * intros q [<-|Hq]%lookup_insert_is_Some'; [exists evt; by rewrite lookup_insert_eq|].
        destruct (K3 q Hq) as [e He]. exists e. rewrite lookup_insert_ne; [done|]. intros ->. congruence.
      * intros q [<-|Hq]%lookup_insert_is_Some'; [lia|]. specialize (K4 q Hq). lia.
    + unfold listeners. cbn. by rewrite !lookup_insert_eq, Ep, slots_connect, slots_new.
    + intros e Hne. unfold listeners. cbn. rewrite lookup_insert_ne by done. destruct (_events c !! e) as [q|] eqn:Eq; [|done].
      rewrite lookup_insert_ne; [done|]. intros <-. destruct (K1 _ _ Eq). congruence.
Qed.

Lemma remove_ok c evt h : center_ok c ->
  exists c', removeEventHandler evt h c = Some c' /\ center_ok c' /\
    listeners evt c' = filter (fun x => x.2 <> h) (listeners evt c) /\ forall e, e <> evt -> listeners e c' = listeners e c.
Proof.
  intros K. unfold removeEventHandler. destruct (_events c !! evt) as [p|] eqn:Ep.
  - destruct (ce_observer c K evt p Ep) as [obs Ho]. rewrite Ho. cbn [mbind option_bind]. eexists. split; [done|].
    destruct (update_observer c evt p obs (sig_disconnect h obs) K Ep Ho) as (K' & L & F). split; [exact K'|]. split; [|exact F].
    rewrite L, slots_disconnect. unfold listeners. by rewrite Ep, Ho.
  - exists c. split_and!; try done. unfold listeners. by rewrite Ep.
Qed.

Lemma callback_ok c evt : center_ok c ->
  exists c', eventCallback Some evt c = Some ((listeners evt c).*2, c') /\ center_ok c' /\ (forall e, listeners e c' = listeners e c) /\
    (listeners evt c = [] -> _events c' !! evt = None).
Proof.
  intros K. unfold eventCallback. destruct (_events c !! evt) as [p|] eqn:Ep.
  - destruct (ce_observer c K evt p Ep) as [obs Ho]. rewrite Ho. cbn [mbind option_bind]. rewrite Ho. cbn [mbind option_bind].
    assert (El : listeners evt c = sig_slots obs) by (unfold listeners; by rewrite Ep, Ho). rewrite El.
    destruct (sig_empty obs) eqn:Ee; (eexists; split; [by rewrite ?Ep, ?Nat.eqb_refl; cbn [mbind option_bind]; rewrite ?Nat.eqb_refl|]).
    + apply slots_empty in Ee. split_and!; [| |by cbn; rewrite lookup_delete_eq].
      * destruct K as [K1 K2 K3 K4]. split; cbn.
        -- intros e q [Hne He]%lookup_delete_Some. rewrite lookup_delete_is_Some. split; [|eauto]. intros ->. by apply Hne, (K2 evt e q).
        -- intros e e' q [_ He]%lookup_delete_Some [_ He']%lookup_delete_Some. eauto.
        -- intros q [Hne Hq]%lookup_delete_is_Some. destruct (K3 q Hq) as [e He]. exists e. rewrite lookup_delete_ne; [done|]. intros ->. congruence.
        -- intros q [_ Hq]%lookup_delete_is_Some. eauto.
      * intros e. unfold listeners. cbn. destruct (decide (e = evt)) as [->|Hne]; [by rewrite lookup_delete_eq, Ep, Ho, Ee|].
        rewrite lookup_delete_ne by done. destruct (_events c !! e) as [q|] eqn:Eq; [|done].
        rewrite lookup_delete_ne; [done|]. intros ->. by apply Hne, (ce_own c K e evt q).
    + split_and!; try done. intros Hs. apply slots_empty in Hs. congruence.
  - exists c. unfold listeners. rewrite Ep. by split_and!.
Qed.

(** A handler that takes itself out and raises its event again deletes the observer
    that the outer call still uses. *)
Lemma event_reentry_fails c evt slot h :
  center_ok c -> listeners evt c = [(slot, h)] ->
  eventCallback (fun c => c ← removeEventHandler evt h c; '(_, c) ← eventCallback Some evt c; Some c) evt c = None.
Proof.
  intros K Hl. unfold eventCallback at 1. destruct (_events c !! evt) as [p|] eqn:Ep; [|by unfold listeners in Hl; rewrite Ep in Hl].
  destruct (ce_observer c K evt p Ep) as [obs Ho]. rewrite Ho. cbn [mbind option_bind].
  destruct (remove_ok c evt h K) as (c1 & E1 & K1 & L1 & _). rewrite E1. cbn [mbind option_bind].
  destruct (callback_ok c1 evt K1) as (c2 & E2 & K2 & _ & N). rewrite E2. cbn [mbind option_bind].
  assert (Ee : _events c2 !! evt = None).
  { apply N. rewrite L1, Hl, filter_cons_False; [done|]. cbn. tauto. }
  destruct (observers c2 !! p) as [o|] eqn:Eo; [|done]. cbn [mbind option_bind]. rewrite Ee. destruct (sig_empty o) eqn:Es; [done|].
  destruct (ce_used c2 K2 p (ltac:(by rewrite Eo))) as [e He]. exfalso.
  assert (Hevt : e <> evt) by (intros ->; congruence).
  unfold removeEventHandler in E1. rewrite Ep, Ho in E1. cbn in E1. injection E1 as <-.
  unfold eventCallback in E2. cbn in E2. rewrite Ep in E2. cbn in E2. rewrite lookup_insert_eq in E2. cbn in E2.
  destruct (sig_empty (sig_disconnect h obs)).
  - rewrite ?Ep, Nat.eqb_refl in E2. injection E2 as _ <-. cbn in Eo. by rewrite lookup_delete_eq in Eo.
  - injection E2 as _ <-. cbn in Ee. congruence.
Qed.

(** ** A use of the center *)
Inductive Op : Type := Reg (slot : Z) (evt : T) (h : H) | Remove (evt : T) (h : H) | Fire (evt : T).
Fixpoint run (ops : list Op) (c : GameEventCenter) : option (list (T * list H) * GameEventCenter) :=
  match ops with
  | [] => Some ([], c)
  | Reg slot evt h :: ops => c ← regEventHandler_slot slot evt h c; run ops c
  | Remove evt h :: ops => c ← removeEventHandler evt h c; run ops c
  | Fire evt :: ops => '(calls, c) ← eventCallback Some evt c; '(l, c) ← run ops c; Some ((evt, calls) :: l, c)
  end.

(** The specification: a list of listeners per event. *)
Definition set_listeners (evt : T) (l : list (Z * H)) (m : T -> list (Z * H)) (e : T) : list (Z * H) :=
  if decide (e = evt) then l else m e.
Fixpoint spec (ops : list Op) (m : T -> list (Z * H)) : list (T * list H) :=
  match ops with
  | [] => []
  | Reg slot evt h :: ops => spec ops (set_listeners evt (add_slot slot h (m evt)) m)
  | Remove evt h :: ops => spec ops (set_listeners evt (filter (fun x => x.2 <> h) (m evt)) m)
  | Fire evt :: ops => (evt, (m evt).*2) :: spec ops m
  end.

Lemma spec_ext ops m m' : (forall e, m e = m' e) -> spec ops m = spec ops m'.
Proof.
  revert m m'. induction ops as [|[slot evt h|evt h|evt] ops IH]; intros m m' E; cbn; [done|..].
  - apply IH. intros e. unfold set_listeners. rewrite E. by destruct (decide _).
  - apply IH. intros e. unfold set_listeners. rewrite E. by destruct (decide _).
  - by rewrite E, (IH m m').
Qed.

Lemma set_listeners_eq c c' evt l :
  listeners evt c' = l -> (forall e, e <> evt -> listeners e c' = listeners e c) ->
  forall e, listeners e c' = set_listeners evt l (fun e => listeners e c) e.
Proof. intros E F e. unfold set_listeners. destruct (decide (e = evt)) as [->|Hne]; auto. Qed.

(** Listeners are kept by slot. *)
Definition by_slot : list (Z * H) -> Prop := StronglySorted (fun x y => x.1 <= y.1).
Lemma add_slot_sorted slot h (l : list (Z * H)) :
  by_slot l -> by_slot (add_slot slot h l).
Proof.
  induction 1 as [|x l Hs IH Hx]; cbn; [by repeat constructor|]. destruct (Z.ltb_spec slot x.1) as [Hlt|Hge].
  - constructor; [by constructor|]. constructor; [cbn; lia|]. eapply Forall_impl; [exact Hx|]. cbn. lia.
  - constructor; [done|]. clear Hs IH. induction Hx as [|y l Hy Hl IHl]; cbn; [by constructor|].
    destruct (Z.ltb_spec slot y.1); repeat (constructor; try done).
Qed.

Lemma filter_sorted (h : H) (l : list (Z * H)) : by_slot l -> by_slot (filter (fun x => x.2 <> h) l).
Proof.
  unfold by_slot. induction 1 as [|x l Hs IH Hx]; [constructor|]. destruct (decide (x.2 <> h)).
  - rewrite filter_cons_True by done. constructor; [done|]. rewrite Forall_forall in *. intros y [_ Hy]%list_elem_of_filter. auto.
  - by rewrite filter_cons_False by done.
Qed.

Lemma run_spec ops c : center_ok c -> (forall e, by_slot (listeners e c)) ->
  exists c', run ops c = Some (spec ops (fun e => listeners e c), c') /\ center_ok c' /\ (forall e, by_slot (listeners e c')).
Proof.
  revert c. induction ops as [|[slot evt h|evt h|evt] ops IH]; intros c K Hs; cbn [run spec]; [by exists c|..].
  - destruct (reg_ok c slot evt h K) as (c1 & -> & K1 & L & F). cbn [mbind option_bind].
    destruct (IH c1 K1) as (c2 & -> & K2); [intros e; destruct (decide (e = evt)) as [->|]; [rewrite L|rewrite F by done]; auto using add_slot_sorted, filter_sorted|].
    exists c2. split; [|done]. do 2 f_equal. apply spec_ext, (set_listeners_eq c c1); auto.
  - destruct (remove_ok c evt h K) as (c1 & -> & K1 & L & F). cbn [mbind option_bind].
    destruct (IH c1 K1) as (c2 & -> & K2); [intros e; destruct (decide (e = evt)) as [->|]; [rewrite L|rewrite F by done]; auto using add_slot_sorted, filter_sorted|].
    exists c2. split; [|done]. do 2 f_equal. apply spec_ext, (set_listeners_eq c c1); auto.
  - destruct (callback_ok c evt K) as (c1 & -> & K1 & L & _). cbn [mbind option_bind]. destruct (IH c1 K1) as (c2 & -> & K2); [intros e; by rewrite L|].
    exists c2. cbn [mbind option_bind]. split; [|done]. do 3 f_equal. by apply spec_ext.
Qed.

End Events.
End Events.

(** Lists of slots are a signal. *)
Definition list_signal : Signal Z (list (Z * Z)) := {|
  sig_new := [];
  sig_connect := add_slot;
  sig_disconnect h := filter (fun x => x.2 <> h);
  sig_empty l := match l with [] => true | _ => false end;
  sig_slots l := l
|}.
Lemma list_signal_laws : @SignalLaws Z (list (Z * Z)) _ list_signal.
Proof. split; try done. intros s. by destruct s. Qed.


(** * The dispatcher of messages *)
Module Dispatcher.
Section Dispatcher.
Context {H : Type}.
Abbreviation MessageHandlerMap := (gmap Z H).

(** [regMessageHandler(msgId, handler)] aborts when the message has a handler. *)
Definition regMessageHandler (msgId : Z) (handler : H) (m : MessageHandlerMap) : option MessageHandlerMap :=
  match m !! msgId with Some _ => None | None => Some (<[msgId := handler]> m) end.

(** [regMessageHandler(beginMsg, endMsg, handler)]; the counter is an [int]. *)
Fixpoint reg_loop (fuel : nat) (i endMsg : Z) (handler : H) (m : MessageHandlerMap) : option MessageHandlerMap :=
  if i <=? endMsg then
    match fuel with
    | O => None
    | S fuel => m ← regMessageHandler i handler m; i ← int_ (i + 1); reg_loop fuel i endMsg handler m
    end
  else Some m.
Definition regMessageHandler_range (beginMsg endMsg : Z) (handler : H) (m : MessageHandlerMap) : option MessageHandlerMap :=
  reg_loop (Z.to_nat (endMsg - beginMsg + 1)) beginMsg endMsg handler m.

(** [execMessageHandler]: the handler that is called. *)
Definition execMessageHandler (msgId : Z) (m : MessageHandlerMap) : option H := m !! msgId.

Lemma reg_loop_spec fuel i e h m :
  - 2 ^ 31 <= i -> e < 2 ^ 31 - 1 -> (Z.to_nat (e - i + 1) <= fuel)%nat -> (forall j, i <= j <= e -> m !! j = None) ->
  exists m', reg_loop fuel i e h m = Some m' /\ forall j, m' !! j = if decide (i <= j <= e) then Some h else m !! j.
Proof.
  revert i m. induction fuel as [|fuel IH]; intros i m Hi He Hf Hm; cbn [reg_loop]; destruct (Z.leb_spec i e) as [Hle|Hgt]; try lia.
  - exists m. split; [done|]. intros j. rewrite decide_False by lia. done.
  - unfold regMessageHandler. rewrite Hm by lia. cbn [mbind option_bind]. rewrite int_ok by lia. cbn [mbind option_bind].
    destruct (IH (i + 1) (<[i := h]> m)) as (m' & E & L); [lia|lia|lia| |].
    { intros j Hj. rewrite lookup_insert_ne by lia. apply Hm. lia. }
    exists m'. split; [done|]. intros j. rewrite L. destruct (decide (i + 1 <= j <= e)).
    + by rewrite decide_True by lia.
    + destruct (decide (i = j)) as [->|Hne]; [rewrite lookup_insert_eq, decide_True by lia; done|].
      rewrite lookup_insert_ne by done. by rewrite decide_False by lia.
  - exists m. split; [done|]. intros j. rewrite decide_False by lia. done.
Qed.

(** Registering a handler for a range of messages: the loop ends for every range
    below the largest [int] whose messages are free, the messages of the range and
    no others get the handler; a range with a message that has a handler aborts. *)
Theorem dispatcher_range b e (h : H) (m : MessageHandlerMap) :
  - 2 ^ 31 <= b -> e < 2 ^ 31 - 1 ->
  ((forall j, b <= j <= e -> m !! j = None) ->
   exists m', regMessageHandler_range b e h m = Some m' /\
     forall j, execMessageHandler j m' = if decide (b <= j <= e) then Some h else execMessageHandler j m) /\
  ((exists j, b <= j <= e /\ is_Some (m !! j)) -> regMessageHandler_range b e h m = None).
Proof.
  intros Hb He. split; [intros Hm; by apply reg_loop_spec|]. intros (j & Hj & Hs). unfold regMessageHandler_range.
  generalize (Z.to_nat (e - b + 1)) as fuel. intros fuel. revert b m Hb Hj Hs.
  induction fuel as [|fuel IH]; intros b m Hb Hj Hs; cbn [reg_loop]; replace (b <=? e) with true by lia; [done|].
  unfold regMessageHandler. destruct (m !! b) eqn:Em; [done|]. cbn [mbind option_bind]. rewrite int_ok by lia. cbn [mbind option_bind].
  assert (b <> j) by (intros ->; rewrite Em in Hs; by destruct Hs). apply IH; [lia|lia|]. by rewrite lookup_insert_ne.
Qed.

(** Up to the largest [int] the counter overflows. *)
Lemma dispatcher_range_overflow fuel b (h : H) m : b <= 2 ^ 31 - 1 -> reg_loop fuel b (2 ^ 31 - 1) h m = None.
Proof.
  revert b m. induction fuel as [|fuel IH]; intros b m Hb; cbn [reg_loop]; replace (b <=? 2 ^ 31 - 1) with true by lia; [done|].
  destruct (regMessageHandler b h m) as [m'|]; [|done]. cbn [mbind option_bind].
  destruct (int_ (b + 1)) as [i|] eqn:Ei; [|done]. cbn [mbind option_bind].
  unfold int_ in Ei. destruct ((- 2 ^ 31 <=? b + 1) && (b + 1 <? 2 ^ 31)) eqn:Ec; [|done]. injection Ei as <-.
  apply IH. lia.
Qed.
End Dispatcher.
End Dispatcher.

(** An instance of [dispatcher_range]: messages 100 to 103. *)
Lemma dispatcher_range_witness :
  exists m', Dispatcher.regMessageHandler_range 100 103 7 (∅ : gmap Z Z) = Some m' /\
    forall j, Dispatcher.execMessageHandler j m' = if decide (100 <= j <= 103) then Some 7 else None.
Proof.
  destruct (Dispatcher.dispatcher_range 100 103 7 (∅ : gmap Z Z)) as [H _]; [lia|lia|]. destruct H as (m' & E & L); [done|].
  exists m'. split; [done|]. intros j. rewrite L. by destruct (decide _).
Defined.
