(* ===== verification/DlBins.v ===== *)
(** The arithmetic of the memory spaces under the allocator, include/memory/malloc.c.h
    (dlmalloc, in the configuration of nedmalloc.cpp on a 64-bit system: footers, an
    alignment of eight bytes): the sizes of chunks, the bins they belong to, and the
    search for a bin in a bitmap. The macros of the source are functions, with their
    words of 64 and 32 bits; where the source has code for processors with a
    bit-scan instruction and portable code, both are here. *)
From S2P Require Import Prelude.
Local Open Scope Z_scope.

(** ** Sizes of chunks *)
Definition SIZE_T_BITSIZE : Z := 64.
Definition CHUNK_ALIGN_MASK : Z := 7.
Definition CHUNK_OVERHEAD : Z := 16.
Definition MCHUNK_SIZE : Z := 32.
Definition MIN_CHUNK_SIZE : Z := Z.land (MCHUNK_SIZE + CHUNK_ALIGN_MASK) (Z.lnot CHUNK_ALIGN_MASK).
Definition MAX_REQUEST : Z := u64 (Z.shiftl (- MIN_CHUNK_SIZE) 2).
Definition MIN_REQUEST : Z := MIN_CHUNK_SIZE - CHUNK_OVERHEAD - 1.
Definition pad_request (req : Z) : Z := Z.land (u64 (req + CHUNK_OVERHEAD + CHUNK_ALIGN_MASK)) (Z.lnot CHUNK_ALIGN_MASK).
Definition request2size (req : Z) : Z := if req <? MIN_REQUEST then MIN_CHUNK_SIZE else pad_request req.
Definition align_offset (A : Z) : Z :=
  if Z.land A CHUNK_ALIGN_MASK =? 0 then 0 else Z.land (8 - Z.land A CHUNK_ALIGN_MASK) CHUNK_ALIGN_MASK.

(** ** Indices of bins *)
Definition NSMALLBINS : Z := 32.
Definition NTREEBINS : Z := 32.
Definition SMALLBIN_SHIFT : Z := 3.
Definition TREEBIN_SHIFT : Z := 8.
Definition MAX_SMALL_SIZE : Z := Z.shiftl 1 TREEBIN_SHIFT - 1.
Definition MAX_SMALL_REQUEST : Z := MAX_SMALL_SIZE - CHUNK_ALIGN_MASK - CHUNK_OVERHEAD.
Definition is_small (s : Z) : bool := Z.shiftr s SMALLBIN_SHIFT <? NSMALLBINS.
Definition small_index (s : Z) : Z := u32 (Z.shiftr s SMALLBIN_SHIFT).
Definition small_index2size (i : Z) : Z := Z.shiftl i SMALLBIN_SHIFT.

(** [compute_tree_index] with the instruction [bsr]: there [X] has 32 bits. *)
Definition compute_tree_index_bsr (S : Z) : Z :=
  let X := u32 (Z.shiftr S TREEBIN_SHIFT) in
  if X =? 0 then 0
  else if 0xFFFF <? X then NTREEBINS - 1
  else
    let K := Z.log2 X in
    u32 (Z.shiftl K 1 + Z.land (Z.shiftr S (K + (TREEBIN_SHIFT - 1))) 1).
(** The portable one, with [X] a [size_t] and the logarithm computed from the borrows
    of three subtractions. *)
Definition portable_log2 (Y : Z) : Z :=
  let N := Z.land (Z.shiftr (u32 (Y - 0x100)) 16) 8 in
  let Y := u32 (Z.shiftl Y N) in
  let K := Z.land (Z.shiftr (u32 (Y - 0x1000)) 16) 4 in
  let N := N + K in
  let Y := u32 (Z.shiftl Y K) in
  let K := Z.land (Z.shiftr (u32 (Y - 0x4000)) 16) 2 in
  let N := N + K in
  let Y := u32 (Z.shiftl Y K) in
  u32 (14 - N + Z.shiftr Y 15).
Definition compute_tree_index (S : Z) : Z :=
  let X := Z.shiftr S TREEBIN_SHIFT in
  if X =? 0 then 0
  else if 0xFFFF <? X then NTREEBINS - 1
  else
    let K := portable_log2 (u32 X) in
    u32 (Z.shiftl K 1 + Z.land (Z.shiftr S (K + (TREEBIN_SHIFT - 1))) 1).
Definition minsize_for_tree_index (i : Z) : Z :=
  Z.lor (Z.shiftl 1 (Z.shiftr i 1 + TREEBIN_SHIFT)) (Z.shiftl (Z.land i 1) (Z.shiftr i 1 + TREEBIN_SHIFT - 1)).

(** ** Bitmaps of bins, of 32 bits *)
Definition idx2bit (i : Z) : Z := u32 (Z.shiftl 1 i).
Definition least_bit (x : Z) : Z := Z.land x (u32 (- x)).
Definition left_bits (x : Z) : Z := let y := u32 (Z.shiftl x 1) in Z.lor y (u32 (- y)).
Definition same_or_left_bits (x : Z) : Z := Z.lor x (u32 (- x)).
(** The instruction [bsf]: the number of zero bits below the least one that is set. *)
Fixpoint bsf (p : positive) : Z := match p with xO p => 1 + bsf p | _ => 0 end.
Definition compute_bit2idx_bsf (X : Z) : Z := match X with Zpos p => bsf p | _ => 0 end.
Definition compute_bit2idx (X : Z) : Z :=
  let Y := u32 (X - 1) in
  let K := Z.land (Z.shiftr Y (16 - 4)) 16 in
  let N := K in
  let Y := Z.shiftr Y K in
  let K := Z.land (Z.shiftr Y (8 - 3)) 8 in
  let N := N + K in
  let Y := Z.shiftr Y K in
  let K := Z.land (Z.shiftr Y (4 - 2)) 4 in
  let N := N + K in
  let Y := Z.shiftr Y K in
  let K := Z.land (Z.shiftr Y (2 - 1)) 2 in
  let N := N + K in
  let Y := Z.shiftr Y K in
  let K := Z.land (Z.shiftr Y (1 - 0)) 1 in
  let N := N + K in
  let Y := Z.shiftr Y K in
  N + Y.

(** The search of [tmalloc_large] for the next bin behind [idx] that is marked, and the
    one of [mspace_malloc], which has shifted the map before. *)
Definition next_tree_bin (idx treemap : Z) : option Z :=
  let leftbits := Z.land (left_bits (idx2bit idx)) treemap in
  if leftbits =? 0 then None else Some (compute_bit2idx_bsf (least_bit leftbits)).
Definition next_small_bin (idx smallmap : Z) : option Z :=
  let smallbits := Z.shiftr smallmap idx in
  if smallbits =? 0 then None
  else
    let leftbits := Z.land (u32 (Z.shiftl smallbits idx)) (left_bits (idx2bit idx)) in
    Some (compute_bit2idx_bsf (least_bit leftbits)).

(** * Sizes *)
Lemma align_down x : Z.land x (Z.lnot CHUNK_ALIGN_MASK) = x / 8 * 8.
Proof.
  unfold CHUNK_ALIGN_MASK. change 7 with (Z.ones 3). rewrite <- Z.ldiff_land, Z.ldiff_ones_r by lia.
  rewrite Z.shiftl_mul_pow2, Z.shiftr_div_pow2 by lia. done.
Qed.

Lemma pad_request_spec req : 0 <= req < MAX_REQUEST ->
  pad_request req mod 8 = 0 /\ req + CHUNK_OVERHEAD <= pad_request req < req + CHUNK_OVERHEAD + 8.
Proof.
  change MAX_REQUEST with (2 ^ 64 - 128). intros Hr. unfold pad_request. rewrite align_down.
  unfold CHUNK_OVERHEAD, CHUNK_ALIGN_MASK. rewrite uwrap_id by (unfold in_u; lia). split; [apply Z.mod_mul; lia|].
  pose proof (Z.div_mod (req + 16 + 7) 8 ltac:(lia)). pose proof (Z.mod_pos_bound (req + 16 + 7) 8 ltac:(lia)). lia.
Qed.

(** * Indices *)
(** One step of the portable logarithm: the borrow of an unsigned subtraction. *)
Lemma borrow_mask a t m : 0 <= a <= 0xFFFF -> 0 < t <= 0x10000 -> m = 8 \/ m = 4 \/ m = 2 ->
  Z.land (Z.shiftr (u32 (a - t)) 16) m = if a <? t then m else 0.
Proof.
  intros Ha Ht Hm. rewrite Z.shiftr_div_pow2 by lia. destruct (Z.ltb_spec a t) as [Hlt|Hge].
  - replace (u32 (a - t)) with (a - t + 2 ^ 32)
      by (unfold u32, uwrap; apply (Z.mod_unique_pos _ _ (-1)); lia).
    replace ((a - t + 2 ^ 32) / 2 ^ 16) with 0xFFFF by (apply (Z.div_unique_pos _ _ _ (a - t + 2 ^ 16)); lia).
    destruct Hm as [->|[->| ->]]; reflexivity.
  - rewrite uwrap_id by (unfold in_u; lia). rewrite Z.div_small by lia. apply Z.land_0_l.
Qed.

Lemma log2_between a k : 2 ^ k <= a < 2 ^ Z.succ k -> 0 <= k -> Z.log2 a = k.
Proof. intros H ?. apply Z.log2_unique; lia. Qed.

(** A shift that keeps a number below [2^16]. *)
Lemma shift_up Y n : 1 <= Y -> 0 <= n -> Y * 2 ^ n <= 0xFFFF -> u32 (Z.shiftl Y n) = Y * 2 ^ n.
Proof. intros. rewrite Z.shiftl_mul_pow2 by lia. apply uwrap_id. unfold in_u. nia. Qed.

Lemma shift_step Y t m : 1 <= Y <= 0xFFFF -> 0 < t <= 0x10000 -> m = 8 \/ m = 4 \/ m = 2 -> t * 2 ^ m = 0x10000 ->
  let K := Z.land (Z.shiftr (u32 (Y - t)) 16) m in
  0 <= K <= m /\ u32 (Z.shiftl Y K) = Y * 2 ^ K /\ Y <= Y * 2 ^ K <= 0xFFFF /\ Z.min t (Y * 2 ^ m) <= Y * 2 ^ K.
Proof.
  intros HY Ht Hm E. cbv zeta. rewrite borrow_mask by lia.
  assert (0 < m) by lia. destruct (Z.ltb_spec Y t).
  - assert (Y * 2 ^ m <= 0xFFFF) by nia. rewrite shift_up by nia. nia.
  - rewrite shift_up by lia. lia.
Qed.

Lemma portable_log2_ok Y : 1 <= Y <= 0xFFFF -> portable_log2 Y = Z.log2 Y.
Proof.
  intros HY. unfold portable_log2. cbv zeta.
  destruct (shift_step Y 0x100 8 ltac:(lia) ltac:(lia) ltac:(lia) eq_refl) as (HK & -> & HA & HB).
  set (K1 := Z.land _ 8) in *. set (Y1 := Y * 2 ^ K1) in *.
  destruct (shift_step Y1 0x1000 4 ltac:(lia) ltac:(lia) ltac:(lia) eq_refl) as (HK2 & -> & HA2 & HB2).
  set (K2 := Z.land _ 4) in *. set (Y2 := Y1 * 2 ^ K2) in *.
  destruct (shift_step Y2 0x4000 2 ltac:(lia) ltac:(lia) ltac:(lia) eq_refl) as (HK3 & -> & HA3 & HB3).
  set (K3 := Z.land _ 2) in *. set (Y3 := Y2 * 2 ^ K3) in *.
  assert (E : Z.log2 Y3 = Z.log2 Y + K1 + K2 + K3).
  { unfold Y3, Y2, Y1. rewrite !Z.log2_mul_pow2 by lia. lia. }
  assert (E3 : Z.log2 Y3 = 14 + Z.shiftr Y3 15).
  { rewrite Z.shiftr_div_pow2 by lia. destruct (Z.lt_ge_cases Y3 0x8000).
    - rewrite Z.div_small by lia. apply log2_between; lia.
    - replace (Y3 / 2 ^ 15) with 1 by (apply (Z.div_unique_pos _ _ _ (Y3 - 2 ^ 15)); lia). apply log2_between; lia. }
  pose proof (Z.log2_nonneg Y). rewrite uwrap_id; [lia|]. unfold in_u.
  assert (Z.log2 Y <= Z.log2 0xFFFF) by (apply Z.log2_le_mono; lia). change (Z.log2 65535) with 15 in *. lia.
Qed.

Lemma land_one x : Z.land x 1 = x mod 2.
Proof. change 1 with (Z.ones 1). by rewrite Z.land_ones by lia. Qed.

Lemma pow2_apart i j : 0 <= i -> 0 <= j -> i <> j -> Z.land (2 ^ i) (2 ^ j) = 0.
Proof.
  intros. apply Z.bits_inj'. intros n Hn. rewrite Z.land_spec, !Z.pow2_bits_eqb, Z.bits_0 by lia.
  destruct (Z.eqb_spec i n); destruct (Z.eqb_spec j n); lia || done.
Qed.

(** Bins come in pairs: the bins [2 k] and [2 k + 1] halve the sizes between two powers. *)
Lemma minsize_pair k b : 0 <= k -> 0 <= b <= 1 -> minsize_for_tree_index (2 * k + b) = (2 + b) * 2 ^ (k + 7).
Proof.
  intros Hk Hb. unfold minsize_for_tree_index, TREEBIN_SHIFT. rewrite land_one.
  rewrite Z.shiftr_div_pow2 by lia. replace ((2 * k + b) / 2 ^ 1) with k by (apply (Z.div_unique_pos _ _ _ b); lia).
  replace ((2 * k + b) mod 2) with b by (apply (Z.mod_unique_pos _ _ k); lia).
  replace (k + 8 - 1) with (k + 7) by lia. rewrite !Z.shiftl_mul_pow2 by lia. replace (k + 8) with (Z.succ (k + 7)) by lia.
  rewrite Z.pow_succ_r by lia. assert (b = 0 \/ b = 1) as [-> | ->] by lia.
  - rewrite Z.mul_0_l, Z.lor_0_r. lia.
  - rewrite !Z.mul_1_l. rewrite <- Z.pow_succ_r by lia. rewrite <- Z.lxor_lor by (apply pow2_apart; lia).
    rewrite <- Z.add_nocarry_lxor by (apply pow2_apart; lia). rewrite Z.pow_succ_r by lia. lia.
Qed.

Lemma minsize_after k b : 0 <= k -> 0 <= b <= 1 -> minsize_for_tree_index (2 * k + b + 1) = (3 + b) * 2 ^ (k + 7).
Proof.
  intros Hk Hb. destruct (Z.eq_dec b 0) as [->|].
  - replace (2 * k + 0 + 1) with (2 * k + 1) by lia. rewrite minsize_pair by lia. lia.
  - replace (2 * k + b + 1) with (2 * (k + 1) + 0) by lia. rewrite minsize_pair by lia.
    replace (k + 1 + 7) with (Z.succ (k + 7)) by lia. rewrite Z.pow_succ_r by lia. replace b with 1 by lia. lia.
Qed.

Lemma minsize_next i : 0 <= i -> minsize_for_tree_index i < minsize_for_tree_index (i + 1).
Proof.
  intros Hi. pose proof (Z.div_mod i 2 ltac:(lia)) as E. pose proof (Z.mod_pos_bound i 2 ltac:(lia)) as Hm.
  pose proof (Z.div_pos i 2 Hi ltac:(lia)). set (k := i / 2) in *. set (b := i mod 2) in *. rewrite E.
  assert (0 < 2 ^ (k + 7)) by (apply Z.pow_pos_nonneg; lia).
  rewrite minsize_pair by lia. destruct (Z.eq_dec b 0) as [-> | Hb].
  - replace (2 * k + 0 + 1) with (2 * k + 1) by lia. rewrite minsize_pair by lia. nia.
  - replace b with 1 by lia. replace (2 * k + 1 + 1) with (2 * (k + 1) + 0) by lia. rewrite minsize_pair by lia.
    replace (k + 1 + 7) with (Z.succ (k + 7)) by lia. rewrite Z.pow_succ_r by lia. nia.
Qed.

(** The index of a size below the last bin: twice the logarithm and the next bit. *)
Lemma tree_index_mid S : 256 <= S < 2 ^ 24 ->
  exists k b, 0 <= k < 16 /\ 0 <= b <= 1 /\ (2 + b) * 2 ^ (k + 7) <= S < (3 + b) * 2 ^ (k + 7) /\
    Z.log2 (S / 2 ^ 8) = k /\ Z.shiftl k 1 + Z.land (Z.shiftr S (k + 7)) 1 = 2 * k + b.
Proof.
  intros HS. pose proof (Z.log2_spec S ltac:(lia)) as HL. pose proof (Z.log2_le_mono 256 S ltac:(lia)) as H8.
  pose proof (Z.log2_lt_pow2 S 24 ltac:(lia)) as H24. change (Z.log2 256) with 8 in H8.
  set (k := Z.log2 S - 8). assert (Hk : 0 <= k < 16) by lia. replace (Z.succ (Z.log2 S)) with (k + 7 + 2) in HL by lia.
  replace (Z.log2 S) with (k + 7 + 1) in HL by lia. rewrite (Z.pow_add_r 2 (k + 7) 1), (Z.pow_add_r 2 (k + 7) 2) in HL by lia.
  assert (HP : 0 < 2 ^ (k + 7)) by (apply Z.pow_pos_nonneg; lia).
  pose proof (Z.div_mod S (2 ^ (k + 7)) ltac:(lia)) as ED. pose proof (Z.mod_pos_bound S (2 ^ (k + 7)) HP) as HM.
  set (q := S / 2 ^ (k + 7)) in *. assert (Hq : 2 <= q <= 3) by nia.
  exists k, (q - 2). split; [done|]. split; [lia|]. split; [nia|]. split.
  - rewrite <- Z.shiftr_div_pow2 by lia. rewrite Z.log2_shiftr by lia. lia.
  - rewrite Z.shiftl_mul_pow2, Z.shiftr_div_pow2, land_one by lia. fold q. assert (q = 2 \/ q = 3) as [E | E] by lia; rewrite E; [change (2 mod 2) with 0|change (3 mod 2) with 1]; lia.
Qed.

Lemma tree_index_portable S : 0 <= S -> compute_tree_index S =
  if S <? 256 then 0 else if 2 ^ 24 <=? S then 31
  else u32 (Z.shiftl (Z.log2 (S / 2 ^ 8)) 1 + Z.land (Z.shiftr S (Z.log2 (S / 2 ^ 8) + 7)) 1).
Proof.
  intros HS. unfold compute_tree_index, TREEBIN_SHIFT. rewrite Z.shiftr_div_pow2 by lia.
  pose proof (Z.div_mod S (2 ^ 8) ltac:(lia)). pose proof (Z.mod_pos_bound S (2 ^ 8) ltac:(lia)).
  set (X := S / 2 ^ 8) in *.
  destruct (Z.ltb_spec S 256); destruct (Z.eqb_spec X 0); try lia.
  destruct (Z.leb_spec (2 ^ 24) S); destruct (Z.ltb_spec 0xFFFF X); try lia; [reflexivity|].
  rewrite (uwrap_id 32 X) by (unfold in_u; lia). rewrite portable_log2_ok by lia. reflexivity.
Qed.

Lemma tree_index_bsr S : 0 <= S < 2 ^ 40 -> compute_tree_index_bsr S = compute_tree_index S.
Proof.
  intros HS. unfold compute_tree_index_bsr, compute_tree_index, TREEBIN_SHIFT. rewrite Z.shiftr_div_pow2 by lia.
  assert (0 <= S / 2 ^ 8 < 2 ^ 32) by (split; [apply Z.div_pos; lia|apply Z.div_lt_upper_bound; lia]).
  set (X := S / 2 ^ 8) in *.
  rewrite (uwrap_id 32 X) by done. destruct (Z.eqb_spec X 0); [done|]. destruct (Z.ltb_spec 0xFFFF X); [done|].
  by rewrite portable_log2_ok by lia.
Qed.

(** * Bitmaps *)
Lemma below_32 (P : Z -> bool) : forallb P (seqZ 0 32) = true -> forall i, 0 <= i < 32 -> P i = true.
Proof. intros H i Hi. rewrite forallb_forall in H. apply H, list_elem_of_In, elem_of_seqZ. lia. Qed.

Lemma bit2idx_pow k : 0 <= k < 32 -> compute_bit2idx (2 ^ k) = k.
Proof.
  intros Hk. apply Z.eqb_eq. revert k Hk. apply (below_32 (fun k => compute_bit2idx (2 ^ k) =? k)). by vm_compute.
Qed.

Lemma bsf_pow k : 0 <= k < 32 -> compute_bit2idx_bsf (2 ^ k) = k.
Proof.
  intros Hk. apply Z.eqb_eq. revert k Hk. apply (below_32 (fun k => compute_bit2idx_bsf (2 ^ k) =? k)). by vm_compute.
Qed.

Lemma left_bits_mask i : 0 <= i < 32 -> left_bits (idx2bit i) = Z.shiftl (Z.ones (31 - i)) (i + 1).
Proof.
  intros Hi. apply Z.eqb_eq. revert i Hi.
  apply (below_32 (fun i => left_bits (idx2bit i) =? Z.shiftl (Z.ones (31 - i)) (i + 1))). by vm_compute.
Qed.

Lemma left_bits_testbit i j : 0 <= i < 32 -> 0 <= j -> Z.testbit (left_bits (idx2bit i)) j = (i <? j) && (j <? 32).
Proof.
  intros Hi Hj. rewrite left_bits_mask by done. rewrite Z.shiftl_spec by done.
  destruct (Z.ltb_spec i j) as [Hl|Hl]; cbn [andb].
  - rewrite Z.testbit_ones by lia. destruct (Z.ltb_spec j 32); lia.
  - apply Z.testbit_neg_r. lia.
Qed.

(** A positive number is a power of two times an odd one. *)
Lemma pow2_odd p : exists k q, 0 <= k /\ 0 <= q /\ Zpos p = 2 ^ k * (2 * q + 1).
Proof.
  induction p as [p _|p (k & q & Hk & Hq & E)|].
  - exists 0, (Zpos p). split_and!; lia.
  - exists (Z.succ k), q. split_and!; try lia. rewrite Z.pow_succ_r by lia. rewrite Pos2Z.inj_xO. lia.
  - by exists 0, 0.
Qed.

Lemma odd_multiple_bit k q n : 0 <= k -> 0 <= n ->
  Z.testbit (2 ^ k * (2 * q + 1)) n = (k <=? n) && ((n =? k) || Z.testbit q (n - k - 1)).
Proof.
  intros Hk Hn. rewrite Z.mul_comm, <- Z.shiftl_mul_pow2 by done. rewrite Z.shiftl_spec by done.
  destruct (Z.leb_spec k n) as [Hl|Hl]; cbn [andb]; [|apply Z.testbit_neg_r; lia].
  destruct (Z.eqb_spec n k) as [->|Hne]; cbn [orb].
  - rewrite Z.sub_diag. apply Z.testbit_odd_0.
  - rewrite <- (Z.testbit_odd_succ q (n - k - 1)) by lia. f_equal. lia.
Qed.

(** [least_bit] isolates the least bit that is set. *)
Lemma least_bit_spec x : 0 < x < 2 ^ 32 ->
  exists k, 0 <= k < 32 /\ least_bit x = 2 ^ k /\
    Z.testbit x k = true /\ forall j, 0 <= j < k -> Z.testbit x j = false.
Proof.
  intros Hx. destruct x as [|p|p]; [lia| |lia].
  destruct (pow2_odd p) as (k & q & Hk & Hq & E). exists k.
  assert (Hb : Z.testbit (Zpos p) k = true) by (rewrite E, odd_multiple_bit, Z.leb_refl, Z.eqb_refl by lia; done).
  assert (Hk32 : k < 32).
  { destruct (Z.lt_ge_cases k 32); [done|]. exfalso. pose proof (Z.pow_le_mono_r 2 32 k ltac:(lia) ltac:(lia)). nia. }
  split; [lia|]. split; [|split; [done|]].
  - unfold least_bit, uwrap. rewrite <- Z.land_ones by lia. apply Z.bits_inj'. intros n Hn.
    rewrite !Z.land_spec, Z.testbit_ones_nonneg, Z.pow2_bits_eqb by lia. rewrite E.
    replace (- (2 ^ k * (2 * q + 1))) with (2 ^ k * (2 * Z.lnot q + 1)) by (unfold Z.lnot; lia).
    rewrite !odd_multiple_bit by done.
    destruct (Z.leb_spec k n); cbn [andb]; [|symmetry; apply Z.eqb_neq; lia].
    rewrite (Z.eqb_sym k n). destruct (Z.eqb_spec n k) as [->|]; cbn [orb andb]; [by apply Z.ltb_lt|].
    rewrite Z.lnot_spec by lia. by destruct (Z.testbit q _).
  - intros j Hj. rewrite E, odd_multiple_bit by lia. by rewrite (proj2 (Z.leb_gt _ _)) by lia.
Qed.

(** What a search behind [idx] has to find in a bitmap. *)
Definition least_marked (map lo : Z) (r : option Z) : Prop :=
  match r with
  | Some i => lo < i < 32 /\ Z.testbit map i = true /\ forall j, lo < j < i -> Z.testbit map j = false
  | None => forall j, lo < j < 32 -> Z.testbit map j = false
  end.

Lemma next_tree_bin_least idx treemap : 0 <= idx < 32 -> in_u 32 treemap ->
  least_marked treemap idx (next_tree_bin idx treemap).
Proof.
  intros Hi Hm. unfold next_tree_bin. cbv zeta. set (lb := Z.land _ treemap).
  assert (Hb : forall j, 0 <= j -> Z.testbit lb j = (idx <? j) && (j <? 32) && Z.testbit treemap j).
  { intros j Hj. unfold lb. by rewrite Z.land_spec, left_bits_testbit by lia. }
  assert (Hlb : 0 <= lb < 2 ^ 32).
  { apply in_u_testbit; [lia|]. split; [apply Z.land_nonneg; right; apply Hm|]. intros j Hj.
    rewrite Hb by lia. rewrite (proj2 (Z.ltb_ge j 32)) by lia. by rewrite andb_false_r. }
  destruct (Z.eqb_spec lb 0) as [E|E]; cbn.
  - intros j Hj. specialize (Hb j ltac:(lia)). rewrite E, Z.bits_0 in Hb.
    by rewrite (proj2 (Z.ltb_lt idx j)), (proj2 (Z.ltb_lt j 32)) in Hb by lia.
  - destruct (least_bit_spec lb ltac:(lia)) as (k & Hk & -> & Ht & Hf). rewrite bsf_pow by done.
    rewrite Hb in Ht by lia. destruct (Z.ltb_spec idx k); [|done]. split_and!; try lia.
    + by destruct (k <? 32).
    + intros j Hj. specialize (Hf j ltac:(lia)). rewrite Hb in Hf by lia.
      by rewrite (proj2 (Z.ltb_lt idx j)), (proj2 (Z.ltb_lt j 32)) in Hf by lia.
Qed.

(** The search of [mspace_malloc] is the same one when the bin [idx] itself is empty,
    as it is there. *)
Lemma next_small_bin_eq idx smallmap : 0 <= idx < 32 -> in_u 32 smallmap -> Z.testbit smallmap idx = false ->
  next_small_bin idx smallmap = next_tree_bin idx smallmap.
Proof.
  intros Hi Hm Hf. unfold next_small_bin, next_tree_bin. cbv zeta.
  assert (E : Z.land (u32 (Z.shiftl (Z.shiftr smallmap idx) idx)) (left_bits (idx2bit idx)) =
    Z.land (left_bits (idx2bit idx)) smallmap).
  { rewrite Z.land_comm. unfold uwrap. rewrite <- Z.land_ones by lia. apply Z.bits_inj'. intros n Hn.
    rewrite !Z.land_spec, left_bits_testbit by lia. destruct (Z.ltb_spec idx n); cbn [andb]; [|done].
    rewrite Z.shiftl_spec, Z.shiftr_spec, Z.testbit_ones_nonneg by lia. replace (n - idx + idx) with n by lia.
    destruct (n <? 32); cbn [andb]; [by rewrite andb_true_r|done]. }
  rewrite E. destruct (Z.eqb_spec (Z.shiftr smallmap idx) 0) as [E0|E0].
  - replace (Z.land (left_bits (idx2bit idx)) smallmap) with 0; [done|]. symmetry. apply Z.bits_inj'. intros n Hn.
    rewrite Z.land_spec, left_bits_testbit, Z.bits_0 by lia. destruct (Z.ltb_spec idx n); cbn [andb]; [|done].
    replace n with (n - idx + idx) by lia. rewrite <- Z.shiftr_spec, E0, Z.bits_0 by lia. apply andb_false_r.
  - destruct (Z.eqb_spec (Z.land (left_bits (idx2bit idx)) smallmap) 0) as [E1|E1]; [|done]. exfalso. apply E0.
    apply Z.bits_inj'. intros n Hn. rewrite Z.shiftr_spec, Z.bits_0 by lia.
    destruct (Z.eq_dec n 0) as [->|]; [by rewrite Z.add_0_l|].
    destruct (Z.lt_ge_cases (n + idx) 32).
    + assert (H1 : Z.testbit (Z.land (left_bits (idx2bit idx)) smallmap) (n + idx) = false) by (rewrite E1; apply Z.bits_0).
      rewrite Z.land_spec, left_bits_testbit in H1 by lia.
      by rewrite (proj2 (Z.ltb_lt _ _)), (proj2 (Z.ltb_lt _ 32)) in H1 by lia.
    + apply in_u_testbit in Hm as [_ Hm]; [|lia]. apply Hm. lia.
Qed.

Lemma request_bounds req : 0 <= req < MAX_REQUEST -> let nb := request2size req in
  nb mod 8 = 0 /\ 32 <= nb < 2 ^ 64 /\ req + 16 <= nb < req + 48 /\ (req <= 232 -> nb < 256) /\ (232 < req -> 256 <= nb).
Proof.
  intros Hr nb. unfold nb, request2size. change MIN_REQUEST with 15. change MIN_CHUNK_SIZE with 32. change MAX_REQUEST with (2 ^ 64 - 128) in Hr.
  destruct (Z.ltb_spec req 15); [split; [done|lia]|].
  destruct (pad_request_spec req ltac:(change MAX_REQUEST with (2 ^ 64 - 128); lia)) as (Hm & Hb). unfold CHUNK_OVERHEAD in Hb.
  pose proof (Z.div_mod (pad_request req) 8 ltac:(lia)). split; [done|]. lia.
Qed.

(** * What the arithmetic promises *)
(** A request of [req] bytes below the limit gets a chunk that is a multiple of the
    alignment, holds the request beside the overhead of the chunk with less than
    [MIN_CHUNK_SIZE] bytes lost, and never wraps; a request of at most
    [MAX_SMALL_REQUEST] bytes gets a chunk of a small bin that holds exactly this size. *)
Theorem request_sizes req : 0 <= req < MAX_REQUEST ->
  let nb := request2size req in
  nb mod 8 = 0 /\ MIN_CHUNK_SIZE <= nb < 2 ^ 64 /\ req + CHUNK_OVERHEAD <= nb < req + CHUNK_OVERHEAD + MIN_CHUNK_SIZE /\
  (req <= MAX_SMALL_REQUEST -> is_small nb = true /\ small_index2size (small_index nb) = nb) /\
  (MAX_SMALL_REQUEST < req -> is_small nb = false).
Proof.
  intros Hr nb. pose proof (request_bounds req Hr) as H. fold nb in H.
  destruct H as (H8 & Hb & Hq & Hs & Hl). change MIN_CHUNK_SIZE with 32. change MAX_SMALL_REQUEST with 232. unfold CHUNK_OVERHEAD.
  pose proof (Z.div_mod nb 8 ltac:(lia)) as E. unfold is_small, small_index, small_index2size, SMALLBIN_SHIFT, NSMALLBINS.
  rewrite Z.shiftr_div_pow2, Z.shiftl_mul_pow2 by lia. change (2 ^ 3) with 8. split_and!; try lia.
  intros Hle. specialize (Hs Hle). split; [apply Z.ltb_lt; lia|]. rewrite uwrap_id by (unfold in_u; lia). lia.
Qed.

Lemma request_sizes_witness : let nb := request2size 100 in nb = 120 /\ is_small nb = true /\ small_index2size (small_index nb) = nb.
Proof.
  destruct (request_sizes 100) as (_ & _ & _ & H & _); [by vm_compute|]. split; [reflexivity|]. apply H. by vm_compute.
Defined.

Lemma tree_ranges S : 256 <= S < 2 ^ 64 -> let i := compute_tree_index S in
  0 <= i < 32 /\ minsize_for_tree_index i <= S /\ (i < 31 -> S < minsize_for_tree_index (i + 1)).
Proof.
  intros HS i. unfold i. rewrite tree_index_portable by lia. rewrite (proj2 (Z.ltb_ge _ _)) by lia.
  destruct (Z.leb_spec (2 ^ 24) S) as [Hl|Hl].
  - split; [lia|]. split; [|lia]. change (minsize_for_tree_index 31) with (3 * 2 ^ 22). lia.
  - destruct (tree_index_mid S ltac:(lia)) as (k & b & Hk & Hb & Hr & -> & ->). rewrite uwrap_id by (unfold in_u; lia).
    split; [lia|]. rewrite minsize_pair by lia. split; [lia|]. intros _. rewrite minsize_after by lia. lia.
Qed.

Lemma bsr_index_range S : 0 <= S -> 0 <= compute_tree_index_bsr S < 32.
Proof.
  intros HS. unfold compute_tree_index_bsr, NTREEBINS. set (X := u32 _). pose proof (uwrap_range 32 (Z.shiftr S TREEBIN_SHIFT) ltac:(lia)) as HX. fold X in HX. unfold in_u in HX.
  destruct (Z.eqb_spec X 0); [lia|]. destruct (Z.ltb_spec 0xFFFF X); [lia|].
  assert (HK : 0 <= Z.log2 X <= 15) by (split; [apply Z.log2_nonneg|]; change 15 with (Z.log2 0xFFFF); apply Z.log2_le_mono; lia).
  rewrite land_one, Z.shiftl_mul_pow2 by lia. pose proof (Z.mod_pos_bound (Z.shiftr S (Z.log2 X + (TREEBIN_SHIFT - 1))) 2 ltac:(lia)).
  rewrite uwrap_id by (unfold in_u; lia). lia.
Qed.

(** A chunk too large for the small bins is put in the tree bin whose range holds its
    size: the bin exists, its least size is at most the size of the chunk, and the least
    size of the next bin is greater; below 2^40 bytes the code with a bit-scan
    instruction and the portable code compute the same bin. *)
Theorem tree_bin_ranges S : 256 <= S < 2 ^ 64 ->
  let i := compute_tree_index S in
  0 <= i < NTREEBINS /\ minsize_for_tree_index i <= S /\ (i < NTREEBINS - 1 -> S < minsize_for_tree_index (i + 1)) /\
  (S < 2 ^ 40 -> compute_tree_index_bsr S = i).
Proof.
  intros HS i. unfold NTREEBINS. destruct (tree_ranges S HS) as (H1 & H2 & H3). split; [done|]. split; [done|]. split; [done|].
  intros. apply tree_index_bsr. lia.
Qed.

Lemma tree_bin_ranges_witness : compute_tree_index 400 = 1 /\ 400 < minsize_for_tree_index 2 /\ compute_tree_index_bsr 400 = 1.
Proof.
  destruct (tree_bin_ranges 400) as (_ & _ & H & Hb); [lia|]. split; [reflexivity|]. split.
  - by apply H.
  - apply (Hb ltac:(lia)).
Defined.

(** The code with the instruction keeps the shifted size in 32 bits: a chunk of 2^40
    bytes is put in the bin of the smallest tree chunks. *)
Lemma huge_chunk_in_first_bin : compute_tree_index_bsr (2 ^ 40) = 0 /\ compute_tree_index (2 ^ 40) = NTREEBINS - 1.
Proof. split; reflexivity. Qed.

(** The search for a bin behind [idx] finds the least one that is marked and none when
    none is; the search among the small bins, of an empty bin [idx], is the same, and both ways
    to turn a bit into an index agree. *)
Theorem bin_search_least idx map : 0 <= idx < 32 -> in_u 32 map ->
  least_marked map idx (next_tree_bin idx map) /\
  (Z.testbit map idx = false -> least_marked map idx (next_small_bin idx map)) /\
  (0 < map -> compute_bit2idx (least_bit map) = compute_bit2idx_bsf (least_bit map) /\
    least_marked map (-1) (Some (compute_bit2idx_bsf (least_bit map)))).
Proof.
  intros Hi Hm. split; [by apply next_tree_bin_least|]. split.
  - intros Hf. rewrite next_small_bin_eq by done. by apply next_tree_bin_least.
  - intros H0. unfold in_u in Hm. destruct (least_bit_spec map ltac:(lia)) as (k & Hk & -> & Ht & Hf).
    rewrite bit2idx_pow, bsf_pow by done. split; [done|]. split_and!; try done; try lia. intros j Hj. apply Hf. lia.
Qed.

Lemma bin_search_least_witness : next_tree_bin 4 0x850 = Some 6 /\ least_marked 0x850 4 (Some 6).
Proof. split; [reflexivity|]. by destruct (bin_search_least 4 0x850 ltac:(lia) ltac:(split; lia)) as [H _]. Defined.
