(* ===== verification/DlTree.v ===== *)
(** The tree bins of a memory space, include/memory/malloc.c.h: free chunks of 256 bytes
    and more, in thirty-two bitwise tries of their sizes.

    A tree is linked through the chunks themselves, with two children, a parent and,
    for the chunks of one size, a ring of which only one chunk is in the tree. The
    model has the headers of the chunks by address (zero is the null pointer) and the
    bins with their bitmap; [None] is the use of an address that is no chunk, or the
    [ABORT] of a check on addresses that fails. The processor is the one of the GCC
    branch, with the instructions [bsr] and [bsf]. *)
From stdpp Require Import gmap.
From S2P Require Import Prelude DlBins.
Local Open Scope Z_scope.

(** ** Chunks and memory spaces *)
Record tchunk := TChunk {
  tc_prev_foot : Z; tc_head : Z; tc_fd : Z; tc_bk : Z; tc_child0 : Z; tc_child1 : Z; tc_parent : Z; tc_index : Z }.
#[global] Instance tchunk_inhabited : Inhabited tchunk := populate (TChunk 0 0 0 0 0 0 0 0).

Definition FLAG_BITS : Z := 7.
Definition chunksize (c : tchunk) : Z := Z.land (tc_head c) (Z.lnot FLAG_BITS).
Definition tc_child (b : bool) (c : tchunk) : Z := if b then tc_child1 c else tc_child0 c.
Definition leftmost_child (c : tchunk) : Z := if negb (tc_child0 c =? 0) then tc_child0 c else tc_child1 c.

Definition set_fd (v : Z) (c : tchunk) : tchunk := TChunk (tc_prev_foot c) (tc_head c) v (tc_bk c) (tc_child0 c) (tc_child1 c) (tc_parent c) (tc_index c).
Definition set_bk (v : Z) (c : tchunk) : tchunk := TChunk (tc_prev_foot c) (tc_head c) (tc_fd c) v (tc_child0 c) (tc_child1 c) (tc_parent c) (tc_index c).
Definition set_child (b : bool) (v : Z) (c : tchunk) : tchunk :=
  if b then TChunk (tc_prev_foot c) (tc_head c) (tc_fd c) (tc_bk c) (tc_child0 c) v (tc_parent c) (tc_index c)
  else TChunk (tc_prev_foot c) (tc_head c) (tc_fd c) (tc_bk c) v (tc_child1 c) (tc_parent c) (tc_index c).
Definition set_parent (v : Z) (c : tchunk) : tchunk := TChunk (tc_prev_foot c) (tc_head c) (tc_fd c) (tc_bk c) (tc_child0 c) (tc_child1 c) v (tc_index c).
Definition set_index (v : Z) (c : tchunk) : tchunk := TChunk (tc_prev_foot c) (tc_head c) (tc_fd c) (tc_bk c) (tc_child0 c) (tc_child1 c) (tc_parent c) v.

(** The fields of [malloc_state] that the tree bins use; [treebins_at] is the address of
    the array [treebins], whose elements the roots have as parents. *)
Record mstate := MState {
  least_addr : Z; treebins_at : Z; treemap : Z; treebins : list Z; chunks : gmap Z tchunk }.
Definition treebin_at (m : mstate) (i : Z) : Z := treebins_at m + 8 * i.
Definition ok_address (m : mstate) (a : Z) : bool := least_addr m <=? a.

Definition with_chunks (h : gmap Z tchunk) (m : mstate) : mstate :=
  MState (least_addr m) (treebins_at m) (treemap m) (treebins m) h.
Definition upd (a : Z) (f : tchunk -> tchunk) (m : mstate) : option mstate :=
  _ ← chunks m !! a; Some (with_chunks (alter f a (chunks m)) m).
(** [*H = v], for the bin [i]. *)
Definition set_bin (i v : Z) (m : mstate) : option mstate :=
  _ ← treebins m !! Z.to_nat i;
  Some (MState (least_addr m) (treebins_at m) (treemap m) (<[Z.to_nat i := v]> (treebins m)) (chunks m)).
Definition with_treemap (v : Z) (m : mstate) : mstate :=
  MState (least_addr m) (treebins_at m) v (treebins m) (chunks m).
Definition treemap_is_marked (m : mstate) (i : Z) : bool := negb (Z.land (treemap m) (idx2bit i) =? 0).
Definition mark_treemap (i : Z) (m : mstate) : mstate := with_treemap (Z.lor (treemap m) (idx2bit i)) m.
Definition clear_treemap (i : Z) (m : mstate) : mstate :=
  with_treemap (Z.land (treemap m) (u32 (Z.lnot (idx2bit i)))) m.

(** The shift that puts the first bit a tree of the bin [i] looks at in the sign bit. *)
Definition leftshift_for_tree_index (i : Z) : Z :=
  if i =? NTREEBINS - 1 then 0 else (SIZE_T_BITSIZE - 1) - (Z.shiftr i 1 + TREEBIN_SHIFT - 2).
Definition sign_bit (K : Z) : bool := negb (Z.land (Z.shiftr K (SIZE_T_BITSIZE - 1)) 1 =? 0).
(** The address of the field [child] with the index [b] of the chunk [T]. *)
Definition child_at (T : Z) (b : bool) : Z := T + 32 + (if b then 8 else 0).

(** A path has at most one chunk for each bit of a size, and one more. *)
Definition TREE_FUEL : nat := 66.

(** ** [insert_large_chunk] *)
(** [X] becomes the child [b] of [T], or enters the ring of [T] behind it. *)
Definition insert_child (X T : Z) (b : bool) (m : mstate) : option mstate :=
  guard_ (ok_address m (child_at T b)) (
  m ← upd T (set_child b X) m;
  m ← upd X (set_parent T) m;
  m ← upd X (set_bk X) m;
  upd X (set_fd X) m).
Definition insert_ring (X T F : Z) (m : mstate) : option mstate :=
  guard_ (ok_address m T && ok_address m F) (
  m ← upd F (set_bk X) m;
  m ← upd T (set_fd X) m;
  m ← upd X (set_fd F) m;
  m ← upd X (set_bk T) m;
  upd X (set_parent 0) m).
Fixpoint insert_loop (fuel : nat) (X S T K : Z) (m : mstate) : option mstate :=
  match fuel with
  | O => None
  | Datatypes.S fuel =>
      c ← chunks m !! T;
      if negb (chunksize c =? S) then
        let b := sign_bit K in
        let K := u64 (Z.shiftl K 1) in
        if negb (tc_child b c =? 0) then insert_loop fuel X S (tc_child b c) K m
        else insert_child X T b m
      else insert_ring X T (tc_fd c) m
  end.

Definition insert_large_chunk (X S : Z) (m : mstate) : option mstate :=
  let I := compute_tree_index_bsr S in
  m ← upd X (set_index I) m;
  m ← upd X (set_child true 0) m;
  m ← upd X (set_child false 0) m;
  if negb (treemap_is_marked m I) then
    let m := mark_treemap I m in
    m ← set_bin I X m;
    m ← upd X (set_parent (treebin_at m I)) m;
    m ← upd X (set_bk X) m;
    upd X (set_fd X) m
  else
    T ← treebins m !! Z.to_nat I;
    insert_loop TREE_FUEL X S T (u64 (Z.shiftl S (leftshift_for_tree_index I))) m.

(** ** [unlink_large_chunk] *)
(** The rightmost descendant, with the slot [RP] that points to it. *)
Fixpoint find_leaf (fuel : nat) (R : Z) (RP : Z * bool) (m : mstate) : option (Z * (Z * bool)) :=
  match fuel with
  | O => None
  | S fuel =>
      c ← chunks m !! R;
      if negb (tc_child1 c =? 0) then find_leaf fuel (tc_child1 c) (R, true) m
      else if negb (tc_child0 c =? 0) then find_leaf fuel (tc_child0 c) (R, false) m
      else Some (R, RP)
  end.

(** The replacement [R] of [X] in the tree: another chunk of its size, a leaf below it,
    or none. *)
Definition detach_replacement (X : Z) (m : mstate) : option (Z * mstate) :=
  c ← chunks m !! X;
  if negb (tc_bk c =? X) then
    let F := tc_fd c in
    let R := tc_bk c in
    guard_ (ok_address m F) (
    m ← upd F (set_bk R) m;
    m ← upd R (set_fd F) m;
    Some (R, m))
  else
    let leaf (R : Z) (RP : Z * bool) :=
      '(R, RP) ← find_leaf TREE_FUEL R RP m;
      guard_ (ok_address m (child_at RP.1 RP.2)) (
      m ← upd RP.1 (set_child RP.2 0) m;
      Some (R, m)) in
    if negb (tc_child1 c =? 0) then leaf (tc_child1 c) (X, true)
    else if negb (tc_child0 c =? 0) then leaf (tc_child0 c) (X, false)
    else Some (0, m).

(** [XP]'s link to [X], or the bin's, goes to [R]. *)
Definition relink_parent (X XP R : Z) (m : mstate) : option mstate :=
  c ← chunks m !! X;
  H ← treebins m !! Z.to_nat (tc_index c);
  if X =? H then
    m ← set_bin (tc_index c) R m;
    Some (if R =? 0 then clear_treemap (tc_index c) m else m)
  else
    guard_ (ok_address m XP) (
    cp ← chunks m !! XP;
    if tc_child0 cp =? X then upd XP (set_child false R) m else upd XP (set_child true R) m).

(** A child of [X] becomes one of [R]. *)
Definition move_child (b : bool) (X R : Z) (m : mstate) : option mstate :=
  c ← chunks m !! X;
  let C := tc_child b c in
  if negb (C =? 0) then
    guard_ (ok_address m C) (
    m ← upd R (set_child b C) m;
    upd C (set_parent R) m)
  else Some m.

Definition finish_unlink (X XP R : Z) (m : mstate) : option mstate :=
  m ← relink_parent X XP R m;
  if negb (R =? 0) then
    guard_ (ok_address m R) (
    m ← upd R (set_parent XP) m;
    m ← move_child false X R m;
    move_child true X R m)
  else Some m.
Definition unlink_large_chunk (X : Z) (m : mstate) : option mstate :=
  c ← chunks m !! X;
  let XP := tc_parent c in
  '(R, m) ← detach_replacement X m;
  if negb (XP =? 0) then finish_unlink X XP R m else Some m.

(** ** The searches of [tmalloc_large] and [tmalloc_small] *)
(** Down the tree of the bin of [nb] along the bits of [nb]: the best chunk on the way,
    and the deepest right subtree that was not entered. *)
Fixpoint traverse (fuel : nat) (nb sizebits t v rsize rst : Z) (m : mstate) : option (Z * Z * Z) :=
  match fuel with
  | O => None
  | S fuel =>
      c ← chunks m !! t;
      let trem := u64 (chunksize c - nb) in
      let better := trem <? rsize in
      let v := if better then t else v in
      let rsize := if better then trem else rsize in
      if better && (rsize =? 0) then Some (t, v, rsize)
      else
        let rt := tc_child1 c in
        let t := tc_child (sign_bit sizebits) c in
        let rst := if negb (rt =? 0) && negb (rt =? t) then rt else rst in
        if t =? 0 then Some (rst, v, rsize)
        else traverse fuel nb (u64 (Z.shiftl sizebits 1)) t v rsize rst m
  end.

(** Down the leftmost path. *)
Fixpoint find_smallest (fuel : nat) (nb t v rsize : Z) (m : mstate) : option (Z * Z) :=
  if t =? 0 then Some (v, rsize)
  else
    match fuel with
    | O => None
    | S fuel =>
        c ← chunks m !! t;
        let trem := u64 (chunksize c - nb) in
        if trem <? rsize then find_smallest fuel nb (leftmost_child c) t trem m
        else find_smallest fuel nb (leftmost_child c) v rsize m
    end.

Definition tmalloc_large_find (nb : Z) (m : mstate) : option (Z * Z) :=
  let rsize := u64 (- nb) in
  let idx := compute_tree_index_bsr nb in
  t ← treebins m !! Z.to_nat idx;
  '(t, v, rsize) ← (if negb (t =? 0) then traverse TREE_FUEL nb (u64 (Z.shiftl nb (leftshift_for_tree_index idx))) t 0 rsize 0 m
    else Some (t, 0, rsize));
  t ← (if (t =? 0) && (v =? 0) then
         match next_tree_bin idx (treemap m) with
         | Some i => treebins m !! Z.to_nat i
         | None => Some t
         end
       else Some t);
  find_smallest TREE_FUEL nb t v rsize m.

Definition tmalloc_small_find (nb : Z) (m : mstate) : option (Z * Z) :=
  let i := compute_bit2idx_bsf (least_bit (treemap m)) in
  t ← treebins m !! Z.to_nat i;
  c ← chunks m !! t;
  find_smallest TREE_FUEL nb (leftmost_child c) t (u64 (chunksize c - nb)) m.

(** * Trees *)
(** What the chunks of a bin form: a node has a chunk, its size, and the other chunks of
    its ring. *)
Inductive tree :=
| Leaf
| Node (a s : Z) (ch : list Z) (l r : tree).

Definition root (t : tree) : Z := match t with Leaf => 0 | Node a _ _ _ _ => a end.
Fixpoint elems (t : tree) : list (Z * Z) :=
  match t with
  | Leaf => []
  | Node a s ch l r => (a, s) :: ((fun x => (x, s)) <$> ch) ++ elems l ++ elems r
  end.
Definition addrs (t : tree) : list Z := (elems t).*1.

Lemma addrs_node a s ch l r : addrs (Node a s ch l r) = a :: ch ++ addrs l ++ addrs r.
Proof.
  unfold addrs. cbn. rewrite !fmap_app, <- list_fmap_compose. unfold compose. cbn. by rewrite list_fmap_id.
Qed.

(** The sizes of the chunks that are in the tree themselves. *)
Fixpoint node_sizes (t : tree) : list Z :=
  match t with Leaf => [] | Node _ s _ l r => s :: node_sizes l ++ node_sizes r end.

Lemma elem_size x s t : (x, s) ∈ elems t -> s ∈ node_sizes t.
Proof.
  induction t as [|a s0 ch l IHl r IHr]; intros Hx; [by apply elem_of_nil in Hx|]. cbn [elems node_sizes] in *. rewrite elem_of_cons, !elem_of_app in Hx. rewrite elem_of_cons, elem_of_app.
  destruct Hx as [E|[(y & E & _)%list_elem_of_fmap|[Hx|Hx]]]; simplify_eq; auto.
Qed.

(** The heads of the chunks, by address. *)
Implicit Types g : Z -> tchunk.

Fixpoint links g (l : list Z) : Prop :=
  match l with
  | x :: ((y :: _) as l') => tc_fd (g x) = y /\ tc_bk (g y) = x /\ links g l'
  | _ => True
  end.
(** A chunk of a ring that is not in the tree. *)
Definition ring_chunk g (i s x : Z) : Prop :=
  chunksize (g x) = s /\ tc_index (g x) = i /\ tc_parent (g x) = 0 /\ tc_child0 (g x) = 0 /\ tc_child1 (g x) = 0.
Fixpoint trep g (i par : Z) (t : tree) : Prop :=
  match t with
  | Leaf => True
  | Node a s ch l r =>
      (chunksize (g a) = s /\ tc_index (g a) = i /\ tc_parent (g a) = par) /\
      (tc_child0 (g a) = root l /\ tc_child1 (g a) = root r) /\
      (links g (a :: ch ++ [a]) /\ Forall (ring_chunk g i s) ch) /\ trep g i a l /\ trep g i a r
  end.

Lemma links_cons g x y l : links g (x :: y :: l) <-> tc_fd (g x) = y /\ tc_bk (g y) = x /\ links g (y :: l).
Proof. done. Qed.

Lemma links_ext g g' l :
  (forall x, x ∈ removelast l -> tc_fd (g' x) = tc_fd (g x)) -> (forall y, y ∈ tail l -> tc_bk (g' y) = tc_bk (g y)) ->
  links g l -> links g' l.
Proof.
  induction l as [|x [|y l] IH]; [done..|]. intros Hf Hb (E1 & E2 & HL).
  split; [rewrite Hf; [done|by left]|]. split; [rewrite Hb; [done|by left]|].
  apply IH; [intros z Hz; apply Hf; by right|intros z Hz; apply Hb; right; by destruct l|done].
Qed.

Lemma links_agree g g' l : (forall x, x ∈ l -> g' x = g x) -> links g l -> links g' l.
Proof.
  intros H. apply links_ext; intros x Hx; rewrite H; [done| |done|].
  - induction l as [|y [|z l] IH]; cbn in *; [done|set_solver|]. apply elem_of_cons in Hx as [->|Hx]; [by left|right].
    apply IH; [|done]. intros w Hw. apply H. by right.
  - destruct l; [done|by right].
Qed.

Lemma links_app g l1 x l2 : links g (l1 ++ x :: l2) <-> links g (l1 ++ [x]) /\ links g (x :: l2).
Proof.
  induction l1 as [|y l1 IH]; [cbn; tauto|]. destruct l1 as [|z l1].
  - cbn. tauto.
  - cbn [app] in *. cbn [links] in *. tauto.
Qed.

Lemma trep_agree g g' i par t : (forall x, x ∈ addrs t -> g' x = g x) -> trep g i par t -> trep g' i par t.
Proof.
  revert par. induction t as [|a s ch l IHl r IHr]; intros par H; [done|]. rewrite addrs_node in H.
  intros (Hn & Hc & (HL & HF) & Tl & Tr). cbn [trep]. rewrite (H a) by set_solver. split; [done|]. split; [done|]. split.
  - split; [revert HL; apply links_agree; set_solver|]. rewrite Forall_forall in *. intros x Hx.
    unfold ring_chunk. rewrite H by set_solver. by apply HF.
  - split; [apply IHl|apply IHr]; (done || set_solver).
Qed.

(** ** A place in a tree *)
(** The nodes above it, from the root, each with the side the place is on. *)
Record frame := Frame { f_a : Z; f_s : Z; f_ch : list Z; f_dir : bool; f_other : tree }.
Definition plug1 (f : frame) (t : tree) : tree :=
  if f_dir f then Node (f_a f) (f_s f) (f_ch f) (f_other f) t else Node (f_a f) (f_s f) (f_ch f) t (f_other f).
Fixpoint plug (k : list frame) (t : tree) : tree := match k with [] => t | f :: k => plug1 f (plug k t) end.
(** The parent of the place and the side the place is on. *)
Fixpoint above (par : Z) (k : list frame) : Z := match k with [] => par | f :: k => above (f_a f) k end.
Fixpoint side (k : list frame) : bool := match k with [] => false | [f] => f_dir f | _ :: k => side k end.
Fixpoint kelems (k : list frame) : list (Z * Z) :=
  match k with
  | [] => []
  | f :: k => (f_a f, f_s f) :: ((fun x => (x, f_s f)) <$> f_ch f) ++ elems (f_other f) ++ kelems k
  end.

Lemma elems_plug k t : elems (plug k t) ≡ₚ kelems k ++ elems t.
Proof.
  induction k as [|f k IH]; [done|]. cbn. unfold plug1. destruct (f_dir f); cbn; rewrite IH; solve_Permutation.
Qed.

Fixpoint ksizes (k : list frame) : list Z :=
  match k with [] => [] | f :: k => f_s f :: node_sizes (f_other f) ++ ksizes k end.
Lemma sizes_plug k t : node_sizes (plug k t) ≡ₚ ksizes k ++ node_sizes t.
Proof.
  induction k as [|f k IH]; [done|]. cbn. unfold plug1. destruct (f_dir f); cbn; rewrite IH; solve_Permutation.
Qed.

Lemma addrs_plug k t : addrs (plug k t) ≡ₚ (kelems k).*1 ++ addrs t.
Proof. unfold addrs. by rewrite elems_plug, fmap_app. Qed.

Lemma above_in par k : k <> [] -> above par k ∈ (kelems k).*1.
Proof.
  revert par. induction k as [|f k IH]; intros par Hk; [done|]. cbn. destruct k as [|f' k]; [cbn; by left|].
  right. rewrite !fmap_app, !elem_of_app. right. right. by apply IH.
Qed.

Lemma find_place x t : x ∈ addrs t -> exists k a s ch l r, t = plug k (Node a s ch l r) /\ (x = a \/ x ∈ ch).
Proof.
  induction t as [|a s ch l IHl r IHr]; intros Hx; [by apply elem_of_nil in Hx|]. rewrite addrs_node in Hx.
  rewrite elem_of_cons, !elem_of_app in Hx. destruct Hx as [->|[Hx|[Hx|Hx]]].
  - exists [], a, s, ch, l, r. eauto.
  - exists [], a, s, ch, l, r. eauto.
  - destruct (IHl Hx) as (k & a' & s' & ch' & l' & r' & -> & Ho). by exists (Frame a s ch false r :: k), a', s', ch', l', r'.
  - destruct (IHr Hx) as (k & a' & s' & ch' & l' & r' & -> & Ho). by exists (Frame a s ch true l :: k), a', s', ch', l', r'.
Qed.

Lemma root_plug k t t' : k <> [] -> root (plug k t) = root (plug k t').
Proof. destruct k as [|f k]; [done|]. intros _. cbn. unfold plug1. by destruct (f_dir f). Qed.

(** The node a frame stands for. *)
Definition frame_rep g (i par : Z) (f : frame) (sub : Z) : Prop :=
  (chunksize (g (f_a f)) = f_s f /\ tc_index (g (f_a f)) = i /\ tc_parent (g (f_a f)) = par) /\
  (tc_child (f_dir f) (g (f_a f)) = sub /\ tc_child (negb (f_dir f)) (g (f_a f)) = root (f_other f)) /\
  (links g (f_a f :: f_ch f ++ [f_a f]) /\ Forall (ring_chunk g i (f_s f)) (f_ch f)) /\ trep g i (f_a f) (f_other f).

Lemma trep_plug1 g i par f t : trep g i par (plug1 f t) <-> frame_rep g i par f (root t) /\ trep g i (f_a f) t.
Proof. unfold plug1, frame_rep. destruct f as [a s ch [] o]; cbn -[links]; tauto. Qed.

Lemma addrs_plug1 f t : addrs (plug1 f t) ≡ₚ f_a f :: f_ch f ++ addrs (f_other f) ++ addrs t.
Proof. unfold plug1. destruct f as [a s ch [] o]; cbn [f_dir f_a f_s f_ch f_other]; rewrite addrs_node; solve_Permutation. Qed.

Lemma trep_place g i par k t : trep g i par (plug k t) -> trep g i (above par k) t.
Proof.
  revert par. induction k as [|f k IH]; intros par HT; [done|]. cbn in *. apply trep_plug1 in HT as [_ HT]. by apply IH.
Qed.

Lemma frame_child g g' i par f sub sub' : NoDup (f_a f :: f_ch f ++ addrs (f_other f)) ->
  g' (f_a f) = set_child (f_dir f) sub' (g (f_a f)) -> (forall x, x ∈ f_ch f ++ addrs (f_other f) -> g' x = g x) ->
  frame_rep g i par f sub -> frame_rep g' i par f sub'.
Proof.
  intros Hd Ha Hx (Hn & Hc & (HL & HF) & HT). unfold frame_rep. rewrite Ha. destruct f as [a s ch d o]; cbn [f_a f_s f_ch f_dir f_other] in *.
  assert (E : forall x, x ∈ a :: ch ++ [a] -> tc_fd (g' x) = tc_fd (g x) /\ tc_bk (g' x) = tc_bk (g x)).
  { intros x Hin. destruct (decide (x = a)) as [->|]; [rewrite Ha; by destruct d|]. rewrite Hx; [done|]. set_solver. }
  split; [by destruct d|]. split; [destruct Hc as [_ <-]; by destruct d|]. split; [split|].
  - revert HL. apply links_ext; intros x Hin; apply E.
    + revert Hin. rewrite app_comm_cons, removelast_last. set_solver.
    + cbn [tail] in Hin. by right.
  - rewrite Forall_forall in *. intros x Hin. unfold ring_chunk. rewrite Hx by set_solver. by apply HF.
  - revert HT. apply trep_agree. set_solver.
Qed.

Lemma set_child_same b c : set_child b (tc_child b c) c = c.
Proof. by destruct b, c. Qed.

(** A change below a place: the tree changes at the place only when the rest of the
    memory does not change, but for the link of the parent. *)
Lemma plug_replace g g' i par k t t' :
  trep g i par (plug k t) -> NoDup (addrs (plug k t)) ->
  (forall b, b ∈ (kelems k).*1 -> b <> above par k -> g' b = g b) ->
  (k <> [] -> g' (above par k) = set_child (side k) (root t') (g (above par k))) ->
  trep g' i (above par k) t' -> trep g' i par (plug k t').
Proof.
  revert par. induction k as [|f k IH]; intros par HT Hd Hb Hc HT'; [done|]. cbn [plug above] in *.
  apply trep_plug1 in HT as [HF HT]. rewrite addrs_plug1 in Hd.
  rewrite app_assoc, app_comm_cons in Hd. apply NoDup_app in Hd as (Hd1 & Hd & Hdk).
  assert (Ho : forall x, x ∈ f_a f :: f_ch f ++ addrs (f_other f) -> x ∉ (kelems k).*1).
  { intros x Hx Hin. apply (Hd x Hx). rewrite addrs_plug. apply elem_of_app. by left. }
  cbn [kelems] in Hb. assert (Hrest : forall x, x ∈ f_ch f ++ addrs (f_other f) -> x <> above (f_a f) k -> g' x = g x).
  { intros x Hx. apply Hb. cbn. rewrite !fmap_app, <- list_fmap_compose. unfold compose. cbn. rewrite list_fmap_id.
    unfold addrs in Hx. set_solver. }
  apply trep_plug1. split.
  - apply (frame_child g g' i par f (root (plug k t))); [done| | |done].
    + destruct k as [|f' k]; [by apply Hc|]. rewrite (root_plug _ t' t) by done.
      destruct HF as (_ & (<- & _) & _). rewrite set_child_same. apply Hb; [by left|]. intros E.
      apply (Ho (f_a f)); [by left|]. rewrite E. by apply above_in.
    + intros x Hx. apply Hrest; [done|]. intros ->. destruct k as [|f' k].
      * by apply NoDup_cons in Hd1 as [? _].
      * apply (Ho (above (f_a f) (f' :: k))); [by right|]. by apply above_in.
  - apply IH; try done.
    + intros b Hin. apply Hb. cbn. rewrite !fmap_app. set_solver.
    + intros Hk. rewrite Hc by done. by destruct k.
Qed.

(** ** Memory under the operations *)
Definition fupd (a : Z) (f : tchunk -> tchunk) g : Z -> tchunk := fun b => if decide (b = a) then f (g b) else g b.

(** [m] differs from [m0] in the heads of chunks only, and they are [g]. *)
Record heap_is (m0 m : mstate) g : Prop := {
  hi_view : forall b, chunks m !!! b = g b;
  hi_dom : forall b, is_Some (chunks m !! b) <-> is_Some (chunks m0 !! b);
  hi_rest : m = with_chunks (chunks m) m0 }.

Lemma heap_is_self m : heap_is m m (fun b => chunks m !!! b).
Proof. split; [done..|]. by destruct m. Qed.

Lemma heap_lookup m0 m g a : heap_is m0 m g -> is_Some (chunks m0 !! a) -> chunks m !! a = Some (g a).
Proof.
  intros H Ha. apply (hi_dom _ _ _ H) in Ha as [c Hc]. rewrite <- (hi_view _ _ _ H). by rewrite (lookup_total_correct _ _ _ Hc).
Qed.

Lemma upd_step m0 m g a f : heap_is m0 m g -> is_Some (chunks m0 !! a) ->
  exists m', upd a f m = Some m' /\ heap_is m0 m' (fupd a f g).
Proof.
  intros H Ha. pose proof (heap_lookup _ _ _ _ H Ha) as E. eexists. split; [unfold upd; rewrite E; reflexivity|]. split; cbn.
  - intros b. unfold fupd. destruct (decide (b = a)) as [->|Hne].
    + rewrite lookup_total_alt, lookup_alter_eq, E. done.
    + rewrite lookup_total_alter_ne by done. apply (hi_view _ _ _ H).
  - intros b. rewrite lookup_alter_is_Some. apply (hi_dom _ _ _ H).
  - destruct H as [_ _ Hr]. destruct m, m0. unfold with_chunks in *. cbn in *. by simplify_eq.
Qed.

Lemma heap_ok m0 m g a : heap_is m0 m g -> ok_address m a = ok_address m0 a.
Proof. intros H. unfold ok_address. by rewrite (hi_rest _ _ _ H). Qed.

Lemma fupd_eq a f g : fupd a f g a = f (g a).
Proof. unfold fupd. by rewrite decide_True. Qed.
Lemma fupd_ne a f g b : b <> a -> fupd a f g b = g b.
Proof. intros. unfold fupd. by rewrite decide_False. Qed.

(** Run one [upd]: [H] says what the memory is, and [D] that the address is a chunk. *)
Ltac run_upd H D :=
  let m := fresh "m" in let E := fresh "E" in let H' := fresh H in
  lazymatch goal with
  | |- context [upd ?a ?f ?n] => destruct (upd_step _ _ _ a f H D) as (m & E & H'); rewrite E; clear E; cbn [mbind option_bind]; clear H; rename H' into H
  end.
Ltac fupds := repeat first [rewrite fupd_eq | rewrite fupd_ne by (done || congruence)].

Lemma insert_child_spec m0 m g X T b : heap_is m0 m g -> is_Some (chunks m0 !! X) -> is_Some (chunks m0 !! T) ->
  ok_address m0 T = true ->
  exists m', insert_child X T b m = Some m' /\
    heap_is m0 m' (fupd X (set_fd X) (fupd X (set_bk X) (fupd X (set_parent T) (fupd T (set_child b X) g)))).
Proof.
  intros H DX DT Hok. unfold insert_child. rewrite (heap_ok _ _ _ _ H).
  replace (ok_address m0 _) with true by (unfold ok_address, child_at in *; destruct b; lia). cbn [guard_].
  run_upd H DT. run_upd H DX. run_upd H DX. run_upd H DX. eauto.
Qed.

Lemma insert_ring_spec m0 m g X T F : heap_is m0 m g -> is_Some (chunks m0 !! X) -> is_Some (chunks m0 !! T) ->
  is_Some (chunks m0 !! F) -> ok_address m0 T = true -> ok_address m0 F = true ->
  exists m', insert_ring X T F m = Some m' /\
    heap_is m0 m' (fupd X (set_parent 0) (fupd X (set_bk T) (fupd X (set_fd F) (fupd T (set_fd X) (fupd F (set_bk X) g))))).
Proof.
  intros H DX DT DF HT HF. unfold insert_ring. rewrite !(heap_ok _ _ _ _ H), HT, HF. cbn [andb guard_].
  run_upd H DF. run_upd H DT. run_upd H DX. run_upd H DX. run_upd H DX. eauto.
Qed.

Lemma node_nodup a s ch l r : NoDup (addrs (Node a s ch l r)) <->
  NoDup (a :: ch) /\ (forall x, x ∈ (a :: ch) -> (x ∉ addrs l) /\ (x ∉ addrs r)) /\ NoDup (addrs l) /\
  (forall x, x ∈ addrs l -> x ∉ addrs r) /\ NoDup (addrs r).
Proof.
  rewrite addrs_node, app_comm_cons, !NoDup_app. split.
  - intros (H1 & H2 & H3 & H4 & H5). split_and!; try done. intros x Hx. specialize (H2 x Hx). set_solver.
  - intros (H1 & H2 & H3 & H4 & H5). split_and!; try done. intros x Hx. specialize (H2 x Hx). set_solver.
Qed.

(** ** Rings *)
Lemma ring_next g a ch : links g (a :: ch ++ [a]) -> exists rest, ch ++ [a] = tc_fd (g a) :: rest /\ tc_bk (g (tc_fd (g a))) = a.
Proof. destruct ch as [|y ch]; cbn; intros (-> & E & _); eauto. Qed.

(** A segment is kept when its first chunk has another predecessor and its last one
    another successor. *)
Lemma links_inner g g' F rest l0 z : F :: rest = l0 ++ [z] -> NoDup (F :: rest) ->
  (forall b, b ∈ F :: rest -> b <> z -> tc_fd (g' b) = tc_fd (g b)) ->
  (forall b, b ∈ F :: rest -> b <> F -> tc_bk (g' b) = tc_bk (g b)) ->
  links g (F :: rest) -> links g' (F :: rest).
Proof.
  intros E Hd Hf Hb. apply links_ext.
  - intros x Hx. rewrite E, removelast_last in Hx. apply Hf.
    + rewrite E. apply elem_of_app. by left.
    + intros ->. rewrite E in Hd. apply NoDup_app in Hd as (_ & Hd & _). apply (Hd z Hx). by left.
  - intros y Hy. cbn in Hy. apply Hb; [by right|]. intros ->. by apply NoDup_cons in Hd as [? _].
Qed.

Definition ring_insert_mem (X T F : Z) g :=
  fupd X (set_parent 0) (fupd X (set_bk T) (fupd X (set_fd F) (fupd T (set_fd X) (fupd F (set_bk X) g)))).

Lemma ring_insert g i par X T s ch l r :
  trep g i par (Node T s ch l r) -> NoDup (X :: addrs (Node T s ch l r)) ->
  chunksize (g X) = s /\ tc_index (g X) = i /\ tc_child0 (g X) = 0 /\ tc_child1 (g X) = 0 ->
  trep (ring_insert_mem X T (tc_fd (g T)) g) i par (Node T s (X :: ch) l r).
Proof.
  intros (Hn & Hc & (HL & HF) & Tl & Tr) Hd HX. apply NoDup_cons in Hd as [HnX Hd]. rewrite addrs_node in HnX.
  apply node_nodup in Hd as (Hd & Hsep & _). destruct (ring_next _ _ _ HL) as (rest & ER & EB). set (F := tc_fd (g T)) in *.
  assert (HFin : F ∈ ch ++ [T]) by (rewrite ER; by left).
  assert (HXT : X <> T /\ X <> F) by set_solver. destruct HXT as [HXT HXF].
  assert (HdR : NoDup (F :: rest)) by (rewrite <- ER; by rewrite <- Permutation_cons_append).
  assert (HTch : T ∉ ch) by (by apply NoDup_cons in Hd as [? _]).
  set (g' := ring_insert_mem X T F g).
  assert (GX : g' X = set_parent 0 (set_bk T (set_fd F (g X)))) by (unfold g', ring_insert_mem; by fupds).
  assert (GT : g' T = set_fd X (fupd F (set_bk X) g T)) by (unfold g', ring_insert_mem; by fupds).
  assert (GF : tc_bk (g' F) = X). { unfold g', ring_insert_mem. fupds. destruct (decide (F = T)) as [E|]; [rewrite E; by fupds|by fupds]. }
  assert (GO : forall b, b <> X -> b <> T -> g' b = fupd F (set_bk X) g b) by (intros b ??; unfold g', ring_insert_mem; by fupds).
  assert (GN : forall b, b <> X -> b <> T -> b <> F -> g' b = g b) by (intros b ???; rewrite GO by done; by fupds).
  cbn [trep]. split; [|split; [|split; [split|split]]].
  - rewrite GT. unfold fupd. by destruct (decide (T = F)).
  - rewrite GT. unfold fupd. by destruct (decide (T = F)).
  - assert (Hlast : exists l0, F :: rest = l0 ++ [T]) by (exists ch; by rewrite <- ER). destruct Hlast as [l0 El].
    cbn [links]. cbn [app links]. rewrite ER. split; [by rewrite GT|]. split; [by rewrite GX|]. cbn [links]. split; [by rewrite GX|]. split; [done|].
    change (links g' (F :: rest)). apply (links_inner g g' F rest l0 T); try done.
    + intros b Hb Hne. rewrite GO; [|intros ->; rewrite <- ER in Hb; set_solver|done].
      unfold fupd. by destruct (decide (b = F)).
    + intros b Hb Hne. destruct (decide (b = T)) as [->|]; [rewrite GT; by fupds|]. rewrite GN; [done| |done|done].
      intros ->. rewrite <- ER in Hb. set_solver.
    + change (links g (T :: ch ++ [T])) in HL. rewrite ER in HL. by destruct HL as (_ & _ & HL).
  - apply Forall_cons. split.
    + unfold ring_chunk. rewrite GX. by destruct HX as (? & ? & ? & ?).
    + rewrite Forall_forall in *. intros x Hx. specialize (HF x Hx). unfold ring_chunk.
      rewrite GO by set_solver. unfold fupd. by destruct (decide (x = F)).
  - revert Tl. apply trep_agree. intros x Hx. apply GN; set_solver.
  - revert Tr. apply trep_agree. intros x Hx. apply GN; set_solver.
Qed.

(** ** Sizes in a tree *)
(** Below a node with [n] bits to look at, all sizes have the same bits above them,
    and a child has the sizes with its value of the next bit. *)
Fixpoint wf (n : nat) (p : Z) (t : tree) {struct t} : Prop :=
  match t with
  | Leaf => True
  | Node _ s _ l r =>
      s / 2 ^ Z.of_nat n = p /\
      match n with
      | O => l = Leaf /\ r = Leaf
      | S n => wf n (2 * p) l /\ wf n (2 * p + 1) r
      end
  end.

Lemma wf_size n p t s : wf n p t -> s ∈ node_sizes t -> s / 2 ^ Z.of_nat n = p.
Proof.
  revert n p. induction t as [|a' s' ch l IHl r IHr]; intros n p Hw Hin; [by apply elem_of_nil in Hin|]. destruct Hw as [Hs Hw].
  cbn [node_sizes] in Hin. rewrite elem_of_cons, elem_of_app in Hin. destruct Hin as [->|Hin]; [done|].
  destruct n as [|n]; [destruct Hw as [-> ->]; by destruct Hin as [?%elem_of_nil|?%elem_of_nil]|]. destruct Hw as [Wl Wr].
  assert (E : s / 2 ^ Z.of_nat (S n) = s / 2 ^ Z.of_nat n / 2).
  { rewrite Z.div_div by lia. f_equal. rewrite Nat2Z.inj_succ, Z.pow_succ_r by lia. lia. }
  rewrite E. destruct Hin as [Hin|Hin]; [rewrite (IHl _ _ Wl Hin)|rewrite (IHr _ _ Wr Hin)]; [rewrite Z.mul_comm; by apply Z.div_mul|].
  symmetry. apply (Z.div_unique_pos _ _ _ 1); lia.
Qed.

(** [K] has the bits of [S] from bit [n - 1] downwards at its top. *)
Definition bits_at (n : nat) (S K : Z) : Prop := K = u64 (S * 2 ^ (64 - Z.of_nat n)).

Lemma half_bit s n : s / 2 ^ Z.of_nat n = 2 * (s / 2 ^ Z.of_nat (S n)) + Z.b2z (Z.testbit s (Z.of_nat n)).
Proof.
  replace (2 ^ Z.of_nat (S n)) with (2 ^ Z.of_nat n * 2) by (rewrite Nat2Z.inj_succ, Z.pow_succ_r by lia; lia).
  rewrite <- Z.div_div by lia. rewrite Z.testbit_spec' by lia. apply Z.div_mod. lia.
Qed.

Lemma bits_sign n S K : (n < 64)%nat -> bits_at (Datatypes.S n) S K -> sign_bit K = Z.testbit S (Z.of_nat n).
Proof.
  intros Hn ->. unfold sign_bit, SIZE_T_BITSIZE. rewrite land_one, <- Z.bit0_mod. rewrite Z.shiftr_spec by lia.
  unfold uwrap. rewrite <- Z.land_ones, Z.land_spec, Z.testbit_ones_nonneg by lia.
  rewrite <- Z.shiftl_mul_pow2, Z.shiftl_spec by lia.
  replace (0 + (64 - 1) - (64 - Z.of_nat (Datatypes.S n))) with (Z.of_nat n) by lia. rewrite (proj2 (Z.ltb_lt _ _)) by lia.
  rewrite andb_true_r. by destruct (Z.testbit S _).
Qed.

Lemma bits_next n S K : (n < 64)%nat -> bits_at (Datatypes.S n) S K -> bits_at n S (u64 (Z.shiftl K 1)).
Proof.
  intros Hn ->. unfold bits_at, uwrap. rewrite Z.shiftl_mul_pow2 by lia. rewrite Zmult_mod_idemp_l, <- Z.mul_assoc, <- Z.pow_add_r by lia.
  do 3 f_equal. lia.
Qed.

(** All chunks of a tree are chunks of the memory, above [least_addr]. *)
Definition good (m : mstate) (a : Z) : Prop := is_Some (chunks m !! a) /\ ok_address m a = true /\ a <> 0.
Definition live (m : mstate) (t : tree) : Prop := Forall (good m) (addrs t).

Lemma live_node m a s ch l r : live m (Node a s ch l r) <-> good m a /\ Forall (good m) ch /\ live m l /\ live m r.
Proof. unfold live. rewrite addrs_node, Forall_cons, !Forall_app. done. Qed.

Lemma live_root m t : live m t -> root t = 0 -> t = Leaf.
Proof. destruct t; [done|]. rewrite live_node. intros ((_ & _ & ?) & _). done. Qed.

(** The way an insertion takes through a tree: to the node of its size, or to an empty
    place. *)
Lemma insert_path fuel m0 m g i par X S T K n t : heap_is m0 m g ->
  trep g i par t -> live m0 t -> T = root t -> T <> 0 -> (n < fuel)%nat -> (n <= 64)%nat -> wf n (S / 2 ^ Z.of_nat n) t -> bits_at n S K ->
  exists k u n', t = plug k u /\ wf n' (S / 2 ^ Z.of_nat n') u /\
    (forall u', wf n' (S / 2 ^ Z.of_nat n') u' -> wf n (S / 2 ^ Z.of_nat n) (plug k u')) /\
    ((exists a ch l r, u = Node a S ch l r /\ insert_loop fuel X S T K m = insert_ring X a (tc_fd (g a)) m) \/
     (u = Leaf /\ k <> [] /\ (S ∉ node_sizes t) /\ insert_loop fuel X S T K m = insert_child X (above par k) (side k) m)).
Proof.
  intros HM. revert par T K n fuel. induction t as [|a s ch l IHl r IHr]; intros par T K n fuel HT HD -> H0 Hf Hn Hw HK; [done|].
  pose proof HT as ((Es & _ & _) & (E0 & E1) & _ & Tl & Tr). apply live_node in HD as ((Da & _) & _ & HDl & HDr).
  destruct fuel as [|fuel]; [lia|]. cbn [insert_loop root].
  rewrite (heap_lookup _ _ _ a HM) by done. cbn [mbind option_bind]. rewrite Es.
  destruct (Z.eqb_spec s S) as [->|Hne]; cbn [negb].
  { exists [], (Node a S ch l r), n. split_and!; eauto. left. eauto 8. }
  destruct n as [|n]; [destruct Hw as [Hw _]; cbn in Hw; rewrite !Z.div_1_r in Hw; lia|].
  destruct Hw as (Hw & Wl & Wr). rewrite (bits_sign n S K) by (done || lia). pose proof (half_bit S n) as Hh.
  apply bits_next in HK; [|lia].
  set (d := Z.testbit S (Z.of_nat n)) in *. set (o := if d then l else r). set (c := if d then r else l).
  set (f := Frame a s ch d o).
  assert (Et : forall u, (if d then Node a s ch l u else Node a s ch u r) = plug1 f u) by (intros u; unfold plug1, f, o; cbn; by destruct d).
  assert (Wf : forall u, wf n (S / 2 ^ Z.of_nat n) u -> wf (Datatypes.S n) (S / 2 ^ Z.of_nat (Datatypes.S n)) (plug1 f u)).
  { intros u Wu. rewrite <- Et. rewrite Hh in Wu. destruct d; cbn [Z.b2z] in Wu; (split; [done|]); split; try done; by rewrite Z.add_0_r in Wu. }
  assert (Wc : wf n (S / 2 ^ Z.of_nat n) c) by (rewrite Hh; unfold c; destruct d; cbn [Z.b2z]; [done|by rewrite Z.add_0_r]).
  assert (Ec : tc_child d (g a) = root c) by (unfold c; by destruct d).
  assert (Tc : trep g i a c) by (unfold c; by destruct d).
  assert (Etc : Node a s ch l r = plug1 f c) by (rewrite <- Et; unfold c; by destruct d).
  assert (Hout : S ∉ node_sizes c -> S ∉ node_sizes (Node a s ch l r)).
  { intros Hc Hin. cbn in Hin. rewrite elem_of_cons, elem_of_app in Hin. destruct Hin as [?|Hin]; [done|]. pose proof (wf_size n _ l S Wl) as Pl. pose proof (wf_size n _ r S Wr) as Pr. rewrite Hh in Pl, Pr. unfold c in Hc. destruct d, Hin as [Hin|Hin]; cbn [Z.b2z] in Pl, Pr; try done; [specialize (Pl Hin)|specialize (Pr Hin)]; lia. }
  rewrite Ec. destruct (Z.eqb_spec (root c) 0) as [Ez|Ez]; cbn [negb].
  - assert (c = Leaf) as Hc by (apply (live_root m0); [unfold c; by destruct d|done]).
    exists [f], Leaf, n. rewrite Etc, Hc. split; [done|]. split; [done|]. split; [exact Wf|]. right. rewrite Hc in Hout. rewrite <- Hc, <- Etc. split; [done|]. split; [done|]. split; [|done]. apply Hout. by intros ?%elem_of_nil.
  - assert (IH : forall T K n fuel, trep g i a c -> T = root c -> T <> 0 -> (n < fuel)%nat -> (n <= 64)%nat ->
      wf n (S / 2 ^ Z.of_nat n) c -> bits_at n S K -> exists k u n', c = plug k u /\ wf n' (S / 2 ^ Z.of_nat n') u /\
      (forall u', wf n' (S / 2 ^ Z.of_nat n') u' -> wf n (S / 2 ^ Z.of_nat n) (plug k u')) /\
      ((exists a ch l r, u = Node a S ch l r /\ insert_loop fuel X S T K m = insert_ring X a (tc_fd (g a)) m) \/
       (u = Leaf /\ k <> [] /\ (S ∉ node_sizes c) /\ insert_loop fuel X S T K m = insert_child X (above a k) (side k) m))).
    { intros. unfold c in *. destruct d; [eapply IHr|eapply IHl]; eauto. }
    destruct (IH (root c) (u64 (Z.shiftl K 1)) n fuel) as (k & u & n' & Eu & Wu & Wk & Hcase); try done; [lia|lia|].
    exists (f :: k), u, n'. cbn [plug above]. rewrite <- Eu. split; [done|]. split; [done|]. split; [by intros; apply Wf, Wk|].
    destruct Hcase as [Hcase|(Hu & Hk & HnS & Hcase)]; [by left|right]. split_and!; [done|done|by apply Hout|]. rewrite Hcase. by destruct k.
Qed.

Lemma above_child g i par k u : trep g i par (plug k u) -> k <> [] -> tc_child (side k) (g (above par k)) = root u.
Proof.
  revert par. induction k as [|f k IH]; intros par HT Hk; [done|]. cbn [plug above] in *. apply trep_plug1 in HT as [(_ & (E & _) & _) HT].
  destruct k as [|f' k]; [exact E|]. by apply IH.
Qed.

Lemma above_addr par k u : k <> [] -> above par k ∈ addrs (plug k u).
Proof. intros Hk. rewrite addrs_plug. apply elem_of_app. left. by apply above_in. Qed.

Lemma place_nodup k u : NoDup (addrs (plug k u)) -> NoDup (addrs u) /\ forall b, b ∈ (kelems k).*1 -> b ∉ addrs u.
Proof. rewrite addrs_plug. intros (H1 & H2 & H3)%NoDup_app. split; [done|]. intros b Hb Hu. by apply (H2 b). Qed.

Lemma live_place m k u : live m (plug k u) -> live m u.
Proof. unfold live. rewrite addrs_plug, Forall_app. by intros [_ ?]. Qed.

(** A chunk to be inserted. *)
Definition fresh_chunk g (i S X : Z) : Prop :=
  chunksize (g X) = S /\ tc_index (g X) = i /\ tc_child0 (g X) = 0 /\ tc_child1 (g X) = 0.

(** What [m'], with the heads [g'], has after an operation on the tree [t]: the tree [t'],
    and no change elsewhere. *)
Record tree_step (m0 m' : mstate) g g' (i par : Z) (n : nat) (p X : Z) (t t' : tree) : Prop := {
  ts_heap : heap_is m0 m' g'; ts_rep : trep g' i par t'; ts_wf : wf n p t';
  ts_frame : forall b, b ∉ X :: addrs t -> g' b = g b }.

Lemma ring_insert_step m0 m g i par X S k a ch l r n p : heap_is m0 m g ->
  let t := plug k (Node a S ch l r) in let t' := plug k (Node a S (X :: ch) l r) in
  trep g i par t -> live m0 t -> good m0 X -> NoDup (X :: addrs t) -> fresh_chunk g i S X -> wf n p t' ->
  exists m' g', insert_ring X a (tc_fd (g a)) m = Some m' /\ tree_step m0 m' g g' i par n p X t t'.
Proof.
  intros HM t t' HT HD HX Hd HF Hw. apply NoDup_cons in Hd as [HnX Hd].
  pose proof (trep_place _ _ _ _ _ HT) as Hu. destruct (place_nodup _ _ Hd) as [Hdu Hk].
  pose proof (live_place _ _ _ HD) as Hl. apply live_node in Hl as (Ga & Gch & _).
  assert (HXu : X ∉ addrs (Node a S ch l r)) by (intros Hin; apply HnX; unfold t; rewrite addrs_plug; apply elem_of_app; by right).
  assert (HFin : tc_fd (g a) ∈ a :: ch).
  { destruct Hu as (_ & _ & (HL & _) & _). destruct (ring_next _ _ _ HL) as (rest & ER & _).
    assert (tc_fd (g a) ∈ ch ++ [a]) by (rewrite ER; by left). set_solver. }
  assert (GF : good m0 (tc_fd (g a))).
  { apply elem_of_cons in HFin as [->|HFin]; [done|]. rewrite Forall_forall in Gch. by apply Gch. }
  destruct (insert_ring_spec m0 m g X a (tc_fd (g a)) HM (proj1 HX) (proj1 Ga) (proj1 GF) (proj1 (proj2 Ga)) (proj1 (proj2 GF)))
    as (m' & Em & HM'). exists m', (ring_insert_mem X a (tc_fd (g a)) g). split; [done|].
  assert (GN : forall b, b <> X -> b ∉ addrs (Node a S ch l r) -> ring_insert_mem X a (tc_fd (g a)) g b = g b).
  { intros b H1 H2. rewrite addrs_node in H2. unfold ring_insert_mem. rewrite !fupd_ne by set_solver. done. }
  split; [done| |done|].
  - apply (plug_replace g _ i par k (Node a S ch l r)); try done.
    + intros b Hb _. apply GN; [|by apply Hk]. intros ->. apply HnX. unfold t. rewrite addrs_plug. apply elem_of_app. by left.
    + intros Hne. rewrite GN; [|intros E; apply HnX; rewrite <- E; by apply above_addr|by apply Hk, above_in].
      change (root _) with (root (Node a S ch l r)). rewrite <- (above_child g i par k (Node a S ch l r)) by done. by rewrite set_child_same.
    + apply ring_insert; [done|apply NoDup_cons; done|done].
  - intros b Hb. apply GN; [set_solver|]. intros Hin. apply Hb. right. unfold t. rewrite addrs_plug. apply elem_of_app. by right.
Qed.

Lemma child_insert_step m0 m g i par X S k n p : heap_is m0 m g -> k <> [] ->
  let t := plug k Leaf in let t' := plug k (Node X S [] Leaf Leaf) in
  trep g i par t -> live m0 t -> good m0 X -> NoDup (X :: addrs t) -> fresh_chunk g i S X -> wf n p t' ->
  exists m' g', insert_child X (above par k) (side k) m = Some m' /\ tree_step m0 m' g g' i par n p X t t'.
Proof.
  intros HM Hne t t' HT HD HX Hd HF Hw. apply NoDup_cons in Hd as [HnX Hd]. set (T := above par k).
  assert (GT : good m0 T) by (unfold live in HD; rewrite Forall_forall in HD; by apply HD, above_addr).
  assert (HXT : X <> T) by (intros ->; by apply HnX, above_addr).
  destruct (insert_child_spec m0 m g X T (side k) HM (proj1 HX) (proj1 GT) (proj1 (proj2 GT))) as (m' & Em & HM').
  set (g' := fupd X _ _) in HM'. exists m', g'. split; [done|].
  assert (GX : g' X = set_fd X (set_bk X (set_parent T (g X)))) by (unfold g'; by fupds).
  assert (GN : forall b, b <> X -> b <> T -> g' b = g b) by (intros b ??; unfold g'; by fupds).
  assert (GTT : g' T = set_child (side k) X (g T)) by (unfold g'; by fupds). clearbody g'.
  split; [done| |done|].
  - apply (plug_replace g _ i par k Leaf); try done.
    + intros b Hb HbT. apply GN; [|done]. intros ->. apply HnX. unfold t. rewrite addrs_plug. apply elem_of_app. by left.
    + destruct HF as (H1 & H2 & H3 & H4). cbn. by rewrite !GX.
  - intros b Hb. apply GN; [set_solver|]. intros ->. apply Hb. right. by apply above_addr.
Qed.

Lemma elems_ring_insert X k a s ch l r : elems (plug k (Node a s (X :: ch) l r)) ≡ₚ (X, s) :: elems (plug k (Node a s ch l r)).
Proof. rewrite !elems_plug. cbn. solve_Permutation. Qed.

(** [insert_loop] puts a chunk in a tree that is not empty. *)
Lemma insert_loop_spec m0 m g i par X S t n K : heap_is m0 m g -> trep g i par t -> live m0 t -> good m0 X -> t <> Leaf ->
  NoDup (X :: addrs t) -> fresh_chunk g i S X -> (n <= 64)%nat -> wf n (S / 2 ^ Z.of_nat n) t -> bits_at n S K ->
  exists m' g' t', insert_loop TREE_FUEL X S (root t) K m = Some m' /\
    tree_step m0 m' g g' i par n (S / 2 ^ Z.of_nat n) X t t' /\ root t' = root t /\ (NoDup (node_sizes t) -> NoDup (node_sizes t')) /\ elems t' ≡ₚ (X, S) :: elems t.
Proof.
  intros HM HT HD HX Hne Hd HF Hn Hw HK.
  assert (H0 : root t <> 0) by (intros E; by apply (live_root m0) in E).
  destruct (insert_path TREE_FUEL m0 m g i par X S (root t) K n t HM HT HD eq_refl H0) as (k & u & n' & -> & Wu & Wk & Hcase);
    [unfold TREE_FUEL; lia|done..|].
  destruct Hcase as [(a & ch & l & r & -> & ->)|(-> & Hk & HnS & ->)].
  - destruct (ring_insert_step m0 m g i par X S k a ch l r n (S / 2 ^ Z.of_nat n) HM HT HD HX Hd HF) as (m' & g' & Em & HS); [by apply Wk|].
    eexists m', g', _. split; [done|]. split; [exact HS|]. split; [|split; [by rewrite !sizes_plug|apply elems_ring_insert]]. destruct k as [|f k]; [done|]. by apply root_plug.
  - destruct (child_insert_step m0 m g i par X S k n (S / 2 ^ Z.of_nat n) HM Hk HT HD HX Hd HF) as (m' & g' & Em & HS).
    { apply Wk. cbn. split; [done|]. by destruct n'. }
    eexists m', g', _. split; [done|]. split; [exact HS|]. split; [by apply root_plug|]. split; [|rewrite !elems_plug; cbn; solve_Permutation].
    rewrite sizes_plug in HnS. rewrite !sizes_plug, app_nil_r in *. cbn. rewrite <- Permutation_cons_append. intros H. by apply NoDup_cons.
Qed.
