(* ===== verification/DlUnlink.v ===== *)
(** Taking a chunk out of the tree bins of a memory space: [unlink_large_chunk] of
    include/memory/malloc.c.h, on the trees of [DlTree]. *)
From stdpp Require Import gmap.
From S2P Require Import Prelude DlBins DlTree.
Local Open Scope Z_scope.
Implicit Types g : Z -> tchunk.

(** ** Rings *)
Definition ring_remove_mem (R F : Z) g := fupd R (set_fd F) (fupd F (set_bk R) g).

Lemma fupd_ring R F g b : let g' := ring_remove_mem R F g in
  tc_fd (g' b) = (if decide (b = R) then F else tc_fd (g b)) /\ tc_bk (g' b) = (if decide (b = F) then R else tc_bk (g b)) /\
  chunksize (g' b) = chunksize (g b) /\ tc_index (g' b) = tc_index (g b) /\ tc_parent (g' b) = tc_parent (g b) /\
  tc_child0 (g' b) = tc_child0 (g b) /\ tc_child1 (g' b) = tc_child1 (g b).
Proof. cbv zeta. unfold ring_remove_mem, fupd. by repeat destruct (decide _). Qed.

Lemma ring_remove_same R F g b : b <> R -> b <> F -> ring_remove_mem R F g b = g b.
Proof. intros. unfold ring_remove_mem. by fupds. Qed.

Lemma ring_chunk_remove R F g i s x : ring_chunk g i s x -> ring_chunk (ring_remove_mem R F g) i s x.
Proof. unfold ring_chunk. destruct (fupd_ring R F g x) as (_ & _ & -> & -> & -> & -> & ->). done. Qed.

(** The ring without the chunk [X] between [p0 ++ [R]] and [F :: rest]. *)
Lemma links_remove g p0 R F rest X : links g (p0 ++ [R] ++ X :: F :: rest) -> tc_bk (g X) = R /\ tc_fd (g X) = F.
Proof. cbn [app]. rewrite links_app. intros [_ HL]. cbn [links] in HL. tauto. Qed.

Lemma ring_remove_base g a z F rest ch' : links g (a :: (ch' ++ [z]) ++ [a]) -> NoDup (a :: ch' ++ [z]) -> ch' ++ [z] = F :: rest ->
  links (ring_remove_mem z F g) (z :: ch' ++ [z]) /\ tc_bk (g a) = z /\ tc_fd (g a) = F.
Proof.
  intros HL Hd E. assert (Ha : a :: (ch' ++ [z]) ++ [a] = (a :: ch') ++ z :: [a]) by (cbn; by rewrite <- app_assoc).
  pose proof HL as HL2. rewrite Ha in HL2. apply links_app in HL2 as [HL1 HL2].
  assert (Eb : tc_bk (g a) = z) by (cbn in HL2; tauto).
  rewrite E in HL. assert (Ef : tc_fd (g a) = F) by (cbn in HL; tauto). split; [|done].
  rewrite E. change ((a :: ch') ++ [z]) with (a :: (ch' ++ [z])) in HL1. rewrite E in HL1. destruct HL1 as (_ & _ & HL1).
  apply NoDup_cons in Hd as [_ Hd]. rewrite E in Hd. rewrite links_cons.
  destruct (fupd_ring z F g z) as (-> & _). destruct (fupd_ring z F g F) as (_ & -> & _). rewrite !decide_True by done.
  split; [done|]. split; [done|]. revert HL1. apply (links_inner _ _ F rest ch' z); [done|done| |].
  - intros b _ Hb. destruct (fupd_ring z F g b) as (-> & _). by rewrite decide_False.
  - intros b _ Hb. destruct (fupd_ring z F g b) as (_ & -> & _). by rewrite decide_False.
Qed.

Lemma ring_remove_inner g a c1 X c2 p0 R F rest : links g (a :: (c1 ++ X :: c2) ++ [a]) -> NoDup (a :: c1 ++ X :: c2) ->
  a :: c1 = p0 ++ [R] -> c2 ++ [a] = F :: rest ->
  links (ring_remove_mem R F g) (a :: (c1 ++ c2) ++ [a]) /\ tc_bk (g X) = R /\ tc_fd (g X) = F /\ X <> R.
Proof.
  intros HL Hd E1 E2.
  assert (Ea : a :: (c1 ++ X :: c2) ++ [a] = p0 ++ [R] ++ X :: F :: rest).
  { rewrite app_comm_cons, (app_comm_cons c1), E1. rewrite <- !app_assoc. cbn. by rewrite <- E2. }
  assert (En : a :: (c1 ++ c2) ++ [a] = p0 ++ R :: F :: rest).
  { rewrite app_comm_cons, (app_comm_cons c1), E1. rewrite <- !app_assoc. cbn. by rewrite <- E2. }
  rewrite Ea in HL. pose proof (links_remove _ _ _ _ _ _ HL) as [EB EF].
  cbn [app] in HL. apply links_app in HL as [HL1 HL2]. destruct HL2 as (_ & _ & HL2). destruct HL2 as (_ & _ & HL2).
  apply NoDup_cons in Hd as [Hna Hd]. apply NoDup_app in Hd as (Hd1 & Hd12 & Hd2). apply NoDup_cons in Hd2 as [HnX Hd2].
  assert (HR : R ∈ a :: c1) by (rewrite E1; set_solver). assert (HF : F ∈ c2 ++ [a]) by (rewrite E2; by left).
  split; [|split_and!; [done|done|]]; [|intros ->; set_solver].
  rewrite En. apply links_app. split.
  - rewrite <- E1 in *. revert HL1. apply links_ext.
    + intros x Hx. destruct (fupd_ring R F g x) as (-> & _). rewrite decide_False; [done|]. intros ->.
      rewrite E1, removelast_last in Hx. assert (Hd3 : NoDup (p0 ++ [R])) by (rewrite <- E1; apply NoDup_cons; split; [set_solver|done]).
      apply NoDup_app in Hd3 as (_ & Hd3 & _). apply (Hd3 R Hx). by left.
    + cbn [tail]. intros y Hy. destruct (fupd_ring R F g y) as (_ & -> & _). rewrite decide_False; [done|]. intros ->.
      apply elem_of_app in HF as [HF|HF]; [|set_solver]. apply (Hd12 F Hy). by right.
  - rewrite links_cons. destruct (fupd_ring R F g R) as (-> & _). destruct (fupd_ring R F g F) as (_ & -> & _). rewrite !decide_True by done.
    split; [done|]. split; [done|]. assert (HdF : NoDup (F :: rest)).
    { rewrite <- E2. rewrite <- Permutation_cons_append. apply NoDup_cons. split; [set_solver|done]. }
    revert HL2. apply links_ext.
    + intros b Hb. rewrite <- E2, removelast_last in Hb. destruct (fupd_ring R F g b) as (-> & _). rewrite decide_False; [done|].
      intros ->. apply elem_of_cons in HR as [->|HR]; [set_solver|]. apply (Hd12 R HR). by right.
    + cbn [tail]. intros b Hb. destruct (fupd_ring R F g b) as (_ & -> & _). rewrite decide_False; [done|]. intros ->. by apply NoDup_cons in HdF as [? _].
Qed.

(** The leaf [unlink_large_chunk] takes is at a place of the tree below. *)
Lemma find_leaf_spec fuel m0 m g i par RP n p t : heap_is m0 m g -> trep g i par t -> live m0 t -> t <> Leaf -> wf n p t -> (n < fuel)%nat ->
  exists k R s ch, t = plug k (Node R s ch Leaf Leaf) /\
    find_leaf fuel (root t) RP m = Some (R, match k with [] => RP | _ => (above par k, side k) end).
Proof.
  intros HM. revert par RP n p fuel. induction t as [|a s ch l IHl r IHr]; intros par RP n p fuel HT HD Hne Hw Hf; [done|].
  destruct HT as (_ & (E0 & E1) & _ & Tl & Tr). apply live_node in HD as ((Da & _) & _ & HDl & HDr). destruct Hw as [_ Hw].
  destruct fuel as [|fuel]; [lia|]. cbn [find_leaf root]. rewrite (heap_lookup _ _ _ a HM) by done. cbn [mbind option_bind]. rewrite E0, E1.
  assert (Wlr : exists n' pl pr, wf n' pl l /\ wf n' pr r /\ (n' < fuel \/ l = Leaf /\ r = Leaf)%nat).
  { destruct n as [|n]; [destruct Hw as [-> ->]; exists O, 0, 0; split_and!; try done; by right|].
    destruct Hw as [Wl Wr]. eexists n, _, _. split_and!; [done|done|left; lia]. }
  destruct Wlr as (n' & pl & pr & Wl & Wr & Hfuel).
  destruct (Z.eqb_spec (root r) 0) as [Er|Er]; cbn [negb].
  - apply (live_root m0) in Er as ->; [|done]. destruct (Z.eqb_spec (root l) 0) as [El|El]; cbn [negb].
    + apply (live_root m0) in El as ->; [|done]. exists [], a, s, ch. done.
    + destruct (IHl a (a, false) n' pl fuel) as (k & R & s' & ch' & -> & Ef); try done; [by intros ->|destruct Hfuel as [?|[-> _]]; done|].
      exists (Frame a s ch false Leaf :: k), R, s', ch'. split; [done|]. rewrite Ef. by destruct k.
  - destruct (IHr a (a, true) n' pr fuel) as (k & R & s' & ch' & -> & Ef); try done; [by intros ->|destruct Hfuel as [?|[_ ->]]; done|].
    exists (Frame a s ch true l :: k), R, s', ch'. split; [done|]. rewrite Ef. by destruct k.
Qed.

(** The children of [X] become those of [R]. *)
Definition adopt_child (b : bool) (X R : Z) g : Z -> tchunk :=
  let C := tc_child b (g X) in if C =? 0 then g else fupd C (set_parent R) (fupd R (set_child b C) g).
Definition adopt (XP X R : Z) g : Z -> tchunk := adopt_child true X R (adopt_child false X R (fupd R (set_parent XP) g)).

Lemma move_child_spec m0 m g b X R : heap_is m0 m g -> is_Some (chunks m0 !! X) -> is_Some (chunks m0 !! R) ->
  (tc_child b (g X) <> 0 -> good m0 (tc_child b (g X))) ->
  exists m', move_child b X R m = Some m' /\ heap_is m0 m' (adopt_child b X R g).
Proof.
  intros H DX DR HC. unfold move_child, adopt_child. rewrite (heap_lookup _ _ _ X H) by done. cbn [mbind option_bind]. cbv zeta.
  destruct (Z.eqb_spec (tc_child b (g X)) 0) as [E|E]; cbn [negb]; [eauto|].
  destruct (HC E) as (DC & Hok & _). rewrite (heap_ok _ _ _ _ H), Hok. cbn [guard_]. run_upd H DR. run_upd H DC. eauto.
Qed.

Lemma reparent g g' i par par' t : (forall b, b ∈ addrs t -> b <> root t -> g' b = g b) ->
  NoDup (addrs t) -> (t <> Leaf -> g' (root t) = set_parent par' (g (root t))) -> trep g i par t -> trep g' i par' t.
Proof.
  destruct t as [|a s ch l r]; [done|]. intros Hb Hd Hr ((Es & Ei & Ep) & (E0 & E1) & (HL & HF) & Tl & Tr).
  apply node_nodup in Hd as (Hd & Hsep & _). rewrite addrs_node in Hb. cbn [root] in *. specialize (Hr ltac:(done)).
  assert (Ha : a ∉ ch) by (by apply NoDup_cons in Hd as [? _]). destruct (Hsep a ltac:(by left)) as [Hal Har].
  cbn [trep]. rewrite Hr. split; [done|]. split; [done|]. split; [split|split].
  - revert HL. apply links_ext; intros x Hx.
    + rewrite app_comm_cons, removelast_last in Hx. destruct (decide (x = a)) as [->|]; [by rewrite Hr|]. rewrite Hb; [done|set_solver|done].
    + cbn [tail] in Hx. destruct (decide (x = a)) as [->|]; [by rewrite Hr|]. rewrite Hb; [done|set_solver|done].
  - rewrite Forall_forall in *. intros x Hx. unfold ring_chunk. rewrite Hb; [by apply HF|set_solver|set_solver].
  - revert Tl. apply trep_agree. intros x Hx. apply Hb; set_solver.
  - revert Tr. apply trep_agree. intros x Hx. apply Hb; set_solver.
Qed.

Lemma adopt_facts XP X R g : let C0 := tc_child0 (g X) in let C1 := tc_child1 (g X) in let g' := adopt XP X R g in
  X <> R -> (C0 <> 0 -> C0 <> R /\ C0 <> X) -> (C1 <> 0 -> C1 <> R /\ C1 <> X) -> (C0 <> 0 -> C0 <> C1) ->
  (chunksize (g' R) = chunksize (g R) /\ tc_index (g' R) = tc_index (g R) /\ tc_parent (g' R) = XP /\
   tc_child0 (g' R) = (if C0 =? 0 then tc_child0 (g R) else C0) /\ tc_child1 (g' R) = (if C1 =? 0 then tc_child1 (g R) else C1) /\
   tc_fd (g' R) = tc_fd (g R) /\ tc_bk (g' R) = tc_bk (g R)) /\
  (C0 <> 0 -> g' C0 = set_parent R (g C0)) /\ (C1 <> 0 -> g' C1 = set_parent R (g C1)) /\
  (forall b, b <> R -> (C0 <> 0 -> b <> C0) -> (C1 <> 0 -> b <> C1) -> g' b = g b).
Proof.
  intros C0 C1 g' HXR H0 H1 H01. unfold g', adopt. set (g1 := fupd R (set_parent XP) g).
  assert (E0 : tc_child false (g1 X) = C0) by (unfold g1; by fupds).
  assert (E1 : tc_child true (adopt_child false X R g1 X) = C1).
  { unfold adopt_child. rewrite E0. destruct (Z.eqb_spec C0 0); unfold g1; [by fupds|]. destruct H0; [done|]. by fupds. }
  unfold adopt_child in E1 |- *. rewrite E1, E0. clear E0 E1.
  destruct (Z.eqb_spec C0 0) as [Z0|Z0]; destruct (Z.eqb_spec C1 0) as [Z1|Z1].
  - split; [unfold g1; by fupds|]. split; [done|]. split; [done|]. intros. unfold g1. by fupds.
  - destruct H1 as [? _]; [done|]. split; [unfold g1; by fupds|]. split; [done|]. split; [intros _; unfold g1; by fupds|].
    intros b ? _ Hb. specialize (Hb Z1). unfold g1. by fupds.
  - destruct H0 as [? _]; [done|]. split; [unfold g1; by fupds|]. split; [intros _; unfold g1; by fupds|]. split; [done|].
    intros b ? Hb _. specialize (Hb Z0). unfold g1. by fupds.
  - destruct H0 as [? _]; [done|]. destruct H1 as [? _]; [done|]. specialize (H01 Z0). unfold g1.
    split; [by fupds|]. split; [intros _; by fupds|]. split; [intros _; by fupds|].
    intros b ? Hb Hb'. specialize (Hb Z0). specialize (Hb' Z1). by fupds.
Qed.

(** A chunk that can take the place of a node. *)
Record replacement g (i X R s : Z) (ch : list Z) (l r : tree) : Prop := {
  rp_children : tc_child0 (g X) = root l /\ tc_child1 (g X) = root r;
  rp_trees : trep g i X l /\ trep g i X r;
  rp_head : chunksize (g R) = s /\ tc_index (g R) = i /\ tc_child0 (g R) = 0 /\ tc_child1 (g R) = 0;
  rp_ring : links g (R :: ch ++ [R]) /\ Forall (ring_chunk g i s) ch;
  rp_apart : NoDup (X :: addrs (Node R s ch l r)) }.

Lemma root_in t : root t <> 0 -> root t ∈ addrs t.
Proof. destruct t; [done|]. intros _. rewrite addrs_node. by left. Qed.

Lemma adopt_trep g i XP X R s ch l r : replacement g i X R s ch l r -> Forall (fun a => a <> 0) (addrs (Node R s ch l r)) ->
  trep (adopt XP X R g) i XP (Node R s ch l r) /\ (forall b, b ∉ addrs (Node R s ch l r) -> adopt XP X R g b = g b).
Proof.
  intros [[E0 E1] [Tl Tr] (Hs & Hi & Z0 & Z1) [HL HF] Hd] Hz. apply NoDup_cons in Hd as [HnX Hd].
  rewrite addrs_node in HnX, Hz. rewrite addrs_node. apply node_nodup in Hd as (Hd & Hsep & Hdl & Hlr & Hdr).
  pose proof (root_in l) as Rl. pose proof (root_in r) as Rr. destruct (Hsep R ltac:(by left)) as [HRl HRr].
  assert (HRch : R ∉ ch) by (by apply NoDup_cons in Hd as [? _]).
  assert (Hchl : forall x, x ∈ ch -> (x ∉ addrs l) /\ (x ∉ addrs r)) by (intros x Hx; apply Hsep; by right).
  destruct (adopt_facts XP X R g) as ((F1 & F2 & F3 & F4 & F5 & F6 & F7) & G0 & G1 & GN).
  { set_solver. } { rewrite E0. intros H; specialize (Rl H). set_solver. } { rewrite E1. intros H; specialize (Rr H). set_solver. }
  { rewrite E0, E1. intros H E. specialize (Rl H). rewrite E in Rl, H. apply (Hlr (root r) Rl). by apply Rr. }
  rewrite E0, E1 in *. set (g' := adopt XP X R g) in *. clearbody g'.
  assert (GO : forall b, b <> R -> b ∉ addrs l -> b ∉ addrs r -> g' b = g b).
  { intros b H1 H2 H3. apply GN; [done|intros H ->; by apply H2, Rl|intros H ->; by apply H3, Rr]. }
  split; [|intros b Hb; apply GO; set_solver].
  assert (Lz : forall t, Forall (fun a => a <> 0) (addrs t) -> root t = 0 -> t = Leaf).
  { intros [|a ? ? ? ?]; [done|]. rewrite addrs_node. intros [? _]%Forall_cons. done. }
  apply Forall_cons in Hz as [_ Hz]. apply Forall_app in Hz as [_ Hz]. apply Forall_app in Hz as [Hzl Hzr].
  cbn [trep]. split; [by rewrite F1, F2|]. split; [|split; [split|split]].
  - rewrite F4, F5. split; [destruct (Z.eqb_spec (root l) 0)|destruct (Z.eqb_spec (root r) 0)]; congruence.
  - assert (EF : forall x, x ∈ R :: ch -> tc_fd (g' x) = tc_fd (g x) /\ tc_bk (g' x) = tc_bk (g x)).
    { intros x Hx. destruct (decide (x = R)) as [->|]; [done|]. destruct (Hsep x Hx). by rewrite GO. }
    revert HL. apply links_ext; intros x Hx; apply EF.
    + by rewrite app_comm_cons, removelast_last in Hx.
    + cbn [tail] in Hx. set_solver.
  - rewrite Forall_forall in *. intros x Hx. destruct (Hchl x Hx). unfold ring_chunk. rewrite GO; [by apply HF|set_solver|done..].
  - apply (reparent g g' i X); try done.
    + intros b Hb Hr. apply GN; [set_solver|done|]. intros H ->. by apply (Hlr (root r) Hb), Rr.
    + intros Hne. apply G0. intros E. by apply Hne, Lz.
  - apply (reparent g g' i X); try done.
    + intros b Hb Hr. apply GN; [set_solver| |done]. intros H ->. by apply (Hlr (root l) (Rl H)).
    + intros Hne. apply G1. intros E. by apply Hne, Lz.
Qed.

(** ** The link of the parent *)
(** The state after the bin [i] has got the root [v]. *)
Definition rebin (i v : Z) (m : mstate) : mstate :=
  MState (least_addr m) (treebins_at m) (if v =? 0 then Z.land (treemap m) (u32 (Z.lnot (idx2bit i))) else treemap m)
    (<[Z.to_nat i := v]> (treebins m)) (chunks m).
Definition at_root {A} (k : list frame) (x y : A) : A := match k with [] => x | _ => y end.

Lemma heap_is_bins m0 m g : heap_is m0 m g -> treebins m = treebins m0 /\ treemap m = treemap m0 /\ least_addr m = least_addr m0.
Proof. intros [_ _ E]. by rewrite E. Qed.

Lemma other_child g i par k u : trep g i par (plug k u) -> NoDup (addrs (plug k u)) -> k <> [] -> root u <> 0 -> side k = true ->
  tc_child0 (g (above par k)) <> root u.
Proof.
  revert par. induction k as [|f k IH]; intros par HT Hd Hk Hu Hs; [done|]. cbn [plug above] in *.
  apply trep_plug1 in HT as [HF HT]. rewrite addrs_plug1 in Hd. rewrite app_assoc, app_comm_cons in Hd. apply NoDup_app in Hd as (_ & Hd & Hdk).
  destruct k as [|f' k]; [|by apply IH]. cbn in Hs, HT |- *. destruct HF as (_ & (_ & E) & _). rewrite Hs in E. cbn in E. rewrite E. intros Er.
  apply (Hd (root u)); [|by apply root_in]. rewrite <- Er. right. apply elem_of_app. right. apply root_in. by rewrite Er.
Qed.

Lemma relink_spec m0 m g g1 i par k X s ch l r R : let t := plug k (Node X s ch l r) in
  heap_is m0 m g1 -> trep g i par t -> live m0 t -> NoDup (addrs t) -> treebins m0 !! Z.to_nat i = Some (root t) ->
  (forall b, b ∉ addrs (Node X s ch l r) -> g1 b = g b) -> tc_index (g1 X) = i ->
  exists m', relink_parent X (above par k) R m = Some m' /\
    heap_is (at_root k (rebin i R m0) m0) m' (at_root k g1 (fupd (above par k) (set_child (side k) R) g1)).
Proof.
  intros t HM HT HD Hd Hbin Hg HiX. pose proof (heap_is_bins _ _ _ HM) as (EB & EM & EL).
  pose proof (live_place _ _ _ HD) as Hl. apply live_node in Hl as ((DX & okX & HX0) & _).
  unfold relink_parent. rewrite (heap_lookup _ _ _ X HM) by done. cbn [mbind option_bind]. rewrite HiX, EB, Hbin. cbn [mbind option_bind].
  destruct k as [|f k].
  - cbn [plug root at_root] in *. rewrite Z.eqb_refl. unfold set_bin. rewrite EB, Hbin. cbn [mbind option_bind].
    eexists. split; [reflexivity|]. destruct HM as [Hv Hdm Hr]. split; cbn.
    + intros b. destruct (R =? 0); cbn; apply Hv.
    + intros b. destruct (R =? 0); cbn; apply Hdm.
    + unfold rebin, clear_treemap, with_treemap. destruct m, m0. unfold with_chunks in *. cbn in *. simplify_eq. by destruct (R =? 0).
  - cbn [at_root]. set (k' := f :: k) in *. assert (Hk : k' <> []) by done.
    assert (GP : good m0 (above par k')) by (unfold live in HD; rewrite Forall_forall in HD; by apply HD, above_addr).
    destruct (place_nodup _ _ Hd) as [_ Hap].
    assert (EP : g1 (above par k') = g (above par k')) by (by apply Hg, Hap, above_in).
    assert (Hroot : X <> root t).
    { intros E. apply (Hap X); [|rewrite addrs_node; by left]. rewrite E.
      replace (root t) with (f_a f) by (unfold t, k'; cbn; unfold plug1; by destruct (f_dir f)). by left. }
    destruct (Z.eqb_spec X (root t)) as [|_]; [done|]. rewrite (heap_ok _ _ _ _ HM), (proj1 (proj2 GP)). cbn [guard_].
    rewrite (heap_lookup _ _ _ _ HM (proj1 GP)). cbn [mbind option_bind]. rewrite EP.
    pose proof (above_child _ _ _ _ _ HT Hk) as EC. cbn [root] in EC. destruct GP as (DP & _).
    destruct (side k') eqn:Es; cbn [tc_child] in EC.
    + destruct (Z.eqb_spec (tc_child0 (g (above par k'))) X) as [E|E]; [by destruct (other_child _ _ _ _ _ HT Hd Hk HX0 Es)|].
      by apply upd_step.
    + rewrite EC, Z.eqb_refl. by apply upd_step.
Qed.

(** ** Replacing a node *)
Lemma replacement_agree g g' i X R s ch l r : (forall b, b ∈ X :: addrs (Node R s ch l r) -> g' b = g b) ->
  replacement g i X R s ch l r -> replacement g' i X R s ch l r.
Proof.
  intros H [H1 [Tl Tr] H3 [HL HF] H5]. rewrite addrs_node in H.
  split; [by rewrite H by (by left)| |by rewrite H by set_solver| |done].
  - split; [revert Tl|revert Tr]; apply trep_agree; set_solver.
  - split; [revert HL; apply links_agree; set_solver|]. rewrite Forall_forall in *. intros x Hx. unfold ring_chunk.
    rewrite H by set_solver. by apply HF.
Qed.

Lemma adopt_spec m0 m g i XP X R s ch l r : heap_is m0 m g -> is_Some (chunks m0 !! X) -> live m0 (Node R s ch l r) ->
  replacement g i X R s ch l r ->
  exists m', (m ← upd R (set_parent XP) m; m ← move_child false X R m; move_child true X R m) = Some m' /\ heap_is m0 m' (adopt XP X R g).
Proof.
  intros HM DX HD HR. apply live_node in HD as ((DR & _ & HR0) & _ & HDl & HDr).
  assert (Gr : forall t, live m0 t -> root t <> 0 -> good m0 (root t)).
  { intros t Ht H. unfold live in Ht. rewrite Forall_forall in Ht. by apply Ht, root_in. }
  destruct (rp_children _ _ _ _ _ _ _ _ HR) as [E0 E1]. pose proof (rp_apart _ _ _ _ _ _ _ _ HR) as Hap.
  apply NoDup_cons in Hap as [HnX _]. rewrite addrs_node in HnX.
  run_upd HM DR.
  destruct (move_child_spec m0 m1 _ false X R HM DX DR) as (m2 & E2 & H2).
  { rewrite fupd_ne by set_solver. cbn [tc_child]. rewrite E0. by apply Gr. }
  rewrite E2. cbn [mbind option_bind]. destruct (move_child_spec m0 m2 _ true X R H2 DX DR) as (m3 & E3 & H3); [|eauto].
  assert (Ex : adopt_child false X R (fupd R (set_parent XP) g) X = g X).
  { unfold adopt_child. rewrite (fupd_ne R _ g X) by set_solver. cbn [tc_child]. rewrite E0. destruct (Z.eqb_spec (root l) 0); [by rewrite fupd_ne by set_solver|].
    pose proof (root_in l ltac:(done)). by rewrite !fupd_ne by set_solver. }
  rewrite Ex. cbn [tc_child]. rewrite E1. by apply Gr.
Qed.

(** The result of unlinking: the bin [i] has the tree [t']. *)
Record unlinked (m0 m' : mstate) g (i par : Z) (t t' : tree) : Prop := {
  ul_heap : exists g', heap_is (rebin i (root t') m0) m' g' /\ trep g' i par t' /\ forall b, b ∉ addrs t -> g' b = g b }.

Lemma rebin_same i v m : treebins m !! Z.to_nat i = Some v -> v <> 0 -> rebin i v m = m.
Proof. intros Hb Hv. unfold rebin. rewrite (proj2 (Z.eqb_neq v 0)) by done. rewrite list_insert_id by done. by destruct m. Qed.

Lemma at_root_rebin m0 i k u u' : live m0 (plug k u) -> treebins m0 !! Z.to_nat i = Some (root (plug k u)) ->
  at_root k (rebin i (root u') m0) m0 = rebin i (root (plug k u')) m0.
Proof.
  intros HD Hb. destruct k as [|f k]; [done|]. cbn [at_root]. rewrite (root_plug _ u' u) by done. symmetry. apply rebin_same; [done|].
  intros E. apply (live_root m0) in E; [|done]. cbn in E. unfold plug1 in E. by destruct (f_dir f).
Qed.

Lemma rebin_kept m0 i k u u' : live m0 (plug k u) -> treebins m0 !! Z.to_nat i = Some (root (plug k u)) -> u <> Leaf ->
  root u' = root u -> rebin i (root (plug k u')) m0 = m0.
Proof.
  intros HD Hb Hu E. rewrite <- (at_root_rebin m0 i k u u') by done. destruct k as [|f k]; [|done]. cbn [at_root]. rewrite E. apply rebin_same; [done|].
  intros E0. by apply (live_root m0) in E0.
Qed.

Lemma finish_replace m0 m g g1 i par k X s0 ch0 l0 r0 R s ch l r : let u := Node X s0 ch0 l0 r0 in let t := plug k u in
  heap_is m0 m g1 -> trep g i par t -> live m0 t -> NoDup (addrs t) -> treebins m0 !! Z.to_nat i = Some (root t) ->
  (forall b, b ∉ addrs u -> g1 b = g b) -> tc_index (g1 X) = i -> replacement g1 i X R s ch l r ->
  (forall b, b ∈ addrs (Node R s ch l r) -> b ∈ addrs u) ->
  exists m', finish_unlink X (above par k) R m = Some m' /\ unlinked m0 m' g i par t (plug k (Node R s ch l r)).
Proof.
  intros u t HM HT HD Hd Hbin Hg HiX HR Hsub. set (v := Node R s ch l r).
  pose proof (live_place _ _ _ HD) as HDu. assert (HDv : live m0 v) by (unfold live in *; rewrite Forall_forall in *; auto).
  assert (HXu : X ∈ addrs u) by (unfold u; rewrite addrs_node; by left).
  assert (GX : good m0 X) by (unfold live in HDu; rewrite Forall_forall in HDu; by apply HDu).
  assert (GR : good m0 R) by (by apply live_node in HDv as [? _]).
  destruct (place_nodup _ _ Hd) as [Hdu Hap].
  destruct (relink_spec m0 m g g1 i par k X s0 ch0 l0 r0 R HM HT HD Hd Hbin Hg HiX) as (m2 & E2 & H2).
  unfold finish_unlink. rewrite E2. cbn [mbind option_bind]. rewrite (proj2 (Z.eqb_neq R 0)) by apply GR. cbn [negb].
  set (mb := at_root k (rebin i R m0) m0) in *. set (g2 := at_root k g1 _) in H2.
  assert (Gb : forall a, good mb a <-> good m0 a) by (intros; unfold mb; by destruct k).
  assert (G2 : forall b, (k <> [] -> b <> above par k) -> g2 b = g1 b) by (intros b Hb; unfold g2; destruct k; [done|cbn [at_root]; apply fupd_ne; by apply Hb]).
  assert (Habove : forall b, b ∈ addrs u -> k <> [] -> b <> above par k) by (intros b Hb Hk ->; by apply (Hap (above par k)); [apply above_in|]).
  assert (HR2 : replacement g2 i X R s ch l r).
  { revert HR. apply replacement_agree. intros b Hb. apply G2, Habove. apply elem_of_cons in Hb as [->|Hb]; [done|by apply Hsub]. }
  rewrite (heap_ok _ _ _ _ H2). rewrite (proj1 (proj2 (proj2 (Gb R) GR))). cbn [guard_].
  destruct (adopt_spec mb m2 g2 i (above par k) X R s ch l r H2) as (m3 & E3 & H3);
    [by apply Gb|unfold live in *; rewrite Forall_forall in *; intros; by apply Gb, HDv|done|].
  exists m3. split; [done|]. destruct (adopt_trep g2 i (above par k) X R s ch l r HR2) as [HT3 Hfr].
  { unfold live in HDv. rewrite Forall_forall in *. intros b Hb. by apply HDv. }
  split. exists (adopt (above par k) X R g2). split; [|split].
  - rewrite <- (at_root_rebin m0 i k u) by done. done.
  - apply (plug_replace g _ i par k u); try done.
    + intros b Hb Hne. rewrite Hfr; [|intros Hin; by apply (Hap b Hb), Hsub]. rewrite G2 by done. by apply Hg, Hap.
    + intros Hk. rewrite Hfr; [|intros Hin; apply (Hap (above par k)); [by apply above_in|by apply Hsub]].
      unfold g2. destruct k as [|f k]; [done|]. cbn [at_root]. rewrite fupd_eq, Hg; [done|]. by apply Hap, above_in.
  - intros b Hb. assert (Hbu : b ∉ addrs u) by (intros H; apply Hb; unfold t; rewrite addrs_plug; apply elem_of_app; by right).
    rewrite Hfr by (intros Hin; by apply Hbu, Hsub). rewrite G2; [by apply Hg|]. intros Hk ->. apply Hb. by apply above_addr.
Qed.

Lemma finish_none m0 m g i par k X s : let u := Node X s [] Leaf Leaf in let t := plug k u in
  heap_is m0 m g -> trep g i par t -> live m0 t -> NoDup (addrs t) -> treebins m0 !! Z.to_nat i = Some (root t) ->
  exists m', finish_unlink X (above par k) 0 m = Some m' /\ unlinked m0 m' g i par t (plug k Leaf).
Proof.
  intros u t HM HT HD Hd Hbin. pose proof (trep_place _ _ _ _ _ HT) as ((_ & HiX & _) & _). destruct (place_nodup _ _ Hd) as [_ Hap].
  destruct (relink_spec m0 m g g i par k X s [] Leaf Leaf 0 HM HT HD Hd Hbin (fun _ _ => eq_refl) HiX) as (m2 & E2 & H2).
  exists m2. split; [unfold finish_unlink; by rewrite E2|]. split. eexists. split; [|split].
  - rewrite <- (at_root_rebin m0 i k u) by done. exact H2.
  - apply (plug_replace g _ i par k u); try done.
    + intros b Hb Hne. destruct k; [done|]. cbn [at_root]. by rewrite fupd_ne.
    + intros Hk. destruct k; [done|]. cbn [at_root]. by rewrite fupd_eq.
  - intros b Hb. destruct k as [|f k]; [done|]. cbn [at_root]. apply fupd_ne. intros ->. apply Hb. by apply above_addr.
Qed.

Lemma wf_place n p k u : wf n p (plug k u) -> u <> Leaf -> exists n' p', wf n' p' u /\ (n' <= n)%nat /\ forall u', wf n' p' u' -> wf n p (plug k u').
Proof.
  revert n p. induction k as [|f k IH]; intros n p Hw Hu; [by exists n, p|]. cbn [plug] in *.
  assert (Hp : plug k u <> Leaf) by (destruct k as [|f' k]; [done|cbn; unfold plug1; by destruct (f_dir f')]).
  unfold plug1 in *. destruct f as [a s ch [] o]; cbn [f_dir f_a f_s f_ch f_other] in *; destruct Hw as [Hs Hw]; destruct n as [|n].
  - by destruct Hw as [_ ?].
  - destruct Hw as [Wo Wk]. destruct (IH _ _ Wk Hu) as (n' & p' & Wu & Hn & Hall). exists n', p'. split; [done|]. split; [lia|].
    intros u' Wu'. split; [done|]. split; [done|]. by apply Hall.
  - by destruct Hw as [? _].
  - destruct Hw as [Wk Wo]. destruct (IH _ _ Wk Hu) as (n' & p' & Wu & Hn & Hall). exists n', p'. split; [done|]. split; [lia|].
    intros u' Wu'. split; [done|]. split; [|done]. by apply Hall.
Qed.

Lemma wf_prefix n p t a s : wf n p t -> (a, s) ∈ elems t -> s / 2 ^ Z.of_nat n = p.
Proof. intros Hw Hin. apply (wf_size n p t s Hw). by eapply elem_size. Qed.

(** ** The three cases *)
Lemma last_of {A} (x : A) l : exists p z, x :: l = p ++ [z].
Proof. destruct (exists_last (l := x :: l)) as (p & z & E); [done|]. eauto. Qed.
Lemma first_of {A} (x : A) l : exists y q, l ++ [x] = y :: q.
Proof. destruct l; cbn; eauto. Qed.

Lemma detach_ring m0 m g X : heap_is m0 m g -> good m0 X -> good m0 (tc_fd (g X)) -> good m0 (tc_bk (g X)) -> tc_bk (g X) <> X ->
  exists m', detach_replacement X m = Some (tc_bk (g X), m') /\ heap_is m0 m' (ring_remove_mem (tc_bk (g X)) (tc_fd (g X)) g).
Proof.
  intros HM (DX & _) (DF & okF & _) (DR & _) Hne. unfold detach_replacement. rewrite (heap_lookup _ _ _ X HM) by done. cbn [mbind option_bind].
  rewrite (proj2 (Z.eqb_neq _ _)) by done. cbn [negb]. cbv zeta. rewrite (heap_ok _ _ _ _ HM), okF. cbn [guard_].
  run_upd HM DF. run_upd HM DR. eauto.
Qed.

(** A chunk of a ring that is not in the tree. *)
Lemma unlink_ring m0 g i par k a s c1 X c2 l r : let t := plug k (Node a s (c1 ++ X :: c2) l r) in
  heap_is m0 m0 g -> trep g i par t -> live m0 t -> NoDup (addrs t) -> treebins m0 !! Z.to_nat i = Some (root t) ->
  exists m', unlink_large_chunk X m0 = Some m' /\ unlinked m0 m' g i par t (plug k (Node a s (c1 ++ c2) l r)).
Proof.
  intros t HM HT HD Hd Hbin. destruct (place_nodup _ _ Hd) as [Hdu Hap]. pose proof (trep_place _ _ _ _ _ HT) as Hu.
  pose proof (live_place _ _ _ HD) as HDu. apply live_node in HDu as (Ga & Gch & _).
  destruct Hu as (Hh & Hc & (HL & HF) & Tl & Tr). apply node_nodup in Hdu as (Hdn & Hsep & _).
  destruct (last_of a c1) as (p0 & R & E1). destruct (first_of a c2) as (F & rest & E2).
  destruct (ring_remove_inner _ _ _ _ _ _ _ _ _ HL Hdn E1 E2) as (HL' & EB & EF & HXR).
  assert (HRin : R ∈ a :: c1) by (rewrite E1; set_solver). assert (HFin : F ∈ c2 ++ [a]) by (rewrite E2; by left).
  assert (Gall : forall x, x ∈ a :: c1 ++ X :: c2 -> good m0 x).
  { intros x Hx. apply elem_of_cons in Hx as [->|Hx]; [done|]. rewrite Forall_forall in Gch. by apply Gch. }
  assert (HXc : X ∈ c1 ++ X :: c2) by (apply elem_of_app; right; by left). assert (HX' : X ∈ a :: c1 ++ X :: c2) by (by right).
  assert (HR' : R ∈ a :: c1 ++ X :: c2) by set_solver. assert (HF' : F ∈ a :: c1 ++ X :: c2) by set_solver.
  destruct (detach_ring m0 m0 g X HM) as (m' & Em & HM'); [by apply Gall|rewrite EF; by apply Gall|rewrite EB; by apply Gall|congruence|].
  rewrite EB, EF in *. set (g' := ring_remove_mem R F g) in *. exists m'. assert (HX : ring_chunk g i s X) by (rewrite Forall_forall in HF; by apply HF).
  split. { unfold unlink_large_chunk. rewrite (heap_lookup _ _ _ X HM) by (by apply Gall). cbn [mbind option_bind].
    rewrite Em. cbn [mbind option_bind]. destruct HX as (_ & _ & -> & _). done. }
  assert (GN : forall b, b ∉ addrs (Node a s (c1 ++ X :: c2) l r) -> g' b = g b).
  { intros b Hb. rewrite addrs_node in Hb. apply ring_remove_same; intros ->; apply Hb; rewrite app_comm_cons; apply elem_of_app; by left. }
  split. exists g'. split; [|split].
  - by rewrite (rebin_kept m0 i k (Node a s (c1 ++ X :: c2) l r)).
  - apply (plug_replace g g' i par k (Node a s (c1 ++ X :: c2) l r)); try done.
    + intros b Hb _. by apply GN, Hap.
    + intros Hk. rewrite GN by (by apply Hap, above_in). pose proof (above_child _ _ _ _ _ HT Hk) as E. cbn [root] in E |- *. rewrite <- E. by rewrite set_child_same.
    + cbn [trep]. unfold g'. destruct (fupd_ring R F g a) as (_ & _ & -> & -> & -> & -> & ->). split; [done|]. split; [done|]. split; [split; [done|]|split].
      * apply Forall_app in HF as [HF1 HF2]. apply Forall_cons in HF2 as [_ HF2]. apply Forall_app.
        split; eapply Forall_impl; try done; intros; by apply ring_chunk_remove.
      * revert Tl. apply trep_agree. intros x Hx. apply ring_remove_same; intros ->; [by destruct (Hsep R HR')|by destruct (Hsep F HF')].
      * revert Tr. apply trep_agree. intros x Hx. apply ring_remove_same; intros ->; [by destruct (Hsep R HR')|by destruct (Hsep F HF')].
  - intros b Hb. apply GN. intros Hin. apply Hb. unfold t. rewrite addrs_plug. apply elem_of_app. by right.
Qed.

(** The chunk of a ring that is in the tree: its predecessor takes its place. *)
Lemma unlink_base m0 g i par k X s ch z l r : let t := plug k (Node X s (ch ++ [z]) l r) in
  heap_is m0 m0 g -> trep g i par t -> live m0 t -> NoDup (addrs t) -> treebins m0 !! Z.to_nat i = Some (root t) -> par <> 0 ->
  exists m', unlink_large_chunk X m0 = Some m' /\ unlinked m0 m' g i par t (plug k (Node z s ch l r)).
Proof.
  intros t HM HT HD Hd Hbin Hpar. destruct (place_nodup _ _ Hd) as [Hdu Hap]. pose proof (trep_place _ _ _ _ _ HT) as Hu.
  pose proof (live_place _ _ _ HD) as HDu. apply live_node in HDu as (GX & Gch & _).
  destruct Hu as ((Hs & Hi & Hp) & (E0 & E1) & (HL & HF) & Tl & Tr). pose proof Hdu as Hdu'. apply node_nodup in Hdu as (Hdn & Hsep & Hdl & Hlr & Hdr).
  destruct (first_of z ch) as (F & rest & E2). destruct (ring_remove_base _ _ _ _ _ _ HL Hdn E2) as (HL' & EB & EF).
  assert (HFin : F ∈ ch ++ [z]) by (rewrite E2; by left). assert (Hzin : z ∈ ch ++ [z]) by set_solver.
  apply NoDup_cons in Hdn as [HnX Hdn]. assert (Gin : forall x, x ∈ ch ++ [z] -> good m0 x) by (by rewrite Forall_forall in Gch).
  destruct (detach_ring m0 m0 g X HM) as (m1 & Em & HM1); [done|rewrite EF; by apply Gin|rewrite EB; by apply Gin|rewrite EB; by intros ->|].
  rewrite EB, EF in *. set (g1 := ring_remove_mem z F g) in *.
  assert (GN : forall b, b ∉ ch ++ [z] -> g1 b = g b) by (intros b Hb; apply ring_remove_same; by intros ->).
  assert (Hsep' : forall x, x ∈ ch ++ [z] -> (x ∉ addrs l) /\ (x ∉ addrs r)) by (intros x Hx; apply Hsep; by right).
  assert (HXP : above par k <> 0).
  { destruct k as [|f k]; [done|]. unfold live in HD. rewrite Forall_forall in HD. by apply HD, above_addr. }
  unfold unlink_large_chunk. rewrite (heap_lookup _ _ _ X HM) by apply GX. cbn [mbind option_bind]. cbv zeta.
  rewrite Em, Hp. cbn [mbind option_bind]. rewrite (proj2 (Z.eqb_neq _ _)) by done. cbn [negb].
  apply (finish_replace m0 m1 g g1 i par k X s (ch ++ [z]) l r); try done.
  - intros b Hb. apply GN. rewrite addrs_node in Hb. intros H. apply Hb. right. apply elem_of_app. by left.
  - by rewrite GN.
  - destruct (fupd_ring z F g z) as (_ & _ & Z1 & Z2 & Z3 & Z4 & Z5). rewrite Forall_forall in HF. destruct (HF z Hzin) as (Hz1 & Hz2 & _ & Hz4 & Hz5).
    split.
    + by rewrite GN.
    + split; [revert Tl|revert Tr]; apply trep_agree; intros x Hx; apply GN; intros H; by destruct (Hsep' x H).
    + unfold g1. rewrite Z1, Z2, Z4, Z5. done.
    + split; [done|]. rewrite Forall_forall. intros x Hx. apply ring_chunk_remove, HF. apply elem_of_app. by left.
    + apply NoDup_cons. split; [|apply node_nodup; split_and!; try done].
      * rewrite addrs_node, elem_of_cons, !elem_of_app. destruct (Hsep X ltac:(by left)). rewrite elem_of_app, list_elem_of_singleton in HnX. tauto.
      * by rewrite Permutation_cons_append.
      * intros x Hx. apply Hsep'. rewrite elem_of_app, list_elem_of_singleton. apply elem_of_cons in Hx. tauto.
  - intros b Hb. rewrite addrs_node in Hb |- *. rewrite !elem_of_cons, !elem_of_app in Hb. rewrite !elem_of_cons, !elem_of_app, list_elem_of_singleton. tauto.
Qed.

(** The leaf below a chunk that is alone of its size. *)
Lemma leaf_elems K R s ch X s0 l r : plug K Leaf = Node X s0 [] l r ->
  elems (plug K (Node R s ch Leaf Leaf)) ≡ₚ (X, s0) :: elems (Node R s ch l r).
Proof.
  intros E. assert (EK : kelems K ≡ₚ (X, s0) :: elems l ++ elems r) by (rewrite <- (app_nil_r (kelems K)), <- (elems_plug K Leaf), E; done).
  rewrite elems_plug, EK. cbn. rewrite !app_nil_r. solve_Permutation.
Qed.

Lemma leaf_sizes K R s ch X s0 l r : plug K Leaf = Node X s0 [] l r ->
  node_sizes (plug K (Node R s ch Leaf Leaf)) ≡ₚ s0 :: node_sizes (Node R s ch l r).
Proof.
  intros E. assert (EK : ksizes K ≡ₚ s0 :: node_sizes l ++ node_sizes r) by (rewrite <- (app_nil_r (ksizes K)), <- (sizes_plug K Leaf), E; done).
  rewrite sizes_plug, EK. cbn. solve_Permutation.
Qed.

Lemma leaf_replacement g i q K R s ch X s0 l r : let u := plug K (Node R s ch Leaf Leaf) in let g1 := fupd (above q K) (set_child (side K) 0) g in
  trep g i q u -> NoDup (addrs u) -> K <> [] -> plug K Leaf = Node X s0 [] l r -> replacement g1 i X R s ch l r /\ tc_index (g1 X) = i.
Proof.
  intros u g1 HT Hd HK E. destruct (place_nodup _ _ Hd) as [_ Hap]. pose proof (trep_place _ _ _ _ _ HT) as ((Hs & Hi & _) & (E0 & E1) & (HL & HF) & _).
  assert (HT1 : trep g1 i q (plug K Leaf)).
  { apply (plug_replace g g1 i q K (Node R s ch Leaf Leaf)); try done.
    - intros b _ Hb. by apply fupd_ne.
    - intros _. apply fupd_eq. }
  rewrite E in HT1. destruct HT1 as ((_ & HiX & _) & Hc & _ & Tl & Tr). split; [|done].
  assert (GN : forall b, b ∈ R :: ch -> g1 b = g b).
  { intros b Hb. apply fupd_ne. intros ->. apply (Hap (above q K)); [by apply above_in|]. rewrite addrs_node. set_solver. }
  split; [done|done| | |].
  - by rewrite GN by (by left).
  - split; [revert HL; apply links_agree; intros x Hx; apply GN; set_solver|]. rewrite Forall_forall in *. intros x Hx. unfold ring_chunk.
    rewrite GN by (by right). by apply HF.
  - pose proof (leaf_elems K R s ch X s0 l r E) as P. assert (P' : addrs u ≡ₚ X :: addrs (Node R s ch l r)) by (unfold addrs, u; by rewrite P).
    by rewrite <- P'.
Qed.

Lemma detach_leaf m0 g i q X s l r n p : let u := Node X s [] l r in
  heap_is m0 m0 g -> trep g i q u -> live m0 u -> NoDup (addrs u) -> wf n p u -> (n <= 64)%nat -> root l <> 0 \/ root r <> 0 ->
  exists R s' ch' l' r' m1 g1, detach_replacement X m0 = Some (R, m1) /\ heap_is m0 m1 g1 /\ replacement g1 i X R s' ch' l' r' /\
    (forall b, b ∉ addrs u -> g1 b = g b) /\ tc_index (g1 X) = i /\ wf n p (Node R s' ch' l' r') /\
    node_sizes u ≡ₚ s :: node_sizes (Node R s' ch' l' r') /\ elems u ≡ₚ (X, s) :: elems (Node R s' ch' l' r').
Proof.
  intros u HM HT HD Hd Hw Hn Hlr. pose proof HD as HD'. apply live_node in HD' as (GX & _ & HDl & HDr).
  pose proof HT as (_ & (E0 & E1) & (HL & _) & Tl & Tr). assert (EB : tc_bk (g X) = X) by (cbn in HL; tauto).
  set (d := negb (root r =? 0)). set (c := if d then r else l). set (f := Frame X s [] d (if d then l else r)).
  assert (Eu : u = plug1 f c) by (unfold plug1, f, c, u; cbn; by destruct d).
  assert (Tc : trep g i X c /\ live m0 c /\ c <> Leaf).
  { unfold c. destruct d eqn:Ed; (split; [done|split; [done|]]); intros ->; unfold d in Ed; [done|]. destruct Hlr as [?|Hr]; [done|]. by destruct (Z.eqb_spec (root r) 0). }
  destruct Tc as (Tc & HDc & Hcne). assert (Wc : exists n' pc, wf n' pc c /\ (n' <= n)%nat).
  { rewrite Eu in Hw. destruct (wf_place n p [f] c Hw Hcne) as (n' & pc & W & ? & _). eauto. }
  destruct Wc as (n' & pc & Wc & Hn').
  destruct (find_leaf_spec TREE_FUEL m0 m0 g i X (X, d) n' pc c HM Tc HDc Hcne Wc) as (kc & R & s' & ch' & Ec & Ef); [unfold TREE_FUEL; lia|].
  set (K := f :: kc). assert (EK : u = plug K (Node R s' ch' Leaf Leaf)) by (by rewrite Eu, Ec).
  assert (ERP : match kc with [] => (X, d) | _ => (above X kc, side kc) end = (above q K, side K)) by (by destruct kc).
  rewrite ERP in Ef. assert (exists l' r', plug K Leaf = Node X s [] l' r') as (l' & r' & EL) by (unfold K, f; cbn; unfold plug1; cbn; destruct d; eauto).
  assert (GA : good m0 (above q K)). { unfold live in HD. rewrite Forall_forall in HD. apply HD. rewrite EK. by apply above_addr. }
  destruct (leaf_replacement g i q K R s' ch' X s l' r') as [HR HiX]; [by rewrite <- EK|by rewrite <- EK|done|done|].
  assert (Edet : detach_replacement X m0 = m ← upd (above q K) (set_child (side K) 0) m0; Some (R, m)).
  { unfold detach_replacement. rewrite (heap_lookup _ _ _ X HM) by apply GX. cbn [mbind option_bind]. rewrite EB, Z.eqb_refl, E0, E1. cbn [negb]. cbv zeta.
    assert (Hok : ok_address m0 (child_at (above q K) (side K)) = true) by (destruct GA as (_ & Hok & _); unfold ok_address, child_at in *; destruct (side K); lia).
    unfold c, d in Ef. destruct (Z.eqb_spec (root r) 0) as [Er|Er]; cbn [negb] in *.
    - destruct (Z.eqb_spec (root l) 0); [by destruct Hlr|]. cbn [negb]. rewrite Ef. cbn [mbind option_bind fst snd]. by rewrite Hok.
    - rewrite Ef. cbn [mbind option_bind fst snd]. by rewrite Hok. }
  rewrite Edet. destruct (upd_step m0 m0 g (above q K) (set_child (side K) 0) HM (proj1 GA)) as (m1 & -> & HM1).
  eexists R, s', ch', l', r', m1, _. split; [done|]. split; [done|]. split; [done|]. split; [|split; [done|]].
  - intros b Hb. apply fupd_ne. intros ->. apply Hb. rewrite EK. by apply above_addr.
  - rewrite EK in Hw |- *. split; [|split; [by apply (leaf_sizes K R s' ch' X)|by apply leaf_elems]]. destruct (wf_place n p K _ Hw ltac:(done)) as (n2 & p2 & W2 & _ & Wall).
    specialize (Wall Leaf ltac:(done)). rewrite EL in Wall. destruct Wall as [_ Wch]. split; [|done].
    apply (wf_prefix n p _ R s' Hw). rewrite elems_plug. apply elem_of_app. right. by left.
Qed.

Lemma unlink_alone m0 g i par k X s l r n p : let t := plug k (Node X s [] l r) in
  heap_is m0 m0 g -> trep g i par t -> live m0 t -> NoDup (addrs t) -> treebins m0 !! Z.to_nat i = Some (root t) -> par <> 0 ->
  wf n p t -> (n <= 64)%nat ->
  exists m' v, unlink_large_chunk X m0 = Some m' /\ unlinked m0 m' g i par t (plug k v) /\ wf n p (plug k v) /\
    node_sizes (Node X s [] l r) ≡ₚ s :: node_sizes v /\ elems (Node X s [] l r) ≡ₚ (X, s) :: elems v.
Proof.
  intros t HM HT HD Hd Hbin Hpar Hw Hn. destruct (place_nodup _ _ Hd) as [Hdu _]. pose proof (trep_place _ _ _ _ _ HT) as Hu.
  pose proof (live_place _ _ _ HD) as HDu. destruct (wf_place _ _ _ _ Hw ltac:(done)) as (n' & p' & Wu & Hn' & Wall).
  pose proof HDu as HDu'. apply live_node in HDu' as (GX & _ & HDl & HDr).
  pose proof Hu as ((_ & _ & Hp) & (E0 & E1) & (HL & _) & _). assert (EB : tc_bk (g X) = X) by (cbn in HL; tauto).
  assert (HXP : above par k <> 0).
  { destruct k as [|f k]; [done|]. unfold live in HD. rewrite Forall_forall in HD. by apply HD, above_addr. }
  assert (Eun : unlink_large_chunk X m0 = '(R, m) ← detach_replacement X m0; finish_unlink X (above par k) R m).
  { unfold unlink_large_chunk. rewrite (heap_lookup _ _ _ X HM) by apply GX. cbn [mbind option_bind]. cbv zeta. rewrite Hp.
    by rewrite (proj2 (Z.eqb_neq _ _)) by done. }
  rewrite Eun. destruct (Z.eq_dec (root l) 0) as [El|El]; [destruct (Z.eq_dec (root r) 0) as [Er|Er]|].
  - apply (live_root m0) in El as ->; [|done]. apply (live_root m0) in Er as ->; [|done].
    destruct (finish_none m0 m0 g i par k X s HM HT HD Hd Hbin) as (m' & Em & HU).
    exists m', Leaf. split; [|split; [done|split; [by apply Wall|done]]].
    unfold detach_replacement. rewrite (heap_lookup _ _ _ X HM) by apply GX. cbn [mbind option_bind]. by rewrite EB, Z.eqb_refl, E0, E1.
  - destruct (detach_leaf m0 g i _ X s l r n' p' HM Hu HDu Hdu Wu) as (R & s' & ch' & l' & r' & m1 & g1 & -> & HM1 & HR & Hg & HiX & W1 & PS & P); [lia|by right|].
    cbn [mbind option_bind]. destruct (finish_replace m0 m1 g g1 i par k X s [] l r R s' ch' l' r') as (m' & Em & HU); try done.
    { intros b Hb. unfold addrs. rewrite P. by right. }
    exists m', (Node R s' ch' l' r'). split; [done|]. split; [done|]. split; [by apply Wall|done].
  - destruct (detach_leaf m0 g i _ X s l r n' p' HM Hu HDu Hdu Wu) as (R & s' & ch' & l' & r' & m1 & g1 & -> & HM1 & HR & Hg & HiX & W1 & PS & P); [lia|by left|].
    cbn [mbind option_bind]. destruct (finish_replace m0 m1 g g1 i par k X s [] l r R s' ch' l' r') as (m' & Em & HU); try done.
    { intros b Hb. unfold addrs. rewrite P. by right. }
    exists m', (Node R s' ch' l' r'). split; [done|]. split; [done|]. split; [by apply Wall|done].
Qed.

(** [unlink_large_chunk] takes a chunk of the tree of a bin out of it. *)
Lemma unlink_spec m0 g i par X t n p : heap_is m0 m0 g -> trep g i par t -> live m0 t -> NoDup (addrs t) ->
  treebins m0 !! Z.to_nat i = Some (root t) -> par <> 0 -> wf n p t -> (n <= 64)%nat -> X ∈ addrs t ->
  exists m' t' s, unlink_large_chunk X m0 = Some m' /\ unlinked m0 m' g i par t t' /\ wf n p t' /\ (NoDup (node_sizes t) -> NoDup (node_sizes t')) /\ elems t ≡ₚ (X, s) :: elems t'.
Proof.
  intros HM HT HD Hd Hbin Hpar Hw Hn HX. destruct (find_place X t HX) as (k & a & s & ch & l & r & -> & Hcase).
  destruct (wf_place _ _ _ _ Hw ltac:(done)) as (n' & p' & Wu & _ & Wall).
  destruct (decide (X = a)) as [->|Hne].
  - destruct ch as [|y ch].
    + destruct (unlink_alone m0 g i par k a s l r n p HM HT HD Hd Hbin Hpar Hw Hn) as (m' & v & E & HU & W & PS & P).
      exists m', (plug k v), s. split_and!; try done; [|rewrite !elems_plug, P; solve_Permutation]. rewrite !sizes_plug, PS, <- Permutation_middle. by intros [_ ?]%NoDup_cons.
    + destruct (last_of y ch) as (ch' & z & Ez). rewrite Ez in *.
      destruct (unlink_base m0 g i par k a s ch' z l r HM HT HD Hd Hbin Hpar) as (m' & E & HU).
      exists m', (plug k (Node z s ch' l r)), s. split; [done|]. split; [done|]. split; [by apply Wall|]. split; [by rewrite !sizes_plug|].
      rewrite !elems_plug. cbn [elems]. rewrite fmap_app. cbn. solve_Permutation.
  - destruct Hcase as [->|Hin]; [done|]. apply list_elem_of_split in Hin as (c1 & c2 & ->).
    destruct (unlink_ring m0 g i par k a s c1 X c2 l r HM HT HD Hd Hbin) as (m' & E & HU).
    exists m', (plug k (Node a s (c1 ++ c2) l r)), s. split; [done|]. split; [done|]. split; [by apply Wall|]. split; [by rewrite !sizes_plug|].
    rewrite !elems_plug. cbn [elems]. rewrite !fmap_app. cbn. solve_Permutation.
Qed.
