(* ===== verification/DlFit.v ===== *)
(** The tree bins of a memory space as a whole, include/memory/malloc.c.h: the invariant of
    the bins, what [insert_large_chunk] and [unlink_large_chunk] do to the set of free
    chunks, and the best fit of [tmalloc_large] and [tmalloc_small]. *)
From stdpp Require Import gmap.
From S2P Require Import Prelude DlBins DlTree DlUnlink.
Local Open Scope Z_scope.
Implicit Types g : Z -> tchunk.

(** * The bins of sizes *)
(** The number of bits a tree of the bin [i] looks at, and the bits above them. *)
Definition levels (i : Z) : nat := if i =? 31 then 64 else Z.to_nat (i / 2 + 7).
Definition prefix (i : Z) : Z := if i =? 31 then 0 else 2 + i mod 2.
(** A chunk of [S] bytes belongs to the bin [i]. Below 2^40 bytes the index does not
    wrap. *)
Definition home (S i : Z) : Prop := 256 <= S < 2 ^ 40 /\ compute_tree_index_bsr S = i.

Lemma home_ranges S i : home S i -> 0 <= i < 32 /\ minsize_for_tree_index i <= S /\ (i < 31 -> S < minsize_for_tree_index (i + 1)).
Proof.
  intros [HS <-]. destruct (tree_ranges S ltac:(lia)) as (H1 & H2 & H3). rewrite tree_index_bsr by lia. done.
Qed.

Lemma levels_le i : 0 <= i < 32 -> (levels i <= 64)%nat.
Proof. intros Hi. unfold levels. destruct (Z.eqb_spec i 31); [lia|]. pose proof (Z.div_lt_upper_bound i 2 16). lia. Qed.

Lemma home_prefix S i : home S i -> S / 2 ^ Z.of_nat (levels i) = prefix i.
Proof.
  intros H. pose proof (home_ranges S i H) as (Hi & Hlo & Hhi). destruct H as [HS _]. unfold levels, prefix.
  destruct (Z.eqb_spec i 31); [apply Z.div_small; lia|]. specialize (Hhi ltac:(lia)).
  pose proof (Z.div_mod i 2 ltac:(lia)) as E. pose proof (Z.mod_pos_bound i 2 ltac:(lia)). pose proof (Z.div_pos i 2 ltac:(lia) ltac:(lia)).
  set (k := i / 2) in *. set (b := i mod 2) in *. rewrite Z2Nat.id by lia. rewrite E in Hlo, Hhi. rewrite minsize_pair in Hlo by lia.
  assert (Hn : minsize_for_tree_index (2 * k + b + 1) = (3 + b) * 2 ^ (k + 7)) by (apply minsize_after; lia). rewrite Hn in Hhi.
  symmetry. apply (Z.div_unique_pos _ _ _ (S - (2 + b) * 2 ^ (k + 7))); lia.
Qed.

Lemma minsize_mono i j : 0 <= i -> i <= j -> minsize_for_tree_index i <= minsize_for_tree_index j.
Proof.
  intros Hi. revert j. apply (Z.right_induction (fun j => minsize_for_tree_index i <= minsize_for_tree_index j)); [solve_proper|lia|].
  intros j Hj IH. pose proof (minsize_next j ltac:(lia)). replace (Z.succ j) with (j + 1) by lia. lia.
Qed.

(** Sizes of a later bin are greater. *)
Lemma home_order S S' i j : home S i -> home S' j -> i < j -> S < S'.
Proof.
  intros H1 H2 Hij. apply home_ranges in H1 as (Hi & _ & Hhi). apply home_ranges in H2 as (Hj & Hlo & _).
  specialize (Hhi ltac:(lia)). pose proof (minsize_mono (i + 1) j ltac:(lia) ltac:(lia)). lia.
Qed.

Lemma first_bits S i : 0 <= i < 32 -> bits_at (levels i) S (u64 (Z.shiftl S (leftshift_for_tree_index i))).
Proof.
  intros Hi. unfold bits_at, levels, leftshift_for_tree_index, NTREEBINS, SIZE_T_BITSIZE, TREEBIN_SHIFT. change (32 - 1) with 31.
  pose proof (Z.div_lt_upper_bound i 2 16 ltac:(lia) ltac:(lia)). pose proof (Z.div_pos i 2 ltac:(lia) ltac:(lia)).
  rewrite (Z.shiftr_div_pow2 i) by lia. change (2 ^ 1) with 2.
  destruct (Z.eqb_spec i 31); rewrite Z.shiftl_mul_pow2 by lia; [done|]. rewrite Z2Nat.id by lia. do 3 f_equal. lia.
Qed.

(** * The state of the bins *)
Definition heads (m : mstate) : Z -> tchunk := fun b => chunks m !!! b.
Definition all_elems (ts : list tree) : list (Z * Z) := concat (elems <$> ts).

(** [ts] are the trees of the bins of [m]. *)
Record bins_inv (m : mstate) (ts : list tree) : Prop := {
  bi_len : length ts = 32%nat /\ length (treebins m) = 32%nat;
  bi_map : in_u 32 (treemap m);
  bi_at : 0 < treebins_at m;
  bi_tree : forall i t, ts !! i = Some t ->
    treebins m !! i = Some (root t) /\ Z.testbit (treemap m) (Z.of_nat i) = negb (root t =? 0) /\
    trep (heads m) (Z.of_nat i) (treebin_at m (Z.of_nat i)) t /\
    wf (levels (Z.of_nat i)) (prefix (Z.of_nat i)) t /\ Forall (fun e => home e.2 (Z.of_nat i)) (elems t);
  bi_good : Forall (good m) (all_elems ts).*1;
  bi_nodup : NoDup (all_elems ts).*1;
  bi_sizes : Forall (fun t => NoDup (node_sizes t)) ts }.

(** The free chunks of the tree bins are those of [M], with their sizes. *)
Definition tree_bins (m : mstate) (M : gmap Z Z) : Prop := exists ts, bins_inv m ts /\ all_elems ts ≡ₚ map_to_list M.

(** One bin and the others. *)
Lemma one_bin ts i t : ts !! i = Some t -> exists rest, (forall t', all_elems (<[i := t']> ts) ≡ₚ elems t' ++ rest) /\ all_elems ts ≡ₚ elems t ++ rest /\
  (forall j u x, j <> i -> ts !! j = Some u -> x ∈ elems u -> x ∈ rest).
Proof.
  intros Hi. exists (all_elems (take i ts) ++ all_elems (drop (S i) ts)).
  assert (Hl : (i < length ts)%nat) by (by eapply lookup_lt_Some).
  assert (E : forall t', all_elems (<[i := t']> ts) ≡ₚ elems t' ++ all_elems (take i ts) ++ all_elems (drop (S i) ts)).
  { intros t'. rewrite insert_take_drop by done. unfold all_elems. rewrite fmap_app, concat_app. cbn. solve_Permutation. }
  split; [done|]. split; [rewrite <- E; by rewrite list_insert_id|].
  intros j u x Hj Hu Hx. unfold all_elems. rewrite elem_of_app, !list_elem_of_In, !in_concat.
  destruct (decide (j < i)%nat) as [Hlt|Hge]; [left|right].
  - exists (elems u). split; [|by apply list_elem_of_In]. apply list_elem_of_In, list_elem_of_fmap. exists u. split; [done|].
    apply list_elem_of_lookup. exists j. by rewrite lookup_take_lt.
  - exists (elems u). split; [|by apply list_elem_of_In]. apply list_elem_of_In, list_elem_of_fmap. exists u. split; [done|].
    apply list_elem_of_lookup. exists (j - S i)%nat. rewrite lookup_drop. rewrite <- Hu. f_equal. lia.
Qed.

(** What stays the same in a state whose bin [i] has changed. *)
Record bin_step (m m' : mstate) (i : nat) (t t' : tree) (X : Z) : Prop := {
  bs_const : least_addr m' = least_addr m /\ treebins_at m' = treebins_at m;
  bs_dom : forall b, is_Some (chunks m' !! b) <-> is_Some (chunks m !! b);
  bs_bins : treebins m' = <[i := root t']> (treebins m);
  bs_map : in_u 32 (treemap m') /\ Z.testbit (treemap m') (Z.of_nat i) = negb (root t' =? 0) /\
    forall j, 0 <= j -> j <> Z.of_nat i -> Z.testbit (treemap m') j = Z.testbit (treemap m) j;
  bs_rep : trep (heads m') (Z.of_nat i) (treebin_at m (Z.of_nat i)) t';
  bs_frame : forall b, b ∉ X :: addrs t -> heads m' b = heads m b }.

Lemma bin_step_inv m m' i t t' X ts : bins_inv m ts -> ts !! i = Some t -> bin_step m m' i t t' X ->
  wf (levels (Z.of_nat i)) (prefix (Z.of_nat i)) t' -> (NoDup (node_sizes t) -> NoDup (node_sizes t')) -> Forall (fun e => home e.2 (Z.of_nat i)) (elems t') ->
  (forall j u, j <> i -> ts !! j = Some u -> X ∉ addrs u) ->
  Forall (good m) (all_elems (<[i := t']> ts)).*1 -> NoDup (all_elems (<[i := t']> ts)).*1 -> bins_inv m' (<[i := t']> ts).
Proof.
  intros I Hi S Hw Hns Hh HX Hg Hn. destruct (one_bin ts i t Hi) as (rest & _ & EP & Hrest).
  destruct (bs_const _ _ _ _ _ _ S) as [EL EA]. destruct (bs_map _ _ _ _ _ _ S) as (Hm & Hmi & Hmj).
  assert (Gg : forall a, good m a -> good m' a).
  { intros a (D & Hok & H0). split; [by apply (bs_dom _ _ _ _ _ _ S)|]. split; [|done]. unfold ok_address in *. by rewrite EL. }
  assert (Hl : (i < length ts)%nat) by (by eapply lookup_lt_Some).
  split.
  - rewrite (bs_bins _ _ _ _ _ _ S), !length_insert. apply I.
  - done.
  - rewrite EA. apply I.
  - intros j u Hu. destruct (decide (j = i)) as [->|Hne].
    + rewrite list_lookup_insert_eq in Hu by done. injection Hu as <-. rewrite (bs_bins _ _ _ _ _ _ S).
      rewrite list_lookup_insert_eq by (destruct (bi_len _ _ I); lia). split; [done|]. split; [done|]. split; [|done].
      unfold treebin_at. rewrite EA. apply S.
    + rewrite list_lookup_insert_ne in Hu by done. destruct (bi_tree _ _ I j u Hu) as (H1 & H2 & H3 & H4 & H5).
      rewrite (bs_bins _ _ _ _ _ _ S), list_lookup_insert_ne by done. split; [done|]. split; [rewrite Hmj by lia; done|].
      split; [|done]. unfold treebin_at. rewrite EA. revert H3. apply trep_agree. intros x Hx. apply (bs_frame _ _ _ _ _ _ S).
      pose proof (bi_nodup _ _ I) as Hd. rewrite EP, fmap_app in Hd. apply NoDup_app in Hd as (_ & Hd & _).
      rewrite elem_of_cons. intros [->|Hin]; [by apply (HX j u)|]. apply (Hd x Hin).
      apply list_elem_of_fmap in Hx as (e & -> & He). apply list_elem_of_fmap. exists e. split; [done|]. by eapply Hrest.
  - eapply Forall_impl; [exact Hg|]. apply Gg.
  - done.
  - pose proof (bi_sizes _ _ I) as Hz. apply Forall_insert; [done|]. apply Hns. by apply (Forall_lookup_1 _ _ _ _ Hz Hi).
Qed.

(** * Bitmaps *)
Lemma idx2bit_pow i : 0 <= i < 32 -> idx2bit i = 2 ^ i.
Proof.
  intros Hi. unfold idx2bit. rewrite Z.shiftl_mul_pow2, Z.mul_1_l by lia. apply uwrap_id. split; [lia|]. apply Z.pow_lt_mono_r; lia.
Qed.

Lemma marked_testbit m i : 0 <= i < 32 -> treemap_is_marked m i = Z.testbit (treemap m) i.
Proof.
  intros Hi. unfold treemap_is_marked. rewrite idx2bit_pow by done. destruct (Z.testbit (treemap m) i) eqn:E.
  - apply negb_true_iff, Z.eqb_neq. intros H. apply (f_equal (fun x => Z.testbit x i)) in H.
    rewrite Z.land_spec, Z.pow2_bits_true, E, Z.bits_0 in H by lia. done.
  - apply negb_false_iff, Z.eqb_eq, Z.bits_inj'. intros j Hj. rewrite Z.land_spec, Z.pow2_bits_eqb, Z.bits_0 by lia.
    destruct (Z.eqb_spec i j) as [<-|]; [by rewrite E|apply andb_false_r].
Qed.

Lemma mark_bits tm i : 0 <= i < 32 -> in_u 32 tm -> let tm' := Z.lor tm (idx2bit i) in
  in_u 32 tm' /\ Z.testbit tm' i = true /\ forall j, 0 <= j -> j <> i -> Z.testbit tm' j = Z.testbit tm j.
Proof.
  intros Hi Htm. cbv zeta. rewrite idx2bit_pow by done. apply in_u_testbit in Htm as [H0 Hhi]; [|lia]. split_and!.
  - apply in_u_testbit; [lia|]. split; [apply Z.lor_nonneg; lia|]. intros j Hj. rewrite Z.lor_spec, Hhi, Z.pow2_bits_false by lia. done.
  - rewrite Z.lor_spec, Z.pow2_bits_true by lia. apply orb_true_r.
  - intros j Hj Hne. rewrite Z.lor_spec, Z.pow2_bits_false by lia. apply orb_false_r.
Qed.

Lemma clear_bits tm i : 0 <= i < 32 -> in_u 32 tm -> let tm' := Z.land tm (u32 (Z.lnot (idx2bit i))) in
  in_u 32 tm' /\ Z.testbit tm' i = false /\ forall j, 0 <= j -> j <> i -> Z.testbit tm' j = Z.testbit tm j.
Proof.
  intros Hi Htm. cbv zeta. rewrite idx2bit_pow by done. apply in_u_testbit in Htm as [H0 Hhi]; [|lia].
  assert (E : forall j, 0 <= j -> Z.testbit (Z.land tm (u32 (Z.lnot (2 ^ i)))) j = Z.testbit tm j && negb (j =? i)).
  { intros j Hj. unfold uwrap. rewrite <- Z.land_ones by lia. rewrite !Z.land_spec, Z.lnot_spec, Z.pow2_bits_eqb, Z.testbit_ones_nonneg by lia.
    rewrite (Z.eqb_sym i j). destruct (Z.ltb_spec j 32); [by rewrite andb_true_r|]. rewrite Hhi by lia. done. }
  split_and!.
  - apply in_u_testbit; [lia|]. split; [apply Z.land_nonneg; lia|]. intros j Hj. rewrite E, Hhi by lia. done.
  - rewrite E by lia. rewrite Z.eqb_refl. apply andb_false_r.
  - intros j Hj Hne. rewrite E by lia. rewrite (proj2 (Z.eqb_neq _ _)) by done. apply andb_true_r.
Qed.

(** * [insert_large_chunk] *)
Lemma bins_tree m ts i : bins_inv m ts -> 0 <= i < 32 -> exists t, ts !! Z.to_nat i = Some t.
Proof. intros I Hi. apply lookup_lt_is_Some. destruct (bi_len _ _ I). lia. Qed.

Lemma tree_live m ts i t : bins_inv m ts -> ts !! i = Some t -> live m t /\ NoDup (addrs t).
Proof.
  intros I Hi. destruct (one_bin ts i t Hi) as (rest & _ & EP & _). pose proof (bi_good _ _ I) as Hg. pose proof (bi_nodup _ _ I) as Hn.
  rewrite EP, fmap_app in Hg, Hn. apply Forall_app in Hg as [Hg _]. by apply NoDup_app in Hn as (Hn & _).
Qed.

(** The end of an insertion, with the bins already changed. *)
Lemma insert_first mb m g X par S i : heap_is mb m g -> is_Some (chunks mb !! X) -> fresh_chunk g i S X ->
  exists m' g', (m ← upd X (set_parent par) m; m ← upd X (set_bk X) m; upd X (set_fd X) m) = Some m' /\ heap_is mb m' g' /\
    trep g' i par (Node X S [] Leaf Leaf) /\ forall b, b <> X -> g' b = g b.
Proof.
  intros HM DX (H1 & H2 & H3 & H4). run_upd HM DX. run_upd HM DX. run_upd HM DX. eexists _, _. split; [done|]. split; [done|]. split.
  - cbn. rewrite !fupd_eq. done.
  - intros b Hb. by rewrite !fupd_ne.
Qed.

Lemma heads_of mb m' g' : heap_is mb m' g' -> forall b, heads m' b = g' b.
Proof. intros H b. apply (hi_view _ _ _ H). Qed.

Lemma trep_ext g g' i par t : (forall b, g' b = g b) -> trep g i par t -> trep g' i par t.
Proof. intros H. apply trep_agree. auto. Qed.

Lemma insert_step m ts X S i : bins_inv m ts -> good m X -> X ∉ (all_elems ts).*1 -> chunksize (heads m X) = S -> home S i ->
  exists m' t t', insert_large_chunk X S m = Some m' /\ ts !! Z.to_nat i = Some t /\ bin_step m m' (Z.to_nat i) t t' X /\
    wf (levels i) (prefix i) t' /\ (NoDup (node_sizes t) -> NoDup (node_sizes t')) /\ elems t' ≡ₚ (X, S) :: elems t.
Proof.
  intros I HX HnX HS Hh. pose proof (home_ranges _ _ Hh) as (Hi & _). pose proof (home_prefix _ _ Hh) as Hp. destruct (bins_tree m ts i I Hi) as [t Ht].
  destruct (bi_tree _ _ I _ _ Ht) as (Eb & Em & HT & Hw & _). rewrite Z2Nat.id in Em, HT, Hw by lia. destruct (tree_live _ _ _ _ I Ht) as [HD Hd].
  assert (HXt : X ∉ addrs t).
  { intros Hin. apply HnX. destruct (one_bin ts _ t Ht) as (rest & _ & -> & _). rewrite fmap_app. apply elem_of_app. by left. }
  unfold insert_large_chunk. rewrite (proj2 Hh). pose proof (heap_is_self m) as HM. pose proof (proj1 HX) as DX. cbv zeta.
  run_upd HM DX. run_upd HM DX. run_upd HM DX. set (g1 := fupd X _ _) in HM.
  assert (HF : fresh_chunk g1 i S X) by (unfold g1, fresh_chunk; by rewrite !fupd_eq).
  assert (G1 : forall b, b <> X -> g1 b = heads m b) by (intros b Hb; unfold g1; by rewrite !fupd_ne).
  pose proof (heap_is_bins _ _ _ HM) as (EB & EM & EL). rewrite marked_testbit by done. rewrite EM, Em.
  destruct (Z.eqb_spec (root t) 0) as [E0|E0]; cbn [negb].
  - apply (live_root m) in E0 as ->; [|done]. destruct HM as [Hv Hdm Hr]. set (mb := MState (least_addr m) (treebins_at m) (Z.lor (treemap m) (idx2bit i)) (<[Z.to_nat i := X]> (treebins m)) (chunks m)).
    unfold set_bin, mark_treemap, with_treemap. cbn [treebins]. rewrite EB, Eb, EM, EL. cbn [mbind option_bind].
    replace (treebins_at m2) with (treebins_at m) by (by rewrite Hr). change (treebin_at (MState _ _ _ _ _) i) with (treebin_at m i).
    destruct (insert_first mb (MState (least_addr m) (treebins_at m) (Z.lor (treemap m) (idx2bit i)) (<[Z.to_nat i := X]> (treebins m)) (chunks m2)) g1 X (treebin_at m i) S i)
      as (m' & g' & Em' & HM' & HT' & Hfr); [by split|done|done|].
    exists m', Leaf, (Node X S [] Leaf Leaf). split; [exact Em'|]. split; [done|]. split; [|split; [cbn; split; [by rewrite Hp|by destruct (levels i)]|split; [intros _; apply NoDup_singleton|done]]].
    destruct HM' as [Hv' Hdm' Hr']. destruct (mark_bits (treemap m) i Hi (bi_map _ _ I)) as (M1 & M2 & M3). split.
    + by rewrite Hr'.
    + done.
    + by rewrite Hr'.
    + rewrite Hr'. rewrite Z2Nat.id by lia. cbn [treemap with_chunks mb]. split; [done|]. split; [|done]. rewrite M2. symmetry. apply negb_true_iff, Z.eqb_neq, HX.
    + rewrite Z2Nat.id by lia. revert HT'. apply trep_ext, Hv'.
    + intros b Hb. etrans; [apply Hv'|]. assert (b <> X) by (intros ->; apply Hb; by left). by rewrite Hfr, G1.
  - rewrite EB, Eb. cbn [mbind option_bind].
    assert (HT1 : trep g1 i (treebin_at m i) t) by (revert HT; apply trep_agree; intros x Hx; apply G1; by intros ->).
    destruct (insert_loop_spec m m2 g1 i (treebin_at m i) X S t (levels i) (u64 (Z.shiftl S (leftshift_for_tree_index i))) HM HT1 HD HX) as (m' & g' & t' & E' & [HM' HT' W' Hfr] & Hr' & PS & P);
      [by intros ->|by apply NoDup_cons|done|by apply levels_le|by rewrite Hp|by apply first_bits|].
    exists m', t, t'. split; [exact E'|]. split; [done|]. split; [|by rewrite <- Hp].
    destruct HM' as [Hv' Hdm' Hr2]. split.
    + by rewrite Hr2.
    + done.
    + rewrite Hr2. cbn. rewrite Hr'. by rewrite list_insert_id.
    + rewrite Hr2. cbn [treemap with_chunks]. rewrite Z2Nat.id by lia. rewrite Hr', Em, (proj2 (Z.eqb_neq (root t) 0)) by done. split; [apply I|]. done.
    + rewrite Z2Nat.id by lia. revert HT'. apply trep_ext, Hv'.
    + intros b Hb. etrans; [apply Hv'|]. rewrite Hfr by done. apply G1. intros ->. apply Hb. by left.
Qed.

(** * [unlink_large_chunk] *)
Lemma unlink_step m ts X S : bins_inv m ts -> (X, S) ∈ all_elems ts ->
  exists m' i t t', unlink_large_chunk X m = Some m' /\ ts !! i = Some t /\ X ∈ addrs t /\ bin_step m m' i t t' X /\
    wf (levels (Z.of_nat i)) (prefix (Z.of_nat i)) t' /\ (NoDup (node_sizes t) -> NoDup (node_sizes t')) /\ elems t ≡ₚ (X, S) :: elems t'.
Proof.
  intros I HX. unfold all_elems in HX. apply list_elem_of_In, in_concat in HX as (el & Hel & HX).
  apply list_elem_of_In, list_elem_of_fmap in Hel as (t & -> & Ht). apply list_elem_of_lookup in Ht as [i Ht]. apply list_elem_of_In in HX.
  destruct (bi_tree _ _ I _ _ Ht) as (Eb & Em & HT & Hw & _). destruct (tree_live _ _ _ _ I Ht) as [HD Hd].
  assert (Hi : 0 <= Z.of_nat i < 32) by (apply lookup_lt_Some in Ht; destruct (bi_len _ _ I); lia).
  assert (HXt : X ∈ addrs t) by (apply list_elem_of_fmap; by exists (X, S)).
  assert (Hpar : treebin_at m (Z.of_nat i) <> 0) by (unfold treebin_at; pose proof (bi_at _ _ I); lia).
  destruct (unlink_spec m (heads m) (Z.of_nat i) _ X t (levels (Z.of_nat i)) (prefix (Z.of_nat i)) (heap_is_self m) HT HD Hd) as (m' & t' & s & E & [(g' & [Hv Hdm Hr] & HT' & Hfr)] & W' & PS & P);
    [by rewrite Nat2Z.id|done|exact Hw|by apply levels_le|done|].
  assert (Es : s = S).
  { assert (Hd' : NoDup (elems t).*1) by exact Hd. rewrite P in HX, Hd'. cbn in Hd'. apply elem_of_cons in HX as [HX|HX]; [by simplify_eq|].
    apply NoDup_cons in Hd' as [Hn _]. exfalso. apply Hn, list_elem_of_fmap. by exists (X, S). }
  subst s. exists m', i, t, t'. split; [done|]. split; [done|]. split; [done|]. split; [|done]. split.
  - by rewrite Hr.
  - done.
  - rewrite Hr. cbn. by rewrite Nat2Z.id.
  - rewrite Hr. cbn [treemap with_chunks rebin]. pose proof (bi_map _ _ I) as Hm. destruct (Z.eqb_spec (root t') 0) as [E0|E0].
    + apply clear_bits; done.
    + split; [done|]. split; [|done]. rewrite Em. apply negb_true_iff, Z.eqb_neq. intros E1. apply (live_root m) in E1; [|done]. subst t. by apply elem_of_nil in HXt.
  - revert HT'. apply trep_ext, Hv.
  - intros b Hb. etrans; [apply Hv|]. apply Hfr. intros H. apply Hb. by right.
Qed.

(** * Searches *)
(** A tree of the bin [i], or a subtree of one. *)
Definition shaped (m : mstate) (i : Z) (t : tree) : Prop :=
  live m t /\ exists par n p, trep (heads m) i par t /\ wf n p t /\ (n <= 64)%nat.

Lemma shaped_child m i a s ch l r : shaped m i (Node a s ch l r) -> shaped m i l /\ shaped m i r.
Proof.
  intros (HD & par & n & p & HT & Hw & Hn). apply live_node in HD as (_ & _ & Dl & Dr). destruct HT as (_ & _ & _ & Tl & Tr). destruct Hw as [_ Hw].
  destruct n as [|n].
  - destruct Hw as [-> ->]. split; (split; [done|]); by exists 0, O, 0.
  - destruct Hw as [Wl Wr]. split; (split; [done|]); [exists a, n, (2 * p)|exists a, n, (2 * p + 1)]; split_and!; try done; lia.
Qed.

Lemma shaped_leaf m i : shaped m i Leaf.
Proof. split; [apply Forall_nil_2|]. exists 0, O, 0. split_and!; try done. lia. Qed.

Lemma head_of m a : good m a -> chunks m !! a = Some (heads m a).
Proof. intros (D & _). exact (heap_lookup m m _ a (heap_is_self m) D). Qed.

(** The least size of a tree is on its leftmost path. *)
Definition size_in (s : Z) (t : tree) : Prop := exists a, (a, s) ∈ elems t.

Lemma size_node s a s0 ch l r : size_in s (Node a s0 ch l r) <-> s = s0 \/ size_in s l \/ size_in s r.
Proof.
  unfold size_in. cbn. split.
  - intros [x Hx]. rewrite elem_of_cons, !elem_of_app in Hx. destruct Hx as [E|[Hx|[Hx|Hx]]]; [by simplify_eq; left| | |]; [|eauto..].
    apply list_elem_of_fmap in Hx as (y & E & _). simplify_eq. by left.
  - intros [->|[[x Hx]|[x Hx]]]; [exists a; by left|exists x|exists x]; rewrite elem_of_cons, !elem_of_app; auto.
Qed.

Lemma left_smaller m i a s ch l r x y : shaped m i (Node a s ch l r) -> size_in x l -> size_in y r -> x < y.
Proof.
  intros (_ & _ & n & p & _ & Hw & _) [u Hu] [w Hw']. destruct Hw as [_ Hw]. destruct n as [|n].
  - destruct Hw as [-> _]. by apply elem_of_nil in Hu.
  - destruct Hw as [Wl Wr]. pose proof (wf_prefix _ _ _ _ _ Wl Hu) as E1. pose proof (wf_prefix _ _ _ _ _ Wr Hw') as E2.
    assert (H0 : 0 < 2 ^ Z.of_nat n) by (apply Z.pow_pos_nonneg; lia).
    pose proof (Z.div_mod x (2 ^ Z.of_nat n) ltac:(lia)). pose proof (Z.mod_pos_bound x (2 ^ Z.of_nat n) H0).
    pose proof (Z.div_mod y (2 ^ Z.of_nat n) ltac:(lia)). pose proof (Z.mod_pos_bound y (2 ^ Z.of_nat n) H0). nia.
Qed.

(** The depth of a tree bounds a walk down. *)
Fixpoint depth (t : tree) : nat := match t with Leaf => 0 | Node _ _ _ l r => S (Nat.max (depth l) (depth r)) end.

Lemma wf_depth n p t : wf n p t -> (depth t <= S n)%nat.
Proof.
  revert n p. induction t as [|a s ch l IHl r IHr]; intros n p Hw; [cbn; lia|]. destruct Hw as [_ Hw]. cbn. destruct n as [|n].
  - destruct Hw as [-> ->]. cbn. lia.
  - destruct Hw as [Wl Wr]. specialize (IHl _ _ Wl). specialize (IHr _ _ Wr). lia.
Qed.

Lemma shaped_depth m i t : shaped m i t -> (depth t < TREE_FUEL)%nat.
Proof. intros (_ & _ & n & p & _ & Hw & Hn). apply wf_depth in Hw. unfold TREE_FUEL. lia. Qed.

Lemma leftmost_root m i a s ch l r : shaped m i (Node a s ch l r) -> leftmost_child (heads m a) = root (if root l =? 0 then r else l).
Proof.
  intros (_ & par & n & p & (_ & (E0 & E1) & _) & _). unfold leftmost_child. rewrite E0, E1. by destruct (Z.eqb_spec (root l) 0).
Qed.

(** The walk down the leftmost path: the best of the tree if it is better. *)
Lemma find_smallest_spec fuel m i nb t v rsize : shaped m i t -> (depth t <= fuel)%nat -> 0 < nb -> 0 <= rsize ->
  (forall s, size_in s t -> nb <= s < 2 ^ 64) ->
  exists v' r', find_smallest fuel nb (root t) v rsize m = Some (v', r') /\ r' <= rsize /\ (forall s, size_in s t -> r' <= s - nb) /\
    ((v', r') = (v, rsize) \/ (r' < rsize /\ (v', nb + r') ∈ elems t)).
Proof.
  intros Ht. revert fuel v rsize. induction t as [|a s ch l IHl r IHr]; intros fuel v rsize Hf Hnb Hr0 Hs.
  - exists v, rsize. split; [by destruct fuel|]. split; [lia|]. split; [|by left]. intros s [x Hx%elem_of_nil]. done.
  - destruct (shaped_child _ _ _ _ _ _ _ Ht) as [Hl Hr]. pose proof Ht as (HD & par & n & p & HT & _). apply live_node in HD as (Ga & _).
    destruct HT as ((Es & _) & _). cbn [depth] in Hf. destruct fuel as [|fuel]; [lia|]. cbn [find_smallest root].
    rewrite (proj2 (Z.eqb_neq a 0)) by apply Ga. rewrite (head_of m a Ga). cbn [mbind option_bind]. rewrite Es, (leftmost_root _ _ _ _ _ _ _ Ht).
    assert (Hsa : nb <= s < 2 ^ 64) by (apply Hs, size_node; by left). rewrite (uwrap_id 64 (s - nb)) by (unfold in_u; lia).
    set (c := if root l =? 0 then r else l).
    assert (Hc : forall v rsize, 0 <= rsize -> exists v' r', find_smallest fuel nb (root c) v rsize m = Some (v', r') /\ r' <= rsize /\
      (forall s, size_in s c -> r' <= s - nb) /\ ((v', r') = (v, rsize) \/ (r' < rsize /\ (v', nb + r') ∈ elems c))).
    { intros v0 r0 Hr'. unfold c. destruct (root l =? 0); [apply IHr|apply IHl]; try done; try lia; intros x Hx; apply Hs, size_node; auto. }
    assert (Hmin : forall x, size_in x l \/ size_in x r -> exists y, size_in y c /\ y <= x).
    { intros x Hx. unfold c. destruct (Z.eqb_spec (root l) 0) as [E|E].
      - apply (live_root m) in E; [|apply Hl]. subst l. destruct Hx as [[z Hz%elem_of_nil]|Hx]; [done|]. exists x. split; [done|lia].
      - destruct Hx as [Hx|Hx]; [exists x; split; [done|lia]|]. destruct l as [|b sb chb l1 l2]; [done|]. exists sb.
        assert (Hb : size_in sb (Node b sb chb l1 l2)) by (apply size_node; by left). split; [done|].
        pose proof (left_smaller _ _ _ _ _ _ _ _ _ Ht Hb Hx). lia. }
    assert (Hin : forall e, e ∈ elems c -> e ∈ elems (Node a s ch l r)).
    { intros e He. cbn [elems]. rewrite elem_of_cons, !elem_of_app. unfold c in He. destruct (root l =? 0); auto. }
    destruct (Z.ltb_spec (s - nb) rsize) as [Hlt|Hge].
    + destruct (Hc a (s - nb)) as (v' & r' & E & H1 & H2 & H3); [lia|]. exists v', r'. split; [done|]. split; [lia|]. split.
      * intros x Hx. apply size_node in Hx as [->|Hx]; [lia|]. destruct (Hmin x Hx) as (y & Hy & ?). specialize (H2 y Hy). lia.
      * right. destruct H3 as [E3|[H3 H4]]; [|split; [lia|by apply Hin]]. injection E3 as -> ->. split; [done|].
        replace (nb + (s - nb)) with s by lia. by left.
    + destruct (Hc v rsize) as (v' & r' & E & H1 & H2 & H3); [lia|]. exists v', r'. split; [done|]. split; [lia|]. split.
      * intros x Hx. apply size_node in Hx as [->|Hx]; [lia|]. destruct (Hmin x Hx) as (y & Hy & ?). specialize (H2 y Hy). lia.
      * destruct H3 as [E3|[H3 H4]]; [by left|right]. split; [done|by apply Hin].
Qed.

(** Chunks too small are never chosen. *)
Lemma too_small nb s rsize : 0 < nb < 2 ^ 64 -> 0 <= s < nb -> rsize <= u64 (- nb) -> (u64 (s - nb) <? rsize) = false.
Proof.
  intros Hnb Hs Hr. apply Z.ltb_ge. replace (u64 (- nb)) with (2 ^ 64 - nb) in Hr by (unfold uwrap; apply (Z.mod_unique_pos _ _ (-1)); lia).
  replace (u64 (s - nb)) with (2 ^ 64 + s - nb) by (unfold uwrap; apply (Z.mod_unique_pos _ _ (-1)); lia). lia.
Qed.

Lemma find_smallest_none fuel m i nb t v rsize : shaped m i t -> (depth t <= fuel)%nat ->
  (forall s, size_in s t -> (u64 (s - nb) <? rsize) = false) -> find_smallest fuel nb (root t) v rsize m = Some (v, rsize).
Proof.
  intros Ht. revert fuel. induction t as [|a s ch l IHl r IHr]; intros fuel Hf Hs; [by destruct fuel|].
  destruct (shaped_child _ _ _ _ _ _ _ Ht) as [Hl Hr]. pose proof Ht as (HD & par & n & p & HT & _). apply live_node in HD as (Ga & _).
  destruct HT as ((Es & _) & _). cbn [depth] in Hf. destruct fuel as [|fuel]; [lia|]. cbn [find_smallest root].
  rewrite (proj2 (Z.eqb_neq a 0)) by apply Ga. rewrite (head_of m a Ga). cbn [mbind option_bind]. rewrite Es, (leftmost_root _ _ _ _ _ _ _ Ht).
  rewrite Hs by (apply size_node; by left). destruct (root l =? 0); [apply IHr|apply IHl]; try done; try lia; intros x Hx; apply Hs, size_node; auto.
Qed.

(** What the walk along the bits of [nb] gives, from the tree [t] with the best chunk [v] and
    the untaken subtree [tr0] so far. *)
Record traversed (m : mstate) (i nb v rsize : Z) (t tr0 tr : tree) (v' r' : Z) : Prop := {
  tv_shape : shaped m i tr;
  tv_best : 0 <= r' <= rsize /\ ((v', r') = (v, rsize) \/ (r' < rsize /\ (v', nb + r') ∈ elems t));
  tv_exact_or_rest : r' = 0 \/
    ((forall s, size_in s tr -> nb < s) /\ (forall e, e ∈ elems tr -> e ∈ elems t \/ e ∈ elems tr0) /\
     (forall s, size_in s t -> nb <= s -> r' <= s - nb \/ exists s', size_in s' tr /\ s' <= s) /\
     (forall s, size_in s tr0 -> exists s', size_in s' tr /\ s' <= s)) }.

Lemma prefix_lt n x y : x / 2 ^ Z.of_nat n < y / 2 ^ Z.of_nat n -> x < y.
Proof.
  intros H. assert (H0 : 0 < 2 ^ Z.of_nat n) by (apply Z.pow_pos_nonneg; lia). destruct (Z.lt_ge_cases x y); [done|].
  pose proof (Z.div_le_mono y x (2 ^ Z.of_nat n) H0 ltac:(lia)). lia.
Qed.

(** One step of the walk, when the chunk [a] at the root is not an exact fit. *)
Lemma traverse_down m i nb v0 r0 v rsize a s ch l r tr0 n :
  let t := Node a s ch l r in let d := Z.testbit nb (Z.of_nat n) in let c := if d then r else l in
  let tr1 := if d then tr0 else if root r =? 0 then tr0 else r in
  live m t -> wf (S n) (nb / 2 ^ Z.of_nat (S n)) t -> 0 <= rsize -> rsize <= r0 ->
  ((v, rsize) = (v0, r0) \/ rsize < r0 /\ (v, nb + rsize) ∈ elems t) -> (nb <= s -> rsize <= s - nb) ->
  (forall s, size_in s tr0 -> nb < s) -> (forall x y, size_in x t -> size_in y tr0 -> x <= y) ->
  (forall s, size_in s tr1 -> nb < s) /\ (forall x y, size_in x c -> size_in y tr1 -> x <= y) /\
  (forall tr v' r', traversed m i nb v rsize c tr1 tr v' r' -> traversed m i nb v0 r0 t tr0 tr v' r').
Proof.
  intros t d c tr1 HD [_ [Wl Wr]] Hr Hr0 Hv Hs Htr Hle. pose proof (half_bit nb n) as Hh. fold d in Hh. set (p := nb / 2 ^ Z.of_nat (S n)) in *.
  assert (Hsr : forall x, d = false -> size_in x r -> nb < x).
  { intros x Hd [u Hu]. apply (prefix_lt n). rewrite (wf_prefix _ _ _ _ _ Wr Hu). rewrite Hd in Hh. cbn in Hh. lia. }
  assert (Hsl : forall x, d = true -> size_in x l -> x < nb).
  { intros x Hd [u Hu]. apply (prefix_lt n). rewrite (wf_prefix _ _ _ _ _ Wl Hu). rewrite Hd in Hh. cbn in Hh. lia. }
  assert (Hlr : forall x y, size_in x l -> size_in y r -> x <= y).
  { intros x y [u Hu] [w Hw]. enough (x < y) by lia. apply (prefix_lt n). rewrite (wf_prefix _ _ _ _ _ Wl Hu), (wf_prefix _ _ _ _ _ Wr Hw). lia. }
  assert (Hct : forall e, e ∈ elems c -> e ∈ elems t) by (intros e He; unfold t; cbn [elems]; rewrite elem_of_cons, !elem_of_app; unfold c in He; destruct d; auto).
  assert (Hsc : forall x, size_in x c -> size_in x t) by (intros x [u Hu]; exists u; auto).
  assert (Htr1 : forall e, e ∈ elems tr1 -> e ∈ elems t \/ e ∈ elems tr0).
  { intros e He. unfold tr1 in He. destruct d; [by right|]. destruct (root r =? 0); [by right|]. left. unfold t. cbn [elems]. rewrite elem_of_cons, !elem_of_app. auto. }
  split; [|split].
  - unfold tr1. destruct d eqn:Ed; [done|]. destruct (root r =? 0); [done|]. intros x Hx. by apply Hsr.
  - unfold tr1, c. destruct d eqn:Ed; [intros x y Hx; apply Hle; apply size_node; auto|].
    destruct (root r =? 0); [intros x y Hx; apply Hle; apply size_node; auto|]. apply Hlr.
  - intros tr v' r' [H1 [H2 H3] H4]. split; [done| |].
    + split; [lia|]. destruct H3 as [E3|[H3 H3']]; [|right; split; [lia|by apply Hct]]. injection E3 as -> ->. exact Hv.
    + destruct H4 as [H4|(H4 & H5 & H6 & H7)]; [by left|right]. split; [done|]. split; [intros e He; destruct (H5 e He) as [?|?]; auto|]. split.
      * intros x Hx Hnb. apply size_node in Hx as [->|Hx]; [left; specialize (Hs Hnb); lia|].
        unfold c, tr1 in *. destruct d eqn:Ed.
        -- destruct Hx as [Hx|Hx]; [specialize (Hsl x eq_refl Hx); lia|by apply H6].
        -- destruct Hx as [Hx|Hx]; [by apply H6|]. right. destruct (Z.eqb_spec (root r) 0) as [E|E]; [|by apply H7].
           apply (live_root m) in E; [|by apply live_node in HD as (_ & _ & _ & ?)]. subst r. by destruct Hx as [w Hw%elem_of_nil].
      * intros x Hx. unfold tr1 in H7. destruct d eqn:Ed; [by apply H7|]. destruct (Z.eqb_spec (root r) 0) as [E|E]; [by apply H7|].
        destruct r as [|b sb chb r1 r2]; [done|]. destruct (H7 sb ltac:(apply size_node; by left)) as (s' & Hs' & Hle'). exists s'. split; [done|].
        assert (sb <= x) by (apply Hle; [apply size_node; right; right; apply size_node; by left|done]). lia.
Qed.

Lemma traversed_leaf m i nb v rsize tr : 0 <= rsize -> shaped m i tr -> (forall s, size_in s tr -> nb < s) -> traversed m i nb v rsize Leaf tr tr v rsize.
Proof.
  intros H0 Ht Hs. split; [done|split; [lia|by left]|]. right. split; [done|]. split; [auto|]. split; [by intros s [x Hx%elem_of_nil]|].
  intros s Hx. exists s. split; [done|lia].
Qed.

Lemma traverse_spec fuel m i nb K t v rsize tr0 n : shaped m i t -> NoDup (addrs t) -> t <> Leaf -> (n < fuel)%nat -> (n <= 64)%nat ->
  wf n (nb / 2 ^ Z.of_nat n) t -> bits_at n nb K -> 0 < nb < 2 ^ 64 -> 0 < rsize <= u64 (- nb) -> (forall s, size_in s t -> 0 <= s < 2 ^ 64) ->
  shaped m i tr0 -> (forall s, size_in s tr0 -> nb < s) -> (forall x y, size_in x t -> size_in y tr0 -> x <= y) ->
  exists tr v' r', traverse fuel nb K (root t) v rsize (root tr0) m = Some (root tr, v', r') /\ traversed m i nb v rsize t tr0 tr v' r'.
Proof.
  revert fuel K v rsize tr0 n. induction t as [|a s ch l IHl r IHr]; intros fuel K v rsize tr0 n Ht Hd Hne Hf Hn Hw HK Hnb Hr Hs Htr Htrs Hle; [done|].
  destruct (shaped_child _ _ _ _ _ _ _ Ht) as [Hl Hr']. pose proof Ht as (HD & par & n0 & p0 & HT & _). pose proof HD as HD'. apply live_node in HD' as (Ga & _ & Dl & Dr).
  destruct HT as ((Es & _) & (E0 & E1) & _). destruct fuel as [|fuel]; [lia|]. cbn [traverse root]. rewrite (head_of m a Ga). cbn [mbind option_bind].
  rewrite Es, E1. cbv zeta. assert (Hsa : 0 <= s < 2 ^ 64) by (apply Hs, size_node; by left). apply node_nodup in Hd as (_ & _ & Hdl & Hlr & Hdr).
  set (b := u64 (s - nb) <? rsize). set (v1 := if b then a else v). set (r1 := if b then u64 (s - nb) else rsize).
  assert (Hb : (b = false /\ (nb <= s -> rsize <= s - nb)) \/ (b = true /\ nb <= s /\ u64 (s - nb) = s - nb /\ s - nb < rsize)).
  { unfold b. destruct (Z.lt_ge_cases s nb) as [Hlt|Hge]; [left; split; [apply too_small; lia|lia]|].
    rewrite (uwrap_id 64 (s - nb)) by (unfold in_u; lia). destruct (Z.ltb_spec (s - nb) rsize); [right|left]; split_and!; (done || lia). }
  assert (Hv1 : r1 <= rsize /\ 0 <= r1 /\ ((v1, r1) = (v, rsize) \/ r1 < rsize /\ (v1, nb + r1) ∈ elems (Node a s ch l r)) /\ (nb <= s -> r1 <= s - nb)).
  { unfold v1, r1. destruct Hb as [(-> & Hb)|(-> & Hb1 & -> & Hb3)]; split_and!; try lia; try done; [by left|]. right. split; [done|].
    replace (nb + (s - nb)) with s by lia. by left. }
  destruct Hv1 as (Hr1 & Hr10 & Hv1 & Hr1s).
  destruct (b && (r1 =? 0)) eqn:Ex.
  - apply andb_true_iff in Ex as [Eb Ez]. apply Z.eqb_eq in Ez. exists (Node a s ch l r), v1, r1. split; [done|]. split; [done|done|by left].
  - destruct n as [|n].
    { exfalso. destruct Hw as [Hw _]. cbn in Hw. rewrite !Z.div_1_r in Hw. subst s. destruct Hb as [(_ & Hb)|(Eb & _ & Eu & _)]; [lia|].
      rewrite Eb in Ex. unfold r1 in Ex. rewrite Eb, Eu, Z.sub_diag in Ex. done. }
    rewrite (bits_sign n nb K) by (done || lia). set (d := Z.testbit nb (Z.of_nat n)). set (c := if d then r else l).
    assert (Ec : tc_child d (heads m a) = root c) by (unfold c; by destruct d). rewrite Ec.
    set (tr1 := if d then tr0 else if root r =? 0 then tr0 else r).
    assert (Etr : (if negb (root r =? 0) && negb (root r =? root c) then root r else root tr0) = root tr1).
    { unfold tr1, c. destruct d; [rewrite Z.eqb_refl; by rewrite andb_false_r|]. destruct (Z.eqb_spec (root r) 0) as [|Er]; [done|]. cbn [negb andb].
      destruct (Z.eqb_spec (root r) (root l)) as [E|]; [|done]. exfalso. apply (Hlr (root r)); [rewrite E; apply root_in; by rewrite <- E|by apply root_in]. }
    rewrite Etr. destruct (traverse_down m i nb v rsize v1 r1 a s ch l r tr0 n) as (T1 & T2 & T3); try done.
    fold d in T1, T2, T3. fold c tr1 in T1, T2, T3.
    assert (Htr1 : shaped m i tr1) by (unfold tr1; destruct d; [done|]; by destruct (root r =? 0)).
    destruct (Z.eqb_spec (root c) 0) as [Ez|Ez].
    + assert (c = Leaf) as Hc by (apply (live_root m); [unfold c; by destruct d|done]). exists tr1, v1, r1. split; [done|]. apply T3. rewrite Hc. by apply traversed_leaf.
    + assert (Hr1p : 0 < r1).
      { destruct (Z.eq_dec r1 0) as [E|]; [|lia]. exfalso. rewrite E in Ex. cbn in Ex. rewrite andb_true_r in Ex. unfold r1 in E. rewrite Ex in E. lia. }
      destruct Hw as [_ [Wl Wr]]. pose proof (half_bit nb n) as Hh. fold d in Hh.
      assert (IH : exists tr v' r', traverse fuel nb (u64 (Z.shiftl K 1)) (root c) v1 r1 (root tr1) m = Some (root tr, v', r') /\ traversed m i nb v1 r1 c tr1 tr v' r').
      { assert (Hcs : forall x, size_in x c -> 0 <= x < 2 ^ 64) by (intros x Hx; apply Hs, size_node; unfold c in Hx; destruct d; auto).
        assert (Wc : wf n (nb / 2 ^ Z.of_nat n) c) by (rewrite Hh; unfold c; destruct d; cbn [Z.b2z]; [done|by rewrite Z.add_0_r]).
        assert (Hcne : c <> Leaf) by (by intros ->). apply bits_next in HK; [|lia].
        unfold c in *. destruct d; [apply (IHr fuel _ v1 r1 tr1 n)|apply (IHl fuel _ v1 r1 tr1 n)]; try done; lia. }
      destruct IH as (tr & v' & r' & E & HTv). exists tr, v', r'. split; [done|]. by apply T3.
Qed.

Lemma traverse_none fuel m i nb K t v rsize tr0 : shaped m i t -> t <> Leaf -> (depth t <= fuel)%nat ->
  (forall s, size_in s t \/ size_in s tr0 -> (u64 (s - nb) <? rsize) = false) -> shaped m i tr0 ->
  exists tr, traverse fuel nb K (root t) v rsize (root tr0) m = Some (root tr, v, rsize) /\ shaped m i tr /\
    forall s, size_in s tr -> (u64 (s - nb) <? rsize) = false.
Proof.
  revert fuel K tr0. induction t as [|a s ch l IHl r IHr]; intros fuel K tr0 Ht Hne Hf Hs Htr; [done|].
  destruct (shaped_child _ _ _ _ _ _ _ Ht) as [Hl Hr']. pose proof Ht as (HD & par & n0 & p0 & HT & _). apply live_node in HD as (Ga & _ & Dl & Dr).
  destruct HT as ((Es & _) & (E0 & E1) & _). cbn [depth] in Hf. destruct fuel as [|fuel]; [lia|]. cbn [traverse root]. rewrite (head_of m a Ga). cbn [mbind option_bind].
  rewrite Es, E1. cbv zeta. rewrite Hs by (left; apply size_node; by left). cbn [andb]. set (d := sign_bit K). set (c := if d then r else l).
  assert (Ec : tc_child d (heads m a) = root c) by (unfold c; by destruct d). rewrite Ec.
  set (tr1 := if negb (root r =? 0) && negb (root r =? root c) then r else tr0).
  replace (if _ && _ then root r else root tr0) with (root tr1) by (unfold tr1; by destruct (_ && _)).
  assert (Hc : shaped m i c /\ (depth c <= fuel)%nat) by (unfold c; destruct d; split; (done || lia)). destruct Hc as [Hc Hfc].
  assert (Htr1 : shaped m i tr1) by (unfold tr1; by destruct (_ && _)).
  assert (Hs1 : forall x, size_in x c \/ size_in x tr1 -> (u64 (x - nb) <? rsize) = false).
  { intros x [Hx|Hx]; apply Hs; [left; apply size_node; unfold c in Hx; destruct d; auto|].
    unfold tr1 in Hx. destruct (_ && _); [left; apply size_node; auto|by right]. }
  destruct (Z.eqb_spec (root c) 0) as [Ez|Ez]; [exists tr1; auto|]. assert (Hcne : c <> Leaf) by (by intros ->).
  unfold c in *. destruct d; [by apply IHr|by apply IHl].
Qed.

(** * Best fit *)
Definition best_fit (M : gmap Z Z) (nb v rsize : Z) : Prop :=
  (v = 0 /\ forall a s, M !! a = Some s -> s < nb) \/
  (v <> 0 /\ exists s, M !! v = Some s /\ nb <= s /\ rsize = s - nb /\ forall a s', M !! a = Some s' -> nb <= s' -> s <= s').

(** The chunks of the bins, with the bins they are in. *)
Definition in_bins (ts : list tree) (a s : Z) : Prop := exists j t, ts !! j = Some t /\ (a, s) ∈ elems t.

Lemma in_bins_map m ts M a s : bins_inv m ts -> all_elems ts ≡ₚ map_to_list M -> M !! a = Some s <-> in_bins ts a s.
Proof.
  intros I HP. rewrite <- elem_of_map_to_list, <- HP. unfold all_elems, in_bins. rewrite list_elem_of_In, in_concat. split.
  - intros (el & Hel & Hx). apply list_elem_of_In, list_elem_of_fmap in Hel as (t & -> & Ht). apply list_elem_of_lookup in Ht as [j Hj].
    exists j, t. split; [done|]. by apply list_elem_of_In.
  - intros (j & t & Hj & Hx). exists (elems t). split; [|by apply list_elem_of_In]. apply list_elem_of_In, list_elem_of_fmap. exists t. split; [done|].
    by eapply list_elem_of_lookup_2.
Qed.

Lemma bin_home m ts j t a s : bins_inv m ts -> ts !! j = Some t -> (a, s) ∈ elems t -> home s (Z.of_nat j) /\ good m a.
Proof.
  intros I Hj Hx. split.
  - destruct (bi_tree _ _ I _ _ Hj) as (_ & _ & _ & _ & Hh). rewrite Forall_forall in Hh. by apply (Hh (a, s)).
  - pose proof (proj1 (tree_live _ _ _ _ I Hj)) as HD. unfold live in HD. rewrite Forall_forall in HD. apply HD, list_elem_of_fmap. by exists (a, s).
Qed.

Lemma bin_shaped m ts j t : bins_inv m ts -> ts !! j = Some t -> shaped m (Z.of_nat j) t.
Proof.
  intros I Hj. split; [by eapply tree_live|]. destruct (bi_tree _ _ I _ _ Hj) as (_ & _ & HT & Hw & _). eexists _, _, _. split; [exact HT|]. split; [exact Hw|].
  apply levels_le. apply lookup_lt_Some in Hj. destruct (bi_len _ _ I). lia.
Qed.

Lemma marked_bin m ts j t : bins_inv m ts -> ts !! j = Some t -> Z.testbit (treemap m) (Z.of_nat j) = false -> t = Leaf.
Proof.
  intros I Hj Hb. destruct (bi_tree _ _ I _ _ Hj) as (_ & E & _). rewrite E in Hb. apply negb_false_iff, Z.eqb_eq in Hb.
  apply (live_root m); [|done]. by eapply tree_live.
Qed.

(** The end of both searches: the leftmost path of a tree with chunks that fit. *)
Lemma last_walk m i nb t v rsize : shaped m i t -> 0 < nb -> 0 <= rsize -> (forall s, size_in s t -> nb <= s < 2 ^ 64) ->
  exists v' r', find_smallest TREE_FUEL nb (root t) v rsize m = Some (v', r') /\ r' <= rsize /\ (forall s, size_in s t -> r' <= s - nb) /\
    ((v', r') = (v, rsize) \/ (r' < rsize /\ (v', nb + r') ∈ elems t)).
Proof. intros Ht. apply (find_smallest_spec _ m i); [done|]. pose proof (shaped_depth _ _ _ Ht). lia. Qed.

Lemma neg_size nb : 0 < nb < 2 ^ 64 -> u64 (- nb) = 2 ^ 64 - nb.
Proof. intros. unfold uwrap. symmetry. apply (Z.mod_unique_pos _ _ (-1)); lia. Qed.

(** Requests below 2^40 bytes: the bin of the request, and the next bin with chunks. *)
Section Large.
Context (m : mstate) (ts : list tree) (nb : Z) (I : bins_inv m ts) (Hnb : 256 <= nb < 2 ^ 40).
Let idx := compute_tree_index_bsr nb.
Let rs := u64 (- nb).
#[local] Set Default Proof Using "All".

(** [v] is the best chunk of the bins, or there is none: what [best_fit] says, of the trees. *)
Definition best_bins (v r : Z) : Prop :=
  (v = 0 /\ forall a s, in_bins ts a s -> s < nb) \/
  (v <> 0 /\ in_bins ts v (nb + r) /\ 0 <= r /\ forall a s, in_bins ts a s -> nb <= s -> nb + r <= s).

Lemma idx_home : home nb idx /\ 0 <= idx < 32.
Proof. assert (H : home nb idx) by done. split; [done|]. by apply home_ranges in H as (? & _). Qed.

Lemma rs_eq : rs = 2 ^ 64 - nb.
Proof. apply neg_size. lia. Qed.

(** No chunk of the bin of the request fits: the next bin that is not empty decides. *)
Lemma next_bin_best : (forall t, ts !! Z.to_nat idx = Some t -> forall s, size_in s t -> s < nb) ->
  exists v r, (t ← match next_tree_bin idx (treemap m) with Some i => treebins m !! Z.to_nat i | None => Some 0 end;
    find_smallest TREE_FUEL nb t 0 rs m) = Some (v, r) /\ best_bins v r.
Proof.
  intros Hnone. destruct idx_home as [Hh Hi]. pose proof (next_tree_bin_least idx (treemap m) Hi (bi_map _ _ I)) as HL. pose proof rs_eq as Ers.
  assert (Hsmall : forall j a s t, ts !! j = Some t -> (a, s) ∈ elems t -> Z.of_nat j <= idx -> s < nb).
  { intros j a s t Hj Hx Hle. destruct (Z.eq_dec (Z.of_nat j) idx) as [E|E]; [eapply Hnone; [by rewrite <- E, Nat2Z.id|by exists a]|].
    destruct (bin_home _ _ _ _ _ _ I Hj Hx) as [H _]. eapply home_order; [exact H|exact Hh|lia]. }
  destruct (next_tree_bin idx (treemap m)) as [i|]; cbn in HL.
  - destruct HL as (Hlt & Hbit & Hbetween). destruct (bins_tree m ts i I ltac:(lia)) as [u Hu]. pose proof (bin_shaped _ _ _ _ I Hu) as Su.
    destruct (bi_tree _ _ I _ _ Hu) as (Eb & Em & _). rewrite Eb. cbn [mbind option_bind].
    assert (Hfit : forall s, size_in s u -> nb <= s < 2 ^ 64).
    { intros s [a Ha]. destruct (bin_home _ _ _ _ _ _ I Hu Ha) as [H _]. pose proof (home_order _ _ _ _ Hh H ltac:(lia)). destruct H. lia. }
    destruct (last_walk m _ nb u 0 rs Su ltac:(lia) ltac:(lia) Hfit) as (v & r & E & Hr & Hmin & Hv). exists v, r. split; [done|].
    rewrite Z2Nat.id, Hbit in Em by lia. destruct u as [|a0 s0 ch0 l0 r0]; [done|].
    assert (Hs0 : size_in s0 (Node a0 s0 ch0 l0 r0)) by (apply size_node; by left). pose proof (Hmin s0 Hs0). pose proof (Hfit s0 Hs0).
    destruct Hv as [Hv|[Hv Hin]]; [exfalso; simplify_eq; lia|]. right. destruct (bin_home _ _ _ _ _ _ I Hu Hin) as [Hhv Gv].
    split; [apply Gv|]. split; [by eexists _, _|]. split; [specialize (Hfit (nb + r) ltac:(by exists v)); lia|].
    intros a s (j & t & Hj & Hx) Hs. destruct (Z.lt_trichotomy (Z.of_nat j) i) as [Hji|[Hji|Hji]].
    + destruct (Z.le_gt_cases (Z.of_nat j) idx) as [Hle|Hgt]; [pose proof (Hsmall _ _ _ _ Hj Hx Hle); lia|].
      specialize (Hbetween (Z.of_nat j) ltac:(lia)). apply (marked_bin _ _ _ _ I Hj) in Hbetween. subst t. by apply elem_of_nil in Hx.
    + assert (j = Z.to_nat i) as -> by lia. rewrite Hu in Hj. injection Hj as <-. specialize (Hmin s ltac:(by exists a)). lia.
    + destruct (bin_home _ _ _ _ _ _ I Hj Hx) as [H' _]. pose proof (home_order _ _ _ _ Hhv H' ltac:(lia)). lia.
  - exists 0, rs. split; [done|]. left. split; [done|]. intros a s (j & t & Hj & Hx).
    destruct (Z.le_gt_cases (Z.of_nat j) idx) as [Hle|Hgt]; [by eapply Hsmall|]. assert (Z.of_nat j < 32) by (apply lookup_lt_Some in Hj; destruct (bi_len _ _ I); lia).
    specialize (HL (Z.of_nat j) ltac:(lia)). apply (marked_bin _ _ _ _ I Hj) in HL. subst t. by apply elem_of_nil in Hx.
Qed.

(** Chunks of other bins do not matter when the bin of the request has one that fits. *)
Lemma own_bin_best t v r : ts !! Z.to_nat idx = Some t -> (v, nb + r) ∈ elems t -> 0 <= r ->
  (forall s, size_in s t -> nb <= s -> nb + r <= s) -> best_bins v r.
Proof.
  intros Ht Hv Hr Hmin. destruct idx_home as [Hh Hi]. right. destruct (bin_home _ _ _ _ _ _ I Ht Hv) as [Hhv Gv]. split; [apply Gv|]. split; [by eexists _, _|]. split; [done|].
  intros a s (j & u & Hj & Hx) Hs. destruct (bin_home _ _ _ _ _ _ I Hj Hx) as [H' _]. rewrite Z2Nat.id in Hhv by lia.
  destruct (Z.lt_trichotomy (Z.of_nat j) idx) as [Hji|[Hji|Hji]].
  - pose proof (home_order _ _ _ _ H' Hh Hji). lia.
  - assert (j = Z.to_nat idx) as -> by lia. rewrite Ht in Hj. injection Hj as <-. apply Hmin; [by exists a|done].
  - pose proof (home_order _ _ _ _ Hhv H' Hji). lia.
Qed.
End Large.

(** The walk down the untaken subtree [tr] of the tree [t] of the request's bin. *)
Lemma own_walk_best m ts nb t tr v r : bins_inv m ts -> 256 <= nb < 2 ^ 40 -> ts !! Z.to_nat (compute_tree_index_bsr nb) = Some t ->
  shaped m (compute_tree_index_bsr nb) tr -> 0 <= r <= u64 (- nb) ->
  ((v, r) = (0, u64 (- nb)) \/ (r < u64 (- nb) /\ (v, nb + r) ∈ elems t)) -> (forall s, size_in s tr -> nb <= s < 2 ^ 64) ->
  (forall e, e ∈ elems tr -> e ∈ elems t) ->
  (forall s, size_in s t -> nb <= s -> r <= s - nb \/ exists s', size_in s' tr /\ s' <= s) -> root tr <> 0 \/ v <> 0 ->
  exists v' r', find_smallest TREE_FUEL nb (root tr) v r m = Some (v', r') /\ best_bins ts nb v' r'.
Proof.
  intros I Hnb Ht Str Hr Hv Hfit Hsub Hcov Hne. rewrite neg_size in Hr, Hv by lia.
  destruct (last_walk m _ nb tr v r Str ltac:(lia) ltac:(lia) Hfit) as (v' & r' & E & Hr' & Hmin & Hv'). exists v', r'. split; [done|].
  assert (Hin : (v', nb + r') ∈ elems t).
  { destruct Hv' as [Hv'|[_ Hin]]; [|by apply Hsub]. injection Hv' as -> ->. destruct Hv as [Hv|[_ Hv]]; [|done]. injection Hv as -> ->. exfalso.
    destruct Hne as [Hne|]; [|done]. destruct tr as [|a s ch l rr]; [done|].
    assert (Hs : size_in s (Node a s ch l rr)) by (apply size_node; by left). specialize (Hmin s Hs). specialize (Hfit s Hs). lia. }
  assert (H0 : 0 <= r').
  { destruct Hv' as [Hv'|[_ Hv']]; [injection Hv'; lia|]. specialize (Hfit (nb + r') ltac:(by exists v')). lia. }
  apply (own_bin_best m ts nb I Hnb t); [done|done|done|].
  intros s Hs Hge. destruct (Hcov s Hs Hge) as [?|(s' & Hs' & ?)]; [lia|]. specialize (Hmin s' Hs'). lia.
Qed.

(** No chunk of the bins has 2^40 bytes, so a request for more finds none. *)
Lemma large_find_above m ts nb : bins_inv m ts -> 2 ^ 40 <= nb < 2 ^ 64 -> exists v r, tmalloc_large_find nb m = Some (v, r) /\ best_bins ts nb v r.
Proof.
  intros I Hnb. unfold tmalloc_large_find. cbv zeta. set (idx := compute_tree_index_bsr nb).
  assert (Hsmall : forall a s, in_bins ts a s -> 0 <= s < nb).
  { intros a s (j & t & Hj & Hx). destruct (bin_home _ _ _ _ _ _ I Hj Hx) as [[? _] _]. lia. }
  assert (Hno : forall j t s, ts !! j = Some t -> size_in s t -> (u64 (s - nb) <? u64 (- nb)) = false).
  { intros j t s Hj [a Ha]. apply too_small; [lia|apply (Hsmall a); by eexists _, _|lia]. }
  assert (Hidx : 0 <= idx < 32) by (apply bsr_index_range; lia). destruct (bins_tree m ts idx I Hidx) as [t Ht].
  destruct (bi_tree _ _ I _ _ Ht) as (Eb & _ & _). rewrite Eb. cbn [mbind option_bind]. pose proof (bin_shaped _ _ _ _ I Ht) as St. rewrite Z2Nat.id in St by lia.
  assert (Hwalk : forall i tr, shaped m i tr -> (forall s, size_in s tr -> (u64 (s - nb) <? u64 (- nb)) = false) ->
    find_smallest TREE_FUEL nb (root tr) 0 (u64 (- nb)) m = Some (0, u64 (- nb))).
  { intros i tr Htr Hs. apply (find_smallest_none _ m i); [done| |done]. pose proof (shaped_depth _ _ _ Htr). lia. }
  assert (HB : best_bins ts nb 0 (u64 (- nb))) by (left; split; [done|]; intros a s Ha; by apply (Hsmall a)).
  assert (Hrest : forall i tr, shaped m i tr -> (forall s, size_in s tr -> (u64 (s - nb) <? u64 (- nb)) = false) ->
    exists v r, (t ← (if (root tr =? 0) && (0 =? 0) then match next_tree_bin idx (treemap m) with Some i => treebins m !! Z.to_nat i | None => Some (root tr) end
      else Some (root tr)); find_smallest TREE_FUEL nb t 0 (u64 (- nb)) m) = Some (v, r) /\ best_bins ts nb v r).
  { intros i tr Htr Hs. exists 0, (u64 (- nb)). split; [|done]. destruct (Z.eqb_spec (root tr) 0) as [E|E]; cbn [andb Z.eqb]; [|cbn [mbind option_bind]; by apply (Hwalk i)].
    pose proof (next_tree_bin_least idx (treemap m) Hidx (bi_map _ _ I)) as HL. destruct (next_tree_bin idx (treemap m)) as [j|]; cbn in HL.
    - destruct HL as (Hlt & _). destruct (bins_tree m ts j I ltac:(lia)) as [u Hu]. destruct (bi_tree _ _ I _ _ Hu) as (Ebu & _). rewrite Ebu. cbn [mbind option_bind].
      apply (Hwalk _ u (bin_shaped _ _ _ _ I Hu)). intros s. by eapply Hno.
    - cbn [mbind option_bind]. by apply (Hwalk i). }
  destruct (Z.eqb_spec (root t) 0) as [E0|E0]; cbn [negb].
  - cbn [mbind option_bind]. apply (Hrest idx t St). intros s. by eapply Hno.
  - assert (Hne : t <> Leaf) by (by intros ->).
    destruct (traverse_none TREE_FUEL m idx nb (u64 (Z.shiftl nb (leftshift_for_tree_index idx))) t 0 (u64 (- nb)) Leaf) as (tr & E & Str & Hs);
      [done|done|pose proof (shaped_depth _ _ _ St); lia| |apply shaped_leaf|].
    { intros s [Hs|[a Ha%elem_of_nil]]; [by eapply Hno|done]. }
    change (root Leaf) with 0 in E. rewrite E. cbn [mbind option_bind]. by apply (Hrest idx tr).
Qed.

Lemma large_find_below m ts nb : bins_inv m ts -> 256 <= nb < 2 ^ 40 ->
  exists v r, tmalloc_large_find nb m = Some (v, r) /\ best_bins ts nb v r.
Proof.
  intros I Hnb. unfold tmalloc_large_find. cbv zeta. set (idx := compute_tree_index_bsr nb). set (rs := u64 (- nb)).
  assert (Hh : home nb idx) by done. pose proof (home_ranges _ _ Hh) as (Hi & _). destruct (bins_tree m ts idx I Hi) as [t Ht].
  destruct (bi_tree _ _ I _ _ Ht) as (Eb & _ & _ & Hw & _). rewrite Eb. cbn [mbind option_bind]. pose proof (bin_shaped _ _ _ _ I Ht) as St.
  rewrite Z2Nat.id in Hw, St by lia. assert (Ers : rs = 2 ^ 64 - nb) by (apply neg_size; lia). destruct (tree_live _ _ _ _ I Ht) as [HD Hd].
  assert (Hsz : forall s, size_in s t -> 0 <= s < 2 ^ 64) by (intros s [a Ha]; destruct (bin_home _ _ _ _ _ _ I Ht Ha) as [[? _] _]; lia).
  destruct (Z.eqb_spec (root t) 0) as [E0|E0]; cbn [negb].
  - apply (live_root m) in E0; [|done]. subst t. cbn [mbind option_bind root Z.eqb andb]. apply next_bin_best; [done|done|].
    intros u Hu s Hs. unfold idx in Ht. rewrite Ht in Hu. injection Hu as <-. by destruct Hs as [a Ha%elem_of_nil].
  - assert (Hne : t <> Leaf) by (by intros ->).
    destruct (traverse_spec TREE_FUEL m idx nb (u64 (Z.shiftl nb (leftshift_for_tree_index idx))) t 0 rs Leaf (levels idx)) as (tr & v & r & E & [Str [Hr Hv] Hcase]);
      try done; [unfold TREE_FUEL; pose proof (levels_le idx Hi); lia|by apply levels_le|by rewrite home_prefix with (i := idx)|by apply first_bits|lia|lia|apply shaped_leaf|
        by intros s [a Ha%elem_of_nil]|by intros x y _ [a Ha%elem_of_nil]|].
    change (root Leaf) with 0 in E. rewrite E. cbn [mbind option_bind].
    assert (Hgood : forall a s, (a, s) ∈ elems t -> a <> 0) by (intros a s Ha; by destruct (bin_home _ _ _ _ _ _ I Ht Ha) as [_ (_ & _ & ?)]).
    destruct Hcase as [->|(Hbig & Hsub & Hcov & _)].
    + destruct Hv as [Hv|[_ Hv]]; [exfalso; simplify_eq; lia|]. rewrite (proj2 (Z.eqb_neq v 0)) by eauto. rewrite andb_false_r. cbn [mbind option_bind].
      rewrite (find_smallest_none TREE_FUEL m idx nb tr); [|done|pose proof (shaped_depth _ _ _ Str); lia|intros s _; apply Z.ltb_ge, uwrap_range; lia].
      exists v, 0. split; [done|]. apply (own_bin_best m ts nb I Hnb t); [done|done|lia|intros; lia].
    + assert (Hfit : forall s, size_in s tr -> nb <= s < 2 ^ 64).
      { intros s Hs. pose proof (Hbig s Hs). destruct Hs as [a Ha]. destruct (Hsub _ Ha) as [Ha'|Ha'%elem_of_nil]; [|done]. specialize (Hsz s ltac:(by exists a)). lia. }
      destruct (Z.eqb_spec (root tr) 0) as [Ez|Ez]; [destruct (Z.eqb_spec v 0) as [->|Hv0]|]; cbn [andb].
      * destruct Hv as [Hv|[_ Hv]]; [|by apply Hgood in Hv]. injection Hv as ->. apply (live_root m) in Ez; [|apply Str]. subst tr.
        apply next_bin_best; [done|done|]. intros u Hu s Hs. unfold idx in Ht. rewrite Ht in Hu. injection Hu as <-.
        destruct (Z.lt_ge_cases s nb) as [|Hge]; [done|]. specialize (Hsz s Hs). destruct (Hcov s Hs Hge) as [?|(s' & [a Ha%elem_of_nil] & _)]; [lia|done].
      * cbn [mbind option_bind]. apply (own_walk_best m ts nb t tr v r I Hnb); try done; [by intros e He; destruct (Hsub e He) as [?|?%elem_of_nil]|]. by right.
      * cbn [mbind option_bind]. apply (own_walk_best m ts nb t tr v r I Hnb); try done; [by intros e He; destruct (Hsub e He) as [?|?%elem_of_nil]|]. by left.
Qed.

(** [tmalloc_large] chooses a chunk of the least size that fits, and no chunk only when none
    fits. *)
Lemma large_find_best m M nb : tree_bins m M -> 256 <= nb < 2 ^ 64 -> exists v r, tmalloc_large_find nb m = Some (v, r) /\ best_fit M nb v r.
Proof.
  intros (ts & I & HP) Hnb. assert (HB : exists v r, tmalloc_large_find nb m = Some (v, r) /\ best_bins ts nb v r).
  { destruct (Z.lt_ge_cases nb (2 ^ 40)); [apply (large_find_below m)|apply (large_find_above m)]; (done || lia). }
  destruct HB as (v & r & E & HB). exists v, r. split; [done|]. destruct HB as [(-> & HB)|(Hv & Hin & Hr & HB)]; [left|right].
  - split; [done|]. intros a s Ha. apply (HB a). by apply (in_bins_map m ts M).
  - split; [done|]. exists (nb + r). split; [by apply (in_bins_map m ts M)|]. split; [lia|]. split; [lia|].
    intros a s Ha Hs. apply (HB a); [by apply (in_bins_map m ts M)|done].
Qed.

Lemma find_smallest_fuel fuel fuel' m nb t v rsize x : find_smallest fuel nb t v rsize m = Some x -> (fuel <= fuel')%nat ->
  find_smallest fuel' nb t v rsize m = Some x.
Proof.
  revert fuel' t v rsize. induction fuel as [|fuel IH]; intros [|fuel'] t v rsize E Hf; cbn in *; destruct (t =? 0); try done; [lia|].
  destruct (chunks m !! t) as [c|]; [|done]. cbn in *. destruct (_ <? rsize); apply IH; (done || lia).
Qed.

Lemma find_smallest_step fuel m nb a v rsize c : a <> 0 -> chunks m !! a = Some c ->
  find_smallest (S fuel) nb a v rsize m =
  if u64 (chunksize c - nb) <? rsize then find_smallest fuel nb (leftmost_child c) a (u64 (chunksize c - nb)) m
  else find_smallest fuel nb (leftmost_child c) v rsize m.
Proof. intros Ha Hc. cbn [find_smallest]. rewrite (proj2 (Z.eqb_neq a 0)) by done. by rewrite Hc. Qed.

(** [tmalloc_small], for a request that every chunk of the trees fits: the least chunk of
    all. *)
Lemma small_find_best m M nb : tree_bins m M -> M <> ∅ -> 0 < nb <= 256 -> exists v r, tmalloc_small_find nb m = Some (v, r) /\ v <> 0 /\ best_fit M nb v r.
Proof.
  intros (ts & I & HP) HM Hnb. unfold tmalloc_small_find. cbv zeta.
  assert (Hpos : 0 < treemap m < 2 ^ 32).
  { destruct (bi_map _ _ I) as [H0 H32]. split; [|done]. destruct (Z.eq_dec (treemap m) 0) as [E|]; [|lia]. exfalso.
    destruct (map_choose M HM) as (a & s & Ha). apply (in_bins_map m ts M) in Ha as (j & t & Hj & Hx); [|done|done].
    assert (Z.testbit (treemap m) (Z.of_nat j) = false) as Hb by (rewrite E; apply Z.bits_0). apply (marked_bin _ _ _ _ I Hj) in Hb. subst t. by apply elem_of_nil in Hx. }
  destruct (least_bit_spec (treemap m) Hpos) as (i & Hi & -> & Hbit & Hlow). rewrite bsf_pow by done. destruct (bins_tree m ts i I Hi) as [t Ht].
  destruct (bi_tree _ _ I _ _ Ht) as (Eb & Em & _). rewrite Eb. cbn [mbind option_bind]. rewrite Z2Nat.id, Hbit in Em by lia. pose proof (bin_shaped _ _ _ _ I Ht) as St.
  destruct t as [|a s ch l r]; [done|]. pose proof St as ((Ga & _)%live_node & par & n & p & ((Es & _) & _) & _). cbn [root]. rewrite (head_of m a Ga). cbn [mbind option_bind].
  rewrite (leftmost_root _ _ _ _ _ _ _ St), Es. assert (Hfit : forall x, size_in x (Node a s ch l r) -> nb <= x < 2 ^ 64).
  { intros x [b Hb]. destruct (bin_home _ _ _ _ _ _ I Ht Hb) as [[? _] _]. lia. }
  assert (Hs : size_in s (Node a s ch l r)) by (apply size_node; by left). pose proof (Hfit s Hs). rewrite (uwrap_id 64 (s - nb)) by (unfold in_u; lia).
  (* the walk from the root, which is chosen first *)
  pose proof (find_smallest_spec TREE_FUEL m _ nb (Node a s ch l r) 0 (2 ^ 64) St) as HW. destruct HW as (v & r' & E & Hr & Hmin & Hv);
    [pose proof (shaped_depth _ _ _ St); lia|lia|lia|done|].
  rewrite (find_smallest_step 65 m nb a _ _ (heads m a)) in E by (apply Ga || by apply head_of).
  rewrite Es, (leftmost_root _ _ _ _ _ _ _ St), (uwrap_id 64 (s - nb)) in E by (unfold in_u; lia). rewrite (proj2 (Z.ltb_lt _ _)) in E by lia.
  assert (Ev : (v, nb + r') ∈ elems (Node a s ch l r)) by (destruct Hv as [Hv|[_ Hv]]; [injection Hv as -> ->; specialize (Hmin s Hs); lia|done]).
  exists v, r'. destruct (bin_home _ _ _ _ _ _ I Ht Ev) as [Hhv (_ & _ & Hv0)]. split; [|split; [done|right; split; [done|]]].
  - apply (find_smallest_fuel 65); [done|unfold TREE_FUEL; lia].
  - exists (nb + r'). split; [apply (in_bins_map m ts M); [done|done|by eexists _, _]|]. pose proof (Hfit (nb + r') ltac:(by exists v)). split; [lia|]. split; [lia|].
    intros b x Hb _. apply (in_bins_map m ts M) in Hb as (j & t & Hj & Hx); [|done|done]. destruct (bin_home _ _ _ _ _ _ I Hj Hx) as [H' _].
    destruct (Z.lt_trichotomy (Z.of_nat j) i) as [Hji|[Hji|Hji]].
    + specialize (Hlow (Z.of_nat j) ltac:(lia)). apply (marked_bin _ _ _ _ I Hj) in Hlow. subst t. by apply elem_of_nil in Hx.
    + assert (j = Z.to_nat i) as -> by lia. rewrite Ht in Hj. injection Hj as <-. specialize (Hmin x ltac:(by exists b)). lia.
    + rewrite Z2Nat.id in Hhv by lia. pose proof (home_order _ _ _ _ Hhv H' Hji). lia.
Qed.

(** * Boundary tags *)
(** The operations on bins leave the sizes and flags of all chunks, in use or not. *)
Definition tags (c : tchunk) : Z * Z := (tc_prev_foot c, tc_head c).
Definition keeps_tags (m m' : mstate) : Prop := forall b, tags <$> chunks m' !! b = tags <$> chunks m !! b.

Lemma keeps_tags_trans m1 m2 m3 : keeps_tags m1 m2 -> keeps_tags m2 m3 -> keeps_tags m1 m3.
Proof. intros H1 H2 b. by rewrite H2. Qed.

Lemma upd_tags a f m m' : (forall c, tags (f c) = tags c) -> upd a f m = Some m' -> keeps_tags m m'.
Proof.
  intros Hf E b. unfold upd in E. destruct (chunks m !! a) as [c|] eqn:Ea; [|done]. injection E as <-. cbn.
  destruct (decide (b = a)) as [->|]; [rewrite lookup_alter_eq, Ea; cbn; by rewrite Hf|by rewrite lookup_alter_ne].
Qed.

(** Follow the steps of an operation that has returned [Some]. *)
Ltac opt_steps H :=
  repeat match type of H with
  | mbind _ _ = Some _ => apply bind_Some in H as (? & ? & H)
  | guard_ ?b _ = Some _ => destruct b; cbn [guard_] in H; [|discriminate H]
  | (if ?b then _ else _) = Some _ => destruct b
  | (let '(_, _) := ?x in _) = Some _ => destruct x
  | Some (_, _) = Some _ => injection H as <- <-
  | Some _ = Some _ => injection H as <-
  | None = Some _ => discriminate H
  end.
Ltac keep_tags :=
  repeat match goal with
  | H : upd _ _ _ = Some _ |- _ => apply upd_tags in H; [|solve [intros []; try match goal with |- context [set_child ?b] => destruct b end; reflexivity]]
  | H1 : keeps_tags ?a ?b, H2 : keeps_tags ?b ?c |- _ => pose proof (keeps_tags_trans _ _ _ H1 H2); clear H1 H2
  end.

Lemma insert_loop_tags fuel X S T K m m' : insert_loop fuel X S T K m = Some m' -> keeps_tags m m'.
Proof.
  revert T K. induction fuel as [|fuel IH]; intros T K E; cbn [insert_loop] in E; [done|]. apply bind_Some in E as (c & _ & E).
  destruct (negb (chunksize c =? S)); [destruct (negb _)|].
  - by apply IH in E.
  - unfold insert_child in E. opt_steps E; keep_tags; done.
  - unfold insert_ring in E. opt_steps E; keep_tags; done.
Qed.

Lemma insert_tags X S m m' : insert_large_chunk X S m = Some m' -> keeps_tags m m'.
Proof.
  unfold insert_large_chunk. intros E. cbv zeta in E. opt_steps E; keep_tags.
  - unfold set_bin in *. repeat match goal with H : mbind _ _ = Some _ |- _ => opt_steps H end. by eapply keeps_tags_trans.
  - apply insert_loop_tags in E. by eapply keeps_tags_trans.
Qed.

Lemma relink_tags X XP R m m' : relink_parent X XP R m = Some m' -> keeps_tags m m'.
Proof.
  unfold relink_parent, set_bin. intros E. apply bind_Some in E as (c & _ & E). apply bind_Some in E as (H & _ & E). destruct (X =? H).
  - apply bind_Some in E as (m1 & E1 & E). opt_steps E1. injection E as <-. by destruct (R =? 0).
  - opt_steps E; keep_tags; done.
Qed.

Lemma move_child_tags b X R m m' : move_child b X R m = Some m' -> keeps_tags m m'.
Proof. unfold move_child. intros E. opt_steps E; keep_tags; done. Qed.

Lemma unlink_tags X m m' : unlink_large_chunk X m = Some m' -> keeps_tags m m'.
Proof.
  unfold unlink_large_chunk. intros E. apply bind_Some in E as (c & _ & E). cbv zeta in E. apply bind_Some in E as ([R m1] & E1 & E).
  assert (K1 : keeps_tags m m1).
  { unfold detach_replacement in E1. apply bind_Some in E1 as (c1 & _ & E1). cbv zeta in E1. opt_steps E1; keep_tags; done. }
  destruct (negb _); [|by injection E as <-]. unfold finish_unlink in E. apply bind_Some in E as (m2 & E2 & E). apply relink_tags in E2.
  opt_steps E; repeat match goal with H : move_child _ _ _ _ = Some _ |- _ => apply move_child_tags in H end; keep_tags; done.
Qed.

(** * The tree bins as a collection of free chunks *)
Lemma tree_insert m M X S : tree_bins m M -> M !! X = None -> good m X -> chunksize (heads m X) = S -> 256 <= S < 2 ^ 40 ->
  exists m', insert_large_chunk X S m = Some m' /\ tree_bins m' (<[X := S]> M) /\ keeps_tags m m' /\
    (least_addr m' = least_addr m /\ treebins_at m' = treebins_at m) /\ (forall b, M !! b = None -> b <> X -> heads m' b = heads m b).
Proof.
  intros (ts & I & HP) HX HG HS Hsz. set (i := compute_tree_index_bsr S). assert (Hh : home S i) by done. pose proof (home_ranges _ _ Hh) as (Hi & _).
  assert (HnX : X ∉ (all_elems ts).*1).
  { intros (e & -> & He)%list_elem_of_fmap. rewrite HP in He. destruct e as [a s]. apply elem_of_map_to_list in He. cbn in *. congruence. }
  destruct (insert_step m ts X S i I HG HnX HS Hh) as (m' & t & t' & E & Ht & HB & W' & PS & P). exists m'. split; [done|].
  destruct (one_bin ts _ t Ht) as (rest & Eins & Eall & Hrest).
  assert (Eall' : all_elems (<[Z.to_nat i := t']> ts) ≡ₚ (X, S) :: all_elems ts) by (rewrite Eins, Eall, P; done).
  assert (Hfr : forall b, M !! b = None -> b <> X -> heads m' b = heads m b).
  { intros b Hb Hne. apply (bs_frame _ _ _ _ _ _ HB). rewrite elem_of_cons. intros [?|Hin]; [done|]. apply list_elem_of_fmap in Hin as ([b' s] & -> & Hin). cbn in *.
    assert (M !! b' = Some s) by (apply elem_of_map_to_list; rewrite <- HP, Eall; apply elem_of_app; by left). congruence. }
  split; [|split; [by eapply insert_tags|split; [apply (bs_const _ _ _ _ _ _ HB)|done]]].
  exists (<[Z.to_nat i := t']> ts). split; [|rewrite Eall', map_to_list_insert by done; by rewrite HP].
  destruct (bi_tree _ _ I _ _ Ht) as (_ & _ & _ & _ & Hht).
  apply (bin_step_inv m m' (Z.to_nat i) t t' X); try done; rewrite ?Z2Nat.id in * by lia; try done.
  - rewrite P. apply Forall_cons. done.
  - intros j u Hne Hj Hin. apply HnX. apply list_elem_of_fmap in Hin as (e & -> & He). apply list_elem_of_fmap. exists e. split; [done|]. rewrite Eall. apply elem_of_app. right. by eapply Hrest.
  - rewrite Eall'. apply Forall_cons. split; [done|apply I].
  - rewrite Eall'. apply NoDup_cons. split; [done|apply I].
Qed.

Lemma tree_unlink m M X S : tree_bins m M -> M !! X = Some S ->
  exists m', unlink_large_chunk X m = Some m' /\ tree_bins m' (delete X M) /\ keeps_tags m m' /\
    (least_addr m' = least_addr m /\ treebins_at m' = treebins_at m) /\ (forall b, M !! b = None -> heads m' b = heads m b).
Proof.
  intros (ts & I & HP) HX. assert (Hin : (X, S) ∈ all_elems ts) by (rewrite HP; by apply elem_of_map_to_list).
  destruct (unlink_step m ts X S I Hin) as (m' & i & t & t' & E & Ht & HXt & HB & W' & PS & P). exists m'. split; [done|].
  destruct (one_bin ts i t Ht) as (rest & Eins & Eall & Hrest).
  assert (Eall' : all_elems ts ≡ₚ (X, S) :: all_elems (<[i := t']> ts)) by (rewrite Eins, Eall, P; done).
  assert (Hfr : forall b, M !! b = None -> heads m' b = heads m b).
  { intros b Hb. apply (bs_frame _ _ _ _ _ _ HB). rewrite elem_of_cons. intros [->|Hin']; [congruence|]. apply list_elem_of_fmap in Hin' as ([b' s] & -> & Hin'). cbn in *.
    assert (M !! b' = Some s) by (apply elem_of_map_to_list; rewrite <- HP, Eall; apply elem_of_app; by left). congruence. }
  split; [|split; [by eapply unlink_tags|split; [apply (bs_const _ _ _ _ _ _ HB)|done]]].
  pose proof (bi_good _ _ I) as Hg. pose proof (bi_nodup _ _ I) as Hn. rewrite Eall' in Hg, Hn. cbn in Hg, Hn. apply Forall_cons in Hg as [_ Hg]. apply NoDup_cons in Hn as [HnX Hn].
  exists (<[i := t']> ts). split.
  - destruct (bi_tree _ _ I _ _ Ht) as (_ & _ & _ & _ & Hht). rewrite P in Hht. apply Forall_cons in Hht as [_ Hht].
    apply (bin_step_inv m m' i t t' X); try done. intros j u Hne Hj Hx. apply HnX. apply list_elem_of_fmap in Hx as (e & -> & He). apply list_elem_of_fmap. exists e. split; [done|].
    rewrite Eins. apply elem_of_app. right. by eapply Hrest.
  - apply (Permutation_cons_inv (a := (X, S))). rewrite <- Eall', HP. symmetry. by apply map_to_list_delete.
Qed.

(** ** Sequences of operations *)
Inductive tree_op := TInsert (X S : Z) | TUnlink (X : Z) | TFind (nb : Z).
Definition tree_step1 (o : tree_op) (m : mstate) : option (mstate * list (Z * Z)) :=
  match o with
  | TInsert X sz => m ← insert_large_chunk X sz m; Some (m, [])
  | TUnlink X => m ← unlink_large_chunk X m; Some (m, [])
  | TFind nb => r ← tmalloc_large_find nb m; Some (m, [r])
  end.
Fixpoint tree_run (ops : list tree_op) (m : mstate) : option (mstate * list (Z * Z)) :=
  match ops with
  | [] => Some (m, [])
  | o :: ops => '(m, out) ← tree_step1 o m; '(m, outs) ← tree_run ops m; Some (m, out ++ outs)
  end.

(** The collection of free chunks: what an operation may be used for, what it makes of the
    collection, and what it answers. *)
Definition op_legal (m : mstate) (M : gmap Z Z) (o : tree_op) : Prop :=
  match o with
  | TInsert X sz => M !! X = None /\ good m X /\ chunksize (heads m X) = sz /\ 256 <= sz < 2 ^ 40
  | TUnlink X => is_Some (M !! X)
  | TFind nb => 256 <= nb < 2 ^ 64
  end.
Definition op_next (M : gmap Z Z) (o : tree_op) : gmap Z Z :=
  match o with TInsert X sz => <[X := sz]> M | TUnlink X => delete X M | TFind _ => M end.
Definition op_out (M : gmap Z Z) (o : tree_op) (out : list (Z * Z)) : Prop :=
  match o with TFind nb => exists v r, out = [(v, r)] /\ best_fit M nb v r | _ => out = [] end.
Fixpoint ops_legal (m : mstate) (M : gmap Z Z) (ops : list tree_op) : Prop :=
  match ops with [] => True | o :: ops => op_legal m M o /\ ops_legal m (op_next M o) ops end.
Fixpoint ops_out (M : gmap Z Z) (ops : list tree_op) (outs : list (Z * Z)) : Prop :=
  match ops with
  | [] => outs = []
  | o :: ops => exists out rest, outs = out ++ rest /\ op_out M o out /\ ops_out (op_next M o) ops rest
  end.

Lemma keeps_good m m' X : keeps_tags m m' -> least_addr m' = least_addr m -> good m X -> good m' X /\ chunksize (heads m' X) = chunksize (heads m X).
Proof.
  intros HK HL ([c Hc] & Hok & H0). pose proof (HK X) as E. rewrite Hc in E. cbn in E. destruct (chunks m' !! X) as [c'|] eqn:Ec; [|done]. cbn in E. injection E as _ E.
  split; [split; [by exists c'|split; [unfold ok_address in *; by rewrite HL|done]]|].
  unfold heads. rewrite !lookup_total_alt, Hc, Ec. cbn. unfold chunksize. by rewrite E.
Qed.

Lemma legal_kept m m' M ops : keeps_tags m m' -> least_addr m' = least_addr m -> ops_legal m M ops -> ops_legal m' M ops.
Proof.
  intros HK HL. revert M. induction ops as [|o ops IH]; intros M; [done|]. intros [Ho Hops]. split; [|by apply IH].
  destruct o as [X S|X|nb]; cbn in *; try done. destruct Ho as (H1 & H2 & H3 & H4). destruct (keeps_good m m' X HK HL H2) as [G ES]. split_and!; try done; try lia.
Qed.

(** One operation refines the collection. *)
Lemma tree_op_refines m M o : tree_bins m M -> op_legal m M o ->
  exists m' out, tree_step1 o m = Some (m', out) /\ tree_bins m' (op_next M o) /\ op_out M o out /\ keeps_tags m m' /\ least_addr m' = least_addr m.
Proof.
  intros HB Ho. destruct o as [X S|X|nb]; cbn in *.
  - destruct Ho as (H1 & H2 & H3 & H4). destruct (tree_insert m M X S HB H1 H2 H3 H4) as (m' & -> & HB' & HK & [HL _] & _). exists m', []. done.
  - destruct Ho as [S HS]. destruct (tree_unlink m M X S HB HS) as (m' & -> & HB' & HK & [HL _] & _). exists m', []. done.
  - destruct (large_find_best m M nb HB Ho) as (v & r & -> & HF). exists m, [(v, r)]. split; [done|]. split; [done|]. split; [by exists v, r|done].
Qed.

Lemma tree_run_refines m M ops : tree_bins m M -> ops_legal m M ops ->
  exists m' outs, tree_run ops m = Some (m', outs) /\ tree_bins m' (foldl op_next M ops) /\ ops_out M ops outs.
Proof.
  revert m M. induction ops as [|o ops IH]; intros m M HB HL; [by exists m, []|]. destruct HL as [Ho Hops].
  destruct (tree_op_refines m M o HB Ho) as (m1 & out & E1 & HB1 & Hout & HK & Hl). destruct (IH m1 (op_next M o) HB1) as (m' & outs & E2 & HB2 & Houts); [by eapply legal_kept|].
  exists m', (out ++ outs). cbn [tree_run]. rewrite E1. cbn [mbind option_bind]. rewrite E2. split; [done|]. split; [done|]. by exists out, outs.
Qed.

(** A space with empty bins. *)
Definition no_bins (least at_ : Z) (h : gmap Z tchunk) : mstate := MState least at_ 0 (replicate 32 0) h.

Lemma no_bins_empty least at_ h : 0 < at_ -> tree_bins (no_bins least at_ h) ∅.
Proof.
  intros Ha. exists (replicate 32 Leaf). assert (E : all_elems (replicate 32 Leaf) = []) by done. split; [|by rewrite E, map_to_list_empty].
  split.
  - done.
  - split; cbn; lia.
  - done.
  - intros i t Hi. apply lookup_replicate in Hi as [-> Hi]. cbn [treebins no_bins root]. split; [by apply lookup_replicate|]. split; [by rewrite Z.bits_0|].
    split; [done|]. split; [done|]. apply Forall_nil_2.
  - rewrite E. apply Forall_nil_2.
  - rewrite E. apply NoDup_nil_2.
  - apply Forall_replicate, NoDup_nil_2.
Qed.

(** C14. Any sequence of insertions, removals and searches of the tree bins, from empty bins,
    runs without a failed check and answers as a collection of free chunks does: a chunk
    inserted is in it until it is unlinked, and a search gives a chunk of the least size
    that is large enough, or none when there is none. *)
Theorem tree_bins_refine least at_ h ops : let m := no_bins least at_ h in 0 < at_ -> ops_legal m ∅ ops ->
  exists m' outs, tree_run ops m = Some (m', outs) /\ tree_bins m' (foldl op_next ∅ ops) /\ ops_out ∅ ops outs.
Proof. intros m Ha HL. apply tree_run_refines; [by apply no_bins_empty|done]. Qed.

Module TreeExample.
(** Five free chunks, two of one size, all in the bins of 256 to 1023 bytes. *)
Definition free_chunk (size : Z) : tchunk := TChunk 0 (size + 1) 0 0 0 0 0 0.
Definition mem : gmap Z tchunk :=
  list_to_map [(0x1000, free_chunk 304); (0x2000, free_chunk 304); (0x3000, free_chunk 352); (0x4000, free_chunk 256); (0x5000, free_chunk 800)].
Definition ops : list tree_op :=
  [TInsert 0x1000 304; TInsert 0x2000 304; TInsert 0x3000 352; TInsert 0x4000 256; TInsert 0x5000 800;
   TFind 300; TUnlink 0x1000; TFind 300; TUnlink 0x2000; TFind 300; TFind 400; TFind 900].
End TreeExample.

Lemma tree_bins_refine_witness :
  (exists m', tree_run TreeExample.ops (no_bins 0x1000 0x800 TreeExample.mem) =
    Some (m', [(0x1000, 4); (0x2000, 4); (0x3000, 52); (0x5000, 400); (0, 2 ^ 64 - 900)])) /\
  exists m' outs, tree_run TreeExample.ops (no_bins 0x1000 0x800 TreeExample.mem) = Some (m', outs) /\
    tree_bins m' {[0x3000 := 352; 0x4000 := 256; 0x5000 := 800]} /\ ops_out ∅ TreeExample.ops outs.
Proof.
  split; [eexists; vm_compute; reflexivity|].
  destruct (tree_bins_refine 0x1000 0x800 TreeExample.mem TreeExample.ops) as (m' & outs & E & HB & HO); [lia| |].
  - repeat (split; [cbn -[op_next]; first [split_and!; first [vm_compute; reflexivity | split; [by eexists|split; vm_compute; congruence] | vm_compute; split; congruence]
      | by eexists | lia]|]). done.
  - exists m', outs. split; [done|]. split; [|done]. by replace (foldl op_next ∅ TreeExample.ops) with ({[0x3000 := 352; 0x4000 := 256; 0x5000 := 800]} : gmap Z Z) in HB by reflexivity.
Defined.
