(* ===== verification/DlSmall.v ===== *)
(** A memory space and its small bins, include/memory/malloc.c.h: the record of the space,
    and the thirty-two lists of free chunks below 256 bytes, one for each size.

    A list is a ring through the chunks and through a header, which the source places in
    the array [smallbins] so that its fields [fd] and [bk] are two elements of the
    array; in the model the headers are chunks at these addresses. A bin that is not
    marked in [smallmap] is empty whatever its header points to. *)
From stdpp Require Import gmap.
From S2P Require Import Prelude DlBins DlTree DlUnlink DlFit.
Local Open Scope Z_scope.
Implicit Types g : Z -> tchunk.

(** ** The memory space *)
Record segment := Segment { seg_at : Z; seg_base : Z; seg_size : Z; seg_flags : Z }.
(** [malloc_state], at the address [ms_at]: [core] has the least address, the tree bins and
    the memory, [segs] the segments from the most recent one, and [magic] is
    [mparams.magic]. The lists [maps] and [direct] are no fields of it: these are the
    regions of memory that the system has given to the space, each from an address to
    another, for segments and for single chunks. *)
Record mspace := MSpace {
  ms_at : Z; core : mstate; smallmap : Z; dvsize : Z; topsize : Z; dv : Z; top : Z;
  trim_check : Z; release_checks : Z; magic : Z; footprint : Z; max_footprint : Z; mflags : Z; segs : list segment;
  maps : list (Z * Z); direct : list (Z * Z) }.

Definition with_core (c : mstate) (m : mspace) : mspace :=
  MSpace (ms_at m) c (smallmap m) (dvsize m) (topsize m) (dv m) (top m) (trim_check m) (release_checks m) (magic m) (footprint m) (max_footprint m) (mflags m) (segs m) (maps m) (direct m).
Definition with_smallmap (v : Z) (m : mspace) : mspace :=
  MSpace (ms_at m) (core m) v (dvsize m) (topsize m) (dv m) (top m) (trim_check m) (release_checks m) (magic m) (footprint m) (max_footprint m) (mflags m) (segs m) (maps m) (direct m).
Definition with_dv (p size : Z) (m : mspace) : mspace :=
  MSpace (ms_at m) (core m) (smallmap m) size (topsize m) p (top m) (trim_check m) (release_checks m) (magic m) (footprint m) (max_footprint m) (mflags m) (segs m) (maps m) (direct m).
Definition with_top (p size : Z) (m : mspace) : mspace :=
  MSpace (ms_at m) (core m) (smallmap m) (dvsize m) size (dv m) p (trim_check m) (release_checks m) (magic m) (footprint m) (max_footprint m) (mflags m) (segs m) (maps m) (direct m).

(** A store to a field of a chunk, and the operations of [DlTree] on the space. *)
Definition on_core (f : mstate -> option mstate) (m : mspace) : option mspace := c ← f (core m); Some (with_core c m).
Definition store (a : Z) (f : tchunk -> tchunk) : mspace -> option mspace := on_core (upd a f).
Definition read (m : mspace) (a : Z) : option tchunk := chunks (core m) !! a.

(** The array [smallbins] is at offset 72 of [malloc_state]; the header of the bin [i] is the
    chunk at its element [2 i]. *)
Definition smallbin_at (m : mspace) (i : Z) : Z := ms_at m + 72 + 8 * Z.shiftl i 1.
Definition smallmap_is_marked (m : mspace) (i : Z) : bool := negb (Z.land (smallmap m) (idx2bit i) =? 0).
Definition mark_smallmap (i : Z) (m : mspace) : mspace := with_smallmap (Z.lor (smallmap m) (idx2bit i)) m.
Definition clear_smallmap (i : Z) (m : mspace) : mspace := with_smallmap (Z.land (smallmap m) (u32 (Z.lnot (idx2bit i)))) m.

(** ** Operations *)
Definition insert_small_chunk (P S : Z) (m : mspace) : option mspace :=
  let I := small_index S in
  let B := smallbin_at m I in
  guard_ (MIN_CHUNK_SIZE <=? S) (
  '(F, m) ← (if negb (smallmap_is_marked m I) then Some (B, mark_smallmap I m)
             else b ← read m B; guard_ (ok_address (core m) (tc_fd b)) (Some (tc_fd b, m)));
  m ← store B (set_fd P) m;
  m ← store F (set_bk P) m;
  m ← store P (set_fd F) m;
  store P (set_bk B) m).

Definition unlink_small_chunk (P S : Z) (m : mspace) : option mspace :=
  p ← read m P;
  let F := tc_fd p in
  let B := tc_bk p in
  let I := small_index S in
  guard_ (negb (P =? B) && negb (P =? F) && (chunksize p =? small_index2size I)) (
  if F =? B then Some (clear_smallmap I m)
  else
    guard_ (((F =? smallbin_at m I) || ok_address (core m) F) && ((B =? smallbin_at m I) || ok_address (core m) B)) (
    m ← store F (set_bk B) m;
    store B (set_fd F) m)).

Definition unlink_first_small_chunk (B P I : Z) (m : mspace) : option mspace :=
  p ← read m P;
  let F := tc_fd p in
  guard_ (negb (P =? B) && negb (P =? F) && (chunksize p =? small_index2size I)) (
  if B =? F then Some (clear_smallmap I m)
  else
    guard_ (ok_address (core m) F) (
    m ← store B (set_fd F) m;
    store F (set_bk B) m)).

(** * The small bins as a collection *)
Definition heads_of_space (m : mspace) : Z -> tchunk := heads (core m).
Definition hdr (m : mspace) (i : nat) : Z := smallbin_at m (Z.of_nat i).
Definition ring_elems (i : nat) (ch : list Z) : list (Z * Z) := (fun x => (x, 8 * Z.of_nat i)) <$> ch.
Definition small_elems (chs : list (list Z)) : list (Z * Z) := concat (imap ring_elems chs).

(** [chs] are the chunks of the bins of [m], in the order of the rings. *)
Record rings_inv (m : mspace) (chs : list (list Z)) : Prop := {
  ri_len : length chs = 32%nat;
  ri_map : in_u 32 (smallmap m);
  ri_hdr : forall i, (i < 32)%nat -> is_Some (read m (hdr m i)) /\ hdr m i <> 0;
  ri_ring : forall i ch, chs !! i = Some ch -> Z.testbit (smallmap m) (Z.of_nat i) = negb (bool_decide (ch = [])) /\
    (ch <> [] -> links (heads_of_space m) (hdr m i :: ch ++ [hdr m i])) /\
    Forall (fun x => good (core m) x /\ chunksize (heads_of_space m x) = 8 * Z.of_nat i) ch;
  ri_apart : forall i x, (i < 32)%nat -> x ∈ (small_elems chs).*1 -> x <> hdr m i;
  ri_nodup : NoDup (small_elems chs).*1 }.
Definition small_bins (m : mspace) (M : gmap Z Z) : Prop :=
  exists chs, rings_inv m chs /\ small_elems chs ≡ₚ map_to_list M /\ forall a s, M !! a = Some s -> 32 <= s < 256.

Lemma one_ring chs i ch : chs !! i = Some ch -> exists rest, (forall ch', small_elems (<[i := ch']> chs) ≡ₚ ring_elems i ch' ++ rest) /\
  small_elems chs ≡ₚ ring_elems i ch ++ rest /\ (forall j c x, j <> i -> chs !! j = Some c -> x ∈ c -> (x, 8 * Z.of_nat j) ∈ rest).
Proof.
  intros Hi. assert (Hl : (i < length chs)%nat) by (by eapply lookup_lt_Some).
  set (rest := concat (imap ring_elems (take i chs)) ++ concat (imap (fun j => ring_elems (i + S j)) (drop (S i) chs))). exists rest.
  assert (E : forall ch', small_elems (<[i := ch']> chs) ≡ₚ ring_elems i ch' ++ rest).
  { intros ch'. unfold small_elems. rewrite insert_take_drop by done. rewrite imap_app, concat_app. cbn. rewrite length_take, Nat.min_l by lia. rewrite Nat.add_0_r.
    unfold rest. solve_Permutation. }
  split; [done|]. split; [rewrite <- E; by rewrite list_insert_id|].
  assert (Hin : forall j c x, j <> i -> chs !! j = Some c -> x ∈ c -> forall ch', (x, 8 * Z.of_nat j) ∈ small_elems (<[i := ch']> chs)).
  { intros j c x Hj Hc Hx ch'. unfold small_elems. apply list_elem_of_In, in_concat. exists (ring_elems j c). split.
    - apply list_elem_of_In, list_elem_of_lookup. exists j. rewrite list_lookup_imap, list_lookup_insert_ne by done. by rewrite Hc.
    - apply list_elem_of_In, list_elem_of_fmap. by exists x. }
  intros j c x Hj Hc Hx. specialize (Hin j c x Hj Hc Hx []). rewrite E in Hin. done.
Qed.

Lemma in_rings chs a s : (a, s) ∈ small_elems chs <-> exists i ch, chs !! i = Some ch /\ a ∈ ch /\ s = 8 * Z.of_nat i.
Proof.
  unfold small_elems. rewrite list_elem_of_In, in_concat. split.
  - intros (el & Hel & Hx). apply list_elem_of_In, list_elem_of_lookup in Hel as [i Hel]. rewrite list_lookup_imap in Hel.
    destruct (chs !! i) as [ch|] eqn:Ec; [|done]. cbn in Hel. injection Hel as <-. apply list_elem_of_In, list_elem_of_fmap in Hx as (x & E & Hx). simplify_eq. eauto.
  - intros (i & ch & Hc & Ha & ->). exists (ring_elems i ch). split.
    + apply list_elem_of_In, list_elem_of_lookup. exists i. by rewrite list_lookup_imap, Hc.
    + apply list_elem_of_In, list_elem_of_fmap. eauto.
Qed.

Lemma hdr_inj m i j : hdr m i = hdr m j -> i = j.
Proof. unfold hdr, smallbin_at. rewrite !Z.shiftl_mul_pow2 by lia. lia. Qed.

(** A step on the ring of the bin [i], from [ch] to [ch'], that changes the links of its
    chunks, of its header and of [X] only. *)
Record ring_step (m m' : mspace) (i : nat) (ch ch' : list Z) (X : Z) : Prop := {
  rs_at : ms_at m' = ms_at m;
  rs_good : forall b, good (core m) b -> good (core m') b;
  rs_dom : forall b, is_Some (read m b) -> is_Some (read m' b);
  rs_map : in_u 32 (smallmap m') /\ Z.testbit (smallmap m') (Z.of_nat i) = negb (bool_decide (ch' = [])) /\
    forall j, 0 <= j -> j <> Z.of_nat i -> Z.testbit (smallmap m') j = Z.testbit (smallmap m) j;
  rs_links : ch' <> [] -> links (heads_of_space m') (hdr m i :: ch' ++ [hdr m i]);
  rs_frame : forall b, b ∉ hdr m i :: X :: ch -> heads_of_space m' b = heads_of_space m b;
  rs_size : forall b, chunksize (heads_of_space m' b) = chunksize (heads_of_space m b) }.

Lemma ring_step_inv m m' i ch ch' X chs : rings_inv m chs -> chs !! i = Some ch -> ring_step m m' i ch ch' X ->
  Forall (fun x => good (core m) x /\ chunksize (heads_of_space m x) = 8 * Z.of_nat i) ch' ->
  (forall j c, j <> i -> chs !! j = Some c -> X ∉ c) -> (forall j, (j < 32)%nat -> X <> hdr m j) ->
  NoDup (small_elems (<[i := ch']> chs)).*1 -> (forall x, x ∈ ch' -> x = X \/ x ∈ ch) -> rings_inv m' (<[i := ch']> chs).
Proof.
  intros I Hi S Hm HX HXh Hn Hsub. destruct (one_ring chs i ch Hi) as (rest & Eins & Eall & Hrest). destruct (rs_map _ _ _ _ _ _ S) as (M1 & M2 & M3).
  assert (Hl : (i < length chs)%nat) by (by eapply lookup_lt_Some). pose proof (ri_len _ _ I) as Hlen.
  assert (EH : forall j, hdr m' j = hdr m j) by (intros j; unfold hdr, smallbin_at; by rewrite (rs_at _ _ _ _ _ _ S)).
  assert (Hch : forall x, x ∈ ch -> x ∈ (small_elems chs).*1).
  { intros x Hx. apply list_elem_of_fmap. exists (x, 8 * Z.of_nat i). split; [done|]. apply in_rings. eauto. }
  split.
  - by rewrite length_insert.
  - done.
  - intros j Hj. rewrite EH. destruct (ri_hdr _ _ I j Hj). split; [by apply (rs_dom _ _ _ _ _ _ S)|done].
  - intros j c Hc. rewrite EH. destruct (decide (j = i)) as [->|Hne].
    + rewrite list_lookup_insert_eq in Hc by done. injection Hc as <-. split; [done|]. split; [by apply S|].
      eapply Forall_impl; [exact Hm|]. intros x [H1 H2]. split; [by apply (rs_good _ _ _ _ _ _ S)|by rewrite (rs_size _ _ _ _ _ _ S)].
    + rewrite list_lookup_insert_ne in Hc by done. destruct (ri_ring _ _ I j c Hc) as (B & L & F). split; [rewrite M3 by lia; done|]. split.
      * intros Hne'. specialize (L Hne'). revert L. apply links_agree. intros x Hx. apply (rs_frame _ _ _ _ _ _ S). rewrite !elem_of_cons.
        rewrite elem_of_cons, elem_of_app, list_elem_of_singleton in Hx. assert (Hj : (j < 32)%nat) by (apply lookup_lt_Some in Hc; lia).
        assert (Hx' : x = hdr m j \/ x ∈ c) by tauto. intros [->|[->|Hx2]].
        -- destruct Hx' as [E|Hx']; [by apply hdr_inj in E|]. apply (ri_apart _ _ I i (hdr m i) ltac:(lia)); [|done]. apply list_elem_of_fmap. exists (hdr m i, 8 * Z.of_nat j). split; [done|]. apply in_rings. eauto.
        -- destruct Hx' as [E|Hx']; [by apply (HXh j)|by apply (HX j c)].
        -- destruct Hx' as [->|Hx']; [by apply (ri_apart _ _ I j (hdr m j) Hj); [apply Hch|]|].
           pose proof (ri_nodup _ _ I) as Hd. rewrite Eall, fmap_app in Hd. apply NoDup_app in Hd as (_ & Hd & _). apply (Hd x).
           ++ apply list_elem_of_fmap. exists (x, 8 * Z.of_nat i). split; [done|]. apply list_elem_of_fmap. eauto.
           ++ apply list_elem_of_fmap. exists (x, 8 * Z.of_nat j). split; [done|]. by eapply Hrest.
      * eapply Forall_impl; [exact F|]. intros x [H1 H2]. split; [by apply (rs_good _ _ _ _ _ _ S)|by rewrite (rs_size _ _ _ _ _ _ S)].
  - intros j x Hj Hx. rewrite EH. apply list_elem_of_fmap in Hx as ([a s] & -> & Hx). cbn. rewrite Eins in Hx. apply elem_of_app in Hx as [Hx|Hx].
    + apply list_elem_of_fmap in Hx as (y & E & Hy). simplify_eq. destruct (Hsub _ Hy) as [->|Hy']; [by apply HXh|]. apply (ri_apart _ _ I j); [done|by apply Hch].
    + apply (ri_apart _ _ I j); [done|]. apply list_elem_of_fmap. exists (a, s). split; [done|]. rewrite Eall. apply elem_of_app. by right.
  - done.
Qed.

(** ** Memory under the operations *)
Record space_is (m0 m : mspace) g : Prop := { si_heap : heap_is (core m0) (core m) g; si_rest : m = with_core (core m) m0 }.

Lemma space_is_self m : space_is m m (heads_of_space m).
Proof. split; [apply heap_is_self|by destruct m]. Qed.

Lemma write_step m0 m g a f : space_is m0 m g -> is_Some (read m0 a) -> exists m', store a f m = Some m' /\ space_is m0 m' (fupd a f g).
Proof.
  intros [H R] Ha. destruct (upd_step _ _ _ a f H Ha) as (c & E & H'). exists (with_core c m). split; [unfold store, on_core; by rewrite E|]. split; [done|].
  cbn. rewrite R. by destruct m0.
Qed.

Lemma space_read m0 m g a : space_is m0 m g -> is_Some (read m0 a) -> read m a = Some (g a).
Proof. intros [H _] Ha. exact (heap_lookup _ _ _ a H Ha). Qed.

Ltac run_write H D :=
  let m := fresh "m" in let E := fresh "E" in let H' := fresh H in
  lazymatch goal with
  | |- context [store ?a ?f ?n] => destruct (write_step _ _ _ a f H D) as (m & E & H'); rewrite E; clear E; cbn [mbind option_bind]; clear H; rename H' into H
  end.

(** What the operations on small bins keep. *)
Definition small_eff (m m' : mspace) : Prop :=
  m' = with_smallmap (smallmap m') (with_core (with_chunks (chunks (core m')) (core m)) m) /\ keeps_tags (core m) (core m').

Lemma small_eff_good m m' b : small_eff m m' -> good (core m) b -> good (core m') b.
Proof.
  intros [E K] ([c Hc] & Hok & H0). split; [|split; [|done]].
  - pose proof (K b) as Eb. rewrite Hc in Eb. destruct (chunks (core m') !! b); [eauto|done].
  - rewrite E. done.
Qed.

Lemma small_eff_size m m' b : small_eff m m' -> chunksize (heads_of_space m' b) = chunksize (heads_of_space m b).
Proof.
  intros [_ K]. specialize (K b). unfold heads_of_space, heads. rewrite !lookup_total_alt. destruct (chunks (core m') !! b), (chunks (core m) !! b); try done. cbn in *.
  unfold chunksize. by injection K as _ ->.
Qed.

Lemma write_tags a f m m' : (forall c, tags (f c) = tags c) -> store a f m = Some m' -> keeps_tags (core m) (core m').
Proof. intros Hf. unfold store, on_core. intros E. apply bind_Some in E as (c & Ec & E). injection E as <-. cbn. by eapply upd_tags. Qed.

Lemma space_eff m0 m g : space_is m0 m g -> (forall b, tags (g b) = tags (heads_of_space m0 b)) -> small_eff m0 m.
Proof.
  intros [[Hv Hd Hr] R] Ht. split.
  - rewrite R at 1. destruct m, m0. cbn in *. unfold with_core, with_smallmap, with_chunks. cbn. f_equal; [|by injection R]. by rewrite Hr at 1.
  - intros b. specialize (Hv b). specialize (Ht b). unfold heads_of_space, heads in Ht. rewrite <- Hv in Ht. rewrite !lookup_total_alt in Ht.
    specialize (Hd b). destruct (chunks (core m) !! b) as [c|], (chunks (core m0) !! b) as [c0|]; cbn in *; [by f_equal| | |done].
    + exfalso. by destruct (proj1 Hd ltac:(eauto)).
    + exfalso. by destruct (proj2 Hd ltac:(eauto)).
Qed.

Lemma fupd_tags a f g b : (forall c, tags (f c) = tags c) -> tags (fupd a f g b) = tags (g b).
Proof. intros Hf. unfold fupd. by destruct (decide (b = a)). Qed.

(** ** Insertion *)
Lemma ring_insert_links g g' a X ch : links g (a :: ch ++ [a]) -> NoDup (X :: a :: ch) -> let F := tc_fd (g a) in
  tc_fd (g' a) = X -> tc_bk (g' X) = a -> tc_fd (g' X) = F -> tc_bk (g' F) = X ->
  (forall b, b ∈ a :: ch -> b <> a -> tc_fd (g' b) = tc_fd (g b)) -> (forall b, b ∈ a :: ch -> b <> F -> tc_bk (g' b) = tc_bk (g b)) ->
  links g' (a :: (X :: ch) ++ [a]).
Proof.
  intros HL Hd F H1 H2 H3 H4 H5 H6. destruct (ring_next _ _ _ HL) as (rest & ER & _). fold F in ER. apply NoDup_cons in Hd as [_ Hd].
  assert (Hin : forall b, b ∈ F :: rest -> b ∈ a :: ch) by (intros b; rewrite <- ER; set_solver).
  cbn [app]. rewrite links_cons. rewrite ER. rewrite links_cons. split_and!; try done.
  apply (links_inner g g' F rest ch a); [done|rewrite <- ER; by rewrite <- Permutation_cons_append| | |].
  - intros b Hb. apply H5. by apply Hin.
  - intros b Hb. apply H6. by apply Hin.
  - rewrite ER, links_cons in HL. tauto.
Qed.

Lemma small_index_eq S i : S = 8 * Z.of_nat i -> (i < 32)%nat -> small_index S = Z.of_nat i /\ small_index2size (Z.of_nat i) = S.
Proof.
  intros -> Hi. unfold small_index, small_index2size, SMALLBIN_SHIFT. rewrite Z.shiftr_div_pow2, Z.shiftl_mul_pow2 by lia.
  replace (8 * Z.of_nat i / 2 ^ 3) with (Z.of_nat i) by (apply Z.div_unique_exact; lia). rewrite uwrap_id by (unfold in_u; lia). lia.
Qed.

Lemma small_marked m i : 0 <= i < 32 -> smallmap_is_marked m i = Z.testbit (smallmap m) i.
Proof. intros Hi. exact (marked_testbit (MState 0 0 (smallmap m) [] ∅) i Hi). Qed.

Lemma mark_small_is m g i : space_is (mark_smallmap i m) (mark_smallmap i m) g <-> space_is m m g.
Proof. split; intros [H _]; (split; [exact H|by destruct m]). Qed.

(** What an insertion or a removal does to the bins. *)
Record small_step (m m' : mspace) (M M' : gmap Z Z) (X : Z) : Prop := {
  ss_eff : small_eff m m'; ss_bins : small_bins m' M';
  ss_frame : forall b, M !! b = None -> b <> X -> (forall i, (i < 32)%nat -> b <> hdr m i) -> heads_of_space m' b = heads_of_space m b }.

Lemma ring_member (M : gmap Z Z) chs i ch x : small_elems chs ≡ₚ map_to_list M -> chs !! i = Some ch -> x ∈ ch -> M !! x = Some (8 * Z.of_nat i).
Proof. intros HP Hi Hx. apply elem_of_map_to_list. rewrite <- HP. apply in_rings. eauto. Qed.

Lemma hdr_not_in m chs i ch : rings_inv m chs -> chs !! i = Some ch -> hdr m i ∉ ch.
Proof.
  intros I Hi Hin. apply (ri_apart _ _ I i (hdr m i)); [apply lookup_lt_Some in Hi; rewrite (ri_len _ _ I) in Hi; lia| |done].
  apply list_elem_of_fmap. exists (hdr m i, 8 * Z.of_nat i). split; [done|]. apply in_rings. eauto.
Qed.

Lemma ring_nodup m chs i ch : rings_inv m chs -> chs !! i = Some ch -> NoDup ch.
Proof.
  intros I Hi. destruct (one_ring chs i ch Hi) as (rest & _ & E & _). pose proof (ri_nodup _ _ I) as Hd. rewrite E, fmap_app in Hd. apply NoDup_app in Hd as (Hd & _).
  unfold ring_elems in Hd. rewrite <- list_fmap_compose in Hd. unfold compose in Hd. cbn in Hd. by rewrite list_fmap_id in Hd.
Qed.

(** The two ways [insert_small_chunk] goes end in the same writes. *)
Lemma insert_small_mem m0 m g P B F : space_is m0 m g -> is_Some (read m0 P) -> is_Some (read m0 B) -> is_Some (read m0 F) ->
  exists m', (m ← store B (set_fd P) m; m ← store F (set_bk P) m; m ← store P (set_fd F) m; store P (set_bk B) m) = Some m' /\
    space_is m0 m' (fupd P (set_bk B) (fupd P (set_fd F) (fupd F (set_bk P) (fupd B (set_fd P) g)))).
Proof. intros H DP DB DF. run_write H DB. run_write H DF. run_write H DP. run_write H DP. eauto. Qed.

Lemma small_insert m M P S : small_bins m M -> M !! P = None -> good (core m) P -> chunksize (heads_of_space m P) = S -> S mod 8 = 0 -> 32 <= S < 256 ->
  (forall i, (i < 32)%nat -> P <> hdr m i) -> exists m', insert_small_chunk P S m = Some m' /\ small_step m m' M (<[P := S]> M) P.
Proof.
  intros (chs & I & HP & Hsz) HM HG HS H8 Hr Hh. set (i := Z.to_nat (S / 8)). pose proof (Z.div_mod S 8 ltac:(lia)) as ED.
  assert (Hi : (i < 32)%nat) by (unfold i; lia). assert (Ei : S = 8 * Z.of_nat i) by (unfold i; lia). destruct (small_index_eq S i Ei Hi) as [EI ES].
  destruct (lookup_lt_is_Some_2 chs i ltac:(rewrite (ri_len _ _ I); lia)) as [ch Hch]. destruct (ri_ring _ _ I i ch Hch) as (Hbit & HL & HF). destruct (ri_hdr _ _ I i Hi) as [DB HB0].
  assert (HPch : forall j c, chs !! j = Some c -> P ∉ c) by (intros j c Hc Hin; pose proof (ring_member M chs j c P HP Hc Hin); congruence).
  set (B := hdr m i) in *. set (g := heads_of_space m).
  set (F := if decide (ch = []) then B else tc_fd (g B)).
  assert (HFin : F = B /\ ch = [] \/ F ∈ ch /\ ch <> [] /\ F = tc_fd (g B)).
  { unfold F. destruct (decide (ch = [])) as [->|Hne]; [by left|right]. destruct (ring_next _ _ _ (HL Hne)) as (rest & ER & _). split; [|done]. destruct ch; [done|]. injection ER as E _. fold g in E. rewrite <- E. by left. }
  assert (DF : is_Some (read m F)). { destruct HFin as [[-> _]|(Hin & _)]; [done|]. rewrite Forall_forall in HF. by destruct (HF F Hin) as [(? & _) _]. }
  set (mb := if decide (ch = []) then mark_smallmap (Z.of_nat i) m else m).
  assert (Hmb : space_is mb mb g /\ read mb = read m) by (unfold mb; destruct (decide (ch = [])); [split; [apply mark_small_is, space_is_self|done]|split; [apply space_is_self|done]]).
  destruct Hmb as [HM0 HRb].
  destruct (insert_small_mem mb mb g P B F HM0) as (m' & Em & HM'); [rewrite HRb; apply HG|by rewrite HRb|by rewrite HRb|].
  set (g' := fupd P _ _) in HM'. assert (HPB : P <> B) by (by apply Hh). assert (HPF : P <> F) by (destruct HFin as [[-> _]|(Hin & _)]; [done|intros ->; by apply (HPch i ch)]).
  assert (GP : tc_fd (g' P) = F /\ tc_bk (g' P) = B) by (unfold g'; by rewrite !fupd_eq).
  assert (GB : tc_fd (g' B) = P) by (unfold g', fupd; repeat destruct (decide _); (done || congruence)).
  assert (GF : tc_bk (g' F) = P) by (unfold g', fupd; repeat destruct (decide _); (done || congruence)).
  assert (Gfd : forall b, b <> P -> b <> B -> tc_fd (g' b) = tc_fd (g b)) by (intros b ??; unfold g', fupd; repeat destruct (decide _); (done || congruence)).
  assert (Gbk : forall b, b <> P -> b <> F -> tc_bk (g' b) = tc_bk (g b)) by (intros b ??; unfold g', fupd; repeat destruct (decide _); (done || congruence)).
  assert (GN : forall b, b <> P -> b <> B -> b <> F -> g' b = g b) by (intros b ???; unfold g'; by rewrite !fupd_ne).
  assert (Gt : forall b, tags (g' b) = tags (heads_of_space mb b)).
  { intros b. unfold g'. rewrite !fupd_tags by done. unfold mb, g. by destruct (decide (ch = [])). }
  clearbody g'. pose proof (space_eff mb m' g' HM' Gt) as Heff0.
  assert (Heff : small_eff m m') by (revert Heff0; unfold mb; destruct (decide (ch = [])); [|done]; intros [E0 K0]; split; [rewrite E0 at 1; by destruct m|done]).
  destruct HM' as [[Hv _ _] HR']. exists m'. split.
  { unfold insert_small_chunk. rewrite EI. change (smallbin_at m (Z.of_nat i)) with B. rewrite (proj2 (Z.leb_le _ _)) by (change MIN_CHUNK_SIZE with 32; lia). cbn [guard_].
    rewrite small_marked, Hbit by lia. unfold mb, F in Em. destruct (decide (ch = [])) as [E|Hne].
    - rewrite bool_decide_true by done. cbn [negb mbind option_bind]. exact Em.
    - rewrite bool_decide_false by done. cbn [negb]. rewrite (space_read m m g B (space_is_self m) DB). cbn [mbind option_bind].
      destruct HFin as [[_ ?]|(Hin & _ & EF)]; [done|]. rewrite Forall_forall in HF. destruct (HF F Hin) as [(_ & Hok & _) _]. rewrite <- EF, Hok. cbn [guard_ mbind option_bind]. rewrite <- EF in Em. exact Em. }
  assert (HS' : ring_step m m' i ch (P :: ch) P).
  { split.
    - destruct Heff as [-> _]. done.
    - intros b. by apply small_eff_good.
    - intros b [c Hc]. destruct Heff as [_ K]. specialize (K b). unfold read in *. rewrite Hc in K. destruct (chunks (core m') !! b); [eauto|done].
    - rewrite bool_decide_false by done. cbn [negb]. rewrite HR'. change (smallmap (with_core (core m') mb)) with (smallmap mb). unfold mb. destruct (decide (ch = [])) as [E|Hne].
      + cbn [mark_smallmap with_smallmap smallmap]. apply mark_bits; [lia|apply I].
      + split; [apply I|]. split; [rewrite Hbit; by rewrite bool_decide_false|done].
    - intros _. apply (links_ext g'); [intros x _; by rewrite <- Hv|intros x _; by rewrite <- Hv|]. destruct HFin as [[EF Ech]|(Hin & Hne & EF)].
      + rewrite Ech. cbn. destruct GP as [-> ->]. rewrite EF in *. done.
      + assert (HPb : forall b, b ∈ B :: ch -> b <> P) by (intros b Hb ->; apply elem_of_cons in Hb as [?|?]; [done|by apply (HPch i ch)]).
        apply (ring_insert_links g g' B P ch); rewrite <- ?EF; [by apply HL| |done|by destruct GP|by destruct GP|done|intros b Hb; by apply Gfd, HPb|intros b Hb; by apply Gbk, HPb].
        apply NoDup_cons. split; [intros Hx; by apply (HPb P Hx)|]. apply NoDup_cons. split; [by apply (hdr_not_in m chs)|by apply (ring_nodup m chs i)].
    - intros b Hb. rewrite !elem_of_cons in Hb. etrans; [apply Hv|]. apply GN; [tauto|tauto|]. intros ->. destruct HFin as [[EF _]|(Hin & _)]; [rewrite EF in Hb|]; tauto.
    - intros b. by apply small_eff_size. }
  destruct (one_ring chs i ch Hch) as (rest & Eins & Eall & _).
  assert (Ee : small_elems (<[i := P :: ch]> chs) ≡ₚ (P, S) :: small_elems chs) by (rewrite Eins, Eall, Ei; done).
  split; [done| |].
  - exists (<[i := P :: ch]> chs). split; [|split; [rewrite Ee, map_to_list_insert by done; by rewrite HP|]].
    + apply (ring_step_inv m m' i ch (P :: ch) P); try done.
      * apply Forall_cons. split; [split; [done|lia]|done].
      * intros j c _ Hc. by apply (HPch j).
      * rewrite Ee. cbn. apply NoDup_cons. split; [|apply I]. intros ([a s] & -> & Hin)%list_elem_of_fmap. rewrite HP in Hin. apply elem_of_map_to_list in Hin. cbn in *. congruence.
      * intros x Hx. apply elem_of_cons in Hx. tauto.
    + intros a s Ha. apply lookup_insert_Some in Ha as [[<- <-]|[_ Ha]]; [done|by apply (Hsz a)].
  - intros b Hb Hne Hbh. etrans; [apply Hv|]. apply GN; [done|by apply Hbh|]. intros ->. destruct HFin as [[EF _]|(Hin & _)]; [by apply (Hbh i Hi)|].
    pose proof (ring_member M chs i ch F HP Hch Hin). congruence.
Qed.

(** ** Removal *)
(** The neighbours of a chunk in its ring. *)
Lemma ring_place m M P S : small_bins m M -> M !! P = Some S -> exists chs i c1 c2 p0 B F rest,
  rings_inv m chs /\ small_elems chs ≡ₚ map_to_list M /\ chs !! i = Some (c1 ++ P :: c2) /\ S = 8 * Z.of_nat i /\ (i < 32)%nat /\ good (core m) P /\
  chunksize (heads_of_space m P) = S /\ hdr m i :: c1 = p0 ++ [B] /\ c2 ++ [hdr m i] = F :: rest /\
  tc_bk (heads_of_space m P) = B /\ tc_fd (heads_of_space m P) = F /\ P <> B /\ P <> F /\
  links (ring_remove_mem B F (heads_of_space m)) (hdr m i :: (c1 ++ c2) ++ [hdr m i]) /\ (F = B -> c1 = [] /\ c2 = []) /\
  (forall x, x ∈ hdr m i :: c1 ++ P :: c2 -> is_Some (read m x) /\ (x = hdr m i \/ ok_address (core m) x = true)).
Proof.
  intros (chs & I & HP & Hsz) HM. assert (Hin : (P, S) ∈ small_elems chs) by (rewrite HP; by apply elem_of_map_to_list).
  apply in_rings in Hin as (i & ch & Hch & Hin & ES). apply list_elem_of_split in Hin as (c1 & c2 & ->). assert (Hi : (i < 32)%nat) by (apply lookup_lt_Some in Hch; rewrite (ri_len _ _ I) in Hch; lia).
  destruct (ri_ring _ _ I i _ Hch) as (_ & HL & HF). specialize (HL ltac:(by destruct c1)). destruct (last_of (hdr m i) c1) as (p0 & B & E1). destruct (first_of (hdr m i) c2) as (F & rest & E2).
  assert (Hd : NoDup (hdr m i :: c1 ++ P :: c2)) by (apply NoDup_cons; split; [by apply (hdr_not_in m chs)|by apply (ring_nodup m chs i)]).
  destruct (ring_remove_inner _ _ _ _ _ _ _ _ _ HL Hd E1 E2) as (HL' & EB & EF & HPB). rewrite Forall_forall in HF. destruct (HF P ltac:(set_solver)) as [GP SP].
  apply NoDup_cons in Hd as [Hnh Hd]. apply NoDup_app in Hd as (Hd1 & Hd12 & Hd2). apply NoDup_cons in Hd2 as [HnP Hd2].
  assert (HBin : B ∈ hdr m i :: c1) by (rewrite E1; set_solver). assert (HFin : F ∈ c2 ++ [hdr m i]) by (rewrite E2; by left).
  exists chs, i, c1, c2, p0, B, F, rest. split_and!; try done; try lia.
  - intros ->. apply elem_of_app in HFin as [?|Hs%list_elem_of_singleton]; [done|]. apply Hnh, elem_of_app. right. rewrite <- Hs. by left.
  - intros ->. apply elem_of_app in HFin as [HFin|HFin%list_elem_of_singleton].
    + exfalso. apply elem_of_cons in HBin as [->|HBin]; [set_solver|]. apply (Hd12 B HBin). by right.
    + subst B. split.
      * destruct c1 as [|y c1] using rev_ind; [done|]. rewrite app_comm_cons in E1. apply app_inj_tail in E1 as [_ ->]. set_solver.
      * destruct c2 as [|y c2]; [done|]. injection E2 as -> _. set_solver.
  - intros x Hx. apply elem_of_cons in Hx as [->|Hx]; [split; [by apply (ri_hdr _ _ I)|by left]|]. destruct (HF x Hx) as [(D & Hok & _) _]. split; [done|by right].
Qed.

Lemma clear_small_is m g i : space_is m m g -> space_is (clear_smallmap i m) (clear_smallmap i m) g.
Proof. intros [H _]. split; [exact H|by destruct m]. Qed.

(** Both removals do this to the bins, whatever the order of their writes. *)
Lemma removed_step m M P S chs i c1 c2 m' B F : small_bins m M -> M !! P = Some S -> rings_inv m chs -> small_elems chs ≡ₚ map_to_list M ->
  chs !! i = Some (c1 ++ P :: c2) -> S = 8 * Z.of_nat i -> (i < 32)%nat -> B ∈ hdr m i :: c1 -> F ∈ c2 ++ [hdr m i] ->
  (c1 ++ c2 = [] /\ m' = clear_smallmap (Z.of_nat i) m \/
   c1 ++ c2 <> [] /\ links (ring_remove_mem B F (heads_of_space m)) (hdr m i :: (c1 ++ c2) ++ [hdr m i]) /\
   exists g', space_is m m' g' /\ forall b, g' b = ring_remove_mem B F (heads_of_space m) b) ->
  small_step m m' M (delete P M) P.
Proof.
  intros HB HM I HP Hch ES Hi HBin HFin Hcase. destruct HB as (_ & _ & _ & Hsz). set (g := heads_of_space m) in *.
  destruct (one_ring chs i _ Hch) as (rest & Eins & Eall & Hrest).
  assert (Ee : small_elems chs ≡ₚ (P, S) :: small_elems (<[i := c1 ++ c2]> chs)).
  { rewrite Eins, Eall. unfold ring_elems. rewrite !fmap_app. cbn. rewrite <- ES. solve_Permutation. }
  assert (Hv : forall b, heads_of_space m' b = (if decide (c1 ++ c2 = []) then g b else ring_remove_mem B F g b)).
  { intros b. destruct Hcase as [[E ->]|(Hne & _ & g' & [[Hv _ _] _] & Hg)]; [by rewrite decide_True|]. rewrite decide_False by done. rewrite <- Hg. apply Hv. }
  assert (Heff : small_eff m m').
  { destruct Hcase as [[E ->]|(Hne & _ & g' & HS & Hg)]; [split; [by destruct m as [? []]|by intros b]|]. apply (space_eff m m' g' HS). intros b. rewrite Hg. unfold ring_remove_mem. by rewrite !fupd_tags. }
  assert (GN : forall b, b ∉ hdr m i :: P :: c1 ++ P :: c2 -> heads_of_space m' b = g b).
  { intros b Hb. rewrite Hv. destruct (decide _); [done|]. rewrite !elem_of_cons, elem_of_app, elem_of_cons in Hb. rewrite elem_of_cons in HBin.
    rewrite elem_of_app, list_elem_of_singleton in HFin. apply ring_remove_same; intros ->; tauto. }
  assert (HS : ring_step m m' i (c1 ++ P :: c2) (c1 ++ c2) P).
  { split.
    - destruct Heff as [-> _]. done.
    - intros b. by apply small_eff_good.
    - intros b [c Hc]. destruct Heff as [_ K]. specialize (K b). unfold read in *. rewrite Hc in K. destruct (chunks (core m') !! b); [eauto|done].
    - destruct Hcase as [[E ->]|(Hne & _ & g' & [_ ->] & Hg)].
      + rewrite bool_decide_true by done. cbn [negb clear_smallmap with_smallmap smallmap]. apply clear_bits; [lia|apply I].
      + rewrite bool_decide_false by done. change (smallmap (with_core _ m)) with (smallmap m). split; [apply I|]. split; [|done].
        destruct (ri_ring _ _ I i _ Hch) as (-> & _). rewrite bool_decide_false; [done|]. by destruct c1.
    - intros Hne. destruct Hcase as [[E _]|(_ & HL & _)]; [done|]. revert HL. apply links_ext; intros x _; rewrite Hv; by rewrite decide_False.
    - exact GN.
    - intros b. by apply small_eff_size. }
  split; [done| |].
  - exists (<[i := c1 ++ c2]> chs). split; [|split].
    + pose proof (ri_nodup _ _ I) as Hn. rewrite Ee in Hn. cbn in Hn. apply NoDup_cons in Hn as [HnP Hn]. destruct (ri_ring _ _ I i _ Hch) as (_ & _ & HF).
      apply (ring_step_inv m m' i (c1 ++ P :: c2) (c1 ++ c2) P); try done.
      * apply Forall_app in HF as [HF1 HF2]. apply Forall_cons in HF2 as [_ HF2]. by apply Forall_app.
      * intros j c Hne Hc Hin. apply HnP. rewrite Eins. apply list_elem_of_fmap. exists (P, 8 * Z.of_nat j). split; [done|]. apply elem_of_app. right. by eapply Hrest.
      * intros j Hj. apply (ri_apart _ _ I j); [done|]. rewrite Ee. by left.
      * intros x Hx. right. rewrite elem_of_app, elem_of_cons. apply elem_of_app in Hx. tauto.
    + apply (Permutation_cons_inv (a := (P, S))). rewrite <- Ee, HP. symmetry. by apply map_to_list_delete.
    + intros a s Ha. apply lookup_delete_Some in Ha as [_ Ha]. by apply (Hsz a).
  - intros b Hb Hne Hbh. apply GN. rewrite !elem_of_cons. intros [->|[->|Hin]]; [by apply (Hbh i)|done|]. pose proof (ring_member M chs i _ b HP Hch Hin). congruence.
Qed.

Lemma app_nil_iff {A} (l1 l2 : list A) : l1 ++ l2 = [] <-> l1 = [] /\ l2 = [].
Proof. split; [apply app_eq_nil|by intros [-> ->]]. Qed.

Lemma small_unlink m M P S : small_bins m M -> M !! P = Some S -> exists m', unlink_small_chunk P S m = Some m' /\ small_step m m' M (delete P M) P.
Proof.
  intros HB HM. destruct (ring_place m M P S HB HM) as (chs & i & c1 & c2 & p0 & B & F & rest & I & HP & Hch & ES & Hi & GP & SP & E1 & E2 & EB & EF & HPB & HPF & HL & Hone & Hall).
  destruct (small_index_eq S i ES Hi) as [EI E8]. assert (HBin : B ∈ hdr m i :: c1) by (rewrite E1; apply elem_of_app; right; by left).
  assert (HFin : F ∈ c2 ++ [hdr m i]) by (rewrite E2; by left).
  assert (HB' : B ∈ hdr m i :: c1 ++ P :: c2) by (rewrite elem_of_cons, elem_of_app; apply elem_of_cons in HBin; tauto).
  assert (HF' : F ∈ hdr m i :: c1 ++ P :: c2) by (rewrite elem_of_cons, elem_of_app, elem_of_cons; rewrite elem_of_app, list_elem_of_singleton in HFin; tauto).
  destruct (Hall B HB') as [DB okB]. destruct (Hall F HF') as [DF okF].
  assert (Hok : ((F =? hdr m i) || ok_address (core m) F) && ((B =? hdr m i) || ok_address (core m) B) = true).
  { apply andb_true_iff. split; apply orb_true_iff; rewrite Z.eqb_eq; tauto. }
  unfold unlink_small_chunk. rewrite (space_read m m _ P (space_is_self m) (proj1 GP)). cbn [mbind option_bind]. rewrite EB, EF, SP, EI, E8, Z.eqb_refl.
  rewrite (proj2 (Z.eqb_neq P B)), (proj2 (Z.eqb_neq P F)) by done. cbn [negb andb guard_]. change (smallbin_at m (Z.of_nat i)) with (hdr m i). rewrite Hok. cbn [guard_].
  destruct (Z.eqb_spec F B) as [E|E].
  - eexists. split; [done|]. apply (removed_step m M P S chs i c1 c2 _ B F); try done. left. split; [by apply app_nil_iff, Hone|done].
  - pose proof (space_is_self m) as HM0. run_write HM0 DF. run_write HM0 DB. eexists. split; [done|]. apply (removed_step m M P S chs i c1 c2 _ B F); try done. right.
    split; [|split; [done|by eexists]]. intros [-> ->]%app_nil_iff. apply E. cbn in E2. injection E2 as <- _. destruct p0 as [|? []]; [by injection E1|by injection E1|done].
Qed.

(** The first chunk of a bin that is marked. *)
Lemma small_unlink_first m M i : small_bins m M -> (i < 32)%nat -> Z.testbit (smallmap m) (Z.of_nat i) = true -> let P := tc_fd (heads_of_space m (hdr m i)) in
  read m (hdr m i) = Some (heads_of_space m (hdr m i)) /\ M !! P = Some (8 * Z.of_nat i) /\
  exists m', unlink_first_small_chunk (hdr m i) P (Z.of_nat i) m = Some m' /\ small_step m m' M (delete P M) P.
Proof.
  intros HB Hi Hbit P. pose proof HB as (chs0 & I0 & HP0 & _). destruct (lookup_lt_is_Some_2 chs0 i ltac:(rewrite (ri_len _ _ I0); lia)) as [ch Hch].
  destruct (ri_ring _ _ I0 i ch Hch) as (Hbit' & HL0 & _). rewrite Hbit in Hbit'. assert (Hne : ch <> []) by (intros ->; by rewrite bool_decide_true in Hbit').
  destruct (ring_next _ _ _ (HL0 Hne)) as (rest0 & ER & EBk). fold P in ER, EBk. assert (HPin : P ∈ ch) by (destruct ch; [done|]; injection ER as <- _; by left).
  pose proof (ring_member M chs0 i ch P HP0 Hch HPin) as HM. split; [apply (space_read m m _ _ (space_is_self m)), (ri_hdr _ _ I0); done|]. split; [done|].
  destruct (ring_place m M P _ HB HM) as (chs & j & c1 & c2 & p0 & B & F & rest & I & HP & Hchj & ES & _ & GP & SP & E1 & E2 & EB & EF & HPB & HPF & HL & Hone & Hall).
  assert (j = i) as -> by lia. rewrite EBk in EB. subst B.
  assert (HFin : F ∈ c2 ++ [hdr m i]) by (rewrite E2; by left).
  assert (HF' : F ∈ hdr m i :: c1 ++ P :: c2) by (rewrite elem_of_cons, elem_of_app, elem_of_cons; rewrite elem_of_app, list_elem_of_singleton in HFin; tauto).
  destruct (Hall F HF') as [DF okF]. destruct (small_index_eq _ i eq_refl Hi) as [_ E8]. destruct (ri_hdr _ _ I i Hi) as [DB _].
  unfold unlink_first_small_chunk. rewrite (space_read m m _ P (space_is_self m) (proj1 GP)). cbn [mbind option_bind]. rewrite EF, SP, E8, Z.eqb_refl.
  rewrite (proj2 (Z.eqb_neq P (hdr m i))), (proj2 (Z.eqb_neq P F)) by done. cbn [negb andb guard_].
  destruct (Z.eqb_spec (hdr m i) F) as [E|E].
  - eexists. split; [done|]. apply (removed_step m M P (8 * Z.of_nat i) chs i c1 c2 _ (hdr m i) F); try done; [by left|]. left. split; [by apply app_nil_iff, Hone|done].
  - destruct okF as [?|okF]; [done|]. rewrite okF. cbn [guard_]. pose proof (space_is_self m) as HM0. run_write HM0 DB. run_write HM0 DF. eexists. split; [done|].
    apply (removed_step m M P (8 * Z.of_nat i) chs i c1 c2 _ (hdr m i) F); try done; [by left|]. right. split; [|split; [done|eexists; split; [exact HM0|]]].
    + intros [-> ->]%app_nil_iff. apply E. cbn in E2. by injection E2.
    + intros b. unfold ring_remove_mem, fupd. by repeat destruct (decide _).
Qed.
