(* ===== verification/DlSpace.v ===== *)
(** The operations of a memory space, include/memory/malloc.c.h: [mspace_malloc] and
    [mspace_free] with their boundary tags, the designated victim and the top chunk.

    The macros on heads and feet write single words; a word that is in no region of
    the system is no memory, and a write to it gives [None]. A request that the space
    cannot satisfy is handed to the system, and a chunk freed may ask for memory to be
    given back: these ends of the operations are results here, and [DlSystem] goes on
    with them. *)
From stdpp Require Import gmap.
From S2P Require Import Prelude DlBins DlTree DlUnlink DlFit DlSmall.
Local Open Scope Z_scope.

(** ** Heads and feet *)
Definition PINUSE_BIT : Z := 1.
Definition CINUSE_BIT : Z := 2.
Definition INUSE_BITS : Z := Z.lor PINUSE_BIT CINUSE_BIT.
Definition FENCEPOST_HEAD : Z := Z.lor INUSE_BITS 8.
Definition pinuse (c : tchunk) : bool := negb (Z.land (tc_head c) PINUSE_BIT =? 0).
Definition cinuse (c : tchunk) : bool := negb (Z.land (tc_head c) CINUSE_BIT =? 0).
Definition is_inuse (c : tchunk) : bool := negb (Z.land (tc_head c) INUSE_BITS =? PINUSE_BIT).
Definition is_mmapped (c : tchunk) : bool := Z.land (tc_head c) INUSE_BITS =? 0.
Definition chunk2mem (p : Z) : Z := p + 16.
Definition mem2chunk (mem : Z) : Z := mem - 16.

Definition set_head (v : Z) (c : tchunk) : tchunk := TChunk (tc_prev_foot c) v (tc_fd c) (tc_bk c) (tc_child0 c) (tc_child1 c) (tc_parent c) (tc_index c).
Definition set_prev_foot (v : Z) (c : tchunk) : tchunk := TChunk v (tc_head c) (tc_fd c) (tc_bk c) (tc_child0 c) (tc_child1 c) (tc_parent c) (tc_index c).
(** The word at [a] is memory of the space. *)
Definition mapped (m : mspace) (a : Z) : bool := existsb (fun r => (r.1 <=? a) && (a + 8 <=? r.2)) (maps m ++ direct m).
Definition put (a : Z) (f : tchunk -> tchunk) (m : mspace) : mspace :=
  with_core (with_chunks (<[a := f (chunks (core m) !!! a)]> (chunks (core m))) (core m)) m.
Definition put_foot (a v : Z) (m : mspace) : option mspace := guard_ (mapped m a) (Some (put a (set_prev_foot v) m)).
(** The words of heads have 64 bits. *)
Definition put_head (a : Z) (f : Z -> Z) (m : mspace) : option mspace := guard_ (mapped m (a + 8)) (Some (put a (fun c => set_head (f (tc_head c)) c) m)).

Definition footer (m : mspace) : Z := Z.lxor (ms_at m) (magic m).
Definition mark_inuse_foot (p s : Z) (m : mspace) : option mspace := put_foot (p + s) (footer m) m.
Definition set_inuse_and_pinuse (p s : Z) (m : mspace) : option mspace :=
  m ← put_head p (fun _ => Z.lor (Z.lor s PINUSE_BIT) CINUSE_BIT) m;
  m ← put_head (p + s) (fun h => Z.lor h PINUSE_BIT) m;
  mark_inuse_foot p s m.
Definition set_size_and_pinuse_of_inuse_chunk (p s : Z) (m : mspace) : option mspace :=
  m ← put_head p (fun _ => Z.lor (Z.lor s PINUSE_BIT) CINUSE_BIT) m;
  mark_inuse_foot p s m.
Definition set_size_and_pinuse_of_free_chunk (p s : Z) (m : mspace) : option mspace :=
  m ← put_head p (fun _ => Z.lor s PINUSE_BIT) m;
  put_foot (p + s) s m.
Definition set_free_with_pinuse (p s n : Z) (m : mspace) : option mspace :=
  m ← put_head n (fun h => Z.land h (u64 (Z.lnot PINUSE_BIT))) m;
  set_size_and_pinuse_of_free_chunk p s m.

(** ** Segments *)
Definition USE_MMAP_BIT : Z := 1.
Definition EXTERN_BIT : Z := 8.
Definition is_mmapped_segment (s : segment) : bool := negb (Z.land (seg_flags s) USE_MMAP_BIT =? 0).
Definition is_extern_segment (s : segment) : bool := negb (Z.land (seg_flags s) EXTERN_BIT =? 0).
Definition USE_LOCK_BIT : Z := 2.
Definition USE_NONCONTIGUOUS_BIT : Z := 4.
Definition segment_holds (s : segment) (a : Z) : bool := (seg_base s <=? a) && (a <? seg_base s + seg_size s).

(** ** Bins and victim *)
Definition insert_chunk (p s : Z) (m : mspace) : option mspace :=
  if is_small s then insert_small_chunk p s m else on_core (insert_large_chunk p s) m.
Definition unlink_chunk (p s : Z) (m : mspace) : option mspace :=
  if is_small s then unlink_small_chunk p s m else on_core (unlink_large_chunk p) m.
Definition replace_dv (p s : Z) (m : mspace) : option mspace :=
  m ← (if negb (dvsize m =? 0) then guard_ (is_small (dvsize m)) (insert_small_chunk (dv m) (dvsize m) m) else Some m);
  Some (with_dv p s m).

(** ** [mspace_malloc] *)
Inductive found := Mem (mem : Z) | FromSystem (nb : Z).

(** A chunk of [size] bytes found for [nb], with the remainder to [rest]. *)
Definition tmalloc_small (nb : Z) (m : mspace) : option (mspace * Z) :=
  '(v, rsize) ← tmalloc_small_find nb (core m);
  c ← read m v;
  guard_ (ok_address (core m) v) (
  let r := v + nb in
  guard_ (chunksize c =? rsize + nb) (
  guard_ (v <? r) (
  m ← on_core (unlink_large_chunk v) m;
  m ← (if rsize <? MIN_CHUNK_SIZE then set_inuse_and_pinuse v (rsize + nb) m
       else
         m ← set_size_and_pinuse_of_inuse_chunk v nb m;
         m ← set_size_and_pinuse_of_free_chunk r rsize m;
         replace_dv r rsize m);
  Some (m, chunk2mem v)))).

(** Zero when the designated victim fits better, or nothing fits. *)
Definition tmalloc_large (nb : Z) (m : mspace) : option (mspace * Z) :=
  '(v, rsize) ← tmalloc_large_find nb (core m);
  if negb (v =? 0) && (rsize <? u64 (dvsize m - nb)) then
    guard_ (ok_address (core m) v) (
    c ← read m v;
    let r := v + nb in
    guard_ (chunksize c =? rsize + nb) (
    guard_ (v <? r) (
    m ← on_core (unlink_large_chunk v) m;
    m ← (if rsize <? MIN_CHUNK_SIZE then set_inuse_and_pinuse v (rsize + nb) m
         else
           m ← set_size_and_pinuse_of_inuse_chunk v nb m;
           m ← set_size_and_pinuse_of_free_chunk r rsize m;
           insert_chunk r rsize m);
    Some (m, chunk2mem v))))
  else Some (m, 0).

(** From the designated victim, or from the top chunk. *)
Definition malloc_from_top (nb : Z) (m : mspace) : option (mspace * found) :=
  if nb <? topsize m then
    let rsize := topsize m - nb in
    let p := top m in
    let r := p + nb in
    let m := with_top r rsize m in
    m ← put_head r (fun _ => Z.lor rsize PINUSE_BIT) m;
    m ← set_size_and_pinuse_of_inuse_chunk p nb m;
    Some (m, Mem (chunk2mem p))
  else Some (m, FromSystem nb).
Definition malloc_from_dv (nb : Z) (m : mspace) : option (mspace * found) :=
  if nb <=? dvsize m then
    let rsize := dvsize m - nb in
    let p := dv m in
    m ← (if MIN_CHUNK_SIZE <=? rsize then
           let r := p + nb in
           let m := with_dv r rsize m in
           m ← set_size_and_pinuse_of_free_chunk r rsize m;
           set_size_and_pinuse_of_inuse_chunk p nb m
         else
           let dvs := dvsize m in
           let m := with_dv 0 0 m in
           set_inuse_and_pinuse p dvs m);
    Some (m, Mem (chunk2mem p))
  else malloc_from_top nb m.

(** From the small bin [idx], or the one behind it, which holds a chunk of exactly this
    size; or from the next small bin that is not empty. *)
Definition malloc_exact (idx : Z) (m : mspace) : option (mspace * found) :=
  let b := smallbin_at m idx in
  c ← read m b;
  let p := tc_fd c in
  m ← unlink_first_small_chunk b p idx m;
  m ← set_inuse_and_pinuse p (small_index2size idx) m;
  Some (m, Mem (chunk2mem p)).
Definition malloc_next_bin (idx nb : Z) (m : mspace) : option (mspace * found) :=
  i ← next_small_bin idx (smallmap m);
  let b := smallbin_at m i in
  c ← read m b;
  let p := tc_fd c in
  m ← unlink_first_small_chunk b p i m;
  let rsize := u64 (small_index2size i - nb) in
  m ← (if rsize <? MIN_CHUNK_SIZE then set_inuse_and_pinuse p (small_index2size i) m
       else
         m ← set_size_and_pinuse_of_inuse_chunk p nb m;
         let r := p + nb in
         m ← set_size_and_pinuse_of_free_chunk r rsize m;
         replace_dv r rsize m);
  Some (m, Mem (chunk2mem p)).

Definition malloc_small (bytes : Z) (m : mspace) : option (mspace * found) :=
  let nb := request2size bytes in
  let idx := small_index nb in
  let smallbits := Z.shiftr (smallmap m) idx in
  if negb (Z.land smallbits 3 =? 0) then malloc_exact (idx + Z.land (u32 (Z.lnot smallbits)) 1) m
  else if dvsize m <? nb then
    if negb (smallbits =? 0) then malloc_next_bin idx nb m
    else if negb (treemap (core m) =? 0) then
      '(m, mem) ← tmalloc_small nb m;
      if negb (mem =? 0) then Some (m, Mem mem) else malloc_from_dv nb m
    else malloc_from_dv nb m
  else malloc_from_dv nb m.

Definition MAX_SIZE_T : Z := 2 ^ 64 - 1.
Definition malloc_large (bytes : Z) (m : mspace) : option (mspace * found) :=
  let nb := pad_request bytes in
  if negb (treemap (core m) =? 0) then
    '(m, mem) ← tmalloc_large nb m;
    if negb (mem =? 0) then Some (m, Mem mem) else malloc_from_dv nb m
  else malloc_from_dv nb m.
Definition malloc_inside (bytes : Z) (m : mspace) : option (mspace * found) :=
  if bytes <=? MAX_SMALL_REQUEST then malloc_small bytes m
  else if MAX_REQUEST <=? bytes then malloc_from_dv MAX_SIZE_T m
  else malloc_large bytes m.

(** ** [mspace_free] *)
(** What is left to do after a chunk was freed: nothing, to trim the top, or to look for
    segments without chunks in use. *)
Inductive after := Nothing | TrimTop | ReleaseSegments.
Definition should_trim (m : mspace) (s : Z) : bool := trim_check m <? s.

Definition with_release_checks (v : Z) (m : mspace) : mspace :=
  MSpace (ms_at m) (core m) (smallmap m) (dvsize m) (topsize m) (dv m) (top m) (trim_check m) v (magic m) (footprint m) (max_footprint m) (mflags m) (segs m) (maps m) (direct m).

(** Into a bin. *)
Definition free_to_bin (p psize : Z) (m : mspace) : option (mspace * after) :=
  if is_small psize then m ← insert_small_chunk p psize m; Some (m, Nothing)
  else
    m ← on_core (insert_large_chunk p psize) m;
    let n := u64 (release_checks m - 1) in
    let m := with_release_checks n m in
    Some (m, if n =? 0 then ReleaseSegments else Nothing).

(** Consolidate with the chunk behind, or with the top chunk or the designated victim. *)
Definition free_forward (p psize next : Z) (m : mspace) : option (mspace * after) :=
  n ← read m next;
  guard_ ((p <? next) && pinuse n) (
  if negb (cinuse n) then
    if next =? top m then
      let tsize := topsize m + psize in
      let m := with_top p tsize m in
      m ← put_head p (fun _ => Z.lor tsize PINUSE_BIT) m;
      let m := if p =? dv m then with_dv 0 0 m else m in
      Some (m, if should_trim m tsize then TrimTop else Nothing)
    else if next =? dv m then
      let dsize := dvsize m + psize in
      let m := with_dv p dsize m in
      m ← set_size_and_pinuse_of_free_chunk p dsize m;
      Some (m, Nothing)
    else
      let nsize := chunksize n in
      let psize := psize + nsize in
      m ← unlink_chunk next nsize m;
      m ← set_size_and_pinuse_of_free_chunk p psize m;
      if p =? dv m then Some (with_dv p psize m, Nothing)
      else free_to_bin p psize m
  else
    m ← set_free_with_pinuse p psize next m;
    free_to_bin p psize m).

(** Consolidate with the chunk before. A chunk the system has mapped for itself is given
    back, [FreeMapped]. *)
Inductive freed := FreeDone (a : after) | FreeMapped (base size : Z).
Definition free_inside (mem : Z) (m : mspace) : option (mspace * freed) :=
  let p := mem2chunk mem in
  c ← read m p;
  let psize := chunksize c in
  f ← read m (p + psize);
  (* get_mstate_for(p): the space of the chunk is this one *)
  guard_ (Z.lxor (tc_prev_foot f) (magic m) =? ms_at m) (
  guard_ (ok_address (core m) p && is_inuse c) (
  let next := p + psize in
  let forward p psize m := '(m, a) ← free_forward p psize next m; Some (m, FreeDone a) in
  if negb (pinuse c) then
    let prevsize := tc_prev_foot c in
    if is_mmapped c then Some (m, FreeMapped (p - prevsize) (psize + prevsize + 32))
    else
      let prev := p - prevsize in
      let psize := psize + prevsize in
      guard_ (ok_address (core m) prev) (
      if negb (prev =? dv m) then
        m ← unlink_chunk prev prevsize m;
        forward prev psize m
      else if Z.land (tc_head f) INUSE_BITS =? INUSE_BITS then
        let m := with_dv (dv m) psize m in
        m ← set_free_with_pinuse prev psize next m;
        Some (m, FreeDone Nothing)
      else forward prev psize m)
  else forward p psize m)).

(** ** A new space *)
Definition sizeof_malloc_state : Z := 944.
Definition TOP_FOOT_SIZE : Z := align_offset (chunk2mem 0) + pad_request 32 + MIN_CHUNK_SIZE.
Definition MAX_RELEASE_CHECK_RATE : Z := 4095.

Definition init_top (p psize trim_threshold : Z) (m : mspace) : option mspace :=
  let offset := align_offset (chunk2mem p) in
  let p := p + offset in
  let psize := psize - offset in
  let m := with_top p psize m in
  m ← put_head p (fun _ => Z.lor psize PINUSE_BIT) m;
  m ← put_head (p + psize) (fun _ => TOP_FOOT_SIZE) m;
  Some (MSpace (ms_at m) (core m) (smallmap m) (dvsize m) (topsize m) (dv m) (top m) trim_threshold (release_checks m) (magic m)
    (footprint m) (max_footprint m) (mflags m) (segs m) (maps m) (direct m)).

(** The headers of the small bins, which the source keeps in the array [smallbins]. *)
Definition init_bins (m : mspace) : mspace :=
  foldl (fun m i => put (smallbin_at m i) (set_fd (smallbin_at m i)) (put (smallbin_at m i) (set_bk (smallbin_at m i)) m)) m (seqZ 0 32).

(** [init_user_mstate], for memory from [tbase] of [tsize] bytes; [flags] are
    [mparams.default_mflags]. *)
Definition init_user_mstate (tbase tsize magic_ flags trim_threshold : Z) : option mspace :=
  let msize := pad_request sizeof_malloc_state in
  let msp := tbase + align_offset (chunk2mem tbase) in
  let at_ := chunk2mem msp in
  let m := MSpace at_ (MState tbase (at_ + 600) 0 (replicate 32 0) ∅) 0 0 0 0 0 0 MAX_RELEASE_CHECK_RATE magic_ tsize tsize (Z.lor flags USE_NONCONTIGUOUS_BIT) [Segment (at_ + 880) tbase tsize 0]
    [(tbase, tbase + tsize)] [] in
  m ← put_head msp (fun _ => Z.lor msize INUSE_BITS) m;
  let m := init_bins m in
  let mn := msp + msize in
  init_top mn ((tbase + tsize) - mn - TOP_FOOT_SIZE) trim_threshold m.
