(* ===== verification/DlLayout.v ===== *)
(** The layout of a segment of a memory space: a run of chunks, each with its size and
    flags in its head, with the size of a free chunk repeated behind it and the mark of
    the space behind a chunk in use. No two free chunks are neighbours. *)
From stdpp Require Import gmap.
From S2P Require Import Prelude DlBins DlTree DlUnlink DlFit DlSmall DlSpace.
Local Open Scope Z_scope.
Implicit Types g : Z -> tchunk.

(** ** Flags *)
Lemma lor_flags s f : s mod 8 = 0 -> 0 <= f < 8 -> Z.lor s f = s + f.
Proof.
  intros Hs Hf. rewrite <- Z.lxor_lor, <- Z.add_nocarry_lxor; [done| |]; apply Z.bits_inj'; intros n Hn; rewrite Z.land_spec, Z.bits_0;
    (destruct (Z.lt_ge_cases n 3); [|rewrite (Z.bits_above_log2 f n), andb_false_r; [done|lia|]]);
    try (rewrite <- (Z.mod_pow2_bits_low s 3 n), (Hs : s mod 2 ^ 3 = 0), Z.bits_0 by lia; done);
    (destruct (Z.eq_dec f 0) as [->|]; [cbn; lia|apply Z.log2_lt_pow2; [lia|]; assert (2 ^ 3 <= 2 ^ n) by (apply Z.pow_le_mono_r; lia); lia]).
Qed.

Lemma head_bit s f n : s mod 8 = 0 -> 0 <= f < 8 -> 0 <= n < 3 -> Z.testbit (s + f) n = Z.testbit f n.
Proof.
  intros Hs Hf Hn. rewrite <- (Z.mod_pow2_bits_low (s + f) 3 n), <- (Z.mod_pow2_bits_low f 3 n) by lia. f_equal. change (2 ^ 3) with 8.
  rewrite Z.add_mod, Hs, Z.add_0_l, Z.mod_mod by lia. done.
Qed.

Lemma land_flags s f k : s mod 8 = 0 -> 0 <= f < 8 -> 0 <= k < 8 -> Z.land (s + f) k = Z.land f k.
Proof.
  intros Hs Hf Hk. apply Z.bits_inj'. intros n Hn. rewrite !Z.land_spec. destruct (Z.lt_ge_cases n 3); [by rewrite head_bit by lia|].
  rewrite (Z.bits_above_log2 k n), !andb_false_r; [done|lia|]. destruct (Z.eq_dec k 0) as [->|]; [cbn; lia|].
  apply Z.log2_lt_pow2; [lia|]. assert (2 ^ 3 <= 2 ^ n) by (apply Z.pow_le_mono_r; lia). lia.
Qed.

Lemma size_of_head c s f : tc_head c = s + f -> s mod 8 = 0 -> 0 <= f < 8 -> chunksize c = s.
Proof.
  intros E Hs Hf. unfold chunksize, FLAG_BITS. rewrite E. fold CHUNK_ALIGN_MASK. rewrite align_down.
  pose proof (Z.div_mod s 8 ltac:(lia)). replace ((s + f) / 8) with (s / 8) by (apply (Z.div_unique_pos _ _ _ f); lia). lia.
Qed.

(** ** Chunks *)
(** In use for the space itself (its record, the records of segments), in use for a caller,
    or free. *)
Inductive kind := KSys | KUsed | KFree.
#[global] Instance kind_eq_dec : EqDecision kind.
Proof. solve_decision. Defined.
Definition in_use (k : kind) : bool := match k with KFree => false | _ => true end.
Definition head_word (k : kind) (s : Z) (pin : bool) : Z := s + (Z.b2z pin + 2 * Z.b2z (in_use k)).

(** The run of chunks [bs] from [a] to [e]; [pin] says that the chunk before is in use,
    [pout] that the last one is; [ft] is the mark of the space. *)
Fixpoint lay g (ft : Z) (pin : bool) (a : Z) (bs : list (kind * Z)) (e : Z) (pout : bool) : Prop :=
  match bs with
  | [] => a = e /\ pin = pout
  | (k, s) :: bs =>
      (tc_head (g a) = head_word k s pin /\ s mod 8 = 0 /\ 32 <= s) /\
      match k with KSys => True | KUsed => tc_prev_foot (g (a + s)) = ft | KFree => pin = true /\ tc_prev_foot (g (a + s)) = s end /\
      lay g ft (in_use k) (a + s) bs e pout
  end.
Fixpoint total (bs : list (kind * Z)) : Z := match bs with [] => 0 | (_, s) :: bs => s + total bs end.

Lemma lay_end g ft pin a bs e pout : lay g ft pin a bs e pout -> e = a + total bs /\ 0 <= total bs /\ (total bs) mod 8 = 0.
Proof.
  revert pin a. induction bs as [|[k s] bs IH]; intros pin a; cbn [lay].
  - intros [-> _]. cbn. split_and!; (lia || done).
  - change (total ((k, s) :: bs)) with (s + total bs). intros ((_ & Hs & H32) & _ & H). destruct (IH _ _ H) as (-> & ? & Ht). split; [lia|]. split; [lia|]. rewrite Z.add_mod, Hs, Ht by lia. done.
Qed.

Lemma lay_app g ft pin a b1 b2 e pout : lay g ft pin a (b1 ++ b2) e pout <-> exists c q, lay g ft pin a b1 c q /\ lay g ft q c b2 e pout.
Proof.
  revert pin a. induction b1 as [|[k s] b1 IH]; intros pin a.
  - cbn [app]. split; [intros H; by exists a, pin|]. by intros (c & q & [-> ->] & H).
  - cbn [app lay]. rewrite IH. split.
    + intros (H1 & H2 & c & q & H3 & H4). exists c, q. done.
    + intros (c & q & (H1 & H2 & H3) & H4). split; [done|]. split; [done|]. by exists c, q.
Qed.

(** The tags that a run depends on: those of its addresses, and the foot at its end. *)
Lemma lay_agree g g' ft pin a bs e pout : (forall x, a <= x < e -> tags (g' x) = tags (g x)) -> tc_prev_foot (g' e) = tc_prev_foot (g e) ->
  lay g ft pin a bs e pout -> lay g' ft pin a bs e pout.
Proof.
  intros Ht He. revert pin a Ht. induction bs as [|[k s] bs IH]; intros pin a Ht; [done|]. cbn [lay]. intros ((Hh & H8 & H32) & Hk & HL).
  destruct (lay_end _ _ _ _ _ _ _ HL) as (Ee & H0 & _). assert (Eh : tags (g' a) = tags (g a)) by (apply Ht; lia). injection Eh as _ Eh. rewrite Eh.
  assert (Ef : tc_prev_foot (g' (a + s)) = tc_prev_foot (g (a + s))).
  { destruct (Z.eq_dec (a + s) e) as [->|]; [done|]. assert (E : tags (g' (a + s)) = tags (g (a + s))) by (apply Ht; lia). by injection E. }
  rewrite Ef. split; [done|]. split; [done|]. apply IH; [|done]. intros x Hx. apply Ht. lia.
Qed.

(** The first chunk of a run, in use, with another flag for the chunk before. *)
Lemma lay_repin g g' ft pin pin' a k s bs e pout : in_use k = true -> tc_head (g' a) = head_word k s pin' ->
  (forall x, a < x < e -> tags (g' x) = tags (g x)) -> tc_prev_foot (g' e) = tc_prev_foot (g e) ->
  lay g ft pin a ((k, s) :: bs) e pout -> lay g' ft pin' a ((k, s) :: bs) e pout.
Proof.
  intros Hk Hh Ht He ((_ & H8 & H32) & Hf & HL). destruct (lay_end _ _ _ _ _ _ _ HL) as (Ee & H0 & _).
  assert (Ef : tc_prev_foot (g' (a + s)) = tc_prev_foot (g (a + s))).
  { destruct (Z.eq_dec (a + s) e) as [->|]; [done|]. assert (E : tags (g' (a + s)) = tags (g (a + s))) by (apply Ht; lia). by injection E. }
  cbn [lay]. rewrite Ef. split; [done|]. split; [by destruct k|]. revert HL. apply lay_agree; [|done]. intros x Hx. apply Ht. lia.
Qed.

(** The chunks of a run with their addresses. *)
Fixpoint placed (a : Z) (bs : list (kind * Z)) : list (Z * kind * Z) :=
  match bs with [] => [] | (k, s) :: bs => (a, k, s) :: placed (a + s) bs end.

Lemma placed_app a b1 b2 : placed a (b1 ++ b2) = placed a b1 ++ placed (a + total b1) b2.
Proof. revert a. induction b1 as [|[k s] b1 IH]; intros a; cbn; [by rewrite Z.add_0_r|]. rewrite IH. do 3 f_equal. lia. Qed.

Lemma placed_split a bs x k s : (x, k, s) ∈ placed a bs -> exists b1 b2, bs = b1 ++ (k, s) :: b2 /\ x = a + total b1.
Proof.
  revert a. induction bs as [|[k' s'] bs IH]; intros a Hx; cbn in Hx; [by apply elem_of_nil in Hx|]. apply elem_of_cons in Hx as [E|Hx].
  - simplify_eq. exists [], bs. cbn. split; [done|lia].
  - destruct (IH _ Hx) as (b1 & b2 & -> & ->). exists ((k', s') :: b1), b2. cbn. split; [done|lia].
Qed.

(** Chunks of a run do not overlap. *)
Lemma placed_bounds g ft pin a bs e pout x k s : lay g ft pin a bs e pout -> (x, k, s) ∈ placed a bs -> a <= x /\ x + s <= e /\ 32 <= s /\ s mod 8 = 0.
Proof.
  intros HL Hx. destruct (placed_split _ _ _ _ _ Hx) as (b1 & b2 & -> & ->). apply lay_app in HL as (c & q & H1 & H2).
  destruct (lay_end _ _ _ _ _ _ _ H1) as (-> & ? & _). destruct H2 as ((_ & H8 & H32) & _ & H2). destruct (lay_end _ _ _ _ _ _ _ H2) as (-> & ? & _). lia.
Qed.

Lemma placed_apart g ft pin a bs e pout x k s x' k' s' : lay g ft pin a bs e pout -> (x, k, s) ∈ placed a bs -> (x', k', s') ∈ placed a bs ->
  (x, k, s) = (x', k', s') \/ x + s <= x' \/ x' + s' <= x.
Proof.
  revert pin a. induction bs as [|[k0 s0] bs IH]; intros pin a HL Hx Hx'; [by apply elem_of_nil in Hx|]. destruct HL as ((_ & _ & H32) & _ & HL). cbn in Hx, Hx'.
  apply elem_of_cons in Hx as [E|Hx]; apply elem_of_cons in Hx' as [E'|Hx']; simplify_eq; [by left| | |by eapply IH].
  - right. left. apply (placed_bounds _ _ _ _ _ _ _ _ _ _ HL Hx').
  - right. right. apply (placed_bounds _ _ _ _ _ _ _ _ _ _ HL Hx).
Qed.

(** ** Changes of a run *)
Definition same_tags g g' (P : Z -> Prop) : Prop := forall x, P x -> tags (g' x) = tags (g x).

Lemma lay_mid g g' ft pin a b1 mid mid' b2 e pout : let x := a + total b1 in let y := x + total mid in
  lay g ft pin a (b1 ++ mid ++ b2) e pout -> same_tags g g' (fun z => a <= z < x) -> tc_prev_foot (g' x) = tc_prev_foot (g x) ->
  exists q q', lay g ft q x mid y q' /\ lay g ft q' y b2 e pout /\
    forall r, lay g' ft q x mid' y r -> lay g' ft r y b2 e pout -> lay g' ft pin a (b1 ++ mid' ++ b2) e pout.
Proof.
  intros x y HL Hs Hx. apply lay_app in HL as (c & q & H1 & HL). apply lay_app in HL as (d & q' & H2 & H3).
  pose proof (lay_end _ _ _ _ _ _ _ H1) as (-> & _). pose proof (lay_end _ _ _ _ _ _ _ H2) as (-> & _). exists q, q'. split; [done|]. split; [done|].
  intros r H2' H3'. apply lay_app. exists x, q. split; [by apply (lay_agree g)|]. apply lay_app. by exists y, r.
Qed.

(** A free chunk has a chunk in use before and behind it. *)
Lemma free_neighbours g ft pin a b1 s k2 s2 b2 e pout : lay g ft pin a (b1 ++ (KFree, s) :: (k2, s2) :: b2) e pout ->
  in_use k2 = true /\ tc_head (g (a + total b1)) = head_word KFree s true /\ tc_head (g (a + total b1 + s)) = head_word k2 s2 false /\
  tc_prev_foot (g (a + total b1 + s)) = s /\ 32 <= s /\ s mod 8 = 0 /\ a + total b1 + s + s2 <= e /\ 32 <= s2 /\ 0 <= total b1.
Proof.
  intros HL. apply lay_app in HL as (c & q & H1 & HL). pose proof (lay_end _ _ _ _ _ _ _ H1) as (-> & ? & _). destruct HL as ((Hh & H8 & H32) & (-> & Hf) & ((Hh2 & H82 & H322) & Hk2 & HL)).
  pose proof (lay_end _ _ _ _ _ _ _ HL) as (-> & ? & _). cbn [in_use] in Hh2. split_and!; try done; try lia. destruct k2; [done|done|]. by destruct Hk2.
Qed.

(** A free chunk is taken as a whole. *)
Lemma lay_take g g' ft pin a b1 s k2 s2 b2 e pout : let x := a + total b1 in let y := x + s in
  lay g ft pin a (b1 ++ (KFree, s) :: (k2, s2) :: b2) e pout ->
  tc_prev_foot (g' x) = tc_prev_foot (g x) -> tc_head (g' x) = head_word KUsed s true -> tc_prev_foot (g' y) = ft -> tc_head (g' y) = head_word k2 s2 true ->
  same_tags g g' (fun z => z <> x /\ z <> y) -> lay g' ft pin a (b1 ++ (KUsed, s) :: (k2, s2) :: b2) e pout.
Proof.
  intros x y HL Hfx Hhx Hfy Hhy Hs. destruct (free_neighbours _ _ _ _ _ _ _ _ _ _ _ HL) as (Hk2 & _ & _ & _ & H32 & H8 & Hle & H322 & Hb1).
  destruct (lay_mid g g' ft pin a b1 [(KFree, s)] [(KUsed, s)] ((k2, s2) :: b2) e pout HL) as (q & q' & H1 & H2 & Hb); [intros z Hz; apply Hs; lia|done|].
  cbn [total] in *. replace (a + total b1 + (s + 0)) with y in * by lia. fold x in H1, H2, Hb. destruct H1 as (_ & [-> _] & [_ <-]). apply (Hb true).
  - cbn [lay in_use]. fold y. split; [done|]. split; done.
  - apply (lay_repin g g' ft false true); try done; [intros z Hz; apply Hs; lia|]. assert (E : tags (g' e) = tags (g e)) by (apply Hs; lia). by injection E.
Qed.

(** A free chunk is split. *)
Lemma lay_split g g' ft pin a b1 s nb k2 s2 b2 e pout : let x := a + total b1 in let z := x + nb in let y := x + s in
  lay g ft pin a (b1 ++ (KFree, s) :: (k2, s2) :: b2) e pout -> 32 <= nb -> nb mod 8 = 0 -> 32 <= s - nb ->
  tc_prev_foot (g' x) = tc_prev_foot (g x) -> tc_head (g' x) = head_word KUsed nb true -> tc_prev_foot (g' z) = ft -> tc_head (g' z) = head_word KFree (s - nb) true ->
  tc_prev_foot (g' y) = s - nb -> tc_head (g' y) = tc_head (g y) ->
  same_tags g g' (fun w => w <> x /\ w <> z /\ w <> y) -> lay g' ft pin a (b1 ++ (KUsed, nb) :: (KFree, s - nb) :: (k2, s2) :: b2) e pout.
Proof.
  intros x z y HL Hnb Hnb8 Hr Hfx Hhx Hfz Hhz Hfy Hhy Hs. destruct (free_neighbours _ _ _ _ _ _ _ _ _ _ _ HL) as (Hk2 & _ & Hh2 & _ & H32 & H8 & Hle & H322 & Hb1).
  destruct (lay_mid g g' ft pin a b1 [(KFree, s)] [(KUsed, nb); (KFree, s - nb)] ((k2, s2) :: b2) e pout HL) as (q & q' & H1 & H2 & Hb); [intros w Hw; apply Hs; lia|done|].
  cbn [total] in *. replace (a + total b1 + (s + 0)) with y in * by lia. fold x in H1, H2, Hb, Hh2. destruct H1 as (_ & [-> _] & [_ <-]). apply (Hb false).
  - cbn [lay in_use]. fold z. replace (z + (s - nb)) with y by lia. split; [done|]. split; [done|]. split; [|split; [done|done]].
    split; [done|]. split; [|lia]. rewrite Zminus_mod, H8, Hnb8. done.
  - apply (lay_repin g g' ft false false); try done; [by rewrite Hhy|intros w Hw; apply Hs; lia|]. assert (E : tags (g' e) = tags (g e)) by (apply Hs; lia). by injection E.
Qed.

(** Chunks between [x] and [y] become one free chunk. *)
Lemma lay_merge g g' ft pin a b1 x s q y k2 s2 b2 e pout : lay g ft pin a b1 x true -> lay g ft q y ((k2, s2) :: b2) e pout -> y = x + s ->
  in_use k2 = true -> 32 <= s -> s mod 8 = 0 ->
  tc_prev_foot (g' x) = tc_prev_foot (g x) -> tc_head (g' x) = head_word KFree s true -> tc_prev_foot (g' y) = s -> tc_head (g' y) = head_word k2 s2 false ->
  same_tags g g' (fun z => z < x \/ y < z) -> lay g' ft pin a (b1 ++ (KFree, s) :: (k2, s2) :: b2) e pout.
Proof.
  intros H1 H2 -> Hk2 H32 H8 Hfx Hhx Hfy Hhy Hs. assert (He : x + s + s2 <= e /\ 32 <= s2) by (destruct H2 as ((_ & _ & ?) & _ & H3); pose proof (lay_end _ _ _ _ _ _ _ H3) as (-> & ? & _); lia).
  apply lay_app. exists x, true. split; [apply (lay_agree g); [intros z Hz; apply Hs; lia|done|done]|]. cbn [lay]. split; [done|]. split; [done|].
  apply (lay_repin g g' ft q false); try done; [intros z Hz; apply Hs; lia|]. assert (E : tags (g' e) = tags (g e)) by (apply Hs; lia). by injection E.
Qed.

(** A chunk is cut from the chunk at the end of the run. *)
Lemma lay_extend g g' ft pin a bs e nb : lay g ft pin a bs e true -> 32 <= nb -> nb mod 8 = 0 -> tc_prev_foot (g' e) = tc_prev_foot (g e) -> tc_head (g' e) = head_word KUsed nb true ->
  tc_prev_foot (g' (e + nb)) = ft -> same_tags g g' (fun z => z < e) -> lay g' ft pin a (bs ++ [(KUsed, nb)]) (e + nb) true.
Proof.
  intros HL Hnb H8 Hfe Hhe Hf Hs. apply lay_app. exists e, true. split; [apply (lay_agree g); [intros z Hz; apply Hs; lia|done|done]|]. cbn [lay in_use]. done.
Qed.

(** The head of a chunk of a run, and of its neighbours. *)
Lemma lay_at g ft pin a b1 k s b2 e pout : lay g ft pin a (b1 ++ (k, s) :: b2) e pout -> let x := a + total b1 in
  exists q, lay g ft pin a b1 x q /\ tc_head (g x) = head_word k s q /\ 32 <= s /\ s mod 8 = 0 /\ lay g ft (in_use k) (x + s) b2 e pout /\
    match k with KSys => True | KUsed => tc_prev_foot (g (x + s)) = ft | KFree => q = true /\ tc_prev_foot (g (x + s)) = s end.
Proof.
  intros HL. apply lay_app in HL as (c & q & H1 & (Hh & H8 & H32) & Hk & H2). pose proof (lay_end _ _ _ _ _ _ _ H1) as (-> & _). exists q. done.
Qed.

(** The chunk before one whose flag says that it is free. *)
Lemma lay_before g ft a bs x : lay g ft true a bs x false -> exists b1 s, bs = b1 ++ [(KFree, s)] /\ x = a + total b1 + s /\ tc_prev_foot (g x) = s /\ lay g ft true a b1 (x - s) true.
Proof.
  intros HL. destruct bs as [|[k s] b1 _] using rev_ind; [by destruct HL|]. apply lay_app in HL as (c & q & H1 & ((_ & _ & _) & Hk & [E Hq])). destruct k; [done|done|].
  destruct Hk as [-> Hf]. pose proof (lay_end _ _ _ _ _ _ _ H1) as (-> & _). subst x. exists b1, s. split; [done|]. split; [done|]. split; [done|]. by replace (a + total b1 + s - s) with (a + total b1) by lia.
Qed.

(** * Tags and links *)
(** Heads and feet on one side, links on the other: an operation on tags leaves the bins as
    they are when the chunks in bins keep their sizes. *)
Definition link_part (c : tchunk) := (tc_fd c, tc_bk c, (tc_child0 c, tc_child1 c), tc_parent c, tc_index c).

Lemma links_retag g g' l : (forall x, x ∈ l -> link_part (g' x) = link_part (g x)) -> links g l -> links g' l.
Proof.
  intros H. apply links_ext; intros x Hx.
  - assert (E : link_part (g' x) = link_part (g x)); [|by injection E]. apply H. clear H. induction l as [|y [|z l] IH]; cbn in *; [done|by apply elem_of_nil in Hx|].
    apply elem_of_cons in Hx as [->|Hx]; [by left|right; by apply IH].
  - assert (E : link_part (g' x) = link_part (g x)); [|by injection E]. apply H. destruct l; [done|by right].
Qed.

Lemma trep_retag g g' i par t : (forall x, x ∈ addrs t -> link_part (g' x) = link_part (g x) /\ chunksize (g' x) = chunksize (g x)) -> trep g i par t -> trep g' i par t.
Proof.
  revert par. induction t as [|a s ch l IHl r IHr]; intros par H; [done|]. rewrite addrs_node in H. intros (Hn & Hc & (HL & HF) & Tl & Tr). cbn [trep].
  destruct (H a) as [Ea Es]; [by left|]. injection Ea as _ _ E0 E1 Ep Ei. rewrite E0, E1, Ep, Ei, Es. split; [done|]. split; [done|]. split; [split|split].
  - revert HL. apply links_retag. intros x Hx. apply H. rewrite !elem_of_cons, !elem_of_app, list_elem_of_singleton in *. tauto.
  - rewrite Forall_forall in *. intros x Hx. destruct (H x) as [Ex Esx]; [rewrite elem_of_cons, elem_of_app; tauto|]. unfold ring_chunk. injection Ex as _ _ E0' E1' Ep' Ei'.
    rewrite E0', E1', Ep', Ei', Esx. by apply HF.
  - apply IHl; [|done]. intros x Hx. apply H. rewrite elem_of_cons, !elem_of_app. tauto.
  - apply IHr; [|done]. intros x Hx. apply H. rewrite elem_of_cons, !elem_of_app. tauto.
Qed.

(** [m] differs from [m0] in tags only, and the heads are [g]; new chunks may have got a head. *)
Record tagged (m0 m : mspace) g : Prop := {
  tg_view : forall b, heads_of_space m b = g b;
  tg_rest : m = with_core (with_chunks (chunks (core m)) (core m0)) m0;
  tg_dom : forall b, is_Some (read m0 b) -> is_Some (read m b);
  tg_link : forall b, link_part (g b) = link_part (heads_of_space m0 b) }.

Lemma tagged_self m : tagged m m (heads_of_space m).
Proof. split; try done. by destruct m as [? []]. Qed.

Lemma tagged_good m0 m g b : tagged m0 m g -> good (core m0) b -> good (core m) b.
Proof. intros T (D & Hok & H0). split; [by apply (tg_dom _ _ _ T)|]. split; [|done]. rewrite (tg_rest _ _ _ T). exact Hok. Qed.

(** The tree bins depend on the links and the sizes of their chunks. *)
Lemma tree_bins_same (c c' : mstate) M : treemap c' = treemap c -> treebins c' = treebins c -> treebins_at c' = treebins_at c -> least_addr c' <= least_addr c ->
  (forall b s, M !! b = Some s -> is_Some (chunks c !! b) -> is_Some (chunks c' !! b)) ->
  (forall a s, M !! a = Some s -> link_part (heads c' a) = link_part (heads c a) /\ chunksize (heads c' a) = s) -> tree_bins c M -> tree_bins c' M.
Proof.
  intros Em Eb Ea El Hd Hs (ts & I & HP). exists ts. split; [|done].
  assert (Hsize : forall a s, (a, s) ∈ all_elems ts -> chunksize (heads c a) = s).
  { intros a s Ha. apply list_elem_of_In, in_concat in Ha as (el & Hel & Ha). apply list_elem_of_In, list_elem_of_fmap in Hel as (t & -> & Ht). apply list_elem_of_lookup in Ht as [j Hj].
    apply list_elem_of_In in Ha. destruct (bi_tree _ _ I j t Hj) as (_ & _ & HT & _). clear -HT Ha. revert HT. generalize (treebin_at c (Z.of_nat j)).
    induction t as [|b s' ch l IHl r IHr]; intros par HT; [by apply elem_of_nil in Ha|]. destruct HT as ((Es & _) & _ & (_ & HF) & Tl & Tr).
    cbn [elems] in Ha. rewrite elem_of_cons, !elem_of_app in Ha. destruct Ha as [E|[Ha|[Ha|Ha]]]; [by simplify_eq| |by eapply IHl|by eapply IHr].
    apply list_elem_of_fmap in Ha as (x & E & Hx). simplify_eq. rewrite Forall_forall in HF. by destruct (HF x Hx) as [? _]. }
  split.
  - rewrite Eb. apply I.
  - rewrite Em. apply I.
  - rewrite Ea. apply I.
  - intros i t Ht. destruct (bi_tree _ _ I i t Ht) as (H1 & H2 & H3 & H4 & H5). unfold treebin_at. rewrite Em, Eb, Ea. split; [done|]. split; [done|]. split; [|done].
    revert H3. apply trep_retag. intros x Hx. apply list_elem_of_fmap in Hx as ([a s] & -> & Hx). cbn.
    assert (Ha : (a, s) ∈ all_elems ts) by (destruct (one_bin ts i t Ht) as (rest & _ & -> & _); apply elem_of_app; by left).
    change (link_part (heads c' a) = link_part (heads c a) /\ chunksize (heads c' a) = chunksize (heads c a)). rewrite (Hsize _ _ Ha). apply Hs. apply elem_of_map_to_list. by rewrite <- HP.
  - rewrite Forall_forall. intros b Hb. destruct (proj1 (Forall_forall _ _) (bi_good _ _ I) b Hb) as (D & Hok & H0). apply list_elem_of_fmap in Hb as ([b' s] & -> & Hb). rewrite HP in Hb. apply elem_of_map_to_list in Hb.
    split; [by apply (Hd _ s)|]. split; [|done]. unfold ok_address in *. lia.
  - apply I.
  - apply I.
Qed.

Lemma small_bins_same m m' M : smallmap m' = smallmap m -> ms_at m' = ms_at m -> least_addr (core m') <= least_addr (core m) ->
  (forall b, (exists i, (i < 32)%nat /\ b = hdr m i) \/ (exists s, M !! b = Some s) -> is_Some (read m b) -> is_Some (read m' b)) -> (forall i, (i < 32)%nat -> link_part (heads_of_space m' (hdr m i)) = link_part (heads_of_space m (hdr m i))) ->
  (forall a s, M !! a = Some s -> link_part (heads_of_space m' a) = link_part (heads_of_space m a) /\ chunksize (heads_of_space m' a) = s) -> small_bins m M -> small_bins m' M.
Proof.
  intros Em Ea El Hd Hh Hs (chs & I & HP & Hsz). exists chs. split; [|done].
  assert (EH : forall i, hdr m' i = hdr m i) by (intros i; unfold hdr, smallbin_at; by rewrite Ea). split.
  - apply I.
  - rewrite Em. apply I.
  - intros i Hi. rewrite EH. destruct (ri_hdr _ _ I i Hi). split; [by apply Hd; eauto|done].
  - intros i ch Hch. assert (Hi : (i < 32)%nat) by (apply lookup_lt_Some in Hch; by rewrite (ri_len _ _ I) in Hch). rewrite EH, Em.
    destruct (ri_ring _ _ I i ch Hch) as (H1 & H2 & H3). split; [done|]. split.
    + intros Hne. specialize (H2 Hne). revert H2. apply links_retag. intros x Hx. rewrite elem_of_cons, elem_of_app, list_elem_of_singleton in Hx.
      destruct Hx as [->|[Hx| ->]]; [by apply Hh|apply (Hs x (8 * Z.of_nat i)); by apply (ring_member M chs i ch x)|by apply Hh].
    + rewrite Forall_forall in *. intros x Hx. destruct (H3 x Hx) as [(D & Hok & H0) _]. split; [|by apply Hs, (ring_member M chs i ch x)].
      split; [apply Hd; [right; eexists; by apply (ring_member M chs i ch x)|done]|]. split; [|done]. unfold ok_address in *. lia.
  - intros i x Hi Hx. rewrite EH. by apply (ri_apart _ _ I).
  - apply I.
Qed.

(** ** Writes of tags *)
Lemma put_view a f m b : heads_of_space (put a f m) b = fupd a f (heads_of_space m) b.
Proof.
  unfold put, heads_of_space, heads, fupd. cbn. destruct (decide (b = a)) as [->|]; [by rewrite lookup_total_insert_eq|by rewrite lookup_total_insert_ne].
Qed.

Lemma put_step m0 m g a f : tagged m0 m g -> (forall c, link_part (f c) = link_part c) -> tagged m0 (put a f m) (fupd a f g).
Proof.
  intros [Hv Hr Hd Hl] Hf. split.
  - intros b. rewrite put_view. unfold fupd. by rewrite Hv.
  - rewrite Hr at 1. by destruct m0 as [? []].
  - intros b Hb. apply Hd in Hb. unfold put, read in *. cbn. destruct (decide (b = a)) as [->|]; [rewrite lookup_insert_eq; eauto|by rewrite lookup_insert_ne].
  - intros b. unfold fupd. destruct (decide (b = a)) as [->|]; [rewrite Hf|]; apply Hl.
Qed.

Lemma tagged_mapped m0 m g a : tagged m0 m g -> mapped m a = mapped m0 a.
Proof. intros T. unfold mapped. by rewrite (tg_rest _ _ _ T). Qed.

Lemma put_head_step m0 m g a f : tagged m0 m g -> mapped m0 (a + 8) = true ->
  exists m', put_head a f m = Some m' /\ tagged m0 m' (fupd a (fun c => set_head (f (tc_head c)) c) g) /\ is_Some (read m' a) /\ (forall b, is_Some (read m b) -> is_Some (read m' b)).
Proof.
  intros T Hm. unfold put_head. rewrite (tagged_mapped _ _ _ _ T), Hm. eexists. split; [done|]. split; [by apply put_step|]. unfold put, read. cbn. split.
  - rewrite lookup_insert_eq. eauto.
  - intros b Hb. destruct (decide (b = a)) as [->|]; [rewrite lookup_insert_eq; eauto|by rewrite lookup_insert_ne].
Qed.

Lemma put_foot_step m0 m g a v : tagged m0 m g -> mapped m0 a = true ->
  exists m', put_foot a v m = Some m' /\ tagged m0 m' (fupd a (set_prev_foot v) g) /\ (forall b, is_Some (read m b) -> is_Some (read m' b)).
Proof.
  intros T Hm. unfold put_foot. rewrite (tagged_mapped _ _ _ _ T), Hm. eexists. split; [done|]. split; [by apply put_step|]. unfold put, read. cbn.
  intros b Hb. destruct (decide (b = a)) as [->|]; [rewrite lookup_insert_eq; eauto|by rewrite lookup_insert_ne].
Qed.

Lemma footer_tagged m0 m g : tagged m0 m g -> footer m = footer m0.
Proof. intros T. unfold footer. by rewrite (tg_rest _ _ _ T). Qed.
