(* ===== verification/DlInv.v ===== *)
(** The invariant of a memory space: its segments are runs of chunks, and the free chunks
    are those of the bins and the designated victim. *)
From stdpp Require Import gmap.
From S2P Require Import Prelude DlBins DlTree DlUnlink DlFit DlSmall DlSpace DlLayout.
Local Open Scope Z_scope.
Implicit Types g : Z -> tchunk.

(** ** Segments *)
(** The chunks of a segment from [sl_start] to [sl_end], where the top chunk or a fence is;
    [sl_limit] is the end of its memory. *)
Record seglay := SegLay { sl_start : Z; sl_blocks : list (kind * Z); sl_end : Z; sl_top : bool; sl_limit : Z }.
Definition seg_placed (sg : seglay) : list (Z * kind * Z) := placed (sl_start sg) (sl_blocks sg).
Definition all_placed (L : list seglay) : list (Z * kind * Z) := concat (seg_placed <$> L).
Definition of_kind (k : kind) (bs : list (Z * kind * Z)) : list (Z * Z) := omap (fun b => if decide (b.1.2 = k) then Some (b.1.1, b.2) else None) bs.

(** The words from [lo] to [hi] are memory. *)
Definition covers (m : mspace) (lo hi : Z) : Prop := forall x, x mod 8 = 0 -> lo <= x -> x + 8 <= hi -> mapped m x = true.

(** The word behind the top chunk says that the chunk before is not in use. *)
Definition foot_ok (m : mspace) : Prop := pinuse (heads_of_space m (top m + topsize m)) = false /\ is_Some (read m (top m + topsize m)).
Lemma foot_keep m m' : foot_ok m -> top m' + topsize m' = top m + topsize m -> (is_Some (read m (top m + topsize m)) -> is_Some (read m' (top m + topsize m))) ->
  tags (heads_of_space m' (top m + topsize m)) = tags (heads_of_space m (top m + topsize m)) -> foot_ok m'.
Proof. intros [F1 F2] Ea Hd E. unfold foot_ok. rewrite Ea. split; [|auto]. unfold pinuse in *. by injection E as _ ->. Qed.

Record seg_ok (m : mspace) (sg : seglay) : Prop := {
  so_lay : lay (heads_of_space m) (footer m) true (sl_start sg) (sl_blocks sg) (sl_end sg) true;
  so_start : sl_start sg mod 8 = 0 /\ 0 < sl_start sg /\ least_addr (core m) <= sl_start sg;
  so_covers : covers m (sl_start sg) (sl_limit sg);
  so_size : sl_limit sg - sl_start sg < 2 ^ 40 /\ sl_limit sg <= 2 ^ 64;
  so_limit : sl_end sg + 16 <= sl_limit sg;
  so_limit8 : sl_limit sg mod 8 = 0;
  so_end : if sl_top sg then sl_end sg = top m /\ tc_head (heads_of_space m (top m)) = topsize m + 1 /\ is_Some (read m (top m)) /\ topsize m mod 8 = 0 /\
             0 < topsize m /\ top m + topsize m + TOP_FOOT_SIZE = sl_limit sg
           else tc_head (heads_of_space m (sl_end sg)) = FENCEPOST_HEAD /\ exists b1, sl_blocks sg = b1 ++ [(KSys, 48)];
  so_dom : forall x k s, (x, k, s) ∈ seg_placed sg -> is_Some (read m x);
  so_foot : sl_top sg = true -> foot_ok m }.

Definition seg_apart (s1 s2 : seglay) : Prop := sl_limit s1 <= sl_start s2 \/ sl_limit s2 <= sl_start s1.
Definition dv_list (m : mspace) : list (Z * Z) := if dvsize m =? 0 then [] else [(dv m, dvsize m)].

(** The record of a segment: for all but the most recent one it is the last chunk of the
    segment, and memory that the space may give back comes in pages. *)
Record seg_matches (r : segment) (sg : seglay) : Prop := {
  sm_base : seg_base r = sl_start sg;
  sm_limit : seg_base r + seg_size r = sl_limit sg;
  sm_at : sl_top sg = false -> seg_at r = sl_end sg - 32;
  sm_pages : is_mmapped_segment r = true -> is_extern_segment r = false -> seg_size r mod 4096 = 0 }.

(** A chunk with memory of its own, from [r.1] to [r.2]: no chunk before it, no flags, and
    32 bytes behind it that start with a fence. *)
Record direct_ok (m : mspace) (r : Z * Z) : Prop := {
  do_at : r.1 mod 8 = 0 /\ 0 < r.1 /\ least_addr (core m) <= r.1;
  do_size : (r.2 - r.1) mod 8 = 0 /\ 64 <= r.2 - r.1;
  do_tags : tags (heads_of_space m r.1) = (0, r.2 - r.1 - 32) /\ tags (heads_of_space m (r.2 - 32)) = (footer m, FENCEPOST_HEAD);
  do_dom : is_Some (read m r.1) /\ is_Some (read m (r.2 - 32));
  do_end : r.2 <= 2 ^ 64 }.
Definition regions_apart (r1 r2 : Z * Z) : Prop := r1.2 <= r2.1 \/ r2.2 <= r1.1.
Definition sl_region (sg : seglay) : Z * Z := (sl_start sg, sl_limit sg).

(** The segments [L], the small bins [Ms] and the tree bins [Mt]; [D] are the free chunks in
    no bin. *)
Record space_ok (m : mspace) (L : list seglay) (Ms Mt : gmap Z Z) (D : list (Z * Z)) : Prop := {
  ok_segs : Forall (seg_ok m) L;
  ok_apart : forall i j s1 s2, i <> j -> L !! i = Some s1 -> L !! j = Some s2 -> seg_apart s1 s2;
  ok_top : L <> [] /\ forall j sg, L !! j = Some sg -> sl_top sg = bool_decide (j = 0)%nat;
  ok_match : Forall2 seg_matches (segs m) L;
  ok_first : head (seg_at <$> segs m) = Some (ms_at m + 880);
  ok_direct : Forall (direct_ok m) (direct m);
  ok_dapart : forall r, r ∈ direct m -> forall sg, sg ∈ L -> regions_apart r (sl_region sg);
  ok_dseq : forall i j r1 r2, i <> j -> direct m !! i = Some r1 -> direct m !! j = Some r2 -> regions_apart r1 r2;
  ok_small : small_bins m Ms;
  ok_tree : tree_bins (core m) Mt;
  ok_free : of_kind KFree (all_placed L) ≡ₚ map_to_list Ms ++ map_to_list Mt ++ D;
  ok_hdr : (ms_at m - 16, KSys, 960) ∈ all_placed L;
  ok_mag : in_u 64 (ms_at m) /\ in_u 64 (magic m);
  ok_least : 0 < least_addr (core m);
  ok_bins_at : treebins_at (core m) = ms_at m + 600 }.
Definition space_inv (m : mspace) (L : list seglay) (Ms Mt : gmap Z Z) : Prop :=
  space_ok m L Ms Mt (dv_list m) /\ 0 <= dvsize m /\ (dvsize m = 0 -> dv m = 0).

(** ** Chunks of the space *)
Lemma in_placed L b : b ∈ all_placed L <-> exists i sg, L !! i = Some sg /\ b ∈ seg_placed sg.
Proof.
  unfold all_placed. rewrite list_elem_of_In, in_concat. split.
  - intros (el & Hel & Hb). apply list_elem_of_In, list_elem_of_fmap in Hel as (sg & -> & Hsg). apply list_elem_of_lookup in Hsg as [i Hi]. apply list_elem_of_In in Hb. eauto.
  - intros (i & sg & Hi & Hb). exists (seg_placed sg). split; [|by apply list_elem_of_In]. apply list_elem_of_In, list_elem_of_fmap. exists sg. split; [done|]. by eapply list_elem_of_lookup_2.
Qed.

Lemma of_kind_in k bs a s : (a, s) ∈ of_kind k bs <-> (a, k, s) ∈ bs.
Proof.
  unfold of_kind. rewrite list_elem_of_omap. split.
  - intros ([[a' k'] s'] & Hb & E). cbn in E. destruct (decide (k' = k)) as [->|]; [|done]. by injection E as <- <-.
  - intros Hb. exists (a, k, s). split; [done|]. cbn. by rewrite decide_True.
Qed.

Lemma of_kind_app k b1 b2 : of_kind k (b1 ++ b2) = of_kind k b1 ++ of_kind k b2.
Proof. unfold of_kind. apply omap_app. Qed.

#[global] Instance of_kind_perm k : Proper ((≡ₚ) ==> (≡ₚ)) (of_kind k).
Proof. intros b1 b2 H. unfold of_kind. by rewrite H. Qed.

Lemma seg_bounds m sg x k s : seg_ok m sg -> (x, k, s) ∈ seg_placed sg ->
  sl_start sg <= x /\ x + s <= sl_end sg /\ 32 <= s /\ s mod 8 = 0 /\ x mod 8 = 0 /\ sl_end sg + 16 <= sl_limit sg /\ s < 2 ^ 40.
Proof.
  intros S Hx. destruct (placed_bounds _ _ _ _ _ _ _ _ _ _ (so_lay _ _ S) Hx) as (H1 & H2 & H3 & H4). destruct (placed_split _ _ _ _ _ Hx) as (b1 & b2 & E & Ex).
  pose proof (so_lay _ _ S) as HL. rewrite E in HL. apply lay_app in HL as (c & q & HL1 & _). destruct (lay_end _ _ _ _ _ _ _ HL1) as (_ & _ & H8). destruct (so_start _ _ S) as (Hs & _).
  pose proof (so_limit _ _ S). pose proof (so_size _ _ S). split_and!; try done; try lia. rewrite Ex, Z.add_mod, Hs, H8 by lia. done.
Qed.

(** Two chunks of the space are the same one or do not overlap. *)
Lemma blocks_apart m L i j s1 s2 x k s x' k' s' : Forall (seg_ok m) L -> (forall i j s1 s2, i <> j -> L !! i = Some s1 -> L !! j = Some s2 -> seg_apart s1 s2) ->
  L !! i = Some s1 -> L !! j = Some s2 -> (x, k, s) ∈ seg_placed s1 -> (x', k', s') ∈ seg_placed s2 -> (i = j /\ (x, k, s) = (x', k', s')) \/ x + s <= x' \/ x' + s' <= x.
Proof.
  intros HF HA Hi Hj Hx Hx'. pose proof (Forall_lookup_1 _ _ _ _ HF Hi) as S1. pose proof (Forall_lookup_1 _ _ _ _ HF Hj) as S2. destruct (decide (i = j)) as [->|Hne].
  - rewrite Hi in Hj. injection Hj as <-. destruct (placed_apart _ _ _ _ _ _ _ _ _ _ _ _ _ (so_lay _ _ S1) Hx Hx') as [E|?]; [by left|by right].
  - right. pose proof (seg_bounds _ _ _ _ _ S1 Hx). pose proof (seg_bounds _ _ _ _ _ S2 Hx'). destruct (HA _ _ _ _ Hne Hi Hj); lia.
Qed.

Lemma space_apart m L Ms Mt D x k s x' k' s' : space_ok m L Ms Mt D -> (x, k, s) ∈ all_placed L -> (x', k', s') ∈ all_placed L -> (x, k, s) = (x', k', s') \/ x + s <= x' \/ x' + s' <= x.
Proof.
  intros O Hx Hx'. apply in_placed in Hx as (i & s1 & Hi & Hx). apply in_placed in Hx' as (j & s2 & Hj & Hx').
  destruct (blocks_apart m L i j s1 s2 x k s x' k' s' (ok_segs _ _ _ _ _ O) (ok_apart _ _ _ _ _ O) Hi Hj Hx Hx') as [[_ ?]|?]; auto.
Qed.

Lemma seg_block m sg x k s : seg_ok m sg -> (x, k, s) ∈ seg_placed sg -> good (core m) x /\ chunksize (heads_of_space m x) = s.
Proof.
  intros S Hx. pose proof (seg_bounds _ _ _ _ _ S Hx) as (? & ? & ? & ? & ? & ? & ?). destruct (so_start _ _ S) as (_ & Hs & Hl). split.
  - split; [by apply (so_dom _ _ S x k s)|]. split; [unfold ok_address; lia|lia].
  - destruct (placed_split _ _ _ _ _ Hx) as (b1 & b2 & E & ->). pose proof (so_lay _ _ S) as HL. rewrite E in HL. destruct (lay_at _ _ _ _ _ _ _ _ _ _ HL) as (q & _ & Hh & _ & H8 & _).
    eapply size_of_head; [exact Hh|done|]. destruct q, k; cbn; lia.
Qed.

Lemma space_block m L Ms Mt D x k s : space_ok m L Ms Mt D -> (x, k, s) ∈ all_placed L -> 32 <= s < 2 ^ 40 /\ s mod 8 = 0 /\ x mod 8 = 0 /\ good (core m) x /\ chunksize (heads_of_space m x) = s.
Proof.
  intros O Hx. apply in_placed in Hx as (i & sg & Hi & Hx). pose proof (Forall_lookup_1 _ _ _ _ (ok_segs _ _ _ _ _ O) Hi) as S. pose proof (seg_bounds _ _ _ _ _ S Hx) as (? & ? & ? & ? & ? & ? & ?).
  split; [lia|]. split; [done|]. split; [done|]. by apply (seg_block m sg x k).
Qed.

Lemma placed_nodup g ft pin a bs e pout : lay g ft pin a bs e pout -> NoDup (placed a bs).*1.*1.
Proof.
  revert pin a. induction bs as [|[k s] bs IH]; intros pin a HL; [apply NoDup_nil_2|]. destruct HL as ((_ & _ & H32) & _ & HL). cbn. apply NoDup_cons. split; [|by eapply IH].
  intros ([x k'] & -> & Hx)%list_elem_of_fmap. apply list_elem_of_fmap in Hx as ([[x' k''] s'] & E & Hx). injection E as -> ->. cbn in *.
  destruct (placed_bounds _ _ _ _ _ _ _ _ _ _ HL Hx). lia.
Qed.

Lemma segs_nodup m L : Forall (seg_ok m) L -> (forall i j s1 s2, i <> j -> L !! i = Some s1 -> L !! j = Some s2 -> seg_apart s1 s2) -> NoDup (all_placed L).*1.*1.
Proof.
  induction L as [|sg L IH]; intros HF HA; [apply NoDup_nil_2|]. unfold all_placed. cbn. rewrite !fmap_app. apply NoDup_app. apply Forall_cons in HF as [S HF]. split; [|split].
  - eapply placed_nodup, S.
  - intros x Hx Hx'. apply list_elem_of_fmap in Hx as ([x1 k1] & -> & Hx). apply list_elem_of_fmap in Hx as ([[x1' k1'] s1] & E & Hx). injection E as -> ->.
    apply list_elem_of_fmap in Hx' as ([x2 k2] & E & Hx'). apply list_elem_of_fmap in Hx' as ([[x2' k2'] s2] & E' & Hx'). cbn in E. injection E' as -> ->. subst x2'.
    change (concat (seg_placed <$> L)) with (all_placed L) in Hx'. apply in_placed in Hx' as (j & sg' & Hj & Hx'). pose proof (Forall_lookup_1 _ _ _ _ HF Hj) as S'.
    pose proof (seg_bounds _ _ _ _ _ S Hx). pose proof (seg_bounds _ _ _ _ _ S' Hx'). destruct (HA O (Datatypes.S j) sg sg' ltac:(done) eq_refl Hj); lia.
  - apply IH; [done|]. intros i j s1 s2 Hne Hi Hj. by apply (HA (Datatypes.S i) (Datatypes.S j)); [lia| |].
Qed.

(** ** Changes of the memory *)
(** A segment depends on the tags of its addresses. *)
Lemma seg_keep m m' sg : seg_ok m sg -> footer m' = footer m -> (forall x, sl_start sg <= x -> x + 8 <= sl_limit sg -> mapped m x = true -> mapped m' x = true) -> least_addr (core m') <= least_addr (core m) ->
  (sl_top sg = true -> top m' = top m /\ topsize m' = topsize m) -> (forall b, sl_start sg <= b < sl_limit sg -> is_Some (read m b) -> is_Some (read m' b)) ->
  same_tags (heads_of_space m) (heads_of_space m') (fun x => sl_start sg <= x < sl_limit sg) -> seg_ok m' sg.
Proof.
  intros S Ef Em El Et Hd Hs. 
  assert (Hb : sl_start sg <= sl_end sg < sl_limit sg).
  { destruct (lay_end _ _ _ _ _ _ _ (so_lay _ _ S)) as (E & ? & _). pose proof (so_limit _ _ S). lia. }
  assert (Ee : tags (heads_of_space m' (sl_end sg)) = tags (heads_of_space m (sl_end sg))) by (apply Hs; lia). injection Ee as Ee1 Ee2. split.
  - rewrite Ef. apply (lay_agree (heads_of_space m)); [intros x Hx; apply Hs; lia|done|apply S].
  - destruct (so_start _ _ S) as (? & ? & ?). split_and!; (done || lia).
  - intros x H1 H2 H3. apply Em; [done|done|]. by apply (so_covers _ _ S).
  - apply S.
  - apply S.
  - apply S.
  - pose proof (so_end _ _ S) as He. destruct (sl_top sg); [|by rewrite Ee2]. destruct (Et eq_refl) as [-> ->]. destruct He as (H1 & H2 & H3 & H4). rewrite <- H1 in *. rewrite Ee2. auto.
  - intros x k s Hx. pose proof (seg_bounds _ _ _ _ _ S Hx). apply Hd; [lia|]. by apply (so_dom _ _ S x k s).
  - intros Htp. pose proof (so_end _ _ S) as He. rewrite Htp in He. destruct He as (H1 & _ & _ & _ & H0 & H2). change TOP_FOOT_SIZE with 80 in H2. destruct (Et Htp) as [Et1 Et2].
    apply (foot_keep m); [by apply (so_foot _ _ S)|congruence|apply Hd; lia|apply Hs; lia].
Qed.

Lemma seg_same m m' sg : seg_ok m sg -> footer m' = footer m -> maps m' = maps m -> direct m' = direct m -> least_addr (core m') = least_addr (core m) ->
  (sl_top sg = true -> top m' = top m /\ topsize m' = topsize m) -> (forall b, is_Some (read m b) -> is_Some (read m' b)) ->
  same_tags (heads_of_space m) (heads_of_space m') (fun x => sl_start sg <= x < sl_limit sg) -> seg_ok m' sg.
Proof. intros S Ef Em Ed El Et Hd Hs. apply (seg_keep m); try done; [|lia|auto]. intros x _ _. unfold mapped. by rewrite Em, Ed. Qed.

Lemma direct_same m m' r : direct_ok m r -> footer m' = footer m -> least_addr (core m') <= least_addr (core m) -> (forall b, r.1 <= b < r.2 -> is_Some (read m b) -> is_Some (read m' b)) ->
  same_tags (heads_of_space m) (heads_of_space m') (fun x => r.1 <= x < r.2) -> direct_ok m' r.
Proof.
  intros D Ef El Hd Hs. destruct (do_size _ _ D) as [_ H64]. destruct (do_at _ _ D) as (Ha8 & Ha0 & Hal). split.
  - split_and!; (done || lia).
  - apply D.
  - assert (E1 : tags (heads_of_space m' r.1) = tags (heads_of_space m r.1)) by (apply Hs; lia). assert (E2 : tags (heads_of_space m' (r.2 - 32)) = tags (heads_of_space m (r.2 - 32))) by (apply Hs; lia).
    rewrite E1, E2, Ef. apply D.
  - split; (apply Hd; [lia|apply D]).
  - apply D.
Qed.

(** The operations on bins leave the tags as they are. *)
Record links_eff (m m' : mspace) : Prop := {
  le_rest : m' = with_smallmap (smallmap m') (with_core (core m') m);
  le_least : least_addr (core m') = least_addr (core m);
  le_bins_at : treebins_at (core m') = treebins_at (core m);
  le_tags : keeps_tags (core m) (core m') }.

Lemma keeps_tags_heads c c' b : keeps_tags c c' -> tags (heads c' b) = tags (heads c b).
Proof.
  intros K. specialize (K b). unfold heads. rewrite !lookup_total_alt.
  destruct (chunks c' !! b), (chunks c !! b); cbn in K |- *; try done. unfold tags. by injection K as -> ->.
Qed.

Lemma keeps_tags_dom c c' b : keeps_tags c c' -> is_Some (chunks c !! b) -> is_Some (chunks c' !! b).
Proof. intros K [x Hx]. specialize (K b). rewrite Hx in K. destruct (chunks c' !! b); [eauto|done]. Qed.

Lemma chunksize_tags c c' : tags c' = tags c -> chunksize c' = chunksize c.
Proof. intros E. unfold chunksize. by injection E as _ ->. Qed.

Lemma small_eff_links m m' : small_eff m m' -> links_eff m m'.
Proof. intros [E K]. split; [rewrite E at 1; by rewrite E|by rewrite E|by rewrite E|done]. Qed.

Lemma links_eff_core m c : least_addr c = least_addr (core m) /\ treebins_at c = treebins_at (core m) -> keeps_tags (core m) c -> links_eff m (with_core c m).
Proof. intros [El Ea] K. by split. Qed.

Lemma move_bins m m' L Ms Mt D Ms' Mt' D' : space_ok m L Ms Mt D -> links_eff m m' -> small_bins m' Ms' -> tree_bins (core m') Mt' ->
  map_to_list Ms ++ map_to_list Mt ++ D ≡ₚ map_to_list Ms' ++ map_to_list Mt' ++ D' -> space_ok m' L Ms' Mt' D'.
Proof.
  intros O [Er El Ea K] HS HT HP. split.
  - eapply Forall_impl; [apply (ok_segs _ _ _ _ _ O)|]. intros sg S. apply (seg_same m m' sg S); try (by rewrite Er); try done.
    + intros b. by apply keeps_tags_dom.
    + intros x _. by apply keeps_tags_heads.
  - intros i j s1 s2 Hne Hi Hj. by apply (ok_apart _ _ _ _ _ O i j).
  - apply O.
  - rewrite Er. apply O.
  - rewrite Er. apply O.
  - rewrite Er at 2. cbn. eapply Forall_impl; [apply (ok_direct _ _ _ _ _ O)|]. intros r Hr. apply (direct_same m m' r Hr); try (by rewrite Er); try done; [lia|intros b _; by apply keeps_tags_dom|intros x _; by apply keeps_tags_heads].
  - rewrite Er. apply O.
  - rewrite Er. apply O.
  - done.
  - done.
  - rewrite <- HP. apply O.
  - rewrite Er. apply O.
  - rewrite Er. apply O.
  - rewrite El. apply O.
  - rewrite Ea, Er. apply O.
Qed.

Lemma is_small_eq s : 0 <= s -> is_small s = (s <? 256).
Proof.
  intros Hs. unfold is_small, SMALLBIN_SHIFT, NSMALLBINS. rewrite Z.shiftr_div_pow2 by lia. destruct (Z.ltb_spec s 256).
  - apply Z.ltb_lt, Z.div_lt_upper_bound; lia.
  - apply Z.ltb_ge, Z.div_le_lower_bound; lia.
Qed.

(** ** Moves between the bins and the loose chunks *)
Section Moves.
Context (m : mspace) (L : list seglay) (Ms Mt : gmap Z Z) (D : list (Z * Z)) (O : space_ok m L Ms Mt D).

Lemma free_placed a s : (a, s) ∈ map_to_list Ms ++ map_to_list Mt ++ D -> (a, KFree, s) ∈ all_placed L.
Proof using O. intros H. rewrite <- (ok_free _ _ _ _ _ O) in H. by apply of_kind_in. Qed.

Lemma free_nodup : NoDup (map_to_list Ms ++ map_to_list Mt ++ D).*1.
Proof using O.
  rewrite <- (ok_free _ _ _ _ _ O). pose proof (segs_nodup m L (ok_segs _ _ _ _ _ O) (ok_apart _ _ _ _ _ O)) as Hd. revert Hd. generalize (all_placed L). clear O.
  induction l as [|[[a k] s] l IH]; intros Hd; [apply NoDup_nil_2|]. cbn in Hd. apply NoDup_cons in Hd as [Hn Hd]. unfold of_kind. cbn. destruct (decide (k = KFree)) as [->|]; [|by apply IH].
  cbn. apply NoDup_cons. split; [|by apply IH]. intros ([a' s'] & -> & Hin)%list_elem_of_fmap. apply of_kind_in in Hin. apply Hn. apply list_elem_of_fmap. exists (a', KFree). split; [done|].
  apply list_elem_of_fmap. by exists (a', KFree, s').
Qed.

Lemma hdr_range i : (i < 32)%nat -> ms_at m - 16 < hdr m i < ms_at m - 16 + 960.
Proof using Type. intros Hi. unfold hdr, smallbin_at. rewrite Z.shiftl_mul_pow2 by lia. lia. Qed.

Lemma hdr_not_free a s i : (a, KFree, s) ∈ all_placed L -> (i < 32)%nat -> a <> hdr m i.
Proof using O.
  intros Ha Hi. pose proof (ok_hdr _ _ _ _ _ O) as Hb. pose proof (hdr_range i Hi) as Hh.
  destruct (space_apart m L Ms Mt D _ _ _ _ _ _ O Ha Hb) as [E|[H|H]]; [done| |]; pose proof (space_block m L Ms Mt D _ _ _ O Ha); lia.
Qed.

Lemma small_member a s : Ms !! a = Some s -> (a, KFree, s) ∈ all_placed L /\ is_small s = true.
Proof using O.
  intros Ha. split; [apply free_placed, elem_of_app; left; by apply elem_of_map_to_list|]. destruct (ok_small _ _ _ _ _ O) as (_ & _ & _ & Hs). specialize (Hs _ _ Ha).
  rewrite is_small_eq by lia. lia.
Qed.

Lemma tree_member a s : Mt !! a = Some s -> (a, KFree, s) ∈ all_placed L /\ is_small s = false /\ 256 <= s < 2 ^ 40.
Proof using O.
  intros Ha. assert (Hp : (a, KFree, s) ∈ all_placed L) by (apply free_placed; rewrite !elem_of_app; right; left; by apply elem_of_map_to_list). split; [done|].
  assert (Hs : 256 <= s < 2 ^ 40).
  { destruct (ok_tree _ _ _ _ _ O) as (ts & I & HP). apply elem_of_map_to_list in Ha. rewrite <- HP in Ha. apply list_elem_of_In, in_concat in Ha as (el & Hel & Ha).
    apply list_elem_of_In, list_elem_of_fmap in Hel as (t & -> & Ht). apply list_elem_of_lookup in Ht as [j Hj]. destruct (bi_tree _ _ I j t Hj) as (_ & _ & _ & _ & HF).
    rewrite Forall_forall in HF. apply list_elem_of_In in Ha. by destruct (HF _ Ha). }
  split; [|done]. rewrite is_small_eq by lia. lia.
Qed.

Lemma bins_apart a s t : (a, s) ∈ map_to_list Mt ++ D -> Ms !! a = Some t -> False.
Proof using O.
  intros Ha Hs. pose proof free_nodup as Hd. rewrite fmap_app in Hd. apply NoDup_app in Hd as (_ & Hd & _). apply (Hd a).
  - apply list_elem_of_fmap. exists (a, t). split; [done|]. by apply elem_of_map_to_list.
  - apply list_elem_of_fmap. by exists (a, s).
Qed.

Lemma tree_disjoint a s t : (a, s) ∈ D -> Mt !! a = Some t -> False.
Proof using O.
  intros Ha Hs. pose proof free_nodup as Hd. rewrite fmap_app in Hd. apply NoDup_app in Hd as (_ & _ & Hd). rewrite fmap_app in Hd. apply NoDup_app in Hd as (_ & Hd & _). apply (Hd a).
  - apply list_elem_of_fmap. exists (a, t). split; [done|]. by apply elem_of_map_to_list.
  - apply list_elem_of_fmap. by exists (a, s).
Qed.

(** The tree bins after a step on the small bins, and the other way round. *)
Lemma small_keeps_tree m' Ms' X s : (X, KFree, s) ∈ all_placed L -> Mt !! X = None -> small_step m m' Ms Ms' X -> tree_bins (core m') Mt.
Proof using O.
  intros HX HXt [[E K] _ Hf]. apply (tree_bins_same (core m)); try (by rewrite E); [by intros b ? _; apply keeps_tags_dom| |apply O].
  intros a t Ha. destruct (tree_member _ _ Ha) as (Hp & _). split; [|destruct (space_block m L Ms Mt D _ _ _ O Hp) as (_ & _ & _ & _ & <-); by apply chunksize_tags, keeps_tags_heads].
  f_equal. apply (Hf a).
  - destruct (Ms !! a) eqn:Em; [|done]. exfalso. eapply bins_apart; [|exact Em]. apply elem_of_app. left. by apply elem_of_map_to_list.
  - intros ->. congruence.
  - intros i Hi. by apply (hdr_not_free a t).
Qed.

Lemma tree_keeps_small c X : least_addr c = least_addr (core m) -> keeps_tags (core m) c -> (forall b, Mt !! b = None -> b <> X -> heads c b = heads (core m) b) ->
  Ms !! X = None -> (forall i, (i < 32)%nat -> hdr m i <> X) -> small_bins (with_core c m) Ms.
Proof using O.
  intros El K Hf HX Hh. apply (small_bins_same m); try done; [cbn; lia|by intros b _; apply keeps_tags_dom| | |apply O].
  - intros i Hi. f_equal. apply (Hf (hdr m i)); [|by apply Hh]. destruct (Mt !! hdr m i) as [s|] eqn:Em; [|done]. destruct (tree_member _ _ Em) as [Hp _]. by apply (hdr_not_free _ s i) in Hp.
  - intros a t Ha. destruct (small_member _ _ Ha) as (Hp & _). split; [|destruct (space_block m L Ms Mt D _ _ _ O Hp) as (_ & _ & _ & _ & <-); by apply chunksize_tags, keeps_tags_heads].
    f_equal. apply (Hf a); [|intros ->; congruence]. destruct (Mt !! a) eqn:Em; [|done]. exfalso. eapply bins_apart; [|exact Ha]. apply elem_of_app. left. by apply elem_of_map_to_list.
Qed.

Lemma unlinked_small m' v s : Ms !! v = Some s -> small_step m m' Ms (delete v Ms) v -> links_eff m m' /\ space_ok m' L (delete v Ms) Mt ((v, s) :: D).
Proof using O.
  intros Hv HS. destruct (small_member _ _ Hv) as [Hp _]. pose proof (small_eff_links _ _ (ss_eff _ _ _ _ _ HS)) as HE. split; [done|].
  apply (move_bins m m' L Ms Mt D); try done.
  - apply HS.
  - apply (small_keeps_tree m' (delete v Ms) v s); try done. destruct (Mt !! v) eqn:Em; [|done]. exfalso. eapply bins_apart; [|exact Hv]. apply elem_of_app. left. by apply elem_of_map_to_list.
  - rewrite <- (map_to_list_delete Ms v s Hv). solve_Permutation.
Qed.

Lemma unlink_tree v s : Mt !! v = Some s -> exists m', on_core (unlink_large_chunk v) m = Some m' /\ links_eff m m' /\ space_ok m' L Ms (delete v Mt) ((v, s) :: D).
Proof using O.
  intros Hv. destruct (tree_unlink (core m) Mt v s (ok_tree _ _ _ _ _ O) Hv) as (c & E & HT & K & El & Hf). destruct (tree_member _ _ Hv) as [Hp _].
  unfold on_core. rewrite E. cbn [mbind option_bind]. eexists. split; [done|]. pose proof (links_eff_core m c El K) as HE. split; [done|]. apply (move_bins m (with_core c m) L Ms Mt D); try done.
  - apply (tree_keeps_small c v); try done; try apply El; [by intros b Hb _; apply Hf| |].
    + destruct (Ms !! v) eqn:Em; [|done]. exfalso. eapply bins_apart; [|exact Em]. apply elem_of_app. left. by apply elem_of_map_to_list.
    + intros i Hi Eh. by apply (hdr_not_free v s i Hp Hi).
  - rewrite <- (map_to_list_delete Mt v s Hv). solve_Permutation.
Qed.

Lemma unlink_small v s : Ms !! v = Some s -> exists m', unlink_small_chunk v s m = Some m' /\ links_eff m m' /\ space_ok m' L (delete v Ms) Mt ((v, s) :: D).
Proof using O. intros Hv. destruct (small_unlink m Ms v s (ok_small _ _ _ _ _ O) Hv) as (m' & E & HS). exists m'. split; [done|]. by apply unlinked_small. Qed.

Lemma unlink_free v s : (v, s) ∈ map_to_list Ms ++ map_to_list Mt -> exists m' Ms' Mt', unlink_chunk v s m = Some m' /\ links_eff m m' /\ space_ok m' L Ms' Mt' ((v, s) :: D).
Proof using O.
  intros Hv. unfold unlink_chunk. apply elem_of_app in Hv as [Hv%elem_of_map_to_list|Hv%elem_of_map_to_list].
  - destruct (small_member _ _ Hv) as [_ ->]. destruct (unlink_small v s Hv) as (m' & E & H1 & H2). eauto 10.
  - destruct (tree_member _ _ Hv) as (_ & -> & _). destruct (unlink_tree v s Hv) as (m' & E & H1 & H2). eauto 10.
Qed.
End Moves.

(** A loose chunk goes to the bins. *)
Lemma insert_small m L Ms Mt D p s : space_ok m L Ms Mt ((p, s) :: D) -> is_small s = true -> exists m', insert_small_chunk p s m = Some m' /\ links_eff m m' /\ space_ok m' L (<[p := s]> Ms) Mt D.
Proof.
  intros O Hs. assert (Hin : (p, s) ∈ map_to_list Mt ++ (p, s) :: D) by (apply elem_of_app; right; by left).
  assert (Hp : (p, KFree, s) ∈ all_placed L) by (apply (free_placed m L Ms Mt ((p, s) :: D) O), elem_of_app; by right). destruct (space_block m L Ms Mt _ _ _ _ O Hp) as (H32 & H8 & _ & G & Es).
  assert (Hlt : s < 256) by (rewrite is_small_eq in Hs by lia; lia).
  assert (HMs : Ms !! p = None) by (destruct (Ms !! p) eqn:E; [exfalso; by eapply bins_apart|done]).
  assert (HMt : Mt !! p = None) by (destruct (Mt !! p) eqn:E; [exfalso; eapply tree_disjoint; [done|by left|done]|done]).
  destruct (small_insert m Ms p s (ok_small _ _ _ _ _ O) HMs G Es H8 ltac:(lia)) as (m' & E & HS); [intros i Hi; by apply (hdr_not_free m L Ms Mt ((p, s) :: D) O p s)|].
  exists m'. split; [done|]. pose proof (small_eff_links _ _ (ss_eff _ _ _ _ _ HS)) as HE. split; [done|]. apply (move_bins m m' L Ms Mt ((p, s) :: D)); try done.
  - apply HS.
  - by apply (small_keeps_tree m L Ms Mt ((p, s) :: D) O m' (<[p := s]> Ms) p s).
  - rewrite map_to_list_insert by done. solve_Permutation.
Qed.

Lemma insert_tree m L Ms Mt D p s : space_ok m L Ms Mt ((p, s) :: D) -> is_small s = false ->
  exists m', on_core (insert_large_chunk p s) m = Some m' /\ links_eff m m' /\ space_ok m' L Ms (<[p := s]> Mt) D.
Proof.
  intros O Hs. assert (Hin : (p, s) ∈ map_to_list Mt ++ (p, s) :: D) by (apply elem_of_app; right; by left).
  assert (Hp : (p, KFree, s) ∈ all_placed L) by (apply (free_placed m L Ms Mt ((p, s) :: D) O), elem_of_app; by right). destruct (space_block m L Ms Mt _ _ _ _ O Hp) as (H32 & H8 & _ & G & Es).
  assert (Hge : 256 <= s) by (rewrite is_small_eq in Hs by lia; lia).
  assert (HMs : Ms !! p = None) by (destruct (Ms !! p) eqn:E; [exfalso; by eapply bins_apart|done]).
  assert (HMt : Mt !! p = None) by (destruct (Mt !! p) eqn:E; [exfalso; eapply tree_disjoint; [done|by left|done]|done]).
  destruct (tree_insert (core m) Mt p s (ok_tree _ _ _ _ _ O) HMt G Es ltac:(lia)) as (c & E & HT & K & El & Hf).
  unfold on_core. rewrite E. cbn [mbind option_bind]. eexists. split; [done|]. pose proof (links_eff_core m c El K) as HE. split; [done|]. apply (move_bins m (with_core c m) L Ms Mt ((p, s) :: D)); try done.
  - apply (tree_keeps_small m L Ms Mt ((p, s) :: D) O c p); try done; try apply El. intros i Hi Eh. by apply (hdr_not_free m L Ms Mt ((p, s) :: D) O p s i Hp Hi).
  - rewrite map_to_list_insert by done. solve_Permutation.
Qed.

Lemma insert_free m L Ms Mt D p s : space_ok m L Ms Mt ((p, s) :: D) -> exists m' Ms' Mt', insert_chunk p s m = Some m' /\ links_eff m m' /\ space_ok m' L Ms' Mt' D.
Proof.
  intros O. unfold insert_chunk. destruct (is_small s) eqn:Hs.
  - destruct (insert_small m L Ms Mt D p s O Hs) as (m' & E & H1 & H2). eauto 10.
  - destruct (insert_tree m L Ms Mt D p s O Hs) as (m' & E & H1 & H2). eauto 10.
Qed.

(** ** Changes of one segment *)
Lemma placed_insert L i sg : L !! i = Some sg -> exists rest, all_placed L ≡ₚ seg_placed sg ++ rest /\ forall sg', all_placed (<[i := sg']> L) ≡ₚ seg_placed sg' ++ rest.
Proof.
  intros Hi. assert (Hl : (i < length L)%nat) by (by eapply lookup_lt_Some). exists (all_placed (take i L) ++ all_placed (drop (S i) L)).
  assert (E : forall sg', all_placed (<[i := sg']> L) ≡ₚ seg_placed sg' ++ all_placed (take i L) ++ all_placed (drop (S i) L)).
  { intros sg'. unfold all_placed. rewrite insert_take_drop by done. rewrite fmap_app, concat_app. cbn. solve_Permutation. }
  split; [|done]. rewrite <- E. by rewrite list_insert_id.
Qed.

(** A segment other than the one that was changed. *)
Lemma other_seg m L Ms Mt D i sg j s2 : space_ok m L Ms Mt D -> L !! i = Some sg -> L !! j = Some s2 -> i <> j ->
  seg_apart sg s2 /\ seg_ok m s2 /\ (sl_top s2 = true -> sl_top sg = false).
Proof.
  intros O Hi Hj Hne. split; [by apply (ok_apart _ _ _ _ _ O i j)|]. split; [by apply (Forall_lookup_1 _ _ _ _ (ok_segs _ _ _ _ _ O) Hj)|].
  destruct (ok_top _ _ _ _ _ O) as [_ Hk]. rewrite (Hk _ _ Hi), (Hk _ _ Hj). intros ->%bool_decide_eq_true. by apply bool_decide_eq_false.
Qed.

(** The segments [L'] and the free chunks [D'] in no bin, with the bins as they were. *)
Lemma rebuild m m' L L' Ms Mt D D' : space_ok m L Ms Mt D -> smallmap m' = smallmap m -> ms_at m' = ms_at m -> magic m' = magic m ->
  treemap (core m') = treemap (core m) -> treebins (core m') = treebins (core m) -> treebins_at (core m') = treebins_at (core m) -> 0 < least_addr (core m') <= least_addr (core m) ->
  (forall a k s b, (a, k, s) ∈ all_placed L' -> a <= b < a + s -> link_part (heads_of_space m' b) = link_part (heads_of_space m b) /\ (is_Some (read m b) -> is_Some (read m' b))) ->
  Forall (seg_ok m') L' -> (forall i j s1 s2, i <> j -> L' !! i = Some s1 -> L' !! j = Some s2 -> seg_apart s1 s2) ->
  (L' <> [] /\ forall j sg, L' !! j = Some sg -> sl_top sg = bool_decide (j = 0)%nat) -> Forall2 seg_matches (segs m') L' -> head (seg_at <$> segs m') = Some (ms_at m + 880) ->
  Forall (direct_ok m') (direct m') -> (forall r, r ∈ direct m' -> forall sg, sg ∈ L' -> regions_apart r (sl_region sg)) ->
  (forall i j r1 r2, i <> j -> direct m' !! i = Some r1 -> direct m' !! j = Some r2 -> regions_apart r1 r2) ->
  of_kind KFree (all_placed L') ≡ₚ map_to_list Ms ++ map_to_list Mt ++ D' -> (ms_at m - 16, KSys, 960) ∈ all_placed L' -> space_ok m' L' Ms Mt D'.
Proof.
  intros O Esm Eat Emg E1 E2 E3 [El0 El] Hlink HF HA Ht HM Hfst Hd Hda Hds HFr Hh.
  assert (Hin : forall a s, (a, s) ∈ map_to_list Ms ++ map_to_list Mt -> (a, KFree, s) ∈ all_placed L') by (intros a s Ha; apply of_kind_in; rewrite HFr, app_assoc; apply elem_of_app; by left).
  assert (Hsz : forall a s, (a, s) ∈ map_to_list Ms ++ map_to_list Mt -> 32 <= s /\ chunksize (heads_of_space m' a) = s).
  { intros a s Ha. apply Hin, in_placed in Ha as (j & s2 & Hj & Ha). pose proof (Forall_lookup_1 _ _ _ _ HF Hj) as S2. pose proof (seg_bounds _ _ _ _ _ S2 Ha). split; [lia|]. by apply (seg_block m' s2 a KFree s). }
  assert (Hms : forall a s, Ms !! a = Some s -> (a, s) ∈ map_to_list Ms ++ map_to_list Mt) by (intros a s Ha; apply elem_of_app; left; by apply elem_of_map_to_list).
  assert (Hmt : forall a s, Mt !! a = Some s -> (a, s) ∈ map_to_list Ms ++ map_to_list Mt) by (intros a s Ha; apply elem_of_app; right; by apply elem_of_map_to_list).
  assert (Hbin : forall a s, (a, s) ∈ map_to_list Ms ++ map_to_list Mt -> link_part (heads_of_space m' a) = link_part (heads_of_space m a) /\ (is_Some (read m a) -> is_Some (read m' a))).
  { intros a s Ha. destruct (Hsz _ _ Ha). apply (Hlink a KFree s); [by apply Hin|lia]. }
  assert (Hhdr : forall i, (i < 32)%nat -> link_part (heads_of_space m' (hdr m i)) = link_part (heads_of_space m (hdr m i)) /\ (is_Some (read m (hdr m i)) -> is_Some (read m' (hdr m i)))).
  { intros i Hi. pose proof (hdr_range m i Hi). apply (Hlink (ms_at m - 16) KSys 960); [done|lia]. }
  split; try done.
  - by rewrite Eat.
  - apply (small_bins_same m); try done; [|intros i Hi; by apply Hhdr| |apply O].
    + intros b [(i & Hi & ->)|[s Hs]]; [by apply Hhdr|by apply (Hbin b s), Hms].
    + intros a s Ha. split; [by apply (Hbin a s), Hms|]. by apply Hsz, Hms.
  - apply (tree_bins_same (core m)); try done; [|intros a s Ha; split; [by apply (Hbin a s), Hmt|by apply Hsz, Hmt]|apply O]. intros b s Hb. by apply (Hbin b s), Hmt.
  - by rewrite Eat.
  - rewrite Eat, Emg. apply O.
  - rewrite E3, Eat. apply O.
Qed.

(** One segment and its record change. *)
Lemma reshape_seg m m' L Ms Mt D D' i sg sg' r r' : space_ok m L Ms Mt D -> L !! i = Some sg -> segs m !! i = Some r -> segs m' = <[i := r']> (segs m) -> seg_matches r' sg' -> seg_at r' = seg_at r ->
  (smallmap m', ms_at m', magic m', direct m') = (smallmap m, ms_at m, magic m, direct m) ->
  core m' = MState (least_addr (core m')) (treebins_at (core m)) (treemap (core m)) (treebins (core m)) (chunks (core m')) -> 0 < least_addr (core m') <= least_addr (core m) ->
  (forall a k s b, (a, k, s) ∈ all_placed (<[i := sg']> L) -> a <= b < a + s -> link_part (heads_of_space m' b) = link_part (heads_of_space m b) /\ (is_Some (read m b) -> is_Some (read m' b))) ->
  seg_ok m' sg' -> sl_top sg' = sl_top sg -> (forall j s2, i <> j -> L !! j = Some s2 -> seg_ok m' s2 /\ seg_apart sg' s2) ->
  Forall (direct_ok m') (direct m) -> (forall d, d ∈ direct m -> regions_apart d (sl_region sg')) ->
  of_kind KFree (seg_placed sg) ++ D' ≡ₚ of_kind KFree (seg_placed sg') ++ D -> (forall a s, (a, KSys, s) ∈ seg_placed sg -> (a, KSys, s) ∈ seg_placed sg') ->
  space_ok m' (<[i := sg']> L) Ms Mt D'.
Proof.
  intros O Hi Hr Esg HM Eat [= E1 E2 E3 E4] Ec El Hlink S' Etp Hother Hd Hda HP Hsys. assert (Hl : (i < length L)%nat) by (by eapply lookup_lt_Some).
  destruct (placed_insert L i sg Hi) as (rest & Eall & Ens). specialize (Ens sg'). apply (rebuild m m' L _ Ms Mt D D' O); try done; try (by rewrite Ec).
  - apply Forall_lookup. intros j s2 Hj. apply list_lookup_insert_Some in Hj as [(<- & <- & _)|[Hne Hj]]; [done|by apply (Hother j)].
  - intros j k s1 s2 Hne Hj Hk. apply list_lookup_insert_Some in Hj as [(<- & <- & _)|[Hj1 Hj]]; apply list_lookup_insert_Some in Hk as [(<- & <- & _)|[Hk1 Hk]].
    + done.
    + by apply (Hother k).
    + destruct (Hother j s1 Hj1 Hj) as (_ & HA). unfold seg_apart in *. tauto.
    + by apply (ok_apart _ _ _ _ _ O j k).
  - destruct (ok_top _ _ _ _ _ O) as [Hne Hall]. split; [intros E; apply (f_equal length) in E; rewrite length_insert in E; by destruct L|]. intros j s2 Hj.
    apply list_lookup_insert_Some in Hj as [(<- & <- & _)|[Hj1 Hj]]; [rewrite Etp|]; by apply Hall.
  - rewrite Esg. pose proof (ok_match _ _ _ _ _ O) as HMs. apply Forall2_same_length_lookup_2; [rewrite !length_insert; by eapply Forall2_length|]. intros j r2 s2 Hj Hj2.
    apply list_lookup_insert_Some in Hj2 as [(<- & <- & _)|[Hne Hj2]].
    + rewrite list_lookup_insert_eq in Hj; [by injection Hj as <-|]. by eapply lookup_lt_Some.
    + rewrite list_lookup_insert_ne in Hj by done. by apply (Forall2_lookup_lr _ _ _ _ _ _ HMs Hj Hj2).
  - rewrite Esg. pose proof (ok_first _ _ _ _ _ O) as Hf. destruct (segs m) as [|r0 rs]; [done|]. destruct i as [|i]; [|done]. cbn in Hf, Hr |- *. by injection Hr as ->; rewrite Eat.
  - by rewrite E4.
  - intros d Hin s2 Hin2. rewrite E4 in Hin. apply list_elem_of_lookup in Hin2 as [j Hj]. apply list_lookup_insert_Some in Hj as [(<- & <- & _)|[_ Hj]]; [by apply Hda|].
    apply (ok_dapart _ _ _ _ _ O d Hin s2). by eapply list_elem_of_lookup_2.
  - rewrite E4. apply O.
  - apply (Permutation_app_inv_r D). rewrite Ens, of_kind_app. pose proof (ok_free _ _ _ _ _ O) as HP0. rewrite Eall, of_kind_app in HP0.
    transitivity ((of_kind KFree (seg_placed sg') ++ D) ++ of_kind KFree rest); [solve_Permutation|]. rewrite <- HP. transitivity ((of_kind KFree (seg_placed sg) ++ of_kind KFree rest) ++ D'); [solve_Permutation|].
    rewrite HP0. solve_Permutation.
  - pose proof (ok_hdr _ _ _ _ _ O) as Ha. rewrite Ens. rewrite Eall in Ha. apply elem_of_app. apply elem_of_app in Ha as [Ha|Ha]; [left; by apply Hsys|by right].
Qed.

Lemma record_of m L Ms Mt D i sg : space_ok m L Ms Mt D -> L !! i = Some sg -> exists r, segs m !! i = Some r /\ seg_matches r sg.
Proof. intros O Hi. destruct (Forall2_lookup_r _ _ _ _ _ (ok_match _ _ _ _ _ O) Hi) as (r & Hr & HM). eauto. Qed.

Lemma replace_seg m m' g t ts L Ms Mt D D' i sg sg' : space_ok m L Ms Mt D -> L !! i = Some sg -> tagged (with_top t ts m) m' g -> (sl_top sg = false -> t = top m /\ ts = topsize m) ->
  seg_ok m' sg' -> sl_start sg' = sl_start sg -> sl_top sg' = sl_top sg -> sl_limit sg' = sl_limit sg -> (sl_top sg = false -> sl_end sg' = sl_end sg) ->
  same_tags (heads_of_space m) g (fun x => x < sl_start sg \/ sl_limit sg <= x) ->
  of_kind KFree (seg_placed sg) ++ D' ≡ₚ of_kind KFree (seg_placed sg') ++ D -> (forall a s, (a, KSys, s) ∈ seg_placed sg -> (a, KSys, s) ∈ seg_placed sg') ->
  space_ok m' (<[i := sg']> L) Ms Mt D'.
Proof.
  intros O Hi T Htop S' Est Etp Elim Eend Hs HP Hsys. pose proof (tg_rest _ _ _ T) as Hr. destruct (record_of m L Ms Mt D i sg O Hi) as (r & Hri & [M1 M2 M3 M4]).
  apply (reshape_seg m m' L Ms Mt D D' i sg sg' r r O Hi Hri); try (by rewrite Hr); try done.
  - rewrite Hr. cbn. by rewrite list_insert_id.
  - split; rewrite ?Est, ?Elim, ?Etp; try done. intros E. by rewrite Eend, M3.
  - rewrite Hr. pose proof (ok_least _ _ _ _ _ O). cbn. lia.
  - intros a k s b _ _. rewrite (tg_view _ _ _ T). split; [apply (tg_link _ _ _ T)|apply (tg_dom _ _ _ T)].
  - intros j s2 Hne Hj. destruct (other_seg m L Ms Mt D i sg j s2 O Hi Hj Hne) as (HA & S2 & Ht). split; [|unfold seg_apart in *; by rewrite Est, Elim].
    apply (seg_same m m' s2 S2); try (by rewrite Hr); try done; [intros E; rewrite Hr; cbn; by apply Htop, Ht|intros b Hb; by apply (tg_dom _ _ _ T)|].
    intros x Hx. rewrite (tg_view _ _ _ T). apply Hs. destruct HA; lia.
  - rewrite Forall_forall. intros d Hin. pose proof (proj1 (Forall_forall _ _) (ok_direct _ _ _ _ _ O) d Hin) as Hd. apply (direct_same m m' d Hd); try (by rewrite Hr); [by intros b _ Hb; apply (tg_dom _ _ _ T)|].
    intros x Hx. rewrite (tg_view _ _ _ T). apply Hs. destruct (ok_dapart _ _ _ _ _ O d Hin sg (list_elem_of_lookup_2 _ _ _ Hi)) as [H|H]; cbn in H; lia.
  - intros d Hin. unfold regions_apart, sl_region. rewrite Est, Elim. apply (ok_dapart _ _ _ _ _ O d Hin sg). by eapply list_elem_of_lookup_2.
Qed.
