(* ===== verification/DlBlocks.v ===== *)
(** Chunks of a memory space taken, split and merged: what the boundary-tag macros do to
    the layout of the segments. *)
From stdpp Require Import gmap.
From S2P Require Import Prelude DlBins DlTree DlUnlink DlFit DlSmall DlSpace DlLayout DlInv.
Local Open Scope Z_scope.
Implicit Types g : Z -> tchunk.

(** ** Heads *)
Lemma used_head k s : in_use k = true -> s mod 8 = 0 -> Z.lor (Z.lor s PINUSE_BIT) CINUSE_BIT = head_word k s true.
Proof. intros Hk Hs. rewrite <- Z.lor_assoc. change (Z.lor PINUSE_BIT CINUSE_BIT) with 3. rewrite lor_flags by lia. by destruct k. Qed.

Lemma free_head s : s mod 8 = 0 -> Z.lor s PINUSE_BIT = head_word KFree s true.
Proof. intros Hs. unfold PINUSE_BIT. by rewrite lor_flags by lia. Qed.

Lemma pin_head k s : in_use k = true -> s mod 8 = 0 -> Z.lor (head_word k s false) PINUSE_BIT = head_word k s true.
Proof.
  intros Hk Hs. unfold head_word. rewrite Hk. cbn [Z.b2z]. rewrite <- (lor_flags s) by lia. rewrite <- Z.lor_assoc. change (Z.lor (0 + 2 * 1) PINUSE_BIT) with 3. by rewrite lor_flags by lia.
Qed.

Lemma unpin_head k s : in_use k = true -> s mod 8 = 0 -> 0 <= s < 2 ^ 63 -> Z.land (head_word k s true) (u64 (Z.lnot PINUSE_BIT)) = head_word k s false.
Proof.
  intros Hk Hs Hr. set (h := head_word k s true). assert (Eh : h = s + 3) by (unfold h, head_word; by rewrite Hk).
  unfold uwrap. rewrite <- Z.land_ones, (Z.land_comm (Z.lnot _)), Z.land_assoc, Z.land_ones, Z.mod_small by lia. change (Z.land h (Z.lnot PINUSE_BIT)) with (Z.land h (Z.lnot (Z.ones 1))).
  rewrite <- Z.ldiff_land, Z.ldiff_ones_r, Z.shiftl_mul_pow2, Z.shiftr_div_pow2, Eh by lia. unfold head_word. rewrite Hk. cbn [Z.b2z].
  pose proof (Z.div_mod s 8 ltac:(lia)) as E. replace ((s + 3) / 2 ^ 1) with (4 * (s / 8) + 1) by (apply (Z.div_unique_pos _ _ _ 1); lia). lia.
Qed.

Lemma head_flags k s q c : tc_head c = head_word k s q -> s mod 8 = 0 -> chunksize c = s /\ pinuse c = q /\ cinuse c = in_use k /\
  is_inuse c = negb (q && negb (in_use k)) /\ is_mmapped c = negb q && negb (in_use k) /\ (Z.land (tc_head c) INUSE_BITS =? INUSE_BITS) = q && in_use k.
Proof.
  intros E Hs. assert (Hf : 0 <= Z.b2z q + 2 * Z.b2z (in_use k) < 8) by (destruct q, k; cbn; lia).
  split; [by apply (size_of_head c s (Z.b2z q + 2 * Z.b2z (in_use k)))|]. unfold pinuse, cinuse, is_inuse, is_mmapped, PINUSE_BIT, CINUSE_BIT. change INUSE_BITS with 3. rewrite E. unfold head_word.
  rewrite !(land_flags s) by (done || lia). by destruct q, k.
Qed.

(** ** What the macros store *)
(** From [m] to [m'] with heads [g'], over the space [m0]. *)
Record wrote (m0 m m' : mspace) g' : Prop := {
  wr_tagged : tagged m0 m' g'; wr_dom : forall b, is_Some (read m b) -> is_Some (read m' b) }.

Lemma fupd_tag a f g b : b <> a -> tags (fupd a f g b) = tags (g b).
Proof. intros Hb. by rewrite fupd_ne. Qed.

Lemma set_used_run m0 m g p s : tagged m0 m g -> mapped m0 (p + 8) = true -> mapped m0 (p + s) = true -> 0 < s -> s mod 8 = 0 ->
  exists m' g', set_size_and_pinuse_of_inuse_chunk p s m = Some m' /\ wrote m0 m m' g' /\ is_Some (read m' p) /\
    tags (g' p) = (tc_prev_foot (g p), head_word KUsed s true) /\ tags (g' (p + s)) = (footer m0, tc_head (g (p + s))) /\ same_tags g g' (fun z => z <> p /\ z <> p + s).
Proof.
  intros T M1 M2 Hs H8. unfold set_size_and_pinuse_of_inuse_chunk. destruct (put_head_step m0 m g p (fun _ => Z.lor (Z.lor s PINUSE_BIT) CINUSE_BIT) T M1) as (m1 & -> & T1 & D1 & R1). cbn [mbind option_bind].
  unfold mark_inuse_foot. rewrite (footer_tagged _ _ _ T1). destruct (put_foot_step m0 m1 _ (p + s) (footer m0) T1 M2) as (m2 & -> & T2 & R2).
  eexists m2, _. split; [done|]. split; [split; [exact T2|auto]|]. split; [auto|]. rewrite (used_head KUsed) by done. split; [|split].
  - rewrite fupd_tag by lia. by rewrite fupd_eq.
  - rewrite fupd_eq. by rewrite fupd_ne by lia.
  - intros z [Hz1 Hz2]. by rewrite !fupd_ne.
Qed.

Lemma set_free_run m0 m g p s : tagged m0 m g -> mapped m0 (p + 8) = true -> mapped m0 (p + s) = true -> 0 < s -> s mod 8 = 0 ->
  exists m' g', set_size_and_pinuse_of_free_chunk p s m = Some m' /\ wrote m0 m m' g' /\ is_Some (read m' p) /\
    tags (g' p) = (tc_prev_foot (g p), head_word KFree s true) /\ tags (g' (p + s)) = (s, tc_head (g (p + s))) /\ same_tags g g' (fun z => z <> p /\ z <> p + s).
Proof.
  intros T M1 M2 Hs H8. unfold set_size_and_pinuse_of_free_chunk. destruct (put_head_step m0 m g p (fun _ => Z.lor s PINUSE_BIT) T M1) as (m1 & -> & T1 & D1 & R1). cbn [mbind option_bind].
  destruct (put_foot_step m0 m1 _ (p + s) s T1 M2) as (m2 & -> & T2 & R2).
  eexists m2, _. split; [done|]. split; [split; [exact T2|auto]|]. split; [auto|]. rewrite free_head by done. split; [|split].
  - rewrite fupd_tag by lia. by rewrite fupd_eq.
  - rewrite fupd_eq. by rewrite fupd_ne by lia.
  - intros z [Hz1 Hz2]. by rewrite !fupd_ne.
Qed.

Lemma set_inuse_run m0 m g p s : tagged m0 m g -> mapped m0 (p + 8) = true -> mapped m0 (p + s + 8) = true -> mapped m0 (p + s) = true -> 0 < s -> s mod 8 = 0 ->
  exists m' g', set_inuse_and_pinuse p s m = Some m' /\ wrote m0 m m' g' /\ is_Some (read m' p) /\
    tags (g' p) = (tc_prev_foot (g p), head_word KUsed s true) /\ tags (g' (p + s)) = (footer m0, Z.lor (tc_head (g (p + s))) PINUSE_BIT) /\ same_tags g g' (fun z => z <> p /\ z <> p + s).
Proof.
  intros T M1 M2 M3 Hs H8. unfold set_inuse_and_pinuse. destruct (put_head_step m0 m g p (fun _ => Z.lor (Z.lor s PINUSE_BIT) CINUSE_BIT) T M1) as (m1 & -> & T1 & D1 & R1). cbn [mbind option_bind].
  destruct (put_head_step m0 m1 _ (p + s) (fun h => Z.lor h PINUSE_BIT) T1 M2) as (m2 & -> & T2 & D2 & R2). cbn [mbind option_bind].
  unfold mark_inuse_foot. rewrite (footer_tagged _ _ _ T2). destruct (put_foot_step m0 m2 _ (p + s) (footer m0) T2 M3) as (m3 & -> & T3 & R3).
  eexists m3, _. split; [done|]. split; [split; [exact T3|auto]|]. split; [auto|]. rewrite (used_head KUsed) by done. split; [|split].
  - rewrite !fupd_tag by lia. by rewrite fupd_eq.
  - rewrite !fupd_eq. by rewrite fupd_ne by lia.
  - intros z [Hz1 Hz2]. by rewrite !fupd_ne.
Qed.

Lemma set_free_pin_run m0 m g p s : tagged m0 m g -> mapped m0 (p + 8) = true -> mapped m0 (p + s + 8) = true -> mapped m0 (p + s) = true -> 0 < s -> s mod 8 = 0 ->
  exists m' g', set_free_with_pinuse p s (p + s) m = Some m' /\ wrote m0 m m' g' /\ is_Some (read m' p) /\
    tags (g' p) = (tc_prev_foot (g p), head_word KFree s true) /\ tags (g' (p + s)) = (s, Z.land (tc_head (g (p + s))) (u64 (Z.lnot PINUSE_BIT))) /\ same_tags g g' (fun z => z <> p /\ z <> p + s).
Proof.
  intros T M1 M2 M3 Hs H8. unfold set_free_with_pinuse. destruct (put_head_step m0 m g (p + s) (fun h => Z.land h (u64 (Z.lnot PINUSE_BIT))) T M2) as (m1 & -> & T1 & D1 & R1). cbn [mbind option_bind].
  destruct (set_free_run m0 m1 _ p s T1 M1 M3 Hs H8) as (m2 & g2 & -> & [T2 R2] & D2 & E1 & E2 & E3). exists m2, g2. split; [done|]. split; [split; [done|auto]|]. split; [done|].
  split; [rewrite E1; by rewrite fupd_ne by lia|]. split; [rewrite E2; by rewrite fupd_eq|]. intros z Hz. rewrite E3 by done. by rewrite fupd_ne by lia.
Qed.

(** ** Changes inside a segment *)
Definition used (L : list seglay) : list (Z * Z) := of_kind KUsed (all_placed L).
(** Only tags have changed. *)
Definition tag_eff (m m' : mspace) : Prop := m' = with_core (with_chunks (chunks (core m')) (core m)) m.

Lemma space_ok_perm m L Ms Mt D D' : D ≡ₚ D' -> space_ok m L Ms Mt D -> space_ok m L Ms Mt D'.
Proof. intros HP O. destruct O. split; try done. by rewrite <- HP. Qed.

Lemma with_top_self m : with_top (top m) (topsize m) m = m.
Proof. by destruct m. Qed.

Lemma total_app b1 b2 : total (b1 ++ b2) = total b1 + total b2.
Proof. induction b1 as [|[k s] b1 IH]; [done|]. change (s + total (b1 ++ b2) = s + total b1 + total b2). lia. Qed.

Lemma last_sys b1 b2 b0 (s : Z) : b2 <> [] -> b1 ++ b2 = b0 ++ [(KSys, s)] -> exists b, b2 = b ++ [(KSys, s)].
Proof. intros Hne E. destruct b2 as [|y b2 _] using rev_ind; [done|]. rewrite app_assoc in E. apply app_inj_tail in E as [_ ->]. eauto. Qed.

Section Middle.
Context (m : mspace) (L : list seglay) (Ms Mt : gmap Z Z) (D : list (Z * Z)) (O : space_ok m L Ms Mt D).
Context (i : nat) (sg : seglay) (Hi : L !! i = Some sg) (b1 mid b2 : list (kind * Z)) (Hb : sl_blocks sg = b1 ++ mid ++ b2).
Let x : Z := sl_start sg + total b1.
Let y : Z := x + total mid.
Let S : seg_ok m sg := Forall_lookup_1 _ _ _ _ (ok_segs _ _ _ _ _ O) Hi.

Lemma mid_lay : exists q, lay (heads_of_space m) (footer m) true (sl_start sg) b1 x q /\ (exists q', lay (heads_of_space m) (footer m) q x mid y q' /\ lay (heads_of_space m) (footer m) q' y b2 (sl_end sg) true) /\
  sl_start sg <= x /\ x <= y /\ y <= sl_end sg /\ sl_end sg + 16 <= sl_limit sg /\ x mod 8 = 0 /\ y mod 8 = 0 /\ (b2 <> [] -> y < sl_end sg) /\ sl_limit sg - sl_start sg < 2 ^ 40.
Proof using Type*.
  pose proof (so_lay _ _ S) as HL. rewrite Hb in HL. apply lay_app in HL as (c & q & H1 & HL). apply lay_app in HL as (d & q' & H2 & H3).
  destruct (lay_end _ _ _ _ _ _ _ H1) as (-> & Hp1 & Hm1). destruct (lay_end _ _ _ _ _ _ _ H2) as (-> & Hp2 & Hm2). destruct (lay_end _ _ _ _ _ _ _ H3) as (Ee & Hp3 & Hm3).
  destruct (so_start _ _ S) as (Hs & _). fold x in H1, H2, H3, Ee. fold y in H2, H3, Ee. exists q. split; [done|]. split; [by exists q'|].
  assert (Hx : x mod 8 = 0) by (unfold x; rewrite Z.add_mod, Hs, Hm1 by lia; done). assert (Hy : y mod 8 = 0) by (unfold y; rewrite Z.add_mod, Hx, Hm2 by lia; done).
  split_and!; try done; try (unfold y, x in *; lia).
  - apply S.
  - intros Hne. destruct b2 as [|[k s] b2']; [done|]. destruct H3 as ((_ & _ & ?) & _ & H3). destruct (lay_end _ _ _ _ _ _ _ H3) as (? & ? & _). lia.
  - apply S.
Qed.

Lemma used_mid sg' mid' : sl_start sg' = sl_start sg -> sl_blocks sg' = b1 ++ mid' ++ b2 -> total mid' = total mid ->
  used (<[i := sg']> L) ++ of_kind KUsed (placed x mid) ≡ₚ of_kind KUsed (placed x mid') ++ used L.
Proof using Hb Hi.
  intros Es Eb Et. destruct (placed_insert L i sg Hi) as (rest & E1 & E2). unfold used. rewrite E1, (E2 sg'). unfold seg_placed. rewrite Es, Eb, Hb, !placed_app, !of_kind_app, Et. fold x. solve_Permutation.
Qed.

Lemma mid_ok m' g mid' D' : b2 <> [] -> tagged m m' g -> total mid' = total mid -> lay g (footer m) true (sl_start sg) (b1 ++ mid' ++ b2) (sl_end sg) true ->
  (forall a k s, (a, k, s) ∈ placed x mid' -> is_Some (read m' a)) -> same_tags (heads_of_space m) g (fun z => z < x \/ y < z) ->
  of_kind KFree (placed x mid) ++ D' ≡ₚ of_kind KFree (placed x mid') ++ D -> (forall a s, (a, KSys, s) ∉ placed x mid) ->
  exists L', space_ok m' L' Ms Mt D' /\ used L' ++ of_kind KUsed (placed x mid) ≡ₚ of_kind KUsed (placed x mid') ++ used L.
Proof using Type*.
  intros Hne T Et HL Hd Hs HP Hsys. destruct mid_lay as (_ & _ & _ & Hx & Hxy & Hy & Hlim & Hx8 & Hy8 & Hlt & _). specialize (Hlt Hne).
  set (sg' := SegLay (sl_start sg) (b1 ++ mid' ++ b2) (sl_end sg) (sl_top sg) (sl_limit sg)). exists (<[i := sg']> L). split; [|by apply used_mid].
  assert (Hin : forall b, b ∈ seg_placed sg' <-> b ∈ placed (sl_start sg) b1 \/ b ∈ placed x mid' \/ b ∈ placed y b2) by (intros b; unfold seg_placed; cbn; rewrite !placed_app, !elem_of_app, Et; done).
  assert (Hin0 : forall b, b ∈ seg_placed sg <-> b ∈ placed (sl_start sg) b1 \/ b ∈ placed x mid \/ b ∈ placed y b2) by (intros b; unfold seg_placed; rewrite Hb, !placed_app, !elem_of_app; done).
  assert (Te : tags (g (sl_end sg)) = tags (heads_of_space m (sl_end sg))) by (apply Hs; lia). injection Te as _ Te.
  apply (replace_seg m m' g (top m) (topsize m) L Ms Mt D D' i sg sg'); try done.
  - by rewrite with_top_self.
  - split.
    + rewrite (footer_tagged _ _ _ T). cbn. revert HL. apply lay_agree; [intros z _; by rewrite (tg_view _ _ _ T)|by rewrite (tg_view _ _ _ T)].
    + rewrite (tg_rest _ _ _ T). apply S.
    + intros z H1 H2 H3. rewrite (tagged_mapped _ _ _ _ T). by apply (so_covers _ _ S).
    + apply S.
    + apply S.
    + apply S.
    + pose proof (so_end _ _ S) as He. cbn [sl_top sl_end sg']. destruct (sl_top sg).
      * rewrite (tg_view _ _ _ T). destruct He as (H1 & H2 & H3 & H4). assert (Et' : top m' = top m /\ topsize m' = topsize m) by (by rewrite (tg_rest _ _ _ T)). destruct Et' as [-> ->].
        rewrite <- H1, Te, H1. split; [done|]. split; [done|]. split; [by apply (tg_dom _ _ _ T)|done].
      * rewrite (tg_view _ _ _ T), Te. destruct He as (H1 & b & Eb). split; [done|]. rewrite Hb, app_assoc in Eb. destruct (last_sys _ _ _ _ Hne Eb) as (b' & ->).
        exists (b1 ++ mid' ++ b'). cbn. by rewrite <- !app_assoc.
    + intros a k s Ha. apply Hin in Ha as [Ha|[Ha|Ha]]; [|by apply (Hd a k s)|]; apply (tg_dom _ _ _ T), (so_dom _ _ S a k s), Hin0; tauto.
    + intros Htp. pose proof (so_end _ _ S) as He. cbn [sl_top sg'] in Htp. rewrite Htp in He. destruct He as (H1 & _ & _ & _ & H0 & _). apply (foot_keep m); [by apply (so_foot _ _ S)|by rewrite (tg_rest _ _ _ T)|apply (tg_dom _ _ _ T)|].
      rewrite (tg_view _ _ _ T). apply Hs. lia.
  - intros z Hz. apply Hs. lia.
  - unfold seg_placed. cbn [sl_start sl_blocks sg']. rewrite Hb, !placed_app, !of_kind_app, Et. fold x y. transitivity (of_kind KFree (placed (sl_start sg) b1) ++ (of_kind KFree (placed x mid) ++ D') ++ of_kind KFree (placed y b2)); [solve_Permutation|].
    rewrite HP. solve_Permutation.
  - intros a s Ha. apply Hin. apply Hin0 in Ha as [Ha|[Ha|Ha]]; [tauto|by apply Hsys in Ha|tauto].
Qed.
End Middle.

(** A free chunk is followed by a chunk of its segment. *)
Lemma free_place m L Ms Mt D v s : space_ok m L Ms Mt D -> (v, KFree, s) ∈ all_placed L ->
  exists i sg b1 k2 s2 b2, L !! i = Some sg /\ sl_blocks sg = b1 ++ [(KFree, s)] ++ (k2, s2) :: b2 /\ v = sl_start sg + total b1.
Proof.
  intros O Hv. apply in_placed in Hv as (i & sg & Hi & Hv). destruct (placed_split _ _ _ _ _ Hv) as (b1 & b2 & E & Ev). pose proof (Forall_lookup_1 _ _ _ _ (ok_segs _ _ _ _ _ O) Hi) as S.
  destruct b2 as [|[k2 s2] b2]; [|by exists i, sg, b1, k2, s2, b2]. exfalso. pose proof (so_lay _ _ S) as HL. rewrite E in HL. apply lay_app in HL as (c & q & _ & (_ & _ & [_ ?])). done.
Qed.

Lemma wrote_eff m m' g : tagged m m' g -> tag_eff m m'.
Proof. intros T. apply (tg_rest _ _ _ T). Qed.

Lemma tags_pair c a b : tags c = (a, b) -> tc_prev_foot c = a /\ tc_head c = b.
Proof. intros E. by injection E. Qed.

(** The chunk before the one at [p] is in use. *)
Definition pinned (m : mspace) (p : Z) : Prop := pinuse (heads_of_space m p) = true.
Lemma pinned_used m0 m g p s : tagged m0 m g -> tc_head (g p) = head_word KUsed s true -> s mod 8 = 0 -> pinned m p.
Proof. intros T Hh H8. unfold pinned. rewrite (tg_view _ _ _ T). apply (head_flags _ _ _ _ Hh H8). Qed.

(** The first chunk of a segment has none before it. *)
Lemma segment_start m L Ms Mt D sg : space_ok m L Ms Mt D -> sg ∈ L -> is_Some (read m (sl_start sg)) /\ pinned m (sl_start sg).
Proof.
  intros O Hsg. unfold pinned. pose proof (proj1 (Forall_forall _ _) (ok_segs _ _ _ _ _ O) sg Hsg) as S. pose proof (so_lay _ _ S) as HL. pose proof (so_end _ _ S) as He. destruct (sl_blocks sg) as [|[k sz] bs] eqn:Eb.
  - destruct HL as [Es _]. destruct (sl_top sg); [|by destruct He as (_ & [|? ?] & ?)]. destruct He as (Et & Hh & Dt & H8 & _). rewrite Es, Et. split; [done|]. assert (Hhd : tc_head (heads_of_space m (top m)) = head_word KFree (topsize m) true) by (by rewrite Hh). apply (head_flags _ _ _ _ Hhd H8).
  - destruct HL as ((Hh & H8 & _) & _). split; [|apply (head_flags _ _ _ _ Hh H8)]. apply (so_dom _ _ S _ k sz). unfold seg_placed. rewrite Eb. by left.
Qed.

(** A loose chunk is handed out as a whole. *)
Lemma take_free m L Ms Mt D v s : space_ok m L Ms Mt ((v, s) :: D) ->
  exists m' L', set_inuse_and_pinuse v s m = Some m' /\ tag_eff m m' /\ space_ok m' L' Ms Mt D /\ used L' ≡ₚ (v, s) :: used L /\ pinned m' v.
Proof.
  intros O. assert (Hv : (v, KFree, s) ∈ all_placed L) by (apply (free_placed m L Ms Mt ((v, s) :: D) O); rewrite !elem_of_app; right; right; by left).
  destruct (free_place m L Ms Mt _ v s O Hv) as (i & sg & b1 & k2 & s2 & b2 & Hi & Hb & Ev). pose proof (Forall_lookup_1 _ _ _ _ (ok_segs _ _ _ _ _ O) Hi) as S.
  destruct (mid_lay m L Ms Mt _ O i sg Hi b1 [(KFree, s)] ((k2, s2) :: b2) Hb) as (q & _ & _ & Hx & Hxy & Hy & Hlim & Hx8 & Hy8 & Hlt & _). cbn [total] in *. rewrite <- Ev, Z.add_0_r in *.
  pose proof (so_lay _ _ S) as HL. rewrite Hb in HL. destruct (free_neighbours _ _ _ _ _ _ _ _ _ _ _ HL) as (Hk2 & Hh & Hh2 & Hf2 & H32 & H8 & Hle & H322 & Hb1). rewrite <- Ev in *.
  assert (H82 : s2 mod 8 = 0) by (apply lay_app in HL as (? & ? & _ & _ & _ & (_ & ? & _) & _); done).
  assert (HM : forall z, z mod 8 = 0 -> v <= z <= v + s + 8 -> mapped m z = true) by (intros z Hz ?; apply (so_covers _ _ S); (done || lia)).
  destruct (set_inuse_run m m (heads_of_space m) v s (tagged_self m)) as (m' & g' & E & [T _] & D1 & E1 & E2 & E3); [apply HM; [by rewrite Z.add_mod, Hx8|lia]|apply HM; [by rewrite Z.add_mod, Hy8|lia]|apply HM; [done|lia]|lia|done|].
  exists m'. rewrite Hh2, pin_head in E2 by done. apply tags_pair in E1 as [E1f E1h], E2 as [E2f E2h]. edestruct (mid_ok m L Ms Mt ((v, s) :: D) O i sg Hi b1 [(KFree, s)] ((k2, s2) :: b2) Hb m' g' [(KUsed, s)] D) as (L' & O' & HU).
  - done.
  - done.
  - done.
  - cbn [app] in *. apply (lay_take (heads_of_space m)); rewrite <- ?Ev; done.
  - intros a k t Ha%list_elem_of_singleton. simplify_eq. done.
  - cbn [total]. rewrite <- Ev, Z.add_0_r. intros z Hz. apply E3. lia.
  - cbn. rewrite <- Ev. done.
  - intros a t Ha%list_elem_of_singleton. done.
  - exists L'. split; [done|]. split; [by eapply wrote_eff|]. split; [done|]. cbn in HU. rewrite <- Ev in HU. rewrite app_nil_r in HU. split; [done|]. by apply (pinned_used m m' g' v s).
Qed.

(** A loose chunk is split, from the tags that are left behind. *)
Lemma split_tags m L Ms Mt D v s nb : space_ok m L Ms Mt ((v, s) :: D) -> 32 <= nb -> nb mod 8 = 0 -> 32 <= s - nb -> let r := v + nb in
  r mod 8 = 0 /\ (s - nb) mod 8 = 0 /\ (forall z, z mod 8 = 0 -> v <= z <= v + s + 8 -> mapped m z = true) /\ v mod 8 = 0 /\ (v + s) mod 8 = 0 /\
  forall m' g', tagged m m' g' -> is_Some (read m' v) -> is_Some (read m' r) ->
  tags (g' v) = (tc_prev_foot (heads_of_space m v), head_word KUsed nb true) -> tags (g' r) = (footer m, head_word KFree (s - nb) true) ->
  tags (g' (v + s)) = (s - nb, tc_head (heads_of_space m (v + s))) -> same_tags (heads_of_space m) g' (fun z => z <> v /\ z <> r /\ z <> v + s) ->
  exists L', tag_eff m m' /\ space_ok m' L' Ms Mt ((r, s - nb) :: D) /\ used L' ≡ₚ (v, nb) :: used L /\ pinned m' v.
Proof.
  intros O Hnb Hnb8 Hr r. assert (Hv : (v, KFree, s) ∈ all_placed L) by (apply (free_placed m L Ms Mt ((v, s) :: D) O); rewrite !elem_of_app; right; right; by left).
  destruct (free_place m L Ms Mt _ v s O Hv) as (i & sg & b1 & k2 & s2 & b2 & Hi & Hb & Ev). pose proof (Forall_lookup_1 _ _ _ _ (ok_segs _ _ _ _ _ O) Hi) as S.
  destruct (mid_lay m L Ms Mt _ O i sg Hi b1 [(KFree, s)] ((k2, s2) :: b2) Hb) as (q & _ & _ & Hx & Hxy & Hy & Hlim & Hx8 & Hy8 & Hlt & _). cbn [total] in *. rewrite <- Ev, Z.add_0_r in *.
  pose proof (so_lay _ _ S) as HL. rewrite Hb in HL. destruct (free_neighbours _ _ _ _ _ _ _ _ _ _ _ HL) as (Hk2 & Hh & Hh2 & Hf2 & H32 & H8 & Hle & H322 & Hb1). rewrite <- Ev in *.
  split; [unfold r; by rewrite Z.add_mod, Hx8, Hnb8|]. split; [by rewrite Zminus_mod, H8, Hnb8|]. split; [intros z Hz ?; apply (so_covers _ _ S); (done || lia)|]. split; [done|]. split; [done|].
  intros m' g' T D1 D2 [E1f E1h]%tags_pair [E2f E2h]%tags_pair [E3f E3h]%tags_pair E4.
  edestruct (mid_ok m L Ms Mt ((v, s) :: D) O i sg Hi b1 [(KFree, s)] ((k2, s2) :: b2) Hb m' g' [(KUsed, nb); (KFree, s - nb)] ((r, s - nb) :: D)) as (L' & O' & HU).
  - done.
  - done.
  - cbn [total]. lia.
  - cbn [app] in *. apply (lay_split (heads_of_space m) g' _ _ _ b1 s); rewrite <- ?Ev; done.
  - rewrite <- Ev. intros a k t Ha. cbn in Ha. rewrite elem_of_cons, list_elem_of_singleton in Ha. destruct Ha; simplify_eq; done.
  - cbn [total]. rewrite <- Ev, Z.add_0_r. intros z Hz. apply E4. unfold r. lia.
  - cbn. rewrite <- Ev. fold r. solve_Permutation.
  - intros a t Ha%list_elem_of_singleton. done.
  - exists L'. split; [by eapply wrote_eff|]. split; [done|]. cbn in HU. rewrite <- Ev in HU. rewrite app_nil_r in HU. split; [done|]. by apply (pinned_used m m' g' v nb).
Qed.

Lemma split_free m L Ms Mt D v s nb : space_ok m L Ms Mt ((v, s) :: D) -> 32 <= nb -> nb mod 8 = 0 -> 32 <= s - nb -> let r := v + nb in
  exists m' L', (m ← set_size_and_pinuse_of_inuse_chunk v nb m; set_size_and_pinuse_of_free_chunk r (s - nb) m) = Some m' /\
    tag_eff m m' /\ space_ok m' L' Ms Mt ((r, s - nb) :: D) /\ used L' ≡ₚ (v, nb) :: used L /\ pinned m' v.
Proof.
  intros O Hnb Hnb8 Hr r. destruct (split_tags m L Ms Mt D v s nb O Hnb Hnb8 Hr) as (Hr8 & Hs8 & HM & Hv8 & Hy8 & Hend). fold r in Hr8, Hend.
  destruct (set_used_run m m _ v nb (tagged_self m)) as (m1 & g1 & -> & [T1 _] & D1 & E1 & E2 & E3); [apply HM; [by rewrite Z.add_mod, Hv8|lia]|apply HM; [done|lia]|lia|done|]. cbn [mbind option_bind].
  destruct (set_free_run m m1 g1 r (s - nb) T1) as (m2 & g2 & -> & [T2 R2] & D2 & F1 & F2 & F3); [apply HM; [by rewrite Z.add_mod, Hr8|unfold r; lia]|apply HM; unfold r; [by replace (v + nb + (s - nb)) with (v + s) by lia|lia]|lia|done|].
  replace (r + (s - nb)) with (v + s) in * by (unfold r; lia). fold r in E2, E3. exists m2. destruct (Hend m2 g2 T2) as (L' & H); [auto|done| | | | |exists L'; done].
  - rewrite F3 by (unfold r; lia). done.
  - rewrite F1. apply tags_pair in E2 as [-> _]. done.
  - rewrite F2. f_equal. assert (E : tags (g1 (v + s)) = tags (heads_of_space m (v + s))) by (apply E3; unfold r; lia). by injection E.
  - intros z Hz. rewrite F3 by lia. apply E3. lia.
Qed.

(** The other order of the two macros, as the designated victim is split. *)
Lemma split_free' m L Ms Mt D v s nb : space_ok m L Ms Mt ((v, s) :: D) -> 32 <= nb -> nb mod 8 = 0 -> 32 <= s - nb -> let r := v + nb in
  exists m' L', (m ← set_size_and_pinuse_of_free_chunk r (s - nb) m; set_size_and_pinuse_of_inuse_chunk v nb m) = Some m' /\
    tag_eff m m' /\ space_ok m' L' Ms Mt ((r, s - nb) :: D) /\ used L' ≡ₚ (v, nb) :: used L /\ pinned m' v.
Proof.
  intros O Hnb Hnb8 Hr r. destruct (split_tags m L Ms Mt D v s nb O Hnb Hnb8 Hr) as (Hr8 & Hs8 & HM & Hv8 & Hy8 & Hend). fold r in Hr8, Hend.
  destruct (set_free_run m m _ r (s - nb) (tagged_self m)) as (m1 & g1 & -> & [T1 _] & D1 & E1 & E2 & E3); [apply HM; [by rewrite Z.add_mod, Hr8|unfold r; lia]|apply HM; unfold r; [by replace (v + nb + (s - nb)) with (v + s) by lia|lia]|lia|done|]. cbn [mbind option_bind].
  destruct (set_used_run m m1 g1 v nb T1) as (m2 & g2 & -> & [T2 R2] & D2 & F1 & F2 & F3); [apply HM; [by rewrite Z.add_mod, Hv8|lia]|apply HM; [done|lia]|lia|done|].
  replace (r + (s - nb)) with (v + s) in * by (unfold r; lia). fold r in F2, F3. exists m2. destruct (Hend m2 g2 T2) as (L' & H); [done|auto| | | | |exists L'; done].
  - rewrite F1. f_equal. assert (E : tags (g1 v) = tags (heads_of_space m v)) by (apply E3; unfold r; lia). by injection E.
  - rewrite F2. apply tags_pair in E1 as [_ ->]. done.
  - rewrite F3 by (unfold r; lia). done.
  - intros z Hz. rewrite F3 by lia. apply E3. lia.
Qed.

(** ** The top chunk *)
Lemma top_seg m L Ms Mt D : space_ok m L Ms Mt D -> exists i sg, L !! i = Some sg /\ sl_top sg = true /\ seg_ok m sg /\ sl_end sg = top m /\ topsize m mod 8 = 0 /\ 0 < topsize m /\
  top m mod 8 = 0 /\ sl_start sg <= top m /\ sl_limit sg = top m + topsize m + 80 /\ tc_head (heads_of_space m (top m)) = topsize m + 1 /\ is_Some (read m (top m)).
Proof.
  intros O. destruct (ok_top _ _ _ _ _ O) as [Hi Hall]. destruct (lookup_lt_is_Some_2 L 0) as [sg Hsg]; [destruct L; [done|cbn; lia]|]. exists 0%nat, sg. specialize (Hall 0%nat sg Hsg). rewrite bool_decide_true in Hall by done.
  pose proof (Forall_lookup_1 _ _ _ _ (ok_segs _ _ _ _ _ O) Hsg) as S. pose proof (so_end _ _ S) as He. rewrite Hall in He. destruct He as (E & Hh & HD & H8 & H0 & Hlim). change TOP_FOOT_SIZE with 80 in Hlim.
  destruct (lay_end _ _ _ _ _ _ _ (so_lay _ _ S)) as (Ee & Ht & Ht8). destruct (so_start _ _ S) as (Hs & _). split_and!; try done.
  - rewrite <- E, Ee, Z.add_mod, Hs, Ht8; done.
  - lia.
Qed.

(** The run of the top segment from [b1 ++ mid] to [b1 ++ mid'], and the top chunk at its end. *)
Lemma top_ok m m' g t ts L Ms Mt D D' i sg b1 mid mid' : space_ok m L Ms Mt D -> L !! i = Some sg -> sl_top sg = true -> sl_blocks sg = b1 ++ mid -> let x := sl_start sg + total b1 in
  tagged (with_top t ts m) m' g -> t + ts = top m + topsize m -> 0 < ts -> ts mod 8 = 0 -> sl_start sg <= t -> is_Some (read m' t) -> tc_head (g t) = ts + 1 ->
  lay g (footer m) true (sl_start sg) (b1 ++ mid') t true -> (forall a k s, (a, k, s) ∈ placed x mid' -> is_Some (read m' a)) ->
  same_tags (heads_of_space m) g (fun z => z < sl_start sg \/ sl_limit sg - 80 <= z) ->
  of_kind KFree (placed x mid) ++ D' ≡ₚ of_kind KFree (placed x mid') ++ D -> (forall a s, (a, KSys, s) ∉ placed x mid) ->
  exists L', space_ok m' L' Ms Mt D' /\ used L' ++ of_kind KUsed (placed x mid) ≡ₚ of_kind KUsed (placed x mid') ++ used L.
Proof.
  intros O Hi Htop Hb x T Et H0 H8 Hle Hdt Hht HL Hd Hs HP Hsys. pose proof (Forall_lookup_1 _ _ _ _ (ok_segs _ _ _ _ _ O) Hi) as S.
  pose proof (so_end _ _ S) as He. rewrite Htop in He. destruct He as (Ee & _ & _ & _ & _ & Hlim). change TOP_FOOT_SIZE with 80 in Hlim. pose proof (tg_rest _ _ _ T) as Hr.
  set (sg' := SegLay (sl_start sg) (b1 ++ mid') t true (sl_limit sg)). exists (<[i := sg']> L).
  destruct (placed_insert L i sg Hi) as (rest & E1 & E2). split.
  2: { unfold used. rewrite E1, (E2 sg'). unfold seg_placed. cbn [sl_start sl_blocks sg']. rewrite Hb, !placed_app, !of_kind_app. fold x. solve_Permutation. }
  apply (replace_seg m m' g t ts L Ms Mt D D' i sg sg'); try done; [congruence| |congruence|intros z Hz; apply Hs; lia| |].
  - split.
    + rewrite (footer_tagged _ _ _ T). cbn. revert HL. apply lay_agree; [intros z _; by rewrite (tg_view _ _ _ T)|by rewrite (tg_view _ _ _ T)].
    + rewrite Hr. apply S.
    + intros z Z1 Z2 Z3. rewrite (tagged_mapped _ _ _ _ T). by apply (so_covers _ _ S).
    + apply S.
    + cbn. lia.
    + apply S.
    + cbn [sl_top sl_end sg']. rewrite (tg_view _ _ _ T). assert (Et' : top m' = t /\ topsize m' = ts) by (by rewrite Hr). destruct Et' as [-> ->]. split_and!; try done. cbn [sl_limit sg']. change TOP_FOOT_SIZE with 80. lia.
    + intros a k s Ha. unfold seg_placed in Ha. cbn [sl_start sl_blocks sg'] in Ha. rewrite placed_app in Ha. apply elem_of_app in Ha as [Ha|Ha]; [|by apply (Hd a k s)].
      apply (tg_dom _ _ _ T). change (is_Some (read m a)). apply (so_dom _ _ S a k s). unfold seg_placed. rewrite Hb, placed_app. apply elem_of_app. by left.
    + intros _. apply (foot_keep m); [by apply (so_foot _ _ S)|by rewrite Hr|apply (tg_dom _ _ _ T)|]. rewrite (tg_view _ _ _ T). apply Hs. lia.
  - unfold seg_placed. cbn [sl_start sl_blocks sg']. rewrite Hb, !placed_app, !of_kind_app. fold x.
    transitivity (of_kind KFree (placed (sl_start sg) b1) ++ (of_kind KFree (placed x mid) ++ D')); [solve_Permutation|]. rewrite HP. solve_Permutation.
  - intros a s Ha. unfold seg_placed in *. cbn [sl_start sl_blocks sg']. rewrite Hb in Ha. rewrite placed_app in Ha |- *. apply elem_of_app in Ha as [Ha|Ha]; [apply elem_of_app; by left|by apply Hsys in Ha].
Qed.

(** A chunk is cut from the top chunk. *)
Lemma split_top m L Ms Mt D nb : space_ok m L Ms Mt D -> 32 <= nb -> nb mod 8 = 0 -> nb < topsize m -> let r := top m + nb in let rsize := topsize m - nb in
  exists m' L', (m1 ← put_head r (fun _ => Z.lor rsize PINUSE_BIT) (with_top r rsize m); set_size_and_pinuse_of_inuse_chunk (top m) nb m1) = Some m' /\
    tag_eff (with_top r rsize m) m' /\ space_ok m' L' Ms Mt D /\ used L' ≡ₚ (top m, nb) :: used L /\ pinned m' (top m).
Proof.
  intros O Hnb H8 Hlt r rsize. destruct (top_seg m L Ms Mt D O) as (i & sg & Hi & Htop & S & Ee & Hts8 & Hts & Ht8 & Hst & Hlim & Hh & HD).
  assert (Hr8 : rsize mod 8 = 0) by (unfold rsize; by rewrite Zminus_mod, Hts8, H8). assert (Hrr : r mod 8 = 0) by (unfold r; by rewrite Z.add_mod, Ht8, H8).
  assert (HM : forall z, z mod 8 = 0 -> top m <= z <= r + 8 -> mapped (with_top r rsize m) z = true) by (intros z Hz ?; apply (so_covers _ _ S); unfold r in *; (done || lia)).
  destruct (put_head_step (with_top r rsize m) (with_top r rsize m) _ r (fun _ => Z.lor rsize PINUSE_BIT) (tagged_self _)) as (m1 & -> & T1 & D1 & R1); [apply HM; [by rewrite Z.add_mod, Hrr|unfold r; lia]|]. cbn [mbind option_bind].
  destruct (set_used_run _ m1 _ (top m) nb T1) as (m2 & g2 & -> & [T2 R2] & D2 & F1 & F2 & F3); [apply HM; [by rewrite Z.add_mod, Ht8|unfold r; lia]|apply HM; [done|unfold r; lia]|lia|done|].
  fold r in F2, F3. exists m2. rewrite fupd_eq in F2. rewrite fupd_ne in F1 by (unfold r; lia). cbn [tc_head set_head] in F2. rewrite free_head in F2 by done. apply tags_pair in F1 as [F1f F1h], F2 as [F2f F2h].
  destruct (top_ok m m2 g2 r rsize L Ms Mt D D i sg (sl_blocks sg) [] [(KUsed, nb)] O Hi Htop) as (L' & O' & HU); try done.
  - by rewrite app_nil_r.
  - unfold r, rsize. lia.
  - unfold rsize. lia.
  - unfold r. lia.
  - auto.
  - assert (Hend : tc_prev_foot (g2 (sl_end sg)) = tc_prev_foot (heads_of_space m (sl_end sg)) /\ tc_head (g2 (sl_end sg)) = head_word KUsed nb true) by (by rewrite Ee).
    unfold r. rewrite <- Ee. apply (lay_extend (heads_of_space m)); [apply S|done|done|by destruct Hend|by destruct Hend|rewrite Ee; exact F2f|].
    intros z Hz. rewrite F3 by (unfold r; lia). by rewrite fupd_ne by (unfold r; lia).
  - intros a k s Ha%list_elem_of_singleton. simplify_eq. destruct (lay_end _ _ _ _ _ _ _ (so_lay _ _ S)) as (E & _). rewrite <- E, Ee. done.
  - intros z Hz. rewrite F3 by (unfold r; lia). by rewrite fupd_ne by (unfold r; lia).
  - by intros a s Ha%elem_of_nil.
  - exists L'. split; [done|]. split; [apply (tg_rest _ _ _ T2)|]. split; [done|]. destruct (lay_end _ _ _ _ _ _ _ (so_lay _ _ S)) as (E & _). cbn in HU. rewrite <- E, Ee, app_nil_r in HU. split; [done|]. by apply (pinned_used _ m2 g2 (top m) nb T2).
Qed.

(** ** Chunks merged *)
Section Merge.
Context (m : mspace) (L : list seglay) (Ms Mt : gmap Z Z) (D : list (Z * Z)).
Context (i : nat) (sg : seglay) (Hi : L !! i = Some sg) (b1 mid : list (kind * Z)).
Let x : Z := sl_start sg + total b1.
Let y : Z := x + total mid.
Context (O : space_ok m L Ms Mt (of_kind KFree (placed x mid) ++ D)).
(** A chunk in use, or the start of the segment, is before [x]. *)
Context (H1 : lay (heads_of_space m) (footer m) true (sl_start sg) b1 x true) (Hne : mid <> []) (Hsys : forall a s, (a, KSys, s) ∉ placed x mid).

Lemma merge_tags k2 s2 b2 : sl_blocks sg = b1 ++ mid ++ (k2, s2) :: b2 -> in_use k2 = true ->
  (forall z, z mod 8 = 0 -> x <= z <= y + 8 -> mapped m z = true) /\ x mod 8 = 0 /\ y mod 8 = 0 /\ 32 <= total mid /\ (total mid) mod 8 = 0 /\ s2 mod 8 = 0 /\ 0 <= s2 < 2 ^ 40 /\
  forall m' g', tagged m m' g' -> is_Some (read m' x) -> tags (g' x) = (tc_prev_foot (heads_of_space m x), head_word KFree (total mid) true) -> tags (g' y) = (total mid, head_word k2 s2 false) ->
  same_tags (heads_of_space m) g' (fun z => z <> x /\ z <> y) ->
  exists L', tag_eff m m' /\ space_ok m' L' Ms Mt ((x, total mid) :: D) /\ used L ≡ₚ of_kind KUsed (placed x mid) ++ used L'.
Proof using Type*.
  intros Hb Hk2. pose proof (Forall_lookup_1 _ _ _ _ (ok_segs _ _ _ _ _ O) Hi) as S.
  destruct (mid_lay m L Ms Mt _ O i sg Hi b1 mid ((k2, s2) :: b2) Hb) as (q & H1' & (q' & H2 & H3) & Hx & Hxy & Hy & Hlim & Hx8 & Hy8 & Hlt & H40). fold x in H1', H2, H3, Hx, Hxy, Hx8, Hy, Hlt, Hy8. fold y in H2, H3, Hxy, Hy, Hlt, Hy8. specialize (Hlt ltac:(done)).
  assert (H32 : 32 <= total mid /\ (total mid) mod 8 = 0).
  { destruct mid as [|[k s] r]; [done|]. destruct (lay_end _ _ _ _ _ _ _ H2) as (_ & _ & ?). split; [|done]. destruct H2 as ((_ & _ & ?) & _ & H2). destruct (lay_end _ _ _ _ _ _ _ H2) as (_ & ? & _). change (total ((k, s) :: r)) with (s + total r). lia. }
  assert (H82 : s2 mod 8 = 0 /\ 0 <= s2 < 2 ^ 40). { destruct H3 as ((_ & ? & ?) & _ & H3). destruct (lay_end _ _ _ _ _ _ _ H3) as (? & ? & _). split; [done|lia]. }
  split; [intros z Hz ?; apply (so_covers _ _ S); (done || lia)|]. split; [done|]. split; [done|]. split; [apply H32|]. split; [apply H32|]. split; [apply H82|]. split; [apply H82|].
  intros m' g' T Hd [E1f E1h]%tags_pair [E2f E2h]%tags_pair E3.
  edestruct (mid_ok m L Ms Mt _ O i sg Hi b1 mid ((k2, s2) :: b2) Hb m' g' [(KFree, total mid)] ((x, total mid) :: D)) as (L' & O' & HU); fold x; fold y; try done.
  - cbn. lia.
  - cbn [app]. apply (lay_merge (heads_of_space m) g' _ _ _ b1 x (total mid) q' y); try done; try lia. intros z Hz. apply E3. lia.
  - intros a k t Ha%list_elem_of_singleton. by simplify_eq.
  - intros z Hz. apply E3. lia.
  - cbn. solve_Permutation.
  - exists L'. split; [by eapply wrote_eff|]. split; [done|]. fold x in HU. cbn in HU. rewrite <- HU. solve_Permutation.
Qed.

(** The last of the chunks is in use. *)
Lemma merge_used k2 s2 b2 : sl_blocks sg = b1 ++ mid ++ (k2, s2) :: b2 -> in_use k2 = true -> tc_head (heads_of_space m y) = head_word k2 s2 true ->
  exists m' L', set_free_with_pinuse x (total mid) y m = Some m' /\ tag_eff m m' /\ space_ok m' L' Ms Mt ((x, total mid) :: D) /\ used L ≡ₚ of_kind KUsed (placed x mid) ++ used L'.
Proof using Type*.
  intros Hb Hk2 Hh. destruct (merge_tags k2 s2 b2 Hb Hk2) as (HM & Hx8 & Hy8 & H32 & H8 & H82 & Hs2 & Hend).
  destruct (set_free_pin_run m m _ x (total mid) (tagged_self m)) as (m1 & g1 & E & [T1 _] & D1 & E1 & E2 & E3); fold y;
    [apply HM; [by rewrite Z.add_mod, Hx8|unfold y; lia]|apply HM; [by rewrite Z.add_mod, Hy8|unfold y; lia]|apply HM; [done|unfold y; lia]|lia|done|].
  fold y in E, E2, E3. exists m1. destruct (Hend m1 g1 T1 D1 E1) as (L' & H); [|done|exists L'; done]. rewrite E2, Hh, unpin_head; [done|done|done|lia].
Qed.

(** The last of the chunks is free. *)
Lemma merge_next k2 s2 b2 : sl_blocks sg = b1 ++ mid ++ (k2, s2) :: b2 -> in_use k2 = true -> tc_head (heads_of_space m y) = head_word k2 s2 false ->
  exists m' L', set_size_and_pinuse_of_free_chunk x (total mid) m = Some m' /\ tag_eff m m' /\ space_ok m' L' Ms Mt ((x, total mid) :: D) /\ used L ≡ₚ of_kind KUsed (placed x mid) ++ used L'.
Proof using Type*.
  intros Hb Hk2 Hh. destruct (merge_tags k2 s2 b2 Hb Hk2) as (HM & Hx8 & Hy8 & H32 & H8 & H82 & Hs2 & Hend).
  destruct (set_free_run m m _ x (total mid) (tagged_self m)) as (m1 & g1 & E & [T1 _] & D1 & E1 & E2 & E3); fold y;
    [apply HM; [by rewrite Z.add_mod, Hx8|unfold y; lia]|apply HM; [done|unfold y; lia]|lia|done|].
  fold y in E2, E3. exists m1. destruct (Hend m1 g1 T1 D1 E1) as (L' & H); [|done|exists L'; done]. by rewrite E2, Hh.
Qed.

(** The chunks are merged with the top chunk. *)
Lemma merge_top : sl_blocks sg = b1 ++ mid -> sl_top sg = true -> let ts := topsize m + total mid in
  exists m' L', put_head x (fun _ => Z.lor ts PINUSE_BIT) (with_top x ts m) = Some m' /\ tag_eff (with_top x ts m) m' /\ space_ok m' L' Ms Mt D /\ used L ≡ₚ of_kind KUsed (placed x mid) ++ used L'.
Proof using Type*.
  intros Hb Htop ts. pose proof (Forall_lookup_1 _ _ _ _ (ok_segs _ _ _ _ _ O) Hi) as S. pose proof (so_end _ _ S) as He. rewrite Htop in He. destruct He as (Ee & Hh & HD & Ht8 & Ht0 & Htl). change TOP_FOOT_SIZE with 80 in Htl.
  rewrite <- (app_nil_r mid) in Hb. destruct (mid_lay m L Ms Mt _ O i sg Hi b1 mid [] Hb) as (q & H1' & (q' & H2 & H3) & Hx & Hxy & Hy & Hlim & Hx8 & Hy8 & _ & H40). fold x in H1', H2, H3, Hx, Hxy, Hx8, Hy, Hy8. fold y in H2, H3, Hxy, Hy, Hy8. rewrite app_nil_r in Hb.
  destruct H3 as [Ey _]. assert (H8 : (total mid) mod 8 = 0) by apply (lay_end _ _ _ _ _ _ _ H2). assert (H0 : 0 <= total mid) by apply (lay_end _ _ _ _ _ _ _ H2).
  assert (Hts8 : ts mod 8 = 0) by (unfold ts; by rewrite Z.add_mod, Ht8, H8).
  assert (HM : mapped (with_top x ts m) (x + 8) = true) by (apply (so_covers _ _ S); [by rewrite Z.add_mod, Hx8|lia|lia]).
  destruct (put_head_step (with_top x ts m) (with_top x ts m) _ x (fun _ => Z.lor ts PINUSE_BIT) (tagged_self _) HM) as (m1 & E & T1 & D1 & R1).
  exists m1. destruct (top_ok m m1 _ x ts L Ms Mt _ D i sg b1 mid [] O Hi Htop Hb T1) as (L' & O' & HU); try done.
  - unfold ts, y in *. lia.
  - unfold ts. lia.
  - rewrite fupd_eq. cbn. by rewrite free_head.
  - rewrite app_nil_r. revert H1. apply lay_agree; [intros z Hz; by rewrite fupd_ne by lia|]. by rewrite fupd_eq.
  - by intros a k s Ha%elem_of_nil.
  - intros z Hz. rewrite fupd_ne; [done|]. lia.
  - exists L'. split; [done|]. split; [apply (tg_rest _ _ _ T1)|]. split; [done|]. fold x in HU. cbn in HU. rewrite <- HU. solve_Permutation.
Qed.
End Merge.
