(* ===== verification/DlMalloc.v ===== *)
(** [mspace_malloc] keeps the invariant of the space and hands out a chunk that was free. *)
From stdpp Require Import gmap.
From S2P Require Import Prelude DlBins DlTree DlUnlink DlFit DlSmall DlSpace DlLayout DlInv DlBlocks.
Local Open Scope Z_scope.

(** ** Fields that matter to no segment and no bin *)
Lemma space_ok_fields m m' L Ms Mt D : direct m' = direct m -> segs m' = segs m -> ms_at m' = ms_at m -> core m' = core m -> smallmap m' = smallmap m -> topsize m' = topsize m -> top m' = top m -> magic m' = magic m -> maps m' = maps m ->
  space_ok m L Ms Mt D -> space_ok m' L Ms Mt D.
Proof.
  intros Ed E0 E1 E2 E3 E4 E5 E6 E7 O.
  assert (Er : forall b, read m' b = read m b) by (intros b; unfold read; by rewrite E2). assert (Eh : forall b, heads_of_space m' b = heads_of_space m b) by (intros b; unfold heads_of_space; by rewrite E2). split.
  - eapply Forall_impl; [apply O|]. intros sg S. apply (seg_same m m' sg S); try done; [unfold footer; by rewrite E1, E6|by rewrite E2|intros b; by rewrite Er|intros z _; by rewrite Eh].
  - intros i j s1 s2 Hne Hi Hj. by apply (ok_apart _ _ _ _ _ O i j).
  - apply O.
  - rewrite E0. apply O.
  - rewrite E0, E1. apply O.
  - rewrite Ed. eapply Forall_impl; [apply O|]. intros r D'. apply (direct_same m m' r D'); [unfold footer; by rewrite E1, E6|by rewrite E2|intros b _; by rewrite Er|intros z _; by rewrite Eh].
  - rewrite Ed. apply O.
  - rewrite Ed. apply O.
  - apply (small_bins_same m); try done; [by rewrite E2|intros b _; by rewrite Er|intros i _; by rewrite Eh| |apply O]. intros a s Ha. rewrite Eh. split; [done|].
    destruct (small_member m L Ms Mt D O a s Ha) as [Hp _]. apply (space_block m L Ms Mt D a KFree s O Hp).
  - rewrite E2. apply O.
  - apply O.
  - rewrite E1. apply O.
  - rewrite E1, E6. apply O.
  - rewrite E2. apply O.
  - rewrite E2, E1. apply O.
Qed.

(** Bins and tags change, the other fields stay. *)
Record keeps (m m' : mspace) : Prop := { kp_dv : dv m' = dv m; kp_dvsize : dvsize m' = dvsize m; kp_top : top m' = top m; kp_topsize : topsize m' = topsize m }.
Lemma links_keeps m m' : links_eff m m' -> keeps m m'.
Proof. intros [E _ _ _]. split; by rewrite E. Qed.
Lemma tag_keeps m m' : tag_eff m m' -> keeps m m'.
Proof. intros E. split; by rewrite E. Qed.
Lemma keeps_dv_list m m' : keeps m m' -> dv_list m' = dv_list m.
Proof. intros [E1 E2 _ _]. unfold dv_list. by rewrite E1, E2. Qed.
Lemma keeps_trans m m1 m2 : keeps m m1 -> keeps m1 m2 -> keeps m m2.
Proof. intros [] []. split; congruence. Qed.
Create HintDb dlspace.
#[export] Hint Resolve links_keeps tag_keeps keeps_trans : dlspace.

Lemma space_inv_keeps m m' L Ms Mt D : D = dv_list m -> keeps m m' -> space_ok m' L Ms Mt D -> 0 <= dvsize m -> (dvsize m = 0 -> dv m = 0) -> space_inv m' L Ms Mt.
Proof. intros -> K O H1 H2. split; [by rewrite (keeps_dv_list m m')|]. destruct K as [-> -> _ _]. done. Qed.

(** A loose chunk becomes the designated victim. *)
Lemma become_dv m L Ms Mt p s : space_ok m L Ms Mt [(p, s)] -> space_inv (with_dv p s m) L Ms Mt.
Proof.
  intros O. assert (Hp : (p, KFree, s) ∈ all_placed L) by (apply (free_placed m L Ms Mt _ O); rewrite !elem_of_app; right; right; by left).
  destruct (space_block m L Ms Mt _ _ _ _ O Hp) as (H32 & _). split; [|cbn; lia]. unfold dv_list. cbn [dvsize dv with_dv]. rewrite (proj2 (Z.eqb_neq s 0)) by lia. by apply (space_ok_fields m).
Qed.

Lemma no_dv m L Ms Mt : space_ok m L Ms Mt [] -> space_inv (with_dv 0 0 m) L Ms Mt.
Proof. intros O. split; [|cbn; lia]. by apply (space_ok_fields m). Qed.

Lemma dv_cases m : dvsize m = 0 /\ dv_list m = [] \/ dvsize m <> 0 /\ dv_list m = [(dv m, dvsize m)].
Proof. unfold dv_list. destruct (Z.eqb_spec (dvsize m) 0); auto. Qed.

(** ** Ways to hand out a chunk *)
(** The chunk at [p] was handed out, and is of at least [nb] bytes; what is left over is less than a chunk. *)
Definition handed (m m' : mspace) (L : list seglay) (nb p : Z) : Prop :=
  exists L' Ms' Mt' sz, space_inv m' L' Ms' Mt' /\ used L' ≡ₚ (p, sz) :: used L /\ nb <= sz < nb + 32 /\ pinned m' p.

Lemma links_pinned m m' b : links_eff m m' -> pinned m b -> pinned m' b.
Proof. intros HE. unfold pinned, pinuse. pose proof (keeps_tags_heads _ _ b (le_tags _ _ HE)) as E. injection E as _ E. unfold heads_of_space. by rewrite E. Qed.

Lemma replace_dv_ok m L Ms Mt p s : space_ok m L Ms Mt ((p, s) :: dv_list m) -> 0 <= dvsize m < 256 -> exists m' Ms' Mt', replace_dv p s m = Some m' /\ space_inv m' L Ms' Mt' /\ forall b, pinned m b -> pinned m' b.
Proof.
  intros O Hd. unfold replace_dv. destruct (dv_cases m) as [[E1 E2]|[E1 E2]]; rewrite E2 in O.
  - rewrite (proj2 (Z.eqb_eq _ _) E1). cbn. exists (with_dv p s m), Ms, Mt. split; [done|]. split; [by apply become_dv|done].
  - rewrite (proj2 (Z.eqb_neq _ _) E1). cbn [negb]. rewrite is_small_eq by lia. rewrite (proj2 (Z.ltb_lt _ _)) by lia. cbn [guard_].
    destruct (insert_small m L Ms Mt [(p, s)] (dv m) (dvsize m)) as (m' & -> & HE & O'); [apply (space_ok_perm m L Ms Mt _ _ ltac:(apply perm_swap) O)|rewrite is_small_eq by lia; lia|].
    cbn. exists (with_dv p s m'), (<[dv m := dvsize m]> Ms), Mt. split; [done|]. split; [by apply become_dv|]. intros b. exact (links_pinned m m' b HE).
Qed.

(** From a bin, with the remainder to the designated victim. *)
Lemma hand_to_dv m L Ms Mt v s nb : space_ok m L Ms Mt ((v, s) :: dv_list m) -> 32 <= nb <= s -> nb mod 8 = 0 -> 0 <= dvsize m < 256 -> (dvsize m = 0 -> dv m = 0) -> let r := v + nb in
  exists m', (if s - nb <? MIN_CHUNK_SIZE then set_inuse_and_pinuse v s m
    else m ← set_size_and_pinuse_of_inuse_chunk v nb m; m ← set_size_and_pinuse_of_free_chunk r (s - nb) m; replace_dv r (s - nb) m) = Some m' /\ handed m m' L nb v.
Proof.
  intros O Hnb H8 Hd Hd0 r. change MIN_CHUNK_SIZE with 32. destruct (Z.ltb_spec (s - nb) 32).
  - destruct (take_free m L Ms Mt _ v s O) as (m' & L' & E & HE & O' & HU & Hpn). exists m'. split; [done|]. exists L', Ms, Mt, s. split; [|split; [done|split; [lia|done]]].
    apply (space_inv_keeps m m' _ _ _ (dv_list m)); auto with dlspace; lia.
  - destruct (split_free m L Ms Mt _ v s nb O ltac:(lia) H8 ltac:(lia)) as (m' & L' & E & HE & O' & HU & Hpn). fold r in E, O'. apply bind_Some in E as (m1 & -> & E). cbn [mbind option_bind]. rewrite E. cbn [mbind option_bind].
    assert (K : keeps m m') by auto with dlspace. rewrite <- (keeps_dv_list m m' K) in O'. destruct (replace_dv_ok m' L' Ms Mt r (s - nb) O') as (m2 & Ms' & Mt' & E' & HI & Hk); [by rewrite (kp_dvsize _ _ K)|].
    exists m2. split; [done|]. exists L', Ms', Mt', nb. split; [done|]. split; [done|]. split; [lia|]. auto.
Qed.

(** From a tree bin, with the remainder to the bins. *)
Lemma hand_to_bin m L Ms Mt v s nb : space_ok m L Ms Mt ((v, s) :: dv_list m) -> 32 <= nb <= s -> nb mod 8 = 0 -> 0 <= dvsize m -> (dvsize m = 0 -> dv m = 0) -> let r := v + nb in
  exists m', (if s - nb <? MIN_CHUNK_SIZE then set_inuse_and_pinuse v s m
    else m ← set_size_and_pinuse_of_inuse_chunk v nb m; m ← set_size_and_pinuse_of_free_chunk r (s - nb) m; insert_chunk r (s - nb) m) = Some m' /\ handed m m' L nb v.
Proof.
  intros O Hnb H8 Hd Hd0 r. change MIN_CHUNK_SIZE with 32. destruct (Z.ltb_spec (s - nb) 32).
  - destruct (take_free m L Ms Mt _ v s O) as (m' & L' & E & HE & O' & HU & Hpn). exists m'. split; [done|]. exists L', Ms, Mt, s. split; [|split; [done|split; [lia|done]]].
    apply (space_inv_keeps m m' _ _ _ (dv_list m)); auto with dlspace.
  - destruct (split_free m L Ms Mt _ v s nb O ltac:(lia) H8 ltac:(lia)) as (m' & L' & E & HE & O' & HU & Hpn). fold r in E, O'. apply bind_Some in E as (m1 & -> & E). cbn [mbind option_bind]. rewrite E. cbn [mbind option_bind].
    destruct (insert_free m' L' Ms Mt _ r (s - nb) O') as (m2 & Ms' & Mt' & E' & HE' & O2). exists m2. split; [done|]. exists L', Ms', Mt', nb. split; [|split; [done|split; [lia|by apply (links_pinned m')]]].
    apply (space_inv_keeps m m2 _ _ _ (dv_list m)); eauto with dlspace.
Qed.

(** ** Victim and top *)
Definition outcome (m m' : mspace) (L : list seglay) (nb : Z) (r : found) : Prop :=
  match r with
  | Mem mem => exists p, mem = chunk2mem p /\ handed m m' L nb p
  | FromSystem nb' => nb' = nb /\ m' = m /\ dvsize m < nb /\ topsize m <= nb
  end.
(** A size that a request can have; one that is too large is no multiple of eight. *)
Definition padded (nb : Z) : Prop := 32 <= nb /\ (nb < 2 ^ 40 -> nb mod 8 = 0).

Lemma topsize_bound m L Ms Mt D : space_ok m L Ms Mt D -> 0 < topsize m < 2 ^ 40.
Proof. intros O. destruct (top_seg m L Ms Mt D O) as (i & sg & Hi & _ & S & _ & _ & H0 & _ & Hle & Hlim & _). pose proof (so_size _ _ S). lia. Qed.

Lemma from_top m L Ms Mt nb : space_inv m L Ms Mt -> padded nb -> dvsize m < nb -> exists m' r, malloc_from_top nb m = Some (m', r) /\ outcome m m' L nb r.
Proof.
  intros (O & H1 & H2) [H32 H8] Hdv. pose proof (topsize_bound m L Ms Mt _ O) as Ht. unfold malloc_from_top. destruct (Z.ltb_spec nb (topsize m)) as [Hlt|Hge].
  - destruct (split_top m L Ms Mt _ nb O H32 (H8 ltac:(lia)) Hlt) as (m' & L' & E & HE & O' & HU & Hpn). apply bind_Some in E as (m1 & -> & E). cbn [mbind option_bind]. rewrite E. cbn [mbind option_bind].
    exists m', (Mem (chunk2mem (top m))). split; [done|]. exists (top m). split; [done|]. exists L', Ms, Mt, nb. split; [|split; [done|split; [lia|done]]].
    apply tag_keeps in HE as [Ed Es _ _]. split; [unfold dv_list; by rewrite Ed, Es|]. rewrite Ed, Es. done.
  - exists m, (FromSystem nb). split; [done|]. done.
Qed.

Lemma from_dv m L Ms Mt nb : space_inv m L Ms Mt -> padded nb -> exists m' r, malloc_from_dv nb m = Some (m', r) /\ outcome m m' L nb r.
Proof.
  intros HI Hp. pose proof HI as (O & H1 & H2). destruct Hp as [H32 H8]. unfold malloc_from_dv. destruct (Z.leb_spec nb (dvsize m)) as [Hle|Hgt]; [|by apply (from_top m L Ms Mt)].
  destruct (dv_cases m) as [[E1 E2]|[E1 E2]]; [lia|]. rewrite E2 in O.
  assert (Hb : (dv m, KFree, dvsize m) ∈ all_placed L) by (apply (free_placed m L Ms Mt _ O); rewrite !elem_of_app; right; right; by left). destruct (space_block m L Ms Mt _ _ _ _ O Hb) as (Hs & Hs8 & _).
  specialize (H8 ltac:(lia)). change MIN_CHUNK_SIZE with 32. destruct (Z.leb_spec 32 (dvsize m - nb)).
  - set (r := dv m + nb). destruct (split_free' (with_dv r (dvsize m - nb) m) L Ms Mt [] (dv m) (dvsize m) nb) as (m' & L' & E & HE & O' & HU & Hpn); [by apply (space_ok_fields m)|done|done|lia|].
    fold r in E, O'. rewrite E. cbn [mbind option_bind]. exists m', (Mem (chunk2mem (dv m))). split; [done|]. exists (dv m). split; [done|]. exists L', Ms, Mt, nb. split; [|split; [done|split; [lia|done]]].
    apply tag_keeps in HE as [Ed Es _ _]. cbn in Ed, Es. unfold space_inv, dv_list. rewrite Ed, Es, (proj2 (Z.eqb_neq _ 0)) by lia. split; [done|]. lia.
  - destruct (take_free (with_dv 0 0 m) L Ms Mt [] (dv m) (dvsize m)) as (m' & L' & E & HE & O' & HU & Hpn); [by apply (space_ok_fields m)|].
    rewrite E. cbn [mbind option_bind]. exists m', (Mem (chunk2mem (dv m))). split; [done|]. exists (dv m). split; [done|]. exists L', Ms, Mt, (dvsize m). split; [|split; [done|split; [lia|done]]].
    apply tag_keeps in HE as [Ed Es _ _]. cbn in Ed, Es. unfold space_inv, dv_list. rewrite Ed, Es. split; [done|]. lia.
Qed.

(** ** Small bins *)
Lemma small_first m L Ms Mt i : space_inv m L Ms Mt -> (i < 32)%nat -> Z.testbit (smallmap m) (Z.of_nat i) = true -> let p := tc_fd (heads_of_space m (hdr m i)) in
  read m (hdr m i) = Some (heads_of_space m (hdr m i)) /\
  exists m', unlink_first_small_chunk (hdr m i) p (Z.of_nat i) m = Some m' /\ keeps m m' /\ space_ok m' L (delete p Ms) Mt ((p, 8 * Z.of_nat i) :: dv_list m').
Proof.
  intros (O & _) Hi Hb p. destruct (small_unlink_first m Ms i (ok_small _ _ _ _ _ O) Hi Hb) as (ER & HM & m' & E & HS). fold p in HM, E, HS. split; [done|]. exists m'. split; [done|].
  destruct (unlinked_small m L Ms Mt _ O m' p _ HM HS) as [HE O']. apply links_keeps in HE. split; [done|]. by rewrite (keeps_dv_list m m').
Qed.

Lemma index2size i : (i < 32)%nat -> small_index2size (Z.of_nat i) = 8 * Z.of_nat i.
Proof. intros Hi. by destruct (small_index_eq (8 * Z.of_nat i) i eq_refl Hi). Qed.


Lemma malloc_exact_ok m L Ms Mt i nb : space_inv m L Ms Mt -> (i < 32)%nat -> Z.testbit (smallmap m) (Z.of_nat i) = true -> nb <= 8 * Z.of_nat i < nb + 32 ->
  exists m' r, malloc_exact (Z.of_nat i) m = Some (m', r) /\ outcome m m' L nb r.
Proof.
  intros HI Hi Hb Hnb. destruct (small_first m L Ms Mt i HI Hi Hb) as (ER & m1 & E & K & O'). destruct HI as (O & H1 & H2). unfold malloc_exact. change (smallbin_at m (Z.of_nat i)) with (hdr m i).
  rewrite ER. cbn [mbind option_bind]. rewrite E. cbn [mbind option_bind]. rewrite index2size by done.
  destruct (take_free m1 L _ Mt _ _ _ O') as (m2 & L' & -> & HE & O2 & HU & Hpn). cbn [mbind option_bind]. eexists m2, _. split; [done|]. eexists. split; [done|]. eexists L', _, Mt, _. split; [|by split].
  apply (space_inv_keeps m m2 L' _ Mt (dv_list m1)); eauto with dlspace. by apply keeps_dv_list.
Qed.

Lemma malloc_next_ok m L Ms Mt idx nb : space_inv m L Ms Mt -> nb = 8 * idx -> 4 <= idx < 32 -> dvsize m < nb -> Z.testbit (smallmap m) idx = false -> Z.shiftr (smallmap m) idx <> 0 ->
  exists m' r, malloc_next_bin idx nb m = Some (m', r) /\ outcome m m' L nb r.
Proof.
  intros HI Enb Hi Hdv Hb0 Hne. pose proof HI as (O & H1 & H2). assert (Hu : in_u 32 (smallmap m)) by (destruct (ok_small _ _ _ _ _ O) as (chs & I & _); apply I).
  unfold malloc_next_bin. rewrite next_small_bin_eq by (done || lia). pose proof (next_tree_bin_least idx (smallmap m) ltac:(lia) Hu) as Hl. destruct (next_tree_bin idx (smallmap m)) as [j|].
  2: { exfalso. apply Hne. apply Z.bits_inj'. intros n Hn. rewrite Z.shiftr_spec, Z.bits_0 by lia. destruct (Z.eq_dec n 0) as [->|]; [by rewrite Z.add_0_l|].
    destruct (Z.lt_ge_cases (n + idx) 32); [apply Hl; lia|]. apply in_u_testbit in Hu as [_ Hu]; [|lia]. apply Hu. lia. }
  destruct Hl as (Hj & Hbj & _). cbn [mbind option_bind]. set (i := Z.to_nat j). replace j with (Z.of_nat i) in * by (unfold i; lia). change (smallbin_at m (Z.of_nat i)) with (hdr m i).
  destruct (small_first m L Ms Mt i HI ltac:(lia) Hbj) as (ER & m1 & E & K & O'). rewrite ER. cbn [mbind option_bind]. rewrite E. cbn [mbind option_bind]. rewrite index2size by lia.
  rewrite uwrap_id by (unfold in_u; lia). set (p := tc_fd _) in *.
  destruct (hand_to_dv m1 L _ Mt p (8 * Z.of_nat i) nb O') as (m2 & -> & HH).
  - lia.
  - subst nb. rewrite Z.mul_comm. by apply Z.mod_mul.
  - rewrite (kp_dvsize _ _ K). lia.
  - rewrite (kp_dvsize _ _ K), (kp_dv _ _ K). done.
  - cbn [mbind option_bind]. eexists m2, _. split; [done|]. exists p. split; [done|]. exact HH.
Qed.

(** ** Tree bins *)
Lemma tree_mark m L Ms Mt D : space_ok m L Ms Mt D -> treemap (core m) <> 0 -> Mt <> ∅.
Proof.
  intros O Hne ->. destruct (ok_tree _ _ _ _ _ O) as (ts & I & HP). rewrite map_to_list_empty in HP. apply Permutation_nil_r in HP. apply Hne. apply Z.bits_inj'. intros n Hn. rewrite Z.bits_0.
  destruct (bi_map _ _ I) as [Hm0 Hm]. destruct (Z.lt_ge_cases n 32).
  - destruct (bi_len _ _ I) as [Hl _]. destruct (lookup_lt_is_Some_2 ts (Z.to_nat n) ltac:(lia)) as [t Ht]. destruct (bi_tree _ _ I _ _ Ht) as (_ & E & _). rewrite Z2Nat.id in E by lia. rewrite E.
    destruct t as [|a s ch l r]; [done|]. exfalso. destruct (one_bin ts _ _ Ht) as (rest & _ & E' & _). rewrite HP in E'. by apply Permutation_nil_l in E'.
  - pose proof (proj1 (in_u_testbit 32 (treemap (core m)) ltac:(lia)) (conj Hm0 Hm)) as [_ Hb]. apply Hb. lia.
Qed.

Lemma no_tree m L Ms Mt D a s : space_ok m L Ms Mt D -> treemap (core m) = 0 -> Mt !! a = Some s -> False.
Proof.
  intros O Et Ha. destruct (ok_tree _ _ _ _ _ O) as (ts & I & HP). destruct (proj1 (in_bins_map _ _ _ a s I HP) Ha) as (j & t & Hj & Hin).
  assert (Hb : Z.testbit (treemap (core m)) (Z.of_nat j) = false) by (rewrite Et; apply Z.bits_0). apply (marked_bin _ _ _ _ I Hj) in Hb. subst t. by apply elem_of_nil in Hin.
Qed.

Lemma tree_chunk m L Ms Mt D v s : space_ok m L Ms Mt D -> Mt !! v = Some s -> read m v = Some (heads_of_space m v) /\ ok_address (core m) v = true /\ chunksize (heads_of_space m v) = s /\ 256 <= s < 2 ^ 40 /\ v <> 0 /\ 0 < v.
Proof.
  intros O Hv. destruct (tree_member m L Ms Mt D O v s Hv) as (Hp & _ & Hs). destruct (space_block m L Ms Mt D v KFree s O Hp) as (_ & _ & _ & (HD & Hok & H0) & Es).
  split; [by apply (space_read m m _ v (space_is_self m))|]. split_and!; try done; try lia. apply in_placed in Hp as (i & sg & Hi & Hp). pose proof (Forall_lookup_1 _ _ _ _ (ok_segs _ _ _ _ _ O) Hi) as S.
  pose proof (seg_bounds _ _ _ _ _ S Hp). destruct (so_start _ _ S) as (_ & ? & _). lia.
Qed.

Lemma tmalloc_small_ok m L Ms Mt nb : space_inv m L Ms Mt -> 32 <= nb < 256 -> nb mod 8 = 0 -> dvsize m < nb -> treemap (core m) <> 0 ->
  exists m' p, tmalloc_small nb m = Some (m', chunk2mem p) /\ 0 < p /\ handed m m' L nb p.
Proof.
  intros (O & H1 & H2) Hnb H8 Hdv Hne. destruct (small_find_best (core m) Mt nb (ok_tree _ _ _ _ _ O) (tree_mark _ _ _ _ _ O Hne) ltac:(lia)) as (v & r & Ef & Hv0 & Hb).
  destruct Hb as [[? _]|(_ & s & Hv & Hle & -> & _)]; [done|]. destruct (tree_chunk m L Ms Mt _ v s O Hv) as (ER & Hok & Es & Hs & _ & Hvp). unfold tmalloc_small. rewrite Ef. cbn [mbind option_bind]. rewrite ER. cbn [mbind option_bind].
  rewrite Hok, Es. replace (s - nb + nb) with s by lia. rewrite Z.eqb_refl, (proj2 (Z.ltb_lt v (v + nb))) by lia. cbn [guard_].
  destruct (unlink_tree m L Ms Mt _ O v s ltac:(done)) as (m1 & -> & HE & O'). cbn [mbind option_bind]. apply links_keeps in HE. rewrite <- (keeps_dv_list m m1 HE) in O'.
  destruct (hand_to_dv m1 L Ms _ v s nb O') as (m2 & -> & HH); [lia|done|rewrite (kp_dvsize _ _ HE); lia|rewrite (kp_dvsize _ _ HE), (kp_dv _ _ HE); done|]. cbn [mbind option_bind]. eauto.
Qed.

(** Zero, with the space as it was, when no tree chunk fits better than the victim. *)
Lemma tmalloc_large_ok m L Ms Mt nb : space_inv m L Ms Mt -> 256 <= nb < 2 ^ 64 -> nb mod 8 = 0 ->
  (exists m' p, tmalloc_large nb m = Some (m', chunk2mem p) /\ 0 < p /\ handed m m' L nb p) \/
  tmalloc_large nb m = Some (m, 0) /\ (nb <= dvsize m \/ forall a s, Mt !! a = Some s -> s < nb).
Proof.
  intros (O & H1 & H2) Hnb H8. destruct (large_find_best (core m) Mt nb (ok_tree _ _ _ _ _ O) Hnb) as (v & r & Ef & Hb). unfold tmalloc_large. rewrite Ef. cbn [mbind option_bind].
  destruct Hb as [[-> Hno]|(Hv0 & s & Hv & Hle & -> & _)]; [right; split; [done|by right]|]. rewrite (proj2 (Z.eqb_neq v 0)) by done. cbn [negb andb].
  destruct (tree_chunk m L Ms Mt _ v s O Hv) as (ER & Hok & Es & Hs & _ & Hvp). destruct (Z.ltb_spec (s - nb) (u64 (dvsize m - nb))) as [Hlt|Hge].
  - left. rewrite Hok, ER. cbn [guard_ mbind option_bind]. rewrite Es. replace (s - nb + nb) with s by lia. rewrite Z.eqb_refl, (proj2 (Z.ltb_lt v (v + nb))) by lia. cbn [guard_].
    destruct (unlink_tree m L Ms Mt _ O v s Hv) as (m1 & -> & HE & O'). cbn [mbind option_bind]. apply links_keeps in HE. rewrite <- (keeps_dv_list m m1 HE) in O'.
    destruct (hand_to_bin m1 L Ms _ v s nb O') as (m2 & -> & HH); [lia|done|rewrite (kp_dvsize _ _ HE); lia|rewrite (kp_dvsize _ _ HE), (kp_dv _ _ HE); done|]. cbn [mbind option_bind]. eauto.
  - right. split; [done|]. left. destruct (Z.le_gt_cases nb (dvsize m)); [done|]. exfalso. unfold uwrap in Hge.
    rewrite <- (Z.mod_add (dvsize m - nb) 1 (2 ^ 64)), Z.mod_small in Hge by lia. lia.
Qed.

(** ** The whole operation *)
Lemma low_two_bits x : 0 <= x -> (Z.land x 3 = 0 <-> Z.testbit x 0 = false /\ Z.testbit x 1 = false) /\ Z.land (u32 (Z.lnot x)) 1 = if Z.testbit x 0 then 0 else 1.
Proof.
  intros Hx. split.
  - split.
    + intros E. assert (H : forall n, Z.testbit (Z.land x 3) n = false) by (intros n; rewrite E; apply Z.bits_0). pose proof (H 0) as H0. pose proof (H 1) as H1. rewrite Z.land_spec in H0, H1.
      by rewrite andb_true_r in H0, H1.
    + intros [H0 H1]. apply Z.bits_inj'. intros n Hn. rewrite Z.land_spec, Z.bits_0. destruct (Z.eq_dec n 0) as [->|]; [by rewrite H0|]. destruct (Z.eq_dec n 1) as [->|]; [by rewrite H1|].
      rewrite (Z.bits_above_log2 3 n), andb_false_r; [done|lia|]. change (Z.log2 3) with 1. lia.
  - rewrite land_one, <- Z.bit0_mod. unfold uwrap. rewrite Z.mod_pow2_bits_low, Z.lnot_spec by lia. by destruct (Z.testbit x 0).
Qed.

Lemma in_small_map m L Ms Mt D a s : space_ok m L Ms Mt D -> Ms !! a = Some s -> exists i, (i < 32)%nat /\ s = 8 * Z.of_nat i /\ Z.testbit (smallmap m) (Z.of_nat i) = true.
Proof.
  intros O Ha. destruct (ok_small _ _ _ _ _ O) as (chs & I & HP & _). apply elem_of_map_to_list in Ha. rewrite <- HP in Ha. apply in_rings in Ha as (i & ch & Hc & Hin & ->). exists i.
  split; [apply lookup_lt_Some in Hc; by rewrite (ri_len _ _ I) in Hc|]. split; [done|]. destruct (ri_ring _ _ I i ch Hc) as (-> & _). rewrite bool_decide_false; [done|]. intros ->. by apply elem_of_nil in Hin.
Qed.

Definition nothing_fits (m : mspace) (L : list seglay) (nb : Z) : Prop := (forall a s, (a, KFree, s) ∈ all_placed L -> s < nb) /\ topsize m <= nb.

Lemma nothing_left m L Ms Mt nb : space_inv m L Ms Mt -> dvsize m < nb -> topsize m <= nb -> (forall a s, Ms !! a = Some s -> s < nb) -> (forall a s, Mt !! a = Some s -> s < nb) -> nothing_fits m L nb.
Proof.
  intros (O & _) Hd Ht HMs HMt. split; [|done]. intros a s Ha. apply of_kind_in in Ha. rewrite (ok_free _ _ _ _ _ O) in Ha. rewrite !elem_of_app in Ha.
  destruct Ha as [Ha%elem_of_map_to_list|[Ha%elem_of_map_to_list|Ha]]; [by apply (HMs a)|by apply (HMt a)|]. destruct (dv_cases m) as [[_ E]|[_ E]]; rewrite E in Ha; [by apply elem_of_nil in Ha|].
  apply list_elem_of_singleton in Ha. by injection Ha as -> ->.
Qed.

Definition granted (m m' : mspace) (L : list seglay) (nb : Z) (r : found) : Prop :=
  match r with
  | Mem mem => exists p, mem = chunk2mem p /\ handed m m' L nb p
  | FromSystem nb' => nb' = nb /\ m' = m /\ nothing_fits m L nb
  end.

Lemma granted_outcome m m' L Ms Mt nb r : space_inv m L Ms Mt -> (dvsize m < nb -> forall a s, Ms !! a = Some s \/ Mt !! a = Some s -> s < nb) -> outcome m m' L nb r -> granted m m' L nb r.
Proof. intros HI HM. destruct r as [mem|nb']; [done|]. intros (-> & -> & Hd & Ht). split; [done|]. split; [done|]. specialize (HM Hd). apply (nothing_left m L Ms Mt); eauto. Qed.

Lemma outcome_granted m m' L nb r : (forall nb', r <> FromSystem nb') -> outcome m m' L nb r -> granted m m' L nb r.
Proof. destruct r; [done|]. intros H. by destruct (H nb0). Qed.

Lemma malloc_small_ok m L Ms Mt bytes : space_inv m L Ms Mt -> 0 <= bytes <= MAX_SMALL_REQUEST -> exists m' r, malloc_small bytes m = Some (m', r) /\ granted m m' L (request2size bytes) r.
Proof.
  intros HI Hb. change MAX_SMALL_REQUEST with 232 in Hb. pose proof HI as (O & H1 & H2). destruct (request_bounds bytes) as (H8 & H32 & _ & H256 & _); [change MAX_REQUEST with (2 ^ 64 - 128); lia|].
  specialize (H256 ltac:(lia)). unfold malloc_small. set (nb := request2size bytes) in *. set (i := Z.to_nat (nb / 8)). pose proof (Z.div_mod nb 8 ltac:(lia)) as Ed.
  assert (Ei : nb = 8 * Z.of_nat i) by (unfold i; lia). destruct (small_index_eq nb i Ei ltac:(lia)) as [-> _]. assert (Hu : in_u 32 (smallmap m)) by (destruct (ok_small _ _ _ _ _ O) as (chs & I & _); apply I).
  assert (Hbit : forall n, 0 <= n -> Z.testbit (Z.shiftr (smallmap m) (Z.of_nat i)) n = Z.testbit (smallmap m) (Z.of_nat i + n)) by (intros n Hn; rewrite Z.shiftr_spec by lia; f_equal; lia).
  destruct (low_two_bits (Z.shiftr (smallmap m) (Z.of_nat i))) as [Hlow Hnot]; [apply Z.shiftr_nonneg, Hu|]. rewrite Hnot. rewrite !Hbit in Hlow by lia. rewrite Hbit, Z.add_0_r by lia. rewrite Z.add_0_r in Hlow.
  destruct (Z.eqb_spec (Z.land (Z.shiftr (smallmap m) (Z.of_nat i)) 3) 0) as [E|E]; cbn [negb].
  2: { assert (Hex : exists j, (j < 32)%nat /\ (i <= j <= S i)%nat /\ Z.testbit (smallmap m) (Z.of_nat j) = true /\ Z.of_nat j = Z.of_nat i + (if Z.testbit (smallmap m) (Z.of_nat i) then 0 else 1)).
    { destruct (Z.testbit (smallmap m) (Z.of_nat i)) eqn:E0; [exists i; split_and!; (done || lia)|]. destruct (Z.testbit (smallmap m) (Z.of_nat i + 1)) eqn:E1; [|by destruct E; apply Hlow].
      assert (Z.of_nat i + 1 < 32). { destruct (Z.lt_ge_cases (Z.of_nat i + 1) 32); [done|]. apply in_u_testbit in Hu as [_ Hu]; [|lia]. rewrite Hu in E1 by lia. done. }
      exists (S i). replace (Z.of_nat (S i)) with (Z.of_nat i + 1) by lia. split_and!; (done || lia). }
    destruct Hex as (j & Hj & Hij & Hbj & <-). destruct (malloc_exact_ok m L Ms Mt j nb HI Hj Hbj ltac:(lia)) as (m' & r & Em & Ho). exists m', r. split; [done|]. revert Ho. apply outcome_granted.
    intros nb' ->. unfold malloc_exact in Em. apply bind_Some in Em as (? & _ & Em). apply bind_Some in Em as (? & _ & Em). by apply bind_Some in Em as (? & _ & Em). }
  destruct (proj1 Hlow E) as [Hb0 Hb1]. assert (Hpad : padded nb) by (split; [lia|done]).
  destruct (Z.ltb_spec (dvsize m) nb) as [Hd|Hd].
  - destruct (Z.eqb_spec (Z.shiftr (smallmap m) (Z.of_nat i)) 0) as [Es|Es]; cbn [negb].
    + assert (HMs : forall a s, Ms !! a = Some s -> s < nb).
      { intros a s Ha. destruct (in_small_map m L Ms Mt _ a s O Ha) as (j & Hj & -> & Hbj). destruct (Z.lt_ge_cases (Z.of_nat j) (Z.of_nat i)); [lia|]. exfalso.
        replace (Z.of_nat j) with (Z.of_nat i + (Z.of_nat j - Z.of_nat i)) in Hbj by lia. rewrite <- Hbit, Es, Z.bits_0 in Hbj by lia. done. }
      destruct (Z.eqb_spec (treemap (core m)) 0) as [Et|Et]; cbn [negb].
      * destruct (from_dv m L Ms Mt nb HI Hpad) as (m' & r & Em & Ho). exists m', r. split; [done|]. apply (granted_outcome m m' L Ms Mt); try done. intros _ a s [Ha|Ha]; [by apply (HMs a)|].
        by destruct (no_tree m L Ms Mt _ a s O Et).
      * destruct (tmalloc_small_ok m L Ms Mt nb HI ltac:(lia) H8 Hd Et) as (m' & p & Em & Hp & HH). rewrite Em. cbn [mbind option_bind]. unfold chunk2mem at 1. rewrite (proj2 (Z.eqb_neq _ 0)) by lia. cbn [negb].
        exists m', (Mem (chunk2mem p)). split; [done|]. by exists p.
    + destruct (malloc_next_ok m L Ms Mt (Z.of_nat i) nb HI ltac:(lia) ltac:(lia) Hd Hb0 Es) as (m' & r & Em & Ho). exists m', r. split; [done|]. revert Ho. apply outcome_granted.
      intros nb' ->. unfold malloc_next_bin in Em. repeat (apply bind_Some in Em as (? & _ & Em)). done.
  - destruct (from_dv m L Ms Mt nb HI Hpad) as (m' & r & Em & Ho). exists m', r. split; [done|]. apply (granted_outcome m m' L Ms Mt); try done. lia.
Qed.

Lemma malloc_large_ok m L Ms Mt bytes : space_inv m L Ms Mt -> MAX_SMALL_REQUEST < bytes < MAX_REQUEST -> exists m' r, malloc_large bytes m = Some (m', r) /\ granted m m' L (request2size bytes) r.
Proof.
  intros HI Hb. pose proof HI as (O & H1 & H2). change MAX_SMALL_REQUEST with 232 in Hb. destruct (request_bounds bytes ltac:(lia)) as (H8 & H32 & _ & _ & H256). specialize (H256 ltac:(lia)).
  unfold malloc_large. replace (pad_request bytes) with (request2size bytes) by (unfold request2size; change MIN_REQUEST with 15; by rewrite (proj2 (Z.ltb_ge _ _)) by lia).
  set (nb := request2size bytes) in *. assert (Hpad : padded nb) by (split; [lia|done]). assert (HMs : forall a s, Ms !! a = Some s -> s < nb).
  { intros a s Ha. destruct (in_small_map m L Ms Mt _ a s O Ha) as (j & Hj & -> & _). lia. }
  assert (Hdv : (nb <= dvsize m \/ forall a s, Mt !! a = Some s -> s < nb) -> exists m' r, malloc_from_dv nb m = Some (m', r) /\ granted m m' L nb r).
  { intros HMt. destruct (from_dv m L Ms Mt nb HI Hpad) as (m' & r & Em & Ho). exists m', r. split; [done|]. apply (granted_outcome m m' L Ms Mt); try done.
    intros Hlt a s [Ha|Ha]; [by apply (HMs a)|]. destruct HMt as [?|HMt]; [lia|by apply (HMt a)]. }
  destruct (Z.eqb_spec (treemap (core m)) 0) as [Et|Et]; cbn [negb].
  - apply Hdv. right. intros a s Ha. by destruct (no_tree m L Ms Mt _ a s O Et).
  - destruct (tmalloc_large_ok m L Ms Mt nb HI ltac:(lia) H8) as [(m' & p & Em & Hp & HH)|[Em HMt]]; rewrite Em; cbn [mbind option_bind].
    + unfold chunk2mem at 1. rewrite (proj2 (Z.eqb_neq _ 0)) by lia. cbn [negb]. exists m', (Mem (chunk2mem p)). split; [done|]. by exists p.
    + by apply Hdv.
Qed.

(** The size the space looks for. *)
Definition needed (bytes : Z) : Z := if MAX_REQUEST <=? bytes then MAX_SIZE_T else request2size bytes.

Lemma malloc_inside_ok m L Ms Mt bytes : space_inv m L Ms Mt -> 0 <= bytes < 2 ^ 64 -> exists m' r, malloc_inside bytes m = Some (m', r) /\ granted m m' L (needed bytes) r.
Proof.
  intros HI Hb. unfold malloc_inside, needed. destruct (Z.leb_spec bytes MAX_SMALL_REQUEST).
  - rewrite (proj2 (Z.leb_gt _ _)) by (change MAX_REQUEST with (2 ^ 64 - 128); change MAX_SMALL_REQUEST with 232 in *; lia). apply (malloc_small_ok m L Ms Mt); [done|lia].
  - destruct (Z.leb_spec MAX_REQUEST bytes); [|apply (malloc_large_ok m L Ms Mt); [done|lia]]. pose proof HI as (O & H1 & H2).
    assert (Hall : forall a s, (a, KFree, s) ∈ all_placed L -> s < MAX_SIZE_T) by (intros a s Ha; destruct (space_block m L Ms Mt _ a KFree s O Ha); unfold MAX_SIZE_T; lia).
    destruct (from_dv m L Ms Mt MAX_SIZE_T HI) as (m' & r & Em & Ho); [split; unfold MAX_SIZE_T; lia|]. exists m', r. split; [done|]. apply (granted_outcome m m' L Ms Mt); try done.
    intros _ a s Ha. apply (Hall a). apply (free_placed m L Ms Mt _ O). rewrite !elem_of_app, !elem_of_map_to_list. tauto.
Qed.
