(* ===== verification/DlFree.v ===== *)
(** [mspace_free] keeps the invariant of the space: the chunk is merged with its free
    neighbours, with the top chunk or with the designated victim, and the result goes to
    its bin. *)
From stdpp Require Import gmap.
From S2P Require Import Prelude DlBins DlTree DlUnlink DlFit DlSmall DlSpace DlLayout DlInv DlBlocks DlMalloc.
Local Open Scope Z_scope.

(** ** Where chunks are *)
Lemma block_not_top m L Ms Mt D y k s : space_ok m L Ms Mt D -> (y, k, s) ∈ all_placed L -> y <> top m.
Proof.
  intros O Hy. destruct (top_seg m L Ms Mt D O) as (i & sg & Hi & Htop & S & Ee & _ & H0 & _ & Hle & Hlim & _). apply in_placed in Hy as (j & s2 & Hj & Hy).
  pose proof (Forall_lookup_1 _ _ _ _ (ok_segs _ _ _ _ _ O) Hj) as S2. pose proof (seg_bounds _ _ _ _ _ S2 Hy). destruct (decide (i = j)) as [<-|Hne].
  - assert (s2 = sg) as -> by congruence. lia.
  - destruct (other_seg m L Ms Mt D i sg j s2 O Hi Hj Hne) as (HA & _). destruct HA; lia.
Qed.

Lemma same_block m L Ms Mt D y k s k' s' : space_ok m L Ms Mt D -> (y, k, s) ∈ all_placed L -> (y, k', s') ∈ all_placed L -> k' = k /\ s' = s.
Proof.
  intros O H1 H2. destruct (space_apart m L Ms Mt D _ _ _ _ _ _ O H1 H2) as [E|H]; [by injection E as -> ->|].
  destruct (space_block m L Ms Mt D _ _ _ O H1) as (? & _). destruct (space_block m L Ms Mt D _ _ _ O H2) as (? & _). lia.
Qed.

(** The victim, when it is at [y]. *)
Lemma dv_at m L Ms Mt y s : space_ok m L Ms Mt (dv_list m) -> (y, KFree, s) ∈ all_placed L -> (dvsize m = 0 -> dv m = 0) -> y = dv m -> dvsize m = s /\ dvsize m <> 0.
Proof.
  intros O Hy Hd0 ->. destruct (space_block m L Ms Mt _ _ _ _ O Hy) as (_ & _ & _ & (_ & _ & Hne) & _). destruct (dv_cases m) as [[E1 E2]|[E1 E2]]; [by destruct Hne; apply Hd0|].
  split; [|done]. assert (Hd : (dv m, KFree, dvsize m) ∈ all_placed L) by (apply (free_placed m L Ms Mt _ O); rewrite E2, !elem_of_app; right; right; by left).
  by destruct (same_block m L Ms Mt _ _ _ _ _ _ O Hy Hd).
Qed.

Lemma dv_list_at m y s : (y, s) ∈ dv_list m -> y = dv m.
Proof. destruct (dv_cases m) as [[_ ->]|[_ ->]]; [by intros ?%elem_of_nil|]. intros E%list_elem_of_singleton. by injection E. Qed.

Lemma free_to_bin_ok m L Ms Mt p s : space_ok m L Ms Mt ((p, s) :: dv_list m) -> 0 <= dvsize m -> (dvsize m = 0 -> dv m = 0) ->
  exists m' a Ms' Mt', free_to_bin p s m = Some (m', a) /\ space_inv m' L Ms' Mt'.
Proof.
  intros O H1 H2. unfold free_to_bin. destruct (is_small s) eqn:Hs.
  - destruct (insert_small m L Ms Mt _ p s O Hs) as (m' & -> & HE & O'). cbn [mbind option_bind]. eexists m', _, _, _. split; [done|]. eapply (space_inv_keeps m); eauto with dlspace.
  - destruct (insert_tree m L Ms Mt _ p s O Hs) as (m' & -> & HE & O'). cbn [mbind option_bind]. eexists _, _, _, _. split; [done|]. eapply (space_inv_keeps m _ _ _ _ (dv_list m)); [done| | |done|done].
    + apply links_keeps in HE as []. by split.
    + by apply (space_ok_fields m').
Qed.

Lemma lay_links m m' ft pin a bs e pout : links_eff m m' -> lay (heads_of_space m) ft pin a bs e pout -> lay (heads_of_space m') ft pin a bs e pout.
Proof. intros HE. apply lay_agree; [intros z _; apply keeps_tags_heads, HE|]. assert (E : tags (heads_of_space m' e) = tags (heads_of_space m e)) by (apply keeps_tags_heads, HE). by injection E. Qed.

(** ** Consolidation with what is behind *)
Section Forward.
Context (m : mspace) (L : list seglay) (Ms Mt : gmap Z Z) (D : list (Z * Z)).
Context (i : nat) (sg : seglay) (Hi : L !! i = Some sg) (b1 mid b2 : list (kind * Z)) (Hb : sl_blocks sg = b1 ++ mid ++ b2).
Let x : Z := sl_start sg + total b1.
Let y : Z := x + total mid.
Context (O : space_ok m L Ms Mt (of_kind KFree (placed x mid) ++ D)).
Context (H1 : lay (heads_of_space m) (footer m) true (sl_start sg) b1 x true) (H2 : lay (heads_of_space m) (footer m) true x mid y true).
Context (Hne : mid <> []) (Hsys : forall a s, (a, KSys, s) ∉ placed x mid).
(** The victim is the chunk before, or it is apart. *)
Context (HD : x <> dv m /\ D = dv_list m \/ x = dv m /\ D = []) (Hd1 : 0 <= dvsize m) (Hd0 : dvsize m = 0 -> dv m = 0).

Definition merged (r : option (mspace * after)) : Prop :=
  exists m' a L' Ms' Mt', r = Some (m', a) /\ space_inv m' L' Ms' Mt' /\ used L ≡ₚ of_kind KUsed (placed x mid) ++ used L'.

Lemma mid_total : 32 <= total mid /\ (total mid) mod 8 = 0 /\ 0 < x.
Proof using Type*.
  destruct (lay_end _ _ _ _ _ _ _ H2) as (_ & _ & H8). split; [|split; [done|]].
  - destruct mid as [|[k s] r]; [done|]. destruct H2 as ((_ & _ & ?) & _ & H3). destruct (lay_end _ _ _ _ _ _ _ H3) as (_ & ? & _). change (total ((k, s) :: r)) with (s + total r). lia.
  - pose proof (Forall_lookup_1 _ _ _ _ (ok_segs _ _ _ _ _ O) Hi) as S. destruct (so_start _ _ S) as (_ & ? & _). destruct (lay_end _ _ _ _ _ _ _ H1) as (? & ? & _). lia.
Qed.

Lemma after_lay : lay (heads_of_space m) (footer m) true y b2 (sl_end sg) true.
Proof using Type*.
  destruct (mid_lay m L Ms Mt _ O i sg Hi b1 mid b2 Hb) as (q & H1' & (q' & H2' & H3) & _). fold x in H2', H3. fold y in H2', H3. destruct mid as [|b l _] using rev_ind; [done|].
  apply lay_app in H2 as (c & r & Ha & Hb'). apply lay_app in H2' as (c' & r' & Ha' & Hb''). destruct b as [k s]. destruct Hb' as (_ & _ & _ & E). destruct Hb'' as (_ & _ & _ & E'). congruence.
Qed.

Lemma end_top : b2 = [] -> sl_top sg = true /\ y = top m.
Proof using Type*.
  intros E. pose proof (Forall_lookup_1 _ _ _ _ (ok_segs _ _ _ _ _ O) Hi) as S. pose proof (so_end _ _ S) as He. pose proof after_lay as H3. rewrite E in H3. destruct H3 as [Ey _]. destruct (sl_top sg).
  - split; [done|]. destruct He as (<- & _). done.
  - exfalso. destruct He as (_ & b & Eb). rewrite Hb, E, app_nil_r in Eb. destruct (last_sys _ _ _ _ Hne Eb) as (b' & Em). apply (Hsys (x + total b') 48). rewrite Em, placed_app. apply elem_of_app. right. by left.
Qed.

Lemma forward_top : b2 = [] -> merged (free_forward x (total mid) y m).
Proof using Type*.
  intros E. destruct (end_top E) as [Htop Ey]. destruct mid_total as (H32 & H8 & Hx0). destruct (top_seg m L Ms Mt _ O) as (_ & _ & _ & _ & _ & _ & Ht8 & _ & _ & _ & _ & Hh & HDt).
  unfold free_forward. rewrite Ey, (space_read m m _ (top m) (space_is_self m) HDt). cbn [mbind option_bind]. destruct (head_flags KFree (topsize m) true (heads_of_space m (top m))) as (_ & -> & -> & _); [done|done|].
  rewrite (proj2 (Z.ltb_lt x (top m))) by (unfold y in Ey; lia). cbn [andb guard_ in_use negb]. rewrite Z.eqb_refl. rewrite E, app_nil_r in Hb.
  destruct (merge_top m L Ms Mt D i sg Hi b1 mid O H1 Hne Hsys Hb Htop) as (m' & L' & Em & HE & O' & HU). fold x in Em, HE, HU. rewrite Em. cbn [mbind option_bind]. apply tag_keeps in HE as [Ed Es _ _]. cbn in Ed, Es.
  unfold merged. destruct HD as [[Hxd ->]|[Hxd ->]].
  - rewrite Ed, (proj2 (Z.eqb_neq _ _) Hxd). eexists m', _, L', Ms, Mt. split; [done|]. split; [|done]. unfold space_inv, dv_list. rewrite Ed, Es. done.
  - rewrite Ed, (proj2 (Z.eqb_eq _ _) Hxd). eexists (with_dv 0 0 m'), _, L', Ms, Mt. split; [done|]. split; [|done]. by apply no_dv.
Qed.

Lemma forward_used k2 s2 b3 : b2 = (k2, s2) :: b3 -> in_use k2 = true -> x <> dv m -> merged (free_forward x (total mid) y m).
Proof using Type*.
  intros E Hk2 Hxd. destruct HD as [[_ ED]|[? _]]; [|done]. destruct mid_total as (H32 & H8 & Hx0). pose proof after_lay as H3. rewrite E in H3. destruct H3 as ((Hh & H82 & _) & _ & _).
  assert (Hy : (y, k2, s2) ∈ all_placed L). { apply in_placed. exists i, sg. split; [done|]. unfold seg_placed. rewrite Hb, E, !placed_app, !elem_of_app. right. right. fold x. fold y. by left. }
  destruct (space_block m L Ms Mt _ _ _ _ O Hy) as (_ & _ & _ & (HDy & _) & _). unfold free_forward. rewrite (space_read m m _ y (space_is_self m) HDy). cbn [mbind option_bind].
  destruct (head_flags k2 s2 true _ Hh H82) as (_ & -> & -> & _). rewrite Hk2, (proj2 (Z.ltb_lt x y)) by (unfold y; lia). cbn [andb guard_ negb].
  destruct (merge_used m L Ms Mt D i sg Hi b1 mid O H1 Hne Hsys k2 s2 b3) as (m' & L' & Em & HE & O' & HU); [by rewrite <- E|done|done|]. fold x in Em, O', HU. fold y in Em. rewrite Em. cbn [mbind option_bind].
  apply tag_keeps in HE. rewrite ED, <- (keeps_dv_list m m' HE) in O'. destruct (free_to_bin_ok m' L' Ms Mt x (total mid) O') as (m2 & a & Ms' & Mt' & Ef & HI); [by rewrite (kp_dvsize _ _ HE)|by rewrite (kp_dvsize _ _ HE), (kp_dv _ _ HE)|].
  exists m2, a, L', Ms', Mt'. done.
Qed.

(** A free chunk behind: the run with it, and the chunk in use after it. *)
Lemma next_free s2 b3 : b2 = (KFree, s2) :: b3 -> exists k3 s3 b4, sl_blocks sg = b1 ++ (mid ++ [(KFree, s2)]) ++ (k3, s3) :: b4 /\ in_use k3 = true /\
  (y, KFree, s2) ∈ all_placed L /\ tc_head (heads_of_space m y) = head_word KFree s2 true /\ tc_head (heads_of_space m (y + s2)) = head_word k3 s3 false /\
  (forall a s, (a, KSys, s) ∉ placed x (mid ++ [(KFree, s2)])) /\ placed x (mid ++ [(KFree, s2)]) = placed x mid ++ [(y, KFree, s2)] /\ total (mid ++ [(KFree, s2)]) = total mid + s2.
Proof using Type*.
  intros E. pose proof after_lay as H3. rewrite E in H3. destruct H3 as ((Hh & H82 & _) & _ & H3). destruct b3 as [|[k3 s3] b4]; [by destruct H3|]. destruct H3 as ((Hh3 & _) & Hk3 & _).
  assert (Ep : placed x (mid ++ [(KFree, s2)]) = placed x mid ++ [(y, KFree, s2)]) by (by rewrite placed_app).
  exists k3, s3, b4. split; [rewrite Hb, E; by rewrite <- app_assoc|]. split; [destruct k3; [done|done|by destruct Hk3]|]. split.
  { apply in_placed. exists i, sg. split; [done|]. unfold seg_placed. rewrite Hb, E, !placed_app, !elem_of_app. right. right. fold x. fold y. by left. }
  split; [done|]. split; [done|]. split; [|split; [done|rewrite total_app; cbn; lia]]. intros a s. rewrite Ep, elem_of_app, list_elem_of_singleton. intros [Ha|Ha]; [by apply (Hsys a s)|done].
Qed.

Lemma free_before a s : (a, s) ∈ of_kind KFree (placed x mid) -> a < y.
Proof using Type*. intros Ha%of_kind_in. destruct (placed_bounds _ _ _ _ _ _ _ _ _ _ H2 Ha) as (_ & ? & ? & _). lia. Qed.

Lemma loose_perm D' s2 : of_kind KFree (placed x mid ++ [(y, KFree, s2)]) ++ D' ≡ₚ (y, s2) :: of_kind KFree (placed x mid) ++ D'.
Proof using Type. rewrite of_kind_app. cbn. solve_Permutation. Qed.

Lemma used_next s2 : of_kind KUsed (placed x mid ++ [(y, KFree, s2)]) = of_kind KUsed (placed x mid).
Proof using Type. rewrite of_kind_app. cbn. apply app_nil_r. Qed.

Lemma forward_victim s2 b3 : b2 = (KFree, s2) :: b3 -> y = dv m -> merged (free_forward x (total mid) y m).
Proof using Type*.
  intros E Ey. destruct mid_total as (H32 & H8 & Hx0). destruct (next_free s2 b3 E) as (k3 & s3 & b4 & Eb & Hk3 & Hy & Hh & Hh3 & Hsys' & Ep & Et). destruct HD as [[Hxd ED]|[Hxd _]]; [|unfold y in *; lia].
  destruct (space_block m L Ms Mt _ _ _ _ O Hy) as (Hs2 & Hs28 & _ & (HDy & _ & Hy0) & _).
  assert (Hdv : dvsize m = s2 /\ dv_list m = [(y, s2)]).
  { destruct (dv_cases m) as [[E1 _]|[E1 E2]]; [rewrite Ey in Hy0; by apply Hd0 in E1|]. assert (Hd : (y, KFree, dvsize m) ∈ all_placed L).
    { apply (free_placed m L Ms Mt _ O). rewrite !elem_of_app, ED, E2, Ey. right. right. right. by left. }
    destruct (same_block m L Ms Mt _ _ _ _ _ _ O Hy Hd) as [_ <-]. by rewrite E2, Ey. }
  destruct Hdv as [Hds Hdl]. rewrite ED, Hdl in O. unfold free_forward. rewrite (space_read m m _ y (space_is_self m) HDy). cbn [mbind option_bind].
  destruct (head_flags KFree s2 true _ Hh Hs28) as (_ & -> & -> & _). rewrite (proj2 (Z.ltb_lt x y)) by (unfold y; lia). cbn [andb guard_ negb in_use].
  rewrite (proj2 (Z.eqb_neq _ _) (block_not_top m L Ms Mt _ y KFree s2 O Hy)), (proj2 (Z.eqb_eq _ _) Ey), Hds. replace (s2 + total mid) with (total (mid ++ [(KFree, s2)])) by lia.
  set (md := with_dv x (total (mid ++ [(KFree, s2)])) m). destruct (merge_next md L Ms Mt [] i sg Hi b1 (mid ++ [(KFree, s2)])) with (k2 := k3) (s2 := s3) (b2 := b4) as (m' & L' & Em & HE & O' & HU); fold x; rewrite ?Ep; try done.
  - apply (space_ok_fields m); try done. apply (space_ok_perm m L Ms Mt _ _ ltac:(symmetry; apply loose_perm)). revert O. apply space_ok_perm. solve_Permutation.
  - by destruct mid.
  - by rewrite <- Ep.
  - rewrite Et. replace (x + (total mid + s2)) with (y + s2) by (unfold y; lia). done.
  - fold x in Em, O', HU. rewrite Em. cbn [mbind option_bind]. apply tag_keeps in HE as [Ed Es _ _]. cbn in Ed, Es. exists m', Nothing, L', Ms, Mt. split; [done|]. split.
    + unfold space_inv, dv_list. rewrite Ed, Es. rewrite (proj2 (Z.eqb_neq _ 0)) by lia. split; [done|]. lia.
    + by rewrite HU, Ep, used_next.
Qed.

Lemma forward_bin s2 b3 : b2 = (KFree, s2) :: b3 -> y <> dv m -> merged (free_forward x (total mid) y m).
Proof using Type*.
  intros E Ey. destruct mid_total as (H32 & H8 & Hx0). destruct (next_free s2 b3 E) as (k3 & s3 & b4 & Eb & Hk3 & Hy & Hh & Hh3 & Hsys' & Ep & Et).
  destruct (space_block m L Ms Mt _ _ _ _ O Hy) as (Hs2 & Hs28 & _ & (HDy & _ & Hy0) & Esz).
  assert (Hin : (y, s2) ∈ map_to_list Ms ++ map_to_list Mt).
  { pose proof Hy as Hf. apply of_kind_in in Hf. rewrite (ok_free _ _ _ _ _ O) in Hf. rewrite !elem_of_app in Hf. rewrite elem_of_app. destruct Hf as [?|[?|[Hf|Hf]]]; [tauto|tauto| |]; exfalso.
    - apply free_before in Hf. lia.
    - destruct HD as [[_ ->]|[_ ->]]; [by apply dv_list_at in Hf|by apply elem_of_nil in Hf]. }
  unfold free_forward. rewrite (space_read m m _ y (space_is_self m) HDy). cbn [mbind option_bind].
  destruct (head_flags KFree s2 true _ Hh Hs28) as (_ & -> & -> & _). rewrite (proj2 (Z.ltb_lt x y)) by (unfold y; lia). cbn [andb guard_ negb in_use].
  rewrite (proj2 (Z.eqb_neq _ _) (block_not_top m L Ms Mt _ y KFree s2 O Hy)), (proj2 (Z.eqb_neq _ _) Ey), Esz. rewrite <- Et.
  destruct (unlink_free m L Ms Mt _ O y s2 Hin) as (m1 & Ms1 & Mt1 & -> & HE1 & O1). cbn [mbind option_bind]. pose proof (links_keeps _ _ HE1) as K1.
  assert (Ef : footer m1 = footer m) by (unfold footer; by rewrite (le_rest _ _ HE1)).
  destruct (merge_next m1 L Ms1 Mt1 D i sg Hi b1 (mid ++ [(KFree, s2)])) with (k2 := k3) (s2 := s3) (b2 := b4) as (m' & L' & Em & HE & O' & HU); fold x; rewrite ?Ep; try done.
  - revert O1. apply space_ok_perm. symmetry. apply loose_perm.
  - rewrite Ef. by apply (lay_links m m1).
  - by destruct mid.
  - by rewrite <- Ep.
  - rewrite Et. replace (x + (total mid + s2)) with (y + s2) by (unfold y; lia). rewrite <- Hh3. assert (Eh : tags (heads_of_space m1 (y + s2)) = tags (heads_of_space m (y + s2))) by (apply keeps_tags_heads, HE1). by injection Eh.
  - fold x in Em, O', HU. rewrite Em. cbn [mbind option_bind]. assert (K : keeps m m') by eauto with dlspace. rewrite Ep, used_next in HU. unfold merged. rewrite (kp_dv _ _ K). destruct HD as [[Hxd ED]|[Hxd ED]]; rewrite ED in O'.
    + rewrite (proj2 (Z.eqb_neq _ _) Hxd). rewrite <- (keeps_dv_list m m' K) in O'. destruct (free_to_bin_ok m' L' Ms1 Mt1 x _ O') as (m2 & a & Ms' & Mt' & Eff & HI); [by rewrite (kp_dvsize _ _ K)|by rewrite (kp_dvsize _ _ K), (kp_dv _ _ K)|].
      exists m2, a, L', Ms', Mt'. done.
    + rewrite (proj2 (Z.eqb_eq _ _) Hxd). eexists _, _, L', Ms1, Mt1. split; [done|]. split; [by apply become_dv|done].
Qed.

Lemma forward_ok : (x = dv m -> match b2 with (k2, _) :: _ => in_use k2 = false | [] => True end) -> merged (free_forward x (total mid) y m).
Proof using Type*.
  intros Hx. assert (Hc : b2 = [] \/ exists k2 s2 b3, b2 = (k2, s2) :: b3) by (destruct b2 as [|[k2 s2] b3]; [by left|right; eauto]).
  destruct Hc as [E|(k2 & s2 & b3 & E)]; [by apply forward_top|]. rewrite E in Hx. destruct (in_use k2) eqn:Hk.
  - apply (forward_used k2 s2 b3); [done|done|]. intros Ex. specialize (Hx Ex). done.
  - destruct k2; try done. destruct (Z.eq_dec y (dv m)); [by apply (forward_victim s2 b3)|by apply (forward_bin s2 b3)].
Qed.
End Forward.

(** ** The whole operation *)
Lemma used_place m L Ms Mt D p s : space_ok m L Ms Mt D -> (p, s) ∈ used L -> exists i sg b1 b2, L !! i = Some sg /\ sl_blocks sg = b1 ++ (KUsed, s) :: b2 /\ p = sl_start sg + total b1.
Proof.
  intros O Hp. apply of_kind_in, in_placed in Hp as (i & sg & Hi & Hp). destruct (placed_split _ _ _ _ _ Hp) as (b1 & b2 & E & Ev). eauto 10.
Qed.

Lemma used_foot m L Ms Mt D p s : space_ok m L Ms Mt D -> (p, s) ∈ used L -> exists f, read m (p + s) = Some f /\ f = heads_of_space m (p + s) /\ tc_prev_foot f = footer m.
Proof.
  intros O Hp. destruct (used_place m L Ms Mt D p s O Hp) as (i & sg & b1 & b2 & Hi & Hb & ->). pose proof (Forall_lookup_1 _ _ _ _ (ok_segs _ _ _ _ _ O) Hi) as S.
  exists (heads_of_space m (sl_start sg + total b1 + s)). pose proof (so_lay _ _ S) as HL. rewrite Hb in HL. destruct (lay_at _ _ _ _ _ _ _ _ _ _ HL) as (q & _ & _ & _ & _ & H3 & Hf). split; [|done].
  apply (space_read m m _ _ (space_is_self m)). destruct b2 as [|[k2 s2] b2].
  - destruct H3 as [E _]. pose proof (so_end _ _ S) as He. destruct (sl_top sg); [destruct He as (Et & _ & HD & _); by rewrite E, Et|]. destruct He as (_ & b0 & Eb). rewrite Hb in Eb. by apply app_inj_tail in Eb as [_ ?].
  - apply (so_dom _ _ S _ k2 s2). unfold seg_placed. rewrite Hb, placed_app. apply elem_of_app. right. right. by left.
Qed.

Lemma used_not_dv m L Ms Mt p s : space_inv m L Ms Mt -> (p, s) ∈ used L -> p <> dv m.
Proof.
  intros (O & _ & Hd0) Hp ->. apply of_kind_in in Hp. destruct (space_block m L Ms Mt _ _ _ _ O Hp) as (_ & _ & _ & (_ & _ & Hp0) & _).
  destruct (dv_cases m) as [[E1 _]|[E1 E2]]; [by apply Hd0 in E1|]. assert (Hd : (dv m, KFree, dvsize m) ∈ all_placed L) by (apply (free_placed m L Ms Mt _ O); rewrite !elem_of_app, E2; right; right; by left).
  by destruct (same_block m L Ms Mt _ _ _ _ _ _ O Hp Hd).
Qed.

Section Chunk.
Context (m : mspace) (L : list seglay) (Ms Mt : gmap Z Z) (HI : space_inv m L Ms Mt) (i : nat) (sg : seglay) (Hi : L !! i = Some sg).
Context (b1 b2 : list (kind * Z)) (s : Z) (Hb : sl_blocks sg = b1 ++ (KUsed, s) :: b2).
Let p : Z := sl_start sg + total b1.

Lemma chunk_lay : exists q, lay (heads_of_space m) (footer m) true (sl_start sg) b1 p q /\ tc_head (heads_of_space m p) = head_word KUsed s q /\ 32 <= s /\ s mod 8 = 0 /\
  lay (heads_of_space m) (footer m) true (p + s) b2 (sl_end sg) true /\ tc_prev_foot (heads_of_space m (p + s)) = footer m.
Proof using Type*.
  destruct HI as (O & _). pose proof (so_lay _ _ (Forall_lookup_1 _ _ _ _ (ok_segs _ _ _ _ _ O) Hi)) as HL. rewrite Hb in HL. destruct (lay_at _ _ _ _ _ _ _ _ _ _ HL) as (q & H1 & Hh & H32 & H8 & H3 & Hf). eauto 10.
Qed.

Lemma chunk_used : (p, s) ∈ used L.
Proof using Type*. apply of_kind_in, in_placed. exists i, sg. split; [done|]. unfold seg_placed. rewrite Hb, placed_app, elem_of_app. right. by left. Qed.

(** The chunk before is in use. *)
Lemma free_alone : pinuse (heads_of_space m p) = true ->
  exists m' a L' Ms' Mt', free_forward p s (p + s) m = Some (m', a) /\ space_inv m' L' Ms' Mt' /\ used L ≡ₚ (p, s) :: used L'.
Proof using Type*.
  intros Hpin. destruct chunk_lay as (q & H1 & Hh & H32 & H8 & H3 & Hf). destruct (head_flags KUsed s q _ Hh H8) as (_ & Eq & _). rewrite Hpin in Eq. subst q.
  pose proof (used_not_dv m L Ms Mt p s HI chunk_used) as Hnd. destruct HI as (O & Hd1 & Hd0).
  destruct (forward_ok m L Ms Mt (dv_list m) i sg Hi b1 [(KUsed, s)] b2 Hb) as (m' & a & L' & Ms' & Mt' & E & HI' & HU); fold p; try done.
  - cbn [total lay in_use]. replace (p + (s + 0)) with (p + s) by lia. done.
  - by intros a t Ha%list_elem_of_singleton.
  - by left.
  - fold p in E, HU. cbn [total] in E. rewrite !Z.add_0_r in E. exists m', a, L', Ms', Mt'. done.
Qed.

(** The chunk before is free. *)
Context (Hpin : pinuse (heads_of_space m p) = false).
Let sp : Z := tc_prev_foot (heads_of_space m p).
Let x : Z := p - sp.
Let mid : list (kind * Z) := [(KFree, sp); (KUsed, s)].

Lemma chunk_before : exists b0, sl_blocks sg = b0 ++ mid ++ b2 /\ x = sl_start sg + total b0 /\ (x, KFree, sp) ∈ all_placed L /\ x + total mid = p + s /\ total mid = s + sp /\
  (forall a t, (a, KSys, t) ∉ placed x mid) /\ of_kind KUsed (placed x mid) = [(p, s)] /\ of_kind KFree (placed x mid) = [(x, sp)] /\
  forall m0, links_eff m m0 -> lay (heads_of_space m0) (footer m0) true x mid (p + s) true /\ lay (heads_of_space m0) (footer m0) true (sl_start sg) b0 x true.
Proof using Type*.
  destruct chunk_lay as (q & H1 & Hh & H32 & H8 & H3 & Hf). destruct (head_flags KUsed s q _ Hh H8) as (_ & Eq & _). rewrite Hpin in Eq. subst q.
  destruct (lay_before _ _ _ _ _ H1) as (b0 & sp' & Eb0 & Ex & Efoot & H0). fold sp in Efoot. subst sp'. exists b0.
  assert (Hxe : x = sl_start sg + total b0) by (unfold x; lia). assert (Hb' : sl_blocks sg = b0 ++ mid ++ b2) by (rewrite Hb, Eb0; by rewrite <- app_assoc). split; [done|]. split; [done|]. split.
  { apply in_placed. exists i, sg. split; [done|]. unfold seg_placed. rewrite Hb', placed_app, elem_of_app. right. rewrite <- Hxe. by left. }
  split; [cbn [total mid]; unfold x; lia|]. split; [cbn [total mid]; lia|]. split; [|split; [|split; [done|]]].
  - intros a t Ha. cbn in Ha. rewrite elem_of_cons, list_elem_of_singleton in Ha. by destruct Ha.
  - cbn. do 2 f_equal. unfold x. lia.
  - intros m0 HE. assert (Eft : footer m0 = footer m) by (unfold footer; by rewrite (le_rest _ _ HE)). rewrite Eft. split; apply (lay_links m m0 _ _ _ _ _ _ HE); [|done].
    destruct HI as (O & _). pose proof (so_lay _ _ (Forall_lookup_1 _ _ _ _ (ok_segs _ _ _ _ _ O) Hi)) as HL. rewrite Hb' in HL. apply lay_app in HL as (c & q & HL1 & HL2).
    destruct (lay_end _ _ _ _ _ _ _ HL1) as (Ec & _). rewrite <- Hxe in Ec. subst c. destruct HL2 as (Hh1 & [-> Hk1] & Hh2 & Hk2 & HL2). unfold mid. cbn [lay in_use] in *. replace (x + sp) with p in * by (unfold x; lia). done.
Qed.

Definition freed_chunk (r : option (mspace * after)) : Prop := exists m' a L' Ms' Mt', r = Some (m', a) /\ space_inv m' L' Ms' Mt' /\ used L ≡ₚ (p, s) :: used L'.

Lemma free_before_bin : x <> dv m -> exists m1, unlink_chunk x sp m = Some m1 /\ freed_chunk (free_forward x (s + sp) (p + s) m1).
Proof using Type*.
  intros Exd. destruct chunk_before as (b0 & Hb' & Hxe & Hx & Etot & Etm & Hsys & Eus & Efr & Hl). destruct HI as (O & Hd1 & Hd0).
  assert (Hin : (x, sp) ∈ map_to_list Ms ++ map_to_list Mt).
  { pose proof Hx as Hf. apply of_kind_in in Hf. rewrite (ok_free _ _ _ _ _ O) in Hf. rewrite !elem_of_app in Hf. rewrite elem_of_app. destruct Hf as [?|[?|Hf]]; [tauto|tauto|]. by apply dv_list_at in Hf. }
  destruct (unlink_free m L Ms Mt _ O x sp Hin) as (m1 & Ms1 & Mt1 & Eu & HE1 & O1). exists m1. split; [done|]. pose proof (links_keeps _ _ HE1) as K. destruct (Hl m1 HE1) as [Hl2 Hl1].
  destruct (forward_ok m1 L Ms1 Mt1 (dv_list m1) i sg Hi b0 mid b2 Hb') as (m' & a & L' & Ms' & Mt' & E & HI' & HU); rewrite <- ?Hxe, ?Etot; try done.
  - by rewrite Efr, (keeps_dv_list m m1 K).
  - left. by rewrite (kp_dv _ _ K).
  - by rewrite (kp_dvsize _ _ K).
  - by rewrite (kp_dvsize _ _ K), (kp_dv _ _ K).
  - intros Exx. by rewrite (kp_dv _ _ K) in Exx.
  - rewrite <- Hxe, Etot, Etm in E. rewrite <- Hxe, Eus in HU. exists m', a, L', Ms', Mt'. done.
Qed.

(** The chunk before is the victim: it grows when the chunk behind is in use. *)
Lemma free_before_dv : x = dv m -> let next := heads_of_space m (p + s) in
  if Z.land (tc_head next) INUSE_BITS =? INUSE_BITS
  then freed_chunk (m ← set_free_with_pinuse x (s + sp) (p + s) (with_dv (dv m) (s + sp) m); Some (m, Nothing))
  else freed_chunk (free_forward x (s + sp) (p + s) m).
Proof using Type*.
  intros Exd next. destruct chunk_before as (b0 & Hb' & Hxe & Hx & Etot & Etm & Hsys & Eus & Efr & Hl). destruct chunk_lay as (q & _ & _ & H32 & _ & H3 & Hft). destruct HI as (O & Hd1 & Hd0).
  destruct (dv_at m L Ms Mt x sp O Hx Hd0 Exd) as [Eds Hdn]. assert (Edl : dv_list m = [(x, sp)]) by (destruct (dv_cases m) as [[? _]|[_ ->]]; [done|by rewrite Exd, Eds]). rewrite Edl in O.
  destruct (space_block m L Ms Mt _ _ _ _ O Hx) as (Hsp & _). destruct (Hl m ltac:(split; [by destruct m|done|done|by intros b])) as [Hl2 Hl1].
  assert (Hnext : match b2 with (k2, s2) :: _ => tc_head next = head_word k2 s2 true /\ s2 mod 8 = 0 | [] => tc_head next = head_word KFree (topsize m) true /\ topsize m mod 8 = 0 end).
  { destruct b2 as [|[k2 s2] b3]; [|destruct H3 as ((? & ? & _) & _); done]. destruct (top_seg m L Ms Mt _ O) as (_ & _ & _ & _ & _ & _ & Ht8 & _ & _ & _ & _ & Hh & _).
    pose proof (Forall_lookup_1 _ _ _ _ (ok_segs _ _ _ _ _ O) Hi) as S. destruct H3 as [E _]. pose proof (so_end _ _ S) as He.
    destruct (sl_top sg); [destruct He as (Et & _)|destruct He as (_ & b9 & Eb); rewrite Hb in Eb; by apply app_inj_tail in Eb as [_ ?]]. unfold next. rewrite E, Et. done. }
  destruct (Z.land (tc_head next) INUSE_BITS =? INUSE_BITS) eqn:Einu.
  - assert (Hex : exists k2 s2 b3, b2 = (k2, s2) :: b3 /\ in_use k2 = true /\ tc_head next = head_word k2 s2 true).
    { destruct b2 as [|[k2 s2] b3]; destruct Hnext as [Hn H8n]; destruct (head_flags _ _ _ _ Hn H8n) as (_ & _ & _ & _ & _ & Hf); rewrite Hf in Einu; [done|]. by exists k2, s2, b3. }
    destruct Hex as (k2 & s2 & b3 & Eb2 & Hk2 & Hn). set (md := with_dv (dv m) (s + sp) m).
    destruct (merge_used md L Ms Mt [] i sg Hi b0 mid) with (k2 := k2) (s2 := s2) (b2 := b3) as (m' & L' & Em & HE & O' & HU); rewrite <- ?Hxe, ?Etot; try done.
    + by apply (space_ok_fields m).
    + by rewrite <- Eb2.
    + rewrite <- Hxe in Em, O', HU. rewrite Etot, Etm in Em. rewrite Etm in O'. rewrite Em. cbn [mbind option_bind]. exists m', Nothing, L', Ms, Mt. split; [done|].
      apply tag_keeps in HE as [Ed Es _ _]. cbn in Ed, Es. split; [|by rewrite HU, Eus]. unfold space_inv, dv_list. rewrite Ed, Es, (proj2 (Z.eqb_neq _ 0)) by lia. rewrite <- Exd. split; [done|]. lia.
  - destruct (forward_ok m L Ms Mt [] i sg Hi b0 mid b2 Hb') as (m' & a & L' & Ms' & Mt' & E & HI' & HU); rewrite <- ?Hxe, ?Etot; try done.
    + by right.
    + intros _. destruct b2 as [|[k2 s2] b3]; [done|]. destruct Hnext as [Hn H8n]. destruct (head_flags _ _ _ _ Hn H8n) as (_ & _ & _ & _ & _ & Hf). by rewrite Hf in Einu.
    + rewrite <- Hxe, Etot, Etm in E. rewrite <- Hxe, Eus in HU. exists m', a, L', Ms', Mt'. done.
Qed.
End Chunk.

Lemma free_chunk_ok m L Ms Mt p s : space_inv m L Ms Mt -> (p, s) ∈ used L ->
  exists m' a L' Ms' Mt', free_inside (chunk2mem p) m = Some (m', FreeDone a) /\ space_inv m' L' Ms' Mt' /\ used L ≡ₚ (p, s) :: used L'.
Proof.
  intros HI Hp. pose proof HI as (O & Hd1 & Hd0). destruct (used_foot m L Ms Mt _ p s O Hp) as (f & ERf & Ef & Hft). destruct (used_place m L Ms Mt _ p s O Hp) as (i & sg & b1 & b2 & Hi & Hb & Ev).
  pose proof Hp as Hpl. apply of_kind_in in Hpl. destruct (space_block m L Ms Mt _ _ _ _ O Hpl) as (H32 & H8 & _ & (HDp & Hok & Hp0) & Esz).
  destruct (chunk_lay m L Ms Mt HI i sg Hi b1 b2 s Hb) as (q & _ & Hh & _). rewrite <- Ev in Hh. destruct (head_flags KUsed s q _ Hh H8) as (_ & Epin & _ & Eiu & Emm & _).
  unfold free_inside. replace (mem2chunk (chunk2mem p)) with p by (unfold mem2chunk, chunk2mem; lia). rewrite (space_read m m _ p (space_is_self m) HDp). cbn [mbind option_bind]. rewrite Esz, ERf. cbn [mbind option_bind].
  rewrite Hft. unfold footer at 1. rewrite Z.lxor_assoc, Z.lxor_nilpotent, Z.lxor_0_r, Z.eqb_refl, Hok, Eiu, Epin, Emm. cbn [in_use negb]. rewrite !andb_false_r. cbn [negb andb guard_]. destruct q; cbn [negb].
  - destruct (free_alone m L Ms Mt HI i sg Hi b1 b2 s Hb) as (m' & a & L' & Ms' & Mt' & E & HI' & HU); rewrite <- Ev in *; [done|]. rewrite E. cbn [mbind option_bind]. eauto 10.
  - rewrite Ev in Epin. pose proof (free_before_bin m L Ms Mt HI i sg Hi b1 b2 s Hb Epin) as Hbin. pose proof (free_before_dv m L Ms Mt HI i sg Hi b1 b2 s Hb Epin) as Hdv.
    destruct (chunk_before m L Ms Mt HI i sg Hi b1 b2 s Hb Epin) as (_ & _ & _ & Hx & _). unfold freed_chunk in *. rewrite <- Ev in *. set (x := p - tc_prev_foot (heads_of_space m p)) in *.
    destruct (space_block m L Ms Mt _ _ _ _ O Hx) as (_ & _ & _ & (_ & Hokx & _) & _). rewrite Hokx. cbn [guard_]. destruct (Z.eqb_spec x (dv m)) as [Exd|Exd]; cbn [negb].
    + specialize (Hdv Exd). cbv zeta in Hdv. rewrite <- Ef in Hdv. destruct (Z.land (tc_head f) INUSE_BITS =? INUSE_BITS).
      * destruct Hdv as (m' & a & L' & Ms' & Mt' & E & HI' & HU). apply bind_Some in E as (m1 & E1 & E). injection E as -> <-. rewrite E1. cbn [mbind option_bind]. eauto 10.
      * destruct Hdv as (m' & a & L' & Ms' & Mt' & -> & HI' & HU). cbn [mbind option_bind]. eauto 10.
    + destruct (Hbin Exd) as (m1 & -> & m' & a & L' & Ms' & Mt' & E & HI' & HU). cbn [mbind option_bind]. rewrite E. cbn [mbind option_bind]. eauto 10.
Qed.
