(* ===== verification/DlRun.v ===== *)
(** Memory spaces in operation: a new space has the invariant, and a space behaves as a
    set of chunks in use, whatever is requested and given back. *)
From stdpp Require Import gmap.
From S2P Require Import Prelude DlBins DlTree DlUnlink DlFit DlSmall DlSpace DlLayout DlInv DlBlocks DlMalloc DlFree.
Local Open Scope Z_scope.

(** The memory of a space, and where its record is. *)
Definition region (m : mspace) := (maps m, direct m, ms_at m).

(** ** A new space *)
Lemma put_read a f m b : read (put a f m) b = if decide (b = a) then Some (f (heads_of_space m a)) else read m b.
Proof. unfold read, put. cbn. destruct (decide (b = a)) as [->|]; [by rewrite lookup_insert_eq|by rewrite lookup_insert_ne]. Qed.

Lemma init_bins_fold l m : let m' := foldl (fun m i => put (smallbin_at m i) (set_fd (smallbin_at m i)) (put (smallbin_at m i) (set_bk (smallbin_at m i)) m)) m l in
  tag_eff m m' /\ (forall b, is_Some (read m b) -> is_Some (read m' b)) /\ (forall i, i ∈ l -> is_Some (read m' (smallbin_at m i))) /\
  (forall b, (forall i, i ∈ l -> b <> smallbin_at m i) -> read m' b = read m b).
Proof.
  revert m. induction l as [|i l IH]; intros m.
  - cbn. split; [by destruct m as [? []]|]. split; [done|]. split; [by intros i ?%elem_of_nil|done].
  - cbn [foldl]. set (a := smallbin_at m i). set (m1 := put a (set_fd a) (put a (set_bk a) m)).
    assert (Ea : forall j, smallbin_at m1 j = smallbin_at m j) by done. destruct (IH m1) as (H1 & H2 & H3 & H4). split; [|split; [|split]].
    + unfold tag_eff in *. rewrite H1 at 1. by destruct m as [? []].
    + intros b Hb. apply H2. unfold m1. rewrite !put_read. destruct (decide (b = a)); eauto.
    + intros j Hj. apply elem_of_cons in Hj as [->|Hj]; [apply H2; unfold m1; rewrite put_read, decide_True; eauto|rewrite <- Ea; by apply H3].
    + intros b Hb. rewrite H4; [|intros j Hj; rewrite Ea; apply Hb; by right]. unfold m1. rewrite !put_read. rewrite !decide_False; [done|apply Hb; by left|apply Hb; by left].
Qed.

Lemma init_bins_spec m : tag_eff m (init_bins m) /\ (forall b, is_Some (read m b) -> is_Some (read (init_bins m) b)) /\ (forall i, (i < 32)%nat -> is_Some (read (init_bins m) (hdr m i))) /\
  (forall b, (forall i, (i < 32)%nat -> b <> hdr m i) -> read (init_bins m) b = read m b).
Proof.
  destruct (init_bins_fold (seqZ 0 32) m) as (H1 & H2 & H3 & H4). unfold init_bins. split; [done|]. split; [done|]. split.
  - intros i Hi. apply H3, elem_of_seqZ. lia.
  - intros b Hb. apply H4. intros j Hj%elem_of_seqZ. specialize (Hb (Z.to_nat j)). unfold hdr in Hb. rewrite Z2Nat.id in Hb by lia. apply Hb. lia.
Qed.

Lemma empty_small_bins m : smallmap m = 0 -> (forall i, (i < 32)%nat -> is_Some (read m (hdr m i)) /\ hdr m i <> 0) -> small_bins m ∅.
Proof.
  intros E Hh. exists (replicate 32 []). assert (Ee : small_elems (replicate 32 []) = []) by done. split; [|split; [by rewrite Ee, map_to_list_empty|done]]. split.
  - done.
  - rewrite E. split; cbn; lia.
  - done.
  - intros i ch Hch. apply lookup_replicate in Hch as [-> _]. rewrite E, Z.bits_0. done.
  - rewrite Ee. by intros i x _ ?%elem_of_nil.
  - rewrite Ee. apply NoDup_nil_2.
Qed.

(** The record of the space is its first chunk, and all other memory is the top chunk. *)
Definition first_lay (tbase tsize : Z) : seglay := SegLay tbase [(KSys, 960)] (tbase + 960) true (tbase + tsize).

Lemma aligned_offset a : a mod 8 = 0 -> align_offset (chunk2mem a) = 0.
Proof. intros Ha. unfold align_offset, chunk2mem. change CHUNK_ALIGN_MASK with (Z.ones 3). rewrite Z.land_ones by lia. change (2 ^ 3) with 8. by rewrite Z.add_mod, Ha by lia. Qed.

(** A space with its record and its bins, before it has a top chunk. *)
Record bare_space (tbase tsize : Z) (m : mspace) : Prop := {
  bs_at : ms_at m = tbase + 16; bs_small : smallmap m = 0; bs_dv : dvsize m = 0 /\ dv m = 0; bs_magic : in_u 64 (magic m); bs_maps : maps m = [(tbase, tbase + tsize)] /\ direct m = []; bs_segs : Forall2 seg_matches (segs m) [first_lay tbase tsize] /\ head (seg_at <$> segs m) = Some (tbase + 896);
  bs_core : core m = no_bins tbase (tbase + 616) (chunks (core m)); bs_head : tc_head (heads_of_space m tbase) = 963; bs_read : is_Some (read m tbase);
  bs_hdr : forall i, (i < 32)%nat -> is_Some (read m (hdr m i)) }.

Lemma init_top_ok tbase tsize trim m : 0 < tbase -> tbase mod 8 = 0 -> tsize mod 8 = 0 -> 1040 < tsize < 2 ^ 40 -> tbase + tsize < 2 ^ 64 -> bare_space tbase tsize m -> let tp := tbase + 960 in let ts := tsize - 1040 in
  exists m', init_top tp ts trim m = Some m' /\ space_inv m' [first_lay tbase tsize] ∅ ∅ /\ region m' = ([(tbase, tbase + tsize)], [], tbase + 16) /\ topsize m' = ts.
Proof.
  intros Hb Hb8 Hs8 Hs Hend B tp ts. assert (Ht8 : tp mod 8 = 0) by (unfold tp; by rewrite Z.add_mod, Hb8). assert (Hts8 : ts mod 8 = 0) by (unfold ts; by rewrite Zminus_mod, Hs8).
  assert (HM : forall z, tbase <= z -> z + 8 <= tbase + tsize -> mapped m z = true).
  { intros z H1 H2. unfold mapped. destruct (bs_maps _ _ _ B) as [-> ->]. cbn [existsb app fst snd]. apply orb_true_iff. left. apply andb_true_iff. split; apply Z.leb_le; lia. }
  unfold init_top. rewrite (aligned_offset tp Ht8), Z.add_0_r, Z.sub_0_r.
  destruct (put_head_step (with_top tp ts m) (with_top tp ts m) _ tp (fun _ => Z.lor ts PINUSE_BIT) (tagged_self _)) as (m3 & -> & T3 & D3 & R3); [apply HM; unfold tp; lia|]. cbn [mbind option_bind].
  destruct (put_head_step (with_top tp ts m) m3 _ (tp + ts) (fun _ => TOP_FOOT_SIZE) T3) as (m4 & -> & T4 & D4 & R4); [apply HM; unfold tp, ts; lia|]. cbn [mbind option_bind]. eexists. split; [done|].
  assert (Hh1 : tc_head (heads_of_space m4 tbase) = 963) by (rewrite (tg_view _ _ _ T4), !fupd_ne by (unfold tp, ts; lia); apply B).
  assert (Hh2 : tc_head (heads_of_space m4 tp) = ts + 1) by (rewrite (tg_view _ _ _ T4), fupd_ne, fupd_eq by (unfold ts; lia); cbn [tc_head set_head]; by rewrite free_head).
  pose proof (tg_rest _ _ _ T4) as Hr. assert (Hread : forall b, is_Some (read m b) -> is_Some (read m4 b)) by (intros b; apply (tg_dom _ _ _ T4)). assert (D3' : is_Some (read m4 tp)) by (by apply R4).
  assert (Hh3 : pinuse (heads_of_space m4 (tp + ts)) = false /\ is_Some (read m4 (tp + ts))) by (split; [unfold pinuse; by rewrite (tg_view _ _ _ T4), fupd_eq|done]). clear T4 T3 R3 R4 D3 D4 m3.
  set (m' := MSpace _ _ _ _ _ _ _ _ _ _ _ _ _ _ _ _).
  assert (Ef : dvsize m' = 0 /\ dv m' = 0 /\ smallmap m' = 0 /\ ms_at m' = tbase + 16 /\ magic m' = magic m /\ (maps m' = [(tbase, tbase + tsize)] /\ direct m' = []) /\ top m' = tp /\ topsize m' = ts /\ segs m' = segs m /\ core m' = no_bins tbase (tbase + 616) (chunks (core m4))).
  { unfold m'. cbn [dvsize dv smallmap ms_at magic maps direct top topsize core segs]. rewrite Hr. cbn. destruct B as [-> -> [-> ->] _ [-> ->] _ Ec _ _ _]. split_and!; try done. by rewrite Ec. }
  assert (EH : heads_of_space m' = heads_of_space m4 /\ read m' = read m4) by done. destruct EH as [EH ER]. clearbody m'. clear Hr. destruct Ef as (Edv & Ed & Esm & Eat & Emg & [Emp Edr] & Et & Ets & Esg & Ec).
  assert (Ehd : forall i, hdr m' i = hdr m i) by (intros i; unfold hdr, smallbin_at; by rewrite Eat, (bs_at _ _ _ B)).
  assert (Hdr : forall i, (i < 32)%nat -> tbase < hdr m i < tp) by (intros i Hi; unfold hdr, smallbin_at, tp; rewrite (bs_at _ _ _ B), Z.shiftl_mul_pow2 by lia; lia).
  assert (Elim : sl_limit (first_lay tbase tsize) = tp + ts + 80) by (unfold tp, ts; cbn; lia).
  split; [|split; [unfold region; by rewrite Eat, Emp, Edr|done]]. split; [|lia]. unfold dv_list. rewrite Edv. change (0 =? 0) with true. split.
  - apply Forall_cons. split; [|by apply Forall_nil]. split.
    + cbn [first_lay sl_start sl_blocks sl_end lay in_use]. rewrite EH, Hh1. done.
    + cbn [first_lay sl_start]. rewrite Ec. cbn. lia.
    + intros z Hz H1 H2. cbn [first_lay sl_start] in H1. rewrite Elim in H2. unfold mapped. rewrite Emp, Edr. destruct (bs_maps _ _ _ B) as [<- <-]. apply HM; [lia|unfold tp, ts in *; lia].
    + rewrite Elim. cbn [first_lay sl_start]. unfold tp, ts. lia.
    + rewrite Elim. cbn [first_lay sl_end]. unfold tp, ts. lia.
    + cbn [first_lay sl_limit]. by rewrite Z.add_mod, Hb8, Hs8.
    + cbn [first_lay sl_top sl_end]. rewrite Et, Ets, EH, Hh2, ER. split; [done|]. split; [done|]. split; [done|]. split; [done|]. split; [unfold ts; lia|]. rewrite Elim. change TOP_FOOT_SIZE with 80. lia.
    + intros x k s Hx%list_elem_of_singleton. cbn in Hx. simplify_eq. rewrite ER. apply Hread, B.
    + intros _. unfold foot_ok. by rewrite Et, Ets, EH, ER.
  - intros i j s1 s2 Hne Hi Hj. destruct i as [|i]; [|done]. by destruct j as [|j].
  - split; [done|]. intros j sg Hj. destruct j as [|j]; [|done]. cbn in Hj. by injection Hj as <-.
  - rewrite Esg. apply B.
  - rewrite Esg, Eat. destruct (bs_segs _ _ _ B) as [_ ->]. f_equal. lia.
  - rewrite Edr. by apply Forall_nil.
  - rewrite Edr. by intros r ?%elem_of_nil.
  - rewrite Edr. done.
  - apply empty_small_bins; [done|]. intros i Hi. rewrite Ehd, ER. split; [apply Hread; by apply B|]. specialize (Hdr i Hi). lia.
  - rewrite Ec. apply no_bins_empty. lia.
  - done.
  - rewrite Eat. replace (tbase + 16 - 16) with tbase by lia. by apply list_elem_of_singleton.
  - rewrite Eat, Emg. split; [unfold in_u; lia|apply B].
  - rewrite Ec. cbn. lia.
  - rewrite Ec, Eat. cbn. lia.
Qed.

Lemma init_bins_bare tbase tsize m : smallmap m = 0 -> dvsize m = 0 -> dv m = 0 -> ms_at m = tbase + 16 -> in_u 64 (magic m) -> maps m = [(tbase, tbase + tsize)] -> direct m = [] -> Forall2 seg_matches (segs m) [first_lay tbase tsize] -> head (seg_at <$> segs m) = Some (tbase + 896) -> core m = no_bins tbase (tbase + 616) (chunks (core m)) ->
  0 < tbase -> is_Some (read m tbase) -> tc_head (heads_of_space m tbase) = 963 -> bare_space tbase tsize (init_bins m).
Proof.
  intros E1 E2 E3 E4 E5 E6 E6d E6' E6f E7 Hb HR Hh. destruct (init_bins_spec m) as (T & R1 & R2 & R3). generalize dependent (init_bins m). intros m' T R1 R2 R3.
  assert (Hdr : forall i, (i < 32)%nat -> tbase <> hdr m i) by (intros i Hi; unfold hdr, smallbin_at; rewrite E4, Z.shiftl_mul_pow2 by lia; lia). split; try (by rewrite T).
  - unfold tag_eff in T. rewrite T at 1. cbn. by rewrite E7.
  - rewrite <- Hh. unfold heads_of_space, heads. rewrite !lookup_total_alt. specialize (R3 tbase Hdr). unfold read in R3. by rewrite R3.
  - by apply R1.
Qed.

Lemma new_space_ok tbase tsize magic_ flags trim : 0 < tbase -> tbase mod 8 = 0 -> tsize mod 8 = 0 -> 1040 < tsize < 2 ^ 40 -> tbase + tsize < 2 ^ 64 -> in_u 64 magic_ ->
  exists m, init_user_mstate tbase tsize magic_ flags trim = Some m /\ space_inv m [first_lay tbase tsize] ∅ ∅ /\ region m = ([(tbase, tbase + tsize)], [], tbase + 16) /\ topsize m = tsize - 1040.
Proof.
  intros Hb Hb8 Hs8 Hs Hend Hmag. unfold init_user_mstate. rewrite (aligned_offset tbase Hb8), Z.add_0_r. change (pad_request sizeof_malloc_state) with 960. change TOP_FOOT_SIZE with 80. unfold chunk2mem at 1.
  set (m0 := MSpace _ _ _ _ _ _ _ _ _ _ _ _ _ _ _ _). destruct (put_head_step m0 m0 _ tbase (fun _ => Z.lor 960 INUSE_BITS) (tagged_self m0)) as (m1 & -> & T1 & D1 & _).
  { unfold mapped, m0. cbn [existsb app maps direct fst snd]. apply orb_true_iff. left. apply andb_true_iff. split; apply Z.leb_le; lia. }
  cbn [mbind option_bind]. replace (tbase + tsize - (tbase + 960) - 80) with (tsize - 1040) by lia. apply (init_top_ok tbase tsize trim); [done|done|done|done|done|].
  assert (E : m1 = with_core (with_chunks (chunks (core m1)) (core m0)) m0) by apply T1. apply init_bins_bare; try (by rewrite E); try done.
  - rewrite E. apply Forall2_cons. split; [|by apply Forall2_nil]. by split.
  - rewrite E. cbn. f_equal. unfold chunk2mem. lia.
  - rewrite E at 1. unfold m0, no_bins, with_chunks. cbn. f_equal. unfold chunk2mem. lia.
  - by rewrite (tg_view _ _ _ T1), fupd_eq.
Qed.

(** ** The memory of a space *)
(** No operation inside the space changes the memory it has, where its record is, its segments and
    what it counts. *)
Definition outer (m : mspace) := (region m, (segs m, footprint m, max_footprint m, mflags m)).
Lemma outer_region m m' : outer m' = outer m -> region m' = region m.
Proof. unfold outer. congruence. Qed.
Ltac region_steps :=
  repeat match goal with
  | H : store _ _ _ = Some _ |- _ => unfold store in H
  | H : on_core _ _ = Some _ |- _ => unfold on_core in H; opt_steps H
  | H : put_head _ _ _ = Some _ |- _ => unfold put_head in H; opt_steps H
  | H : put_foot _ _ _ = Some _ |- _ => unfold put_foot in H; opt_steps H
  | H : mark_inuse_foot _ _ _ = Some _ |- _ => unfold mark_inuse_foot in H
  | H : mbind _ _ = Some _ |- _ => opt_steps H
  | H : guard_ _ _ = Some _ |- _ => opt_steps H
  | H : (if _ then _ else _) = Some _ |- _ => opt_steps H
  | H : Some _ = Some _ |- _ => opt_steps H
  | H : None = Some _ |- _ => discriminate H
  end; try done; try congruence.

Lemma insert_small_outer p s m m' : insert_small_chunk p s m = Some m' -> outer m' = outer m.
Proof. intros H. unfold insert_small_chunk in H. cbv zeta in H. region_steps. Qed.
Lemma unlink_small_outer p s m m' : unlink_small_chunk p s m = Some m' -> outer m' = outer m.
Proof. intros H. unfold unlink_small_chunk in H. cbv zeta in H. region_steps. Qed.
Lemma unlink_first_outer b p i m m' : unlink_first_small_chunk b p i m = Some m' -> outer m' = outer m.
Proof. intros H. unfold unlink_first_small_chunk in H. cbv zeta in H. region_steps. Qed.
Lemma core_outer f m m' : on_core f m = Some m' -> outer m' = outer m.
Proof. intros H. region_steps. Qed.
Lemma tags_outer p s n m m' : set_inuse_and_pinuse p s m = Some m' \/ set_size_and_pinuse_of_inuse_chunk p s m = Some m' \/ set_size_and_pinuse_of_free_chunk p s m = Some m' \/ set_free_with_pinuse p s n m = Some m' -> outer m' = outer m.
Proof. unfold set_inuse_and_pinuse, set_size_and_pinuse_of_inuse_chunk, set_free_with_pinuse, set_size_and_pinuse_of_free_chunk. intros [H|[H|[H|H]]]; region_steps. Qed.

Ltac region_done :=
  repeat match goal with
  | H : insert_small_chunk _ _ _ = Some _ |- _ => apply insert_small_outer in H
  | H : unlink_small_chunk _ _ _ = Some _ |- _ => apply unlink_small_outer in H
  | H : unlink_first_small_chunk _ _ _ _ = Some _ |- _ => apply unlink_first_outer in H
  | H : on_core _ _ = Some _ |- _ => apply core_outer in H
  | H : set_inuse_and_pinuse ?p ?s ?m = Some ?m' |- _ => assert (outer m' = outer m) by (apply (tags_outer p s 0); auto); clear H
  | H : set_size_and_pinuse_of_inuse_chunk ?p ?s ?m = Some ?m' |- _ => assert (outer m' = outer m) by (apply (tags_outer p s 0); auto); clear H
  | H : set_size_and_pinuse_of_free_chunk ?p ?s ?m = Some ?m' |- _ => assert (outer m' = outer m) by (apply (tags_outer p s 0); auto); clear H
  | H : set_free_with_pinuse ?p ?s ?n ?m = Some ?m' |- _ => assert (outer m' = outer m) by (apply (tags_outer p s n); auto); clear H
  | H : put_head _ _ _ = Some _ |- _ => unfold put_head in H; opt_steps H
  | H : mbind _ _ = Some _ |- _ => opt_steps H
  | H : (if _ then _ else _) = Some _ |- _ => opt_steps H
  | H : guard_ _ _ = Some _ |- _ => opt_steps H
  | H : Some _ = Some _ |- _ => opt_steps H
  end; unfold outer, region in *; cbn in *; try done; try congruence.

Lemma insert_chunk_outer p s m m' : insert_chunk p s m = Some m' -> outer m' = outer m.
Proof. unfold insert_chunk. intros H. region_done. Qed.
Lemma unlink_chunk_outer p s m m' : unlink_chunk p s m = Some m' -> outer m' = outer m.
Proof. unfold unlink_chunk. intros H. region_done. Qed.
Lemma replace_dv_outer p s m m' : replace_dv p s m = Some m' -> outer m' = outer m.
Proof. unfold replace_dv. intros H. region_done. Qed.

Ltac region_ops :=
  repeat match goal with
  | H : insert_chunk _ _ _ = Some _ |- _ => apply insert_chunk_outer in H
  | H : unlink_chunk _ _ _ = Some _ |- _ => apply unlink_chunk_outer in H
  | H : replace_dv _ _ _ = Some _ |- _ => apply replace_dv_outer in H
  | H : mbind _ _ = Some _ |- _ => opt_steps H
  | H : (if _ then _ else _) = Some _ |- _ => opt_steps H
  | H : guard_ _ _ = Some _ |- _ => opt_steps H
  end; region_done.

Lemma tmalloc_outer nb m m' p : tmalloc_small nb m = Some (m', p) \/ tmalloc_large nb m = Some (m', p) -> outer m' = outer m.
Proof. unfold tmalloc_small, tmalloc_large. intros [H|H]; cbv zeta in H; region_ops. Qed.
Lemma from_dv_outer nb m m' r : malloc_from_dv nb m = Some (m', r) -> outer m' = outer m.
Proof. unfold malloc_from_dv, malloc_from_top. intros H. cbv zeta in H. region_ops. Qed.
Lemma malloc_bins_outer idx nb m m' r : malloc_exact idx m = Some (m', r) \/ malloc_next_bin idx nb m = Some (m', r) -> outer m' = outer m.
Proof. unfold malloc_exact, malloc_next_bin. intros [H|H]; cbv zeta in H; region_ops. Qed.

Lemma malloc_outer bytes m m' r : malloc_inside bytes m = Some (m', r) -> outer m' = outer m.
Proof.
  unfold malloc_inside, malloc_small, malloc_large. intros H. cbv zeta in H. opt_steps H;
    first [solve [apply (from_dv_outer _ _ _ _ H)]|solve [apply (malloc_bins_outer _ 0 _ _ _ (or_introl H))]|solve [apply (malloc_bins_outer _ _ _ _ _ (or_intror H))]|idtac];
    match goal with
    | E : tmalloc_small ?nb ?m = Some (?m1, ?p) |- _ => pose proof (tmalloc_outer nb m m1 p (or_introl E)) as E1
    | E : tmalloc_large ?nb ?m = Some (?m1, ?p) |- _ => pose proof (tmalloc_outer nb m m1 p (or_intror E)) as E1
    end; first [done|apply from_dv_outer in H; congruence].
Qed.

Lemma free_forward_outer p s n m m' a : free_forward p s n m = Some (m', a) -> outer m' = outer m.
Proof. unfold free_forward, free_to_bin. intros H. cbv zeta in H. region_ops; repeat case_match; region_done. Qed.

Lemma free_outer mem m m' r : free_inside mem m = Some (m', r) -> outer m' = outer m.
Proof.
  unfold free_inside. intros H. cbv zeta in H. opt_steps H; repeat match goal with E : free_forward _ _ _ _ = Some _ |- _ => apply free_forward_outer in E end; region_ops.
Qed.

Lemma from_dv_region nb m m' r : malloc_from_dv nb m = Some (m', r) -> region m' = region m.
Proof. intros H. by eapply outer_region, from_dv_outer. Qed.
Lemma malloc_region bytes m m' r : malloc_inside bytes m = Some (m', r) -> region m' = region m.
Proof. intros H. by eapply outer_region, malloc_outer. Qed.
Lemma free_region mem m m' r : free_inside mem m = Some (m', r) -> region m' = region m.
Proof. intros H. by eapply outer_region, free_outer. Qed.

(** ** The space and its clients *)
(** The client's view: [U] has the blocks it holds, with the bytes it asked for. A request
    that the space cannot satisfy from its own memory is not answered here. *)
Inductive space_step : mspace * gmap Z Z -> mspace * gmap Z Z -> Prop :=
| StepMalloc m U bytes m' mem : in_u 64 bytes -> malloc_inside bytes m = Some (m', Mem mem) -> space_step (m, U) (m', <[mem := bytes]> U)
| StepAsk m U bytes m' nb : in_u 64 bytes -> malloc_inside bytes m = Some (m', FromSystem nb) -> space_step (m, U) (m', U)
| StepFree m U mem bytes m' a : U !! mem = Some bytes -> free_inside mem m = Some (m', FreeDone a) -> space_step (m, U) (m', delete mem U).

Definition holds (m : mspace) (U : gmap Z Z) : Prop := exists L Ms Mt, space_inv m L Ms Mt /\
  (forall mem bytes, U !! mem = Some bytes -> 0 <= bytes /\ exists sz, (mem2chunk mem, sz) ∈ used L /\ bytes + CHUNK_OVERHEAD <= sz) /\
  (forall p sz, (p, sz) ∈ used L -> is_Some (U !! chunk2mem p)).

Lemma mem_chunk p : mem2chunk (chunk2mem p) = p.
Proof. unfold mem2chunk, chunk2mem. lia. Qed.
Lemma chunk_mem mem : chunk2mem (mem2chunk mem) = mem.
Proof. unfold mem2chunk, chunk2mem. lia. Qed.

Lemma used_nodup m L Ms Mt D : space_ok m L Ms Mt D -> NoDup (used L).*1.
Proof.
  intros O. pose proof (segs_nodup m L (ok_segs _ _ _ _ _ O) (ok_apart _ _ _ _ _ O)) as Hd. revert Hd. unfold used. generalize (all_placed L). clear O.
  induction l as [|[[a k] s] l IH]; intros Hd; [apply NoDup_nil_2|]. cbn in Hd. apply NoDup_cons in Hd as [Hn Hd]. unfold of_kind. cbn. destruct (decide (k = KUsed)) as [->|]; [|by apply IH].
  cbn. apply NoDup_cons. split; [|by apply IH]. intros ([a' s'] & -> & Hin)%list_elem_of_fmap. apply of_kind_in in Hin. apply Hn. apply list_elem_of_fmap. exists (a', KUsed). split; [done|].
  apply list_elem_of_fmap. by exists (a', KUsed, s').
Qed.

Lemma needed_bound bytes : 0 <= bytes < 2 ^ 64 -> needed bytes < 2 ^ 40 -> bytes + CHUNK_OVERHEAD <= needed bytes.
Proof.
  intros Hb. unfold needed. destruct (Z.leb_spec MAX_REQUEST bytes); [unfold MAX_SIZE_T; lia|]. intros _. destruct (request_bounds bytes ltac:(lia)) as (_ & _ & H1 & _). unfold CHUNK_OVERHEAD. lia.
Qed.

Lemma step_holds m U m' U' : holds m U -> space_step (m, U) (m', U') -> holds m' U'.
Proof.
  intros (L & Ms & Mt & HI & H1 & H2) HS. inversion HS as [? ? bytes ? mem H4 H5|? ? bytes ? nb H4 H5|? ? mem bytes ? a H4 H5]; subst.
  - destruct (malloc_inside_ok m L Ms Mt bytes HI ltac:(done)) as (m1 & r & E & G). rewrite E in H5. injection H5 as -> ->. destruct G as (p & -> & L' & Ms' & Mt' & sz & HI' & HU & Hsz).
    exists L', Ms', Mt'. split; [done|]. destruct HI' as (O' & _). assert (Hp : (p, KUsed, sz) ∈ all_placed L') by (apply of_kind_in; fold (used L'); rewrite HU; by left). split.
    + intros mem b Hm. apply lookup_insert_Some in Hm as [[<- <-]|[_ Hm]].
      * split; [apply H4|]. exists sz. rewrite mem_chunk, HU. split; [by left|]. destruct (space_block m' L' Ms' Mt' _ _ _ _ O' Hp) as (? & _). pose proof (needed_bound bytes H4). lia.
      * destruct (H1 _ _ Hm) as (Hb & sz' & Hin & Hle). split; [done|]. exists sz'. rewrite HU. split; [by right|done].
    + intros q sz' Hq. rewrite HU in Hq. apply elem_of_cons in Hq as [Hq|Hq]; [injection Hq as -> ->; rewrite lookup_insert_eq; eauto|]. destruct (decide (chunk2mem q = chunk2mem p)) as [->|]; [rewrite lookup_insert_eq; eauto|].
      rewrite lookup_insert_ne by done. by eapply H2.
  - destruct (malloc_inside_ok m L Ms Mt bytes HI ltac:(done)) as (m1 & r & E & G). rewrite E in H5. injection H5 as -> ->. destruct G as (_ & -> & _). by exists L, Ms, Mt.
  - destruct (H1 _ _ H4) as (_ & sz & Hin & _). destruct (free_chunk_ok m L Ms Mt _ _ HI Hin) as (m1 & a1 & L' & Ms' & Mt' & E & HI' & HU). rewrite chunk_mem in E. rewrite E in H5. injection H5 as -> ->.
    exists L', Ms', Mt'. split; [done|]. destruct HI as (O & _). pose proof (used_nodup m L Ms Mt _ O) as Hd. rewrite HU in Hd. cbn in Hd. apply NoDup_cons in Hd as [Hn _]. split.
    + intros mem' b Hm. apply lookup_delete_Some in Hm as [Hne Hm]. destruct (H1 _ _ Hm) as (Hb & sz' & Hin' & Hle). split; [done|]. exists sz'. split; [|done]. rewrite HU in Hin'. apply elem_of_cons in Hin' as [Hq|?]; [|done].
      exfalso. apply Hne. injection Hq as Hq _. rewrite <- (chunk_mem mem), <- (chunk_mem mem'). by f_equal.
    + intros q sz' Hq. rewrite lookup_delete_ne; [apply (H2 q sz'); rewrite HU; by right|]. intros E'. apply Hn. apply list_elem_of_fmap. exists (q, sz'). split; [|done]. rewrite E'. by rewrite mem_chunk.
Qed.

Lemma run_holds m U m' U' : holds m U -> rtc space_step (m, U) (m', U') -> holds m' U'.
Proof.
  intros H R. remember (m, U) as c eqn:Ec. remember (m', U') as c' eqn:Ec'. revert m U H Ec. induction R as [c|c [m1 U1] c' HS R IH]; intros m U H ->; [by injection Ec' as -> ->|].
  subst c'. apply (IH eq_refl m1 U1); [|done]. by apply (step_holds m U).
Qed.

Lemma run_region m U m' U' : rtc space_step (m, U) (m', U') -> region m' = region m.
Proof.
  intros R. remember (m, U) as c eqn:Ec. remember (m', U') as c' eqn:Ec'. revert m U Ec. induction R as [c|c [m1 U1] c' HS R IH]; intros m U ->; [by injection Ec' as -> ->|].
  rewrite (IH Ec' m1 U1 eq_refl). inversion HS; subst; first [by eapply malloc_region|by eapply free_region].
Qed.

(** What is known of the blocks of a client. *)
Lemma held_block m U mem bytes tbase tsize at_ : holds m U -> region m = ([(tbase, tbase + tsize)], [], at_) -> U !! mem = Some bytes ->
  mem mod 8 = 0 /\ tbase <= mem /\ mem + bytes <= tbase + tsize /\ (forall i, (i < 32)%nat -> hdr m i < mem \/ mem + bytes <= hdr m i).
Proof.
  intros (L & Ms & Mt & (O & _) & H1 & _) [=Hm Hdm _] HU. destruct (H1 _ _ HU) as (Hb & s & Hin%of_kind_in & Hle). destruct (space_block m L Ms Mt _ _ _ _ O Hin) as (H32 & H8 & Hp8 & _).
  unfold mem2chunk, CHUNK_OVERHEAD in *. split; [replace mem with (mem - 16 + 2 * 8) by lia; by rewrite Z.mod_add|]. pose proof Hin as Hpl. apply in_placed in Hpl as (j & sg & Hj & Hpl).
  pose proof (Forall_lookup_1 _ _ _ _ (ok_segs _ _ _ _ _ O) Hj) as S. pose proof (seg_bounds _ _ _ _ _ S Hpl) as Hbd.
  assert (Hmap : forall z, mapped m z = true -> tbase <= z /\ z + 8 <= tbase + tsize) by (intros z; unfold mapped; rewrite Hm, Hdm; cbn [existsb app fst snd]; rewrite orb_false_r, andb_true_iff, !Z.leb_le; done).
  assert (Hw : forall z, z mod 8 = 0 -> mem - 16 <= z -> z + 8 <= mem - 16 + s -> tbase <= z /\ z + 8 <= tbase + tsize) by (intros z Hz ??; apply Hmap, (so_covers _ _ S); [done|lia|lia]).
  pose proof (Hw (mem - 16) Hp8 ltac:(lia) ltac:(lia)). assert (Hlast : (mem - 16 + s - 8) mod 8 = 0) by (rewrite Zminus_mod, Z.add_mod, Hp8, H8 by lia; done). pose proof (Hw (mem - 16 + s - 8) Hlast ltac:(lia) ltac:(lia)).
  split; [lia|]. split; [lia|]. intros i Hi. pose proof (ok_hdr _ _ _ _ _ O) as Ha. pose proof (hdr_range m i Hi) as Hh. destruct (space_apart m L Ms Mt _ _ _ _ _ _ _ O Hin Ha) as [E|E]; [done|lia].
Qed.

(** In a space on memory of its own, whatever its clients have requested and given back:
    the blocks they hold are aligned, lie in the memory of the space, cover no header of its
    bins, and do not overlap; a request is answered with no failed check, by a block apart
    from all that are held, or by a request to the system when no free chunk and not the top
    chunk is as large as needed; and every block held can be given back. *)
Theorem mspace_safe tbase tsize magic_ flags trim m0 m U : 0 < tbase -> tbase mod 8 = 0 -> tsize mod 8 = 0 -> 1040 < tsize < 2 ^ 40 -> tbase + tsize < 2 ^ 64 -> in_u 64 magic_ ->
  init_user_mstate tbase tsize magic_ flags trim = Some m0 -> rtc space_step (m0, ∅) (m, U) ->
  (forall mem bytes, U !! mem = Some bytes -> mem mod 8 = 0 /\ tbase <= mem /\ mem + bytes <= tbase + tsize /\
    (forall i, (i < 32)%nat -> hdr m i < mem \/ mem + bytes <= hdr m i) /\ exists m' a, free_inside mem m = Some (m', FreeDone a)) /\
  (forall mem1 n1 mem2 n2, U !! mem1 = Some n1 -> U !! mem2 = Some n2 -> mem1 = mem2 \/ mem1 + n1 <= mem2 \/ mem2 + n2 <= mem1) /\
  (forall bytes, in_u 64 bytes -> exists m' r, malloc_inside bytes m = Some (m', r) /\
    match r with
    | Mem mem => mem mod 8 = 0 /\ U !! mem = None /\ forall mem' n, U !! mem' = Some n -> mem + bytes <= mem' \/ mem' + n <= mem
    | FromSystem nb => nb = needed bytes /\ m' = m /\ exists L Ms Mt, space_inv m L Ms Mt /\ nothing_fits m L nb
    end).
Proof.
  intros Hb Hb8 Hs8 Hs Hend Hmag Hinit R. destruct (new_space_ok tbase tsize magic_ flags trim Hb Hb8 Hs8 Hs Hend Hmag) as (m0' & E0 & HI0 & ER0 & _). rewrite E0 in Hinit. injection Hinit as ->.
  assert (H0 : holds m0 ∅) by (exists [first_lay tbase tsize], ∅, ∅; split; [done|]; split; [done|by intros p sz ?%elem_of_nil]).
  pose proof (run_holds m0 ∅ m U H0 R) as H. pose proof H as (L & Ms & Mt & HI & H1 & H2). pose proof HI as (O & _).
  assert (Hapart : forall m' U', holds m' U' -> forall mem1 n1 mem2 n2, U' !! mem1 = Some n1 -> U' !! mem2 = Some n2 -> mem1 = mem2 \/ mem1 + n1 <= mem2 \/ mem2 + n2 <= mem1).
  { clear. intros m' U' (L & Ms & Mt & (O & _) & H1 & _) mem1 n1 mem2 n2 Hm1 Hm2. destruct (H1 _ _ Hm1) as (_ & s1 & Hi1%of_kind_in & Hle1). destruct (H1 _ _ Hm2) as (_ & s2 & Hi2%of_kind_in & Hle2).
    unfold CHUNK_OVERHEAD in *. destruct (space_apart m' L Ms Mt _ _ _ _ _ _ _ O Hi1 Hi2) as [E|E]; unfold mem2chunk in E; [left; by injection E; lia|right; lia]. }
  pose proof (run_region _ _ _ _ R) as ER. rewrite ER0 in ER.
  split; [|split; [by apply (Hapart m U)|]].
  - intros mem bytes Hm. destruct (held_block m U mem bytes _ _ _ H ER Hm) as (B1 & B2 & B3 & B4). do 4 (split; [done|]). destruct (H1 _ _ Hm) as (_ & sz & Hin & _). destruct (free_chunk_ok m L Ms Mt _ _ HI Hin) as (m1 & a & _ & _ & _ & E & _). rewrite chunk_mem in E. eauto.
  - intros bytes Hu. destruct (malloc_inside_ok m L Ms Mt bytes HI Hu) as (m' & r & E & G). exists m', r. split; [done|]. destruct r as [mem|nb]; [|destruct G as (-> & -> & HF); eauto 10].
    pose proof (step_holds m U m' (<[mem := bytes]> U) H (StepMalloc _ _ _ _ _ Hu E)) as H'. assert (Hfresh : U !! mem = None).
    { destruct (U !! mem) as [n|] eqn:Em; [|done]. exfalso. destruct G as (p & -> & L' & Ms' & Mt' & sz & (O' & _) & HU & _). destruct (H1 _ _ Em) as (_ & sz' & Hin & _). rewrite mem_chunk in Hin.
      pose proof (used_nodup m' L' Ms' Mt' _ O') as Hd. rewrite HU in Hd. cbn in Hd. apply NoDup_cons in Hd as [Hn _]. apply Hn, list_elem_of_fmap. by exists (p, sz'). }
    split; [eapply (held_block m' _ mem bytes tbase tsize); [exact H'|rewrite (malloc_region _ _ _ _ E); exact ER|by rewrite lookup_insert_eq]|]. split; [done|]. intros mem' n Hm. assert (Hne : mem <> mem') by (intros ->; congruence).
    destruct (Hapart m' _ H' mem bytes mem' n) as [?|?]; [by rewrite lookup_insert_eq|by rewrite lookup_insert_ne|done|done].
Qed.

Module SpaceExample.
(** A space of 64 KiB; a small and a large block are requested, the small one is given back and
    its chunk is used again. *)
Definition fresh : option mspace := init_user_mstate 0x10000 0x10000 0x58585858 0 0x200000.
Definition ask (bytes : Z) (m : option mspace) : option mspace := m ← m; '(m, r) ← malloc_inside bytes m; match r with Mem _ => Some m | FromSystem _ => None end.
Definition give (mem : Z) (m : option mspace) : option mspace := m ← m; '(m, _) ← free_inside mem m; Some m.
Definition no_space : mspace := MSpace 0 (MState 0 0 0 [] ∅) 0 0 0 0 0 0 0 0 0 0 0 [] [] [].
Definition m0 : mspace := default no_space fresh.
Definition m1 : mspace := default no_space (ask 100 fresh).
Definition m2 : mspace := default no_space (ask 3000 (ask 100 fresh)).
Definition m3 : mspace := default no_space (give 0x103D0 (ask 3000 (ask 100 fresh))).
Definition m4 : mspace := default no_space (ask 90 (give 0x103D0 (ask 3000 (ask 100 fresh)))).
End SpaceExample.

Lemma mspace_safe_witness : let U := <[0x103D0 := 90]> (delete 0x103D0 (<[0x10448 := 3000]> {[0x103D0 := 100]})) in
  init_user_mstate 0x10000 0x10000 0x58585858 0 0x200000 = Some SpaceExample.m0 /\ rtc space_step (SpaceExample.m0, ∅) (SpaceExample.m4, U) /\
  forall bytes, in_u 64 bytes -> exists m' r, malloc_inside bytes SpaceExample.m4 = Some (m', r).
Proof.
  intros U. assert (E0 : init_user_mstate 0x10000 0x10000 0x58585858 0 0x200000 = Some SpaceExample.m0) by (vm_compute; reflexivity).
  assert (R : rtc space_step (SpaceExample.m0, ∅) (SpaceExample.m4, U)).
  { eapply rtc_l; [apply (StepMalloc _ _ 100 SpaceExample.m1 0x103D0); [split; vm_compute; congruence|vm_compute; reflexivity]|].
    eapply rtc_l; [apply (StepMalloc _ _ 3000 SpaceExample.m2 0x10448); [split; vm_compute; congruence|vm_compute; reflexivity]|].
    eapply rtc_l; [apply (StepFree _ _ 0x103D0 100 SpaceExample.m3 Nothing); [vm_compute; reflexivity|vm_compute; reflexivity]|].
    eapply rtc_l; [apply (StepMalloc _ _ 90 SpaceExample.m4 0x103D0); [split; vm_compute; congruence|vm_compute; reflexivity]|]. apply rtc_refl. }
  split; [exact E0|]. split; [exact R|]. intros bytes Hb.
  destruct (mspace_safe 0x10000 0x10000 0x58585858 0 0x200000 SpaceExample.m0 SpaceExample.m4 U) as (_ & _ & H);
    [lia|reflexivity|reflexivity|lia|lia|split; vm_compute; congruence|exact E0|exact R|].
  destruct (H bytes Hb) as (m' & r & E & _). eauto.
Defined.

(** A region whose size is no multiple of eight, which [create_mspace_with_base] accepts: the
    size of the top chunk has the bit of a chunk in use, so a chunk freed next to it is not
    merged with it. *)
Lemma odd_capacity_top_in_use : exists m m1 m2 p, init_user_mstate 0x10000 0x10002 0x58585858 0 0x200000 = Some m /\ cinuse (heads_of_space m (top m)) = true /\
  malloc_inside 100 m = Some (m1, Mem p) /\ (exists a, free_inside p m1 = Some (m2, FreeDone a)) /\ top m2 <> top m /\ smallmap m2 <> 0.
Proof.
  set (s := init_user_mstate 0x10000 0x10002 0x58585858 0 0x200000).
  exists (default SpaceExample.no_space s), (default SpaceExample.no_space (SpaceExample.ask 100 s)), (default SpaceExample.no_space (SpaceExample.give 0x103D0 (SpaceExample.ask 100 s))), 0x103D0.
  split; [vm_compute; reflexivity|]. split; [vm_compute; reflexivity|]. split; [vm_compute; reflexivity|]. split; [exists Nothing; vm_compute; reflexivity|]. split; vm_compute; congruence.
Qed.
