(* ===== verification/DlSystem.v ===== *)
(** Memory spaces and the system, include/memory/malloc.c.h: memory for a request that the
    space cannot satisfy ([sys_alloc]), memory given back ([sys_trim],
    [release_unused_segments]) and the whole of [mspace_malloc] and [mspace_free].

    The engine builds the spaces with [ONLY_MSPACES], so there is no [MORECORE]: all
    memory comes from [mmap]. What the system answers is an argument of the operation: the
    address of new memory, or whether memory was taken back. *)
From stdpp Require Import gmap.
From S2P Require Import Prelude DlBins DlTree DlUnlink DlFit DlSmall DlSpace.
Local Open Scope Z_scope.

(** ** Parameters and fields *)
Record malloc_params := Params { page_size : Z; granularity : Z; mmap_threshold : Z; trim_threshold : Z }.
Definition MMAP_FOOT_PAD : Z := 32.
Definition SIX_SIZE_T_SIZES : Z := 48.
Definition SYS_ALLOC_PADDING : Z := TOP_FOOT_SIZE + 8.
Definition align_up (unit S : Z) : Z := Z.land (u64 (S + (unit - 1))) (u64 (Z.lnot (unit - 1))).
Definition mmap_align (P : malloc_params) (S : Z) : Z := align_up (page_size P) S.
Definition granularity_align (P : malloc_params) (S : Z) : Z := align_up (granularity P) S.
Definition use_mmap (m : mspace) : bool := negb (Z.land (mflags m) USE_MMAP_BIT =? 0).

Definition with_segs (l : list segment) (m : mspace) : mspace :=
  MSpace (ms_at m) (core m) (smallmap m) (dvsize m) (topsize m) (dv m) (top m) (trim_check m) (release_checks m) (magic m) (footprint m) (max_footprint m) (mflags m) l (maps m) (direct m).
Definition with_regions (l d : list (Z * Z)) (m : mspace) : mspace :=
  MSpace (ms_at m) (core m) (smallmap m) (dvsize m) (topsize m) (dv m) (top m) (trim_check m) (release_checks m) (magic m) (footprint m) (max_footprint m) (mflags m) (segs m) l d.
Definition with_footprint (f x : Z) (m : mspace) : mspace :=
  MSpace (ms_at m) (core m) (smallmap m) (dvsize m) (topsize m) (dv m) (top m) (trim_check m) (release_checks m) (magic m) f x (mflags m) (segs m) (maps m) (direct m).
Definition with_trim_check (v : Z) (m : mspace) : mspace :=
  MSpace (ms_at m) (core m) (smallmap m) (dvsize m) (topsize m) (dv m) (top m) v (release_checks m) (magic m) (footprint m) (max_footprint m) (mflags m) (segs m) (maps m) (direct m).
Definition with_least (a : Z) (m : mspace) : mspace :=
  with_core (MState a (treebins_at (core m)) (treemap (core m)) (treebins (core m)) (chunks (core m))) m.
Definition lower_least (a : Z) (m : mspace) : mspace := if a <? least_addr (core m) then with_least a m else m.
(** [footprint += n], and its maximum. *)
Definition grow_footprint (n : Z) (m : mspace) : mspace :=
  let f := u64 (footprint m + n) in with_footprint f (if max_footprint m <? f then f else max_footprint m) m.
Definition shrink_footprint (n : Z) (m : mspace) : mspace := with_footprint (u64 (footprint m - n)) (max_footprint m) m.

Definition segment_holding (m : mspace) (a : Z) : option segment := list_find (fun s => segment_holds s a) (segs m) ≫= fun '(_, s) => Some s.
Definition has_segment_link (m : mspace) (s : segment) : bool := existsb (fun r => segment_holds s (seg_at r)) (segs m).

(** The regions without the words from [lo] to [hi], and the space after [munmap] of them. *)
Definition unmap1 (lo hi : Z) (r : Z * Z) : list (Z * Z) :=
  (if r.1 <? Z.min r.2 lo then [(r.1, Z.min r.2 lo)] else []) ++ (if Z.max r.1 hi <? r.2 then [(Z.max r.1 hi, r.2)] else []).
Definition unmap (lo hi : Z) (l : list (Z * Z)) : list (Z * Z) := l ≫= unmap1 lo hi.
Definition outside (lo hi : Z) (e : Z * tchunk) : Prop := e.1 < lo \/ hi <= e.1.
#[global] Instance outside_dec lo hi e : Decision (outside lo hi e).
Proof. unfold outside. apply _. Defined.
Definition munmap (lo hi : Z) (m : mspace) : mspace :=
  with_core (with_chunks (filter (outside lo hi) (chunks (core m))) (core m)) (with_regions (unmap lo hi (maps m)) (unmap lo hi (direct m)) m).

(** ** Chunks with memory of their own *)
(** [CALL_DIRECT_MMAP] is asked for [mmsize] bytes. *)
Definition mmap_size (P : malloc_params) (nb : Z) : Z := mmap_align P (nb + SIX_SIZE_T_SIZES + CHUNK_ALIGN_MASK).
Definition mmap_alloc (P : malloc_params) (nb : Z) (answer : option Z) (m : mspace) : option (mspace * Z) :=
  let mmsize := mmap_size P nb in
  if nb <? mmsize then
    match answer with
    | Some mm =>
        let m := with_regions (maps m) ((mm, mm + mmsize) :: direct m) m in
        let offset := align_offset (chunk2mem mm) in
        let psize := mmsize - offset - MMAP_FOOT_PAD in
        let p := mm + offset in
        m ← put_foot p offset m;
        m ← put_head p (fun _ => psize) m;
        m ← mark_inuse_foot p psize m;
        m ← put_head (p + psize) (fun _ => FENCEPOST_HEAD) m;
        m ← put_head (p + psize + 8) (fun _ => 0) m;
        let m := if (least_addr (core m) =? 0) || (mm <? least_addr (core m)) then with_least mm m else m in
        Some (grow_footprint mmsize m, chunk2mem p)
    | None => Some (m, 0)
    end
  else Some (m, 0).

(** ** Segments *)
(** [prepend_alloc]: a chunk in front of a segment, the rest goes to its first chunk. *)
Definition prepend_alloc (newbase oldbase nb : Z) (m : mspace) : option (mspace * Z) :=
  let p := newbase + align_offset (chunk2mem newbase) in
  let oldfirst := oldbase + align_offset (chunk2mem oldbase) in
  let psize := oldfirst - p in
  let q := p + nb in
  let qsize := psize - nb in
  m ← set_size_and_pinuse_of_inuse_chunk p nb m;
  guard_ (q <? oldfirst) (
  c ← read m oldfirst;
  guard_ (pinuse c) (
  guard_ (MIN_CHUNK_SIZE <=? qsize) (
  m ← (if oldfirst =? top m then
         let tsize := topsize m + qsize in
         put_head q (fun _ => Z.lor tsize PINUSE_BIT) (with_top q tsize m)
       else if oldfirst =? dv m then
         let dsize := dvsize m + qsize in
         set_size_and_pinuse_of_free_chunk q dsize (with_dv q dsize m)
       else if negb (is_inuse c) then
         let nsize := chunksize c in
         m ← unlink_chunk oldfirst nsize m;
         m ← set_free_with_pinuse q (qsize + nsize) (oldfirst + nsize) m;
         insert_chunk q (qsize + nsize) m
       else
         m ← set_free_with_pinuse q qsize oldfirst m;
         insert_chunk q qsize m);
  Some (m, chunk2mem p)))).

(** The fences from [p] to the end of the segment; [n] counts them. *)
Fixpoint fences (fuel : nat) (p old_end n : Z) (m : mspace) : option (mspace * Z) :=
  match fuel with
  | O => None
  | S fuel =>
      let nextp := p + 8 in
      m ← put_head p (fun _ => FENCEPOST_HEAD) m;
      if nextp + 8 <? old_end then fences fuel nextp old_end (n + 1) m else Some (m, n + 1)
  end.
(** There are less than nine fences. *)
Definition FENCE_FUEL : nat := 9.
Definition sizeof_malloc_segment : Z := 32.

Definition add_segment (P : malloc_params) (tbase tsize mmapped : Z) (m : mspace) : option mspace :=
  let old_top := top m in
  oldsp ← segment_holding m old_top;
  let old_end := seg_base oldsp + seg_size oldsp in
  let ssize := pad_request sizeof_malloc_segment in
  let rawsp := old_end - (ssize + 32 + CHUNK_ALIGN_MASK) in
  let offset := align_offset (chunk2mem rawsp) in
  let asp := rawsp + offset in
  let csp := if asp <? old_top + MIN_CHUNK_SIZE then old_top else asp in
  let sp := csp in
  let ss := chunk2mem sp in
  let tnext := sp + ssize in
  m ← init_top tbase (tsize - TOP_FOOT_SIZE) (trim_threshold P) m;
  guard_ (Z.land ss CHUNK_ALIGN_MASK =? 0) (
  m ← set_size_and_pinuse_of_inuse_chunk sp ssize m;
  match segs m with
  | s :: rest =>
      let m := with_segs (Segment (seg_at s) tbase tsize mmapped :: Segment ss (seg_base s) (seg_size s) (seg_flags s) :: rest) m in
      '(m, nfences) ← fences FENCE_FUEL tnext old_end 0 m;
      guard_ (2 <=? nfences) (
      if negb (csp =? old_top) then
        let q := old_top in
        let psize := csp - old_top in
        m ← set_free_with_pinuse q psize (q + psize) m;
        insert_chunk q psize m
      else Some m)
  | [] => None
  end).

(** ** [sys_alloc] *)
(** The record of a segment that [f] picks, and the list with it replaced by [g]. *)
Fixpoint pick_segment (f : segment -> bool) (l : list segment) : option segment :=
  match l with [] => None | s :: l => if f s then Some s else pick_segment f l end.
Fixpoint edit_segment (f : segment -> bool) (g : segment -> segment) (l : list segment) : list segment :=
  match l with [] => [] | s :: l => if f s then g s :: l else s :: edit_segment f g l end.

(** A chunk of [nb] bytes from the top chunk that has grown. *)
Definition take_from_top (nb : Z) (m : mspace) : option (mspace * Z) :=
  if nb <? topsize m then
    '(m, r) ← malloc_from_top nb m;
    match r with Mem mem => Some (m, mem) | FromSystem _ => Some (m, 0) end
  else Some (m, 0).
(** New memory [tbase] of [tsize] bytes that does not extend the top chunk: to the front of
    a segment, which gives the chunk, or a segment of its own. *)
Definition use_apart (P : malloc_params) (nb tbase tsize : Z) (m : mspace) : option (mspace * Z) :=
  let m := lower_least tbase m in
  let in_front s := seg_base s =? tbase + tsize in
  match pick_segment in_front (segs m) with
  | Some s =>
      if negb (is_extern_segment s) && (Z.land (seg_flags s) USE_MMAP_BIT =? USE_MMAP_BIT) then
        let m := with_segs (edit_segment in_front (fun s => Segment (seg_at s) tbase (seg_size s + tsize) (seg_flags s)) (segs m)) m in
        prepend_alloc tbase (tbase + tsize) nb m
      else m ← add_segment P tbase tsize USE_MMAP_BIT m; take_from_top nb m
  | None => m ← add_segment P tbase tsize USE_MMAP_BIT m; take_from_top nb m
  end.
(** New memory, at the end of the segment of the top chunk when it is there. *)
Definition use_new_memory (P : malloc_params) (nb tbase tsize : Z) (m : mspace) : option (mspace * Z) :=
  let m := with_regions ((tbase, tbase + tsize) :: maps m) (direct m) m in
  let m := grow_footprint tsize m in
  let at_end s := tbase =? seg_base s + seg_size s in
  let append s := negb (is_extern_segment s) && (Z.land (seg_flags s) USE_MMAP_BIT =? USE_MMAP_BIT) && segment_holds s (top m) in
  if match pick_segment at_end (segs m) with Some s => append s | None => false end then
    let m := with_segs (edit_segment at_end (fun s => Segment (seg_at s) (seg_base s) (seg_size s + tsize) (seg_flags s)) (segs m)) m in
    m ← init_top (top m) (topsize m + tsize) (trim_threshold P) m;
    take_from_top nb m
  else use_apart P nb tbase tsize m.

(** [CALL_MMAP] is asked for [rsize] bytes. *)
Definition sys_size (P : malloc_params) (nb : Z) : Z := granularity_align P (nb + SYS_ALLOC_PADDING).
Definition sys_alloc (P : malloc_params) (nb : Z) (dm mp : option Z) (m : mspace) : option (mspace * Z) :=
  '(m, mem) ← (if use_mmap m && (mmap_threshold P <=? nb) && negb (topsize m =? 0) then mmap_alloc P nb dm m else Some (m, 0));
  if negb (mem =? 0) then Some (m, mem)
  else
    let rsize := sys_size P nb in
    if nb <? rsize then
      match mp with
      | Some tbase => use_new_memory P nb tbase rsize m
      | None => Some (m, 0)
      end
    else Some (m, 0).

(** [mspace_malloc]; zero is the null pointer. *)
Definition mspace_malloc (P : malloc_params) (bytes : Z) (dm mp : option Z) (m : mspace) : option (mspace * Z) :=
  '(m, r) ← malloc_inside bytes m;
  match r with Mem mem => Some (m, mem) | FromSystem nb => sys_alloc P nb dm mp m end.

(** [mspace_calloc]: the bytes to clear, when there are any; memory that was mapped for the chunk
    is clear. *)
Definition calloc_size (n_elements elem_size : Z) : Z :=
  if n_elements =? 0 then 0
  else
    let req := u64 (n_elements * elem_size) in
    if negb (Z.land (Z.lor n_elements elem_size) (u64 (Z.lnot 0xffff)) =? 0) && negb (req / n_elements =? elem_size) then MAX_SIZE_T else req.
Definition mspace_calloc (P : malloc_params) (n_elements elem_size : Z) (dm mp : option Z) (m : mspace) : option (mspace * Z * Z) :=
  let req := calloc_size n_elements elem_size in
  '(m, mem) ← mspace_malloc P req dm mp m;
  if mem =? 0 then Some (m, mem, 0)
  else c ← read m (mem2chunk mem); Some (m, mem, if is_mmapped c then 0 else req).

(** ** Memory given back *)
(** [U base size] says whether the system takes the memory from [base] of [size] bytes. *)
(** The segments [rest] are looked at, [kept] are those before. *)
Fixpoint release_segments (U : Z -> Z -> bool) (kept rest : list segment) (released nsegs : Z) (m : mspace) : option (mspace * Z * Z) :=
  match rest with
  | [] => Some (m, released, nsegs)
  | sp :: next =>
      let base := seg_base sp in
      let size := seg_size sp in
      let nsegs := nsegs + 1 in
      if is_mmapped_segment sp && negb (is_extern_segment sp) then
        let p := base + align_offset (chunk2mem base) in
        c ← read m p;
        let psize := chunksize c in
        if negb (is_inuse c) && (base + size - TOP_FOOT_SIZE <=? p + psize) then
          guard_ (segment_holds sp (seg_at sp)) (
          m ← (if p =? dv m then Some (with_dv 0 0 m) else on_core (unlink_large_chunk p) m);
          if U base size then
            release_segments U kept next (released + size) nsegs (with_segs (kept ++ next) (shrink_footprint size (munmap base (base + size) m)))
          else
            m ← on_core (insert_large_chunk p psize) m;
            release_segments U (kept ++ [sp]) next released nsegs m)
        else release_segments U (kept ++ [sp]) next released nsegs m
      else release_segments U (kept ++ [sp]) next released nsegs m
  end.
Definition release_unused_segments (U : Z -> Z -> bool) (m : mspace) : option (mspace * Z) :=
  match segs m with
  | s :: rest =>
      '(m, released, nsegs) ← release_segments U [s] rest 0 0 m;
      Some (with_release_checks (if MAX_RELEASE_CHECK_RATE <? nsegs then nsegs else MAX_RELEASE_CHECK_RATE) m, released)
  | [] => None
  end.

(** The bytes at the end of the top chunk to give back: all units of the granularity but
    one, with [pad] bytes kept. *)
Definition trim_extra (P : malloc_params) (pad : Z) (m : mspace) : Z :=
  let unit := granularity P in ((topsize m - pad + (unit - 1)) / unit - 1) * unit.
Definition trim_top (P : malloc_params) (U : Z -> Z -> bool) (pad : Z) (m : mspace) : option (mspace * Z) :=
  if pad <? topsize m then
    let extra := trim_extra P pad m in
    sp ← segment_holding m (top m);
    let newsize := seg_size sp - extra in
    let released :=
      if negb (is_extern_segment sp) && is_mmapped_segment sp && (extra <=? seg_size sp) && negb (has_segment_link m sp) && U (seg_base sp + newsize) extra
      then extra else 0 in
    if negb (released =? 0) then
      let m := munmap (seg_base sp + newsize) (seg_base sp + seg_size sp) m in
      let m := with_segs (edit_segment (fun s => segment_holds s (top m)) (fun s => Segment (seg_at s) (seg_base s) (seg_size s - released) (seg_flags s)) (segs m)) m in
      let m := shrink_footprint released m in
      m ← init_top (top m) (topsize m - released) (trim_threshold P) m;
      Some (m, released)
    else Some (m, 0)
  else Some (m, 0).
Definition sys_trim (P : malloc_params) (U : Z -> Z -> bool) (pad : Z) (m : mspace) : option (mspace * bool) :=
  if (pad <? MAX_REQUEST) && negb (top m =? 0) then
    '(m, r1) ← trim_top P U (pad + TOP_FOOT_SIZE) m;
    '(m, r2) ← release_unused_segments U m;
    let released := r1 + r2 in
    Some (if (released =? 0) && (trim_check m <? topsize m) then with_trim_check MAX_SIZE_T m else m, negb (released =? 0))
  else Some (m, false).

(** [mspace_free]. *)
Definition mspace_free (P : malloc_params) (U : Z -> Z -> bool) (mem : Z) (m : mspace) : option mspace :=
  if mem =? 0 then Some m
  else
    '(m, r) ← free_inside mem m;
    match r with
    | FreeMapped base size => Some (if U base size then shrink_footprint size (munmap base (base + size) m) else m)
    | FreeDone Nothing => Some m
    | FreeDone TrimTop => '(m, _) ← sys_trim P U 0 m; Some m
    | FreeDone ReleaseSegments => '(m, _) ← release_unused_segments U m; Some m
    end.

(** ** Spaces created and destroyed *)
Definition with_seg_flags (f : Z) (m : mspace) : mspace :=
  with_segs (match segs m with s :: rest => Segment (seg_at s) (seg_base s) (seg_size s) f :: rest | [] => [] end) m.
Definition with_mflags (f : Z) (m : mspace) : mspace :=
  MSpace (ms_at m) (core m) (smallmap m) (dvsize m) (topsize m) (dv m) (top m) (trim_check m) (release_checks m) (magic m) (footprint m) (max_footprint m) f (segs m) (maps m) (direct m).
Definition set_lock (locked : bool) (m : mspace) : mspace :=
  with_mflags (if locked then Z.lor (mflags m) USE_LOCK_BIT else Z.land (mflags m) (u32 (Z.lnot USE_LOCK_BIT))) m.
Definition capacity_limit (P : malloc_params) : Z := u64 (- (pad_request sizeof_malloc_state + TOP_FOOT_SIZE + page_size P)).
(** [CALL_MMAP] is asked for [tsize] bytes; [None] inside the result is the null pointer. *)
Definition create_size (P : malloc_params) (capacity : Z) : Z :=
  granularity_align P (if capacity =? 0 then granularity P else capacity + TOP_FOOT_SIZE + pad_request sizeof_malloc_state).
Definition create_mspace (P : malloc_params) (capacity magic_ flags : Z) (locked : bool) (mp : option Z) : option (option mspace) :=
  if capacity <? capacity_limit P then
    match mp with
    | Some tbase => m ← init_user_mstate tbase (create_size P capacity) magic_ flags (trim_threshold P); Some (Some (set_lock locked (with_seg_flags USE_MMAP_BIT m)))
    | None => Some None
    end
  else Some None.
Definition create_mspace_with_base (P : malloc_params) (base capacity magic_ flags : Z) (locked : bool) : option (option mspace) :=
  if (pad_request sizeof_malloc_state + TOP_FOOT_SIZE <? capacity) && (capacity <? capacity_limit P) then
    m ← init_user_mstate base capacity magic_ flags (trim_threshold P); Some (Some (set_lock locked (with_seg_flags EXTERN_BIT m)))
  else Some None.

(** [destroy_mspace] gives back the segments that came from the system: the bytes taken, and
    the regions. *)
Definition destroy_mspace (U : Z -> Z -> bool) (m : mspace) : Z * list (Z * Z) :=
  foldl (fun '(freed, gone) s =>
    if is_mmapped_segment s && negb (is_extern_segment s) && U (seg_base s) (seg_size s) then (u64 (freed + seg_size s), gone ++ [(seg_base s, seg_base s + seg_size s)]) else (freed, gone)) (0, []) (segs m).

(** [mspace_track_large_chunks]: zero or one, and the flag that stops direct maps. *)
Definition mspace_track_large_chunks (enable : bool) (m : mspace) : mspace * Z :=
  let ret := if use_mmap m then 0 else 1 in
  let f := if enable then Z.land (mflags m) (u32 (Z.lnot USE_MMAP_BIT)) else Z.lor (mflags m) USE_MMAP_BIT in
  (with_mflags f m, ret).
