(* ===== verification/DlGrow.v ===== *)
(** Memory that a space gets from the system: the segments and the chunks with memory of
    their own, with the invariant of the space. *)
From stdpp Require Import gmap.
From S2P Require Import Prelude DlBins DlTree DlUnlink DlFit DlSmall DlSpace DlLayout DlInv DlBlocks DlMalloc DlFree DlRun DlSystem.
Local Open Scope Z_scope.

(** ** Sizes *)
(** The parameters that [init_mparams] accepts: powers of two, of a page at least. *)
Definition params_ok (P : malloc_params) : Prop :=
  exists j k, 12 <= j < 40 /\ 12 <= k < 40 /\ page_size P = 2 ^ j /\ granularity P = 2 ^ k.

Lemma align_up_spec k n : 0 <= k < 63 -> 0 <= n -> n + 2 ^ k <= 2 ^ 64 -> align_up (2 ^ k) n mod 2 ^ k = 0 /\ n <= align_up (2 ^ k) n < n + 2 ^ k.
Proof.
  intros Hk Hn Hle. assert (H0 : 0 < 2 ^ k) by lia. unfold align_up. rewrite (uwrap_id 64 (n + _)) by (unfold in_u; lia). set (x := n + (2 ^ k - 1)).
  replace (Z.land x (u64 (Z.lnot (2 ^ k - 1)))) with (x / 2 ^ k * 2 ^ k).
  - split; [by apply Z.mod_mul; lia|]. pose proof (Z.div_mod x (2 ^ k) ltac:(lia)). pose proof (Z.mod_pos_bound x (2 ^ k) H0). unfold x in *. lia.
  - unfold uwrap. rewrite <- Z.land_ones, (Z.land_comm (Z.lnot _)), Z.land_assoc, (Z.land_ones x), (Z.mod_small x) by (unfold x; lia). replace (2 ^ k - 1) with (Z.ones k) by (rewrite Z.ones_equiv; lia). rewrite <- Z.ldiff_land, Z.ldiff_ones_r by lia.
    by rewrite Z.shiftl_mul_pow2, Z.shiftr_div_pow2 by lia.
Qed.

(** A size that wraps around is smaller than what was asked for. *)
Lemma align_up_wrap k nb d : 0 <= k < 63 -> 0 <= d < 2 ^ 63 -> 0 <= nb < 2 ^ 64 -> 2 ^ 64 < nb + d + 2 ^ k -> align_up (2 ^ k) (nb + d) <= nb.
Proof.
  intros Hk Hd Hnb Hw. assert (H0 : 2 ^ k <= 2 ^ 62) by (apply Z.pow_le_mono_r; lia). assert (H1 : 0 < 2 ^ k) by lia. unfold align_up. set (x := u64 (nb + d + (2 ^ k - 1))).
  assert (Hx : 0 <= x <= nb). { unfold x, uwrap. rewrite <- (Z.mod_add _ (-1) (2 ^ 64)), Z.mod_small by lia. lia. }
  assert (Hle : Z.land x (u64 (Z.lnot (2 ^ k - 1))) <= x); [|lia]. apply Z.ldiff_le; [lia|]. rewrite Z.ldiff_land. apply Z.bits_inj'. intros i Hi. rewrite !Z.land_spec, Z.lnot_spec, Z.bits_0 by lia. by destruct (Z.testbit x i), (Z.testbit _ i).
Qed.

(** A size that wraps around is rounded to nothing. *)
Lemma align_up_zero k n : 0 <= k < 63 -> 0 <= n < 2 ^ 64 -> 2 ^ 64 < n + 2 ^ k -> align_up (2 ^ k) n = 0.
Proof.
  intros Hk Hn Hw. assert (H0 : 2 ^ k <= 2 ^ 62) by (apply Z.pow_le_mono_r; lia). unfold align_up. set (x := u64 (n + (2 ^ k - 1))). assert (Hx : 0 <= x < 2 ^ k) by (unfold x, uwrap; rewrite <- (Z.mod_add _ (-1) (2 ^ 64)), Z.mod_small by lia; lia).
  unfold uwrap at 1. rewrite <- Z.land_ones, (Z.land_comm (Z.lnot _)), Z.land_assoc, (Z.land_ones x), (Z.mod_small x) by lia. replace (2 ^ k - 1) with (Z.ones k) by (rewrite Z.ones_equiv; lia). rewrite <- Z.ldiff_land, Z.ldiff_ones_r, Z.shiftl_mul_pow2, Z.shiftr_div_pow2, Z.div_small by lia. done.
Qed.

(** ** What stores to heads and feet leave as it was *)
Definition bins_part (m : mspace) :=
  (smallmap m, ms_at m, magic m, (treemap (core m), treebins (core m), treebins_at (core m), least_addr (core m)), (dv m, dvsize m), (maps m, direct m)).
Record stores (m m' : mspace) : Prop := {
  st_part : bins_part m' = bins_part m;
  st_link : forall b, link_part (heads_of_space m' b) = link_part (heads_of_space m b);
  st_dom : forall b, is_Some (read m b) -> is_Some (read m' b) }.

Lemma stores_refl m : stores m m.
Proof. done. Qed.
Lemma stores_trans m m1 m2 : stores m m1 -> stores m1 m2 -> stores m m2.
Proof. intros [A1 B1 C1] [A2 B2 C2]. split; [congruence|intros b; by rewrite B2|auto]. Qed.
Lemma stores_tagged m0 m g : tagged m0 m g -> stores m0 m.
Proof. intros T. split; [by rewrite (tg_rest _ _ _ T)|intros b; rewrite (tg_view _ _ _ T); apply T|apply T]. Qed.
Lemma stores_segs l m : stores m (with_segs l m).
Proof. done. Qed.
Lemma stores_footer m m' : stores m m' -> footer m' = footer m.
Proof. intros [E _ _]. unfold footer. by injection E as _ -> -> _. Qed.
Lemma stores_mapped m m' x : stores m m' -> mapped m' x = mapped m x.
Proof. intros [E _ _]. unfold mapped. by injection E as _ _ _ _ _ _ _ _ _ -> ->. Qed.
#[export] Hint Resolve stores_refl stores_tagged stores_segs stores_trans : dlspace.

Definition top_part (m : mspace) := (top m, topsize m).
Lemma tagged_top m0 m g : tagged m0 m g -> top_part m = top_part m0 /\ segs m = segs m0.
Proof. intros T. by rewrite (tg_rest _ _ _ T). Qed.

(** [init_top], at an aligned address. *)
Lemma init_top_run p ps thr m : p mod 8 = 0 -> ps mod 8 = 0 -> 0 < ps -> mapped m (p + 8) = true -> mapped m (p + ps + 8) = true ->
  exists m', init_top p ps thr m = Some m' /\ stores m m' /\ top_part m' = (p, ps) /\ segs m' = segs m /\ is_Some (read m' p) /\ tags (heads_of_space m' p) = (tc_prev_foot (heads_of_space m p), ps + 1) /\
    same_tags (heads_of_space m) (heads_of_space m') (fun z => z <> p /\ z <> p + ps) /\ foot_ok m'.
Proof.
  intros Hp Hs8 Hs M1 M2. unfold init_top. rewrite (aligned_offset p Hp), Z.add_0_r, Z.sub_0_r.
  destruct (put_head_step (with_top p ps m) (with_top p ps m) _ p (fun _ => Z.lor ps PINUSE_BIT) (tagged_self _) M1) as (m1 & -> & T1 & D1 & R1). cbn [mbind option_bind].
  destruct (put_head_step (with_top p ps m) m1 _ (p + ps) (fun _ => TOP_FOOT_SIZE) T1 M2) as (m2 & -> & T2 & D2 & R2). cbn [mbind option_bind]. eexists. split; [done|].
  destruct (tagged_top _ _ _ T2) as [Et Es]. pose proof (stores_tagged _ _ _ T2) as [S1 S2 S3]. split; [by split|]. split; [done|]. split; [done|]. split; [by apply R2|]. split; [|split].
  - change (tags (heads_of_space m2 p) = (tc_prev_foot (heads_of_space m p), ps + 1)). rewrite (tg_view _ _ _ T2), fupd_tag by lia. rewrite fupd_eq. unfold tags. cbn. by rewrite free_head.
  - intros z [Hz1 Hz2]. change (tags (heads_of_space m2 z) = tags (heads_of_space m z)). rewrite (tg_view _ _ _ T2). by rewrite !fupd_ne.
  - injection Et as Et1 Et2. unfold foot_ok. cbn [top topsize]. rewrite Et1, Et2. cbn [top topsize with_top]. split; [|exact D2]. change (pinuse (heads_of_space m2 (p + ps)) = false). unfold pinuse. by rewrite (tg_view _ _ _ T2), fupd_eq.
Qed.

(** ** New memory *)
(** The system gives memory that the space has not got yet. *)
Definition fresh_memory (m : mspace) (a n : Z) : Prop := 0 < a /\ a mod 8 = 0 /\ a + n <= 2 ^ 64 /\ forall r, r ∈ maps m ++ direct m -> regions_apart r (a, a + n).

Lemma mapped_region m x : mapped m x = true <-> exists r, r ∈ maps m ++ direct m /\ r.1 <= x /\ x + 8 <= r.2.
Proof.
  unfold mapped. rewrite existsb_exists. split; intros (r & Hr & H); exists r.
  - apply list_elem_of_In in Hr. split; [done|]. apply andb_true_iff in H as [H1%Z.leb_le H2%Z.leb_le]. done.
  - apply list_elem_of_In in Hr. split; [done|]. apply andb_true_iff. destruct H; split; by apply Z.leb_le.
Qed.

Lemma fresh_seg m L Ms Mt D a n sg : space_ok m L Ms Mt D -> fresh_memory m a n -> 0 < n -> n mod 8 = 0 -> sg ∈ L -> regions_apart (a, a + n) (sl_region sg).
Proof.
  intros O (Ha & Ha8 & _ & Hf) Hn Hn8 Hsg. pose proof (proj1 (Forall_forall _ _) (ok_segs _ _ _ _ _ O) sg Hsg) as S. destruct (so_start _ _ S) as (Hs8 & _). pose proof (so_limit _ _ S). pose proof (so_limit8 _ _ S) as Hl8.
  destruct (lay_end _ _ _ _ _ _ _ (so_lay _ _ S)) as (Ee & H0 & _). unfold regions_apart, sl_region. cbn [fst snd]. destruct (Z.le_gt_cases (a + n) (sl_start sg)) as [?|H1]; [by left|]. destruct (Z.le_gt_cases (sl_limit sg) a) as [?|H2]; [by right|].
  exfalso. assert (Hx : exists x, x mod 8 = 0 /\ a <= x /\ sl_start sg <= x /\ x + 8 <= a + n /\ x + 8 <= sl_limit sg).
  { destruct (Z.le_ge_cases a (sl_start sg)); [exists (sl_start sg)|exists a]; split_and!; try done; try lia; Z.div_mod_to_equations; lia. }
  destruct Hx as (x & Hx8 & Hx1 & Hx2 & Hx3 & Hx4). assert (Hx : mapped m x = true) by (apply (so_covers _ _ S); lia).
  apply mapped_region in Hx as (r & Hr & Hr1 & Hr2). destruct (Hf r Hr) as [H3|H3]; cbn in H3; lia.
Qed.

(** A space with more memory, and a lower least address. *)
Lemma space_more m m' L Ms Mt D : space_ok m L Ms Mt D -> (smallmap m', ms_at m', magic m', top_part m', segs m', direct m') = (smallmap m, ms_at m, magic m, top_part m, segs m, direct m) ->
  core m' = MState (least_addr (core m')) (treebins_at (core m)) (treemap (core m)) (treebins (core m)) (chunks (core m)) -> 0 < least_addr (core m') <= least_addr (core m) ->
  (forall x, mapped m x = true -> mapped m' x = true) -> space_ok m' L Ms Mt D.
Proof.
  intros O [= E1 E2 E3 E4 E5 E6 E7] Ec El HM. assert (Er : forall b, read m' b = read m b) by (intros b; unfold read; by rewrite Ec). assert (Eh : forall b, heads_of_space m' b = heads_of_space m b) by (intros b; unfold heads_of_space; by rewrite Ec).
  assert (Ef : footer m' = footer m) by (unfold footer; by rewrite E2, E3). apply (rebuild m m' L L Ms Mt D D O); try done; try (by rewrite Ec).
  - intros a k s b _ _. by rewrite Eh, Er.
  - eapply Forall_impl; [apply O|]. intros sg S. apply (seg_keep m m' sg S); try done; [auto|lia|intros b _; by rewrite Er|intros x _; by rewrite Eh].
  - intros i j s1 s2. apply O.
  - apply O.
  - rewrite E6. apply O.
  - rewrite E6. apply O.
  - rewrite E7. eapply Forall_impl; [apply O|]. intros r Hr. apply (direct_same m m' r Hr); try done; [lia|intros b _; by rewrite Er|intros x _; by rewrite Eh].
  - rewrite E7. apply O.
  - rewrite E7. apply O.
  - apply O.
  - apply O.
Qed.

(** ** The end of the top segment *)
Lemma heads_read m m' b : read m' b = read m b -> heads_of_space m' b = heads_of_space m b.
Proof. unfold read, heads_of_space, heads. rewrite !lookup_total_alt. by intros ->. Qed.

(** The part of the space that bins and segments depend on, but for the segments themselves. *)
Definition same_bins (m m' : mspace) : Prop :=
  (smallmap m', ms_at m', magic m', direct m') = (smallmap m, ms_at m, magic m, direct m) /\ (dv m', dvsize m') = (dv m, dvsize m) /\
  core m' = MState (least_addr (core m')) (treebins_at (core m)) (treemap (core m)) (treebins (core m)) (chunks (core m')) /\ 0 < least_addr (core m') <= least_addr (core m).

Lemma same_bins_stores m mm m' : same_bins m mm -> stores mm m' -> same_bins m m'.
Proof.
  intros (E1 & E2 & E3 & E4) [Es _ _]. unfold same_bins. destruct (core m') as [l tb tm ts ch] eqn:Ec. injection Es as F1 F2 F3 F4 F5 F6 F7 F8 F9 F10 F11. rewrite Ec in F4, F5, F6, F7. cbn in *.
  rewrite F1, F2, F3, F11, F8, F9. split; [done|]. split; [done|]. rewrite E3 in F4, F5, F6. cbn in *. split; [congruence|lia].
Qed.

Lemma same_bins_footer m m' : same_bins m m' -> footer m' = footer m.
Proof. intros ([= _ E1 E2 _] & _). unfold footer. by rewrite E1, E2. Qed.

Section Resize.
Context (m mm : mspace) (L : list seglay) (Ms Mt : gmap Z Z) (D : list (Z * Z)) (O : space_ok m L Ms Mt D) (sg : seglay) (Hsg : L !! 0%nat = Some sg).
Context (r r' : segment) (Hr : segs m !! 0%nat = Some r) (lim : Z) (thr : Z).
Let sg' : seglay := SegLay (sl_start sg) (sl_blocks sg) (sl_end sg) true lim.
Let ts : Z := lim - 80 - top m.
Context (HB : same_bins m mm) (Esg : segs mm = <[0%nat := r']> (segs m)) (HM : seg_matches r' sg') (Eat : seg_at r' = seg_at r).
Context (Hts : 0 < ts) (Hlim8 : lim mod 8 = 0) (H40 : lim - sl_start sg < 2 ^ 40 /\ lim <= 2 ^ 64).
Context (Hread : forall b, b < lim \/ sl_limit sg <= b -> read mm b = read m b).
Context (Hmap : forall x, x + 8 <= lim \/ sl_limit sg <= x -> mapped m x = true -> mapped mm x = true) (Hcov : covers mm (sl_start sg) lim).
Context (Hapart : forall j s2, j <> 0%nat -> L !! j = Some s2 -> regions_apart (sl_start sg, lim) (sl_region s2)) (Hdir : forall d, d ∈ direct m -> regions_apart d (sl_start sg, lim)).

Lemma resize_top : exists m', init_top (top m) ts thr mm = Some m' /\ space_ok m' (<[0%nat := sg']> L) Ms Mt D /\ stores mm m' /\ same_bins m m' /\ top_part m' = (top m, ts) /\ segs m' = segs mm.
Proof using Type*.
  destruct (ok_top _ _ _ _ _ O) as [_ Htp]. pose proof (Htp _ _ Hsg) as Etop. cbn in Etop. pose proof (Forall_lookup_1 _ _ _ _ (ok_segs _ _ _ _ _ O) Hsg) as S.
  pose proof (so_end _ _ S) as He. rewrite Etop in He. destruct He as (Ee & Hh & HD & Ht8 & Ht0 & El). change TOP_FOOT_SIZE with 80 in El. destruct (so_start _ _ S) as (Hs8 & Hs0 & Hsl). destruct (lay_end _ _ _ _ _ _ _ (so_lay _ _ S)) as (E & H0 & H08).
  assert (Htop8 : top m mod 8 = 0) by (rewrite <- Ee, E, Z.add_mod, Hs8, H08; done). assert (Hle : sl_start sg <= top m) by lia. assert (Hts8 : ts mod 8 = 0) by (unfold ts; clear -Hlim8 Htop8; Z.div_mod_to_equations; lia).
  assert (HMm : forall x, x mod 8 = 0 -> top m <= x -> x + 8 <= lim -> mapped mm x = true) by (intros x ? ? ?; apply Hcov; (done || lia)).
  destruct (init_top_run (top m) ts thr mm) as (m' & Ei & St & Etp & Esegs & HD' & Hhd & Hst & Hft); [done|done|done|apply HMm; [by rewrite Z.add_mod, Htop8|lia|unfold ts in *; lia]|apply HMm; [clear -Htop8 Hts8; Z.div_mod_to_equations; lia|lia|unfold ts in *; lia]|].
  exists m'. split; [done|]. pose proof (same_bins_stores _ _ _ HB St) as HB'. split; [|done]. pose proof HB' as (HB1 & HB2 & HB3 & HB4). pose proof (stores_footer _ _ St) as Ef. rewrite (same_bins_footer _ _ HB) in Ef.
  assert (Hn : forall z, z < top m \/ Z.max lim (sl_limit sg) <= z -> tags (heads_of_space m' z) = tags (heads_of_space m z)).
  { intros z Hz. rewrite Hst by (unfold ts; lia). f_equal. apply heads_read, Hread. unfold ts in *. lia. }
  assert (Hd : forall b, b < lim \/ sl_limit sg <= b -> is_Some (read m b) -> is_Some (read m' b)) by (intros b Hb Hs; apply (st_dom _ _ St); by rewrite Hread).
  assert (Htag : tags (heads_of_space m' (top m)) = (tc_prev_foot (heads_of_space m (top m)), ts + 1)) by (rewrite Hhd; f_equal; f_equal; apply heads_read, Hread; unfold ts in *; lia).
  apply tags_pair in Htag as [Htf Hth]. injection Etp as Et1 Et2.
  assert (Hmap' : forall x, x + 8 <= lim \/ sl_limit sg <= x -> mapped m x = true -> mapped m' x = true) by (intros x; rewrite (stores_mapped _ _ _ St); apply Hmap).
  apply (reshape_seg m m' L Ms Mt D D 0%nat sg sg' r r' O Hsg Hr); try done; [by rewrite Esegs| | | |].
  - intros a k s b Ha Hb. apply in_placed in Ha as (j & s2 & Hj & Ha).
    assert (Hbl : b < lim \/ sl_limit sg <= b).
    { apply list_lookup_insert_Some in Hj as [(<- & <- & _)|[Hne Hj]].
      - destruct (placed_bounds _ _ _ _ _ _ _ _ _ _ (so_lay _ _ S) Ha) as (_ & ? & _). unfold ts in *. lia.
      - destruct (other_seg m L Ms Mt D 0%nat sg j s2 O Hsg Hj Hne) as (HA & S2 & _). pose proof (seg_bounds _ _ _ _ _ S2 Ha). destruct HA; [right|left]; lia. }
    split; [|by apply Hd]. rewrite (st_link _ _ St). f_equal. by apply heads_read, Hread.
  - split.
    + rewrite Ef. cbn [sg' sl_start sl_blocks sl_end]. apply (lay_agree (heads_of_space m)); [intros x Hx; apply Hn; lia|by rewrite Ee|apply S].
    + cbn [sg' sl_start]. split_and!; (done || lia).
    + intros x X1 X2 X3. rewrite (stores_mapped _ _ _ St). by apply Hcov.
    + done.
    + cbn. unfold ts in *. lia.
    + done.
    + cbn [sg' sl_top sl_end]. rewrite Et1, Et2, Hth. split_and!; try done. cbn [sg' sl_limit]. change TOP_FOOT_SIZE with 80. unfold ts. lia.
    + intros x k s Hx. destruct (placed_bounds _ _ _ _ _ _ _ _ _ _ (so_lay _ _ S) Hx) as (_ & ? & ? & _). apply Hd; [unfold ts in *; lia|]. by apply (so_dom _ _ S x k s).
    + done.
  - intros j s2 Hne Hj. destruct (other_seg m L Ms Mt D 0%nat sg j s2 O Hsg Hj Hne) as (HA & S2 & Hnt). pose proof (Hapart j s2 ltac:(done) Hj) as HA'. unfold regions_apart, sl_region in HA'. cbn in HA'. split; [|done].
    assert (Hlt : sl_start s2 < sl_limit s2) by (destruct (lay_end _ _ _ _ _ _ _ (so_lay _ _ S2)) as (? & ? & _); pose proof (so_limit _ _ S2); lia).
    apply (seg_keep m m' s2 S2); try done; [intros x X1 X2; apply Hmap'; destruct HA; lia|lia|intros Et; by rewrite (Hnt Et) in Etop|intros b Hb; apply Hd; destruct HA; lia|].
    intros x Hx. apply Hn. destruct HA; lia.
  - rewrite Forall_forall. intros d Hin. pose proof (proj1 (Forall_forall _ _) (ok_direct _ _ _ _ _ O) d Hin) as Hdd. pose proof (Hdir d Hin) as HA'. cbn in HA'.
    assert (HA : regions_apart d (sl_region sg)) by (apply (ok_dapart _ _ _ _ _ O d Hin); by eapply list_elem_of_lookup_2). unfold regions_apart in HA, HA'. cbn in HA, HA'.
    apply (direct_same m m' d Hdd); try done; [lia|intros b Hb; apply Hd; lia|intros x Hx; apply Hn; lia].
Qed.
End Resize.

(** ** Segments found *)
Lemma pick_lookup f l s : pick_segment f l = Some s -> exists i, l !! i = Some s /\ f s = true /\ forall g, edit_segment f g l = <[i := g s]> l.
Proof.
  induction l as [|a l IH]; [done|]. cbn. destruct (f a) eqn:Ef.
  - intros [= ->]. exists 0%nat. done.
  - intros H. destruct (IH H) as (i & Hi & Hf & Hg). exists (S i). split; [done|]. split; [done|]. intros g. cbn. by rewrite Hg.
Qed.

Lemma segment_range m L Ms Mt D i s : space_ok m L Ms Mt D -> segs m !! i = Some s -> exists sg, L !! i = Some sg /\ seg_matches s sg /\ seg_ok m sg.
Proof. intros O Hi. destruct (Forall2_lookup_l _ _ _ _ _ (ok_match _ _ _ _ _ O) Hi) as (sg & Hsg & HM). exists sg. split; [done|]. split; [done|]. by apply (Forall_lookup_1 _ _ _ _ (ok_segs _ _ _ _ _ O) Hsg). Qed.

(** The top chunk is in the most recent segment. *)
Lemma holds_top m L Ms Mt D i s : space_ok m L Ms Mt D -> segs m !! i = Some s -> segment_holds s (top m) = true -> i = 0%nat.
Proof.
  intros O Hi Hh. destruct (segment_range m L Ms Mt D i s O Hi) as (sg & Hsg & [M1 M2 _ _] & _). unfold segment_holds in Hh. apply andb_true_iff in Hh as [H1%Z.leb_le H2%Z.ltb_lt].
  destruct (top_seg m L Ms Mt D O) as (j & s2 & Hj & Htop & _ & _ & _ & H0 & _ & H3 & H4 & _). destruct (ok_top _ _ _ _ _ O) as [_ Htp]. rewrite (Htp _ _ Hj) in Htop. apply bool_decide_eq_true in Htop as ->.
  destruct (decide (i = 0%nat)) as [?|Hne]; [done|]. exfalso. destruct (ok_apart _ _ _ _ _ O i 0%nat sg s2 Hne Hsg Hj); lia.
Qed.

Lemma used_insert L i sg sg' : L !! i = Some sg -> seg_placed sg' = seg_placed sg -> all_placed (<[i := sg']> L) = all_placed L.
Proof.
  intros Hi E. unfold all_placed. f_equal. rewrite list_fmap_insert, E. apply list_insert_id. by rewrite list_lookup_fmap, Hi.
Qed.

(** ** New memory for the space *)
Section Growth.
Context (P : malloc_params) (m : mspace) (L : list seglay) (Ms Mt : gmap Z Z) (D : list (Z * Z)) (O : space_ok m L Ms Mt D).
Context (tbase tsize : Z) (HF : fresh_memory m tbase tsize) (Hts : 4096 <= tsize) (Hpages : tsize mod 4096 = 0) (Hbound : forall s, s ∈ segs m -> seg_size s + tsize < 2 ^ 40).
Let m1 : mspace := grow_footprint tsize (with_regions ((tbase, tbase + tsize) :: maps m) (direct m) m).

Lemma grown_mapped x : mapped m x = true \/ (tbase <= x /\ x + 8 <= tbase + tsize) -> mapped m1 x = true.
Proof using Type. rewrite !mapped_region. intros [(r & Hr & H)|H]; [exists r; split; [by right|done]|exists (tbase, tbase + tsize); split; [by left|done]]. Qed.

Lemma tsize8 : tsize mod 8 = 0.
Proof using Hpages. clear -Hpages. Z.div_mod_to_equations. lia. Qed.

Lemma grown_ok : space_ok m1 L Ms Mt D.
Proof using O. apply (space_more m); try done. - cbn. by destruct (core m). - pose proof (ok_least _ _ _ _ _ O). cbn. lia. - intros x Hx. apply grown_mapped. by left. Qed.

Lemma fresh_apart sg : sg ∈ L -> regions_apart (tbase, tbase + tsize) (sl_region sg).
Proof using Type*. apply (fresh_seg m L Ms Mt D); [done|done|lia|apply tsize8]. Qed.

(** At the end of the top segment. *)
Lemma append_ok i s : segs m !! i = Some s -> tbase = seg_base s + seg_size s -> segment_holds s (top m) = true ->
  let m2 := with_segs (<[i := Segment (seg_at s) (seg_base s) (seg_size s + tsize) (seg_flags s)]> (segs m1)) m1 in
  exists m' L', init_top (top m2) (topsize m2 + tsize) (trim_threshold P) m2 = Some m' /\ space_ok m' L' Ms Mt D /\ all_placed L' = all_placed L /\ same_bins m m' /\ topsize m' = topsize m + tsize.
Proof using Type*.
  intros Hi Etb Hh m2. pose proof (holds_top m L Ms Mt D i s O Hi Hh) as ->. destruct (segment_range m L Ms Mt D 0 s O Hi) as (sg & Hsg & [M1 M2 M3 M4] & S).
  destruct (ok_top _ _ _ _ _ O) as [_ Htp]. pose proof (Htp _ _ Hsg) as Etop. cbn in Etop. pose proof (so_end _ _ S) as He. rewrite Etop in He. destruct He as (Ee & _ & _ & _ & Ht0 & El). change TOP_FOOT_SIZE with 80 in El.
  set (lim := sl_limit sg + tsize). assert (Ets : topsize m2 + tsize = lim - 80 - top m) by (unfold m2, lim; cbn; lia). rewrite Ets.
  assert (HB : same_bins m m2) by (unfold m2, m1; split; [done|]; split; [done|]; split; [cbn; by destruct (core m)|pose proof (ok_least _ _ _ _ _ O); cbn; lia]).
  destruct (resize_top m m2 L Ms Mt D O sg Hsg s (Segment (seg_at s) (seg_base s) (seg_size s + tsize) (seg_flags s)) Hi lim (trim_threshold P) HB) as (m' & Ei & O' & St & HB' & [= Et1 Et2] & Es); try done.
  - split; cbn; [done|unfold lim; lia|done|]. intros F1 F2. specialize (M4 F1 F2). clear -M4 Hpages. Z.div_mod_to_equations. lia.
  - unfold lim. lia.
  - unfold lim. pose proof (so_limit8 _ _ S) as H8. pose proof tsize8 as H8'. clear -H8 H8'. Z.div_mod_to_equations. lia.
  - unfold lim. pose proof (Hbound s (list_elem_of_lookup_2 _ _ _ Hi)). destruct HF as (_ & _ & H64 & _). lia.
  - intros x _ Hx. apply grown_mapped. by left.
  - intros x X1 X2 X3. apply grown_mapped. destruct (Z.le_gt_cases (x + 8) (sl_limit sg)); [left; by apply (so_covers _ _ S)|right]. pose proof (so_limit8 _ _ S) as H8. unfold lim in X3. split; [|lia].
    clear -X1 H8 H Etb M2. Z.div_mod_to_equations. lia.
  - intros j s2 Hne Hj. destruct (other_seg m L Ms Mt D 0%nat sg j s2 O Hsg Hj ltac:(done)) as (HA & S2 & _). pose proof (fresh_apart s2 (list_elem_of_lookup_2 _ _ _ Hj)) as HA'. pose proof (so_limit _ _ S2).
    destruct (lay_end _ _ _ _ _ _ _ (so_lay _ _ S2)) as (? & ? & _). unfold regions_apart, sl_region, seg_apart in *. cbn in *. unfold lim. lia.
  - intros d Hd. destruct HF as (_ & _ & _ & Hf). specialize (Hf d ltac:(apply elem_of_app; by right)). pose proof (ok_dapart _ _ _ _ _ O d Hd sg (list_elem_of_lookup_2 _ _ _ Hsg)) as HA.
    destruct (do_size _ _ (proj1 (Forall_forall _ _) (ok_direct _ _ _ _ _ O) d Hd)). unfold regions_apart, sl_region in *. cbn in *. unfold lim. lia.
  - eexists m', _. split; [exact Ei|]. split; [exact O'|]. split; [by apply (used_insert L 0 sg)|]. split; [done|]. rewrite Et2. unfold lim. lia.
Qed.
End Growth.

(** ** A new segment *)
Lemma fences_run fuel p e n m : p mod 8 = 0 -> e mod 8 = 0 -> p + 16 <= e -> e - p <= 8 * Z.of_nat fuel + 8 -> (forall x, x mod 8 = 0 -> p <= x -> x + 8 <= e -> mapped m x = true) ->
  exists m', fences fuel p e n m = Some (m', n + (e - p) / 8 - 1) /\ stores m m' /\ top_part m' = top_part m /\ segs m' = segs m /\ tc_head (heads_of_space m' p) = FENCEPOST_HEAD /\
    same_tags (heads_of_space m) (heads_of_space m') (fun z => z < p \/ e <= z).
Proof.
  revert p n m. induction fuel as [|fuel IH]; intros p n m Hp He Hle Hf HM; [lia|]. cbn [fences].
  destruct (put_head_step m m _ p (fun _ => FENCEPOST_HEAD) (tagged_self m)) as (m1 & -> & T1 & _ & _); [apply HM; [by rewrite Z.add_mod, Hp|lia|lia]|]. cbn [mbind option_bind].
  destruct (tagged_top _ _ _ T1) as [Et1 Es1]. pose proof (stores_tagged _ _ _ T1) as S1.
  assert (Hh : tc_head (heads_of_space m1 p) = FENCEPOST_HEAD) by (by rewrite (tg_view _ _ _ T1), fupd_eq). assert (Hs : forall z, z <> p -> tags (heads_of_space m1 z) = tags (heads_of_space m z)) by (intros z Hz; by rewrite (tg_view _ _ _ T1), fupd_tag).
  assert (Ed : (e - (p + 8)) / 8 = (e - p) / 8 - 1) by (replace (e - p) with (e - (p + 8) + 1 * 8) by lia; rewrite Z.div_add by lia; lia).
  destruct (Z.ltb_spec (p + 8 + 8) e) as [Hlt|Hge].
  - destruct (IH (p + 8) (n + 1) m1) as (m2 & -> & S2 & Et2 & Es2 & _ & Hs2); [by rewrite Z.add_mod, Hp|done| |lia|intros x ???; rewrite (stores_mapped _ _ _ S1); apply HM; (done || lia)|].
    { clear -Hp He Hlt. Z.div_mod_to_equations. lia. }
    exists m2. split; [do 2 f_equal; lia|]. split; [eauto with dlspace|]. split; [congruence|]. split; [congruence|]. split.
    + assert (E : tags (heads_of_space m2 p) = tags (heads_of_space m1 p)) by (apply Hs2; lia). injection E as _ ->. done.
    + intros z Hz. rewrite Hs2 by lia. apply Hs. lia.
  - exists m1. assert (e = p + 16) as -> by lia. split; [do 2 f_equal; replace (p + 16 - p) with (2 * 8) by lia; rewrite Z.div_mul by lia; lia|]. split_and!; try done. intros z Hz. apply Hs. lia.
Qed.

Lemma align_offset_eq a : align_offset a = (- a) mod 8.
Proof.
  unfold align_offset. change CHUNK_ALIGN_MASK with (Z.ones 3). rewrite !Z.land_ones by lia. change (2 ^ 3) with 8. destruct (Z.eqb_spec (a mod 8) 0) as [E|E]; [|];
  Z.div_mod_to_equations; lia.
Qed.

(** The chunks of a space that grows: memory from [tbase] of [tsize] bytes is mapped and in no
    segment. *)
Record new_region (m : mspace) (L : list seglay) (tbase tsize : Z) : Prop := {
  nr_at : 0 < tbase /\ tbase mod 8 = 0 /\ least_addr (core m) <= tbase;
  nr_size : tsize mod 4096 = 0 /\ 4096 <= tsize < 2 ^ 40 /\ tbase + tsize <= 2 ^ 64;
  nr_covers : covers m tbase (tbase + tsize);
  nr_apart : forall sg, sg ∈ L -> regions_apart (tbase, tbase + tsize) (sl_region sg);
  nr_direct : forall d, d ∈ direct m -> regions_apart d (tbase, tbase + tsize) }.

Section AddSegment.
Context (P : malloc_params) (m : mspace) (sg : seglay) (L1 : list seglay) (Ms Mt : gmap Z Z) (D : list (Z * Z)) (O : space_ok m (sg :: L1) Ms Mt D).
Context (tbase tsize : Z) (N : new_region m (sg :: L1) tbase tsize).
(** What is left of the top chunk: a free chunk, when it is large enough for one. *)
Let front : list (kind * Z) := if topsize m <? 32 then [] else [(KFree, topsize m)].
Let csp : Z := top m + total front.
Let new_seg : seglay := SegLay tbase [] tbase true (tbase + tsize).
Let old_seg : seglay := SegLay (sl_start sg) (sl_blocks sg ++ front ++ [(KSys, 48)]) (csp + 48) false (sl_limit sg).

Lemma top_facts : sl_top sg = true /\ seg_ok m sg /\ sl_end sg = top m /\ topsize m mod 8 = 0 /\ 0 < topsize m /\ top m mod 8 = 0 /\ sl_start sg <= top m /\ sl_limit sg = top m + topsize m + 80 /\
  0 <= total front <= topsize m /\ (total front) mod 8 = 0 /\ topsize m < total front + 32 /\ exists s rs, segs m = s :: rs /\ seg_matches s sg /\ Forall2 seg_matches rs L1 /\ seg_at s = ms_at m + 880.
Proof using Type*.
  destruct (ok_top _ _ _ _ _ O) as [_ Htp]. pose proof (Htp 0%nat sg eq_refl) as Etop. cbn in Etop. destruct (top_seg m _ Ms Mt D O) as (j & s2 & Hj & Htop & S & Ee & Ht8 & Ht0 & Htt & Hle & Hlim & _).
  rewrite (Htp _ _ Hj) in Htop. apply bool_decide_eq_true in Htop as ->. cbn in Hj. injection Hj as <-. do 8 (split; [done|]). unfold front. split; [destruct (Z.ltb_spec (topsize m) 32); cbn; lia|].
  split; [destruct (Z.ltb_spec (topsize m) 32); cbn; [done|by rewrite Z.add_0_r]|]. split; [destruct (Z.ltb_spec (topsize m) 32); cbn; lia|].
  pose proof (ok_match _ _ _ _ _ O) as HM. pose proof (ok_first _ _ _ _ _ O) as Hf. destruct (segs m) as [|s rs]; [by apply Forall2_nil_inv_l in HM|]. apply Forall2_cons in HM as [H1 H2]. exists s, rs. split_and!; try done. cbn in Hf. by injection Hf.
Qed.

Lemma front_cases : front = [] /\ topsize m < 32 \/ front = [(KFree, topsize m)] /\ 32 <= topsize m.
Proof using Type. unfold front. clear. destruct (Z.ltb_spec (topsize m) 32); auto. Qed.

(** The memory after the stores of [add_segment]. *)
Record added (m' : mspace) : Prop := {
  ad_stores : stores m m';
  ad_top : top_part m' = (tbase, tsize - 80) /\ is_Some (read m' tbase) /\ tc_head (heads_of_space m' tbase) = tsize - 79;
  ad_segs : exists s rs, segs m = s :: rs /\ segs m' = Segment (seg_at s) tbase tsize USE_MMAP_BIT :: Segment (chunk2mem csp) (seg_base s) (seg_size s) (seg_flags s) :: rs;
  ad_lay : lay (heads_of_space m') (footer m) true (top m) (front ++ [(KSys, 48)]) (csp + 48) true;
  ad_foot : tc_prev_foot (heads_of_space m' (top m)) = tc_prev_foot (heads_of_space m (top m));
  ad_fence : tc_head (heads_of_space m' (csp + 48)) = FENCEPOST_HEAD;
  ad_dom : is_Some (read m' csp) /\ is_Some (read m' (top m));
  ad_tags : same_tags (heads_of_space m) (heads_of_space m') (fun z => (z < top m \/ sl_limit sg <= z) /\ (z < tbase \/ tbase + tsize <= z));
  ad_top_foot : foot_ok m' }.

Lemma added_ok m' : added m' -> space_ok m' (new_seg :: old_seg :: L1) Ms Mt (of_kind KFree (placed (top m) front) ++ D).
Proof using Type*.
  intros A. destruct top_facts as (Etop & S & Ee & Ht8 & Ht0 & Htt & Hle & Hlim & Hf & Hf8 & Hf32 & s & rs & Es & [M1 M2 M3 M4] & HMs & Eat). destruct (nr_at _ _ _ _ N) as (Hb0 & Hb8 & Hbl). destruct (nr_size _ _ _ _ N) as [Hp Hsz].
  pose proof (ad_stores _ A) as St. pose proof (st_part _ _ St) as Ep. injection Ep as E1 E2 E3 E4 E5 E6 E7 E8 E9 E10 E11. destruct (ad_top _ A) as ([= Et Ets] & HDt & Hht).
  pose proof (nr_apart _ _ _ _ N sg ltac:(by left)) as HA0. unfold regions_apart, sl_region in HA0. cbn in HA0.
  assert (Hts8 : tsize mod 8 = 0) by (clear -Hp; Z.div_mod_to_equations; lia). pose proof (so_limit8 _ _ S) as Hl8.
  assert (Hother : forall s2, s2 ∈ L1 -> seg_ok m' s2 /\ seg_apart sg s2 /\ seg_apart new_seg s2 /\ sl_top s2 = false).
  { intros s2 H2. pose proof H2 as Hin. apply list_elem_of_lookup in H2 as [j Hj]. destruct (other_seg m (sg :: L1) Ms Mt D 0%nat sg (Datatypes.S j) s2 O eq_refl Hj ltac:(done)) as (HA & S2 & Hnt).
    pose proof (nr_apart _ _ _ _ N s2 ltac:(by right)) as HA2. unfold regions_apart, sl_region in HA2. cbn in HA2. assert (Hnt2 : sl_top s2 = false) by (destruct (sl_top s2); [by rewrite Hnt in Etop|done]).
    split; [|split_and!; try done]. apply (seg_keep m m' s2 S2); [by apply stores_footer|intros x _ _; by rewrite (stores_mapped _ _ _ St)|lia|by rewrite Hnt2|intros b _; apply St|].
    intros x Hx. apply (ad_tags _ A). pose proof (so_start _ _ S2). destruct HA; lia. }
  pose proof (ok_least _ _ _ _ _ O) as Hl0. apply (rebuild m m' (sg :: L1) _ Ms Mt D _ O); try done; try lia.
  - intros a k t b _ _. split; apply St.
  - apply Forall_cons. split; [|apply Forall_cons; split; [|by apply Forall_forall; intros s2 H2; apply Hother]].
    + split; cbn [new_seg sl_start sl_blocks sl_end sl_limit sl_top]; try done; try lia.
      * intros x X1 X2 X3. rewrite (stores_mapped _ _ _ St). by apply (nr_covers _ _ _ _ N).
      * clear -Hb8 Hts8. Z.div_mod_to_equations. lia.
      * rewrite Et, Ets, Hht. change TOP_FOOT_SIZE with 80. split_and!; try done; try lia. clear -Hts8. Z.div_mod_to_equations. lia.
      * by intros x k t Hx%elem_of_nil.
      * intros _. apply A.
    + split; cbn [old_seg sl_start sl_blocks sl_end sl_limit sl_top]; try done; try (unfold csp; lia).
      * rewrite (stores_footer _ _ St). apply lay_app. exists (top m), true. split; [|apply A]. rewrite <- Ee. apply (lay_agree (heads_of_space m)); [intros x Hx; apply (ad_tags _ A); lia|rewrite Ee; apply A|apply S].
      * pose proof (so_start _ _ S). lia.
      * intros x X1 X2 X3. rewrite (stores_mapped _ _ _ St). by apply (so_covers _ _ S).
      * apply S.
      * split; [apply A|]. exists (sl_blocks sg ++ front). by rewrite <- app_assoc.
      * intros x k t Hx. unfold seg_placed in Hx. cbn [old_seg sl_start sl_blocks] in Hx. rewrite !placed_app in Hx. destruct (lay_end _ _ _ _ _ _ _ (so_lay _ _ S)) as (E & _). rewrite <- E, Ee in Hx. fold csp in Hx.
        rewrite !elem_of_app in Hx. destruct Hx as [Hx|[Hx|Hx]]; [apply St; by apply (so_dom _ _ S x k t)| |apply list_elem_of_singleton in Hx; injection Hx as -> _ _; apply (ad_dom _ A)].
        destruct front_cases as [[E' _]|[E' _]]; rewrite E' in Hx; [by apply elem_of_nil in Hx|]. apply list_elem_of_singleton in Hx. injection Hx as -> _ _. apply (ad_dom _ A).
  - assert (HA1 : seg_apart new_seg old_seg) by (unfold seg_apart; cbn; lia). intros i j s1 s2 Hne Hi Hj. assert (Hsym : forall a b, seg_apart a b -> seg_apart b a) by (unfold seg_apart; tauto).
    destruct i as [|[|i]], j as [|[|j]]; cbn in Hi, Hj; simplify_eq; auto.
    + by apply Hother; eapply list_elem_of_lookup_2.
    + change (seg_apart sg s2). by apply Hother; eapply list_elem_of_lookup_2.
    + apply Hsym. by apply Hother; eapply list_elem_of_lookup_2.
    + apply Hsym. change (seg_apart sg s1). by apply Hother; eapply list_elem_of_lookup_2.
    + apply (ok_apart _ _ _ _ _ O (Datatypes.S i) (Datatypes.S j)); [lia|done|done].
  - split; [done|]. intros j s2 Hj. destruct j as [|[|j]]; cbn in Hj; [by simplify_eq|by simplify_eq|]. rewrite bool_decide_false by lia. by apply Hother; eapply list_elem_of_lookup_2.
  - destruct (ad_segs _ A) as (s' & rs' & Es' & Esg). rewrite Es in Es'. injection Es' as <- <-. rewrite Esg. apply Forall2_cons. split; [by split|]. apply Forall2_cons. split; [|done].
    split; cbn [old_seg sl_start sl_limit sl_top sl_end seg_base seg_size seg_at seg_flags is_mmapped_segment is_extern_segment]; try done. unfold chunk2mem. lia.
  - destruct (ad_segs _ A) as (s' & rs' & Es' & Esg). rewrite Es in Es'. injection Es' as <- <-. rewrite Esg. cbn. by rewrite Eat.
  - rewrite E11. rewrite Forall_forall. intros d Hd. pose proof (proj1 (Forall_forall _ _) (ok_direct _ _ _ _ _ O) d Hd) as Hdd. pose proof (ok_dapart _ _ _ _ _ O d Hd sg ltac:(by left)) as HA. pose proof (nr_direct _ _ _ _ N d Hd) as HA2.
    unfold regions_apart, sl_region in HA, HA2. cbn in HA, HA2. apply (direct_same m m' d Hdd); [by apply stores_footer|lia|intros b _; apply St|]. intros x Hx. apply (ad_tags _ A). lia.
  - rewrite E11. intros d Hd s2 H2. rewrite !elem_of_cons in H2. destruct H2 as [->|[->|H2]]; [by apply (nr_direct _ _ _ _ N)|apply (ok_dapart _ _ _ _ _ O d Hd sg); by left|apply (ok_dapart _ _ _ _ _ O d Hd s2); by right].
  - rewrite E11. apply O.
  - pose proof (ok_free _ _ _ _ _ O) as HP. unfold all_placed in *. cbn [fmap list_fmap concat] in *. unfold seg_placed at 1 2. cbn [new_seg old_seg sl_start sl_blocks placed app]. rewrite !placed_app. destruct (lay_end _ _ _ _ _ _ _ (so_lay _ _ S)) as (E & _). rewrite <- E, Ee. fold csp.
    rewrite !of_kind_app in *. change (of_kind KFree (placed csp [(KSys, 48)])) with (@nil (Z * Z)). unfold seg_placed at 1 in HP. rewrite app_nil_r.
    transitivity (of_kind KFree (placed (top m) front) ++ (of_kind KFree (placed (sl_start sg) (sl_blocks sg)) ++ of_kind KFree (concat (seg_placed <$> L1)))); [solve_Permutation|]. rewrite HP. solve_Permutation.
  - pose proof (ok_hdr _ _ _ _ _ O) as Hh. unfold all_placed in *. cbn [fmap list_fmap concat] in *. rewrite !elem_of_app in *. right. destruct Hh as [Hh|Hh]; [left|by right]. unfold seg_placed in *. cbn [old_seg sl_start sl_blocks]. rewrite placed_app. apply elem_of_app. by left.
Qed.

Lemma holding_top s rs : segs m = s :: rs -> segment_holds s (top m) = true -> segment_holding m (top m) = Some s.
Proof using Type. intros Es Hh. unfold segment_holding. rewrite Es. cbn [list_find]. by rewrite decide_True by (by rewrite Hh). Qed.

(** Where [add_segment] puts the record of the old segment. *)
Lemma record_at : sl_limit sg - 87 + align_offset (chunk2mem (sl_limit sg - 87)) = top m + topsize m /\
  (if top m + topsize m <? top m + MIN_CHUNK_SIZE then top m else top m + topsize m) = csp.
Proof using Type*.
  destruct top_facts as (_ & S & _ & _ & _ & _ & _ & Hlim & _). pose proof (so_limit8 _ _ S) as H8. split.
  - rewrite align_offset_eq. unfold chunk2mem. rewrite Hlim in *. clear -H8. Z.div_mod_to_equations. lia.
  - unfold csp. change MIN_CHUNK_SIZE with 32. destruct front_cases as [[-> H]|[-> H]]; cbn [total]; [rewrite (proj2 (Z.ltb_lt _ _)) by lia|rewrite (proj2 (Z.ltb_ge _ _)) by lia]; lia.
Qed.

(** The stores up to the fences. *)
Lemma record_run : exists ma mb s rs n, init_top tbase (tsize - 80) (trim_threshold P) m = Some ma /\ set_size_and_pinuse_of_inuse_chunk csp 48 ma = Some mb /\ segs m = s :: rs /\ segs mb = s :: rs /\
  segment_holding m (top m) = Some s /\ seg_base s + seg_size s = sl_limit sg /\
  let mb' := with_segs (Segment (seg_at s) tbase tsize USE_MMAP_BIT :: Segment (chunk2mem csp) (seg_base s) (seg_size s) (seg_flags s) :: rs) mb in
  exists mc, fences FENCE_FUEL (csp + 48) (sl_limit sg) 0 mb' = Some (mc, n) /\ 2 <= n /\ stores m mc /\ top_part mc = (tbase, tsize - 80) /\ segs mc = segs mb' /\
    is_Some (read mc tbase) /\ is_Some (read mc csp) /\ tc_head (heads_of_space mc tbase) = tsize - 79 /\ tags (heads_of_space mc csp) = (tc_prev_foot (heads_of_space m csp), head_word KSys 48 true) /\
    tc_head (heads_of_space mc (csp + 48)) = FENCEPOST_HEAD /\ same_tags (heads_of_space m) (heads_of_space mc) (fun z => (z < csp \/ sl_limit sg <= z) /\ (z < tbase \/ tbase + tsize <= z)) /\ foot_ok mc.
Proof using Type*.
  destruct top_facts as (Etop & S & Ee & Ht8 & Ht0 & Htt & Hle & Hlim & Hf & Hf8 & Hf32 & s & rs & Es & [M1 M2 M3 M4] & HMs & Eat). destruct (nr_at _ _ _ _ N) as (Hb0 & Hb8 & Hbl). destruct (nr_size _ _ _ _ N) as [Hp Hsz].
  pose proof (nr_apart _ _ _ _ N sg ltac:(by left)) as HA0. unfold regions_apart, sl_region in HA0. cbn in HA0. assert (Hts8 : (tsize - 80) mod 8 = 0) by (clear -Hp; Z.div_mod_to_equations; lia). pose proof (so_limit8 _ _ S) as Hl8.
  assert (Hcsp8 : csp mod 8 = 0) by (unfold csp; clear -Htt Hf8; Z.div_mod_to_equations; lia). assert (Hc : top m <= csp /\ csp + 80 <= sl_limit sg /\ sl_limit sg < csp + 112) by (unfold csp; lia).
  assert (HMo : forall x, x mod 8 = 0 -> csp <= x -> x + 8 <= sl_limit sg -> mapped m x = true) by (intros x ???; apply (so_covers _ _ S); (done || lia)).
  destruct (init_top_run tbase (tsize - 80) (trim_threshold P) m) as (ma & Ei & Sa & Eta & Esa & HDa & Hha & Hsa & Hfa); [done|done|lia|apply (nr_covers _ _ _ _ N); [by rewrite Z.add_mod, Hb8|lia|lia]|apply (nr_covers _ _ _ _ N); [clear -Hb8 Hts8; Z.div_mod_to_equations; lia|lia|lia]|].
  destruct (set_used_run ma ma _ csp 48 (tagged_self ma)) as (mb & gb & Eb & [Tb Rb] & HDb & Hb1 & Hb2 & Hb3); [rewrite (stores_mapped _ _ _ Sa); apply HMo; [by rewrite Z.add_mod, Hcsp8|lia|lia]|rewrite (stores_mapped _ _ _ Sa); apply HMo; [by rewrite Z.add_mod, Hcsp8|lia|lia]|lia|done|].
  destruct (tagged_top _ _ _ Tb) as [Etb Esb]. pose proof (stores_tagged _ _ _ Tb) as Sb. set (mb' := with_segs (Segment (seg_at s) tbase tsize USE_MMAP_BIT :: Segment (chunk2mem csp) (seg_base s) (seg_size s) (seg_flags s) :: rs) mb).
  assert (Hvb : forall z, heads_of_space mb' z = gb z) by (intros z; apply (tg_view _ _ _ Tb)). assert (Sb' : stores m mb') by (eapply stores_trans; [exact Sa|]; eapply stores_trans; [exact Sb|done]).
  destruct (fences_run FENCE_FUEL (csp + 48) (sl_limit sg) 0 mb') as (mc & Ec & Sc & Etc & Esc & Hhc & Hsc); [by rewrite Z.add_mod, Hcsp8|done|lia|unfold FENCE_FUEL; lia|intros x ???; rewrite (stores_mapped _ _ _ Sb'); apply HMo; (done || lia)|].
  eexists ma, mb, s, rs, _. split; [exact Ei|]. split; [exact Eb|]. split; [done|]. split; [by rewrite Esb, Esa|]. split.
  { apply (holding_top s rs Es). unfold segment_holds. apply andb_true_iff. split; [apply Z.leb_le|apply Z.ltb_lt]; lia. }
  split; [done|]. exists mc. split; [exact Ec|]. split; [clear -Hc Hcsp8 Hl8; Z.div_mod_to_equations; lia|]. split; [eauto with dlspace|]. split; [rewrite Etc; change (top_part mb' = (tbase, tsize - 80)); by rewrite <- Eta|]. split; [done|].
  assert (Hne : tbase <> csp /\ tbase <> csp + 48 /\ tbase + (tsize - 80) <> csp /\ tbase + (tsize - 80) <> csp + 48) by lia.
  split; [by apply Sc, Rb|]. split; [by apply Sc|]. apply tags_pair in Hha as [_ Hha].
  assert (E1 : forall z, (z < csp + 48 \/ sl_limit sg <= z) -> tags (heads_of_space mc z) = tags (gb z)) by (intros z Hz; rewrite Hsc, Hvb by lia; done).
  split; [|split; [|split; [done|split]]].
  - assert (E : tags (heads_of_space mc tbase) = tags (heads_of_space ma tbase)) by (rewrite E1 by lia; apply Hb3; lia). injection E as _ ->. lia.
  - rewrite E1, Hb1 by lia. f_equal. assert (E : tags (heads_of_space ma csp) = tags (heads_of_space m csp)) by (apply Hsa; lia). by injection E.
  - intros z Hz. rewrite E1, Hb3, Hsa by lia. done.
  - injection Eta as Eta1 Eta2. assert (Etc' : top mc = top ma /\ topsize mc = topsize ma) by (injection Etc as -> ->; injection Etb as E2 E3; by rewrite <- E2, <- E3). destruct Etc' as [Et1 Et2].
    apply (foot_keep ma); [done|by rewrite Et1, Et2|intros Hx; by apply Sc, Rb|]. rewrite Eta1, Eta2, E1 by lia. apply Hb3. lia.
Qed.

(** The old top chunk becomes a free chunk, or the record takes its place. *)
Lemma added_run mc s rs : segs m = s :: rs -> stores m mc -> top_part mc = (tbase, tsize - 80) -> segs mc = Segment (seg_at s) tbase tsize USE_MMAP_BIT :: Segment (chunk2mem csp) (seg_base s) (seg_size s) (seg_flags s) :: rs ->
  is_Some (read mc tbase) -> is_Some (read mc csp) -> tc_head (heads_of_space mc tbase) = tsize - 79 -> tags (heads_of_space mc csp) = (tc_prev_foot (heads_of_space m csp), head_word KSys 48 true) ->
  tc_head (heads_of_space mc (csp + 48)) = FENCEPOST_HEAD -> same_tags (heads_of_space m) (heads_of_space mc) (fun z => (z < csp \/ sl_limit sg <= z) /\ (z < tbase \/ tbase + tsize <= z)) -> foot_ok mc ->
  exists md, (if negb (csp =? top m) then set_free_with_pinuse (top m) (csp - top m) (top m + (csp - top m)) mc else Some mc) = Some md /\ added md.
Proof using Type*.
  intros Es Sc Etc Esc HDt HDc Hht [Hcf Hch]%tags_pair Hfen Hs Hft. destruct top_facts as (Etop & S & Ee & Ht8 & Ht0 & Htt & Hle & Hlim & Hf & Hf8 & Hf32 & _).
  destruct (top_seg m _ Ms Mt D O) as (_ & _ & _ & _ & _ & _ & _ & _ & _ & _ & _ & _ & HDtop). destruct (nr_size _ _ _ _ N) as [_ Hsz]. pose proof (nr_apart _ _ _ _ N sg ltac:(by left)) as HA0. unfold regions_apart, sl_region in HA0. cbn in HA0.
  destruct front_cases as [[E H32]|[E H32]]; unfold csp in *; rewrite E in *; cbn [total] in *.
  - rewrite Z.add_0_r in *. rewrite Z.eqb_refl. exists mc. split; [done|]. split; try done; unfold csp; rewrite ?E; cbn [total]; rewrite ?Z.add_0_r; try done.
    + eauto.
  - rewrite Z.add_0_r in *. rewrite (proj2 (Z.eqb_neq _ (top m))) by lia. cbn [negb]. replace (top m + topsize m - top m) with (topsize m) by lia.
    assert (HM : forall x, x mod 8 = 0 -> top m <= x -> x + 8 <= sl_limit sg -> mapped mc x = true) by (intros x ???; rewrite (stores_mapped _ _ _ Sc); apply (so_covers _ _ S); (done || lia)).
    destruct (set_free_pin_run mc mc _ (top m) (topsize m) (tagged_self mc)) as (md & g & Ed & [T R] & HD & H1 & H2 & H3); [apply HM; [by rewrite Z.add_mod, Htt|lia|lia]|apply HM; [clear -Htt Ht8; Z.div_mod_to_equations; lia|lia|lia]|apply HM; [clear -Htt Ht8; Z.div_mod_to_equations; lia|lia|lia]|done|done|].
    exists md. split; [exact Ed|]. destruct (tagged_top _ _ _ T) as [Et Eg]. pose proof (stores_tagged _ _ _ T) as Sd. pose proof (tg_view _ _ _ T) as Hv. rewrite Hch, unpin_head in H2 by (done || lia). apply tags_pair in H1 as [H1f H1h], H2 as [H2f H2h].
    assert (Eo : tags (heads_of_space mc (top m)) = tags (heads_of_space m (top m))) by (apply Hs; lia). injection Eo as Eo _.
    split; unfold csp; rewrite ?E; cbn [total]; rewrite ?Z.add_0_r.
    + eauto with dlspace.
    + split; [congruence|]. split; [by apply R|]. rewrite Hv. assert (E3 : tags (g tbase) = tags (heads_of_space mc tbase)) by (apply H3; lia). injection E3 as _ ->. done.
    + exists s, rs. split; [done|]. congruence.
    + cbn [app lay in_use]. rewrite !Hv, H1h, H2f, H2h. split_and!; try done; lia.
    + rewrite Hv, H1f. done.
    + rewrite Hv. assert (E3 : tags (g (top m + topsize m + 48)) = tags (heads_of_space mc (top m + topsize m + 48))) by (apply H3; lia). injection E3 as _ ->. done.
    + split; [by apply R|done].
    + intros z Hz. rewrite Hv, H3 by lia. apply Hs. lia.
    + injection Et as Et1 Et2. injection Etc as Et3 Et4. apply (foot_keep mc); [done|by rewrite Et1, Et2|apply R|]. rewrite Hv, Et3, Et4. apply H3. lia.
Qed.

Lemma add_segment_ok : exists m' Ms' Mt', add_segment P tbase tsize USE_MMAP_BIT m = Some m' /\ space_ok m' (new_seg :: old_seg :: L1) Ms' Mt' D /\ (dv m', dvsize m', direct m') = (dv m, dvsize m, direct m) /\ topsize m' = tsize - 80.
Proof using Type*.
  destruct record_run as (ma & mb & s & rs & n & Ei & Eb & Es & Esb & Eh & Elim & mc & Ec & Hn & Sc & Etc & Esc & HDt & HDc & Hht & Hc & Hf & Hs & Hft). destruct record_at as [Ea Ecsp].
  destruct (added_run mc s rs Es Sc Etc Esc HDt HDc Hht Hc Hf Hs Hft) as (md & Ed & A). pose proof (added_ok md A) as Od. pose proof (st_part _ _ (ad_stores _ A)) as Ep. destruct (ad_top _ A) as ([= _ Et] & _).
  injection Ep as _ _ _ _ _ _ _ Ev1 Ev2 _ Ev3. unfold add_segment. rewrite Eh. cbn [mbind option_bind]. rewrite Elim. change (pad_request sizeof_malloc_segment) with 48. change (48 + 32 + CHUNK_ALIGN_MASK) with 87. rewrite Ea, Ecsp. change TOP_FOOT_SIZE with 80.
  rewrite Ei. cbn [mbind option_bind]. assert (H8 : (Z.land (chunk2mem csp) CHUNK_ALIGN_MASK =? 0) = true).
  { destruct top_facts as (_ & _ & _ & _ & _ & Htt & _ & _ & _ & Hf8 & _). apply Z.eqb_eq. change CHUNK_ALIGN_MASK with (Z.ones 3). rewrite Z.land_ones by lia. change (2 ^ 3) with 8. unfold chunk2mem, csp. clear -Htt Hf8. Z.div_mod_to_equations. lia. }
  rewrite H8. cbn [guard_]. rewrite Eb. cbn [mbind option_bind]. rewrite Esb, Ec. cbn [mbind option_bind]. rewrite (proj2 (Z.leb_le 2 n) Hn). cbn [guard_].
  destruct front_cases as [[E H32]|[E H32]]; rewrite E in Od; unfold csp in Ed |- *; rewrite E in *; cbn [total] in *; rewrite Z.add_0_r in *.
  - rewrite Z.eqb_refl in *. cbn [negb] in *. injection Ed as ->. exists md, Ms, Mt. split; [done|]. split; [exact Od|]. split; [congruence|done].
  - rewrite (proj2 (Z.eqb_neq _ (top m))) in * by lia. cbn [negb] in *. rewrite Ed. cbn [mbind option_bind]. replace (top m + topsize m - top m) with (topsize m) by lia.
    destruct (insert_free md _ Ms Mt D (top m) (topsize m) Od) as (m' & Ms' & Mt' & E2 & HE & O'). exists m', Ms', Mt'. split; [done|]. split; [exact O'|]. assert (Ed' : direct m' = direct md) by (by rewrite (le_rest _ _ HE)). apply links_keeps in HE as [-> -> _ ->]. split; [congruence|done].
Qed.

Lemma added_used : used (new_seg :: old_seg :: L1) = used (sg :: L1).
Proof using Type*.
  destruct top_facts as (_ & S & _). unfold used, all_placed. cbn [fmap list_fmap concat]. unfold seg_placed at 1 2 4. cbn [new_seg old_seg sl_start sl_blocks placed app]. rewrite !placed_app, !of_kind_app.
  change (of_kind KUsed (placed _ [(KSys, 48)])) with (@nil (Z * Z)). destruct front_cases as [[-> _]|[-> _]]; cbn [placed of_kind omap list_omap app]; by rewrite ?app_nil_r.
Qed.
End AddSegment.
