(* ===== verification/DlPrepend.v ===== *)
(** Memory in front of a segment: a chunk is taken from it, and the rest is merged with the
    first chunk of the segment, [prepend_alloc]. *)
From stdpp Require Import gmap.
From S2P Require Import Prelude DlBins DlTree DlUnlink DlFit DlSmall DlSpace DlLayout DlInv DlBlocks DlMalloc DlFree DlRun DlSystem DlGrow.
Local Open Scope Z_scope.

(** Stores to memory of no segment. *)
Lemma stores_outside m m' L Ms Mt D : space_ok m L Ms Mt D -> stores m m' -> top_part m' = top_part m -> segs m' = segs m ->
  (forall sg, sg ∈ L -> same_tags (heads_of_space m) (heads_of_space m') (fun z => sl_start sg <= z < sl_limit sg)) ->
  (forall d, d ∈ direct m -> same_tags (heads_of_space m) (heads_of_space m') (fun z => d.1 <= z < d.2)) -> space_ok m' L Ms Mt D.
Proof.
  intros O St [= Et1 Et2] Es Hs Hd. pose proof (st_part _ _ St) as [= E1 E2 E3 E4 E5 E6 E7 E8 E9 E10 E11]. pose proof (ok_least _ _ _ _ _ O) as Hl0. apply (rebuild m m' L L Ms Mt D D O); try done; try lia.
  - intros a k s b _ _. split; apply St.
  - rewrite Forall_forall. intros sg Hsg. apply (seg_keep m m' sg (proj1 (Forall_forall _ _) (ok_segs _ _ _ _ _ O) sg Hsg)); [by apply stores_footer|intros x _ _; by rewrite (stores_mapped _ _ _ St)|lia|done|intros b _; apply St|by apply Hs].
  - intros i j s1 s2. apply O.
  - apply O.
  - rewrite Es. apply O.
  - rewrite Es. apply O.
  - rewrite E11, Forall_forall. intros d Hin. apply (direct_same m m' d (proj1 (Forall_forall _ _) (ok_direct _ _ _ _ _ O) d Hin)); [by apply stores_footer|lia|intros b _; apply St|by apply Hd].
  - rewrite E11. apply O.
  - rewrite E11. apply O.
  - apply O.
  - apply O.
Qed.

Section Prepend.
Context (m : mspace) (L : list seglay) (Ms Mt : gmap Z Z) (D0 D : list (Z * Z)) (O : space_ok m L Ms Mt D0) (tbase tsize : Z) (N : new_region m L tbase tsize).
Context (i : nat) (sg : seglay) (Hi : L !! i = Some sg) (Est : sl_start sg = tbase + tsize) (r : segment) (Hr : segs m !! i = Some r) (H40 : sl_limit sg - tbase < 2 ^ 40).
Context (nb : Z) (Hnb : 32 <= nb) (Hnb8 : nb mod 8 = 0) (Hfit : nb + 32 <= tsize).
Let q : Z := tbase + nb.
Let l : list segment := <[i := Segment (seg_at r) tbase (seg_size r + tsize) (seg_flags r)]> (segs m).
(** The chunk in front has its tags. *)
Context (Hp : tc_head (heads_of_space m tbase) = head_word KUsed nb true) (Hq : tc_prev_foot (heads_of_space m q) = footer m) (HDp : is_Some (read m tbase)).

(** The segment with the blocks [bs] in front of [rest], from the state [m'] after the stores. *)
Lemma prepend_seg m' bs e : stores m m' -> segs m' = l -> (top_part m' = top_part m \/ sl_top sg = true) ->
  let sg' := SegLay tbase bs e (sl_top sg) (sl_limit sg) in (sl_top sg = false -> e = sl_end sg) -> seg_ok m' sg' ->
  same_tags (heads_of_space m) (heads_of_space m') (fun z => (z < tbase \/ sl_limit sg <= z)) ->
  (forall a s, (a, KSys, s) ∈ seg_placed sg -> (a, KSys, s) ∈ seg_placed sg') -> forall D', of_kind KFree (seg_placed sg) ++ D' ≡ₚ of_kind KFree (seg_placed sg') ++ D0 ->
  space_ok m' (<[i := sg']> L) Ms Mt D'.
Proof using Type*.
  intros St Es Htp sg' He S' Hs Hsys D' HP. pose proof (Forall_lookup_1 _ _ _ _ (ok_segs _ _ _ _ _ O) Hi) as S. pose proof (st_part _ _ St) as [= E1 E2 E3 E4 E5 E6 E7 E8 E9 E10 E11].
  destruct (nr_size _ _ _ _ N) as [Hpg Hsz]. assert (Hlt : sl_start sg < sl_limit sg) by (destruct (lay_end _ _ _ _ _ _ _ (so_lay _ _ S)) as (? & ? & _); pose proof (so_limit _ _ S); lia).
  pose proof (ok_least _ _ _ _ _ O) as Hl0. apply (reshape_seg m m' L Ms Mt D0 D' i sg sg' r _ O Hi Hr Es); try done; try lia.
  - destruct (segment_range m L Ms Mt D0 i r O Hr) as (sg2 & Hi2 & [M1 M2 M3 M4] & _). assert (sg2 = sg) as -> by congruence. split; cbn; [done|lia|intros Et; by rewrite M3, He|].
    intros F1 F2. specialize (M4 F1 F2). clear -M4 Hpg. Z.div_mod_to_equations. lia.
  - congruence.
  - destruct (core m') as [? ? ? ? ?]. cbn in *. congruence.
  - intros a k s b _ _. split; apply St.
  - intros j s2 Hne Hj. destruct (other_seg m L Ms Mt D0 i sg j s2 O Hi Hj Hne) as (HA & S2 & Hnt). pose proof (nr_apart _ _ _ _ N s2 (list_elem_of_lookup_2 _ _ _ Hj)) as HA2. unfold regions_apart, sl_region in HA2. cbn in HA2.
    assert (Hlt2 : sl_start s2 < sl_limit s2) by (destruct (lay_end _ _ _ _ _ _ _ (so_lay _ _ S2)) as (? & ? & _); pose proof (so_limit _ _ S2); lia).
    assert (Ha : seg_apart sg' s2) by (unfold seg_apart in *; cbn; lia). split; [|done].
    apply (seg_keep m m' s2 S2); [by apply stores_footer|intros x _ _; by rewrite (stores_mapped _ _ _ St)|lia| |intros b _; apply St|intros x Hx; apply Hs; unfold seg_apart in Ha; cbn in Ha; lia].
    intros Et. destruct Htp as [[= -> ->]|Htp]; [done|]. by rewrite (Hnt Et) in Htp.
  - rewrite Forall_forall. intros d Hin. pose proof (proj1 (Forall_forall _ _) (ok_direct _ _ _ _ _ O) d Hin) as Hd. pose proof (ok_dapart _ _ _ _ _ O d Hin sg (list_elem_of_lookup_2 _ _ _ Hi)) as HA. pose proof (nr_direct _ _ _ _ N d Hin) as HA2.
    unfold regions_apart, sl_region in HA, HA2. cbn in HA, HA2. destruct (do_size _ _ Hd). apply (direct_same m m' d Hd); [by apply stores_footer|lia|intros b _; apply St|intros x Hx; apply Hs; lia].
  - intros d Hin. pose proof (proj1 (Forall_forall _ _) (ok_direct _ _ _ _ _ O) d Hin) as Hd. pose proof (ok_dapart _ _ _ _ _ O d Hin sg (list_elem_of_lookup_2 _ _ _ Hi)) as HA. pose proof (nr_direct _ _ _ _ N d Hin) as HA2.
    unfold regions_apart, sl_region in *. cbn in *. destruct (do_size _ _ Hd). lia.
Qed.

Lemma prepend_covers m' : stores m m' -> covers m' tbase (sl_limit sg).
Proof using O N Hi Est.
  intros St x X1 X2 X3. rewrite (stores_mapped _ _ _ St). pose proof (Forall_lookup_1 _ _ _ _ (ok_segs _ _ _ _ _ O) Hi) as S. destruct (so_start _ _ S) as (H8 & _). destruct (Z.le_gt_cases (x + 8) (tbase + tsize)) as [Hle|Hgt].
  - by apply (nr_covers _ _ _ _ N).
  - apply (so_covers _ _ S); [done| |done]. rewrite Est in *. clear -X1 H8 Hgt. Z.div_mod_to_equations. lia.
Qed.

(** A free chunk of [fs] bytes is behind it, merged with the first chunk when that was free. *)
Lemma prepend_free m' pre k2 s2 b2 : let y := sl_start sg + total pre in let fs := tsize - nb + total pre in
  sl_blocks sg = pre ++ (k2, s2) :: b2 -> in_use k2 = true -> (forall a s, (a, KSys, s) ∉ placed (sl_start sg) pre) -> D0 ≡ₚ of_kind KFree (placed (sl_start sg) pre) ++ D ->
  stores m m' -> segs m' = l -> top_part m' = top_part m -> is_Some (read m' q) -> tags (heads_of_space m' q) = (footer m, head_word KFree fs true) -> tags (heads_of_space m' y) = (fs, head_word k2 s2 false) ->
  same_tags (heads_of_space m) (heads_of_space m') (fun z => z <> q /\ z <> y) ->
  exists L', space_ok m' L' Ms Mt ((q, fs) :: D) /\ used L' ++ of_kind KUsed (placed (sl_start sg) pre) ≡ₚ (tbase, nb) :: used L.
Proof using Type*.
  intros y fs Hb Hk2 Hsys HD St Es Etp HDq [Hqf Hqh]%tags_pair [Hyf Hyh]%tags_pair Hs. pose proof (Forall_lookup_1 _ _ _ _ (ok_segs _ _ _ _ _ O) Hi) as S. destruct (so_start _ _ S) as (Hs8 & _). destruct (nr_at _ _ _ _ N) as (Hb0 & Hb8 & Hbl).
  pose proof (st_part _ _ St) as [= E1 E2 E3 E4 E5 E6 E7 E8 E9 E10 E11]. pose proof (so_lay _ _ S) as HL. rewrite Hb in HL. apply lay_app in HL as (c & p2 & H1 & H2). destruct (lay_end _ _ _ _ _ _ _ H1) as (-> & Ht0 & Ht8). fold y in H1, H2.
  assert (Hfs8 : fs mod 8 = 0) by (unfold fs; destruct (nr_size _ _ _ _ N) as [Hpg _]; clear -Hpg Hnb8 Ht8; Z.div_mod_to_equations; lia).
  assert (Hy : y < sl_end sg) by (destruct H2 as ((_ & _ & ?) & _ & H3); destruct (lay_end _ _ _ _ _ _ _ H3) as (? & ? & _); lia). pose proof (so_limit _ _ S) as Hlim.
  set (bs := (KUsed, nb) :: (KFree, fs) :: (k2, s2) :: b2). set (sg' := SegLay tbase bs (sl_end sg) (sl_top sg) (sl_limit sg)).
  assert (Eq : tbase + nb = q) by done. assert (Ey : q + fs = y) by (unfold q, fs, y; lia). assert (Epl : seg_placed sg' = (tbase, KUsed, nb) :: (q, KFree, fs) :: placed y ((k2, s2) :: b2)) by (unfold seg_placed, sg', bs; cbn; by rewrite Eq, Ey).
  assert (Epl0 : seg_placed sg = placed (sl_start sg) pre ++ placed y ((k2, s2) :: b2)) by (unfold seg_placed; by rewrite Hb, placed_app).
  assert (Hend : tags (heads_of_space m' (sl_end sg)) = tags (heads_of_space m (sl_end sg))) by (apply Hs; unfold q, y in *; lia). injection Hend as Hef Heh.
  assert (S' : seg_ok m' sg').
  { split; cbn [sg' sl_start sl_blocks sl_end sl_limit sl_top]; try done; try lia.
    - rewrite (stores_footer _ _ St). unfold bs. cbn [lay]. rewrite Eq, Ey. cbn [in_use]. assert (Et : tags (heads_of_space m' tbase) = tags (heads_of_space m tbase)) by (apply Hs; unfold q, y in *; lia). injection Et as _ Et. rewrite Et.
      split; [done|]. split; [done|]. split; [split; [done|split; [done|unfold fs; lia]]|]. split; [done|]. apply (lay_repin (heads_of_space m) _ _ p2 false); try done. intros x Hx. apply Hs. unfold q, y in *. lia.
    - by apply prepend_covers.
    - pose proof (so_size _ _ S). lia.
    - apply S.
    - pose proof (so_end _ _ S) as He. injection Etp as -> ->. destruct (sl_top sg).
      + destruct He as (Ee & G1 & G2 & G3). rewrite <- Ee in *. rewrite Heh. split; [done|]. split; [done|]. split; [by apply St|done].
      + rewrite Heh. destruct He as (G1 & b0 & Eb). split; [done|]. rewrite Hb in Eb. destruct (last_sys pre ((k2, s2) :: b2) b0 48 ltac:(done) Eb) as (b' & Eb'). exists ((KUsed, nb) :: (KFree, fs) :: b'). unfold bs. by rewrite Eb'.
    - intros x k s Hx. rewrite Epl in Hx. rewrite !elem_of_cons in Hx. destruct Hx as [Hx|[Hx|Hx]]; [injection Hx as -> _ _; by apply St|by injection Hx as -> _ _|]. apply St, (so_dom _ _ S x k s). rewrite Epl0. apply elem_of_app. by right.
    - intros Htp. pose proof (so_end _ _ S) as He. rewrite Htp in He. destruct He as (Ee & _ & _ & _ & G0 & _). injection Etp as Etp1 Etp2. apply (foot_keep m); [by apply (so_foot _ _ S)|by rewrite Etp1, Etp2|apply St|]. apply Hs. unfold q, y in *. lia. }
  exists (<[i := sg']> L). split.
  - apply (prepend_seg m' bs (sl_end sg)); try done; [by left|intros z Hz; apply Hs; unfold q, y in *; lia|intros a s Ha; fold sg'; rewrite Epl0 in Ha; rewrite Epl; apply elem_of_app in Ha as [Ha|Ha]; [by apply Hsys in Ha|do 2 right; done]|].
    fold sg'. rewrite Epl, Epl0, HD, of_kind_app. change (of_kind KFree ((tbase, KUsed, nb) :: (q, KFree, fs) :: ?x)) with ((q, fs) :: of_kind KFree x). solve_Permutation.
  - destruct (placed_insert L i sg Hi) as (rest & R1 & R2). unfold used. rewrite R1, (R2 sg'), Epl, Epl0, !of_kind_app. change (of_kind KUsed ((tbase, KUsed, nb) :: (q, KFree, fs) :: ?x)) with ((tbase, nb) :: of_kind KUsed x). solve_Permutation.
Qed.

(** The rest is merged with the top chunk. *)
Lemma prepend_top m' : let ts := topsize m + (tsize - nb) in sl_blocks sg = [] -> sl_top sg = true -> D0 = D ->
  stores m m' -> segs m' = l -> top_part m' = (q, ts) -> is_Some (read m' q) -> tags (heads_of_space m' q) = (footer m, ts + 1) -> same_tags (heads_of_space m) (heads_of_space m') (fun z => z <> q) ->
  exists L', space_ok m' L' Ms Mt D /\ used L' ≡ₚ (tbase, nb) :: used L.
Proof using Type*.
  intros ts Hb Htop HD St Es [= Et1 Et2] HDq [Hqf Hqh]%tags_pair Hs. pose proof (Forall_lookup_1 _ _ _ _ (ok_segs _ _ _ _ _ O) Hi) as S. destruct (nr_at _ _ _ _ N) as (Hb0 & Hb8 & Hbl). destruct (nr_size _ _ _ _ N) as [Hpg Hsz].
  pose proof (st_part _ _ St) as [= E1 E2 E3 E4 E5 E6 E7 E8 E9 E10 E11]. pose proof (so_end _ _ S) as He. rewrite Htop in He. destruct He as (Ee & _ & _ & Ht8 & Ht0 & Hlim). change TOP_FOOT_SIZE with 80 in Hlim.
  pose proof (so_lay _ _ S) as HL. rewrite Hb in HL. destruct HL as [Ese _]. set (bs := [(KUsed, nb)]). set (sg' := SegLay tbase bs q (sl_top sg) (sl_limit sg)). assert (Epl : seg_placed sg' = [(tbase, KUsed, nb)]) by done.
  assert (Epl0 : seg_placed sg = []) by (unfold seg_placed; by rewrite Hb).
  assert (S' : seg_ok m' sg').
  { split; cbn [sg' sl_start sl_blocks sl_end sl_limit sl_top]; try done; try (unfold q; lia).
    - rewrite (stores_footer _ _ St). unfold bs. cbn [lay in_use]. assert (Et : tags (heads_of_space m' tbase) = tags (heads_of_space m tbase)) by (apply Hs; unfold q; lia). injection Et as _ Et. rewrite Et. done.
    - by apply prepend_covers.
    - pose proof (so_size _ _ S). lia.
    - apply S.
    - rewrite Htop, Et1, Et2, Hqh. split; [done|]. split; [done|]. split; [done|]. change TOP_FOOT_SIZE with 80. split; [unfold ts; clear -Ht8 Hpg Hnb8; Z.div_mod_to_equations; lia|]. split; unfold ts, q; lia.
    - intros x k s Hx. rewrite Epl in Hx. apply list_elem_of_singleton in Hx. injection Hx as -> _ _. by apply St.
    - intros _. apply (foot_keep m); [by apply (so_foot _ _ S)|rewrite Et1, Et2; unfold q, ts; lia|apply St|]. apply Hs. unfold q. lia. }
  exists (<[i := sg']> L). split.
  - apply (prepend_seg m' bs q); try done; [by right|congruence|intros z Hz; apply Hs; unfold q; lia|intros a s Ha; rewrite Epl0 in Ha; by apply elem_of_nil in Ha|]. fold sg'. by rewrite Epl, Epl0, HD.
  - destruct (placed_insert L i sg Hi) as (rest & R1 & R2). unfold used. rewrite R1, (R2 sg'), Epl, Epl0, !of_kind_app. done.
Qed.
End Prepend.

(** ** [prepend_alloc] *)
Lemma unpin_free k s : in_use k = true -> s mod 8 = 0 -> 0 <= s < 2 ^ 63 -> Z.land (head_word k s false) (u64 (Z.lnot PINUSE_BIT)) = head_word k s false.
Proof.
  intros Hk Hs Hr. rewrite <- (unpin_head k s) by done. by rewrite <- Z.land_assoc, Z.land_diag.
Qed.

Lemma with_segs_twice l l' m : with_segs l (with_segs l' m) = with_segs l m.
Proof. done. Qed.
Lemma with_segs_self m : with_segs (segs m) m = m.
Proof. by destruct m. Qed.

Lemma on_core_segs f l m : on_core f (with_segs l m) = with_segs l <$> on_core f m.
Proof. unfold on_core. cbn. by destruct (f (core m)). Qed.
Lemma unlink_chunk_segs p s l m : unlink_chunk p s (with_segs l m) = with_segs l <$> unlink_chunk p s m.
Proof.
  unfold unlink_chunk. destruct (is_small s); [|apply on_core_segs]. unfold unlink_small_chunk, store. change (read (with_segs l m)) with (read m). destruct (read m p) as [c|]; [|done]. cbn [mbind option_bind].
  change (smallbin_at (with_segs l m)) with (smallbin_at m). change (core (with_segs l m)) with (core m). cbv zeta. unfold guard_. destruct (_ && _ && _); [|done]. destruct (_ =? _); [done|]. destruct (_ && _); [|done].
  rewrite on_core_segs. destruct (on_core _ m) as [m1|]; [|done]. apply on_core_segs.
Qed.

Section PrependAlloc.
Context (m : mspace) (L : list seglay) (Ms Mt : gmap Z Z) (HI : space_inv m L Ms Mt) (tbase tsize : Z) (N : new_region m L tbase tsize).
Context (i : nat) (sg : seglay) (Hi : L !! i = Some sg) (Est : sl_start sg = tbase + tsize) (r : segment) (Hr : segs m !! i = Some r) (H40 : sl_limit sg - tbase < 2 ^ 40).
Context (nb : Z) (Hnb : 32 <= nb) (Hnb8 : nb mod 8 = 0) (Hfit : nb + 32 <= tsize).
Let q : Z := tbase + nb.
Let l : list segment := <[i := Segment (seg_at r) tbase (seg_size r + tsize) (seg_flags r)]> (segs m).
Definition prepended (x : option (mspace * Z)) : Prop := exists m' L' Ms' Mt', x = Some (m', chunk2mem tbase) /\ space_inv m' L' Ms' Mt' /\ used L' ≡ₚ (tbase, nb) :: used L.

(** The space after the chunk in front was marked, with the records as they were. *)
Record front_marked (ma : mspace) : Prop := {
  fm_run : set_size_and_pinuse_of_inuse_chunk tbase nb (with_segs l m) = Some (with_segs l ma);
  fm_inv : space_inv ma L Ms Mt; fm_region : new_region ma L tbase tsize; fm_stores : stores m ma; fm_same : segs ma = segs m /\ top_part ma = top_part m /\ (dv ma, dvsize ma) = (dv m, dvsize m);
  fm_head : tc_head (heads_of_space ma tbase) = head_word KUsed nb true; fm_foot : tc_prev_foot (heads_of_space ma q) = footer ma; fm_dom : is_Some (read ma tbase) }.

Lemma mark_front : exists ma, front_marked ma.
Proof using Type*.
  destruct HI as (O & Hd1 & Hd0). destruct (nr_at _ _ _ _ N) as (Hb0 & Hb8 & Hbl). destruct (nr_size _ _ _ _ N) as [Hpg Hsz]. assert (Hq8 : q mod 8 = 0) by (unfold q; clear -Hb8 Hnb8; Z.div_mod_to_equations; lia).
  destruct (set_used_run (with_segs l m) (with_segs l m) _ tbase nb (tagged_self _)) as (ma' & g & Ea & [T R] & HD & H1 & H2 & H3); [apply (nr_covers _ _ _ _ N); [by rewrite Z.add_mod, Hb8|lia|lia]|apply (nr_covers _ _ _ _ N); [done|lia|lia]|lia|done|].
  destruct (tagged_top _ _ _ T) as [Et Es]. pose proof (stores_tagged _ _ _ T) as St. apply tags_pair in H1 as [_ H1], H2 as [H2 _]. set (ma := with_segs (segs m) ma'). assert (Sa : stores m ma) by (split; apply St).
  assert (Hv : forall z, heads_of_space ma z = g z) by apply (tg_view _ _ _ T). assert (Ea' : ma' = with_segs l ma) by (unfold ma; rewrite with_segs_twice; rewrite <- (with_segs_self ma') at 1; by rewrite Es).
  assert (Esm : segs ma = segs m) by done. assert (HDa : is_Some (read ma tbase)) by done. assert (Etm : top_part ma = top_part m) by done. clearbody ma. pose proof (st_part _ _ Sa) as [= F1 F2 F3 F4 F5 F6 F7 F8 F9 F10 F11].
  assert (Oa : space_ok ma L Ms Mt (dv_list m)).
  { apply (stores_outside m ma L Ms Mt _ O Sa Etm Esm); [intros s2 H2s z Hz|intros d Hd z Hz]; rewrite Hv; apply H3.
    - pose proof (nr_apart _ _ _ _ N s2 H2s) as HA. unfold regions_apart, sl_region in HA. cbn in HA. lia.
    - pose proof (nr_direct _ _ _ _ N d Hd) as HA. unfold regions_apart in HA. cbn in HA. lia. }
  exists ma. split; try done.
  - by rewrite <- Ea'.
  - unfold space_inv, dv_list. rewrite F8, F9. done.
  - destruct N as [N1 N2 N3 N4 N5]. split; [by rewrite F7|done|intros x ???; rewrite (stores_mapped _ _ _ Sa); by apply N3|done|by rewrite F11].
  - split; [done|]. split; [done|]. by rewrite F8, F9.
  - by rewrite Hv, H1.
  - rewrite Hv. fold q in H2. rewrite H2. by rewrite (stores_footer m ma).
Qed.

Lemma prepend_used k s bs ma : front_marked ma -> sl_blocks sg = (k, s) :: bs -> in_use k = true -> prepended (m' ← (m' ← set_free_with_pinuse q (tsize - nb) (sl_start sg) (with_segs l ma); insert_chunk q (tsize - nb) m'); Some (m', chunk2mem tbase)).
Proof using Type*.
  intros F Hb Hk. destruct (fm_inv _ F) as (O & Hd1 & Hd0). destruct (fm_same _ F) as (Es & Et & Ed). pose proof (Forall_lookup_1 _ _ _ _ (ok_segs _ _ _ _ _ O) Hi) as S. destruct (nr_at _ _ _ _ N) as (Hb0 & Hb8 & Hbl). destruct (nr_size _ _ _ _ N) as [Hpg Hsz].
  pose proof (so_lay _ _ S) as HL. rewrite Hb in HL. destruct HL as ((Hh & H8 & H32) & _ & HL). pose proof (prepend_covers ma L Ms Mt _ O tbase tsize (fm_region _ F) i sg Hi Est ma (stores_refl ma)) as Hcov. pose proof (so_limit _ _ S) as Hlm. destruct (so_start _ _ S) as (Hs8 & _).
  destruct (lay_end _ _ _ _ _ _ _ HL) as (He1 & He2 & _). pose proof (so_size _ _ S) as H40s.
  assert (Hq8 : q mod 8 = 0 /\ (tsize - nb) mod 8 = 0) by (unfold q; clear -Hb8 Hnb8 Hpg; split; Z.div_mod_to_equations; lia). destruct Hq8 as [Hq8 Hf8]. assert (Ey : q + (tsize - nb) = sl_start sg) by (unfold q; lia).
  destruct (set_free_pin_run (with_segs l ma) (with_segs l ma) _ q (tsize - nb) (tagged_self _)) as (mb & g & Eb & [T R] & HD & H1 & H2 & H3); rewrite ?Ey;
    [apply Hcov; [by rewrite Z.add_mod, Hq8|unfold q; lia|unfold q; lia]|apply Hcov; [by rewrite Z.add_mod, Hs8|lia|lia]|apply Hcov; [done|lia|lia]|lia|done|]. rewrite Ey in Eb, H2, H3. rewrite Eb. cbn [mbind option_bind].
  destruct (tagged_top _ _ _ T) as [Etb Esb]. pose proof (stores_tagged _ _ _ T) as St. pose proof (tg_view _ _ _ T) as Hv.
  destruct (prepend_free ma L Ms Mt (dv_list ma) (dv_list ma) O tbase tsize (fm_region _ F) i sg Hi Est r ltac:(by rewrite Es) H40 nb Hnb Hnb8 Hfit (fm_head _ F) (fm_foot _ F) (fm_dom _ F) mb [] k s bs) as (L' & O' & HU); try done.
  - by intros a t ?%elem_of_nil.
  - split; apply St.
  - by rewrite Esb, Es.
  - cbn [total]. rewrite Z.add_0_r. fold q. rewrite Hv, H1. change (heads_of_space (with_segs l ma) q) with (heads_of_space ma q). by rewrite (fm_foot _ F).
  - cbn [total]. rewrite !Z.add_0_r, Hv, H2. change (heads_of_space (with_segs l ma) (sl_start sg)) with (heads_of_space ma (sl_start sg)). by rewrite Hh, unpin_head by (done || lia).
  - intros z Hz. cbn [total] in Hz. rewrite Z.add_0_r in Hz. rewrite Hv. by apply H3.
  - cbn [total placed of_kind omap list_omap app] in *. rewrite Z.add_0_r in O'. destruct (insert_free mb L' Ms Mt _ q (tsize - nb) O') as (mc & Ms' & Mt' & Ec & HE & O2). rewrite Ec. cbn [mbind option_bind]. exists mc, L', Ms', Mt'. split; [done|].
    rewrite app_nil_r in HU. split; [|done]. pose proof (st_part _ _ St) as [= F1 F2 F3 F4 F5 F6 F7 F8 F9 F10 F11]. apply links_keeps in HE as [G1 G2 _ _]. unfold space_inv, dv_list in *. rewrite G1, G2, F8, F9. cbn [dv dvsize with_segs]. done.
Qed.

Lemma prepend_to_top ma : front_marked ma -> sl_blocks sg = [] -> let ts := topsize ma + (tsize - nb) in
  sl_start sg = top ma /\ prepended (m' ← put_head q (fun _ => Z.lor ts PINUSE_BIT) (with_top q ts (with_segs l ma)); Some (m', chunk2mem tbase)).
Proof using Type*.
  intros F Hb ts. destruct (fm_inv _ F) as (O & Hd1 & Hd0). destruct (fm_same _ F) as (Es & Et & Ed). pose proof (Forall_lookup_1 _ _ _ _ (ok_segs _ _ _ _ _ O) Hi) as S. destruct (nr_at _ _ _ _ N) as (Hb0 & Hb8 & Hbl). destruct (nr_size _ _ _ _ N) as [Hpg Hsz].
  assert (Htop : sl_top sg = true) by (pose proof (so_end _ _ S) as He; destruct (sl_top sg); [done|]; destruct He as (_ & b0 & Eb); rewrite Hb in Eb; by destruct b0).
  pose proof (so_lay _ _ S) as HL. rewrite Hb in HL. destruct HL as [Ese _]. pose proof (so_end _ _ S) as He. rewrite Htop in He. destruct He as (Ee & _ & _ & Ht8 & Ht0 & Hlim). split; [congruence|].
  pose proof (prepend_covers ma L Ms Mt _ O tbase tsize (fm_region _ F) i sg Hi Est ma (stores_refl ma)) as Hcov. assert (Hq8 : q mod 8 = 0 /\ ts mod 8 = 0) by (unfold q, ts; clear -Hb8 Hnb8 Hpg Ht8; split; Z.div_mod_to_equations; lia). destruct Hq8 as [Hq8 Hts8].
  destruct (put_head_step (with_top q ts (with_segs l ma)) (with_top q ts (with_segs l ma)) _ q (fun _ => Z.lor ts PINUSE_BIT) (tagged_self _)) as (mb & -> & T & HD & R); [apply Hcov; [by rewrite Z.add_mod, Hq8|unfold q; lia|pose proof (so_limit _ _ S); unfold q; lia]|]. cbn [mbind option_bind].
  destruct (tagged_top _ _ _ T) as [Etb Esb]. pose proof (stores_tagged _ _ _ T) as St. pose proof (tg_view _ _ _ T) as Hv.
  destruct (prepend_top ma L Ms Mt (dv_list ma) (dv_list ma) O tbase tsize (fm_region _ F) i sg Hi Est r ltac:(by rewrite Es) H40 nb Hnb Hnb8 Hfit (fm_head _ F) (fm_foot _ F) (fm_dom _ F) mb) as (L' & O' & HU); try done.
  - split; apply St.
  - by rewrite Esb, ?Es.
  - fold q ts. rewrite Hv, fupd_eq. unfold tags. cbn [tc_prev_foot tc_head set_head]. rewrite free_head by done. by rewrite <- (fm_foot _ F).
  - intros z Hz. by rewrite Hv, fupd_tag.
  - exists mb, L', Ms, Mt. split; [done|]. split; [|done]. pose proof (st_part _ _ St) as [= F1 F2 F3 F4 F5 F6 F7 F8 F9 F10 F11]. unfold space_inv, dv_list in *. rewrite F8, F9. done.
Qed.

(** The first chunk is free: what is behind it. *)
Lemma first_free ma s bs : front_marked ma -> sl_blocks sg = (KFree, s) :: bs -> exists k2 s2 b2, bs = (k2, s2) :: b2 /\ in_use k2 = true /\ (sl_start sg, KFree, s) ∈ all_placed L /\ s mod 8 = 0 /\ 32 <= s /\
  tc_head (heads_of_space ma (sl_start sg)) = head_word KFree s true /\ tc_head (heads_of_space ma (sl_start sg + s)) = head_word k2 s2 false /\ s2 mod 8 = 0 /\ 0 <= s2 < 2 ^ 63 /\ sl_start sg + s + 16 <= sl_limit sg /\ (sl_start sg + s) mod 8 = 0.
Proof using Type*.
  intros F Hb. destruct (fm_inv _ F) as (O & _). pose proof (Forall_lookup_1 _ _ _ _ (ok_segs _ _ _ _ _ O) Hi) as S. pose proof (so_lay _ _ S) as HL. rewrite Hb in HL. destruct HL as ((Hh & H8 & H32) & _ & HL).
  destruct bs as [|[k2 s2] b2]; [by destruct HL|]. destruct HL as ((Hh2 & H82 & H322) & Hk2 & HL). destruct (lay_end _ _ _ _ _ _ _ HL) as (He1 & He2 & _). pose proof (so_limit _ _ S). pose proof (so_size _ _ S). destruct (so_start _ _ S) as (Hs8 & _).
  exists k2, s2, b2. split; [done|]. split; [destruct k2; [done|done|by destruct Hk2]|]. split; [apply in_placed; exists i, sg; split; [done|]; unfold seg_placed; rewrite Hb; by left|]. split_and!; try done; try lia. by rewrite Z.add_mod, Hs8, H8.
Qed.

Lemma prepend_dv ma s bs : front_marked ma -> sl_blocks sg = (KFree, s) :: bs -> sl_start sg = dv ma -> let ds := dvsize ma + (tsize - nb) in
  prepended (m' ← set_size_and_pinuse_of_free_chunk q ds (with_dv q ds (with_segs l ma)); Some (m', chunk2mem tbase)).
Proof using Type*.
  intros F Hb Edv ds. destruct (first_free ma s bs F Hb) as (k2 & s2 & b2 & -> & Hk2 & Hpl & H8 & H32 & _ & Hh2 & H82 & Hs2 & Hend & Hy8). destruct (fm_inv _ F) as (O & Hd1 & Hd0). destruct (fm_same _ F) as (Es & Et & Ed).
  destruct (nr_at _ _ _ _ N) as (Hb0 & Hb8 & Hbl). destruct (nr_size _ _ _ _ N) as [Hpg Hsz]. destruct (dv_at ma L Ms Mt _ s O Hpl Hd0 Edv) as [Es' Hne]. destruct (dv_cases ma) as [[? _]|[_ Elist]]; [done|]. rewrite Elist in O.
  pose proof (prepend_covers ma L Ms Mt _ O tbase tsize (fm_region _ F) i sg Hi Est ma (stores_refl ma)) as Hcov. assert (Hq8 : q mod 8 = 0 /\ ds mod 8 = 0) by (unfold q, ds; rewrite Es'; clear -Hb8 Hnb8 Hpg H8; split; Z.div_mod_to_equations; lia). destruct Hq8 as [Hq8 Hds8].
  assert (Ey : q + ds = sl_start sg + s) by (unfold q, ds; lia). set (m2 := with_dv q ds ma). assert (O2 : space_ok m2 L Ms Mt [(dv ma, dvsize ma)]) by (by apply (space_ok_fields ma)).
  assert (N2 : new_region m2 L tbase tsize) by (destruct (fm_region _ F); by split).
  destruct (set_free_run (with_segs l m2) (with_segs l m2) _ q ds (tagged_self _)) as (mb & g & Eb & [T R] & HD & H1 & H2 & H3); rewrite ?Ey; [apply Hcov; [by rewrite Z.add_mod, Hq8|unfold q; lia|unfold q; lia]|apply Hcov; [done|lia|lia]|unfold ds; lia|done|].
  rewrite Ey in H2, H3. change (with_dv q ds (with_segs l ma)) with (with_segs l m2). rewrite Eb. cbn [mbind option_bind]. destruct (tagged_top _ _ _ T) as [Etb Esb]. pose proof (stores_tagged _ _ _ T) as St. pose proof (tg_view _ _ _ T) as Hv.
  destruct (prepend_free m2 L Ms Mt _ [] O2 tbase tsize N2 i sg Hi Est r ltac:(by rewrite <- Es in Hr) H40 nb Hnb Hnb8 Hfit (fm_head _ F) (fm_foot _ F) (fm_dom _ F) mb [(KFree, s)] k2 s2 b2) as (L' & O' & HU); cbn [total]; rewrite ?Z.add_0_r; try done.
  - by intros a t ?%list_elem_of_singleton.
  - by rewrite Es', Edv.
  - split; apply St.
  - rewrite Esb. change (segs m2) with (segs ma). by rewrite Es.
  - fold q. rewrite Hv, H1. change (heads_of_space (with_segs l m2) q) with (heads_of_space ma q). rewrite (fm_foot _ F). do 2 f_equal. unfold ds. lia.
  - rewrite Hv, H2. f_equal; [unfold ds; lia|done].
  - intros z Hz. rewrite Hv. by apply H3.
  - cbn [total placed of_kind omap list_omap app decide] in *. rewrite app_nil_r in HU. exists mb, L', Ms, Mt. split; [done|]. split; [|done]. pose proof (st_part _ _ St) as [= F1 F2 F3 F4 F5 F6 F7 F8 F9 F10 F11].
    unfold space_inv, dv_list. rewrite F8, F9. cbn [dv dvsize with_segs with_dv m2]. rewrite (proj2 (Z.eqb_neq ds 0)) by (unfold ds; lia). replace ds with (tsize - nb + (s + 0)) by (unfold ds; lia). split; [exact O'|]. lia.
Qed.

Lemma prepend_bin ma s bs : front_marked ma -> sl_blocks sg = (KFree, s) :: bs -> sl_start sg <> dv ma -> let fs := tsize - nb + s in
  prepended (m' ← (m' ← unlink_chunk (sl_start sg) s (with_segs l ma); m' ← set_free_with_pinuse q fs (sl_start sg + s) m'; insert_chunk q fs m'); Some (m', chunk2mem tbase)).
Proof using Type*.
  intros F Hb Edv fs. destruct (first_free ma s bs F Hb) as (k2 & s2 & b2 & -> & Hk2 & Hpl & H8 & H32 & _ & Hh2 & H82 & Hs2 & Hend & Hy8). destruct (fm_inv _ F) as (O & Hd1 & Hd0). destruct (fm_same _ F) as (Es & Et & Ed).
  destruct (nr_at _ _ _ _ N) as (Hb0 & Hb8 & Hbl). destruct (nr_size _ _ _ _ N) as [Hpg Hsz].
  assert (Hbin : (sl_start sg, s) ∈ map_to_list Ms ++ map_to_list Mt).
  { apply of_kind_in in Hpl. rewrite (ok_free _ _ _ _ _ O), app_assoc in Hpl. apply elem_of_app in Hpl as [?|Hpl]; [done|]. by apply dv_list_at in Hpl. }
  destruct (unlink_free ma L Ms Mt _ O _ _ Hbin) as (mb & Ms' & Mt' & Eu & HE & Ob). rewrite unlink_chunk_segs, Eu. cbn [fmap option_fmap option_map mbind option_bind].
  pose proof (le_rest _ _ HE) as Er. assert (Ht : forall z, tags (heads_of_space mb z) = tags (heads_of_space ma z)) by (intros z; apply keeps_tags_heads, HE).
  assert (Ef : footer mb = footer ma /\ segs mb = segs ma /\ (dv mb, dvsize mb) = (dv ma, dvsize ma)) by (by rewrite Er). destruct Ef as (Ef & Esb & [= Ed1 Ed2]).
  assert (Nb : new_region mb L tbase tsize). { destruct (fm_region _ F) as [N1 N2 N3 N4 N5]. split; [by rewrite (le_least _ _ HE)|done|intros x ???; unfold mapped; rewrite Er; by apply N3|done|by rewrite Er]. }
  pose proof (prepend_covers mb L Ms' Mt' _ Ob tbase tsize Nb i sg Hi Est mb (stores_refl mb)) as Hcov. assert (Hq8 : q mod 8 = 0 /\ fs mod 8 = 0) by (unfold q, fs; clear -Hb8 Hnb8 Hpg H8; split; Z.div_mod_to_equations; lia). destruct Hq8 as [Hq8 Hfs8].
  assert (Ey : q + fs = sl_start sg + s) by (unfold q, fs; lia).
  destruct (set_free_pin_run (with_segs l mb) (with_segs l mb) _ q fs (tagged_self _)) as (mc & g & Ec & [T R] & HD & H1 & H2 & H3); rewrite ?Ey;
    [apply Hcov; [by rewrite Z.add_mod, Hq8|unfold q; lia|unfold q; lia]|apply Hcov; [clear -Hy8; Z.div_mod_to_equations; lia|lia|lia]|apply Hcov; [done|lia|lia]|unfold fs; lia|done|]. rewrite Ey in Ec, H2, H3. rewrite Ec. cbn [mbind option_bind].
  destruct (tagged_top _ _ _ T) as [Etc Esc]. pose proof (stores_tagged _ _ _ T) as St. pose proof (tg_view _ _ _ T) as Hv. pose proof (fm_head _ F) as Fh. pose proof (fm_foot _ F) as Ff. pose proof (Ht tbase) as [= _ Ht1]. pose proof (Ht q) as [= Ht2 _]. pose proof (Ht (sl_start sg + s)) as [= _ Ht3].
  destruct (prepend_free mb L Ms' Mt' _ (dv_list ma) Ob tbase tsize Nb i sg Hi Est r ltac:(by rewrite Esb, Es) H40 nb Hnb Hnb8 Hfit) with (m' := mc) (pre := [(KFree, s)]) (k2 := k2) (s2 := s2) (b2 := b2) as (L' & O' & HU); cbn [total]; rewrite ?Z.add_0_r; try done.
  - by rewrite Ht1.
  - fold q. by rewrite Ht2, Ff, Ef.
  - apply (keeps_tags_dom (core ma) (core mb) tbase (le_tags _ _ HE)), (fm_dom _ F).
  - by intros a t ?%list_elem_of_singleton.
  - split; apply St.
  - by rewrite Esc, Esb, Es.
  - fold q. rewrite Hv, H1. change (heads_of_space (with_segs l mb) q) with (heads_of_space mb q). by rewrite Ht2, Ff, Ef.
  - rewrite Hv, H2. change (heads_of_space (with_segs l mb) (sl_start sg + s)) with (heads_of_space mb (sl_start sg + s)). by rewrite Ht3, Hh2, unpin_free.
  - intros z Hz. rewrite Hv. by apply H3.
  - fold q fs in O'. cbn [placed of_kind omap list_omap app decide total] in *. rewrite Z.add_0_r, app_nil_r in *. fold fs in O'. destruct (insert_free mc L' Ms' Mt' _ q fs O') as (md & Ms2 & Mt2 & Ei & HE2 & O2). rewrite Ei. cbn [mbind option_bind]. exists md, L', Ms2, Mt2.
    split; [done|]. split; [|done]. pose proof (st_part _ _ St) as [= F1 F2 F3 F4 F5 F6 F7 F8 F9 F10 F11]. apply links_keeps in HE2 as [G1 G2 _ _]. unfold space_inv, dv_list in *. rewrite G1, G2, F8, F9. cbn [dv dvsize with_segs]. rewrite Ed1, Ed2. done.
Qed.

Lemma prepend_alloc_ok : prepended (prepend_alloc tbase (tbase + tsize) nb (with_segs l m)).
Proof using Type*.
  destruct mark_front as (ma & F). pose proof (fm_inv _ F) as (O & Hd1 & Hd0). destruct (nr_at _ _ _ _ N) as (Hb0 & Hb8 & Hbl). destruct (nr_size _ _ _ _ N) as [Hpg Hsz]. pose proof (Forall_lookup_1 _ _ _ _ (ok_segs _ _ _ _ _ O) Hi) as S.
  assert (Hs8 : (tbase + tsize) mod 8 = 0) by (clear -Hb8 Hpg; Z.div_mod_to_equations; lia). unfold prepend_alloc. rewrite (aligned_offset tbase Hb8), (aligned_offset _ Hs8), !Z.add_0_r. rewrite (fm_run _ F). cbn [mbind option_bind].
  replace (tbase + tsize - tbase - nb) with (tsize - nb) by lia. rewrite (proj2 (Z.ltb_lt (tbase + nb) (tbase + tsize))) by lia. cbn [guard_]. rewrite <- Est. change (read (with_segs l ma)) with (read ma). change (top (with_segs l ma)) with (top ma). change (dv (with_segs l ma)) with (dv ma).
  change (topsize (with_segs l ma)) with (topsize ma). change (dvsize (with_segs l ma)) with (dvsize ma). change MIN_CHUNK_SIZE with 32. fold q. destruct (sl_blocks sg) as [|[k s] bs] eqn:Hb.
  - destruct (prepend_to_top ma F Hb) as [Etop HP]. destruct (top_seg ma L Ms Mt _ O) as (_ & _ & _ & _ & _ & _ & Ht8 & _ & _ & _ & _ & Hh & HDt). rewrite Etop, (space_read ma ma _ (top ma) (space_is_self ma) HDt). cbn [mbind option_bind].
    destruct (head_flags KFree (topsize ma) true (heads_of_space ma (top ma)) Hh Ht8) as (_ & -> & _). cbn [guard_]. rewrite (proj2 (Z.leb_le 32 (tsize - nb))) by lia. cbn [guard_]. rewrite Z.eqb_refl. exact HP.
  - assert (Hpl : (sl_start sg, k, s) ∈ all_placed L) by (apply in_placed; exists i, sg; split; [done|]; unfold seg_placed; rewrite Hb; by left). destruct (space_block ma L Ms Mt _ _ _ _ O Hpl) as (H32 & H8 & _ & (HD & _ & Hne) & Esz).
    pose proof (so_lay _ _ S) as HL. rewrite Hb in HL. destruct HL as ((Hh & _) & _). rewrite (space_read ma ma _ (sl_start sg) (space_is_self ma) HD). cbn [mbind option_bind]. destruct (head_flags k s true _ Hh H8) as (_ & -> & _ & -> & _). cbn [guard_].
    rewrite (proj2 (Z.leb_le 32 (tsize - nb))) by lia. cbn [guard_]. rewrite (proj2 (Z.eqb_neq _ (top ma))) by (by apply (block_not_top ma L Ms Mt _ _ k s O)). rewrite Esz.
    destruct (Z.eqb_spec (sl_start sg) (dv ma)) as [Edv|Edv].
    + assert (k = KFree) as ->. { destruct (dv_cases ma) as [[E1 _]|[_ E2]]; [by rewrite Edv, (Hd0 E1) in Hne|]. assert (Hdp : (dv ma, KFree, dvsize ma) ∈ all_placed L) by (apply (free_placed ma L Ms Mt _ O); rewrite E2, !elem_of_app; right; right; by left). rewrite Edv in Hpl. by destruct (same_block ma L Ms Mt _ _ _ _ _ _ O Hdp Hpl). }
      by apply (prepend_dv ma s bs).
    + destruct k; cbn [in_use negb andb].
      * by apply (prepend_used KSys s bs).
      * by apply (prepend_used KUsed s bs).
      * by apply (prepend_bin ma s bs).
Qed.
End PrependAlloc.
