(* ===== verification/DlSysAlloc.v ===== *)
(** [sys_alloc] and the whole of [mspace_malloc]: requests that need memory of the system. *)
From stdpp Require Import gmap.
From S2P Require Import Prelude DlBins DlTree DlUnlink DlFit DlSmall DlSpace DlLayout DlInv DlBlocks DlMalloc DlFree DlRun DlSystem DlGrow DlPrepend.
Local Open Scope Z_scope.

(** ** Chunks held *)
(** The chunks handed out: those in use in the segments, and those with memory of their own. *)
Definition direct_chunks (m : mspace) : list (Z * Z) := (fun r => (r.1, r.2 - r.1 - 32)) <$> direct m.
Definition held (m : mspace) (L : list seglay) : list (Z * Z) := used L ++ direct_chunks m.

(** ** Sizes *)
Lemma mmap_size_ok P nb : params_ok P -> 32 <= nb < 2 ^ 64 -> nb < mmap_size P nb -> mmap_size P nb mod 4096 = 0 /\ nb + 55 <= mmap_size P nb < 2 ^ 64.
Proof.
  intros (j & k & Hj & Hk & Ep & Eg) Hnb Hlt. unfold mmap_size, mmap_align in *. change (nb + SIX_SIZE_T_SIZES + CHUNK_ALIGN_MASK) with (nb + 48 + 7) in *. replace (nb + 48 + 7) with (nb + 55) in * by lia. rewrite Ep in *.
  destruct (Z.le_gt_cases (nb + 55 + 2 ^ j) (2 ^ 64)) as [Hle|Hgt]; [|pose proof (align_up_wrap j nb 55 ltac:(lia) ltac:(lia) ltac:(lia) ltac:(lia)); lia].
  destruct (align_up_spec j (nb + 55) ltac:(lia) ltac:(lia) Hle) as [Hm Hb]. split; [|lia]. apply Z.mod_divide in Hm; [|lia]. apply Z.mod_divide; [lia|]. eapply Z.divide_trans; [|exact Hm]. change 4096 with (2 ^ 12). exists (2 ^ (j - 12)). rewrite <- Z.pow_add_r by lia. f_equal. lia.
Qed.

Lemma sys_size_ok P nb : params_ok P -> 32 <= nb < 2 ^ 64 -> nb < sys_size P nb -> sys_size P nb mod 4096 = 0 /\ nb + 88 <= sys_size P nb.
Proof.
  intros (j & k & Hj & Hk & Ep & Eg) Hnb Hlt. unfold sys_size, granularity_align in *. change SYS_ALLOC_PADDING with 88 in *. rewrite Eg in *.
  destruct (Z.le_gt_cases (nb + 88 + 2 ^ k) (2 ^ 64)) as [Hle|Hgt]; [|pose proof (align_up_wrap k nb 88 ltac:(lia) ltac:(lia) ltac:(lia) ltac:(lia)); lia].
  destruct (align_up_spec k (nb + 88) ltac:(lia) ltac:(lia) Hle) as [Hm Hb]. split; [|lia]. apply Z.mod_divide in Hm; [|lia]. apply Z.mod_divide; [lia|]. eapply Z.divide_trans; [|exact Hm]. change 4096 with (2 ^ 12). exists (2 ^ (k - 12)). rewrite <- Z.pow_add_r by lia. f_equal. lia.
Qed.

(** ** A chunk with memory of its own *)
Section Direct.
Context (m : mspace) (L : list seglay) (Ms Mt : gmap Z Z) (D : list (Z * Z)) (O : space_ok m L Ms Mt D) (a n : Z) (HF : fresh_memory m a n) (Hn8 : n mod 8 = 0) (Hn : 64 <= n).
Let m1 : mspace := with_regions (maps m) ((a, a + n) :: direct m) m.

(** The space with the new region, whose tags are written. *)
Lemma direct_added m' : bins_part m' = bins_part m1 -> (forall b, b < a \/ a + n <= b -> link_part (heads_of_space m' b) = link_part (heads_of_space m b) /\ (is_Some (read m b) -> is_Some (read m' b))) -> top_part m' = top_part m -> segs m' = segs m -> tags (heads_of_space m' a) = (0, n - 32) -> tags (heads_of_space m' (a + n - 32)) = (footer m, FENCEPOST_HEAD) -> is_Some (read m' a) -> is_Some (read m' (a + n - 32)) ->
  same_tags (heads_of_space m) (heads_of_space m') (fun z => z < a \/ a + n <= z) -> space_ok (lower_least a m') L Ms Mt D.
Proof using Type*.
  intros Sp Sl [= Et1 Et2] Es Ht Hf D1 D2 Hs. pose proof Sp as [= E1 E2 E3 E4 E5 E6 E7 E8 E9 E10 E11]. destruct HF as (Ha0 & Ha8 & Ha64 & Hfr). pose proof (ok_least _ _ _ _ _ O) as Hl0. set (m2 := lower_least a m').
  assert (Em2 : smallmap m2 = smallmap m' /\ ms_at m2 = ms_at m' /\ magic m2 = magic m' /\ top m2 = top m' /\ topsize m2 = topsize m' /\ segs m2 = segs m' /\ maps m2 = maps m' /\ direct m2 = direct m' /\ treemap (core m2) = treemap (core m') /\ treebins (core m2) = treebins (core m') /\
    treebins_at (core m2) = treebins_at (core m') /\ chunks (core m2) = chunks (core m') /\ least_addr (core m2) = Z.min a (least_addr (core m))).
  { unfold m2, lower_least. rewrite E7. destruct (Z.ltb_spec a (least_addr (core m))); cbn; split_and!; try done; lia. }
  clearbody m2. destruct Em2 as (G1 & G2 & G3 & G4 & G5 & G6 & G7 & G8 & G9 & G10 & G11 & G12 & G13). assert (Er : forall b, read m2 b = read m' b) by (intros b; unfold read; by rewrite G12). assert (Eh : forall b, heads_of_space m2 b = heads_of_space m' b) by (intros b; by apply heads_read).
  assert (Ef : footer m2 = footer m) by (unfold footer; congruence). assert (Hdom : forall b, b < a \/ a + n <= b -> is_Some (read m b) -> is_Some (read m2 b)) by (intros b Ho Hb; rewrite Er; by apply Sl).
  assert (Hseg : forall sg, sg ∈ L -> seg_ok m sg /\ regions_apart (a, a + n) (sl_region sg)) by (intros sg Hsg; split; [exact (proj1 (Forall_forall _ _) (ok_segs _ _ _ _ _ O) sg Hsg)|apply (fresh_seg m L Ms Mt D); (done || lia)]).
  apply (rebuild m m2 L L Ms Mt D D O); try congruence.
  - lia.
  - intros x k s b Hx Hb. apply in_placed in Hx as (i & sg & Hi & Hx). destruct (Hseg sg (list_elem_of_lookup_2 _ _ _ Hi)) as [S HA]. pose proof (seg_bounds _ _ _ _ _ S Hx). unfold regions_apart, sl_region in HA. cbn in HA. rewrite Eh. split; [apply Sl; lia|apply Hdom; lia].
  - rewrite Forall_forall. intros sg Hsg. destruct (Hseg sg Hsg) as [S HA]. unfold regions_apart, sl_region in HA. cbn in HA. apply (seg_keep m m2 sg S); [done| |lia|intros _; split; congruence|intros b Hb; apply Hdom; lia|intros z Hz; rewrite Eh; apply Hs; lia].
    intros x _ _. rewrite !mapped_region. intros (rg & Hrg & Hx). exists rg. split; [|done]. rewrite G7, G8, E10, E11. cbn [maps direct with_regions]. apply elem_of_app in Hrg as [?|?]; apply elem_of_app; [by left|right; by right].
  - intros i j s1 s2. apply O.
  - apply O.
  - rewrite G6, Es. apply O.
  - rewrite G6, Es. apply O.
  - rewrite G8, E11. cbn [direct with_regions]. apply Forall_cons. split.
    + split; cbn [fst snd]; rewrite ?Eh, ?Er, ?Ef; replace (a + n - a) with n by lia; try done. lia.
    + rewrite Forall_forall. intros d Hd. pose proof (Hfr d ltac:(apply elem_of_app; by right)) as HA. unfold regions_apart in HA. cbn in HA. apply (direct_same m m2 d (proj1 (Forall_forall _ _) (ok_direct _ _ _ _ _ O) d Hd)); [done|lia|intros b Hb; apply Hdom; lia|intros z Hz; rewrite Eh; apply Hs; lia].
  - rewrite G8, E11. cbn [direct with_regions]. intros d Hd sg Hsg. apply elem_of_cons in Hd as [->|Hd]; [by apply Hseg|by apply (ok_dapart _ _ _ _ _ O)].
  - rewrite G8, E11. cbn [direct with_regions]. intros i j r1 r2 Hne Hi Hj. assert (Hsym : forall d, d ∈ direct m -> regions_apart d (a, a + n) /\ regions_apart (a, a + n) d) by (intros d Hd; pose proof (Hfr d ltac:(apply elem_of_app; by right)) as HA; unfold regions_apart in *; cbn in *; lia).
    destruct i as [|i], j as [|j]; cbn in Hi, Hj; [done|simplify_eq; apply Hsym; by eapply list_elem_of_lookup_2|simplify_eq; apply Hsym; by eapply list_elem_of_lookup_2|]. apply (ok_dseq _ _ _ _ _ O i j); [lia|done|done].
  - apply O.
  - apply O.
Qed.
End Direct.

Lemma grow_footprint_ok n m L Ms Mt D : space_ok m L Ms Mt D -> space_ok (grow_footprint n m) L Ms Mt D.
Proof. by apply space_ok_fields. Qed.

(** The answer of the system to a request for memory for one chunk. *)
Definition direct_answer (P : malloc_params) (nb : Z) (m : mspace) (dm : option Z) : Prop :=
  match dm with Some a => fresh_memory m a (mmap_size P nb) | None => True end.

Lemma mmap_alloc_ok P nb dm m L Ms Mt : params_ok P -> space_inv m L Ms Mt -> 32 <= nb < 2 ^ 64 -> direct_answer P nb m dm ->
  exists m' mem, mmap_alloc P nb dm m = Some (m', mem) /\ (mem = 0 /\ m' = m \/ exists p sz, mem = chunk2mem p /\ 0 < p /\ nb <= sz < 2 ^ 64 - 32 /\ space_inv m' L Ms Mt /\ direct m' = (p, p + sz + 32) :: direct m).
Proof.
  intros HP (O & Hd1 & Hd0) Hnb Hans. unfold mmap_alloc. destruct (Z.ltb_spec nb (mmap_size P nb)) as [Hlt|Hge]; [|exists m, 0; split; [done|by left]]. destruct dm as [a|]; [|exists m, 0; split; [done|by left]].
  destruct (mmap_size_ok P nb HP Hnb Hlt) as [Hpg Hsz]. set (n := mmap_size P nb) in *. destruct Hans as (Ha0 & Ha8 & Ha64 & Hfr). rewrite (aligned_offset a Ha8), Z.sub_0_r, Z.add_0_r. change MMAP_FOOT_PAD with 32. assert (Hn8 : n mod 8 = 0) by (clear -Hpg; Z.div_mod_to_equations; lia).
  set (m1 := with_regions (maps m) ((a, a + n) :: direct m) m). assert (HM : forall x, a <= x -> x + 8 <= a + n -> mapped m1 x = true) by (intros x ??; apply mapped_region; exists (a, a + n); split; [apply elem_of_app; right; by left|done]).
  destruct (put_foot_step m1 m1 _ a 0 (tagged_self _)) as (m2 & -> & T2 & R2); [apply HM; lia|]. cbn [mbind option_bind].
  destruct (put_head_step m1 m2 _ a (fun _ => n - 32) T2) as (m3 & -> & T3 & D3 & R3); [apply HM; lia|]. cbn [mbind option_bind]. unfold mark_inuse_foot. rewrite (footer_tagged _ _ _ T3).
  destruct (put_foot_step m1 m3 _ (a + (n - 32)) (footer m1) T3) as (m4 & -> & T4 & R4); [apply HM; lia|]. cbn [mbind option_bind].
  destruct (put_head_step m1 m4 _ (a + (n - 32)) (fun _ => FENCEPOST_HEAD) T4) as (m5 & -> & T5 & D5 & R5); [apply HM; lia|]. cbn [mbind option_bind].
  destruct (put_head_step m1 m5 _ (a + (n - 32) + 8) (fun _ => 0) T5) as (m6 & -> & T6 & D6 & R6); [apply HM; lia|]. cbn [mbind option_bind]. pose proof (stores_tagged _ _ _ T6) as St. destruct (tagged_top _ _ _ T6) as [Et Es]. pose proof (tg_view _ _ _ T6) as Hv.
  pose proof (ok_least _ _ _ _ _ O) as Hl0. assert (El : least_addr (core m6) = least_addr (core m)) by (pose proof (st_part _ _ St) as [= _ _ _ _ _ _ E7 _ _ _ _]; exact E7).
  assert (Elow : (if (least_addr (core m6) =? 0) || (a <? least_addr (core m6)) then with_least a m6 else m6) = lower_least a m6) by (unfold lower_least; rewrite El, (proj2 (Z.eqb_neq _ 0)) by lia; done). rewrite Elow.
  eexists _, _. split; [done|]. right. exists a, (n - 32). split; [done|]. split; [done|]. split; [lia|].
  assert (O2 : space_ok (lower_least a m6) L Ms Mt (dv_list m)).
  { apply (direct_added m L Ms Mt _ O a n); try done; try lia; replace (a + n - 32) with (a + (n - 32)) by lia.
    - apply St.
    - intros b _. split; [apply (st_link _ _ St)|apply (st_dom _ _ St)].
    - rewrite Hv, fupd_tag by lia. rewrite fupd_tag by lia. rewrite fupd_tag by lia. by rewrite !fupd_eq.
    - rewrite Hv, fupd_tag by lia. by rewrite !fupd_eq.
    - apply R6, R5, R4, D3.
    - apply R6, D5.
    - intros z Hz. rewrite Hv. by rewrite !fupd_ne by lia. }
  assert (Ek : direct (lower_least a m6) = direct m6 /\ dv (lower_least a m6) = dv m6 /\ dvsize (lower_least a m6) = dvsize m6) by (unfold lower_least; by destruct (a <? _)). destruct Ek as (Ek1 & Ek2 & Ek3).
  pose proof (st_part _ _ St) as [= _ _ _ _ _ _ _ E8 E9 _ E11]. split; [|change (direct (lower_least a m6) = (a, a + (n - 32) + 32) :: direct m); rewrite Ek1, E11; cbn; do 2 f_equal; lia].
  unfold space_inv, dv_list. cbn [dv dvsize grow_footprint with_footprint]. rewrite Ek2, Ek3, E8, E9. split; [|done]. by apply grow_footprint_ok.
Qed.

(** ** New memory for the space *)
Lemma prepend_outer a b nb m m' p : prepend_alloc a b nb m = Some (m', p) -> outer m' = outer m.
Proof. unfold prepend_alloc. intros H. cbv zeta in H. region_ops. Qed.
Lemma prepend_region a b nb m m' p : prepend_alloc a b nb m = Some (m', p) -> region m' = region m.
Proof. intros H%prepend_outer. by apply outer_region. Qed.

(** The answer of the system to a request for memory of the space: the segments stay below the
    size from which the tree bins are not told apart any more. *)
Definition system_answer (P : malloc_params) (nb : Z) (m : mspace) (mp : option Z) : Prop :=
  match mp with Some a => fresh_memory m a (sys_size P nb) /\ forall s, s ∈ segs m -> seg_size s + sys_size P nb < 2 ^ 40 | None => True end.

(** A chunk of [nb] bytes at least was handed out. *)
Definition served (m : mspace) (L : list seglay) (nb : Z) (x : option (mspace * Z)) : Prop :=
  exists m' p sz L' Ms' Mt', x = Some (m', chunk2mem p) /\ 0 < p /\ (nb <= sz < 2 ^ 64 - 32 /\ (sz < nb + 32 /\ pinned m' p \/ (p, p + sz + 32) ∈ direct m')) /\ space_inv m' L' Ms' Mt' /\ held m' L' ≡ₚ (p, sz) :: held m L.

Lemma used_chunk m L Ms Mt p sz : space_inv m L Ms Mt -> (p, sz) ∈ used L -> 0 < p /\ sz < 2 ^ 40.
Proof.
  intros (O & _) H. apply of_kind_in, in_placed in H as (i & sg & Hi & H). pose proof (Forall_lookup_1 _ _ _ _ (ok_segs _ _ _ _ _ O) Hi) as S. pose proof (seg_bounds _ _ _ _ _ S H). destruct (so_start _ _ S) as (_ & ? & _). lia.
Qed.

Lemma serve_top m0 m L0 L Ms Mt nb : space_inv m L Ms Mt -> padded nb -> dvsize m < nb -> nb < topsize m -> used L ≡ₚ used L0 -> direct m = direct m0 ->
  served m0 L0 nb (take_from_top nb m).
Proof.
  intros HI Hp Hdv Hlt HU Hd. destruct (from_top m L Ms Mt nb HI Hp Hdv) as (m' & r & E & Ho). unfold take_from_top. rewrite (proj2 (Z.ltb_lt _ _) Hlt), E. cbn [mbind option_bind].
  assert (ER : region m' = region m) by (apply (from_dv_region nb m m' r); unfold malloc_from_dv; by rewrite (proj2 (Z.leb_gt _ _) Hdv)). destruct r as [mem|nb'].
  - destruct Ho as (p & -> & L' & Ms' & Mt' & sz & HI' & HU' & Hsz & Hpn). exists m', p, sz, L', Ms', Mt'. destruct (used_chunk m' L' Ms' Mt' p sz HI' ltac:(rewrite HU'; by left)) as [Hp0 Hp40]. split; [done|]. split; [done|]. split; [split; [lia|left; split; [lia|done]]|]. split; [done|]. unfold held, direct_chunks. injection ER as _ -> _. rewrite Hd, HU', HU. done.
  - destruct Ho as (_ & _ & _ & ?). lia.
Qed.

Section NewMemory.
Context (P : malloc_params) (m : mspace) (L : list seglay) (Ms Mt : gmap Z Z) (HI : space_inv m L Ms Mt) (nb : Z) (Hnb : padded nb) (Hdv : dvsize m < nb).
Context (tbase tsize : Z) (HF : fresh_memory m tbase tsize) (Hbound : forall s, s ∈ segs m -> seg_size s + tsize < 2 ^ 40) (Hpg : tsize mod 4096 = 0) (Hsz : nb + 88 <= tsize).
Let m1 : mspace := grow_footprint tsize (with_regions ((tbase, tbase + tsize) :: maps m) (direct m) m).
Let m3 : mspace := lower_least tbase m1.

Lemma tsize_bound : 4096 <= tsize < 2 ^ 40 /\ nb mod 8 = 0.
Proof using Type*.
  destruct HI as (O & _). destruct (top_seg m L Ms Mt _ O) as (i & sg & Hi & _ & _ & _ & _ & _ & _ & Hle & Hlim & _). destruct (record_of m L Ms Mt _ i sg O Hi) as (s & Hs & [M1 M2 _ _]). pose proof (topsize_bound m L Ms Mt _ O).
  pose proof (Hbound s (list_elem_of_lookup_2 _ _ _ Hs)). destruct Hnb as [H32 H8]. split; [split; [|lia]|apply H8; lia]. assert (Hpos : 0 < tsize) by lia. clear -Hpg Hpos. Z.div_mod_to_equations. lia.
Qed.

Lemma lowered : space_inv m3 L Ms Mt /\ new_region m3 L tbase tsize /\ segs m3 = segs m /\ direct m3 = direct m /\ dvsize m3 = dvsize m /\ (dv m3, topsize m3, top m3) = (dv m, topsize m, top m).
Proof using Type*.
  destruct HI as (O & Hd1 & Hd0). destruct tsize_bound as [Hts _]. pose proof (grown_ok m L Ms Mt _ O tbase tsize) as O1. fold m1 in O1. destruct HF as (Hb0 & Hb8 & Hb64 & Hfr). pose proof (ok_least _ _ _ _ _ O) as Hl0.
  assert (Em : smallmap m3 = smallmap m /\ ms_at m3 = ms_at m /\ magic m3 = magic m /\ top m3 = top m /\ topsize m3 = topsize m /\ segs m3 = segs m /\ maps m3 = (tbase, tbase + tsize) :: maps m /\ direct m3 = direct m /\ dv m3 = dv m /\ dvsize m3 = dvsize m /\
    core m3 = MState (Z.min tbase (least_addr (core m))) (treebins_at (core m)) (treemap (core m)) (treebins (core m)) (chunks (core m))).
  { unfold m3, lower_least. change (least_addr (core m1)) with (least_addr (core m)). destruct (Z.ltb_spec tbase (least_addr (core m))); cbn; split_and!; try done; [f_equal; lia|]. rewrite Z.min_r by lia. by destruct (core m). }
  clearbody m3. destruct Em as (G1 & G2 & G3 & G4 & G5 & G6 & G7 & G8 & G9 & G10 & G11).
  assert (O3 : space_ok m3 L Ms Mt (dv_list m)). { apply (space_more m1); try done; [unfold top_part; cbn; congruence|by rewrite G11|rewrite G11; cbn; lia|]. intros x. unfold mapped. by rewrite G7, G8. }
  split; [unfold space_inv, dv_list; rewrite G9, G10; done|]. split; [|split_and!; try done; congruence]. split.
  - rewrite G11. cbn. split_and!; (done || lia).
  - done.
  - intros x X1 X2 X3. apply mapped_region. exists (tbase, tbase + tsize). split; [rewrite G7; by left|done].
  - intros sg Hsg. apply (fresh_apart m L Ms Mt _ O tbase tsize); try done; lia.
  - intros d Hd. rewrite G8 in Hd. apply Hfr. apply elem_of_app. by right.
Qed.

Lemma serve_append i s : segs m !! i = Some s -> tbase = seg_base s + seg_size s -> segment_holds s (top m) = true ->
  let m2 := with_segs (<[i := Segment (seg_at s) (seg_base s) (seg_size s + tsize) (seg_flags s)]> (segs m1)) m1 in
  exists m', init_top (top m2) (topsize m2 + tsize) (trim_threshold P) m2 = Some m' /\
    served m L nb (take_from_top nb m').
Proof using Type*.
  intros Hi Etb Hh m2. destruct HI as (O & Hd1 & Hd0). destruct tsize_bound as [Hts _]. destruct (append_ok P m L Ms Mt _ O tbase tsize HF ltac:(lia) Hpg Hbound i s Hi Etb Hh) as (m' & L' & Ei & O' & EL & HB & Et). fold m1 m2 in Ei.
  exists m'. split; [exact Ei|]. destruct HB as ([= _ _ _ Ed] & [= Ev1 Ev2] & _). pose proof (topsize_bound m L Ms Mt _ O). apply (serve_top m m' L L' Ms Mt); try done; [unfold space_inv, dv_list; rewrite Ev1, Ev2; done|lia|lia|unfold used; by rewrite EL].
Qed.

Lemma serve_added : exists m', add_segment P tbase tsize USE_MMAP_BIT m3 = Some m' /\
    served m L nb (take_from_top nb m').
Proof using Type*.
  destruct lowered as ((O3 & Hd1 & Hd0) & N & Es & Ed & Ev & _). destruct tsize_bound as [Hts _]. destruct (ok_top _ _ _ _ _ O3) as [Hne _]. pose proof (added_used m3) as HU. pose proof (add_segment_ok P m3) as HA. destruct L as [|sg L1]; [done|].
  destruct (HA sg L1 Ms Mt _ O3 tbase tsize N) as (m' & Ms' & Mt' & E & O' & [= Ev1 Ev2 ER] & Et). specialize (HU sg L1 Ms Mt _ O3 tbase tsize N). clear HA. exists m'. split; [exact E|].
  eapply (serve_top m m' _ _ Ms' Mt'); [unfold space_inv, dv_list in *; rewrite Ev1, Ev2; split; [exact O'|done]|done|lia|lia|by rewrite HU|congruence].
Qed.

Lemma serve_prepend i s : segs m3 !! i = Some s -> seg_base s = tbase + tsize ->
  served m L nb (prepend_alloc tbase (tbase + tsize) nb (with_segs (<[i := Segment (seg_at s) tbase (seg_size s + tsize) (seg_flags s)]> (segs m3)) m3)).
Proof using Type*.
  intros Hi Eb. destruct lowered as (HI3 & N & Es & Ed & Ev & _). destruct tsize_bound as [Hts H8]. pose proof HI3 as (O3 & _). destruct (segment_range m3 L Ms Mt _ i s O3 Hi) as (sg & Hsg & [M1 M2 _ _] & S).
  assert (H40 : sl_limit sg - tbase < 2 ^ 40) by (rewrite Es in Hi; pose proof (Hbound s (list_elem_of_lookup_2 _ _ _ Hi)); lia). destruct Hnb as [H32 _].
  destruct (prepend_alloc_ok m3 L Ms Mt HI3 tbase tsize N i sg Hsg ltac:(congruence) s Hi H40 nb H32 H8 ltac:(lia)) as (m' & L' & Ms' & Mt' & E & HI' & HU). rewrite E. exists m', tbase, nb, L', Ms', Mt'.
  split; [done|]. split; [apply HF|]. assert (Hpn : pinned m' tbase).
  { apply prepend_outer in E. injection E as _ _ _ Esg _ _ _. assert (Hr : segs m' !! i = Some (Segment (seg_at s) tbase (seg_size s + tsize) (seg_flags s))) by (rewrite Esg; cbn [segs with_segs]; apply list_lookup_insert_eq; by eapply lookup_lt_Some). destruct (Forall2_lookup_l _ _ _ _ _ (ok_match _ _ _ _ _ (proj1 HI')) Hr) as (sg' & Hsg' & [M1' _ _ _]).
    cbn in M1'. rewrite M1'. apply (segment_start m' L' Ms' Mt' _ sg' (proj1 HI')). by eapply list_elem_of_lookup_2. }
  split; [split; [lia|left; split; [lia|done]]|]. split; [done|]. apply prepend_region in E. injection E as _ E _. unfold held, direct_chunks. rewrite E. cbn [direct with_segs]. rewrite Ed, HU. done.
Qed.

Lemma use_apart_ok : served m L nb (use_apart P nb tbase tsize m1).
Proof using Type*.
  unfold use_apart. cbv zeta. fold m3. destruct serve_added as (m' & E & HS). destruct (pick_segment _ (segs m3)) as [s|] eqn:Ep; [|by rewrite E]. destruct (pick_lookup _ _ _ Ep) as (i & Hi & Hat & Hg). apply Z.eqb_eq in Hat.
  destruct (_ && _); [|by rewrite E]. rewrite Hg. by apply serve_prepend.
Qed.

Lemma use_new_memory_ok : served m L nb (use_new_memory P nb tbase tsize m).
Proof using Type*.
  unfold use_new_memory. fold m1. change (segs m1) with (segs m). change (top m1) with (top m). cbv zeta. pose proof use_apart_ok as HA.
  destruct (pick_segment _ (segs m)) as [s|] eqn:Ep; [|exact HA]. destruct (pick_lookup _ _ _ Ep) as (i & Hi & Hat & Hg). apply Z.eqb_eq in Hat. destruct (_ && _ && segment_holds s (top m)) eqn:Ec; [|exact HA].
  apply andb_true_iff in Ec as [_ Ec]. rewrite Hg. destruct (serve_append i s Hi Hat Ec) as (m' & E & HS). cbv zeta in E. change (segs m1) with (segs m) in E. rewrite E. exact HS.
Qed.
End NewMemory.

(** ** [sys_alloc] and [mspace_malloc] *)
Lemma sys_map_ok P nb mp m L Ms Mt : params_ok P -> space_inv m L Ms Mt -> padded nb -> nb < 2 ^ 64 -> dvsize m < nb -> system_answer P nb m mp ->
  let x := if nb <? sys_size P nb then match mp with Some tbase => use_new_memory P nb tbase (sys_size P nb) m | None => Some (m, 0) end else Some (m, 0) in (x = Some (m, 0) /\ (mp = None \/ sys_size P nb <= nb)) \/ served m L nb x.
Proof.
  intros HP HI Hnb H64 Hdv Hmp x. pose proof Hnb as [H32 _]. unfold x. destruct (Z.ltb_spec nb (sys_size P nb)) as [Hlt|]; [|left; split; [done|by right]]. destruct mp as [a|]; [|left; split; [done|by left]]. right. destruct Hmp as [HF Hbound]. destruct (sys_size_ok P nb HP ltac:(lia) Hlt) as [Hpg Hsz].
  by apply (use_new_memory_ok P m L Ms Mt).
Qed.

Lemma sys_alloc_ok P nb dm mp m L Ms Mt : params_ok P -> space_inv m L Ms Mt -> padded nb -> nb < 2 ^ 64 -> dvsize m < nb -> direct_answer P nb m dm -> system_answer P nb m mp ->
  (sys_alloc P nb dm mp m = Some (m, 0) /\ (mp = None \/ sys_size P nb <= nb)) \/ served m L nb (sys_alloc P nb dm mp m).
Proof.
  intros HP HI Hnb H64 Hdv Hdm Hmp. pose proof Hnb as [H32 _]. unfold sys_alloc. destruct (_ && _ && _).
  - destruct (mmap_alloc_ok P nb dm m L Ms Mt HP HI ltac:(lia) Hdm) as (m' & mem & -> & [[-> ->]|(p & sz & -> & Hp & Hsz & HI' & Ed)]); cbn [mbind option_bind].
    + by apply (sys_map_ok P nb mp m L Ms Mt).
    + right. unfold chunk2mem at 1. rewrite (proj2 (Z.eqb_neq _ 0)) by lia. exists m', p, sz, L, Ms, Mt. split; [done|]. split; [done|]. split; [split; [done|right; rewrite Ed; by left]|]. split; [done|]. unfold held, direct_chunks. rewrite Ed. cbn. replace (p + sz + 32 - p - 32) with sz by lia. solve_Permutation.
  - cbn [mbind option_bind]. by apply (sys_map_ok P nb mp m L Ms Mt).
Qed.

Lemma needed_padded bytes : in_u 64 bytes -> padded (needed bytes) /\ needed bytes < 2 ^ 64.
Proof.
  intros [H0 H1]. unfold needed, padded. destruct (Z.leb_spec MAX_REQUEST bytes); [unfold MAX_SIZE_T; lia|]. destruct (request_bounds bytes ltac:(lia)) as (H8 & H32 & _). split; [split; [lia|done]|lia].
Qed.

(** A request is refused with the space as it was, or served; it is refused only when the space
    has no chunk for it and the system gave no memory, or cannot be asked for so much. *)
Lemma mspace_malloc_ok P bytes dm mp m L Ms Mt : params_ok P -> space_inv m L Ms Mt -> in_u 64 bytes -> direct_answer P (needed bytes) m dm -> system_answer P (needed bytes) m mp ->
  mspace_malloc P bytes dm mp m = Some (m, 0) /\ nothing_fits m L (needed bytes) /\ (mp = None \/ sys_size P (needed bytes) <= needed bytes) \/ served m L (needed bytes) (mspace_malloc P bytes dm mp m).
Proof.
  intros HP HI Hb Hdm Hmp. unfold mspace_malloc. destruct (malloc_inside_ok m L Ms Mt bytes HI Hb) as (m' & r & E & G). pose proof (malloc_region _ _ _ _ E) as ER. rewrite E. cbn [mbind option_bind]. destruct r as [mem|nb].
  - right. destruct G as (p & -> & L' & Ms' & Mt' & sz & HI' & HU & Hsz & Hpn). exists m', p, sz, L', Ms', Mt'. destruct (used_chunk m' L' Ms' Mt' p sz HI' ltac:(rewrite HU; by left)) as [Hp0 Hp40]. split; [done|]. split; [done|]. split; [split; [lia|left; split; [lia|done]]|]. split; [done|]. unfold held, direct_chunks. injection ER as _ -> _. by rewrite HU.
  - destruct G as (-> & -> & HN). destruct (needed_padded bytes Hb) as [Hpad H64]. destruct (sys_alloc_ok P (needed bytes) dm mp m L Ms Mt HP HI Hpad H64) as [[Es Hno]|Hs]; [|done|done|by left|by right].
    destruct HI as (O & H1 & H2). destruct HN as [HN _]. destruct (dv_cases m) as [[E1 _]|[_ E2]]; [destruct Hpad; lia|]. apply (HN (dv m)). apply (free_placed m L Ms Mt _ O). rewrite E2, !elem_of_app. right. right. by left.
Qed.
