(* ===== verification/DlAccount.v ===== *)
(** What a memory space counts, include/memory/malloc.c.h: the field [footprint] has the bytes that
    the space got from the system, and [max_footprint] the most they have been. *)
From stdpp Require Import gmap.
From S2P Require Import Prelude DlBins DlTree DlUnlink DlFit DlSmall DlSpace DlLayout DlInv DlBlocks DlMalloc DlFree DlRun DlSystem DlGrow DlPrepend DlSysAlloc.
Local Open Scope Z_scope.

(** ** Sums *)
Definition zsum (l : list Z) : Z := foldr Z.add 0 l.
Lemma zsum_cons x l : zsum (x :: l) = x + zsum l.
Proof. done. Qed.
Lemma zsum_app l1 l2 : zsum (l1 ++ l2) = zsum l1 + zsum l2.
Proof. induction l1 as [|x l1 IH]; [done|]. cbn [app]. rewrite !zsum_cons, IH. lia. Qed.
#[global] Instance zsum_perm : Proper ((≡ₚ) ==> (=)) zsum.
Proof. intros l1 l2 H. unfold zsum. induction H; cbn; lia. Qed.

Lemma uwrap_add_l64 x y : u64 (u64 x + y) = u64 (x + y).
Proof. unfold uwrap. by rewrite Zplus_mod_idemp_l. Qed.
Lemma uwrap_sub_l64 x y : u64 (u64 x - y) = u64 (x - y).
Proof. unfold uwrap. by rewrite Zminus_mod_idemp_l. Qed.
Lemma uwrap_sub_r64 x y : u64 (x - u64 y) = u64 (x - y).
Proof. unfold uwrap. by rewrite Zminus_mod_idemp_r. Qed.

(** Regions that do not overlap are no larger than what holds them. *)
Definition sizes (l : list (Z * Z)) : Z := zsum ((fun r => r.2 - r.1) <$> l).
#[global] Instance sizes_perm : Proper ((≡ₚ) ==> (=)) sizes.
Proof. intros l1 l2 H. unfold sizes. by rewrite H. Qed.
Lemma sizes_cons r l : sizes (r :: l) = r.2 - r.1 + sizes l.
Proof. done. Qed.
Lemma sizes_app l1 l2 : sizes (l1 ++ l2) = sizes l1 + sizes l2.
Proof. unfold sizes. by rewrite fmap_app, zsum_app. Qed.

Definition all_apart (l : list (Z * Z)) : Prop := forall i j r1 r2, i <> j -> l !! i = Some r1 -> l !! j = Some r2 -> regions_apart r1 r2.
Lemma all_apart_cons r l : all_apart (r :: l) -> (forall r', r' ∈ l -> regions_apart r r') /\ all_apart l.
Proof.
  intros H. split; [|intros i j r1 r2 Hne Hi Hj; by apply (H (S i) (S j)); [lia| |]]. intros r' [i Hi]%list_elem_of_lookup. by apply (H 0%nat (S i)).
Qed.
Lemma all_apart_sub (l l' : list (Z * Z)) : l' `sublist_of` l -> all_apart l -> all_apart l'.
Proof.
  induction 1 as [|x l1 l2 Hs IH|x l1 l2 Hs IH]; intros H; [done| |apply IH, (all_apart_cons x l2 H)]. destruct (all_apart_cons x l2 H) as [H1 H2].
  assert (Hx : forall r', r' ∈ l1 -> regions_apart x r') by (intros r' Hr; apply H1; by eapply sublist_subseteq).
  intros i j r1 r2 Hne Hi Hj. destruct i as [|i], j as [|j]; cbn in Hi, Hj; simplify_eq; [by apply Hx; eapply list_elem_of_lookup_2| |by apply (IH H2 i j); [lia| |]].
  specialize (Hx r1 ltac:(by eapply list_elem_of_lookup_2)). unfold regions_apart in *. lia.
Qed.

Lemma sizes_bound n : forall l lo hi, (length l <= n)%nat -> all_apart l -> (forall r, r ∈ l -> lo <= r.1 /\ r.1 <= r.2 /\ r.2 <= hi) -> lo <= hi -> sizes l <= hi - lo.
Proof.
  induction n as [|n IH]; intros l lo hi Hn HA HB Hle; [destruct l; [cbn; lia|cbn in Hn; lia]|]. destruct l as [|r l]; [cbn; lia|]. destruct (all_apart_cons r l HA) as [H1 H2]. destruct (HB r ltac:(by left)) as (? & ? & ?). cbn in Hn.
  set (left_ := filter (fun r' : Z * Z => r'.2 <= r.1) l). set (right_ := filter (fun r' : Z * Z => ~ r'.2 <= r.1) l).
  assert (E : l ≡ₚ left_ ++ right_) by (symmetry; apply filter_app_complement). assert (Hln : (length left_ + length right_ = length l)%nat) by (by rewrite <- length_app, <- E).
  rewrite sizes_cons, E, sizes_app. assert (S1 : sizes left_ <= r.1 - lo).
  { apply IH; [lia|by apply (all_apart_sub l), H2; apply sublist_filter| |lia]. intros r' [Hr1 Hr2]%list_elem_of_filter. destruct (HB r' ltac:(by right)) as (? & ? & ?). lia. }
  assert (S2 : sizes right_ <= hi - r.2).
  { apply IH; [lia|by apply (all_apart_sub l), H2; apply sublist_filter| |lia]. intros r' [Hr1 Hr2]%list_elem_of_filter. destruct (HB r' ltac:(by right)) as (? & ? & ?). destruct (H1 r' Hr2); lia. }
  lia.
Qed.

(** ** The account *)
Definition owned_bytes (m : mspace) : Z := zsum (seg_size <$> segs m) + sizes (direct m).
Definition accounted (m : mspace) : Prop := footprint m = u64 (owned_bytes m) /\ footprint m <= max_footprint m.

Lemma owned_range m L Ms Mt D : space_ok m L Ms Mt D -> sizes (direct m) <= owned_bytes m < 2 ^ 64 /\ (forall s, s ∈ segs m -> 0 <= seg_size s) /\ forall d, d ∈ direct m -> 0 <= d.2 - d.1 <= sizes (direct m).
Proof.
  intros O. assert (Hs : zsum (seg_size <$> segs m) = sizes (sl_region <$> L)).
  { pose proof (ok_match _ _ _ _ _ O) as HM. clear O. induction HM as [|s sg l l' [M1 M2 _ _] HM IH]; [done|]. rewrite !fmap_cons, zsum_cons, sizes_cons, IH. cbn [sl_region fst snd]. lia. }
  assert (Hseg : forall sg, sg ∈ L -> 0 < sl_start sg < sl_limit sg /\ sl_limit sg <= 2 ^ 64).
  { intros sg Hsg. pose proof (proj1 (Forall_forall _ _) (ok_segs _ _ _ _ _ O) sg Hsg) as S. destruct (lay_end _ _ _ _ _ _ _ (so_lay _ _ S)) as (? & ? & _). pose proof (so_limit _ _ S). destruct (so_start _ _ S) as (_ & ? & _). pose proof (so_size _ _ S). lia. }
  assert (Hdir : forall d, d ∈ direct m -> 0 < d.1 < d.2 /\ d.2 <= 2 ^ 64).
  { intros d Hd. pose proof (proj1 (Forall_forall _ _) (ok_direct _ _ _ _ _ O) d Hd) as Dd. destruct (do_at _ _ Dd) as (_ & ? & _). destruct (do_size _ _ Dd). pose proof (do_end _ _ Dd). lia. }
  assert (Hd0 : forall l, (forall d : Z * Z, d ∈ l -> d.1 < d.2) -> 0 <= sizes l /\ forall d, d ∈ l -> 0 <= d.2 - d.1 <= sizes l).
  { induction l as [|r l IH]; intros Hl; [split; [done|by intros d ?%elem_of_nil]|]. destruct IH as [I1 I2]; [intros d Hd; apply Hl; by right|]. specialize (Hl r ltac:(by left)). rewrite sizes_cons. split; [lia|]. intros d [->|Hd]%elem_of_cons; [lia|]. specialize (I2 d Hd). lia. }
  destruct (Hd0 (direct m)) as [D0 D1]; [intros d Hd; specialize (Hdir d Hd); lia|]. destruct (Hd0 (sl_region <$> L)) as [L0 _]; [intros d (sg & -> & Hsg)%list_elem_of_fmap; specialize (Hseg sg Hsg); cbn; lia|].
  split; [|split; [|done]].
  - unfold owned_bytes. rewrite Hs. split; [lia|]. rewrite <- sizes_app. assert (Hb : sizes ((sl_region <$> L) ++ direct m) <= 2 ^ 64 - 1); [|lia]. eapply sizes_bound; [done| | |done].
    + intros i j r1 r2 Hne Hi Hj. rewrite lookup_app in Hi, Hj. destruct ((sl_region <$> L) !! i) as [x|] eqn:E1; destruct ((sl_region <$> L) !! j) as [y|] eqn:E2; simplify_eq.
      * rewrite list_lookup_fmap in E1, E2. destruct (L !! i) as [s1|] eqn:F1; [|done]. destruct (L !! j) as [s2|] eqn:F2; [|done]. cbn in E1, E2. simplify_eq. exact (ok_apart _ _ _ _ _ O i j s1 s2 Hne F1 F2).
      * rewrite list_lookup_fmap in E1. destruct (L !! i) as [s1|] eqn:F1; [|done]. cbn in E1. simplify_eq. pose proof (ok_dapart _ _ _ _ _ O r2 (list_elem_of_lookup_2 _ _ _ Hj) s1 (list_elem_of_lookup_2 _ _ _ F1)) as HA. unfold regions_apart in *. lia.
      * rewrite list_lookup_fmap in E2. destruct (L !! j) as [s1|] eqn:F1; [|done]. cbn in E2. simplify_eq. exact (ok_dapart _ _ _ _ _ O r1 (list_elem_of_lookup_2 _ _ _ Hi) s1 (list_elem_of_lookup_2 _ _ _ F1)).
      * apply lookup_ge_None in E1, E2. refine (ok_dseq _ _ _ _ _ O _ _ r1 r2 _ Hi Hj). lia.
    + intros r [(sg & -> & Hsg)%list_elem_of_fmap|Hr]%elem_of_app; [specialize (Hseg sg Hsg); cbn; lia|specialize (Hdir r Hr); lia].
  - intros s Hs'. apply list_elem_of_lookup in Hs' as [i Hi]. destruct (Forall2_lookup_l _ _ _ _ _ (ok_match _ _ _ _ _ O) Hi) as (sg & Hsg & [M1 M2 _ _]). specialize (Hseg sg ltac:(by eapply list_elem_of_lookup_2)). lia.
Qed.

Lemma same_account m m' : owned_bytes m' = owned_bytes m -> footprint m' = footprint m -> max_footprint m' = max_footprint m -> accounted m -> accounted m'.
Proof. unfold accounted. intros -> -> ->. done. Qed.
Lemma outer_account m m' : outer m' = outer m -> accounted m -> accounted m'.
Proof. intros [= _ Ed _ Es Ef Em _]. apply same_account; [|done|done]. unfold owned_bytes. by rewrite Ed, Es. Qed.
Lemma grown_account n m m' : owned_bytes m' = owned_bytes m + n -> footprint m' = footprint (grow_footprint n m) -> max_footprint m' = max_footprint (grow_footprint n m) -> accounted m -> accounted m'.
Proof.
  intros Eo Ef Em [Hf Hm]. unfold accounted. rewrite Eo, Ef, Em. cbn [grow_footprint with_footprint footprint max_footprint]. split; [rewrite Hf; apply uwrap_add_l64|]. destruct (Z.ltb_spec (max_footprint m) (u64 (footprint m + n))); lia.
Qed.
Lemma shrunk_account n m m' : 0 <= n <= owned_bytes m -> owned_bytes m < 2 ^ 64 -> owned_bytes m' = owned_bytes m - n -> footprint m' = footprint (shrink_footprint n m) -> max_footprint m' = max_footprint m -> accounted m -> accounted m'.
Proof.
  intros Hn Hb Eo Ef Em [Hf Hm]. unfold accounted. rewrite Eo, Ef, Em. cbn [shrink_footprint with_footprint footprint]. rewrite Hf, uwrap_sub_l64. split; [done|]. rewrite Hf in Hm. rewrite uwrap_id in Hm by (unfold in_u; lia). rewrite uwrap_id by (unfold in_u; lia). lia.
Qed.

(** ** Memory from the system *)
Lemma init_top_outer p ps thr m m' : init_top p ps thr m = Some m' -> outer m' = outer m.
Proof. unfold init_top. intros H. cbv zeta in H. region_ops. Qed.
Lemma fences_outer fuel p e n m m' k : fences fuel p e n m = Some (m', k) -> outer m' = outer m.
Proof.
  revert p n m. induction fuel as [|fuel IH]; intros p n m; [done|]. cbn [fences]. intros H. apply bind_Some in H as (m1 & E1 & H). assert (E : outer m1 = outer m) by (unfold put_head in E1; region_ops). rewrite <- E.
  destruct (_ <? _); [by apply IH in H|by injection H as ->].
Qed.
Lemma take_top_outer nb m m' mem : take_from_top nb m = Some (m', mem) -> outer m' = outer m.
Proof. unfold take_from_top, malloc_from_top. intros H. cbv zeta in H. region_ops. Qed.

Lemma add_segment_account P a n f m m' : add_segment P a n f m = Some m' -> owned_bytes m' = owned_bytes m + n /\ (direct m', footprint m', max_footprint m') = (direct m, footprint m, max_footprint m).
Proof.
  unfold add_segment. intros H. cbv zeta in H. apply bind_Some in H as (s & _ & H). apply bind_Some in H as (m1 & E1%init_top_outer & H). destruct (_ =? 0); [cbn [guard_] in H|done]. apply bind_Some in H as (m2 & E2 & H).
  assert (E : outer m2 = outer m1) by region_ops. rewrite E1 in E. clear E1 E2. destruct (segs m2) as [|s0 rest] eqn:Es; [done|]. apply bind_Some in H as ([m3 k] & E3%fences_outer & H). destruct (2 <=? k); [cbn [guard_] in H|done].
  assert (E4 : outer m' = outer m3) by (clear E E3; region_ops). rewrite <- E4 in E3. clear E4 H. unfold outer, region in E, E3. cbn [with_segs maps direct ms_at segs footprint max_footprint mflags] in E, E3. injection E as E1 E2 _ E4 E5 E6 _. injection E3 as _ F2 _ F4 F5 F6 _.
  unfold owned_bytes. rewrite F2, F4, F5, F6, E2, E5, E6, <- E4, Es. split; [|done]. rewrite !fmap_cons, !zsum_cons. cbn [seg_size]. lia.
Qed.

Lemma edit_sum f g l s : pick_segment f l = Some s -> zsum (seg_size <$> edit_segment f g l) = zsum (seg_size <$> l) + (seg_size (g s) - seg_size s).
Proof. induction l as [|a l IH]; [done|]. cbn [pick_segment edit_segment]. destruct (f a); [intros [= ->]|intros H]; rewrite !fmap_cons, !zsum_cons; [lia|rewrite (IH H); lia]. Qed.

Lemma new_memory_account P nb a n m m' mem : use_new_memory P nb a n m = Some (m', mem) -> accounted m -> accounted m'.
Proof.
  unfold use_new_memory. intros H. cbv zeta in H. set (m1 := grow_footprint n (with_regions ((a, a + n) :: maps m) (direct m) m)) in H.
  assert (Hg : forall m2, outer m' = outer m2 -> owned_bytes m2 = owned_bytes m + n -> footprint m2 = footprint m1 -> max_footprint m2 = max_footprint m1 -> accounted m -> accounted m').
  { intros m2 Eo E1 E2 E3 HA. apply (outer_account _ _ Eo). by apply (grown_account n m). }
  match type of H with (if ?b then _ else _) = _ => destruct b eqn:Ec end.
  - destruct (pick_segment _ (segs m1)) as [s|] eqn:Ep in Ec; [|done]. apply bind_Some in H as (m2 & E2%init_top_outer & H%take_top_outer). rewrite E2 in H. eapply Hg; [exact H| |done|done]. unfold owned_bytes. cbn [with_segs segs direct].
    change (segs m1) with (segs m) in Ep |- *. change (direct m1) with (direct m). rewrite (edit_sum _ _ _ _ Ep). cbn [seg_size]. lia.
  - unfold use_apart in H. assert (El : outer (lower_least a m1) = outer m1) by (unfold lower_least; by destruct (_ <? _)). unfold outer, region in El. cbn [maps direct ms_at segs] in El. injection El as L1 L2 L3 L4 L5 L6 _.
    assert (Hadd : (m ← add_segment P a n USE_MMAP_BIT (lower_least a m1); take_from_top nb m) = Some (m', mem) -> accounted m -> accounted m').
    { intros E. apply bind_Some in E as (m2 & [E2 [= E3 E4 E5]]%add_segment_account & E%take_top_outer). eapply Hg; [exact E| |by rewrite E4|by rewrite E5]. rewrite E2. unfold owned_bytes. by rewrite L2, L4. }
    clear Ec. destruct (pick_segment _ _) as [s|] eqn:Ep; [destruct (_ && _)|]; [|by apply Hadd|by apply Hadd]. apply prepend_outer in H. eapply Hg; [exact H| |exact L5|exact L6]. unfold owned_bytes. cbn [with_segs segs direct]. rewrite L2. rewrite (edit_sum _ _ _ _ Ep), L4. cbn [seg_size]. change (segs m1) with (segs m). change (direct m1) with (direct m). lia.
Qed.

Lemma mmap_alloc_account P nb dm m m' mem : mmap_alloc P nb dm m = Some (m', mem) -> accounted m -> accounted m'.
Proof.
  unfold mmap_alloc. intros H HA. cbv zeta in H. destruct (_ <? _); [|by injection H as <- _]. destruct dm as [a|]; [|by injection H as <- _]. set (n := mmap_size P nb) in *. set (m1 := with_regions (maps m) ((a, a + n) :: direct m) m) in H.
  do 5 (apply bind_Some in H as (? & ? & H)). assert (E : outer x3 = outer m1) by region_steps. injection H as <- _. unfold outer, region in E. injection E as E1 E2 _ E3 E4 E5 _.
  set (m2 := if _ || _ then _ else _). assert (E6 : (segs m2, direct m2, footprint m2, max_footprint m2) = (segs x3, direct x3, footprint x3, max_footprint x3)) by (unfold m2; by destruct (_ || _)). injection E6 as F1 F2 F3 F4.
  apply (grown_account n m); [|cbn; by rewrite F3, E4|cbn; by rewrite F3, F4, E4, E5|done]. unfold owned_bytes. cbn [grow_footprint with_footprint segs direct]. rewrite F1, F2, E2, E3. unfold m1. cbn [with_regions segs direct]. rewrite sizes_cons. cbn [fst snd]. lia.
Qed.

Lemma malloc_account P bytes dm mp m m' mem : mspace_malloc P bytes dm mp m = Some (m', mem) -> accounted m -> accounted m'.
Proof.
  intros H HA. unfold mspace_malloc in H. apply bind_Some in H as ([m1 r] & E & H). apply malloc_outer in E. apply (outer_account _ _ E) in HA. destruct r as [mem1|nb]; [by injection H as <- _|]. unfold sys_alloc in H. apply bind_Some in H as ([m2 mem2] & E2 & H).
  assert (HA2 : accounted m2) by (destruct (_ && _ && _); [by eapply mmap_alloc_account|by injection E2 as <- _]). cbv zeta in H. destruct (negb (mem2 =? 0)); [by injection H as <- _|]. cbv zeta in H. destruct (_ <? _); [destruct mp as [a|]; [by eapply new_memory_account|]|]; by injection H as <- _.
Qed.
