(* ===== verification/DlTrim.v ===== *)
(** Memory that a space gives back to the system, and the whole of [mspace_free]. *)
From stdpp Require Import gmap.
From S2P Require Import Prelude DlBins DlTree DlUnlink DlFit DlSmall DlSpace DlLayout DlInv DlBlocks DlMalloc DlFree DlRun DlSystem DlGrow DlPrepend DlSysAlloc DlAccount.
Local Open Scope Z_scope.

(** ** Memory taken back *)
Lemma munmap_read lo hi m b : b < lo \/ hi <= b -> read (munmap lo hi m) b = read m b.
Proof. intros Hb. unfold read, munmap. cbn. rewrite map_lookup_filter. destruct (chunks (core m) !! b) as [c|]; [|done]. cbn. by rewrite option_guard_True. Qed.

Lemma munmap_mapped lo hi m x : lo <= hi -> x + 8 <= lo \/ hi <= x -> mapped m x = true -> mapped (munmap lo hi m) x = true.
Proof.
  intros Hle Hx. rewrite !mapped_region. intros (r & Hr & H1 & H2). cbn [munmap maps direct with_core with_regions]. assert (Hp : exists r', r' ∈ unmap1 lo hi r /\ r'.1 <= x /\ x + 8 <= r'.2).
  { unfold unmap1. destruct Hx as [Hx|Hx].
    - exists (r.1, Z.min r.2 lo). rewrite (proj2 (Z.ltb_lt _ _)) by lia. split; [by left|cbn; lia].
    - exists (Z.max r.1 hi, r.2). rewrite (proj2 (Z.ltb_lt (Z.max _ _) _)) by lia. split; [apply elem_of_app; right; by left|cbn; lia]. }
  destruct Hp as (r' & Hr' & H). exists r'. split; [|done]. unfold unmap. rewrite <- bind_app. apply list_elem_of_bind. eauto.
Qed.

Lemma unmap_apart lo hi l : lo <= hi -> (forall r, r ∈ l -> r.1 < r.2 /\ regions_apart r (lo, hi)) -> unmap lo hi l = l.
Proof.
  intros Hle. induction l as [|r l IH]; intros H; [done|]. unfold unmap in *. cbn. rewrite IH by (intros r' Hr'; apply H; by right). destruct (H r ltac:(by left)) as [Hlt HA]. unfold regions_apart in HA. cbn in HA.
  unfold unmap1. destruct HA as [HA|HA].
  - rewrite (proj2 (Z.ltb_lt _ _)), (proj2 (Z.ltb_ge _ _)) by lia. cbn. rewrite Z.min_l by lia. by destruct r.
  - rewrite (proj2 (Z.ltb_ge _ _)), (proj2 (Z.ltb_lt _ _)) by lia. cbn. rewrite Z.max_l by lia. by destruct r.
Qed.

Lemma unmap_gone r : r.1 < r.2 -> unmap1 r.1 r.2 r = [].
Proof. intros H. unfold unmap1. rewrite !(proj2 (Z.ltb_ge _ _)) by lia. done. Qed.

Lemma pairwise_remove {A} (R : A -> A -> Prop) l1 x l2 : (forall i j a b, i <> j -> (l1 ++ x :: l2) !! i = Some a -> (l1 ++ x :: l2) !! j = Some b -> R a b) ->
  (forall i j a b, i <> j -> (l1 ++ l2) !! i = Some a -> (l1 ++ l2) !! j = Some b -> R a b) /\ (forall a, a ∈ l1 ++ l2 -> R a x /\ R x a).
Proof.
  intros H. set (f i := if decide (i < length l1)%nat then i else S i).
  assert (Hf : forall i a, (l1 ++ l2) !! i = Some a -> (l1 ++ x :: l2) !! f i = Some a).
  { intros i a. unfold f. case_decide; [by rewrite !lookup_app_l by lia|]. rewrite !lookup_app_r by lia. replace (S i - length l1)%nat with (S (i - length l1)) by lia. done. }
  assert (Hx : (l1 ++ x :: l2) !! length l1 = Some x) by (rewrite lookup_app_r, Nat.sub_diag by lia; done). split.
  - intros i j a b Hne Hi Hj. apply (H (f i) (f j)); [unfold f; repeat case_decide; lia|by apply Hf|by apply Hf].
  - intros a [i Hi]%list_elem_of_lookup. apply Hf in Hi. assert (Hn : f i <> length l1) by (unfold f; case_decide; lia). split; [by apply (H (f i) (length l1))|by apply (H (length l1) (f i))].
Qed.

(** Memory from [lo] to [hi] is gone, with the segments and the chunks that were there. *)
Lemma unmapped_ok m m' L L' Ms Mt D D' lo hi : space_ok m L Ms Mt D -> (smallmap m', ms_at m', magic m', top_part m') = (smallmap m, ms_at m, magic m, top_part m) ->
  core m' = MState (least_addr (core m)) (treebins_at (core m)) (treemap (core m)) (treebins (core m)) (chunks (core m')) ->
  (forall b, b < lo \/ hi <= b -> read m' b = read m b) -> (forall x, x + 8 <= lo \/ hi <= x -> mapped m x = true -> mapped m' x = true) ->
  (forall sg, sg ∈ L' -> sg ∈ L /\ regions_apart (sl_region sg) (lo, hi)) -> (forall d, d ∈ direct m' -> d ∈ direct m /\ regions_apart d (lo, hi)) ->
  (forall i j s1 s2, i <> j -> L' !! i = Some s1 -> L' !! j = Some s2 -> seg_apart s1 s2) -> (L' <> [] /\ forall j sg, L' !! j = Some sg -> sl_top sg = bool_decide (j = 0)%nat) ->
  Forall2 seg_matches (segs m') L' -> head (seg_at <$> segs m') = Some (ms_at m + 880) -> (forall i j r1 r2, i <> j -> direct m' !! i = Some r1 -> direct m' !! j = Some r2 -> regions_apart r1 r2) ->
  of_kind KFree (all_placed L') ≡ₚ map_to_list Ms ++ map_to_list Mt ++ D' -> (ms_at m - 16, KSys, 960) ∈ all_placed L' -> space_ok m' L' Ms Mt D'.
Proof.
  intros O [= E1 E2 E3 E4 E5] Ec Hread Hmap HL Hdir HA Htp HM Hfst Hds HFr Hh. pose proof (ok_least _ _ _ _ _ O) as Hl0. assert (El : least_addr (core m') = least_addr (core m)) by (by rewrite Ec).
  assert (Ef : footer m' = footer m) by (unfold footer; by rewrite E2, E3). assert (Hv : forall b, b < lo \/ hi <= b -> heads_of_space m' b = heads_of_space m b) by (intros b Hb; by apply heads_read, Hread).
  apply (rebuild m m' L L' Ms Mt D D' O); try done; try (by rewrite Ec).
  - intros a k s b Ha Hb. apply in_placed in Ha as (j & sg & Hj & Ha). destruct (HL sg (list_elem_of_lookup_2 _ _ _ Hj)) as [Hin HAp]. pose proof (seg_bounds _ _ _ _ _ (proj1 (Forall_forall _ _) (ok_segs _ _ _ _ _ O) sg Hin) Ha) as Hbd.
    assert (Ho : b < lo \/ hi <= b) by (unfold regions_apart, sl_region in HAp; cbn in HAp; lia). by rewrite Hv, Hread.
  - rewrite Forall_forall. intros sg Hsg. destruct (HL sg Hsg) as [Hin HAp]. unfold regions_apart, sl_region in HAp. cbn in HAp.
    apply (seg_keep m m' sg (proj1 (Forall_forall _ _) (ok_segs _ _ _ _ _ O) sg Hin)); [done|intros x ??; apply Hmap; lia|lia|done|intros b Hb; rewrite Hread by lia; done|intros x Hx; by rewrite Hv by lia].
  - rewrite Forall_forall. intros d Hd. destruct (Hdir d Hd) as [Hin HAp]. unfold regions_apart in HAp. cbn in HAp.
    apply (direct_same m m' d (proj1 (Forall_forall _ _) (ok_direct _ _ _ _ _ O) d Hin)); [done|lia|intros b Hb; rewrite Hread by lia; done|intros x Hx; by rewrite Hv by lia].
  - intros d Hd sg Hsg. destruct (Hdir d Hd) as [Hin _]. destruct (HL sg Hsg) as [Hin2 _]. by apply (ok_dapart _ _ _ _ _ O).
Qed.

(** ** Chunks with memory of their own *)
Lemma direct_range m L Ms Mt D d : space_ok m L Ms Mt D -> d ∈ direct m -> d.1 < d.2.
Proof. intros O Hd. destruct (do_size _ _ (proj1 (Forall_forall _ _) (ok_direct _ _ _ _ _ O) d Hd)). lia. Qed.

Lemma apart_sym r1 r2 : regions_apart r1 r2 -> regions_apart r2 r1.
Proof. unfold regions_apart. tauto. Qed.

Lemma direct_freed m L Ms Mt D d n : space_ok m L Ms Mt D -> d ∈ direct m -> let m' := shrink_footprint n (munmap d.1 d.2 m) in space_ok m' L Ms Mt D /\ direct m ≡ₚ d :: direct m'.
Proof.
  intros O Hd m'. apply list_elem_of_split in Hd as (d1 & d2 & Ed). pose proof (ok_dseq _ _ _ _ _ O) as Hseq. rewrite Ed in Hseq. destruct (pairwise_remove regions_apart d1 d d2 Hseq) as [Hseq' Hrest].
  assert (Hdd : d ∈ direct m) by (rewrite Ed; apply elem_of_app; right; by left). pose proof (direct_range m L Ms Mt D d O Hdd) as Hlt.
  assert (Edir : direct m' = d1 ++ d2).
  { unfold m'. cbn. rewrite Ed. assert (Hun : unmap d.1 d.2 (d1 ++ d :: d2) = unmap d.1 d.2 d1 ++ unmap d.1 d.2 d2) by (unfold unmap; rewrite bind_app; cbn; by rewrite unmap_gone).
    rewrite Hun. assert (Hok : forall r, r ∈ d1 ++ d2 -> r.1 < r.2 /\ regions_apart r (d.1, d.2)).
    { intros r Hr. split; [apply (direct_range m L Ms Mt D r O); rewrite Ed; apply elem_of_app; apply elem_of_app in Hr as [?|?]; [by left|right; by right]|]. destruct (Hrest r Hr) as [HA _]. by destruct d. }
    rewrite !unmap_apart; [done|lia|intros r Hr; apply Hok, elem_of_app; by right|lia|intros r Hr; apply Hok, elem_of_app; by left]. }
  assert (Hsub : forall r, r ∈ d1 ++ d2 -> r ∈ direct m) by (intros r Hr; rewrite Ed; apply elem_of_app; apply elem_of_app in Hr as [?|?]; [by left|right; by right]). split.
  - apply (unmapped_ok m m' L L Ms Mt D D d.1 d.2 O); try done.
    + intros b Hb. by apply (munmap_read d.1 d.2 m).
    + intros x Hx. apply (munmap_mapped d.1 d.2 m); [lia|done].
    + intros sg Hsg. split; [done|]. apply apart_sym. pose proof (ok_dapart _ _ _ _ _ O d Hdd sg Hsg) as HA. by destruct d.
    + rewrite Edir. intros r Hr. split; [by apply Hsub|]. destruct (Hrest r Hr) as [HA _]. by destruct d.
    + apply O.
    + apply O.
    + apply O.
    + apply O.
    + by rewrite Edir.
    + apply O.
    + apply O.
  - rewrite Edir, Ed. solve_Permutation.
Qed.

Lemma owned_positive m L Ms Mt D : space_ok m L Ms Mt D -> 0 <= owned_bytes m.
Proof.
  intros O. destruct (owned_range m L Ms Mt D O) as (_ & Hs & Hd). unfold owned_bytes. assert (H1 : forall l : list segment, (forall s, s ∈ l -> 0 <= seg_size s) -> 0 <= zsum (seg_size <$> l)).
  { induction l as [|s l IH]; intros Hl; [done|]. rewrite fmap_cons, zsum_cons. pose proof (Hl s ltac:(by left)). pose proof (IH ltac:(intros s' Hs'; apply Hl; by right)). lia. }
  pose proof (H1 (segs m) Hs). destruct (direct m) as [|d l]; [cbn; lia|]. pose proof (Hd d ltac:(by left)). lia.
Qed.

Lemma freed_account m L Ms Mt D d : space_ok m L Ms Mt D -> d ∈ direct m -> accounted m -> accounted (shrink_footprint (d.2 - d.1) (munmap d.1 d.2 m)).
Proof.
  intros O Hd. destruct (direct_freed m L Ms Mt D d (d.2 - d.1) O Hd) as [O' HP]. set (m' := shrink_footprint _ _) in *. destruct (owned_range m L Ms Mt D O) as ([_ Hlt] & _ & Hdd). specialize (Hdd d Hd). pose proof (owned_positive m' _ _ _ _ O') as Hpos.
  assert (Eo : owned_bytes m' = owned_bytes m - (d.2 - d.1)) by (unfold owned_bytes; rewrite HP, sizes_cons; change (segs m') with (segs m); lia). apply (shrunk_account (d.2 - d.1) m m'); try done; lia.
Qed.

(** [mspace_free] finds such a chunk by its flags. *)
Lemma free_direct m L Ms Mt D d : space_ok m L Ms Mt D -> d ∈ direct m -> free_inside (chunk2mem d.1) m = Some (m, FreeMapped d.1 (d.2 - d.1)).
Proof.
  intros O Hd. destruct (proj1 (Forall_forall _ _) (ok_direct _ _ _ _ _ O) d Hd) as [(A8 & A0 & Al) [S8 S64] [Ht Hf] [D1 D2] _]. apply tags_pair in Ht as [Hpf Hh], Hf as [Hf _]. unfold free_inside. rewrite mem_chunk, (space_read m m _ d.1 (space_is_self m) D1). cbn [mbind option_bind].
  set (s := d.2 - d.1 - 32) in *. assert (Hs8 : s mod 8 = 0) by (unfold s; clear -S8; Z.div_mod_to_equations; lia). assert (Hhd : tc_head (heads_of_space m d.1) = s + 0) by lia.
  rewrite (size_of_head _ s 0 Hhd Hs8) by lia. replace (d.1 + s) with (d.2 - 32) by (unfold s; lia). rewrite (space_read m m _ _ (space_is_self m) D2). cbn [mbind option_bind]. rewrite Hf. unfold footer at 1. rewrite Z.lxor_assoc, Z.lxor_nilpotent, Z.lxor_0_r, Z.eqb_refl. cbn [guard_].
  unfold ok_address. rewrite (proj2 (Z.leb_le _ _) Al). unfold is_inuse, is_mmapped, pinuse, PINUSE_BIT. change INUSE_BITS with 3. rewrite Hhd, !(land_flags s) by (done || lia). change (Z.land 0 3) with 0. change (Z.land 0 1) with 0. cbn [Z.eqb negb andb guard_]. rewrite Hpf. do 3 f_equal; unfold s; lia.
Qed.

(** ** Segments without chunks in use *)
(** The first chunk of a segment that is not the most recent one; free and as large as the
    segment, it has only the record of the segment behind it. *)
Lemma older_first m sg : seg_ok m sg -> sl_top sg = false -> exists k s bs, sl_blocks sg = (k, s) :: bs /\ tc_head (heads_of_space m (sl_start sg)) = head_word k s true /\ s mod 8 = 0 /\ 32 <= s /\
  (k = KFree -> sl_limit sg - 80 <= sl_start sg + s -> bs = [(KSys, 48)] /\ sl_end sg = sl_start sg + s + 48).
Proof.
  intros S Htop. pose proof (so_end _ _ S) as He. rewrite Htop in He. destruct He as (_ & b1 & Eb). pose proof (so_lay _ _ S) as HL. rewrite Eb in HL |- *. pose proof (so_limit _ _ S) as Hlim. destruct b1 as [|[k s] b1]; cbn [app] in *; destruct HL as ((Hh & H8 & H32) & Hk & HL).
  - exists KSys, 48, []. split_and!; try done.
  - exists k, s, (b1 ++ [(KSys, 48)]). split_and!; try done. intros -> Hfull. apply lay_app in HL as (c & q & H1 & H2). destruct H2 as (_ & _ & [H2 _]). destruct b1 as [|[k2 s2] b1].
    + destruct H1 as [<- _]. split; [done|]. lia.
    + exfalso. destruct H1 as ((_ & _ & H322) & _ & H3). destruct (lay_end _ _ _ _ _ _ _ H3) as (? & ? & _). lia.
Qed.

Section ReleaseOne.
Context (m : mspace) (Lk : list seglay) (sg : seglay) (Ln : list seglay) (Ms Mt : gmap Z Z) (D : list (Z * Z)) (s : Z) (O : space_ok m (Lk ++ sg :: Ln) Ms Mt ((sl_start sg, s) :: D)).
Context (kept : list segment) (sp : segment) (next : list segment) (Es : segs m = kept ++ sp :: next) (Hlen : length kept = length Lk) (Hk : Lk <> []) (Hb : sl_blocks sg = [(KFree, s); (KSys, 48)]).

Lemma release_one n : let m' := with_segs (kept ++ next) (shrink_footprint n (munmap (sl_start sg) (sl_limit sg) m)) in
  space_ok m' (Lk ++ Ln) Ms Mt D /\ used (Lk ++ Ln) = used (Lk ++ sg :: Ln) /\ direct m' = direct m.
Proof using Type*.
  intros m'. pose proof (ok_apart _ _ _ _ _ O) as HA. destruct (pairwise_remove seg_apart Lk sg Ln HA) as [HA' Hrest]. pose proof (proj1 (Forall_forall _ _) (ok_segs _ _ _ _ _ O)) as HS.
  assert (Hsg : sg ∈ Lk ++ sg :: Ln) by (apply elem_of_app; right; by left). assert (Hlt : sl_start sg < sl_limit sg) by (pose proof (HS sg Hsg) as S; destruct (lay_end _ _ _ _ _ _ _ (so_lay _ _ S)) as (? & ? & _); pose proof (so_limit _ _ S); lia).
  assert (Hsub : forall s2, s2 ∈ Lk ++ Ln -> s2 ∈ Lk ++ sg :: Ln) by (intros s2; rewrite !elem_of_app, elem_of_cons; tauto).
  assert (Edir : direct m' = direct m) by (cbn; apply unmap_apart; [lia|]; intros r Hr; split; [by apply (direct_range m _ Ms Mt _ r O)|]; by apply (ok_dapart _ _ _ _ _ O r Hr sg)).
  assert (Epl : seg_placed sg = [(sl_start sg, KFree, s); (sl_start sg + s, KSys, 48)]) by (unfold seg_placed; by rewrite Hb). assert (Eall : all_placed (Lk ++ sg :: Ln) = all_placed Lk ++ seg_placed sg ++ all_placed Ln) by (unfold all_placed; rewrite fmap_app, concat_app; done).
  assert (Eall' : all_placed (Lk ++ Ln) = all_placed Lk ++ all_placed Ln) by (unfold all_placed; by rewrite fmap_app, concat_app).
  pose proof (ok_match _ _ _ _ _ O) as HM. rewrite Es in HM. apply Forall2_app_inv in HM as [HM1 HM2]; [|done]. apply Forall2_cons in HM2 as [_ HM2]. split; [|split; [|done]].
  2: { unfold used. rewrite Eall, Eall', Epl, !of_kind_app. done. }
  apply (unmapped_ok m m' (Lk ++ sg :: Ln) (Lk ++ Ln) Ms Mt _ D (sl_start sg) (sl_limit sg) O); try done.
  - intros b Hbb. by apply (munmap_read (sl_start sg) (sl_limit sg) m).
  - intros x Hx. apply (munmap_mapped (sl_start sg) (sl_limit sg) m); [lia|done].
  - intros s2 H2. split; [by apply Hsub|]. destruct (Hrest s2 H2) as [HA2 _]. exact HA2.
  - rewrite Edir. intros d Hd. split; [done|]. by apply (ok_dapart _ _ _ _ _ O d Hd sg).
  - destruct (ok_top _ _ _ _ _ O) as [_ Htp]. split; [by destruct Lk|]. intros j s2 Hj. destruct (decide (j < length Lk)%nat) as [Hl|Hl].
    + rewrite lookup_app_l in Hj by done. apply Htp. by rewrite lookup_app_l.
    + rewrite lookup_app_r in Hj by lia. rewrite bool_decide_false by (destruct Lk; [done|cbn in Hl; lia]). assert (Hj' : (Lk ++ sg :: Ln) !! S j = Some s2) by (rewrite lookup_app_r by lia; by replace (S j - length Lk)%nat with (S (j - length Lk)) by lia). by rewrite (Htp _ _ Hj').
  - apply Forall2_app; done.
  - pose proof (ok_first _ _ _ _ _ O) as Hf. rewrite Es in Hf. cbn. destruct kept; [by destruct Lk|]. exact Hf.
  - rewrite Edir. apply O.
  - pose proof (ok_free _ _ _ _ _ O) as HP. rewrite Eall, Epl in HP. rewrite Eall'. rewrite !of_kind_app in *. change (of_kind KFree [(sl_start sg, KFree, s); (sl_start sg + s, KSys, 48)]) with [(sl_start sg, s)] in HP.
    apply (Permutation_app_inv_l [(sl_start sg, s)]). transitivity (of_kind KFree (all_placed Lk) ++ [(sl_start sg, s)] ++ of_kind KFree (all_placed Ln)); [solve_Permutation|]. rewrite HP. solve_Permutation.
  - pose proof (ok_hdr _ _ _ _ _ O) as Hh. rewrite Eall, Epl in Hh. rewrite Eall'. rewrite !elem_of_app, !elem_of_cons in *. destruct Hh as [?|[[?|[?|?%elem_of_nil]]|?]]; (tauto || done).
Qed.
End ReleaseOne.

(** What giving memory back leaves: the invariant, the chunks held and the account. *)
Definition trimmed (m m' : mspace) (L : list seglay) : Prop := exists L' Ms' Mt', space_inv m' L' Ms' Mt' /\ used L' = used L /\ direct m' = direct m /\ (accounted m -> accounted m').

Lemma trimmed_trans m m1 m2 L L1 : (used L1 = used L /\ direct m1 = direct m) -> (accounted m -> accounted m1) -> trimmed m1 m2 L1 -> trimmed m m2 L.
Proof. intros [E1 E2] HA (L2 & Ms2 & Mt2 & H & F1 & F2 & F3). exists L2, Ms2, Mt2. split; [done|]. split; [congruence|]. split; [congruence|]. auto. Qed.
Lemma trimmed_refl m L Ms Mt : space_inv m L Ms Mt -> trimmed m m L.
Proof. intros H. by exists L, Ms, Mt. Qed.

(** The free chunk that fills a segment leaves its bin, or is the victim no more. *)
Lemma take_from_bin m L Ms Mt a s : space_inv m L Ms Mt -> (a, KFree, s) ∈ all_placed L -> 256 <= s ->
  exists m1 Mt1, (if a =? dv m then Some (with_dv 0 0 m) else on_core (unlink_large_chunk a) m) = Some m1 /\ space_ok m1 L Ms Mt1 ((a, s) :: dv_list m1) /\ 0 <= dvsize m1 /\ (dvsize m1 = 0 -> dv m1 = 0) /\ (segs m1, top_part m1, direct m1) = (segs m, top_part m, direct m) /\ (footprint m1, max_footprint m1) = (footprint m, max_footprint m).
Proof.
  intros (O & Hd1 & Hd0) Ha Hs. destruct (Z.eqb_spec a (dv m)) as [E|E].
  - destruct (dv_at m L Ms Mt a s O Ha Hd0 E) as [Es Hne]. exists (with_dv 0 0 m), Mt. split; [done|]. split; [|by split_and!]. destruct (dv_cases m) as [[? _]|[_ El]]; [done|]. rewrite El, <- E, Es in O. apply (space_ok_fields m); done.
  - apply of_kind_in in Ha. rewrite (ok_free _ _ _ _ _ O), !elem_of_app, !elem_of_map_to_list in Ha. destruct Ha as [Ha|[Ha|Ha]]; [|destruct (unlink_tree m L Ms Mt _ O a s Ha) as (m1 & E1 & HE & O1)|by apply dv_list_at in Ha].
    + destruct (small_member m L Ms Mt _ O a s Ha) as [_ Hsm]. rewrite is_small_eq in Hsm by lia. lia.
    + exists m1, (delete a Mt). split; [done|]. pose proof (le_rest _ _ HE) as Er. apply links_keeps in HE. rewrite (keeps_dv_list m m1 HE). split; [done|]. destruct HE as [K1 K2 _ _]. rewrite K1, K2. split; [done|]. split; [done|]. split; by rewrite Er.
Qed.

Lemma release_loop_ok U rest : forall kept released nsegs m L Ms Mt, space_inv m L Ms Mt -> segs m = kept ++ rest -> kept <> [] ->
  exists m' r n, release_segments U kept rest released nsegs m = Some (m', r, n) /\ trimmed m m' L.
Proof.
  induction rest as [|sp next IH]; intros kept released nsegs m L Ms Mt HI Es Hk.
  - exists m, released, nsegs. split; [done|]. by eapply trimmed_refl.
  - assert (Hskip : exists m' r n, release_segments U (kept ++ [sp]) next released (nsegs + 1) m = Some (m', r, n) /\ trimmed m m' L) by (apply (IH (kept ++ [sp]) released (nsegs + 1) m L Ms Mt HI); [by rewrite <- app_assoc|by destruct kept]).
    cbn [release_segments]. destruct (is_mmapped_segment sp && negb (is_extern_segment sp)) eqn:Efl; [|exact Hskip]. apply andb_true_iff in Efl as [Fm Fe%negb_true_iff]. pose proof HI as (O & Hd1 & Hd0).
    assert (Hi : segs m !! length kept = Some sp) by (rewrite Es, lookup_app_r, Nat.sub_diag by lia; done). destruct (segment_range m L Ms Mt _ _ sp O Hi) as (sg & Hsg & [M1 M2 M3 M4] & S). specialize (M4 Fm Fe).
    assert (Htop : sl_top sg = false) by (destruct (ok_top _ _ _ _ _ O) as [_ Htp]; rewrite (Htp _ _ Hsg); apply bool_decide_eq_false; by destruct kept). destruct (so_start _ _ S) as (Hs8 & Hs0 & _).
    destruct (older_first m sg S Htop) as (k & s & bs & Hb & Hh & H8 & H32 & Hwhole). rewrite M1, (aligned_offset _ Hs8), Z.add_0_r. assert (Hpl : (sl_start sg, k, s) ∈ seg_placed sg) by (unfold seg_placed; rewrite Hb; by left).
    assert (Hin : (sl_start sg, k, s) ∈ all_placed L) by (apply in_placed; eauto). rewrite (space_read m m _ _ (space_is_self m) (so_dom _ _ S _ _ _ Hpl)). cbn [mbind option_bind]. destruct (head_flags k s true _ Hh H8) as (-> & _ & _ & -> & _). change TOP_FOOT_SIZE with 80.
    destruct (negb _ && (sl_start sg + seg_size sp - 80 <=? sl_start sg + s)) eqn:Efree; [|exact Hskip]. apply andb_true_iff in Efree as [Ek Hfull%Z.leb_le]. assert (k = KFree) as -> by (by destruct k). destruct (Hwhole eq_refl ltac:(lia)) as [-> Eend]. pose proof (so_limit _ _ S) as Hlim.
    assert (Hold : segment_holds sp (seg_at sp) = true) by (unfold segment_holds; rewrite (M3 Htop); apply andb_true_iff; split; [apply Z.leb_le|apply Z.ltb_lt]; lia). rewrite Hold. cbn [guard_].
    assert (Hbig : 256 <= s) by (assert (0 < seg_size sp) by lia; clear -M4 Hfull H; Z.div_mod_to_equations; lia).
    destruct (take_from_bin m L Ms Mt _ s HI Hin Hbig) as (m1 & Mt1 & -> & O1 & Hd1' & Hd0' & [= Es1 Et1 Et2 Ed1] & [= Ef1 Em1]). cbn [mbind option_bind]. destruct (U (sl_start sg) (seg_size sp)).
    + destruct (list_elem_of_split_length L _ sg Hsg) as (Lk & Ln & EL & Elen). rewrite EL in O1. assert (Ebl : sl_blocks sg = [(KFree, s); (KSys, 48)]) by done.
      assert (HkL : Lk <> []) by (intros ->; cbn in Elen; by destruct kept). destruct (release_one m1 Lk sg Ln Ms Mt1 _ s O1 kept sp next ltac:(by rewrite Es1) ltac:(lia) HkL Ebl (seg_size sp)) as (O2 & HU & Ed2). replace (sl_start sg + seg_size sp) with (sl_limit sg) by lia.
      set (m2 := with_segs (kept ++ next) (shrink_footprint (seg_size sp) (munmap (sl_start sg) (sl_limit sg) m1))) in *.
      destruct (IH kept (released + seg_size sp) (nsegs + 1) m2 (Lk ++ Ln) Ms Mt1) as (m' & r & n & E & HT); [split; [exact O2|done]|done|done|]. exists m', r, n. split; [done|]. apply (trimmed_trans m m2 m' L (Lk ++ Ln)); [split; [by rewrite HU, EL|congruence]| |exact HT].
      intros HA. pose proof (owned_range m L Ms Mt _ O) as ([_ Hlt] & Hsz & _). assert (Ho : owned_bytes m = owned_bytes m2 + seg_size sp) by (unfold owned_bytes; rewrite Ed2, Ed1, Es; cbn [m2 with_segs segs]; rewrite !fmap_app, !zsum_app, fmap_cons, zsum_cons; lia).
      destruct (owned_range m2 _ _ _ _ O2) as ([Hge _] & _ & _). apply (shrunk_account (seg_size sp) m m2); [|done|lia|cbn; by rewrite Ef1|cbn; by rewrite Em1|done]. split; [apply Hsz; rewrite Es; apply elem_of_app; right; by left|]. pose proof (owned_positive m2 _ _ _ _ O2). lia.
    + assert (Hns : is_small s = false) by (rewrite is_small_eq by lia; lia). destruct (insert_tree m1 L Ms Mt1 _ _ s O1 Hns) as (m2 & -> & HE & O2). cbn [mbind option_bind]. pose proof (le_rest _ _ HE) as Er. apply links_keeps in HE. rewrite <- (keeps_dv_list m1 m2 HE) in O2.
      destruct (IH (kept ++ [sp]) released (nsegs + 1) m2 L Ms (<[sl_start sg := s]> Mt1)) as (m' & r & n & E & HT); [split; [exact O2|]; destruct HE as [-> -> _ _]; done|rewrite Er; cbn; rewrite Es1, <- app_assoc; done|by destruct kept|].
      exists m', r, n. split; [done|]. assert (E4 : (segs m2, direct m2, footprint m2, max_footprint m2) = (segs m, direct m, footprint m, max_footprint m)) by (rewrite Er; cbn; congruence). injection E4 as G1 G2 G3 G4.
      apply (trimmed_trans m m2 m' L L); [done|apply same_account; [unfold owned_bytes; by rewrite G1, G2|done|done]|exact HT].
Qed.

Lemma release_segments_ok U m L Ms Mt : space_inv m L Ms Mt -> exists m' r, release_unused_segments U m = Some (m', r) /\ trimmed m m' L.
Proof.
  intros HI. unfold release_unused_segments. pose proof HI as (O & _). pose proof (ok_first _ _ _ _ _ O) as Hf. destruct (segs m) as [|s rest] eqn:Es; [done|].
  destruct (release_loop_ok U rest [s] 0 0 m L Ms Mt HI Es ltac:(done)) as (m' & r & n & -> & L' & Ms' & Mt' & (O' & H1 & H2) & HU & Hd & HA). cbn [mbind option_bind]. eexists _, _. split; [done|]. exists L', Ms', Mt'. split; [|done]. split; [|done]. by apply (space_ok_fields m').
Qed.

(** ** The end of the top chunk *)
Lemma trim_extra_bounds P pad m : params_ok P -> 80 <= pad < topsize m -> let e := trim_extra P pad m in 0 <= e < topsize m - pad /\ e mod 4096 = 0.
Proof.
  intros (j & k & _ & Hk & _ & Eg) Hp e. unfold e, trim_extra. rewrite Eg. assert (Hu : 0 < 2 ^ k) by lia. assert (E4 : 2 ^ k = 2 ^ (k - 12) * 4096) by (change 4096 with (2 ^ 12); rewrite <- Z.pow_add_r by lia; f_equal; lia).
  set (x := topsize m - pad) in *. assert (Hx : 0 < x) by (unfold x; lia). set (q := (x + (2 ^ k - 1)) / 2 ^ k). assert (Hq : 1 <= q) by (unfold q; apply Z.div_le_lower_bound; lia).
  assert (Hlt : (q - 1) * 2 ^ k < x). { unfold q. pose proof (Z.mul_div_le (x + (2 ^ k - 1)) (2 ^ k) Hu). lia. }
  split; [nia|]. rewrite E4, Z.mul_assoc. apply Z.mod_mul. lia.
Qed.

Lemma first_segment m L Ms Mt D : space_ok m L Ms Mt D -> exists s rs sg L1, segs m = s :: rs /\ L = sg :: L1 /\ seg_matches s sg /\ seg_ok m sg /\ sl_end sg = top m /\ sl_limit sg = top m + topsize m + 80 /\ segment_holds s (top m) = true /\ seg_at s = ms_at m + 880.
Proof.
  intros O. destruct (top_seg m L Ms Mt D O) as (i & sg & Hi & Htop & S & Ee & _ & H0 & _ & Hle & Hlim & _). destruct (ok_top _ _ _ _ _ O) as [_ Htp]. rewrite (Htp _ _ Hi) in Htop. apply bool_decide_eq_true in Htop as ->.
  pose proof (ok_match _ _ _ _ _ O) as HM. pose proof (ok_first _ _ _ _ _ O) as Hf. destruct L as [|sg' L1]; [done|]. cbn in Hi. injection Hi as ->. destruct (segs m) as [|s rs]; [done|]. apply Forall2_cons in HM as [HM _]. cbn in Hf. injection Hf as Hf.
  exists s, rs, sg, L1. split_and!; try done. unfold segment_holds. destruct HM as [M1 M2 _ _]. apply andb_true_iff. split; [apply Z.leb_le|apply Z.ltb_lt]; lia.
Qed.

Lemma trim_top_ok P U pad m L Ms Mt : params_ok P -> 80 <= pad -> space_inv m L Ms Mt -> exists m' r, trim_top P U pad m = Some (m', r) /\ trimmed m m' L.
Proof.
  intros HP Hpad HI. assert (Hsame : trimmed m m L) by (by eapply trimmed_refl). unfold trim_top. destruct (Z.ltb_spec pad (topsize m)) as [Hlt|]; [|eauto]. pose proof HI as (O & Hd1 & Hd0).
  destruct (trim_extra_bounds P pad m HP ltac:(lia)) as [He He4]. destruct (first_segment m L Ms Mt _ O) as (s & rs & sg & L1 & Es & EL & [M1 M2 M3 M4] & S & Ee & Elim & Hh & Eat). subst L.
  rewrite (holding_top m s rs Es Hh). cbn [mbind option_bind]. destruct (_ && _ && _ && _ && _) eqn:Ec; [|by rewrite Z.eqb_refl; eauto]. set (e := trim_extra P pad m) in *. destruct (Z.eqb_spec e 0) as [|Hne]; [eauto|]. cbn [negb].
  apply andb_true_iff in Ec as [Ec _]. apply andb_true_iff in Ec as [Ec _]. apply andb_true_iff in Ec as [Ec _]. apply andb_true_iff in Ec as [Fe%negb_true_iff Fm]. specialize (M4 Fm Fe).
  set (lim := sl_limit sg - e). replace (seg_base s + (seg_size s - e)) with lim by (unfold lim; lia). rewrite M2. set (mm := munmap lim (sl_limit sg) m). change (top mm) with (top m). change (segs mm) with (segs m). rewrite Es. cbn [edit_segment]. rewrite Hh.
  set (r' := Segment (seg_at s) (seg_base s) (seg_size s - e) (seg_flags s)). set (m2 := shrink_footprint e (with_segs (r' :: rs) mm)). change (topsize m2) with (topsize m). change (top m2) with (top m).
  assert (Etop : sl_top sg = true) by (destruct (ok_top _ _ _ _ _ O) as [_ Htp]; by rewrite (Htp 0%nat sg eq_refl)). destruct (lay_end _ _ _ _ _ _ _ (so_lay _ _ S)) as (El & Ht0 & _). pose proof (so_limit8 _ _ S) as Hl8.
  assert (Edir : direct mm = direct m). { cbn. apply unmap_apart; [unfold lim; lia|]. intros r Hr. split; [by apply (direct_range m _ Ms Mt _ r O)|]. pose proof (ok_dapart _ _ _ _ _ O r Hr sg ltac:(by left)) as HA. unfold regions_apart, sl_region in *. cbn in *. unfold lim. lia. }
  replace (topsize m - e) with (lim - 80 - top m) by (unfold lim; lia). pose proof (ok_least _ _ _ _ _ O) as Hl0.
  assert (HB : same_bins m m2). { split; [change (direct m2) with (direct mm); by rewrite Edir|]. split; [done|]. split; [done|]. cbn. lia. }
  assert (HsegL : forall j s2, j <> 0%nat -> (sg :: L1) !! j = Some s2 -> seg_apart sg s2) by (intros j s2 Hj Hj2; by apply (ok_apart _ _ _ _ _ O 0%nat j)).
  destruct (resize_top m m2 (sg :: L1) Ms Mt _ O sg eq_refl s r' ltac:(by rewrite Es) lim (trim_threshold P) HB) as (m' & Ei & O' & St & HB' & _ & Esg'); try done.
  - by rewrite Es.
  - split; cbn; [done|unfold lim; lia|done|]. intros _ _. clear -M4 He4. Z.div_mod_to_equations. lia.
  - unfold lim. lia.
  - unfold lim. clear -Hl8 He4. Z.div_mod_to_equations. lia.
  - pose proof (so_size _ _ S). unfold lim. lia.
  - intros b Hb. by apply (munmap_read lim (sl_limit sg) m).
  - intros x Hx. apply (munmap_mapped lim (sl_limit sg) m); [unfold lim; lia|done].
  - intros x X1 X2 X3. apply (munmap_mapped lim (sl_limit sg) m); [unfold lim; lia|by left|]. apply (so_covers _ _ S); [done|done|unfold lim in *; lia].
  - intros j s2 Hj Hj2. pose proof (HsegL j s2 Hj Hj2) as HA. unfold regions_apart, sl_region, seg_apart in *. cbn. unfold lim. lia.
  - intros d Hd. pose proof (ok_dapart _ _ _ _ _ O d Hd sg ltac:(by left)) as HA. unfold regions_apart, sl_region in *. cbn in *. unfold lim. lia.
  - rewrite Ei. cbn [mbind option_bind]. eexists m', _. split; [done|]. destruct HB' as ([= _ _ _ Ed] & [= Ev1 Ev2] & _). eexists _, Ms, Mt. split; [|split; [|split; [done|]]].
    + unfold space_inv, dv_list. rewrite Ev1, Ev2. split; [exact O'|done].
    + done.
    + intros HA. apply init_top_outer in Ei. apply (outer_account _ _ Ei). destruct (owned_range m _ Ms Mt _ O) as ([Hge Hlt'] & Hsz & _). pose proof (owned_positive m' _ _ _ _ O') as Hpos. injection Ei as _ Ed' _ Es' _ _ _.
      assert (Ho : owned_bytes m2 = owned_bytes m - e) by (unfold owned_bytes; change (direct m2) with (direct mm); rewrite Edir, Es; change (segs m2) with (r' :: rs); rewrite !fmap_cons, !zsum_cons; unfold r'; cbn [seg_size]; lia).
      assert (Ho' : owned_bytes m' = owned_bytes m2) by (unfold owned_bytes; by rewrite Ed', Es'). by apply (shrunk_account e m m2); try done; lia.
Qed.

Lemma sys_trim_ok P U pad m L Ms Mt : params_ok P -> 0 <= pad -> space_inv m L Ms Mt -> exists m' b, sys_trim P U pad m = Some (m', b) /\ trimmed m m' L.
Proof.
  intros HP Hpad HI. unfold sys_trim. destruct (_ && _); [|eexists m, _; split; [done|]; by eapply trimmed_refl]. change TOP_FOOT_SIZE with 80. destruct (trim_top_ok P U (pad + 80) m L Ms Mt HP ltac:(lia) HI) as (m1 & r1 & -> & L1 & Ms1 & Mt1 & HI1 & HU1 & Hd1 & HA1). cbn [mbind option_bind].
  destruct (release_segments_ok U m1 L1 Ms1 Mt1 HI1) as (m2 & r2 & -> & L2 & Ms2 & Mt2 & HI2 & HU2 & Hd2 & HA2). cbn [mbind option_bind]. eexists _, _. split; [done|]. exists L2, Ms2, Mt2. destruct (_ && _); (split; [|split; [congruence|split; [cbn; congruence|auto]]]); [|done].
  destruct HI2 as (O2 & H1 & H2). split; [|done]. by apply (space_ok_fields m2).
Qed.

(** ** [mspace_free] *)
Lemma held_positive m L Ms Mt D p sz : space_ok m L Ms Mt D -> (p, sz) ∈ held m L -> 0 < p.
Proof.
  intros O H. apply elem_of_app in H as [H|H].
  - apply of_kind_in, in_placed in H as (i & sg & Hi & H). pose proof (Forall_lookup_1 _ _ _ _ (ok_segs _ _ _ _ _ O) Hi) as S. pose proof (seg_bounds _ _ _ _ _ S H). destruct (so_start _ _ S) as (_ & ? & _). lia.
  - apply list_elem_of_fmap in H as (d & E & Hd). injection E as -> _. destruct (do_at _ _ (proj1 (Forall_forall _ _) (ok_direct _ _ _ _ _ O) d Hd)) as (_ & ? & _). done.
Qed.

(** The chunk is given back; when the system does not take the memory of a chunk that has its
    own, that memory is lost to the space, which is as it was. *)
Lemma mspace_free_ok P U m L Ms Mt p sz : params_ok P -> space_inv m L Ms Mt -> (p, sz) ∈ held m L ->
  exists m' L' Ms' Mt', mspace_free P U (chunk2mem p) m = Some m' /\ space_inv m' L' Ms' Mt' /\ (held m L ≡ₚ (p, sz) :: held m' L' \/ m' = m /\ L' = L /\ (p, sz) ∈ direct_chunks m) /\ (accounted m -> accounted m').
Proof.
  intros HP HI Hp. pose proof HI as (O & Hd1 & Hd0). pose proof (held_positive m L Ms Mt _ p sz O Hp) as H0. unfold mspace_free. unfold chunk2mem at 1. rewrite (proj2 (Z.eqb_neq _ 0)) by lia. pose proof Hp as Hh. apply elem_of_app in Hh as [Hu|Hd].
  - destruct (free_chunk_ok m L Ms Mt p sz HI Hu) as (m1 & a & L1 & Ms1 & Mt1 & E & HI1 & HU). pose proof (free_outer _ _ _ _ E) as EO. pose proof (free_region _ _ _ _ E) as [= _ ER _]. rewrite E. cbn [mbind option_bind].
    assert (Hfin : forall m2, trimmed m1 m2 L1 -> exists L' Ms' Mt', space_inv m2 L' Ms' Mt' /\ held m L ≡ₚ (p, sz) :: held m2 L' /\ (accounted m -> accounted m2)) by (intros m2 (L2 & Ms2 & Mt2 & HI2 & HU2 & Hd2 & HA2); exists L2, Ms2, Mt2; split; [done|]; split; [unfold held, direct_chunks; by rewrite HU, HU2, Hd2, ER|]; intros HA; by apply HA2, (outer_account _ _ EO)).
    assert (Hgo : exists m2, match a with Nothing => Some m1 | TrimTop => '(m0, _) ← sys_trim P U 0 m1; Some m0 | ReleaseSegments => '(m0, _) ← release_unused_segments U m1; Some m0 end = Some m2 /\ trimmed m1 m2 L1).
    { destruct a; [exists m1; split; [done|by eapply trimmed_refl]|destruct (sys_trim_ok P U 0 m1 L1 Ms1 Mt1 HP ltac:(lia) HI1) as (m2 & b & -> & HT)|destruct (release_segments_ok U m1 L1 Ms1 Mt1 HI1) as (m2 & b & -> & HT)]; exists m2; done. }
    destruct Hgo as (m2 & -> & HT). destruct (Hfin m2 HT) as (L' & Ms' & Mt' & HI' & HP' & HA'). exists m2, L', Ms', Mt'. split; [done|]. split; [done|]. split; [by left|done].
  - pose proof Hd as Hdc. apply list_elem_of_fmap in Hd as (d & E & Hd). injection E as -> ->. rewrite (free_direct m L Ms Mt _ d O Hd). cbn [mbind option_bind]. eexists _, L, Ms, Mt. split; [done|]. destruct (U d.1 (d.2 - d.1)).
    + replace (d.1 + (d.2 - d.1)) with d.2 by lia. destruct (direct_freed m L Ms Mt _ d (d.2 - d.1) O Hd) as [O' HP']. split; [split; [exact O'|done]|]. split; [left; unfold held, direct_chunks; rewrite HP'; cbn; solve_Permutation|].
      exact (freed_account m L Ms Mt (dv_list m) d O Hd).
    + split; [done|]. split; [by right|done].
Qed.

(** ** The first segment *)
(** The record of a space is in its first segment, which also has the record of the most recent
    segment: while the space has one segment only, nothing of its top chunk is given back. *)
Theorem single_segment_never_trimmed P U pad m L Ms Mt sg : space_ok m L Ms Mt (dv_list m) -> L = [sg] -> trim_top P U pad m = Some (m, 0).
Proof.
  intros O EL. unfold trim_top. destruct (pad <? topsize m); [|done]. destruct (first_segment m L Ms Mt _ O) as (s & rs & sg' & L1 & Es & EL' & [M1 M2 _ _] & S & _ & _ & Hh & Eat). rewrite EL in EL'. injection EL' as <- <-. rewrite (holding_top m s rs Es Hh). cbn [mbind option_bind].
  assert (Hlink : has_segment_link m s = true).
  { unfold has_segment_link. rewrite Es. cbn [existsb]. apply orb_true_iff. left. pose proof (ok_hdr _ _ _ _ _ O) as Hb. rewrite EL in Hb. unfold all_placed in Hb. cbn in Hb. rewrite app_nil_r in Hb. pose proof (seg_bounds _ _ _ _ _ S Hb).
    unfold segment_holds. rewrite Eat. apply andb_true_iff. split; [apply Z.leb_le|apply Z.ltb_lt]; lia. }
  rewrite Hlink. cbn [negb]. rewrite !andb_false_r. cbn. done.
Qed.
