(* ===== verification/DlRealloc.v ===== *)
(** Chunks resized and chunks with an alignment, include/memory/malloc.c.h: [mmap_resize],
    [internal_realloc], [internal_memalign], [ialloc] and their [mspace] versions.

    Memory is heads, feet and links, so the bytes that a call copies are part of its result:
    how many bytes [memcpy] moves from the old block to the new one. *)
From stdpp Require Import gmap.
From S2P Require Import Prelude DlBins DlTree DlUnlink DlFit DlSmall DlSpace DlSystem.
Local Open Scope Z_scope.

(** ** Macros *)
Definition MMAP_CHUNK_OVERHEAD : Z := 16.
Definition MALLOC_ALIGNMENT : Z := 8.
Definition overhead_for (c : tchunk) : Z := if is_mmapped c then MMAP_CHUNK_OVERHEAD else CHUNK_OVERHEAD.
(** The flag of the chunk before stays. *)
Definition set_inuse (p s : Z) (m : mspace) : option mspace :=
  m ← put_head p (fun h => Z.lor (Z.lor (Z.land h PINUSE_BIT) s) CINUSE_BIT) m;
  m ← put_head (p + s) (fun h => Z.lor h PINUSE_BIT) m;
  mark_inuse_foot p s m.

(** ** [mremap] *)
Definition within (lo hi : Z) (e : Z * tchunk) : Prop := lo <= e.1 < hi.
#[global] Instance within_dec lo hi e : Decision (within lo hi e).
Proof. unfold within. apply _. Defined.
(** The memory from [lo] of [osz] bytes is at [nlo] with [nsz] bytes now, with what was in it. *)
Definition mremap (lo osz nlo nsz : Z) (m : mspace) : mspace :=
  let moved := kmap (Z.add (nlo - lo)) (filter (within lo (lo + Z.min osz nsz)) (chunks (core m))) in
  let m := munmap lo (lo + osz) m in
  with_core (with_chunks (moved ∪ chunks (core m)) (core m)) (with_regions (maps m) ((nlo, nlo + nsz) :: direct m) m).

(** [CALL_MREMAP] is asked for [mmap_size P nb] bytes; zero is the null pointer. *)
Definition mmap_resize (P : malloc_params) (oldp nb : Z) (mr : option Z) (m : mspace) : option (mspace * Z) :=
  c ← read m oldp;
  let oldsize := chunksize c in
  if is_small nb then Some (m, 0)
  else if (nb + 8 <=? oldsize) && (oldsize - nb <=? Z.shiftl (granularity P) 1) then Some (m, oldp)
  else
    let offset := tc_prev_foot c in
    let oldmmsize := oldsize + offset + MMAP_FOOT_PAD in
    let newmmsize := mmap_size P nb in
    match mr with
    | Some cp =>
        let m := mremap (oldp - offset) oldmmsize cp newmmsize m in
        let newp := cp + offset in
        let psize := newmmsize - offset - MMAP_FOOT_PAD in
        m ← put_head newp (fun _ => psize) m;
        m ← mark_inuse_foot newp psize m;
        m ← put_head (newp + psize) (fun _ => FENCEPOST_HEAD) m;
        m ← put_head (newp + psize + 8) (fun _ => 0) m;
        let m := lower_least cp m in
        Some (grow_footprint (newmmsize - oldmmsize) m, newp)
    | None => Some (m, 0)
    end.

(** ** [internal_realloc] *)
(** The chunk resized where it is, or by [mremap]: the chunk, or zero, and the end that is
    left over. *)
Definition resize_chunk (P : malloc_params) (oldp nb : Z) (mr : option Z) (c : tchunk) (m : mspace) : option (mspace * Z * Z) :=
  let oldsize := chunksize c in
  if is_mmapped c then '(m, newp) ← mmap_resize P oldp nb mr m; Some (m, newp, 0)
  else if nb <=? oldsize then
    let rsize := oldsize - nb in
    if MIN_CHUNK_SIZE <=? rsize then
      let remainder := oldp + nb in
      m ← set_inuse oldp nb m;
      m ← set_inuse_and_pinuse remainder rsize m;
      Some (m, oldp, chunk2mem remainder)
    else Some (m, oldp, 0)
  else if (oldp + oldsize =? top m) && (nb <? oldsize + topsize m) then
    let newsize := oldsize + topsize m in
    let newtopsize := newsize - nb in
    let newtop := oldp + nb in
    m ← set_inuse oldp nb m;
    m ← put_head newtop (fun _ => Z.lor newtopsize PINUSE_BIT) m;
    Some (with_top newtop newtopsize m, oldp, 0)
  else Some (m, 0, 0).

(** [internal_free] of a block, when there is one. *)
Definition free_extra (P : malloc_params) (U : Z -> Z -> bool) (extra : Z) (m : mspace) : option mspace :=
  if negb (extra =? 0) then mspace_free P U extra m else Some m.

(** The block, or zero, and the number of bytes copied to it. *)
Definition internal_realloc (P : malloc_params) (U : Z -> Z -> bool) (oldmem bytes : Z) (dm mp mr : option Z) (m : mspace) : option (mspace * Z * Z) :=
  if MAX_REQUEST <=? bytes then Some (m, 0, 0)
  else
    let oldp := mem2chunk oldmem in
    c ← read m oldp;
    let oldsize := chunksize c in
    let next := oldp + oldsize in
    n ← read m next;
    guard_ (ok_address (core m) oldp && is_inuse c && (oldp <? next) && pinuse n) (
    let nb := request2size bytes in
    '(m, newp, extra) ← resize_chunk P oldp nb mr c m;
    if negb (newp =? 0) then m ← free_extra P U extra m; Some (m, chunk2mem newp, 0)
    else
      '(m, newmem) ← mspace_malloc P bytes dm mp m;
      if negb (newmem =? 0) then
        c ← read m oldp;
        let oc := oldsize - overhead_for c in
        m ← mspace_free P U oldmem m;
        Some (m, newmem, if oc <? bytes then oc else bytes)
      else Some (m, 0, 0)).

Definition mspace_realloc (P : malloc_params) (U : Z -> Z -> bool) (oldmem bytes : Z) (dm mp mr : option Z) (m : mspace) : option (mspace * Z * Z) :=
  if oldmem =? 0 then '(m, mem) ← mspace_malloc P bytes dm mp m; Some (m, mem, 0)
  else
    let p := mem2chunk oldmem in
    c ← read m p;
    f ← read m (p + chunksize c);
    (* get_mstate_for(p): the space of the chunk is this one *)
    guard_ (Z.lxor (tc_prev_foot f) (magic m) =? ms_at m) (internal_realloc P U oldmem bytes dm mp mr m).

Definition mspace_usable_size (mem : Z) (m : mspace) : option Z :=
  if mem =? 0 then Some 0
  else c ← read m (mem2chunk mem); Some (if is_inuse c then chunksize c - overhead_for c else 0).

(** ** [internal_memalign] *)
(** [while (a < alignment) a <<= 1]. *)
Fixpoint raise_to (fuel : nat) (a alignment : Z) : option Z :=
  match fuel with
  | O => None
  | S fuel => if a <? alignment then raise_to fuel (u64 (Z.shiftl a 1)) alignment else Some a
  end.
(** A power of two that is as large as [alignment]; 64 doublings leave the machine word. *)
Definition round_alignment (alignment : Z) : option Z :=
  let alignment := if alignment <? MIN_CHUNK_SIZE then MIN_CHUNK_SIZE else alignment in
  if negb (Z.land alignment (alignment - 1) =? 0) then raise_to 64 (Z.shiftl MALLOC_ALIGNMENT 1) alignment else Some alignment.

(** The aligned chunk inside the chunk [p], and the part before it. *)
Definition align_chunk (alignment p : Z) (m : mspace) : option (mspace * Z * Z) :=
  let mem := chunk2mem p in
  if negb (mem mod alignment =? 0) then
    let br := mem2chunk (Z.land (u64 (mem + alignment - 1)) (u64 (- alignment))) in
    let pos := if MIN_CHUNK_SIZE <=? u64 (br - p) then br else br + alignment in
    let newp := pos in
    let leadsize := pos - p in
    c ← read m p;
    let newsize := chunksize c - leadsize in
    if is_mmapped c then
      m ← put_foot newp (tc_prev_foot c + leadsize) m;
      m ← put_head newp (fun _ => newsize) m;
      Some (m, newp, 0)
    else
      m ← set_inuse newp newsize m;
      m ← set_inuse p leadsize m;
      Some (m, newp, chunk2mem p)
  else Some (m, p, 0).

(** The room behind [nb] bytes of the chunk [p]. *)
Definition cut_chunk (nb p : Z) (m : mspace) : option (mspace * Z) :=
  c ← read m p;
  let size := chunksize c in
  if negb (is_mmapped c) && (nb + MIN_CHUNK_SIZE <? size) then
    let remainder_size := size - nb in
    let remainder := p + nb in
    m ← set_inuse p nb m;
    m ← set_inuse remainder remainder_size m;
    Some (m, chunk2mem remainder)
  else Some (m, 0).

Definition memalign_request (alignment bytes : Z) : Z := request2size bytes + alignment + MIN_CHUNK_SIZE - CHUNK_OVERHEAD.
Definition internal_memalign (P : malloc_params) (U : Z -> Z -> bool) (alignment bytes : Z) (dm mp : option Z) (m : mspace) : option (mspace * Z) :=
  if alignment <=? MALLOC_ALIGNMENT then mspace_malloc P bytes dm mp m
  else
    alignment ← round_alignment alignment;
    if MAX_REQUEST - alignment <=? bytes then Some (m, 0)
    else
      let nb := request2size bytes in
      '(m, mem) ← mspace_malloc P (memalign_request alignment bytes) dm mp m;
      if negb (mem =? 0) then
        '(m, p, leader) ← align_chunk alignment (mem2chunk mem) m;
        '(m, trailer) ← cut_chunk nb p m;
        c ← read m p;
        guard_ (nb <=? chunksize c) (
        guard_ (chunk2mem p mod alignment =? 0) (
        m ← free_extra P U leader m;
        m ← free_extra P U trailer m;
        Some (m, chunk2mem p)))
      else Some (m, 0).
Definition mspace_memalign := internal_memalign.

(** ** [ialloc] *)
Definition with_mmap (on : bool) (m : mspace) : mspace :=
  with_mflags (if on then Z.lor (mflags m) USE_MMAP_BIT else Z.land (mflags m) (u32 (Z.lnot USE_MMAP_BIT))) m.
(** The sizes of the chunks: [same] when all elements have the size [sizes[0]]. *)
Definition element_sizes (n : nat) (sizes : list Z) (same : bool) : list Z :=
  if same then replicate n (request2size (default 0 (head sizes))) else request2size <$> take n sizes.
Definition contents_size (n : nat) (sizes : list Z) (same : bool) : Z :=
  if same then u64 (Z.of_nat n * request2size (default 0 (head sizes)))
  else foldl (fun s e => u64 (s + request2size e)) 0 (take n sizes).
(** Split out the elements; the last one has what is left. *)
Fixpoint split_elements (sizes : list Z) (p remainder_size : Z) (m : mspace) : option (mspace * list Z) :=
  match sizes with
  | [] => Some (m, [])
  | [_] => m ← set_size_and_pinuse_of_inuse_chunk p remainder_size m; Some (m, [chunk2mem p])
  | size :: sizes =>
      m ← set_size_and_pinuse_of_inuse_chunk p size m;
      '(m, l) ← split_elements sizes (p + size) (u64 (remainder_size - size)) m;
      Some (m, chunk2mem p :: l)
  end.
(** The blocks, and the array for them: zero when the caller has one, [given]. *)
Definition ialloc (P : malloc_params) (n : nat) (sizes : list Z) (same given : bool) (dm mp : option Z) (m : mspace) : option (mspace * list Z * Z) :=
  match n with
  | O => if given then Some (m, [], 0) else '(m, mem) ← mspace_malloc P 0 dm mp m; Some (m, [], mem)
  | S _ =>
      let array_size := if given then 0 else request2size (u64 (Z.of_nat n * 8)) in
      let contents := contents_size n sizes same in
      let size := u64 (contents + array_size) in
      let was_enabled := use_mmap m in
      let m := with_mmap false m in
      '(m, mem) ← mspace_malloc P (u64 (size - CHUNK_OVERHEAD)) dm mp m;
      let m := if was_enabled then with_mmap true m else m in
      if mem =? 0 then Some (m, [], 0)
      else
        let p := mem2chunk mem in
        c ← read m p;
        let remainder_size := chunksize c in
        guard_ (negb (is_mmapped c)) (
        '(m, marray, remainder_size) ← (if given then Some (m, 0, remainder_size)
           else
             let array_chunk := p + contents in
             m ← set_size_and_pinuse_of_inuse_chunk array_chunk (u64 (remainder_size - contents)) m;
             Some (m, chunk2mem array_chunk, contents));
        '(m, l) ← split_elements (element_sizes n sizes same) p remainder_size m;
        Some (m, l, marray))
  end.
Definition mspace_independent_calloc (P : malloc_params) (n : nat) (elem_size : Z) (given : bool) (dm mp : option Z) (m : mspace) : option (mspace * list Z * Z) :=
  ialloc P n [elem_size] true given dm mp m.
Definition mspace_independent_comalloc (P : malloc_params) (n : nat) (sizes : list Z) (given : bool) (dm mp : option Z) (m : mspace) : option (mspace * list Z * Z) :=
  ialloc P n sizes false given dm mp m.

(** The bytes of the elements are multiplied without a check, unlike in [mspace_calloc]: with enough elements the
    chunk that is split has room for one only. *)
Lemma independent_calloc_wraps n : Z.of_nat n = 2 ^ 59 + 1 -> contents_size n [16] true = 32 /\ 2 ^ 64 < Z.of_nat n * request2size 16.
Proof. intros E. unfold contents_size. rewrite E. vm_compute. split; reflexivity. Qed.
