(* ===== verification/DlResize.v ===== *)
(** Chunks in use that are split, that grow into the top chunk or that are moved by the system:
    [mspace_realloc] and [mspace_memalign] keep the invariant of the space. *)
From stdpp Require Import gmap.
From S2P Require Import Prelude DlBins DlTree DlUnlink DlFit DlSmall DlSpace DlLayout DlInv DlBlocks DlMalloc DlFree DlRun DlSystem DlGrow DlPrepend DlSysAlloc DlAccount DlTrim DlRealloc.
Local Open Scope Z_scope.
Implicit Types g : Z -> tchunk.

(** ** A chunk in use in two *)
Lemma lay_split_used g g' ft pin a b1 s nb b2 e pout : let x := a + total b1 in let r := x + nb in
  lay g ft pin a (b1 ++ (KUsed, s) :: b2) e pout -> 32 <= nb -> nb mod 8 = 0 -> 32 <= s - nb ->
  tc_prev_foot (g' x) = tc_prev_foot (g x) -> tc_head (g' x) = tc_head (g x) - (s - nb) -> tags (g' r) = (ft, head_word KUsed (s - nb) true) -> same_tags g g' (fun z => z <> x /\ z <> r) ->
  lay g' ft pin a (b1 ++ [(KUsed, nb); (KUsed, s - nb)] ++ b2) e pout.
Proof.
  intros x r HL Hnb H8 Hr Ef Eh [Erf Erh]%tags_pair Hs. apply lay_app in HL as (c & q & H1 & HL). destruct (lay_end _ _ _ _ _ _ _ H1) as (Ec & H0 & _). fold x in Ec. subst c. destruct HL as ((Hh & Hs8 & H32) & Hf & HL). destruct (lay_end _ _ _ _ _ _ _ HL) as (Ee & He0 & _).
  assert (Hy : tags (g' (x + s)) = tags (g (x + s))) by (apply Hs; unfold r; lia). apply tags_pair in Hy as [Hyf Hyh].
  apply lay_app. exists x, q. split.
  - revert H1. apply lay_agree; [|done]. intros z Hz. apply Hs. unfold r. lia.
  - cbn [app lay in_use]. fold r. replace (r + (s - nb)) with (x + s) by (unfold r; lia). rewrite Eh, Hh, Erh, Erf, Hyf. split; [split; [unfold head_word; lia|done]|]. split; [done|]. split; [split; [done|split; [rewrite Zminus_mod, Hs8, H8; done|lia]]|]. split; [done|].
    revert HL. apply lay_agree; [intros z Hz; apply Hs; unfold r; lia|]. destruct (decide (e = x + s)) as [->|]; [done|]. assert (E : tags (g' e) = tags (g e)) by (apply Hs; unfold r; lia). by apply tags_pair in E as [? _].
Qed.

Section SplitUsed.
Context (m : mspace) (L : list seglay) (Ms Mt : gmap Z Z) (D : list (Z * Z)) (O : space_ok m L Ms Mt D) (v s : Z) (Hv : (v, s) ∈ used L).

(** The memory of a chunk in use, and the tags at its ends. *)
Lemma used_tags : (forall z, z mod 8 = 0 -> v <= z <= v + s + 8 -> mapped m z = true) /\ v mod 8 = 0 /\ s mod 8 = 0 /\ 32 <= s /\ (exists q, tc_head (heads_of_space m v) = head_word KUsed s q) /\ is_Some (read m v) /\ is_Some (read m (v + s)) /\
  Z.lor (tc_head (heads_of_space m (v + s))) PINUSE_BIT = tc_head (heads_of_space m (v + s)) /\ pinuse (heads_of_space m (v + s)) = true /\ tc_prev_foot (heads_of_space m (v + s)) = footer m.
Proof using Type*.
  destruct (used_foot m L Ms Mt D v s O Hv) as (f & Ef & -> & Hf). destruct (used_place m L Ms Mt D v s O Hv) as (i & sg & b1 & b2 & Hi & Hb & Ev). pose proof (Forall_lookup_1 _ _ _ _ (ok_segs _ _ _ _ _ O) Hi) as S.
  pose proof (so_lay _ _ S) as HL. rewrite Hb in HL. destruct (lay_at _ _ _ _ _ _ _ _ _ _ HL) as (q & _ & Hh & H32 & H8 & H3 & _). rewrite <- Ev in Hh, H3.
  assert (Hin : (v, KUsed, s) ∈ seg_placed sg) by (unfold seg_placed; rewrite Hb, placed_app, Ev; apply elem_of_app; right; by left). pose proof (seg_bounds _ _ _ _ _ S Hin) as (B1 & B2 & _ & _ & B3 & B4 & _).
  assert (Hp : exists k t, tc_head (heads_of_space m (v + s)) = head_word k t true /\ t mod 8 = 0).
  { destruct b2 as [|[k t] b2]; [|destruct H3 as ((H3 & ? & _) & _); by exists k, t]. destruct H3 as [E _]. pose proof (so_end _ _ S) as He. destruct (sl_top sg); [|destruct He as (_ & b0 & Eb); rewrite Hb in Eb; by apply app_inj_tail in Eb as [_ ?]].
    destruct He as (Et & Ht & _ & Ht8 & _). exists KFree, (topsize m). rewrite E, Et, Ht. done. }
  destruct Hp as (k & t & Hp & Ht8). split; [intros z Hz ?; apply (so_covers _ _ S); (done || lia)|]. split; [done|]. split; [done|]. split; [done|]. split; [by exists q|]. split; [by apply (so_dom _ _ S v KUsed s)|]. split; [by rewrite Ef|].
  split; [|split; [by apply (head_flags k t true _ Hp)|done]]. rewrite Hp. unfold head_word. rewrite <- (lor_flags t) by (destruct k; cbn; lia || done). rewrite <- Z.lor_assoc. f_equal. by destruct k.
Qed.

Lemma split_used nb m' g' : 32 <= nb -> nb mod 8 = 0 -> 32 <= s - nb -> let r := v + nb in tagged m m' g' -> is_Some (read m' r) ->
  tc_prev_foot (g' v) = tc_prev_foot (heads_of_space m v) -> tc_head (g' v) = tc_head (heads_of_space m v) - (s - nb) -> tags (g' r) = (footer m, head_word KUsed (s - nb) true) ->
  same_tags (heads_of_space m) g' (fun z => z <> v /\ z <> r) -> exists L', tag_eff m m' /\ space_ok m' L' Ms Mt D /\ used L' ++ [(v, s)] ≡ₚ (v, nb) :: (r, s - nb) :: used L.
Proof using Type*.
  intros Hnb H8 Hr r T Dr Ef Eh Er Hs. destruct (used_tags) as (_ & _ & _ & _ & _ & Dv & _). destruct (used_place m L Ms Mt D v s O Hv) as (i & sg & b1 & b2 & Hi & Hb & Ev). pose proof (Forall_lookup_1 _ _ _ _ (ok_segs _ _ _ _ _ O) Hi) as S.
  pose proof (so_lay _ _ S) as HL. rewrite Hb in HL. destruct (lay_end _ _ _ _ _ _ _ HL) as (Eend & _ & _). assert (Hin : (v, KUsed, s) ∈ seg_placed sg) by (unfold seg_placed; rewrite Hb, placed_app, Ev; apply elem_of_app; right; by left). pose proof (seg_bounds _ _ _ _ _ S Hin) as (B1 & B2 & _ & _ & B3 & B4 & _).
  pose proof (lay_split_used (heads_of_space m) g' (footer m) true (sl_start sg) b1 s nb b2 (sl_end sg) true HL Hnb H8 Hr) as HL'. rewrite <- Ev in HL'. specialize (HL' Ef Eh Er Hs).
  assert (Hd : forall a k t, (a, k, t) ∈ placed v [(KUsed, nb); (KUsed, s - nb)] -> is_Some (read m' a)) by (cbn; intros a k t [E|[E|?%elem_of_nil]%elem_of_cons]%elem_of_cons; simplify_eq; try done; by apply (tg_dom _ _ _ T)).
  assert (Hk : (forall a t, (a, KSys, t) ∉ placed v [(KUsed, s)])) by (by intros a t Ha%list_elem_of_singleton).
  destruct b2 as [|b b2].
  - assert (Et : sl_top sg = true). { pose proof (so_end _ _ S) as He. destruct (sl_top sg); [done|]. destruct He as (_ & b0 & Eb). rewrite Hb in Eb. by apply app_inj_tail in Eb as [_ ?]. }
    pose proof (so_end _ _ S) as He. rewrite Et in He. destruct He as (Ee & Hh & HD & Ht8 & Ht0 & Hlim). change TOP_FOOT_SIZE with 80 in Hlim.
    assert (Hend : tags (g' (top m)) = tags (heads_of_space m (top m))) by (apply Hs; unfold r; lia). apply tags_pair in Hend as [_ Hend].
    destruct (top_ok m m' g' (top m) (topsize m) L Ms Mt D D i sg b1 [(KUsed, s)] [(KUsed, nb); (KUsed, s - nb)] O Hi Et Hb) as (L' & O' & HU); rewrite <- ?Ev; try done.
    + by rewrite with_top_self.
    + lia.
    + by apply (tg_dom _ _ _ T).
    + by rewrite Hend.
    + rewrite app_nil_r in HL'. by rewrite <- Ee.
    + intros z Hz. apply Hs. unfold r. lia.
    + exists L'. split; [by eapply wrote_eff|]. split; [done|]. rewrite <- Ev in HU. cbn in HU. done.
  - destruct (mid_ok m L Ms Mt D O i sg Hi b1 [(KUsed, s)] (b :: b2) Hb m' g' [(KUsed, nb); (KUsed, s - nb)] D) as (L' & O' & HU); rewrite <- ?Ev; try done.
    + cbn. lia.
    + intros z Hz. apply Hs. unfold r. cbn in Hz. lia.
    + exists L'. split; [by eapply wrote_eff|]. split; [done|]. rewrite <- Ev in HU. cbn in HU. done.
Qed.
End SplitUsed.

(** ** [set_inuse] *)
Lemma keep_pin h s : s mod 8 = 0 -> Z.lor (Z.lor (Z.land h PINUSE_BIT) s) CINUSE_BIT = s + (Z.b2z (negb (Z.land h PINUSE_BIT =? 0)) + 2).
Proof.
  intros Hs. unfold PINUSE_BIT, CINUSE_BIT. rewrite (Z.lor_comm (Z.land h 1)), <- Z.lor_assoc, (land_one h). pose proof (Z.mod_pos_bound h 2 ltac:(lia)). assert (E : h mod 2 = 0 \/ h mod 2 = 1) by lia. destruct E as [-> | ->]; by rewrite lor_flags.
Qed.

Lemma or_pinned h : negb (Z.land (Z.lor h PINUSE_BIT) PINUSE_BIT =? 0) = true.
Proof. unfold PINUSE_BIT. rewrite Z.land_lor_distr_l. change (Z.land 1 1) with 1. rewrite (land_one h). pose proof (Z.mod_pos_bound h 2 ltac:(lia)). assert (E : h mod 2 = 0 \/ h mod 2 = 1) by lia. by destruct E as [-> | ->]. Qed.

Lemma set_inuse_keep_run m0 m g p s : tagged m0 m g -> mapped m0 (p + 8) = true -> mapped m0 (p + s + 8) = true -> mapped m0 (p + s) = true -> 0 < s -> s mod 8 = 0 ->
  exists m' g', set_inuse p s m = Some m' /\ wrote m0 m m' g' /\ is_Some (read m' p) /\ is_Some (read m' (p + s)) /\
    tags (g' p) = (tc_prev_foot (g p), head_word KUsed s (pinuse (g p))) /\ tags (g' (p + s)) = (footer m0, Z.lor (tc_head (g (p + s))) PINUSE_BIT) /\ same_tags g g' (fun z => z <> p /\ z <> p + s).
Proof.
  intros T M1 M2 M3 Hs H8. unfold set_inuse. destruct (put_head_step m0 m g p (fun h => Z.lor (Z.lor (Z.land h PINUSE_BIT) s) CINUSE_BIT) T M1) as (m1 & -> & T1 & D1 & R1). cbn [mbind option_bind].
  destruct (put_head_step m0 m1 _ (p + s) (fun h => Z.lor h PINUSE_BIT) T1 M2) as (m2 & -> & T2 & D2 & R2). cbn [mbind option_bind].
  unfold mark_inuse_foot. rewrite (footer_tagged _ _ _ T2). destruct (put_foot_step m0 m2 _ (p + s) (footer m0) T2 M3) as (m3 & -> & T3 & R3).
  eexists m3, _. split; [done|]. split; [split; [exact T3|auto]|]. split; [auto|]. split; [auto|]. split; [|split].
  - rewrite !fupd_tag by lia. rewrite fupd_eq. unfold tags. cbn. by rewrite keep_pin.
  - rewrite !fupd_eq. by rewrite fupd_ne by lia.
  - intros z [Hz1 Hz2]. by rewrite !fupd_ne.
Qed.

(** ** The three ways to split a chunk in use *)
Section SplitWays.
Context (m : mspace) (L : list seglay) (Ms Mt : gmap Z Z) (D : list (Z * Z)) (O : space_ok m L Ms Mt D) (v s : Z) (Hv : (v, s) ∈ used L).
Context (nb : Z) (Hnb : 32 <= nb) (Hnb8 : nb mod 8 = 0) (Hr : 32 <= s - nb).
Let r : Z := v + nb.

Definition in_two (x : option mspace) : Prop := exists m' L', x = Some m' /\ tag_eff m m' /\ space_ok m' L' Ms Mt D /\ used L' ++ [(v, s)] ≡ₚ (v, nb) :: (r, s - nb) :: used L.

(** The words that are written. *)
Lemma split_words : mapped m (v + 8) = true /\ mapped m (v + nb + 8) = true /\ mapped m (v + nb) = true /\ mapped m (r + 8) = true /\ mapped m (r + (s - nb) + 8) = true /\ mapped m (r + (s - nb)) = true /\ (s - nb) mod 8 = 0 /\ v + s = r + (s - nb).
Proof using Type*.
  destruct (used_tags m L Ms Mt D O v s Hv) as (HM & Hv8 & Hs8 & _). assert (Hr8 : r mod 8 = 0 /\ (s - nb) mod 8 = 0 /\ (v + s) mod 8 = 0) by (unfold r; clear -Hv8 Hs8 Hnb8; Z.div_mod_to_equations; lia). destruct Hr8 as (Hr8 & Hd8 & He8).
  assert (H8 : forall z, z mod 8 = 0 -> (z + 8) mod 8 = 0) by (clear; intros z ?; Z.div_mod_to_equations; lia). replace (r + (s - nb)) with (v + s) by (unfold r; lia). fold r. split_and!; try done; (apply HM; [try apply H8; done|unfold r; lia]).
Qed.

Lemma old_head : exists q, tc_head (heads_of_space m v) = head_word KUsed s q /\ pinuse (heads_of_space m v) = q.
Proof using Type*. destruct (used_tags m L Ms Mt D O v s Hv) as (_ & _ & Hs8 & _ & (q & Hh) & _). exists q. split; [done|]. by apply (head_flags KUsed s q _ Hh). Qed.

(** [internal_realloc] gives the end back. *)
Lemma split_end : in_two (m ← set_inuse v nb m; set_inuse_and_pinuse r (s - nb) m).
Proof using Type*.
  destruct split_words as (M1 & M2 & M3 & M4 & M5 & M6 & Hd8 & Ev). destruct (used_tags m L Ms Mt D O v s Hv) as (_ & _ & _ & _ & _ & _ & _ & Hp & _ & Hf). destruct old_head as (q & Hh & Hq).
  destruct (set_inuse_keep_run m m _ v nb (tagged_self m) M1 M2 M3 ltac:(lia) Hnb8) as (m1 & g1 & -> & [T1 R1] & D1 & _ & E1 & E2 & E3). cbn [mbind option_bind]. fold r in E2, E3.
  destruct (set_inuse_run m m1 g1 r (s - nb) T1 M4 M5 M6 ltac:(lia) Hd8) as (m2 & g2 & -> & [T2 R2] & D2 & F1 & F2 & F3). rewrite <- Ev in F2, F3. apply tags_pair in E1 as [E1f E1h], E2 as [E2f E2h], F1 as [F1f F1h], F2 as [F2f F2h].
  assert (Gv : tags (g2 v) = tags (g1 v)) by (apply F3; unfold r; lia). apply tags_pair in Gv as [Gvf Gvh]. assert (Ge : tags (g1 (v + s)) = tags (heads_of_space m (v + s))) by (apply E3; unfold r; lia). apply tags_pair in Ge as [_ Geh].
  exists m2. destruct (split_used m L Ms Mt D O v s Hv nb m2 g2 Hnb Hnb8 Hr T2) as (L' & H1 & H2 & H3); fold r; try done.
  - by rewrite Gvf.
  - rewrite Gvh, E1h, Hh, Hq. unfold head_word. lia.
  - unfold tags. by rewrite F1f, F1h, E2f.
  - intros z [Z1 Z2]. destruct (decide (z = v + s)) as [->|]; [unfold tags; by rewrite F2f, F2h, Geh, Hp, Hf|]. rewrite F3 by done. by apply E3.
  - by exists L'.
Qed.

(** [internal_memalign] gives the start back. *)
Lemma split_lead : in_two (m ← set_inuse r (s - nb) m; set_inuse v nb m).
Proof using Type*.
  destruct split_words as (M1 & M2 & M3 & M4 & M5 & M6 & Hd8 & Ev). destruct (used_tags m L Ms Mt D O v s Hv) as (_ & _ & _ & _ & _ & _ & _ & Hp & _ & Hf). destruct old_head as (q & Hh & Hq).
  destruct (set_inuse_keep_run m m _ r (s - nb) (tagged_self m) M4 M5 M6 ltac:(lia) Hd8) as (m1 & g1 & -> & [T1 R1] & D1 & _ & E1 & E2 & E3). cbn [mbind option_bind]. rewrite <- Ev in E2, E3.
  destruct (set_inuse_keep_run m m1 g1 v nb T1 M1 M2 M3 ltac:(lia) Hnb8) as (m2 & g2 & -> & [T2 R2] & D2 & D3 & F1 & F2 & F3). fold r in D3, F2, F3. apply tags_pair in E1 as [E1f E1h], E2 as [E2f E2h], F1 as [F1f F1h], F2 as [F2f F2h].
  assert (Gv : tags (g1 v) = tags (heads_of_space m v)) by (apply E3; unfold r; lia). apply tags_pair in Gv as [Gvf Gvh].
  assert (Gp : pinuse (g1 v) = q) by (unfold pinuse in *; by rewrite Gvh).
  exists m2. destruct (split_used m L Ms Mt D O v s Hv nb m2 g2 Hnb Hnb8 Hr T2 D3) as (L' & H1 & H2 & H3); fold r; try done.
  - by rewrite F1f.
  - rewrite F1h, Gp, Hh. unfold head_word. lia.
  - unfold tags. rewrite F2f, F2h, E1h. f_equal. destruct (pinuse (heads_of_space m r)); [|by apply pin_head]. unfold head_word. rewrite <- (lor_flags (s - nb)) by (done || (cbn; lia)). by rewrite <- Z.lor_assoc.
  - intros z [Z1 Z2]. rewrite F3 by done. destruct (decide (z = v + s)) as [->|]; [unfold tags; by rewrite E2f, E2h, Hp, Hf|by apply E3].
  - by exists L'.
Qed.

(** [internal_memalign] gives the end back. *)
Lemma split_trail : in_two (m ← set_inuse v nb m; set_inuse r (s - nb) m).
Proof using Type*.
  destruct split_words as (M1 & M2 & M3 & M4 & M5 & M6 & Hd8 & Ev). destruct (used_tags m L Ms Mt D O v s Hv) as (_ & _ & _ & _ & _ & _ & _ & Hp & _ & Hf). destruct old_head as (q & Hh & Hq).
  destruct (set_inuse_keep_run m m _ v nb (tagged_self m) M1 M2 M3 ltac:(lia) Hnb8) as (m1 & g1 & -> & [T1 R1] & D1 & _ & E1 & E2 & E3). cbn [mbind option_bind]. fold r in E2, E3.
  destruct (set_inuse_keep_run m m1 g1 r (s - nb) T1 M4 M5 M6 ltac:(lia) Hd8) as (m2 & g2 & -> & [T2 R2] & D2 & _ & F1 & F2 & F3). rewrite <- Ev in F2, F3. apply tags_pair in E1 as [E1f E1h], E2 as [E2f E2h], F1 as [F1f F1h], F2 as [F2f F2h].
  assert (Gv : tags (g2 v) = tags (g1 v)) by (apply F3; unfold r; lia). apply tags_pair in Gv as [Gvf Gvh]. assert (Ge : tags (g1 (v + s)) = tags (heads_of_space m (v + s))) by (apply E3; unfold r; lia). apply tags_pair in Ge as [_ Geh].
  assert (Gp : pinuse (g1 r) = true) by (unfold pinuse; rewrite E2h; apply or_pinned).
  exists m2. destruct (split_used m L Ms Mt D O v s Hv nb m2 g2 Hnb Hnb8 Hr T2) as (L' & H1 & H2 & H3); fold r; try done.
  - by rewrite Gvf.
  - rewrite Gvh, E1h, Hh, Hq. unfold head_word. lia.
  - unfold tags. by rewrite F1f, F1h, E2f, Gp.
  - intros z [Z1 Z2]. destruct (decide (z = v + s)) as [->|]; [unfold tags; by rewrite F2f, F2h, Geh, Hp, Hf|]. rewrite F3 by done. by apply E3.
  - by exists L'.
Qed.
End SplitWays.

(** ** A chunk grows into the top chunk *)
Lemma before_top m L Ms Mt D v s : space_ok m L Ms Mt D -> (v, s) ∈ used L -> v + s = top m -> exists i sg b1, L !! i = Some sg /\ sl_top sg = true /\ sl_blocks sg = b1 ++ [(KUsed, s)] /\ v = sl_start sg + total b1.
Proof.
  intros O Hv E. destruct (used_place m L Ms Mt D v s O Hv) as (i & sg & b1 & b2 & Hi & Hb & Ev). destruct (top_seg m L Ms Mt D O) as (j & st & Hj & Htop & St & Ee & _ & H0 & _ & Hle & Hlim & _).
  pose proof (Forall_lookup_1 _ _ _ _ (ok_segs _ _ _ _ _ O) Hi) as S. pose proof (so_limit _ _ S). pose proof (so_lay _ _ S) as HL. rewrite Hb in HL. destruct (lay_at _ _ _ _ _ _ _ _ _ _ HL) as (q & H1 & _ & H32 & _ & H3 & _). rewrite <- Ev in H1, H3.
  destruct (lay_end _ _ _ _ _ _ _ H1) as (_ & Hb1 & _). destruct (lay_end _ _ _ _ _ _ _ H3) as (Ee' & Hb2 & _). destruct (decide (j = i)) as [->|Hne].
  - assert (st = sg) as -> by congruence. exists i, sg, b1. split; [done|]. split; [done|]. split; [|done]. destruct b2 as [|[k t] b2]; [done|]. exfalso. destruct H3 as ((_ & _ & ?) & _ & H3). destruct (lay_end _ _ _ _ _ _ _ H3) as (? & ? & _). lia.
  - exfalso. destruct (other_seg m L Ms Mt D j st i sg O Hj Hi Hne) as (HA & _). destruct HA; lia.
Qed.

Lemma tagged_with_top t ts m0 m g : tagged m0 m g -> tagged (with_top t ts m0) (with_top t ts m) g.
Proof. intros [H1 H2 H3 H4]. split; [done| |done|done]. rewrite H2 at 1. done. Qed.

Lemma grow_top m L Ms Mt D v s nb : space_ok m L Ms Mt D -> (v, s) ∈ used L -> v + s = top m -> s < nb < s + topsize m -> nb mod 8 = 0 -> let t := v + nb in let ts := s + topsize m - nb in
  exists m' L', (m1 ← set_inuse v nb m; m1 ← put_head t (fun _ => Z.lor ts PINUSE_BIT) m1; Some (with_top t ts m1)) = Some m' /\ (dv m', dvsize m', direct m') = (dv m, dvsize m, direct m) /\
    space_ok m' L' Ms Mt D /\ used L' ++ [(v, s)] ≡ₚ (v, nb) :: used L.
Proof.
  intros O Hv Ev Hnb H8 t ts. destruct (before_top m L Ms Mt D v s O Hv Ev) as (i & sg & b1 & Hi & Htop & Hb & Ex). pose proof (Forall_lookup_1 _ _ _ _ (ok_segs _ _ _ _ _ O) Hi) as S. pose proof (so_end _ _ S) as He. rewrite Htop in He. destruct He as (Ee & Hht & HDt & Ht8 & Ht0 & Hlim). change TOP_FOOT_SIZE with 80 in Hlim.
  destruct (used_tags m L Ms Mt D O v s Hv) as (_ & Hv8 & Hs8 & H32 & (q & Hh) & Dv & _ & _ & _ & _). pose proof (so_lay _ _ S) as HL. rewrite Hb in HL. destruct (lay_at _ _ _ _ _ _ _ _ _ _ HL) as (q' & H1 & Hh' & _). rewrite <- Ex in H1, Hh'. destruct (lay_end _ _ _ _ _ _ _ H1) as (_ & Hb1 & _).
  assert (HM : forall z, z mod 8 = 0 -> v <= z <= t + 8 -> mapped m z = true) by (intros z Hz ?; apply (so_covers _ _ S); unfold t in *; (done || lia)). assert (Ht8' : t mod 8 = 0 /\ ts mod 8 = 0) by (unfold t, ts; clear -Hv8 H8 Hs8 Ht8; Z.div_mod_to_equations; lia). destruct Ht8' as [Et8 Ets8].
  assert (Hp8 : forall z, z mod 8 = 0 -> (z + 8) mod 8 = 0) by (clear; intros z ?; Z.div_mod_to_equations; lia).
  destruct (set_inuse_keep_run m m _ v nb (tagged_self m)) as (m1 & g1 & -> & [T1 R1] & D1 & _ & E1 & E2 & E3); try (apply HM; [try apply Hp8; done|unfold t; lia]); [lia|done|]. cbn [mbind option_bind]. fold t in E2, E3.
  destruct (put_head_step m m1 g1 t (fun _ => Z.lor ts PINUSE_BIT) T1) as (m2 & -> & T2 & D2 & R2); [apply HM; [by apply Hp8|unfold t; lia]|]. cbn [mbind option_bind]. set (g2 := fupd t _ g1) in T2. exists (with_top t ts m2).
  apply (tagged_with_top t ts) in T2. assert (F1 : tags (g2 v) = tags (g1 v)) by (unfold g2; apply fupd_tag; unfold t; lia). assert (F2 : tags (g2 t) = (footer m, ts + 1)). { unfold g2. rewrite fupd_eq. apply tags_pair in E2 as [E2f _]. unfold tags. cbn. by rewrite E2f, free_head. }
  rewrite E1 in F1. apply tags_pair in F1 as [F1f F1h], F2 as [F2f F2h]. assert (Hq : q' = q) by (rewrite Hh in Hh'; unfold head_word in Hh'; destruct q, q'; cbn in Hh'; (done || lia)). subst q'.
  assert (Hpin : pinuse (heads_of_space m v) = q) by (by apply (head_flags KUsed s q _ Hh)). rewrite Hpin in F1h.
  destruct (top_ok m (with_top t ts m2) g2 t ts L Ms Mt D D i sg b1 [(KUsed, s)] [(KUsed, nb)] O Hi Htop Hb) as (L' & O' & HU); rewrite <- ?Ex; try done.
  - unfold t, ts. lia.
  - unfold ts. lia.
  - unfold t. lia.
  - apply lay_app. exists v, q. split; [|cbn [lay in_use]; fold t; split; [split; [done|split; [done|lia]]|split; [done|done]]].
    revert H1. apply lay_agree; [|done]. intros z Hz. unfold g2. rewrite fupd_ne by (unfold t; lia). apply E3. unfold t. lia.
  - by intros a k x Ha%list_elem_of_singleton; simplify_eq; apply R2.
  - intros z Hz. unfold g2. rewrite fupd_ne by (unfold t; lia). apply E3. unfold t. lia.
  - by intros a x Ha%list_elem_of_singleton.
  - exists L'. split; [done|]. split; [by rewrite (tg_rest _ _ _ T2)|]. split; [done|]. rewrite <- Ex in HU. cbn in HU. done.
Qed.

(** ** A chunk with memory of its own that the system resizes *)
(** The answer of [mremap]: memory apart from all but the old memory of the chunk; there is none
    when no bytes are asked for. *)
Definition remap_answer (P : malloc_params) (nb : Z) (d : Z * Z) (m : mspace) (mr : option Z) : Prop :=
  match mr with Some cp => 0 < mmap_size P nb /\ fresh_memory (munmap d.1 d.2 m) cp (mmap_size P nb) | None => True end.

#[global] Instance shift_inj d : Inj (=) (=) (Z.add d).
Proof. intros a b. lia. Qed.

Section Remap.
Context (m : mspace) (L : list seglay) (Ms Mt : gmap Z Z) (D : list (Z * Z)) (O : space_ok m L Ms Mt D) (d : Z * Z) (Hd : d ∈ direct m) (cp n : Z) (HF : fresh_memory (munmap d.1 d.2 m) cp n) (Hn : 64 <= n) (Hn8 : n mod 8 = 0).
Let m1 : mspace := mremap d.1 (d.2 - d.1) cp n m.
Let mu : mspace := munmap d.1 d.2 m.

Lemma remap_read : (forall b, b < cp \/ cp + n <= b -> read m1 b = read mu b) /\ read m1 cp = read m d.1.
Proof using Type*.
  pose proof (direct_range m L Ms Mt D d O Hd) as Hlt. unfold m1, mremap, read. replace (d.1 + (d.2 - d.1)) with d.2 by lia. cbn [core chunks with_core with_chunks]. fold mu. set (moved := filter _ _). split.
  - intros b Hb. destruct ((kmap (Z.add (cp - d.1)) moved : gmap Z tchunk) !! b) as [c|] eqn:E; [|by rewrite lookup_union_r].
    exfalso. apply lookup_kmap_Some in E as (x & -> & Hx); [|apply _]. apply map_lookup_filter_Some in Hx as [_ Hx]. unfold within in Hx. cbn in Hx. lia.
  - destruct (do_dom _ _ (proj1 (Forall_forall _ _) (ok_direct _ _ _ _ _ O) d Hd)) as [[c Hc] _]. unfold read in Hc. rewrite Hc. apply lookup_union_Some_l. apply lookup_kmap_Some; [apply _|]. exists d.1. split; [lia|].
    apply map_lookup_filter_Some. split; [done|]. unfold within. cbn. lia.
Qed.

Lemma unmapped_direct : space_ok mu L Ms Mt D /\ direct m ≡ₚ d :: direct mu.
Proof using Type*. destruct (direct_freed m L Ms Mt D d 0 O Hd) as [O' HP]. split; [|done]. revert O'. by apply space_ok_fields. Qed.

Lemma remap_ok : exists m', (m ← put_head cp (fun _ => n - 32) m1; m ← mark_inuse_foot cp (n - 32) m; m ← put_head (cp + (n - 32)) (fun _ => FENCEPOST_HEAD) m; put_head (cp + (n - 32) + 8) (fun _ => 0) m) = Some m' /\
  space_ok (lower_least cp m') L Ms Mt D /\ (dv m', dvsize m') = (dv m, dvsize m) /\ direct m' = (cp, cp + n) :: direct mu.
Proof using Type*.
  destruct remap_read as [Hro Hrc]. destruct unmapped_direct as [O' _]. pose proof HF as (Hc0 & Hc8 & _ & Hfr). assert (Hho : forall b, b < cp \/ cp + n <= b -> heads_of_space m1 b = heads_of_space mu b) by (intros b Hb; apply heads_read, Hro, Hb).
  assert (HM : forall x, cp <= x -> x + 8 <= cp + n -> mapped m1 x = true) by (intros x ??; apply mapped_region; exists (cp, cp + n); split; [apply elem_of_app; right; by left|done]).
  destruct (put_head_step m1 m1 _ cp (fun _ => n - 32) (tagged_self _)) as (m3 & -> & T3 & D3 & R3); [apply HM; lia|]. cbn [mbind option_bind]. unfold mark_inuse_foot. rewrite (footer_tagged _ _ _ T3).
  destruct (put_foot_step m1 m3 _ (cp + (n - 32)) (footer m1) T3) as (m4 & -> & T4 & R4); [apply HM; lia|]. cbn [mbind option_bind].
  destruct (put_head_step m1 m4 _ (cp + (n - 32)) (fun _ => FENCEPOST_HEAD) T4) as (m5 & -> & T5 & D5 & R5); [apply HM; lia|]. cbn [mbind option_bind].
  destruct (put_head_step m1 m5 _ (cp + (n - 32) + 8) (fun _ => 0) T5) as (m6 & -> & T6 & D6 & R6); [apply HM; lia|]. exists m6. split; [done|]. pose proof (stores_tagged _ _ _ T6) as St. destruct (tagged_top _ _ _ T6) as [Et Es]. pose proof (tg_view _ _ _ T6) as Hv.
  pose proof (st_part _ _ St) as Sp. split; [|split; [by injection Sp as _ _ _ _ _ _ _ -> -> _ _|injection Sp as _ _ _ _ _ _ _ _ _ _ ->]].
  2: { unfold m1, mremap. cbn. by replace (d.1 + (d.2 - d.1)) with d.2 by lia. }
  assert (Ht : tags (heads_of_space m d.1) = (0, d.2 - d.1 - 32)) by (apply (do_tags _ _ (proj1 (Forall_forall _ _) (ok_direct _ _ _ _ _ O) d Hd))). apply tags_pair in Ht as [Ht _].
  assert (Ec : heads_of_space m1 cp = heads_of_space m d.1) by (unfold heads_of_space, heads, read in *; rewrite !lookup_total_alt; by f_equal).
  apply (direct_added mu L Ms Mt D O' cp n); try done; replace (cp + n - 32) with (cp + (n - 32)) by lia.
  - rewrite Sp. unfold m1, mremap. by replace (d.1 + (d.2 - d.1)) with d.2 by lia.
  - intros b Hb. rewrite (st_link _ _ St), Hho by done. split; [done|]. rewrite <- Hro by done. apply (st_dom _ _ St).
  - rewrite Hv, !fupd_tag by lia. rewrite fupd_eq. unfold tags. cbn. by rewrite Ec, Ht.
  - rewrite Hv, fupd_tag by lia. by rewrite !fupd_eq.
  - auto.
  - auto.
  - intros z Hz. rewrite Hv. rewrite !fupd_ne by lia. by rewrite Hho.
Qed.
End Remap.

Lemma mmap_size_positive P nb : params_ok P -> 32 <= nb < 2 ^ 64 - 80 -> 0 < mmap_size P nb -> mmap_size P nb mod 4096 = 0 /\ nb + 55 <= mmap_size P nb < 2 ^ 64.
Proof.
  intros HP Hnb H0. apply mmap_size_ok; [done|lia|]. pose proof HP as (j & k & Hj & Hk & Ep & Eg). unfold mmap_size, mmap_align in *. rewrite Ep in *. change (nb + SIX_SIZE_T_SIZES + CHUNK_ALIGN_MASK) with (nb + 48 + 7) in *. replace (nb + 48 + 7) with (nb + 55) in * by lia.
  destruct (Z.le_gt_cases (nb + 55 + 2 ^ j) (2 ^ 64)) as [Hle|Hgt]; [|rewrite align_up_zero in H0 by lia; lia]. destruct (align_up_spec j (nb + 55) ltac:(lia) ltac:(lia) Hle) as [_ Hb]. lia.
Qed.

(** A chunk resized: zero and the space as it was, or the chunk in place of the old one. *)
Definition in_place_of (m m' : mspace) (L L' : list seglay) (old new : Z * Z) : Prop := held m' L' ++ [old] ≡ₚ new :: held m L.

Lemma direct_head m L Ms Mt D d : space_ok m L Ms Mt D -> d ∈ direct m -> let c := heads_of_space m d.1 in let s := d.2 - d.1 - 32 in
  read m d.1 = Some c /\ chunksize c = s /\ tc_prev_foot c = 0 /\ is_mmapped c = true /\ is_inuse c = true /\ 32 <= s /\ 0 < d.1 /\ least_addr (core m) <= d.1 /\ tc_prev_foot (heads_of_space m (d.1 + s)) = footer m /\ pinuse (heads_of_space m (d.1 + s)) = true /\ is_Some (read m (d.1 + s)).
Proof.
  intros O Hd c s. destruct (proj1 (Forall_forall _ _) (ok_direct _ _ _ _ _ O) d Hd) as [(A8 & A0 & Al) [S8 S64] [Ht Hf] [D1 D2] _]. apply tags_pair in Ht as [Hpf Hh], Hf as [Hf Hfh]. replace (d.1 + s) with (d.2 - 32) by (unfold s; lia).
  assert (Hs8 : s mod 8 = 0) by (unfold s; clear -S8; Z.div_mod_to_equations; lia). assert (Hhd : tc_head c = s + 0) by (unfold c, s; lia). split; [by apply (space_read m m _ d.1 (space_is_self m))|]. split; [by apply (size_of_head c s 0)|].
  unfold is_mmapped, is_inuse. change INUSE_BITS with 3. rewrite Hhd, !(land_flags s) by (done || lia). split_and!; try done; [unfold s; lia|]. unfold pinuse. by rewrite Hfh.
Qed.

Lemma remap_outer d cp n m m' : (m ← put_head cp (fun _ => n - 32) (mremap d.1 (d.2 - d.1) cp n m); m ← mark_inuse_foot cp (n - 32) m; m ← put_head (cp + (n - 32)) (fun _ => FENCEPOST_HEAD) m; put_head (cp + (n - 32) + 8) (fun _ => 0) m) = Some m' ->
  segs m' = segs m /\ footprint m' = footprint m /\ max_footprint m' = max_footprint m.
Proof. intros E. assert (Eo : outer m' = outer (mremap d.1 (d.2 - d.1) cp n m)) by region_steps. injection Eo as _ _ _ -> -> -> _. done. Qed.

Lemma mmap_resize_ok P d nb mr m L Ms Mt : params_ok P -> space_inv m L Ms Mt -> d ∈ direct m -> 32 <= nb < 2 ^ 64 - 80 -> remap_answer P nb d m mr ->
  exists m' newp, mmap_resize P d.1 nb mr m = Some (m', newp) /\
    (newp = 0 /\ m' = m \/ exists sz, 0 < newp /\ nb <= sz /\ space_inv m' L Ms Mt /\ in_place_of m m' L L (d.1, d.2 - d.1 - 32) (newp, sz) /\ (accounted m -> accounted m')).
Proof.
  intros HP (O & Hd1 & Hd0) Hd Hnb Hmr. destruct (direct_head m L Ms Mt _ d O Hd) as (Er & Es & Ef & _ & _ & H32 & Hp & _). unfold mmap_resize. rewrite Er. cbn [mbind option_bind]. rewrite Es, Ef, Z.sub_0_r.
  destruct (is_small nb); [exists m, 0; split; [done|by left]|]. destruct (_ && _) eqn:Ek.
  { apply andb_true_iff in Ek as [Ek%Z.leb_le _]. exists m, d.1. split; [done|]. right. exists (d.2 - d.1 - 32). split; [done|]. split; [lia|]. split; [done|]. split; [unfold in_place_of; solve_Permutation|done]. }
  destruct mr as [cp|]; [|exists m, 0; split; [done|by left]]. destruct Hmr as [Hpos HF]. destruct (mmap_size_positive P nb HP Hnb Hpos) as [Hpg Hsz]. set (n := mmap_size P nb) in *. change MMAP_FOOT_PAD with 32. pose proof HF as (Hcp & _).
  replace (d.2 - d.1 - 32 + 0 + 32) with (d.2 - d.1) by lia. rewrite Z.add_0_r, Z.sub_0_r. assert (Hn8 : n mod 8 = 0) by (clear -Hpg; Z.div_mod_to_equations; lia).
  destruct (remap_ok m L Ms Mt _ O d Hd cp n HF ltac:(lia) Hn8) as (m' & E & O' & [= Ev1 Ev2] & Edir). destruct (unmapped_direct m L Ms Mt _ O d Hd cp n HF) as [_ HPd]; [lia|done|]. pose proof (remap_outer d cp n m m' E) as (Eo1 & Eo2 & Eo3).
  apply bind_Some in E as (m3 & -> & E). apply bind_Some in E as (m4 & E4 & E). apply bind_Some in E as (m5 & E5 & E). cbn [mbind option_bind]. rewrite E4. cbn [mbind option_bind]. rewrite E5. cbn [mbind option_bind]. rewrite E. cbn [mbind option_bind].
  eexists _, _. split; [done|]. right. exists (n - 32). split; [done|]. split; [lia|].
  assert (Ek' : direct (lower_least cp m') = direct m' /\ dv (lower_least cp m') = dv m' /\ dvsize (lower_least cp m') = dvsize m') by (unfold lower_least; by destruct (cp <? _)). destruct Ek' as (Ek1 & Ek2 & Ek3). split; [|split].
  - unfold space_inv, dv_list. cbn [dv dvsize grow_footprint with_footprint]. rewrite Ek2, Ek3, Ev1, Ev2. split; [|done]. by apply grow_footprint_ok.
  - unfold in_place_of, held, direct_chunks. cbn [direct grow_footprint with_footprint]. rewrite Ek1, Edir, HPd. cbn. replace (cp + n - cp - 32) with (n - 32) by lia. solve_Permutation.
  - assert (Ek4 : segs (lower_least cp m') = segs m' /\ footprint (lower_least cp m') = footprint m' /\ max_footprint (lower_least cp m') = max_footprint m') by (unfold lower_least; by destruct (cp <? _)). destruct Ek4 as (Ek4 & Ek5 & Ek6).
    apply (grown_account (n - (d.2 - d.1)) m); [|cbn; by rewrite Ek5, Eo2|cbn; by rewrite Ek5, Ek6, Eo2, Eo3]. unfold owned_bytes. cbn [segs direct grow_footprint with_footprint]. rewrite Ek1, Ek4, Eo1, Edir, HPd, !sizes_cons. cbn [fst snd]. lia.
Qed.

(** Where the chunk is. *)
Lemma resized_at P m L Ms Mt D d nb mr m' newp : space_ok m L Ms Mt D -> d ∈ direct m -> mmap_resize P d.1 nb mr m = Some (m', newp) -> newp = 0 \/ newp = d.1 \/ mr = Some newp.
Proof.
  intros O Hd. destruct (direct_head m L Ms Mt D d O Hd) as (Er & Es & Ef & _). unfold mmap_resize. rewrite Er. cbn [mbind option_bind]. rewrite Es, Ef. destruct (is_small nb); [intros [= _ <-]; by left|]. destruct (_ && _); [intros [= _ <-]; tauto|].
  destruct mr as [cp|]; [|intros [= _ <-]; by left]. intros E. apply bind_Some in E as (m1 & _ & E). apply bind_Some in E as (m2 & _ & E). apply bind_Some in E as (m3 & _ & E). apply bind_Some in E as (m4 & _ & [= _ <-]). right. right. f_equal. lia.
Qed.

(** ** [mspace_realloc] *)
(** The answer of [mremap] for the block [mem], when it has memory of its own. *)
Definition remap_answers (P : malloc_params) (mem bytes : Z) (m : mspace) (mr : option Z) : Prop := forall d, d ∈ direct m -> d.1 = mem2chunk mem -> remap_answer P (request2size bytes) d m mr.

(** The tags of a chunk that was handed out. *)
Lemma held_head m L Ms Mt D p sz : space_ok m L Ms Mt D -> (p, sz) ∈ held m L -> let c := heads_of_space m p in let n := heads_of_space m (p + sz) in
  read m p = Some c /\ chunksize c = sz /\ is_inuse c = true /\ ok_address (core m) p = true /\ 32 <= sz /\ read m (p + sz) = Some n /\ pinuse n = true /\ tc_prev_foot n = footer m.
Proof.
  intros O H c n. apply elem_of_app in H as [H|H].
  - destruct (used_tags m L Ms Mt D O p sz H) as (_ & _ & H8 & H32 & (q & Hh) & Dp & Dn & _ & Hpin & Hf). destruct (head_flags KUsed sz q _ Hh H8) as (Es & _ & _ & Ei & _). apply of_kind_in in H. destruct (space_block m L Ms Mt D _ _ _ O H) as (_ & _ & _ & (_ & Hok & _) & _).
    split_and!; try done; [by apply (space_read m m _ p (space_is_self m))|unfold c; rewrite Ei; by destruct q|by apply (space_read m m _ _ (space_is_self m))].
  - apply list_elem_of_fmap in H as (d & [= -> ->] & Hd). destruct (direct_head m L Ms Mt D d O Hd) as (Er & Es & _ & _ & Ei & H32 & _ & Hl & Hf & Hpin & Dn). split_and!; try done; [by apply Z.leb_le|by apply (space_read m m _ _ (space_is_self m))].
Qed.

Lemma used_not_mmapped m L Ms Mt D p sz : space_ok m L Ms Mt D -> (p, sz) ∈ used L -> is_mmapped (heads_of_space m p) = false.
Proof. intros O H. destruct (used_tags m L Ms Mt D O p sz H) as (_ & _ & H8 & _ & (q & Hh) & _). destruct (head_flags KUsed sz q _ Hh H8) as (_ & _ & _ & _ & -> & _). by destruct q. Qed.

(** Zero and the space as it was; or the chunk at [newp], with an end [e] to give back. *)
Definition resized_chunk (m : mspace) (L : list seglay) (p sz nb : Z) (mr : option Z) (x : option (mspace * Z * Z)) : Prop :=
  x = Some (m, 0, 0) \/
  exists m' newp extra sz' L' Ms' Mt' ends, x = Some (m', newp, extra) /\ 0 < newp /\ nb <= sz' /\ space_inv m' L' Ms' Mt' /\ held m' L' ++ [(p, sz)] ≡ₚ (newp, sz') :: ends ++ held m L /\
    (newp = p \/ (p, sz) ∈ direct_chunks m /\ mr = Some newp) /\ (extra = 0 /\ ends = [] \/ exists e t, extra = chunk2mem e /\ 0 < e /\ ends = [(e, t)]) /\ (accounted m -> accounted m').

Lemma split_inv m m' L' Ms Mt : 0 <= dvsize m -> (dvsize m = 0 -> dv m = 0) -> tag_eff m m' -> space_ok m' L' Ms Mt (dv_list m) -> space_inv m' L' Ms Mt /\ direct_chunks m' = direct_chunks m.
Proof. intros H1 H2 HE O'. split; [apply (space_inv_keeps m m' L' Ms Mt (dv_list m)); auto with dlspace|]. unfold direct_chunks. by rewrite HE. Qed.

Lemma resize_used P m L Ms Mt p sz nb mr : space_inv m L Ms Mt -> (p, sz) ∈ used L -> 32 <= nb -> nb mod 8 = 0 -> resized_chunk m L p sz nb mr (resize_chunk P p nb mr (heads_of_space m p) m).
Proof.
  intros HI Hu Hnb H8. pose proof HI as (O & Hd1 & Hd0). assert (Hh : (p, sz) ∈ held m L) by (apply elem_of_app; by left). pose proof (held_positive m L Ms Mt _ p sz O Hh) as Hp0. destruct (held_head m L Ms Mt _ p sz O Hh) as (_ & Es & _). unfold resize_chunk. rewrite (used_not_mmapped m L Ms Mt _ p sz O Hu), Es.
  destruct (Z.leb_spec nb sz) as [Hle|Hgt]; [change MIN_CHUNK_SIZE with 32; destruct (Z.leb_spec 32 (sz - nb)) as [Hr|]|].
  - right. destruct (split_end m L Ms Mt _ O p sz Hu nb Hnb H8 Hr) as (m' & L' & E & HE & O' & HU). apply bind_Some in E as (m1 & -> & E). cbn [mbind option_bind]. rewrite E. cbn [mbind option_bind]. destruct (split_inv m m' L' Ms Mt Hd1 Hd0 HE O') as [HI' Hdc].
    exists m', p, (chunk2mem (p + nb)), nb, L', Ms, Mt, [(p + nb, sz - nb)]. split; [done|]. split; [done|]. split; [lia|]. split; [done|]. split; [|split; [by left|split; [right; exists (p + nb), (sz - nb); split; [done|split; [lia|done]]|apply outer_account; by rewrite HE]]].
    unfold held. rewrite Hdc. transitivity ((used L' ++ [(p, sz)]) ++ direct_chunks m); [solve_Permutation|]. rewrite HU. solve_Permutation.
  - right. exists m, p, 0, sz, L, Ms, Mt, []. split; [done|]. split; [done|]. split; [done|]. split; [done|]. split; [solve_Permutation|]. split; [by left|]. split; [by left|done].
  - destruct ((p + sz =? top m) && (nb <? sz + topsize m)) eqn:Et; [|by left]. apply andb_true_iff in Et as [Et%Z.eqb_eq Et2%Z.ltb_lt]. right. destruct (grow_top m L Ms Mt _ p sz nb O Hu Et ltac:(lia) H8) as (m' & L' & E & [= Ev1 Ev2 Ed] & O' & HU).
    assert (Eo : outer m' = outer m) by (clear -E; unfold set_inuse in E; region_steps). apply bind_Some in E as (m1 & -> & E). apply bind_Some in E as (m2 & E2 & [= E]). cbn [mbind option_bind]. rewrite E2. cbn [mbind option_bind]. rewrite E.
    exists m', p, 0, nb, L', Ms, Mt, []. split; [done|]. split; [done|]. split; [done|]. split; [unfold space_inv, dv_list; by rewrite Ev1, Ev2|]. split; [|split; [by left|split; [by left|apply outer_account; exact Eo]]].
    unfold held, direct_chunks. rewrite Ed. transitivity ((used L' ++ [(p, sz)]) ++ direct_chunks m); [unfold direct_chunks; solve_Permutation|]. rewrite HU. solve_Permutation.
Qed.

Lemma resize_direct P m L Ms Mt d nb mr : params_ok P -> space_inv m L Ms Mt -> d ∈ direct m -> 32 <= nb < 2 ^ 64 - 80 -> remap_answer P nb d m mr ->
  resized_chunk m L d.1 (d.2 - d.1 - 32) nb mr (resize_chunk P d.1 nb mr (heads_of_space m d.1) m).
Proof.
  intros HP HI Hd Hnb Hmr. pose proof HI as (O & _). destruct (direct_head m L Ms Mt _ d O Hd) as (_ & _ & _ & Emm & _). unfold resize_chunk. rewrite Emm. destruct (mmap_resize_ok P d nb mr m L Ms Mt HP HI Hd Hnb Hmr) as (m' & newp & E & H). pose proof (resized_at P m L Ms Mt _ d nb mr m' newp O Hd E) as Hat.
  rewrite E. cbn [mbind option_bind]. destruct H as [[-> ->]|(sz & H0 & Hsz & HI' & HP' & HA')]; [by left|]. right. exists m', newp, 0, sz, L, Ms, Mt, []. split; [done|]. split; [done|]. split; [done|]. split; [done|]. split; [done|]. split; [|split; [by left|done]].
  destruct Hat as [Hat|[->|Hat]]; [lia|by left|right]. split; [|done]. apply list_elem_of_fmap. by exists d.
Qed.

(** The block given back is one of those held, or it has memory of its own that the system did
    not take and that stays held. *)
Lemma free_held P U m L Ms Mt p sz others : params_ok P -> space_inv m L Ms Mt -> held m L ≡ₚ (p, sz) :: others ->
  exists m' L' Ms' Mt' lost, mspace_free P U (chunk2mem p) m = Some m' /\ space_inv m' L' Ms' Mt' /\ held m' L' ≡ₚ others ++ lost /\ (accounted m -> accounted m').
Proof.
  intros HP HI HH. destruct (mspace_free_ok P U m L Ms Mt p sz HP HI ltac:(rewrite HH; by left)) as (m' & L' & Ms' & Mt' & E & HI' & [HR|(-> & -> & _)] & HA).
  - exists m', L', Ms', Mt', []. split; [done|]. split; [done|]. split; [|done]. rewrite app_nil_r. rewrite HH in HR. symmetry. by eapply Permutation_cons_inv.
  - exists m, L, Ms', Mt', [(p, sz)]. split; [done|]. split; [done|]. split; [|done]. rewrite HH. solve_Permutation.
Qed.

Definition moved_block (m : mspace) (L : list seglay) (p sz bytes : Z) (mr : option Z) (x : option (mspace * Z * Z)) : Prop :=
  exists m' p' sz' c L' Ms' Mt' rest lost, x = Some (m', chunk2mem p', c) /\ 0 < p' /\ bytes + CHUNK_OVERHEAD <= sz' /\ space_inv m' L' Ms' Mt' /\ held m L ≡ₚ (p, sz) :: rest /\ held m' L' ≡ₚ (p', sz') :: rest ++ lost /\
    (c = 0 /\ (p' = p \/ (p, sz) ∈ direct_chunks m /\ mr = Some p') \/ c = Z.min (sz - CHUNK_OVERHEAD) bytes) /\ (accounted m -> accounted m').

Section Realloc.
Context (P : malloc_params) (U : Z -> Z -> bool) (m : mspace) (L : list seglay) (Ms Mt : gmap Z Z) (HP : params_ok P) (HI : space_inv m L Ms Mt).
Context (p sz : Z) (Hp : (p, sz) ∈ held m L) (bytes : Z) (Hb : in_u 64 bytes) (dm mp mr : option Z).
Context (Hdm : direct_answer P (needed bytes) m dm) (Hmp : system_answer P (needed bytes) m mp) (Hmr : forall d, d ∈ direct m -> d.1 = p -> remap_answer P (request2size bytes) d m mr).
Let O : space_ok m L Ms Mt (dv_list m) := proj1 HI.

Lemma realloc_resized : bytes < MAX_REQUEST -> resized_chunk m L p sz (request2size bytes) mr (resize_chunk P p (request2size bytes) mr (heads_of_space m p) m).
Proof using Type*.
  intros Hlt. destruct (request_bounds bytes ltac:(destruct Hb; lia)) as (H8 & H32 & Hnb & _). change MAX_REQUEST with (2 ^ 64 - 128) in Hlt. pose proof Hp as H. apply elem_of_app in H as [H|H].
  - apply (resize_used P m L Ms Mt p sz _ mr HI H); (done || lia).
  - apply list_elem_of_fmap in H as (d & [= -> ->] & Hd). apply (resize_direct P m L Ms Mt d _ mr HP HI Hd); [lia|]. by apply Hmr.
Qed.

(** The block is moved by hand: a new block, a copy, and the old block given back. *)
Lemma realloc_moved : let x := ('(m, newmem) ← mspace_malloc P bytes dm mp m; if negb (newmem =? 0) then c ← read m p; let oc := sz - overhead_for c in m ← mspace_free P U (chunk2mem p) m; Some (m, newmem, if oc <? bytes then oc else bytes) else Some (m, 0, 0)) in
  x = Some (m, 0, 0) /\ nothing_fits m L (needed bytes) /\ (mp = None \/ sys_size P (needed bytes) <= needed bytes) \/ moved_block m L p sz bytes mr x.
Proof using Type*.
  intros x. unfold x. destruct (mspace_malloc_ok P bytes dm mp m L Ms Mt HP HI Hb Hdm Hmp) as [(E & Hn)|(m1 & p1 & sz1 & L1 & Ms1 & Mt1 & E & Hp1 & [Hsz1 _] & HI1 & HH)]; rewrite E; cbn [mbind option_bind]; [left; by rewrite Z.eqb_refl|right].
  rewrite (proj2 (Z.eqb_neq _ 0)) by (unfold chunk2mem; lia). cbn [negb]. apply elem_of_Permutation in Hp as [rest Hrest]. assert (HH1 : held m1 L1 ≡ₚ (p, sz) :: (p1, sz1) :: rest) by (rewrite HH, Hrest; solve_Permutation).
  destruct (held_head m1 L1 Ms1 Mt1 _ p sz (proj1 HI1) ltac:(rewrite HH1; by left)) as (Er & _). rewrite Er. cbn [mbind option_bind]. replace (overhead_for (heads_of_space m1 p)) with 16 by (unfold overhead_for; by destruct (is_mmapped _)).
  destruct (free_held P U m1 L1 Ms1 Mt1 p sz _ HP HI1 HH1) as (m2 & L2 & Ms2 & Mt2 & lost & -> & HI2 & HH2 & HA2). cbn [mbind option_bind].
  assert (Hle : bytes + CHUNK_OVERHEAD <= needed bytes). { unfold needed in *. destruct (Z.leb_spec MAX_REQUEST bytes); [unfold MAX_SIZE_T in *; lia|]. destruct (request_bounds bytes ltac:(destruct Hb; lia)) as (_ & _ & ? & _). unfold CHUNK_OVERHEAD. lia. }
  eexists m2, p1, sz1, _, L2, Ms2, Mt2, rest, lost. split; [done|]. split; [done|]. split; [lia|]. split; [done|]. split; [done|]. split; [done|]. split; [|by intros HA; apply HA2, (malloc_account _ _ _ _ _ _ _ E)]. right. unfold CHUNK_OVERHEAD. destruct (Z.ltb_spec (sz - 16) bytes); lia.
Qed.

Lemma internal_realloc_ok : let x := internal_realloc P U (chunk2mem p) bytes dm mp mr m in
  x = Some (m, 0, 0) /\ (MAX_REQUEST <= bytes \/ nothing_fits m L (needed bytes) /\ (mp = None \/ sys_size P (needed bytes) <= needed bytes)) \/ moved_block m L p sz bytes mr x.
Proof using Type*.
  intros x. unfold x, internal_realloc. destruct (Z.leb_spec MAX_REQUEST bytes) as [?|Hlt]; [left; split; [done|by left]|]. rewrite mem_chunk. destruct (held_head m L Ms Mt _ p sz O Hp) as (Er & Es & Ei & Hok & H32 & En & Hpin & _). rewrite Er. cbn [mbind option_bind]. rewrite Es, En. cbn [mbind option_bind].
  rewrite Hok, Ei, Hpin, (proj2 (Z.ltb_lt p (p + sz))) by lia. cbn [andb guard_]. destruct (request_bounds bytes ltac:(destruct Hb; lia)) as (_ & _ & Hnb & _).
  destruct (realloc_resized Hlt) as [E|(m1 & newp & extra & sz1 & L1 & Ms1 & Mt1 & ends & E & H0 & Hsz & HI1 & HH & Hat & He & HA1)]; rewrite E; cbn [mbind option_bind].
  - cbn [Z.eqb negb]. destruct realloc_moved as [(Em & Hn)|Hm]; [left; split; [exact Em|by right]|right; exact Hm].
  - right. rewrite (proj2 (Z.eqb_neq newp 0)) by lia. cbn [negb]. pose proof Hp as Hp'. apply elem_of_Permutation in Hp' as [rest Hrest].
    assert (HH1 : held m1 L1 ≡ₚ (newp, sz1) :: ends ++ rest) by (apply (Permutation_app_inv_r [(p, sz)]); rewrite HH, Hrest; solve_Permutation). unfold free_extra, moved_block.
    destruct He as [[-> ->]|(e & t & -> & Hep & ->)].
    + cbn [Z.eqb negb mbind option_bind]. exists m1, newp, sz1, 0, L1, Ms1, Mt1, rest, []. split; [done|]. split; [done|]. split; [unfold CHUNK_OVERHEAD; lia|]. split; [done|]. split; [done|]. split; [by rewrite app_nil_r|]. split; [left; done|done].
    + assert (E0 : (chunk2mem e =? 0) = false) by (apply Z.eqb_neq; unfold chunk2mem; lia). rewrite E0. cbn [negb]. destruct (free_held P U m1 L1 Ms1 Mt1 e t ((newp, sz1) :: rest) HP HI1 ltac:(rewrite HH1; solve_Permutation)) as (m2 & L2 & Ms2 & Mt2 & lost & -> & HI2 & HH2 & HA2). cbn [mbind option_bind].
      exists m2, newp, sz1, 0, L2, Ms2, Mt2, rest, lost. split; [done|]. split; [done|]. split; [unfold CHUNK_OVERHEAD; lia|]. split; [done|]. split; [done|]. split; [done|]. split; [left; done|auto].
Qed.

(** A block is refused with the space as it was, when it is too large or nothing fits it and
    the system has no memory; or it is there with its new size, and all other blocks stay. *)
Lemma mspace_realloc_ok : let x := mspace_realloc P U (chunk2mem p) bytes dm mp mr m in
  x = Some (m, 0, 0) /\ (MAX_REQUEST <= bytes \/ nothing_fits m L (needed bytes) /\ (mp = None \/ sys_size P (needed bytes) <= needed bytes)) \/ moved_block m L p sz bytes mr x.
Proof using Type*.
  intros x. unfold x, mspace_realloc. pose proof (held_positive m L Ms Mt _ p sz O Hp) as H0. assert (E0 : (chunk2mem p =? 0) = false) by (apply Z.eqb_neq; unfold chunk2mem; lia). rewrite E0, mem_chunk.
  destruct (held_head m L Ms Mt _ p sz O Hp) as (Er & Es & _ & _ & _ & En & _ & Hf). rewrite Er. cbn [mbind option_bind]. rewrite Es, En. cbn [mbind option_bind]. rewrite Hf. unfold footer. rewrite Z.lxor_assoc, Z.lxor_nilpotent, Z.lxor_0_r, Z.eqb_refl. cbn [guard_]. apply internal_realloc_ok.
Qed.
End Realloc.
