(* ===== verification/DlAlign.v ===== *)
(** [mspace_memalign]: blocks at addresses that are multiples of an alignment, for requests that
    get no memory of their own. *)
From stdpp Require Import gmap.
From S2P Require Import Prelude DlBins DlTree DlUnlink DlFit DlSmall DlSpace DlLayout DlInv DlBlocks DlMalloc DlFree DlRun DlSystem DlGrow DlPrepend DlSysAlloc DlAccount DlTrim DlRealloc DlResize.
Local Open Scope Z_scope.

(** ** Requests that get no memory of their own *)
Lemma new_memory_direct P nb a n m m' mem : use_new_memory P nb a n m = Some (m', mem) -> direct m' = direct m.
Proof.
  unfold use_new_memory. intros H. cbv zeta in H. set (m1 := grow_footprint n _) in H. change (direct m) with (direct m1). match type of H with (if ?b then _ else _) = _ => destruct b end.
  - apply bind_Some in H as (m2 & E2%init_top_outer & H%take_top_outer). rewrite E2 in H. by injection H.
  - unfold use_apart in H. assert (El : direct (lower_least a m1) = direct m1) by (unfold lower_least; by destruct (_ <? _)). rewrite <- El.
    assert (Hadd : forall m0, (m ← add_segment P a n USE_MMAP_BIT m0; take_from_top nb m) = Some (m', mem) -> direct m' = direct m0) by (intros m0 E; apply bind_Some in E as (m2 & [_ E2]%add_segment_account & E%take_top_outer); injection E as _ E _; injection E2; congruence).
    destruct (pick_segment _ _) as [s|]; [destruct (_ && _)|]; [|by apply Hadd|by apply Hadd]. apply prepend_region in H. by injection H.
Qed.

Lemma malloc_direct P bytes dm mp m m' mem : use_mmap m && (mmap_threshold P <=? needed bytes) = false -> (forall m1 nb, malloc_inside bytes m = Some (m1, FromSystem nb) -> m1 = m /\ nb = needed bytes) ->
  mspace_malloc P bytes dm mp m = Some (m', mem) -> direct m' = direct m.
Proof.
  intros Hno Hin H. unfold mspace_malloc in H. apply bind_Some in H as ([m1 r] & E & H). pose proof (malloc_region _ _ _ _ E) as [= _ ER _]. destruct r as [mem1|nb]; [by injection H as -> _|]. destruct (Hin _ _ E) as [-> ->]. unfold sys_alloc in H. rewrite Hno in H. cbn [andb mbind option_bind] in H.
  cbn [Z.eqb negb] in H. destruct (_ <? _); [destruct mp as [a|]; [by apply new_memory_direct in H|]|]; by injection H as -> _.
Qed.

(** ** Alignments *)
Lemma power_of_two x : 0 < x -> Z.land x (x - 1) = 0 -> exists k, 0 <= k /\ x = 2 ^ k.
Proof.
  intros Hx H. exists (Z.log2 x). pose proof (Z.log2_nonneg x) as H0. split; [done|]. destruct (Z.log2_spec x Hx) as [H1 H2]. rewrite Z.pow_succ_r in H2 by done. destruct (Z.eq_dec x (2 ^ Z.log2 x)) as [|Hne]; [done|]. exfalso.
  assert (Hb : Z.testbit (Z.land x (x - 1)) (Z.log2 x) = true); [|by rewrite H, Z.bits_0 in Hb]. rewrite Z.land_spec, Z.bit_log2 by done. cbn. assert (E : Z.log2 (x - 1) = Z.log2 x) by (apply Z.log2_unique; [done|]; rewrite Z.pow_succ_r by done; lia).
  rewrite <- E at 1. apply Z.bit_log2. lia.
Qed.

Lemma raise_to_ok alignment : alignment <= 2 ^ 63 -> forall fuel j, 0 <= j <= 63 -> 63 - j < Z.of_nat fuel -> exists k, raise_to fuel (2 ^ j) alignment = Some (2 ^ k) /\ j <= k <= 63 /\ alignment <= 2 ^ k.
Proof.
  intros Hal fuel. induction fuel as [|fuel IH]; intros j Hj Hf; [lia|]. cbn [raise_to]. destruct (Z.ltb_spec (2 ^ j) alignment) as [Hlt|]; [|exists j; split; [done|lia]].
  assert (Hj63 : j < 63) by (destruct (Z.eq_dec j 63) as [->|]; lia). rewrite Z.shiftl_mul_pow2 by lia. assert (E : 2 ^ j * 2 ^ 1 = 2 ^ (j + 1)) by (by rewrite <- Z.pow_add_r by lia). rewrite E.
  assert (Hp : 2 ^ (j + 1) <= 2 ^ 63) by (apply Z.pow_le_mono_r; lia). rewrite uwrap_id by (unfold in_u; lia). destruct (IH (j + 1) ltac:(lia) ltac:(lia)) as (k & -> & Hk & Hle). exists k. split; [done|]. lia.
Qed.

(** Alignments up to [2 ^ 63] become a power of two that is not smaller. *)
Lemma round_alignment_ok alignment : 8 < alignment <= 2 ^ 63 -> exists k, round_alignment alignment = Some (2 ^ k) /\ 5 <= k <= 63 /\ alignment <= 2 ^ k /\ (forall j, alignment = 2 ^ j -> 5 <= j -> k = j).
Proof.
  intros Hal. unfold round_alignment. change MIN_CHUNK_SIZE with 32. set (al := if alignment <? 32 then 32 else alignment). assert (Ha : 32 <= al <= 2 ^ 63 /\ alignment <= al /\ (32 <= alignment -> al = alignment)) by (unfold al; destruct (Z.ltb_spec alignment 32); lia).
  assert (Hinj : forall j k, 0 <= j -> 0 <= k -> 2 ^ j = 2 ^ k -> j = k) by (intros j k ?? E; apply (Z.pow_inj_r 2); lia).
  destruct (Z.eqb_spec (Z.land al (al - 1)) 0) as [E|Hne]; cbn [negb].
  - destruct (power_of_two al ltac:(lia) E) as (k & Hk & Ek). exists k. rewrite <- Ek. split; [done|]. assert (H5 : 5 <= k <= 63). { split; [apply (Z.pow_le_mono_r_iff 2); lia|apply (Z.pow_le_mono_r_iff 2); lia]. }
    split; [done|]. split; [lia|]. intros j Ej Hj. apply Hinj; [lia|lia|]. assert (2 ^ 5 <= 2 ^ j) by (apply Z.pow_le_mono_r; lia). lia.
  - change (Z.shiftl MALLOC_ALIGNMENT 1) with (2 ^ 4). destruct (raise_to_ok al ltac:(lia) 64 4 ltac:(lia) ltac:(lia)) as (k & Er & Hk & Hle). exists k. split; [exact Er|]. assert (H5 : 5 <= k) by (destruct (Z.eq_dec k 4) as [->|]; lia). split; [lia|]. split; [lia|].
    intros j Ej Hj. exfalso. apply Hne. assert (2 ^ 5 <= 2 ^ j) by (apply Z.pow_le_mono_r; lia). replace al with (2 ^ j) by lia. replace (2 ^ j - 1) with (Z.ones j) by (rewrite Z.ones_equiv; lia). rewrite Z.land_ones by lia. by apply Z.mod_same; lia.
Qed.

(** The loop that doubles never ends for an alignment above [2 ^ 63]. *)
Lemma raise_to_diverges alignment a fuel : 2 ^ 63 < alignment < 2 ^ 64 -> a = 0 \/ (exists j, 0 <= j <= 63 /\ a = 2 ^ j) -> raise_to fuel a alignment = None.
Proof.
  intros Hal. revert a. induction fuel as [|fuel IH]; intros a Ha; [done|]. cbn [raise_to]. rewrite (proj2 (Z.ltb_lt a alignment)).
  - apply IH. destruct Ha as [->|(j & Hj & ->)]; [by left|]. rewrite Z.shiftl_mul_pow2 by lia. replace (2 ^ j * 2 ^ 1) with (2 ^ (j + 1)) by (by rewrite <- Z.pow_add_r by lia). destruct (Z.eq_dec j 63) as [->|]; [by left|]. right. exists (j + 1). split; [lia|].
    apply uwrap_id. assert (2 ^ (j + 1) <= 2 ^ 63) by (apply Z.pow_le_mono_r; lia). unfold in_u. lia.
  - destruct Ha as [->|(j & Hj & ->)]; [lia|]. assert (2 ^ j <= 2 ^ 63) by (apply Z.pow_le_mono_r; lia). lia.
Qed.

(** ** The aligned chunk inside a chunk *)
Lemma used_end m L Ms Mt D p s : space_ok m L Ms Mt D -> (p, s) ∈ used L -> 0 < p /\ p + s + 16 <= 2 ^ 64.
Proof. intros O H. apply of_kind_in, in_placed in H as (i & sg & Hi & H). pose proof (Forall_lookup_1 _ _ _ _ (ok_segs _ _ _ _ _ O) Hi) as S. pose proof (seg_bounds _ _ _ _ _ S H). destruct (so_start _ _ S) as (_ & ? & _). pose proof (so_size _ _ S). lia. Qed.

(** The ends of a chunk that are to be given back. *)
Definition an_end (extra : Z) (ends : list (Z * Z)) : Prop := extra = 0 /\ ends = [] \/ exists e t, extra = chunk2mem e /\ 0 < e /\ ends = [(e, t)].

Section Aligned.
Context (m : mspace) (L : list seglay) (Ms Mt : gmap Z Z) (HI : space_inv m L Ms Mt) (p sz : Z) (Hu : (p, sz) ∈ used L) (nb : Z) (Hnb : 32 <= nb) (Hnb8 : nb mod 8 = 0).

(** The chunk in two, as blocks held. *)
Lemma held_in_two x n : 32 <= n -> in_two m L Ms Mt (dv_list m) p sz n x -> exists m' L', x = Some m' /\ space_inv m' L' Ms Mt /\ (p, n) ∈ used L' /\ (p + n, sz - n) ∈ used L' /\ held m' L' ++ [(p, sz)] ≡ₚ (p, n) :: (p + n, sz - n) :: held m L.
Proof using Type*.
  intros Hn (m' & L' & -> & HE & O' & HU). destruct HI as (O & Hd1 & Hd0). destruct (split_inv m m' L' Ms Mt Hd1 Hd0 HE O') as [HI' Hdc]. exists m', L'. split; [done|]. split; [done|].
  assert (Hin : forall b, b ∈ [(p, n); (p + n, sz - n)] -> b ∈ used L').
  { intros b Hb. assert (Hb' : b ∈ used L' ++ [(p, sz)]) by (rewrite HU; change (b ∈ [(p, n); (p + n, sz - n)] ++ used L); apply elem_of_app; by left). apply elem_of_app in Hb' as [?|Eb%list_elem_of_singleton]; [done|]. subst b.
    exfalso. rewrite !elem_of_cons in Hb. destruct Hb as [E|[E|?%elem_of_nil]]; [injection E as E|injection E as E; lia|done]. destruct (space_block m' L' Ms Mt _ (p + n) KUsed (sz - n) O') as (? & _); [|lia]. apply of_kind_in.
    assert (Hq : (p + n, sz - n) ∈ used L' ++ [(p, sz)]) by (rewrite HU; right; by left). apply elem_of_app in Hq as [?|Hq%list_elem_of_singleton]; [done|injection Hq; lia]. }
  split; [apply Hin; by left|]. split; [apply Hin; right; by left|]. unfold held. rewrite Hdc. transitivity ((used L' ++ [(p, sz)]) ++ direct_chunks m); [solve_Permutation|]. rewrite HU. solve_Permutation.
Qed.

Lemma cut_chunk_ok : nb <= sz -> exists m' trailer s2 L' ends, cut_chunk nb p m = Some (m', trailer) /\ space_inv m' L' Ms Mt /\ nb <= s2 /\ held m' L' ++ [(p, sz)] ≡ₚ (p, s2) :: ends ++ held m L /\ an_end trailer ends.
Proof using Type*.
  intros Hle. pose proof HI as (O & _). destruct (used_end m L Ms Mt _ p sz O Hu) as [Hp _]. destruct (held_head m L Ms Mt _ p sz O ltac:(apply elem_of_app; by left)) as (Er & Es & _). unfold cut_chunk. rewrite Er. cbn [mbind option_bind].
  rewrite (used_not_mmapped m L Ms Mt _ p sz O Hu), Es. cbn [negb andb]. change MIN_CHUNK_SIZE with 32. destruct (Z.ltb_spec (nb + 32) sz) as [Hlt|].
  - destruct (held_in_two _ nb Hnb (split_trail m L Ms Mt _ O p sz Hu nb Hnb Hnb8 ltac:(lia))) as (m' & L' & E & HI' & _ & _ & HH). apply bind_Some in E as (m1 & -> & E). cbn [mbind option_bind]. rewrite E. cbn [mbind option_bind].
    exists m', (chunk2mem (p + nb)), nb, L', [(p + nb, sz - nb)]. split; [done|]. split; [done|]. split; [done|]. split; [done|]. right. exists (p + nb), (sz - nb). split; [done|]. split; [lia|done].
  - exists m, 0, sz, L, []. split; [done|]. split; [done|]. split; [done|]. split; [solve_Permutation|]. by left.
Qed.

Context (k : Z) (Hk : 5 <= k <= 63) (Hroom : nb + 2 ^ k + 32 <= sz).

(** The aligned address, as [internal_memalign] computes it. *)
Lemma aligned_spot : chunk2mem p mod 2 ^ k <> 0 -> let br := mem2chunk (Z.land (u64 (chunk2mem p + 2 ^ k - 1)) (u64 (- 2 ^ k))) in let pos := if 32 <=? u64 (br - p) then br else br + 2 ^ k in
  chunk2mem pos mod 2 ^ k = 0 /\ 32 <= pos - p /\ (pos - p) mod 8 = 0 /\ nb <= sz - (pos - p).
Proof using Type*.
  intros Hne br pos. pose proof HI as (O & _). destruct (used_end m L Ms Mt _ p sz O Hu) as [Hp Hend]. destruct (used_tags m L Ms Mt _ O p sz Hu) as (_ & Hp8 & _). assert (Hk32 : 2 ^ 5 <= 2 ^ k <= 2 ^ 63) by (split; apply Z.pow_le_mono_r; lia).
  assert (Eb : br = align_up (2 ^ k) (chunk2mem p) - 16) by (unfold br, mem2chunk, align_up; do 3 f_equal; [lia|unfold Z.lnot; lia]). unfold chunk2mem in *.
  assert (Hup : align_up (2 ^ k) (p + 16) mod 2 ^ k = 0 /\ p + 16 < align_up (2 ^ k) (p + 16) < p + 16 + 2 ^ k).
  { destruct (Z.eq_dec k 63) as [->|]; [exfalso; destruct (space_block m L Ms Mt _ p KUsed sz O) as (? & _); [by apply of_kind_in|lia]|].
    destruct (align_up_spec k (p + 16) ltac:(lia) ltac:(lia) ltac:(lia)) as [H1 H2]. split; [done|]. destruct (Z.eq_dec (align_up (2 ^ k) (p + 16)) (p + 16)) as [E|]; [by rewrite E in H1|lia]. }
  destruct Hup as [Hm Hb]. set (u := align_up (2 ^ k) (p + 16)) in *. assert (Hu8 : u mod 8 = 0 /\ 2 ^ k mod 8 = 0).
  { assert (E8 : 2 ^ k = 2 ^ (k - 3) * 8) by (change 8 with (2 ^ 3); rewrite <- Z.pow_add_r by lia; f_equal; lia). split; [|rewrite E8; by apply Z.mod_mul]. apply Z.mod_divide in Hm as [z Hz]; [|lia]. rewrite Hz, E8, Z.mul_assoc. by apply Z.mod_mul. }
  destruct Hu8 as [Hu8 Hk8]. assert (Hbp : br - p = u - (p + 16)) by lia. assert (Hd8 : (u - (p + 16)) mod 8 = 0) by (clear -Hp8 Hu8; Z.div_mod_to_equations; lia). assert (Hw : u64 (br - p) = br - p) by (apply uwrap_id; unfold in_u; lia).
  unfold pos. rewrite Hw. destruct (Z.leb_spec 32 (br - p)) as [Hge|Hlt].
  - replace (br + 16) with u by lia. split; [done|]. rewrite Hbp in *. split; [done|]. split; [done|lia].
  - replace (br + 2 ^ k + 16) with (u + 2 ^ k) by lia. split; [by rewrite Z.add_mod, Hm, Z.mod_same, Z.add_0_l, Z.mod_0_l by lia|]. split; [lia|]. split; [replace (br + 2 ^ k - p) with (u - (p + 16) + 2 ^ k) by lia; by rewrite Z.add_mod, Hd8, Hk8|]. rewrite Hbp in *. lia.
Qed.

Lemma align_chunk_ok : exists m' newp leader s1 L' ends, align_chunk (2 ^ k) p m = Some (m', newp, leader) /\ space_inv m' L' Ms Mt /\ 0 < newp /\ chunk2mem newp mod 2 ^ k = 0 /\ nb <= s1 /\ (newp, s1) ∈ used L' /\
  held m' L' ++ [(p, sz)] ≡ₚ (newp, s1) :: ends ++ held m L /\ an_end leader ends.
Proof using Type*.
  pose proof HI as (O & _). destruct (used_end m L Ms Mt _ p sz O Hu) as [Hp _]. unfold align_chunk. destruct (Z.eqb_spec (chunk2mem p mod 2 ^ k) 0) as [E|Hne]; cbn [negb].
  - exists m, p, 0, sz, L, []. split; [done|]. split; [done|]. split; [done|]. split; [done|]. split; [lia|]. split; [done|]. split; [solve_Permutation|]. by left.
  - destruct (aligned_spot Hne) as (Hal & Hl & Hl8 & Hs). cbv zeta in *. change MIN_CHUNK_SIZE with 32. set (br := mem2chunk _) in *. set (pos := if 32 <=? u64 (br - p) then br else br + 2 ^ k) in *. clearbody pos. clear br.
    destruct (held_head m L Ms Mt _ p sz O ltac:(apply elem_of_app; by left)) as (Er & Es & _). rewrite Er. cbn [mbind option_bind]. rewrite (used_not_mmapped m L Ms Mt _ p sz O Hu), Es.
    destruct (held_in_two _ (pos - p) Hl (split_lead m L Ms Mt _ O p sz Hu (pos - p) Hl Hl8 ltac:(lia))) as (m' & L' & E & HI' & _ & Hq & HH). replace (p + (pos - p)) with pos in * by lia. apply bind_Some in E as (m1 & -> & E). cbn [mbind option_bind]. rewrite E. cbn [mbind option_bind].
    exists m', pos, (chunk2mem p), (sz - (pos - p)), L', [(p, pos - p)]. split; [done|]. split; [done|]. split; [lia|]. split; [done|]. split; [done|]. split; [done|]. split; [rewrite HH; solve_Permutation|]. right. by exists p, (pos - p).
Qed.
End Aligned.

(** ** [mspace_memalign] *)
(** A block of [bytes] bytes, at a multiple of [alignment] when this is a power of two. *)
Definition aligned_block (m : mspace) (L : list seglay) (alignment bytes : Z) (x : option (mspace * Z)) : Prop :=
  exists m' p sz L' Ms' Mt' lost, x = Some (m', chunk2mem p) /\ 0 < p /\ bytes + CHUNK_OVERHEAD <= sz /\ space_inv m' L' Ms' Mt' /\ held m' L' ≡ₚ (p, sz) :: held m L ++ lost /\
    (accounted m -> accounted m') /\
    forall j, 0 <= j -> alignment = 2 ^ j -> chunk2mem p mod alignment = 0.

Lemma free_end P U extra ends m L Ms Mt others : params_ok P -> space_inv m L Ms Mt -> an_end extra ends -> held m L ≡ₚ ends ++ others ->
  exists m' L' Ms' Mt' lost, free_extra P U extra m = Some m' /\ space_inv m' L' Ms' Mt' /\ held m' L' ≡ₚ others ++ lost /\ (accounted m -> accounted m').
Proof.
  intros HP HI [[-> ->]|(e & t & -> & He & ->)] HH; unfold free_extra.
  - exists m, L, Ms, Mt, []. split; [done|]. split; [done|]. split; [by rewrite app_nil_r|done].
  - rewrite (proj2 (Z.eqb_neq _ 0)) by (unfold chunk2mem; lia). cbn [negb]. by apply (free_held P U m L Ms Mt e t others).
Qed.

(** The memory of the answers of the system, when the request goes to it. *)
Definition malloc_answers (P : malloc_params) (bytes : Z) (m : mspace) (dm mp : option Z) : Prop := direct_answer P (needed bytes) m dm /\ system_answer P (needed bytes) m mp.
(** For a block with an alignment; a request for more than the threshold would get memory of its
    own, with the chunk somewhere inside it. *)
Definition align_answers (P : malloc_params) (alignment bytes : Z) (m : mspace) (dm mp : option Z) : Prop :=
  if alignment <=? MALLOC_ALIGNMENT then malloc_answers P bytes m dm mp
  else forall k, round_alignment alignment = Some (2 ^ k) -> bytes < MAX_REQUEST - 2 ^ k ->
    malloc_answers P (memalign_request (2 ^ k) bytes) m dm mp /\ use_mmap m && (mmap_threshold P <=? needed (memalign_request (2 ^ k) bytes)) = false.

Lemma served_room bytes sz : in_u 64 bytes -> needed bytes <= sz < 2 ^ 64 - 32 -> bytes + CHUNK_OVERHEAD <= sz.
Proof. intros Hb Hs. unfold needed in Hs. destruct (Z.leb_spec MAX_REQUEST bytes); [unfold MAX_SIZE_T in *; lia|]. destruct (request_bounds bytes ltac:(destruct Hb; lia)) as (_ & _ & ? & _). unfold CHUNK_OVERHEAD. lia. Qed.

Lemma malloc_in_segment P bytes dm mp m L Ms Mt : params_ok P -> space_inv m L Ms Mt -> in_u 64 bytes -> malloc_answers P bytes m dm mp -> use_mmap m && (mmap_threshold P <=? needed bytes) = false ->
  mspace_malloc P bytes dm mp m = Some (m, 0) \/ exists m1 p sz L1 Ms1 Mt1, mspace_malloc P bytes dm mp m = Some (m1, chunk2mem p) /\ 0 < p /\ bytes + CHUNK_OVERHEAD <= sz /\ space_inv m1 L1 Ms1 Mt1 /\ (p, sz) ∈ used L1 /\ held m1 L1 ≡ₚ (p, sz) :: held m L /\ needed bytes <= sz /\ pinned m1 p.
Proof.
  intros HP HI Hb (Hdm & Hmp) Hno. destruct (mspace_malloc_ok P bytes dm mp m L Ms Mt HP HI Hb Hdm Hmp) as [(E & _)|(m1 & p & sz & L1 & Ms1 & Mt1 & E & Hp & [Hsz Hpn] & HI1 & HH)]; [by left|right].
  exists m1, p, sz, L1, Ms1, Mt1. split; [done|]. split; [done|]. split; [by apply served_room|]. split; [done|].
  assert (Ed : direct m1 = direct m). { apply (malloc_direct P bytes dm mp m m1 (chunk2mem p) Hno); [|done]. intros m2 nb Em. destruct (malloc_inside_ok m L Ms Mt bytes HI Hb) as (m3 & r & Em' & G). rewrite Em in Em'. injection Em' as <- <-. destruct G as (-> & -> & _). done. }
  assert (HU : used L1 ≡ₚ (p, sz) :: used L) by (apply (Permutation_app_inv_r (direct_chunks m)); unfold held in HH; unfold direct_chunks in *; rewrite Ed in HH; exact HH). assert (Hu : (p, sz) ∈ used L1) by (rewrite HU; by left).
  split; [done|]. split; [done|]. split; [lia|]. destruct Hpn as [[_ ?]|Hd]; [done|]. exfalso. apply of_kind_in, in_placed in Hu as (i & sg & Hi & Hu). pose proof (Forall_lookup_1 _ _ _ _ (ok_segs _ _ _ _ _ (proj1 HI1)) Hi) as S. pose proof (seg_bounds _ _ _ _ _ S Hu). pose proof (ok_dapart _ _ _ _ _ (proj1 HI1) _ Hd sg (list_elem_of_lookup_2 _ _ _ Hi)) as HA. unfold regions_apart, sl_region in HA. cbn in HA. lia.
Qed.

Section Memalign.
Context (P : malloc_params) (U : Z -> Z -> bool) (m : mspace) (L : list seglay) (Ms Mt : gmap Z Z) (HP : params_ok P) (HI : space_inv m L Ms Mt) (bytes : Z) (Hb : in_u 64 bytes) (dm mp : option Z).

Lemma align_outer a q m1 m2 q' e : align_chunk a q m1 = Some (m2, q', e) -> outer m2 = outer m1.
Proof using Type. unfold align_chunk, set_inuse. intros H. cbv zeta in H. region_steps. Qed.
Lemma cut_outer nb q m1 m2 e : cut_chunk nb q m1 = Some (m2, e) -> outer m2 = outer m1.
Proof using Type. unfold cut_chunk, set_inuse. intros H. cbv zeta in H. region_steps. Qed.

(** The end of the call, from the chunk found on. *)
Lemma memalign_cut m1 p sz L1 Ms1 Mt1 k : space_inv m1 L1 Ms1 Mt1 -> (p, sz) ∈ used L1 -> held m1 L1 ≡ₚ (p, sz) :: held m L -> 5 <= k <= 63 -> bytes < MAX_REQUEST -> let nb := request2size bytes in nb + 2 ^ k + 32 <= sz ->
  exists m' p' sz' L' Ms' Mt' lost, ('(m, p, leader) ← align_chunk (2 ^ k) p m1; '(m, trailer) ← cut_chunk nb p m; c ← read m p; guard_ (nb <=? chunksize c) (guard_ (chunk2mem p mod 2 ^ k =? 0) (
    m ← free_extra P U leader m; m ← free_extra P U trailer m; Some (m, chunk2mem p)))) = Some (m', chunk2mem p') /\ 0 < p' /\ bytes + CHUNK_OVERHEAD <= sz' /\ space_inv m' L' Ms' Mt' /\
    held m' L' ≡ₚ (p', sz') :: held m L ++ lost /\ chunk2mem p' mod 2 ^ k = 0 /\ (accounted m1 -> accounted m').
Proof using HP Hb.
  intros HI1 Hu HH Hk Hlt nb Hroom. destruct (request_bounds bytes ltac:(destruct Hb; lia)) as (H8 & H32 & Hbn & _). fold nb in H8, H32, Hbn.
  destruct (align_chunk_ok m1 L1 Ms1 Mt1 HI1 p sz Hu nb ltac:(lia) H8 k Hk Hroom) as (m2 & q & leader & s1 & L2 & e1 & E2 & HI2 & Hq & Hal & Hs1 & Hu2 & HH2 & He1). rewrite E2. cbn [mbind option_bind].
  destruct (cut_chunk_ok m2 L2 Ms1 Mt1 HI2 q s1 Hu2 nb ltac:(lia) H8 Hs1) as (m3 & trailer & s2 & L3 & e2 & E3 & HI3 & Hs2 & HH3 & He2). rewrite E3. cbn [mbind option_bind].
  assert (HA : held m3 L3 ≡ₚ (q, s2) :: e2 ++ e1 ++ held m L).
  { apply (Permutation_app_inv_r [(q, s1); (p, sz)]). transitivity ((held m3 L3 ++ [(q, s1)]) ++ [(p, sz)]); [solve_Permutation|]. rewrite HH3. transitivity ((q, s2) :: e2 ++ (held m2 L2 ++ [(p, sz)])); [solve_Permutation|]. rewrite HH2, HH. solve_Permutation. }
  destruct (held_head m3 L3 Ms1 Mt1 _ q s2 (proj1 HI3) ltac:(rewrite HA; by left)) as (Er & Es & _). rewrite Er. cbn [mbind option_bind]. rewrite Es, (proj2 (Z.leb_le nb s2) Hs2), Hal. cbn [Z.eqb guard_].
  destruct (free_end P U leader e1 m3 L3 Ms1 Mt1 ((q, s2) :: e2 ++ held m L) HP HI3 He1 ltac:(rewrite HA; solve_Permutation)) as (m4 & L4 & Ms4 & Mt4 & lost1 & -> & HI4 & HH4 & HA4). cbn [mbind option_bind].
  destruct (free_end P U trailer e2 m4 L4 Ms4 Mt4 ((q, s2) :: held m L ++ lost1) HP HI4 He2 ltac:(rewrite HH4; solve_Permutation)) as (m5 & L5 & Ms5 & Mt5 & lost2 & -> & HI5 & HH5 & HA5). cbn [mbind option_bind].
  exists m5, q, s2, L5, Ms5, Mt5, (lost1 ++ lost2). split; [done|]. split; [done|]. split; [unfold CHUNK_OVERHEAD; lia|]. split; [done|]. split; [rewrite HH5; solve_Permutation|]. split; [done|]. intros HX. apply HA5, HA4, (outer_account _ _ (cut_outer _ _ _ _ _ E3)), (outer_account _ _ (align_outer _ _ _ _ _ _ E2)), HX.
Qed.

(** A block with an alignment is refused with the space as it was, or served. *)
Lemma mspace_memalign_ok alignment : 0 <= alignment <= 2 ^ 63 -> align_answers P alignment bytes m dm mp ->
  let x := mspace_memalign P U alignment bytes dm mp m in x = Some (m, 0) \/ aligned_block m L alignment bytes x.
Proof using Type*.
  intros Hal Hans x. unfold align_answers in Hans. unfold x, mspace_memalign, internal_memalign. change MALLOC_ALIGNMENT with 8 in *. destruct (Z.leb_spec alignment 8) as [Hle|Hgt].
  - destruct Hans as (Hdm & Hmp). destruct (mspace_malloc_ok P bytes dm mp m L Ms Mt HP HI Hb Hdm Hmp) as [(E & _)|(m1 & p & sz & L1 & Ms1 & Mt1 & E & Hp & [Hsz _] & HI1 & HH)]; [by left|right].
    exists m1, p, sz, L1, Ms1, Mt1, []. split; [done|]. split; [done|]. split; [by apply served_room|]. split; [done|]. split; [by rewrite app_nil_r|]. split; [by apply (malloc_account _ _ _ _ _ _ _ E)|]. intros j Hj E'.
    assert (Hp8 : p mod 8 = 0). { assert (Hin : (p, sz) ∈ held m1 L1) by (rewrite HH; by left). apply elem_of_app in Hin as [Hin|Hin]; [by apply (used_tags m1 L1 Ms1 Mt1 _ (proj1 HI1) p sz Hin)|]. apply list_elem_of_fmap in Hin as (d & [= -> _] & Hd). apply (do_at _ _ (proj1 (Forall_forall _ _) (ok_direct _ _ _ _ _ (proj1 HI1)) d Hd)). }
    assert (Hd : (alignment | 8)). { subst alignment. assert (Hj3 : j <= 3) by (apply (Z.pow_le_mono_r_iff 2); lia). exists (2 ^ (3 - j)). rewrite <- Z.pow_add_r by lia. by replace (3 - j + j) with 3 by lia. }
    apply Z.mod_divide; [lia|]. apply (Z.divide_trans _ 8); [done|]. apply Z.mod_divide; [done|]. unfold chunk2mem. clear -Hp8. Z.div_mod_to_equations. lia.
  - destruct (round_alignment_ok alignment ltac:(lia)) as (k & Ek & Hk & Hle & _). rewrite Ek. cbn [mbind option_bind]. destruct (Z.leb_spec (MAX_REQUEST - 2 ^ k) bytes) as [|Hlt]; [by left|]. destruct (Hans k Ek Hlt) as [Ha Hno].
    assert (Hin : in_u 64 (memalign_request (2 ^ k) bytes)) by (destruct (request_bounds bytes ltac:(destruct Hb; lia)) as (_ & _ & ? & _); change MAX_REQUEST with (2 ^ 64 - 128) in Hlt; unfold memalign_request, CHUNK_OVERHEAD, in_u; change MIN_CHUNK_SIZE with 32; destruct Hb; lia).
    destruct (malloc_in_segment P _ dm mp m L Ms Mt HP HI Hin Ha Hno) as [E|(m1 & p & sz & L1 & Ms1 & Mt1 & E & Hp & Hsz & HI1 & Hu & HH & _)]; rewrite E; cbn [mbind option_bind]; [left; by rewrite Z.eqb_refl|right].
    rewrite (proj2 (Z.eqb_neq _ 0)) by (unfold chunk2mem; lia). cbn [negb]. rewrite mem_chunk.
    destruct (memalign_cut m1 p sz L1 Ms1 Mt1 k HI1 Hu HH Hk) as (m' & q & sz' & L' & Ms' & Mt' & lost & E' & Hq & Hsz' & HI' & HH' & Hmod & HA'); [lia|unfold memalign_request, CHUNK_OVERHEAD in Hsz; change MIN_CHUNK_SIZE with 32 in Hsz; lia|].
    exists m', q, sz', L', Ms', Mt', lost. split; [exact E'|]. split; [done|]. split; [done|]. split; [done|]. split; [done|]. split; [by intros HX; apply HA', (malloc_account _ _ _ _ _ _ _ E)|]. intros j Hj Ej. assert (Hjk : j <= k) by (apply (Z.pow_le_mono_r_iff 2); lia).
    apply Z.mod_divide; [lia|]. apply Z.mod_divide in Hmod; [|lia]. eapply Z.divide_trans; [|exact Hmod]. subst alignment. exists (2 ^ (k - j)). rewrite <- Z.pow_add_r by lia. f_equal. lia.
Qed.
End Memalign.
