(* ===== verification/DlSplit.v ===== *)
(** Several blocks at once: [ialloc] of include/memory/malloc.c.h takes one chunk and cuts it into the
    blocks asked for, and the array for their addresses. *)
From stdpp Require Import gmap.
From S2P Require Import Prelude DlBins DlTree DlUnlink DlFit DlSmall DlSpace DlLayout DlInv DlBlocks DlMalloc DlFree DlRun DlSystem DlGrow DlPrepend DlSysAlloc DlAccount DlTrim DlRealloc DlResize DlAlign.
Local Open Scope Z_scope.
Implicit Types g : Z -> tchunk.

(** ** A chunk in use in many *)
Definition pieces (es : list Z) : list (kind * Z) := pair KUsed <$> es.
Definition piece_ok (e : Z) : Prop := 32 <= e /\ e mod 8 = 0.

Lemma total_pieces es : total (pieces es) = zsum es.
Proof. induction es as [|e es IH]; [done|]. change (total (pieces (e :: es))) with (e + total (pieces es)). by rewrite IH, zsum_cons. Qed.

(** The chunks that [split_elements] cuts: the last one has what is left. *)
Fixpoint cut_sizes (sizes : list Z) (rem : Z) : list Z :=
  match sizes with [] => [] | [_] => [rem] | e :: sizes => e :: cut_sizes sizes (rem - e) end.
Fixpoint starts (p : Z) (es : list Z) : list Z := match es with [] => [] | e :: es => p :: starts (p + e) es end.

Lemma cut_sizes_ok sizes rem : sizes <> [] -> Forall piece_ok sizes -> zsum sizes <= rem -> rem mod 8 = 0 ->
  zsum (cut_sizes sizes rem) = rem /\ Forall2 Z.le sizes (cut_sizes sizes rem) /\ Forall piece_ok (cut_sizes sizes rem).
Proof.
  revert rem. induction sizes as [|e [|e2 sizes] IH]; intros rem Hne HF Hs H8; [done| |].
  - rewrite !zsum_cons in Hs. cbn in *. apply Forall_cons in HF as [[H32 _] _]. split; [lia|]. split; [constructor; [lia|constructor]|]. constructor; [split; [lia|done]|constructor].
  - rewrite zsum_cons in Hs. apply Forall_cons in HF as [[H32 He8] HF]. destruct (IH (rem - e) ltac:(done) HF ltac:(lia) ltac:(by rewrite Zminus_mod, H8, He8)) as (E & H2 & H3).
    change (cut_sizes (e :: e2 :: sizes) rem) with (e :: cut_sizes (e2 :: sizes) (rem - e)). rewrite zsum_cons, E. split; [lia|]. split; [constructor; [lia|done]|]. by constructor.
Qed.

(** What the macros leave behind of the run of chunks [es]. *)
Record cut_run (m0 m m' : mspace) g g' (p rem : Z) (es : list Z) : Prop := {
  cr_wrote : wrote m0 m m' g';
  cr_lay : lay g' (footer m0) true p (pieces es) (p + rem) true;
  cr_dom : forall x k s, (x, k, s) ∈ placed p (pieces es) -> is_Some (read m' x);
  cr_foot : tc_prev_foot (g' p) = tc_prev_foot (g p);
  cr_end : tags (g' (p + rem)) = (footer m0, tc_head (g (p + rem)));
  cr_same : same_tags g g' (fun z => z < p \/ p + rem < z) }.

Lemma cut_one m0 m g p e : tagged m0 m g -> (forall z, z mod 8 = 0 -> p <= z <= p + e + 8 -> mapped m0 z = true) -> p mod 8 = 0 -> piece_ok e ->
  exists m' g', set_size_and_pinuse_of_inuse_chunk p e m = Some m' /\ cut_run m0 m m' g g' p e [e].
Proof.
  intros T HM Hp8 [H32 H8]. destruct (set_used_run m0 m g p e T) as (m' & g' & E & W & D & E1 & E2 & E3); [apply HM; [by rewrite Z.add_mod, Hp8|lia]|apply HM; [by rewrite Z.add_mod, Hp8, H8|lia]|lia|done|]. exists m', g'. split; [done|]. apply tags_pair in E1 as [E1f E1h]. pose proof E2 as [E2f _]%tags_pair. split; try done.
  - intros x k s Hx%list_elem_of_singleton. by simplify_eq.
  - intros z Hz. apply E3. lia.
Qed.

Lemma cut_more m0 m m1 m2 g g1 g2 p e rem es : cut_run m0 m m1 g g1 p e [e] -> cut_run m0 m1 m2 g1 g2 (p + e) (rem - e) es -> 0 < e < rem -> cut_run m0 m m2 g g2 p rem (e :: es).
Proof.
  intros [W1 L1 D1 F1 E1 S1] [W2 L2 D2 F2 E2 S2] He. replace (p + e + (rem - e)) with (p + rem) in * by lia. destruct L1 as (Hh & _ & _). destruct W1 as [T1 R1], W2 as [T2 R2]. pose proof E1 as [E1f E1h]%tags_pair.
  assert (Hp : tags (g2 p) = tags (g1 p)) by (apply S2; lia). apply tags_pair in Hp as [Hpf Hph]. split.
  - split; [done|]. intros b Hb. by apply R2, R1.
  - cbn [pieces fmap list_fmap lay in_use]. rewrite Hph. split; [done|]. split; [by rewrite F2|done].
  - cbn [pieces fmap list_fmap placed]. intros x k s [E|Hx]%elem_of_cons; [injection E as -> -> ->; apply R2, (D1 p KUsed e); by left|by apply (D2 x k s)].
  - by rewrite Hpf.
  - rewrite E2. f_equal. assert (E : tags (g1 (p + rem)) = tags (g (p + rem))) by (apply S1; lia). by apply tags_pair in E as [_ ?].
  - intros z Hz. rewrite S2 by lia. apply S1. lia.
Qed.

Lemma split_elements_run m0 sizes : forall p rem m g, tagged m0 m g -> sizes <> [] -> Forall piece_ok sizes -> zsum sizes <= rem -> in_u 64 rem -> rem mod 8 = 0 -> p mod 8 = 0 -> (forall z, z mod 8 = 0 -> p <= z <= p + rem + 8 -> mapped m0 z = true) ->
  exists m' g', split_elements sizes p rem m = Some (m', chunk2mem <$> starts p (cut_sizes sizes rem)) /\ cut_run m0 m m' g g' p rem (cut_sizes sizes rem).
Proof.
  induction sizes as [|e [|e2 sizes] IH]; intros p rem m g T Hne HF Hs [H0 H64] H8 Hp8 HM; [done| |].
  - rewrite zsum_cons in Hs. apply Forall_cons in HF as [[H32 _] _]. cbn in Hs. destruct (cut_one m0 m g p rem T HM Hp8 ltac:(split; [lia|done])) as (m' & g' & E & R). exists m', g'. cbn [split_elements cut_sizes starts]. rewrite E. done.
  - rewrite zsum_cons in Hs. apply Forall_cons in HF as [He HF]. pose proof He as [H32 He8]. assert (H2 : 32 <= zsum (e2 :: sizes)). { clear -HF. rewrite zsum_cons. apply Forall_cons in HF as [[? _] HF]. assert (0 <= zsum sizes) by (induction HF as [|x l [Hx _] _ IH]; [done|]; rewrite zsum_cons; lia). lia. }
    destruct (cut_one m0 m g p e T) as (m1 & g1 & E & R); [intros z Hz ?; apply HM; [done|lia]|done|done|]. destruct (IH (p + e) (rem - e) m1 g1 (wr_tagged _ _ _ _ (cr_wrote _ _ _ _ _ _ _ _ R)) ltac:(done) HF ltac:(lia) ltac:(unfold in_u; lia)) as (m2 & g2 & E2 & R2); [by rewrite Zminus_mod, H8, He8|by rewrite Z.add_mod, Hp8, He8|intros z Hz ?; apply HM; [done|lia]|].
    exists m2, g2. change (split_elements (e :: e2 :: sizes) p rem m) with (m ← set_size_and_pinuse_of_inuse_chunk p e m; '(m, l) ← split_elements (e2 :: sizes) (p + e) (u64 (rem - e)) m; Some (m, chunk2mem p :: l)).
    change (cut_sizes (e :: e2 :: sizes) rem) with (e :: cut_sizes (e2 :: sizes) (rem - e)). rewrite E. cbn [mbind option_bind]. rewrite uwrap_id by (unfold in_u; lia). rewrite E2. cbn [mbind option_bind]. split; [done|]. by apply (cut_more m0 m m1 m2 g g1 g2 p e rem); [| |lia].
Qed.

Lemma placed_pieces p es : of_kind KUsed (placed p (pieces es)) = zip (starts p es) es /\ of_kind KFree (placed p (pieces es)) = [].
Proof.
  revert p. induction es as [|e es IH]; intros p; [done|]. destruct (IH (p + e)) as [E1 E2]. change (placed p (pieces (e :: es))) with ((p, KUsed, e) :: placed (p + e) (pieces es)). unfold of_kind in *. cbn. by rewrite E1, E2.
Qed.

Lemma split_many m L Ms Mt D v s m' g' es : space_ok m L Ms Mt D -> (v, s) ∈ used L -> pinned m v -> cut_run m m m' (heads_of_space m) g' v s es -> zsum es = s ->
  exists L', tag_eff m m' /\ space_ok m' L' Ms Mt D /\ used L' ++ [(v, s)] ≡ₚ zip (starts v es) es ++ used L.
Proof.
  intros O Hv Hpin [[T _] HLp Hd Hfv Hend Hs] Hz. destruct (used_tags m L Ms Mt D O v s Hv) as (_ & _ & Hs8 & H32 & _ & Dv & _ & _ & _ & Hft). destruct (used_place m L Ms Mt D v s O Hv) as (i & sg & b1 & b2 & Hi & Hb & Ev). pose proof (Forall_lookup_1 _ _ _ _ (ok_segs _ _ _ _ _ O) Hi) as S.
  pose proof (so_lay _ _ S) as HL. rewrite Hb in HL. destruct (lay_end _ _ _ _ _ _ _ HL) as (Eend & _ & _). assert (Hin : (v, KUsed, s) ∈ seg_placed sg) by (unfold seg_placed; rewrite Hb, placed_app, Ev; apply elem_of_app; right; by left). pose proof (seg_bounds _ _ _ _ _ S Hin) as (B1 & B2 & _ & _ & B3 & B4 & _).
  assert (Htail : tags (g' (v + s)) = tags (heads_of_space m (v + s))) by (rewrite Hend; unfold tags; by rewrite Hft).
  destruct (lay_mid (heads_of_space m) g' (footer m) true (sl_start sg) b1 [(KUsed, s)] (pieces es) b2 (sl_end sg) true HL) as (q & q' & Hq & Hb2 & HL'); [intros z Hzz; apply Hs; lia|by rewrite <- Ev|]. rewrite <- Ev in Hq, Hb2, HL'. cbn [total] in Hq, Hb2, HL'. rewrite Z.add_0_r in Hq, Hb2, HL'.
  destruct Hq as ((Hh & _ & _) & _ & _ & <-). destruct (head_flags _ _ _ _ Hh Hs8) as (_ & Hpq & _). unfold pinned in Hpin. rewrite Hpin in Hpq. subst q. cbn [in_use] in Hb2. destruct (lay_end _ _ _ _ _ _ _ Hb2) as (Ee & He0 & _).
  assert (HLa : lay g' (footer m) true (sl_start sg) (b1 ++ pieces es ++ b2) (sl_end sg) true).
  { apply (HL' true HLp). revert Hb2. apply lay_agree.
    - intros z Hzz. destruct (decide (z = v + s)) as [->|]; [done|]. apply Hs. lia.
    - destruct (decide (sl_end sg = v + s)) as [->|]; [by apply tags_pair in Htail as [? _]|]. assert (E : tags (g' (sl_end sg)) = tags (heads_of_space m (sl_end sg))) by (apply Hs; lia). by apply tags_pair in E as [? _]. }
  assert (Hk : (forall a t, (a, KSys, t) ∉ placed v [(KUsed, s)])) by (by intros a t Ha%list_elem_of_singleton). destruct (placed_pieces v es) as [PU PF]. assert (PU1 : of_kind KUsed (placed v [(KUsed, s)]) = [(v, s)] /\ of_kind KFree (placed v [(KUsed, s)]) = []) by done. destruct PU1 as [PU1 PF1].
  destruct b2 as [|b b2].
  - assert (Et : sl_top sg = true). { pose proof (so_end _ _ S) as He. destruct (sl_top sg); [done|]. destruct He as (_ & b0 & Eb). rewrite Hb in Eb. by apply app_inj_tail in Eb as [_ ?]. }
    pose proof (so_end _ _ S) as He. rewrite Et in He. destruct He as (Ee' & Hht & HD & Ht8 & Ht0 & Hlim). change TOP_FOOT_SIZE with 80 in Hlim. assert (Evs : v + s = top m) by (rewrite <- Ee', Ee; cbn; lia).
    assert (Htop : tc_head (g' (top m)) = tc_head (heads_of_space m (top m))) by (rewrite Evs in Htail; by apply tags_pair in Htail as [_ ?]).
    destruct (top_ok m m' g' (top m) (topsize m) L Ms Mt D D i sg b1 [(KUsed, s)] (pieces es) O Hi Et Hb) as (L' & O' & HU); rewrite <- ?Ev; try done.
    + by rewrite with_top_self.
    + lia.
    + by apply (tg_dom _ _ _ T).
    + by rewrite Htop.
    + rewrite app_nil_r in HLa. by rewrite <- Ee'.
    + intros z Hzz. apply Hs. lia.
    + by rewrite PF, PF1.
    + exists L'. split; [by eapply wrote_eff|]. split; [done|]. rewrite <- Ev, PU, PU1 in HU. done.
  - destruct (mid_ok m L Ms Mt D O i sg Hi b1 [(KUsed, s)] (b :: b2) Hb m' g' (pieces es) D) as (L' & O' & HU); rewrite <- ?Ev; try done.
    + rewrite total_pieces, Hz. cbn. lia.
    + intros z Hzz. apply Hs. cbn in Hzz. lia.
    + by rewrite PF, PF1.
    + exists L'. split; [by eapply wrote_eff|]. split; [done|]. rewrite <- Ev, PU, PU1 in HU. done.
Qed.

(** The chunk at the end is marked first, then the ones before it. *)
Lemma cut_back m0 m m1 m2 g g1 g2 p c sz es : cut_run m0 m m1 g g1 (p + c) (sz - c) [sz - c] -> cut_run m0 m1 m2 g1 g2 p c es -> 0 < c < sz -> zsum es = c -> cut_run m0 m m2 g g2 p sz (es ++ [sz - c]).
Proof.
  intros [W1 L1 D1 F1 E1 S1] [W2 L2 D2 F2 E2 S2] Hc Hz. replace (p + c + (sz - c)) with (p + sz) in * by lia. destruct W1 as [T1 R1], W2 as [T2 R2]. cbn [pieces fmap list_fmap lay in_use] in L1. replace (p + c + (sz - c)) with (p + sz) in * by lia. destruct L1 as ((Hh & H8) & Hf & _). pose proof E2 as [E2f E2h]%tags_pair.
  assert (Hend : tags (g2 (p + sz)) = tags (g1 (p + sz))) by (apply S2; lia). pose proof Hend as [Hendf _]%tags_pair. assert (Ep : pieces (es ++ [sz - c]) = pieces es ++ [(KUsed, sz - c)]) by (unfold pieces; by rewrite fmap_app). split.
  - split; [done|]. intros b Hb. by apply R2, R1.
  - rewrite Ep. apply lay_app. exists (p + c), true. split; [done|]. cbn [lay in_use]. replace (p + c + (sz - c)) with (p + sz) by lia. rewrite E2h, Hendf. done.
  - rewrite Ep, placed_app, total_pieces, Hz. intros x k s [Hx|Hx%list_elem_of_singleton]%elem_of_app; [by apply (D2 x k s)|]. injection Hx as -> -> ->. apply R2, (D1 (p + c) KUsed (sz - c)). by left.
  - rewrite F2. assert (E : tags (g1 p) = tags (g p)) by (apply S1; lia). by apply tags_pair in E as [? _].
  - by rewrite Hend.
  - intros z Hzz. rewrite S2 by lia. apply S1. lia.
Qed.

Lemma starts_snoc p es e : starts p (es ++ [e]) = starts p es ++ [p + zsum es].
Proof. revert p. induction es as [|e0 es IH]; intros p; [cbn; by rewrite Z.add_0_r|]. cbn [app starts]. rewrite IH, zsum_cons, Z.add_assoc. done. Qed.
Lemma length_starts p es : length (starts p es) = length es.
Proof. revert p. induction es as [|e es IH]; intros p; [done|]. cbn. by rewrite IH. Qed.

Lemma split_elements_outer sizes : forall p rem m m' l, split_elements sizes p rem m = Some (m', l) -> outer m' = outer m.
Proof.
  induction sizes as [|e [|e2 sizes] IH]; intros p rem m m' l H; [by injection H as <- _| |].
  - cbn in H. apply bind_Some in H as (m1 & E & H). injection H as <- _. apply (tags_outer p rem 0). auto.
  - apply bind_Some in H as (m1 & E & H). apply bind_Some in H as ([m2 l2] & E2 & H). injection H as <- _. apply IH in E2. rewrite E2. apply (tags_outer p e 0). auto.
Qed.

(** ** The cuts of [ialloc] *)
Definition carve (given : bool) (contents : Z) (sizes : list Z) (p sz : Z) (m : mspace) : option (mspace * list Z * Z) :=
  '(m, marray, rem) ← (if given then Some (m, 0, sz)
     else m ← set_size_and_pinuse_of_inuse_chunk (p + contents) (u64 (sz - contents)) m; Some (m, chunk2mem (p + contents), contents));
  '(m, l) ← split_elements sizes p rem m;
  Some (m, l, marray).

Lemma carve_outer given contents sizes p sz m m' l a : carve given contents sizes p sz m = Some (m', l, a) -> outer m' = outer m.
Proof.
  intros H. apply bind_Some in H as ([[m1 a1] rem] & E & H). apply bind_Some in H as ([m2 l2] & E2 & H). injection H as <- _ _. apply split_elements_outer in E2. rewrite E2. destruct given; [by injection E as <- _ _|]. apply bind_Some in E as (m3 & E & H). injection H as <- _ _. eapply (tags_outer _ _ 0). eauto.
Qed.

(** The chunk for the array, when the caller gives none. *)
Definition array_part (given : bool) (asz marr : Z) (arrs : list (Z * Z)) : Prop :=
  if given then marr = 0 /\ arrs = [] else exists a t, marr = chunk2mem a /\ 0 < a /\ arrs = [(a, t)] /\ asz <= t.

Lemma carve_ok (given : bool) asz sizes p sz m L Ms Mt : space_inv m L Ms Mt -> (p, sz) ∈ used L -> pinned m p -> sizes <> [] -> Forall piece_ok sizes -> (if given then asz = 0 else 32 <= asz) -> zsum sizes + asz <= sz -> zsum sizes mod 8 = 0 ->
  exists m' L' es arrs marr, carve given (zsum sizes) sizes p sz m = Some (m', chunk2mem <$> starts p es, marr) /\ space_inv m' L' Ms Mt /\ Forall2 Z.le sizes es /\
    held m' L' ++ [(p, sz)] ≡ₚ zip (starts p es) es ++ arrs ++ held m L /\ array_part given asz marr arrs.
Proof.
  intros (O & Hd1 & Hd0) Hu Hpin Hne HF Ha Hle H8. destruct (used_tags m L Ms Mt _ O p sz Hu) as (HM & Hp8 & Hs8 & H32 & _). destruct (used_end m L Ms Mt _ p sz O Hu) as [Hp0 Hend]. assert (Hc : 32 <= zsum sizes). { destruct HF as [|e l [He _] HF]; [done|]. rewrite zsum_cons. assert (0 <= zsum l) by (clear -HF; induction HF as [|x l [Hx _] _ IH]; [done|]; rewrite zsum_cons; lia). lia. }
  unfold carve. destruct given.
  - cbn [mbind option_bind]. destruct (split_elements_run m sizes p sz m _ (tagged_self m) Hne HF ltac:(lia) ltac:(unfold in_u; lia) Hs8 Hp8 HM) as (m' & g' & -> & R). cbn [mbind option_bind]. destruct (cut_sizes_ok sizes sz Hne HF ltac:(lia) Hs8) as (Ez & H2 & _).
    destruct (split_many m L Ms Mt _ p sz m' g' _ O Hu Hpin R Ez) as (L' & HE & O' & HU). destruct (split_inv m m' L' Ms Mt Hd1 Hd0 HE O') as [HI' Hdc]. exists m', L', (cut_sizes sizes sz), [], 0. split; [done|]. split; [done|]. split; [done|]. split; [|done].
    unfold held. rewrite Hdc. transitivity ((used L' ++ [(p, sz)]) ++ direct_chunks m); [solve_Permutation|]. rewrite HU. solve_Permutation.
  - set (c := zsum sizes) in *. assert (Hc8 : (sz - c) mod 8 = 0) by (by rewrite Zminus_mod, Hs8, H8). rewrite uwrap_id by (unfold in_u; lia).
    destruct (cut_one m m _ (p + c) (sz - c) (tagged_self m)) as (m1 & g1 & -> & R1); [intros z Hz ?; apply HM; [done|lia]|by rewrite Z.add_mod, Hp8, H8|split; [lia|done]|]. cbn [mbind option_bind].
    destruct (split_elements_run m sizes p c m1 g1 (wr_tagged _ _ _ _ (cr_wrote _ _ _ _ _ _ _ _ R1)) Hne HF ltac:(lia) ltac:(unfold in_u; lia) H8 Hp8) as (m' & g' & -> & R2); [intros z Hz ?; apply HM; [done|lia]|]. cbn [mbind option_bind]. destruct (cut_sizes_ok sizes c Hne HF ltac:(lia) H8) as (Ez & H2 & _).
    pose proof (cut_back m m m1 m' _ g1 g' p c sz _ R1 R2 ltac:(lia) Ez) as R. destruct (split_many m L Ms Mt _ p sz m' g' _ O Hu Hpin R) as (L' & HE & O' & HU); [rewrite zsum_app, Ez; cbn; lia|]. destruct (split_inv m m' L' Ms Mt Hd1 Hd0 HE O') as [HI' Hdc].
    exists m', L', (cut_sizes sizes c), [(p + c, sz - c)], (chunk2mem (p + c)). split; [done|]. split; [done|]. split; [done|]. split; [|exists (p + c), (sz - c); split_and!; (done || lia)].
    rewrite starts_snoc, zip_with_app, Ez in HU by (by rewrite length_starts). cbn in HU. unfold held. rewrite Hdc. transitivity ((used L' ++ [(p, sz)]) ++ direct_chunks m); [solve_Permutation|]. rewrite HU. solve_Permutation.
Qed.

(** ** [ialloc] *)
(** The bytes asked for, one number for each block. *)
Definition requests (n : nat) (sizes : list Z) (same : bool) : list Z := if same then replicate n (default 0 (head sizes)) else take n sizes.
Definition array_size (n : nat) (given : bool) : Z := if given then 0 else request2size (8 * Z.of_nat n).
(** What a client may ask for: sizes for all blocks, and a sum that does not wrap around. *)
Record elements_ok (n : nat) (sizes : list Z) (same given : bool) : Prop := {
  eo_count : length (requests n sizes same) = n;
  eo_each : Forall (fun r => 0 <= r < MAX_REQUEST) (requests n sizes same);
  eo_array : 8 * Z.of_nat n < MAX_REQUEST;
  eo_sum : zsum (request2size <$> requests n sizes same) + array_size n given < 2 ^ 64 }.

Lemma element_sizes_eq n sizes same : element_sizes n sizes same = request2size <$> requests n sizes same.
Proof. unfold element_sizes, requests. destruct same; [by rewrite fmap_replicate|done]. Qed.

Lemma zsum_replicate n x : zsum (replicate n x) = Z.of_nat n * x.
Proof. induction n as [|n IH]; [done|]. cbn [replicate]. rewrite zsum_cons, IH. lia. Qed.

Lemma foldl_zsum l s : foldl (fun s e => u64 (s + request2size e)) (u64 s) l = u64 (s + zsum (request2size <$> l)).
Proof. revert s. induction l as [|e l IH]; intros s; [cbn; by rewrite Z.add_0_r|]. cbn [foldl]. rewrite uwrap_add_l64, IH, fmap_cons, zsum_cons. f_equal. lia. Qed.

Section Elements.
Context (n : nat) (sizes : list Z) (same given : bool) (HE : elements_ok n sizes same given).
Let es := element_sizes n sizes same.

Lemma pieces_asked : Forall piece_ok es /\ zsum es mod 8 = 0 /\ 0 <= zsum es /\ Forall2 (fun r e => r + 16 <= e) (requests n sizes same) es.
Proof using Type*.
  unfold es. rewrite element_sizes_eq. pose proof (eo_each _ _ _ _ HE) as HF. induction HF as [|r l Hr _ IH]; [split_and!; (constructor || done)|]. destruct IH as (H1 & H2 & H3 & H4). destruct (request_bounds r Hr) as (H8 & H32 & H16 & _). rewrite fmap_cons, zsum_cons.
  split; [constructor; [split; [lia|done]|done]|]. split; [by rewrite Z.add_mod, H8, H2|]. split; [lia|]. constructor; [lia|done].
Qed.

Lemma contents_asked : contents_size n sizes same = zsum es.
Proof using Type*.
  pose proof (eo_sum _ _ _ _ HE) as Hs. destruct pieces_asked as (_ & _ & H0 & _). unfold es in *. rewrite element_sizes_eq in *. assert (Ha : 0 <= array_size n given) by (unfold array_size; destruct given; [done|]; destruct (request_bounds (8 * Z.of_nat n)) as (_ & ? & _); [pose proof (eo_array _ _ _ _ HE); lia|lia]).
  unfold contents_size, requests in *. destruct same.
  - rewrite fmap_replicate, zsum_replicate in *. apply uwrap_id. unfold in_u. lia.
  - change 0 with (u64 0) at 1. rewrite foldl_zsum. apply uwrap_id. unfold in_u. lia.
Qed.
End Elements.

(** The request for the chunk to be cut. *)
Definition ialloc_request (n : nat) (sizes : list Z) (same given : bool) : Z := zsum (request2size <$> requests n sizes same) + array_size n given - CHUNK_OVERHEAD.

Lemma flags_inv f m L Ms Mt : space_inv m L Ms Mt -> space_inv (with_mflags f m) L Ms Mt.
Proof. intros (O & H). split; [|done]. by apply (space_ok_fields m). Qed.
Lemma flags_account f m : accounted m -> accounted (with_mflags f m).
Proof. by apply same_account. Qed.

Lemma mmap_disabled m : use_mmap (with_mmap false m) = false.
Proof. unfold use_mmap, with_mmap. cbn [mflags with_mflags]. rewrite <- Z.land_assoc. by rewrite Z.land_0_r. Qed.

Lemma starts_positive p es : 0 < p -> Forall (fun e => 0 <= e) es -> Forall (fun x => 0 < x) (starts p es).
Proof. intros Hp HF. revert p Hp. induction HF as [|e es He _ IH]; intros p Hp; [constructor|]. cbn. constructor; [done|]. apply IH. lia. Qed.

(** Null, with the space as it was but for a flag; or the blocks, each a chunk that is large enough, and the array. *)
Definition cut_out (m : mspace) (L : list seglay) (n : nat) (rs : list Z) (given : bool) (x : option (mspace * list Z * Z)) : Prop :=
  exists m' L' Ms' Mt' bs arrs marr, x = Some (m', chunk2mem <$> bs.*1, marr) /\ space_inv m' L' Ms' Mt' /\ held m' L' ≡ₚ bs ++ arrs ++ held m L /\ (accounted m -> accounted m') /\
    (bs = [] /\ arrs = [] /\ marr = 0 \/ Forall2 (fun r b => r + CHUNK_OVERHEAD <= b.2 /\ 0 < b.1) rs bs /\ array_part given (8 * Z.of_nat n + CHUNK_OVERHEAD) marr arrs).

Lemma ialloc_ok P n sizes same given dm mp m L Ms Mt : params_ok P -> space_inv m L Ms Mt -> n <> O -> elements_ok n sizes same given -> malloc_answers P (ialloc_request n sizes same given) (with_mmap false m) dm mp ->
  cut_out m L n (requests n sizes same) given (ialloc P n sizes same given dm mp m).
Proof.
  intros HP HI Hn HE Hans. destruct (pieces_asked n sizes same given HE) as (HF & H8 & H0 & H2). pose proof (contents_asked n sizes same given HE) as Ec. pose proof (eo_sum _ _ _ _ HE) as Hsum. pose proof (eo_array _ _ _ _ HE) as Harr. pose proof (eo_count _ _ _ _ HE) as Hcount. rewrite <- element_sizes_eq in Hsum. set (es := element_sizes n sizes same) in *.
  assert (Hne : es <> []) by (intros E; apply Forall2_length in H2; rewrite Hcount, E in H2; done). assert (H32 : 32 <= zsum es) by (destruct HF as [|e l [He _] HF]; [done|]; rewrite zsum_cons; assert (0 <= zsum l) by (clear -HF; induction HF as [|x l [Hx _] _ IH]; [done|]; rewrite zsum_cons; lia); lia).
  assert (Ha : (if given then array_size n given = 0 else 32 <= array_size n given /\ 8 * Z.of_nat n + CHUNK_OVERHEAD <= array_size n given) /\ array_size n given mod 8 = 0).
  { unfold array_size. destruct given; [done|]. destruct (request_bounds (8 * Z.of_nat n) ltac:(lia)) as (A8 & A32 & A16 & _). unfold CHUNK_OVERHEAD. split; [lia|done]. }
  destruct Ha as [Ha Ha8]. assert (Ea : (if given then 0 else request2size (u64 (Z.of_nat n * 8))) = array_size n given). { unfold array_size. destruct given; [done|]. rewrite uwrap_id by (unfold in_u; change MAX_REQUEST with (2 ^ 64 - 128) in Harr; lia). by rewrite Z.mul_comm. }
  assert (Ha0 : 0 <= array_size n given) by (destruct given; lia). unfold ialloc. destruct n as [|n']; [done|]. cbv zeta. rewrite Ea, Ec. set (N := S n') in *. set (A := array_size N given) in *.
  assert (Er : u64 (u64 (zsum es + A) - CHUNK_OVERHEAD) = ialloc_request N sizes same given) by (unfold ialloc_request; rewrite <- element_sizes_eq; fold es A; unfold CHUNK_OVERHEAD; rewrite uwrap_sub_l64; apply uwrap_id; unfold in_u; lia). rewrite Er.
  assert (Hreq : ialloc_request N sizes same given = zsum es + A - 16) by (unfold ialloc_request; by rewrite <- element_sizes_eq). set (m0 := with_mmap false m) in *. assert (HI0 : space_inv m0 L Ms Mt) by (by apply flags_inv).
  destruct (malloc_in_segment P (ialloc_request N sizes same given) dm mp m0 L Ms Mt HP HI0 ltac:(rewrite Hreq; unfold in_u; lia) Hans ltac:(unfold m0; by rewrite mmap_disabled)) as [E|(m1 & p & sz & L1 & Ms1 & Mt1 & E & Hp & _ & HI1 & Hu & HH & Hsz & Hpin)]; rewrite E; cbn [mbind option_bind].
  - rewrite Z.eqb_refl. exists (if use_mmap m then with_mmap true m0 else m0), L, Ms, Mt, [], [], 0. split; [done|]. split; [destruct (use_mmap m); by repeat apply flags_inv|]. split; [by destruct (use_mmap m)|]. split; [|by left]. intros HA. destruct (use_mmap m); by repeat apply flags_account.
  - rewrite (proj2 (Z.eqb_neq (chunk2mem p) 0)) by (unfold chunk2mem; lia). set (m2 := if use_mmap m then with_mmap true m1 else m1). assert (HI2 : space_inv m2 L1 Ms1 Mt1) by (unfold m2; destruct (use_mmap m); [by apply flags_inv|done]). assert (Hpin2 : pinned m2 p) by (unfold m2; by destruct (use_mmap m)).
    assert (HH2 : held m2 L1 ≡ₚ (p, sz) :: held m L) by (unfold m2; destruct (use_mmap m); exact HH). assert (HA2 : accounted m -> accounted m2) by (intros HA; assert (accounted m1) by (by apply (malloc_account _ _ _ _ _ _ _ E), flags_account); unfold m2; destruct (use_mmap m); [by apply flags_account|done]). clearbody m2. clear E HH Hpin HI1.
    replace (mem2chunk (chunk2mem p)) with p by (unfold mem2chunk, chunk2mem; lia). destruct (held_head m2 L1 Ms1 Mt1 _ p sz (proj1 HI2) ltac:(apply elem_of_app; by left)) as (Erd & Es & _). rewrite Erd. cbn [mbind option_bind]. rewrite (used_not_mmapped m2 L1 Ms1 Mt1 _ p sz (proj1 HI2) Hu), Es. cbn [negb guard_].
    assert (Hneed : zsum es + A <= sz). { unfold needed in Hsz. destruct (Z.leb_spec MAX_REQUEST (ialloc_request N sizes same given)) as [|Hlt]; [unfold MAX_SIZE_T in Hsz; lia|]. destruct (request_bounds (ialloc_request N sizes same given)) as (_ & _ & ? & _); lia. }
    destruct (carve_ok given A es p sz m2 L1 Ms1 Mt1 HI2 Hu Hpin2 Hne HF ltac:(destruct given; [done|apply Ha]) Hneed H8) as (m' & L' & es' & arrs & marr & Ecv & HI' & Hle & HH' & Hap). pose proof (carve_outer _ _ _ _ _ _ _ _ _ Ecv) as Eo. unfold carve in Ecv. change (element_sizes N sizes same) with es. rewrite Ecv.
    assert (Hlen : length (starts p es') = length es') by apply length_starts. exists m', L', Ms1, Mt1, (zip (starts p es') es'), arrs, marr. split; [by rewrite fst_zip by lia|]. split; [done|]. split.
    { apply (Permutation_app_inv_r [(p, sz)]). rewrite HH', HH2. solve_Permutation. }
    split; [intros HA; apply (outer_account m2 m' Eo); auto|]. right. split.
    + assert (Hpos : Forall (fun x => 0 < x) (starts p es')). { apply starts_positive; [done|]. clear -Hle HF. induction Hle as [|e e' l l' Hee _ IH]; [constructor|]. apply Forall_cons in HF as [[? _] HF]. constructor; [lia|by apply IH]. }
      clear -H2 Hle Hlen Hpos. revert es' Hle Hlen Hpos. generalize (starts p). intros st. set (ss := st). intros es' Hle Hlen Hpos. generalize dependent (ss es'). clear st ss. induction H2 in es', Hle |- *; intros ss Hlen Hpos; [apply Forall2_nil_inv_l in Hle as ->; destruct ss; [constructor|done]|].
      apply Forall2_cons_inv_l in Hle as (e' & l'' & Hee & Hle & ->). destruct ss as [|s0 ss]; [done|]. apply Forall_cons in Hpos as [? Hpos]. cbn. constructor; [cbn; unfold CHUNK_OVERHEAD; lia|]. apply IHForall2; [done|cbn in Hlen; lia|done].
    + destruct given; [done|]. destruct Hap as (a & t & -> & Ha' & -> & Ht). exists a, t. split; [done|]. split; [done|]. split; [done|]. destruct Ha as [_ Ha]. lia.
Qed.
