(* ===== verification/DlHeap.v ===== *)
(** Memory spaces with the system behind them: spaces are created, serve requests, resize chunks, take
    them back and give memory back, and the blocks that clients hold stay apart. *)
From stdpp Require Import gmap.
From S2P Require Import Prelude DlBins DlTree DlUnlink DlFit DlSmall DlSpace DlLayout DlInv DlBlocks DlMalloc DlFree DlRun DlSystem DlGrow DlPrepend DlSysAlloc DlAccount DlTrim DlRealloc DlResize DlAlign DlSplit.
Local Open Scope Z_scope.

(** ** Spaces created *)
Lemma records_ok m L Ms Mt D l f : space_ok m L Ms Mt D -> Forall2 seg_matches l L -> head (seg_at <$> l) = Some (ms_at m + 880) -> space_ok (with_mflags f (with_segs l m)) L Ms Mt D.
Proof.
  intros O HM Hf. set (m' := with_mflags f (with_segs l m)). pose proof (ok_least _ _ _ _ _ O) as Hl0. apply (rebuild m m' L L Ms Mt D D O); try done.
  - rewrite Forall_forall. intros sg Hsg. by apply (seg_keep m m' sg (proj1 (Forall_forall _ _) (ok_segs _ _ _ _ _ O) sg Hsg)).
  - intros i j s1 s2. apply O.
  - apply O.
  - rewrite Forall_forall. intros d Hd. by apply (direct_same m m' d (proj1 (Forall_forall _ _) (ok_direct _ _ _ _ _ O) d Hd)).
  - apply O.
  - apply O.
  - apply O.
  - apply O.
Qed.

(** The flags of the first segment: memory that is not the system's, or that comes in pages. *)
Lemma flagged_ok tbase tsize magic_ flags trim f locked : 0 < tbase -> tbase mod 8 = 0 -> tsize mod 8 = 0 -> 1040 < tsize < 2 ^ 40 -> tbase + tsize < 2 ^ 64 -> in_u 64 magic_ -> (f = EXTERN_BIT \/ tsize mod 4096 = 0) ->
  exists m, init_user_mstate tbase tsize magic_ flags trim = Some m /\ let m' := set_lock locked (with_seg_flags f m) in space_inv m' [first_lay tbase tsize] ∅ ∅ /\ region m' = ([(tbase, tbase + tsize)], [], tbase + 16).
Proof.
  intros Hb Hb8 Hs8 Hs Hend Hmag Hf. destruct (new_space_ok tbase tsize magic_ flags trim Hb Hb8 Hs8 Hs Hend Hmag) as (m & E & (O & H1 & H2) & ER & _). exists m. split; [done|]. intros m'. split; [|done]. split; [|done].
  pose proof (ok_match _ _ _ _ _ O) as HM. pose proof (ok_first _ _ _ _ _ O) as Hfst. unfold m', set_lock, with_seg_flags. destruct (segs m) as [|s rs] eqn:Es; [done|]. apply Forall2_cons in HM as [[M1 M2 M3 _] HM]. apply records_ok; [done| |done].
  apply Forall2_cons. split; [|done]. split; [done|done|done|]. intros F1 F2. destruct Hf as [->|Hpg]; [done|]. cbn in *. rewrite M1 in M2. replace (seg_size s) with tsize by lia. done.
Qed.

(** The memory asked for has room for the record of the space and for the capacity; a capacity
    that makes the size wrap around asks for nothing. *)
Lemma create_size_ok P capacity : params_ok P -> 0 <= capacity < capacity_limit P -> create_size P capacity = 0 \/
  create_size P capacity mod 4096 = 0 /\ 4096 <= create_size P capacity /\ (0 < capacity -> capacity + 1040 <= create_size P capacity).
Proof.
  intros (j & k & Hj & Hk & Ep & Eg) Hc. unfold capacity_limit in Hc. change (pad_request sizeof_malloc_state + TOP_FOOT_SIZE) with 1040 in Hc. rewrite Ep in Hc. assert (Hp : 2 ^ 12 <= 2 ^ k <= 2 ^ 39) by (split; apply Z.pow_le_mono_r; lia). assert (Hpj : 2 ^ 12 <= 2 ^ j <= 2 ^ 39) by (split; apply Z.pow_le_mono_r; lia).
  unfold uwrap in Hc. rewrite <- (Z.mod_add _ 1 (2 ^ 64)), Z.mod_small in Hc by lia. unfold create_size, granularity_align in *. change (pad_request sizeof_malloc_state) with 960 in *. change TOP_FOOT_SIZE with 80 in *. rewrite Eg in *.
  assert (Hd : (4096 | 2 ^ k)) by (change 4096 with (2 ^ 12); exists (2 ^ (k - 12)); rewrite <- Z.pow_add_r by lia; f_equal; lia).
  set (rs := if capacity =? 0 then 2 ^ k else capacity + 80 + 960) in *. assert (H0 : 1040 <= rs < 2 ^ 64 /\ (0 < capacity -> capacity + 1040 <= rs)) by (unfold rs; destruct (Z.eqb_spec capacity 0); lia).
  destruct (Z.le_gt_cases (rs + 2 ^ k) (2 ^ 64)) as [Hle|Hgt]; [right|left; apply align_up_zero; lia].
  destruct (align_up_spec k rs ltac:(lia) ltac:(lia) Hle) as [Hm Hb]. apply Z.mod_divide in Hm; [|lia]. assert (H4 : (4096 | align_up (2 ^ k) rs)) by (by eapply Z.divide_trans). destruct H4 as [z Hz]. split; [rewrite Hz; by apply Z.mod_mul|]. lia.
Qed.

(** ** The spaces and their clients *)
(** [V] has the blocks that the clients hold, with the bytes they asked for. A call that
    returns the null pointer leaves the blocks as they were. *)
Definition add_block (mem bytes : Z) (V V0 : gmap Z Z) : gmap Z Z := if mem =? 0 then V0 else <[mem := bytes]> V.
(** The blocks of a call for several, with the array of their addresses when the call makes one. *)
Definition cut_blocks (l rs : list Z) (n : nat) (arr : Z) : list (Z * Z) := zip l rs ++ (if arr =? 0 then [] else [(arr, 8 * Z.of_nat n)]).
Definition add_blocks (bl : list (Z * Z)) (V : gmap Z Z) : gmap Z Z := foldr (fun b V => <[b.1 := b.2]> V) V bl.
(** A call for no blocks at all is a request for no bytes, or it does nothing. *)
Inductive heap_step (P : malloc_params) : mspace * gmap Z Z -> mspace * gmap Z Z -> Prop :=
| HeapMalloc m V bytes dm mp m' mem : in_u 64 bytes -> malloc_answers P bytes m dm mp -> mspace_malloc P bytes dm mp m = Some (m', mem) -> heap_step P (m, V) (m', add_block mem bytes V V)
| HeapCalloc m V n size dm mp m' mem z : in_u 64 n -> in_u 64 size -> malloc_answers P (calloc_size n size) m dm mp -> mspace_calloc P n size dm mp m = Some (m', mem, z) -> heap_step P (m, V) (m', add_block mem (n * size) V V)
| HeapFree m V U mem bytes m' : V !! mem = Some bytes -> mspace_free P U mem m = Some m' -> heap_step P (m, V) (m', delete mem V)
| HeapRealloc m V U mem old bytes dm mp mr m' mem' c : V !! mem = Some old -> in_u 64 bytes -> malloc_answers P bytes m dm mp -> remap_answers P mem bytes m mr -> mspace_realloc P U mem bytes dm mp mr m = Some (m', mem', c) ->
    heap_step P (m, V) (m', add_block mem' bytes (delete mem V) V)
| HeapMemalign m V U alignment bytes dm mp m' mem : 0 <= alignment <= 2 ^ 63 -> in_u 64 bytes -> align_answers P alignment bytes m dm mp -> mspace_memalign P U alignment bytes dm mp m = Some (m', mem) -> heap_step P (m, V) (m', add_block mem bytes V V)
| HeapIndependent m V n sizes same given dm mp m' l arr : n <> O -> elements_ok n sizes same given -> malloc_answers P (ialloc_request n sizes same given) (with_mmap false m) dm mp -> ialloc P n sizes same given dm mp m = Some (m', l, arr) ->
    heap_step P (m, V) (m', add_blocks (cut_blocks l (requests n sizes same) n arr) V)
| HeapTrim m V U pad m' b : in_u 64 pad -> sys_trim P U pad m = Some (m', b) -> heap_step P (m, V) (m', V)
| HeapTrack m V enable : heap_step P (m, V) ((mspace_track_large_chunks enable m).1, V).

(** Every block of [V] is a chunk of [H] that is large enough; the space counts its bytes. *)
Definition within_chunks (V : gmap Z Z) (H : list (Z * Z)) : Prop := forall mem n, V !! mem = Some n -> 0 <= n /\ exists sz, (mem2chunk mem, sz) ∈ H /\ n + CHUNK_OVERHEAD <= sz.
#[global] Instance within_chunks_proper V : Proper (Permutation ==> iff) (within_chunks V).
Proof. intros H H' E. unfold within_chunks. by setoid_rewrite E. Qed.
Definition backed (m : mspace) (V : gmap Z Z) : Prop := exists L Ms Mt, space_inv m L Ms Mt /\ within_chunks V (held m L) /\ accounted m.

(** Chunks held do not overlap. *)
Lemma direct_apart m L Ms Mt D d a k s : space_ok m L Ms Mt D -> d ∈ direct m -> (a, k, s) ∈ all_placed L -> d.2 <= a \/ a + s <= d.1.
Proof.
  intros O Hd Ha. apply in_placed in Ha as (i & sg & Hi & Ha). pose proof (Forall_lookup_1 _ _ _ _ (ok_segs _ _ _ _ _ O) Hi) as S. pose proof (seg_bounds _ _ _ _ _ S Ha). pose proof (ok_dapart _ _ _ _ _ O d Hd sg (list_elem_of_lookup_2 _ _ _ Hi)) as HA.
  unfold regions_apart, sl_region in HA. cbn in HA. lia.
Qed.

Lemma held_apart m L Ms Mt D p1 s1 p2 s2 : space_ok m L Ms Mt D -> (p1, s1) ∈ held m L -> (p2, s2) ∈ held m L -> (p1, s1) = (p2, s2) \/ p1 + s1 <= p2 \/ p2 + s2 <= p1.
Proof.
  intros O H1 H2. apply elem_of_app in H1 as [H1|H1]; apply elem_of_app in H2 as [H2|H2].
  - apply of_kind_in in H1, H2. destruct (space_apart m L Ms Mt D _ _ _ _ _ _ O H1 H2) as [E|E]; [left; by injection E as -> ->|by right].
  - apply of_kind_in in H1. apply list_elem_of_fmap in H2 as (d & [= -> ->] & Hd). destruct (direct_apart m L Ms Mt D d _ _ _ O Hd H1); lia.
  - apply of_kind_in in H2. apply list_elem_of_fmap in H1 as (d & [= -> ->] & Hd). destruct (direct_apart m L Ms Mt D d _ _ _ O Hd H2); lia.
  - apply list_elem_of_fmap in H1 as (d1 & [= -> ->] & Hd1). apply list_elem_of_fmap in H2 as (d2 & [= -> ->] & Hd2). apply list_elem_of_lookup in Hd1 as [i Hi], Hd2 as [j Hj]. destruct (decide (i = j)) as [->|Hne]; [left; congruence|].
    pose proof (ok_dseq _ _ _ _ _ O i j d1 d2 Hne Hi Hj) as HA. unfold regions_apart in HA. lia.
Qed.

(** Chunks held are aligned, and they are memory of the space. *)
Lemma held_memory m L Ms Mt D p s : space_ok m L Ms Mt D -> (p, s) ∈ held m L -> p mod 8 = 0 /\ 32 <= s /\ covers m p (p + s).
Proof.
  intros O H. apply elem_of_app in H as [H|H].
  - apply of_kind_in, in_placed in H as (i & sg & Hi & H). pose proof (Forall_lookup_1 _ _ _ _ (ok_segs _ _ _ _ _ O) Hi) as S. pose proof (seg_bounds _ _ _ _ _ S H) as (H1 & H2 & H3 & _ & H4 & H5 & _). split; [done|]. split; [done|]. intros x X1 X2 X3. apply (so_covers _ _ S); (done || lia).
  - apply list_elem_of_fmap in H as (d & [= -> ->] & Hd). pose proof (proj1 (Forall_forall _ _) (ok_direct _ _ _ _ _ O) d Hd) as Hdd. destruct (do_at _ _ Hdd) as (H1 & _). destruct (do_size _ _ Hdd) as [_ H2]. split; [done|]. split; [lia|]. intros x X1 X2 X3. apply mapped_region. exists d. split; [apply elem_of_app; by right|lia].
Qed.

Lemma held_nodup m L Ms Mt D : space_ok m L Ms Mt D -> NoDup (held m L).*1.
Proof.
  intros O. unfold held. rewrite fmap_app. apply NoDup_app. split; [by apply (used_nodup m L Ms Mt D)|]. split.
  - intros a H1 H2. apply list_elem_of_fmap in H1 as ([p s] & -> & H1), H2 as ([q t] & E & H2). cbn in E. subst q. destruct (held_apart m L Ms Mt D p s p t O) as [E|E]; [apply elem_of_app; by left|apply elem_of_app; by right| |].
    + injection E as <-. apply of_kind_in in H1. apply list_elem_of_fmap in H2 as (d & [= -> ->] & Hd). pose proof (direct_range m L Ms Mt D d O Hd). destruct (space_block m L Ms Mt D _ _ _ O H1). destruct (direct_apart m L Ms Mt D d _ _ _ O Hd H1); lia.
    + destruct (held_memory m L Ms Mt D p s O) as (_ & ? & _); [apply elem_of_app; by left|]. destruct (held_memory m L Ms Mt D p t O) as (_ & ? & _); [apply elem_of_app; by right|]. lia.
  - unfold direct_chunks. rewrite <- list_fmap_compose. apply NoDup_fmap_2_strong.
    + intros d1 d2 H1 H2 E. cbn in E. apply list_elem_of_lookup in H1 as [i Hi], H2 as [j Hj]. destruct (decide (i = j)) as [->|Hne]; [congruence|]. pose proof (ok_dseq _ _ _ _ _ O i j d1 d2 Hne Hi Hj) as HA. unfold regions_apart in HA.
      pose proof (direct_range m L Ms Mt D d1 O (list_elem_of_lookup_2 _ _ _ Hi)). pose proof (direct_range m L Ms Mt D d2 O (list_elem_of_lookup_2 _ _ _ Hj)). lia.
    + apply NoDup_alt. intros i j d Hi Hj. destruct (decide (i = j)) as [?|Hne]; [done|]. pose proof (ok_dseq _ _ _ _ _ O i j d d Hne Hi Hj) as HA. unfold regions_apart in HA. pose proof (direct_range m L Ms Mt D d O (list_elem_of_lookup_2 _ _ _ Hi)). lia.
Qed.

(** ** Every step keeps the blocks *)
(** A block that was handed out is new, and it is a chunk of the space. *)
Lemma grant_backed m L Ms Mt V p sz rest lost bytes : space_inv m L Ms Mt -> held m L ≡ₚ (p, sz) :: rest ++ lost -> within_chunks V rest -> 0 <= bytes -> bytes + CHUNK_OVERHEAD <= sz -> accounted m ->
  backed m (<[chunk2mem p := bytes]> V) /\ V !! chunk2mem p = None.
Proof.
  intros HI HH HV Hb Hsz HA. pose proof HI as (O & _). split.
  - exists L, Ms, Mt. split; [done|]. split; [|done]. intros mem n Hm. apply lookup_insert_Some in Hm as [[<- <-]|[_ Hm]].
    + split; [done|]. exists sz. rewrite mem_chunk, HH. split; [by left|done].
    + destruct (HV _ _ Hm) as (H0 & t & Hin & Ht). split; [done|]. exists t. split; [|done]. rewrite HH. right. apply elem_of_app. by left.
  - destruct (V !! chunk2mem p) as [n|] eqn:E; [|done]. exfalso. destruct (HV _ _ E) as (_ & t & Hin & _). rewrite mem_chunk in Hin. pose proof (held_nodup m L Ms Mt _ O) as Hd. rewrite HH in Hd. cbn in Hd. apply NoDup_cons in Hd as [Hd _]. apply Hd.
    apply list_elem_of_fmap. exists (p, t). split; [done|]. apply elem_of_app. by left.
Qed.

Lemma drop_block V H mem p sz rest : within_chunks V H -> mem2chunk mem = p -> H ≡ₚ (p, sz) :: rest -> within_chunks (delete mem V) rest.
Proof.
  intros HV Ep HP mem' n [Hne Hm]%lookup_delete_Some. destruct (HV _ _ Hm) as (H0 & t & Hin & Ht). split; [done|]. exists t. split; [|done]. rewrite HP in Hin. apply elem_of_cons in Hin as [E|?]; [|done]. exfalso. apply Hne. injection E as E _. rewrite <- (chunk_mem mem), <- (chunk_mem mem'). f_equal. congruence.
Qed.

(** Several blocks at once. *)
Lemma lookup_blocks bl V b : NoDup bl.*1 -> b ∈ bl -> add_blocks bl V !! b.1 = Some b.2.
Proof.
  induction bl as [|a bl IH]; intros Hd Hb; [by apply not_elem_of_nil in Hb|]. rewrite fmap_cons in Hd. apply NoDup_cons in Hd as [Ha Hd]. cbn. apply elem_of_cons in Hb as [->|Hb]; [by rewrite lookup_insert_eq|].
  rewrite lookup_insert_ne; [by apply IH|]. intros E. apply Ha. rewrite E. by apply list_elem_of_fmap_2.
Qed.
Lemma lookup_blocks_other bl V mem : mem ∉ bl.*1 -> add_blocks bl V !! mem = V !! mem.
Proof. induction bl as [|a bl IH]; [done|]. rewrite fmap_cons. intros [Ha Hm]%not_elem_of_cons. cbn. rewrite lookup_insert_ne by congruence. by apply IH. Qed.
Lemma lookup_blocks_inv bl V mem n : add_blocks bl V !! mem = Some n -> (mem, n) ∈ bl \/ V !! mem = Some n.
Proof. induction bl as [|a bl IH]; [by right|]. cbn. intros [[<- <-]|[_ H]]%lookup_insert_Some; [left; destruct a; by left|]. destruct (IH H); [left; by right|by right]. Qed.

Definition fits (b c : Z * Z) : Prop := b.1 = chunk2mem c.1 /\ 0 <= b.2 /\ b.2 + CHUNK_OVERHEAD <= c.2.
Lemma fits_starts bl cs : Forall2 fits bl cs -> bl.*1 = chunk2mem <$> cs.*1.
Proof. induction 1 as [|b c bl cs [H _] _ IH]; [done|]. rewrite !fmap_cons. by rewrite H, IH. Qed.

Lemma grant_many m L Ms Mt V cs rest bl : space_inv m L Ms Mt -> held m L ≡ₚ cs ++ rest -> within_chunks V rest -> Forall2 fits bl cs -> accounted m ->
  backed m (add_blocks bl V) /\ NoDup bl.*1 /\ Forall (fun b => V !! b.1 = None) bl.
Proof.
  intros HI HH HV HF HA. pose proof (held_nodup m L Ms Mt _ (proj1 HI)) as Hd. rewrite HH, fmap_app in Hd. apply NoDup_app in Hd as (Hd & Hdis & _). split.
  - exists L, Ms, Mt. split; [done|]. split; [|done]. intros mem n [Hb|Hm]%lookup_blocks_inv.
    + apply list_elem_of_lookup in Hb as [i Hi]. destruct (Forall2_lookup_l _ _ _ _ _ HF Hi) as ([p sz] & Hc & E & H0 & Hle). cbn in *. split; [done|]. exists sz. rewrite E, mem_chunk, HH. split; [|done]. apply elem_of_app. left. by apply list_elem_of_lookup_2 in Hc.
    + destruct (HV _ _ Hm) as (H0 & t & Hin & Ht). split; [done|]. exists t. split; [|done]. rewrite HH. apply elem_of_app. by right.
  - split; [rewrite (fits_starts bl cs HF); apply NoDup_fmap_2; [|done]; intros x y E; unfold chunk2mem in E; lia|]. apply Forall_lookup. intros i b Hi. destruct (Forall2_lookup_l _ _ _ _ _ HF Hi) as ([p sz] & Hc & E & _). destruct (V !! b.1) as [n|] eqn:En; [|done]. exfalso. destruct (HV _ _ En) as (_ & t & Hin & _). cbn in E. rewrite E, mem_chunk in Hin.
    apply (Hdis p); apply list_elem_of_fmap; [exists (p, sz)|exists (p, t)]; split; try done. by apply list_elem_of_lookup_2 in Hc.
Qed.

(** The answer to a call: null with the space and the blocks as they were, or a new block. *)
Definition answered (m : mspace) (V V0 : gmap Z Z) (bytes : Z) (x : option (mspace * Z)) : Prop := exists m' mem, x = Some (m', mem) /\ backed m' (add_block mem bytes V V0) /\ (mem = 0 /\ m' = m \/ mem <> 0 /\ V !! mem = None).
Lemma refused m V bytes x V0 : backed m V0 -> x = Some (m, 0) -> answered m V V0 bytes x.
Proof. intros HB ->. exists m, 0. split; [done|]. split; [done|by left]. Qed.
Lemma granted_block m m' L Ms Mt V V0 p sz rest lost bytes x : x = Some (m', chunk2mem p) -> 0 < p -> space_inv m' L Ms Mt -> held m' L ≡ₚ (p, sz) :: rest ++ lost -> within_chunks V rest -> 0 <= bytes -> bytes + CHUNK_OVERHEAD <= sz -> accounted m' -> answered m V V0 bytes x.
Proof.
  intros -> Hp HI HH HV Hb Hsz HA. assert (Hne : chunk2mem p <> 0) by (unfold chunk2mem; lia). exists m', (chunk2mem p). split; [done|]. unfold add_block. rewrite (proj2 (Z.eqb_neq _ 0)) by done. destruct (grant_backed m' L Ms Mt V p sz rest lost bytes HI HH HV Hb Hsz HA) as [HB Hn]. split; [done|by right].
Qed.

Section Calls.
Context (P : malloc_params) (HP : params_ok P) (m : mspace) (V : gmap Z Z) (HB : backed m V).

Lemma malloc_answered bytes dm mp : in_u 64 bytes -> malloc_answers P bytes m dm mp -> answered m V V bytes (mspace_malloc P bytes dm mp m).
Proof using Type*.
  intros Hb (Hdm & Hmp). pose proof HB as (L & Ms & Mt & HI & HV & HA). destruct (mspace_malloc_ok P bytes dm mp m L Ms Mt HP HI Hb Hdm Hmp) as [(E & _)|(m1 & p & sz & L1 & Ms1 & Mt1 & E & Hp & [Hsz _] & HI1 & HH)]; [by apply refused|].
  apply (granted_block m m1 L1 Ms1 Mt1 V V p sz (held m L) [] bytes); try done; [by rewrite app_nil_r|apply Hb|by apply served_room|by apply (malloc_account _ _ _ _ _ _ _ E)].
Qed.

Lemma memalign_answered U alignment bytes dm mp : 0 <= alignment <= 2 ^ 63 -> in_u 64 bytes -> align_answers P alignment bytes m dm mp ->
  exists m' mem, mspace_memalign P U alignment bytes dm mp m = Some (m', mem) /\ answered m V V bytes (Some (m', mem)) /\ forall j, 0 <= j -> alignment = 2 ^ j -> mem mod alignment = 0.
Proof using Type*.
  intros Hal Hb Hans. pose proof HB as (L & Ms & Mt & HI & HV & HA). destruct (mspace_memalign_ok P U m L Ms Mt HP HI bytes Hb dm mp alignment Hal Hans) as [E|(m1 & p & sz & L1 & Ms1 & Mt1 & lost & E & Hp & Hsz & HI1 & HH & HA1 & Hj)].
  - exists m, 0. split; [done|]. split; [by apply refused|]. intros j Hj ->. by rewrite Z.mod_0_l by lia.
  - exists m1, (chunk2mem p). split; [done|]. split; [|done]. apply (granted_block m m1 L1 Ms1 Mt1 V V p sz (held m L) lost bytes); try done; [apply Hb|auto].
Qed.

Lemma ialloc_answered n sizes same given dm mp : n <> O -> elements_ok n sizes same given -> malloc_answers P (ialloc_request n sizes same given) (with_mmap false m) dm mp ->
  exists m' l arr, let bl := cut_blocks l (requests n sizes same) n arr in ialloc P n sizes same given dm mp m = Some (m', l, arr) /\ backed m' (add_blocks bl V) /\
    (l = [] /\ arr = 0 \/ length l = n /\ (arr = 0 <-> given = true) /\ NoDup bl.*1 /\ Forall (fun b => V !! b.1 = None) bl).
Proof using Type*.
  intros Hn HE Hans. pose proof HB as (L & Ms & Mt & HI & HV & HA). destruct (ialloc_ok P n sizes same given dm mp m L Ms Mt HP HI Hn HE Hans) as (m' & L' & Ms' & Mt' & bs & arrs & marr & E & HI' & HH & HA' & Hcase). exists m', (chunk2mem <$> bs.*1), marr. intros bl. split; [done|].
  set (rs := requests n sizes same) in *. destruct Hcase as [(-> & -> & ->)|(H2 & Hap)]; [split; [|by left]; exists L', Ms', Mt'; split; [done|]; split; [|auto]; by rewrite HH|].
  assert (HF : Forall2 fits (zip (chunk2mem <$> bs.*1) rs) bs). { pose proof (eo_each _ _ _ _ HE) as H0. fold rs in H0. clear -H2 H0. induction H2 as [|r b rs bs [Hr _] _ IH]; [constructor|]. apply Forall_cons in H0 as [[? _] H0]. cbn. constructor; [by split|by apply IH]. }
  assert (HF2 : Forall2 fits bl (bs ++ arrs)). { apply Forall2_app; [done|]. destruct given; [destruct Hap as [-> ->]; constructor|]. destruct Hap as (a & t & -> & Ha & -> & Ht). rewrite (proj2 (Z.eqb_neq (chunk2mem a) 0)) by (unfold chunk2mem; lia). constructor; [|constructor]. split; [done|]. cbn. lia. }
  destruct (grant_many m' L' Ms' Mt' V (bs ++ arrs) (held m L) bl HI' ltac:(by rewrite <- app_assoc) HV HF2 ltac:(auto)) as (HB' & Hd & Hnew). split; [done|]. right. split; [rewrite !length_fmap, <- (Forall2_length _ _ _ H2); apply (eo_count _ _ _ _ HE)|]. split; [|done].
  destruct given; [by destruct Hap as [-> _]|]. destruct Hap as (a & t & -> & Ha & _). split; [unfold chunk2mem; lia|done].
Qed.

Lemma realloc_answered U mem old bytes dm mp mr : V !! mem = Some old -> in_u 64 bytes -> malloc_answers P bytes m dm mp -> remap_answers P mem bytes m mr ->
  exists m' mem' c, mspace_realloc P U mem bytes dm mp mr m = Some (m', mem', c) /\ answered m (delete mem V) V bytes (Some (m', mem')) /\
    (mem' <> 0 -> c = 0 /\ (mem' = mem \/ exists cp, mr = Some cp /\ mem' = chunk2mem cp) \/ Z.min old bytes <= c <= bytes).
Proof using Type*.
  intros Hm Hb (Hdm & Hmp) Hmr. pose proof HB as (L & Ms & Mt & HI & HV & HA). destruct (HV _ _ Hm) as (Ho & sz & Hin & Hsz). destruct (mspace_realloc_ok P U m L Ms Mt HP HI (mem2chunk mem) sz Hin bytes Hb dm mp mr Hdm Hmp Hmr) as [[E _]|(m1 & p & sz1 & c & L1 & Ms1 & Mt1 & rest & lost & E & Hp & Hsz1 & HI1 & HR & HH & Hc & HA1)]; rewrite chunk_mem in E.
  - exists m, 0, 0. split; [done|]. split; [by apply refused|done].
  - exists m1, (chunk2mem p), c. split; [done|]. split.
    + apply (granted_block m m1 L1 Ms1 Mt1 (delete mem V) V p sz1 rest lost bytes); try done; [by apply (drop_block V (held m L) mem (mem2chunk mem) sz)|apply Hb|auto].
    + intros _. destruct Hc as [[-> Hc]| ->]; [left; split; [done|]; destruct Hc as [Hc|[_ Hc]]; [left; by rewrite Hc, chunk_mem|right; by exists p]|right; lia].
Qed.

Lemma free_answered U mem bytes : V !! mem = Some bytes -> exists m', mspace_free P U mem m = Some m' /\ backed m' (delete mem V).
Proof using Type*.
  intros Hm. pose proof HB as (L & Ms & Mt & HI & HV & HA). destruct (HV _ _ Hm) as (_ & sz & Hin & _). apply elem_of_Permutation in Hin as [rest HR]. destruct (free_held P U m L Ms Mt _ sz rest HP HI HR) as (m' & L' & Ms' & Mt' & lost & E & HI' & HH & HA'). rewrite chunk_mem in E.
  exists m'. split; [done|]. exists L', Ms', Mt'. split; [done|]. split; [|auto]. intros mem' n Hm'. destruct (drop_block V _ mem _ sz rest HV eq_refl HR mem' n Hm') as (H0 & t & Ht & Hle). split; [done|]. exists t. split; [|done]. rewrite HH. apply elem_of_app. by left.
Qed.

Lemma trim_answered U pad : in_u 64 pad -> exists m' b, sys_trim P U pad m = Some (m', b) /\ backed m' V.
Proof using Type*.
  intros Hp. pose proof HB as (L & Ms & Mt & HI & HV & HA). destruct (sys_trim_ok P U pad m L Ms Mt HP ltac:(apply Hp) HI) as (m' & b & E & L' & Ms' & Mt' & HI' & HU & Hd & HA'). exists m', b. split; [done|]. exists L', Ms', Mt'. split; [done|]. split; [|auto]. unfold held, direct_chunks in *. by rewrite HU, Hd.
Qed.
End Calls.

(** [mspace_calloc] asks for as many bytes as the elements have, or for too many. *)
Lemma calloc_size_eq n e : in_u 64 n -> in_u 64 e -> calloc_size n e = if n * e <? 2 ^ 64 then n * e else MAX_SIZE_T.
Proof.
  intros [Hn Hn'] [He He']. unfold calloc_size. destruct (Z.eqb_spec n 0) as [->|Hne]; [done|]. destruct (Z.ltb_spec (n * e) (2 ^ 64)) as [Hlt|Hge].
  - rewrite (uwrap_id 64 (n * e)) by (split; [by apply Z.mul_nonneg_nonneg|done]). replace (n * e / n) with e by (rewrite Z.mul_comm, Z.div_mul; [done|lia]). rewrite Z.eqb_refl. by rewrite andb_false_r.
  - assert (Hw : u64 (n * e) < 2 ^ 64 /\ 0 <= u64 (n * e)) by (unfold uwrap; pose proof (Z.mod_pos_bound (n * e) (2 ^ 64) ltac:(lia)); lia). destruct (Z.eqb_spec (u64 (n * e) / n) e) as [E|]; [exfalso; pose proof (Z.mul_div_le (u64 (n * e)) n ltac:(lia)) as Hq; rewrite E in Hq; lia|].
    destruct (Z.eqb_spec (Z.land (Z.lor n e) (u64 (Z.lnot 65535))) 0) as [E|]; [|done]. exfalso.
    assert (Hsmall : forall x, 0 <= x < 2 ^ 64 -> Z.land x (u64 (Z.lnot 65535)) = 0 -> x < 2 ^ 16).
    { intros x Hx Ex. unfold uwrap in Ex. rewrite <- Z.land_ones, (Z.land_comm (Z.lnot _)), Z.land_assoc, (Z.land_ones x), (Z.mod_small x) in Ex by lia. change (Z.lnot 65535) with (Z.lnot (Z.ones 16)) in Ex. rewrite <- Z.ldiff_land, Z.ldiff_ones_r, Z.shiftl_mul_pow2, Z.shiftr_div_pow2 in Ex by lia.
      assert (x / 2 ^ 16 = 0) by lia. pose proof (Z.div_mod x (2 ^ 16) ltac:(lia)). pose proof (Z.mod_pos_bound x (2 ^ 16) ltac:(lia)). lia. }
    rewrite Z.land_lor_distr_l in E. apply Z.lor_eq_0_iff in E as [E1 E2]. pose proof (Hsmall n ltac:(lia) E1). pose proof (Hsmall e ltac:(lia) E2). assert (n * e <= 2 ^ 16 * 2 ^ 16) by (apply Z.mul_le_mono_nonneg; lia). lia.
Qed.

(** Elements whose bytes do not fit the machine word are refused. *)
Lemma calloc_answered P m V n size dm mp : params_ok P -> backed m V -> in_u 64 n -> in_u 64 size -> malloc_answers P (calloc_size n size) m dm mp ->
  exists m' mem z, mspace_calloc P n size dm mp m = Some (m', mem, z) /\ answered m V V (n * size) (Some (m', mem)) /\ (mem <> 0 -> n * size < 2 ^ 64 /\ (z = 0 \/ z = n * size)).
Proof.
  intros HP HB Hn Hs (Hdm & Hmp). pose proof HB as (L & Ms & Mt & HI & HV & HA). pose proof (calloc_size_eq n size Hn Hs) as Ec. assert (Hc : in_u 64 (calloc_size n size)).
  { rewrite Ec. destruct Hn, Hs. destruct (Z.ltb_spec (n * size) (2 ^ 64)); [split; [by apply Z.mul_nonneg_nonneg|done]|unfold MAX_SIZE_T, in_u; lia]. }
  unfold mspace_calloc. destruct (mspace_malloc_ok P _ dm mp m L Ms Mt HP HI Hc Hdm Hmp) as [(E & _)|(m1 & p & sz & L1 & Ms1 & Mt1 & E & Hp & [Hsz _] & HI1 & HH)]; rewrite E; cbn [mbind option_bind].
  - exists m, 0, 0. split; [done|]. split; [by apply refused|done].
  - rewrite (proj2 (Z.eqb_neq _ 0)) by (unfold chunk2mem; lia). rewrite mem_chunk. destruct (held_head m1 L1 Ms1 Mt1 _ p sz (proj1 HI1) ltac:(rewrite HH; by left)) as (Er & _). rewrite Er. cbn [mbind option_bind].
    pose proof (served_room _ sz Hc Hsz) as Hr. assert (Hlt : n * size < 2 ^ 64). { destruct (Z.ltb_spec (n * size) (2 ^ 64)); [done|]. rewrite Ec in Hr. unfold MAX_SIZE_T, CHUNK_OVERHEAD in Hr. lia. }
    rewrite (proj2 (Z.ltb_lt _ _) Hlt) in Ec. rewrite Ec in Hr. eexists m1, (chunk2mem p), _. split; [done|]. split.
    + apply (granted_block m m1 L1 Ms1 Mt1 V V p sz (held m L) [] (n * size)); try done; [by rewrite app_nil_r|rewrite <- Ec; apply Hc|by apply (malloc_account _ _ _ _ _ _ _ E)].
    + intros _. split; [done|]. rewrite Ec. destruct (is_mmapped _); auto.
Qed.

Lemma track_backed m V enable : backed m V -> backed (mspace_track_large_chunks enable m).1 V.
Proof. intros (L & Ms & Mt & (O & H1 & H2) & HV & HA). exists L, Ms, Mt. split; [|done]. split; [|done]. by apply (space_ok_fields m). Qed.

Lemma answered_backed m V V0 bytes x m' mem : answered m V V0 bytes x -> x = Some (m', mem) -> backed m' (add_block mem bytes V V0).
Proof. intros (m1 & mem1 & -> & HB & _) [= <- <-]. done. Qed.

Lemma step_backed P m V m' V' : params_ok P -> backed m V -> heap_step P (m, V) (m', V') -> backed m' V'.
Proof.
  intros HP HB HS. inversion HS as [? ? bytes dm mp ? mem H1 H2 H3|? ? n size dm mp ? mem z H1 H2 H3 H4|? ? U mem bytes ? H1 H2|? ? U mem old bytes dm mp mr ? mem' c H1 H2 H3 H4 H5|? ? U al bytes dm mp ? mem H1 H2 H3 H4|? ? n sizes same given dm mp ? l arr H1 H2 H3 H4|? ? U pad ? b H1 H2|? ? en]; subst.
  - by eapply answered_backed; [apply (malloc_answered P HP m V HB bytes dm mp)|].
  - destruct (calloc_answered P m V n size dm mp HP HB H1 H2 H3) as (m1 & mem1 & z1 & E & HA & _). rewrite H4 in E. injection E as <- <- <-. by eapply answered_backed.
  - destruct (free_answered P HP m V HB U mem bytes H1) as (m1 & E & HB'). rewrite H2 in E. by injection E as ->.
  - destruct (realloc_answered P HP m V HB U mem old bytes dm mp mr H1 H2 H3 H4) as (m1 & mem1 & c1 & E & HA & _). rewrite H5 in E. injection E as <- <- <-. by eapply answered_backed.
  - destruct (memalign_answered P HP m V HB U al bytes dm mp H1 H2 H3) as (m1 & mem1 & E & HA & _). rewrite H4 in E. injection E as <- <-. by eapply answered_backed.
  - destruct (ialloc_answered P HP m V HB n sizes same given dm mp H1 H2 H3) as (m1 & l1 & arr1 & E & HA & _). rewrite H4 in E. injection E as <- <- <-. done.
  - destruct (trim_answered P HP m V' HB U pad H1) as (m1 & b1 & E & HT). rewrite H2 in E. by injection E as ->.
  - by apply track_backed.
Qed.

Lemma run_backed P m V m' V' : params_ok P -> backed m V -> rtc (heap_step P) (m, V) (m', V') -> backed m' V'.
Proof.
  intros HP H R. remember (m, V) as c eqn:Ec. remember (m', V') as c' eqn:Ec'. revert m V H Ec. induction R as [c|c [m1 V1] c' HS R IH]; intros m V H ->; [by injection Ec' as -> ->|].
  subst c'. apply (IH eq_refl m1 V1); [|done]. by apply (step_backed P m V).
Qed.

(** ** What the blocks of a space are *)
Lemma backed_apart m V mem1 n1 mem2 n2 : backed m V -> V !! mem1 = Some n1 -> V !! mem2 = Some n2 -> mem1 = mem2 \/ mem1 + n1 <= mem2 \/ mem2 + n2 <= mem1.
Proof.
  intros (L & Ms & Mt & (O & _) & HV & HA) H1 H2. destruct (HV _ _ H1) as (_ & s1 & Hi1 & Hl1). destruct (HV _ _ H2) as (_ & s2 & Hi2 & Hl2). unfold CHUNK_OVERHEAD, mem2chunk in *.
  destruct (held_apart m L Ms Mt _ _ _ _ _ O Hi1 Hi2) as [E|E]; [left; injection E; lia|right; lia].
Qed.

(** Blocks are aligned memory, apart from the record of the space. *)
Lemma backed_memory m V mem n : backed m V -> V !! mem = Some n -> mem mod 8 = 0 /\ covers m mem (mem + n) /\ (mem + n <= ms_at m \/ ms_at m + sizeof_malloc_state <= mem).
Proof.
  intros (L & Ms & Mt & (O & _) & HV & HA) Hm. destruct (HV _ _ Hm) as (_ & s & Hin & Hl). destruct (held_memory m L Ms Mt _ _ _ O Hin) as (H8 & H32 & Hc). unfold CHUNK_OVERHEAD, mem2chunk in *. change sizeof_malloc_state with 944. split; [clear -H8; Z.div_mod_to_equations; lia|].
  split; [intros x X1 X2 X3; apply Hc; [done|lia|lia]|]. pose proof (ok_hdr _ _ _ _ _ O) as Hh. apply elem_of_app in Hin as [Hin|Hin].
  - apply of_kind_in in Hin. destruct (space_apart m L Ms Mt _ _ _ _ _ _ _ O Hin Hh) as [E|[?|?]]; [discriminate|left; lia|right; lia].
  - apply list_elem_of_fmap in Hin as (d & E & Hd). injection E as E1 E2. destruct (direct_apart m L Ms Mt _ d _ _ _ O Hd Hh); [left|right]; lia.
Qed.

(** A new block, as its client sees it: aligned memory, apart from the blocks of [V]. *)
Definition new_block (m : mspace) (V : gmap Z Z) (mem bytes : Z) : Prop :=
  mem mod 8 = 0 /\ V !! mem = None /\ covers m mem (mem + bytes) /\ forall mem' n, V !! mem' = Some n -> mem + bytes <= mem' \/ mem' + n <= mem.
Lemma answered_block m V V0 bytes m' mem : answered m V V0 bytes (Some (m', mem)) -> mem = 0 /\ m' = m \/ new_block m' V mem bytes.
Proof.
  intros (m1 & mem1 & [= <- <-] & HB & [[-> ->]|[Hne Hn]]); [by left|right]. unfold add_block in HB. rewrite (proj2 (Z.eqb_neq _ _) Hne) in HB. destruct (backed_memory m' _ mem bytes HB) as (H8 & Hc & _); [by rewrite lookup_insert_eq|]. split; [done|]. split; [done|]. split; [done|].
  intros mem' n Hm. assert (Hd : mem <> mem') by (intros ->; congruence). destruct (backed_apart m' _ mem bytes mem' n HB) as [?|?]; [by rewrite lookup_insert_eq|by rewrite lookup_insert_ne|done|done].
Qed.

(** Blocks of one call: each is new, and they are apart from each other. *)
Definition new_blocks (m : mspace) (V : gmap Z Z) (bl : list (Z * Z)) : Prop :=
  Forall (fun b => new_block m V b.1 b.2) bl /\ forall i j b c, i <> j -> bl !! i = Some b -> bl !! j = Some c -> b.1 + b.2 <= c.1 \/ c.1 + c.2 <= b.1.
Lemma blocks_new m V bl : backed m (add_blocks bl V) -> NoDup bl.*1 -> Forall (fun b => V !! b.1 = None) bl -> new_blocks m V bl.
Proof.
  intros HB Hd Hn. split.
  - apply Forall_forall. intros b Hb. pose proof (lookup_blocks bl V b Hd Hb) as Hl. pose proof (proj1 (Forall_forall _ _) Hn b Hb) as Hb0. destruct (backed_memory m _ _ _ HB Hl) as (H8 & Hc & _). split_and!; [done|done|done|]. intros mem' k Hm.
    assert (Ho : mem' ∉ bl.*1). { intros (c & -> & Hc')%list_elem_of_fmap. pose proof (proj1 (Forall_forall _ _) Hn c Hc'). cbn in *. congruence. }
    destruct (backed_apart m _ _ _ mem' k HB Hl) as [E|?]; [by rewrite lookup_blocks_other|congruence|done].
  - intros i j b c Hij Hi Hj. destruct (backed_apart m _ _ _ _ _ HB (lookup_blocks bl V b Hd (list_elem_of_lookup_2 _ _ _ Hi)) (lookup_blocks bl V c Hd (list_elem_of_lookup_2 _ _ _ Hj))) as [E|?]; [|done]. exfalso. apply Hij. apply (NoDup_lookup bl.*1 i j b.1 Hd); rewrite list_lookup_fmap, ?Hi, ?Hj; cbn; congruence.
Qed.

Lemma init_bins_outer m : outer (init_bins m) = outer m.
Proof. unfold init_bins. generalize (seqZ 0 32). intros l. revert m. induction l as [|i l IH]; intros m; [done|]. cbn [foldl]. by rewrite IH. Qed.
Lemma new_space_account tbase tsize magic_ flags trim m f locked : init_user_mstate tbase tsize magic_ flags trim = Some m -> 0 <= tsize < 2 ^ 40 -> accounted (set_lock locked (with_seg_flags f m)).
Proof.
  unfold init_user_mstate. intros H Ht. cbv zeta in H. apply bind_Some in H as (m1 & E1 & H). apply init_top_outer in H. rewrite init_bins_outer in H. unfold put_head in E1. opt_steps E1.
  unfold outer, region in H. cbn in H. injection H as _ Ed _ Es Ef Em _. unfold accounted, owned_bytes, with_seg_flags, set_lock. cbn [with_mflags with_segs segs direct footprint max_footprint]. rewrite Ed, Es, Ef, Em. cbn. rewrite uwrap_id by (unfold in_u; lia). lia.
Qed.

Lemma created_backed P capacity magic_ flags locked tbase : params_ok P -> 0 <= capacity < capacity_limit P -> in_u 64 magic_ -> 0 < tbase -> tbase mod 8 = 0 -> 0 < create_size P capacity < 2 ^ 40 -> tbase + create_size P capacity < 2 ^ 64 ->
  exists m, create_mspace P capacity magic_ flags locked (Some tbase) = Some (Some m) /\ backed m ∅.
Proof.
  intros HP Hc Hmag Hb Hb8 Hs Hend. destruct (create_size_ok P capacity HP Hc) as [?|(H4 & Hge & _)]; [lia|]. unfold create_mspace. rewrite (proj2 (Z.ltb_lt _ _)) by lia.
  assert (Hs8 : create_size P capacity mod 8 = 0) by (clear -H4; Z.div_mod_to_equations; lia).
  destruct (flagged_ok tbase (create_size P capacity) magic_ flags (trim_threshold P) USE_MMAP_BIT locked Hb Hb8 Hs8 ltac:(lia) Hend Hmag ltac:(by right)) as (m & E & HI & _). pose proof (new_space_account _ _ _ _ _ _ USE_MMAP_BIT locked E ltac:(lia)) as HA. rewrite E. cbn [mbind option_bind]. eexists. split; [done|]. eexists _, _, _. split; [exact HI|]. split; [by intros mem n Hm|exact HA].
Qed.

(** C11. A space created on memory of the system, whatever its clients did with it and whatever the
    system answered: every block held is aligned memory of the space, outside of its record, and
    can be given back; blocks do not overlap; every request, with or without elements or an
    alignment, and every change of the size of a block is answered with no failed check, by null with
    the space as it was or by a block apart from all others; a plain request gets null only when the system
    gives no memory; a block that is moved has its bytes copied, or moved by the system; a call for several
    blocks whose sizes add up within the machine word gets all of them or none, and the array for their
    addresses when it passed none, each apart from the others and from all blocks held before. *)
Theorem mspace_heap_safe P capacity magic_ flags locked tbase m0 m V : params_ok P -> 0 <= capacity < capacity_limit P -> in_u 64 magic_ -> 0 < tbase -> tbase mod 8 = 0 -> 0 < create_size P capacity < 2 ^ 40 -> tbase + create_size P capacity < 2 ^ 64 ->
  create_mspace P capacity magic_ flags locked (Some tbase) = Some (Some m0) -> rtc (heap_step P) (m0, ∅) (m, V) ->
  (forall mem bytes, V !! mem = Some bytes -> mem mod 8 = 0 /\ covers m mem (mem + bytes) /\ (mem + bytes <= ms_at m \/ ms_at m + sizeof_malloc_state <= mem) /\ forall U, exists m', mspace_free P U mem m = Some m') /\
  (forall mem1 n1 mem2 n2, V !! mem1 = Some n1 -> V !! mem2 = Some n2 -> mem1 = mem2 \/ mem1 + n1 <= mem2 \/ mem2 + n2 <= mem1) /\
  (forall bytes dm mp, in_u 64 bytes -> malloc_answers P bytes m dm mp -> exists m' mem, mspace_malloc P bytes dm mp m = Some (m', mem) /\
    (mem = 0 /\ m' = m /\ (mp = None \/ sys_size P (needed bytes) <= needed bytes) \/ new_block m' V mem bytes)) /\
  (forall n size dm mp, in_u 64 n -> in_u 64 size -> malloc_answers P (calloc_size n size) m dm mp -> exists m' mem z, mspace_calloc P n size dm mp m = Some (m', mem, z) /\
    (mem = 0 /\ m' = m \/ new_block m' V mem (n * size) /\ n * size < 2 ^ 64)) /\
  (forall U mem old bytes dm mp mr, V !! mem = Some old -> in_u 64 bytes -> malloc_answers P bytes m dm mp -> remap_answers P mem bytes m mr -> exists m' mem' c, mspace_realloc P U mem bytes dm mp mr m = Some (m', mem', c) /\
    (mem' = 0 /\ m' = m \/ new_block m' (delete mem V) mem' bytes /\ (c = 0 /\ (mem' = mem \/ exists cp, mr = Some cp /\ mem' = chunk2mem cp) \/ Z.min old bytes <= c <= bytes))) /\
  (forall U alignment bytes dm mp, 0 <= alignment <= 2 ^ 63 -> in_u 64 bytes -> align_answers P alignment bytes m dm mp -> exists m' mem, mspace_memalign P U alignment bytes dm mp m = Some (m', mem) /\
    (mem = 0 /\ m' = m \/ new_block m' V mem bytes) /\ forall j, 0 <= j -> alignment = 2 ^ j -> mem mod alignment = 0) /\
  (forall n sizes same given dm mp, n <> O -> elements_ok n sizes same given -> malloc_answers P (ialloc_request n sizes same given) (with_mmap false m) dm mp -> exists m' l arr, ialloc P n sizes same given dm mp m = Some (m', l, arr) /\
    (l = [] /\ arr = 0 \/ length l = n /\ (arr = 0 <-> given = true) /\ new_blocks m' V (cut_blocks l (requests n sizes same) n arr))) /\
  (forall U pad, in_u 64 pad -> exists m' b, sys_trim P U pad m = Some (m', b)).
Proof.
  intros HP Hc Hmag Hb Hb8 Hs Hend E0 R. destruct (created_backed P capacity magic_ flags locked tbase HP Hc Hmag Hb Hb8 Hs Hend) as (m0' & E0' & HB0). rewrite E0 in E0'. injection E0' as <-. pose proof (run_backed P m0 ∅ m V HP HB0 R) as HB.
  split; [|split; [intros *; by apply (backed_apart m)|split; [|split; [|split; [|split; [|split]]]]]].
  - intros mem bytes Hm. destruct (backed_memory m V mem bytes HB Hm) as (H1 & H2 & H3). do 3 (split; [done|]). intros U. destruct (free_answered P HP m V HB U mem bytes Hm) as (m' & E & _). eauto.
  - intros bytes dm mp Hu Ha. destruct (malloc_answered P HP m V HB bytes dm mp Hu Ha) as (m' & mem & E & HA). exists m', mem. split; [done|]. destruct (answered_block m V V bytes m' mem) as [[-> ->]|?]; [by exists m', mem|left|by right].
    split; [done|]. split; [done|]. destruct HB as (L & Ms & Mt & HI & _). destruct Ha as [Hdm Hmp]. destruct (mspace_malloc_ok P bytes dm mp m L Ms Mt HP HI Hu Hdm Hmp) as [(_ & _ & ?)|(m1 & p & sz & L1 & Ms1 & Mt1 & E1 & Hp & _)]; [done|]. rewrite E in E1. injection E1 as _ E1. unfold chunk2mem in E1. lia.
  - intros n size dm mp Hn Hz Ha. destruct (calloc_answered P m V n size dm mp HP HB Hn Hz Ha) as (m' & mem & z & E & HA & Hz'). exists m', mem, z. split; [done|]. destruct (Z.eq_dec mem 0) as [->|Hne]; [|right; destruct (answered_block _ _ _ _ _ _ HA) as [[? _]|?]; [done|split; [done|by apply Hz']]].
    left. destruct HA as (m1 & mem1 & [= <- <-] & _ & [[_ ?]|[? _]]); done.
  - intros U mem old bytes dm mp mr Hm Hu Ha Hr. destruct (realloc_answered P HP m V HB U mem old bytes dm mp mr Hm Hu Ha Hr) as (m' & mem' & c & E & HA & Hc'). exists m', mem', c. split; [done|]. destruct (Z.eq_dec mem' 0) as [->|Hne]; [|right; destruct (answered_block _ _ _ _ _ _ HA) as [[? _]|?]; [done|split; [done|by apply Hc']]].
    left. destruct HA as (m1 & mem1 & [= <- <-] & _ & [[_ ?]|[? _]]); done.
  - intros U al bytes dm mp Hal Hu Ha. destruct (memalign_answered P HP m V HB U al bytes dm mp Hal Hu Ha) as (m' & mem & E & HA & Hj). exists m', mem. split; [done|]. split; [by apply (answered_block m V V)|done].
  - intros n sizes same given dm mp Hn HE Ha. destruct (ialloc_answered P HP m V HB n sizes same given dm mp Hn HE Ha) as (m' & l & arr & E & HB' & HC). exists m', l, arr. split; [done|]. destruct HC as [?|(H1 & H2 & H3 & H4)]; [by left|right]. split; [done|]. split; [done|]. by apply blocks_new.
  - intros U pad Hp. destruct (trim_answered P HP m V HB U pad Hp) as (m' & b & E & _). eauto.
Qed.

Module HeapExample.
(** A space of 64 KiB that gets a second segment; a block of it is resized, another is aligned, and memory is
    given back; then three blocks of their own sizes are asked for at once. *)
Definition P : malloc_params := Params 4096 65536 262144 2097152.
Definition takes (base size : Z) : bool := true.
Definition no_space : mspace := MSpace 0 (MState 0 0 0 [] ∅) 0 0 0 0 0 0 0 0 0 0 0 [] [] [].
Definition fresh : option mspace := m ← create_mspace P 0 0x5858 1 true (Some 0x100000); m.
Definition grown : option (mspace * Z) := m ← fresh; mspace_malloc P 100000 None (Some 0x200000) m.
Definition resized : option (mspace * Z * Z) := '(m, mem) ← grown; mspace_realloc P takes mem 50000 None None None m.
Definition aligned : option (mspace * Z) := '(m, _, _) ← resized; mspace_memalign P takes 4096 100 None None m.
Definition several : option (mspace * list Z * Z) := '(m, _) ← aligned; mspace_independent_comalloc P 3 [100; 0; 5000] false None None m.
Definition m0 : mspace := default no_space fresh.
Definition m1 : mspace := default no_space (fst <$> grown).
Definition m2 : mspace := default no_space (fst ∘ fst <$> resized).
Definition m3 : mspace := default no_space (fst <$> aligned).
Definition m4 : mspace := default no_space (fst ∘ fst <$> several).
End HeapExample.

Lemma mspace_heap_safe_witness : let V := add_blocks [(1052792, 100); (1052912, 0); (1052944, 5000); (1057960, 24)] (<[0x101000 := 100]> {[0x200010 := 50000]}) in
  create_mspace HeapExample.P 0 0x5858 1 true (Some 0x100000) = Some (Some HeapExample.m0) /\ rtc (heap_step HeapExample.P) (HeapExample.m0, ∅) (HeapExample.m4, V) /\
  (exists m', mspace_free HeapExample.P HeapExample.takes 0x200010 HeapExample.m4 = Some m').
Proof.
  intros V. set (P := HeapExample.P). assert (HP : params_ok P) by (exists 12, 16; split; [lia|]; split; [lia|]; split; reflexivity). assert (E0 : create_mspace P 0 0x5858 1 true (Some 0x100000) = Some (Some HeapExample.m0)) by (vm_compute; reflexivity).
  assert (R : rtc (heap_step P) (HeapExample.m0, ∅) (HeapExample.m4, V)).
  { eapply rtc_l; [apply (HeapMalloc P _ _ 100000 None (Some 0x200000) HeapExample.m1 0x200010); [split; vm_compute; congruence| |vm_compute; reflexivity]|].
    { split; [exact I|]. split; [split; [lia|]; split; [reflexivity|]; split; [vm_compute; congruence|]|].
      - intros r Hr. assert (El : maps HeapExample.m0 ++ direct HeapExample.m0 = [(0x100000, 0x110000)]) by (vm_compute; reflexivity). rewrite El in Hr. apply list_elem_of_singleton in Hr as ->. left. vm_compute. congruence.
      - intros s Hs. assert (El : segs HeapExample.m0 = [Segment 0x100380 0x100000 0x10000 1]) by (vm_compute; reflexivity). rewrite El in Hs. apply list_elem_of_singleton in Hs as ->. vm_compute. reflexivity. }
    eapply rtc_l; [apply (HeapRealloc P _ _ HeapExample.takes 0x200010 100000 50000 None None None HeapExample.m2 0x200010 0); [vm_compute; reflexivity|split; vm_compute; congruence|split; exact I|intros d _ _; exact I|vm_compute; reflexivity]|].
    eapply rtc_l; [apply (HeapMemalign P _ _ HeapExample.takes 4096 100 None None HeapExample.m3 0x101000); [lia|split; vm_compute; congruence| |vm_compute; reflexivity]|].
    { unfold align_answers. change (4096 <=? MALLOC_ALIGNMENT) with false. intros k Ek _. assert (Er : round_alignment 4096 = Some 4096) by (vm_compute; reflexivity). rewrite Er in Ek. injection Ek as Ek. rewrite <- Ek. split; [split; exact I|]. vm_compute. reflexivity. }
    eapply rtc_l; [apply (HeapIndependent P _ _ 3 [100; 0; 5000] false false None None HeapExample.m4 [1052792; 1052912; 1052944] 1057960); [done| |split; exact I|vm_compute; reflexivity]|].
    { split; [reflexivity|cbn [requests take]; repeat constructor; vm_compute; congruence|vm_compute; reflexivity|vm_compute; reflexivity]. }
    match goal with |- rtc _ (_, ?W) _ => replace W with V by (vm_compute; reflexivity) end. apply rtc_refl. }
  split; [exact E0|]. split; [exact R|].
  destruct (mspace_heap_safe P 0 0x5858 1 true 0x100000 HeapExample.m0 HeapExample.m4 V HP) as (H & _); [split; [lia|vm_compute; reflexivity]|split; vm_compute; congruence|lia|reflexivity|split; vm_compute; reflexivity|vm_compute; reflexivity|exact E0|exact R|].
  destruct (H 0x200010 50000) as (_ & _ & _ & HF); [vm_compute; reflexivity|apply HF].
Defined.
