(* ===== verification/DlInfo.v ===== *)
(** The parameters of the memory spaces and their statistics, include/memory/malloc.c.h:
    [init_mparams], [change_mparam], [internal_mallinfo] and [internal_malloc_stats]. *)
From stdpp Require Import gmap.
From S2P Require Import Prelude DlBins DlTree DlUnlink DlFit DlSmall DlSpace DlLayout DlInv DlBlocks DlMalloc DlFree DlRun DlSystem DlGrow DlPrepend DlSysAlloc DlAccount DlTrim DlRealloc DlResize DlAlign DlHeap.
Local Open Scope Z_scope.

(** ** Parameters *)
Definition DEFAULT_GRANULARITY : Z := 1 * 1024 * 1024.
Definition DEFAULT_TRIM_THRESHOLD : Z := 2 * 1024 * 1024.
Definition DEFAULT_MMAP_THRESHOLD : Z := 256 * 1024.
Definition M_TRIM_THRESHOLD : Z := -1.
Definition M_GRANULARITY : Z := -2.
Definition M_MMAP_THRESHOLD : Z := -3.
Definition is_power (x : Z) : bool := Z.land x (u64 (x - 1)) =? 0.

(** [init_mparams], from the page size and the time or random bytes of the system: the parameters,
    the flags of new spaces and the magic number. [None] is [ABORT]. *)
Definition default_mflags : Z := Z.lor (Z.lor USE_LOCK_BIT USE_MMAP_BIT) USE_NONCONTIGUOUS_BIT.
Definition magic_of (x : Z) : Z := Z.land (Z.lor x 8) (u64 (Z.lnot 7)).
Definition init_mparams (psize seed : Z) : option (malloc_params * Z * Z) :=
  let gsize := if negb (DEFAULT_GRANULARITY =? 0) then DEFAULT_GRANULARITY else psize in
  if is_power gsize && is_power psize then Some (Params psize gsize DEFAULT_MMAP_THRESHOLD DEFAULT_TRIM_THRESHOLD, default_mflags, magic_of seed) else None.

(** [change_mparam], with [int] arguments. *)
Definition change_mparam (param_number value : Z) (P : malloc_params) : malloc_params * bool :=
  let val := if value =? -1 then MAX_SIZE_T else u64 value in
  if param_number =? M_TRIM_THRESHOLD then (Params (page_size P) (granularity P) (mmap_threshold P) val, true)
  else if param_number =? M_GRANULARITY then
    if (page_size P <=? val) && is_power val then (Params (page_size P) val (mmap_threshold P) (trim_threshold P), true) else (P, false)
  else if param_number =? M_MMAP_THRESHOLD then (Params (page_size P) (granularity P) val (trim_threshold P), true)
  else (P, false).

Lemma is_power_ok x : 0 < x < 2 ^ 64 -> is_power x = true -> exists k, 0 <= k /\ x = 2 ^ k.
Proof. intros Hx H. apply power_of_two; [lia|]. apply Z.eqb_eq in H. by rewrite uwrap_id in H by (unfold in_u; lia). Qed.

(** The parameters that the operations rely on. *)
Lemma init_mparams_ok psize seed P flags mg : 4096 <= psize < 2 ^ 40 -> in_u 64 seed -> init_mparams psize seed = Some (P, flags, mg) -> params_ok P /\ in_u 64 mg /\ mg <> 0 /\ mg mod 8 = 0.
Proof.
  intros Hp Hs. unfold init_mparams. change (is_power (if negb (DEFAULT_GRANULARITY =? 0) then DEFAULT_GRANULARITY else psize)) with true. destruct (is_power psize) eqn:E; [|done]. intros [= <- _ <-]. destruct (is_power_ok psize ltac:(lia) E) as (k & Hk & Ek). split.
  - exists k, 20. assert (12 <= k < 40) by (split; [apply (Z.pow_le_mono_r_iff 2); lia|apply (Z.pow_lt_mono_r_iff 2); lia]). split; [done|]. split; [lia|]. split; [done|reflexivity].
  - unfold magic_of. set (y := Z.lor seed 8). assert (Hy : in_u 64 y) by (apply in_u_testbit; [lia|]; split; [apply Z.lor_nonneg; destruct Hs; lia|]; intros n Hn; unfold y; rewrite Z.lor_spec; apply in_u_testbit in Hs as [_ Hs]; [|lia]; rewrite Hs by done; cbn; apply Z.bits_above_log2; cbn; lia).
    assert (Em : Z.land y (u64 (Z.lnot 7)) = 8 * (y / 8)). { unfold uwrap. rewrite <- Z.land_ones, (Z.land_comm (Z.lnot _)), Z.land_assoc, (Z.land_ones y), (Z.mod_small y) by (destruct Hy; lia). change (Z.lnot 7) with (Z.lnot (Z.ones 3)). rewrite <- Z.ldiff_land, Z.ldiff_ones_r, Z.shiftl_mul_pow2, Z.shiftr_div_pow2 by lia. change (2 ^ 3) with 8. lia. }
    rewrite Em. assert (Hb : Z.testbit y 3 = true) by (unfold y; rewrite Z.lor_spec; apply orb_true_r). assert (H8 : 1 <= y / 8). { destruct (Z.le_gt_cases 8 y); [apply Z.div_le_lower_bound; lia|]. exfalso. destruct Hy as [Hy0 _]. rewrite Z.testbit_true in Hb by lia. change (2 ^ 3) with 8 in Hb. rewrite Z.div_small in Hb by lia. done. }
    pose proof (Z.mul_div_le y 8 ltac:(lia)). destruct Hy. split; [unfold in_u; lia|]. split; [lia|]. rewrite Z.mul_comm. by apply Z.mod_mul.
Qed.

Lemma change_mparam_ok pn value P : params_ok P -> - 2 ^ 31 <= value < 2 ^ 31 -> params_ok (change_mparam pn value P).1.
Proof.
  intros HP Hv. pose proof HP as (j & k & Hj & Hk & Ep & Eg). unfold change_mparam. destruct (_ =? M_TRIM_THRESHOLD); [by exists j, k|]. destruct (_ =? M_GRANULARITY); [|destruct (_ =? M_MMAP_THRESHOLD); [by exists j, k|done]].
  set (val := if value =? -1 then MAX_SIZE_T else u64 value). destruct ((page_size P <=? val) && is_power val) eqn:E; [|done]. apply andb_true_iff in E as [E1%Z.leb_le E2]. cbn [fst]. assert (Hjp : 2 ^ 12 <= 2 ^ j) by (apply Z.pow_le_mono_r; lia).
  assert (Hval : 0 < val < 2 ^ 64) by (unfold val, MAX_SIZE_T in *; destruct (_ =? -1); [lia|]; pose proof (uwrap_range 64 value ltac:(lia)) as [? ?]; rewrite Ep in E1; lia). destruct (is_power_ok val Hval E2) as (i & Hi & Ei).
  assert (Hi12 : 12 <= i) by (apply (Z.pow_le_mono_r_iff 2); lia). exists j, i. split; [done|]. split; [|split; [done|exact Ei]]. split; [done|]. destruct (Z.lt_ge_cases i 40) as [|Hge]; [done|]. exfalso.
  assert (Hbig : 2 ^ 40 <= val) by (rewrite Ei; apply Z.pow_le_mono_r; lia). assert (H63 : i <= 63) by (apply Z.lt_succ_r, (Z.pow_lt_mono_r_iff 2); lia). assert (Hle : val <= 2 ^ 63) by (rewrite Ei; apply Z.pow_le_mono_r; lia). revert Hbig Hle. unfold val, MAX_SIZE_T. destruct (Z.eqb_spec value (-1)); [lia|].
  unfold uwrap. destruct (Z.lt_ge_cases value 0); [rewrite <- (Z.mod_add _ 1), Z.mod_small by lia; lia|rewrite Z.mod_small by lia; lia].
Qed.

(** ** Statistics *)
(** [struct mallinfo] without its fields that are always 0. *)
Record mallinfo := Mallinfo { arena : Z; ordblks : Z; hblkhd : Z; usmblks : Z; uordblks : Z; fordblks : Z; keepcost : Z }.
Definition no_mallinfo : mallinfo := Mallinfo 0 0 0 0 0 0 0.
Definition align_as_chunk (A : Z) : Z := A + align_offset (chunk2mem A).

(** The loop over the chunks of a segment, with what it does for a chunk: [f] has whether the chunk is in use, and
    its size. No chunk of a segment is below 32 bytes, so the steps are enough. *)
Fixpoint walk {A} (fuel : nat) (m : mspace) (s : segment) (f : bool -> Z -> A -> A) (q : Z) (acc : A) : option A :=
  match fuel with
  | O => None
  | S fuel =>
      if segment_holds s q && negb (q =? top m) then
        c ← read m q;
        if tc_head c =? FENCEPOST_HEAD then Some acc else walk fuel m s f (q + chunksize c) (f (is_inuse c) (chunksize c) acc)
      else Some acc
  end.
Fixpoint walk_segments {A} (m : mspace) (f : bool -> Z -> A -> A) (l : list segment) (acc : A) : option A :=
  match l with
  | [] => Some acc
  | s :: l => acc ← walk (Z.to_nat (seg_size s / 32 + 1)) m s f (align_as_chunk (seg_base s)) acc; walk_segments m f l acc
  end.

Definition count_chunk (inuse : bool) (sz : Z) (acc : Z * Z * Z) : Z * Z * Z :=
  let '(sum, mfree, nfree) := acc in
  if inuse then (u64 (sum + sz), mfree, nfree) else (u64 (sum + sz), u64 (mfree + sz), u64 (nfree + 1)).
Definition internal_mallinfo (m : mspace) : option mallinfo :=
  if top m =? 0 then Some no_mallinfo
  else
    let mfree := u64 (topsize m + TOP_FOOT_SIZE) in
    '(sum, mfree, nfree) ← walk_segments m count_chunk (segs m) (mfree, mfree, 1);
    Some (Mallinfo sum nfree (u64 (footprint m - sum)) (max_footprint m) (u64 (footprint m - mfree)) mfree (topsize m)).

(** The numbers that [internal_malloc_stats] prints. *)
Definition internal_malloc_stats (m : mspace) : option (Z * Z * Z) :=
  if top m =? 0 then Some (0, 0, 0)
  else
    used ← walk_segments m (fun inuse sz used => if inuse then used else u64 (used - sz)) (segs m) (u64 (footprint m - u64 (topsize m + TOP_FOOT_SIZE)));
    Some (max_footprint m, footprint m, used).

Definition mspace_footprint (m : mspace) : Z := footprint m.
Definition mspace_max_footprint (m : mspace) : Z := max_footprint m.

(** [nedpmallinfo] and [nedpmalloc_footprint], of the spaces of a pool. *)
Definition add_mallinfo (r t : mallinfo) : mallinfo :=
  Mallinfo (u64 (arena r + arena t)) (u64 (ordblks r + ordblks t)) (u64 (hblkhd r + hblkhd t)) (u64 (usmblks r + usmblks t)) (u64 (uordblks r + uordblks t)) (u64 (fordblks r + fordblks t)) (u64 (keepcost r + keepcost t)).
Fixpoint nedpmallinfo_loop (ms : list mspace) (ret : mallinfo) : option mallinfo :=
  match ms with [] => Some ret | m :: ms => t ← internal_mallinfo m; nedpmallinfo_loop ms (add_mallinfo ret t) end.
Definition nedpmallinfo (ms : list mspace) : option mallinfo := nedpmallinfo_loop ms no_mallinfo.
Definition nedpmalloc_footprint (ms : list mspace) : Z := foldl (fun ret m => u64 (ret + mspace_footprint m)) 0 ms.

(** [nedpmalloc_trim]: each space with its answers of the system; how many of them gave memory back. *)
Fixpoint nedpmalloc_trim (P : malloc_params) (pad : Z) (ms : list ((Z -> Z -> bool) * mspace)) : option (list mspace * Z) :=
  match ms with
  | [] => Some ([], 0)
  | (U, m) :: ms => '(m, b) ← sys_trim P U pad m; '(ms, ret) ← nedpmalloc_trim P pad ms; Some (m :: ms, Z.b2z b + ret)
  end.

(** ** What the statistics are *)

(** The loop visits the chunks of a run in their order. *)
Lemma walk_run {A} m s (f : bool -> Z -> A -> A) ft pin a bs e pout fuel acc : lay (heads_of_space m) ft pin a bs e pout -> (length bs < fuel)%nat ->
  (forall x, a <= x < e -> segment_holds s x = true /\ x <> top m) -> (forall x k z, (x, k, z) ∈ placed a bs -> is_Some (read m x)) -> (e = top m \/ tc_head (heads_of_space m e) = FENCEPOST_HEAD) ->
  walk fuel m s f a acc = Some (foldl (fun acc b => f (in_use b.1) b.2 acc) acc bs).
Proof.
  revert pin a fuel acc. induction bs as [|[k z] bs IH]; intros pin a fuel acc HL Hf Hs Hr He; (destruct fuel as [|fuel]; [cbn in Hf; lia|]); cbn [walk].
  - destruct HL as [-> _]. destruct (segment_holds s e && negb (e =? top m)) eqn:E; [|done]. apply andb_true_iff in E as [_ E%negb_true_iff%Z.eqb_neq]. destruct He as [?|He]; [done|].
    unfold heads_of_space, heads in He. rewrite lookup_total_alt in He. unfold read. destruct (chunks (core m) !! e) as [c|]; [|discriminate]. cbn in *. by rewrite He.
  - destruct HL as ((Hh & H8 & H32) & Hk & HL). destruct (lay_end _ _ _ _ _ _ _ HL) as (Ee & H0 & _). destruct (Hs a ltac:(lia)) as [-> Hne]. rewrite (proj2 (Z.eqb_neq _ _) Hne). cbn [andb negb].
    destruct (Hr a k z ltac:(cbn; by left)) as [c Ec]. assert (Eh : heads_of_space m a = c) by (unfold heads_of_space, heads; rewrite lookup_total_alt; unfold read in Ec; by rewrite Ec). rewrite Ec. cbn [mbind option_bind]. rewrite Eh in Hh. destruct (head_flags _ _ _ _ Hh H8) as (Ez & _ & _ & Eu & _).
    assert (Hfp : (tc_head c =? FENCEPOST_HEAD) = false) by (apply Z.eqb_neq; rewrite Hh; unfold head_word; change FENCEPOST_HEAD with 11; destruct pin, k; cbn; lia). rewrite Hfp, Ez, Eu. replace (negb (pin && negb (in_use k))) with (in_use k) by (destruct k; cbn; [by rewrite andb_false_r|by rewrite andb_false_r|by destruct Hk as [-> _]]).
    cbn [foldl fst snd]. apply (IH (in_use k)); [done|cbn in Hf; lia|intros x Hx; apply Hs; lia| |done]. intros x k' z' Hx. apply (Hr x k' z'). cbn. by right.
Qed.

Lemma lay_length g ft pin a bs e pout : lay g ft pin a bs e pout -> 32 * Z.of_nat (length bs) <= total bs.
Proof. revert pin a. induction bs as [|[k z] bs IH]; intros pin a HL; [done|]. destruct HL as ((_ & _ & H32) & _ & HL). specialize (IH _ _ HL). cbn [length total]. lia. Qed.

(** The chunks of the space in the order of the segments. *)
Definition space_blocks (L : list seglay) : list (kind * Z) := concat (sl_blocks <$> L).

(** The records of the segments with the segments; the top chunk is behind the chunks of its segment. *)
Lemma segments_seen m L Ms Mt D : space_ok m L Ms Mt D -> Forall2 (fun r sg => seg_matches r sg /\ seg_ok m sg /\ (forall x, sl_start sg <= x < sl_end sg -> x <> top m)) (segs m) L.
Proof.
  intros O. pose proof (ok_match _ _ _ _ _ O) as HM. apply Forall2_same_length_lookup. split; [by eapply Forall2_length|]. intros j r sg Hr Hsg. pose proof (Forall_lookup_1 _ _ _ _ (ok_segs _ _ _ _ _ O) Hsg) as S. split; [by eapply Forall2_lookup_lr|]. split; [done|].
    intros x Hx ->. destruct (ok_top _ _ _ _ _ O) as [Hne Htop]. destruct L as [|s0 L0] eqn:EL; [done|]. pose proof (Forall_lookup_1 _ _ 0%nat s0 (ok_segs _ _ _ _ _ O) eq_refl) as S0. pose proof (Htop 0%nat s0 eq_refl) as Et. rewrite bool_decide_eq_true_2 in Et by done. pose proof (so_end _ _ S0) as He. rewrite Et in He. destruct He as (He & _).
    destruct (decide (j = 0%nat)) as [->|Hj]; [injection Hsg as <-; lia|]. pose proof (so_limit _ _ S). pose proof (so_limit _ _ S0). destruct (lay_end _ _ _ _ _ _ _ (so_lay _ _ S0)) as (? & ? & _). destruct (ok_apart _ _ _ _ _ O 0%nat j s0 sg ltac:(done) eq_refl Hsg); lia.
Qed.

Lemma walk_segments_run {A} m L Ms Mt D (f : bool -> Z -> A -> A) acc : space_ok m L Ms Mt D -> walk_segments m f (segs m) acc = Some (foldl (fun acc b => f (in_use b.1) b.2 acc) acc (space_blocks L)).
Proof.
  intros O. pose proof (segments_seen m L Ms Mt D O) as HS.
  revert acc. clear O. generalize dependent L. induction (segs m) as [|r rs IH]; intros L HS acc; [by apply Forall2_nil_inv_l in HS as ->|]. apply Forall2_cons_inv_l in HS as (sg & L' & (HM & S & Ht) & HS & ->). cbn [walk_segments].
  destruct (so_start _ _ S) as (H8 & _). destruct (lay_end _ _ _ _ _ _ _ (so_lay _ _ S)) as (Ee & H0 & _). pose proof (lay_length _ _ _ _ _ _ _ (so_lay _ _ S)) as Hl. pose proof (so_limit _ _ S). destruct HM as [M1 M2 _ _].
  replace (align_as_chunk (seg_base r)) with (sl_start sg) by (unfold align_as_chunk, chunk2mem; rewrite align_offset_eq, M1; clear -H8; Z.div_mod_to_equations; lia).
  assert (Hr : Z.of_nat (length (sl_blocks sg)) <= seg_size r / 32) by (apply Z.div_le_lower_bound; lia).
  rewrite (walk_run m r f (footer m) true (sl_start sg) (sl_blocks sg) (sl_end sg) true); [|apply S|lia| |apply S|].
  - cbn [mbind option_bind]. rewrite (IH L' HS). unfold space_blocks. cbn. by rewrite foldl_app.
  - intros x Hx. split; [|by apply Ht]. unfold segment_holds. apply andb_true_iff. split; [apply Z.leb_le|apply Z.ltb_lt]; lia.
  - pose proof (so_end _ _ S) as He. destruct (sl_top sg); [left|right]; apply He.
Qed.

(** The sizes of the free chunks of a run. *)
Definition free_sizes (bs : list (kind * Z)) : list Z := omap (fun b => if decide (b.1 = KFree) then Some b.2 else None) bs.
Lemma free_sizes_placed a bs : free_sizes bs = (of_kind KFree (placed a bs)).*2.
Proof. revert a. induction bs as [|[k z] bs IH]; intros a; [done|]. unfold free_sizes, of_kind. cbn. destruct (decide (k = KFree)); cbn; [f_equal|]; apply IH. Qed.
Lemma free_sizes_space L : free_sizes (space_blocks L) = (of_kind KFree (all_placed L)).*2.
Proof. induction L as [|sg L IH]; [done|]. change (all_placed (sg :: L)) with (seg_placed sg ++ all_placed L). change (space_blocks (sg :: L)) with (sl_blocks sg ++ space_blocks L). rewrite of_kind_app, fmap_app. unfold free_sizes at 1. rewrite omap_app. f_equal; [apply free_sizes_placed|apply IH]. Qed.


Lemma free_sizes_cons k z bs : free_sizes ((k, z) :: bs) = if in_use k then free_sizes bs else z :: free_sizes bs.
Proof. by destruct k. Qed.

Lemma count_chunks bs a b c : foldl (fun acc b => count_chunk (in_use b.1) b.2 acc) (u64 a, u64 b, u64 c) bs = (u64 (a + total bs), u64 (b + zsum (free_sizes bs)), u64 (c + Z.of_nat (length (free_sizes bs)))).
Proof.
  revert a b c. induction bs as [|[k z] bs IH]; intros a b c; [cbn; by rewrite !Z.add_0_r|]. cbn [foldl fst snd total]. rewrite free_sizes_cons. unfold count_chunk at 2. destruct (in_use k); rewrite !uwrap_add_l64, IH, ?zsum_cons; cbn [length]; rewrite ?Nat2Z.inj_succ, ?Z.add_assoc; [done|]. do 2 f_equal. lia.
Qed.

Lemma used_bytes bs u : foldl (fun acc (b : kind * Z) => if in_use b.1 then acc else u64 (acc - b.2)) (u64 u) bs = u64 (u - zsum (free_sizes bs)).
Proof.
  revert u. induction bs as [|[k z] bs IH]; intros u; [cbn; by rewrite Z.sub_0_r|]. cbn [foldl fst snd]. rewrite free_sizes_cons. destruct (in_use k); rewrite ?uwrap_sub_l64, IH; [done|]. by rewrite zsum_cons, Z.sub_add_distr.
Qed.

(** The statistics of a space: the loops end, the free chunks are those of the bins, the designated victim and
    the top chunk with its foot, and the two functions agree on the bytes in use. *)
Lemma mallinfo_ok m L Ms Mt : space_inv m L Ms Mt -> let F := map_to_list Ms ++ map_to_list Mt ++ dv_list m in exists i, internal_mallinfo m = Some i /\
  ordblks i = u64 (1 + Z.of_nat (length F)) /\ fordblks i = u64 (topsize m + TOP_FOOT_SIZE + zsum F.*2) /\ arena i = u64 (topsize m + TOP_FOOT_SIZE + total (space_blocks L)) /\
  hblkhd i = u64 (footprint m - arena i) /\ keepcost i = topsize m /\ uordblks i = u64 (footprint m - fordblks i) /\ internal_malloc_stats m = Some (usmblks i, footprint m, uordblks i).
Proof.
  intros (O & _) F. assert (Hf : free_sizes (space_blocks L) ≡ₚ F.*2) by (rewrite free_sizes_space, (ok_free _ _ _ _ _ O); done).
  assert (Ht : (top m =? 0) = false). { destruct (ok_top _ _ _ _ _ O) as [Hne Htop]. destruct L as [|s0 L0]; [done|]. pose proof (Forall_lookup_1 _ _ 0%nat s0 (ok_segs _ _ _ _ _ O) eq_refl) as S0. pose proof (Htop 0%nat s0 eq_refl) as Et. rewrite bool_decide_eq_true_2 in Et by done. pose proof (so_end _ _ S0) as He. rewrite Et in He. destruct He as (He & _). destruct (lay_end _ _ _ _ _ _ _ (so_lay _ _ S0)) as (? & ? & _). destruct (so_start _ _ S0) as (_ & ? & _). apply Z.eqb_neq. lia. }
  unfold internal_mallinfo, internal_malloc_stats. rewrite Ht, !(walk_segments_run m L Ms Mt _ _ _ O). cbn [mbind option_bind]. change 1 with (u64 1) at 1. rewrite count_chunks. eexists. split; [done|]. cbn [ordblks fordblks arena hblkhd keepcost uordblks usmblks].
  rewrite <- Hf. split_and!; try done; [by rewrite <- (length_fmap snd F), <- Hf|]. do 2 f_equal. rewrite uwrap_sub_r64, used_bytes, uwrap_sub_r64. f_equal. lia.
Qed.
