(* ===== verification/DlCheck.v ===== *)
(** The checks of the debug build, include/memory/malloc.c.h: [do_check_malloc_state] and the functions
    below it, which test every chunk, every bin and the counts of a memory space.

    A check gives [None] when an assertion fails. Loops over rings take as many rounds as there are chunks,
    and one more; a tree has at most 65 levels. *)
From stdpp Require Import gmap.
From S2P Require Import Prelude DlBins DlTree DlUnlink DlFit DlSmall DlSpace DlSystem DlInfo.
Local Open Scope Z_scope.

Definition assert_ (b : bool) : option unit := if b then Some tt else None.
Definition is_aligned (A : Z) : bool := Z.land A CHUNK_ALIGN_MASK =? 0.

(** ** Chunks *)
Definition do_check_any_chunk (m : mspace) (p : Z) : option unit :=
  _ ← (if is_aligned (chunk2mem p) then Some tt else c ← read m p; assert_ (tc_head c =? FENCEPOST_HEAD));
  assert_ (ok_address (core m) p).

Definition do_check_top_chunk (m : mspace) (p : Z) : option unit :=
  sp ← segment_holding m p;
  c ← read m p;
  let sz := Z.land (tc_head c) (Z.lnot INUSE_BITS) in
  _ ← do_check_any_chunk m p;
  _ ← assert_ (sz =? topsize m);
  _ ← assert_ (0 <? sz);
  _ ← assert_ (sz =? seg_base sp + seg_size sp - p - TOP_FOOT_SIZE);
  _ ← assert_ (pinuse c);
  n ← read m (p + sz);
  assert_ (negb (pinuse n)).

Definition do_check_mmapped_chunk (P : malloc_params) (m : mspace) (p : Z) : option unit :=
  c ← read m p;
  let sz := chunksize c in
  let len := sz + tc_prev_foot c + MMAP_FOOT_PAD in
  _ ← assert_ (is_mmapped c);
  _ ← assert_ (use_mmap m);
  _ ← do_check_any_chunk m p;
  _ ← assert_ (negb (is_small sz));
  _ ← assert_ (Z.land len (page_size P - 1) =? 0);
  n ← read m (p + sz);
  _ ← assert_ (tc_head n =? FENCEPOST_HEAD);
  n ← read m (p + (sz + 8));
  assert_ (tc_head n =? 0).

Definition do_check_inuse_chunk (P : malloc_params) (m : mspace) (p : Z) : option unit :=
  _ ← do_check_any_chunk m p;
  c ← read m p;
  _ ← assert_ (is_inuse c);
  n ← read m (p + chunksize c);
  _ ← assert_ (pinuse n);
  _ ← (if is_mmapped c || pinuse c then Some tt
       else let prev := p - tc_prev_foot c in c ← read m prev; assert_ (prev + chunksize c =? p));
  if is_mmapped c then do_check_mmapped_chunk P m p else Some tt.

Definition do_check_free_chunk (m : mspace) (p : Z) : option unit :=
  c ← read m p;
  let sz := chunksize c in
  let next := p + sz in
  _ ← do_check_any_chunk m p;
  _ ← assert_ (negb (is_inuse c));
  n ← read m next;
  _ ← assert_ (negb (pinuse n));
  _ ← assert_ (negb (is_mmapped c));
  if negb (p =? dv m) && negb (p =? top m) then
    if MIN_CHUNK_SIZE <=? sz then
      _ ← assert_ (Z.land sz CHUNK_ALIGN_MASK =? 0);
      _ ← assert_ (is_aligned (chunk2mem p));
      _ ← assert_ (tc_prev_foot n =? sz);
      _ ← assert_ (pinuse c);
      _ ← assert_ ((next =? top m) || is_inuse n);
      f ← read m (tc_fd c);
      _ ← assert_ (tc_bk f =? p);
      b ← read m (tc_bk c);
      assert_ (tc_fd b =? p)
    else assert_ (sz =? 8)
  else Some tt.

Definition do_check_malloced_chunk (P : malloc_params) (m : mspace) (mem s : Z) : option unit :=
  if negb (mem =? 0) then
    let p := mem2chunk mem in
    c ← read m p;
    let sz := Z.land (tc_head c) (Z.lnot INUSE_BITS) in
    _ ← do_check_inuse_chunk P m p;
    _ ← assert_ (Z.land sz CHUNK_ALIGN_MASK =? 0);
    _ ← assert_ (MIN_CHUNK_SIZE <=? sz);
    _ ← assert_ (s <=? sz);
    assert_ (is_mmapped c || (sz <? u64 (s + MIN_CHUNK_SIZE)))
  else Some tt.

(** ** Tree bins *)
(** [u->parent->child[0] == u || u->parent->child[1] == u || *((tbinptr* )(u->parent)) == u]: the
    parent is a chunk, whose first word is its foot, or an element of [treebins]. *)
Definition parent_links (m : mspace) (parent u : Z) : bool :=
  match read m parent with Some c => (tc_child0 c =? u) || (tc_child1 c =? u) || (tc_prev_foot c =? u) | None => false end ||
  existsb (fun i => (treebin_at (core m) i =? parent) && bool_decide (treebins (core m) !! Z.to_nat i = Some u)) (seqZ 0 32).

(** The loop over the chunks of one size, with the check of a subtree; [head] is the chunk that is in the tree. *)
Definition check_child (check : Z -> option unit) (m : mspace) (u child : Z) : option unit :=
  if negb (child =? 0) then
    c ← read m child;
    _ ← assert_ (tc_parent c =? u);
    _ ← assert_ (negb (child =? u));
    check child
  else Some tt.
Definition check_node (check : Z -> option unit) (m : mspace) (u : Z) (c : tchunk) : option unit :=
  _ ← assert_ (negb (tc_parent c =? u));
  _ ← assert_ (parent_links m (tc_parent c) u);
  _ ← check_child check m u (tc_child0 c);
  _ ← check_child check m u (tc_child1 c);
  if negb (tc_child0 c =? 0) && negb (tc_child1 c =? 0) then
    l ← read m (tc_child0 c);
    r ← read m (tc_child1 c);
    assert_ (chunksize l <? chunksize r)
  else Some tt.
Fixpoint check_ring (check : Z -> option unit) (fuel : nat) (m : mspace) (t tindex tsize u head : Z) : option Z :=
  match fuel with
  | O => None
  | S fuel =>
      _ ← do_check_any_chunk m u;
      c ← read m u;
      _ ← assert_ (tc_index c =? tindex);
      _ ← assert_ (chunksize c =? tsize);
      _ ← assert_ (negb (is_inuse c));
      n ← read m (u + chunksize c);
      _ ← assert_ (negb (pinuse n));
      f ← read m (tc_fd c);
      _ ← assert_ (tc_bk f =? u);
      b ← read m (tc_bk c);
      _ ← assert_ (tc_fd b =? u);
      head ← (if tc_parent c =? 0 then
                _ ← assert_ (tc_child0 c =? 0);
                _ ← assert_ (tc_child1 c =? 0);
                Some head
              else
                _ ← assert_ (head =? 0);
                _ ← check_node check m u c;
                Some u);
      if tc_fd c =? t then Some head else check_ring check fuel m t tindex tsize (tc_fd c) head
  end.
Definition ring_fuel (m : mspace) : nat := S (size (chunks (core m))).
Definition MIN_LARGE_SIZE : Z := Z.shiftl 1 TREEBIN_SHIFT.
Fixpoint do_check_tree (fuel : nat) (m : mspace) (t : Z) : option unit :=
  match fuel with
  | O => None
  | S fuel =>
      c ← read m t;
      let tindex := tc_index c in
      let tsize := chunksize c in
      let idx := compute_tree_index_bsr tsize in
      _ ← assert_ (tindex =? idx);
      _ ← assert_ (MIN_LARGE_SIZE <=? tsize);
      _ ← assert_ (minsize_for_tree_index idx <=? tsize);
      _ ← assert_ ((idx =? NTREEBINS - 1) || (tsize <? minsize_for_tree_index (idx + 1)));
      head ← check_ring (do_check_tree fuel m) (ring_fuel m) m t tindex tsize t 0;
      assert_ (negb (head =? 0))
  end.
Definition do_check_treebin (m : mspace) (i : Z) : option unit :=
  t ← treebins (core m) !! Z.to_nat i;
  let empty := Z.land (treemap (core m)) (u32 (Z.shiftl 1 i)) =? 0 in
  _ ← (if t =? 0 then assert_ empty else Some tt);
  if negb empty then do_check_tree TREE_FUEL m t else Some tt.

(** ** Small bins *)
Fixpoint check_small (fuel : nat) (P : malloc_params) (m : mspace) (i b p : Z) : option unit :=
  match fuel with
  | O => None
  | S fuel =>
      if p =? b then Some tt
      else
        c ← read m p;
        let size := chunksize c in
        _ ← do_check_free_chunk m p;
        _ ← assert_ (small_index size =? i);
        _ ← (if tc_bk c =? b then Some tt else k ← read m (tc_bk c); assert_ (chunksize k =? size));
        let q := p + size in
        n ← read m q;
        _ ← (if negb (tc_head n =? FENCEPOST_HEAD) then do_check_inuse_chunk P m q else Some tt);
        check_small fuel P m i b (tc_bk c)
  end.
Definition do_check_smallbin (P : malloc_params) (m : mspace) (i : Z) : option unit :=
  let b := smallbin_at m i in
  h ← read m b;
  let p := tc_bk h in
  let empty := Z.land (smallmap m) (u32 (Z.shiftl 1 i)) =? 0 in
  _ ← (if p =? b then assert_ empty else Some tt);
  if negb empty then check_small (ring_fuel m) P m i b p else Some tt.

(** ** [bin_find] *)
(** [do { if (p == x) return 1; } while ((p = p->fd) != b)]. *)
Fixpoint find_in_ring (fuel : nat) (m : mspace) (x b p : Z) : option bool :=
  match fuel with
  | O => None
  | S fuel => if p =? x then Some true else c ← read m p; if tc_fd c =? b then Some false else find_in_ring fuel m x b (tc_fd c)
  end.
Fixpoint find_size (fuel : nat) (m : mspace) (size sizebits t : Z) : option Z :=
  match fuel with
  | O => None
  | S fuel =>
      if t =? 0 then Some t
      else
        c ← read m t;
        if chunksize c =? size then Some t else find_size fuel m size (u64 (Z.shiftl sizebits 1)) (tc_child (sign_bit sizebits) c)
  end.
Definition bin_find (m : mspace) (x : Z) : option bool :=
  c ← read m x;
  let size := chunksize c in
  if is_small size then
    let sidx := small_index size in
    let b := smallbin_at m sidx in
    if smallmap_is_marked m sidx then find_in_ring (ring_fuel m) m x b b else Some false
  else
    let tidx := compute_tree_index_bsr size in
    if treemap_is_marked (core m) tidx then
      t ← treebins (core m) !! Z.to_nat tidx;
      t ← find_size TREE_FUEL m size (u64 (Z.shiftl size (leftshift_for_tree_index tidx))) t;
      if negb (t =? 0) then find_in_ring (ring_fuel m) m x t t else Some false
    else Some false.

(** ** The space as a whole *)
Fixpoint check_segment (fuel : nat) (P : malloc_params) (m : mspace) (s : segment) (q lastq sum : Z) : option Z :=
  match fuel with
  | O => None
  | S fuel =>
      if segment_holds s q && negb (q =? top m) then
        c ← read m q;
        if tc_head c =? FENCEPOST_HEAD then Some sum
        else
          let sum := u64 (sum + chunksize c) in
          _ ← (if is_inuse c then
                 found ← bin_find m q;
                 _ ← assert_ (negb found);
                 do_check_inuse_chunk P m q
               else
                 _ ← (if q =? dv m then Some tt else found ← bin_find m q; assert_ found);
                 _ ← (if lastq =? 0 then Some tt else l ← read m lastq; assert_ (is_inuse l));
                 do_check_free_chunk m q);
          check_segment fuel P m s (q + chunksize c) q sum
      else Some sum
  end.
Fixpoint check_segments (P : malloc_params) (m : mspace) (l : list segment) (sum : Z) : option Z :=
  match l with
  | [] => Some sum
  | s :: l =>
      let q := align_as_chunk (seg_base s) in
      c ← read m q;
      _ ← assert_ (pinuse c);
      sum ← check_segment (Z.to_nat (seg_size s / 32 + 1)) P m s q 0 sum;
      check_segments P m l sum
  end.
Definition traverse_and_check (P : malloc_params) (m : mspace) : option Z :=
  if negb (top m =? 0) then check_segments P m (segs m) (u64 (topsize m + TOP_FOOT_SIZE)) else Some 0.

Fixpoint check_all (check : Z -> option unit) (l : list Z) : option unit :=
  match l with [] => Some tt | i :: l => _ ← check i; check_all check l end.
Definition do_check_malloc_state (P : malloc_params) (m : mspace) : option unit :=
  _ ← check_all (do_check_smallbin P m) (seqZ 0 NSMALLBINS);
  _ ← check_all (do_check_treebin m) (seqZ 0 NTREEBINS);
  _ ← (if negb (dvsize m =? 0) then
         _ ← do_check_any_chunk m (dv m);
         c ← read m (dv m);
         _ ← assert_ (dvsize m =? chunksize c);
         _ ← assert_ (MIN_CHUNK_SIZE <=? dvsize m);
         found ← bin_find m (dv m);
         assert_ (negb found)
       else Some tt);
  _ ← (if negb (top m =? 0) then
         _ ← do_check_top_chunk m (top m);
         _ ← assert_ (0 <? topsize m);
         found ← bin_find m (top m);
         assert_ (negb found)
       else Some tt);
  total ← traverse_and_check P m;
  _ ← assert_ (total <=? footprint m);
  assert_ (footprint m <=? max_footprint m).
