(* ===== verification/DlChecked.v ===== *)
(** The checks of the debug build never fail: [do_check_malloc_state] passes in every state that a memory
    space can get into. *)
From stdpp Require Import gmap.
From S2P Require Import Prelude DlBins DlTree DlUnlink DlFit DlSmall DlSpace DlLayout DlInv DlBlocks DlMalloc DlFree DlRun DlSystem DlGrow DlPrepend DlSysAlloc DlAccount DlTrim DlRealloc DlResize DlAlign DlHeap DlInfo DlCheck.
Local Open Scope Z_scope.
Implicit Types g : Z -> tchunk.

(** ** Rings *)
Lemma links_next g l i x y : links g l -> l !! i = Some x -> l !! S i = Some y -> tc_fd (g x) = y /\ tc_bk (g y) = x.
Proof.
  revert i. induction l as [|a [|b l] IH]; intros i HL Hx Hy; [done|by destruct i|]. destruct HL as (H1 & H2 & HL). destruct i as [|i]; [cbn in *; by simplify_eq|]. by apply (IH i).
Qed.

(** A chunk of a ring and its neighbours. *)
Lemma ring_neighbours g a ch x : links g (a :: ch ++ [a]) -> x ∈ a :: ch -> tc_fd (g x) ∈ a :: ch /\ tc_bk (g (tc_fd (g x))) = x /\ tc_bk (g x) ∈ a :: ch /\ tc_fd (g (tc_bk (g x))) = x.
Proof.
  intros HL [i Hi]%list_elem_of_lookup. set (l := a :: ch ++ [a]) in *. assert (El : l = (a :: ch) ++ [a]) by done. pose proof (lookup_lt_Some _ _ _ Hi) as Hlt. assert (Hx : l !! i = Some x) by (rewrite El; by rewrite lookup_app_l).
  assert (Hin : forall y, y ∈ l -> y ∈ a :: ch) by (intros y; rewrite El, elem_of_app, list_elem_of_singleton; intros [?| ->]; [done|by left]).
  assert (Hnext : is_Some (l !! S i)) by (apply lookup_lt_is_Some; rewrite El, length_app; cbn in *; lia). destruct Hnext as [y Hy]. destruct (links_next g l i x y HL Hx Hy) as [F1 F2].
  assert (Hprev : exists j z, l !! j = Some z /\ l !! S j = Some x).
  { destruct i as [|i]; [cbn in Hi; injection Hi as <-; destruct (lookup_lt_is_Some_2 l (length ch)) as [z Hz]; [rewrite El, length_app; cbn; lia|]; exists (length ch), z; split; [done|]; rewrite El, lookup_app_r by (cbn; lia); cbn; by rewrite Nat.sub_diag|].
    destruct (lookup_lt_is_Some_2 l i) as [z Hz]; [rewrite El, length_app; cbn in *; lia|]. by exists i, z. }
  destruct Hprev as (j & z & Hz & Hj). destruct (links_next g l j z x HL Hz Hj) as [F3 F4]. rewrite F1, F4. split_and!; [apply Hin; by eapply list_elem_of_lookup_2|done|apply Hin; by eapply list_elem_of_lookup_2|done].
Qed.

Lemma ring_length (m : mspace) (l : list Z) : NoDup l -> (forall x, x ∈ l -> is_Some (read m x)) -> (length l < ring_fuel m)%nat.
Proof.
  intros Hd Hr. unfold ring_fuel. rewrite <- (size_list_to_set (C := gset Z)), <- size_dom by done. apply Nat.lt_succ_r, subseteq_size. intros x Hx. apply elem_of_list_to_set in Hx. apply elem_of_dom. by apply Hr.
Qed.

Lemma find_in_ring_ok m b x : forall l p fuel, links (heads_of_space m) (p :: l ++ [b]) -> (forall y, y ∈ p :: l -> is_Some (read m y)) -> b ∉ l -> (length l < fuel)%nat -> find_in_ring fuel m x b p = Some (bool_decide (x ∈ p :: l)).
Proof.
  induction l as [|y l IH]; intros p fuel HL Hr Hb Hf; (destruct fuel as [|fuel]; [cbn in Hf; lia|]); cbn [find_in_ring].
  - destruct (Z.eqb_spec p x) as [->|Hne]; [by rewrite bool_decide_true by (by left)|]. rewrite (space_read m m _ p (space_is_self m)) by (apply Hr; by left). destruct HL as (F & _). cbn [mbind option_bind]. rewrite F, Z.eqb_refl. rewrite bool_decide_false; [done|]. intros ->%list_elem_of_singleton. done.
  - destruct (Z.eqb_spec p x) as [->|Hne]; [by rewrite bool_decide_true by (by left)|]. rewrite (space_read m m _ p (space_is_self m)) by (apply Hr; by left). destruct HL as (F & _ & HL). cbn [mbind option_bind]. rewrite F.
    rewrite (proj2 (Z.eqb_neq _ _)) by (intros ->; apply Hb; by left). rewrite IH; [|done|intros z Hz; apply Hr; by right|intros H; apply Hb; by right|cbn in Hf; lia]. f_equal. apply bool_decide_ext. split; [by right|]. intros [->|?]%elem_of_cons; [done|done].
Qed.

Lemma find_ring_ok m a ch x : links (heads_of_space m) (a :: ch ++ [a]) -> NoDup (a :: ch) -> (forall y, y ∈ a :: ch -> is_Some (read m y)) -> find_in_ring (ring_fuel m) m x a a = Some (bool_decide (x ∈ a :: ch)).
Proof.
  intros HL Hd Hr. pose proof (ring_length m _ Hd Hr) as Hl. apply NoDup_cons in Hd as [Hd _]. apply find_in_ring_ok; try done. cbn in Hl. lia.
Qed.

(** ** Chunks *)
Section Checked.
Context (P : malloc_params) (m : mspace) (L : list seglay) (Ms Mt : gmap Z Z) (HI : space_inv m L Ms Mt).
Let O : space_ok m L Ms Mt (dv_list m) := proj1 HI.

(** What the checks of a chunk of a segment look at. *)
Record block_view (x : Z) (k : kind) (s : Z) (c n : tchunk) (q : bool) : Prop := {
  bv_read : read m x = Some c; bv_next : read m (x + s) = Some n;
  bv_head : tc_head c = head_word k s q; bv_size : s mod 8 = 0 /\ 32 <= s < 2 ^ 40;
  bv_at : x mod 8 = 0 /\ least_addr (core m) <= x /\ 0 < x;
  bv_pin : pinuse n = in_use k;
  bv_free : k = KFree -> q = true /\ tc_prev_foot n = s /\ exists k2 s2, (x + s, k2, s2) ∈ all_placed L /\ in_use k2 = true /\ tc_head n = head_word k2 s2 false;
  bv_prev : q = false -> exists s0, (x - s0, KFree, s0) ∈ all_placed L /\ tc_prev_foot c = s0 }.

Lemma read_heads x : is_Some (read m x) -> read m x = Some (heads_of_space m x).
Proof using Type. intros H. exact (space_read m m _ x (space_is_self m) H). Qed.

Lemma block_seen x k s : (x, k, s) ∈ all_placed L -> exists c n q, block_view x k s c n q.
Proof using Type*.
  intros Hx. pose proof Hx as Hin. apply in_placed in Hx as (i & sg & Hi & Hx). pose proof (Forall_lookup_1 _ _ _ _ (ok_segs _ _ _ _ _ O) Hi) as S. destruct (space_block m L Ms Mt _ x k s O Hin) as (Hs & H8 & Hx8 & (Dx & Hok & H0) & _).
  destruct (placed_split _ _ _ _ _ Hx) as (b1 & b2 & Eb & Ex). pose proof (so_lay _ _ S) as HL. rewrite Eb in HL. destruct (lay_at _ _ _ _ _ _ _ _ _ _ HL) as (q & H1 & Hh & _ & _ & H2 & Hk). rewrite <- Ex in H1, Hh, H2, Hk.
  assert (Hpl : forall y k' s', (y, k', s') ∈ seg_placed sg -> (y, k', s') ∈ all_placed L) by (intros y k' s' Hy; apply in_placed; eauto).
  assert (Epl : seg_placed sg = placed (sl_start sg) b1 ++ (x, k, s) :: placed (x + s) b2) by (unfold seg_placed; rewrite Eb, placed_app, <- Ex; done).
  assert (Hn : is_Some (read m (x + s)) /\ pinuse (heads_of_space m (x + s)) = in_use k).
  { destruct b2 as [|[k2 s2] b2].
    - destruct H2 as [Ee Ek]. rewrite Ek, Ee. pose proof (so_end _ _ S) as He. destruct (sl_top sg).
      + destruct He as (Et & Hht & HDt & Ht8 & _). rewrite Et. split; [done|]. assert (Hhd : tc_head (heads_of_space m (top m)) = head_word KFree (topsize m) true) by (by rewrite Hht). by apply (head_flags _ _ _ _ Hhd Ht8).
      + destruct He as (Hf & _). split; [|unfold pinuse; by rewrite Hf]. unfold heads_of_space, heads in Hf. rewrite lookup_total_alt in Hf. unfold read. destruct (chunks (core m) !! sl_end sg); [done|discriminate].
    - destruct H2 as ((Hh2 & H28 & _) & _). split; [|by apply (head_flags _ _ _ _ Hh2 H28)]. apply (so_dom _ _ S (x + s) k2 s2). rewrite Epl. apply elem_of_app. right. right. by left. }
  destruct Hn as [Dn Hpin]. exists (heads_of_space m x), (heads_of_space m (x + s)), q. split; try done.
  - by apply read_heads.
  - by apply read_heads.
  - split; [done|]. unfold ok_address in Hok. apply Z.leb_le in Hok. pose proof (ok_least _ _ _ _ _ O). lia.
  - intros ->. destruct Hk as [-> Hf]. split; [done|]. split; [done|]. destruct b2 as [|[k2 s2] b2]; [by destruct H2|]. destruct H2 as ((Hh2 & _) & Hk2 & _). exists k2, s2. split; [apply Hpl; rewrite Epl; apply elem_of_app; right; right; by left|]. split; [by destruct k2 as [| |]; [| |destruct Hk2]|done].
  - intros ->. destruct b1 as [|[k0 s0] b1 _] using rev_ind; [by destruct H1|]. apply lay_app in H1 as (y & q0 & H1 & H1'). destruct H1' as (_ & Hk0 & Ey & Eq). destruct k0; try done. destruct Hk0 as [_ Hf]. exists s0. rewrite Ey in Hf. split; [|done].
    apply Hpl. unfold seg_placed. rewrite Eb, <- app_assoc, placed_app. apply elem_of_app. right. destruct (lay_end _ _ _ _ _ _ _ H1) as (<- & _). replace (x - s0) with y by lia. by left.
Qed.

Lemma any_passes x : x mod 8 = 0 -> least_addr (core m) <= x -> do_check_any_chunk m x = Some tt.
Proof using Type.
  intros H8 Hl. unfold do_check_any_chunk. assert (Ea : is_aligned (chunk2mem x) = true). { unfold is_aligned. apply Z.eqb_eq. change CHUNK_ALIGN_MASK with (Z.ones 3). rewrite Z.land_ones by lia. change (2 ^ 3) with 8. unfold chunk2mem. clear -H8. Z.div_mod_to_equations. lia. }
  rewrite Ea. cbn [mbind option_bind]. unfold ok_address. by rewrite (proj2 (Z.leb_le _ _) Hl).
Qed.

Lemma inuse_passes x k s : (x, k, s) ∈ all_placed L -> in_use k = true -> do_check_inuse_chunk P m x = Some tt.
Proof using Type*.
  intros Hx Hk. destruct (block_seen x k s Hx) as (c & n & q & V). destruct (bv_size _ _ _ _ _ _ V) as [H8 _]. destruct (bv_at _ _ _ _ _ _ V) as (Hx8 & Hl & _). destruct (head_flags _ _ _ _ (bv_head _ _ _ _ _ _ V) H8) as (Es & Ep & _ & Ei & Em & _).
  unfold do_check_inuse_chunk. rewrite any_passes, (bv_read _ _ _ _ _ _ V) by done. cbn [mbind option_bind]. rewrite Es, Ei, Em, Ep, (bv_next _ _ _ _ _ _ V), Hk. cbn [negb andb mbind option_bind]. rewrite !andb_false_r. cbn [negb assert_ mbind option_bind]. rewrite (bv_pin _ _ _ _ _ _ V), Hk. cbn [assert_ orb mbind option_bind].
  destruct q; [done|]. destruct (bv_prev _ _ _ _ _ _ V eq_refl) as (s0 & Hp & ->). destruct (block_seen _ _ _ Hp) as (c0 & n0 & q0 & V0). rewrite (bv_read _ _ _ _ _ _ V0). cbn [mbind option_bind]. destruct (bv_size _ _ _ _ _ _ V0) as [H80 _].
  destruct (head_flags _ _ _ _ (bv_head _ _ _ _ _ _ V0) H80) as (Es0 & _). rewrite Es0. replace (x - s0 + s0) with x by lia. by rewrite Z.eqb_refl.
Qed.

Lemma malloced_passes x s nb : (x, KUsed, s) ∈ all_placed L -> 32 <= nb <= s -> s < nb + 32 -> do_check_malloced_chunk P m (chunk2mem x) nb = Some tt.
Proof using Type*.
  intros Hx Hnb Hs. destruct (block_seen x KUsed s Hx) as (c & n & q & V). destruct (bv_size _ _ _ _ _ _ V) as [H8 H32]. destruct (bv_at _ _ _ _ _ _ V) as (_ & _ & H0). unfold do_check_malloced_chunk. rewrite (proj2 (Z.eqb_neq (chunk2mem x) 0)) by (unfold chunk2mem; lia). replace (mem2chunk (chunk2mem x)) with x by (unfold mem2chunk, chunk2mem; lia).
  cbn [negb]. rewrite (bv_read _ _ _ _ _ _ V). cbn [mbind option_bind]. rewrite (inuse_passes x KUsed s Hx eq_refl). cbn [mbind option_bind].
  assert (Ez : Z.land (tc_head c) (Z.lnot INUSE_BITS) = s) by (rewrite (bv_head _ _ _ _ _ _ V); change INUSE_BITS with (Z.ones 2); rewrite <- Z.ldiff_land, Z.ldiff_ones_r, Z.shiftl_mul_pow2, Z.shiftr_div_pow2 by lia; change (2 ^ 2) with 4; unfold head_word; cbn [in_use]; clear -H8; destruct q; cbn [Z.b2z]; Z.div_mod_to_equations; lia). rewrite Ez.
  assert (E1 : (Z.land s CHUNK_ALIGN_MASK =? 0) = true) by (apply Z.eqb_eq; change CHUNK_ALIGN_MASK with (Z.ones 3); by rewrite Z.land_ones by lia). rewrite E1. change MIN_CHUNK_SIZE with 32. rewrite (proj2 (Z.leb_le 32 s)), (proj2 (Z.leb_le nb s)) by lia. rewrite uwrap_id by (unfold in_u; lia). rewrite (proj2 (Z.ltb_lt s (nb + 32))) by lia. cbn [assert_ mbind option_bind]. by rewrite orb_true_r.
Qed.

(** ** Free chunks *)
(** A ring of chunks, or of chunks and the header of a bin. *)
Definition a_ring (a : Z) (ch : list Z) : Prop := links (heads_of_space m) (a :: ch ++ [a]) /\ NoDup (a :: ch) /\ forall y, y ∈ a :: ch -> is_Some (read m y).

Lemma small_ring chs i ch : rings_inv m chs -> chs !! i = Some ch -> ch <> [] -> a_ring (hdr m i) ch.
Proof using Type.
  intros R Hi Hne. destruct (ri_ring _ _ R i ch Hi) as (_ & HL & HF). pose proof (lookup_lt_Some _ _ _ Hi) as Hlt. rewrite (ri_len _ _ R) in Hlt. split; [by apply HL|]. destruct (one_ring chs i ch Hi) as (rest & _ & HP & _).
  assert (Hch : (small_elems chs).*1 ≡ₚ ch ++ rest.*1) by (rewrite HP, fmap_app; unfold ring_elems; rewrite <- list_fmap_compose; unfold compose; cbn; by rewrite list_fmap_id). split.
  - apply NoDup_cons. split; [|pose proof (ri_nodup _ _ R) as Hd; rewrite Hch in Hd; apply NoDup_app in Hd; apply Hd]. intros Hin. apply (ri_apart _ _ R i (hdr m i) Hlt); [rewrite Hch; apply elem_of_app; by left|done].
  - intros y [->|Hy]%elem_of_cons; [exact (proj1 (ri_hdr _ _ R i Hlt))|]. rewrite Forall_forall in HF. destruct (HF y Hy) as ((D & _) & _). exact D.
Qed.

Lemma tree_ring i par t x s : trep (heads_of_space m) i par t -> NoDup (addrs t) -> live (core m) t -> (x, s) ∈ elems t -> exists a ch, a_ring a ch /\ x ∈ a :: ch.
Proof using Type.
  revert par. induction t as [|a s0 ch l IHl r IHr]; intros par HT Hd HG Hx; [by apply elem_of_nil in Hx|]. destruct HT as (_ & _ & (HL & _) & Tl & Tr). rewrite addrs_node in Hd. apply live_node in HG as (Ga & Gch & Gl & Gr).
  apply NoDup_cons in Hd as [Hda Hd]. apply NoDup_app in Hd as (Hdc & _ & Hd). apply NoDup_app in Hd as (Hdl & _ & Hdr). cbn in Hx. rewrite elem_of_cons, !elem_of_app in Hx.
  assert (HR : a_ring a ch) by (split; [done|]; split; [apply NoDup_cons; split; [intros ?; apply Hda, elem_of_app; by left|done]|]; intros y [->|Hy]%elem_of_cons; [apply Ga|rewrite Forall_forall in Gch; apply (Gch y Hy)]).
  destruct Hx as [E|[Hx|[Hx|Hx]]]; [injection E as -> _; exists a, ch; split; [done|by left]| |by apply (IHl a)|by apply (IHr a)]. apply list_elem_of_fmap in Hx as (y & [= -> _] & Hy). exists a, ch. split; [done|by right].
Qed.

Lemma bin_tree ts j t : bins_inv (core m) ts -> ts !! j = Some t -> NoDup (addrs t) /\ live (core m) t /\ forall x s, (x, s) ∈ elems t -> (x, s) ∈ all_elems ts.
Proof using Type.
  intros B Hj. destruct (one_bin ts j t Hj) as (rest & _ & HP & _). pose proof (bi_nodup _ _ B) as Hd. pose proof (bi_good _ _ B) as HG. rewrite HP, fmap_app in Hd, HG. apply NoDup_app in Hd as [Hd _]. apply Forall_app in HG as [HG _]. split; [done|]. split; [done|]. intros x s Hx. rewrite HP. apply elem_of_app. by left.
Qed.

Lemma bin_ring x s : (x, s) ∈ map_to_list Ms ++ map_to_list Mt -> exists a ch, a_ring a ch /\ x ∈ a :: ch.
Proof using Type*.
  intros [Hx|Hx]%elem_of_app.
  - destruct (ok_small _ _ _ _ _ O) as (chs & R & HP & _). rewrite <- HP in Hx. apply in_rings in Hx as (i & ch & Hi & Hch & _). exists (hdr m i), ch. split; [apply (small_ring chs i ch R Hi); by intros ->; apply elem_of_nil in Hch|by right].
  - destruct (ok_tree _ _ _ _ _ O) as (ts & B & HP). rewrite <- HP in Hx. unfold all_elems in Hx. apply list_elem_of_In, in_concat in Hx as (el & Hel & Hx). apply list_elem_of_In, list_elem_of_fmap in Hel as (t & -> & Ht). apply list_elem_of_lookup in Ht as [j Hj].
    destruct (bi_tree _ _ B j t Hj) as (_ & _ & HT & _). destruct (bin_tree ts j t B Hj) as (Hd & HG & _). apply list_elem_of_In in Hx. by apply (tree_ring _ _ t x s HT).
Qed.

Lemma free_passes x s : (x, KFree, s) ∈ all_placed L -> do_check_free_chunk m x = Some tt.
Proof using Type*.
  intros Hx. destruct (block_seen x _ s Hx) as (c & n & q & V). destruct (bv_size _ _ _ _ _ _ V) as [H8 H32]. destruct (bv_at _ _ _ _ _ _ V) as (Hx8 & Hl & _). destruct (bv_free _ _ _ _ _ _ V eq_refl) as (-> & Hf & k2 & s2 & Hn & Hk2 & Hh2). destruct (head_flags _ _ _ _ (bv_head _ _ _ _ _ _ V) H8) as (Es & Ep & _ & Ei & Em & _).
  destruct (block_seen _ _ _ Hn) as (c2 & n2 & q2 & V2). destruct (bv_size _ _ _ _ _ _ V2) as [H82 _]. destruct (head_flags _ _ _ _ Hh2 H82) as (_ & _ & _ & Ei2 & _).
  unfold do_check_free_chunk. rewrite (bv_read _ _ _ _ _ _ V). cbn [mbind option_bind]. rewrite Es, any_passes by done. cbn [mbind option_bind]. rewrite Ei. cbn [in_use negb andb assert_ mbind option_bind]. rewrite (bv_next _ _ _ _ _ _ V). cbn [mbind option_bind]. rewrite (bv_pin _ _ _ _ _ _ V). cbn [in_use negb assert_ mbind option_bind]. rewrite Em. cbn [in_use negb andb assert_ mbind option_bind].
  destruct (negb (x =? dv m) && negb (x =? top m)) eqn:E; [|done]. apply andb_true_iff in E as [E%negb_true_iff%Z.eqb_neq _]. change MIN_CHUNK_SIZE with 32. rewrite (proj2 (Z.leb_le 32 s)) by lia.
  assert (E1 : (Z.land s CHUNK_ALIGN_MASK =? 0) = true) by (apply Z.eqb_eq; change CHUNK_ALIGN_MASK with (Z.ones 3); by rewrite Z.land_ones by lia). rewrite E1. cbn [assert_ mbind option_bind].
  assert (E2 : is_aligned (chunk2mem x) = true) by (unfold is_aligned; apply Z.eqb_eq; change CHUNK_ALIGN_MASK with (Z.ones 3); rewrite Z.land_ones by lia; change (2 ^ 3) with 8; unfold chunk2mem; clear -Hx8; Z.div_mod_to_equations; lia). rewrite E2, Hf, Z.eqb_refl, Ep, Ei2, Hk2. cbn [assert_ mbind option_bind]. rewrite orb_true_r. cbn [assert_ mbind option_bind].
  apply of_kind_in in Hx. rewrite (ok_free _ _ _ _ _ O), app_assoc in Hx. apply elem_of_app in Hx as [Hx|Hx]; [|by apply dv_list_at in Hx]. destruct (bin_ring x s Hx) as (a & ch & (HL & _ & Hr) & Hin). destruct (ring_neighbours _ _ _ _ HL Hin) as (N1 & N2 & N3 & N4).
  assert (Ec : c = heads_of_space m x) by (pose proof (read_heads x ltac:(by rewrite (bv_read _ _ _ _ _ _ V))) as Er; rewrite (bv_read _ _ _ _ _ _ V) in Er; by injection Er). rewrite Ec.
  rewrite (read_heads _ (Hr _ N1)). cbn [mbind option_bind]. rewrite N2, Z.eqb_refl. cbn [assert_ mbind option_bind]. rewrite (read_heads _ (Hr _ N3)). cbn [mbind option_bind]. by rewrite N4, Z.eqb_refl.
Qed.

(** ** Small bins *)
Lemma check_small_ok i h pre : (i < 32)%nat -> Forall (fun x => (x, KFree, 8 * Z.of_nat i) ∈ all_placed L) pre -> h ∉ pre -> forall y fuel, links (heads_of_space m) (h :: pre ++ [y]) -> (length pre < fuel)%nat ->
  check_small fuel P m (Z.of_nat i) h (default h (last pre)) = Some tt.
Proof using Type*.
  intros Hi. induction pre as [|p pre IH] using rev_ind; intros HF Hh y fuel HL Hf; (destruct fuel as [|fuel]; [lia|]); cbn [check_small].
  - cbn. by rewrite Z.eqb_refl.
  - rewrite last_snoc. change (default h (Some p)) with p. apply Forall_app in HF as [HF Hp]. apply Forall_cons in Hp as [Hp _]. rewrite (proj2 (Z.eqb_neq p h)) by (intros ->; apply Hh, elem_of_app; right; by left). destruct (block_seen p _ _ Hp) as (c & n & q & V).
    destruct (bv_size _ _ _ _ _ _ V) as [H8 H32]. destruct (head_flags _ _ _ _ (bv_head _ _ _ _ _ _ V) H8) as (Es & _). rewrite (bv_read _ _ _ _ _ _ V). cbn [mbind option_bind]. rewrite Es, (free_passes p _ Hp). cbn [mbind option_bind]. destruct (small_index_eq (8 * Z.of_nat i) i eq_refl Hi) as [-> _]. rewrite Z.eqb_refl. cbn [assert_ mbind option_bind].
    assert (Ec : c = heads_of_space m p) by (pose proof (read_heads p ltac:(by rewrite (bv_read _ _ _ _ _ _ V))) as Er; rewrite (bv_read _ _ _ _ _ _ V) in Er; by injection Er).
    assert (HL' : links (heads_of_space m) (h :: pre ++ [p])) by (rewrite <- app_assoc, app_comm_cons in HL; apply links_app in HL; apply HL).
    assert (Hbk : tc_bk c = default h (last pre)).
    { rewrite Ec. destruct (last pre) as [z|] eqn:El; [apply last_Some in El as [pre' ->]|apply last_None in El as ->; by destruct HL' as (_ & ? & _)]. change (default h (Some z)) with z. rewrite <- app_assoc, app_comm_cons in HL'. cbn [app] in HL'. apply (links_app _ (h :: pre') z [p]) in HL' as [_ (_ & ? & _)]. done. }
    assert (Hnext : (if tc_bk c =? h then Some tt else k ← read m (tc_bk c); assert_ (chunksize k =? 8 * Z.of_nat i)) = Some tt).
    { destruct (Z.eqb_spec (tc_bk c) h) as [|Hne]; [done|]. rewrite Hbk in *. destruct (last pre) as [z|] eqn:El; [|done]. change (default h (Some z)) with z. apply last_Some in El as [pre' ->]. apply Forall_app in HF as [_ Hz]. apply Forall_cons in Hz as [Hz _]. destruct (block_seen z _ _ Hz) as (cz & nz & qz & Vz).
      rewrite (bv_read _ _ _ _ _ _ Vz). cbn [mbind option_bind]. destruct (head_flags _ _ _ _ (bv_head _ _ _ _ _ _ Vz) H8) as (-> & _). by rewrite Z.eqb_refl. }
    rewrite Hnext. cbn [mbind option_bind]. rewrite (bv_next _ _ _ _ _ _ V). cbn [mbind option_bind]. destruct (bv_free _ _ _ _ _ _ V eq_refl) as (_ & _ & k2 & s2 & Hn & Hk2 & _). rewrite (inuse_passes _ k2 s2 Hn Hk2).
    assert (Hrec : check_small fuel P m (Z.of_nat i) h (tc_bk c) = Some tt) by (rewrite Hbk; apply (IH HF ltac:(intros ?; apply Hh, elem_of_app; by left) p fuel HL'); rewrite length_app in Hf; cbn in Hf; lia). by destruct (negb _).
Qed.

Lemma smallbin_passes i : (i < 32)%nat -> do_check_smallbin P m (Z.of_nat i) = Some tt.
Proof using Type*.
  intros Hi. destruct (ok_small _ _ _ _ _ O) as (chs & R & HP & _). destruct (lookup_lt_is_Some_2 chs i) as [ch Hch]; [by rewrite (ri_len _ _ R)|]. destruct (ri_ring _ _ R i ch Hch) as (Hbit & HL & _). unfold do_check_smallbin. change (smallbin_at m (Z.of_nat i)) with (hdr m i).
  rewrite (read_heads _ (proj1 (ri_hdr _ _ R i Hi))). cbn [mbind option_bind]. assert (Em : (Z.land (smallmap m) (u32 (Z.shiftl 1 (Z.of_nat i))) =? 0) = bool_decide (ch = [])).
  { pose proof (small_marked m (Z.of_nat i) ltac:(lia)) as E. rewrite Hbit in E. unfold smallmap_is_marked, idx2bit in E. by apply (f_equal negb) in E; rewrite !negb_involutive in E. }
  rewrite Em. destruct (decide (ch = [])) as [Eq|Hne]; [rewrite bool_decide_true by done; cbn [negb]; by destruct (tc_bk _ =? hdr m i)|]. rewrite bool_decide_false by done. cbn [negb]. destruct (small_ring chs i ch R Hch Hne) as (_ & Hd & Hr). pose proof (ring_length m _ Hd Hr) as Hlen. apply NoDup_cons in Hd as [Hh Hd].
  specialize (HL Hne). destruct (last ch) as [z|] eqn:El; [|by apply last_None in El]. pose proof El as El'. apply last_Some in El' as [ch' Ech]. assert (Hbk : tc_bk (heads_of_space m (hdr m i)) = z) by (rewrite Ech, <- app_assoc, app_comm_cons in HL; cbn [app] in HL; apply (links_app _ (hdr m i :: ch') z [hdr m i]) in HL as [_ (_ & ? & _)]; done).
  rewrite Hbk, (proj2 (Z.eqb_neq z _)) by (intros ->; apply Hh; rewrite Ech; apply elem_of_app; right; by left). cbn [mbind option_bind]. replace z with (default (hdr m i) (last ch)) by (by rewrite El). apply (check_small_ok i (hdr m i) ch Hi) with (y := hdr m i); [|done|done|cbn in Hlen; lia].
  rewrite Forall_forall. intros x Hx. apply (free_placed m L Ms Mt _ O), elem_of_app. left. rewrite <- HP. apply in_rings. eauto.
Qed.
(** ** Tree bins *)
(** A free chunk in a ring: the tests on it, and those on its place in the tree. *)
Lemma ring_round check fuel a ch i s y head : a_ring a ch -> y ∈ a :: ch -> (y, KFree, s) ∈ all_placed L -> tc_index (heads_of_space m y) = i ->
  check_ring check (S fuel) m a i s y head =
    (head ← (if tc_parent (heads_of_space m y) =? 0 then
               _ ← assert_ (tc_child0 (heads_of_space m y) =? 0);
               _ ← assert_ (tc_child1 (heads_of_space m y) =? 0);
               Some head
             else _ ← assert_ (head =? 0); _ ← check_node check m y (heads_of_space m y); Some y);
     if tc_fd (heads_of_space m y) =? a then Some head else check_ring check fuel m a i s (tc_fd (heads_of_space m y)) head).
Proof using Type*.
  intros (HL & _ & Hr) Hin Hy Ei. destruct (block_seen y _ s Hy) as (c & n & q & V). destruct (bv_size _ _ _ _ _ _ V) as [H8 _]. destruct (bv_at _ _ _ _ _ _ V) as (Hy8 & Hl & _). destruct (bv_free _ _ _ _ _ _ V eq_refl) as (-> & _). destruct (head_flags _ _ _ _ (bv_head _ _ _ _ _ _ V) H8) as (Es & _ & _ & Eu & _).
  destruct (ring_neighbours _ _ _ _ HL Hin) as (N1 & N2 & N3 & N4). assert (Ec : c = heads_of_space m y) by (pose proof (read_heads y (Hr y Hin)) as Er; rewrite (bv_read _ _ _ _ _ _ V) in Er; by injection Er).
  cbn [check_ring]. rewrite any_passes, (bv_read _ _ _ _ _ _ V) by done. cbn [mbind option_bind]. rewrite Es, Eu, Ec, Ei, !Z.eqb_refl. cbn [in_use negb andb assert_ mbind option_bind]. rewrite (bv_next _ _ _ _ _ _ V). cbn [mbind option_bind]. rewrite (bv_pin _ _ _ _ _ _ V). cbn [in_use negb assert_ mbind option_bind].
  rewrite (read_heads _ (Hr _ N1)). cbn [mbind option_bind]. rewrite N2, Z.eqb_refl. cbn [assert_ mbind option_bind]. rewrite (read_heads _ (Hr _ N3)). cbn [mbind option_bind]. by rewrite N4, Z.eqb_refl.
Qed.

(** The chunks of a ring that are not in the tree. *)
Lemma ring_rest check a ch i s head : a_ring a ch -> Forall (fun y => (y, KFree, s) ∈ all_placed L) ch -> Forall (ring_chunk (heads_of_space m) i s) ch ->
  forall l y fuel, links (heads_of_space m) (y :: l ++ [a]) -> y :: l ⊆ ch -> (length l < fuel)%nat -> check_ring check fuel m a i s y head = Some head.
Proof using Type*.
  intros HR HP HC. pose proof HR as (_ & Hd & _). apply NoDup_cons in Hd as [Ha _]. rewrite Forall_forall in HP, HC.
  induction l as [|z l IH]; intros y fuel HL Hs Hf; (destruct fuel as [|fuel]; [cbn in Hf; lia|]); (assert (Hy : y ∈ ch) by (apply Hs; by left)); destruct (HC y Hy) as (_ & Ei & E0 & E1 & E2); rewrite (ring_round check fuel a ch i s y head HR) by (done || (by right) || by apply HP).
  - destruct HL as (F & _). by rewrite E0, E1, E2, F, !Z.eqb_refl.
  - destruct HL as (F & _ & HL). rewrite E0, E1, E2, F, Z.eqb_refl. cbn [assert_ mbind option_bind]. rewrite (proj2 (Z.eqb_neq z a)) by (intros ->; apply Ha, Hs; right; by left). apply (IH z fuel HL); [intros x Hx; apply Hs; by right|cbn in Hf; lia].
Qed.

(** A tree: the bin or a chunk points to it. *)
Lemma tree_passes i t : forall fuel par n p, (depth t < fuel)%nat -> t <> Leaf -> trep (heads_of_space m) i par t -> wf n p t -> (n <= 64)%nat -> live (core m) t -> NoDup (addrs t) ->
  Forall (fun e => home e.2 i /\ (e.1, KFree, e.2) ∈ all_placed L) (elems t) -> par <> 0 -> par <> root t -> parent_links m par (root t) = true -> do_check_tree fuel m (root t) = Some tt.
Proof using Type*.
  induction t as [|a s ch l IHl r IHr]; intros fuel par n p Hf Hne HT Hw Hn HG Hd HF Hp0 Hpr Hpl; [done|]. destruct fuel as [|fuel]; [lia|]. cbn [depth] in Hf.
  assert (HS : shaped (core m) i (Node a s ch l r)) by (split; [done|]; by exists par, n, p). pose proof HT as ((Es & Ei & Ep) & (E0 & E1) & (HL & HC) & Tl & Tr). apply live_node in HG as (Ga & Gch & Gl & Gr). rewrite addrs_node in Hd.
  apply NoDup_cons in Hd as [Hda Hd]. apply NoDup_app in Hd as (Hdc & Hdx & Hd). apply NoDup_app in Hd as (Hdl & _ & Hdr). cbn [elems] in HF. rewrite Forall_cons, !Forall_app, Forall_fmap in HF. destruct HF as ([Hh Hpa] & HFc & HFl & HFr). cbn [fst snd] in Hh, Hpa.
  assert (HR : a_ring a ch) by (split; [done|]; split; [apply NoDup_cons; split; [intros ?; apply Hda, elem_of_app; by left|done]|]; intros y [->|Hy]%elem_of_cons; [apply Ga|rewrite Forall_forall in Gch; apply (Gch y Hy)]).
  cbn [do_check_tree root]. rewrite (read_heads a (proj1 Ga)). cbn [mbind option_bind]. rewrite Es, Ei. pose proof (home_ranges s i Hh) as (Hi & Hlo & Hhi). destruct Hh as [H256 Hidx]. rewrite Hidx, Z.eqb_refl. change MIN_LARGE_SIZE with 256. rewrite (proj2 (Z.leb_le 256 s)) by lia. rewrite (proj2 (Z.leb_le _ s) Hlo). cbn [assert_ mbind option_bind].
  assert (Elast : ((i =? NTREEBINS - 1) || (s <? minsize_for_tree_index (i + 1))) = true) by (change (NTREEBINS - 1) with 31; destruct (Z.eqb_spec i 31); [done|]; apply Z.ltb_lt, Hhi; lia). rewrite Elast. cbn [assert_ mbind option_bind].
  assert (Hnode : check_node (do_check_tree fuel m) m a (heads_of_space m a) = Some tt).
  { unfold check_node. rewrite Ep, (proj2 (Z.eqb_neq par a)) by done. cbn [negb assert_ mbind option_bind]. cbn [root] in Hpl. rewrite Hpl. cbn [assert_ mbind option_bind].
    assert (Hchild : forall b u, u = (if b : bool then r else l) -> check_child (do_check_tree fuel m) m a (root u) = Some tt).
    { intros b u ->. unfold check_child. destruct (Z.eqb_spec (root (if b then r else l)) 0) as [|Hz]; [done|]. cbn [negb].
      assert (Hu : exists a' s' ch' l' r', (if b then r else l) = Node a' s' ch' l' r') by (destruct (if b then r else l); [done|eauto 8]). destruct Hu as (a' & s' & ch' & l' & r' & Eu).
      assert (Tu : trep (heads_of_space m) i a (if b then r else l)) by (by destruct b). assert (Gu : live (core m) (if b then r else l)) by (by destruct b). pose proof Tu as Tu'. pose proof Gu as Gu'. rewrite Eu in Tu', Gu'. destruct Tu' as ((_ & _ & Epu) & _). apply live_node in Gu' as (Gau & _).
      assert (Hin : a' <> a) by (intros ->; apply Hda; rewrite !elem_of_app; right; assert (a ∈ addrs (if b then r else l)) by (rewrite Eu, addrs_node; by left); destruct b; auto).
      rewrite Eu. cbn [root]. rewrite (read_heads a' (proj1 Gau)). cbn [mbind option_bind]. rewrite Epu, Z.eqb_refl. cbn [assert_ mbind option_bind]. rewrite (proj2 (Z.eqb_neq a' a)) by done. cbn [negb assert_ mbind option_bind]. change a' with (root (Node a' s' ch' l' r')). rewrite <- Eu.
      destruct Hw as [_ Hw]. destruct n as [|n]; [destruct Hw as [-> ->]; by destruct b|]. destruct Hw as [Wl Wr]. assert (Ea : a <> root (if b then r else l)) by (rewrite Eu; cbn; congruence). assert (Ga0 : a <> 0) by apply Ga.
      assert (Hpl' : parent_links m a (root (if b then r else l)) = true) by (unfold parent_links; rewrite (read_heads a (proj1 Ga)), E0, E1; destruct b; rewrite Z.eqb_refl; [by rewrite orb_true_r|done]).
      destruct b; [apply (IHr fuel a n (2 * p + 1))|apply (IHl fuel a n (2 * p))]; try done; try lia; by rewrite Eu. }
    rewrite E0, E1, (Hchild false l eq_refl), (Hchild true r eq_refl). cbn [mbind option_bind]. destruct (negb (root l =? 0) && negb (root r =? 0)) eqn:Eb; [|done]. apply andb_true_iff in Eb as [Hl0%negb_true_iff%Z.eqb_neq Hr0%negb_true_iff%Z.eqb_neq].
    destruct l as [|al sl chl ll lr]; [done|]. destruct r as [|ar sr chr rl rr]; [done|]. apply live_node in Gl as (Gl & _). apply live_node in Gr as (Gr & _). cbn [root]. rewrite (read_heads al (proj1 Gl)), (read_heads ar (proj1 Gr)). cbn [mbind option_bind]. destruct Tl as ((-> & _) & _). destruct Tr as ((-> & _) & _).
    rewrite (proj2 (Z.ltb_lt sl sr)); [done|]. apply (left_smaller _ _ _ _ _ _ _ sl sr HS); apply size_node; by left. }
  assert (Hring : check_ring (do_check_tree fuel m) (ring_fuel m) m a i s a 0 = Some a).
  { pose proof (ring_length m _ (proj1 (proj2 HR)) (proj2 (proj2 HR))) as Hlen. destruct (ring_fuel m) as [|rf]; [lia|]. rewrite (ring_round _ rf a ch i s a 0 HR ltac:(by left) Hpa Ei), Ep, (proj2 (Z.eqb_neq par 0)) by done. rewrite Hnode. cbn [Z.eqb assert_ mbind option_bind].
    destruct ch as [|y ch]; [destruct HL as (-> & _); by rewrite Z.eqb_refl|]. destruct HL as (F & _ & HL). rewrite F, (proj2 (Z.eqb_neq y a)) by (intros ->; apply Hda; by left). apply (ring_rest _ a (y :: ch) i s a HR) with (l := ch); [|done|done|done|cbn in Hlen; lia].
    eapply Forall_impl; [exact HFc|]. by intros y' [_ ?]. }
  rewrite Hring. cbn [mbind option_bind]. by rewrite (proj2 (Z.eqb_neq a 0)) by apply Ga.
Qed.

Lemma treebin_passes j : (j < 32)%nat -> do_check_treebin m (Z.of_nat j) = Some tt.
Proof using Type*.
  intros Hj. destruct (ok_tree _ _ _ _ _ O) as (ts & B & HP). destruct (lookup_lt_is_Some_2 ts j) as [t Ht]; [by rewrite (proj1 (bi_len _ _ B))|]. destruct (bi_tree _ _ B j t Ht) as (Eb & Em & HT & Hw & Hh). destruct (tree_live _ _ _ _ B Ht) as [HG Hd]. unfold do_check_treebin. rewrite Nat2Z.id, Eb. cbn [mbind option_bind].
  assert (Emk : (Z.land (treemap (core m)) (u32 (Z.shiftl 1 (Z.of_nat j))) =? 0) = (root t =? 0)) by (pose proof (marked_testbit (core m) (Z.of_nat j) ltac:(lia)) as E; rewrite Em in E; unfold treemap_is_marked, idx2bit in E; by apply (f_equal negb) in E; rewrite !negb_involutive in E).
  rewrite Emk. destruct (Z.eqb_spec (root t) 0) as [|Hz]; [done|]. cbn [negb mbind option_bind]. assert (Hne : t <> Leaf) by (by intros ->).
  assert (Hpl : forall x s, (x, s) ∈ elems t -> (x, KFree, s) ∈ all_placed L).
  { intros x s Hx. apply (free_placed m L Ms Mt _ O). rewrite !elem_of_app. right. left. rewrite <- HP. destruct (bin_tree ts j t B Ht) as (_ & _ & H). by apply H. }
  assert (Hroot : exists s, (root t, s) ∈ elems t) by (destruct t as [|a s ch l r]; [done|]; exists s; by left). destruct Hroot as [s0 Hr0].
  assert (Hpar : treebin_at (core m) (Z.of_nat j) <> root t).
  { intros Ee. pose proof (Hpl _ _ Hr0) as Hp. destruct (space_block m L Ms Mt _ _ _ _ O Hp) as (Hs & _). unfold treebin_at in Ee. rewrite (ok_bins_at _ _ _ _ _ O) in Ee. destruct (space_apart m L Ms Mt _ _ _ _ _ _ _ O Hp (ok_hdr _ _ _ _ _ O)) as [E|[H|H]]; [done|lia|lia]. }
  apply (tree_passes (Z.of_nat j) t TREE_FUEL (treebin_at (core m) (Z.of_nat j)) (levels (Z.of_nat j)) (prefix (Z.of_nat j))); try done.
  - by apply (shaped_depth (core m) (Z.of_nat j)), (bin_shaped _ ts).
  - apply levels_le. lia.
  - rewrite Forall_forall in *. intros [x s] Hx. split; [by apply (Hh (x, s))|by apply Hpl].
  - unfold treebin_at. pose proof (bi_at _ _ B). lia.
  - unfold parent_links. apply orb_true_iff. right. apply existsb_exists. exists (Z.of_nat j). split; [apply list_elem_of_In, elem_of_seqZ; lia|]. rewrite Z.eqb_refl, Nat2Z.id, Eb. by rewrite bool_decide_true.
Qed.
(** ** [bin_find] *)
Lemma find_size_ok i z t : forall fuel par K n, trep (heads_of_space m) i par t -> live (core m) t -> NoDup (addrs t) -> NoDup (node_sizes t) -> wf n (z / 2 ^ Z.of_nat n) t -> bits_at n z K -> (n <= 64)%nat -> (n < fuel)%nat ->
  exists u, find_size fuel m z K (root t) = Some u /\ (u = 0 /\ z ∉ node_sizes t \/ u <> 0 /\ exists ch, a_ring u ch /\ forall x, (x, z) ∈ elems t <-> x ∈ u :: ch).
Proof using Type*.
  induction t as [|a s ch l IHl r IHr]; intros fuel par K n HT HG Hd Hz Hw HK Hn Hf; (destruct fuel as [|fuel]; [lia|]).
  { exists 0. split; [done|]. left. split; [done|]. by intros ?%elem_of_nil. }
  destruct HT as ((Es & _ & _) & (E0 & E1) & (HL & HC) & Tl & Tr). apply live_node in HG as (Ga & Gch & Gl & Gr). rewrite addrs_node in Hd. apply NoDup_cons in Hd as [Hda Hd]. apply NoDup_app in Hd as (Hdc & _ & Hd). apply NoDup_app in Hd as (Hdl & _ & Hdr).
  cbn [node_sizes] in Hz. apply NoDup_cons in Hz as [Hza Hz]. rewrite elem_of_app in Hza. apply NoDup_app in Hz as (Hzl & Hzx & Hzr). cbn [find_size root]. rewrite (proj2 (Z.eqb_neq a 0)) by apply Ga. rewrite (read_heads a (proj1 Ga)). cbn [mbind option_bind]. rewrite Es.
  assert (Hel : forall x, (x, z) ∈ elems (Node a s ch l r) <-> s = z /\ x ∈ a :: ch \/ (x, z) ∈ elems l \/ (x, z) ∈ elems r).
  { intros x. cbn [elems]. rewrite !elem_of_cons, !elem_of_app, list_elem_of_fmap. split; [intros [E|[(y & E & Hy)|?]]; simplify_eq; auto|]. intros [[-> [->|Hx]]|?]; eauto. }
  destruct (Z.eqb_spec s z) as [->|Hne].
  { exists a. split; [done|]. right. split; [apply Ga|]. exists ch. split.
    - split; [done|]. split; [apply NoDup_cons; split; [intros ?; apply Hda, elem_of_app; by left|done]|]. intros y [->|Hy]%elem_of_cons; [apply Ga|rewrite Forall_forall in Gch; apply (Gch y Hy)].
    - intros x. rewrite Hel. split; [|by left]. intros [[_ ?]|[H%elem_size|H%elem_size]]; [done| |]; exfalso; auto. }
  destruct n as [|n]; [destruct Hw as [Hw _]; cbn in Hw; rewrite !Z.div_1_r in Hw; lia|]. destruct Hw as (Hw & Wl & Wr). rewrite (bits_sign n z K) by (done || lia). pose proof (half_bit z n) as Hh. apply bits_next in HK; [|lia]. pose proof (wf_size n _ l z Wl) as Pl. pose proof (wf_size n _ r z Wr) as Pr. rewrite Hh in Pl, Pr.
  set (d := Z.testbit z (Z.of_nat n)) in *. set (c := if d then r else l). assert (Ec : tc_child d (heads_of_space m a) = root c) by (unfold c; by destruct d). assert (Wc : wf n (z / 2 ^ Z.of_nat n) c) by (rewrite Hh; unfold c; destruct d; cbn [Z.b2z]; [done|by rewrite Z.add_0_r]).
  assert (Ho : z ∉ node_sizes (if d then l else r)) by (destruct d; intros H; [specialize (Pl H)|specialize (Pr H)]; cbn [Z.b2z] in *; lia).
  assert (IH : exists u, find_size fuel m z (u64 (Z.shiftl K 1)) (root c) = Some u /\ (u = 0 /\ z ∉ node_sizes c \/ u <> 0 /\ exists ch, a_ring u ch /\ forall x, (x, z) ∈ elems c <-> x ∈ u :: ch)) by (unfold c in *; destruct d; [apply (IHr fuel a _ n)|apply (IHl fuel a _ n)]; try done; lia).
  rewrite Ec. destruct IH as (u & -> & Hu). exists u. split; [done|]. destruct Hu as [[-> Hc]|(H0 & ch' & HR & Hc)]; [left|right]; (split; [done|]).
  - cbn [node_sizes]. rewrite elem_of_cons, elem_of_app. unfold c in Hc. destruct d; intros [?|[?|?]]; done.
  - exists ch'. split; [done|]. intros x. rewrite <- Hc, Hel. unfold c in *. split; [|destruct d; auto]. destruct d; intros [[? _]|[H|H]]; try done; by apply elem_size in H.
Qed.

Definition in_a_bin (x s : Z) : Prop := Ms !! x = Some s \/ Mt !! x = Some s.
#[local] Instance in_a_bin_dec x s : Decision (in_a_bin x s).
Proof using Type. unfold in_a_bin. solve_decision. Defined.

Lemma bin_find_ok x s c : read m x = Some c -> chunksize c = s -> s mod 8 = 0 -> 0 <= s < 2 ^ 40 -> (forall i, (i < 32)%nat -> x <> hdr m i) -> bin_find m x = Some (bool_decide (in_a_bin x s)).
Proof using Type*.
  intros Er Es H8 Hs Hh. unfold bin_find. rewrite Er. cbn [mbind option_bind]. rewrite Es, is_small_eq by lia. destruct (Z.ltb_spec s 256) as [Hlt|Hge].
  - destruct (ok_small _ _ _ _ _ O) as (chs & R & HP & _). set (i := Z.to_nat (s / 8)). assert (Ei : s = 8 * Z.of_nat i) by (unfold i; rewrite Z2Nat.id by (apply Z.div_pos; lia); clear -H8; Z.div_mod_to_equations; lia). assert (Hi : (i < 32)%nat) by lia.
    destruct (lookup_lt_is_Some_2 chs i) as [ch Hch]; [by rewrite (ri_len _ _ R)|]. destruct (ri_ring _ _ R i ch Hch) as (Hbit & HL & _). destruct (small_index_eq s i Ei Hi) as [-> _]. change (smallbin_at m (Z.of_nat i)) with (hdr m i). rewrite small_marked, Hbit by lia.
    assert (Hin : in_a_bin x s <-> x ∈ ch).
    { unfold in_a_bin. rewrite <- elem_of_map_to_list, <- HP, in_rings. split; [|intros Hx; left; by exists i, ch]. intros [(j & ch' & Hj & Hx & Ej)|Hx]; [assert (j = i) as -> by lia; by rewrite Hch in Hj; injection Hj as <-|]. destruct (tree_member m L Ms Mt _ O x s Hx) as (_ & _ & ?). lia. }
    destruct (decide (ch = [])) as [->|Hne]; [rewrite bool_decide_true by done; cbn [negb]; rewrite bool_decide_false; [done|]; rewrite Hin; by intros ?%elem_of_nil|]. rewrite (bool_decide_false (ch = [])) by done. cbn [negb].
    destruct (small_ring chs i ch R Hch Hne) as (HL' & Hd & Hr). rewrite (find_ring_ok m _ _ x HL' Hd Hr). f_equal. apply bool_decide_ext. rewrite Hin, elem_of_cons. split; [|auto]. intros [->|?]; [by destruct (Hh i Hi)|done].
  - destruct (ok_tree _ _ _ _ _ O) as (ts & B & HP). set (i := compute_tree_index_bsr s). assert (Hhm : home s i) by (split; [lia|done]). pose proof (home_ranges s i Hhm) as (Hi & _). pose proof (home_prefix s i Hhm) as Hp. destruct (bins_tree _ ts i B Hi) as [t Ht].
    destruct (bi_tree _ _ B _ _ Ht) as (Eb & Em & HT & Hw & _). rewrite Z2Nat.id in Em, HT, Hw by lia. destruct (tree_live _ _ _ _ B Ht) as [HG Hd]. pose proof (Forall_lookup_1 _ _ _ _ (bi_sizes _ _ B) Ht) as Hz. rewrite marked_testbit, Em by done.
    assert (Hin : in_a_bin x s <-> (x, s) ∈ elems t).
    { unfold in_a_bin. rewrite (in_bins_map _ ts Mt x s B HP). split; [|intros Hx; right; by exists (Z.to_nat i), t]. intros [Hx|(j & u & Hj & Hx)]; [destruct (ok_small _ _ _ _ _ O) as (_ & _ & _ & H); specialize (H _ _ Hx); lia|].
      destruct (bin_home _ _ _ _ _ _ B Hj Hx) as [[_ Hj'] _]. fold i in Hj'. assert (j = Z.to_nat i) as -> by lia. by rewrite Ht in Hj; injection Hj as <-. }
    destruct (Z.eqb_spec (root t) 0) as [E0|E0]; cbn [negb]. { apply (live_root (core m)) in E0 as ->; [|done]. rewrite bool_decide_false; [done|]. rewrite Hin. by intros ?%elem_of_nil. }
    rewrite Eb. cbn [mbind option_bind]. rewrite <- Hp in Hw. destruct (find_size_ok i s t TREE_FUEL _ (u64 (Z.shiftl s (leftshift_for_tree_index i))) (levels i) HT HG Hd Hz Hw (first_bits s i Hi) (levels_le i Hi)) as (u & -> & Hu); [unfold TREE_FUEL; pose proof (levels_le i Hi); lia|]. cbn [mbind option_bind].
    destruct Hu as [[-> Hno]|(Hu0 & ch & (HL & Hdr & Hr) & Hx)].
    + cbn. rewrite bool_decide_false; [done|]. rewrite Hin. by intros ?%elem_size.
    + rewrite (proj2 (Z.eqb_neq u 0)) by done. cbn [negb]. rewrite (find_ring_ok m _ _ x HL Hdr Hr). f_equal. apply bool_decide_ext. by rewrite Hin, Hx.
Qed.
(** The header of a small bin is no chunk. *)
Lemma placed_not_hdr x k s i : (x, k, s) ∈ all_placed L -> (i < 32)%nat -> x <> hdr m i.
Proof using Type*.
  intros Hx Hi ->. pose proof (ok_hdr _ _ _ _ _ O) as Hb. pose proof (hdr_range m i Hi). destruct (space_block m L Ms Mt _ _ _ _ O Hx) as (? & _). destruct (space_apart m L Ms Mt _ _ _ _ _ _ _ O Hx Hb) as [E|[?|?]]; [injection E as E _ _; lia|lia|lia].
Qed.

(** The bins have the free chunks but the designated victim. *)
Lemma block_found x k s : (x, k, s) ∈ all_placed L -> bin_find m x = Some (negb (in_use k) && negb (x =? dv m)).
Proof using Type*.
  intros Hx. destruct (space_block m L Ms Mt _ _ _ _ O Hx) as (Hs & H8 & _ & (D & _ & H0) & Es). rewrite (bin_find_ok x s (heads_of_space m x) (read_heads x D) Es H8 ltac:(lia)) by (intros i Hi; by apply (placed_not_hdr x k s)). f_equal.
  assert (Hfree : in_a_bin x s -> (x, s) ∈ map_to_list Ms ++ map_to_list Mt) by (intros [H|H]; apply elem_of_app; [left|right]; by apply elem_of_map_to_list).
  destruct (in_use k) eqn:Ek; cbn [negb andb].
  - apply bool_decide_false. intros Hin%Hfree. assert (Hf : (x, KFree, s) ∈ all_placed L) by (apply (free_placed m L Ms Mt _ O); rewrite app_assoc; apply elem_of_app; by left). destruct (space_apart m L Ms Mt _ _ _ _ _ _ _ O Hx Hf) as [E|?]; [injection E as ->; done|lia].
  - assert (k = KFree) as -> by (by destruct k). destruct (Z.eqb_spec x (dv m)) as [Ed|Hne]; cbn [negb].
    + apply bool_decide_false. destruct (dv_at m L Ms Mt x s O Hx (proj2 (proj2 HI)) Ed) as [E1 E2]. assert (Hdv : (x, s) ∈ dv_list m) by (unfold dv_list; rewrite (proj2 (Z.eqb_neq _ _) E2), Ed, E1; by left). intros [H|H]; [eapply (bins_apart m L Ms Mt _ O x s); [apply elem_of_app; by right|done]|by eapply (tree_disjoint m L Ms Mt _ O x s)].
    + apply bool_decide_true. apply of_kind_in in Hx. rewrite (ok_free _ _ _ _ _ O), !elem_of_app in Hx. destruct Hx as [Hx|[Hx|Hx]]; [left; by apply elem_of_map_to_list|right; by apply elem_of_map_to_list|by apply dv_list_at in Hx].
Qed.

(** ** Segments *)
Lemma check_run s ft pin a bs e pout fuel lastq z : lay (heads_of_space m) ft pin a bs e pout -> (length bs < fuel)%nat -> (forall x, a <= x < e -> segment_holds s x = true /\ x <> top m) -> placed a bs ⊆ all_placed L -> (e = top m \/ tc_head (heads_of_space m e) = FENCEPOST_HEAD) ->
  (pin = true -> lastq = 0 \/ exists c, read m lastq = Some c /\ is_inuse c = true) -> check_segment fuel P m s a lastq (u64 z) = Some (u64 (z + total bs)).
Proof using Type*.
  revert pin a fuel lastq z. induction bs as [|[k sz] bs IH]; intros pin a fuel lastq z HL Hf Hs Hp He Hq; (destruct fuel as [|fuel]; [cbn in Hf; lia|]); cbn [check_segment].
  - destruct HL as [-> _]. cbn [total]. rewrite Z.add_0_r. destruct (segment_holds s e && negb (e =? top m)) eqn:E; [|done]. apply andb_true_iff in E as [_ E%negb_true_iff%Z.eqb_neq]. destruct He as [?|He]; [done|].
    unfold heads_of_space, heads in He. rewrite lookup_total_alt in He. unfold read. destruct (chunks (core m) !! e) as [c|]; [|discriminate]. cbn in *. by rewrite He.
  - assert (Hin : (a, k, sz) ∈ all_placed L) by (apply Hp; cbn; by left). destruct HL as ((Hh & H8 & H32) & Hk & HL). destruct (lay_end _ _ _ _ _ _ _ HL) as (Ee & H0 & _). destruct (Hs a ltac:(lia)) as [-> Hne]. rewrite (proj2 (Z.eqb_neq _ _) Hne). cbn [andb negb].
    destruct (block_seen a k sz Hin) as (c & n & q & V). assert (Ec : heads_of_space m a = c) by (unfold heads_of_space, heads; rewrite lookup_total_alt; pose proof (bv_read _ _ _ _ _ _ V) as Er; unfold read in Er; by rewrite Er). rewrite Ec in Hh. destruct (head_flags _ _ _ _ Hh H8) as (Ez & _ & _ & Eu & _).
    assert (Hfp : (tc_head c =? FENCEPOST_HEAD) = false) by (apply Z.eqb_neq; rewrite Hh; unfold head_word; change FENCEPOST_HEAD with 11; destruct pin, k; cbn; lia). assert (Eu' : is_inuse c = in_use k) by (rewrite Eu; destruct k; cbn; [by rewrite andb_false_r|by rewrite andb_false_r|by destruct Hk as [-> _]]).
    rewrite (bv_read _ _ _ _ _ _ V). cbn [mbind option_bind]. rewrite Hfp, Ez, Eu', uwrap_add_l64, (block_found a k sz Hin). cbn [mbind option_bind].
    assert (Hrest : check_segment fuel P m s (a + sz) a (u64 (z + sz)) = Some (u64 (z + total ((k, sz) :: bs)))).
    { cbn [total]. rewrite Z.add_assoc. apply (IH (in_use k)); [done|cbn in Hf; lia|intros x Hx; apply Hs; lia|intros y Hy; apply Hp; cbn; by right|done|]. intros Hk'. right. exists c. split; [apply V|by rewrite Eu']. }
    destruct (in_use k) eqn:Ek; cbn [negb andb assert_ mbind option_bind]; [by rewrite (inuse_passes a k sz Hin Ek)|]. assert (k = KFree) as -> by (by destruct k). rewrite (free_passes a sz Hin). destruct Hk as [-> _].
    assert (Ef : (if a =? dv m then Some tt else assert_ (negb (a =? dv m))) = Some tt) by (by destruct (a =? dv m)). rewrite Ef. cbn [mbind option_bind].
    assert (El : (if lastq =? 0 then Some tt else l ← read m lastq; assert_ (is_inuse l)) = Some tt) by (destruct (Hq eq_refl) as [->|(c0 & -> & E)]; [done|]; cbn [mbind option_bind]; rewrite E; by destruct (lastq =? 0)). by rewrite El.
Qed.

Lemma segments_pass rs L' z : L' ⊆ L -> Forall2 (fun r sg => seg_matches r sg /\ seg_ok m sg /\ (forall x, sl_start sg <= x < sl_end sg -> x <> top m)) rs L' -> check_segments P m rs (u64 z) = Some (u64 (z + total (space_blocks L'))).
Proof using Type*.
  revert L' z. induction rs as [|r rs IH]; intros L' z Hsub HS; [apply Forall2_nil_inv_l in HS as ->; cbn; by rewrite Z.add_0_r|]. apply Forall2_cons_inv_l in HS as (sg & L1 & (HM & S & Ht) & HS & ->). cbn [check_segments].
  destruct (so_start _ _ S) as (H8 & _). destruct (lay_end _ _ _ _ _ _ _ (so_lay _ _ S)) as (Ee & H0 & _). pose proof (lay_length _ _ _ _ _ _ _ (so_lay _ _ S)) as Hl. pose proof (so_limit _ _ S). destruct HM as [M1 M2 _ _].
  replace (align_as_chunk (seg_base r)) with (sl_start sg) by (unfold align_as_chunk, chunk2mem; rewrite align_offset_eq, M1; clear -H8; Z.div_mod_to_equations; lia). assert (Hsg : sg ∈ L) by (apply Hsub; by left).
  destruct (segment_start m L Ms Mt _ sg O Hsg) as [Hr Hpin]. unfold pinned in Hpin. rewrite (read_heads _ Hr). cbn [mbind option_bind]. rewrite Hpin. cbn [assert_ mbind option_bind].
  assert (Hlen : Z.of_nat (length (sl_blocks sg)) <= seg_size r / 32) by (apply Z.div_le_lower_bound; lia). rewrite (check_run r (footer m) true (sl_start sg) (sl_blocks sg) (sl_end sg) true); [|apply S|lia| | | |by left].
  - cbn [mbind option_bind]. rewrite (IH L1); [|intros x Hx; apply Hsub; by right|done]. change (space_blocks (sg :: L1)) with (sl_blocks sg ++ space_blocks L1). by rewrite total_app, Z.add_assoc.
  - intros x Hx. split; [|by apply Ht]. unfold segment_holds. apply andb_true_iff. split; [apply Z.leb_le|apply Z.ltb_lt]; lia.
  - intros y Hy. apply list_elem_of_lookup in Hsg as [i Hi]. apply in_placed. by exists i, sg.
  - pose proof (so_end _ _ S) as He. destruct (sl_top sg); [left|right]; apply He.
Qed.
(** ** The top chunk and the designated victim *)
Lemma outside_top x k s : (x, k, s) ∈ all_placed L -> ~ x <= top m < x + s.
Proof using Type*.
  intros (i & sg & Hi & Hx)%in_placed Ht. pose proof (segments_seen m L Ms Mt _ O) as HS. apply Forall2_flip in HS. destruct (Forall2_lookup_l _ _ _ _ _ HS Hi) as (r & _ & (_ & S & Hne)). pose proof (seg_bounds _ _ _ _ _ S Hx). apply (Hne (top m)); [lia|done].
Qed.

Lemma top_passes : do_check_top_chunk m (top m) = Some tt.
Proof using Type*.
  destruct (first_segment m L Ms Mt _ O) as (s & rs & sg & L1 & Es & EL & [M1 M2 _ _] & S & Ee & Elim & Hh & _). destruct (top_seg m L Ms Mt _ O) as (i & sg' & Hi & Htop & S' & _ & Ht8 & Ht0 & Hta & _ & _ & Hhd & D). destruct (so_foot _ _ S' Htop) as [Hfoot Df].
  unfold do_check_top_chunk. rewrite (holding_top m s rs Es Hh). cbn [mbind option_bind]. rewrite (read_heads _ D). cbn [mbind option_bind]. rewrite Hhd.
  assert (Ez : Z.land (topsize m + 1) (Z.lnot INUSE_BITS) = topsize m) by (change INUSE_BITS with (Z.ones 2); rewrite <- Z.ldiff_land, Z.ldiff_ones_r, Z.shiftl_mul_pow2, Z.shiftr_div_pow2 by lia; change (2 ^ 2) with 4; clear -Ht8; Z.div_mod_to_equations; lia). rewrite Ez.
  destruct (so_start _ _ S) as (_ & _ & Hl). destruct (lay_end _ _ _ _ _ _ _ (so_lay _ _ S)) as (? & ? & _). rewrite any_passes by (done || lia). cbn [mbind option_bind]. rewrite Z.eqb_refl, (proj2 (Z.ltb_lt _ _) Ht0). cbn [assert_ mbind option_bind]. change TOP_FOOT_SIZE with 80. rewrite (proj2 (Z.eqb_eq (topsize m) _)) by lia. cbn [assert_ mbind option_bind].
  assert (Ehd : tc_head (heads_of_space m (top m)) = head_word KFree (topsize m) true) by (by rewrite Hhd). destruct (head_flags _ _ _ _ Ehd Ht8) as (_ & -> & _). cbn [assert_ mbind option_bind]. rewrite (read_heads _ Df). cbn [mbind option_bind]. by rewrite Hfoot.
Qed.

Lemma top_not_found : bin_find m (top m) = Some false.
Proof using Type*.
  destruct (top_seg m L Ms Mt _ O) as (i & sg & Hi & Htop & S & Ee & Ht8 & Ht0 & Hta & Hst & Elim & Hhd & D). assert (Ehd : tc_head (heads_of_space m (top m)) = head_word KFree (topsize m) true) by (by rewrite Hhd). destruct (head_flags _ _ _ _ Ehd Ht8) as (Es & _). pose proof (so_size _ _ S).
  rewrite (bin_find_ok (top m) (topsize m) _ (read_heads _ D) Es Ht8 ltac:(lia)).
  - rewrite bool_decide_false; [done|]. intros Hin. assert (Hp : (top m, KFree, topsize m) ∈ all_placed L) by (apply (free_placed m L Ms Mt _ O); rewrite !elem_of_app; destruct Hin as [H'|H']; [left|right; left]; by apply elem_of_map_to_list). apply (outside_top _ _ _ Hp). lia.
  - intros j Hj E. pose proof (hdr_range m j Hj). apply (outside_top _ _ _ (ok_hdr _ _ _ _ _ O)). lia.
Qed.

Lemma dv_passes : dvsize m <> 0 -> do_check_any_chunk m (dv m) = Some tt /\ read m (dv m) = Some (heads_of_space m (dv m)) /\ chunksize (heads_of_space m (dv m)) = dvsize m /\ 32 <= dvsize m /\ bin_find m (dv m) = Some false.
Proof using Type*.
  intros Hne. assert (Hp : (dv m, KFree, dvsize m) ∈ all_placed L) by (apply (free_placed m L Ms Mt _ O); rewrite !elem_of_app; right; right; unfold dv_list; rewrite (proj2 (Z.eqb_neq _ _) Hne); by left).
  destruct (space_block m L Ms Mt _ _ _ _ O Hp) as (Hs & _ & H8 & (D & Hok & _) & Es). unfold ok_address in Hok. split; [apply any_passes; [done|lia]|]. split; [by apply read_heads|]. split; [done|]. split; [lia|]. rewrite (block_found _ _ _ Hp), Z.eqb_refl. done.
Qed.

(** ** The whole check *)
Lemma check_all_ok check n : (forall i, (i < n)%nat -> check (Z.of_nat i) = Some tt) -> check_all check (seqZ 0 (Z.of_nat n)) = Some tt.
Proof using Type.
  intros H. assert (HF : Forall (fun i => check i = Some tt) (seqZ 0 (Z.of_nat n))) by (apply Forall_forall; intros i Hi; apply elem_of_seqZ in Hi; replace i with (Z.of_nat (Z.to_nat i)) by lia; apply H; lia). induction HF as [|i l E _ IH]; [done|]. cbn. by rewrite E.
Qed.

(** The chunks, the top chunk and its foot are in the memory of the segments. *)
Lemma chunks_within : accounted m -> 0 <= topsize m + TOP_FOOT_SIZE + total (space_blocks L) <= footprint m.
Proof using Type*.
  intros [Ef _]. destruct (owned_range m L Ms Mt _ O) as (Hown & _ & Hdir). rewrite uwrap_id in Ef by (unfold in_u; assert (0 <= sizes (direct m)) by (destruct (direct m) as [|d ds]; [cbn; lia|]; destruct (Hdir d ltac:(by left)); lia); lia).
  assert (Hd0 : 0 <= sizes (direct m)) by (destruct (direct m) as [|d ds]; [cbn; lia|]; destruct (Hdir d ltac:(by left)); lia). rewrite Ef. unfold owned_bytes. destruct (first_segment m L Ms Mt _ O) as (s & rs & sg & L1 & Es & EL & [M1 M2 _ _] & S & Ee & Elim & _).
  pose proof (segments_seen m L Ms Mt _ O) as HS. rewrite Es, EL in HS. apply Forall2_cons in HS as [_ HS]. assert (Hrest : 0 <= total (space_blocks L1) <= zsum (seg_size <$> rs)).
  { clear -HS. induction HS as [|r sg rs L1 ([M1 M2 _ _] & S & _) _ IH]; [cbn; lia|]. change (space_blocks (sg :: L1)) with (sl_blocks sg ++ space_blocks L1). rewrite total_app, fmap_cons, zsum_cons. destruct (lay_end _ _ _ _ _ _ _ (so_lay _ _ S)) as (? & ? & _). pose proof (so_limit _ _ S). lia. }
  rewrite EL, Es. change (space_blocks (sg :: L1)) with (sl_blocks sg ++ space_blocks L1). rewrite total_app, fmap_cons, zsum_cons. change TOP_FOOT_SIZE with 80. destruct (lay_end _ _ _ _ _ _ _ (so_lay _ _ S)) as (? & ? & _). destruct (top_seg m L Ms Mt _ O) as (_ & _ & _ & _ & _ & _ & _ & ? & _). lia.
Qed.

Lemma malloc_state_passes : accounted m -> do_check_malloc_state P m = Some tt.
Proof using Type*.
  intros HA. unfold do_check_malloc_state. change (seqZ 0 NSMALLBINS) with (seqZ 0 (Z.of_nat 32)). change (seqZ 0 NTREEBINS) with (seqZ 0 (Z.of_nat 32)). rewrite (check_all_ok (do_check_smallbin P m) 32 smallbin_passes), (check_all_ok (do_check_treebin m) 32 treebin_passes). cbn [mbind option_bind].
  assert (Hdv : (if negb (dvsize m =? 0) then _ ← do_check_any_chunk m (dv m); c ← read m (dv m); _ ← assert_ (dvsize m =? chunksize c); _ ← assert_ (MIN_CHUNK_SIZE <=? dvsize m); found ← bin_find m (dv m); assert_ (negb found) else Some tt) = Some tt).
  { destruct (Z.eqb_spec (dvsize m) 0) as [|Hne]; [done|]. destruct (dv_passes Hne) as (-> & -> & Es & Hs & ->). cbn [negb mbind option_bind]. rewrite Es, Z.eqb_refl. change MIN_CHUNK_SIZE with 32. by rewrite (proj2 (Z.leb_le _ _) Hs). }
  rewrite Hdv. cbn [mbind option_bind]. destruct (top_seg m L Ms Mt _ O) as (i & sg & Hi & _ & S & Ee & _ & Ht0 & _ & Hst & _). destruct (so_start _ _ S) as (_ & Hs0 & _). unfold traverse_and_check. rewrite (proj2 (Z.eqb_neq (top m) 0)) by lia. cbn [negb]. rewrite top_passes, top_not_found, (proj2 (Z.ltb_lt _ _) Ht0). cbn [assert_ negb mbind option_bind].
  rewrite (segments_pass (segs m) L (topsize m + TOP_FOOT_SIZE) ltac:(done) (segments_seen m L Ms Mt _ O)). cbn [mbind option_bind]. pose proof (chunks_within HA) as Hw. destruct HA as [Ef Hmax]. assert (Hu : in_u 64 (footprint m)) by (rewrite Ef; apply uwrap_range; lia). destruct Hu.
  rewrite uwrap_id by (unfold in_u; lia). by rewrite (proj2 (Z.leb_le _ (footprint m))), (proj2 (Z.leb_le (footprint m) _)) by lia.
Qed.
End Checked.

(** ** What the checks of a debug build find *)
Lemma direct_mapped m L Ms Mt p sz : space_inv m L Ms Mt -> (p, sz) ∈ direct_chunks m -> is_mmapped (heads_of_space m p) = true.
Proof.
  intros HI (r & E & Hr)%list_elem_of_fmap. injection E as -> ->. pose proof (proj1 (Forall_forall _ _) (ok_direct _ _ _ _ _ (proj1 HI)) r Hr) as D. destruct (do_tags _ _ D) as [Ht _]. destruct (do_size _ _ D) as [H8 _]. injection Ht as _ Hh.
  assert (Hhd : tc_head (heads_of_space m r.1) = head_word KFree (r.2 - r.1 - 32) false) by (rewrite Hh; unfold head_word; cbn; lia). destruct (head_flags _ _ _ _ Hhd) as (_ & _ & _ & _ & -> & _); [clear -H8; Z.div_mod_to_equations; lia|done].
Qed.

(** A block that a client holds, in memory of a segment. *)
Lemma held_passes P m V mem bytes : backed m V -> V !! mem = Some bytes -> is_mmapped (heads_of_space m (mem2chunk mem)) = false -> do_check_inuse_chunk P m (mem2chunk mem) = Some tt.
Proof.
  intros (L & Ms & Mt & HI & HV & _) Hm Hmap. destruct (HV mem bytes Hm) as (_ & sz & Hh & _). unfold held in Hh. apply elem_of_app in Hh as [Hu|Hd]; [|by rewrite (direct_mapped m L Ms Mt _ sz HI Hd) in Hmap].
  unfold used in Hu. apply of_kind_in in Hu. by apply (inuse_passes P m L Ms Mt HI _ KUsed sz).
Qed.

(** A block that was just handed out, in memory of a segment. *)
Lemma new_block_passes P m V bytes dm mp m' mem : params_ok P -> backed m V -> in_u 64 bytes -> malloc_answers P bytes m dm mp -> mspace_malloc P bytes dm mp m = Some (m', mem) -> mem <> 0 -> is_mmapped (heads_of_space m' (mem2chunk mem)) = false ->
  do_check_malloced_chunk P m' mem (needed bytes) = Some tt.
Proof.
  intros HP (L & Ms & Mt & HI & _) Hb (Hdm & Hmp) E Hne Hmap. destruct (needed_padded bytes Hb) as [[H32 _] _]. destruct (mspace_malloc_ok P bytes dm mp m L Ms Mt HP HI Hb Hdm Hmp) as [(E1 & _)|(m1 & p & sz & L1 & Ms1 & Mt1 & E1 & Hp & [Hsz Hle] & HI1 & HH)]; rewrite E in E1; [by injection E1 as _ ->|]. injection E1 as -> ->.
  replace (mem2chunk (chunk2mem p)) with p in Hmap by (unfold mem2chunk, chunk2mem; lia). assert (Hin : (p, sz) ∈ held m1 L1) by (rewrite HH; by left). unfold held in Hin. apply elem_of_app in Hin as [Hu|Hd]; [|by rewrite (direct_mapped m1 L1 Ms1 Mt1 p sz HI1 Hd) in Hmap].
  destruct Hle as [Hle|Hd]; [apply of_kind_in in Hu; apply (malloced_passes P m1 L1 Ms1 Mt1 HI1 p sz); [done|lia|lia]|]. assert (Hd' : (p, sz) ∈ direct_chunks m1) by (apply list_elem_of_fmap; exists (p, p + sz + 32); split; [f_equal; cbn; lia|done]). by rewrite (direct_mapped m1 L1 Ms1 Mt1 p sz HI1 Hd') in Hmap.
Qed.



(** A chunk with memory of its own passes its test until large chunks are to be tracked: then the assertion
    [use_mmap(m)] fails for it, in [mspace_free] too, though the chunk is as it was. *)
Lemma tracked_mapped_chunk_fails : exists m, mspace_malloc HeapExample.P 300000 (Some 0x300000) None HeapExample.m0 = Some (m, 0x300010) /\
  do_check_inuse_chunk HeapExample.P m 0x300000 = Some tt /\ do_check_inuse_chunk HeapExample.P (mspace_track_large_chunks true m).1 0x300000 = None.
Proof. eexists. split; [vm_compute; reflexivity|]. split; vm_compute; reflexivity. Qed.
