(* ===== verification/NedCache.v ===== *)
(** The thread caches of the allocator that messages and buffers come from:
    source/memory/nedmalloc.cpp.

    A cache keeps freed blocks of up to 8 KiB in ten lists, one for each power of
    two from 16 bytes. The lists are doubly linked through the blocks themselves, so
    the model has a heap of block headers ([Heap], by address, the address zero
    being the null pointer) and a cache with the twenty pointers to the ends of its
    lists. [None] is a failed assertion, an [abort], or the use of a pointer that is
    no header of a cached block. *)
From Stdlib Require Import Sorting.Sorted.
From stdpp Require Import gmap.
From S2P Require Import Prelude DlBins.
Local Open Scope Z_scope.

(** ** Constants *)
Definition THREADCACHEMAX : Z := 8192.
Definition THREADCACHEMAXBINS : Z := 13 - 4.
Definition THREADCACHEMAXFREESPACE : Z := 512 * 1024.
Definition THREADCACHEMAXCACHES : nat := 256.
Definition MAXTHREADSINPOOL : Z := 16.
Definition sizeof_threadcacheblk : Z := 32.

(** ** [size2binidx] *)

(** The branch for GCC: [__builtin_clz] counts the leading zeros of a 32-bit number
    that is not zero. *)
Definition builtin_clz (x : Z) : option Z := if x =? 0 then None else Some (31 - Z.log2 x).
Definition size2binidx (_size : Z) : option Z :=
  let size := u32 (Z.shiftr _size 4) in
  c ← builtin_clz size; Some (32 - 1 - c).

(** The portable branch: smear the top bit downwards and count the zeros. *)
Definition smear (x : Z) : Z :=
  let x := Z.lor x (Z.shiftr x 1) in
  let x := Z.lor x (Z.shiftr x 2) in
  let x := Z.lor x (Z.shiftr x 4) in
  let x := Z.lor x (Z.shiftr x 8) in
  Z.lor x (Z.shiftr x 16).
Definition count_zeros (x : Z) : Z :=
  let x := u32 (Z.lnot x) in
  let x := u32 (x - Z.land (Z.shiftr x 1) 0x55555555) in
  let x := u32 (Z.land x 0x33333333 + Z.land (Z.shiftr x 2) 0x33333333) in
  let x := Z.land (u32 (x + Z.shiftr x 4)) 0x0F0F0F0F in
  let x := u32 (x + Z.shiftl x 8) in
  let x := u32 (x + Z.shiftl x 16) in
  Z.shiftr x 24.
Definition size2binidx_portable (_size : Z) : Z :=
  let size := u32 (Z.shiftr _size 4) in
  u32 (31 - count_zeros (smear size)).

(** * Lemmas *)

(** The [n] bits from bit [k] downwards are set, and none above. *)
Definition top_bits (k n y : Z) : Prop :=
  forall i, 0 <= i -> (k - n < i <= k -> Z.testbit y i = true) /\ (k < i -> Z.testbit y i = false).

Lemma top_bits_step k n y : 0 <= n -> top_bits k n y -> top_bits k (n + n) (Z.lor y (Z.shiftr y n)).
Proof.
  intros Hn Hy i Hi. rewrite Z.lor_spec, Z.shiftr_spec by lia. split; intros H.
  - destruct (Z.ltb_spec (k - n) i).
    + by rewrite (proj1 (Hy i Hi)) by lia.
    + by rewrite (proj1 (Hy (i + n) ltac:(lia))), orb_true_r by lia.
  - by rewrite (proj2 (Hy i Hi)), (proj2 (Hy (i + n) ltac:(lia))) by lia.
Qed.

Lemma smear_spec x : 0 < x < 2 ^ 32 -> smear x = Z.ones (Z.log2 x + 1).
Proof.
  intros Hx. set (k := Z.log2 x). assert (Hk : 0 <= k < 32) by (split; [apply Z.log2_nonneg|apply Z.log2_lt_pow2; lia]).
  assert (H0 : top_bits k 1 x).
  { intros i Hi. split; intros H; [replace i with k by lia; apply Z.bit_log2; lia|apply Z.bits_above_log2; unfold k in *; lia]. }
  assert (H : top_bits k 32 (smear x)).
  { unfold smear. do 5 apply (top_bits_step k) in H0; try lia. exact H0. }
  apply Z.bits_inj'. intros i Hi. destruct (Z.ltb_spec k i).
  - by rewrite (proj2 (H i Hi)), Z.ones_spec_high by lia.
  - by rewrite (proj1 (H i Hi)), Z.ones_spec_low by lia.
Qed.

Lemma count_zeros_ones k : 0 <= k < 32 -> count_zeros (Z.ones (k + 1)) = 31 - k.
Proof.
  intros Hk. assert (E : forallb (fun k => count_zeros (Z.ones (Z.of_nat k + 1)) =? 31 - Z.of_nat k) (seq 0 32) = true)
    by (vm_compute; reflexivity).
  rewrite forallb_forall in E. specialize (E (Z.to_nat k)). rewrite Z2Nat.id in E by lia.
  apply Z.eqb_eq, E, in_seq. lia.
Qed.

Lemma size2binidx_spec size :
  16 <= size < 2 ^ 36 -> size2binidx size = Some (Z.log2 (size / 16)).
Proof.
  intros Hs. unfold size2binidx. rewrite Z.shiftr_div_pow2 by lia. change (2 ^ 4) with 16.
  rewrite uwrap_id by (unfold in_u; div_lia). unfold builtin_clz.
  destruct (Z.eqb_spec (size / 16) 0); [div_lia|]. cbn. f_equal. lia.
Qed.

(** C33. The three branches of [size2binidx] agree: for sizes from 16 bytes, the
    count of zeros behind the smeared top bit gives the same bin as
    [__builtin_clz], the position of the top bit above bit four; the size lies
    between the power of two of its bin and the next. *)
Theorem size2binidx_branches_agree (size : Z) :
  16 <= size < 2 ^ 36 ->
  exists idx, size2binidx size = Some idx /\ size2binidx_portable size = idx /\
    0 <= idx < 32 /\ 2 ^ (idx + 4) <= size < 2 ^ (idx + 5).
Proof.
  intros Hs. exists (Z.log2 (size / 16)). rewrite size2binidx_spec by done.
  assert (Hx : 0 < size / 16 < 2 ^ 32) by div_lia.
  assert (Hk : 0 <= Z.log2 (size / 16) < 32) by (split; [apply Z.log2_nonneg|apply Z.log2_lt_pow2; lia]).
  split_and!; [done| |lia|lia| |].
  - unfold size2binidx_portable. rewrite Z.shiftr_div_pow2 by lia. change (2 ^ 4) with 16.
    rewrite (uwrap_id 32 (size / 16)) by (unfold in_u; lia). rewrite smear_spec, count_zeros_ones by done.
    rewrite uwrap_id by (unfold in_u; lia). lia.
  - pose proof (Z.log2_spec (size / 16) ltac:(lia)) as [Hl _]. rewrite Z.pow_add_r by lia. change (2 ^ 4) with 16. div_lia.
  - pose proof (Z.log2_spec (size / 16) ltac:(lia)) as [_ Hl].
    replace (Z.log2 (size / 16) + 5) with (Z.succ (Z.log2 (size / 16)) + 4) by lia. rewrite Z.pow_add_r by lia.
    change (2 ^ 4) with 16. div_lia.
Qed.

(** Witness of C33. *)
Lemma size2binidx_branches_agree_witness :
  exists idx, size2binidx 1000 = Some idx /\ size2binidx_portable 1000 = idx /\
    0 <= idx < 32 /\ 2 ^ (idx + 4) <= 1000 < 2 ^ (idx + 5).
Proof. apply (size2binidx_branches_agree 1000). lia. Defined.

(** ** Thread caches *)
Record threadcacheblk : Set := mkBlk {
  isforeign : bool;
  lastUsed : Z;
  blk_size : Z;
  next : Z;
  prev : Z
}.
Record threadcache : Set := mkCache {
  mymspace : Z;
  threadid : Z;
  mallocs : Z;
  frees : Z;
  successes : Z;
  freeInCache : Z;
  bins : list Z
}.
Abbreviation Heap := (gmap Z threadcacheblk).

Definition set_next (a n : Z) (h : Heap) : option Heap :=
  b ← h !! a; Some (<[a := mkBlk (isforeign b) (lastUsed b) (blk_size b) n (prev b)]> h).
Definition set_prev (a p : Z) (h : Heap) : option Heap :=
  b ← h !! a; Some (<[a := mkBlk (isforeign b) (lastUsed b) (blk_size b) (next b) p]> h).
Definition set_bin (i : Z) (a : Z) (tc : threadcache) : threadcache :=
  mkCache (mymspace tc) (threadid tc) (mallocs tc) (frees tc) (successes tc) (freeInCache tc) (<[Z.to_nat i := a]> (bins tc)).
Definition set_free (f : Z) (tc : threadcache) : threadcache :=
  mkCache (mymspace tc) (threadid tc) (mallocs tc) (frees tc) (successes tc) f (bins tc).
Definition bin (i : Z) (tc : threadcache) : option Z := bins tc !! Z.to_nat i.

Section Cache.
(** The usable size of a block. *)
Context (nedblksize : Z -> Z).

(** The part of [threadcache_malloc] that takes the block [blk] (unless it is zero)
    off the front of bin [idx], and counts. *)
Definition take_block (size idx blk : Z) (tc : threadcache) (h : Heap) : option (Z * Z * threadcache * Heap) :=
  if blk =? 0 then
    Some (0, size, mkCache (mymspace tc) (threadid tc) (u32 (mallocs tc + 1)) (frees tc) (successes tc) (freeInCache tc) (bins tc), h)
  else
    b ← h !! blk;
    let blksize := blk_size b in
    guard_ ((blksize <=? nedblksize blk) && (size <=? blksize)) (
    h ← (if next b =? 0 then Some h else set_prev (next b) 0 h);
    let tc := set_bin (idx * 2) (next b) tc in
    let tc := if next b =? 0 then set_bin (idx * 2 + 1) 0 tc else tc in
    tl ← bin (idx * 2 + 1) tc;
    guard_ (negb (next b =? blk) && negb (tl =? blk)) (
    guard_ ((sizeof_threadcacheblk <=? nedblksize blk) && (nedblksize blk <=? THREADCACHEMAX + CHUNK_OVERHEAD)) (
    let f := u64 (freeInCache tc - blksize) in
    guard_ (0 <=? swrap 64 f)
      (Some (blk, size, mkCache (mymspace tc) (threadid tc) (u32 (mallocs tc + 1)) (frees tc) (u32 (successes tc + 1)) f (bins tc),
             delete blk h))))).

(** [threadcache_malloc]: the block (or zero) and the size as it is rounded. *)
Definition threadcache_malloc (size : Z) (tc : threadcache) (h : Heap) : option (Z * Z * threadcache * Heap) :=
  idx ← size2binidx size;
  let bestsize := u32 (Z.shiftl 1 (idx + 4)) in
  let '(idx, bestsize) := if bestsize <? size then (idx + 1, u32 (Z.shiftl bestsize 1)) else (idx, bestsize) in
  guard_ (size <=? bestsize) (
  let size := if size <? bestsize then bestsize else size in
  guard_ (size <=? THREADCACHEMAX) (
  guard_ (idx <=? THREADCACHEMAXBINS) (
  blk ← bin (idx * 2) tc;
  smaller ← (if blk =? 0 then Some true else b ← h !! blk; Some (blk_size b <? size));
  '(idx, blk) ← (if (smaller : bool) && (idx <? THREADCACHEMAXBINS)
                 then blk ← bin ((idx + 1) * 2) tc; Some (idx + 1, blk) else Some (idx, blk));
  take_block size idx blk tc h))).

(** The body of the inner loop of [RemoveCacheEntries]: takes the last block [f] off
    bin [n]. *)
Definition unlink_last (n f : Z) (b : threadcacheblk) (tc : threadcache) (h : Heap) : option (threadcache * Heap) :=
  let blksize := blk_size b in
  guard_ ((blksize <=? nedblksize f) && negb (blksize =? 0)) (
  let tc := set_bin (n * 2 + 1) (prev b) tc in
  '(tc, h) ← (if prev b =? 0 then Some (set_bin (n * 2) 0 tc, h) else h ← set_next (prev b) 0 h; Some (tc, h));
  let tc := set_free (u64 (freeInCache tc - blksize)) tc in
  guard_ (0 <=? swrap 64 (freeInCache tc)) (Some (tc, delete f h))).

(** The inner loop of [RemoveCacheEntries] on bin [n]; [freed] are the calls of
    [CallFree]. *)
Fixpoint remove_loop (fuel : nat) (n age : Z) (tc : threadcache) (h : Heap) (freed : list (Z * bool))
    : option (threadcache * Heap * list (Z * bool)) :=
  f ← bin (n * 2 + 1) tc;
  if f =? 0 then Some (tc, h, freed)
  else
    b ← h !! f;
    if age <=? u32 (frees tc - lastUsed b) then
      match fuel with
      | O => None
      | S fuel =>
          '(tc, h) ← unlink_last n f b tc h;
          remove_loop fuel n age tc h (freed ++ [(f, isforeign b)])
      end
    else Some (tc, h, freed).

Fixpoint remove_bins (ns : list Z) (age : Z) (tc : threadcache) (h : Heap) (freed : list (Z * bool))
    : option (threadcache * Heap * list (Z * bool)) :=
  match ns with
  | [] => Some (tc, h, freed)
  | n :: ns => '(tc, h, freed) ← remove_loop (size h) n age tc h freed; remove_bins ns age tc h freed
  end.

(** [RemoveCacheEntries]. *)
Definition RemoveCacheEntries (age : Z) (tc : threadcache) (h : Heap) : option (threadcache * Heap * list (Z * bool)) :=
  if freeInCache tc =? 0 then Some (tc, h, [])
  else remove_bins (seqZ 0 (THREADCACHEMAXBINS + 1)) age tc h [].

(** [ReleaseFreeInCache]: the age starts at 64 and is halved, so seven rounds are
    enough. *)
Fixpoint release_loop (fuel : nat) (age : Z) (tc : threadcache) (h : Heap) (freed : list (Z * bool))
    : option (threadcache * Heap * list (Z * bool)) :=
  if negb (age =? 0) && (THREADCACHEMAXFREESPACE <=? freeInCache tc) then
    match fuel with
    | O => None
    | S fuel =>
        '(tc, h, f) ← RemoveCacheEntries age tc h;
        release_loop fuel (Z.shiftr age 1) tc h (freed ++ f)
    end
  else Some (tc, h, freed).
Definition ReleaseFreeInCache (tc : threadcache) (h : Heap) : option (threadcache * Heap * list (Z * bool)) :=
  release_loop 7 (THREADCACHEMAXFREESPACE / 8192) tc h [].

(** The part of [threadcache_free] that puts [mem] at the front of bin [idx], whose
    first block is [first]. *)
Definition link_block (mem size idx first : Z) (foreign : bool) (tc : threadcache) (h : Heap) : option (threadcache * Heap) :=
  let tc := mkCache (mymspace tc) (threadid tc) (mallocs tc) (u32 (frees tc + 1)) (successes tc) (freeInCache tc) (bins tc) in
  let h := <[mem := mkBlk foreign (frees tc) (u32 size) first 0]> h in
  '(tc, h) ← (if first =? 0 then Some (set_bin (idx * 2 + 1) mem tc, h) else h ← set_prev first mem h; Some (tc, h));
  same ← (if first =? 0 then Some true else b ← h !! first; Some (blk_size b =? u32 size));
  guard_ same (
  let tc := set_bin (idx * 2) mem tc in
  Some (set_free (u64 (freeInCache tc + size)) tc, h)).

(** [threadcache_free]. *)
Definition threadcache_free (mem size : Z) (foreign : bool) (tc : threadcache) (h : Heap)
    : option (threadcache * Heap * list (Z * bool)) :=
  idx ← size2binidx size;
  guard_ ((sizeof_threadcacheblk <=? size) && (size <=? THREADCACHEMAX + CHUNK_OVERHEAD)) (
  let bestsize := u32 (Z.shiftl 1 (idx + 4)) in
  let size := if negb (bestsize =? size) then bestsize else size in
  guard_ (idx <=? THREADCACHEMAXBINS) (
  first ← bin (idx * 2) tc;
  if mem =? first then None
  else
    '(tc, h) ← link_block mem size idx first foreign tc h;
    if THREADCACHEMAXFREESPACE <=? freeInCache tc then ReleaseFreeInCache tc h else Some (tc, h, []))).
End Cache.

(** * The contents of a cache *)

(** A cached block; its size is the size of its bin. *)
Record ablk : Set := mkABlk { b_addr : Z; b_foreign : bool; b_last : Z }.
Definition bin_size (n : nat) : Z := 2 ^ (Z.of_nat n + 4).
Definition hd_addr (l : list ablk) : Z := match l with [] => 0 | b :: _ => b_addr b end.
Definition last_addr (l : list ablk) : Z := match last l with None => 0 | Some b => b_addr b end.

(** A doubly linked list of headers of size [s]; [p] is in front of it. *)
Fixpoint dll (h : Heap) (s p : Z) (l : list ablk) : Prop :=
  match l with
  | [] => True
  | b :: l =>
      h !! b_addr b = Some (mkBlk (b_foreign b) (b_last b) s (hd_addr l) p) /\ b_addr b <> 0 /\ dll h s (b_addr b) l
  end.

Lemma dll_frame h h' s p l :
  (forall b, b ∈ l -> h' !! b_addr b = h !! b_addr b) -> dll h s p l -> dll h' s p l.
Proof.
  revert p. induction l as [|b l IH]; intros p Hf; [done|]. cbn. intros (H1 & H2 & H3).
  rewrite Hf by left. split_and!; [done|done|]. apply IH; [|done]. intros. apply Hf. by right.
Qed.

Lemma dll_elem h s p l b : dll h s p l -> b ∈ l -> b_addr b <> 0 /\ exists n q, h !! b_addr b = Some (mkBlk (b_foreign b) (b_last b) s n q).
Proof.
  revert p. induction l as [|c l IH]; intros p; [by intros _ ?%elem_of_nil|]. cbn. intros (H1 & H2 & H3) [->|Hb]%elem_of_cons; eauto.
Qed.

(** Where the header of a block is not, a change there is not seen. *)
Lemma dll_insert_outside h s p l a x : a ∉ b_addr <$> l -> dll h s p l -> dll (<[a := x]> h) s p l.
Proof.
  intros Ha. apply dll_frame. intros b Hb. rewrite lookup_insert_ne; [done|].
  intros ->. apply Ha, list_elem_of_fmap. eauto.
Qed.
Lemma dll_delete_outside h s p l a : a ∉ b_addr <$> l -> dll h s p l -> dll (delete a h) s p l.
Proof.
  intros Ha. apply dll_frame. intros b Hb. rewrite lookup_delete_ne; [done|].
  intros ->. apply Ha, list_elem_of_fmap. eauto.
Qed.

(** The first block gets another block in front. *)
Lemma dll_set_prev h s p q l :
  NoDup (b_addr <$> l) -> dll h s p l ->
  exists h', (if hd_addr l =? 0 then Some h else set_prev (hd_addr l) q h) = Some h' /\ dll h' s q l /\
    (forall a, a <> hd_addr l -> h' !! a = h !! a).
Proof.
  destruct l as [|b l]; intros Hn Hl; [exists h; done|]. cbn in Hl. destruct Hl as (H1 & H2 & H3). cbn [hd_addr].
  destruct (Z.eqb_spec (b_addr b) 0); [done|]. unfold set_prev. rewrite H1. cbn. eexists. split; [done|].
  cbn in Hn. apply NoDup_cons in Hn as [Hb Hn]. split_and!; [by rewrite lookup_insert_eq|done|by apply dll_insert_outside|].
  intros a Ha. by rewrite lookup_insert_ne.
Qed.

Lemma last_cons_addr b c l : last_addr (b :: c :: l) = last_addr (c :: l).
Proof. done. Qed.

(** The last block. *)
Lemma dll_last h s p l b :
  dll h s p (l ++ [b]) ->
  h !! b_addr b = Some (mkBlk (b_foreign b) (b_last b) s 0 (match l with [] => p | _ => last_addr l end)) /\ b_addr b <> 0.
Proof.
  revert p. induction l as [|c l IH]; intros p; cbn; [naive_solver|]. intros (H1 & H2 & H3).
  apply IH in H3 as [H3 H4]. split; [|done]. rewrite H3. by destruct l.
Qed.

Lemma dll_set_next h s p l b :
  NoDup (b_addr <$> l ++ [b]) -> dll h s p (l ++ [b]) ->
  exists h', (if last_addr l =? 0 then Some h else set_next (last_addr l) 0 h) = Some h' /\ dll h' s p l /\
    (forall a, a <> last_addr l -> h' !! a = h !! a).
Proof.
  destruct l as [|c l _] using rev_ind; [by exists h|]. intros Hn Hl.
  unfold last_addr. rewrite last_snoc.
  assert (Hc : b_addr c <> 0 /\ h !! b_addr c = Some (mkBlk (b_foreign c) (b_last c) s (b_addr b)
    (match l with [] => p | _ => last_addr l end))).
  { clear Hn. revert p Hl. induction l as [|d l IH]; intros p; cbn; [naive_solver|]. intros (_ & _ & H3).
    apply IH in H3 as [Hc ->]. split; [done|]. by destruct l. }
  destruct Hc as [Hc0 Hc]. destruct (Z.eqb_spec (b_addr c) 0); [done|]. unfold set_next. rewrite Hc. cbn.
  eexists. split; [done|]. split; [|intros a Ha; by rewrite lookup_insert_ne].
  rewrite !fmap_app in Hn. apply NoDup_app in Hn as (Hn & _ & _). apply NoDup_app in Hn as (Hn & Hd & _). clear Hc0.
  revert p Hl Hc. induction l as [|d l IH]; intros p Hl Hc; cbn in *.
  - rewrite lookup_insert_eq. naive_solver.
  - apply NoDup_cons in Hn as [Hdl Hn]. destruct Hl as (H1 & H2 & H3). rewrite lookup_insert_ne.
    2: { intros E. apply (Hd (b_addr d)); [left|]. rewrite <- E. left. }
    split_and!; [|done|].
    + rewrite H1. by destruct l.
    + assert (Hp : match l with [] => b_addr d | _ => last_addr l end = last_addr (d :: l)) by (by destruct l).
      rewrite <- Hp in *. apply IH; auto. intros x Hx. apply Hd. by right.
Qed.

(** ** The representation of a cache *)
Lemma bin_size_pos n : 0 < bin_size n.
Proof. unfold bin_size. apply Z.pow_pos_nonneg; lia. Qed.
Lemma bin_size_S n : bin_size (S n) = 2 * bin_size n.
Proof. unfold bin_size. rewrite <- Z.pow_succ_r by lia. f_equal. lia. Qed.
Lemma bin_size_inj n m : bin_size n = bin_size m -> n = m.
Proof. unfold bin_size. intros E. apply Z.pow_inj_r in E; lia. Qed.
Lemma bin_size_le n m : (n <= m)%nat -> bin_size n <= bin_size m.
Proof. unfold bin_size. intros. apply Z.pow_le_mono_r; lia. Qed.

(** How much is cached. *)
Fixpoint total_from (n : nat) (ls : list (list ablk)) : Z :=
  match ls with [] => 0 | l :: ls => bin_size n * zlen l + total_from (S n) ls end.
Definition total (ls : list (list ablk)) : Z := total_from 0 ls.

Lemma total_from_insert n ls k l l' :
  ls !! k = Some l -> total_from n (<[k := l']> ls) = total_from n ls + bin_size (n + k) * (zlen l' - zlen l).
Proof.
  revert n k. induction ls as [|x ls IH]; intros n [|k] E; try done.
  - cbn in E. injection E as ->. cbn. rewrite Nat.add_0_r. lia.
  - change (<[S k := l']> (x :: ls)) with (x :: <[k := l']> ls). cbn [total_from].
    rewrite (IH (S n) k E). replace (S n + k)%nat with (n + S k)%nat by lia. lia.
Qed.
Lemma total_insert ls k l l' :
  ls !! k = Some l -> total (<[k := l']> ls) = total ls + bin_size k * (zlen l' - zlen l).
Proof. apply (total_from_insert 0). Qed.
Lemma total_from_nonneg n ls : 0 <= total_from n ls.
Proof.
  revert n. induction ls as [|l ls IH]; intros n; cbn; [lia|]. specialize (IH (S n)).
  pose proof (bin_size_pos n). pose proof (zlen_nonneg l). nia.
Qed.
Lemma total_from_elem n ls k l : ls !! k = Some l -> bin_size (n + k) * zlen l <= total_from n ls.
Proof.
  revert n k. induction ls as [|x ls IH]; intros n [|k]; cbn; try done.
  - injection 1 as ->. rewrite Nat.add_0_r. pose proof (total_from_nonneg (S n) ls). lia.
  - intros E. specialize (IH (S n) k E). replace (S n + k)%nat with (n + S k)%nat in IH by lia.
    pose proof (bin_size_pos n). pose proof (zlen_nonneg x). nia.
Qed.

Record bins_repr (h : Heap) (bs : list Z) (ls : list (list ablk)) : Prop := {
  bins_lists : length ls = 10%nat;
  bins_length : length bs = 20%nat;
  bins_bin n l : ls !! n = Some l ->
    bs !! (n * 2)%nat = Some (hd_addr l) /\ bs !! (n * 2 + 1)%nat = Some (last_addr l) /\
    NoDup (b_addr <$> l) /\ dll h (bin_size n) 0 l
}.

(** The blocks of a cache. *)
Definition cached (ls : list (list ablk)) (a : Z) : Prop :=
  exists n l b, ls !! n = Some l /\ b ∈ l /\ b_addr b = a.

(** Different bins have different blocks, as their headers have different sizes. *)
Lemma bins_disjoint h bs ls n m l l' b b' :
  bins_repr h bs ls -> ls !! n = Some l -> ls !! m = Some l' -> n <> m -> b ∈ l -> b' ∈ l' -> b_addr b <> b_addr b'.
Proof.
  intros R Hn Hm Hne Hb Hb' E. destruct (bins_bin _ _ _ R _ _ Hn) as (_ & _ & _ & D1).
  destruct (bins_bin _ _ _ R _ _ Hm) as (_ & _ & _ & D2).
  destruct (dll_elem _ _ _ _ _ D1 Hb) as (_ & ? & ? & E1). destruct (dll_elem _ _ _ _ _ D2 Hb') as (_ & ? & ? & E2).
  rewrite E, E2 in E1. injection E1 as _ _ Es _ _. apply Hne. symmetry. by apply bin_size_inj.
Qed.

(** One bin gets the list [l']. *)
Lemma bins_update h h' bs bs' ls n l l' :
  bins_repr h bs ls -> ls !! n = Some l -> length bs' = 20%nat ->
  bs' !! (n * 2)%nat = Some (hd_addr l') -> bs' !! (n * 2 + 1)%nat = Some (last_addr l') ->
  (forall i, i <> (n * 2)%nat -> i <> (n * 2 + 1)%nat -> bs' !! i = bs !! i) ->
  NoDup (b_addr <$> l') -> dll h' (bin_size n) 0 l' ->
  (forall m lm b, m <> n -> ls !! m = Some lm -> b ∈ lm -> h' !! b_addr b = h !! b_addr b) ->
  bins_repr h' bs' (<[n := l']> ls).
Proof.
  intros R Hn Hlen H1 H2 Hbs Hnd Hd Hf. split; [by rewrite length_insert, (bins_lists _ _ _ R)|done|].
  intros m lm Hm. destruct (decide (m = n)) as [->|Hne].
  - rewrite list_lookup_insert_eq in Hm by (by eapply lookup_lt_Some). by injection Hm as <-.
  - rewrite list_lookup_insert_ne in Hm by done. destruct (bins_bin _ _ _ R _ _ Hm) as (B1 & B2 & B3 & B4).
    rewrite !Hbs by lia. split_and!; [done..|]. eapply dll_frame; [|exact B4]. intros b Hb. by apply (Hf m lm).
Qed.

Lemma bins_in_range h bs ls n : bins_repr h bs ls -> (n < 10)%nat -> exists l, ls !! n = Some l.
Proof. intros R Hn. apply lookup_lt_is_Some_2. by rewrite (bins_lists _ _ _ R). Qed.

Lemma last_addr_cons b c l : last_addr (b :: c :: l) = last_addr (c :: l).
Proof. done. Qed.
Lemma hd_addr_zero h s p l : dll h s p l -> hd_addr l = 0 <-> l = [].
Proof. destruct l as [|b l]; [done|]. cbn. intros (_ & H & _). done. Qed.
Lemma last_addr_zero h s p l : dll h s p l -> last_addr l = 0 <-> l = [].
Proof.
  destruct l as [|b l _] using rev_ind; [done|]. intros Hd. apply dll_last in Hd as [_ Hb]. unfold last_addr.
  rewrite last_snoc. split; [done|]. by destruct l.
Qed.

(** *** Taking the first block *)
Lemma bins_pop h bs ls n b l :
  bins_repr h bs ls -> ls !! n = Some (b :: l) ->
  exists h1, (if hd_addr l =? 0 then Some h else set_prev (hd_addr l) 0 h) = Some h1 /\
    bins_repr (delete (b_addr b) h1)
      (let bs := <[(n * 2)%nat := hd_addr l]> bs in if hd_addr l =? 0 then <[(n * 2 + 1)%nat := 0]> bs else bs)
      (<[n := l]> ls) /\
    (forall a, ~ cached ls a -> delete (b_addr b) h1 !! a = h !! a).
Proof.
  intros R Hn. destruct (bins_bin _ _ _ R _ _ Hn) as (B1 & B2 & B3 & B4). cbn in B3, B4.
  apply NoDup_cons in B3 as [Hb B3]. destruct B4 as (_ & Hb0 & B4).
  destruct (dll_set_prev h (bin_size n) (b_addr b) 0 l B3 B4) as (h1 & E1 & D1 & F1). exists h1. split; [done|].
  assert (Hin : (n * 2 + 1 < length bs)%nat) by (by eapply lookup_lt_Some).
  assert (Hhd : forall a, a = hd_addr l -> l = [] \/ cached ls a).
  { intros a ->. destruct l as [|c l]; [by left|]. right. exists n, (b :: c :: l), c. split_and!; [done|right; left|done]. }
  split.
  - eapply (bins_update h); [exact R|exact Hn| | | | |done|by apply dll_delete_outside| ].
    + cbv zeta. destruct (_ =? 0); rewrite ?length_insert; apply (bins_length _ _ _ R).
    + cbv zeta. destruct (_ =? 0); [rewrite list_lookup_insert_ne by lia|]; rewrite list_lookup_insert_eq by lia; done.
    + cbv zeta. destruct (Z.eqb_spec (hd_addr l) 0) as [E|E].
      * rewrite list_lookup_insert_eq by (rewrite length_insert; lia). apply (hd_addr_zero _ _ _ _ B4) in E. by subst l.
      * rewrite list_lookup_insert_ne by lia. rewrite B2. destruct l as [|c l]; [done|]. by rewrite last_addr_cons.
    + intros i H1 H2. cbv zeta. destruct (_ =? 0); rewrite ?list_lookup_insert_ne by lia; done.
    + intros m lm c Hm Hlm Hc.
      assert (Hne : b_addr c <> b_addr b) by (eapply (bins_disjoint h bs ls m n); [done..|left]).
      rewrite lookup_delete_ne by done. apply F1. destruct l as [|d l].
      * cbn. destruct (bins_bin _ _ _ R _ _ Hlm) as (_ & _ & _ & Dm). by destruct (dll_elem _ _ _ _ _ Dm Hc).
      * eapply (bins_disjoint h bs ls m n); [done..|right; left].
  - intros a Ha. rewrite lookup_delete_ne.
    + destruct (decide (a = hd_addr l)) as [E|E]; [|by apply F1]. destruct (Hhd a E) as [->|Hc]; [|done].
      cbn in E1. by injection E1 as <-.
    + intros E. apply Ha. rewrite <- E. exists n, (b :: l), b. split_and!; [done|left|done].
Qed.

(** *** Adding a block in front *)
Lemma not_cached_addr ls n l a : ~ cached ls a -> ls !! n = Some l -> a ∉ b_addr <$> l.
Proof. intros Ha Hn (b & -> & Hb)%list_elem_of_fmap. apply Ha. by exists n, l, b. Qed.

Lemma bins_push h bs ls n l b :
  bins_repr h bs ls -> ls !! n = Some l -> b_addr b <> 0 -> ~ cached ls (b_addr b) ->
  exists h1,
    (let h0 := <[b_addr b := mkBlk (b_foreign b) (b_last b) (bin_size n) (hd_addr l) 0]> h in
     if hd_addr l =? 0 then Some h0 else set_prev (hd_addr l) (b_addr b) h0) = Some h1 /\
    bins_repr h1 (<[(n * 2)%nat := b_addr b]> (if hd_addr l =? 0 then <[(n * 2 + 1)%nat := b_addr b]> bs else bs))
      (<[n := b :: l]> ls) /\
    (forall a, ~ cached ls a -> a <> b_addr b -> h1 !! a = h !! a) /\
    (hd_addr l <> 0 -> exists x, h1 !! hd_addr l = Some x /\ blk_size x = bin_size n).
Proof.
  intros R Hn Hb0 Hb. destruct (bins_bin _ _ _ R _ _ Hn) as (B1 & B2 & B3 & B4).
  pose proof (not_cached_addr _ _ _ _ Hb Hn) as Hbl. cbv zeta. set (x := mkBlk _ _ _ _ _). set (h0 := <[b_addr b := x]> h).
  destruct (dll_set_prev h0 (bin_size n) 0 (b_addr b) l B3) as (h1 & E1 & D1 & F1); [by apply dll_insert_outside|].
  exists h1. split; [done|].
  assert (Hhd : b_addr b <> hd_addr l) by (destruct l; [done|]; intros E; apply Hbl; rewrite E; left).
  assert (Hin : (n * 2 + 1 < length bs)%nat) by (by eapply lookup_lt_Some).
  split_and!.
  - eapply (bins_update h); [exact R|exact Hn| | | | | | | ].
    + rewrite length_insert. destruct (_ =? 0); rewrite ?length_insert; apply (bins_length _ _ _ R).
    + rewrite list_lookup_insert_eq; [done|]. destruct (_ =? 0); rewrite ?length_insert; lia.
    + rewrite list_lookup_insert_ne by lia. destruct (Z.eqb_spec (hd_addr l) 0) as [E|E].
      * rewrite list_lookup_insert_eq by lia. apply (hd_addr_zero _ _ _ _ B4) in E. by subst l.
      * rewrite B2. destruct l as [|c l]; [done|]. by rewrite last_addr_cons.
    + intros i H1 H2. rewrite list_lookup_insert_ne by lia. destruct (_ =? 0); [|done]. by rewrite list_lookup_insert_ne by lia.
    + cbn. by constructor.
    + cbn. split_and!; [|done|done]. rewrite F1 by done. unfold h0. by rewrite lookup_insert_eq.
    + intros m lm c Hm Hlm Hc. rewrite F1.
      * unfold h0. rewrite lookup_insert_ne; [done|]. intros E. apply Hb. rewrite E. by exists m, lm, c.
      * destruct l as [|d l].
        -- cbn. destruct (bins_bin _ _ _ R _ _ Hlm) as (_ & _ & _ & Dm). by destruct (dll_elem _ _ _ _ _ Dm Hc).
        -- eapply (bins_disjoint h bs ls m n); [done..|left].
  - intros a Ha Hab. destruct (decide (a = hd_addr l)) as [->|Hne].
    + destruct l as [|d l]; [cbn in E1; injection E1 as <-; unfold h0; by rewrite lookup_insert_ne|].
      exfalso. apply Ha. exists n, (d :: l), d. split_and!; [done|left|done].
    + rewrite F1 by done. unfold h0. by rewrite lookup_insert_ne.
  - intros Hne. destruct l as [|d l]; [done|]. cbn in D1. destruct D1 as (E & _). cbn. rewrite E. eauto.
Qed.

(** *** Taking the last block *)
Lemma bins_pop_back h bs ls n l b :
  bins_repr h bs ls -> ls !! n = Some (l ++ [b]) ->
  bs !! (n * 2 + 1)%nat = Some (b_addr b) /\ b_addr b <> 0 /\
  h !! b_addr b = Some (mkBlk (b_foreign b) (b_last b) (bin_size n) 0 (last_addr l)) /\
  exists h1, (if last_addr l =? 0 then Some h else set_next (last_addr l) 0 h) = Some h1 /\
    bins_repr (delete (b_addr b) h1)
      (let bs := <[(n * 2 + 1)%nat := last_addr l]> bs in if last_addr l =? 0 then <[(n * 2)%nat := 0]> bs else bs)
      (<[n := l]> ls) /\
    (forall a, ~ cached ls a -> delete (b_addr b) h1 !! a = h !! a).
Proof.
  intros R Hn. destruct (bins_bin _ _ _ R _ _ Hn) as (B1 & B2 & B3 & B4).
  destruct (dll_last _ _ _ _ _ B4) as [Eb Hb0]. unfold last_addr in B2. rewrite last_snoc in B2.
  destruct (dll_set_next h (bin_size n) 0 l b B3 B4) as (h1 & E1 & D1 & F1).
  assert (Hin : (n * 2 + 1 < length bs)%nat) by (by eapply lookup_lt_Some).
  rewrite fmap_app in B3. apply NoDup_app in B3 as (B3 & Hd & _).
  assert (Hbl : b_addr b ∉ b_addr <$> l) by (intros Hb; apply (Hd _ Hb); left).
  assert (Hlast : last_addr l <> 0 -> exists c, c ∈ l /\ last_addr l = b_addr c).
  { destruct l as [|c l _] using rev_ind; [done|]. intros _. exists c. unfold last_addr. rewrite last_snoc. split; [|done].
    apply elem_of_app. right. left. }
  split_and!; [done|done| |].
  { rewrite Eb. do 2 f_equal. by destruct l. }
  exists h1. split; [done|]. split.
  - eapply (bins_update h); [exact R|exact Hn| | | | |done|by apply dll_delete_outside| ].
    + cbv zeta. destruct (_ =? 0); rewrite ?length_insert; apply (bins_length _ _ _ R).
    + cbv zeta. destruct (Z.eqb_spec (last_addr l) 0) as [E|E].
      * rewrite list_lookup_insert_eq by (rewrite length_insert; lia). apply (last_addr_zero _ _ _ _ D1) in E. by subst l.
      * rewrite list_lookup_insert_ne by lia. rewrite B1. by destruct l.
    + cbv zeta. destruct (_ =? 0); [rewrite list_lookup_insert_ne by lia|]; by rewrite list_lookup_insert_eq by lia.
    + intros i H1 H2. cbv zeta. destruct (_ =? 0); rewrite ?list_lookup_insert_ne by lia; done.
    + intros m lm c Hm Hlm Hc.
      assert (Hne : b_addr c <> b_addr b).
      { eapply (bins_disjoint h bs ls m n); [done..|]. apply elem_of_app. right. left. }
      rewrite lookup_delete_ne by done. apply F1. intros E.
      destruct (bins_bin _ _ _ R _ _ Hlm) as (_ & _ & _ & Dm). destruct (dll_elem _ _ _ _ _ Dm Hc) as [Hc0 _].
      destruct Hlast as (d & Hdl & Ed); [congruence|].
      eapply (bins_disjoint h bs ls m n lm (l ++ [b]) c d); [done..| |congruence]. apply elem_of_app. by left.
  - intros a Ha. rewrite lookup_delete_ne.
    + destruct (decide (a = last_addr l)) as [->|E]; [|by apply F1].
      destruct (Z.eqb_spec (last_addr l) 0); [by injection E1 as <-|]. exfalso.
      destruct Hlast as (d & Hdl & Ed); [done|]. apply Ha. exists n, (l ++ [b]), d. split_and!; [done| |done].
      apply elem_of_app. by left.
    + intros E. apply Ha. rewrite <- E. exists n, (l ++ [b]), b. split_and!; [done| |done]. apply elem_of_app. right. left.
Qed.

(** ** Bins of sizes *)
Lemma bin_size_8192 n : bin_size n <= 8192 <-> (n <= 9)%nat.
Proof.
  split; intros H.
  - destruct (Nat.le_gt_cases n 9); [done|]. pose proof (bin_size_le 10 n ltac:(lia)) as Hle.
    change (bin_size 10) with 16384 in Hle. lia.
  - pose proof (bin_size_le n 9 H) as Hle. by change (bin_size 9) with 8192 in Hle.
Qed.

Lemma best_size n : (n <= 9)%nat -> u32 (Z.shiftl 1 (Z.of_nat n + 4)) = bin_size n.
Proof.
  intros Hn. rewrite Z.shiftl_mul_pow2, Z.mul_1_l by lia. apply uwrap_id.
  pose proof (bin_size_pos n). pose proof (proj2 (bin_size_8192 n) Hn). unfold in_u, bin_size in *. lia.
Qed.

(** The bin below a size. *)
Lemma bin_below size : 16 <= size <= THREADCACHEMAX + CHUNK_OVERHEAD ->
  exists n, (n <= 9)%nat /\ size2binidx size = Some (Z.of_nat n) /\ bin_size n <= size < bin_size (S n).
Proof.
  unfold THREADCACHEMAX, CHUNK_OVERHEAD. intros Hs. exists (Z.to_nat (Z.log2 (size / 16))).
  pose proof (Z.log2_nonneg (size / 16)) as H0.
  pose proof (Z.log2_spec (size / 16) ltac:(div_lia)) as [H1 H2].
  assert (Hlt : Z.log2 (size / 16) < 10) by (apply Z.log2_lt_pow2; div_lia).
  rewrite size2binidx_spec by lia. unfold bin_size. rewrite Nat2Z.inj_succ, Z2Nat.id by done.
  split_and!; [lia|done| |].
  - rewrite Z.pow_add_r by lia. change (2 ^ 4) with 16. div_lia.
  - rewrite Z.pow_add_r by lia. change (2 ^ 4) with 16. div_lia.
Qed.

(** The bin that [threadcache_malloc] rounds up to. *)
Definition bin_above (n : nat) (size : Z) : Prop :=
  (n <= 9)%nat /\ size <= bin_size n /\ forall m, size <= bin_size m -> (n <= m)%nat.

Lemma bin_round size : 16 <= size <= THREADCACHEMAX ->
  exists idx n, size2binidx size = Some idx /\ bin_above n size /\
    (let bestsize := u32 (Z.shiftl 1 (idx + 4)) in
     if bestsize <? size then (idx + 1, u32 (Z.shiftl bestsize 1)) else (idx, bestsize)) = (Z.of_nat n, bin_size n).
Proof.
  unfold THREADCACHEMAX. intros Hs.
  destruct (bin_below size) as (k & Hk & Ek & Hb); [unfold THREADCACHEMAX, CHUNK_OVERHEAD; lia|].
  exists (Z.of_nat k). cbv zeta. rewrite best_size by done. destruct (Z.ltb_spec (bin_size k) size) as [Hlt|Hge].
  - exists (S k). rewrite bin_size_S in *.
    assert (S k <= 9)%nat.
    { apply bin_size_8192. destruct (Nat.le_gt_cases (S k) 9); [by apply bin_size_8192|].
      assert (k = 9%nat) as -> by lia. change (bin_size 9) with 8192 in Hlt. lia. }
    split_and!; [done| |].
    + split_and!; [done|rewrite bin_size_S; lia|]. intros m Hm. destruct (Nat.le_gt_cases (S k) m); [done|].
      pose proof (bin_size_le m k ltac:(lia)). lia.
    + rewrite Z.shiftl_mul_pow2 by lia. change (2 ^ 1) with 2. pose proof (bin_size_pos k).
      pose proof (proj2 (bin_size_8192 k) ltac:(lia)). rewrite uwrap_id by (unfold in_u; lia). f_equal; lia.
  - exists k. split_and!; [done| |done]. split_and!; [done|lia|]. intros m Hm.
    destruct (Nat.le_gt_cases k m); [done|]. pose proof (bin_size_le (S m) k ltac:(lia)) as Hle. rewrite bin_size_S in Hle.
    pose proof (bin_size_pos m). lia.
Qed.

(** ** The invariant *)
Section Spec.
Context (nedblksize : Z -> Z).

(** What a cached block of bin [n] is worth. *)
Definition block_ok (n : nat) (b : ablk) : Prop :=
  bin_size n <= nedblksize (b_addr b) /\ sizeof_threadcacheblk <= nedblksize (b_addr b) <= THREADCACHEMAX + CHUNK_OVERHEAD.
(** A bin holds blocks in the order in which they were freed. *)
Definition stamps_ok (f : Z) (l : list ablk) : Prop :=
  StronglySorted (fun b c => b_last c < b_last b) l /\ Forall (fun b => 0 <= b_last b <= f) l.

Record cache_ok (h : Heap) (tc : threadcache) (ls : list (list ablk)) : Prop := {
  ok_bins : bins_repr h (bins tc) ls;
  ok_free : freeInCache tc = total ls;
  ok_total : total ls < 2 * THREADCACHEMAXFREESPACE;
  ok_frees : 0 <= frees tc < 2 ^ 32;
  ok_blocks n l : ls !! n = Some l -> Forall (block_ok n) l /\ stamps_ok (frees tc) l
}.

(** The owner of a cache does not change. *)
Definition same_ids (tc tc' : threadcache) : Prop :=
  frees tc' = frees tc /\ mymspace tc' = mymspace tc /\ threadid tc' = threadid tc.
Lemma same_ids_bin i a tc : same_ids tc (set_bin i a tc).
Proof. done. Qed.
Lemma same_ids_trans a b c : same_ids a b -> same_ids b c -> same_ids a c.
Proof. unfold same_ids. intros (?&?&?) (?&?&?). split_and!; congruence. Qed.

(** The block that a request gets: from its bin or from the next one. *)
Definition cache_take (n : nat) (ls : list (list ablk)) : option (ablk * nat * list (list ablk)) :=
  match ls !! n with
  | Some (b :: l) => Some (b, n, <[n := l]> ls)
  | _ => match ls !! S n with Some (b :: l) => Some (b, S n, <[S n := l]> ls) | _ => None end
  end.

Lemma cache_take_elem n ls b m ls' :
  cache_take n ls = Some (b, m, ls') -> exists l, ls !! m = Some (b :: l) /\ ls' = <[m := l]> ls /\ (n <= m)%nat.
Proof.
  unfold cache_take. destruct (ls !! n) as [[|c l]|] eqn:E1; [..|]; try (destruct (ls !! S n) as [[|d l']|] eqn:E2);
    try done; intros [= <- <- <-]; eexists; split_and!; try done; lia.
Qed.

Lemma stamps_tail f b l : stamps_ok f (b :: l) -> stamps_ok f l.
Proof. intros [H1 H2]. split; [by apply StronglySorted_inv in H1 as [H1 _]|by apply Forall_cons in H2 as [_ H2]]. Qed.

(** Taking the first block of bin [m]. *)
Lemma take_ok h tc ls m b l :
  cache_ok h tc ls -> ls !! m = Some (b :: l) ->
  0 <= total ls - bin_size m < 2 * THREADCACHEMAXFREESPACE /\ block_ok m b /\ (m <= 9)%nat /\
  h !! b_addr b = Some (mkBlk (b_foreign b) (b_last b) (bin_size m) (hd_addr l) 0) /\ b_addr b <> 0 /\
  hd_addr l <> b_addr b /\ last_addr l <> b_addr b.
Proof.
  intros K Hm. destruct (bins_bin _ _ _ (ok_bins _ _ _ K) _ _ Hm) as (_ & _ & B3 & B4).
  destruct (ok_blocks _ _ _ K _ _ Hm) as [Hb _]. apply Forall_cons in Hb as [Hb _]. cbn in B3, B4.
  apply NoDup_cons in B3 as [Hn B3]. destruct B4 as (E & H0 & B4).
  pose proof (total_from_elem 0 ls m _ Hm) as Ht. cbn [Nat.add] in Ht. rewrite zlen_cons in Ht.
  pose proof (bin_size_pos m). pose proof (zlen_nonneg l). pose proof (ok_total _ _ _ K). unfold total in *.
  split_and!; [nia|lia|done| |done|done| |].
  - pose proof (lookup_lt_Some _ _ _ Hm). rewrite (bins_lists _ _ _ (ok_bins _ _ _ K)) in *. lia.
  - destruct l as [|c l]; [done|]. intros E1. apply Hn. cbn in E1. rewrite <- E1. left.
  - destruct l as [|c l _] using rev_ind; [done|]. unfold last_addr. rewrite last_snoc. intros E1. apply Hn.
    rewrite <- E1, fmap_app. apply elem_of_app. right. left.
Qed.

Lemma bin_first n tc : bin (Z.of_nat n * 2) tc = bins tc !! (n * 2)%nat.
Proof. unfold bin. f_equal. lia. Qed.
Lemma bin_last n tc : bin (Z.of_nat n * 2 + 1) tc = bins tc !! (n * 2 + 1)%nat.
Proof. unfold bin. f_equal. lia. Qed.
Lemma set_bin_first n a tc : bins (set_bin (Z.of_nat n * 2) a tc) = <[(n * 2)%nat := a]> (bins tc).
Proof. unfold set_bin. cbn [bins]. f_equal. lia. Qed.
Lemma set_bin_last n a tc : bins (set_bin (Z.of_nat n * 2 + 1) a tc) = <[(n * 2 + 1)%nat := a]> (bins tc).
Proof. unfold set_bin. cbn [bins]. f_equal. lia. Qed.

Lemma wrap_free f : 0 <= f < 2 * THREADCACHEMAXFREESPACE -> u64 f = f /\ swrap 64 f = f.
Proof.
  unfold THREADCACHEMAXFREESPACE, u64. intros Hf. split; [apply uwrap_id; unfold in_u; lia|apply swrap_id; unfold in_s; lia].
Qed.

(** Shrinking a bin keeps the invariant. *)
Lemma shrink_ok h h' tc tc' ls n l l' :
  cache_ok h tc ls -> ls !! n = Some l -> frees tc' = frees tc ->
  bins_repr h' (bins tc') (<[n := l']> ls) -> freeInCache tc' = total (<[n := l']> ls) ->
  total (<[n := l']> ls) <= total ls ->
  (Forall (block_ok n) l -> stamps_ok (frees tc) l -> Forall (block_ok n) l' /\ stamps_ok (frees tc) l') ->
  cache_ok h' tc' (<[n := l']> ls).
Proof.
  intros K Hn Hf R Ht Hle Hl. split; [done|done| |rewrite Hf; apply (ok_frees _ _ _ K)|].
  - pose proof (ok_total _ _ _ K). lia.
  - intros m lm Hm. rewrite Hf. destruct (decide (m = n)) as [->|Hne].
    + rewrite list_lookup_insert_eq in Hm by (by eapply lookup_lt_Some). injection Hm as <-.
      destruct (ok_blocks _ _ _ K _ _ Hn). by apply Hl.
    + rewrite list_lookup_insert_ne in Hm by done. apply (ok_blocks _ _ _ K _ _ Hm).
Qed.

Lemma take_block_spec size h tc ls n b l :
  cache_ok h tc ls -> ls !! n = Some (b :: l) -> size <= bin_size n ->
  exists tc' h', take_block nedblksize size (Z.of_nat n) (b_addr b) tc h = Some (b_addr b, size, tc', h') /\
    cache_ok h' tc' (<[n := l]> ls) /\ same_ids tc tc' /\ h' !! b_addr b = None /\
    (forall a, ~ cached ls a -> h' !! a = h !! a).
Proof.
  intros K Hn Hs. destruct (take_ok _ _ _ _ _ _ K Hn) as (Ht & [Hb1 Hb2] & Hn9 & E & H0 & Hh & Hl).
  destruct (bins_pop _ _ _ _ _ _ (ok_bins _ _ _ K) Hn) as (h1 & E1 & R & F).
  unfold take_block. destruct (Z.eqb_spec (b_addr b) 0); [done|]. rewrite E. cbn [mbind option_bind blk_size next].
  replace ((bin_size n <=? nedblksize (b_addr b)) && (size <=? bin_size n)) with true by lia. cbn [guard_].
  rewrite E1. cbn [mbind option_bind].
  set (tc1 := set_bin (Z.of_nat n * 2) (hd_addr l) tc).
  set (tc2 := if hd_addr l =? 0 then set_bin (Z.of_nat n * 2 + 1) 0 tc1 else tc1).
  assert (Eb : bins tc2 = (let bs := <[(n * 2)%nat := hd_addr l]> (bins tc) in
    if hd_addr l =? 0 then <[(n * 2 + 1)%nat := 0]> bs else bs)).
  { unfold tc2, tc1. destruct (_ =? 0); by rewrite ?set_bin_last, set_bin_first. }
  assert (Etl : bin (Z.of_nat n * 2 + 1) tc2 = Some (last_addr l)).
  { rewrite bin_last, Eb. apply (bins_bin _ _ _ R n l). apply list_lookup_insert_eq. by eapply lookup_lt_Some. }
  rewrite Etl. cbn [mbind option_bind].
  replace (negb (hd_addr l =? b_addr b) && negb (last_addr l =? b_addr b)) with true
    by (destruct (Z.eqb_spec (hd_addr l) (b_addr b)), (Z.eqb_spec (last_addr l) (b_addr b)); done).
  cbn [guard_]. replace (_ && _) with true by lia. cbn [guard_].
  assert (Ef : freeInCache tc2 = total ls) by (unfold tc2, tc1; destruct (_ =? 0); apply (ok_free _ _ _ K)).
  rewrite Ef. destruct (wrap_free _ Ht) as [Eu Es]. rewrite Eu, Es. replace (0 <=? _) with true by lia. cbn [guard_].
  eexists _, _. split; [done|]. split_and!.
  - eapply shrink_ok; [exact K|exact Hn| | | | |]; cbn [frees bins freeInCache].
    + unfold tc2, tc1. by destruct (_ =? 0).
    + rewrite Eb. exact R.
    + rewrite (total_insert _ _ _ _ Hn), zlen_cons. lia.
    + rewrite (total_insert _ _ _ _ Hn), zlen_cons. pose proof (bin_size_pos n). lia.
    + intros Hbs Hst. apply Forall_cons in Hbs as [_ Hbs]. split; [done|]. by eapply stamps_tail.
  - unfold same_ids. cbn [frees mymspace threadid]. unfold tc2, tc1. by destruct (_ =? 0).
  - apply lookup_delete_eq.
  - exact F.
Qed.

Lemma count_ok h tc tc' ls :
  cache_ok h tc ls -> bins tc' = bins tc -> freeInCache tc' = freeInCache tc -> frees tc' = frees tc -> cache_ok h tc' ls.
Proof.
  intros [K1 K2 K3 K4 K5] E1 E2 E3. split; [by rewrite E1|by rewrite E2|done|by rewrite E3|]. by rewrite E3.
Qed.

(** [threadcache_malloc] gives the first block of the smallest bin that holds the
    size, or of the next bin, or none. *)
Lemma threadcache_malloc_spec size h tc ls :
  cache_ok h tc ls -> sizeof_threadcacheblk <= size <= THREADCACHEMAX ->
  exists n, bin_above n size /\
    match cache_take n ls with
    | None => exists tc', threadcache_malloc nedblksize size tc h = Some (0, bin_size n, tc', h) /\ cache_ok h tc' ls /\
        same_ids tc tc'
    | Some (b, m, ls') => exists tc' h',
        threadcache_malloc nedblksize size tc h = Some (b_addr b, bin_size n, tc', h') /\
        cache_ok h' tc' ls' /\ same_ids tc tc' /\ h' !! b_addr b = None /\ (forall a, ~ cached ls a -> h' !! a = h !! a)
    end.
Proof.
  unfold sizeof_threadcacheblk. intros K Hs. destruct (bin_round size) as (idx & n & Ei & Hn & Er); [lia|].
  exists n. split; [done|]. destruct Hn as (Hn & Hsz & Hmin). cbv zeta in Er.
  unfold threadcache_malloc. rewrite Ei. cbn [mbind option_bind]. rewrite Er.
  replace (size <=? bin_size n) with true by lia. cbn [guard_].
  assert (Erd : (if size <? bin_size n then bin_size n else size) = bin_size n) by (destruct (Z.ltb_spec size (bin_size n)); lia).
  rewrite Erd. pose proof (proj2 (bin_size_8192 n) Hn) as Hmax. unfold THREADCACHEMAX.
  replace (bin_size n <=? 8192) with true by lia. cbn [guard_]. unfold THREADCACHEMAXBINS.
  replace (Z.of_nat n <=? 13 - 4) with true by lia. cbn [guard_].
  destruct (bins_in_range _ _ _ n (ok_bins _ _ _ K)) as (l & Hl); [lia|].
  destruct (bins_bin _ _ _ (ok_bins _ _ _ K) _ _ Hl) as (B1 & _ & _ & B4).
  rewrite bin_first, B1. cbn [mbind option_bind]. unfold cache_take. rewrite Hl. destruct l as [|b l].
  - cbn [hd_addr]. change (0 =? 0) with true. cbn iota. cbn [mbind option_bind andb].
    destruct (Z.ltb_spec (Z.of_nat n) (13 - 4)) as [Hlt|Hge]; cbn [mbind option_bind].
    + destruct (bins_in_range _ _ _ (S n) (ok_bins _ _ _ K)) as (l' & Hl'); [lia|].
      destruct (bins_bin _ _ _ (ok_bins _ _ _ K) _ _ Hl') as (B1' & _ & _ & B4').
      replace (Z.of_nat n + 1) with (Z.of_nat (S n)) by lia. rewrite bin_first, B1'. cbn [mbind option_bind].
      rewrite Hl'. destruct l' as [|b l']; cbn [hd_addr].
      * eexists. split; [done|]. by split; [eapply count_ok; [exact K|..]|].
      * apply take_block_spec; [done|done|]. rewrite bin_size_S. pose proof (bin_size_pos n). lia.
    + destruct (ls !! S n) as [l'|] eqn:El'.
      { apply lookup_lt_Some in El'. rewrite (bins_lists _ _ _ (ok_bins _ _ _ K)) in El'. lia. }
      eexists. split; [done|]. by split; [eapply count_ok; [exact K|..]|].
  - destruct (take_ok _ _ _ _ _ _ K Hl) as (_ & _ & _ & E & H0 & _). cbn [hd_addr].
    destruct (Z.eqb_spec (b_addr b) 0); [done|]. rewrite E. cbn [mbind option_bind blk_size].
    rewrite Z.ltb_irrefl. cbn [andb mbind option_bind]. by apply take_block_spec.
Qed.

(** ** Removal of old blocks *)
Definition ent (b : ablk) : Z * bool := (b_addr b, b_foreign b).
Definition entries (ls : list (list ablk)) : list (Z * bool) := ent <$> concat ls.

Lemma entries_insert ls n l l' :
  ls !! n = Some l -> entries (<[n := l']> ls) ++ (ent <$> l) ≡ₚ entries ls ++ (ent <$> l').
Proof.
  intros Hn. unfold entries. rewrite <- !fmap_app. apply fmap_Permutation.
  apply list_elem_of_split_length in Hn as (l1 & l2 & -> & ->).
  rewrite insert_app_r_alt, Nat.sub_diag by lia. cbn. rewrite !concat_app. cbn. solve_Permutation.
Qed.

Lemma cached_entries ls a : cached ls a <-> a ∈ (entries ls).*1.
Proof.
  unfold entries, cached. rewrite list_elem_of_fmap. split.
  - intros (n & l & b & Hn & Hb & <-). exists (ent b). split; [done|]. apply list_elem_of_fmap. exists b. split; [done|].
    apply list_elem_of_In, in_concat. exists l. split; apply list_elem_of_In; [by eapply list_elem_of_lookup_2|done].
  - intros (p & -> & (b & -> & Hb)%list_elem_of_fmap). apply list_elem_of_In, in_concat in Hb as (l & Hl & Hb).
    apply list_elem_of_In, list_elem_of_lookup_1 in Hl as (n & Hn). apply list_elem_of_In in Hb. by exists n, l, b.
Qed.

(** What [RemoveCacheEntries] leaves of a list: it takes old blocks off the end. *)
Definition old (f age : Z) (b : ablk) : bool := age <=? u32 (f - b_last b).
Fixpoint keep (f age : Z) (l : list ablk) : list ablk :=
  match l with
  | [] => []
  | b :: l => match keep f age l with [] => if old f age b then [] else [b] | k => b :: k end
  end.
Definition removed (f age : Z) (l : list ablk) : list ablk := rev (drop (length (keep f age l)) l).

Lemma keep_snoc f age l b : keep f age (l ++ [b]) = if old f age b then keep f age l else l ++ [b].
Proof.
  induction l as [|c l IH]; cbn; [done|]. rewrite IH. destruct (old f age b); [done|]. by destruct l.
Qed.

Lemma keep_prefix f age l : exists r, l = keep f age l ++ r /\ removed f age l = rev r.
Proof.
  unfold removed. induction l as [|b l IH] using rev_ind; [by exists []|]. rewrite keep_snoc. destruct (old f age b).
  - destruct IH as (r & E & _). exists (r ++ [b]).
    assert (E' : l ++ [b] = keep f age l ++ r ++ [b]) by (by rewrite app_assoc, <- E).
    split; [done|]. f_equal. rewrite E'. by rewrite drop_app_length.
  - exists []. split; [by rewrite app_nil_r|]. f_equal. apply drop_ge. lia.
Qed.

Lemma removed_snoc f age l b :
  removed f age (l ++ [b]) = if old f age b then b :: removed f age l else [].
Proof.
  unfold removed. rewrite keep_snoc. destruct (old f age b).
  - destruct (keep_prefix f age l) as (r & E & _).
    rewrite drop_app_le, rev_app_distr; [done|]. rewrite E at 2. rewrite length_app. lia.
  - rewrite drop_ge; [done|lia].
Qed.

Lemma keep_removed f age l : (ent <$> keep f age l) ++ (ent <$> removed f age l) ≡ₚ ent <$> l.
Proof.
  destruct (keep_prefix f age l) as (r & E & ->). rewrite E at 2. rewrite fmap_app.
  by rewrite <- (Permutation_rev r).
Qed.

Lemma keep_last f age l k b : keep f age l = k ++ [b] -> old f age b = false.
Proof.
  induction l as [|c l IH] using rev_ind; [by destruct k|]. rewrite keep_snoc. destruct (old f age c) eqn:E; [done|].
  intros [_ ->]%app_inj_tail. done.
Qed.

Lemma stamps_app f l l' : stamps_ok f (l ++ l') -> stamps_ok f l.
Proof.
  intros [H1 H2]. apply Forall_app in H2 as [H2 _]. split; [|done]. clear H2. induction l as [|b l IH]; [constructor|].
  cbn in H1. apply StronglySorted_inv in H1 as [H1 H2]. apply Forall_app in H2 as [H2 _]. constructor; auto.
Qed.

(** With age one, only a block of the very last call survives. *)
Lemma keep_one f l : 0 <= f < 2 ^ 32 -> stamps_ok f l -> zlen (keep f 1 l) <= 1.
Proof.
  intros Hf Hs. destruct (keep_prefix f 1 l) as (r & E & _). rewrite E in Hs. apply stamps_app in Hs as [Hs Hr].
  destruct (keep f 1 l) as [|b k _] eqn:Ek using rev_ind; [done|]. apply keep_last in Ek. unfold old in Ek.
  apply Forall_app in Hr as [Hr Hb]. rewrite Forall_singleton in Hb.
  rewrite uwrap_id in Ek by (unfold in_u; lia).
  destruct k as [|c k]; [done|]. exfalso. cbn in Hs. apply StronglySorted_inv in Hs as [_ Hs].
  apply Forall_app in Hs as [_ Hs]. rewrite Forall_singleton in Hs. apply Forall_cons in Hr as [Hc _]. lia.
Qed.

(** A heap has at least as many headers as a list has blocks. *)
Lemma dll_size h s p l : NoDup (b_addr <$> l) -> dll h s p l -> (length l <= size h)%nat.
Proof.
  intros Hn Hd. rewrite <- (length_fmap b_addr l), <- (size_list_to_set (C := gset Z) _ Hn), <- (size_dom (D := gset Z) h).
  apply subseteq_size. intros a (b & -> & Hb)%elem_of_list_to_set%list_elem_of_fmap. apply elem_of_dom.
  destruct (dll_elem _ _ _ _ _ Hd Hb) as (_ & ? & ? & ->). eauto.
Qed.

(** The last block of bin [n] goes. *)
Lemma unlink_last_spec h tc ls n l b :
  cache_ok h tc ls -> ls !! n = Some (l ++ [b]) ->
  bin (Z.of_nat n * 2 + 1) tc = Some (b_addr b) /\ b_addr b <> 0 /\
  exists x, h !! b_addr b = Some x /\ lastUsed x = b_last b /\ isforeign x = b_foreign b /\
  exists tc' h', unlink_last nedblksize (Z.of_nat n) (b_addr b) x tc h = Some (tc', h') /\
    cache_ok h' tc' (<[n := l]> ls) /\ same_ids tc tc' /\ (forall a, ~ cached ls a -> h' !! a = h !! a).
Proof.
  intros K Hn. destruct (bins_pop_back _ _ _ _ _ _ (ok_bins _ _ _ K) Hn) as (B2 & Hb0 & Eb & h1 & E1 & R & F).
  split; [by rewrite bin_last|]. split; [done|]. eexists. split; [exact Eb|]. split; [done|]. split; [done|].
  unfold unlink_last. cbn [blk_size prev]. destruct (ok_blocks _ _ _ K _ _ Hn) as [Hbs Hst].
  apply Forall_app in Hbs as Hbb. destruct Hbb as [_ Hbb]. rewrite Forall_singleton in Hbb. destruct Hbb as [Hb1 Hb2]. pose proof (bin_size_pos n) as Hpos.
  replace ((bin_size n <=? nedblksize (b_addr b)) && negb (bin_size n =? 0)) with true by lia. cbn [guard_].
  assert (Ep : (if last_addr l =? 0 then Some (set_bin (Z.of_nat n * 2) 0 (set_bin (Z.of_nat n * 2 + 1) (last_addr l) tc), h)
    else h ← set_next (last_addr l) 0 h; Some (set_bin (Z.of_nat n * 2 + 1) (last_addr l) tc, h)) =
    Some ((if last_addr l =? 0 then set_bin (Z.of_nat n * 2) 0 (set_bin (Z.of_nat n * 2 + 1) (last_addr l) tc)
           else set_bin (Z.of_nat n * 2 + 1) (last_addr l) tc), h1)).
  { destruct (last_addr l =? 0); [by injection E1 as <-|]. by rewrite E1. }
  cbv zeta. rewrite Ep. cbn [mbind option_bind]. set (tc1 := if last_addr l =? 0 then _ else _).
  assert (Ef1 : freeInCache tc1 = total ls) by (unfold tc1; destruct (_ =? 0); apply (ok_free _ _ _ K)).
  pose proof (total_from_elem 0 ls n _ Hn) as Ht. cbn [Nat.add] in Ht. rewrite zlen_app in Ht. change (zlen [b]) with 1 in Ht.
  pose proof (zlen_nonneg l) as Hz. pose proof (ok_total _ _ _ K) as Hmax. unfold total in *.
  destruct (wrap_free (total_from 0 ls - bin_size n)) as [Eu Es]; [nia|]. unfold set_free at 1. cbn [freeInCache].
  rewrite Ef1, Eu, Es. replace (0 <=? _) with true by nia. cbn [guard_].
  assert (Eins : total (<[n := l]> ls) = total_from 0 ls - bin_size n).
  { rewrite (total_insert _ _ _ _ Hn), zlen_app. change (zlen [b]) with 1. unfold total. lia. }
  eexists _, _. split; [done|]. split; [|split; [unfold tc1; by destruct (_ =? 0)|done]].
  eapply shrink_ok; [exact K|exact Hn| | | | |].
  - unfold tc1. by destruct (_ =? 0).
  - cbn [set_free bins]. assert (Eb1 : bins tc1 = (let bs := <[(n * 2 + 1)%nat := last_addr l]> (bins tc) in
      if last_addr l =? 0 then <[(n * 2)%nat := 0]> bs else bs))
      by (unfold tc1; destruct (_ =? 0); by rewrite ?set_bin_first, set_bin_last).
    rewrite Eb1. exact R.
  - cbn [set_free freeInCache]. by rewrite Eins.
  - rewrite Eins. unfold total. lia.
  - intros H1 H2. apply Forall_app in H1 as [H1 _]. split; [done|]. by eapply stamps_app.
Qed.

Lemma cached_shrink ls n l b a : ls !! n = Some (l ++ [b]) -> cached (<[n := l]> ls) a -> cached ls a.
Proof.
  intros Hn (m & lm & c & Hm & Hc & <-). destruct (decide (m = n)) as [->|Hne].
  - rewrite list_lookup_insert_eq in Hm by (by eapply lookup_lt_Some). injection Hm as <-.
    exists n, (l ++ [b]), c. split_and!; [done| |done]. apply elem_of_app. by left.
  - rewrite list_lookup_insert_ne in Hm by done. by exists m, lm, c.
Qed.

Lemma remove_loop_spec age n l : forall h tc ls fuel freed,
  cache_ok h tc ls -> ls !! n = Some l -> (length l <= fuel)%nat ->
  exists tc' h', remove_loop nedblksize fuel (Z.of_nat n) age tc h freed =
      Some (tc', h', freed ++ (ent <$> removed (frees tc) age l)) /\
    cache_ok h' tc' (<[n := keep (frees tc) age l]> ls) /\ same_ids tc tc' /\ (forall a, ~ cached ls a -> h' !! a = h !! a).
Proof.
  induction l as [|b l IH] using rev_ind; intros h tc ls fuel freed K Hn Hf.
  - destruct (bins_bin _ _ _ (ok_bins _ _ _ K) _ _ Hn) as (_ & B2 & _).
    exists tc, h. rewrite app_nil_r. cbn [keep]. rewrite list_insert_id by done. split_and!; try done.
    destruct fuel; cbn [remove_loop]; rewrite bin_last, B2; done.
  - destruct (unlink_last_spec h tc ls n l b K Hn) as (B2 & Hb0 & x & Eb & El & Ef & tc1 & h1 & E1 & K1 & Hid & F1).
    rewrite length_app in Hf. cbn in Hf. destruct fuel as [|fuel]; [lia|]. cbn [remove_loop].
    rewrite B2. cbn [mbind option_bind]. destruct (Z.eqb_spec (b_addr b) 0); [done|]. rewrite Eb.
    cbn [mbind option_bind]. rewrite El. change (age <=? u32 (frees tc - b_last b)) with (old (frees tc) age b).
    rewrite keep_snoc, removed_snoc. destruct (old (frees tc) age b) eqn:Eo.
    2: { exists tc, h. rewrite app_nil_r, list_insert_id by done. done. }
    rewrite E1, Ef. cbn [mbind option_bind]. pose proof (proj1 Hid) as Hfr.
    destruct (IH h1 tc1 (<[n := l]> ls) fuel (freed ++ [(b_addr b, b_foreign b)])) as (tc2 & h2 & E2 & K2 & Hf2 & F2).
    { done. }
    { apply list_lookup_insert_eq. by eapply lookup_lt_Some. }
    { lia. }
    rewrite Hfr in *. exists tc2, h2. split_and!.
    + rewrite E2. by rewrite <- app_assoc.
    + by rewrite list_insert_insert_eq in K2.
    + by eapply same_ids_trans.
    + intros a Ha. rewrite F2, F1; [done|done|]. intros Hc. by eapply Ha, cached_shrink.
Qed.

(** What a removal leaves and what it frees make up what was there. *)
Record removes (h h' : Heap) (tc tc' : threadcache) (ls ls' : list (list ablk)) (freed : list (Z * bool)) : Prop := {
  rm_ok : cache_ok h' tc' ls';
  rm_ids : same_ids tc tc';
  rm_entries : entries ls' ++ freed ≡ₚ entries ls;
  rm_total : total ls' <= total ls;
  rm_frame a : ~ cached ls a -> h' !! a = h !! a
}.

Lemma removes_refl h tc ls : cache_ok h tc ls -> removes h h tc tc ls ls [].
Proof. intros K. split; [done|done|by rewrite app_nil_r|lia|done]. Qed.

Lemma removes_cached h h' tc tc' ls ls' freed a : removes h h' tc tc' ls ls' freed -> cached ls' a -> cached ls a.
Proof.
  intros R. rewrite !cached_entries, <- (rm_entries _ _ _ _ _ _ _ R), fmap_app, elem_of_app. by left.
Qed.

Lemma removes_trans h1 h2 h3 tc1 tc2 tc3 ls1 ls2 ls3 f1 f2 :
  removes h1 h2 tc1 tc2 ls1 ls2 f1 -> removes h2 h3 tc2 tc3 ls2 ls3 f2 -> removes h1 h3 tc1 tc3 ls1 ls3 (f1 ++ f2).
Proof.
  intros R1 R2. split.
  - apply (rm_ok _ _ _ _ _ _ _ R2).
  - eapply same_ids_trans; [apply (rm_ids _ _ _ _ _ _ _ R1)|apply (rm_ids _ _ _ _ _ _ _ R2)].
  - rewrite <- (rm_entries _ _ _ _ _ _ _ R1), <- (rm_entries _ _ _ _ _ _ _ R2). solve_Permutation.
  - pose proof (rm_total _ _ _ _ _ _ _ R1). pose proof (rm_total _ _ _ _ _ _ _ R2). lia.
  - intros a Ha. rewrite (rm_frame _ _ _ _ _ _ _ R2); [by apply (rm_frame _ _ _ _ _ _ _ R1)|].
    intros Hc. apply Ha. by eapply removes_cached.
Qed.

Lemma keep_length f age l : zlen (keep f age l) <= zlen l.
Proof.
  destruct (keep_prefix f age l) as (r & E & _). rewrite E at 2. rewrite zlen_app. pose proof (zlen_nonneg r). lia.
Qed.

Lemma remove_bins_spec age d : forall k h tc ls freed,
  (k + d = 10)%nat -> cache_ok h tc ls ->
  exists tc' h' ls' fr, remove_bins nedblksize (seqZ (Z.of_nat k) (Z.of_nat d)) age tc h freed = Some (tc', h', freed ++ fr) /\
    removes h h' tc tc' ls ls' fr /\
    (forall m l, ls !! m = Some l -> ls' !! m = Some (if decide (k <= m)%nat then keep (frees tc) age l else l)).
Proof.
  induction d as [|d IH]; intros k h tc ls freed Hk K.
  - rewrite seqZ_nil by lia. exists tc, h, ls, []. rewrite app_nil_r. split_and!; [done|by apply removes_refl|].
    intros m l Hm. destruct (decide _) as [Hle|]; [|done]. apply lookup_lt_Some in Hm.
    rewrite (bins_lists _ _ _ (ok_bins _ _ _ K)) in Hm. lia.
  - rewrite seqZ_cons by lia. replace (Z.succ (Z.of_nat k)) with (Z.of_nat (S k)) by lia.
    replace (Z.pred (Z.of_nat (S d))) with (Z.of_nat d) by lia. cbn [remove_bins].
    destruct (bins_in_range _ _ _ k (ok_bins _ _ _ K)) as (l & Hl); [lia|].
    destruct (bins_bin _ _ _ (ok_bins _ _ _ K) _ _ Hl) as (_ & _ & B3 & B4).
    destruct (remove_loop_spec age k l h tc ls (size h) freed K Hl) as (tc1 & h1 & E1 & K1 & F1 & Fr1); [by eapply dll_size|].
    rewrite E1. cbn [mbind option_bind].
    destruct (IH (S k) h1 tc1 (<[k := keep (frees tc) age l]> ls) (freed ++ (ent <$> removed (frees tc) age l)))
      as (tc2 & h2 & ls2 & fr2 & E2 & R2 & L2); [lia|done|].
    exists tc2, h2, ls2, ((ent <$> removed (frees tc) age l) ++ fr2). split_and!.
    + rewrite E2. by rewrite <- app_assoc.
    + eapply removes_trans; [|exact R2]. split; [done|done| | |done].
      * pose proof (entries_insert ls k l (keep (frees tc) age l) Hl) as P1. pose proof (keep_removed (frees tc) age l) as P2.
        apply (Permutation_app_inv_r (ent <$> keep (frees tc) age l)).
        rewrite <- P1, <- P2. solve_Permutation.
      * rewrite (total_insert _ _ _ _ Hl). pose proof (keep_length (frees tc) age l). pose proof (bin_size_pos k). nia.
    + intros m lm Hm. destruct (decide (m = k)) as [->|Hne].
      * assert (lm = l) as -> by congruence.
        rewrite (L2 k (keep (frees tc) age l)) by (apply list_lookup_insert_eq; by eapply lookup_lt_Some).
        destruct (decide (S k <= k)%nat); [lia|]. by destruct (decide (k <= k)%nat); [|lia].
      * rewrite (L2 m lm) by (by rewrite list_lookup_insert_ne). rewrite (proj1 F1).
        destruct (decide (S k <= m)%nat), (decide (k <= m)%nat); try done; lia.
Qed.

(** Nothing cached, nothing to remove. *)
Lemma total_zero ls : total ls = 0 -> forall m l, ls !! m = Some l -> l = [].
Proof.
  intros H0 m l Hm. pose proof (total_from_elem 0 ls m l Hm) as Ht. cbn [Nat.add] in Ht. unfold total in H0.
  pose proof (bin_size_pos m). destruct l as [|b l]; [done|]. rewrite zlen_cons in Ht. pose proof (zlen_nonneg l). nia.
Qed.

Lemma RemoveCacheEntries_spec age h tc ls :
  cache_ok h tc ls ->
  exists tc' h' ls' fr, RemoveCacheEntries nedblksize age tc h = Some (tc', h', fr) /\
    removes h h' tc tc' ls ls' fr /\ (forall m l, ls !! m = Some l -> ls' !! m = Some (keep (frees tc) age l)).
Proof.
  intros K. unfold RemoveCacheEntries. destruct (Z.eqb_spec (freeInCache tc) 0) as [E|E].
  - exists tc, h, ls, []. split_and!; [done|by apply removes_refl|]. intros m l Hm. rewrite (ok_free _ _ _ K) in E.
    pose proof (total_zero ls E m l Hm). by subst l.
  - destruct (remove_bins_spec age 10 0 h tc ls [] eq_refl K) as (tc' & h' & ls' & fr & E1 & R & L).
    exists tc', h', ls', fr. split_and!; [exact E1|done|]. intros m l Hm. rewrite (L m l Hm).
    destruct (decide (0 <= m)%nat); [done|lia].
Qed.

(** Ten lists of at most one block. *)
Lemma total_from_ones n ls : (forall m l, ls !! m = Some l -> zlen l <= 1) -> total_from n ls <= bin_size (n + length ls) - bin_size n.
Proof.
  revert n. induction ls as [|l ls IH]; intros n Hl; cbn [total_from length].
  - rewrite Nat.add_0_r. lia.
  - pose proof (IH (S n) (fun m l E => Hl (S m) l E)) as H1. specialize (Hl 0%nat l eq_refl).
    replace (n + S (length ls))%nat with (S n + length ls)%nat by lia. rewrite bin_size_S in H1.
    pose proof (bin_size_pos n). nia.
Qed.

Lemma remove_one_total h h' tc tc' ls ls' fr :
  cache_ok h tc ls -> removes h h' tc tc' ls ls' fr ->
  (forall m l, ls !! m = Some l -> ls' !! m = Some (keep (frees tc) 1 l)) -> total ls' < THREADCACHEMAXFREESPACE.
Proof.
  intros K R L. pose proof (bins_lists _ _ _ (ok_bins _ _ _ K)) as H10.
  pose proof (bins_lists _ _ _ (ok_bins _ _ _ (rm_ok _ _ _ _ _ _ _ R))) as H10'.
  assert (Hone : forall m l, ls' !! m = Some l -> zlen l <= 1).
  { intros m l Hm. destruct (bins_in_range _ _ _ m (ok_bins _ _ _ K)) as (l0 & H0).
    { apply lookup_lt_Some in Hm. lia. }
    rewrite (L m l0 H0) in Hm. injection Hm as <-. apply keep_one; [apply (ok_frees _ _ _ K)|apply (ok_blocks _ _ _ K _ _ H0)]. }
  pose proof (total_from_ones 0 ls' Hone) as Ht. rewrite H10' in Ht. unfold total, THREADCACHEMAXFREESPACE.
  change (bin_size (0 + 10) - bin_size 0) with 16368 in Ht. lia.
Qed.

Lemma release_loop_spec e : forall h tc ls freed fuel,
  (e < fuel)%nat -> cache_ok h tc ls ->
  exists tc' h' ls' fr, release_loop nedblksize fuel (2 ^ Z.of_nat e) tc h freed = Some (tc', h', freed ++ fr) /\
    removes h h' tc tc' ls ls' fr /\ total ls' < THREADCACHEMAXFREESPACE.
Proof.
  induction e as [|e IH]; intros h tc ls freed fuel Hf K; (destruct fuel as [|fuel]; [lia|]); cbn [release_loop].
  - change (2 ^ Z.of_nat 0) with 1. change (negb (1 =? 0)) with true. cbn [andb].
    destruct (Z.leb_spec THREADCACHEMAXFREESPACE (freeInCache tc)) as [Hle|Hlt].
    + destruct (RemoveCacheEntries_spec 1 h tc ls K) as (tc1 & h1 & ls1 & fr & E & R & L). rewrite E. cbn [mbind option_bind].
      exists tc1, h1, ls1, fr. split_and!; [|done|by eapply remove_one_total]. destruct fuel; done.
    + exists tc, h, ls, []. rewrite app_nil_r. split_and!; [done|by apply removes_refl|]. by rewrite <- (ok_free _ _ _ K).
  - assert (Hp : 0 < 2 ^ Z.of_nat (S e)) by (apply Z.pow_pos_nonneg; lia).
    replace (2 ^ Z.of_nat (S e) =? 0) with false by (symmetry; apply Z.eqb_neq; intros E0; rewrite E0 in Hp; lia). cbn [negb andb].
    destruct (Z.leb_spec THREADCACHEMAXFREESPACE (freeInCache tc)) as [Hle|Hlt].
    + destruct (RemoveCacheEntries_spec (2 ^ Z.of_nat (S e)) h tc ls K) as (tc1 & h1 & ls1 & fr & E & R & L).
      rewrite E. cbn [mbind option_bind].
      assert (Z.shiftr (2 ^ Z.of_nat (S e)) 1 = 2 ^ Z.of_nat e) as ->.
      { rewrite Z.shiftr_div_pow2, Nat2Z.inj_succ, Z.pow_succ_r by lia. change (2 ^ 1) with 2.
        rewrite Z.mul_comm. apply Z.div_mul. lia. }
      destruct (IH h1 tc1 ls1 (freed ++ fr) fuel ltac:(lia) (rm_ok _ _ _ _ _ _ _ R)) as (tc2 & h2 & ls2 & fr2 & E2 & R2 & T2).
      exists tc2, h2, ls2, (fr ++ fr2). split_and!; [by rewrite E2, <- app_assoc|by eapply removes_trans|done].
    + exists tc, h, ls, []. rewrite app_nil_r. split_and!; [done|by apply removes_refl|]. by rewrite <- (ok_free _ _ _ K).
Qed.

Lemma ReleaseFreeInCache_spec h tc ls :
  cache_ok h tc ls ->
  exists tc' h' ls' fr, ReleaseFreeInCache nedblksize tc h = Some (tc', h', fr) /\
    removes h h' tc tc' ls ls' fr /\ total ls' < THREADCACHEMAXFREESPACE.
Proof. intros K. apply (release_loop_spec 6 h tc ls [] 7 ltac:(lia) K). Qed.

Lemma stamps_cons f f' b l : stamps_ok f l -> f < f' -> b_last b = f' -> 0 <= f' -> stamps_ok f' (b :: l).
Proof.
  intros [H1 H2] Hlt Hb H0. split; constructor; try done; try lia.
  - eapply Forall_impl; [exact H2|]. cbn. lia.
  - eapply Forall_impl; [exact H2|]. cbn. lia.
Qed.

(** Adding a block to bin [n] keeps the invariant. *)
Lemma push_ok h h' tc tc' ls n l b :
  cache_ok h tc ls -> total ls < THREADCACHEMAXFREESPACE -> ls !! n = Some l -> (n <= 9)%nat ->
  frees tc' = frees tc + 1 -> frees tc' < 2 ^ 32 -> b_last b = frees tc' -> block_ok n b ->
  bins_repr h' (bins tc') (<[n := b :: l]> ls) -> freeInCache tc' = total ls + bin_size n ->
  cache_ok h' tc' (<[n := b :: l]> ls).
Proof.
  intros K Hmax Hl Hn Hf Hf2 Hb Hok R Hfree. pose proof (ok_frees _ _ _ K). pose proof (proj2 (bin_size_8192 n) Hn).
  assert (Et : total (<[n := b :: l]> ls) = total ls + bin_size n) by (rewrite (total_insert _ _ _ _ Hl), zlen_cons; lia).
  split; [done|by rewrite Et|rewrite Et; unfold THREADCACHEMAXFREESPACE in *; lia|lia|].
  intros m lm Hm. destruct (decide (m = n)) as [->|Hne].
  - rewrite list_lookup_insert_eq in Hm by (by eapply lookup_lt_Some). injection Hm as <-.
    destruct (ok_blocks _ _ _ K _ _ Hl) as [H1 H2]. split; [by constructor|]. eapply stamps_cons; [exact H2|lia|done|lia].
  - rewrite list_lookup_insert_ne in Hm by done. destruct (ok_blocks _ _ _ K _ _ Hm) as [H1 [H2 H3]].
    split; [done|]. split; [done|]. eapply Forall_impl; [exact H3|]. cbn. lia.
Qed.

(** [threadcache_free] adds the block and stays below the limit. *)
(** A block that is not in the cache goes to the front of bin [n]. *)
Lemma link_block_spec mem foreign h tc ls n l :
  cache_ok h tc ls -> total ls < THREADCACHEMAXFREESPACE -> frees tc + 1 < 2 ^ 32 -> (n <= 9)%nat -> ls !! n = Some l ->
  mem <> 0 -> ~ cached ls mem -> block_ok n (mkABlk mem foreign (frees tc + 1)) ->
  exists tc' h', link_block mem (bin_size n) (Z.of_nat n) (hd_addr l) foreign tc h = Some (tc', h') /\
    cache_ok h' tc' (<[n := mkABlk mem foreign (frees tc + 1) :: l]> ls) /\ freeInCache tc' = total ls + bin_size n /\
    frees tc' = frees tc + 1 /\ mymspace tc' = mymspace tc /\ threadid tc' = threadid tc /\
    (forall a, ~ cached ls a -> a <> mem -> h' !! a = h !! a).
Proof.
  intros K Hmax Hfr Hn Hl H0 Hc Hbo. unfold link_block. pose proof (ok_frees _ _ _ K) as Hf0. cbv zeta. cbn [frees].
  rewrite (uwrap_id 32 (frees tc + 1)) by (unfold in_u; lia).
  pose proof (bin_size_pos n) as Hpos. pose proof (proj2 (bin_size_8192 n) Hn) as H8.
  rewrite (uwrap_id 32 (bin_size n)) by (unfold in_u; lia).
  set (b := mkABlk mem foreign (frees tc + 1)) in *.
  destruct (bins_push h (bins tc) ls n l b (ok_bins _ _ _ K) Hl H0 Hc) as (h1 & E1 & R1 & F1 & S1).
  cbn [b_addr b_foreign b_last b] in E1, R1, F1. cbv zeta in E1.
  set (h0 := <[mem := _]> h) in *. set (tc0 := mkCache _ _ _ (frees tc + 1) _ _ _).
  assert (Ep : (if hd_addr l =? 0 then Some (set_bin (Z.of_nat n * 2 + 1) mem tc0, h0)
    else h ← set_prev (hd_addr l) mem h0; Some (tc0, h)) =
    Some (if hd_addr l =? 0 then set_bin (Z.of_nat n * 2 + 1) mem tc0 else tc0, h1)).
  { destruct (hd_addr l =? 0); [by injection E1 as <-|]. by rewrite E1. }
  rewrite Ep. cbn [mbind option_bind]. set (tc1 := if hd_addr l =? 0 then _ else _).
  assert (Esame : (if hd_addr l =? 0 then Some true else b ← h1 !! hd_addr l; Some (blk_size b =? bin_size n)) = Some true).
  { destruct (Z.eqb_spec (hd_addr l) 0); [done|]. destruct S1 as (x & -> & Ex); [done|]. cbn. by rewrite Ex, Z.eqb_refl. }
  rewrite Esame. cbn [mbind option_bind guard_].
  assert (Ef1 : freeInCache (set_bin (Z.of_nat n * 2) mem tc1) = total ls)
    by (unfold tc1; destruct (_ =? 0); apply (ok_free _ _ _ K)).
  pose proof (total_from_nonneg 0 ls) as Ht0. unfold total, THREADCACHEMAXFREESPACE in Hmax.
  destruct (wrap_free (total ls + bin_size n)) as [Eu _]; [unfold total, THREADCACHEMAXFREESPACE; lia|].
  cbn [set_free freeInCache]. rewrite Ef1, Eu. eexists _, h1. split; [done|].
  split; [|unfold tc1; split_and!; try done; by destruct (_ =? 0)].
  eapply (push_ok h h1 tc); try done; try (unfold tc1; by destruct (_ =? 0)).
  cbn [set_free bins]. rewrite set_bin_first. unfold tc1. destruct (_ =? 0); by rewrite ?set_bin_last.
Qed.

Lemma threadcache_free_spec mem foreign h tc ls :
  cache_ok h tc ls -> total ls < THREADCACHEMAXFREESPACE -> frees tc + 1 < 2 ^ 32 ->
  sizeof_threadcacheblk <= nedblksize mem <= THREADCACHEMAX + CHUNK_OVERHEAD -> mem <> 0 -> ~ cached ls mem ->
  exists tc' h' ls' fr, threadcache_free nedblksize mem (nedblksize mem) foreign tc h = Some (tc', h', fr) /\
    cache_ok h' tc' ls' /\ total ls' < THREADCACHEMAXFREESPACE /\
    frees tc' = frees tc + 1 /\ mymspace tc' = mymspace tc /\ threadid tc' = threadid tc /\
    entries ls' ++ fr ≡ₚ (mem, foreign) :: entries ls /\
    (forall a, ~ cached ls a -> a <> mem -> h' !! a = h !! a).
Proof.
  intros K Hmax Hfr Hsz H0 Hc. unfold sizeof_threadcacheblk, THREADCACHEMAX, CHUNK_OVERHEAD in Hsz.
  destruct (bin_below (nedblksize mem)) as (n & Hn & En & Hb); [unfold THREADCACHEMAX, CHUNK_OVERHEAD; lia|].
  unfold threadcache_free. rewrite En. cbn [mbind option_bind].
  replace (_ && _) with true by (unfold sizeof_threadcacheblk, THREADCACHEMAX, CHUNK_OVERHEAD; lia). cbn [guard_].
  rewrite best_size by done.
  assert (Er : (if negb (bin_size n =? nedblksize mem) then bin_size n else nedblksize mem) = bin_size n)
    by (destruct (Z.eqb_spec (bin_size n) (nedblksize mem)); done).
  cbv zeta. rewrite Er. unfold THREADCACHEMAXBINS. replace (Z.of_nat n <=? 13 - 4) with true by lia. cbn [guard_].
  destruct (bins_in_range _ _ _ n (ok_bins _ _ _ K)) as (l & Hl); [lia|].
  destruct (bins_bin _ _ _ (ok_bins _ _ _ K) _ _ Hl) as (B1 & _). rewrite bin_first, B1. cbn [mbind option_bind].
  destruct (Z.eqb_spec mem (hd_addr l)) as [E|_].
  { destruct l as [|d l]; [done|]. destruct Hc. exists n, (d :: l), d. split_and!; [done|left|done]. }
  destruct (link_block_spec mem foreign h tc ls n l K Hmax Hfr Hn Hl H0 Hc) as (tc2 & h1 & E1 & K2 & Ef & I1 & I2 & I3 & F1).
  { split; [cbn; lia|]. cbn. unfold sizeof_threadcacheblk, THREADCACHEMAX, CHUNK_OVERHEAD. lia. }
  rewrite E1. cbn [mbind option_bind]. rewrite Ef. set (b := mkABlk _ _ _) in *.
  assert (Pe : entries (<[n := b :: l]> ls) ≡ₚ (mem, foreign) :: entries ls).
  { pose proof (entries_insert ls n l (b :: l) Hl) as P. apply (Permutation_app_inv_r (ent <$> l)). rewrite P. cbn.
    change (ent b) with (mem, foreign). solve_Permutation. }
  destruct (Z.leb_spec THREADCACHEMAXFREESPACE (total ls + bin_size n)) as [Hge|Hlt].
  - destruct (ReleaseFreeInCache_spec h1 tc2 _ K2) as (tc3 & h3 & ls3 & fr & E3 & R3 & T3).
    destruct (rm_ids _ _ _ _ _ _ _ R3) as (J1 & J2 & J3).
    exists tc3, h3, ls3, fr. split_and!; [exact E3|apply (rm_ok _ _ _ _ _ _ _ R3)|done|congruence|congruence|congruence| |].
    + by rewrite (rm_entries _ _ _ _ _ _ _ R3).
    + intros a Ha Hm. rewrite (rm_frame _ _ _ _ _ _ _ R3); [by apply F1|].
      rewrite cached_entries, Pe. cbn. intros [?|?]%elem_of_cons; [done|]. by apply Ha, cached_entries.
  - exists tc2, h1, (<[n := b :: l]> ls), []. split_and!; try done; [|by rewrite app_nil_r].
    by rewrite <- (ok_free _ _ _ K2), Ef.
Qed.
End Spec.
