(* ===== verification/NedPool.v ===== *)
(** The pools of the allocator in source/memory/nedmalloc.cpp: which cache and which
    memory space a thread uses, and the operations [nedpmalloc], [nedpcalloc],
    [nedprealloc], [nedpfree] and [nedtrimthreadcache] on top of the thread caches
    ([NedCache]).

    An operation that asks a memory space for a block takes the answer as an argument
    ([Answer]), and [owned] holds the blocks given out with their usable sizes; [NedSpace]
    shows that the memory spaces of malloc.c.h answer as the pools rely on. The
    contents of blocks are not modelled. Locks are: which spaces another thread
    holds is an argument. [None] is a failed assertion or an [abort]. *)
From stdpp Require Import gmap.
From S2P Require Import Prelude DlBins NedCache.
Local Open Scope Z_scope.

(** The answer of a memory space: the address and the usable size of a block. *)
Definition Answer : Type := option (Z * Z).

Record nedpool : Type := mkPool {
  threads : Z;
  caches : list (option threadcache);
  (** The thread-local value: zero for unset, negative for memory space [-v - 1]
      without a cache, otherwise cache [v - 1]. *)
  mycache : gmap Z Z;
  m : list Z;
  heap : gmap Z threadcacheblk;
  owned : gmap Z Z
}.
Definition set_caches c p := mkPool (threads p) c (mycache p) (m p) (heap p) (owned p).
Definition set_heap h p := mkPool (threads p) (caches p) (mycache p) (m p) h (owned p).
Definition set_owned o p := mkPool (threads p) (caches p) (mycache p) (m p) (heap p) o.
Definition set_m l p := mkPool (threads p) (caches p) (mycache p) l (heap p) (owned p).
Definition TLSGET (t : Z) (p : nedpool) : Z := default 0 (mycache p !! t).
Definition TLSSET (t v : Z) (p : nedpool) : nedpool :=
  mkPool (threads p) (caches p) (<[t := v]> (mycache p)) (m p) (heap p) (owned p).

(** [nedblksize]: zero for a block that is not from a memory space. *)
Definition nedblksize (p : nedpool) (mem : Z) : Z := default 0 (owned p !! mem).

(** ** The memory spaces *)
Definition CallMalloc (answer : Answer) (p : nedpool) : Z * nedpool :=
  match answer with Some (a, usable) => (a, set_owned (<[a := usable]> (owned p)) p) | None => (0, p) end.
Definition CallFree (mem : Z) (p : nedpool) : nedpool := set_owned (delete mem (owned p)) p.
(** [CallRealloc] of a block of the pool: moved or grown in place, or a failure
    that leaves it. *)
Definition CallRealloc (mem : Z) (answer : Answer) (p : nedpool) : Z * nedpool :=
  match answer with
  | Some (a, usable) => (a, set_owned (<[a := usable]> (delete mem (owned p))) p)
  | None => (0, p)
  end.

(** The number of spaces in use: [for(end=0; p->m[end]; end++)]. *)
Fixpoint spaces (l : list Z) : nat := match l with x :: l => if x =? 0 then 0%nat else S (spaces l) | [] => 0%nat end.

(** [InitPool]; [space] is the answer of [create_mspace], zero also when the lock or
    the thread-local slot cannot be had. [threads] is negative for the pool of the
    system. *)
Definition InitPool (space threads_ : Z) (p : nedpool) : option (bool * nedpool) :=
  if negb (threads p =? 0) then Some (true, p)
  else if space =? 0 then
    if threads_ <? 0 then None else Some (false, set_m (<[0%nat := 0]> (m p)) p)
  else
    let t := if (threads_ <? 1) || (MAXTHREADSINPOOL <? threads_) then MAXTHREADSINPOOL else threads_ in
    Some (true, mkPool t (caches p) (mycache p) (<[0%nat := space]> (m p)) (heap p) (owned p)).

(** The cache at index [i]. *)
Definition cache_at (i : nat) (p : nedpool) : option threadcache := mjoin (caches p !! i).
Definition put_cache (i : nat) (tc : threadcache) (p : nedpool) : nedpool := set_caches (<[i := Some tc]> (caches p)) p.
Definition set_mymspace (n : Z) (tc : threadcache) : threadcache :=
  mkCache n (threadid tc) (mallocs tc) (frees tc) (successes tc) (freeInCache tc) (bins tc).

(** [FindMSpace] for a thread whose space is locked: the first space behind its own
    that can be locked, then the first one before it, then a new one ([space], the
    answer of [create_mspace]) as long as there are fewer than [threads], and else
    its own again. [locked] says which spaces other threads hold. A scan gives the
    index where it stopped and whether it locked the space there; it reads no
    further than [stop]. *)
Fixpoint scan (fuel : nat) (locked : nat -> bool) (l : list Z) (n : nat) (stop : option nat) : option (bool * nat) :=
  match fuel with
  | O => None
  | S fuel =>
      if match stop with Some e => (e <=? n)%nat | None => false end then Some (false, n)
      else
        x ← l !! n;
        if x =? 0 then Some (false, n)
        else if negb (locked n) then Some (true, n) else scan fuel locked l (S n) stop
  end.
Definition found_space (t : Z) (tc : option nat) (n : nat) (p : nedpool) : option nedpool :=
  match tc with
  | Some i => c ← cache_at i p; Some (put_cache i (set_mymspace (Z.of_nat n) c) p)
  | None => Some (TLSSET t (- (Z.of_nat n + 1)) p)
  end.
Definition FindMSpace (t : Z) (locked : nat -> bool) (space : Z) (tc : option nat) (lastUsed : nat) (p : nedpool)
    : option (nat * nedpool) :=
  let fuel := S (length (m p)) in
  '(found, end_) ← scan fuel locked (m p) (lastUsed + 1) None;
  if (found : bool) then p ← found_space t tc end_ p; Some (end_, p)
  else
    '(found, n) ← scan fuel locked (m p) 0 (Some lastUsed);
    if (found : bool) then p ← found_space t tc n p; Some (n, p)
    else if (Z.of_nat end_ <? threads p) && negb (space =? 0) then
      p ← found_space t tc end_ (set_m (<[end_ := space]> (m p)) p); Some (end_, p)
    else Some (lastUsed, p).

(** [GetMSpace]. *)
Definition GetMSpace (t : Z) (locked : nat -> bool) (space : Z) (tc : option nat) (mymspace : Z) (p : nedpool)
    : option nedpool :=
  guard_ (0 <=? mymspace) (
  x ← m p !! Z.to_nat mymspace;
  guard_ (negb (x =? 0)) (
  if locked (Z.to_nat mymspace) then '(_, p) ← FindMSpace t locked space tc (Z.to_nat mymspace) p; Some p else Some p)).

(** ** The cache of a thread *)

(** [AllocCache]: the first free slot; [ok] says whether the memory space had room
    for the cache itself. *)
Fixpoint free_slot (l : list (option threadcache)) (n : nat) : nat :=
  match l with Some _ :: l => free_slot l (S n) | _ => n end.
Definition new_cache (t : Z) (end_ : Z) : threadcache := mkCache (Z.abs t mod end_) t 0 0 0 0 (repeat 0 20).
Definition AllocCache (t : Z) (ok : bool) (p : nedpool) : option (option nat * nedpool) :=
  let n := free_slot (caches p) 0 in
  if (THREADCACHEMAXCACHES <=? n)%nat || negb ok then Some (None, p)
  else
    let end_ := Z.of_nat (spaces (m p)) in
    guard_ (negb (end_ =? 0))
      (Some (Some n, TLSSET t (Z.of_nat n + 1) (put_cache n (new_cache t end_) p))).

(** [GetThreadCache] with its two cold parts: the cache of the thread (if it has
    one), its memory space, and the size, at least that of a header. *)
Definition GetThreadCache (t : Z) (ok : bool) (size : Z) (p : nedpool) : option (option nat * Z * Z * nedpool) :=
  let size := if size <? sizeof_threadcacheblk then sizeof_threadcacheblk else size in
  let mycache := TLSGET t p in
  '(tc, mymspace, p) ←
    (if 0 <? mycache then
       c ← cache_at (Z.to_nat (mycache - 1)) p; Some (Some (Z.to_nat (mycache - 1)), mymspace c, p)
     else if mycache =? 0 then
       '(tc, p) ← AllocCache t ok p;
       match tc with
       | None => Some (None, 0, TLSSET t (-1) p)
       | Some i => c ← cache_at i p; Some (Some i, mymspace c, p)
       end
     else Some (None, - mycache - 1, p));
  guard_ (0 <=? mymspace) (
  same_thread ← match tc with Some i => c ← cache_at i p; Some (threadid c =? t) | None => Some true end;
  guard_ same_thread (Some (tc, mymspace, size, p))).

(** What a call meets: its thread, whether a cache can be allocated, which spaces
    are locked, what a new space would be, and the answer of the space. *)
Record Call : Type := mkCall { thread : Z; cache_ok_ : bool; locked_ : nat -> bool; space_ : Z; answer_ : Answer }.

(** [threadcache_malloc] on the cache [i] of the pool. *)
Definition pool_cache_malloc (i : nat) (size : Z) (p : nedpool) : option (Z * Z * nedpool) :=
  c ← cache_at i p;
  '(ret, size, c, h) ← threadcache_malloc (nedblksize p) size c (heap p);
  Some (ret, size, set_heap h (put_cache i c p)).
(** [threadcache_free], with the calls of [CallFree]. *)
Definition pool_cache_free (i : nat) (mem size : Z) (p : nedpool) : option nedpool :=
  c ← cache_at i p;
  '(c, h, freed) ← threadcache_free (nedblksize p) mem size false c (heap p);
  Some (foldr (fun f p => CallFree f.1 p) (set_heap h (put_cache i c p)) freed).

(** ** Operations *)
Definition nedpmalloc (k : Call) (size : Z) (p : nedpool) : option (Z * nedpool) :=
  '(tc, mymspace, size, p) ← GetThreadCache (thread k) (cache_ok_ k) size p;
  '(ret, size, p) ←
    match tc with
    | Some i => if size <=? THREADCACHEMAX then pool_cache_malloc i size p else Some (0, size, p)
    | None => Some (0, size, p)
    end;
  if negb (ret =? 0) then Some (ret, p)
  else
    p ← GetMSpace (thread k) (locked_ k) (space_ k) tc mymspace p;
    Some (CallMalloc (answer_ k) p).

(** [nedpcalloc] differs in the size, a product in 64 bits, and in that it clears
    the block. *)
Definition nedpcalloc (k : Call) (no size : Z) (p : nedpool) : option (Z * nedpool) :=
  nedpmalloc k (u64 (size * no)) p.

(** [nedpmemalign]: always from the memory space. *)
Definition nedpmemalign (k : Call) (bytes : Z) (p : nedpool) : option (Z * nedpool) :=
  '(tc, mymspace, _, p) ← GetThreadCache (thread k) (cache_ok_ k) bytes p;
  p ← GetMSpace (thread k) (locked_ k) (space_ k) tc mymspace p;
  Some (CallMalloc (answer_ k) p).

(** [nedpfree]. *)
Definition nedpfree (k : Call) (mem : Z) (p : nedpool) : option nedpool :=
  if mem =? 0 then Some p
  else
    let memsize := nedblksize p mem in
    if memsize =? 0 then None
    else
      '(tc, _, _, p) ← GetThreadCache (thread k) (cache_ok_ k) 0 p;
      match tc with
      | Some i =>
          if (sizeof_threadcacheblk <=? memsize) && (memsize <=? THREADCACHEMAX + CHUNK_OVERHEAD)
          then pool_cache_free i mem memsize p else Some (CallFree mem p)
      | None => Some (CallFree mem p)
      end.

(** [nedprealloc]. *)
Definition nedprealloc (k : Call) (mem size : Z) (p : nedpool) : option (Z * nedpool) :=
  if mem =? 0 then nedpmalloc k size p
  else
    let memsize := nedblksize p mem in
    if memsize =? 0 then None
    else if (size <=? memsize) && (memsize - size <? 1024) then Some (mem, p)
    else
      '(tc, mymspace, size, p) ← GetThreadCache (thread k) (cache_ok_ k) size p;
      '(ret, size, p) ←
        match tc with
        | Some i =>
            if (negb (size =? 0)) && (size <=? THREADCACHEMAX) then
              '(ret, size, p) ← pool_cache_malloc i size p;
              if negb (ret =? 0) then
                p ← (if (sizeof_threadcacheblk <=? memsize) && (memsize <=? THREADCACHEMAX + CHUNK_OVERHEAD)
                     then pool_cache_free i mem memsize p else Some (CallFree mem p));
                Some (ret, size, p)
              else Some (ret, size, p)
            else Some (0, size, p)
        | None => Some (0, size, p)
        end;
      if negb (ret =? 0) then Some (ret, p) else Some (CallRealloc mem (answer_ k) p).

(** [nedtrimthreadcache]: empties the cache of the thread and, with [disable], gives
    it up. [bump] is the assignment [tc->frees++]. *)
Definition bump_frees (c : threadcache) : threadcache :=
  mkCache (mymspace c) (threadid c) (mallocs c) (u32 (frees c + 1)) (successes c) (freeInCache c) (bins c).
Definition nedtrimthreadcache (t : Z) (disable : bool) (p : nedpool) : option nedpool :=
  let mycache := TLSGET t p in
  if mycache =? 0 then Some (if disable then TLSSET t (-1) p else p)
  else if 0 <? mycache then
    let i := Z.to_nat (mycache - 1) in
    c ← cache_at i p;
    let p := if disable then TLSSET t (- mymspace c) p else p in
    '(c, h, freed) ← RemoveCacheEntries (nedblksize p) 0 (bump_frees c) (heap p);
    guard_ (freeInCache c =? 0) (
    let p := foldr (fun f p => CallFree f.1 p) (set_heap h (put_cache i c p)) freed in
    Some (if disable then set_caches (<[i := None]> (caches p)) p else p))
  else Some p.
Definition neddisablethreadcache (t : Z) (p : nedpool) : option nedpool := nedtrimthreadcache t true p.

(** [DestroyCaches]. *)
Definition destroy_cache (i : nat) (p : nedpool) : option nedpool :=
  match caches p !! i with
  | Some (Some c) =>
      '(c, h, freed) ← RemoveCacheEntries (nedblksize p) 0 (bump_frees c) (heap p);
      guard_ (freeInCache c =? 0) (
      let p := foldr (fun f p => CallFree f.1 p) (set_heap h (put_cache i c p)) freed in
      Some (set_caches (<[i := None]> (caches p)) p))
  | _ => Some p
  end.
Fixpoint destroy_caches (is_ : list nat) (p : nedpool) : option nedpool :=
  match is_ with [] => Some p | i :: is_ => p ← destroy_cache i p; destroy_caches is_ p end.
Definition DestroyCaches (p : nedpool) : option nedpool := destroy_caches (seq 0 THREADCACHEMAXCACHES) p.

(** * The invariant of a pool *)

(** The memory spaces: at least one, at most [threads], in the front of an array of
    seventeen. *)
Definition spaces_ok (p : nedpool) : Prop :=
  exists l, m p = l ++ repeat 0 (17 - length l) /\ Forall (fun x => x <> 0) l /\
    1 <= zlen l <= threads p /\ threads p <= MAXTHREADSINPOOL.

(** [G i] are the lists of cache [i]; [n] bounds the number of blocks freed. *)
Record caches_ok (n : Z) (p : nedpool) (G : nat -> list (list ablk)) : Prop := {
  co_length : length (caches p) = THREADCACHEMAXCACHES;
  co_cache i c : cache_at i p = Some c ->
    cache_ok (nedblksize p) (heap p) c (G i) /\ total (G i) < THREADCACHEMAXFREESPACE /\ frees c <= n /\
    0 <= mymspace c < Z.of_nat (spaces (m p));
  co_disjoint i j c d a : cache_at i p = Some c -> cache_at j p = Some d -> i <> j ->
    cached (G i) a -> ~ cached (G j) a
}.

(** Every thread's value names its own cache, or a memory space. *)
Definition tls_ok (p : nedpool) : Prop :=
  forall t, (0 < TLSGET t p -> exists c, cache_at (Z.to_nat (TLSGET t p - 1)) p = Some c /\ threadid c = t) /\
    (TLSGET t p < 0 -> - TLSGET t p - 1 < Z.of_nat (spaces (m p))).

(** Every block of the memory spaces is either in use ([live]) or in one cache. *)
Record blocks_ok (p : nedpool) (live : gset Z) (G : nat -> list (list ablk)) : Prop := {
  bo_owned a : is_Some (owned p !! a) <-> a ∈ live \/ exists i c, cache_at i p = Some c /\ cached (G i) a;
  bo_cached a i c : cache_at i p = Some c -> cached (G i) a -> a ∉ live;
  bo_size a u : owned p !! a = Some u -> a <> 0 /\ 0 < u
}.

Record pool_ok (n : Z) (p : nedpool) (live : gset Z) (G : nat -> list (list ablk)) : Prop := {
  po_spaces : spaces_ok p;
  po_caches : caches_ok n p G;
  po_tls : tls_ok p;
  po_blocks : blocks_ok p live G
}.

(** ** Memory spaces *)
Lemma spaces_app l k : Forall (fun x => x <> 0) l -> spaces (l ++ repeat 0 k) = length l.
Proof.
  induction 1 as [|x l Hx Hl IH]; cbn; [by destruct k|]. destruct (Z.eqb_spec x 0); [done|]. by rewrite IH.
Qed.

Lemma spaces_spec p : spaces_ok p ->
  exists l, m p = l ++ repeat 0 (17 - length l) /\ Forall (fun x => x <> 0) l /\ spaces (m p) = length l /\
    (1 <= length l <= 16)%nat /\ zlen l <= threads p /\ length (m p) = 17%nat.
Proof.
  intros (l & E & Hl & H1 & H2). exists l. unfold MAXTHREADSINPOOL, zlen in *. split_and!; try done; try lia.
  - by rewrite E, spaces_app.
  - rewrite E, length_app, repeat_length. lia.
Qed.

Lemma scan_spec locked p n stop fuel : spaces_ok p -> (n <= spaces (m p))%nat -> (spaces (m p) - n < fuel)%nat ->
  exists found e, scan fuel locked (m p) n stop = Some (found, e) /\ (n <= e <= spaces (m p))%nat /\
    (found = true -> (e < spaces (m p))%nat) /\ (found = false -> stop = None -> e = spaces (m p)).
Proof.
  intros Hs. destruct (spaces_spec p Hs) as (l & E & Hl & Es & Hlen & _ & H17). rewrite Es in *. revert n.
  induction fuel as [|fuel IH]; intros n Hn Hf; [lia|]. cbn [scan].
  destruct (match stop with Some e => (e <=? n)%nat | None => false end) eqn:Est.
  { exists false, n. split_and!; try done; try lia. intros _ ->. done. }
  destruct (decide (n = length l)) as [->|Hne].
  - rewrite E, lookup_app_r, Nat.sub_diag by lia. replace (17 - length l)%nat with (S (16 - length l)) by lia. cbn.
    exists false, (length l). split_and!; try done; lia.
  - rewrite E, lookup_app_l by lia. destruct (lookup_lt_is_Some_2 l n ltac:(lia)) as [x Hx]. rewrite Hx. cbn.
    destruct (Z.eqb_spec x 0) as [->|Hx0].
    { rewrite Forall_forall in Hl. exfalso. apply (Hl 0); [by eapply list_elem_of_lookup_2|done]. }
    destruct (locked n); cbn.
    + destruct (IH (S n)) as (found & e & Ee & H1 & H2 & H3); [lia|lia|]. rewrite E in Ee.
      exists found, e. split_and!; try done; lia.
    + exists true, n. split_and!; try done; lia.
Qed.

Lemma spaces_grow p x : spaces_ok p -> x <> 0 -> Z.of_nat (spaces (m p)) < threads p ->
  let p' := set_m (<[spaces (m p) := x]> (m p)) p in spaces_ok p' /\ spaces (m p') = S (spaces (m p)).
Proof.
  intros Hs Hx Hlt. destruct (spaces_spec p Hs) as (l & E & Hl & Es & Hlen & Ht & _). cbv zeta. cbn [m set_m].
  assert (E2 : <[spaces (m p) := x]> (m p) = (l ++ [x]) ++ repeat 0 (17 - length (l ++ [x]))).
  { rewrite Es, E, insert_app_r_alt, Nat.sub_diag by lia. rewrite length_app. cbn [length].
    replace (17 - length l)%nat with (S (16 - length l)) by lia. cbn. rewrite <- app_assoc. cbn. do 2 f_equal. f_equal. lia. }
  assert (Hlx : Forall (fun x => x <> 0) (l ++ [x])) by (apply Forall_app; split; [done|by apply Forall_singleton]).
  split; [|rewrite E2, spaces_app by done; rewrite length_app, Es; cbn; lia].
  exists (l ++ [x]). cbn [m set_m threads]. destruct Hs as (l0 & _ & _ & _ & H16).
  split_and!; [done|done| | |done]; unfold zlen; rewrite length_app; cbn; lia.
Qed.

(** ** Changes that keep the blocks *)
Lemma cache_at_lt i p c : cache_at i p = Some c -> (i < length (caches p))%nat.
Proof. unfold cache_at. destruct (caches p !! i) eqn:E; [|done]. intros _. by eapply lookup_lt_Some. Qed.

Lemma cache_at_put i j c p : (i < length (caches p))%nat ->
  cache_at j (put_cache i c p) = if decide (j = i) then Some c else cache_at j p.
Proof.
  intros Hi. unfold cache_at, put_cache. cbn [caches set_caches]. destruct (decide (j = i)) as [->|Hne].
  - by rewrite list_lookup_insert_eq.
  - by rewrite list_lookup_insert_ne.
Qed.

(** A thread gets another value. *)
Lemma pool_tls n p live G t v :
  pool_ok n p live G ->
  (0 < v -> exists c, cache_at (Z.to_nat (v - 1)) p = Some c /\ threadid c = t) ->
  (v < 0 -> - v - 1 < Z.of_nat (spaces (m p))) ->
  pool_ok n (TLSSET t v p) live G.
Proof.
  intros [P1 [P2 P2' P2''] P3 [P4 P4' P4'']] H1 H2. split; [exact P1|by split| |by split].
  intros t'. destruct (P3 t') as [T1 T2]. unfold TLSGET. cbn [mycache TLSSET]. destruct (decide (t' = t)) as [->|Hne].
  - rewrite lookup_insert_eq. split; [exact H1|exact H2].
  - rewrite lookup_insert_ne by done. split; [exact T1|exact T2].
Qed.

(** A cache gets other counters, or another memory space. *)
Lemma pool_put n p live G i c c' :
  pool_ok n p live G -> cache_at i p = Some c -> bins c' = bins c -> freeInCache c' = freeInCache c -> frees c' = frees c ->
  threadid c' = threadid c -> 0 <= mymspace c' < Z.of_nat (spaces (m p)) -> pool_ok n (put_cache i c' p) live G.
Proof.
  intros [P1 [L C1 C2] P3 [B1 B2 B3]] Hi Eb Ef Efr Et Hm. pose proof (cache_at_lt _ _ _ Hi) as Hlt.
  assert (Hat : forall j d, cache_at j (put_cache i c' p) = Some d -> exists d', cache_at j p = Some d' /\ (j = i -> d = c')).
  { intros j d. rewrite cache_at_put by done. destruct (decide (j = i)) as [->|]; naive_solver. }
  split; [exact P1| | |].
  - split; [by cbn; rewrite length_insert| |].
    + intros j d. rewrite cache_at_put by done. destruct (decide (j = i)) as [->|Hne]; [|apply C1].
      intros [= <-]. destruct (C1 i c Hi) as (K & T & F & M). split_and!; try done; try lia. { by eapply count_ok. } cbn; lia.
    + intros j k d e a Hj Hk. destruct (Hat j d Hj) as (d' & Hj' & _), (Hat k e Hk) as (e' & Hk' & _). eauto.
  - intros t. destruct (P3 t) as [T1 T2]. split; [|exact T2]. intros Hpos. destruct (T1 Hpos) as (d & Hd & Hdt).
    change (TLSGET t (put_cache i c' p)) with (TLSGET t p). rewrite cache_at_put by done.
    destruct (decide _) as [E|]; [|by exists d]. exists c'. split; [done|]. rewrite E, Hi in Hd. injection Hd as <-. congruence.
  - split; [| |exact B3].
    + intros a. cbn [owned put_cache set_caches]. rewrite B1. split; (intros [?|(j & d & Hd & Hc)]; [by left|right]).
      * exists j. rewrite cache_at_put by done. destruct (decide (j = i)) as [->|]; eauto.
      * destruct (Hat j d Hd) as (d' & Hd' & _). eauto.
    + intros a j d Hd Hc. destruct (Hat j d Hd) as (d' & Hd' & _). eauto.
Qed.

(** A new memory space. *)
Lemma pool_grow n p live G x :
  pool_ok n p live G -> x <> 0 -> Z.of_nat (spaces (m p)) < threads p ->
  let p' := set_m (<[spaces (m p) := x]> (m p)) p in pool_ok n p' live G /\ spaces (m p') = S (spaces (m p)).
Proof.
  intros [P1 [L C1 C2] P3 [B1 B2 B3]] Hx Hlt. destruct (spaces_grow p x P1 Hx Hlt) as [S1 S2]. cbv zeta in *.
  split; [|exact S2]. split; [exact S1| | |by split].
  - split; [exact L| |exact C2]. intros i c Hc. destruct (C1 i c Hc) as (K & T & F & M). rewrite S2. split_and!; try done; lia.
  - intros t. destruct (P3 t) as [T1 T2]. split; [exact T1|]. intros H. rewrite S2. specialize (T2 H). unfold TLSGET in *. cbn [mycache set_m]. lia.
Qed.

(** ** [GetMSpace] *)
Record same_blocks (p p' : nedpool) : Prop := {
  sb_owned : owned p' = owned p;
  sb_heap : heap p' = heap p
}.

Lemma found_space_ok n p live G t tc e :
  pool_ok n p live G -> (e < spaces (m p))%nat -> (forall i, tc = Some i -> is_Some (cache_at i p)) ->
  exists p', found_space t tc e p = Some p' /\ pool_ok n p' live G /\ same_blocks p p'.
Proof.
  intros P He Htc. destruct tc as [i|]; cbn [found_space].
  - destruct (Htc i eq_refl) as [c Hc]. rewrite Hc. cbn. eexists. split; [done|]. split; [|done].
    eapply pool_put; try done. cbn. lia.
  - eexists. split; [done|]. split; [|done]. apply pool_tls; [done|lia|lia].
Qed.

Lemma GetMSpace_ok n p live G t locked space tc ms :
  pool_ok n p live G -> 0 <= ms < Z.of_nat (spaces (m p)) -> (forall i, tc = Some i -> is_Some (cache_at i p)) ->
  exists p', GetMSpace t locked space tc ms p = Some p' /\ pool_ok n p' live G /\ same_blocks p p'.
Proof.
  intros P Hms Htc. pose proof (po_spaces _ _ _ _ P) as Hs.
  destruct (spaces_spec p Hs) as (l & E & Hl & Es & Hlen & Ht & H17).
  unfold GetMSpace. replace (0 <=? ms) with true by lia. cbn [guard_].
  destruct (lookup_lt_is_Some_2 l (Z.to_nat ms) ltac:(lia)) as [x Hx].
  assert (m p !! Z.to_nat ms = Some x) as -> by (rewrite E, lookup_app_l by lia; done). cbn [mbind option_bind].
  assert (x <> 0) by (rewrite Forall_forall in Hl; apply Hl; by eapply list_elem_of_lookup_2).
  destruct (Z.eqb_spec x 0); [done|]. cbn [negb guard_]. destruct (locked _); [|by exists p].
  unfold FindMSpace. set (u := Z.to_nat ms). assert (Hu : (u < spaces (m p))%nat) by lia.
  destruct (scan_spec locked p (u + 1) None (S (length (m p))) Hs) as (f1 & e1 & E1 & R1 & T1 & F1); [lia|lia|].
  rewrite E1. cbn [mbind option_bind]. destruct f1.
  { destruct (found_space_ok n p live G t tc e1 P (T1 eq_refl) Htc) as (p' & -> & P' & S'). cbn. eauto. }
  destruct (scan_spec locked p 0 (Some u) (S (length (m p))) Hs) as (f2 & e2 & E2 & R2 & T2 & _); [lia|lia|].
  rewrite E2. cbn [mbind option_bind]. destruct f2.
  { destruct (found_space_ok n p live G t tc e2 P (T2 eq_refl) Htc) as (p' & -> & P' & S'). cbn. eauto. }
  rewrite (F1 eq_refl eq_refl). destruct ((_ <? _) && _) eqn:Ec; [|by exists p].
  apply andb_true_iff in Ec as [Ec1%Z.ltb_lt Ec2%negb_true_iff%Z.eqb_neq].
  destruct (pool_grow n p live G space P Ec2 Ec1) as [P1 S1]. cbv zeta in *.
  destruct (found_space_ok n _ live G t tc (spaces (m p)) P1) as (p' & E3 & P' & [So Sh]); [lia|done|].
  rewrite E3. cbn. exists p'. split; [done|]. split; [done|]. by split.
Qed.

(** ** [GetThreadCache] *)
Lemma free_slot_spec l k : exists j, free_slot l k = (k + j)%nat /\ ((j < length l)%nat -> l !! j = Some None) /\ (j <= length l)%nat.
Proof.
  revert k. induction l as [|[c|] l IH]; intros k; cbn.
  - exists 0%nat. split_and!; [lia|lia|lia].
  - destruct (IH (S k)) as (j & E & H1 & H2). exists (S j). split_and!; [lia| |lia]. intros H. apply H1. lia.
  - exists 0%nat. split_and!; [lia|done|lia].
Qed.

Definition no_blocks : list (list ablk) := repeat [] 10.
Definition upd (G : nat -> list (list ablk)) (i : nat) (ls : list (list ablk)) (j : nat) : list (list ablk) :=
  if decide (j = i) then ls else G j.
Lemma upd_eq G i ls : upd G i ls i = ls.
Proof. unfold upd. by destruct (decide (i = i)). Qed.
Lemma upd_ne G i ls j : j <> i -> upd G i ls j = G j.
Proof. unfold upd. by destruct (decide (j = i)). Qed.

Lemma no_blocks_bin k l : no_blocks !! k = Some l -> l = [] /\ (k < 10)%nat.
Proof.
  intros H. pose proof (lookup_lt_Some _ _ _ H) as Hlt. unfold no_blocks in *. rewrite repeat_length in Hlt. split; [|done].
  apply list_elem_of_lookup_2, list_elem_of_In, repeat_spec in H. done.
Qed.
Lemma no_blocks_cached a : ~ cached no_blocks a.
Proof. intros (k & l & b & Hk & Hb & _). apply no_blocks_bin in Hk as [-> _]. by apply elem_of_nil in Hb. Qed.

Lemma new_cache_ok nbs h t e : cache_ok nbs h (new_cache t e) no_blocks.
Proof.
  split; [|done|done|done|].
  - split; [done|done|]. intros k l [-> Hk]%no_blocks_bin. split_and!; [| |constructor|done].
    + change (repeat 0 20 !! (k * 2)%nat = Some 0). do 10 (destruct k as [|k]; [done|]). lia.
    + change (repeat 0 20 !! (k * 2 + 1)%nat = Some 0). do 10 (destruct k as [|k]; [done|]). lia.
  - intros k l [-> _]%no_blocks_bin. split; [constructor|]. split; constructor.
Qed.

Lemma pool_new_cache n p live G i t :
  pool_ok n p live G -> 0 <= n -> (i < length (caches p))%nat -> cache_at i p = None ->
  pool_ok n (put_cache i (new_cache t (Z.of_nat (spaces (m p)))) p) live (upd G i no_blocks).
Proof.
  intros [P1 [L C1 C2] P3 [B1 B2 B3]] Hn Hi Hnone. destruct (spaces_spec p P1) as (l & _ & _ & Es & Hlen & _).
  assert (Hat : forall j d, cache_at j (put_cache i (new_cache t (Z.of_nat (spaces (m p)))) p) = Some d ->
    (j = i /\ d = new_cache t (Z.of_nat (spaces (m p)))) \/ (j <> i /\ cache_at j p = Some d)).
  { intros j d. rewrite cache_at_put by done. destruct (decide (j = i)); [intros [= <-]|]; auto. }
  split; [exact P1| | |].
  - split; [by cbn; rewrite length_insert| |].
    + intros j d [[-> ->]|[Hne Hd]]%Hat.
      * rewrite upd_eq. split; [apply new_cache_ok|]. split; [done|]. split; [done|]. cbn. apply Z.mod_pos_bound. lia.
      * rewrite upd_ne by done. apply (C1 j d Hd).
    + intros j k d e a [[-> ->]|[Hne Hd]]%Hat [[-> ->]|[Hne' He]]%Hat Hjk; rewrite ?upd_eq, ?(upd_ne G i) by done;
        try done; eauto using no_blocks_cached.
      by intros ?%no_blocks_cached.
  - intros t'. destruct (P3 t') as [T1 T2]. split; [|exact T2]. intros Hpos. destruct (T1 Hpos) as (d & Hd & Hdt).
    change (TLSGET t' (put_cache i (new_cache t (Z.of_nat (spaces (m p)))) p)) with (TLSGET t' p). rewrite cache_at_put by done.
    destruct (decide _) as [E|]; [|by exists d]. by rewrite E, Hnone in Hd.
  - split; [| |exact B3].
    + intros a. cbn [owned put_cache set_caches]. rewrite B1. split; (intros [?|(j & d & Hd & Hc)]; [by left|right]).
      * exists j, d. assert (j <> i) by congruence. rewrite cache_at_put, upd_ne by done. by destruct (decide (j = i)).
      * apply Hat in Hd as [[-> ->]|[Hne Hd]]; [by rewrite upd_eq in Hc; apply no_blocks_cached in Hc|].
        rewrite upd_ne in Hc by done. eauto.
    + intros a j d [[-> ->]|[Hne Hd]]%Hat; [rewrite upd_eq; by intros ?%no_blocks_cached|]. rewrite upd_ne by done. eauto.
Qed.

Lemma GetThreadCache_ok n p live G t ok size :
  pool_ok n p live G -> 0 <= n ->
  exists tc ms p' G', GetThreadCache t ok size p = Some (tc, ms, Z.max size sizeof_threadcacheblk, p') /\
    pool_ok n p' live G' /\ same_blocks p p' /\ 0 <= ms < Z.of_nat (spaces (m p')) /\
    (forall i, tc = Some i -> is_Some (cache_at i p')).
Proof.
  intros P Hn. unfold GetThreadCache.
  assert ((if size <? sizeof_threadcacheblk then sizeof_threadcacheblk else size) = Z.max size sizeof_threadcacheblk) as ->.
  { destruct (Z.ltb_spec size sizeof_threadcacheblk); lia. }
  destruct (po_tls _ _ _ _ P t) as [T1 T2]. destruct (Z.ltb_spec 0 (TLSGET t p)) as [Hpos|Hle].
  - destruct (T1 Hpos) as (c & Hc & Ht). rewrite Hc. cbn [mbind option_bind].
    destruct (co_cache _ _ _ (po_caches _ _ _ _ P) _ _ Hc) as (_ & _ & _ & Hm).
    replace (0 <=? mymspace c) with true by lia. cbn [guard_]. rewrite Hc. cbn [mbind option_bind]. rewrite Ht, Z.eqb_refl. cbn [guard_].
    exists (Some (Z.to_nat (TLSGET t p - 1))), (mymspace c), p, G. split_and!; try done; try lia.
    intros i [= <-]. by rewrite Hc.
  - destruct (Z.eqb_spec (TLSGET t p) 0) as [E0|Hne].
    + unfold AllocCache. destruct (free_slot_spec (caches p) 0) as (j & Ej & Hj & Hjl). rewrite Ej. cbn [Nat.add].
      pose proof (co_length _ _ _ (po_caches _ _ _ _ P)) as Hlen. pose proof (po_spaces _ _ _ _ P) as Hs.
      destruct (spaces_spec p Hs) as (l & _ & _ & Es & Hsl & _).
      destruct ((THREADCACHEMAXCACHES <=? j)%nat || negb ok) eqn:Ec.
      * cbn [mbind option_bind]. change (0 <=? 0) with true. cbn [guard_ mbind option_bind].
        exists None, 0, (TLSSET t (-1) p), G. split_and!; try done; [|cbn; lia]. apply pool_tls; [done|lia|lia].
      * apply orb_false_iff in Ec as [Ec _]. apply Nat.leb_gt in Ec.
        replace (Z.of_nat (spaces (m p)) =? 0) with false by lia. cbn [negb guard_ mbind option_bind].
        set (c := new_cache t (Z.of_nat (spaces (m p)))). set (p1 := TLSSET t (Z.of_nat j + 1) (put_cache j c p)).
        assert (Hnone : cache_at j p = None) by (unfold cache_at; by rewrite Hj by lia).
        assert (Hc : cache_at j p1 = Some c) by (change (cache_at j (put_cache j c p) = Some c); rewrite cache_at_put by lia; by destruct (decide (j = j))).
        rewrite Hc. cbn [mbind option_bind].
        assert (Hm : 0 <= mymspace c < Z.of_nat (spaces (m p))) by (cbn; apply Z.mod_pos_bound; lia).
        replace (0 <=? mymspace c) with true by lia. cbn [guard_]. rewrite Hc. cbn [mbind option_bind threadid c new_cache].
        rewrite Z.eqb_refl. cbn [guard_]. exists (Some j), (mymspace c), p1, (upd G j no_blocks).
        split_and!; try done; try (cbn [m p1 TLSSET put_cache set_caches]; lia).
        -- apply pool_tls; [apply pool_new_cache; [done|done|lia|done]| |lia].
           intros _. replace (Z.to_nat (Z.of_nat j + 1 - 1)) with j by lia. by exists c.
        -- intros i [= <-]. by rewrite Hc.
    + assert (Hneg : TLSGET t p < 0) by lia. specialize (T2 Hneg). cbn [mbind option_bind].
      replace (0 <=? - TLSGET t p - 1) with true by lia. cbn [guard_ mbind option_bind].
      exists None, (- TLSGET t p - 1), p, G. split_and!; try done; lia.
Qed.

(** ** Cache operations on a pool *)
Lemma cache_ok_ext nbs nbs' h h' c ls :
  cache_ok nbs h c ls -> (forall a, cached ls a -> nbs' a = nbs a /\ h' !! a = h !! a) -> cache_ok nbs' h' c ls.
Proof.
  intros [[L1 L2 B] F T Fr Bl] Hext. split; [|done|done|done|].
  - split; [done|done|]. intros k l Hk. destruct (B k l Hk) as (B1 & B2 & B3 & B4). split_and!; try done.
    eapply dll_frame; [|exact B4]. intros b Hb. apply (Hext (b_addr b)). by exists k, l, b.
  - intros k l Hk. destruct (Bl k l Hk) as [Hb Hs]. split; [|done]. rewrite Forall_forall in Hb |- *. intros b Hb'.
    unfold block_ok. rewrite (proj1 (Hext (b_addr b) ltac:(by exists k, l, b))). by apply Hb.
Qed.

(** One cache changes, and blocks move between it, the callers and the spaces. *)
Lemma pool_update n n' p h' o' live live' G i c c' ls' :
  pool_ok n p live G -> n <= n' -> cache_at i p = Some c ->
  let p' := set_owned o' (set_heap h' (put_cache i c' p)) in
  cache_ok (nedblksize p') h' c' ls' -> total ls' < THREADCACHEMAXFREESPACE -> frees c' <= n' ->
  mymspace c' = mymspace c -> threadid c' = threadid c ->
  (forall a, cached ls' a -> (cached (G i) a \/ a ∈ live) /\ a ∉ live') ->
  (forall j d a, j <> i -> cache_at j p = Some d -> cached (G j) a ->
     h' !! a = heap p !! a /\ o' !! a = owned p !! a /\ a ∉ live') ->
  (forall a, is_Some (o' !! a) <-> a ∈ live' \/ cached ls' a \/ exists j d, j <> i /\ cache_at j p = Some d /\ cached (G j) a) ->
  (forall a u, o' !! a = Some u -> a <> 0 /\ 0 < u) ->
  pool_ok n' p' live' (upd G i ls').
Proof.
  intros [P1 [L C1 C2] P3 [B1 B2 B3]] Hnn Hi p' K T F Hm Ht H1 H2 H3 H4. pose proof (cache_at_lt _ _ _ Hi) as Hlt.
  assert (Hat : forall j d, cache_at j p' = Some d -> (j = i /\ d = c') \/ (j <> i /\ cache_at j p = Some d)).
  { intros j d Hd. change (cache_at j (put_cache i c' p) = Some d) in Hd. rewrite cache_at_put in Hd by done.
    destruct (decide (j = i)); [injection Hd as <-|]; auto. }
  assert (Hto : forall j d, j <> i -> cache_at j p = Some d -> cache_at j p' = Some d).
  { intros j d Hne Hd. change (cache_at j (put_cache i c' p) = Some d). rewrite cache_at_put by done. by destruct (decide (j = i)). }
  assert (Hii : cache_at i p' = Some c').
  { change (cache_at i (put_cache i c' p) = Some c'). rewrite cache_at_put by done. by destruct (decide (i = i)). }
  assert (Hdis : forall j d a, j <> i -> cache_at j p = Some d -> cached ls' a -> cached (G j) a -> False).
  { intros j d a Hne Hd Ha Ha'. destruct (H1 a Ha) as [[Hc|Hl] _]; [by apply (C2 j i d c a Hd Hi Hne)|by apply (B2 a j d Hd)]. }
  destruct (C1 i c Hi) as (_ & _ & _ & Hms). split; [exact P1| | |].
  - split; [by cbn; rewrite length_insert| |].
    + intros j d [[-> ->]|[Hne Hd]]%Hat.
      * rewrite upd_eq. split_and!; try done; cbn; lia.
      * rewrite upd_ne by done. destruct (C1 j d Hd) as (K' & T' & F' & M'). split_and!; try done; try lia; [|apply M'].
        eapply cache_ok_ext; [exact K'|]. intros a Ha. destruct (H2 j d a Hne Hd Ha) as (E1 & E2 & _).
        split; [|exact E1]. unfold nedblksize. cbn. by rewrite E2.
    + intros j k d e a [[-> ->]|[Hne Hd]]%Hat [[-> ->]|[Hne' He]]%Hat Hjk; rewrite ?upd_eq, ?(upd_ne G i) by done;
        try done; eauto.
  - intros t. destruct (P3 t) as [T1 T2]. split; [|exact T2]. intros Hpos. destruct (T1 Hpos) as (d & Hd & Hdt).
    change (TLSGET t p') with (TLSGET t p). destruct (decide (Z.to_nat (TLSGET t p - 1) = i)) as [E|E].
    + rewrite E in *. exists c'. split; [done|]. congruence.
    + exists d. auto.
  - split; [| |exact H4].
    + intros a. change (owned p') with o'. rewrite H3. split.
      * intros [?|[?|(j & d & Hne & Hd & Hc)]]; [by left|right; exists i, c'; by rewrite upd_eq|].
        right. exists j, d. rewrite upd_ne by done. auto.
      * intros [?|(j & d & [[-> ->]|[Hne Hd]]%Hat & Hc)]; [by left| |].
        -- rewrite upd_eq in Hc. auto.
        -- rewrite upd_ne in Hc by done. right. right. eauto.
    + intros a j d [[-> ->]|[Hne Hd]]%Hat; [rewrite upd_eq; intros Ha; apply (H1 a Ha)|].
      rewrite upd_ne by done. intros Ha. apply (H2 j d a Hne Hd Ha).
Qed.

Lemma cached_take k ls b q ls' a :
  cache_take k ls = Some (b, q, ls') -> cached ls a <-> cached ls' a \/ a = b_addr b.
Proof.
  intros E. apply cache_take_elem in E as (l & Hq & -> & _). rewrite !cached_entries.
  pose proof (entries_insert ls q (b :: l) l Hq) as P.
  assert (P2 : entries ls ≡ₚ ent b :: entries (<[q := l]> ls)).
  { apply (Permutation_app_inv_r (ent <$> l)). rewrite <- P. cbn. solve_Permutation. }
  rewrite P2. cbn. rewrite elem_of_cons. naive_solver.
Qed.

Lemma pool_cache_malloc_ok n p live G i c size :
  pool_ok n p live G -> cache_at i p = Some c -> sizeof_threadcacheblk <= size <= THREADCACHEMAX ->
  exists ret sz p' G', pool_cache_malloc i size p = Some (ret, sz, p') /\ size <= sz /\ owned p' = owned p /\ m p' = m p /\
    (forall j, is_Some (cache_at j p) -> is_Some (cache_at j p')) /\
    ((ret = 0 /\ pool_ok n p' live G') \/
     (ret <> 0 /\ (ret ∉ live) /\ size <= nedblksize p' ret /\ pool_ok n p' ({[ret]} ∪ live) G')).
Proof.
  intros P Hi Hs. destruct (co_cache _ _ _ (po_caches _ _ _ _ P) _ _ Hi) as (K & T & F & Hm).
  pose proof (cache_at_lt _ _ _ Hi) as Hlt.
  assert (Hsome : forall c' h j, is_Some (cache_at j p) -> is_Some (cache_at j (set_heap h (put_cache i c' p)))).
  { intros c' h j Hj. change (is_Some (cache_at j (put_cache i c' p))). rewrite cache_at_put by done. by destruct (decide (j = i)). }
  unfold pool_cache_malloc. rewrite Hi. cbn [mbind option_bind].
  destruct (threadcache_malloc_spec (nedblksize p) size (heap p) c (G i) K Hs) as (k & (_ & Hk & _) & Hspec).
  destruct (cache_take k (G i)) as [[[b q] ls']|] eqn:Et.
  - destruct Hspec as (c' & h' & E & K' & (Ef & Emy & Eti) & Hnone & Fr). rewrite E. cbn [mbind option_bind].
    destruct (cache_take_elem _ _ _ _ _ Et) as (l & Hq & Els & Hkq).
    destruct (take_ok _ _ _ _ _ _ _ K Hq) as (_ & [Hb1 Hb2] & _ & _ & Hb0 & _).
    pose proof (bin_size_le k q Hkq) as Hle.
    assert (Hcb : cached (G i) (b_addr b)) by (rewrite (cached_take _ _ _ _ _ _ Et); auto).
    destruct (po_blocks _ _ _ _ P) as [B1 B2 B3]. pose proof (co_disjoint _ _ _ (po_caches _ _ _ _ P)) as C2.
    assert (Hb : ~ cached ls' (b_addr b)).
    { intros (x & y & z & Hx & Hz & Ez). pose proof (ok_bins _ _ _ _ K') as R'.
      destruct (bins_bin _ _ _ R' _ _ Hx) as (_ & _ & _ & D). destruct (dll_elem _ _ _ _ _ D Hz) as (_ & ? & ? & Eh).
      by rewrite Ez, Hnone in Eh. }
    exists (b_addr b), (bin_size k), (set_heap h' (put_cache i c' p)), (upd G i ls').
    split_and!; try done; auto. right. split_and!; [done|by apply (B2 _ i c)| |].
    + change (nedblksize (set_heap h' (put_cache i c' p)) (b_addr b)) with (nedblksize p (b_addr b)). lia.
    + change (set_heap h' (put_cache i c' p)) with (set_owned (owned p) (set_heap h' (put_cache i c' p))).
      apply (pool_update n n p h' (owned p) live _ G i c c' ls'); try done; try lia.
      * rewrite Els, (total_insert _ _ _ _ Hq), zlen_cons. pose proof (bin_size_pos q). lia.
      * intros a Ha. assert (cached (G i) a) as Hca by (rewrite (cached_take _ _ _ _ _ _ Et); auto). split; [by left|].
        rewrite elem_of_union, elem_of_singleton. intros [->|Hl]; [done|]. by apply (B2 a i c).
      * intros j d a Hne Hd Ha. split_and!; [|done|].
        -- apply Fr. intros Ha'. by apply (C2 i j c d a Hi Hd).
        -- rewrite elem_of_union, elem_of_singleton. intros [->|Hl]; [by apply (C2 i j c d (b_addr b) Hi Hd)|by apply (B2 a j d)].
      * intros a. rewrite B1, elem_of_union, elem_of_singleton. split.
        -- intros [?|(j & d & Hd & Hc)]; [auto|]. destruct (decide (j = i)) as [->|Hne]; [|by eauto 10].
           apply (cached_take _ _ _ _ _ _ Et) in Hc as [?| ->]; auto.
        -- intros [[->|?]|[Hc|(j & d & Hne & Hd & Hc)]]; [|by left| |]; right; [by exists i, c| |by eauto].
           exists i, c. split; [done|]. rewrite (cached_take _ _ _ _ _ _ Et). auto.
  - destruct Hspec as (c' & E & K' & (Ef & Emy & Eti)). rewrite E. cbn [mbind option_bind].
    exists 0, (bin_size k), (set_heap (heap p) (put_cache i c' p)), (upd G i (G i)). split_and!; try done; auto. left. split; [done|].
    change (set_heap (heap p) (put_cache i c' p)) with (set_owned (owned p) (set_heap (heap p) (put_cache i c' p))).
    destruct (po_blocks _ _ _ _ P) as [B1 B2 B3].
    apply (pool_update n n p (heap p) (owned p) live live G i c c' (G i)); try done; try lia.
    + intros a Ha. split; [by left|]. by apply (B2 a i c).
    + intros j d a Hne Hd Ha. split_and!; [done|done|]. by apply (B2 a j d).
    + intros a. rewrite B1. split.
      * intros [?|(j & d & Hd & Hc)]; [auto|]. destruct (decide (j = i)) as [->|Hne]; eauto 10.
      * intros [?|[?|(j & d & Hne & Hd & Hc)]]; eauto 10.
Qed.

(** *** Freeing *)
Lemma foldr_free freed p :
  foldr (fun f p => CallFree f.1 p) p freed = set_owned (foldr (fun (f : Z * bool) o => delete f.1 o) (owned p) freed) p.
Proof. induction freed as [|f freed IH]; [by destruct p|]. cbn [foldr]. by rewrite IH. Qed.

Lemma foldr_delete (freed : list (Z * bool)) (o : gmap Z Z) a :
  foldr (fun (f : Z * bool) o => delete f.1 o) o freed !! a = if decide (a ∈ freed.*1) then None else o !! a.
Proof.
  induction freed as [|f freed IH].
  - rewrite decide_False; [done|]. apply not_elem_of_nil.
  - cbn [foldr]. rewrite fmap_cons. destruct (decide (a = f.1)) as [->|Hne].
    + by rewrite lookup_delete_eq, decide_True by left.
    + rewrite lookup_delete_ne, IH by done. destruct (decide (a ∈ freed.*1)) as [H|H].
      * by rewrite decide_True by (by right).
      * rewrite decide_False; [done|]. rewrite elem_of_cons. tauto.
Qed.

(** The blocks of a cache are different. *)
Lemma entries_NoDup h bs ls : bins_repr h bs ls -> NoDup (entries ls).*1.
Proof.
  intros R. unfold entries. rewrite <- list_fmap_compose. change (fst ∘ ent) with b_addr.
  assert (H : forall ks, (forall k l, ks !! k = Some l -> NoDup (b_addr <$> l)) ->
    (forall k1 k2 l1 l2 b1 b2, ks !! k1 = Some l1 -> ks !! k2 = Some l2 -> k1 <> k2 -> b1 ∈ l1 -> b2 ∈ l2 -> b_addr b1 <> b_addr b2) ->
    NoDup (b_addr <$> concat ks)).
  { induction ks as [|l ks IH]; intros H1 H2; [constructor|]. cbn. rewrite fmap_app. apply NoDup_app. split_and!.
    - by apply (H1 0%nat).
    - intros a (b & -> & Hb)%list_elem_of_fmap (b' & E & Hb')%list_elem_of_fmap.
      apply list_elem_of_In, in_concat in Hb' as (l' & Hl' & Hb'). apply list_elem_of_In, list_elem_of_lookup_1 in Hl' as (k & Hk).
      apply list_elem_of_In in Hb'. by apply (H2 0%nat (S k) l l' b b').
    - apply IH; [intros k l' Hk; by apply (H1 (S k))|]. intros k1 k2 l1 l2 b1 b2 Hk1 Hk2 Hne. apply (H2 (S k1) (S k2)); try done. lia. }
  apply H.
  - intros k l Hk. apply (bins_bin _ _ _ R _ _ Hk).
  - intros k1 k2 l1 l2 b1 b2 Hk1 Hk2 Hne Hb1 Hb2. by eapply (bins_disjoint _ _ _ k1 k2 l1 l2 b1 b2 R).
Qed.

(** What a cache keeps and what it gives back, of the blocks it had and [extra]. *)
Lemma split_entries ls ls' fr (extra : list (Z * bool)) :
  entries ls' ++ fr ≡ₚ extra ++ entries ls -> NoDup (extra ++ entries ls).*1 ->
  forall a, ((cached ls' a /\ (a ∉ fr.*1)) \/ (~ cached ls' a /\ a ∈ fr.*1) <-> a ∈ extra.*1 \/ cached ls a) /\
    ~ (cached ls' a /\ a ∈ fr.*1).
Proof.
  intros P Hn a. rewrite <- P, fmap_app in Hn. apply NoDup_app in Hn as (_ & Hd & _).
  assert (Hiff : cached ls' a \/ a ∈ fr.*1 <-> a ∈ extra.*1 \/ cached ls a).
  { rewrite !cached_entries. rewrite <- !elem_of_app, <- !fmap_app. by rewrite P. }
  assert (Hex : ~ (cached ls' a /\ a ∈ fr.*1)) by (rewrite cached_entries; intros [H1 H2]; by apply (Hd a H1)).
  split; [|done]. rewrite <- Hiff. destruct (decide (a ∈ fr.*1)); naive_solver.
Qed.

Lemma pool_cache_free_ok n p live G i c mem :
  pool_ok n p live G -> n + 1 < 2 ^ 32 -> cache_at i p = Some c -> mem ∈ live ->
  sizeof_threadcacheblk <= nedblksize p mem <= THREADCACHEMAX + CHUNK_OVERHEAD ->
  exists p' G', pool_cache_free i mem (nedblksize p mem) p = Some p' /\ pool_ok (n + 1) p' (live ∖ {[mem]}) G' /\
    (forall a, a ∈ live -> a <> mem -> owned p' !! a = owned p !! a).
Proof.
  intros P Hn Hi Hlive Hsz. destruct (co_cache _ _ _ (po_caches _ _ _ _ P) _ _ Hi) as (K & T & F & Hm).
  destruct (po_blocks _ _ _ _ P) as [B1 B2 B3]. pose proof (co_disjoint _ _ _ (po_caches _ _ _ _ P)) as C2.
  assert (Hnc : ~ cached (G i) mem) by (intros Hc; by apply (B2 mem i c Hi Hc)).
  destruct (proj2 (B1 mem) (or_introl Hlive)) as [u Hu]. destruct (B3 mem u Hu) as [Hmem0 _].
  destruct (threadcache_free_spec (nedblksize p) mem false (heap p) c (G i) K T) as
    (c' & h' & ls' & fr & E & K' & T' & Ef & Emy & Eti & Pe & Fr); try done; [lia|].
  unfold pool_cache_free. rewrite Hi. cbn [mbind option_bind]. rewrite E. cbn [mbind option_bind]. rewrite foldr_free.
  eexists _, (upd G i ls'). split; [done|]. set (o' := foldr _ _ fr).
  assert (Ho : forall a, o' !! a = if decide (a ∈ fr.*1) then None else owned p !! a) by (intros a; apply foldr_delete).
  pose proof (entries_NoDup _ _ _ (ok_bins _ _ _ _ K)) as Hnd.
  assert (Hsplit := split_entries (G i) ls' fr [(mem, false)] Pe). cbn [app fmap list_fmap fst] in Hsplit.
  specialize (Hsplit ltac:(constructor; [by rewrite <- cached_entries|done])).
  assert (Hfr : forall a, a ∈ fr.*1 -> a = mem \/ cached (G i) a).
  { intros a Ha. destruct (Hsplit a) as [H1 H2]. destruct (proj1 H1) as [?%list_elem_of_singleton|?]; auto. tauto. }
  assert (Hkeep : forall a, cached ls' a -> (a ∉ fr.*1) /\ (a = mem \/ cached (G i) a)).
  { intros a Ha. destruct (Hsplit a) as [H1 H2]. split; [tauto|]. destruct (proj1 H1) as [?%list_elem_of_singleton|?]; auto. tauto. }
  split.
  2: { intros a Ha Hne. change (o' !! a = owned p !! a). rewrite Ho, decide_False; [done|].
       intros [?|Hc]%Hfr; [done|]. by apply (B2 a i c Hi Hc). }
  apply (pool_update n (n + 1) p h' o' live (live ∖ {[mem]}) G i c c' ls'); try done; try lia.
  - eapply cache_ok_ext; [exact K'|]. intros a Ha. split; [|done]. unfold nedblksize. cbn [owned set_owned]. rewrite Ho.
    by rewrite decide_False by (by apply Hkeep).
  - intros a Ha. destruct (Hkeep a Ha) as [_ [->|Hc]].
    + split; [by right|]. set_solver.
    + split; [by left|]. pose proof (B2 a i c Hi Hc). set_solver.
  - intros j d a Hne Hd Ha. assert (Hna : ~ cached (G i) a) by (intros Hc; by apply (C2 i j c d a Hi Hd)).
    pose proof (B2 a j d Hd Ha) as Hnl. assert (a <> mem) by (by intros ->). split_and!; [by apply Fr| |set_solver].
    rewrite Ho, decide_False; [done|]. intros [?|?]%Hfr; done.
  - intros a. rewrite Ho. destruct (Hsplit a) as [H1 H2]. rewrite list_elem_of_singleton in H1. split.
    + destruct (decide (a ∈ fr.*1)) as [Ha|Ha]; [by intros [? ?]|]. intros [Hl|(j & d & Hd & Hc)]%B1.
      * destruct (decide (a = mem)) as [->|Hne]; [|left; set_solver]. right. left. tauto.
      * destruct (decide (j = i)) as [->|Hne]; [right; left; tauto|]. right. right. eauto.
    + intros [Hl|[Hc|(j & d & Hne & Hd & Hc)]].
      * apply elem_of_difference in Hl as [Hl Hne]. rewrite elem_of_singleton in Hne. rewrite decide_False; [apply B1; auto|].
        intros [?|Hc]%Hfr; [done|]. by apply (B2 a i c Hi Hc).
      * destruct (Hkeep a Hc) as [Hnf Hor]. rewrite decide_False by done. apply B1. destruct Hor as [->|?]; [by left|right; eauto].
      * rewrite decide_False; [apply B1; right; eauto|]. intros [->|Hci]%Hfr; [by apply (B2 mem j d Hd Hc)|].
        by apply (C2 i j c d a Hi Hd).
  - intros a v. rewrite Ho. destruct (decide _); [done|]. apply B3.
Qed.

(** ** The memory spaces give and take back *)
Lemma pool_alloc n p live G a u :
  pool_ok n p live G -> owned p !! a = None -> a <> 0 -> 0 < u ->
  pool_ok n (set_owned (<[a := u]> (owned p)) p) ({[a]} ∪ live) G.
Proof.
  intros [P1 [L C1 C2] P3 [B1 B2 B3]] Ha H0 Hu.
  assert (Hnc : forall j d, cache_at j p = Some d -> ~ cached (G j) a).
  { intros j d Hd Hc. destruct (proj2 (B1 a)) as [? E]; [right; eauto|]. congruence. }
  split; [exact P1| |exact P3|].
  - split; [exact L| |exact C2]. intros j d Hd. destruct (C1 j d Hd) as (K & T & F & M). split_and!; try done; try apply M.
    eapply cache_ok_ext; [exact K|]. intros b Hb. split; [|done]. unfold nedblksize. cbn [owned set_owned].
    rewrite lookup_insert_ne; [done|]. intros ->. by apply (Hnc j d).
  - split.
    + intros b. cbn [owned set_owned]. destruct (decide (b = a)) as [->|Hne].
      * rewrite lookup_insert_eq. split; [intros _; left; set_solver|eauto].
      * rewrite lookup_insert_ne, B1 by done. split; (intros [?|?]; [left; set_solver|right; assumption]).
    + intros b j d Hd Hc. rewrite elem_of_union, elem_of_singleton. intros [->|Hl]; [by apply (Hnc j d)|by apply (B2 b j d)].
    + intros b v. cbn [owned set_owned]. destruct (decide (b = a)) as [->|Hne].
      * rewrite lookup_insert_eq. by intros [= <-].
      * rewrite lookup_insert_ne by done. apply B3.
Qed.

Lemma pool_free n p live G mem :
  pool_ok n p live G -> (mem ∈ live) -> pool_ok n (CallFree mem p) (live ∖ {[mem]}) G.
Proof.
  intros [P1 [L C1 C2] P3 [B1 B2 B3]] Hl.
  assert (Hnc : forall j d, cache_at j p = Some d -> ~ cached (G j) mem) by (intros j d Hd Hc; by apply (B2 mem j d)).
  split; [exact P1| |exact P3|].
  - split; [exact L| |exact C2]. intros j d Hd. destruct (C1 j d Hd) as (K & T & F & M). split_and!; try done; try apply M.
    eapply cache_ok_ext; [exact K|]. intros b Hb. split; [|done]. unfold nedblksize. cbn [owned set_owned CallFree].
    rewrite lookup_delete_ne; [done|]. intros ->. by apply (Hnc j d).
  - split.
    + intros b. cbn [owned set_owned CallFree]. destruct (decide (b = mem)) as [->|Hne].
      * rewrite lookup_delete_eq. split; [by intros [? ?]|]. intros [?|(j & d & Hd & Hc)]; [set_solver|]. by destruct (Hnc j d).
      * rewrite lookup_delete_ne, B1 by done. split; (intros [?|?]; [left; set_solver|right; assumption]).
    + intros b j d Hd Hc. pose proof (B2 b j d Hd Hc). set_solver.
    + intros b v. cbn [owned set_owned CallFree]. intros [_ E]%lookup_delete_Some. by apply B3.
Qed.

Lemma pool_mono n n' p live G : pool_ok n p live G -> n <= n' -> pool_ok n' p live G.
Proof.
  intros [P1 [L C1 C2] P3 P4] Hn. split; [done| |done|done]. split; [done| |done].
  intros j d Hd. destruct (C1 j d Hd) as (K & T & F & M). split_and!; try done; try apply M; lia.
Qed.

(** The answer of a memory space to a request for [size] bytes: a new block that is
    large enough, or none. *)
Definition answer_ok (p : nedpool) (size : Z) (answer : Answer) : Prop :=
  match answer with
  | Some (a, u) => a <> 0 /\ owned p !! a = None /\ size <= u /\ 0 < u
  | None => True
  end.

(** A block of the memory space; [p0] is the pool its contract is stated for. *)
Lemma space_malloc_ok n p0 p live G k tc ms size :
  pool_ok n p live G -> owned p = owned p0 -> 0 <= ms < Z.of_nat (spaces (m p)) ->
  (forall i, tc = Some i -> is_Some (cache_at i p)) -> answer_ok p0 size (answer_ k) ->
  exists a p' G', (p ← GetMSpace (thread k) (locked_ k) (space_ k) tc ms p; Some (CallMalloc (answer_ k) p)) = Some (a, p') /\
    ((a = 0 /\ pool_ok n p' live G') \/
     (a <> 0 /\ (a ∉ live) /\ size <= nedblksize p' a /\ pool_ok n p' ({[a]} ∪ live) G')).
Proof.
  intros P So Hms Htc Hans.
  destruct (GetMSpace_ok n p live G (thread k) (locked_ k) (space_ k) tc ms P) as (p3 & -> & P3 & [So3 Sh3]); [done|done|].
  cbn [mbind option_bind]. unfold answer_ok in Hans. destruct (answer_ k) as [[a u]|]; cbn [CallMalloc].
  - destruct Hans as (Ha0 & Hao & Hu & Hu0). eexists a, _, G. split; [done|]. right.
    rewrite <- So, <- So3 in Hao. split_and!; [done| | |by apply pool_alloc].
    + intros Hl. destruct (proj2 (bo_owned _ _ _ (po_blocks _ _ _ _ P3) a)) as [? E]; [by left|]. congruence.
    + unfold nedblksize. cbn [owned set_owned]. by rewrite lookup_insert_eq.
  - exists 0, p3, G. split; [done|]. by left.
Qed.

Lemma nedpmemalign_ok n p live G k size :
  pool_ok n p live G -> 0 <= n -> answer_ok p size (answer_ k) ->
  exists a p' G', nedpmemalign k size p = Some (a, p') /\
    ((a = 0 /\ pool_ok n p' live G') \/
     (a <> 0 /\ (a ∉ live) /\ size <= nedblksize p' a /\ pool_ok n p' ({[a]} ∪ live) G')).
Proof.
  intros P Hn Hans. unfold nedpmemalign.
  destruct (GetThreadCache_ok n p live G (thread k) (cache_ok_ k) size P Hn) as (tc & ms & p1 & G1 & -> & P1 & [So1 _] & Hms & Htc).
  by apply (space_malloc_ok n p p1 live G1).
Qed.

Lemma nedpmalloc_ok n p live G k size :
  pool_ok n p live G -> 0 <= n -> answer_ok p size (answer_ k) ->
  exists a p' G', nedpmalloc k size p = Some (a, p') /\
    ((a = 0 /\ pool_ok n p' live G') \/
     (a <> 0 /\ (a ∉ live) /\ size <= nedblksize p' a /\ pool_ok n p' ({[a]} ∪ live) G')).
Proof.
  intros P Hn Hans. unfold nedpmalloc.
  destruct (GetThreadCache_ok n p live G (thread k) (cache_ok_ k) size P Hn) as (tc & ms & p1 & G1 & -> & P1 & [So1 Sh1] & Hms & Htc).
  cbn [mbind option_bind].
  assert (Hspace := fun q G' => space_malloc_ok n p q live G' k tc ms size).
  destruct tc as [i|]; [|cbn [mbind option_bind Z.eqb negb]; by apply (Hspace p1 G1)].
  destruct (Z.leb_spec (Z.max size sizeof_threadcacheblk) THREADCACHEMAX) as [Hle|Hgt];
    [|cbn [mbind option_bind Z.eqb negb]; by apply (Hspace p1 G1)].
  destruct (Htc i eq_refl) as [c Hc].
  destruct (pool_cache_malloc_ok n p1 live G1 i c (Z.max size sizeof_threadcacheblk) P1 Hc)
    as (ret & sz & p2 & G2 & -> & Hsz & So2 & Em2 & Hk2 & Hcase); [lia|].
  cbn [mbind option_bind]. destruct Hcase as [[-> P2]|(Hr0 & Hrl & Hrs & P2)].
  - cbn [Z.eqb negb]. apply (Hspace p2 G2); [done|congruence|by rewrite Em2| |done]. intros j [= <-]. apply Hk2. by rewrite Hc.
  - destruct (Z.eqb_spec ret 0); [done|]. cbn [negb]. exists ret, p2, G2. split; [done|]. right. split_and!; try done. lia.
Qed.

Lemma nedpfree_ok n p live G k mem :
  pool_ok n p live G -> 0 <= n -> n + 1 < 2 ^ 32 -> (mem ∈ live) ->
  exists p' G', nedpfree k mem p = Some p' /\ pool_ok (n + 1) p' (live ∖ {[mem]}) G'.
Proof.
  intros P Hn Hlt Hl. destruct (proj2 (bo_owned _ _ _ (po_blocks _ _ _ _ P) mem) (or_introl Hl)) as [u Hu].
  destruct (bo_size _ _ _ (po_blocks _ _ _ _ P) _ _ Hu) as [H0 Hu0].
  unfold nedpfree. destruct (Z.eqb_spec mem 0); [done|]. cbv zeta.
  assert (Es : nedblksize p mem = u) by (unfold nedblksize; by rewrite Hu). rewrite Es.
  destruct (Z.eqb_spec u 0); [lia|].
  destruct (GetThreadCache_ok n p live G (thread k) (cache_ok_ k) 0 P Hn) as (tc & ms & p1 & G1 & -> & P1 & [So1 Sh1] & _ & Htc).
  cbn [mbind option_bind].
  assert (Hdirect : exists p' G', Some (CallFree mem p1) = Some p' /\ pool_ok (n + 1) p' (live ∖ {[mem]}) G').
  { eexists _, G1. split; [done|]. eapply pool_mono; [by apply pool_free|lia]. }
  destruct tc as [i|]; [|done]. destruct (_ && _) eqn:Ec; [|done]. apply andb_true_iff in Ec as [Ec1%Z.leb_le Ec2%Z.leb_le].
  destruct (Htc i eq_refl) as [c Hc].
  assert (Es1 : nedblksize p1 mem = u) by (unfold nedblksize; by rewrite So1, Hu). rewrite <- Es1 in *.
  destruct (pool_cache_free_ok n p1 live G1 i c mem) as (p2 & G2 & E2 & P2 & _); try done. eauto.
Qed.

(** What a memory space may answer to a change of the size of [mem]. *)
Definition realloc_ok (p : nedpool) (mem size : Z) (answer : Answer) : Prop :=
  match answer with
  | Some (a, u) => a <> 0 /\ (owned p !! a = None \/ a = mem) /\ size <= u /\ 0 < u
  | None => True
  end.

(** The memory space reallocates the block [mem]; [p0] is the pool its contract is
    stated for. *)
Lemma CallRealloc_ok n p0 p live G mem size answer :
  pool_ok n p live G -> owned p = owned p0 -> (mem ∈ live) -> realloc_ok p0 mem size answer ->
  exists a p' G', Some (CallRealloc mem answer p) = Some (a, p') /\
    ((a = 0 /\ pool_ok (n + 1) p' live G') \/
     (a <> 0 /\ (a ∉ live ∖ {[mem]}) /\ size <= nedblksize p' a /\ pool_ok (n + 1) p' ({[a]} ∪ live ∖ {[mem]}) G')).
Proof.
  intros P So Hl Hans. destruct answer as [[a v]|]; cbn [CallRealloc].
  - destruct Hans as (Ha0 & Hao & Hv & Hv0). eexists a, _, G. split; [done|]. right.
    assert (Hfree : owned (CallFree mem p) !! a = None).
    { cbn. rewrite So. destruct Hao as [Hao| ->]; [|apply lookup_delete_eq]. by apply lookup_delete_None; right. }
    pose proof (pool_free n p live G mem P Hl) as P3.
    split_and!; [done| | |eapply (pool_mono n); [by apply (pool_alloc n (CallFree mem p))|lia]].
    + intros Hla. destruct (proj2 (bo_owned _ _ _ (po_blocks _ _ _ _ P3) a)) as [? E]; [by left|]. congruence.
    + unfold nedblksize. cbn [owned set_owned]. by rewrite lookup_insert_eq.
  - exists 0, p, G. split; [done|]. left. split; [done|]. eapply pool_mono; [done|lia].
Qed.

(** A block that is in use goes back to the cache or to its memory space, by its
    size; the other blocks keep theirs. *)
Lemma give_back_ok n p live G i mem :
  pool_ok n p live G -> n + 1 < 2 ^ 32 -> is_Some (cache_at i p) -> (mem ∈ live) ->
  let u := nedblksize p mem in
  exists p' G', (if (sizeof_threadcacheblk <=? u) && (u <=? THREADCACHEMAX + CHUNK_OVERHEAD)
      then pool_cache_free i mem u p else Some (CallFree mem p)) = Some p' /\
    pool_ok (n + 1) p' (live ∖ {[mem]}) G' /\ (forall a, a ∈ live -> a <> mem -> owned p' !! a = owned p !! a).
Proof.
  intros P Hlt [c Hc] Hl u. destruct ((sizeof_threadcacheblk <=? u) && (u <=? THREADCACHEMAX + CHUNK_OVERHEAD)) eqn:Eb.
  - apply andb_true_iff in Eb as [Eb1%Z.leb_le Eb2%Z.leb_le].
    destruct (pool_cache_free_ok n p live G i c mem) as (p3 & G3 & E3 & P3 & Ho3); try done. exists p3, G3. by split_and!.
  - eexists _, G. split; [done|]. split; [eapply pool_mono; [by apply pool_free|lia]|].
    intros a _ Hne. cbn. by rewrite lookup_delete_ne by done.
Qed.

Lemma nedprealloc_ok n p live G k mem size :
  pool_ok n p live G -> 0 <= n -> n + 1 < 2 ^ 32 -> (mem ∈ live) -> realloc_ok p mem size (answer_ k) ->
  exists a p' G', nedprealloc k mem size p = Some (a, p') /\
    ((a = 0 /\ pool_ok (n + 1) p' live G') \/
     (a <> 0 /\ (a ∉ live ∖ {[mem]}) /\ size <= nedblksize p' a /\ pool_ok (n + 1) p' ({[a]} ∪ live ∖ {[mem]}) G')).
Proof.
  intros P Hn Hlt Hl Hans. destruct (proj2 (bo_owned _ _ _ (po_blocks _ _ _ _ P) mem) (or_introl Hl)) as [u Hu].
  destruct (bo_size _ _ _ (po_blocks _ _ _ _ P) _ _ Hu) as [H0 Hu0].
  unfold nedprealloc. destruct (Z.eqb_spec mem 0); [done|]. cbv zeta.
  assert (Es : nedblksize p mem = u) by (unfold nedblksize; by rewrite Hu). rewrite Es.
  destruct (Z.eqb_spec u 0); [lia|]. destruct (_ && _) eqn:Enoop.
  { apply andb_true_iff in Enoop as [Enoop%Z.leb_le _]. exists mem, p, G. split; [done|]. right.
    split_and!; [done|set_solver|lia|]. replace ({[mem]} ∪ live ∖ {[mem]}) with live; [eapply pool_mono; [exact P|lia]|].
    apply leibniz_equiv. intros x. destruct (decide (x = mem)); set_solver. }
  destruct (GetThreadCache_ok n p live G (thread k) (cache_ok_ k) size P Hn) as (tc & ms & p1 & G1 & -> & P1 & [So1 Sh1] & _ & Htc).
  cbn [mbind option_bind].
  assert (Hspace := fun q G' => CallRealloc_ok n p q live G' mem size (answer_ k)).
  destruct tc as [i|]; [|cbn [mbind option_bind Z.eqb negb]; by apply (Hspace p1 G1)].
  destruct (negb (Z.max size sizeof_threadcacheblk =? 0) && (Z.max size sizeof_threadcacheblk <=? THREADCACHEMAX)) eqn:Ec;
    [|cbn [mbind option_bind Z.eqb negb]; by apply (Hspace p1 G1)].
  apply andb_true_iff in Ec as [_ Ec%Z.leb_le]. destruct (Htc i eq_refl) as [c Hc].
  destruct (pool_cache_malloc_ok n p1 live G1 i c (Z.max size sizeof_threadcacheblk) P1 Hc)
    as (ret & sz & p2 & G2 & -> & Hsz & So2 & Em2 & Hk2 & Hcase); [lia|].
  cbn [mbind option_bind]. destruct Hcase as [[-> P2]|(Hr0 & Hrl & Hrs & P2)].
  { cbn [Z.eqb negb mbind option_bind]. apply (Hspace p2 G2); [done|congruence|done|done]. }
  destruct (Z.eqb_spec ret 0); [done|]. cbn [negb]. assert (Hne : ret <> mem) by (by intros ->).
  assert (Hset : ({[ret]} ∪ live) ∖ {[mem]} = {[ret]} ∪ live ∖ {[mem]}) by (apply leibniz_equiv; set_solver).
  assert (Es2 : nedblksize p2 mem = u) by (unfold nedblksize; by rewrite So2, So1, Hu).
  destruct (give_back_ok n p2 ({[ret]} ∪ live) G2 i mem P2 Hlt) as (p3 & G3 & E3 & P3 & Eo3); [by apply Hk2; rewrite Hc|set_solver|].
  rewrite Es2 in E3. rewrite E3. rewrite Hset in P3. cbn [mbind option_bind].
  destruct (Z.eqb_spec ret 0); [done|]. cbn [negb]. exists ret, p3, G3. split; [done|]. right. split_and!; try done; [set_solver|].
  unfold nedblksize in *. rewrite Eo3 by (set_solver || done). lia.
Qed.

(** ** Emptying and giving up a cache *)
Lemma bump_ok nbs h c ls : cache_ok nbs h c ls -> frees c + 1 < 2 ^ 32 -> cache_ok nbs h (bump_frees c) ls.
Proof.
  intros [K1 K2 K3 K4 K5] Hf. assert (E : frees (bump_frees c) = frees c + 1) by (cbn; apply uwrap_id; unfold in_u; lia).
  split; [done|done|done|lia|]. intros k l Hk. destruct (K5 k l Hk) as [H1 [H2 H3]]. split; [done|]. split; [done|].
  rewrite E. eapply Forall_impl; [exact H3|]. cbn. lia.
Qed.

Lemma keep_zero f l : keep f 0 l = [].
Proof.
  induction l as [|b l IH]; [done|]. cbn. rewrite IH. unfold old.
  pose proof (uwrap_range 32 (f - b_last b)) as Hr. unfold in_u in Hr.
  by replace (0 <=? uwrap 32 (f - b_last b)) with true by lia.
Qed.

(** Removal with age zero on cache [i] of a pool: all blocks go back. *)
Lemma pool_empty n p live G i c :
  pool_ok n p live G -> n + 1 < 2 ^ 32 -> cache_at i p = Some c ->
  exists c' h' fr ls', RemoveCacheEntries (nedblksize p) 0 (bump_frees c) (heap p) = Some (c', h', fr) /\
    freeInCache c' = 0 /\ mymspace c' = mymspace c /\ threadid c' = threadid c /\ (forall a, ~ cached ls' a) /\
    pool_ok (n + 1) (foldr (fun f p => CallFree f.1 p) (set_heap h' (put_cache i c' p)) fr) live (upd G i ls').
Proof.
  intros P Hn Hi. destruct (co_cache _ _ _ (po_caches _ _ _ _ P) _ _ Hi) as (K & T & F & Hm).
  destruct (po_blocks _ _ _ _ P) as [B1 B2 B3]. pose proof (co_disjoint _ _ _ (po_caches _ _ _ _ P)) as C2.
  pose proof (bump_ok _ _ _ _ K ltac:(lia)) as Kb. pose proof (ok_frees _ _ _ _ K) as Hf0.
  destruct (RemoveCacheEntries_spec (nedblksize p) 0 (heap p) (bump_frees c) (G i) Kb) as (c' & h' & ls' & fr & E & R & L).
  destruct (rm_ids _ _ _ _ _ _ _ _ R) as (Ef & Emy & Eti). pose proof (rm_ok _ _ _ _ _ _ _ _ R) as K'.
  assert (Hempty : forall k l, ls' !! k = Some l -> l = []).
  { intros k l Hk. destruct (bins_in_range _ _ _ k (ok_bins _ _ _ _ Kb)) as (l0 & Hl0).
    { pose proof (lookup_lt_Some _ _ _ Hk). rewrite (bins_lists _ _ _ (ok_bins _ _ _ _ K')) in *. done. }
    rewrite (L k l0 Hl0), keep_zero in Hk. by injection Hk as <-. }
  assert (Hnc : forall a, ~ cached ls' a).
  { intros a (k & l & b & Hk & Hb & _). rewrite (Hempty k l Hk) in Hb. by apply elem_of_nil in Hb. }
  assert (Ht0 : total ls' = 0).
  { unfold total. generalize 0%nat as q. revert Hempty. clear. induction ls' as [|l ls' IH]; intros He q; [done|]. cbn.
    rewrite (IH (fun k l E => He (S k) l E)). pose proof (He 0%nat l eq_refl) as ->. change (zlen (@nil ablk)) with 0. lia. }
  exists c', h', fr, ls'. split_and!; [done|by rewrite (ok_free _ _ _ _ K')|done|done|done|]. rewrite foldr_free.
  set (o' := foldr _ _ fr).
  assert (Ho : forall a, o' !! a = if decide (a ∈ fr.*1) then None else owned p !! a) by (intros a; apply foldr_delete).
  assert (Hfr : forall a, a ∈ fr.*1 <-> cached (G i) a).
  { intros a. rewrite cached_entries, <- (rm_entries _ _ _ _ _ _ _ _ R), fmap_app, elem_of_app. split; [by right|].
    intros [Ha|?]; [|done]. exfalso. by apply (Hnc a), cached_entries. }
  apply (pool_update n (n + 1) p h' o' live live G i c c' ls'); try done; try lia.
  - eapply cache_ok_ext; [exact K'|]. intros a Ha. by destruct (Hnc a).
  - rewrite Ht0. unfold THREADCACHEMAXFREESPACE. lia.
  - rewrite Ef. cbn. rewrite uwrap_id by (unfold in_u; lia). lia.
  - intros a Ha. by destruct (Hnc a).
  - intros j d a Hne Hd Ha. assert (Hna : ~ cached (G i) a) by (intros Hc; by apply (C2 i j c d a Hi Hd)).
    split_and!; [by apply (rm_frame _ _ _ _ _ _ _ _ R)| |by apply (B2 a j d)]. rewrite Ho, decide_False; [done|]. by rewrite Hfr.
  - intros a. rewrite Ho. split.
    + destruct (decide (a ∈ fr.*1)) as [Ha|Ha]; [by intros [? ?]|]. rewrite Hfr in Ha. intros [Hl|(j & d & Hd & Hc)]%B1; [by left|].
      destruct (decide (j = i)) as [->|Hne]; [done|]. right. right. eauto.
    + intros [Hl|[Hc|(j & d & Hne & Hd & Hc)]]; [| by destruct (Hnc a)|]; rewrite decide_False, B1; eauto 10; rewrite Hfr.
      * intros Hc. by apply (B2 a i c Hi Hc).
      * intros Hci. by apply (C2 i j c d a Hi Hd).
  - intros a v. rewrite Ho. destruct (decide _); [done|]. apply B3.
Qed.

Lemma pool_drop n p live G i c :
  pool_ok n p live G -> cache_at i p = Some c -> (forall a, ~ cached (G i) a) -> (forall t, TLSGET t p <> Z.of_nat i + 1) ->
  pool_ok n (set_caches (<[i := None]> (caches p)) p) live G.
Proof.
  intros [P1 [L C1 C2] P3 [B1 B2 B3]] Hi He Htls. pose proof (cache_at_lt _ _ _ Hi) as Hlt.
  set (p' := set_caches _ p).
  assert (Hat : forall j d, cache_at j p' = Some d <-> j <> i /\ cache_at j p = Some d).
  { intros j d. unfold cache_at, p'. cbn [caches set_caches]. destruct (decide (j = i)) as [->|Hne].
    - rewrite list_lookup_insert_eq by done. cbn. naive_solver.
    - rewrite list_lookup_insert_ne by done. naive_solver. }
  split; [exact P1| | |].
  - split; [by cbn; rewrite length_insert| |].
    + intros j d [_ Hd]%Hat. apply (C1 j d Hd).
    + intros j k d e a [_ Hd]%Hat [_ He']%Hat. eauto.
  - intros t. destruct (P3 t) as [T1 T2]. split; [|exact T2]. intros Hpos. destruct (T1 Hpos) as (d & Hd & Hdt).
    exists d. split; [|done]. change (TLSGET t p') with (TLSGET t p) in *. apply Hat. split; [|done].
    specialize (Htls t). lia.
  - split; [| |exact B3].
    + intros a. change (owned p') with (owned p). rewrite B1. split; (intros [?|(j & d & Hd & Hc)]; [by left|right]).
      * exists j, d. split; [|done]. apply Hat. split; [|done]. intros ->. by destruct (He a).
      * apply Hat in Hd as [_ Hd]. eauto.
    + intros a j d [_ Hd]%Hat. eauto.
Qed.

Lemma nedtrim_ok n p live G t disable :
  pool_ok n p live G -> 0 <= n -> n + 1 < 2 ^ 32 ->
  exists p' G', nedtrimthreadcache t disable p = Some p' /\ pool_ok (n + 1) p' live G' /\
    (disable = true -> forall i c, TLSGET t p = Z.of_nat i + 1 -> cache_at i p = Some c ->
       TLSGET t p' = - mymspace c /\ caches p' !! i = Some None).
Proof.
  intros P Hn Hlt. unfold nedtrimthreadcache. destruct (spaces_spec p (po_spaces _ _ _ _ P)) as (l & _ & _ & Es & Hsl & _).
  destruct (Z.eqb_spec (TLSGET t p) 0) as [E0|Hne].
  { destruct disable; eexists _, G; (split; [done|]); (split; [|intros; lia]); (apply (pool_mono n); [|lia]); [|done].
    apply pool_tls; [done|lia|lia]. }
  destruct (Z.ltb_spec 0 (TLSGET t p)) as [Hpos|Hle].
  2: { exists p, G. split; [done|]. split; [eapply pool_mono; [done|lia]|intros; lia]. }
  destruct (po_tls _ _ _ _ P t) as [T1 _]. destruct (T1 Hpos) as (c & Hc & Htid). set (i := Z.to_nat (TLSGET t p - 1)) in *.
  cbv zeta. fold i. rewrite Hc. cbn [mbind option_bind].
  destruct (co_cache _ _ _ (po_caches _ _ _ _ P) _ _ Hc) as (_ & _ & _ & Hms).
  set (p0 := if disable then TLSSET t (- mymspace c) p else p).
  assert (P0 : pool_ok n p0 live G) by (unfold p0; destruct disable; [|done]; apply pool_tls; [done|lia|lia]).
  assert (Hc0 : cache_at i p0 = Some c) by (unfold p0; by destruct disable).
  destruct (pool_empty n p0 live G i c P0 Hlt Hc0) as (c' & h' & fr & ls' & E & Ef & Emy & Eti & Hnc & P1).
  rewrite E. cbn [mbind option_bind]. rewrite Ef. cbn [Z.eqb guard_].
  destruct disable; [|by eexists _, _]. eexists _, _. split; [done|].
  set (p1 := foldr _ _ fr) in *.
  assert (Hlast : forall i0 c0, TLSGET t p = Z.of_nat i0 + 1 -> cache_at i0 p = Some c0 ->
    TLSGET t p1 = - mymspace c0 /\ <[i := None]> (caches p1) !! i0 = Some None).
  { intros i0 c0 Hi0 Hc0'. replace i0 with i in * by lia. rewrite Hc in Hc0'. injection Hc0' as <-. unfold p1, p0. rewrite foldr_free.
    split; [unfold TLSGET; cbn; by rewrite lookup_insert_eq|]. apply list_lookup_insert_eq. cbn. rewrite length_insert.
    by eapply cache_at_lt. }
  split; [|by intros _].
  assert (Hp1 : forall x, cache_at x p1 = cache_at x (put_cache i c' p0) /\ forall y, TLSGET y p1 = TLSGET y p0).
  { intros x. unfold p1. rewrite foldr_free. done. }
  eapply (pool_drop (n + 1) p1 live (upd G i ls') i c'); [done| | |].
  - rewrite (proj1 (Hp1 i)), cache_at_put by (by eapply cache_at_lt). by destruct (decide (i = i)).
  - by rewrite upd_eq.
  - intros t'. rewrite (proj2 (Hp1 i)). unfold p0, TLSGET. cbn [mycache TLSSET]. destruct (decide (t' = t)) as [->|Hnt].
    + rewrite lookup_insert_eq. cbn. lia.
    + rewrite lookup_insert_ne by done. intros E'. destruct (po_tls _ _ _ _ P t') as [T1' _].
      change (default 0 (mycache p !! t')) with (TLSGET t' p) in E'. destruct T1' as (d & Hd & Hdt); [lia|].
      replace (Z.to_nat (TLSGET t' p - 1)) with i in Hd by lia. rewrite Hc in Hd. injection Hd as <-. congruence.
Qed.

(** * A pool in use *)

(** The zeroed memory of a pool, before [InitPool]. *)
Definition blank_pool : nedpool := mkPool 0 (repeat None THREADCACHEMAXCACHES) ∅ (repeat 0 17) ∅ ∅.

Definition in_use (a : Z) (live : gset Z) : gset Z := if a =? 0 then live else {[a]} ∪ live.

(** [reach n p live]: the pool [p] can be reached from a new one by any threads
    calling the operations, in any order, with at most [n] calls that free; [live]
    are the blocks handed out and not given back. The callers free and reallocate
    only such blocks, and the memory spaces give out blocks that are free and large
    enough. *)
Inductive reach : Z -> nedpool -> gset Z -> Prop :=
| reach_init space ts p : space <> 0 -> InitPool space ts blank_pool = Some (true, p) -> reach 0 p ∅
| reach_malloc n p live k size a p' :
    reach n p live -> answer_ok p size (answer_ k) -> nedpmalloc k size p = Some (a, p') ->
    reach n p' (in_use a live)
| reach_memalign n p live k size a p' :
    reach n p live -> answer_ok p size (answer_ k) -> nedpmemalign k size p = Some (a, p') ->
    reach n p' (in_use a live)
| reach_free n p live k mem p' :
    reach n p live -> (mem ∈ live) -> nedpfree k mem p = Some p' -> reach (n + 1) p' (live ∖ {[mem]})
| reach_realloc n p live k mem size a p' :
    reach n p live -> (mem ∈ live) -> realloc_ok p mem size (answer_ k) -> nedprealloc k mem size p = Some (a, p') ->
    reach (n + 1) p' (if a =? 0 then live else {[a]} ∪ live ∖ {[mem]})
| reach_trim n p live t disable p' :
    reach n p live -> nedtrimthreadcache t disable p = Some p' -> reach (n + 1) p' live.

Lemma init_ok space ts p : space <> 0 -> InitPool space ts blank_pool = Some (true, p) ->
  pool_ok 0 p ∅ (fun _ => []).
Proof.
  unfold InitPool. intros Hs. destruct (Z.eqb_spec space 0) as [|_]; [done|]. cbn [threads blank_pool Z.eqb negb].
  set (th := if _ : bool then MAXTHREADSINPOOL else ts). intros E.
  assert (Ep : p = mkPool th (repeat None THREADCACHEMAXCACHES) ∅ ([space] ++ repeat 0 16) ∅ ∅) by (by injection E).
  assert (Hth : 1 <= th <= MAXTHREADSINPOOL).
  { unfold th, MAXTHREADSINPOOL. destruct (Z.ltb_spec ts 1), (Z.ltb_spec 16 ts); cbn; lia. }
  assert (Hnone : forall i, cache_at i p = None).
  { intros i. unfold cache_at. rewrite Ep. cbn [caches]. destruct (repeat None THREADCACHEMAXCACHES !! i) as [o|] eqn:Eo; [|done].
    apply list_elem_of_lookup_2, list_elem_of_In in Eo. apply repeat_spec in Eo. by subst. }
  clear E.
  split.
  - exists [space]. rewrite Ep. split_and!; [done|by apply Forall_singleton|..]; cbn [threads]; change (zlen [space]) with 1; lia.
  - split; [rewrite Ep; apply repeat_length| |]; intros *; rewrite Hnone; discriminate.
  - intros t. rewrite Ep. unfold TLSGET. cbn [mycache]. rewrite lookup_empty. cbn. lia.
  - split; intros *; [|by rewrite Hnone|by rewrite Ep].
    split; [rewrite Ep; by intros [? ?]|]. intros [?|(i & c & Hc & _)]; [set_solver|]. by rewrite Hnone in Hc.
Qed.

(** Every reachable pool satisfies the invariant. *)
Lemma reach_ok n p live : reach n p live -> n < 2 ^ 32 -> 0 <= n /\ exists G, pool_ok n p live G.
Proof.
  unfold in_use. induction 1 as [sp ts p Hs Hi|n p live k size a p' Hr IH Ha E|n p live k size a p' Hr IH Ha E|n p live k mem p' Hr IH Hm E
    |n p live k mem size a p' Hr IH Hm Ha E|n p live t disable p' Hr IH E]; intros Hn.
  - split; [done|]. eexists. by eapply init_ok.
  - destruct (IH Hn) as (H0 & G & P). split; [done|].
    destruct (nedpmalloc_ok n p live G k size P H0 Ha) as (b & q & G' & E' & H). rewrite E in E'. injection E' as <- <-.
    exists G'. destruct H as [[-> P']|(Hb & _ & _ & P')]; unfold in_use; [done|]. by destruct (Z.eqb_spec a 0).
  - destruct (IH Hn) as (H0 & G & P). split; [done|].
    destruct (nedpmemalign_ok n p live G k size P H0 Ha) as (b & q & G' & E' & H). rewrite E in E'. injection E' as <- <-.
    exists G'. destruct H as [[-> P']|(Hb & _ & _ & P')]; unfold in_use; [done|]. by destruct (Z.eqb_spec a 0).
  - destruct (IH ltac:(lia)) as (H0 & G & P). split; [lia|].
    destruct (nedpfree_ok n p live G k mem P H0 Hn Hm) as (q & G' & E' & P'). rewrite E in E'. injection E' as <-. by exists G'.
  - destruct (IH ltac:(lia)) as (H0 & G & P). split; [lia|].
    destruct (nedprealloc_ok n p live G k mem size P H0 Hn Hm Ha) as (b & q & G' & E' & H). rewrite E in E'. injection E' as <- <-.
    exists G'. destruct H as [[-> P']|(Hb & _ & _ & P')]; [done|]. by destruct (Z.eqb_spec a 0).
  - destruct (IH ltac:(lia)) as (H0 & G & P). split; [lia|].
    destruct (nedtrim_ok n p live G t disable P H0 Hn) as (q & G' & E' & P' & _). rewrite E in E'. injection E' as <-. by exists G'.
Qed.

(** ** Properties *)


(** C25. The bounds of a pool that can be reached with fewer than 2^32 calls that
    free: every cache counts exactly the bytes of the blocks it holds and holds less
    than 512 KiB, at most sixteen memory spaces exist, no more than the pool was
    created for, and every cache names one of them. *)
Theorem threadcache_bounded n p live i c :
  reach n p live -> n < 2 ^ 32 -> cache_at i p = Some c ->
  (exists ls, bins_repr (heap p) (bins c) ls /\ freeInCache c = total ls) /\
  freeInCache c < THREADCACHEMAXFREESPACE /\ (i < THREADCACHEMAXCACHES)%nat /\
  0 <= mymspace c < Z.of_nat (spaces (m p)) /\ Z.of_nat (spaces (m p)) <= threads p <= MAXTHREADSINPOOL.
Proof.
  intros R Hn Hc. destruct (reach_ok n p live R Hn) as (_ & G & [(l & Em & Hl & Ht & Ht') [L C1 _] _ _]).
  destruct (C1 i c Hc) as (K & T & _ & M). pose proof (ok_free _ _ _ _ K) as Ef.
  assert (Es : spaces (m p) = length l) by (by rewrite Em, spaces_app).
  unfold zlen in Ht. split_and!; try lia; try apply M.
  - exists (G i). split; [apply K|done].
  - rewrite <- L. by eapply cache_at_lt.
Qed.

(** A thread allocates two blocks and frees one of them into its cache. *)
Definition sample_call (a u : Z) : Call := mkCall 7 true (fun _ => false) 0 (Some (a, u)).
Definition sample0 : nedpool := match InitPool 1 4 blank_pool with Some (_, p) => p | None => blank_pool end.
Definition sample1 : nedpool :=
  match nedpmalloc (sample_call 4096 104) 100 sample0 with Some (_, p) => p | None => blank_pool end.
Definition sample2 : nedpool :=
  match nedpmalloc (sample_call 8192 208) 200 sample1 with Some (_, p) => p | None => blank_pool end.
Definition sample3 : nedpool :=
  match nedpfree (sample_call 0 0) 4096 sample2 with Some p => p | None => blank_pool end.

Lemma sample_reach : reach 1 sample3 (in_use 8192 (in_use 4096 ∅) ∖ {[4096]}).
Proof.
  apply (reach_free 0 sample2 _ (sample_call 0 0)); [|set_solver|by vm_compute].
  apply (reach_malloc 0 sample1 (in_use 4096 ∅) (sample_call 8192 208) 200 8192); [|by vm_compute|by vm_compute].
  apply (reach_malloc 0 sample0 ∅ (sample_call 4096 104) 100 4096); [|by vm_compute|by vm_compute].
  by apply (reach_init 1 4 sample0).
Qed.


(** Witness of C25: the cache of that thread. *)
Lemma threadcache_bounded_witness :
  exists c, cache_at 0 sample3 = Some c /\ freeInCache c = 64 /\ freeInCache c < THREADCACHEMAXFREESPACE.
Proof.
  assert (H : is_Some (cache_at 0 sample3)) by (vm_compute; eauto). destruct (cache_at 0 sample3) as [c|] eqn:E.
  - exists c. split; [done|]. split; [|apply (threadcache_bounded 1 sample3 _ 0%nat c sample_reach); [lia|done]].
    by vm_compute in E; injection E as <-.
  - by destruct H.
Defined.

Lemma free_slot_le l i n : l !! i = Some None -> (free_slot l n <= n + i)%nat.
Proof.
  revert i n. induction l as [|[c|] l IH]; intros i n; [done| |cbn; lia]. destruct i as [|i]; [done|]. cbn.
  intros H. specialize (IH i (S n) H). lia.
Qed.

(** Giving up the cache is not lasting for a thread that uses the first memory
    space: its thread-local value becomes zero, the value of a thread that has not
    allocated yet, so its next call gets a new cache. *)
Theorem disabled_cache_comes_back n p live t i c size :
  reach n p live -> n + 1 < 2 ^ 32 -> TLSGET t p = Z.of_nat i + 1 -> cache_at i p = Some c -> mymspace c = 0 ->
  exists p', neddisablethreadcache t p = Some p' /\ TLSGET t p' = 0 /\
    exists j ms s p'', GetThreadCache t true size p' = Some (Some j, ms, s, p'') /\ 0 < TLSGET t p''.
Proof.
  intros R Hn Ht Hc Hm. destruct (reach_ok n p live R ltac:(lia)) as (H0 & G & P).
  destruct (nedtrim_ok n p live G t true P H0 Hn) as (p' & G' & E & P' & H). destruct (H eq_refl i c Ht Hc) as [Ht' Hi].
  rewrite Hm in Ht'. change (- 0) with 0 in Ht'. exists p'. split; [exact E|]. split; [done|].
  destruct (spaces_spec p' (po_spaces _ _ _ _ P')) as (l & _ & _ & Es & Hl & _).
  pose proof (free_slot_le _ _ 0%nat Hi) as Hs. pose proof (lookup_lt_Some _ _ _ Hi) as Hlt.
  rewrite (co_length _ _ _ (po_caches _ _ _ _ P')) in Hlt.
  unfold GetThreadCache. rewrite Ht'. cbn [Z.ltb Z.compare Z.eqb mbind option_bind]. unfold AllocCache.
  destruct (Nat.leb_spec THREADCACHEMAXCACHES (free_slot (caches p') 0)); [lia|]. cbn [orb negb].
  destruct (Z.eqb_spec (Z.of_nat (spaces (m p'))) 0); [lia|]. cbn [negb guard_ mbind option_bind].
  set (q := put_cache _ _ _). set (j := free_slot _ _) in *.
  assert (Hj : cache_at j (TLSSET t (Z.of_nat j + 1) q) = Some (new_cache t (Z.of_nat (spaces (m p'))))).
  { unfold cache_at, q. cbn. rewrite list_lookup_insert_eq; [done|]. rewrite (co_length _ _ _ (po_caches _ _ _ _ P')). lia. }
  rewrite Hj. cbn [mbind option_bind mymspace threadid new_cache guard_].
  rewrite Hj. cbn [mbind option_bind mymspace threadid new_cache guard_].
  destruct (Z.leb_spec 0 (Z.abs t mod Z.of_nat (spaces (m p')))) as [_|Hneg].
  2: { pose proof (Z.mod_pos_bound (Z.abs t) (Z.of_nat (spaces (m p')))). lia. }
  rewrite Z.eqb_refl. cbn [guard_]. eexists j, _, _, _. split; [done|]. unfold TLSGET. cbn. rewrite lookup_insert_eq. cbn. lia.
Qed.

(** An instance of [disabled_cache_comes_back]: the thread of the sample. *)
Lemma disabled_cache_comes_back_witness :
  exists p', neddisablethreadcache 7 sample3 = Some p' /\ TLSGET 7 p' = 0 /\
    exists j ms s p'', GetThreadCache 7 true 40 p' = Some (Some j, ms, s, p'') /\ 0 < TLSGET 7 p''.
Proof.
  destruct (cache_at 0 sample3) as [c|] eqn:E; [|by vm_compute in E].
  apply (disabled_cache_comes_back 1 sample3 _ 7 0%nat c 40 sample_reach); [lia|by vm_compute|done|].
  by vm_compute in E; injection E as <-.
Defined.

(** The size of an array: a product below 2^64 is what [nedpmalloc] gets. Above,
    only its remainder is asked for: whatever the memory space answers, the caller
    gets a block smaller than its array. *)
Theorem nedpcalloc_sizes n p live k no size a u :
  reach n p live -> n < 2 ^ 32 -> 0 <= no -> 0 <= size ->
  (no * size < 2 ^ 64 -> nedpcalloc k no size p = nedpmalloc k (no * size) p) /\
  (2 ^ 64 <= no * size -> THREADCACHEMAX < u64 (size * no) -> answer_ k = Some (a, u) -> u < 2 ^ 64 ->
     exists p', nedpcalloc k no size p = Some (a, p') /\ nedblksize p' a < no * size).
Proof.
  intros R Hn Hno Hsize. destruct (reach_ok n p live R Hn) as (H0 & G & P). split.
  - intros Hlt. unfold nedpcalloc. f_equal. rewrite Z.mul_comm. apply uwrap_id. unfold in_u. split; [nia|done].
  - intros Hov Hbig Ha Hu. unfold nedpcalloc, nedpmalloc. set (w := u64 _) in *.
    destruct (GetThreadCache_ok n p live G (thread k) (cache_ok_ k) w P H0) as (tc & ms & p1 & G1 & -> & P1 & _ & Hms & Htc).
    cbn [mbind option_bind]. replace (Z.max w sizeof_threadcacheblk <=? THREADCACHEMAX) with false by lia.
    assert (E : (match tc with Some i => Some (0, Z.max w sizeof_threadcacheblk, p1) | None => Some (0, Z.max w sizeof_threadcacheblk, p1) end)
                = Some (0, Z.max w sizeof_threadcacheblk, p1)) by (by destruct tc). rewrite E. cbn [mbind option_bind Z.eqb negb].
    destruct (GetMSpace_ok n p1 live G1 (thread k) (locked_ k) (space_ k) tc ms P1 Hms Htc) as (p2 & -> & _).
    cbn [mbind option_bind]. rewrite Ha. cbn [CallMalloc]. eexists. split; [done|]. unfold nedblksize. cbn [owned set_owned].
    rewrite lookup_insert_eq. cbn. lia.
Qed.

(** An instance of [nedpcalloc_sizes]: 2^61 + 2048 elements of eight bytes end up in 16384 bytes. *)
Lemma nedpcalloc_sizes_witness :
  exists p', nedpcalloc (sample_call 65536 16392) (2 ^ 61 + 2048) 8 sample3 = Some (65536, p') /\
    nedblksize p' 65536 < (2 ^ 61 + 2048) * 8.
Proof.
  apply (nedpcalloc_sizes 1 sample3 _ (sample_call 65536 16392) (2 ^ 61 + 2048) 8 65536 16392 sample_reach); try lia; by vm_compute.
Defined.
