(* ===== verification/NedSpace.v ===== *)
(** What the allocator relies on in its memory spaces, and that the memory spaces of
    malloc.c.h keep it.

    [NedPool] takes the answers of the memory spaces as arguments, with [answer_ok] and
    [realloc_ok] as their contract, and has the blocks given out in [owned].
    [MemorySpace] is that contract with the operations; [Dl_space] is its implementation by
    [mspace_malloc], [mspace_realloc] and [mspace_free], over any system that maps memory as
    [System] says; [high_memory] is such a system. *)
From stdpp Require Import gmap.
From S2P Require Import Prelude DlBins DlTree DlFit DlSmall DlSpace DlLayout DlInv DlBlocks DlMalloc DlFree DlRun DlSystem DlGrow DlSysAlloc DlTrim DlRealloc DlResize DlAlign DlHeap NedCache NedPool.
Local Open Scope Z_scope.

(** ** The contract *)
(** A space [s] that has the blocks of [owned p]: a request is answered as the
    pool relies on, and a block can be resized and given back; in all cases the space keeps
    the account of the pool. *)
Class MemorySpace (S : Type) := {
  sp_malloc : Z -> S -> option (Answer * S);
  sp_realloc : Z -> Z -> S -> option (Answer * S);
  sp_free : Z -> S -> option S;
  sp_backs : S -> nedpool -> Prop;
  sp_malloc_ok : forall s p size, sp_backs s p -> in_u 64 size -> exists answer s', sp_malloc size s = Some (answer, s') /\ answer_ok p size answer /\ sp_backs s' (CallMalloc answer p).2;
  sp_realloc_ok : forall s p mem size, sp_backs s p -> is_Some (owned p !! mem) -> in_u 64 size -> exists answer s', sp_realloc mem size s = Some (answer, s') /\ realloc_ok p mem size answer /\ sp_backs s' (CallRealloc mem answer p).2;
  sp_free_ok : forall s p mem, sp_backs s p -> is_Some (owned p !! mem) -> exists s', sp_free mem s = Some s' /\ sp_backs s' (CallFree mem p) }.

(** ** The system *)
(** What [mmap], [mremap] and [munmap] answer: memory that the space has not got yet, or none. *)
Class System (P : malloc_params) := {
  os_map_chunk : Z -> mspace -> option Z;
  os_map : Z -> mspace -> option Z;
  os_remap : Z -> Z -> mspace -> option Z;
  os_unmap : Z -> Z -> bool;
  os_malloc_ok : forall bytes m, malloc_answers P bytes m (os_map_chunk bytes m) (os_map bytes m);
  os_remap_ok : forall mem bytes m, remap_answers P mem bytes m (os_remap mem bytes m) }.

(** ** The implementation *)
Section Space.
Context (P : malloc_params) (HP : params_ok P) {Sys : System P}.

(** The answer with [nedblksize] of the block: its chunk without the overhead. *)
Definition with_size (m : mspace) (mem : Z) : option (Answer * mspace) :=
  if mem =? 0 then Some (None, m) else c ← read m (mem2chunk mem); Some (Some (mem, chunksize c - overhead_for c), m).
Definition space_malloc (size : Z) (m : mspace) : option (Answer * mspace) :=
  '(m, mem) ← mspace_malloc P size (os_map_chunk size m) (os_map size m) m; with_size m mem.
Definition space_realloc (mem size : Z) (m : mspace) : option (Answer * mspace) :=
  '(m, mem, _) ← mspace_realloc P os_unmap mem size (os_map_chunk size m) (os_map size m) (os_remap mem size m) m; with_size m mem.
Definition space_free (mem : Z) (m : mspace) : option mspace := mspace_free P os_unmap mem m.

(** The blocks of the pool are chunks of [H]. *)
Definition owns (p : nedpool) (H : list (Z * Z)) : Prop := forall mem u, owned p !! mem = Some u -> (mem2chunk mem, u + CHUNK_OVERHEAD) ∈ H.
Definition backs (m : mspace) (p : nedpool) : Prop := exists L Ms Mt, space_inv m L Ms Mt /\ owns p (held m L).

Lemma with_size_block m L Ms Mt p sz : space_inv m L Ms Mt -> (p, sz) ∈ held m L -> 0 < p -> with_size m (chunk2mem p) = Some (Some (chunk2mem p, sz - CHUNK_OVERHEAD), m).
Proof using Type.
  intros (O & _) Hin Hp. destruct (held_head m L Ms Mt _ p sz O Hin) as (Er & Es & _). unfold with_size. rewrite (proj2 (Z.eqb_neq _ 0)) by (unfold chunk2mem; lia). rewrite mem_chunk, Er. cbn [mbind option_bind]. rewrite Es.
  replace (overhead_for (heads_of_space m p)) with CHUNK_OVERHEAD by (unfold overhead_for; by destruct (is_mmapped _)). done.
Qed.

(** A block handed out beside the chunks [rest], which have the blocks of the pool [q]. *)
Lemma new_owned m L Ms Mt p sz rest lost (q : nedpool) : space_inv m L Ms Mt -> held m L ≡ₚ (p, sz) :: rest ++ lost -> owns q rest -> owned q !! chunk2mem p = None /\ backs m (set_owned (<[chunk2mem p := sz - CHUNK_OVERHEAD]> (owned q)) q).
Proof using Type.
  intros HI HH Hq. pose proof HI as (O & _). split.
  - destruct (owned q !! chunk2mem p) as [u|] eqn:E; [|done]. exfalso. apply Hq in E. rewrite mem_chunk in E. pose proof (held_nodup m L Ms Mt _ O) as Hd. rewrite HH in Hd. cbn in Hd. apply NoDup_cons in Hd as [Hd _]. apply Hd, list_elem_of_fmap. eexists. split; [|apply elem_of_app; by left]. done.
  - exists L, Ms, Mt. split; [done|]. intros mem u. cbn [owned set_owned]. rewrite HH. intros [[<- <-]|[_ E]]%lookup_insert_Some; [rewrite mem_chunk; replace (sz - CHUNK_OVERHEAD + CHUNK_OVERHEAD) with sz by lia; by left|right; apply elem_of_app; left; by apply Hq].
Qed.

Lemma drop_owned p H mem u rest : owns p H -> owned p !! mem = Some u -> H ≡ₚ (mem2chunk mem, u + CHUNK_OVERHEAD) :: rest -> owns (CallFree mem p) rest.
Proof using Type.
  intros Ho Hm HR mem' v. cbn [owned CallFree set_owned]. intros [Hne E]%lookup_delete_Some. apply Ho in E. rewrite HR in E. apply elem_of_cons in E as [E|?]; [|done]. exfalso. apply Hne. injection E as E _. rewrite <- (chunk_mem mem), <- (chunk_mem mem'). by f_equal.
Qed.

Lemma space_malloc_backs m p size : backs m p -> in_u 64 size -> exists answer m', space_malloc size m = Some (answer, m') /\ answer_ok p size answer /\ backs m' (CallMalloc answer p).2.
Proof using Type*.
  intros (L & Ms & Mt & HI & Ho) Hs. unfold space_malloc. destruct (os_malloc_ok size m) as [Hdm Hmp].
  destruct (mspace_malloc_ok P size _ _ m L Ms Mt HP HI Hs Hdm Hmp) as [(E & _)|(m1 & a & sz & L1 & Ms1 & Mt1 & E & Ha & [Hsz _] & HI1 & HH)]; rewrite E; cbn [mbind option_bind].
  - exists None, m. split; [done|]. split; [done|]. by exists L, Ms, Mt.
  - rewrite (with_size_block m1 L1 Ms1 Mt1 a sz HI1) by (done || (rewrite HH; by left)). eexists _, m1. split; [done|]. destruct (new_owned m1 L1 Ms1 Mt1 a sz (held m L) [] p HI1) as [Hn HB]; [by rewrite app_nil_r|done|]. split; [|exact HB].
    pose proof (served_room size sz Hs Hsz). destruct (held_head m1 L1 Ms1 Mt1 _ a sz (proj1 HI1) ltac:(rewrite HH; by left)) as (_ & _ & _ & _ & H32 & _). unfold CHUNK_OVERHEAD in *. cbn. unfold chunk2mem. split_and!; [lia|done|lia|lia].
Qed.

Lemma space_realloc_backs m p mem size : backs m p -> is_Some (owned p !! mem) -> in_u 64 size -> exists answer m', space_realloc mem size m = Some (answer, m') /\ realloc_ok p mem size answer /\ backs m' (CallRealloc mem answer p).2.
Proof using Type*.
  intros (L & Ms & Mt & HI & Ho) [u Hu] Hs. unfold space_realloc. pose proof (Ho _ _ Hu) as Hin. destruct (os_malloc_ok size m) as [Hdm Hmp]. pose proof (os_remap_ok mem size m) as Hmr. rewrite <- (chunk_mem mem) in Hmr at 1.
  destruct (mspace_realloc_ok P os_unmap m L Ms Mt HP HI (mem2chunk mem) _ Hin size Hs _ _ (os_remap mem size m) Hdm Hmp) as [[E _]|(m1 & a & sz & c & L1 & Ms1 & Mt1 & rest & lost & E & Ha & Hsz & HI1 & HR & HH & _)].
  - intros d Hd Ed. apply Hmr; [done|]. by rewrite chunk_mem.
  - rewrite chunk_mem in E. rewrite E. cbn [mbind option_bind]. exists None, m. split; [done|]. split; [done|]. by exists L, Ms, Mt.
  - rewrite chunk_mem in E. rewrite E. cbn [mbind option_bind]. rewrite (with_size_block m1 L1 Ms1 Mt1 a sz HI1) by (done || (rewrite HH; by left)). eexists _, m1. split; [done|]. destruct (new_owned m1 L1 Ms1 Mt1 a sz rest lost (CallFree mem p) HI1 HH) as [Hn HB]; [by apply (drop_owned p (held m L) mem u)|]. split; [|exact HB].
    destruct (held_head m1 L1 Ms1 Mt1 _ a sz (proj1 HI1) ltac:(rewrite HH; by left)) as (_ & _ & _ & _ & H32 & _). cbn [owned CallFree set_owned] in Hn. apply lookup_delete_None in Hn. unfold CHUNK_OVERHEAD in *. cbn. split_and!; [unfold chunk2mem; lia|destruct Hn as [Hn|Hn]; [by right|by left]|lia|lia].
Qed.

Lemma space_free_backs m p mem : backs m p -> is_Some (owned p !! mem) -> exists m', space_free mem m = Some m' /\ backs m' (CallFree mem p).
Proof using Type*.
  intros (L & Ms & Mt & HI & Ho) [u Hu]. pose proof (Ho _ _ Hu) as Hin. apply elem_of_Permutation in Hin as [rest HR]. destruct (free_held P os_unmap m L Ms Mt _ _ rest HP HI HR) as (m1 & L1 & Ms1 & Mt1 & lost & E & HI1 & HH & _). rewrite chunk_mem in E.
  exists m1. split; [done|]. exists L1, Ms1, Mt1. split; [done|]. intros mem' v Hv. rewrite HH. apply elem_of_app. left. by apply (drop_owned p (held m L) mem u rest Ho Hu HR).
Qed.

Definition Dl_space : MemorySpace mspace := {|
  sp_malloc := space_malloc; sp_realloc := space_realloc; sp_free := space_free; sp_backs := backs; sp_malloc_ok := space_malloc_backs; sp_realloc_ok := space_realloc_backs; sp_free_ok := space_free_backs |}.
End Space.

(** ** A system *)
(** New memory is behind all that the space has, at the next page. *)
Definition high (l : list (Z * Z)) : Z := foldr (fun r h => Z.max r.2 h) 0 l.
Definition next_page (l : list (Z * Z)) : Z := (high l / 4096 + 1) * 4096.
Definition place (n : Z) (m : mspace) : option Z :=
  let a := next_page (maps m ++ direct m) in if (0 <? n) && (a + n <=? 2 ^ 64) then Some a else None.

Lemma high_bound l r : r ∈ l -> r.2 <= high l.
Proof. induction l as [|r' l IH]; [by intros ?%elem_of_nil|]. intros [->|H]%elem_of_cons; change (high (r' :: l)) with (Z.max r'.2 (high l)); [lia|]. specialize (IH H). lia. Qed.
Lemma high_nonneg l : 0 <= high l.
Proof. induction l as [|r l IH]; [done|]. change (high (r :: l)) with (Z.max r.2 (high l)). lia. Qed.
Lemma next_page_spec l : 0 < next_page l /\ next_page l mod 8 = 0 /\ high l < next_page l.
Proof.
  unfold next_page. pose proof (high_nonneg l) as H0. pose proof (Z.div_mod (high l) 4096 ltac:(lia)). pose proof (Z.mod_pos_bound (high l) 4096 ltac:(lia)). pose proof (Z.div_pos (high l) 4096 H0 ltac:(lia)). split; [lia|]. split; [|lia].
  change 4096 with (512 * 8). rewrite Z.mul_assoc. by apply Z.mod_mul.
Qed.

Lemma place_fresh n m a : place n m = Some a -> fresh_memory m a n.
Proof.
  unfold place. destruct (_ && _) eqn:E; [|done]. intros [= <-]. apply andb_true_iff in E as [E1%Z.ltb_lt E2%Z.leb_le]. destruct (next_page_spec (maps m ++ direct m)) as (H1 & H2 & H3). split; [done|]. split; [done|]. split; [done|]. intros r Hr. left. cbn. pose proof (high_bound _ _ Hr). lia.
Qed.
Lemma unmap_bound lo hi l r : r ∈ unmap lo hi l -> exists r', r' ∈ l /\ r.2 <= r'.2.
Proof.
  unfold unmap. intros (r' & Hr & Hin)%list_elem_of_bind. exists r'. split; [done|]. unfold unmap1 in Hr. apply elem_of_app in Hr as [Hr|Hr]; (destruct (_ <? _); [|by apply elem_of_nil in Hr]); apply list_elem_of_singleton in Hr as ->; cbn; lia.
Qed.
Lemma place_remapped lo hi n m a : place n m = Some a -> fresh_memory (munmap lo hi m) a n.
Proof.
  intros E. pose proof (place_fresh n m a E) as (H1 & H2 & H3 & _). split; [done|]. split; [done|]. split; [done|]. unfold place in E. destruct (_ && _); [|done]. injection E as <-. destruct (next_page_spec (maps m ++ direct m)) as (_ & _ & Hh). intros r Hr. left. cbn in *.
  assert (Hb : exists r', r' ∈ maps m ++ direct m /\ r.2 <= r'.2). { apply elem_of_app in Hr as [Hr|Hr]; apply unmap_bound in Hr as (r' & Hr' & Hle); exists r'; (split; [apply elem_of_app; auto|done]). }
  destruct Hb as (r' & Hr' & Hle). pose proof (high_bound _ _ Hr'). lia.
Qed.

Definition room (P : malloc_params) (bytes : Z) (m : mspace) : bool := forallb (fun s => seg_size s + sys_size P (needed bytes) <? 2 ^ 40) (segs m).
#[export] Instance high_memory P : System P.
Proof.
  refine {| os_map_chunk bytes m := place (mmap_size P (needed bytes)) m; os_map bytes m := if room P bytes m then place (sys_size P (needed bytes)) m else None;
    os_remap mem bytes m := if 0 <? mmap_size P (request2size bytes) then place (mmap_size P (request2size bytes)) m else None; os_unmap base size := true |}.
  - intros bytes m. split; unfold direct_answer, system_answer; [destruct (place _ _) as [a|] eqn:E; [by apply place_fresh|done]|]. destruct (room P bytes m) eqn:Er; [|done]. destruct (place _ _) as [a|] eqn:E; [|done]. split; [by apply place_fresh|].
    intros s Hs. apply Z.ltb_lt. unfold room in Er. rewrite forallb_forall in Er. by apply Er, list_elem_of_In.
  - intros mem bytes m d Hd Ed. unfold remap_answer. destruct (Z.ltb_spec 0 (mmap_size P (request2size bytes))); [|done]. destruct (place _ _) as [a|] eqn:E; [|done]. split; [done|]. by apply place_remapped.
Defined.


