(* ===== verification/NedPoolList.v ===== *)
(** The list of the pools that a program has created (source/memory/nedmalloc.cpp):
    [nedcreatepool], the entry of [neddestroypool] and [nedpoollist]. The list is one
    block of memory with a header of two words and a slot per pool; the slots the
    block has room for are modelled, so that a write behind its end shows. What the
    allocator below answers ([NedPool]) is an argument. [None] is a failed assertion
    or a write outside of the block. *)
From stdpp Require Import list.
From S2P Require Import Prelude DlBins NedCache.
Local Open Scope Z_scope.

(** [list_] are all slots of the block, used or not. *)
Record PoolList : Type := mkPoolList { size_ : Z; length_ : Z; list_ : list Z }.

Definition sizeof_header : Z := 16.
Definition sizeof_slot : Z := 8.
Definition list_capacity : Z := 16.
Definition sizeof_PoolList : Z := sizeof_header + list_capacity * sizeof_slot.

(** [memset(&list[from], 0, bytes)] and [memmove(&list[to_], &list[from], bytes)], in
    slots. *)
Definition clear_slots (from bytes : Z) (l : list Z) : option (list Z) :=
  let n := Z.to_nat (bytes / sizeof_slot) in
  guard_ (from + bytes / sizeof_slot <=? zlen l)
    (Some (take (Z.to_nat from) l ++ repeat 0 n ++ drop (Z.to_nat from + n) l)).
Definition move_slots (to_ from n : nat) (l : list Z) : option (list Z) :=
  guard_ (from + n <=? length l)%nat
    (Some (take to_ l ++ take n (drop from l) ++ drop (to_ + n) l)).
Definition set_slot (i : Z) (p : Z) (l : list Z) : option (list Z) :=
  guard_ (i <? zlen l) (Some (<[Z.to_nat i := p]> l)).

(** The block grows by sixteen slots and one more. *)
Definition grow_size (pl : PoolList) : Z := sizeof_PoolList + (size_ pl + 1) * sizeof_slot.
Definition grow_list (mem : list Z) (pl : PoolList) : option PoolList :=
  let newsize := grow_size pl in
  l ← clear_slots (size_ pl) (newsize - size_ pl * sizeof_slot) mem;
  let size := (newsize - sizeof_header) / sizeof_slot - 1 in
  guard_ (length_ pl <? size) (Some (mkPoolList size (length_ pl) l)).

(** What [nedcreatepool] meets: the slots of a cleared block for a first list, the
    slots of the block after [nedprealloc] (the old ones in front), the memory of the
    pool, and the answer of [InitPool]. *)
Record Create : Type := mkCreate { calloc_list : option nat; realloc_list : option (list Z); calloc_pool : Z; init_pool : bool }.

(** The result is the value returned and the list. *)
Definition nedcreatepool (k : Create) (poollist : option PoolList) : option (Z * option PoolList) :=
  match match poollist with
        | None => slots ← calloc_list k; Some (mkPoolList list_capacity 0 (repeat 0 slots))
        | Some pl => Some pl
        end with
  | None => Some (0, None)
  | Some pl =>
      let badexit (ret : Z) (pl : PoolList) := Some (ret, Some pl) in
      let create (pl : PoolList) :=
        let ret := calloc_pool k in
        if ret =? 0 then badexit 0 pl
        else if negb (init_pool k) then badexit ret pl
        else l ← set_slot (length_ pl) ret (list_ pl); badexit ret (mkPoolList (size_ pl) (length_ pl + 1) l) in
      if length_ pl =? size_ pl then
        match realloc_list k with
        | None => badexit 0 pl
        | Some mem => pl ← grow_list mem pl; create pl
        end
      else create pl
  end.

(** [neddestroypool], after the pool itself is destroyed. *)
Fixpoint find_slot (n : nat) (p : Z) (l : list Z) : nat :=
  match n, l with
  | S n, x :: l => if x =? p then 0%nat else S (find_slot n p l)
  | _, _ => 0%nat
  end.
Definition neddestroypool (p : Z) (poollist : option PoolList) : option (option PoolList) :=
  pl ← poollist;
  let len := Z.to_nat (length_ pl) in
  let n := find_slot len p (list_ pl) in
  guard_ (negb (n =? len)%nat) (
  l ← move_slots n (n + 1) (len - n) (list_ pl);
  let pl := mkPoolList (size_ pl) (length_ pl - 1) l in
  if length_ pl =? 0 then x ← list_ pl !! 0%nat; guard_ (x =? 0) (Some None) else Some (Some pl)).

(** [nedpoollist]: a copy of the entries and one slot more; [ok] says whether there
    was memory for it. *)
Definition nedpoollist (ok : bool) (poollist : option PoolList) : option (list Z) :=
  match poollist with
  | None => Some []
  | Some pl =>
      if ok then guard_ (length_ pl + 1 <=? zlen (list_ pl)) (Some (take (Z.to_nat (length_ pl + 1)) (list_ pl)))
      else Some []
  end.

(** * The list of pools it stands for *)

(** The first entries, and nothing but null pointers behind them as far as the
    list's size and one slot more. *)
Definition pools_are (poollist : option PoolList) (pools : list Z) : Prop :=
  match poollist with
  | None => pools = []
  | Some pl => exists rest tail, list_ pl = pools ++ repeat 0 rest ++ tail /\ zlen pools = length_ pl /\
      zlen pools + Z.of_nat rest = size_ pl + 1 /\ (0 < rest)%nat /\ 0 <= size_ pl
  end /\ Forall (fun p => p <> 0) pools /\ NoDup pools.

(** What the allocator promises: room for what was asked for; a block that grows
    keeps its contents; a new pool is none of those in use. [slack] are the bytes
    behind the size asked for that the block has in fact. *)
Definition create_ok (slack : Z) (pools : list Z) (poollist : option PoolList) (k : Create) : Prop :=
  (forall n, calloc_list k = Some n -> sizeof_PoolList + sizeof_slot <= sizeof_header + Z.of_nat n * sizeof_slot) /\
  (forall pl mem, poollist = Some pl -> realloc_list k = Some mem ->
     take (Z.to_nat (size_ pl)) mem = take (Z.to_nat (size_ pl)) (list_ pl) /\ grow_size pl + slack <= sizeof_header + zlen mem * sizeof_slot) /\
  (calloc_pool k ∉ pools).

Lemma find_slot_spec pools p rest : p ∈ pools ->
  exists a b, pools = a ++ p :: b /\ (p ∉ a) /\ find_slot (length pools) p (pools ++ rest) = length a.
Proof.
  induction pools as [|x l IH]; intros Hp; [by apply elem_of_nil in Hp|]. cbn. destruct (Z.eqb_spec x p) as [->|Hne].
  - exists [], l. split_and!; [done|apply not_elem_of_nil|done].
  - apply elem_of_cons in Hp as [->|Hp]; [done|]. destruct (IH Hp) as (a & b & -> & Ha & E).
    exists (x :: a), b. rewrite E. split_and!; [done| |done]. rewrite not_elem_of_cons. split; [congruence|done].
Qed.

Lemma filter_without (p : Z) (l : list Z) : (p ∉ l) -> filter (fun q => q <> p) l = l.
Proof.
  induction l as [|x l IH]; [done|]. intros [Hx Hl]%not_elem_of_cons. rewrite filter_cons_True by congruence. by rewrite IH.
Qed.

Lemma set_slot_append pools rest tail p : (0 < rest)%nat ->
  set_slot (zlen pools) p (pools ++ repeat 0 rest ++ tail) = Some ((pools ++ [p]) ++ repeat 0 (rest - 1) ++ tail).
Proof.
  intros Hr. destruct rest as [|rest]; [lia|]. unfold set_slot, zlen. rewrite length_app. cbn [repeat app length].
  destruct (Z.ltb_spec (Z.of_nat (length pools)) (Z.of_nat (length pools + S (length (repeat 0 rest ++ tail))))); [|lia].
  cbn [guard_]. f_equal. rewrite Nat2Z.id.
  rewrite insert_app_r_alt, Nat.sub_diag by lia. cbn. replace (rest - 0)%nat with rest by lia. by rewrite <- app_assoc.
Qed.

(** Growing a full list. *)
Lemma grow_list_spec pl pools mem :
  pools_are (Some pl) pools -> length_ pl = size_ pl ->
  take (Z.to_nat (size_ pl)) mem = take (Z.to_nat (size_ pl)) (list_ pl) -> grow_size pl + 16 <= sizeof_header + zlen mem * sizeof_slot ->
  exists pl', grow_list mem pl = Some pl' /\ pools_are (Some pl') pools /\ size_ pl' = size_ pl + 16 /\ length_ pl' = length_ pl.
Proof.
  intros ((rest & tail & El & Elen & Esz & Hr & Hs) & Hp & Hnd) Hfull Htake Hroom.
  unfold grow_list, grow_size, sizeof_PoolList, sizeof_header, list_capacity, sizeof_slot, zlen in *.
  set (s := size_ pl) in *. replace (16 + 16 * 8 + (s + 1) * 8 - s * 8) with (19 * 8) by lia.
  unfold clear_slots, sizeof_slot. rewrite Z.div_mul by lia. replace (s + 19 <=? zlen mem) with true by (unfold zlen; lia).
  cbn [guard_ mbind option_bind]. replace (16 + 16 * 8 + (s + 1) * 8 - 16) with ((s + 17) * 8) by lia. rewrite Z.div_mul by lia.
  replace (length_ pl <? s + 17 - 1) with true by lia. cbn [guard_]. eexists. split; [done|].
  cbn [size_ length_]. split; [|lia]. split; [|done]. cbn [list_ size_ length_].
  assert (Hpools : take (Z.to_nat s) mem = pools).
  { rewrite Htake, El. apply take_app_length'. lia. }
  exists 17%nat, (0 :: 0 :: drop (Z.to_nat s + 19) mem). rewrite Hpools. unfold zlen. split; [done|]. lia.
Qed.

Lemma create_refines st pools k : pools_are st pools -> create_ok 16 pools st k ->
  exists ret st', nedcreatepool k st = Some (ret, st') /\
    ((pools_are st' pools /\ (ret = 0 \/ ret = calloc_pool k /\ init_pool k = false)) \/
     (ret = calloc_pool k /\ ret <> 0 /\ pools_are st' (pools ++ [ret]))).
Proof.
  intros P (K1 & K2 & K3). unfold nedcreatepool.
  (* a list with a free slot *)
  assert (Hcreate : forall pl, pools_are (Some pl) pools -> length_ pl < size_ pl ->
    exists ret st', (if calloc_pool k =? 0 then Some (0, Some pl)
      else if negb (init_pool k) then Some (calloc_pool k, Some pl)
      else l ← set_slot (length_ pl) (calloc_pool k) (list_ pl); Some (calloc_pool k, Some (mkPoolList (size_ pl) (length_ pl + 1) l)))
      = Some (ret, st') /\
    ((pools_are st' pools /\ (ret = 0 \/ ret = calloc_pool k /\ init_pool k = false)) \/
     (ret = calloc_pool k /\ ret <> 0 /\ pools_are st' (pools ++ [ret])))).
  { intros pl P' Hlt. destruct (Z.eqb_spec (calloc_pool k) 0) as [E0|Hne]; [by eexists _, _; split; [done|auto]|].
    destruct (init_pool k); cbn [negb]; [|by eexists _, _; split; [done|auto]].
    destruct P' as ((rest & tail & El & Elen & Esz & Hr & Hs) & Hp & Hnd). rewrite El, <- Elen, set_slot_append by done.
    cbn [mbind option_bind]. eexists _, _. split; [done|]. right. split_and!; [done|done|]. split.
    - exists (rest - 1)%nat, tail. cbn [list_ size_ length_]. unfold zlen in *. rewrite length_app. cbn [length]. split; [done|]. lia.
    - split; [apply Forall_app; split; [done|by apply Forall_singleton]|].
      apply NoDup_app. split_and!; [done| |apply NoDup_singleton]. intros x Hx ->%list_elem_of_singleton. done. }
  destruct st as [pl|].
  - destruct (Z.eqb_spec (length_ pl) (size_ pl)) as [Hf|Hne].
    + destruct (realloc_list k) as [mem|] eqn:Er; [|by eexists _, _; split; [done|auto]].
      destruct (K2 pl mem eq_refl eq_refl) as [Ht Hroom].
      destruct (grow_list_spec pl pools mem P Hf Ht Hroom) as (pl' & -> & P' & Es & El). apply (Hcreate pl' P'). lia.
    + apply (Hcreate pl P). destruct P as ((rest & tail & _ & Elen & Esz & Hr & Hs) & _ & _). lia.
  - destruct P as [-> _]. destruct (calloc_list k) as [n|] eqn:Ec; cbn [mbind option_bind].
    + specialize (K1 n eq_refl). unfold sizeof_PoolList, sizeof_header, list_capacity, sizeof_slot in K1.
      apply (Hcreate (mkPoolList list_capacity 0 (repeat 0 n))); [|done]. split; [|split; [done|apply NoDup_nil_2]].
      exists 17%nat, (repeat 0 (n - 17)). cbn [list_ size_ length_ app]. rewrite <- repeat_app. split; [f_equal; lia|].
      unfold list_capacity, zlen. cbn [length]. lia.
    + eexists _, _. split; [done|]. left. split; [|by left]. split; [done|]. split; [done|apply NoDup_nil_2].
Qed.

Lemma destroy_refines st pools p : pools_are st pools -> p ∈ pools ->
  exists st', neddestroypool p st = Some st' /\ pools_are st' (filter (fun q => q <> p) pools).
Proof.
  intros (P & Hz & Hnd) Hp. destruct st as [pl|]; [|subst pools; by apply elem_of_nil in Hp].
  destruct P as (rest & tail & El & Elen & Esz & Hr & Hs). unfold neddestroypool. cbn [mbind option_bind].
  rewrite <- Elen. unfold zlen. rewrite Nat2Z.id, El.
  destruct (find_slot_spec pools p (repeat 0 rest ++ tail) Hp) as (a & b & Ep & Ha & ->).
  assert (Hb : p ∉ b).
  { rewrite Ep in Hnd. apply NoDup_app in Hnd as (_ & _ & Hnd). by apply NoDup_cons in Hnd as [? _]. }
  assert (Ef : filter (fun q => q <> p) pools = a ++ b).
  { rewrite Ep, filter_app, filter_cons_False by naive_solver.
    by rewrite !filter_without. }
  rewrite Ef. assert (Elp : length pools = (length a + S (length b))%nat) by (rewrite Ep, length_app; done).
  destruct (Nat.eqb_spec (length a) (length pools)); [lia|]. cbn [negb guard_].
  assert (Em : move_slots (length a) (length a + 1) (length pools - length a) (pools ++ repeat 0 rest ++ tail)
    = Some ((a ++ b) ++ repeat 0 (S rest) ++ tail)).
  { unfold move_slots. rewrite !length_app, repeat_length. rewrite (proj2 (Nat.leb_le _ _)) by lia. cbn [guard_]. f_equal.
    destruct rest as [|rest]; [lia|]. rewrite Elp, Ep. replace (length a + S (length b) - length a)%nat with (length b + 1)%nat by lia.
    rewrite <- app_assoc, take_app_length. rewrite drop_app_add. cbn [drop app].
    replace (length a + (length b + 1))%nat with (length a + S (length b))%nat by lia. rewrite drop_app_add. cbn [drop app repeat].
    rewrite drop_0, take_app_add, drop_app_length. cbn [take]. by rewrite <- !app_assoc. }
  rewrite Em. cbn [mbind option_bind length_ list_].
  assert (Hab : pools_are (Some (mkPoolList (size_ pl) (Z.of_nat (length pools) - 1) ((a ++ b) ++ repeat 0 (S rest) ++ tail))) (a ++ b)).
  { split; [|rewrite <- Ef; split; [|by apply NoDup_filter]; rewrite Ef;
      rewrite Ep in Hz; apply Forall_app in Hz as [? [_ ?]%Forall_cons]; by apply Forall_app]. exists (S rest), tail. cbn [list_ size_ length_].
    unfold zlen in *. rewrite length_app. split; [done|]. lia. }
  destruct (Z.eqb_spec (Z.of_nat (length pools) - 1) 0) as [E0|Hne]; [|by eexists].
  destruct a as [|? ?]; [|cbn in Elp; lia]. destruct b; [|cbn in Elp; lia]. cbn. exists None. split; [done|].
  split; [done|]. split; [done|apply NoDup_nil_2].
Qed.

Lemma nedpoollist_refines st pools : pools_are st pools ->
  nedpoollist true st = Some (match st with Some _ => pools ++ [0] | None => [] end).
Proof.
  intros (P & _ & _). destruct st as [pl|]; [|done]. destruct P as (rest & tail & El & Elen & Esz & Hr & Hs).
  unfold nedpoollist. rewrite El, <- Elen. unfold zlen in *. rewrite !length_app, repeat_length.
  rewrite (proj2 (Z.leb_le _ _)) by lia. cbn [guard_]. f_equal. replace (Z.to_nat _) with (length pools + 1)%nat by lia.
  rewrite take_app_add. by destruct rest as [|rest]; [lia|].
Qed.

(** ** Properties *)



(** With a block of exactly the size asked for, the seventeenth pool makes the
    list write sixteen bytes behind the end of its block. *)
Theorem pool_list_grows_out_of_bounds pl pools k mem :
  pools_are (Some pl) pools -> length_ pl = size_ pl -> realloc_list k = Some mem ->
  sizeof_header + zlen mem * sizeof_slot = grow_size pl ->
  nedcreatepool k (Some pl) = None.
Proof.
  intros ((rest & tail & _ & Elen & Esz & Hr & Hs) & _) Hf Hm Hroom. unfold nedcreatepool. rewrite Hf, Z.eqb_refl, Hm. unfold grow_list, clear_slots.
  unfold grow_size, sizeof_PoolList, sizeof_header, list_capacity, sizeof_slot in *.
  replace (16 + 16 * 8 + (size_ pl + 1) * 8 - size_ pl * 8) with (19 * 8) by lia. rewrite Z.div_mul by lia.
  by replace (size_ pl + 19 <=? zlen mem) with false by lia.
Qed.

(** An instance of [pool_list_grows_out_of_bounds]: sixteen pools in a first list, and memory for 33 slots. *)
Lemma pool_list_grows_out_of_bounds_witness :
  nedcreatepool (mkCreate None (Some (map Z.of_nat (seq 1 16) ++ repeat 0 17)) 99 true)
    (Some (mkPoolList 16 16 (map Z.of_nat (seq 1 16) ++ repeat 0 1))) = None.
Proof.
  apply (pool_list_grows_out_of_bounds _ (map Z.of_nat (seq 1 16)) _ (map Z.of_nat (seq 1 16) ++ repeat 0 17)); try done.
  split; [|split; [by repeat constructor|]].
  - exists 1%nat, []. cbn. unfold zlen. cbn. split; [done|lia].
  - apply (NoDup_fmap_2 Z.of_nat), NoDup_ListNoDup, seq_NoDup.
Defined.
