(* ===== verification/StringUtil.v ===== *)
(** The string tools of source/util/JME_String.cpp: character counting and the
    conversions between GB2312 and UTF-8.

    Memory is a list of bytes; a read or write outside of it gives [None] (or
    [OutOfBounds]). The system's code page tables ([MultiByteToWideChar] and
    [WideCharToMultiByte] in the WIN32 branches, [iconv] in the LINUX branches)
    are parameters, and so are the boost functions behind [split] and
    [createString]. *)
From S2P Require Import Prelude.
Local Open Scope Z_scope.

(** ** Memory with bounds *)
Definition rd (m : bytes) (i : nat) : option Z := m !! i.
Definition wr (m : bytes) (i : nat) (v : Z) : option (list Z) :=
  if (i <? length m)%nat then Some (<[i := v]> m) else None.

(** The C string at the start of a block. *)
Fixpoint c_string (m : bytes) : option (list Z) :=
  match m with
  | [] => None
  | b :: m => if b =? 0 then Some [] else cons b <$> c_string m
  end.

(** ** One character *)

(** [UnicodeToUTF_8]: the bytes of a [wchar_t], low byte first. *)
Definition UnicodeToUTF_8 (pText : Z) : Z * Z * Z :=
  let pchar0 := pText mod 256 in
  let pchar1 := (pText / 256) mod 256 in
  (u8 (Z.lor 224 (Z.shiftr (Z.land pchar1 240) 4)),
   u8 (Z.lor 128 (Z.shiftl (Z.land pchar1 15) 2) + Z.shiftr (Z.land pchar0 192) 6),
   u8 (Z.lor 128 (Z.land pchar0 63))).

(** [UTF_8ToUnicode]. *)
Definition UTF_8ToUnicode (t0 t1 t2 : Z) : Z :=
  let uchar1 := u8 (Z.shiftl (Z.land t0 15) 4 + Z.land (Z.shiftr t1 2) 15) in
  let uchar0 := u8 (Z.shiftl (Z.land t1 3) 6 + Z.land t2 63) in
  uchar0 + 256 * uchar1.

(** ** Conversion of texts *)

(** A [char] compared with zero: [char] is signed. *)
Definition is_ascii (b : Z) : bool := 0 <=? i8 b.

Section Convert.
(** [MultiByteToWideChar] on two bytes and [WideCharToMultiByte] on one wide
    character (the bytes it writes, two at most). *)
Context (mb2wc : Z -> Z -> Z) (wc2mb : Z -> list Z).

(** [Gb2312ToUnicode] on WIN32. *)
Definition Gb2312ToUnicode (gbBuffer : bytes) (i : nat) : option Z :=
  b1 ← rd gbBuffer i; b2 ← rd gbBuffer (S i); Some (mb2wc b1 b2).

(** [UnicodeToGB2312] on WIN32, into the buffer [Ctemp]. *)
Definition UnicodeToGB2312 (pOut : bytes) (uData : Z) : list Z :=
  mem_write pOut 0 (take 2 (wc2mb uData)).

(** The loop of [GB2312ToUTF_8]. *)
Fixpoint gb_loop (fuel : nat) (pText : bytes) (pLen i j : nat) (rst : bytes) : option (nat * list Z) :=
  match fuel with
  | O => None
  | S fuel =>
      if (i <? pLen)%nat then
        b ← rd pText i;
        if is_ascii b then
          rst ← wr rst j b; gb_loop fuel pText pLen (i + 1) (j + 1) rst
        else
          pbuffer ← Gb2312ToUnicode pText i;
          let '(b0, b1, b2) := UnicodeToUTF_8 pbuffer in
          rst ← wr rst j b0; rst ← wr rst (j + 1) b1; rst ← wr rst (j + 2) b2;
          gb_loop fuel pText pLen (i + 2) (j + 3) rst
      else Some (j, rst)
  end.

(** [GB2312ToUTF_8] on WIN32; [pOut] is the string before the call. Each round
    consumes a byte, so [pLen + 1] rounds are enough. *)
Definition GB2312ToUTF_8 (pOut pText : bytes) (pLen : nat) : option (list Z) :=
  if (pLen =? 0)%nat then Some pOut
  else
    '(j, rst) ← gb_loop (S pLen) pText pLen 0 0 (replicate (pLen * 3) 0);
    rst ← wr rst j 32;
    c_string rst.

(** The loop of [UTF_8ToGB2312]. *)
Fixpoint utf8_loop (fuel : nat) (pText : bytes) (pLen i j : nat) (Ctemp newBuf : bytes) : option (nat * list Z) :=
  match fuel with
  | O => None
  | S fuel =>
      if (i <? pLen)%nat then
        b ← rd pText i;
        if is_ascii b then
          newBuf ← wr newBuf j b; utf8_loop fuel pText pLen (i + 1) (j + 1) Ctemp newBuf
        else
          t1 ← rd pText (i + 1); t2 ← rd pText (i + 2);
          let Wtemp := UTF_8ToUnicode b t1 t2 in
          let Ctemp := UnicodeToGB2312 Ctemp Wtemp in
          c0 ← rd Ctemp 0; c1 ← rd Ctemp 1;
          newBuf ← wr newBuf j c0; newBuf ← wr newBuf (j + 1) c1;
          utf8_loop fuel pText pLen (i + 3) (j + 2) Ctemp newBuf
      else Some (j, newBuf)
  end.

(** [UTF_8ToGB2312] on WIN32. *)
Definition UTF_8ToGB2312 (pText : bytes) (pLen : nat) : option (list Z) :=
  '(j, newBuf) ← utf8_loop (S pLen) pText pLen 0 0 (replicate 4 0) (replicate (pLen + 1) 0);
  newBuf ← wr newBuf j 0;
  c_string newBuf.

End Convert.

Section Iconv.
(** [iconv_open] (target first; minus one when it fails) and [iconv] on a
    descriptor with a limit on the output: what it writes, and whether it converted
    everything. *)
Context (iconv_open : string -> string -> Z) (iconv : Z -> bytes -> nat -> list Z * bool).

(** [code_convert] into the buffer [outbuf] of which [outlen] bytes are cleared
    first, with the descriptors that are open; [None] is a write outside. *)
Definition code_convert (from_charset to_charset : string) (inbuf outbuf : bytes) (outlen : nat) (open : list Z)
    : option (Z * list Z * list Z) :=
  let cd := iconv_open to_charset from_charset in
  if cd =? 0 then Some (-1, outbuf, open)
  else if (outlen <=? length outbuf)%nat then
    let open := cd :: open in
    let outbuf := mem_write outbuf 0 (replicate outlen 0) in
    let '(out, ok) := iconv cd inbuf outlen in
    let outbuf := mem_write outbuf 0 (take outlen out) in
    if (ok : bool) then Some (0, outbuf, tail open) else Some (-1, outbuf, open)
  else None.

(** [GB2312ToUTF_8] and [UTF_8ToGB2312] on LINUX: the return code is not used. *)
Definition GB2312ToUTF_8_linux (pOut pText : bytes) (open : list Z) : option (list Z * list Z) :=
  match pText with
  | [] => Some (pOut, open)
  | _ =>
      let nLength := (length pText * 3)%nat in
      '(_, rst, open) ← code_convert "gbk" "utf-8" pText (replicate nLength 0) nLength open;
      r ← c_string rst; Some (r, open)
  end.
Definition UTF_8ToGB2312_linux (pText : bytes) (open : list Z) : option (list Z * list Z) :=
  '(_, newBuf, open) ← code_convert "utf-8" "gbk" pText (replicate (length pText + 1) 0) (length pText) open;
  newBuf ← wr newBuf (length pText) 0;
  r ← c_string newBuf; Some (r, open).

(** [Gb2312ToUnicode] and [UnicodeToGB2312] on LINUX: the lengths are those of the
    pointers, eight bytes, and the wide character itself (four bytes) is taken for
    the address of the input, to be read from the memory [mem]. *)
Definition sizeof_pointer : nat := 8.
Definition sizeof_wchar_t : nat := 4.
Definition Gb2312ToUnicode_linux (pOut gbBuffer : bytes) (open : list Z) : option (list Z * list Z) :=
  '(_, pOut, open) ← code_convert "gbk" "utf-8" (take sizeof_pointer gbBuffer) pOut sizeof_pointer open;
  Some (pOut, open).
Definition UnicodeToGB2312_linux (mem : Z -> option Z) (pOut : bytes) (uData : Z) (open : list Z)
    : option (list Z * list Z) :=
  inbuf ← mapM mem (seqZ uData (Z.of_nat sizeof_wchar_t));
  '(_, pOut, open) ← code_convert "utf-8" "gbk" inbuf pOut sizeof_pointer open;
  Some (pOut, open).
End Iconv.

(** ** Splitting and formatting *)

(** [split] with the splitting function of boost: text, separators, whether
    adjacent separators count once. *)
Definition split (boost_split : bytes -> (Z -> bool) -> bool -> list (list Z)) (str sign : bytes) : list (list Z) :=
  boost_split str (fun c => bool_decide (c ∈ sign)) true.

(** [createString] and [format], with [boost::format] as a parameter: reading the
    format, feeding an argument and giving the text can throw ([None]); then the
    answer is the empty string. *)
Section Format.
Context {Fmt Arg : Type} (boost_format : bytes -> option Fmt) (feed : Fmt -> Arg -> option Fmt)
  (str : Fmt -> option (list Z)).
Fixpoint format (fmt : Fmt) (args : list Arg) : option Fmt :=
  match args with [] => Some fmt | t :: args => fmt ← feed fmt t; format fmt args end.
Definition createString (fmt : bytes) (args : list Arg) : list Z :=
  default [] (fmt_ ← boost_format fmt; fmt_ ← format fmt_ args; str fmt_).
End Format.

(** ** Counting characters *)
Inductive count_result : Set := Count (n : Z) | OutOfBounds | NoFuel.

(** What one round of the loop of [stringLength] adds to [pChar] and to [nlen];
    the bytes are read from [m]; [None] is a read outside. *)
Definition char_step (m : bytes) (pChar : nat) (value : Z) : option (nat * Z) :=
  if (value <=? 253) && (192 <=? value) then
    if Z.land value 224 =? 224 then Some (3%nat, 1)
    else if Z.land value 192 =? 192 then Some (2%nat, 1)
    else Some (0%nat, 0)
  else
    let second : option (nat * Z) :=
      if (176 <=? value) && (value <=? 247) then
        value2 ← rd m (pChar + 1);
        if (160 <? Z.land value2 255) && (Z.land value2 255 <? 255) then Some (2%nat, 1) else Some (1%nat, 1)
      else Some (1%nat, 1) in
    if (161 <=? value) && (value <=? 169) then
      value2 ← rd m (pChar + 1);
      if (161 <? Z.land value2 255) && (Z.land value2 255 <=? 239) then Some (2%nat, 1) else second
    else second.

(** The loop, [value] being the byte at [pChar]. *)
Fixpoint count_loop (fuel : nat) (m : bytes) (len pChar : nat) (value nlen : Z) : count_result :=
  match fuel with
  | O => NoFuel
  | S fuel =>
      if (pChar <? len)%nat then
        match char_step m pChar (Z.land value 255) with
        | None => OutOfBounds
        | Some (d, k) =>
            match rd m (pChar + d) with
            | None => OutOfBounds
            | Some value => count_loop fuel m len (pChar + d) value (nlen + k)
            end
        end
      else Count nlen
  end.

(** [stringLength(const char*, int)] on the block [str]. *)
Definition stringLength_ptr (str : bytes) (len : nat) : count_result :=
  match rd str 0 with
  | None => OutOfBounds
  | Some value => count_loop (S len) str len 0 value 0
  end.
(** [stringLength(const string&)]: [c_str] ends in a zero byte. *)
Definition stringLength (inStr : bytes) : count_result :=
  stringLength_ptr (inStr ++ [0]) (length inStr).

(** * Specification *)

(** UTF-8 (RFC 3629). *)
Definition utf8_char (c : Z) : list Z :=
  if c <? 128 then [c]
  else if c <? 2048 then [192 + c / 64; 128 + c mod 64]
  else if c <? 65536 then [224 + c / 4096; 128 + c / 64 mod 64; 128 + c mod 64]
  else [240 + c / 262144; 128 + c / 4096 mod 64; 128 + c / 64 mod 64; 128 + c mod 64].
Definition utf8 (text : list Z) : list Z := concat (utf8_char <$> text).

(** * Lemmas *)

(** ** Counting *)
Lemma rd_app_ge m m' i : rd (m ++ m') (length m + i) = rd m' i.
Proof. unfold rd. rewrite lookup_app_r by lia. f_equal. lia. Qed.

(** A character of the basic plane is one round, whatever follows. *)
Lemma char_step_utf8 pre c post :
  0 <= c < 65536 ->
  exists b bs, utf8_char c = b :: bs /\ byte_ok b /\
    char_step (pre ++ utf8_char c ++ post) (length pre) b = Some (length (utf8_char c), 1).
Proof.
  intros Hc. unfold utf8_char. destruct (Z.ltb_spec c 128) as [H1|H1].
  - exists c, []. split_and!; [done|split; lia|]. unfold char_step.
    destruct (Z.leb_spec 192 c); [lia|]. destruct (Z.leb_spec 161 c), (Z.leb_spec 176 c); try lia.
    by rewrite andb_false_r.
  - destruct (Z.ltb_spec c 2048) as [H2|H2].
    + eexists _, _. split_and!; [done|unfold byte_ok, in_u; div_lia|].
      assert (194 <= 192 + c / 64 < 224) as Hb by div_lia. revert Hb. generalize (192 + c / 64). intros b Hb.
      pose proof (byte_forall (fun b => implb ((194 <=? b) && (b <? 224)) ((Z.land b 224 =? 192) && (Z.land b 192 =? 192)))
        ltac:(vm_compute; reflexivity) b ltac:(split; lia)) as E. cbn beta in E.
      replace ((194 <=? b) && (b <? 224)) with true in E by lia. cbn in E.
      unfold char_step. replace ((b <=? 253) && (192 <=? b)) with true by lia.
      apply andb_true_iff in E as [E1%Z.eqb_eq E2%Z.eqb_eq]. by rewrite E1, E2.
    + replace (c <? 65536) with true by lia. eexists _, _. split_and!; [done|unfold byte_ok, in_u; div_lia|].
      assert (224 <= 224 + c / 4096 < 240) as Hb by div_lia. revert Hb. generalize (224 + c / 4096). intros b Hb.
      pose proof (byte_forall (fun b => implb ((224 <=? b) && (b <? 240)) (Z.land b 224 =? 224))
        ltac:(vm_compute; reflexivity) b ltac:(split; lia)) as E. cbn beta in E.
      replace ((224 <=? b) && (b <? 240)) with true in E by lia. cbn in E.
      unfold char_step. replace ((b <=? 253) && (192 <=? b)) with true by lia. by rewrite E.
Qed.

(** The loop counts the characters of a text of the basic plane. *)
Lemma count_loop_utf8 text pre fuel n :
  Forall (fun c => 0 <= c < 65536) text ->
  (length (utf8 text) < fuel)%nat ->
  exists value, rd (pre ++ utf8 text ++ [0]) (length pre) = Some value /\
    count_loop fuel (pre ++ utf8 text ++ [0]) (length pre + length (utf8 text)) (length pre) value n =
    Count (n + zlen text).
Proof.
  intros Ht. revert pre fuel n. induction Ht as [|c text Hc Ht IH]; intros pre fuel n Hf.
  - exists 0. change (utf8 []) with (@nil Z) in *. cbn [app]. rewrite <- (Nat.add_0_r (length pre)) at 1.
    rewrite rd_app_ge. split; [done|]. destruct fuel; [lia|]. cbn [count_loop length].
    rewrite Nat.add_0_r, Nat.ltb_irrefl. f_equal. zlen_simpl. lia.
  - change (utf8 (c :: text)) with (utf8_char c ++ utf8 text) in *. rewrite length_app in *.
    destruct (char_step_utf8 pre c (utf8 text ++ [0]) Hc) as (b & bs & Eb & Hb & Es).
    exists b. split.
    { rewrite <- (Nat.add_0_r (length pre)), rd_app_ge, Eb. done. }
    destruct fuel as [|fuel]; [lia|]. cbn [count_loop].
    assert (length (utf8_char c) = S (length bs)) as El by (by rewrite Eb).
    replace (length pre <? _)%nat with true by (symmetry; apply Nat.ltb_lt; lia).
    rewrite land_ff, uwrap_id by done. rewrite <- app_assoc, Es.
    destruct (IH (pre ++ utf8_char c) fuel (n + 1)) as (v & E1 & E2); [lia|].
    rewrite <- app_assoc, length_app in E1, E2. rewrite E1.
    rewrite Nat.add_assoc, E2. f_equal. zlen_simpl. lia.
Qed.

(** ** One character *)
Definition unicode_check (w : Z) : bool :=
  let '(b0, b1, b2) := UnicodeToUTF_8 w in
  (b0 =? 224 + w / 4096) && (b1 =? 128 + w / 64 mod 64) && (b2 =? 128 + w mod 64) &&
  (UTF_8ToUnicode b0 b1 b2 =? w).

Definition unicode_row (hi : Z) : bool :=
  forallb (fun lo => unicode_check (hi * 256 + lo)) (Z.of_nat <$> seq 0 256).

Lemma unicode_check_all w : 0 <= w < 65536 -> unicode_check w = true.
Proof.
  intros Hw.
  pose proof (byte_forall unicode_row ltac:(vm_compute; reflexivity) (w / 256)
    ltac:(unfold byte_ok, in_u; div_lia)) as H.
  pose proof (byte_forall _ H (w mod 256) ltac:(unfold byte_ok, in_u; div_lia)) as Hc.
  by rewrite (Z.mul_comm (w / 256)), <- Z.div_mod in Hc.
Qed.

Lemma UnicodeToUTF_8_spec w :
  0 <= w < 65536 ->
  exists b0 b1 b2, UnicodeToUTF_8 w = (b0, b1, b2) /\
    b0 = 224 + w / 4096 /\ b1 = 128 + w / 64 mod 64 /\ b2 = 128 + w mod 64 /\ UTF_8ToUnicode b0 b1 b2 = w.
Proof.
  intros H%unicode_check_all. unfold unicode_check in H. destruct (UnicodeToUTF_8 w) as [[b0 b1] b2].
  repeat (apply andb_true_iff in H as [H ?]). rewrite Z.eqb_eq in *. eauto 10.
Qed.

(** ** Writing at the end of what was written *)
Lemma wr_zeros out k j v :
  j = length out -> (0 < k)%nat ->
  wr (out ++ replicate k 0) j v = Some ((out ++ [v]) ++ replicate (k - 1) 0).
Proof.
  intros -> Hk. unfold wr. destruct k as [|k]; [lia|].
  replace (length out <? _)%nat with true by (symmetry; apply Nat.ltb_lt; rewrite length_app; cbn; lia).
  rewrite Nat.sub_1_r. cbn [replicate pred]. rewrite insert_app_r_alt, Nat.sub_diag by lia. cbn.
  by rewrite <- app_assoc.
Qed.

Lemma c_string_zeros out k :
  Forall (fun b => b <> 0) out -> (0 < k)%nat -> c_string (out ++ replicate k 0) = Some out.
Proof.
  intros H Hk. induction H as [|b out Hb H IH]; [by destruct k; [lia|]|].
  cbn. destruct (Z.eqb_spec b 0); [done|]. by rewrite IH.
Qed.

(** ** GB2312 texts *)
Inductive gb_char : Set := GbAscii (b : Z) | GbDouble (b1 b2 : Z).

Definition gb_ok (c : gb_char) : Prop :=
  match c with
  | GbAscii b => 1 <= b <= 127
  | GbDouble b1 b2 => 161 <= b1 <= 254 /\ 161 <= b2 <= 254
  end.
#[global] Instance gb_ok_dec c : Decision (gb_ok c).
Proof. destruct c; cbn; apply _. Defined.

Definition gb_char_bytes (c : gb_char) : list Z :=
  match c with GbAscii b => [b] | GbDouble b1 b2 => [b1; b2] end.
Definition gb_bytes (text : list gb_char) : list Z := concat (gb_char_bytes <$> text).

Lemma is_ascii_spec b : 0 <= b < 256 -> is_ascii b = (b <? 128).
Proof.
  intros H. pose proof (byte_forall (fun b => Bool.eqb (is_ascii b) (b <? 128)) ltac:(vm_compute; reflexivity) b H) as E.
  by apply eqb_prop in E.
Qed.

Section Conversions.
Context (mb2wc : Z -> Z -> Z) (wc2mb : Z -> list Z).

(** The tables convert a pair of GB2312 to one wide character and back. *)
Definition table_ok : Prop :=
  forall b1 b2, 161 <= b1 <= 254 -> 161 <= b2 <= 254 ->
    0 <= mb2wc b1 b2 < 65536 /\ wc2mb (mb2wc b1 b2) = [b1; b2].

Definition wide (c : gb_char) : list Z :=
  match c with
  | GbAscii b => [b]
  | GbDouble b1 b2 => let w := mb2wc b1 b2 in [224 + w / 4096; 128 + w / 64 mod 64; 128 + w mod 64]
  end.
Definition wides (text : list gb_char) : list Z := concat (wide <$> text).

Context (Htable : table_ok).

Lemma wides_nonzero text : Forall gb_ok text -> Forall (fun b => b <> 0) (wides text).
Proof using Htable.
  induction 1 as [|c text Hc Ht IH]; [constructor|]. change (wides (c :: text)) with (wide c ++ wides text).
  apply Forall_app. split; [|done]. destruct c as [b|b1 b2]; cbn in *; repeat constructor; try lia.
  all: destruct (Htable b1 b2) as [Hw _]; try lia. all: div_lia.
Qed.

Lemma wides_length text : (2 * length (wides text) <= 3 * length (gb_bytes text))%nat.
Proof.
  induction text as [|c text IH]; [done|]. change (wides (c :: text)) with (wide c ++ wides text).
  change (gb_bytes (c :: text)) with (gb_char_bytes c ++ gb_bytes text). rewrite !length_app.
  destruct c; cbn; lia.
Qed.

Lemma gb_loop_spec text pre out k fuel :
  Forall gb_ok text -> (length (gb_bytes text) < fuel)%nat -> (length (wides text) <= k)%nat ->
  gb_loop mb2wc fuel (pre ++ gb_bytes text) (length pre + length (gb_bytes text)) (length pre) (length out)
    (out ++ replicate k 0) =
  Some (length (out ++ wides text), (out ++ wides text) ++ replicate (k - length (wides text)) 0).
Proof using Htable.
  intros Ht. revert pre out k fuel. induction Ht as [|c text Hc Ht IH]; intros pre out k fuel Hf Hk.
  - destruct fuel; [lia|]. cbn [gb_loop]. change (wides []) with (@nil Z). change (gb_bytes []) with (@nil Z).
    cbn [length]. rewrite Nat.add_0_r, Nat.ltb_irrefl, !app_nil_r, Nat.sub_0_r. done.
  - change (wides (c :: text)) with (wide c ++ wides text) in *.
    change (gb_bytes (c :: text)) with (gb_char_bytes c ++ gb_bytes text) in *.
    rewrite !length_app in *. destruct fuel as [|fuel]; [lia|]. cbn [gb_loop].
    replace (length pre <? _)%nat with true by (symmetry; apply Nat.ltb_lt; destruct c; cbn; lia).
    specialize (IH (pre ++ gb_char_bytes c) (out ++ wide c) (k - length (wide c))%nat fuel
      ltac:(destruct c; cbn in *; lia) ltac:(lia)).
    rewrite <- !app_assoc, !length_app in IH.
    pose proof (rd_app_ge pre (gb_char_bytes c ++ gb_bytes text)) as E.
    destruct c as [b|b1 b2]; cbn [gb_char_bytes wide length gb_ok] in *.
    + pose proof (E 0%nat) as E0. rewrite Nat.add_0_r in E0. rewrite E0.
      change (rd ([b] ++ gb_bytes text) 0) with (Some b). cbn [mbind option_bind].
      rewrite is_ascii_spec by lia. replace (b <? 128) with true by lia.
      rewrite wr_zeros by lia. cbn [mbind option_bind]. rewrite <- !app_assoc.
      rewrite !Nat.add_assoc in *. rewrite IH. by rewrite Nat.sub_add_distr.
    + destruct (Htable b1 b2) as [Hw _]; [lia..|].
      destruct (UnicodeToUTF_8_spec _ Hw) as (x0 & x1 & x2 & Eu & -> & -> & -> & _).
      pose proof (E 0%nat) as E0. rewrite Nat.add_0_r in E0. pose proof (E 1%nat) as E1. rewrite Nat.add_1_r in E1.
      unfold Gb2312ToUnicode. rewrite E0, E1.
      change (rd ([b1; b2] ++ gb_bytes text) 0) with (Some b1). change (rd ([b1; b2] ++ gb_bytes text) 1) with (Some b2).
      cbn [mbind option_bind]. rewrite is_ascii_spec by lia.
      replace (b1 <? 128) with false by lia. cbn [mbind option_bind]. rewrite Eu.
      rewrite wr_zeros by lia. cbn [mbind option_bind].
      rewrite wr_zeros by (rewrite ?length_app; cbn [length]; lia). cbn [mbind option_bind].
      rewrite wr_zeros by (rewrite ?length_app; cbn [length]; lia). cbn [mbind option_bind].
      rewrite <- !app_assoc. cbn [app] in *. rewrite !Nat.add_assoc in *.
      replace (k - 1 - 1 - 1)%nat with (k - 3)%nat by lia. cbn [app length] in IH |- *. rewrite IH. by rewrite Nat.sub_add_distr.
Qed.

(** What [UnicodeToGB2312] leaves in a buffer of four bytes. *)
Lemma UnicodeToGB2312_pair ct b1 b2 :
  length ct = 4%nat -> 161 <= b1 <= 254 -> 161 <= b2 <= 254 ->
  let ct' := UnicodeToGB2312 wc2mb ct (mb2wc b1 b2) in
  rd ct' 0 = Some b1 /\ rd ct' 1 = Some b2 /\ length ct' = 4%nat.
Proof using Htable.
  intros Hl H1 H2. destruct (Htable b1 b2 H1 H2) as [_ E].
  destruct ct as [|c0 [|c1 [|c2 [|c3 [|]]]]]; try done. unfold UnicodeToGB2312. rewrite E. done.
Qed.

Lemma utf8_loop_spec text pre out k ct fuel :
  Forall gb_ok text -> length ct = 4%nat ->
  (length (wides text) < fuel)%nat -> (length (gb_bytes text) <= k)%nat ->
  utf8_loop wc2mb fuel (pre ++ wides text) (length pre + length (wides text)) (length pre) (length out) ct
    (out ++ replicate k 0) =
  Some (length (out ++ gb_bytes text), (out ++ gb_bytes text) ++ replicate (k - length (gb_bytes text)) 0).
Proof using Htable.
  intros Ht. revert pre out k ct fuel. induction Ht as [|c text Hc Ht IH]; intros pre out k ct fuel Hct Hf Hk.
  - destruct fuel; [lia|]. cbn [utf8_loop]. change (wides []) with (@nil Z). change (gb_bytes []) with (@nil Z).
    cbn [length]. rewrite Nat.add_0_r, Nat.ltb_irrefl, !app_nil_r, Nat.sub_0_r. done.
  - change (wides (c :: text)) with (wide c ++ wides text) in *.
    change (gb_bytes (c :: text)) with (gb_char_bytes c ++ gb_bytes text) in *.
    rewrite !length_app in *. destruct fuel as [|fuel]; [lia|]. cbn [utf8_loop].
    replace (length pre <? _)%nat with true by (symmetry; apply Nat.ltb_lt; destruct c; cbn; lia).
    assert (Hlt : (length (wides text) < fuel)%nat) by (destruct c; cbn in *; lia).
    assert (Hle : (length (gb_bytes text) <= k - length (gb_char_bytes c))%nat) by lia.
    assert (IH' := fun ct H => IH (pre ++ wide c) (out ++ gb_char_bytes c) _ ct fuel H Hlt Hle). clear IH.
    setoid_rewrite <- app_assoc in IH'. rewrite !length_app in IH'.
    pose proof (rd_app_ge pre (wide c ++ wides text)) as E. pose proof (E 0%nat) as E0. rewrite Nat.add_0_r in E0.
    rewrite E0. destruct c as [b|b1 b2]; cbn [gb_char_bytes wide length gb_ok app] in *.
    + change (rd (b :: wides text) 0) with (Some b). cbn [mbind option_bind].
      rewrite is_ascii_spec by lia. replace (b <? 128) with true by lia.
      rewrite wr_zeros by lia. cbn [mbind option_bind]. rewrite <- !app_assoc. cbn [app].
      rewrite !Nat.add_assoc in *. rewrite IH' by done. by rewrite Nat.sub_add_distr, <- app_assoc.
    + destruct (Htable b1 b2) as [Hw _]; [lia..|].
      destruct (UnicodeToUTF_8_spec _ Hw) as (x0 & x1 & x2 & _ & -> & -> & -> & Eu).
      set (x0 := 224 + _) in *. set (x1 := 128 + mb2wc b1 b2 / 64 mod 64) in *. set (x2 := 128 + mb2wc b1 b2 mod 64) in *.
      rewrite !E. change (rd (x0 :: x1 :: x2 :: wides text) 0) with (Some x0).
      change (rd (x0 :: x1 :: x2 :: wides text) 1) with (Some x1). change (rd (x0 :: x1 :: x2 :: wides text) 2) with (Some x2).
      cbn [mbind option_bind]. rewrite is_ascii_spec by (unfold x0; div_lia).
      replace (x0 <? 128) with false by (unfold x0; div_lia). rewrite Eu.
      destruct (UnicodeToGB2312_pair ct b1 b2 Hct) as (Ec0 & Ec1 & Hct'); [lia..|].
      rewrite Ec0, Ec1. cbn [mbind option_bind].
      rewrite wr_zeros by lia. cbn [mbind option_bind].
      rewrite wr_zeros by (rewrite ?length_app; cbn [length]; lia). cbn [mbind option_bind].
      rewrite <- !app_assoc. cbn [app] in *. rewrite !Nat.add_assoc in *.
      replace (k - 1 - 1)%nat with (k - 2)%nat by lia. rewrite IH' by done. by rewrite Nat.sub_add_distr, <- app_assoc.
Qed.
End Conversions.

(** * Properties *)

(** [stringLength] of a UTF-8 text of the basic multilingual plane is its
    number of characters, for every text, and it reads nothing outside of the
    string and its terminator. *)
Theorem stringLength_utf8 (text : list Z) :
  Forall (fun c => 0 <= c < 65536) text -> stringLength (utf8 text) = Count (zlen text).
Proof.
  intros H. unfold stringLength, stringLength_ptr.
  destruct (count_loop_utf8 text [] (S (length (utf8 text))) 0 H) as (v & E1 & E2); [lia|].
  cbn [app length Nat.add] in *. by rewrite E1, E2.
Qed.

(** An instance of [stringLength_utf8]. *)
Lemma stringLength_utf8_witness :
  stringLength (utf8 [104; 233; 20013; 25991; 33]) = Count 5.
Proof. apply (stringLength_utf8 [104; 233; 20013; 25991; 33]). decide_closed. Defined.

(** Outside of the basic plane the count is wrong: a character of four bytes is
    two; two GB2312 characters whose lead bytes are also UTF-8 lead bytes are
    read in threes, past the end of the string; and so is a text that was cut
    inside a character. *)
Lemma stringLength_limits :
  stringLength (utf8 [128512]) = Count 2 /\
  stringLength [228; 228; 229; 229] = OutOfBounds /\
  stringLength [228] = OutOfBounds.
Proof. split_and!; vm_compute; reflexivity. Qed.



(** [UnicodeToUTF_8] always writes three bytes; for the characters of GB2312 below
    U+0800 (Greek, Cyrillic, the degree sign) that is not their UTF-8 form. *)
Lemma unicode_three_bytes w :
  0 <= w < 65536 ->
  exists b0 b1 b2, UnicodeToUTF_8 w = (b0, b1, b2) /\ (utf8_char w = [b0; b1; b2] <-> 2048 <= w).
Proof.
  intros Hw. destruct (UnicodeToUTF_8_spec w Hw) as (b0 & b1 & b2 & -> & -> & -> & -> & _).
  eexists _, _, _. split; [done|]. unfold utf8_char.
  destruct (Z.ltb_spec w 128), (Z.ltb_spec w 2048), (Z.ltb_spec w 65536); split; try done; lia.
Qed.

(** ** The LINUX branches *)
Section Linux.
Context (iconv_open : string -> string -> Z) (iconv : Z -> bytes -> nat -> list Z * bool).

Lemma mem_write_zeros n k out :
  (length out <= n)%nat -> (n <= k)%nat ->
  mem_write (mem_write (replicate k 0) 0 (replicate n 0)) 0 out = out ++ replicate (k - length out) 0.
Proof.
  intros Hn Hk. unfold mem_write. change (Z.to_nat 0) with 0%nat. rewrite !take_0. cbn [app Nat.add].
  rewrite length_replicate, drop_replicate, <- replicate_add, drop_replicate. do 2 f_equal. lia.
Qed.

(** A conversion into a cleared block of [k] bytes, with the limit [n]. *)
Lemma code_convert_zeros from to cd out ok inbuf n k open :
  iconv_open to from = cd -> cd <> 0 -> iconv cd inbuf n = (out, ok) -> (length out <= n)%nat -> (n <= k)%nat ->
  code_convert iconv_open iconv from to inbuf (replicate k 0) n open =
    Some (if ok then 0 else -1, out ++ replicate (k - length out) 0, if ok then open else cd :: open).
Proof.
  intros Ho Hcd E Hn Hk. unfold code_convert. rewrite Ho. destruct (Z.eqb_spec cd 0); [done|].
  rewrite length_replicate. replace (n <=? k)%nat with true by (symmetry; apply Nat.leb_le; lia).
  rewrite E, take_ge by lia. rewrite mem_write_zeros by done. by destruct ok.
Qed.

(** On LINUX the conversions of texts return what [iconv] wrote, inside their
    buffers, when there is room for a zero byte (a GB text grows by half at most in
    UTF-8, and does not grow in the other direction); a conversion that fails
    half-way is returned as it is, and its descriptor stays open. *)
Theorem linux_text_conversion (pOut pText out : bytes) (ok : bool) (open : list Z) (cd cd' : Z) (out' : bytes) (ok' : bool) :
  pText <> [] ->
  iconv_open "utf-8" "gbk" = cd -> cd <> 0 -> iconv cd pText (length pText * 3) = (out, ok) ->
  Forall (fun b => b <> 0) out -> (length out < length pText * 3)%nat ->
  iconv_open "gbk" "utf-8" = cd' -> cd' <> 0 -> iconv cd' pText (length pText) = (out', ok') ->
  Forall (fun b => b <> 0) out' -> (length out' <= length pText)%nat ->
  GB2312ToUTF_8_linux iconv_open iconv pOut pText open = Some (out, if ok then open else cd :: open) /\
  UTF_8ToGB2312_linux iconv_open iconv pText open = Some (out', if ok' then open else cd' :: open).
Proof.
  intros Hne Ho Hcd E Hnz Hlen Ho' Hcd' E' Hnz' Hlen'. split.
  - unfold GB2312ToUTF_8_linux. destruct pText as [|b t] eqn:Et; [done|]. rewrite <- Et in *. cbv zeta.
    rewrite (code_convert_zeros _ _ cd out ok) by (done || lia). cbn [mbind option_bind].
    rewrite c_string_zeros by (done || lia). done.
  - unfold UTF_8ToGB2312_linux. rewrite (code_convert_zeros _ _ cd' out' ok') by (done || lia). cbn [mbind option_bind].
    replace (length pText + 1 - length out')%nat with (length pText - length out' + 1)%nat by lia.
    rewrite replicate_add, app_assoc. unfold wr.
    assert (Hl : length (out' ++ replicate (length pText - length out') 0) = length pText)
      by (rewrite length_app, length_replicate; lia).
    rewrite length_app, Hl. replace (length pText <? _)%nat with true by (symmetry; apply Nat.ltb_lt; cbn; lia).
    rewrite insert_app_r_alt, Hl, Nat.sub_diag by lia. cbn [replicate insert list_insert mbind option_bind].
    change [0] with (replicate 1 0). rewrite <- app_assoc, <- replicate_add, c_string_zeros by (done || lia). done.
Qed.

(** The conversions of single characters are unsafe on LINUX: the destination of
    [Gb2312ToUnicode] is one wide character of four bytes, of which eight are
    cleared, and [UnicodeToGB2312] reads at the address that the character's own
    code is, which no process has mapped. *)
Theorem linux_char_conversion_unsafe (gbBuffer pOut dest : bytes) (uData : Z) (open : list Z) (mem : Z -> option Z) :
  iconv_open "utf-8" "gbk" <> 0 -> length dest = sizeof_wchar_t ->
  (forall a, 0 <= a < 65536 -> mem a = None) -> 0 <= uData < 65536 ->
  Gb2312ToUnicode_linux iconv_open iconv dest gbBuffer open = None /\
  UnicodeToGB2312_linux iconv_open iconv mem pOut uData open = None.
Proof.
  intros Ho Hd Hmem Hu. split.
  - unfold Gb2312ToUnicode_linux, code_convert. destruct (Z.eqb_spec (iconv_open "utf-8" "gbk") 0); [done|]. by rewrite Hd.
  - unfold UnicodeToGB2312_linux. rewrite seqZ_cons by (unfold sizeof_wchar_t; lia). cbn [mapM]. by rewrite Hmem.
Qed.
End Linux.

(** Descriptors three and four; the converter copies ASCII and stops at the first
    other byte. *)
Fixpoint ascii_prefix (s : bytes) : list Z :=
  match s with b :: s => if b <? 128 then b :: ascii_prefix s else [] | [] => [] end.
Definition ascii_iconv (cd : Z) (inbuf : bytes) (limit : nat) : list Z * bool :=
  let out := ascii_prefix (take limit inbuf) in (out, (length out =? length inbuf)%nat).

(** An instance of [linux_text_conversion]: the text is cut at the first byte that does not convert, and the
    descriptor is lost. *)
Lemma linux_text_conversion_witness :
  GB2312ToUTF_8_linux (fun _ _ => 3) ascii_iconv [] [65; 66; 200; 67] [] = Some ([65; 66], [3]) /\
  UTF_8ToGB2312_linux (fun _ _ => 3) ascii_iconv [65; 66; 200; 67] [] = Some ([65; 66], [3]).
Proof.
  apply (linux_text_conversion (fun _ _ => 3) ascii_iconv [] [65; 66; 200; 67] [65; 66] false [] 3 3 [65; 66] false);
    try reflexivity; try discriminate; try (repeat constructor; discriminate); cbn; lia.
Defined.

(** An instance of [linux_char_conversion_unsafe]. *)
Lemma linux_char_conversion_unsafe_witness :
  Gb2312ToUnicode_linux (fun _ _ => 3) ascii_iconv [0; 0; 0; 0] [176; 161] [] = None /\
  UnicodeToGB2312_linux (fun _ _ => 3) ascii_iconv (fun a => if a <? 65536 then None else Some 0) [0; 0; 0; 0] 0x554a [] = None.
Proof.
  apply (linux_char_conversion_unsafe (fun _ _ => 3) ascii_iconv [176; 161] [0; 0; 0; 0] [0; 0; 0; 0] 0x554a []
    (fun a => if a <? 65536 then None else Some 0)); try discriminate; try reflexivity; [|lia].
  intros a Ha. by replace (a <? 65536) with true by lia.
Defined.
