(* ===== verification/JsonValue.v ===== *)
(** JSON values: [Json::Value] of source/json/src/json_value.cpp, as the engine
    builds it (without JSON_VALUE_USE_INTERNAL_MAP): arrays and objects are both a
    [std::map] from [CZString] to [Value], here a list of pairs in key order.

    Doubles are a parameter with the operations the source uses ([Double]).
    [JSON_ASSERT] and [JSON_ASSERT_MESSAGE] end the operation with [AssertFail]
    and [Throw]. Comments belong to the reader (JsonReader.v), which keeps them by
    the path of their node. Allocation is not modelled: a C string is its bytes, a
    null pointer [None]. *)
From S2P Require Import Prelude.
Local Open Scope Z_scope.

(** ** Results *)
Inductive res (A : Type) : Type := Ok (a : A) | Throw (message : string) | AssertFail.
Arguments Ok {_} _. Arguments Throw {_} _. Arguments AssertFail {_}.

#[global] Instance res_ret : MRet res := fun A a => Ok a.
#[global] Instance res_bind : MBind res := fun A B f r =>
  match r with Ok a => f a | Throw m => Throw m | AssertFail => AssertFail end.
Definition json_assert {A} (b : bool) (k : res A) : res A := if b then k else AssertFail.

(** ** Doubles *)
Class Double (D : Type) : Type := {
  d_of_Z : Z -> D;
  d_le : D -> D -> bool;
  d_lt : D -> D -> bool;
  d_eq : D -> D -> bool;
  (** Conversion to an integer type, rounding towards zero. *)
  d_trunc : D -> Z;
  (** [sscanf(s, "%lf", ...)] and [sprintf(..., "%#.16g", ...)]. *)
  scan_lf : bytes -> option D;
  print_g16 : D -> list Z
}.

(** ** C strings *)

(** The bytes before the first zero byte. *)
Fixpoint cstr (s : bytes) : list Z :=
  match s with
  | [] => []
  | b :: s => if b =? 0 then [] else b :: cstr s
  end.

(** The sign of [strcmp] on strings without zero bytes. *)
Fixpoint strcmp (a b : bytes) : comparison :=
  match a, b with
  | [], [] => Eq
  | [], _ => Lt
  | _, [] => Gt
  | x :: a, y :: b => match x ?= y with Eq => strcmp a b | c => c end
  end.

(** ** [Value::CZString] *)
Inductive CZString : Set := CZIndex (index : Z) | CZName (name : list Z).

(** [CZString::operator<]; a map holds keys of one kind, so the mixed cases, in
    which the source passes a null pointer to [strcmp] or compares the allocation
    flags, do not occur. *)
Definition CZ_compare (a b : CZString) : comparison :=
  match a, b with
  | CZIndex i, CZIndex j => i ?= j
  | CZName x, CZName y => strcmp x y
  | CZIndex _, CZName _ => Lt
  | CZName _, CZIndex _ => Gt
  end.
Definition CZ_lt (a b : CZString) : bool := match CZ_compare a b with Lt => true | _ => false end.
Definition CZ_eq (a b : CZString) : bool := match CZ_compare a b with Eq => true | _ => false end.

(** ** [std::map<CZString, Value>], in key order *)
Section Map.
Context {V : Type}.

Fixpoint map_find (k : CZString) (m : list (CZString * V)) : option V :=
  match m with
  | [] => None
  | (k', x) :: m => match CZ_compare k k' with Eq => Some x | Lt => None | Gt => map_find k m end
  end.

(** Insertion at the lower bound, or assignment to the element found there. *)
Fixpoint map_set (k : CZString) (x : V) (m : list (CZString * V)) : list (CZString * V) :=
  match m with
  | [] => [(k, x)]
  | (k', y) :: m' =>
      match CZ_compare k k' with
      | Lt => (k, x) :: m
      | Eq => (k', x) :: m'
      | Gt => (k', y) :: map_set k x m'
      end
  end.

Fixpoint map_erase (k : CZString) (m : list (CZString * V)) : list (CZString * V) :=
  match m with
  | [] => []
  | (k', y) :: m' => match CZ_compare k k' with Lt => m | Eq => m' | Gt => (k', y) :: map_erase k m' end
  end.

(** Keys strictly increasing. *)
Fixpoint keys_ok (m : list (CZString * V)) : Prop :=
  match m with
  | [] => True
  | (k, _) :: m => Forall (fun p => CZ_compare k p.1 = Lt) m /\ keys_ok m
  end.
End Map.

(** ** [Json::Value] *)
Inductive ValueType : Set :=
  TnullValue | TintValue | TuintValue | TrealValue | TstringValue | TbooleanValue | TarrayValue | TobjectValue.
#[global] Instance ValueType_eq_dec : EqDecision ValueType.
Proof. solve_decision. Defined.

Inductive Value (D : Type) : Type :=
| nullValue
| intValue (int_ : Z)
| uintValue (uint_ : Z)
| realValue (real_ : D)
| stringValue (string_ : option (list Z))
| booleanValue (bool_ : bool)
| arrayValue (map_ : list (CZString * Value D))
| objectValue (map_ : list (CZString * Value D)).
Arguments nullValue {_}. Arguments intValue {_} _. Arguments uintValue {_} _. Arguments realValue {_} _.
Arguments stringValue {_} _. Arguments booleanValue {_} _. Arguments arrayValue {_} _. Arguments objectValue {_} _.

Definition minInt : Z := - 2 ^ 31.
Definition maxInt : Z := 2 ^ 31 - 1.
Definition maxUInt : Z := 2 ^ 32 - 1.

(** The enumerators of [ValueType]. *)
Definition type_number (t : ValueType) : Z :=
  match t with
  | TnullValue => 0 | TintValue => 1 | TuintValue => 2 | TrealValue => 3
  | TstringValue => 4 | TbooleanValue => 5 | TarrayValue => 6 | TobjectValue => 7
  end.

Section Value.
Context {D : Type} `{Double D}.
Local Abbreviation Value := (Value D) (only parsing).

Definition type (v : Value) : ValueType :=
  match v with
  | nullValue => TnullValue
  | intValue _ => TintValue
  | uintValue _ => TuintValue
  | realValue _ => TrealValue
  | stringValue _ => TstringValue
  | booleanValue _ => TbooleanValue
  | arrayValue _ => TarrayValue
  | objectValue _ => TobjectValue
  end.

(** [Value::Value(ValueType)]. *)
Definition Value_new (t : ValueType) : Value :=
  match t with
  | TnullValue => nullValue
  | TintValue => intValue 0
  | TuintValue => uintValue 0
  | TrealValue => realValue (d_of_Z 0)
  | TstringValue => stringValue None
  | TbooleanValue => booleanValue false
  | TarrayValue => arrayValue []
  | TobjectValue => objectValue []
  end.

(** [Value::Value(const std::string&)] followed by the copy of [operator=], which
    duplicates up to the first zero byte. *)
Definition Value_string (s : bytes) : Value := stringValue (Some (cstr s)).

Definition isNull (v : Value) : bool := bool_decide (type v = TnullValue).
Definition isBool (v : Value) : bool := bool_decide (type v = TbooleanValue).
Definition isInt (v : Value) : bool := bool_decide (type v = TintValue).
Definition isUInt (v : Value) : bool := bool_decide (type v = TuintValue).
Definition isIntegral (v : Value) : bool :=
  bool_decide (type v = TintValue) || bool_decide (type v = TuintValue) || bool_decide (type v = TbooleanValue).
Definition isDouble (v : Value) : bool := bool_decide (type v = TrealValue).
Definition isNumeric (v : Value) : bool := isIntegral v || isDouble v.
Definition isString (v : Value) : bool := bool_decide (type v = TstringValue).
Definition isArray (v : Value) : bool := bool_decide (type v = TnullValue) || bool_decide (type v = TarrayValue).
Definition isObject (v : Value) : bool := bool_decide (type v = TnullValue) || bool_decide (type v = TobjectValue).

(** *** Conversions *)
Definition asCString (v : Value) : res (option (list Z)) :=
  match v with stringValue s => Ok s | _ => AssertFail end.

Definition true_str : list Z := [116; 114; 117; 101].
Definition false_str : list Z := [102; 97; 108; 115; 101].

Definition asString (v : Value) : res (list Z) :=
  match v with
  | nullValue => Ok []
  | stringValue s => Ok (default [] s)
  | booleanValue b => Ok (if b then true_str else false_str)
  | _ => Throw "Type is not convertible to string"
  end.

Definition asInt (v : Value) : res Z :=
  match v with
  | nullValue => Ok 0
  | intValue z => Ok z
  | uintValue z => if z <? maxInt then Ok (i32 z) else Throw "integer out of signed integer range"
  | realValue d =>
      if d_le (d_of_Z minInt) d && d_le d (d_of_Z maxInt) then Ok (d_trunc d)
      else Throw "Real out of signed integer range"
  | booleanValue b => Ok (if b then 1 else 0)
  | _ => Throw "Type is not convertible to int"
  end.

Definition asUInt (v : Value) : res Z :=
  match v with
  | nullValue => Ok 0
  | intValue z => if 0 <=? z then Ok z else Throw "Negative integer can not be converted to unsigned integer"
  | uintValue z => Ok z
  | realValue d =>
      if d_le (d_of_Z 0) d && d_le d (d_of_Z maxUInt) then Ok (d_trunc d)
      else Throw "Real out of unsigned integer range"
  | booleanValue b => Ok (if b then 1 else 0)
  | _ => Throw "Type is not convertible to uint"
  end.

Definition asDouble (v : Value) : res D :=
  match v with
  | nullValue => Ok (d_of_Z 0)
  | intValue z | uintValue z => Ok (d_of_Z z)
  | realValue d => Ok d
  | booleanValue b => Ok (d_of_Z (if b then 1 else 0))
  | _ => Throw "Type is not convertible to double"
  end.

Definition asBool (v : Value) : bool :=
  match v with
  | nullValue => false
  | intValue z | uintValue z => negb (z =? 0)
  | realValue d => negb (d_eq d (d_of_Z 0))
  | booleanValue b => b
  | stringValue s => match s with Some (_ :: _) => true | _ => false end
  | arrayValue m | objectValue m => negb (length m =? 0)%nat
  end.

Definition isConvertibleTo (v : Value) (other : ValueType) : bool :=
  let to t := bool_decide (other = t) in
  match v with
  | nullValue => true
  | intValue z =>
      (to TnullValue && (z =? 0)) || to TintValue || (to TuintValue && (0 <=? z)) ||
      to TrealValue || to TstringValue || to TbooleanValue
  | uintValue z =>
      (to TnullValue && (z =? 0)) || (to TintValue && (z <=? maxInt)) || to TuintValue ||
      to TrealValue || to TstringValue || to TbooleanValue
  | realValue d =>
      (to TnullValue && d_eq d (d_of_Z 0)) ||
      (to TintValue && d_le (d_of_Z minInt) d && d_le d (d_of_Z maxInt)) ||
      (to TuintValue && d_le (d_of_Z 0) d && d_le d (d_of_Z maxUInt)) ||
      to TrealValue || to TstringValue || to TbooleanValue
  | booleanValue b =>
      (to TnullValue && negb b) || to TintValue || to TuintValue || to TrealValue || to TstringValue || to TbooleanValue
  | stringValue s =>
      to TstringValue || (to TnullValue && match s with Some (_ :: _) => false | _ => true end)
  | arrayValue m => to TarrayValue || (to TnullValue && (length m =? 0)%nat)
  | objectValue m => to TobjectValue || (to TnullValue && (length m =? 0)%nat)
  end.

(** *** Containers *)

(** [size]: of an array, the highest index plus one. *)
Definition size (v : Value) : Z :=
  match v with
  | arrayValue m => match last m with Some (CZIndex i, _) => u32 (i + 1) | _ => 0 end
  | objectValue m => u32 (zlen m)
  | _ => 0
  end.

Definition empty (v : Value) : bool :=
  if isNull v || isArray v || isObject v then size v =? 0 else false.

Definition clear (v : Value) : res Value :=
  match v with
  | nullValue => Ok nullValue
  | arrayValue _ => Ok (arrayValue [])
  | objectValue _ => Ok (objectValue [])
  | _ => AssertFail
  end.

(** [operator[](UInt)]: the value with the element in place, and the element the
    reference denotes. *)
Definition index_ref (index : Z) (v : Value) : res (Value * Value) :=
  match v with
  | nullValue => Ok (arrayValue [(CZIndex (i32 index), nullValue)], nullValue)
  | arrayValue m =>
      match map_find (CZIndex (i32 index)) m with
      | Some x => Ok (v, x)
      | None => Ok (arrayValue (map_set (CZIndex (i32 index)) nullValue m), nullValue)
      end
  | _ => AssertFail
  end.
(** [v[index] = x]. *)
Definition index_set (index : Z) (x : Value) (v : Value) : res Value :=
  match v with
  | nullValue => Ok (arrayValue [(CZIndex (i32 index), x)])
  | arrayValue m => Ok (arrayValue (map_set (CZIndex (i32 index)) x m))
  | _ => AssertFail
  end.

(** [operator[](UInt) const]; [None] is the address of the static [null]. *)
Definition index_find (index : Z) (v : Value) : res (option Value) :=
  match v with
  | nullValue => Ok None
  | arrayValue m => Ok (map_find (CZIndex (i32 index)) m)
  | _ => AssertFail
  end.
Definition index_get (index : Z) (v : Value) : res Value := r ← index_find index v; Ok (default nullValue r).
(** [get(UInt, defaultValue)]. *)
Definition get_index (index : Z) (defaultValue v : Value) : res Value :=
  r ← index_find index v; Ok (default defaultValue r).

Definition isValidIndex (index : Z) (v : Value) : bool := index <? size v.

(** [append]. *)
Definition append (x v : Value) : res Value := index_set (size v) x v.

(** The loop of [resize]. *)
Fixpoint erase_range (n : nat) (index : Z) (m : list (CZString * Value)) : list (CZString * Value) :=
  match n with
  | O => m
  | S n => erase_range n (index + 1) (map_erase (CZIndex (i32 index)) m)
  end.

Definition resize (newSize : Z) (v : Value) : res Value :=
  match v with
  | nullValue | arrayValue _ =>
      let v := match v with nullValue => arrayValue [] | _ => v end in
      let oldSize := size v in
      if newSize =? 0 then clear v
      else if oldSize <? newSize then '(v, _) ← index_ref (newSize - 1) v; Ok v
      else
        match v with
        | arrayValue m =>
            let v := arrayValue (erase_range (Z.to_nat (oldSize - newSize)) newSize m) in
            json_assert (size v =? newSize) (Ok v)
        | _ => AssertFail
        end
  | _ => AssertFail
  end.

(** [resolveReference], the body of the mutable [operator[](key)]. *)
Definition resolveReference (key : bytes) (v : Value) : res (Value * Value) :=
  match v with
  | nullValue => Ok (objectValue [(CZName (cstr key), nullValue)], nullValue)
  | objectValue m =>
      match map_find (CZName (cstr key)) m with
      | Some x => Ok (v, x)
      | None => Ok (objectValue (map_set (CZName (cstr key)) nullValue m), nullValue)
      end
  | _ => AssertFail
  end.
(** [v[key] = x]. *)
Definition member_set (key : bytes) (x : Value) (v : Value) : res Value :=
  match v with
  | nullValue => Ok (objectValue [(CZName (cstr key), x)])
  | objectValue m => Ok (objectValue (map_set (CZName (cstr key)) x m))
  | _ => AssertFail
  end.

(** [operator[](key) const]. *)
Definition member_find (key : bytes) (v : Value) : res (option Value) :=
  match v with
  | nullValue => Ok None
  | objectValue m => Ok (map_find (CZName (cstr key)) m)
  | _ => AssertFail
  end.
Definition member_get (key : bytes) (v : Value) : res Value := r ← member_find key v; Ok (default nullValue r).
(** [get(key, defaultValue)]. *)
Definition get_member (key : bytes) (defaultValue v : Value) : res Value :=
  r ← member_find key v; Ok (default defaultValue r).
Definition isMember (key : bytes) (v : Value) : res bool :=
  r ← member_find key v; Ok (bool_decide (is_Some r)).

(** [removeMember]: the value that is left and the one removed. *)
Definition removeMember (key : bytes) (v : Value) : res (Value * Value) :=
  match v with
  | nullValue => Ok (v, nullValue)
  | objectValue m =>
      match map_find (CZName (cstr key)) m with
      | None => Ok (v, nullValue)
      | Some old => Ok (objectValue (map_erase (CZName (cstr key)) m), old)
      end
  | _ => AssertFail
  end.

Definition getMemberNames (v : Value) : res (list (list Z)) :=
  match v with
  | nullValue => Ok []
  | objectValue m => Ok ((fun p => match p.1 with CZName n => n | CZIndex _ => [] end) <$> m)
  | _ => AssertFail
  end.

(** *** Comparison *)

(** [operator==] of maps, element by element, and of values. *)
Fixpoint Value_eq (a b : Value) : bool :=
  let fix map_eq (m1 m2 : list (CZString * JsonValue.Value D)) : bool :=
    match m1, m2 with
    | [], [] => true
    | (k1, x1) :: m1, (k2, x2) :: m2 => CZ_eq k1 k2 && Value_eq x1 x2 && map_eq m1 m2
    | _, _ => false
    end in
  match a, b with
  | nullValue, nullValue => true
  | intValue x, intValue y => x =? y
  | uintValue x, uintValue y => x =? y
  | realValue x, realValue y => d_eq x y
  | booleanValue x, booleanValue y => Bool.eqb x y
  | stringValue None, stringValue None => true
  | stringValue (Some x), stringValue (Some y) => match strcmp x y with Eq => true | _ => false end
  | arrayValue m1, arrayValue m2 | objectValue m1, objectValue m2 =>
      (length m1 =? length m2)%nat && map_eq m1 m2
  | _, _ => false
  end.
Definition Value_ne (a b : Value) : bool := negb (Value_eq a b).

(** [operator<], in both directions at once, because the lexicographic comparison
    of maps of equal size asks for both: [(a < b, b < a)]. *)
Fixpoint Value_lts (a b : Value) : bool * bool :=
  let fix map_lts (m1 m2 : list (CZString * JsonValue.Value D)) : bool * bool :=
    match m1, m2 with
    | [], [] => (false, false)
    | [], _ :: _ => (true, false)
    | _ :: _, [] => (false, true)
    | (k1, x1) :: m1, (k2, x2) :: m2 =>
        let '(x_lt, x_gt) := Value_lts x1 x2 in
        let pair_lt := CZ_lt k1 k2 || (negb (CZ_lt k2 k1) && x_lt) in
        let pair_gt := CZ_lt k2 k1 || (negb (CZ_lt k1 k2) && x_gt) in
        let '(m_lt, m_gt) := map_lts m1 m2 in
        (pair_lt || (negb pair_gt && m_lt), pair_gt || (negb pair_lt && m_gt))
    end in
  let typeDelta := type_number (type a) - type_number (type b) in
  if negb (typeDelta =? 0) then (typeDelta <? 0, 0 <? typeDelta)
  else
    match a, b with
    | intValue x, intValue y => (x <? y, y <? x)
    | uintValue x, uintValue y => (x <? y, y <? x)
    | realValue x, realValue y => (d_lt x y, d_lt y x)
    | booleanValue x, booleanValue y => (negb x && y, negb y && x)
    | stringValue x, stringValue y =>
        match x, y with
        | None, None => (false, false)
        | None, Some _ => (true, false)
        | Some _, None => (false, true)
        | Some x, Some y => match strcmp x y with Lt => (true, false) | Eq => (false, false) | Gt => (false, true) end
        end
    | arrayValue m1, arrayValue m2 | objectValue m1, objectValue m2 =>
        let delta := zlen m1 - zlen m2 in
        if negb (delta =? 0) then (delta <? 0, 0 <? delta) else map_lts m1 m2
    | _, _ => (false, false)
    end.
Definition Value_lt (a b : Value) : bool := (Value_lts a b).1.
Definition Value_gt (a b : Value) : bool := Value_lt b a.
Definition Value_le (a b : Value) : bool := negb (Value_gt b a).
Definition Value_ge (a b : Value) : bool := negb (Value_lt a b).

(** *** Paths *)
Inductive PathArgument : Set := kindNone | kindIndex (index_ : Z) | kindKey (key_ : list Z).

(** [addPathInArg]: the iterator [itInArg] is not advanced. *)
Definition addPathInArg (itInArg : list PathArgument) (index : bool) (args_ : list PathArgument) : list PathArgument :=
  match itInArg with
  | [] => args_
  | a :: _ =>
      match a, index with
      | kindIndex _, true | kindKey _, false => args_ ++ [a]
      | _, _ => args_
      end
  end.

(** The digits of an index. *)
Fixpoint path_index (current : bytes) (index : Z) : Z * list Z :=
  match current with
  | c :: rest => if (48 <=? c) && (c <=? 57) then path_index rest (u32 (index * 10 + (c - 48))) else (index, current)
  | [] => (index, current)
  end.
(** The characters of a name: up to an opening bracket, a dot or a zero byte. *)
Fixpoint path_name (current : bytes) : list Z * list Z :=
  match current with
  | c :: rest =>
      if (c =? 91) || (c =? 46) || (c =? 0) then ([], current)
      else let '(name, rest) := path_name rest in (c :: name, rest)
  | [] => ([], [])
  end.

(** [makePath]; [None] when the fuel runs out. *)
Fixpoint makePath (fuel : nat) (current : bytes) (itInArg args_ : list PathArgument) : option (list PathArgument) :=
  match fuel with
  | O => None
  | S fuel =>
      match current with
      | [] => Some args_
      | c :: rest =>
          if c =? 91 then
            let '(args_, current) :=
              match rest with
              | 37 :: _ => (addPathInArg itInArg true args_, rest)
              | _ => let '(index, rest) := path_index rest 0 in (args_ ++ [kindIndex index], rest)
              end in
            makePath fuel (tail current) itInArg args_
          else if c =? 37 then makePath fuel rest itInArg (addPathInArg itInArg false args_)
          else if c =? 46 then makePath fuel rest itInArg args_
          else
            let '(name, current) := path_name current in
            makePath fuel current itInArg (args_ ++ [kindKey (cstr name)])
      end
  end.

(** [resolve(root)]. *)
Fixpoint resolve (args_ : list PathArgument) (node : Value) : res Value :=
  match args_ with
  | [] => Ok node
  | kindNone :: args_ => resolve args_ node
  | kindIndex i :: args_ => node ← index_get i node; resolve args_ node
  | kindKey k :: args_ => node ← member_get k node; resolve args_ node
  end.

(** [resolve(root, defaultValue)]. *)
Fixpoint resolve_default (args_ : list PathArgument) (node defaultValue : Value) : res Value :=
  match args_ with
  | [] => Ok node
  | kindNone :: args_ => resolve_default args_ node defaultValue
  | kindIndex i :: args_ =>
      if negb (isArray node) || isValidIndex i node then Ok defaultValue
      else node ← index_get i node; resolve_default args_ node defaultValue
  | kindKey k :: args_ =>
      if negb (isObject node) then Ok defaultValue
      else
        r ← member_find k node;
        match r with
        | None => Ok defaultValue
        | Some node => resolve_default args_ node defaultValue
        end
  end.

(** [make]: the root with the path created, and the node. *)
Fixpoint make (args_ : list PathArgument) (node : Value) : res (Value * Value) :=
  match args_ with
  | [] => Ok (node, node)
  | kindNone :: args_ => make args_ node
  | kindIndex i :: args_ =>
      '(node, x) ← index_ref i node; '(x, r) ← make args_ x; node ← index_set i x node; Ok (node, r)
  | kindKey k :: args_ =>
      '(node, x) ← resolveReference k node; '(x, r) ← make args_ x; node ← member_set k x node; Ok (node, r)
  end.

End Value.
Arguments JsonValue.Value D : clear implicits.

(** * Lemmas *)

(** ** Keys are totally ordered *)
Lemma strcmp_eq a b : strcmp a b = Eq <-> a = b.
Proof.
  revert b. induction a as [|x a IH]; intros [|y b]; cbn; try done.
  destruct (Z.compare_spec x y) as [->|Hlt|Hgt].
  - rewrite IH. split; [by intros ->|by intros [= ->]].
  - split; [done|]. intros [= -> _]. lia.
  - split; [done|]. intros [= -> _]. lia.
Qed.

Lemma strcmp_antisym a b : strcmp b a = CompOpp (strcmp a b).
Proof.
  revert b. induction a as [|x a IH]; intros [|y b]; cbn; try done.
  rewrite (Z.compare_antisym x y). destruct (x ?= y); cbn; [apply IH|done|done].
Qed.

Lemma strcmp_trans a b c : strcmp a b = Lt -> strcmp b c = Lt -> strcmp a c = Lt.
Proof.
  revert b c. induction a as [|x a IH]; intros [|y b] [|z c]; cbn; try done.
  destruct (Z.compare_spec x y), (Z.compare_spec y z), (Z.compare_spec x z); try done; subst; try lia. eauto.
Qed.

Lemma CZ_compare_eq a b : CZ_compare a b = Eq <-> a = b.
Proof.
  destruct a as [i|x], b as [j|y]; cbn; try done.
  - rewrite Z.compare_eq_iff. split; [by intros ->|by intros [= ->]].
  - rewrite strcmp_eq. split; [by intros ->|by intros [= ->]].
Qed.
Lemma CZ_compare_refl a : CZ_compare a a = Eq.
Proof. by apply CZ_compare_eq. Qed.
Lemma CZ_compare_antisym a b : CZ_compare b a = CompOpp (CZ_compare a b).
Proof. destruct a as [i|x], b as [j|y]; cbn; [apply Z.compare_antisym|done|done|apply strcmp_antisym]. Qed.
Lemma CZ_compare_trans a b c : CZ_compare a b = Lt -> CZ_compare b c = Lt -> CZ_compare a c = Lt.
Proof.
  destruct a as [i|x], b as [j|y], c as [k|z]; cbn; try done; [|apply strcmp_trans].
  rewrite !Z.compare_lt_iff. lia.
Qed.
Lemma CZ_compare_gt a b : CZ_compare a b = Gt <-> CZ_compare b a = Lt.
Proof. rewrite (CZ_compare_antisym a b). by destruct (CZ_compare a b). Qed.

#[global] Instance CZString_eq_dec : EqDecision CZString.
Proof. solve_decision. Defined.

(** ** Maps *)
Section MapLemmas.
Context {V : Type}.
Implicit Types (m : list (CZString * V)).

Lemma map_find_below k m :
  Forall (fun p => CZ_compare k p.1 = Lt) m -> map_find k m = None.
Proof. destruct m as [|[k' y] m]; [done|]. intros [Hk _]%Forall_cons. cbn in *. by rewrite Hk. Qed.

Lemma map_find_set_same k x m : map_find k (map_set k x m) = Some x.
Proof.
  induction m as [|[k' y] m IH]; cbn; [by rewrite CZ_compare_refl|].
  destruct (CZ_compare k k') eqn:E; cbn; rewrite ?CZ_compare_refl, ?E; done.
Qed.

Lemma map_find_set_other k k' x m : k <> k' -> keys_ok m -> map_find k (map_set k' x m) = map_find k m.
Proof.
  intros Hne. induction m as [|[k1 y] m IH]; cbn.
  - intros _. destruct (CZ_compare k k') eqn:E; [by apply CZ_compare_eq in E|done..].
  - intros [Hb Hm]. specialize (IH Hm). destruct (CZ_compare k' k1) eqn:E1; cbn.
    + apply CZ_compare_eq in E1 as ->. destruct (CZ_compare k k1) eqn:E; [by apply CZ_compare_eq in E|done..].
    + destruct (CZ_compare k k') eqn:E; [by apply CZ_compare_eq in E| |done].
      by rewrite (CZ_compare_trans k k' k1).
    + by rewrite IH.
Qed.

Lemma map_set_Forall (P : CZString * V -> Prop) k x m :
  (forall k', CZ_compare k k' = Eq -> P (k', x)) -> Forall P m -> Forall P (map_set k x m).
Proof.
  intros Hk. induction 1 as [|[k' y] m Hp Hm IH]; cbn; [constructor; [apply Hk, CZ_compare_refl|done]|].
  destruct (CZ_compare k k') eqn:E; repeat constructor; auto using CZ_compare_refl.
Qed.

Lemma map_set_ok k x m : keys_ok m -> keys_ok (map_set k x m).
Proof.
  induction m as [|[k' y] m IH]; cbn; [done|]. intros [Hb Hm].
  destruct (CZ_compare k k') eqn:E; cbn; [done| |].
  - split; [|done]. constructor; [done|]. eapply Forall_impl; [exact Hb|]. cbn. eauto using CZ_compare_trans.
  - split; [|auto]. apply map_set_Forall; [|done]. intros k2 Hk%CZ_compare_eq. subst. by apply CZ_compare_gt.
Qed.

Lemma map_erase_Forall (P : CZString * V -> Prop) k m : Forall P m -> Forall P (map_erase k m).
Proof.
  induction 1 as [|[k' y] m Hp Hm IH]; cbn; [constructor|].
  destruct (CZ_compare k k'); [done|by constructor|by constructor].
Qed.

Lemma map_erase_ok k m : keys_ok m -> keys_ok (map_erase k m).
Proof.
  induction m as [|[k' y] m IH]; cbn; [done|]. intros [Hb Hm].
  destruct (CZ_compare k k') eqn:E; cbn; [done|done|]. split; [by apply map_erase_Forall|auto].
Qed.

Lemma map_find_erase k k' m :
  keys_ok m -> map_find k (map_erase k' m) = if decide (k = k') then None else map_find k m.
Proof.
  induction m as [|[k1 y] m IH]; cbn; [by destruct (decide _)|]. intros [Hb Hm]. specialize (IH Hm).
  destruct (CZ_compare k' k1) eqn:E1; cbn.
  - apply CZ_compare_eq in E1 as ->. destruct (decide (k = k1)) as [->|Hne]; [by apply map_find_below|].
    destruct (CZ_compare k k1) eqn:E; [by apply CZ_compare_eq in E| |done].
    apply map_find_below. eapply Forall_impl; [exact Hb|]. cbn. eauto using CZ_compare_trans.
  - destruct (decide (k = k')) as [->|Hne]; [by rewrite E1|done].
  - rewrite IH. destruct (decide (k = k')) as [->|Hne]; [by rewrite E1|done].
Qed.

Lemma map_find_elem k x m : keys_ok m -> (k, x) ∈ m -> map_find k m = Some x.
Proof.
  induction m as [|[k' y] m IH]; cbn; [by intros _ ?%elem_of_nil|]. intros [Hb Hm] [[= -> ->]|Hin]%elem_of_cons.
  - by rewrite CZ_compare_refl.
  - rewrite Forall_forall in Hb. specialize (Hb _ Hin). cbn in Hb.
    rewrite (CZ_compare_antisym k' k), Hb. cbn. auto.
Qed.
End MapLemmas.

(** ** Dense arrays *)
Fixpoint dense {V} (i : Z) (l : list V) : list (CZString * V) :=
  match l with [] => [] | x :: l => (CZIndex i, x) :: dense (i + 1) l end.

Section Dense.
Context {V : Type}.
Implicit Types (l : list V).

Lemma dense_app i l l' : dense i (l ++ l') = dense i l ++ dense (i + zlen l) l'.
Proof.
  revert i. induction l as [|x l IH]; intros i; cbn [app dense].
  - change (zlen (@nil V)) with 0. by rewrite Z.add_0_r.
  - rewrite IH, zlen_cons. do 3 f_equal. lia.
Qed.

Lemma dense_above i l : Forall (fun p => exists j, p.1 = CZIndex j /\ i <= j < i + zlen l) (dense i l).
Proof.
  revert i. induction l as [|x l IH]; intros i; cbn [dense]; [constructor|]. rewrite zlen_cons.
  pose proof (zlen_nonneg l). constructor; [exists i; split; [done|lia]|].
  eapply Forall_impl; [apply IH|]. cbn. intros p (j & E & Hj). exists j. split; [done|lia].
Qed.

Lemma dense_keys_ok i l : keys_ok (dense i l).
Proof.
  revert i. induction l as [|x l IH]; intros i; cbn; [done|]. split; [|apply IH].
  eapply Forall_impl; [apply dense_above|]. cbn. intros [k y] (j & -> & Hj). cbn. by apply Z.compare_lt_iff; lia.
Qed.

Lemma dense_set_end i l x : map_set (CZIndex (i + zlen l)) x (dense i l) = dense i (l ++ [x]).
Proof.
  revert i. induction l as [|y l IH]; intros i; cbn [dense map_set app].
  - change (zlen (@nil V)) with 0. by rewrite Z.add_0_r.
  - rewrite zlen_cons. pose proof (zlen_nonneg l). cbn [CZ_compare].
    replace (i + (1 + zlen l) ?= i) with Gt by (symmetry; apply Z.compare_gt_iff; lia).
    rewrite Z.add_assoc, IH. done.
Qed.

Lemma dense_find i l j : i <= j -> map_find (CZIndex j) (dense i l) = l !! Z.to_nat (j - i).
Proof.
  revert i. induction l as [|y l IH]; intros i Hij; cbn [dense map_find]; [done|]. cbn [CZ_compare].
  destruct (Z.compare_spec j i) as [->|Hlt|Hgt]; [by rewrite Z.sub_diag|lia|].
  rewrite IH by lia. replace (Z.to_nat (j - i)) with (S (Z.to_nat (j - (i + 1)))) by lia. done.
Qed.

Lemma dense_last i l x : last (dense i (l ++ [x])) = Some (CZIndex (i + zlen l), x).
Proof. rewrite dense_app. cbn [dense]. by rewrite last_snoc. Qed.

(** A map with consecutive indices from zero is a dense array. *)
Lemma dense_values i l : (dense i l).*2 = l.
Proof. revert i. induction l as [|x l IH]; intros i; cbn; [done|]. f_equal. apply IH. Qed.
End Dense.

(** ** Well-formed values *)
Section WellFormed.
Context {D : Type} `{Double D}.
Local Abbreviation Value := (JsonValue.Value D) (only parsing).

(** Induction over the elements of arrays and objects. *)
Lemma Value_nested_ind (P : Value -> Prop) :
  P nullValue -> (forall z, P (intValue z)) -> (forall z, P (uintValue z)) -> (forall d, P (realValue d)) ->
  (forall s, P (stringValue s)) -> (forall b, P (booleanValue b)) ->
  (forall m, Forall P m.*2 -> P (arrayValue m)) -> (forall m, Forall P m.*2 -> P (objectValue m)) ->
  forall v, P v.
Proof.
  intros Hn Hi Hu Hr Hs Hb Ha Ho. fix IH 1. intros [|z|z|d|s|b|m|m];
    [exact Hn|exact (Hi z)|exact (Hu z)|exact (Hr d)|exact (Hs s)|exact (Hb b)| |].
  - apply Ha. induction m as [|[k x] m IHm]; cbn; constructor; [apply IH|exact IHm].
  - apply Ho. induction m as [|[k x] m IHm]; cbn; constructor; [apply IH|exact IHm].
Qed.

(** The bytes of a C string. *)
Definition text_ok (s : bytes) : Prop := Forall (fun b => 0 < b < 256) s.
#[global] Instance text_ok_dec s : Decision (text_ok s).
Proof. unfold text_ok. apply _. Defined.

Definition index_key (k : CZString) : Prop := match k with CZIndex i => 0 <= i < 2 ^ 31 | CZName _ => False end.
Definition name_key (k : CZString) : Prop := match k with CZName n => text_ok n | CZIndex _ => False end.

Fixpoint value_wf (v : Value) : Prop :=
  let fix all (m : list (CZString * JsonValue.Value D)) : Prop :=
    match m with [] => True | (_, x) :: m => value_wf x /\ all m end in
  match v with
  | nullValue | booleanValue _ | realValue _ => True
  | intValue z => in_s 32 z
  | uintValue z => in_u 32 z
  | stringValue s => match s with Some s => text_ok s | None => True end
  | arrayValue m => keys_ok m /\ Forall index_key m.*1 /\ all m
  | objectValue m => keys_ok m /\ Forall name_key m.*1 /\ all m
  end.

Lemma all_Forall (m : list (CZString * Value)) :
  (fix all (m : list (CZString * JsonValue.Value D)) : Prop :=
     match m with [] => True | (_, x) :: m => value_wf x /\ all m end) m <-> Forall value_wf m.*2.
Proof.
  induction m as [|[k x] m IH]; cbn; [split; [constructor|done]|]. rewrite IH. by rewrite Forall_cons.
Qed.

Lemma value_wf_object m :
  value_wf (objectValue m) <-> keys_ok m /\ Forall name_key m.*1 /\ Forall value_wf m.*2.
Proof. cbn. by rewrite all_Forall. Qed.
Lemma value_wf_array m :
  value_wf (arrayValue m) <-> keys_ok m /\ Forall index_key m.*1 /\ Forall value_wf m.*2.
Proof. cbn. by rewrite all_Forall. Qed.

Lemma map_set_wf (Pk : CZString -> Prop) k x m :
  Pk k -> value_wf x -> keys_ok m -> Forall Pk m.*1 -> Forall value_wf m.*2 ->
  keys_ok (map_set k x m) /\ Forall Pk (map_set k x m).*1 /\ Forall value_wf (map_set k x m).*2.
Proof.
  intros Hk Hx Hm H1 H2. split; [by apply map_set_ok|]. rewrite Forall_fmap in H1. rewrite Forall_fmap in H2.
  split; apply Forall_fmap, map_set_Forall;
    [by intros k2 E%CZ_compare_eq; subst k2|exact H1|by intros k2 _|exact H2].
Qed.

Lemma text_ok_cstr s : text_ok s -> cstr s = s.
Proof.
  induction 1 as [|b s Hb Hs IH]; [done|]. cbn. destruct (Z.eqb_spec b 0); [lia|]. by rewrite IH.
Qed.

Lemma cstr_text s : bytes_ok s -> text_ok (cstr s).
Proof.
  induction 1 as [|b s Hb Hs IH]; [constructor|]. cbn. destruct (Z.eqb_spec b 0); [constructor|].
  constructor; [|done]. unfold byte_ok, in_u in Hb. lia.
Qed.
End WellFormed.

(** * Properties *)
Section Properties.
Context {D : Type} `{Double D}.
Local Abbreviation Value := (JsonValue.Value D) (only parsing).

(** Members of objects: assigning to a member of a well-formed object (or of
    null, which becomes an object) keeps it well-formed with its names in
    strictly increasing order, the member then reads back as the value assigned,
    every other member reads as before, and removing the member gives the value
    back and leaves no member of that name. *)
Theorem json_member_laws (key : bytes) (x v : Value) :
  bytes_ok key -> value_wf x -> value_wf v -> isObject v = true ->
  exists v', member_set key x v = Ok v' /\ value_wf v' /\ type v' = TobjectValue /\
    member_get key v' = Ok x /\
    (forall key', cstr key' <> cstr key -> member_find key' v' = member_find key' v) /\
    exists v'', removeMember key v' = Ok (v'', x) /\ isMember key v'' = Ok false.
Proof.
  intros Hkey Hx Hv Ho. pose proof (cstr_text key Hkey) as Ht.
  set (m := match v with objectValue m => m | _ => [] end).
  assert (Hm : keys_ok m /\ Forall name_key m.*1 /\ Forall value_wf m.*2)
    by (destruct v; try done; by apply value_wf_object).
  assert (Hset : member_set key x v = Ok (objectValue (map_set (CZName (cstr key)) x m))) by (by destruct v).
  assert (Hfind : forall k, member_find k v = Ok (map_find (CZName (cstr k)) m)) by (by destruct v).
  destruct Hm as (Hm1 & Hm2 & Hm3).
  exists (objectValue (map_set (CZName (cstr key)) x m)). split_and!; [done| |done| | |].
  - apply value_wf_object. by apply map_set_wf.
  - unfold member_get. cbn. by rewrite map_find_set_same.
  - intros key' Hne. rewrite Hfind. cbn. rewrite map_find_set_other; [done| |done]. by intros [= ?].
  - eexists. cbn. rewrite map_find_set_same. split; [done|]. unfold isMember. cbn.
    rewrite map_find_erase by (by apply map_set_ok). by rewrite decide_True.
Qed.

(** Comparison: [operator<=] answers what [operator>=] answers, on all
    values; so [intValue 1 <= intValue 2] is false. *)
Theorem json_le_is_ge (a b : Value) :
  Value_le a b = Value_ge a b /\ Value_le (intValue 1) (intValue 2) = false.
Proof. done. Qed.

(** [Path::resolve] with a default: every index that exists gives the default. *)
Theorem json_path_default (l : list Value) (i : Z) (args : list PathArgument) (d : Value) :
  0 <= i < zlen l -> zlen l < 2 ^ 31 -> resolve_default (kindIndex i :: args) (arrayValue (dense 0 l)) d = Ok d.
Proof.
  intros Hi Hl. cbn. unfold isValidIndex. destruct l as [|x l _] using rev_ind; [zlen_lia|].
  cbn [size]. rewrite dense_last. rewrite zlen_app in *. change (zlen [x]) with 1 in *.
  rewrite uwrap_id by (unfold in_u; pose proof (zlen_nonneg l); lia).
  replace (i <? 0 + zlen l + 1) with true by lia. done.
Qed.
End Properties.

(** An instance of [json_member_laws]: a second member. *)
Lemma json_member_laws_witness :
  exists v', @member_set unit [98] (intValue 2) (objectValue [(CZName [97], intValue 1)]) = Ok v' /\
    member_get [98] v' = Ok (intValue 2).
Proof.
  destruct (@json_member_laws unit [98] (intValue 2) (objectValue [(CZName [97], intValue 1)]))
    as (v' & H1 & _ & _ & H2 & _).
  - decide_closed.
  - cbn. decide_closed.
  - apply value_wf_object. cbn. repeat (split || constructor); lia.
  - reflexivity.
  - exists v'. by split.
Defined.
