(* ===== verification/JsonOrder.v ===== *)
(** The order of JSON values: [Value::operator<] and [operator==] of
    source/json/src/json_value.cpp against a reference comparison, and the iterators
    of source/json/src/json_valueiterator.inl.

    The laws of an order hold for doubles that are not NaN; the class [DoubleOrder]
    states what the processor's comparisons promise for them. *)
From S2P Require Import Prelude JsonValue.
Local Open Scope Z_scope.

(** ** Comparisons *)

(** The first comparison that is not [Eq] decides. *)
Definition lex (c1 c2 : comparison) : comparison := match c1 with Eq => c2 | _ => c1 end.

(** What transitivity asks of the comparisons of [a] with [b], [b] with [c], and
    [a] with [c]. *)
Definition ctrans (ab bc ac : comparison) : Prop :=
  match ab, bc with
  | Eq, _ => ac = bc
  | _, Eq => ac = ab
  | Lt, Lt => ac = Lt
  | Gt, Gt => ac = Gt
  | _, _ => True
  end.

Lemma lex_ctrans a1 a2 a3 b1 b2 b3 :
  ctrans a1 a2 a3 -> ctrans b1 b2 b3 -> ctrans (lex a1 b1) (lex a2 b2) (lex a3 b3).
Proof. destruct a1, a2, a3, b1, b2, b3; cbn; intros; done || congruence. Qed.

Lemma ctrans_fixed d c : d <> Eq -> ctrans d c d /\ ctrans c d d.
Proof. by destruct d, c. Qed.

Lemma lex_opp c1 c2 : lex (CompOpp c1) (CompOpp c2) = CompOpp (lex c1 c2).
Proof. by destruct c1. Qed.

(** A comparison as the two answers of [operator<]. *)
Definition both_lt (c : comparison) : bool * bool :=
  match c with Lt => (true, false) | Eq => (false, false) | Gt => (false, true) end.

Lemma both_lt_Z x y : (x <? y, y <? x) = both_lt (x ?= y).
Proof. destruct (Z.compare_spec x y); cbn; f_equal; lia. Qed.

Lemma Zcompare_ctrans x y z : ctrans (x ?= y) (y ?= z) (x ?= z).
Proof.
  destruct (Z.compare_spec x y), (Z.compare_spec y z); cbn; try done; apply Z.compare_lt_iff || apply Z.compare_gt_iff || apply Z.compare_eq_iff; lia.
Qed.

(** The three facts [antisym], [Lt]-transitivity and [Eq]-equality give all cases. *)
Lemma ctrans_of_order {A} (cmp : A -> A -> comparison) a b c :
  (forall x y, cmp x y = Eq <-> x = y) -> (forall x y, cmp y x = CompOpp (cmp x y)) ->
  (forall x y z, cmp x y = Lt -> cmp y z = Lt -> cmp x z = Lt) -> ctrans (cmp a b) (cmp b c) (cmp a c).
Proof.
  intros Heq Hopp Htr. unfold ctrans. destruct (cmp a b) eqn:E1; [apply Heq in E1; by subst| |]; destruct (cmp b c) eqn:E2; try done.
  - apply Heq in E2. by subst.
  - eauto.
  - apply Heq in E2. by subst.
  - rewrite Hopp. rewrite Hopp in E1. rewrite Hopp in E2. by rewrite (Htr c b a) by (by destruct (cmp c b), (cmp b a)).
Qed.

Lemma strcmp_ctrans a b c : ctrans (strcmp a b) (strcmp b c) (strcmp a c).
Proof. apply ctrans_of_order; [apply strcmp_eq|intros; apply strcmp_antisym|apply strcmp_trans]. Qed.
Lemma CZ_compare_ctrans a b c : ctrans (CZ_compare a b) (CZ_compare b c) (CZ_compare a c).
Proof. apply ctrans_of_order; [apply CZ_compare_eq|intros; apply CZ_compare_antisym|apply CZ_compare_trans]. Qed.

(** ** The reference comparison *)

(** The comparisons of doubles that are not NaN. *)
Class DoubleOrder (D : Type) `{Double D} : Type := {
  d_compare : D -> D -> comparison;
  d_lt_spec x y : d_lt x y = match d_compare x y with Lt => true | _ => false end;
  d_eq_spec x y : d_eq x y = match d_compare x y with Eq => true | _ => false end;
  d_compare_opp x y : d_compare y x = CompOpp (d_compare x y);
  d_compare_trans x y z : ctrans (d_compare x y) (d_compare y z) (d_compare x z)
}.

Section Order.
Context {D : Type} `{DoubleOrder D}.
Local Abbreviation Value := (JsonValue.Value D) (only parsing).

Definition bool_cmp (x y : bool) : comparison :=
  match x, y with false, true => Lt | true, false => Gt | _, _ => Eq end.
Definition opt_cmp {A} (cmp : A -> A -> comparison) (x y : option A) : comparison :=
  match x, y with None, None => Eq | None, Some _ => Lt | Some _, None => Gt | Some x, Some y => cmp x y end.

Section MapCompare.
Variable cmp : Value -> Value -> comparison.
(** Lexicographic on the pairs of key and value. *)
Fixpoint map_cmp (m1 m2 : list (CZString * Value)) : comparison :=
  match m1, m2 with
  | [], [] => Eq
  | [], _ :: _ => Lt
  | _ :: _, [] => Gt
  | (k1, x1) :: m1, (k2, x2) :: m2 => lex (lex (CZ_compare k1 k2) (cmp x1 x2)) (map_cmp m1 m2)
  end.
End MapCompare.

(** By type, then numbers, strings and containers by size before content. *)
Fixpoint value_cmp (a b : Value) : comparison :=
  lex (type_number (type a) ?= type_number (type b))
    match a, b with
    | intValue x, intValue y | uintValue x, uintValue y => x ?= y
    | realValue x, realValue y => d_compare x y
    | booleanValue x, booleanValue y => bool_cmp x y
    | stringValue x, stringValue y => opt_cmp strcmp x y
    | arrayValue m1, arrayValue m2 | objectValue m1, objectValue m2 =>
        lex (zlen m1 ?= zlen m2) (map_cmp value_cmp m1 m2)
    | _, _ => Eq
    end.

(** ** [operator<] and [operator==] compute it *)
Section MapLts.
Variable lts : Value -> Value -> bool * bool.
Fixpoint map_lts (m1 m2 : list (CZString * Value)) : bool * bool :=
  match m1, m2 with
  | [], [] => (false, false)
  | [], _ :: _ => (true, false)
  | _ :: _, [] => (false, true)
  | (k1, x1) :: m1, (k2, x2) :: m2 =>
      let '(x_lt, x_gt) := lts x1 x2 in
      let pair_lt := CZ_lt k1 k2 || (negb (CZ_lt k2 k1) && x_lt) in
      let pair_gt := CZ_lt k2 k1 || (negb (CZ_lt k1 k2) && x_gt) in
      let '(m_lt, m_gt) := map_lts m1 m2 in
      (pair_lt || (negb pair_gt && m_lt), pair_gt || (negb pair_lt && m_gt))
  end.
End MapLts.

Lemma map_lts_cmp m1 m2 :
  Forall (fun x => forall y, Value_lts x y = both_lt (value_cmp x y)) m1.*2 ->
  map_lts Value_lts m1 m2 = both_lt (map_cmp value_cmp m1 m2).
Proof.
  revert m2. induction m1 as [|[k1 x1] m1 IH]; intros [|[k2 x2] m2] Hm; try done.
  cbn [map_lts map_cmp]. cbn in Hm. apply Forall_cons in Hm as [Hx Hm]. rewrite Hx, IH by done.
  unfold CZ_lt. rewrite (CZ_compare_antisym k1 k2).
  by destruct (CZ_compare k1 k2), (value_cmp x1 x2), (map_cmp value_cmp m1 m2).
Qed.

Lemma container_lts (m1 m2 : list (CZString * Value)) :
  Forall (fun x => forall y, Value_lts x y = both_lt (value_cmp x y)) m1.*2 ->
  (let delta := zlen m1 - zlen m2 in
   if negb (delta =? 0) then (delta <? 0, 0 <? delta) else map_lts Value_lts m1 m2) =
  both_lt (lex (zlen m1 ?= zlen m2) (map_cmp value_cmp m1 m2)).
Proof.
  intros Hm. cbv zeta. rewrite map_lts_cmp by done.
  destruct (Z.compare_spec (zlen m1) (zlen m2)); cbn [lex both_lt].
  - by replace (zlen m1 - zlen m2 =? 0) with true by lia.
  - replace (zlen m1 - zlen m2 =? 0) with false by lia. cbn. f_equal; lia.
  - replace (zlen m1 - zlen m2 =? 0) with false by lia. cbn. f_equal; lia.
Qed.

Lemma Value_lts_cmp (a b : Value) : Value_lts a b = both_lt (value_cmp a b).
Proof.
  revert b. induction a as [|x|x|x|x|x|m1 IH|m1 IH] using Value_nested_ind;
    intros [|y|y|y|y|y|m2|m2]; try reflexivity.
  - apply both_lt_Z.
  - apply both_lt_Z.
  - cbn. rewrite !d_lt_spec, (d_compare_opp x y). by destruct (d_compare x y).
  - by destruct x as [x|], y as [y|].
  - by destruct x, y.
  - by apply container_lts.
  - by apply container_lts.
Qed.

Section MapEq.
Variable eq : Value -> Value -> bool.
Fixpoint map_eq (m1 m2 : list (CZString * Value)) : bool :=
  match m1, m2 with
  | [], [] => true
  | (k1, x1) :: m1, (k2, x2) :: m2 => CZ_eq k1 k2 && eq x1 x2 && map_eq m1 m2
  | _, _ => false
  end.
End MapEq.

Definition is_Eq (c : comparison) : bool := match c with Eq => true | _ => false end.

Lemma container_eq (m1 m2 : list (CZString * Value)) :
  Forall (fun x => forall y, Value_eq x y = is_Eq (value_cmp x y)) m1.*2 ->
  (length m1 =? length m2)%nat && map_eq Value_eq m1 m2 = is_Eq (lex (zlen m1 ?= zlen m2) (map_cmp value_cmp m1 m2)).
Proof.
  intros Hm. assert (map_eq Value_eq m1 m2 = is_Eq (map_cmp value_cmp m1 m2)) as ->.
  { revert m2. induction m1 as [|[k1 x1] m1 IH]; intros [|[k2 x2] m2]; try done.
    cbn [map_eq map_cmp]. cbn in Hm. apply Forall_cons in Hm as [Hx Hm]. rewrite Hx, IH by done.
    unfold CZ_eq. by destruct (CZ_compare k1 k2), (value_cmp x1 x2). }
  unfold zlen. destruct (Nat.eqb_spec (length m1) (length m2)) as [->|Hne]; [by rewrite Z.compare_refl|].
  destruct (Z.compare_spec (Z.of_nat (length m1)) (Z.of_nat (length m2))); [lia|done|done].
Qed.

Lemma Value_eq_cmp (a b : Value) : Value_eq a b = is_Eq (value_cmp a b).
Proof.
  revert b. induction a as [|x|x|x|x|x|m1 IH|m1 IH] using Value_nested_ind;
    intros [|y|y|y|y|y|m2|m2]; try reflexivity; try (destruct x; reflexivity).
  - cbn. destruct (Z.compare_spec x y); cbn; lia.
  - cbn. destruct (Z.compare_spec x y); cbn; lia.
  - cbn. rewrite d_eq_spec. by destruct (d_compare x y).
  - by destruct x as [x|], y as [y|].
  - by destruct x, y.
  - by apply container_eq.
  - by apply container_eq.
Qed.

(** ** The comparison is an order *)
Lemma bool_cmp_trans x y z : ctrans (bool_cmp x y) (bool_cmp y z) (bool_cmp x z).
Proof. by destruct x, y, z. Qed.
Lemma opt_cmp_trans {A} (cmp : A -> A -> comparison) x y z :
  (forall x y z, ctrans (cmp x y) (cmp y z) (cmp x z)) -> ctrans (opt_cmp cmp x y) (opt_cmp cmp y z) (opt_cmp cmp x z).
Proof. intros Hc. destruct x, y, z; cbn; try done; try apply Hc; by destruct (cmp _ _). Qed.

Lemma value_cmp_opp (a b : Value) : value_cmp b a = CompOpp (value_cmp a b).
Proof.
  assert (Hmap : forall m1 : list (CZString * Value), Forall (fun x => forall y, value_cmp y x = CompOpp (value_cmp x y)) m1.*2 ->
    forall m2, lex (zlen m2 ?= zlen m1) (map_cmp value_cmp m2 m1) =
      CompOpp (lex (zlen m1 ?= zlen m2) (map_cmp value_cmp m1 m2))).
  { intros m1 Hm m2. rewrite <- lex_opp, Z.compare_antisym. f_equal. revert m2.
    induction m1 as [|[k1 x1] m1 IH]; intros [|[k2 x2] m2]; try done. cbn in Hm. apply Forall_cons in Hm as [Hx Hm].
    cbn [map_cmp]. rewrite CZ_compare_antisym, Hx, IH by done. by rewrite !lex_opp. }
  revert b. induction a as [|x|x|x|x|x|m1 IH|m1 IH] using Value_nested_ind;
    intros [|y|y|y|y|y|m2|m2]; try reflexivity; cbn [value_cmp type type_number]; change (?x ?= ?x) with Eq; cbn [lex].
  - apply Z.compare_antisym.
  - apply Z.compare_antisym.
  - apply d_compare_opp.
  - destruct x as [x|], y as [y|]; try done. apply strcmp_antisym.
  - by destruct x, y.
  - by apply Hmap.
  - by apply Hmap.
Qed.

Lemma map_cmp_trans (m1 : list (CZString * Value)) :
  Forall (fun x => forall y z, ctrans (value_cmp x y) (value_cmp y z) (value_cmp x z)) m1.*2 -> forall m2 m3,
  ctrans (map_cmp value_cmp m1 m2) (map_cmp value_cmp m2 m3) (map_cmp value_cmp m1 m3).
Proof.
  induction m1 as [|[k1 x1] m1 IH]; intros Hm [|[k2 x2] m2] [|[k3 x3] m3]; cbn [map_cmp]; try done;
    try (by destruct (lex _ _)).
  cbn in Hm. apply Forall_cons in Hm as [Hx Hm]. auto using lex_ctrans, CZ_compare_ctrans.
Qed.

Lemma value_cmp_trans (a b c : Value) : ctrans (value_cmp a b) (value_cmp b c) (value_cmp a c).
Proof.
  revert b c. induction a as [|x|x|x|x|x|m1 IH|m1 IH] using Value_nested_ind; intros [|y|y|y|y|y|m2|m2] [|z|z|z|z|z|m3|m3];
    try exact I; try exact (eq_refl Lt); try exact (eq_refl Gt); cbn -[zlen ctrans map_cmp opt_cmp lex];
    cbn [lex]; try (by apply ctrans_fixed);
    auto using d_compare_trans, bool_cmp_trans, opt_cmp_trans, strcmp_ctrans, lex_ctrans, Zcompare_ctrans, map_cmp_trans.
  done.
Qed.

End Order.

(** Integers in the place of the doubles. *)
Definition Z_double : Double Z := {|
  d_of_Z z := z; d_le := Z.leb; d_lt := Z.ltb; d_eq := Z.eqb; d_trunc z := z;
  scan_lf _ := None; print_g16 _ := [48]
|}.
#[local] Existing Instance Z_double.

Lemma Z_double_lt x y : d_lt x y = match x ?= y with Lt => true | _ => false end.
Proof. cbn. unfold Z.ltb. by destruct (x ?= y). Qed.
Lemma Z_double_eq x y : d_eq x y = match x ?= y with Eq => true | _ => false end.
Proof. cbn. destruct (Z.compare_spec x y); lia. Qed.
Lemma Z_double_opp (x y : Z) : (y ?= x) = CompOpp (x ?= y).
Proof. apply Z.compare_antisym. Qed.
Definition Z_double_order : DoubleOrder Z := {|
  d_compare := Z.compare; d_lt_spec := Z_double_lt; d_eq_spec := Z_double_eq;
  d_compare_opp := Z_double_opp; d_compare_trans := Zcompare_ctrans
|}.


(** * Iterators *)
Module Iterator.
Section Iterator.
Context {D : Type}.
Local Abbreviation Value := (JsonValue.Value D) (only parsing).

(** An iterator of [std::map] is a position in the elements in key order, the last
    one behind them; [None] is the iterator made without a map. *)
Record ValueIterator : Set := mkIterator { current_ : option nat; isNull_ : bool }.

(** [ValueIteratorBase()] and [ValueIteratorBase(current)]. *)
Definition iterator_null : ValueIterator := mkIterator None true.
Definition iterator_at (p : nat) : ValueIterator := mkIterator (Some p) false.

(** The elements an iterator of [v] walks over. *)
Definition container (v : Value) : list (CZString * Value) :=
  match v with arrayValue m | objectValue m => m | _ => [] end.

Definition begin (v : Value) : ValueIterator :=
  match v with arrayValue _ | objectValue _ => iterator_at 0 | _ => iterator_null end.
Definition end_ (v : Value) : ValueIterator :=
  match v with arrayValue m | objectValue m => iterator_at (length m) | _ => iterator_null end.

(** The operations on the iterators of a value; [None] is a use that the map's
    iterators forbid. *)
Definition entry (v : Value) (it : ValueIterator) : option (CZString * Value) :=
  p ← current_ it; container v !! p.
Definition deref (v : Value) (it : ValueIterator) : option Value := snd <$> entry v it.
Definition increment (v : Value) (it : ValueIterator) : option ValueIterator :=
  p ← current_ it;
  if (p <? length (container v))%nat then Some (mkIterator (Some (S p)) (isNull_ it)) else None.
Definition decrement (v : Value) (it : ValueIterator) : option ValueIterator :=
  p ← current_ it;
  match p with S p => Some (mkIterator (Some p) (isNull_ it)) | O => None end.

(** [==] of the map's iterators. *)
Definition same (p q : option nat) : option bool :=
  match p, q with Some p, Some q => Some (p =? q)%nat | _, _ => None end.

Definition isEqual (it other : ValueIterator) : option bool :=
  if isNull_ it then Some (isNull_ other) else same (current_ it) (current_ other).

(** The loop of [computeDistance]. *)
Fixpoint distance_loop (fuel : nat) (v : Value) (it other : ValueIterator) (myDistance : Z) : option Z :=
  match fuel with
  | O => None
  | S fuel =>
      b ← same (current_ it) (current_ other);
      if (b : bool) then Some myDistance
      else it ← increment v it; distance_loop fuel v it other (i32 (myDistance + 1))
  end.
Definition computeDistance (v : Value) (it other : ValueIterator) : option Z :=
  if isNull_ it && isNull_ other then Some 0
  else distance_loop (S (length (container v))) v it other 0.

(** [copy], which the assignments call, takes the position only. *)
Definition copy (it other : ValueIterator) : ValueIterator := mkIterator (current_ other) (isNull_ it).

Definition key (v : Value) (it : ValueIterator) : option Value :=
  e ← entry v it;
  Some match e.1 with CZName n => Value_string n | CZIndex i => intValue i end.
Definition index (v : Value) (it : ValueIterator) : option Z :=
  e ← entry v it; Some match e.1 with CZName _ => u32 (-1) | CZIndex i => u32 i end.
Definition memberName (v : Value) (it : ValueIterator) : option (list Z) :=
  e ← entry v it; Some match e.1 with CZName n => n | CZIndex _ => [] end.

(** A loop over a value: [for (it = first; it != last; ++it)], collecting what [f]
    gives; the initialisation constructs [it] or, with [assigned], assigns to an
    iterator that was made without a value. *)
Fixpoint visit {A} (fuel : nat) (f : ValueIterator -> option A) (v : Value) (it last : ValueIterator) : option (list A) :=
  match fuel with
  | O => None
  | S fuel =>
      b ← isEqual it last;
      if (b : bool) then Some []
      else x ← f it; it ← increment v it; l ← visit fuel f v it last; Some (x :: l)
  end.
Definition for_each {A} (assigned : bool) (f : ValueIterator -> option A) (v : Value) : option (list A) :=
  visit (S (S (length (container v)))) f v (if assigned then copy iterator_null (begin v) else begin v) (end_ v).

Lemma container_begin v : (begin v = iterator_null /\ end_ v = iterator_null /\ container v = []) \/
  (begin v = iterator_at 0 /\ end_ v = iterator_at (length (container v))).
Proof. destruct v; auto. Qed.

Lemma increment_at v p :
  (p < length (container v))%nat -> increment v (iterator_at p) = Some (iterator_at (S p)).
Proof. intros Hp. unfold increment. cbn [current_ iterator_at mbind option_bind]. by rewrite (proj2 (Nat.ltb_lt _ _) Hp). Qed.
Lemma isEqual_at p q : isEqual (iterator_at p) (iterator_at q) = Some (p =? q)%nat.
Proof. done. Qed.

Lemma visit_from {A} (f : ValueIterator -> option A) v l p fuel :
  (p <= length (container v))%nat -> (length (container v) - p < fuel)%nat ->
  Forall2 (fun q x => f (iterator_at q) = Some x) (seq p (length (container v) - p)) l ->
  visit fuel f v (iterator_at p) (iterator_at (length (container v))) = Some l.
Proof.
  remember (length (container v) - p)%nat as n eqn:En. revert p l fuel En.
  induction n as [|n IH]; intros p l fuel En Hp Hf Hl; (destruct fuel as [|fuel]; [lia|]); cbn [visit]; rewrite isEqual_at.
  - inversion Hl; subst. by replace (p =? length (container v))%nat with true by (symmetry; apply Nat.eqb_eq; lia).
  - cbn [seq] in Hl. apply Forall2_cons_inv_l in Hl as (x & l' & Hx & Hl & ->).
    replace (p =? length (container v))%nat with false by (symmetry; apply Nat.eqb_neq; lia).
    cbn [mbind option_bind]. rewrite Hx. cbn [mbind option_bind]. rewrite increment_at by lia. cbn [mbind option_bind].
    by rewrite (IH (S p) l') by (done || lia).
Qed.

Lemma for_each_entries {A} (f : ValueIterator -> option A) (g : CZString * Value -> A) v :
  (forall it e, entry v it = Some e -> f it = Some (g e)) ->
  for_each false f v = Some (g <$> container v).
Proof.
  intros Hf. unfold for_each. destruct (container_begin v) as [(-> & -> & ->)|[-> ->]]; [done|].
  apply visit_from; [lia|lia|]. rewrite Nat.sub_0_r. apply Forall2_same_length_lookup_2.
  { by rewrite length_fmap, length_seq. }
  intros i p x Hp Hx. apply lookup_seq in Hp as [-> Hi]. rewrite list_lookup_fmap in Hx.
  destruct (container v !! i) as [e|] eqn:Ee; [|done]. injection Hx as <-. by apply Hf.
Qed.

Lemma distance_from v n : forall p fuel acc, (p + n = length (container v))%nat -> (n < fuel)%nat ->
  0 <= acc -> acc + Z.of_nat n < 2 ^ 31 ->
  distance_loop fuel v (iterator_at p) (iterator_at (length (container v))) acc = Some (acc + Z.of_nat n).
Proof.
  induction n as [|n IH]; intros p fuel acc Hp Hf H0 Hacc; (destruct fuel as [|fuel]; [lia|]);
    cbn [distance_loop]; change (same _ _) with (Some (p =? length (container v))%nat).
  - replace (p =? length (container v))%nat with true by (symmetry; apply Nat.eqb_eq; lia). cbn. f_equal. lia.
  - replace (p =? length (container v))%nat with false by (symmetry; apply Nat.eqb_neq; lia). cbn [mbind option_bind].
    rewrite increment_at by lia. cbn [mbind option_bind]. rewrite swrap_id by (unfold in_s; lia).
    rewrite IH by lia. f_equal. lia.
Qed.

(** C32. A loop from [begin] to [end] visits every element once, in the order of the
    keys: [operator*] gives the values of the container, [memberName] the names
    that [getMemberNames] lists; and [end - begin] counts the elements (as long as
    their number fits in an [int]). Values that are not containers have none. *)
Theorem json_iteration (v : Value) :
  zlen (container v) < 2 ^ 31 ->
  for_each false (deref v) v = Some (container v).*2 /\
  computeDistance v (begin v) (end_ v) = Some (zlen (container v)) /\
  (isObject v = true -> for_each false (memberName v) v = match getMemberNames v with Ok names => Some names | _ => None end).
Proof.
  intros Hlen. split_and!.
  - apply for_each_entries. intros it e He. unfold deref. by rewrite He.
  - unfold computeDistance. destruct (container_begin v) as [(-> & -> & ->)|[-> ->]]; [done|]. cbn [isNull_ iterator_at andb].
    rewrite (distance_from v (length (container v))) by (unfold zlen in Hlen; lia). f_equal.
  - intros Ho. rewrite (for_each_entries (memberName v) (fun q => match q.1 with CZName n => n | CZIndex _ => [] end)).
    + destruct v; try done.
    + intros it e He. unfold memberName. by rewrite He.
Qed.

(** An iterator that was made without a value and then assigned keeps its mark
    of a null iterator, because [copy] does not take [isNull_] over: it never equals
    the end of a container, and a loop that assigns its iterator runs past the
    last element. *)
Theorem json_assigned_iterator_runs_over {A} (f : ValueIterator -> option A) (v : Value) :
  end_ v <> iterator_null ->
  (forall n, isEqual (mkIterator n (isNull_ (copy iterator_null (begin v)))) (end_ v) = Some false) /\
  for_each true f v = None.
Proof.
  intros Hend. destruct (container_begin v) as [(_ & E & _)|[Eb Ee]]; [done|]. split; [by rewrite Ee|].
  assert (Hrun : forall fuel p, visit fuel f v (mkIterator (Some p) true) (end_ v) = None).
  { rewrite Ee. induction fuel as [|fuel IH]; intros p; [done|]. cbn [visit isEqual isNull_ iterator_at mbind option_bind].
    destruct (f _) as [x|]; [|done]. cbn [mbind option_bind]. unfold increment. cbn [current_ mbind option_bind isNull_].
    destruct (p <? length (container v))%nat; [|done]. cbn [mbind option_bind]. by rewrite IH. }
  unfold for_each. rewrite Eb. apply Hrun.
Qed.
End Iterator.
End Iterator.

(** Witness of C32. *)
Lemma json_iteration_witness :
  Iterator.for_each (D := Z) false (Iterator.memberName (objectValue (D := Z) [(CZName [97], nullValue); (CZName [98], intValue 1)]))
    (objectValue (D := Z) [(CZName [97], nullValue); (CZName [98], intValue 1)]) = Some [[97]; [98]].
Proof.
  apply (Iterator.json_iteration (objectValue (D := Z) [(CZName [97], nullValue); (CZName [98], intValue 1)])); [|reflexivity].
  reflexivity.
Defined.

(** An instance of [json_assigned_iterator_runs_over]. *)
Lemma json_assigned_iterator_runs_over_witness :
  Iterator.for_each (D := Z) true (Iterator.deref (arrayValue (D := Z) [(CZIndex 0, intValue 1)])) (arrayValue (D := Z) [(CZIndex 0, intValue 1)]) = None.
Proof.
  apply (Iterator.json_assigned_iterator_runs_over (Iterator.deref (arrayValue (D := Z) [(CZIndex 0, intValue 1)]))
    (arrayValue (D := Z) [(CZIndex 0, intValue 1)])). discriminate.
Defined.
