(* ===== verification/JsonReader.v ===== *)
(** The JSON reader: [Json::Reader] of source/json/src/json_reader.cpp.

    A [Location] (a pointer into the document) is the rest of the document from
    there on; reading at the end gives the zero byte that ends [c_str]. A node of
    the tree being built is named by its path of keys from the root, so the stack
    [nodes_] and the pointer [lastValue_] are paths; [comments_] holds the comments
    set on nodes, in order. The functions that call themselves take fuel and give
    [None] when it runs out; [read_total] shows that the fuel of [parse] is
    enough for every document. *)
From stdpp Require Import pretty.
From S2P Require Import Prelude JsonValue.
Local Open Scope Z_scope.

(** ** Types *)
Inductive TokenType : Set :=
  tokenEndOfStream | tokenObjectBegin | tokenObjectEnd | tokenArrayBegin | tokenArrayEnd | tokenString
| tokenNumber | tokenTrue | tokenFalse | tokenNull | tokenArraySeparator | tokenMemberSeparator
| tokenComment | tokenError.
#[global] Instance TokenType_eq_dec : EqDecision TokenType.
Proof. solve_decision. Defined.

Abbreviation Location := (list Z) (only parsing).

Record Token : Set := mkToken { type_ : TokenType; start_ : list Z; end_ : list Z }.
Record ErrorInfo : Set := mkErrorInfo { token_ : Token; message_ : string; extra_ : option (list Z) }.
Inductive CommentPlacement : Set := commentBefore | commentAfterOnSameLine | commentAfter.

Record Features : Set := mkFeatures { allowComments_ : bool; strictRoot_ : bool }.
Definition Features_all : Features := mkFeatures true false.
Definition strictMode : Features := mkFeatures false true.

Abbreviation path := (list CZString) (only parsing).

Record Reader : Set := mkReader {
  features_ : Features;
  collectComments_ : bool;
  begin_ : list Z;
  current_ : list Z;
  lastValueEnd_ : option (list Z);
  lastValue_ : option (list CZString);
  commentsBefore_ : list Z;
  errors_ : list ErrorInfo;
  (** Calls of [setComment]. *)
  comments_ : list (list CZString * CommentPlacement * list Z);
  (** Whether [decodeDouble] wrote behind its buffer. *)
  overrun_ : bool
}.

Definition set_current (c : Location) (r : Reader) : Reader :=
  mkReader (features_ r) (collectComments_ r) (begin_ r) c (lastValueEnd_ r) (lastValue_ r) (commentsBefore_ r)
    (errors_ r) (comments_ r) (overrun_ r).
Definition set_lastValue (e : Location) (p : path) (r : Reader) : Reader :=
  mkReader (features_ r) (collectComments_ r) (begin_ r) (current_ r) (Some e) (Some p) (commentsBefore_ r)
    (errors_ r) (comments_ r) (overrun_ r).
Definition set_commentsBefore (c : bytes) (r : Reader) : Reader :=
  mkReader (features_ r) (collectComments_ r) (begin_ r) (current_ r) (lastValueEnd_ r) (lastValue_ r) c
    (errors_ r) (comments_ r) (overrun_ r).
Definition set_errors (e : list ErrorInfo) (r : Reader) : Reader :=
  mkReader (features_ r) (collectComments_ r) (begin_ r) (current_ r) (lastValueEnd_ r) (lastValue_ r)
    (commentsBefore_ r) e (comments_ r) (overrun_ r).
Definition set_overrun (b : bool) (r : Reader) : Reader :=
  mkReader (features_ r) (collectComments_ r) (begin_ r) (current_ r) (lastValueEnd_ r) (lastValue_ r)
    (commentsBefore_ r) (errors_ r) (comments_ r) b.
(** [Value::setComment] on the node at [p]; the text is a C string. *)
Definition setComment (p : path) (text : bytes) (placement : CommentPlacement) (r : Reader) : Reader :=
  mkReader (features_ r) (collectComments_ r) (begin_ r) (current_ r) (lastValueEnd_ r) (lastValue_ r)
    (commentsBefore_ r) (errors_ r) (comments_ r ++ [(p, placement, cstr text)]) (overrun_ r).

(** ** Characters *)
Definition deref (l : Location) : Z := match l with [] => 0 | c :: _ => c end.
(** The characters from one location to a later one. *)
Definition between (b e : Location) : list Z := take (length b - length e) b.

Definition containsNewLine (b e : Location) : bool :=
  existsb (fun c => (c =? 10) || (c =? 13)) (between b e).

(** [codePointToUTF8]. *)
Definition codePointToUTF8 (cp : Z) : list Z :=
  if cp <=? 0x7f then [u8 cp]
  else if cp <=? 0x7FF then
    [u8 (Z.lor 0xC0 (Z.land 0x1f (Z.shiftr cp 6))); u8 (Z.lor 0x80 (Z.land 0x3f cp))]
  else if cp <=? 0xFFFF then
    [u8 (Z.lor 0xE0 (Z.land 0xf (Z.shiftr cp 12))); u8 (Z.lor 0x80 (Z.land 0x3f (Z.shiftr cp 6)));
     u8 (Z.lor 0x80 (Z.land 0x3f cp))]
  else if cp <=? 0x10FFFF then
    [u8 (Z.lor 0xF0 (Z.land 0x7 (Z.shiftr cp 18))); u8 (Z.lor 0x80 (Z.land 0x3f (Z.shiftr cp 12)));
     u8 (Z.lor 0x80 (Z.land 0x3f (Z.shiftr cp 6))); u8 (Z.lor 0x80 (Z.land 0x3f cp))]
  else [].

(** ** Tokens *)

(** [addError]. *)
Definition addError (message : string) (token : Token) (extra : option (list Z)) (r : Reader) : Reader :=
  set_errors (errors_ r ++ [mkErrorInfo token message extra]) r.

Fixpoint skipSpaces (c : Location) : list Z :=
  match c with
  | x :: rest => if (x =? 32) || (x =? 9) || (x =? 13) || (x =? 10) then skipSpaces rest else c
  | [] => []
  end.

(** [match]: the pattern and nothing else is consumed. *)
Definition match_ (pattern : bytes) (c : Location) : bool * list Z :=
  if (length c <? length pattern)%nat then (false, c)
  else if bool_decide (take (length pattern) c = pattern) then (true, drop (length pattern) c) else (false, c).

Fixpoint readCStyleComment (c : Location) : bool * list Z :=
  match c with
  | [] => (false, [])
  | x :: rest => if (x =? 42) && (deref rest =? 47) then (true, tail rest) else readCStyleComment rest
  end.

Fixpoint readCppStyleComment (c : Location) : list Z :=
  match c with
  | [] => []
  | x :: rest => if (x =? 13) || (x =? 10) then rest else readCppStyleComment rest
  end.

Definition number_char (x : Z) : bool :=
  ((48 <=? x) && (x <=? 57)) || (x =? 46) || (x =? 101) || (x =? 69) || (x =? 43) || (x =? 45).
Fixpoint readNumber (c : Location) : list Z :=
  match c with
  | x :: rest => if number_char x then readNumber rest else c
  | [] => []
  end.

(** [readString]; [last] is the variable [c] of the source. *)
Fixpoint readString (last : Z) (c : Location) : bool * list Z :=
  match c with
  | [] => (last =? 34, [])
  | x :: rest =>
      if x =? 92 then
        match rest with
        | [] => (x =? 34, [])
        | _ :: rest => readString x rest
        end
      else if x =? 34 then (true, rest)
      else readString x rest
  end.

(** [addComment]. *)
Definition addComment (b e : Location) (placement : CommentPlacement) (r : Reader) : Reader :=
  match placement with
  | commentAfterOnSameLine =>
      match lastValue_ r with
      | Some p => setComment p (between b e) placement r
      | None => r
      end
  | _ =>
      let before := match commentsBefore_ r with [] => [] | c => c ++ [10] end in
      set_commentsBefore (before ++ between b e) r
  end.

(** [readComment]: [commentBegin] is the slash, [current_] behind it. *)
Definition readComment (commentBegin : Location) (r : Reader) : bool * Reader :=
  let c := deref (current_ r) in
  let after := tail (current_ r) in
  let '(successful, cur) :=
    if c =? 42 then readCStyleComment after
    else if c =? 47 then (true, readCppStyleComment after)
    else (false, after) in
  let r := set_current cur r in
  if negb successful then (false, r)
  else if collectComments_ r then
    let placement :=
      match lastValueEnd_ r with
      | Some e =>
          if negb (containsNewLine e commentBegin) && (negb (c =? 42) || negb (containsNewLine commentBegin cur))
          then commentAfterOnSameLine else commentBefore
      | None => commentBefore
      end in
    (true, addComment commentBegin cur placement r)
  else (true, r).

(** [readToken]. *)
Definition readToken (r : Reader) : Token * Reader :=
  let start := skipSpaces (current_ r) in
  let c := deref start in
  let after := tail start in
  let simple t := (mkToken t start after, set_current after r) in
  let token (t : TokenType) (p : bool * list Z) :=
    (mkToken (if p.1 then t else tokenError) start p.2, set_current p.2 r) in
  if c =? 123 then simple tokenObjectBegin
  else if c =? 125 then simple tokenObjectEnd
  else if c =? 91 then simple tokenArrayBegin
  else if c =? 93 then simple tokenArrayEnd
  else if c =? 34 then token tokenString (readString 0 after)
  else if c =? 47 then
    let '(ok, r) := readComment start (set_current after r) in
    (mkToken (if ok then tokenComment else tokenError) start (current_ r), r)
  else if ((48 <=? c) && (c <=? 57)) || (c =? 45) then token tokenNumber (true, readNumber after)
  else if c =? 116 then token tokenTrue (match_ [114; 117; 101] after)
  else if c =? 102 then token tokenFalse (match_ [97; 108; 115; 101] after)
  else if c =? 110 then token tokenNull (match_ [117; 108; 108] after)
  else if c =? 44 then simple tokenArraySeparator
  else if c =? 58 then simple tokenMemberSeparator
  else if c =? 0 then simple tokenEndOfStream
  else simple tokenError.

(** [expectToken]. *)
Definition expectToken (type : TokenType) (message : string) (r : Reader) : bool * Reader :=
  let '(token, r) := readToken r in
  if bool_decide (type_ token = type) then (true, r) else (false, addError message token None r).

(** The loops that read tokens while the token is a comment. *)
Fixpoint skip_comments (fuel : nat) (t : Token) (r : Reader) : option (Token * Reader) :=
  if bool_decide (type_ t = tokenComment) then
    match fuel with
    | O => None
    | S fuel => let '(t, r) := readToken r in skip_comments fuel t r
    end
  else Some (t, r).

(** [skipCommentTokens]. *)
Definition skipCommentTokens (r : Reader) : option (Token * Reader) :=
  let '(t, r') := readToken r in
  if allowComments_ (features_ r) then skip_comments (length (current_ r)) t r' else Some (t, r').

(** [recoverFromError]: the errors added by the recovery are dropped. *)
Fixpoint recover_loop (fuel : nat) (skipUntilToken : TokenType) (r : Reader) : option Reader :=
  match fuel with
  | O => None
  | S fuel =>
      let '(t, r) := readToken r in
      if bool_decide (type_ t = skipUntilToken) || bool_decide (type_ t = tokenEndOfStream) then Some r
      else recover_loop fuel skipUntilToken r
  end.
Definition recoverFromError (skipUntilToken : TokenType) (r : Reader) : option Reader :=
  r' ← recover_loop (S (length (current_ r))) skipUntilToken r;
  Some (set_errors (take (length (errors_ r)) (errors_ r')) r').
Definition addErrorAndRecover (message : string) (token : Token) (skipUntilToken : TokenType) (r : Reader) : option Reader :=
  recoverFromError skipUntilToken (addError message token None r).

(** ** Decoding *)

Definition token_text (t : Token) : list Z := between (start_ t) (end_ t).

Definition bytes_string (s : bytes) : string :=
  foldr (fun b t => String (Ascii.ascii_of_nat (Z.to_nat b)) t) EmptyString s.
Definition not_a_number (text : bytes) : string := "'" +:+ bytes_string text +:+ "' is not a number.".

Definition hex_digit (c : Z) : option Z :=
  if (48 <=? c) && (c <=? 57) then Some (c - 48)
  else if (97 <=? c) && (c <=? 102) then Some (c - 97 + 10)
  else if (65 <=? c) && (c <=? 70) then Some (c - 65 + 10)
  else None.

(** The loop over the digits of [decodeUnicodeEscapeSequence]. *)
Fixpoint hex_loop (n : nat) (current : Location) (unicode : Z) : option Z * list Z :=
  match n with
  | O => (Some unicode, current)
  | S n =>
      match hex_digit (deref current) with
      | Some d => hex_loop n (tail current) (u32 (u32 (unicode * 16) + d))
      | None => (None, tail current)
      end
  end.

(** [decodeUnicodeEscapeSequence]; [n] is [end - current]. *)
Definition decodeUnicodeEscapeSequence (token : Token) (n : nat) (current : Location) (r : Reader)
    : option Z * list Z * Reader :=
  if (n <? 4)%nat then
    (None, current, addError "Bad unicode escape sequence in string: four digits expected." token (Some current) r)
  else
    match hex_loop 4 current 0 with
    | (Some u, current) => (Some u, current, r)
    | (None, current) =>
        (None, current,
         addError "Bad unicode escape sequence in string: hexadecimal digit expected." token (Some current) r)
    end.

(** [decodeUnicodeCodePoint]; also the characters left before [end]. *)
Definition decodeUnicodeCodePoint (token : Token) (n : nat) (current : Location) (r : Reader)
    : option Z * nat * list Z * Reader :=
  let '(u, current, r) := decodeUnicodeEscapeSequence token n current r in
  match u with
  | None => (None, 0%nat, current, r)
  | Some unicode =>
      let n := (n - 4)%nat in
      if (0xD800 <=? unicode) && (unicode <=? 0xDBFF) then
        if (n <? 6)%nat then
          (None, n, current,
           addError "additional six characters expected to parse unicode surrogate pair." token (Some current) r)
        else
          let bad current :=
            (None, n, current,
             addError "expecting another \u token to begin the second half of a unicode surrogate pair" token
               (Some current) r) in
          if deref current =? 92 then
            let current := tail current in
            if deref current =? 117 then
              let current := tail current in
              let '(u2, current, r) := decodeUnicodeEscapeSequence token (n - 2) current r in
              match u2 with
              | None => (None, n, current, r)
              | Some surrogatePair =>
                  (Some (u32 (0x10000 + Z.shiftl (Z.land unicode 0x3FF) 10 + Z.land surrogatePair 0x3FF)),
                   (n - 6)%nat, current, r)
              end
            else bad (tail current)
          else bad (tail current)
      else (Some unicode, n, current, r)
  end.

(** A simple escape. *)
Definition escape_char (c : Z) : option Z :=
  if c =? 34 then Some 34
  else if c =? 47 then Some 47
  else if c =? 92 then Some 92
  else if c =? 98 then Some 8
  else if c =? 102 then Some 12
  else if c =? 110 then Some 10
  else if c =? 114 then Some 13
  else if c =? 116 then Some 9
  else None.

(** The loop of [decodeString]; [n] is [end - current]; the fuel is [n] too. *)
Fixpoint decode_loop (fuel n : nat) (token : Token) (current : Location) (decoded : bytes) (r : Reader)
    : option (list Z) * Reader :=
  match fuel, n with
  | S fuel, S n =>
      let c := deref current in
      let current := tail current in
      if c =? 34 then (Some decoded, r)
      else if c =? 92 then
        match n with
        | O => (None, addError "Empty escape sequence in string" token (Some current) r)
        | S n =>
            let escape := deref current in
            let current := tail current in
            match escape_char escape with
            | Some x => decode_loop fuel n token current (decoded ++ [x]) r
            | None =>
                if escape =? 117 then
                  let '(u, n, current, r) := decodeUnicodeCodePoint token n current r in
                  match u with
                  | None => (None, r)
                  | Some unicode => decode_loop fuel n token current (decoded ++ codePointToUTF8 unicode) r
                  end
                else (None, addError "Bad escape sequence in string" token (Some current) r)
            end
        end
      else decode_loop fuel n token current (decoded ++ [c]) r
  | _, _ => (Some decoded, r)
  end.

(** [decodeString(token, decoded)]. *)
Definition decodeString_into (token : Token) (r : Reader) : option (list Z) * Reader :=
  let n := (length (start_ token) - length (end_ token) - 2)%nat in
  decode_loop n n token (tail (start_ token)) [] r.

Section Reader.
Context {D : Type} `{Double D}.
Local Abbreviation Value := (JsonValue.Value D) (only parsing).

(** [decodeString(token)]; [old] is the current value. *)
Definition decodeString (token : Token) (old : Value) (r : Reader) : bool * Value * Reader :=
  let '(decoded, r) := decodeString_into token r in
  match decoded with
  | None => (false, old, r)
  | Some s => (true, Value_string s, r)
  end.

(** [decodeDouble]: a text of exactly 32 characters fills the buffer and its zero
    byte is written behind it. *)
Definition decodeDouble (token : Token) (old : Value) (r : Reader) : bool * Value * Reader :=
  let text := token_text token in
  let r := if zlen text =? 32 then set_overrun true r else r in
  match scan_lf text with
  | None => (false, old, addError (not_a_number text) token None r)
  | Some value => (true, realValue value, r)
  end.

(** Whether a number is read as a double. *)
Definition isDouble_text (text : bytes) : bool :=
  let dotted c := (c =? 46) || (c =? 101) || (c =? 69) || (c =? 43) in
  match text with
  | [] => false
  | c :: rest => dotted c || existsb (fun c => dotted c || (c =? 45)) rest
  end.

(** The digits of [decodeNumber]. *)
Inductive digits_result : Set := NotANumber | TooBig | Digits (value : Z).
Fixpoint digits_loop (threshold : Z) (current : bytes) (value : Z) : digits_result :=
  match current with
  | [] => Digits value
  | c :: rest =>
      if (c <? 48) || (57 <? c) then NotANumber
      else if threshold <=? value then TooBig
      else digits_loop threshold rest (u32 (value * 10 + (c - 48)))
  end.

(** [decodeNumber]. *)
Definition decodeNumber (token : Token) (old : Value) (r : Reader) : bool * Value * Reader :=
  let text := token_text token in
  if isDouble_text text then decodeDouble token old r
  else
    let isNegative := deref text =? 45 in
    let threshold := (if isNegative then u32 (- minInt) else maxUInt) / 10 in
    match digits_loop threshold (if isNegative then tail text else text) 0 with
    | NotANumber => (false, old, addError (not_a_number text) token None r)
    | TooBig => decodeDouble token old r
    | Digits value =>
        (true,
         if isNegative then intValue (i32 (- i32 value))
         else if value <=? maxInt then intValue (i32 value)
         else uintValue value,
         r)
    end.

(** ** Values *)

Abbreviation outcome := (option (bool * JsonValue.Value D * Reader)) (only parsing).

(** The loop of [readObject]: [p] is the path of the current value, [m] the members
    read so far, [name] the last member name; [readValue] and [again] are the
    recursive calls. *)
Definition readObject_body
    (readValue : path -> Value -> Reader -> outcome)
    (again : path -> list (CZString * Value) -> list Z -> Reader -> outcome)
    (p : path) (m : list (CZString * Value)) (name : list Z) (r : Reader) : outcome :=
  let '(t, r') := readToken r in
  '(tokenName, r) ← skip_comments (length (current_ r)) t r';
  match type_ tokenName, name with
  | tokenObjectEnd, [] => Some (true, objectValue m, r)
  | tokenString, _ =>
      let '(decoded, r) := decodeString_into tokenName r in
      match decoded with
      | None => r ← recoverFromError tokenObjectEnd r; Some (false, objectValue m, r)
      | Some name =>
          let '(colon, r) := readToken r in
          if negb (bool_decide (type_ colon = tokenMemberSeparator)) then
            r ← addErrorAndRecover "Missing ':' after object member name" colon tokenObjectEnd r;
            Some (false, objectValue m, r)
          else
            let k := CZName (cstr name) in
            let child := default nullValue (map_find k m) in
            '(ok, child, r) ← readValue (p ++ [k]) child r;
            let m := map_set k child m in
            if negb ok then r ← recoverFromError tokenObjectEnd r; Some (false, objectValue m, r)
            else
              let '(comma, r') := readToken r in
              if negb (bool_decide (type_ comma = tokenObjectEnd)) &&
                 negb (bool_decide (type_ comma = tokenArraySeparator)) &&
                 negb (bool_decide (type_ comma = tokenComment))
              then
                r ← addErrorAndRecover "Missing ',' or '}' in object declaration" comma tokenObjectEnd r';
                Some (false, objectValue m, r)
              else
                '(comma, r) ← skip_comments (length (current_ r)) comma r';
                if bool_decide (type_ comma = tokenObjectEnd) then Some (true, objectValue m, r)
                else again p m name r
      end
  | _, _ =>
      r ← addErrorAndRecover "Missing '}' or object member name" tokenName tokenObjectEnd r;
      Some (false, objectValue m, r)
  end.

(** The loop of [readArray]. *)
Definition readArray_body
    (readValue : path -> Value -> Reader -> outcome)
    (again : path -> list (CZString * Value) -> Z -> Reader -> outcome)
    (p : path) (m : list (CZString * Value)) (index : Z) (r : Reader) : outcome :=
  let k := CZIndex (i32 index) in
  let child := default nullValue (map_find k m) in
  '(ok, child, r) ← readValue (p ++ [k]) child r;
  let m := map_set k child m in
  if negb ok then r ← recoverFromError tokenArrayEnd r; Some (false, arrayValue m, r)
  else
    let '(t, r') := readToken r in
    '(token, r) ← skip_comments (length (current_ r)) t r';
    let badTokenType :=
      bool_decide (type_ token = tokenArraySeparator) && bool_decide (type_ token = tokenArrayEnd) in
    if badTokenType then
      r ← addErrorAndRecover "Missing ',' or ']' in array declaration" token tokenArrayEnd r;
      Some (false, arrayValue m, r)
    else if bool_decide (type_ token = tokenArrayEnd) then Some (true, arrayValue m, r)
    else again p m (i32 (index + 1)) r.

(** The end of [readValue]. *)
Definition finish (p : path) (o : outcome) : outcome :=
  '(ok, v, r) ← o;
  Some (ok, v, if collectComments_ r then set_lastValue (current_ r) p r else r).

(** The comments in front of a value become its comment. *)
Definition take_comments (p : path) (r : Reader) : Reader :=
  match commentsBefore_ r with
  | _ :: _ =>
      if collectComments_ r
      then set_commentsBefore [] (setComment p (commentsBefore_ r) commentBefore r) else r
  | [] => r
  end.

(** [readValue]; [old] is what the current value holds before. *)
Definition readValue_body
    (readObject : path -> list (CZString * Value) -> list Z -> Reader -> outcome)
    (readArray : path -> list (CZString * Value) -> Z -> Reader -> outcome)
    (p : path) (old : Value) (r : Reader) : outcome :=
  '(token, r) ← skipCommentTokens r;
  let r := take_comments p r in
  match type_ token with
  | tokenObjectBegin => finish p (readObject p [] [] r)
  | tokenArrayBegin =>
      finish p
        (let r := set_current (skipSpaces (current_ r)) r in
         if deref (current_ r) =? 93 then
           let '(_, r) := readToken r in Some (true, arrayValue [], r)
         else readArray p [] 0 r)
  | tokenNumber => finish p (Some (decodeNumber token old r))
  | tokenString => finish p (Some (decodeString token old r))
  | tokenTrue => finish p (Some (true, booleanValue true, r))
  | tokenFalse => finish p (Some (true, booleanValue false, r))
  | tokenNull => finish p (Some (true, nullValue, r))
  | _ => Some (false, old, addError "Syntax error: value, object or array expected." token None r)
  end.

(** [readValue], [readObject] and [readArray] together. *)
Fixpoint readValue (fuel : nat) (p : path) (old : Value) (r : Reader) {struct fuel} : outcome :=
  match fuel with
  | O => None
  | S fuel => readValue_body (readObject fuel) (readArray fuel) p old r
  end
with readObject (fuel : nat) (p : path) (m : list (CZString * Value)) (name : list Z) (r : Reader) {struct fuel} : outcome :=
  match fuel with
  | O => None
  | S fuel => readObject_body (readValue fuel) (readObject fuel) p m name r
  end
with readArray (fuel : nat) (p : path) (m : list (CZString * Value)) (index : Z) (r : Reader) {struct fuel} : outcome :=
  match fuel with
  | O => None
  | S fuel => readArray_body (readValue fuel) (readArray fuel) p m index r
  end.

(** ** [parse] *)

(** The fuel of [parse]: two calls per character. *)
Definition read_fuel (doc : bytes) : nat := S (2 * length doc).

Definition skip_BOM (doc : bytes) : list Z :=
  if 3 <=? zlen doc then
    if (deref doc =? 239) && (deref (tail doc) =? 187) && (deref (tail (tail doc)) =? 191) then drop 3 doc else doc
  else doc.

(** [parse(document, root, collectComments)]; [root] is the value before. *)
Definition parse (features : Features) (document : bytes) (root : Value) (collectComments : bool)
    : option (bool * JsonValue.Value D * Reader) :=
  let beginDoc := skip_BOM document in
  let collectComments := if allowComments_ features then collectComments else false in
  let r := mkReader features collectComments beginDoc beginDoc None None [] [] [] false in
  '(successful, root, r) ← readValue (read_fuel beginDoc) [] root r;
  '(token, r) ← skipCommentTokens r;
  let r :=
    match commentsBefore_ r with
    | _ :: _ => if collectComments_ r then setComment [] (commentsBefore_ r) commentAfter r else r
    | [] => r
    end in
  if strictRoot_ features && negb (isArray root) && negb (isObject root) then
    Some (false, root,
      addError "A valid JSON document must be either an array or an object value."
        (mkToken tokenError beginDoc []) None r)
  else Some (successful, root, r).

End Reader.

(** ** Error messages *)

(** The loop of [getLocationLineAndColumn]: [location] is reached when no more
    characters are left than behind it. *)
Fixpoint location_loop (fuel : nat) (current location lastLineStart : Location) (line : Z) : Z * list Z :=
  match fuel with
  | O => (line, lastLineStart)
  | S fuel =>
      if (length location <? length current)%nat then
        let c := deref current in
        let current := tail current in
        if c =? 13 then
          let current := if deref current =? 10 then tail current else current in
          location_loop fuel current location current (line + 1)
        else if c =? 10 then location_loop fuel current location current (line + 1)
        else location_loop fuel current location lastLineStart line
      else (line, lastLineStart)
  end.
Definition getLocationLineAndColumn (b location : Location) : Z * Z :=
  let '(line, lastLineStart) := location_loop (length b) b location b 0 in
  (line + 1, Z.of_nat (length lastLineStart) - Z.of_nat (length location) + 1).
Definition location_string (b location : Location) : string :=
  let '(line, column) := getLocationLineAndColumn b location in
  "Line " +:+ pretty line +:+ ", Column " +:+ pretty column.

(** [getFormatedErrorMessages]. *)
Definition newline : string := String (Ascii.ascii_of_nat 10) EmptyString.
Definition getFormatedErrorMessages (r : Reader) : string :=
  foldr (fun e s =>
    "* " +:+ location_string (begin_ r) (start_ (token_ e)) +:+ newline +:+ "  " +:+ message_ e +:+ newline +:+
    (match extra_ e with
     | Some l => "See " +:+ location_string (begin_ r) l +:+ " for detail." +:+ newline
     | None => EmptyString
     end) +:+ s) EmptyString (errors_ r).

(** * Lemmas *)

(** ** Tokens consume the document *)
Lemma skipSpaces_length c : (length (skipSpaces c) <= length c)%nat.
Proof. induction c as [|x c IH]; cbn; [done|]. case_match; cbn; lia. Qed.

Lemma tail_length (c : Location) : (length (tail c) <= length c)%nat.
Proof. destruct c; cbn; lia. Qed.

Lemma deref_length c : deref c <> 0 -> (length (tail c) < length c)%nat.
Proof. destruct c; cbn; [done|lia]. Qed.

Lemma readCStyleComment_length c : (length (readCStyleComment c).2 <= length c)%nat.
Proof.
  induction c as [|x c IH]; cbn; [done|]. case_match; cbn; [pose proof (tail_length c); lia|lia].
Qed.
Lemma readCppStyleComment_length c : (length (readCppStyleComment c) <= length c)%nat.
Proof. induction c as [|x c IH]; cbn; [done|]. case_match; cbn; lia. Qed.
Lemma readNumber_length c : (length (readNumber c) <= length c)%nat.
Proof. induction c as [|x c IH]; cbn; [done|]. case_match; cbn; lia. Qed.
Lemma readString_length last c : (length (readString last c).2 <= length c)%nat.
Proof.
  remember (length c) as n eqn:Hn. revert last c Hn. induction n as [n IH] using lt_wf_ind. intros last c ->.
  destruct c as [|x c]; cbn; [done|]. case_match; [|case_match; cbn; [lia|]].
  - destruct c as [|y c]; cbn; [lia|]. etrans; [apply (IH (length c)); cbn; lia|lia].
  - etrans; [apply (IH (length c)); cbn; lia|lia].
Qed.
Lemma match_length pattern c : (length (match_ pattern c).2 <= length c)%nat.
Proof. unfold match_. repeat case_match; cbn; rewrite ?length_drop; lia. Qed.

Lemma addComment_current b e pl r : current_ (addComment b e pl r) = current_ r.
Proof. unfold addComment. repeat case_match; done. Qed.

Lemma readComment_length b r : (length (current_ (readComment b r).2) <= length (current_ r))%nat.
Proof.
  unfold readComment. pose proof (tail_length (current_ r)) as H1.
  match goal with |- context [match ?x with pair _ _ => _ end] => set (q := x) end.
  assert (Hq : (length q.2 <= length (tail (current_ r)))%nat).
  { unfold q. repeat case_match; cbn; auto using readCStyleComment_length, readCppStyleComment_length. }
  destruct q as [ok cur]. cbn in Hq. destruct (negb ok); cbn [snd]; [cbn; lia|].
  destruct (collectComments_ _); cbn [snd]; rewrite ?addComment_current; cbn; lia.
Qed.

(** A token that is not the end of the document consumes a character. *)
Lemma readToken_length r :
  let '(t, r') := readToken r in
  (length (current_ r') <= length (current_ r))%nat /\
  (type_ t <> tokenEndOfStream -> (length (current_ r') < length (current_ r))%nat).
Proof.
  unfold readToken. pose proof (skipSpaces_length (current_ r)) as Hs.
  set (start := skipSpaces (current_ r)) in *. pose proof (tail_length start) as Ht.
  destruct (decide (deref start = 0)) as [E|E].
  - rewrite E. cbn. split; [lia|done].
  - pose proof (deref_length start E) as Hd.
    pose proof (readString_length 0 (tail start)). pose proof (readNumber_length (tail start)).
    pose proof (match_length [114; 117; 101] (tail start)). pose proof (match_length [97; 108; 115; 101] (tail start)).
    pose proof (match_length [117; 108; 108] (tail start)).
    pose proof (readComment_length start (set_current (tail start) r)) as Hc. cbn [current_ set_current] in Hc.
    revert Hc. destruct (readComment _ _) as [ok r1]. cbn [snd]. intros Hc.
    repeat match goal with |- context [if ?b then _ else _] => destruct b; [cbn; lia|] end. cbn; lia.
Qed.

Lemma skip_comments_total fuel t r :
  (type_ t = tokenComment -> (length (current_ r) < fuel)%nat) ->
  exists t' r', skip_comments fuel t r = Some (t', r') /\ (length (current_ r') <= length (current_ r))%nat /\
    (type_ t <> tokenComment -> t' = t /\ r' = r).
Proof.
  revert t r. induction fuel as [|fuel IH]; intros t r Hf; cbn.
  - case_bool_decide as E; [specialize (Hf E); lia|]. eauto 10.
  - case_bool_decide as E; [|eauto 10]. specialize (Hf E). pose proof (readToken_length r) as Hl.
    destruct (readToken r) as [t1 r1]. destruct Hl as [Hl1 Hl2].
    destruct (IH t1 r1) as (t2 & r2 & E2 & Hl3 & _).
    { intros E1. rewrite E1 in Hl2. specialize (Hl2 ltac:(done)). lia. }
    exists t2, r2. split_and!; [done|lia|done].
Qed.

(** Reading the next token that is not a comment. *)
Lemma next_token_total r :
  exists t r', (let '(t, r1) := readToken r in skip_comments (length (current_ r)) t r1) = Some (t, r') /\
    (length (current_ r') <= length (current_ r))%nat /\
    (type_ t <> tokenEndOfStream -> (length (current_ r') < length (current_ r))%nat).
Proof.
  pose proof (readToken_length r) as Hl. destruct (readToken r) as [t1 r1]. destruct Hl as [Hl1 Hl2].
  destruct (skip_comments_total (length (current_ r)) t1 r1) as (t2 & r2 & E & Hl3 & Hsame).
  { intros E1. rewrite E1 in Hl2. auto. }
  exists t2, r2. split_and!; [done|lia|]. intros Hne.
  destruct (decide (type_ t1 = tokenComment)) as [Ec|Ec].
  - rewrite Ec in Hl2. specialize (Hl2 ltac:(done)). lia.
  - destruct (Hsame Ec) as [-> ->]. auto.
Qed.

Lemma skipCommentTokens_total r :
  exists t r', skipCommentTokens r = Some (t, r') /\ (length (current_ r') <= length (current_ r))%nat /\
    (type_ t <> tokenEndOfStream -> (length (current_ r') < length (current_ r))%nat).
Proof.
  unfold skipCommentTokens. pose proof (next_token_total r) as Hn. pose proof (readToken_length r) as Hl.
  destruct (readToken r) as [t1 r1]. destruct (allowComments_ _); [done|]. exists t1, r1. tauto.
Qed.

Lemma recover_loop_total fuel k r :
  (length (current_ r) < fuel)%nat ->
  exists r', recover_loop fuel k r = Some r' /\ (length (current_ r') <= length (current_ r))%nat.
Proof.
  revert r. induction fuel as [|fuel IH]; intros r Hf; [lia|]. cbn. pose proof (readToken_length r) as Hl.
  destruct (readToken r) as [t1 r1]. destruct Hl as [Hl1 Hl2].
  destruct (bool_decide (type_ t1 = k)); [eauto|]. case_bool_decide as E; [cbn; eauto|]. cbn.
  specialize (Hl2 E). destruct (IH r1) as (r2 & -> & Hl3); [lia|]. exists r2. split; [done|lia].
Qed.

Lemma recoverFromError_total k r :
  exists r', recoverFromError k r = Some r' /\ (length (current_ r') <= length (current_ r))%nat.
Proof.
  unfold recoverFromError. destruct (recover_loop_total (S (length (current_ r))) k r) as (r' & -> & Hl); [lia|].
  cbn. eexists. split; [done|]. exact Hl.
Qed.

Lemma addErrorAndRecover_total m t k r :
  exists r', addErrorAndRecover m t k r = Some r' /\ (length (current_ r') <= length (current_ r))%nat.
Proof. unfold addErrorAndRecover. apply (recoverFromError_total k (addError m t None r)). Qed.

(** ** Decoding does not move *)
Lemma decodeUnicodeEscapeSequence_current t n c r :
  current_ (decodeUnicodeEscapeSequence t n c r).2 = current_ r.
Proof. unfold decodeUnicodeEscapeSequence. by repeat case_match. Qed.

Lemma decodeUnicodeCodePoint_current t n c r :
  current_ (decodeUnicodeCodePoint t n c r).2 = current_ r.
Proof.
  unfold decodeUnicodeCodePoint. pose proof (decodeUnicodeEscapeSequence_current t n c r) as E1.
  destruct (decodeUnicodeEscapeSequence t n c r) as [[[u|] c1] r1]; [|done]. cbn in E1.
  case_match; [|done]. case_match; [done|]. case_match; [|done]. case_match; [|done].
  pose proof (decodeUnicodeEscapeSequence_current t (n - 4 - 2) (tail (tail c1)) r1) as E2.
  destruct (decodeUnicodeEscapeSequence t _ _ r1) as [[[u2|] c2] r2]; cbn in *; congruence.
Qed.

Lemma decode_loop_current fuel n t c d r : current_ (decode_loop fuel n t c d r).2 = current_ r.
Proof.
  revert n c d r. induction fuel as [|fuel IH]; intros [|n] c d r; cbn; try done.
  case_match; [done|]. case_match; [|apply IH]. destruct n as [|n]; [done|].
  destruct (escape_char _); [apply IH|]. case_match; [|done].
  pose proof (decodeUnicodeCodePoint_current t n (tail (tail c)) r) as E.
  destruct (decodeUnicodeCodePoint t n (tail (tail c)) r) as [[[[u|] n1] c1] r1]; cbn in *; [|done].
  by rewrite IH.
Qed.

Lemma decodeString_into_current t r : current_ (decodeString_into t r).2 = current_ r.
Proof. apply decode_loop_current. Qed.

(** ** The reader always answers *)
Section Total.
Context {D : Type} `{Double D}.
Local Abbreviation Value := (JsonValue.Value D) (only parsing).

Lemma decodeString_current t (old : Value) r : current_ (decodeString t old r).2 = current_ r.
Proof.
  unfold decodeString. pose proof (decodeString_into_current t r) as E.
  destruct (decodeString_into t r) as [[s|] r1]; done.
Qed.
Lemma decodeDouble_current t (old : Value) r : current_ (decodeDouble t old r).2 = current_ r.
Proof. unfold decodeDouble. by repeat case_match. Qed.
Lemma decodeNumber_current t (old : Value) r : current_ (decodeNumber t old r).2 = current_ r.
Proof. unfold decodeNumber. repeat case_match; try done; apply decodeDouble_current. Qed.

(** An outcome that leaves at most [n] characters, less after a success. *)
Definition ends (n : nat) (o : option (bool * Value * Reader)) : Prop :=
  exists ok v r, o = Some (ok, v, r) /\ (length (current_ r) <= n)%nat /\ (ok = true -> (length (current_ r) < n)%nat).

Lemma ends_recover k m (v : Value) r n :
  (length (current_ r) <= n)%nat ->
  ends n (r ← (match m with Some (s, t) => addErrorAndRecover s t k r | None => recoverFromError k r end);
          Some (false, v, r)).
Proof.
  intros Hr. destruct m as [[s t]|].
  - destruct (addErrorAndRecover_total s t k r) as (r' & -> & Hl). exists false, v, r'. cbn. split_and!; [done|lia|done].
  - destruct (recoverFromError_total k r) as (r' & -> & Hl). exists false, v, r'. cbn. split_and!; [done|lia|done].
Qed.

Definition value_total (fuel : nat) : Prop := forall p (old : Value) r,
  (2 * length (current_ r) + 1 <= fuel)%nat -> ends (length (current_ r)) (readValue fuel p old r).
Definition object_total (fuel : nat) : Prop := forall p m name r,
  (2 * length (current_ r) + 2 <= fuel)%nat -> ends (S (length (current_ r))) (readObject (D := D) fuel p m name r).
Definition array_total (fuel : nat) : Prop := forall p m i r,
  (2 * length (current_ r) + 2 <= fuel)%nat -> ends (S (length (current_ r))) (readArray (D := D) fuel p m i r).

Lemma array_step fuel : value_total fuel -> array_total fuel -> array_total (S fuel).
Proof.
  intros IHv IHa p m i r Hf.
  change (readArray (S fuel)) with (readArray_body (D := D) (readValue fuel) (readArray fuel)).
  unfold readArray_body. cbv zeta.
  set (k := CZIndex (i32 i)). destruct (IHv (p ++ [k]) (default nullValue (map_find k m)) r) as (ok & v & r1 & -> & H1 & H2); [lia|].
  cbn [mbind option_bind]. destruct ok; cbn [negb]; [|apply (ends_recover _ None); lia].
  specialize (H2 eq_refl). destruct (next_token_total r1) as (t & r2 & Et & H3 & H4).
  destruct (readToken r1) as [t1 r1']. rewrite Et. cbn [mbind option_bind].
  destruct (_ && bool_decide _); [apply (ends_recover _ (Some (_, _))); lia|].
  destruct (bool_decide (type_ t = tokenArrayEnd)).
  - exists true, (arrayValue (map_set k v m)), r2. split_and!; [done|lia|lia].
  - destruct (IHa p (map_set k v m) (i32 (i + 1)) r2) as (ok & v' & r3 & -> & H5 & H6); [lia|].
    exists ok, v', r3. split_and!; [done|lia|]. intros Hok. specialize (H6 Hok). lia.
Qed.

Lemma object_step fuel : value_total fuel -> object_total fuel -> object_total (S fuel).
Proof.
  intros IHv IHo p m name r Hf.
  change (readObject (S fuel)) with (readObject_body (D := D) (readValue fuel) (readObject fuel)).
  unfold readObject_body. cbv zeta.
  destruct (next_token_total r) as (tn & r1 & Et & H1 & H2). destruct (readToken r) as [t0 r0]. rewrite Et.
  cbn [mbind option_bind]. clear Et t0 r0.
  assert (Herr : forall s, ends (S (length (current_ r)))
    (r ← addErrorAndRecover s tn tokenObjectEnd r1; Some (false, objectValue m, r)))
    by (intros s; apply (ends_recover _ (Some (_, _))); lia).
  destruct (type_ tn) eqn:Etn; try apply Herr.
  - destruct name as [|c name]; [|apply Herr]. exists true, (objectValue m), r1. split_and!; [done|lia|lia].
  - pose proof (decodeString_into_current tn r1) as Ed. specialize (H2 ltac:(done)).
    destruct (decodeString_into tn r1) as [[nm|] r2]; cbn in Ed; [|apply (ends_recover _ None); rewrite Ed; lia].
    pose proof (readToken_length r2) as Hc. destruct (readToken r2) as [colon r3]. destruct Hc as [Hc _].
    rewrite Ed in Hc. destruct (negb _); [apply (ends_recover _ (Some (_, _))); lia|].
    set (k := CZName (cstr nm)).
    destruct (IHv (p ++ [k]) (default nullValue (map_find k m)) r3) as (ok & v & r4 & -> & H3 & H4); [lia|].
    cbn [mbind option_bind]. destruct ok; cbn [negb]; [|apply (ends_recover _ None); lia].
    specialize (H4 eq_refl). pose proof (next_token_total r4) as (t2 & r5 & Et2 & H5 & H6).
    pose proof (readToken_length r4) as Hm.
    destruct (readToken r4) as [comma r4']. destruct Hm as [Hm _]. rewrite Et2.
    destruct (_ && negb _); [apply (ends_recover _ (Some (_, _))); lia|]. cbn [mbind option_bind].
    destruct (bool_decide (type_ t2 = tokenObjectEnd)).
    + exists true, (objectValue (map_set k v m)), r5. split_and!; [done|lia|lia].
    + destruct (IHo p (map_set k v m) nm r5) as (ok & v' & r6 & -> & H7 & H8); [lia|].
      exists ok, v', r6. split_and!; [done|lia|]. intros Hok. specialize (H8 Hok). lia.
Qed.

Lemma value_step fuel : object_total fuel -> array_total fuel -> value_total (S fuel).
Proof.
  intros IHo IHa p old r Hf.
  change (readValue (S fuel)) with (readValue_body (D := D) (readObject fuel) (readArray fuel)).
  unfold readValue_body. cbv zeta.
  destruct (skipCommentTokens_total r) as (t & r1 & -> & H1 & H2). cbn [mbind option_bind].
  set (r2 := take_comments p r1).
  assert (Er2 : current_ r2 = current_ r1) by (unfold r2, take_comments; by repeat case_match).
  assert (Hfin : forall o, type_ t <> tokenEndOfStream -> ends (S (length (current_ r1))) o ->
    ends (length (current_ r)) (finish p o)).
  { intros o Ht (ok & v & r3 & -> & H3 & H4). specialize (H2 Ht). cbn. eexists _, _, _. split; [done|].
    assert (current_ (if collectComments_ r3 then set_lastValue (current_ r3) p r3 else r3) = current_ r3) as ->
      by (by case_match). split; [lia|]. intros Hok. specialize (H4 Hok). lia. }
  assert (Hdec : forall b v r3, current_ r3 = current_ r2 -> ends (S (length (current_ r1))) (Some (b, v, r3))).
  { intros b v r3 E3. eexists _, _, _. split; [done|]. rewrite E3, Er2. lia. }
  assert (Hbad : forall s, ends (length (current_ r)) (Some (false, old, addError s t None r2))).
  { intros s. eexists _, _, _. split; [done|]. cbn. rewrite Er2. split; [lia|done]. }
  destruct (type_ t) eqn:Et; try apply Hbad; apply Hfin; try done; try (by apply Hdec).
  - rewrite <- Er2. apply IHo. rewrite Er2. specialize (H2 ltac:(done)). lia.
  - specialize (H2 ltac:(done)). set (r3 := set_current (skipSpaces (current_ r2)) r2).
    assert (Hs : (length (current_ r3) <= length (current_ r1))%nat)
      by (cbn; rewrite <- Er2; apply skipSpaces_length).
    case_match.
    + pose proof (readToken_length r3) as Hl. destruct (readToken r3) as [t3 r4]. destruct Hl as [Hl _].
      eexists _, _, _. split; [done|]. lia.
    + destruct (IHa p [] 0 r3) as (ok & v & r4 & -> & H3 & H4); [lia|].
      eexists _, _, _. split; [done|]. split; [lia|]. intros Hok. specialize (H4 Hok). lia.
  - pose proof (decodeString_current t old r2). destruct (decodeString t old r2) as [[b v] r3]. by apply Hdec.
  - pose proof (decodeNumber_current t old r2). destruct (decodeNumber t old r2) as [[b v] r3]. by apply Hdec.
Qed.

Lemma reader_total fuel : value_total fuel /\ object_total fuel /\ array_total fuel.
Proof.
  induction fuel as [|fuel (IHv & IHo & IHa)].
  - split_and!; intros ??? **; lia.
  - split_and!; [by apply value_step|by apply object_step|by apply array_step].
Qed.

(** C10. The reader terminates on every document: for every byte string, features
    and initial root, [parse] gives an answer with the fuel of two calls per
    character; in particular no loop of the reader, error recovery included, runs
    for ever. *)
Theorem json_parse_total (f : Features) (doc : bytes) (root : Value) (collect : bool) :
  is_Some (parse f doc root collect).
Proof.
  unfold parse. set (r0 := mkReader f _ (skip_BOM doc) _ _ _ _ _ _ _).
  destruct (reader_total (read_fuel (skip_BOM doc))) as (Hv & _ & _).
  destruct (Hv [] root r0) as (ok & v & r1 & -> & _); [cbn; unfold read_fuel; lia|]. cbn [mbind option_bind].
  destruct (skipCommentTokens_total r1) as (t & r2 & -> & _). cbn [mbind option_bind].
  case_match; eauto.
Qed.
End Total.
