(* ===== verification/JsonWriter.v ===== *)
(** The compact JSON writer: the conversions to text and [Json::FastWriter] of
    source/json/src/json_writer.cpp, and the round trip through the reader.

    Texts are lists of bytes. [writeValue] follows the recursion of the source
    with the depth of the value as fuel; [None] stands for the null pointer of a
    string value that was never set. *)
From S2P Require Import Prelude JsonValue JsonReader.
Local Open Scope Z_scope.

(** ** Numbers *)

(** The loop of [uintToString], which fills a buffer of 32 bytes from its end:
    [room] bytes are left, [current] is what is written; [None] is a write in
    front of the buffer. *)
Fixpoint uint_loop (room : nat) (value : Z) (current : bytes) : option (list Z) :=
  match room with
  | O => None
  | S room =>
      let current := (value mod 10 + 48) :: current in
      if value / 10 =? 0 then Some current else uint_loop room (value / 10) current
  end.
(** [uintToString]: the zero byte takes one of the 32. *)
Definition uintToString (value : Z) : option (list Z) := uint_loop 31 value [].

(** [valueToString(Int)], [valueToString(UInt)] and [valueToString(bool)]. *)
Definition valueToString_Int (value : Z) : option (list Z) :=
  let isNegative := value <? 0 in
  let value := if isNegative then i32 (- value) else value in
  s ← uintToString (u32 value);
  if isNegative then (if (length s <? 31)%nat then Some (45 :: s) else None) else Some s.
Definition valueToString_UInt (value : Z) : option (list Z) := uintToString value.
Definition valueToString_bool (value : bool) : list Z := if value then true_str else false_str.

(** [valueToString(double)]: the text of ["%#.16g"] with its trailing zeros cut
    down to one. [strip_zeros] walks back over zeros but not past the first
    character; [before_digits] walks back over digits. Both work on the reversed
    text. *)
Fixpoint strip_zeros (rev : bytes) : list Z :=
  match rev with
  | 48 :: ((_ :: _) as rest) => strip_zeros rest
  | _ => rev
  end.
Fixpoint before_digits (rev : bytes) : list Z :=
  match rev with
  | c :: rest => if (48 <=? c) && (c <=? 57) then before_digits rest else rev
  | [] => []
  end.
Definition cut_zeros (buffer : bytes) : list Z :=
  match rev buffer with
  | 48 :: _ =>
      let kept := strip_zeros (rev buffer) in
      match before_digits kept with
      | 46 :: _ => take (length kept + 1) buffer
      | _ => buffer
      end
  | _ => buffer
  end.
Definition valueToString_double {D} `{Double D} (value : D) : list Z := cut_zeros (print_g16 value).

(** ** Strings *)
Definition isControlCharacter (ch : Z) : bool := (0 <? i8 ch) && (i8 ch <=? 31).
Definition containsControlCharacter (s : bytes) : bool := existsb isControlCharacter s.

(** The characters that have a short escape. *)
Definition special (c : Z) : bool :=
  (c =? 34) || (c =? 92) || (c =? 8) || (c =? 12) || (c =? 10) || (c =? 13) || (c =? 9).

(** An upper-case hexadecimal digit. *)
Definition hex_upper (d : Z) : Z := if d <? 10 then 48 + d else 55 + d.

Definition escape (c : Z) : list Z :=
  if c =? 34 then [92; 34]
  else if c =? 92 then [92; 92]
  else if c =? 8 then [92; 98]
  else if c =? 12 then [92; 102]
  else if c =? 10 then [92; 110]
  else if c =? 13 then [92; 114]
  else if c =? 9 then [92; 116]
  else if isControlCharacter c then [92; 117; 48; 48; hex_upper (c / 16); hex_upper (c mod 16)]
  else [c].

(** [valueToQuotedString], with its short way for strings that need no escape. *)
Definition valueToQuotedString (value : bytes) : list Z :=
  if negb (existsb special value) && negb (containsControlCharacter value) then [34] ++ value ++ [34]
  else [34] ++ concat (escape <$> value) ++ [34].

(** [valueToQuotedStringSimple] has the same body. *)
Definition valueToQuotedStringSimple (value : bytes) : list Z :=
  if negb (existsb special value) && negb (containsControlCharacter value) then [34] ++ value ++ [34]
  else [34] ++ concat (escape <$> value) ++ [34].

(** ** [FastWriter] *)
Definition null_str : list Z := [110; 117; 108; 108].

(** Texts with commas between them. *)
Fixpoint join (l : list (list Z)) : list Z :=
  match l with
  | [] => []
  | [x] => x
  | x :: l => x ++ [44] ++ join l
  end.

Section Writer.
Context {D : Type} `{Double D}.
Local Abbreviation Value := (JsonValue.Value D) (only parsing).

(** The nesting depth. *)
Fixpoint depth (v : Value) : nat :=
  let fix deepest (m : list (CZString * JsonValue.Value D)) : nat :=
    match m with [] => 0%nat | (_, x) :: m => Nat.max (depth x) (deepest m) end in
  match v with
  | arrayValue m | objectValue m => S (deepest m)
  | _ => 1%nat
  end.

Definition ok_or_none {A} (r : res A) : option A := match r with Ok a => Some a | _ => None end.

(** [writeValue]: the text it appends to [document_]. *)
Fixpoint writeValue (fuel : nat) (yaml : bool) (value : Value) : option (list Z) :=
  match fuel with
  | O => None
  | S fuel =>
      match value with
      | nullValue => Some null_str
      | intValue _ => z ← ok_or_none (asInt value); valueToString_Int z
      | uintValue _ => z ← ok_or_none (asUInt value); valueToString_UInt z
      | realValue d => Some (valueToString_double d)
      | stringValue _ => s ← ok_or_none (asCString value); s ← s; Some (valueToQuotedString s)
      | booleanValue b => Some (valueToString_bool b)
      | arrayValue _ =>
          texts ← mapM (fun i => x ← ok_or_none (index_get i value); writeValue fuel yaml x)
                    (seqZ 0 (i32 (size value)));
          Some ([91] ++ join texts ++ [93])
      | objectValue _ =>
          members ← ok_or_none (getMemberNames value);
          texts ← mapM (fun name =>
                    x ← ok_or_none (member_get name value);
                    t ← writeValue fuel yaml x;
                    Some (valueToQuotedString (cstr name) ++ (if yaml then [58; 32] else [58]) ++ t)) members;
          Some ([123] ++ join texts ++ [125])
      end
  end.

(** [FastWriter::writeValueSimple] has the same body too. *)
Definition FastWriter_writeValueSimple (fuel : nat) (yaml : bool) (value : Value) : option (list Z) :=
  writeValue fuel yaml value.

(** [FastWriter::write]. *)
Definition write (yaml : bool) (root : Value) : option (list Z) :=
  t ← writeValue (depth root) yaml root; Some (t ++ [10]).
End Writer.

(** * Lemmas *)

(** ** Locations *)
Lemma between_app (s rest : bytes) : between (s ++ rest) rest = s.
Proof. unfold between. rewrite length_app. apply take_app_length'. lia. Qed.

Lemma readNumber_app s rest :
  Forall (fun c => number_char c = true) s -> number_char (deref rest) = false -> readNumber (s ++ rest) = rest.
Proof.
  intros Hs Hr. induction Hs as [|c s Hc Hs IH]; cbn [app readNumber].
  - destruct rest as [|c rest]; [done|]. cbn in *. by rewrite Hr.
  - by rewrite Hc.
Qed.

(** ** Decimal numbers *)
Definition is_digit (c : Z) : Prop := 48 <= c <= 57.

Lemma digit_number_char c : is_digit c -> number_char c = true.
Proof. unfold is_digit, number_char. intros Hc. replace ((48 <=? c) && (c <=? 57)) with true by lia. done. Qed.

Lemma digits_loop_step thr v c rest :
  is_digit c -> v < thr -> digits_loop thr (c :: rest) v = digits_loop thr rest (u32 (v * 10 + (c - 48))).
Proof.
  unfold is_digit. intros Hc Hv. cbn. replace ((c <? 48) || (57 <? c)) with false by lia.
  by replace (thr <=? v) with false by lia.
Qed.

(** What [uint_loop] writes is read back by [digits_loop], as long as the number
    without its last digit is below the threshold. *)
Lemma uint_loop_spec room v acc :
  (0 < room)%nat -> 0 <= v < 10 ^ Z.of_nat room -> v < 2 ^ 32 ->
  exists ds, uint_loop room v acc = Some (ds ++ acc) /\ Forall is_digit ds /\ ds <> [] /\ (length ds <= room)%nat /\
    (forall thr rest, 0 < thr -> v / 10 < thr -> digits_loop thr (ds ++ rest) 0 = digits_loop thr rest v).
Proof.
  revert v acc. induction room as [|room IH]; intros v acc Hr Hv Hw; [lia|]. cbn [uint_loop].
  pose proof (Z.mod_pos_bound v 10 ltac:(lia)) as Hm. pose proof (Z.div_mod v 10 ltac:(lia)) as Hdm.
  assert (Hd : is_digit (v mod 10 + 48)) by (unfold is_digit; lia).
  destruct (Z.eqb_spec (v / 10) 0) as [E|E].
  - exists [v mod 10 + 48]. split_and!; [done|by apply Forall_singleton|done|cbn; lia|].
    intros thr rest Ht Hlt. cbn [app]. rewrite digits_loop_step by (done || lia).
    rewrite uwrap_id by (unfold in_u; lia). f_equal. lia.
  - rewrite Nat2Z.inj_succ, Z.pow_succ_r in Hv by lia.
    assert (Hroom : (0 < room)%nat).
    { destruct room; [|lia]. change (10 * 10 ^ Z.of_nat 0) with 10 in Hv. rewrite Z.div_small in E; lia. }
    destruct (IH (v / 10) ((v mod 10 + 48) :: acc)) as (ds & E1 & H1 & H2 & H3 & H4); [done|lia|lia|].
    exists (ds ++ [v mod 10 + 48]). split_and!.
    + by rewrite E1, <- app_assoc.
    + apply Forall_app. split; [done|by apply Forall_singleton].
    + by destruct ds.
    + rewrite length_app. cbn. lia.
    + intros thr rest Ht Hlt. rewrite <- app_assoc. cbn [app]. rewrite H4 by div_lia.
      rewrite digits_loop_step by (done || lia). rewrite uwrap_id by (unfold in_u; lia). f_equal. lia.
Qed.

Lemma uint_loop_mono n n' v acc s : uint_loop n v acc = Some s -> (n <= n')%nat -> uint_loop n' v acc = Some s.
Proof.
  revert n' v acc. induction n as [|n IH]; intros [|n'] v acc E Hn; try done; try lia.
  cbn in *. case_match; [done|]. apply IH; [done|lia].
Qed.

(** Neither conversion of integers leaves its buffer. *)
Lemma uintToString_spec v :
  in_u 32 v -> exists ds, uintToString v = Some ds /\ Forall is_digit ds /\ ds <> [] /\ (length ds <= 10)%nat /\
    (forall thr, 0 < thr -> v / 10 < thr -> digits_loop thr ds 0 = Digits v).
Proof.
  intros Hv. unfold in_u in Hv.
  destruct (uint_loop_spec 10 v []) as (ds & E & H1 & H2 & H3 & H4);
    [lia|change (10 ^ Z.of_nat 10) with 10000000000; lia|lia|].
  rewrite app_nil_r in E. exists ds. split_and!; [|done|done|done|].
  - eapply uint_loop_mono; [exact E|lia].
  - intros thr Ht Hlt. specialize (H4 thr [] Ht Hlt). by rewrite app_nil_r in H4.
Qed.

(** ** Strings *)
Lemma quoted_escape s : text_ok s -> valueToQuotedString s = [34] ++ concat (escape <$> s) ++ [34].
Proof.
  intros Hs. unfold valueToQuotedString. destruct (negb _ && negb _) eqn:E; [|done].
  apply andb_true_iff in E as [E1%negb_true_iff E2%negb_true_iff]. f_equal. f_equal.
  induction Hs as [|c s Hc Hs IH]; [done|]. cbn in E1, E2.
  apply orb_false_iff in E1 as [Ec1 E1], E2 as [Ec2 E2]. specialize (IH E1 E2).
  cbn [fmap list_fmap concat]. rewrite <- IH. unfold special in Ec1.
  repeat (apply orb_false_iff in Ec1 as [Ec1 ?]). unfold escape.
  repeat match goal with H : (_ =? _) = false |- _ => rewrite H; clear H end. by rewrite Ec2.
Qed.

Lemma control_spec c : 0 < c < 256 -> isControlCharacter c = (c <? 32).
Proof.
  intros H. pose proof (byte_forall (fun c => implb (0 <? c) (Bool.eqb (isControlCharacter c) (c <? 32)))
    ltac:(vm_compute; reflexivity) c ltac:(unfold byte_ok, in_u; lia)) as E. cbn beta in E.
  replace (0 <? c) with true in E by lia. by apply eqb_prop in E.
Qed.

(** The six ways a character is written. *)
Definition control_check (c : Z) : bool :=
  match hex_digit (hex_upper (c / 16)), hex_digit (hex_upper (c mod 16)) with
  | Some a, Some b =>
      (a =? c / 16) && (b =? c mod 16) && negb (hex_upper (c / 16) =? 34) && negb (hex_upper (c / 16) =? 92) &&
      negb (hex_upper (c mod 16) =? 34) && negb (hex_upper (c mod 16) =? 92)
  | _, _ => false
  end.
Lemma control_check_all c : byte_ok c -> control_check c = true.
Proof. apply byte_forall. vm_compute. reflexivity. Qed.

Inductive escape_case (c : Z) : list Z -> Prop :=
| EPlain : c <> 34 -> c <> 92 -> escape_case c [c]
| EShort x : escape_char x = Some c -> escape_case c [92; x]
| EControl h l : 0 < c < 32 -> hex_digit h = Some (c / 16) -> hex_digit l = Some (c mod 16) ->
    h <> 34 -> h <> 92 -> l <> 34 -> l <> 92 -> escape_case c [92; 117; 48; 48; h; l].

Lemma escape_cases c : 0 < c < 256 -> escape_case c (escape c).
Proof.
  intros Hc. unfold escape.
  repeat match goal with
         | |- context [if c =? ?k then _ else _] =>
             destruct (Z.eqb_spec c k) as [E|]; [clear Hc; subst c; by apply EShort|]
         end.
  rewrite control_spec by done. destruct (Z.ltb_spec c 32); [|by apply EPlain].
  pose proof (control_check_all c ltac:(unfold byte_ok, in_u; lia)) as Hk. unfold control_check in Hk.
  destruct (hex_digit _) as [a|] eqn:Ea; [|done]. destruct (hex_digit (hex_upper (c mod 16))) as [b|] eqn:Eb; [|done].
  repeat (apply andb_true_iff in Hk as [Hk ?]). rewrite negb_true_iff, Z.eqb_neq in *. rewrite Z.eqb_eq in *. subst.
  apply EControl; try done. lia.
Qed.

Definition escaped (s : bytes) : list Z := concat (escape <$> s).

Lemma escaped_cons c s : escaped (c :: s) = escape c ++ escaped s.
Proof. done. Qed.

(** [readString] finds the closing quote. *)
Lemma readString_plain last c rest : c <> 34 -> c <> 92 -> readString last (c :: rest) = readString c rest.
Proof. intros H1 H2. cbn. by destruct (Z.eqb_spec c 92), (Z.eqb_spec c 34). Qed.

Lemma readString_escaped s last rest : text_ok s -> readString last (escaped s ++ 34 :: rest) = (true, rest).
Proof.
  intros Hs. revert last. induction Hs as [|c s Hc Hs IH]; intros last; [done|].
  rewrite escaped_cons, <- app_assoc. destruct (escape_cases c Hc); cbn [app].
  - by rewrite readString_plain.
  - change (readString last (92 :: x :: escaped s ++ 34 :: rest)) with (readString 92 (escaped s ++ 34 :: rest)). apply IH.
  - change (readString last (92 :: 117 :: 48 :: 48 :: h :: l :: escaped s ++ 34 :: rest))
      with (readString 48 (h :: l :: escaped s ++ 34 :: rest)).
    by rewrite !readString_plain.
Qed.

(** [decodeString] gives the text back. *)
Lemma codePoint_low c : 0 < c < 32 -> codePointToUTF8 c = [c].
Proof.
  intros Hc. unfold codePointToUTF8. replace (c <=? 127) with true by lia.
  by rewrite uwrap_id by (unfold in_u; lia).
Qed.

Lemma decode_control c h l n t rest r :
  0 < c < 32 -> hex_digit h = Some (c / 16) -> hex_digit l = Some (c mod 16) ->
  decodeUnicodeCodePoint t (S (S (S (S n)))) (48 :: 48 :: h :: l :: rest) r = (Some c, n, rest, r).
Proof.
  intros Hc Hh Hl. unfold decodeUnicodeCodePoint, decodeUnicodeEscapeSequence. cbn [Nat.ltb Nat.leb].
  cbn [hex_loop deref tail]. change (hex_digit 48) with (Some 0). cbn iota beta. rewrite Hh. cbn iota beta. rewrite Hl.
  cbn iota beta. change (u32 (u32 (u32 (u32 (0 * 16) + 0) * 16) + 0)) with 0. cbn [Z.mul].
  pose proof (Z.div_mod c 16 ltac:(lia)). pose proof (Z.mod_pos_bound c 16 ltac:(lia)).
  change (uwrap 32 0) with 0. rewrite Z.add_0_l.
  rewrite (uwrap_id 32 (c / 16)) by (unfold in_u; lia). rewrite (uwrap_id 32 (c / 16 * 16)) by (unfold in_u; lia).
  rewrite (uwrap_id 32 (_ + _)) by (unfold in_u; lia). replace (c / 16 * 16 + c mod 16) with c by lia.
  replace (55296 <=? c) with false by lia. cbn [andb]. do 3 f_equal. lia.
Qed.

Lemma decode_loop_escaped s fuel n d t rest r :
  text_ok s -> n = length (escaped s) -> (n <= fuel)%nat ->
  decode_loop fuel n t (escaped s ++ rest) d r = (Some (d ++ s), r).
Proof.
  intros Hs. revert fuel n d. induction Hs as [|c s Hc Hs IH]; intros fuel n d Hn Hf.
  - cbn in Hn. subst n. rewrite app_nil_r. by destruct fuel.
  - rewrite escaped_cons, length_app in Hn. rewrite escaped_cons, <- app_assoc.
    replace (d ++ c :: s) with ((d ++ [c]) ++ s) by (by rewrite <- app_assoc).
    destruct (escape_cases c Hc) as [H1 H2|x Hx|h l Hcc Hh Hl H1 H2 H3 H4]; cbn [length app] in *.
    + destruct n as [|n]; [lia|]. destruct fuel as [|fuel]; [lia|]. cbn [decode_loop deref tail].
      destruct (Z.eqb_spec c 34); [done|]. destruct (Z.eqb_spec c 92); [done|]. apply IH; lia.
    + destruct n as [|[|n]]; [lia|lia|]. destruct fuel as [|fuel]; [lia|]. cbn [decode_loop deref tail].
      change (92 =? 34) with false. change (92 =? 92) with true. cbn iota. rewrite Hx. apply IH; lia.
    + destruct n as [|[|[|[|[|[|n]]]]]]; try lia. destruct fuel as [|fuel]; [lia|]. cbn [decode_loop deref tail].
      change (92 =? 34) with false. change (92 =? 92) with true. change (117 =? 117) with true. cbn iota.
      change (escape_char 117) with (@None Z). cbn iota. rewrite (decode_control c) by done.
      rewrite codePoint_low by done. apply IH; lia.
Qed.

Lemma decodeString_quoted s rest r :
  text_ok s ->
  decodeString_into (mkToken tokenString (34 :: escaped s ++ 34 :: rest) rest) r = (Some s, r).
Proof.
  intros Hs. unfold decodeString_into. cbn [start_ end_ tail].
  apply (decode_loop_escaped s _ _ [] _ (34 :: rest)); [done| |done].
  cbn [length]. rewrite length_app. cbn [length]. lia.
Qed.

(** ** Single tokens *)

(** What reading keeps. *)
Definition quiet (r r' : Reader) : Prop :=
  features_ r' = features_ r /\ collectComments_ r' = collectComments_ r /\ begin_ r' = begin_ r /\
  commentsBefore_ r' = commentsBefore_ r /\ errors_ r' = errors_ r /\ comments_ r' = comments_ r /\
  overrun_ r' = overrun_ r.

#[global] Instance quiet_refl : Reflexive quiet.
Proof. done. Qed.
#[global] Instance quiet_trans : Transitive quiet.
Proof. intros r1 r2 r3 (?&?&?&?&?&?&?) (?&?&?&?&?&?&?). repeat split; congruence. Qed.

Lemma quiet_current c r : quiet r (set_current c r).
Proof. done. Qed.
Lemma quiet_finish p r : quiet r (if collectComments_ r then set_lastValue (current_ r) p r else r).
Proof. by case_match. Qed.

(** The token that a state at [c] starts with. *)
Lemma skip_comments_none fuel t r : type_ t <> tokenComment -> skip_comments fuel t r = Some (t, r).
Proof. intros Ht. destruct fuel; cbn; by rewrite bool_decide_eq_false_2. Qed.

Lemma skipCommentTokens_none t r r' :
  readToken r = (t, r') -> type_ t <> tokenComment -> skipCommentTokens r = Some (t, r').
Proof. intros E Ht. unfold skipCommentTokens. rewrite E. case_match; [by apply skip_comments_none|done]. Qed.

Lemma take_comments_none p r : commentsBefore_ r = [] -> take_comments p r = r.
Proof. intros E. unfold take_comments. by rewrite E. Qed.

(** Punctuation. *)
Definition punctuation (c : Z) : option TokenType :=
  if c =? 123 then Some tokenObjectBegin else if c =? 125 then Some tokenObjectEnd
  else if c =? 91 then Some tokenArrayBegin else if c =? 93 then Some tokenArrayEnd
  else if c =? 44 then Some tokenArraySeparator else if c =? 58 then Some tokenMemberSeparator else None.

Lemma token_punctuation c k rest r :
  punctuation c = Some k -> skipSpaces (current_ r) = c :: rest ->
  readToken r = (mkToken k (c :: rest) rest, set_current rest r).
Proof.
  intros Hp E. unfold readToken. rewrite E. unfold punctuation in Hp.
  repeat match type of Hp with
         | (if c =? ?n then _ else _) = _ =>
             destruct (Z.eqb_spec c n) as [Ec|]; [injection Hp as <-; clear - Ec E; subst c; reflexivity|]
         end. done.
Qed.

Lemma token_string s rest r :
  text_ok s -> skipSpaces (current_ r) = [34] ++ (escaped s ++ [34]) ++ rest ->
  readToken r = (mkToken tokenString (34 :: escaped s ++ 34 :: rest) rest, set_current rest r).
Proof.
  intros Hs E. rewrite <- app_assoc in E. cbn [app] in E. unfold readToken. rewrite E. cbn [deref tail].
  by rewrite readString_escaped.
Qed.

Lemma token_number s rest r c s' :
  s = c :: s' -> is_digit c \/ c = 45 -> Forall (fun c => number_char c = true) s -> number_char (deref rest) = false ->
  skipSpaces (current_ r) = s ++ rest ->
  readToken r = (mkToken tokenNumber (s ++ rest) rest, set_current rest r).
Proof.
  intros -> Hc Hs Hr E. unfold is_digit in Hc. apply Forall_cons in Hs as [_ Hs]. unfold readToken. rewrite E.
  cbn [deref tail app]. rewrite (readNumber_app s' rest Hs Hr).
  repeat match goal with |- context [if c =? ?k then _ else _] => destruct (Z.eqb_spec c k); [lia|] end.
  replace (((48 <=? c) && (c <=? 57)) || (c =? 45)) with true by lia. done.
Qed.

(** ** Values *)
Section RoundTrip.
Context {D : Type} `{Double D}.
Local Abbreviation Value := (JsonValue.Value D) (only parsing).

(** A double that is written as a text of fewer than 32 characters, with a dot or
    an exponent, that scans back to it. *)
Definition real_ok (d : D) : Prop :=
  let t := valueToString_double d in
  match t with [] => False | c :: _ => is_digit c \/ c = 45 end /\
  Forall (fun c => number_char c = true) t /\ isDouble_text t = true /\ zlen t < 32 /\ scan_lf t = Some d.

(** The values that are read back as they were: integers outside of the range
    where the reader falls back to doubles, strings without zero bytes, arrays
    without holes. *)
Fixpoint json_ok (v : Value) : Prop :=
  let fix all (m : list (CZString * JsonValue.Value D)) : Prop :=
    match m with [] => True | (_, x) :: m => json_ok x /\ all m end in
  match v with
  | nullValue | booleanValue _ => True
  | intValue z => -2147483640 < z <= maxInt
  | uintValue z => maxInt < z < 4294967290
  | realValue d => real_ok d
  | stringValue s => match s with Some s => text_ok s | None => False end
  | arrayValue m => m = dense 0 m.*2 /\ zlen m < 2 ^ 31 - 1 /\ all m
  | objectValue m => keys_ok m /\ Forall name_key m.*1 /\ all m
  end.

Lemma json_all_Forall (m : list (CZString * Value)) :
  (fix all (m : list (CZString * JsonValue.Value D)) : Prop :=
     match m with [] => True | (_, x) :: m => json_ok x /\ all m end) m <-> Forall json_ok m.*2.
Proof.
  induction m as [|[k x] m IH]; cbn; [split; [constructor|done]|]. rewrite IH. by rewrite Forall_cons.
Qed.

Definition starts (t : bytes) : Prop :=
  match t with [] => False | c :: _ => skipSpaces t = t /\ c <> 93 /\ c < 128 end.

Lemma skipSpaces_starts t rest : starts t -> skipSpaces (t ++ rest) = t ++ rest.
Proof.
  destruct t as [|c t]; [done|]. cbn. destruct ((c =? 32) || (c =? 9) || (c =? 13) || (c =? 10)); [|done].
  intros [E _]. pose proof (skipSpaces_length t) as Hl. rewrite E in Hl. cbn in Hl. lia.
Qed.

(** Reading at the text [t] gives the value [v] and stops behind it. *)
Definition reads (v : Value) (t : bytes) : Prop :=
  forall rest p old r fuel,
    skipSpaces (current_ r) = t ++ rest -> number_char (deref rest) = false -> commentsBefore_ r = [] ->
    (2 * length (current_ r) + 1 <= fuel)%nat ->
    exists r', readValue fuel p old r = Some (true, v, r') /\ current_ r' = rest /\ quiet r r'.

(** The tokens that are values by themselves. *)
Definition scalar (t : Token) (old : Value) (r : Reader) : option (bool * Value * Reader) :=
  match type_ t with
  | tokenNumber => Some (decodeNumber t old r)
  | tokenString => Some (decodeString t old r)
  | tokenTrue => Some (true, booleanValue true, r)
  | tokenFalse => Some (true, booleanValue false, r)
  | tokenNull => Some (true, nullValue, r)
  | _ => None
  end.

Lemma reads_scalar v t :
  (forall rest r, skipSpaces (current_ r) = t ++ rest -> number_char (deref rest) = false ->
     exists tok, readToken r = (tok, set_current rest r) /\
       (forall old, scalar tok old (set_current rest r) = Some (true, v, set_current rest r))) ->
  reads v t.
Proof.
  intros Ht rest p old r fuel E Hr Hc Hf. destruct (Ht rest r E Hr) as (tok & Et & Hv). specialize (Hv old).
  destruct fuel as [|fuel]; [lia|].
  exists (if collectComments_ r then set_lastValue rest p (set_current rest r) else set_current rest r).
  change (readValue (S fuel)) with (readValue_body (D := D) (readObject fuel) (readArray fuel)).
  unfold readValue_body. rewrite (skipCommentTokens_none _ _ _ Et) by (intros E1; unfold scalar in Hv; by rewrite E1 in Hv).
  cbn [mbind option_bind]. rewrite take_comments_none by done. unfold scalar in Hv.
  split; [|split; [by destruct (collectComments_ r)|by destruct (collectComments_ r)]].
  destruct (type_ tok); try done; rewrite Hv; reflexivity.
Qed.

Lemma reads_number z t :
  (exists c s, t = c :: s /\ (is_digit c \/ c = 45)) -> Forall (fun c => number_char c = true) t ->
  (forall rest old r, decodeNumber (D := D) (mkToken tokenNumber (t ++ rest) rest) old r = (true, z, r)) ->
  reads z t.
Proof.
  intros (c & s & -> & Hc) Ht Hd. apply reads_scalar. intros rest r E Hr.
  eexists. split; [by apply (token_number (c :: s) rest r c s)|]. intros old. cbn [scalar type_]. by rewrite Hd.
Qed.

Lemma isDouble_digits ds : Forall is_digit ds -> isDouble_text ds = false.
Proof.
  assert (Hex : forall ds, Forall is_digit ds ->
    existsb (fun c => (c =? 46) || (c =? 101) || (c =? 69) || (c =? 43) || (c =? 45)) ds = false).
  { induction 1 as [|c l Hc Hl IH]; cbn; [done|]. rewrite IH. unfold is_digit in Hc. lia. }
  intros [|c l Hc Hl]; cbn; [done|]. rewrite (Hex l Hl). unfold is_digit in Hc. lia.
Qed.
Lemma isDouble_minus ds : Forall is_digit ds -> isDouble_text (45 :: ds) = false.
Proof.
  intros Hd. cbn. induction Hd as [|c l Hc Hl IH]; cbn; [done|]. rewrite IH. unfold is_digit in Hc. lia.
Qed.

Lemma digits_starts ds : Forall is_digit ds -> ds <> [] -> exists c s, ds = c :: s /\ is_digit c.
Proof. intros [|c s Hc Hs]; [done|]. eauto. Qed.

(** Integers. *)
Definition number_text (t : bytes) : Prop :=
  (exists c s, t = c :: s /\ (is_digit c \/ c = 45)) /\ Forall (fun c => number_char c = true) t.

Lemma digits_text ds : Forall is_digit ds -> ds <> [] -> number_text ds.
Proof.
  intros Hd Hne. destruct (digits_starts ds Hd Hne) as (c & s & Ec & Hc). split; [eauto|].
  eapply Forall_impl; [exact Hd|]. apply digit_number_char.
Qed.

Lemma reads_int z : -2147483640 < z <= maxInt ->
  exists t, valueToString_Int z = Some t /\ reads (intValue z) t /\ starts t /\ number_text t.
Proof.
  unfold maxInt. intros Hz. unfold valueToString_Int. destruct (Z.ltb_spec z 0) as [Hneg|Hpos].
  - rewrite (swrap_id 32 (- z)) by (unfold in_s; lia). rewrite (uwrap_id 32 (- z)) by (unfold in_u; lia).
    destruct (uintToString_spec (- z)) as (ds & -> & Hd & Hne & Hlen & Hread); [unfold in_u; lia|].
    cbn [mbind option_bind]. replace (length ds <? 31)%nat with true by (symmetry; apply Nat.ltb_lt; lia).
    assert (Hnt : number_text (45 :: ds)).
    { split; [by eauto|]. constructor; [done|]. eapply Forall_impl; [exact Hd|]. apply digit_number_char. }
    exists (45 :: ds). split; [done|]. split; [|done]. destruct Hnt. apply reads_number; [done..|].
    intros rest old r. unfold decodeNumber, token_text. cbn [start_ end_]. rewrite between_app, isDouble_minus by done.
    cbn [deref tail]. change (45 =? 45) with true. cbn iota. change (u32 (- minInt) / 10) with 214748364.
    rewrite Hread by div_lia. rewrite (swrap_id 32 (- z)) by (unfold in_s; lia).
    rewrite Z.opp_involutive. rewrite swrap_id by (unfold in_s; lia). done.
  - rewrite uwrap_id by (unfold in_u; lia).
    destruct (uintToString_spec z) as (ds & -> & Hd & Hne & Hlen & Hread); [unfold in_u; lia|].
    cbn [mbind option_bind]. exists ds. split; [done|]. pose proof (digits_text ds Hd Hne) as Hnt.
    destruct (digits_starts ds Hd Hne) as (c & s & Ec & Hc). unfold is_digit in Hc. split_and!; [| |done..].
    + destruct Hnt. apply reads_number; [done..|].
      intros rest old r. unfold decodeNumber, token_text. cbn [start_ end_]. rewrite between_app, isDouble_digits by done.
      replace (deref ds =? 45) with false by (rewrite Ec; cbn; lia). change (maxUInt / 10) with 429496729.
      rewrite Hread by div_lia. unfold maxInt. replace (z <=? 2 ^ 31 - 1) with true by lia.
      rewrite swrap_id by (unfold in_s; lia). done.
    + rewrite Ec. cbn. replace ((c =? 32) || (c =? 9) || (c =? 13) || (c =? 10)) with false by lia. split_and!; [done|lia|lia].
Qed.

Lemma reads_uint z : maxInt < z < 4294967290 ->
  exists t, valueToString_UInt z = Some t /\ reads (uintValue z) t /\ starts t /\ number_text t.
Proof.
  unfold maxInt. intros Hz. unfold valueToString_UInt.
  destruct (uintToString_spec z) as (ds & -> & Hd & Hne & Hlen & Hread); [unfold in_u; lia|].
  exists ds. split; [done|]. destruct (digits_starts ds Hd Hne) as (c & s & Ec & Hc). unfold is_digit in Hc.
  split_and!; [| |by apply digits_text..].
  - apply reads_number; [exists c, s; split; [done|left; done]| |].
    + eapply Forall_impl; [exact Hd|]. apply digit_number_char.
    + intros rest old r. unfold decodeNumber, token_text. cbn [start_ end_]. rewrite between_app, isDouble_digits by done.
      replace (deref ds =? 45) with false by (rewrite Ec; cbn; lia). change (maxUInt / 10) with 429496729.
      rewrite Hread by div_lia. unfold maxInt. by replace (z <=? 2 ^ 31 - 1) with false by lia.
  - rewrite Ec. cbn. replace ((c =? 32) || (c =? 9) || (c =? 13) || (c =? 10)) with false by lia. split_and!; [done|lia|lia].
Qed.

Lemma reads_real d : real_ok d -> reads (realValue d) (valueToString_double d) /\ starts (valueToString_double d).
Proof.
  intros (H1 & H2 & H3 & H4 & H5). set (t := valueToString_double d) in *. split.
  - apply reads_number; [destruct t; [done|eauto]|done|]. intros rest old r. unfold decodeNumber, token_text.
    cbn [start_ end_]. rewrite between_app, H3. unfold decodeDouble, token_text. cbn [start_ end_].
    rewrite between_app, H5. by replace (zlen t =? 32) with false by lia.
  - destruct t as [|c t]; [done|]. unfold is_digit in H1. cbn.
    replace ((c =? 32) || (c =? 9) || (c =? 13) || (c =? 10)) with false by lia. split_and!; [done|lia|lia].
Qed.

Lemma reads_string s : text_ok s -> reads (stringValue (Some s)) (valueToQuotedString s) /\ starts (valueToQuotedString s).
Proof.
  intros Hs. rewrite quoted_escape by done. split; [|done]. apply reads_scalar. intros rest r E Hr.
  rewrite <- app_assoc in E. eexists. split; [by apply token_string|]. intros old. cbn [scalar type_].
  unfold decodeString. rewrite decodeString_quoted by done. unfold Value_string. by rewrite text_ok_cstr.
Qed.

(** The three words. *)
Lemma reads_word v t c s :
  t = c :: s ->
  (forall rest, match_ s (s ++ rest) = (true, rest)) ->
  (forall rest r, skipSpaces (current_ r) = t ++ rest ->
     exists k, readToken r = (mkToken k (t ++ rest) (match_ s (s ++ rest)).2, set_current (match_ s (s ++ rest)).2 r) /\
       forall b e old r, scalar (mkToken k b e) old r = Some (true, v, r)) ->
  reads v t.
Proof.
  intros -> Hm Ht. apply reads_scalar. intros rest r E Hr. destruct (Ht rest r E) as (k & Et & Hv).
  rewrite Hm in Et. eauto.
Qed.

Lemma match_app s rest : match_ s (s ++ rest) = (true, rest).
Proof.
  unfold match_. rewrite length_app. replace (_ <? _)%nat with false by (symmetry; apply Nat.ltb_ge; lia).
  rewrite take_app_length, bool_decide_eq_true_2 by done. by rewrite drop_app_length.
Qed.

Lemma reads_null : reads nullValue null_str.
Proof.
  apply (reads_word _ _ 110 [117; 108; 108]); [done|apply match_app|]. intros rest r E. exists tokenNull. split; [|done].
  unfold readToken. rewrite E. cbn [null_str app deref tail]. change ([117; 108; 108] ++ rest) with (117 :: 108 :: 108 :: rest).
  by rewrite (match_app [117; 108; 108] rest : match_ _ (117 :: 108 :: 108 :: rest) = _).
Qed.
Lemma reads_bool b : reads (booleanValue b) (valueToString_bool b).
Proof.
  destruct b.
  - apply (reads_word _ _ 116 [114; 117; 101]); [done|apply match_app|]. intros rest r E. exists tokenTrue. split; [|done].
    unfold readToken. rewrite E. cbn [valueToString_bool true_str app deref tail].
    by rewrite (match_app [114; 117; 101] rest : match_ _ (114 :: 117 :: 101 :: rest) = _).
  - apply (reads_word _ _ 102 [97; 108; 115; 101]); [done|apply match_app|]. intros rest r E. exists tokenFalse. split; [|done].
    unfold readToken. rewrite E. cbn [valueToString_bool false_str app deref tail].
    by rewrite (match_app [97; 108; 115; 101] rest : match_ _ (97 :: 108 :: 115 :: 101 :: rest) = _).
Qed.

(** ** Blanks *)
Definition blanks (b : bytes) : Prop := Forall (fun c => c = 32 \/ c = 9 \/ c = 13 \/ c = 10) b.

Lemma skipSpaces_blanks b t : blanks b -> skipSpaces (b ++ t) = skipSpaces t.
Proof.
  induction 1 as [|c b Hc Hb IH]; [done|]. cbn.
  replace ((c =? 32) || (c =? 9) || (c =? 13) || (c =? 10)) with true by lia. done.
Qed.

Lemma skipSpaces_idem c : skipSpaces (skipSpaces c) = skipSpaces c.
Proof. induction c as [|x c IH]; [done|]. cbn. destruct (_ || _) eqn:E; [done|]. cbn. by rewrite E. Qed.

Lemma skipSpaces_text b t rest : blanks b -> starts t -> skipSpaces (b ++ t ++ rest) = t ++ rest.
Proof. intros Hb Ht. rewrite skipSpaces_blanks by done. by apply skipSpaces_starts. Qed.

Lemma skipSpaces_punctuation b c k rest : blanks b -> punctuation c = Some k -> skipSpaces (b ++ c :: rest) = c :: rest.
Proof.
  intros Hb Hc. rewrite skipSpaces_blanks by done. unfold punctuation in Hc. cbn.
  replace ((c =? 32) || (c =? 9) || (c =? 13) || (c =? 10)) with false; [done|].
  repeat (case_match; [lia|]). done.
Qed.

Lemma blanks_delim b rest : blanks b -> number_char (deref rest) = false -> number_char (deref (b ++ rest)) = false.
Proof. intros [|c b' Hc Hb] Hr; [done|]. cbn. destruct Hc as [->|[->|[->| ->]]]; done. Qed.

Lemma blanks_nil : blanks [].
Proof. constructor. Qed.
Lemma blanks_app a b : blanks a -> blanks b -> blanks (a ++ b).
Proof. apply Forall_app_2. Qed.
Lemma blanks_single c : c = 32 \/ c = 9 \/ c = 13 \/ c = 10 -> blanks [c].
Proof. intros Hc. by apply Forall_singleton. Qed.
Lemma starts_length t : starts t -> (0 < length t)%nat.
Proof. destruct t; [done|]. cbn. lia. Qed.

Lemma skipSpaces_app_length (c t rest : bytes) :
  skipSpaces c = t ++ rest -> (length t + length rest <= length c)%nat.
Proof. intros E. pose proof (skipSpaces_length c) as Hl. rewrite E, length_app in Hl. lia. Qed.

(** ** The bodies of containers *)

(** The text behind an opening bracket: elements with commas between them and
    blanks anywhere, closed by a bracket. *)
Inductive elements : list Value -> list Z -> Prop :=
| elements_last x t b1 b2 : reads x t -> starts t -> blanks b1 -> blanks b2 -> elements [x] (b1 ++ t ++ b2 ++ [93])
| elements_cons x t b1 b2 l body : reads x t -> starts t -> blanks b1 -> blanks b2 -> elements l body ->
    elements (x :: l) (b1 ++ t ++ b2 ++ 44 :: body).

Lemma elements_starts l body rest : elements l body -> (deref (skipSpaces (body ++ rest)) =? 93) = false.
Proof.
  destruct 1 as [x t b1 b2 Hx Ht Hb1 Hb2|x t b1 b2 l body Hx Ht Hb1 Hb2 Hl]; rewrite <- !app_assoc, skipSpaces_text by done;
    (destruct t as [|c t]; [done|]); destruct Ht as (_ & Ht & _); by apply Z.eqb_neq.
Qed.

Lemma array_reads l body : elements l body -> forall front rest p r fuel,
  zlen (front ++ l) < 2 ^ 31 - 1 ->
  skipSpaces (current_ r) = skipSpaces (body ++ rest) -> commentsBefore_ r = [] ->
  (2 * length (current_ r) + 2 <= fuel)%nat ->
  exists r', readArray fuel p (dense 0 front) (zlen front) r = Some (true, arrayValue (dense 0 (front ++ l)), r') /\
    current_ r' = rest /\ quiet r r'.
Proof.
  assert (Hone : forall x t b1 b2 after front p r fuel, reads x t -> starts t -> blanks b1 ->
    zlen front < 2 ^ 31 - 1 -> number_char (deref (b2 ++ after)) = false ->
    skipSpaces (current_ r) = skipSpaces (b1 ++ t ++ b2 ++ after) -> commentsBefore_ r = [] ->
    (2 * length (current_ r) + 1 <= fuel)%nat ->
    (1 + length (b2 ++ after) <= length (current_ r))%nat /\
    exists r1, readValue fuel (p ++ [CZIndex (i32 (zlen front))])
      (default nullValue (map_find (CZIndex (i32 (zlen front))) (dense 0 front))) r = Some (true, x, r1) /\
      current_ r1 = b2 ++ after /\ quiet r r1 /\
      map_set (CZIndex (i32 (zlen front))) x (dense 0 front) = dense 0 (front ++ [x])).
  { intros x t b1 b2 after front p r fuel Hx Ht Hb1 Hlen Hr E Hc Hf. rewrite skipSpaces_text in E by done.
    pose proof (starts_length t Ht). pose proof (skipSpaces_app_length _ _ _ E). split; [lia|].
    destruct (Hx (b2 ++ after) (p ++ [CZIndex (i32 (zlen front))])
      (default nullValue (map_find (CZIndex (i32 (zlen front))) (dense 0 front))) r fuel E Hr Hc Hf) as (r1 & E1 & Ec1 & Q1).
    exists r1. split_and!; [done..|]. pose proof (zlen_nonneg front). rewrite swrap_id by (unfold in_s; lia).
    change (CZIndex (zlen front)) with (CZIndex (0 + zlen front)). apply dense_set_end. }
  induction 1 as [x t b1 b2 Hx Ht Hb1 Hb2|x t b1 b2 l body Hx Ht Hb1 Hb2 Hl IH]; intros front rest p r fuel Hlen E Hc Hf;
    rewrite zlen_app in Hlen; rewrite <- !app_assoc in E; (destruct fuel as [|fuel]; [lia|]);
    change (readArray (S fuel)) with (readArray_body (D := D) (readValue fuel) (readArray fuel)); unfold readArray_body.
  - change (zlen [x]) with 1 in Hlen.
    destruct (Hone x t b1 b2 (93 :: rest) front p r fuel) as (_ & r1 & -> & Ec1 & Q1 & Hset); auto; [lia|by apply blanks_delim|lia|].
    cbn [mbind option_bind negb]. cbv zeta. rewrite Hset.
    rewrite (token_punctuation 93 tokenArrayEnd rest) by (done || (rewrite Ec1; by eapply skipSpaces_punctuation)).
    rewrite skip_comments_none by done. cbn. eexists. split; [done|]. split; [done|]. exact Q1.
  - pose proof (zlen_nonneg l). pose proof (zlen_nonneg front). rewrite zlen_cons in Hlen. cbn [app] in E.
    destruct (Hone x t b1 b2 (44 :: body ++ rest) front p r fuel) as (Hle & r1 & -> & Ec1 & Q1 & Hset); auto;
      [lia|by apply blanks_delim|lia|].
    cbn [mbind option_bind negb]. cbv zeta. rewrite Hset.
    rewrite (token_punctuation 44 tokenArraySeparator (body ++ rest)) by (done || (rewrite Ec1; by eapply skipSpaces_punctuation)).
    rewrite skip_comments_none by done. cbn [mbind option_bind type_].
    rewrite (bool_decide_eq_false_2 (tokenArraySeparator = tokenArrayEnd)) by done. cbn [andb]. rewrite andb_false_r.
    rewrite (swrap_id 32 (zlen front + 1)) by (unfold in_s; zlen_lia).
    assert (Hzf : zlen front + 1 = zlen (front ++ [x])) by zlen_lia. rewrite Hzf.
    destruct (IH (front ++ [x]) rest p (set_current (body ++ rest) r1) fuel) as (r2 & E2 & Ec2 & Q2).
    + rewrite zlen_app, <- Hzf. lia.
    + done.
    + cbn [commentsBefore_ set_current]. destruct Q1 as (_ & _ & _ & -> & _). done.
    + cbn [current_ set_current]. rewrite length_app in Hle. cbn [length] in Hle. lia.
    + exists r2. rewrite E2, <- app_assoc. split; [done|]. split; [done|]. etrans; [exact Q1|exact Q2].
Qed.

Lemma map_set_end k (x : Value) m : Forall (fun q => CZ_compare q.1 k = Lt) m -> map_set k x m = m ++ [(k, x)].
Proof.
  induction 1 as [|[k' y] m Hk Hm IH]; [done|]. cbn in *.
  rewrite (CZ_compare_antisym k' k), Hk. cbn. by rewrite IH.
Qed.

Lemma keys_ok_app_mid (m1 m2 : list (CZString * Value)) k x :
  keys_ok (m1 ++ (k, x) :: m2) -> Forall (fun q => CZ_compare q.1 k = Lt) m1.
Proof.
  induction m1 as [|[k' y] m1 IH]; cbn; [constructor|]. intros [Hb Hk]. constructor; [|auto].
  cbn. rewrite Forall_app, Forall_cons in Hb. destruct Hb as (_ & ? & _). done.
Qed.

(** A member and its text. *)
Definition member_reads (q : CZString * Value) (text : bytes) : Prop :=
  exists n t b1 b2, q.1 = CZName n /\ text_ok n /\ reads q.2 t /\ starts t /\ blanks b1 /\ blanks b2 /\
    text = valueToQuotedString n ++ b1 ++ [58] ++ b2 ++ t.

Lemma member_starts q text : member_reads q text -> starts text.
Proof. intros (n & t & b1 & b2 & _ & Hn & _ & _ & _ & _ & ->). rewrite quoted_escape by done. done. Qed.

(** The text behind an opening brace. *)
Inductive members : list (CZString * Value) -> list Z -> Prop :=
| members_last q t b1 b2 : member_reads q t -> blanks b1 -> blanks b2 -> members [q] (b1 ++ t ++ b2 ++ [125])
| members_cons q t b1 b2 m body : member_reads q t -> blanks b1 -> blanks b2 -> members m body ->
    members (q :: m) (b1 ++ t ++ b2 ++ 44 :: body).

(** The name, the colon and the value of one member. *)
Lemma member_token n t b1 b2 b3 after front x p r fuel :
  text_ok n -> reads x t -> starts t -> blanks b1 -> blanks b2 -> blanks b3 ->
  skipSpaces (current_ r) = skipSpaces (b1 ++ (valueToQuotedString n ++ b2 ++ [58] ++ b3 ++ t) ++ after) ->
  number_char (deref after) = false -> commentsBefore_ r = [] -> (2 * length (current_ r) + 1 <= fuel)%nat ->
  (1 + length after <= length (current_ r))%nat /\
  exists tok rt colon rc r1, readToken r = (tok, rt) /\ type_ tok = tokenString /\ decodeString_into tok rt = (Some n, rt) /\
    readToken rt = (colon, rc) /\ type_ colon = tokenMemberSeparator /\
    readValue fuel (p ++ [CZName n]) (default nullValue (map_find (CZName n) front)) rc = Some (true, x, r1) /\
    current_ r1 = after /\ quiet r r1.
Proof.
  intros Hn Hx Ht Hb1 Hb2 Hb3 E Ha Hc Hf. rewrite quoted_escape in E by done. fold (escaped n) in E.
  rewrite <- !app_assoc in E. rewrite skipSpaces_text in E by done.
  set (value := b3 ++ t ++ after) in *. pose proof (skipSpaces_app_length _ _ _ E) as Hsl. cbn [length] in Hsl.
  rewrite !length_app in Hsl. cbn [length] in Hsl. unfold value in Hsl. rewrite !length_app in Hsl.
  pose proof (starts_length t Ht). split; [lia|].
  set (r0 := set_current value (set_current (b2 ++ [58] ++ value) r)).
  destruct (Hx after (p ++ [CZName n]) (default nullValue (map_find (CZName n) front)) r0 fuel) as (r1 & E1 & Ec1 & Q1).
  { cbn [current_ r0 set_current]. by apply skipSpaces_text. }
  { done. }
  { done. }
  { cbn [current_ r0 set_current]. unfold value. rewrite !length_app. lia. }
  do 5 eexists. split_and!.
  - apply (token_string n (b2 ++ [58] ++ value)); [done|]. rewrite <- app_assoc. exact E.
  - done.
  - by apply decodeString_quoted.
  - apply (token_punctuation 58 tokenMemberSeparator value); [done|]. cbn [current_ set_current].
    by eapply skipSpaces_punctuation.
  - done.
  - exact E1.
  - done.
  - etrans; [|exact Q1]. done.
Qed.

Lemma object_reads m body : members m body -> forall front name rest p r fuel,
  keys_ok (front ++ m) ->
  skipSpaces (current_ r) = skipSpaces (body ++ rest) -> commentsBefore_ r = [] ->
  (2 * length (current_ r) + 2 <= fuel)%nat ->
  exists r', readObject fuel p front name r = Some (true, objectValue (front ++ m), r') /\
    current_ r' = rest /\ quiet r r'.
Proof.
  induction 1 as [[k x] text b1 b2 Hq Hb1 Hb2|[k x] text b1 b2 m body Hq Hb1 Hb2 Hm IH]; intros front name rest p r fuel Hk E Hc Hf;
    destruct Hq as (n & t & b3 & b4 & Ek & Hn & Hx & Ht & Hb3 & Hb4 & Etext); cbn in Ek, Hx; subst k text;
    rewrite <- (app_assoc b1), <- (app_assoc (_ ++ _)), <- (app_assoc b2) in E; cbn [app] in E;
    (destruct fuel as [|fuel]; [lia|]);
    change (readObject (S fuel)) with (readObject_body (D := D) (readValue fuel) (readObject fuel)); unfold readObject_body.
  - destruct (member_token n t b1 b3 b4 (b2 ++ 125 :: rest) front x p r fuel)
      as (Hle & tok & rt & colon & rc & r1 & -> & Ety & Ed & Ecol & Etc & Ev & Ec1 & Q1); auto; [by apply blanks_delim|lia|].
    rewrite skip_comments_none by congruence. cbn [mbind option_bind]. rewrite Ety, Ed, Ecol, Etc.
    rewrite bool_decide_eq_true_2 by done. cbn [negb]. cbv zeta. rewrite text_ok_cstr, Ev by done.
    cbn [mbind option_bind negb]. rewrite map_set_end by (by eapply keys_ok_app_mid).
    rewrite (token_punctuation 125 tokenObjectEnd rest) by (done || (rewrite Ec1; by eapply skipSpaces_punctuation)).
    cbn [type_]. rewrite bool_decide_eq_true_2 by done. cbn [negb andb]. rewrite skip_comments_none by done.
    cbn. eexists. split; [done|]. split; [done|]. exact Q1.
  - destruct (member_token n t b1 b3 b4 (b2 ++ 44 :: body ++ rest) front x p r fuel)
      as (Hle & tok & rt & colon & rc & r1 & -> & Ety & Ed & Ecol & Etc & Ev & Ec1 & Q1); auto; [by apply blanks_delim|lia|].
    rewrite skip_comments_none by congruence. cbn [mbind option_bind]. rewrite Ety, Ed, Ecol, Etc.
    rewrite bool_decide_eq_true_2 by done. cbn [negb]. cbv zeta. rewrite text_ok_cstr, Ev by done.
    cbn [mbind option_bind negb]. rewrite map_set_end by (by eapply keys_ok_app_mid).
    rewrite (token_punctuation 44 tokenArraySeparator (body ++ rest)) by (done || (rewrite Ec1; by eapply skipSpaces_punctuation)).
    cbn [type_]. rewrite (bool_decide_eq_true_2 (tokenArraySeparator = tokenArraySeparator)) by done.
    cbn [negb]. rewrite andb_false_r. cbn [andb]. rewrite skip_comments_none by done. cbn [mbind option_bind type_].
    rewrite bool_decide_eq_false_2 by done.
    destruct (IH (front ++ [(CZName n, x)]) n rest p (set_current (body ++ rest) r1) fuel) as (r2 & E2 & Ec2 & Q2).
    + by rewrite <- app_assoc.
    + done.
    + cbn [commentsBefore_ set_current]. destruct Q1 as (_ & _ & _ & -> & _). done.
    + cbn [current_ set_current]. rewrite length_app in Hle. cbn [length] in Hle. lia.
    + exists r2. rewrite E2, <- app_assoc. split; [done|]. split; [done|]. etrans; [exact Q1|exact Q2].
Qed.

Lemma reads_container_empty b e v rest0 :
  (b = 91 /\ e = 93 /\ v = arrayValue [] \/ b = 123 /\ e = 125 /\ v = objectValue []) -> blanks rest0 ->
  reads v (b :: rest0 ++ [e]).
Proof.
  intros Hbe Hb0 rest p old r fuel E Hr Hc Hf. destruct fuel as [|[|fuel]]; [lia| |].
  { pose proof (skipSpaces_length (current_ r)) as Hsl. rewrite E in Hsl. cbn [length app] in Hsl. lia. }
  rewrite <- app_comm_cons, <- app_assoc in E. cbn [app] in E. set (body := rest0 ++ e :: rest) in *.
  change (readValue (S (S fuel))) with (readValue_body (D := D) (readObject (S fuel)) (readArray (S fuel))).
  unfold readValue_body.
  destruct Hbe as [(-> & -> & ->)|(-> & -> & ->)].
  - assert (Hsb : skipSpaces body = 93 :: rest) by (by eapply skipSpaces_punctuation).
    rewrite (skipCommentTokens_none _ _ _ (token_punctuation 91 tokenArrayBegin body r eq_refl E)) by done.
    cbn [mbind option_bind type_]. rewrite take_comments_none by done. cbv zeta. cbn [current_ set_current].
    rewrite Hsb. change (deref (93 :: rest) =? 93) with true. cbn iota.
    rewrite (token_punctuation 93 tokenArrayEnd rest) by done. cbn. eexists. split; [done|].
    split; [by destruct (collectComments_ r)|by destruct (collectComments_ r)].
  - assert (Hsb : skipSpaces body = 125 :: rest) by (by eapply skipSpaces_punctuation).
    rewrite (skipCommentTokens_none _ _ _ (token_punctuation 123 tokenObjectBegin body r eq_refl E)) by done.
    cbn [mbind option_bind type_]. rewrite take_comments_none by done.
    change (readObject (S fuel)) with (readObject_body (D := D) (readValue fuel) (readObject fuel)).
    unfold readObject_body. rewrite (token_punctuation 125 tokenObjectEnd rest) by done.
    rewrite skip_comments_none by done. cbn. eexists. split; [done|].
    split; [by destruct (collectComments_ r)|by destruct (collectComments_ r)].
Qed.

Lemma reads_elements l body : elements l body -> zlen l < 2 ^ 31 - 1 -> reads (arrayValue (dense 0 l)) (91 :: body).
Proof.
  intros Hl Hlen rest p old r fuel E Hr Hc Hf. destruct fuel as [|fuel]; [lia|].
  cbn [app] in E. pose proof (skipSpaces_length (current_ r)) as Hsl. rewrite E in Hsl. cbn [length] in Hsl.
  change (readValue (S fuel)) with (readValue_body (D := D) (readObject fuel) (readArray fuel)). unfold readValue_body.
  rewrite (skipCommentTokens_none _ _ _ (token_punctuation 91 tokenArrayBegin (body ++ rest) r eq_refl E)) by done.
  cbn [mbind option_bind type_]. rewrite take_comments_none by done. cbv zeta. cbn [current_ set_current].
  rewrite (elements_starts l body rest Hl).
  set (r1 := set_current (skipSpaces (body ++ rest)) (set_current (body ++ rest) r)).
  destruct (array_reads l body Hl [] rest p r1 fuel) as (r2 & E2 & Ec2 & Q2).
  - done.
  - apply skipSpaces_idem.
  - done.
  - cbn [current_ r1 set_current]. pose proof (skipSpaces_length (body ++ rest)). lia.
  - change (readArray fuel p [] 0 r1) with (readArray fuel p (dense 0 (@nil Value)) (zlen (@nil Value)) r1).
    rewrite E2. cbn. eexists. split; [done|]. split; [by destruct (collectComments_ r2)|].
    etrans; [|apply quiet_finish]. exact Q2.
Qed.

Lemma reads_members m body : members m body -> keys_ok m -> reads (objectValue m) (123 :: body).
Proof.
  intros Hm Hk rest p old r fuel E Hr Hc Hf. destruct fuel as [|fuel]; [lia|].
  cbn [app] in E. pose proof (skipSpaces_length (current_ r)) as Hsl. rewrite E in Hsl. cbn [length] in Hsl.
  change (readValue (S fuel)) with (readValue_body (D := D) (readObject fuel) (readArray fuel)). unfold readValue_body.
  rewrite (skipCommentTokens_none _ _ _ (token_punctuation 123 tokenObjectBegin (body ++ rest) r eq_refl E)) by done.
  cbn [mbind option_bind type_]. rewrite take_comments_none by done.
  destruct (object_reads m body Hm [] [] rest p (set_current (body ++ rest) r) fuel) as (r2 & E2 & Ec2 & Q2).
  - done.
  - done.
  - done.
  - cbn [current_ set_current]. lia.
  - rewrite E2. cbn. eexists. split; [done|]. split; [by destruct (collectComments_ r2)|].
    etrans; [|apply quiet_finish]. exact Q2.
Qed.

(** The compact form: nothing but commas between the texts. *)
Lemma join_elements l ts :
  Forall2 reads l ts -> Forall starts ts -> l <> [] -> elements l (join ts ++ [93]).
Proof.
  induction 1 as [|x t l ts Hx Hl IH]; intros Hst Hne; [done|]. apply Forall_cons in Hst as [Ht Hst].
  destruct Hl as [|x2 t2 l ts Hx2 Hl].
  - apply (elements_last x t [] []); done || apply blanks_nil.
  - cbn [join]. rewrite <- !app_assoc. apply (elements_cons x t [] [] (x2 :: l)); try (done || apply blanks_nil). by apply IH.
Qed.

Lemma join_members m ts : Forall2 member_reads m ts -> m <> [] -> members m (join ts ++ [125]).
Proof.
  induction 1 as [|x t l ts Hx Hl IH]; intros Hne; [done|]. destruct Hl as [|x2 t2 l ts Hx2 Hl].
  - apply (members_last x t [] []); done || apply blanks_nil.
  - cbn [join]. rewrite <- !app_assoc. apply (members_cons x t [] [] (x2 :: l)); try (done || apply blanks_nil). by apply IH.
Qed.

Lemma reads_array l ts :
  Forall2 reads l ts -> Forall starts ts -> zlen l < 2 ^ 31 - 1 ->
  reads (arrayValue (dense 0 l)) ([91] ++ join ts ++ [93]).
Proof.
  intros Hl Hst Hlen. destruct l as [|x l].
  - inversion Hl. apply (reads_container_empty 91 93 _ []); [by left|apply blanks_nil].
  - apply reads_elements; [|done]. by apply join_elements.
Qed.

Lemma reads_object m ts :
  Forall2 member_reads m ts -> keys_ok m -> reads (objectValue m) ([123] ++ join ts ++ [125]).
Proof.
  intros Hm Hk. destruct m as [|q m].
  - inversion Hm. apply (reads_container_empty 123 125 _ []); [by right|apply blanks_nil].
  - apply reads_members; [|done]. by apply join_members.
Qed.

(** ** Writing the elements of a container *)
Definition one_line (t : bytes) : Prop := Forall (fun c => c <> 10) t.

Definition writes (fuel : nat) (yaml : bool) (x : Value) : Prop :=
  exists t, writeValue fuel yaml x = Some t /\ reads x t /\ starts t /\ one_line t.

Lemma one_line_number t : Forall (fun c => number_char c = true) t -> one_line t.
Proof. intros Ht. eapply Forall_impl; [exact Ht|]. cbn. by intros c Hc ->. Qed.

Lemma one_line_join ts : Forall one_line ts -> one_line (join ts).
Proof.
  induction 1 as [|t ts Ht Hts IH]; [constructor|]. destruct ts as [|t2 ts]; [done|].
  change (join (t :: t2 :: ts)) with (t ++ [44] ++ join (t2 :: ts)). unfold one_line in *.
  rewrite !Forall_app. split_and!; [done|by repeat constructor|done].
Qed.

Lemma one_line_quoted s : text_ok s -> one_line (valueToQuotedString s).
Proof.
  intros Hs. rewrite quoted_escape by done. unfold one_line. rewrite !Forall_app. split_and!; [by repeat constructor| |by repeat constructor].
  induction Hs as [|c s Hc Hs IH]; [constructor|]. cbn [fmap list_fmap concat]. apply Forall_app. split; [|done].
  pose proof (byte_forall (fun c => implb (0 <? c) (forallb (fun x => negb (x =? 10)) (escape c)))
    ltac:(vm_compute; reflexivity) c ltac:(unfold byte_ok, in_u; lia)) as E. cbn beta in E.
  replace (0 <? c) with true in E by lia. cbn [implb] in E. rewrite forallb_forall in E.
  apply Forall_forall. intros x Hx%list_elem_of_In%E. by apply negb_true_iff, Z.eqb_neq in Hx.
Qed.

Lemma write_elements fuel yaml l :
  zlen l < 2 ^ 31 - 1 -> Forall (writes fuel yaml) l ->
  exists ts, mapM (fun i => x ← ok_or_none (index_get i (arrayValue (dense 0 l))); writeValue fuel yaml x)
      (seqZ 0 (zlen l)) = Some ts /\ Forall2 reads l ts /\ Forall starts ts /\ Forall one_line ts.
Proof.
  intros Hlen. set (F := fun i => _ ← _; _).
  assert (Hgen : forall back front, l = front ++ back -> Forall (writes fuel yaml) back ->
    exists ts, mapM F (seqZ (zlen front) (zlen back)) = Some ts /\ Forall2 reads back ts /\ Forall starts ts /\
      Forall one_line ts).
  { induction back as [|x back IH]; intros front Hl Hw.
    - exists []. change (zlen (@nil Value)) with 0. rewrite seqZ_nil by lia. by repeat constructor.
    - apply Forall_cons in Hw as [(t & Et & Ht1 & Ht2 & Ht3) Hw].
      destruct (IH (front ++ [x])) as (ts & Ets & H1 & H2 & H3); [by rewrite <- app_assoc|done|].
      exists (t :: ts). split_and!; [|by constructor..].
      rewrite zlen_cons, seqZ_cons by (pose proof (zlen_nonneg back); lia). cbn [mapM].
      replace (Z.succ (zlen front)) with (zlen (front ++ [x])) by zlen_lia.
      replace (Z.pred (1 + zlen back)) with (zlen back) by lia. rewrite Ets.
      assert (F (zlen front) = Some t) as ->; [|done]. unfold F, index_get, index_find.
      rewrite swrap_id by (unfold in_s; subst l; zlen_lia). rewrite dense_find by apply zlen_nonneg.
      rewrite Z.sub_0_r, Hl. unfold zlen. rewrite Nat2Z.id, list_lookup_middle by done. cbn. exact Et. }
  intros Hw. apply (Hgen l [] eq_refl Hw).
Qed.

Definition yaml_space (yaml : bool) : list Z := if yaml then [32] else [].

Lemma write_members fuel yaml m :
  keys_ok m -> Forall name_key m.*1 -> Forall (writes fuel yaml) m.*2 ->
  exists ts, mapM (fun name =>
        x ← ok_or_none (member_get name (objectValue m));
        t ← writeValue fuel yaml x;
        Some (valueToQuotedString (cstr name) ++ (if yaml then [58; 32] else [58]) ++ t))
      ((fun p => match p.1 with CZName n => n | CZIndex _ => [] end) <$> m) = Some ts /\
    Forall2 member_reads m ts /\ Forall one_line ts.
Proof.
  intros Hk. set (F := fun name => _ ← _; _).
  assert (Hgen : forall m', (forall q, q ∈ m' -> q ∈ m) -> Forall name_key m'.*1 -> Forall (writes fuel yaml) m'.*2 ->
    exists ts, mapM F ((fun p => match p.1 with CZName n => n | CZIndex _ => [] end) <$> m') = Some ts /\
      Forall2 member_reads m' ts /\ Forall one_line ts).
  { induction m' as [|[k x] m' IH]; intros Hin Hn Hw; [exists []; by repeat constructor|].
    cbn in Hn, Hw. apply Forall_cons in Hn as [Hkn Hn], Hw as [(t & Et & Ht1 & Ht2 & Ht3) Hw].
    destruct (IH ltac:(set_solver) Hn Hw) as (ts & Ets & H2 & H3). destruct k as [i|n]; [done|]. cbn in Hkn.
    eexists (_ :: ts). cbn [fmap list_fmap mapM fst]. rewrite Ets.
    assert (F n = Some (valueToQuotedString n ++ (if yaml then [58; 32] else [58]) ++ t)) as ->.
    { unfold F, member_get, member_find. rewrite text_ok_cstr by done.
      rewrite (map_find_elem (CZName n) x m Hk) by (apply Hin; left). cbn. by rewrite Et. }
    split; [done|]. split.
    - constructor; [|done]. exists n, t, [], (yaml_space yaml). split_and!; try done; [apply blanks_nil|destruct yaml; by repeat constructor|by destruct yaml].
    - constructor; [|done]. unfold one_line. rewrite !Forall_app. split_and!; [by apply one_line_quoted| |done].
      destruct yaml; by repeat constructor. }
  intros Hn Hw. apply Hgen; auto.
Qed.

(** The depth bounds the depth of the elements. *)
Lemma depth_elements (m : list (CZString * Value)) :
  Forall (fun x => (depth x <= (fix deepest (m : list (CZString * JsonValue.Value D)) : nat :=
    match m with [] => 0%nat | (_, x) :: m => Nat.max (depth x) (deepest m) end) m)%nat) m.*2.
Proof.
  induction m as [|[k x] m IH]; cbn; constructor; [lia|]. eapply Forall_impl; [exact IH|]. cbn. lia.
Qed.

Lemma one_line_brackets b e ts : b <> 10 -> e <> 10 -> Forall one_line ts -> one_line ([b] ++ join ts ++ [e]).
Proof.
  intros Hb He Hts%one_line_join. unfold one_line in *. rewrite !Forall_app, !Forall_singleton. done.
Qed.

Lemma write_reads (v : Value) yaml fuel : json_ok v -> (depth v <= fuel)%nat -> writes fuel yaml v.
Proof.
  revert fuel. induction v as [|z|z|d|s|b|m IH|m IH] using Value_nested_ind; intros [|fuel] Hv Hd; try (cbn in Hd; lia).
  - exists null_str. split_and!; [done|apply reads_null|done|by repeat constructor].
  - destruct (reads_int z Hv) as (t & Et & Ht & Hs & _ & Hn).
    exists t. split_and!; [done..|by apply one_line_number].
  - destruct (reads_uint z Hv) as (t & Et & Ht & Hs & _ & Hn).
    exists t. split_and!; [done..|by apply one_line_number].
  - exists (valueToString_double d). destruct (reads_real d Hv) as [Ht Hs].
    split_and!; [done..|]. apply one_line_number. apply Hv.
  - destruct s as [s|]; [|done]. exists (valueToQuotedString s). destruct (reads_string s Hv) as [Ht Hs].
    split_and!; [done..|by apply one_line_quoted].
  - exists (valueToString_bool b). split_and!; [done|apply reads_bool|by destruct b|by destruct b; repeat constructor].
  - cbn in Hv. rewrite json_all_Forall in Hv. destruct Hv as (Hm & Hlen & Hall). cbn [depth] in Hd.
    pose proof (depth_elements m) as Hde. set (l := m.*2) in *.
    assert (Hw : Forall (writes fuel yaml) l).
    { rewrite Forall_forall in IH, Hall, Hde |- *. intros x Hx. apply IH; [done|by apply Hall|]. specialize (Hde x Hx). lia. }
    assert (Hzl : zlen m = zlen l) by (unfold l, zlen; by rewrite length_fmap). rewrite Hzl in Hlen.
    destruct (write_elements fuel yaml l Hlen Hw) as (ts & Ets & H1 & H2 & H3). clearbody l. subst m.
    exists ([91] ++ join ts ++ [93]). split_and!; [|by apply reads_array|done|by apply one_line_brackets]. cbn [writeValue].
    assert (swrap 32 (size (arrayValue (dense 0 l))) = zlen l) as ->; [|by rewrite Ets].
    destruct l as [|x l _] using rev_ind; [done|]. unfold size. rewrite dense_last. rewrite zlen_app in *.
    change (zlen [x]) with 1 in *. pose proof (zlen_nonneg l).
    rewrite uwrap_id by (unfold in_u; lia). rewrite swrap_id by (unfold in_s; lia). lia.
  - cbn in Hv. rewrite json_all_Forall in Hv. destruct Hv as (Hk & Hn & Hall). cbn [depth] in Hd.
    pose proof (depth_elements m) as Hde.
    assert (Hw : Forall (writes fuel yaml) m.*2).
    { rewrite Forall_forall in IH, Hall, Hde |- *. intros x Hx. apply IH; [done|by apply Hall|]. specialize (Hde x Hx). lia. }
    destruct (write_members fuel yaml m Hk Hn Hw) as (ts & Ets & H1 & H2).
    exists ([123] ++ join ts ++ [125]). split_and!; [| |done|by apply one_line_brackets].
    + cbn [writeValue getMemberNames ok_or_none mbind option_bind]. by rewrite Ets.
    + by apply reads_object.
Qed.

(** A whole document, with blanks around the value. *)
Lemma parse_blanks (v root : Value) b t tl (f : Features) (collect : bool) :
  reads v t -> starts t -> blanks b -> blanks tl -> (strictRoot_ f = true -> isArray v || isObject v = true) ->
  exists r, parse f (b ++ t ++ tl) root collect = Some (true, v, r) /\
    errors_ r = [] /\ comments_ r = [] /\ overrun_ r = false.
Proof.
  intros Ht Hs Hbl Htl Hroot.
  assert (Hb : skip_BOM (b ++ t ++ tl) = b ++ t ++ tl).
  { assert (Hd : (deref (b ++ t ++ tl) =? 239) = false).
    { destruct Hbl as [|c b Hc _]; [|cbn; lia]. destruct t as [|c t]; [done|]. destruct Hs as (_ & _ & Hs). cbn. lia. }
    unfold skip_BOM. rewrite Hd. cbn [andb]. by case_match. }
  unfold parse. rewrite Hb. set (r0 := mkReader f _ (b ++ t ++ tl) (b ++ t ++ tl) _ _ _ _ _ _).
  destruct (Ht tl [] root r0 (read_fuel (b ++ t ++ tl))) as (r1 & -> & Ec & Q).
  { cbn. by apply skipSpaces_text. }
  { rewrite <- (app_nil_r tl). by apply blanks_delim. }
  { done. }
  { cbn. unfold read_fuel. lia. }
  cbn [mbind option_bind].
  assert (Etok : readToken r1 = (mkToken tokenEndOfStream [] [], set_current [] r1)).
  { unfold readToken. rewrite Ec. pose proof (skipSpaces_blanks tl [] Htl) as E. rewrite app_nil_r in E. by rewrite E. }
  rewrite (skipCommentTokens_none _ _ _ Etok) by done. cbn [mbind option_bind]. cbv zeta.
  destruct Q as (Qf & _ & _ & Qb & Qe & Qc & Qo). cbn [commentsBefore_ set_current]. rewrite Qb. cbn [r0 commentsBefore_].
  assert (strictRoot_ f && negb (isArray v) && negb (isObject v) = false) as ->.
  { destruct (strictRoot_ f); [|done]. specialize (Hroot eq_refl). by destruct (isArray v), (isObject v). }
  eexists. split; [done|]. cbn. by rewrite Qe, Qc, Qo.
Qed.

Lemma parse_text (v root : Value) t tl (f : Features) (collect : bool) :
  reads v t -> starts t -> tl = [] \/ tl = [10] -> (strictRoot_ f = true -> isArray v || isObject v = true) ->
  exists r, parse f (t ++ tl) root collect = Some (true, v, r) /\
    errors_ r = [] /\ comments_ r = [] /\ overrun_ r = false.
Proof.
  intros Ht Hs Htl Hroot. apply (parse_blanks v root [] t tl); auto using blanks_nil.
  destruct Htl as [-> | ->]; auto using blanks_nil, blanks_single.
Qed.


End RoundTrip.

(** Doubles with one decimal digit, to evaluate examples with. *)
Definition digit_double : Double Z := {|
  d_of_Z z := z; d_le := Z.leb; d_lt := Z.ltb; d_eq := Z.eqb; d_trunc z := z;
  scan_lf s := match s with c :: 46 :: _ => Some (c - 48) | _ => None end;
  print_g16 z := [48 + z; 46; 48; 48; 48; 48]
|}.


Section Separators.
Context {D : Type} `{Double D}.

(** Blanks in the place of separators. *)
Lemma array_blanks (a c : JsonValue.Value D) ta tb tc p r fuel :
  reads a ta -> starts ta -> number_text tb -> starts tb -> reads c tc -> starts tc ->
  current_ r = ta ++ [32] ++ tb ++ [32] ++ tc ++ [93] -> commentsBefore_ r = [] ->
  (2 * length (current_ r) + 2 <= fuel)%nat ->
  exists r', readArray fuel p [] 0 r = Some (true, arrayValue (dense 0 [a; c]), r') /\ current_ r' = [] /\ quiet r r'.
Proof.
  intros Ra Sa ((b0 & s0 & Et & Hb0) & Nb) Sb Rc Sc E Hc Hf. destruct fuel as [|fuel]; [lia|].
  set (rest2 := [32] ++ tc ++ [93]) in *. set (rest1 := [32] ++ tb ++ rest2) in *.
  change (readArray (S fuel)) with (readArray_body (D := D) (readValue fuel) (readArray fuel)). unfold readArray_body.
  destruct (Ra rest1 (p ++ [CZIndex (i32 0)]) (default nullValue (map_find (CZIndex (i32 0)) [])) r fuel) as (r1 & -> & Ec1 & Q1).
  { rewrite E. by apply skipSpaces_starts. }
  { done. }
  { done. }
  { lia. }
  cbn [mbind option_bind negb]. rewrite (token_number tb rest2 r1 b0 s0) by
    (done || (rewrite Ec1; change (skipSpaces rest1) with (skipSpaces (tb ++ rest2)); by apply skipSpaces_starts)).
  rewrite skip_comments_none by done. cbn [mbind option_bind type_].
  rewrite !(bool_decide_eq_false_2 (tokenNumber = _)) by done. cbn [andb].
  destruct (array_reads [c] ([32] ++ tc ++ [] ++ [93]) ltac:(by apply (elements_last c tc [32] []); eauto using blanks_single, blanks_nil) [a] [] p (set_current rest2 r1) fuel)
    as (r2 & E2 & Ec2 & Q2).
  - done.
  - cbn [current_ set_current]. unfold rest2. by rewrite !app_nil_r.
  - cbn [commentsBefore_ set_current]. destruct Q1 as (_ & _ & _ & -> & _). done.
  - cbn [current_ set_current]. rewrite E in Hf. unfold rest1 in Hf. rewrite !length_app in Hf. cbn [length] in Hf. lia.
  - exists r2. split; [exact E2|]. split; [done|]. etrans; [exact Q1|exact Q2].
Qed.

(** The test for a bad separator in [readArray] is a conjunction that is never
    true: of three integers separated by blanks only, the reader takes the second
    for a separator, drops it, and reports success without an error. *)
Theorem json_array_drops_elements (a b c : Z) (ta tb tc : bytes) :
  -2147483640 < a <= maxInt -> -2147483640 < b <= maxInt -> -2147483640 < c <= maxInt ->
  valueToString_Int a = Some ta -> valueToString_Int b = Some tb -> valueToString_Int c = Some tc ->
  exists r, parse (D := D) Features_all ([91] ++ ta ++ [32] ++ tb ++ [32] ++ tc ++ [93]) nullValue false =
    Some (true, arrayValue (dense 0 [intValue a; intValue c]), r) /\ errors_ r = [].
Proof.
  intros Ha Hb Hc Ea Eb Ec.
  destruct (reads_int a Ha) as (t & E & Ra & Sa & _). rewrite Ea in E. injection E as <-.
  destruct (reads_int b Hb) as (t & E & _ & Sb & Nb). rewrite Eb in E. injection E as <-.
  destruct (reads_int c Hc) as (t & E & Rc & Sc & _). rewrite Ec in E. injection E as <-.
  set (body := ta ++ [32] ++ tb ++ [32] ++ tc ++ [93]). unfold parse. cbn [Features_all allowComments_].
  assert (skip_BOM ([91] ++ body) = 91 :: body) as -> by (unfold skip_BOM; cbn [app deref]; by case_match).
  set (r0 := mkReader _ false (91 :: body) (91 :: body) _ _ _ _ _ _).
  unfold read_fuel. cbn [length]. set (fuel := (2 * S (length body))%nat).
  change (readValue (S fuel)) with (readValue_body (D := D) (readObject fuel) (readArray fuel)). unfold readValue_body.
  rewrite (skipCommentTokens_none _ _ _ (token_punctuation 91 tokenArrayBegin body r0 eq_refl eq_refl)) by done.
  cbn [mbind option_bind type_]. rewrite take_comments_none by done. cbv zeta. cbn [current_ set_current].
  assert (Hsb : skipSpaces body = body) by (by apply skipSpaces_starts).
  assert (Hd : (deref body =? 93) = false).
  { unfold body. destruct ta as [|x ta]; [done|]. destruct Sa as (_ & Hx & _). by apply Z.eqb_neq. }
  rewrite Hsb, Hd.
  destruct (array_blanks (intValue a) (intValue c) ta tb tc [] (set_current body (set_current body r0)) fuel)
    as (r1 & -> & Ec1 & Q); try done.
  { cbn [current_ set_current]. unfold fuel. lia. }
  cbn [finish mbind option_bind]. destruct Q as (_ & Qc & _ & Qb & Qe & _). rewrite Qc. cbn [collectComments_ set_current r0].
  assert (Etok : readToken r1 = (mkToken tokenEndOfStream [] [], set_current [] r1))
    by (unfold readToken; by rewrite Ec1).
  rewrite (skipCommentTokens_none _ _ _ Etok) by done. cbn [mbind option_bind]. cbv zeta.
  cbn [commentsBefore_ set_current]. rewrite Qb. eexists. split; [done|]. cbn. by rewrite Qe.
Qed.
End Separators.

(** An instance of [json_array_drops_elements]: the document [[1 2 3]]. *)
Lemma json_array_drops_elements_witness :
  exists r, @parse Z digit_double Features_all [91; 49; 32; 50; 32; 51; 93] nullValue false =
    Some (true, arrayValue (dense 0 [intValue 1; intValue 3]), r) /\ errors_ r = [].
Proof. apply (@json_array_drops_elements Z digit_double 1 2 3 [49] [50] [51]); try reflexivity; unfold maxInt; lia. Defined.

(** Strict mode forbids comments in front of values only: the loops of objects and
    arrays skip comment tokens with every feature set. *)
Lemma strict_mode_accepts_comments :
  exists r, @parse Z digit_double strictMode [123; 47; 42; 42; 47; 125] nullValue true = Some (true, objectValue [], r) /\
    errors_ r = [].
Proof. eexists. split; vm_compute; reflexivity. Qed.

(** A minus sign alone is the number zero. *)
Lemma minus_is_zero :
  exists r, @parse Z digit_double Features_all [45] nullValue true = Some (true, intValue 0, r) /\ errors_ r = [].
Proof. eexists. split; vm_compute; reflexivity. Qed.
