(* ===== verification/JsonStyled.v ===== *)
(** The writers for people: [StyledWriter] (with its variant for a single line,
    [writeSimple]) and [StyledStreamWriter] of source/json/src/json_writer.cpp.

    The three have the same structure; [Writer] says which of them runs, and the
    definitions below branch on it where their texts differ. The comments of a
    value and of the values below it are a function of the path ([Comments]): the
    reader keeps them in this form ([comments_of]). [None] is a failed assertion,
    a vector read outside of its range, or a null string. *)
From S2P Require Import Prelude JsonValue JsonReader JsonWriter.
Local Open Scope Z_scope.

(** ** Comments *)
#[export] Instance CommentPlacement_eq_dec : EqDecision CommentPlacement.
Proof. solve_decision. Defined.

Definition Comments : Type := list CZString -> CommentPlacement -> option (list Z).
Definition no_comments : Comments := fun _ _ => None.
(** The comments of the element at [k]. *)
Definition below (k : CZString) (c : Comments) : Comments := fun p => c (k :: p).
(** What the calls of [setComment] leave: the last one counts. *)
Definition comments_of (calls : list (list CZString * CommentPlacement * list Z)) : Comments :=
  fun p placement =>
    snd <$> find (fun q => bool_decide (q.1.1 = p) && bool_decide (q.1.2 = placement)) (rev calls).

Definition hasComment (c : Comments) (placement : CommentPlacement) : bool :=
  match c [] placement with Some _ => true | None => false end.
Definition getComment (c : Comments) (placement : CommentPlacement) : list Z := default [] (c [] placement).

(** [normalizeEOL]: any end of line becomes a line feed. *)
Fixpoint normalizeEOL (text : bytes) : list Z :=
  match text with
  | [] => []
  | c :: rest =>
      if c =? 13 then
        10 :: match rest with d :: rest' => if d =? 10 then normalizeEOL rest' else normalizeEOL rest | [] => [] end
      else c :: normalizeEOL rest
  end.
(** [normalizeEOLSimple] drops the ends of lines that have a carriage return. *)
Fixpoint normalizeEOLSimple (text : bytes) : list Z :=
  match text with
  | [] => []
  | c :: rest =>
      if c =? 13 then
        match rest with d :: rest' => if d =? 10 then normalizeEOLSimple rest' else normalizeEOLSimple rest | [] => [] end
      else c :: normalizeEOLSimple rest
  end.

(** ** The writers and their state *)
Inductive Writer : Set := StyledWriter | StyledSimple | StyledStreamWriter (indentation_ : list Z).

Record Styled : Set := mkStyled {
  document_ : list Z;
  childValues_ : list (list Z);
  indentString_ : list Z;
  addChildValues_ : bool
}.

Definition rightMargin_ : Z := 74.
Definition indentSize_ : nat := 3.

Definition emit (t : bytes) (s : Styled) : Styled :=
  mkStyled (document_ s ++ t) (childValues_ s) (indentString_ s) (addChildValues_ s).
Definition set_children (l : list (list Z)) (add : bool) (s : Styled) : Styled :=
  mkStyled (document_ s) l (indentString_ s) add.
Definition set_indent (t : bytes) (s : Styled) : Styled :=
  mkStyled (document_ s) (childValues_ s) t (addChildValues_ s).

Definition pushValue (value : bytes) (s : Styled) : Styled :=
  if addChildValues_ s then set_children (childValues_ s ++ [value]) true s else emit value s.

(** [StyledWriter::writeIndent] and [StyledStreamWriter::writeIndent]. *)
Definition writeIndent (s : Styled) : Styled :=
  match last (document_ s) with
  | None => emit (indentString_ s) s
  | Some c =>
      if c =? 32 then s
      else
        let s := if negb (c =? 10) then emit [10] s else s in
        emit (indentString_ s) s
  end.
Definition stream_writeIndent (s : Styled) : Styled := emit (10 :: indentString_ s) s.

(** [writeWithIndent] of each writer; [writeWithIndentSimple] only writes. *)
Definition do_writeIndent (w : Writer) (s : Styled) : Styled :=
  match w with StyledWriter => writeIndent s | StyledSimple => s | StyledStreamWriter _ => stream_writeIndent s end.
Definition writeWithIndent (w : Writer) (value : bytes) (s : Styled) : Styled := emit value (do_writeIndent w s).

(** [indent] and [unindent]; the simple variant calls neither. *)
Definition indent (w : Writer) (s : Styled) : Styled :=
  match w with
  | StyledWriter => set_indent (indentString_ s ++ repeat 32 indentSize_) s
  | StyledSimple => s
  | StyledStreamWriter indentation_ => set_indent (indentString_ s ++ indentation_) s
  end.
Definition drop_back (n : nat) (s : Styled) : option Styled :=
  if (n <=? length (indentString_ s))%nat
  then Some (set_indent (take (length (indentString_ s) - n) (indentString_ s)) s) else None.
Definition unindent (w : Writer) (s : Styled) : option Styled :=
  match w with
  | StyledWriter => drop_back indentSize_ s
  | StyledSimple => Some s
  | StyledStreamWriter indentation_ => drop_back (length indentation_) s
  end.

Definition is_simple (w : Writer) : bool := match w with StyledSimple => true | _ => false end.

(** [writeCommentBeforeValue] and [writeCommentAfterValueOnSameLine], which put
    comments on lines of their own, except in the simple variants. *)
Definition writeCommentBeforeValue (w : Writer) (c : Comments) (s : Styled) : Styled :=
  if negb (hasComment c commentBefore) then s
  else
    let s := emit (normalizeEOL (getComment c commentBefore)) s in
    if is_simple w then s else emit [10] s.
Definition writeCommentAfterValueOnSameLine (w : Writer) (c : Comments) (s : Styled) : Styled :=
  let s := if hasComment c commentAfterOnSameLine
           then emit (32 :: normalizeEOL (getComment c commentAfterOnSameLine)) s else s in
  if hasComment c commentAfter then
    if is_simple w then emit (normalizeEOL (getComment c commentAfter)) s
    else emit [10] (emit (normalizeEOL (getComment c commentAfter)) (emit [10] s))
  else s.
Definition hasCommentForValue (c : Comments) : bool :=
  hasComment c commentBefore || hasComment c commentAfterOnSameLine || hasComment c commentAfter.

(** The texts around and between the members and the elements of one line. *)
Definition colon (w : Writer) : list Z := if is_simple w then [58] else [32; 58; 32].
Definition line_open (w : Writer) : list Z := if is_simple w then [91] else [91; 32].
Definition line_comma (w : Writer) : list Z := if is_simple w then [44] else [44; 32].
Definition line_close (w : Writer) : list Z := if is_simple w then [93] else [32; 93].

(** [isMultineArray] measures with [writeValue], also for the simple variant. *)
Definition measures_with (w : Writer) : Writer := match w with StyledSimple => StyledWriter | _ => w end.

Section Styled.
Context {D : Type} `{Double D}.
Local Abbreviation Value := (JsonValue.Value D) (only parsing).
Local Abbreviation Rec := (Comments -> JsonValue.Value D -> Styled -> option Styled) (only parsing).

(** An element with its comments; a hole of an array is the null value. *)
Definition child (k : CZString) (found : option Value) (c : Comments) : Value * Comments :=
  match found with Some x => (x, below k c) | None => (nullValue, no_comments) end.
Definition child_at (i : Z) (value : Value) (c : Comments) : option (Value * Comments) :=
  found ← ok_or_none (index_find i value); Some (child (CZIndex (i32 i)) found c).

(** The first loop of [isMultineArray]: is there an element that is a container
    and not empty? *)
Fixpoint nested_loop (value : Value) (indices : list Z) (isMultiLine : bool) : option bool :=
  match indices with
  | i :: indices =>
      if isMultiLine then Some isMultiLine
      else
        x ← ok_or_none (index_get i value);
        nested_loop value indices (isMultiLine || ((isArray x || isObject x) && (0 <? size x)))
  | [] => Some isMultiLine
  end.

(** The second: the elements are written to [childValues_] and measured. *)
Fixpoint measure_loop (rec : Rec) (c : Comments) (value : Value) (indices : list Z) (lineLength : Z)
    (isMultiLine : bool) (s : Styled) : option (Z * bool * Styled) :=
  match indices with
  | i :: indices =>
      if isMultiLine then Some (lineLength, isMultiLine, s)
      else
        '(x, cx) ← child_at i value c;
        s ← rec cx x s;
        t ← childValues_ s !! Z.to_nat i;
        measure_loop rec c value indices (i32 (lineLength + i32 (zlen t)))
          (isMultiLine && hasCommentForValue cx) s
  | [] => Some (lineLength, isMultiLine, s)
  end.

(** [isMultineArray]. *)
Definition isMultineArray (rec : Rec) (c : Comments) (value : Value) (s : Styled) : option (bool * Styled) :=
  let size := i32 (size value) in
  let isMultiLine := rightMargin_ <=? i32 (size * 3) in
  let s := set_children [] (addChildValues_ s) s in
  isMultiLine ← nested_loop value (seqZ 0 size) isMultiLine;
  if negb (isMultiLine : bool) then
    let s := set_children (childValues_ s) true s in
    '(lineLength, isMultiLine, s) ← measure_loop rec c value (seqZ 0 size) (i32 (4 + (size - 1) * 2)) isMultiLine s;
    Some ((isMultiLine : bool) || (rightMargin_ <=? lineLength), set_children (childValues_ s) false s)
  else Some (isMultiLine, s).

(** The loop of [writeArrayValue] over the elements on lines of their own. *)
Fixpoint element_loop (rec : Rec) (w : Writer) (c : Comments) (value : Value) (hasChildValue : bool)
    (indices : list Z) (s : Styled) : option Styled :=
  match indices with
  | [] => None
  | i :: indices =>
      '(childValue, cc) ← child_at i value c;
      let s := writeCommentBeforeValue w cc s in
      s ← (if hasChildValue then t ← childValues_ s !! Z.to_nat i; Some (writeWithIndent w t s)
           else rec cc childValue (do_writeIndent w s));
      match indices with
      | [] => Some (writeCommentAfterValueOnSameLine w cc s)
      | _ => element_loop rec w c value hasChildValue indices (writeCommentAfterValueOnSameLine w cc (emit [44] s))
      end
  end.

(** The elements of one line. *)
Fixpoint line_loop (w : Writer) (children : list (list Z)) (index : nat) (s : Styled) : Styled :=
  match children with
  | [] => s
  | t :: children =>
      let s := if (0 <? index)%nat then emit (line_comma w) s else s in
      line_loop w children (S index) (emit t s)
  end.

(** [writeArrayValue], [writeArrayValueSimple]. *)
Definition writeArrayValue (measure rec : Rec) (w : Writer) (c : Comments) (value : Value) (s : Styled) : option Styled :=
  let size := size value in
  if size =? 0 then Some (pushValue [91; 93] s)
  else
    '(isArrayMultiLine, s) ← isMultineArray measure c value s;
    if (isArrayMultiLine : bool) then
      let s := indent w (writeWithIndent w [91] s) in
      let hasChildValue := match childValues_ s with [] => false | _ => true end in
      s ← element_loop rec w c value hasChildValue (seqZ 0 size) s;
      s ← unindent w s;
      Some (writeWithIndent w [93] s)
    else if zlen (childValues_ s) =? size then
      Some (emit (line_close w) (line_loop w (childValues_ s) 0 (emit (line_open w) s)))
    else None.

(** The loop of [writeValue] over the members of an object. *)
Fixpoint member_loop (rec : Rec) (w : Writer) (c : Comments) (value : Value) (members : list (list Z)) (s : Styled)
    : option Styled :=
  match members with
  | [] => None
  | name :: members =>
      found ← ok_or_none (member_find name value);
      let '(childValue, cc) := child (CZName (cstr name)) found c in
      let s := writeCommentBeforeValue w cc s in
      let s := writeWithIndent w (valueToQuotedString (cstr name)) s in
      s ← rec cc childValue (emit (colon w) s);
      match members with
      | [] => Some (writeCommentAfterValueOnSameLine w cc s)
      | _ => member_loop rec w c value members (writeCommentAfterValueOnSameLine w cc (emit [44] s))
      end
  end.

(** [writeValue], [writeValueSimple]. *)
Fixpoint styled_writeValue (fuel : nat) (w : Writer) (c : Comments) (value : Value) (s : Styled) : option Styled :=
  match fuel with
  | O => None
  | S fuel =>
      match value with
      | nullValue => Some (pushValue null_str s)
      | intValue _ => z ← ok_or_none (asInt value); t ← valueToString_Int z; Some (pushValue t s)
      | uintValue _ => z ← ok_or_none (asUInt value); t ← valueToString_UInt z; Some (pushValue t s)
      | realValue d => Some (pushValue (valueToString_double d) s)
      | stringValue _ => t ← ok_or_none (asCString value); t ← t; Some (pushValue (valueToQuotedString t) s)
      | booleanValue b => Some (pushValue (valueToString_bool b) s)
      | arrayValue _ =>
          writeArrayValue (styled_writeValue fuel (measures_with w)) (styled_writeValue fuel w) w c value s
      | objectValue _ =>
          members ← ok_or_none (getMemberNames value);
          match members with
          | [] => Some (pushValue [123; 125] s)
          | _ =>
              s ← member_loop (styled_writeValue fuel w) w c value members (indent w (writeWithIndent w [123] s));
              s ← unindent w s;
              Some (writeWithIndent w [125] s)
          end
      end
  end.

(** The names of the simple variant and of the stream writer: the same bodies with
    the other texts. *)
Definition writeValueSimple (fuel : nat) : Rec := styled_writeValue fuel StyledSimple.
Definition writeArrayValueSimple (fuel : nat) : Rec :=
  writeArrayValue (styled_writeValue fuel StyledWriter) (writeValueSimple fuel) StyledSimple.
Definition stream_writeValue (indentation : bytes) (fuel : nat) : Rec :=
  styled_writeValue fuel (StyledStreamWriter indentation).
Definition stream_isMultineArray (indentation : bytes) (fuel : nat) : Comments -> Value -> Styled -> option (bool * Styled) :=
  isMultineArray (stream_writeValue indentation fuel).
Definition stream_writeArrayValue (indentation : bytes) (fuel : nat) : Rec :=
  writeArrayValue (stream_writeValue indentation fuel) (stream_writeValue indentation fuel) (StyledStreamWriter indentation).

(** [write] and [writeSimple] (which ends the text with an empty string), with the
    state that an earlier use of the writer left. The stream writer appends to
    what the stream has. *)
Definition styled_write (w : Writer) (out : bytes) (c : Comments) (root : Value) (s : Styled) : option Styled :=
  let s := mkStyled (match w with StyledStreamWriter _ => out | _ => [] end) (childValues_ s) [] false in
  let s := writeCommentBeforeValue w c s in
  s ← styled_writeValue (depth root) w c root s;
  let s := writeCommentAfterValueOnSameLine w c s in
  Some (emit (if is_simple w then [] else [10]) s).

(** [Value::toStyledString], [Value::toSimpleString] and the stream operator, with
    a new writer each. *)
Definition new_writer : Styled := mkStyled [] [] [] false.
Definition toStyledString (c : Comments) (root : Value) : option (list Z) :=
  document_ <$> styled_write StyledWriter [] c root new_writer.
Definition toSimpleString (c : Comments) (root : Value) : option (list Z) :=
  document_ <$> styled_write StyledSimple [] c root new_writer.
Definition value_to_stream (sout : bytes) (c : Comments) (root : Value) : option (list Z) :=
  document_ <$> styled_write (StyledStreamWriter [9]) sout c root new_writer.
End Styled.

(** * Lemmas *)

(** What a writer that only appends leaves alone. *)
Record appends (t : bytes) (s s' : Styled) : Prop := {
  appends_document : document_ s' = document_ s ++ t;
  appends_indent : indentString_ s' = indentString_ s;
  appends_add : addChildValues_ s' = addChildValues_ s
}.

Lemma appends_emit t s : appends t s (emit t s).
Proof. done. Qed.
Lemma appends_trans t1 t2 s1 s2 s3 : appends t1 s1 s2 -> appends t2 s2 s3 -> appends (t1 ++ t2) s1 s3.
Proof. intros [D1 I1 A1] [D2 I2 A2]. split; [by rewrite D2, D1, app_assoc|congruence|congruence]. Qed.
Lemma appends_eq t t' s s' : appends t s s' -> t = t' -> appends t' s s'.
Proof. by intros ? <-. Qed.

(** The writers whose indentation is made of blanks. *)
Definition blank_writer (w : Writer) : Prop :=
  match w with StyledStreamWriter indentation_ => blanks indentation_ | _ => True end.

Lemma do_writeIndent_spec w s :
  blanks (indentString_ s) ->
  exists b, blanks b /\ appends b s (do_writeIndent w s) /\ childValues_ (do_writeIndent w s) = childValues_ s.
Proof.
  intros Hs. destruct w as [| |indentation]; cbn.
  - unfold writeIndent. destruct (last (document_ s)) as [c|]; [|by exists (indentString_ s)].
    destruct (c =? 32); [exists []; split_and!; [by constructor|split; [by rewrite app_nil_r|done..]|done]|].
    destruct (negb (c =? 10)); [|by exists (indentString_ s)].
    exists (10 :: indentString_ s). split_and!; [by constructor; [auto|]| |done].
    split; [cbn; by rewrite <- app_assoc|done..].
  - exists []. split_and!; [by constructor|split; [by rewrite app_nil_r|done..]|done].
  - exists (10 :: indentString_ s). split_and!; [by constructor; [auto|]|done|done].
Qed.

Lemma writeWithIndent_spec w t s :
  blanks (indentString_ s) ->
  exists b, blanks b /\ appends (b ++ t) s (writeWithIndent w t s) /\ childValues_ (writeWithIndent w t s) = childValues_ s.
Proof.
  intros Hs. destruct (do_writeIndent_spec w s Hs) as (b & Hb & Ha & Hc). exists b. split_and!; [done| |done].
  unfold writeWithIndent. by eapply appends_trans.
Qed.

(** [unindent] takes back what [indent] did, and its assertion holds. *)
Lemma indent_spec w s :
  blank_writer w -> blanks (indentString_ s) ->
  blanks (indentString_ (indent w s)) /\ document_ (indent w s) = document_ s /\
  addChildValues_ (indent w s) = addChildValues_ s /\ childValues_ (indent w s) = childValues_ s.
Proof.
  intros Hw Hs. destruct w as [| |indentation]; cbn in *; split_and!; try done.
  - apply blanks_app; [done|]. by repeat (constructor; [auto|]).
  - by apply blanks_app.
Qed.

Lemma drop_back_spec i t s :
  indentString_ s = i ++ t -> drop_back (length t) s = Some (set_indent i s).
Proof.
  intros E. unfold drop_back. rewrite E, length_app. replace (length t <=? length i + length t)%nat with true by (symmetry; apply Nat.leb_le; lia).
  rewrite take_app_length' by lia. done.
Qed.

Lemma unindent_indent w t s s' :
  appends t (indent w s) s' -> exists s'', unindent w s' = Some s'' /\ appends t s s''.
Proof.
  intros [Hd Hi Ha]. destruct w as [| |indentation]; cbn in *.
  - exists (set_indent (indentString_ s) s'). split; [by apply (drop_back_spec _ [32; 32; 32])|done].
  - exists s'. done.
  - rewrite (drop_back_spec _ _ _ Hi). eexists. split; [done|]. done.
Qed.

Section StyledRoundTrip.
Context {D : Type} `{Double D}.
Local Abbreviation Value := (JsonValue.Value D) (only parsing).

(** Values that are written as one text. *)
Definition leaf (v : Value) : Prop := match v with arrayValue m | objectValue m => m = [] | _ => True end.

Lemma write_leaf (v : Value) : json_ok v -> leaf v ->
  exists t, reads v t /\ starts t /\
    forall fuel w c s, styled_writeValue (S fuel) w c v s = Some (pushValue t s).
Proof.
  destruct v as [|z|z|d|[s|]|b|m|m]; intros Hv Hl; try done.
  - exists null_str. split_and!; [apply reads_null|done|done].
  - destruct (reads_int z Hv) as (t & Et & Ht & Hs & _). exists t. split_and!; [done..|]. intros.
    cbn [styled_writeValue asInt ok_or_none mbind option_bind]. by rewrite Et.
  - destruct (reads_uint z Hv) as (t & Et & Ht & Hs & _). exists t. split_and!; [done..|]. intros.
    cbn [styled_writeValue asUInt ok_or_none mbind option_bind]. by rewrite Et.
  - exists (valueToString_double d). destruct (reads_real d Hv). done.
  - exists (valueToQuotedString s). destruct (reads_string s Hv). done.
  - exists (valueToString_bool b). split_and!; [apply reads_bool|by destruct b|done].
  - cbn in Hl. subst m. exists [91; 93]. split_and!; [|done|done].
    apply (reads_container_empty 91 93 _ []); [by left|apply blanks_nil].
  - cbn in Hl. subst m. exists [123; 125]. split_and!; [|done|done].
    apply (reads_container_empty 123 125 _ []); [by right|apply blanks_nil].
Qed.

(** A writer without comments appends blanks and a text of the value. *)
Definition styled_writes (fuel : nat) (w : Writer) (v : Value) : Prop :=
  forall s, addChildValues_ s = false -> blanks (indentString_ s) ->
  exists b t s', styled_writeValue fuel w no_comments v s = Some s' /\
    appends (b ++ t) s s' /\ blanks b /\ reads v t /\ starts t.

Lemma push_appends t s : addChildValues_ s = false -> appends t s (pushValue t s).
Proof. intros E. unfold pushValue. by rewrite E. Qed.

(** *** Objects *)
Lemma member_loop_spec fuel w (m : list (CZString * Value)) m' : keys_ok m -> (forall q, q ∈ m' -> q ∈ m) -> m' <> [] ->
  Forall name_key m'.*1 -> Forall (styled_writes fuel w) m'.*2 ->
  forall s, addChildValues_ s = false -> blanks (indentString_ s) ->
  exists s' t, member_loop (styled_writeValue fuel w) w no_comments (objectValue m)
      ((fun p => match p.1 with CZName n => n | CZIndex _ => [] end) <$> m') s = Some s' /\ appends t s s' /\
    forall b, blanks b -> members m' (t ++ b ++ [125]).
Proof.
  intros Hk. induction m' as [|[k x] m' IH]; intros Hin Hne Hn Hw s Ha Hi; [done|].
  cbn in Hn, Hw. apply Forall_cons in Hn as [Hkn Hn], Hw as [Hx Hw]. destruct k as [i|n]; [done|]. cbn in Hkn.
  cbn [fmap list_fmap fst member_loop]. unfold member_find.
  rewrite text_ok_cstr, (map_find_elem (CZName n) x m Hk) by (done || apply Hin; left).
  cbn [ok_or_none mbind option_bind child]. change (below (CZName n) no_comments) with no_comments.
  change (writeCommentBeforeValue w no_comments s) with s.
  destruct (writeWithIndent_spec w (valueToQuotedString n) s Hi) as (b1 & Hb1 & A1 & _).
  set (s1 := emit (colon w) (writeWithIndent w (valueToQuotedString n) s)).
  assert (A2 : appends (b1 ++ valueToQuotedString n ++ colon w) s s1).
  { rewrite app_assoc. eapply appends_trans; [exact A1|apply appends_emit]. }
  destruct (Hx s1) as (b2 & t & s2 & -> & A3 & Hb2 & Ht & Hst);
    [by rewrite (appends_add _ _ _ A2)|by rewrite (appends_indent _ _ _ A2)|].
  cbn [mbind option_bind]. pose proof (appends_trans _ _ _ _ _ A2 A3) as A4.
  assert (Hmem : exists text, member_reads (CZName n, x) text /\
    (b1 ++ valueToQuotedString n ++ colon w) ++ b2 ++ t = b1 ++ text).
  { set (b0 := if is_simple w then [] else [32]).
    exists (valueToQuotedString n ++ b0 ++ [58] ++ (b0 ++ b2) ++ t). split.
    - exists n, t, b0, (b0 ++ b2). unfold b0. destruct (is_simple w); split_and!; try done; auto using blanks_nil, blanks_app, blanks_single.
    - unfold b0, colon. rewrite <- !app_assoc. by destruct (is_simple w). }
  destruct Hmem as (text & Hmem & Etext). rewrite Etext in A4.
  destruct m' as [|q m'].
  - cbn [fmap list_fmap]. exists s2, (b1 ++ text). split_and!; [done|done|]. intros b Hb. rewrite <- app_assoc.
    by apply members_last.
  - cbn [fmap list_fmap]. change (writeCommentAfterValueOnSameLine w no_comments (emit [44] s2)) with (emit [44] s2).
    pose proof (appends_trans _ _ _ _ _ A4 (appends_emit [44] s2)) as A5.
    destruct (IH ltac:(set_solver) ltac:(done) Hn Hw (emit [44] s2)) as (s3 & t3 & E3 & A6 & Hm);
      [by rewrite (appends_add _ _ _ A5)|by rewrite (appends_indent _ _ _ A5)|].
    exists s3, (((b1 ++ text) ++ [44]) ++ t3). split_and!; [exact E3|by eapply appends_trans|].
    intros b Hb. rewrite <- !app_assoc. apply (members_cons _ text b1 [] _ _ Hmem Hb1 blanks_nil). by apply Hm.
Qed.

(** *** Arrays *)
Definition text_of (x : Value) (t : bytes) : Prop := reads x t /\ starts t.

Lemma child_at_dense (l : list Value) front x back :
  zlen l < 2 ^ 31 - 1 -> l = front ++ x :: back ->
  child_at (zlen front) (arrayValue (dense 0 l)) no_comments = Some (x, no_comments) /\
  ok_or_none (index_get (zlen front) (arrayValue (dense 0 l))) = Some x.
Proof.
  intros Hlen ->. pose proof (zlen_nonneg front). pose proof (zlen_nonneg back). rewrite zlen_app, zlen_cons in Hlen.
  assert (E : index_find (zlen front) (arrayValue (dense 0 (front ++ x :: back))) = Ok (Some x)).
  { unfold index_find. rewrite swrap_id by (unfold in_s; lia). rewrite dense_find by lia.
    rewrite Z.sub_0_r. unfold zlen. rewrite Nat2Z.id, list_lookup_middle by done. done. }
  unfold child_at, index_get. rewrite E. done.
Qed.

(** The indices of the elements behind [front]. *)
Lemma seqZ_split {A} (front : list A) x back :
  seqZ (zlen front) (zlen (x :: back)) = zlen front :: seqZ (zlen (front ++ [x])) (zlen back).
Proof.
  rewrite zlen_cons, seqZ_cons by (pose proof (zlen_nonneg back); lia). rewrite zlen_app. change (zlen [x]) with 1.
  f_equal. f_equal; lia.
Qed.

(** Objects with fewer than [2 ^ 32] members, for which [size] is the number of
    members. *)
Fixpoint sized (v : Value) : Prop :=
  let fix all (m : list (CZString * JsonValue.Value D)) : Prop :=
    match m with [] => True | (_, x) :: m => sized x /\ all m end in
  match v with
  | arrayValue m => all m
  | objectValue m => zlen m < 2 ^ 32 /\ all m
  | _ => True
  end.

Lemma sized_all_Forall (m : list (CZString * Value)) :
  (fix all (m : list (CZString * JsonValue.Value D)) : Prop :=
     match m with [] => True | (_, x) :: m => sized x /\ all m end) m <-> Forall sized m.*2.
Proof.
  induction m as [|[k x] m IH]; cbn; [split; [constructor|done]|]. rewrite IH. by rewrite Forall_cons.
Qed.

Lemma size_dense (l : list Value) : zlen l < 2 ^ 31 - 1 -> size (arrayValue (dense 0 l)) = zlen l.
Proof.
  intros Hlen. destruct l as [|x l _] using rev_ind; [done|]. unfold size. rewrite dense_last, zlen_app in *.
  change (zlen [x]) with 1 in *. pose proof (zlen_nonneg l). rewrite uwrap_id by (unfold in_u; lia). lia.
Qed.

Lemma leaf_size (x : Value) :
  json_ok x -> sized x -> (isArray x || isObject x) && (0 <? size x) = false -> leaf x.
Proof.
  destruct x as [|z|z|d|t|b|m|m]; intros Hj Hs E; try done; cbn [leaf].
  - destruct Hj as (Hm & Hlen & _). rewrite Hm in E. assert (Hz : zlen m = zlen m.*2) by (unfold zlen; by rewrite length_fmap).
    rewrite Hz in Hlen. rewrite size_dense in E by done. destruct m as [|q m]; [done|].
    apply andb_false_iff in E as [E|E]; [done|]. cbn [fmap list_fmap] in E. rewrite zlen_cons in E.
    pose proof (zlen_nonneg (snd <$> m)). lia.
  - destruct Hs as [Hs _]. destruct m as [|q m]; [done|]. apply andb_false_iff in E as [E|E]; [done|].
    cbn [size] in E. rewrite zlen_cons in *. pose proof (zlen_nonneg m). rewrite uwrap_id in E by (unfold in_u; lia). lia.
Qed.

Lemma nested_loop_spec (l : list Value) : zlen l < 2 ^ 31 - 1 -> forall back front, l = front ++ back ->
  Forall json_ok back -> Forall sized back ->
  exists multi, nested_loop (arrayValue (dense 0 l)) (seqZ (zlen front) (zlen back)) false = Some multi /\
    (multi = false -> Forall leaf back).
Proof.
  intros Hlen. induction back as [|x back IH]; intros front El Hj Hs.
  - rewrite seqZ_nil by done. by exists false.
  - apply Forall_cons in Hj as [Hx Hj], Hs as [Hsx Hs]. rewrite seqZ_split. cbn [nested_loop].
    destruct (child_at_dense l front x back Hlen El) as [_ ->]. cbn [mbind option_bind orb].
    destruct (_ && _) eqn:E.
    + exists true. split; [|done]. by destruct (seqZ _ _).
    + destruct (IH (front ++ [x])) as (multi & -> & Hl); [by rewrite <- app_assoc|done|done|].
      exists multi. split; [done|]. intros Em. constructor; [by apply leaf_size|auto].
Qed.

Lemma measure_loop_spec fuel w (l : list Value) : zlen l < 2 ^ 31 - 1 -> forall back front ts len s, l = front ++ back ->
  Forall json_ok back -> Forall leaf back -> addChildValues_ s = true -> childValues_ s = ts -> length ts = length front ->
  exists len' s' ts', measure_loop (styled_writeValue (S fuel) w) no_comments (arrayValue (dense 0 l))
      (seqZ (zlen front) (zlen back)) len false s = Some (len', false, s') /\
    appends [] s s' /\ childValues_ s' = ts ++ ts' /\ Forall2 text_of back ts'.
Proof.
  intros Hlen. induction back as [|x back IH]; intros front ts len s El Hj Hl Ha Hc Hts.
  - rewrite seqZ_nil by done. exists len, s, []. cbn. split_and!; [done| |by rewrite app_nil_r|constructor].
    split; [by rewrite app_nil_r|done..].
  - apply Forall_cons in Hj as [Hx Hj], Hl as [Hlx Hl]. rewrite seqZ_split. cbn [measure_loop].
    destruct (child_at_dense l front x back Hlen El) as [-> _]. cbn [mbind option_bind].
    destruct (write_leaf x Hx Hlx) as (t & Ht & Hst & ->). cbn [mbind option_bind].
    assert (childValues_ (pushValue t s) !! Z.to_nat (zlen front) = Some t) as ->.
    { unfold pushValue. rewrite Ha. cbn [childValues_ set_children]. rewrite Hc. unfold zlen.
      rewrite Nat2Z.id, lookup_app_r by lia. by rewrite Hts, Nat.sub_diag. }
    cbn [mbind option_bind andb].
    destruct (IH (front ++ [x]) (ts ++ [t]) (i32 (len + i32 (zlen t))) (pushValue t s)) as (len' & s' & ts' & E & Hap & Hcv & H2);
      try done.
    + by rewrite <- app_assoc.
    + unfold pushValue. by rewrite Ha.
    + unfold pushValue. rewrite Ha. cbn. by rewrite Hc.
    + rewrite !length_app. cbn. lia.
    + exists len', s', (t :: ts'). split_and!; [exact E| |by rewrite Hcv, <- app_assoc|by constructor].
      destruct Hap as [Hd Hi Had]. unfold pushValue in *. rewrite Ha in *. split; [exact Hd|exact Hi|]. rewrite Had. done.
Qed.

Lemma isMultineArray_spec fuel w (l : list Value) s :
  zlen l < 2 ^ 31 - 1 -> Forall json_ok l -> Forall sized l -> addChildValues_ s = false ->
  exists multi s', isMultineArray (styled_writeValue (S fuel) w) no_comments (arrayValue (dense 0 l)) s = Some (multi, s') /\
    appends [] s s' /\ ((multi = true /\ childValues_ s' = []) \/ Forall2 text_of l (childValues_ s')).
Proof.
  intros Hlen Hj Hs Ha. unfold isMultineArray. rewrite size_dense, (swrap_id 32 (zlen l)) by (unfold in_s; zlen_lia).
  cbv zeta. set (s0 := set_children [] (addChildValues_ s) s). assert (A0 : appends [] s s0) by (split; [by rewrite app_nil_r|done..]).
  destruct (rightMargin_ <=? swrap 32 (zlen l * 3)).
  { exists true, s0. assert (nested_loop (arrayValue (dense 0 l)) (seqZ 0 (zlen l)) true = Some true) as -> by (by destruct (seqZ _ _)).
    cbn. auto. }
  destruct (nested_loop_spec l Hlen l [] eq_refl Hj Hs) as (multi & E & Hleaf). change (zlen (@nil Value)) with 0 in E.
  rewrite E. cbn [mbind option_bind]. destruct multi; cbn [negb].
  { exists true, s0. auto. }
  destruct (measure_loop_spec fuel w l Hlen l [] [] (swrap 32 (4 + (zlen l - 1) * 2)) (set_children (childValues_ s0) true s0))
    as (len & s1 & ts & E1 & A1 & Hc & H2); auto.
  change (zlen (@nil Value)) with 0 in E1. rewrite E1. cbn [mbind option_bind orb]. eexists _, _. split; [done|].
  destruct A1 as [Hd Hi _]. split; [split; [exact Hd|exact Hi|cbn; done]|]. right. cbn. by rewrite Hc.
Qed.

(** One element of the loop over lines: from the texts that were measured, or by
    the recursion. *)
Definition element_step (rec : Comments -> Value -> Styled -> option Styled) (w : Writer) (has : bool) (i : nat)
    (x : Value) (s : Styled) : option Styled :=
  if has then t ← childValues_ s !! i; Some (writeWithIndent w t s) else rec no_comments x (do_writeIndent w s).
Definition element_writes (rec : Comments -> Value -> Styled -> option Styled) (w : Writer) (has : bool)
    (cv : list (list Z)) (i : nat) (x : Value) : Prop :=
  forall s, addChildValues_ s = false -> blanks (indentString_ s) -> (has = true -> childValues_ s = cv) ->
  exists b t s', element_step rec w has i x s = Some s' /\ appends (b ++ t) s s' /\ blanks b /\ text_of x t /\
    (has = true -> childValues_ s' = cv).

Lemma element_loop_spec rec w has cv (l : list Value) : zlen l < 2 ^ 31 - 1 -> forall back front s, l = front ++ back ->
  back <> [] -> (forall i x, back !! i = Some x -> element_writes rec w has cv (length front + i) x) ->
  addChildValues_ s = false -> blanks (indentString_ s) -> (has = true -> childValues_ s = cv) ->
  exists s' t, element_loop rec w no_comments (arrayValue (dense 0 l)) has (seqZ (zlen front) (zlen back)) s = Some s' /\
    appends t s s' /\ forall b, blanks b -> elements back (t ++ b ++ [93]).
Proof.
  intros Hlen. induction back as [|x back IH]; intros front s El Hne Hw Ha Hi Hcv; [done|].
  rewrite seqZ_split. cbn [element_loop]. destruct (child_at_dense l front x back Hlen El) as [-> _].
  cbn [mbind option_bind]. change (writeCommentBeforeValue w no_comments s) with s.
  destruct (Hw 0%nat x eq_refl s Ha Hi Hcv) as (b1 & t & s1 & E1 & A1 & Hb1 & [Ht Hst] & Hcv1).
  rewrite Nat.add_0_r in E1. unfold element_step in E1.
  replace (Z.to_nat (zlen front)) with (length front) by (unfold zlen; lia). rewrite E1. cbn [option_bind].
  destruct back as [|x2 back].
  - rewrite seqZ_nil by done. exists s1, (b1 ++ t). split_and!; [done|done|]. intros b Hb. rewrite <- app_assoc.
    by apply elements_last.
  - pose proof (appends_trans _ _ _ _ _ A1 (appends_emit [44] s1)) as A2.
    destruct (IH (front ++ [x]) (emit [44] s1)) as (s2 & t2 & E2 & A3 & He).
    + by rewrite <- app_assoc.
    + done.
    + intros i y Hy. specialize (Hw (S i) y Hy). rewrite length_app. cbn [length].
      by replace (length front + 1 + i)%nat with (length front + S i)%nat by lia.
    + by rewrite (appends_add _ _ _ A2).
    + by rewrite (appends_indent _ _ _ A2).
    + exact Hcv1.
    + exists s2, (((b1 ++ t) ++ [44]) ++ t2). split_and!; [|by eapply appends_trans|].
      * rewrite seqZ_split in E2 |- *. exact E2.
      * intros b Hb. rewrite <- !app_assoc. apply (elements_cons _ t b1 [] _ _ Ht Hst Hb1 blanks_nil). by apply He.
Qed.

(** The two ways satisfy the requirement. *)
Lemma element_writes_rec fuel w cv i (x : Value) :
  styled_writes fuel w x -> element_writes (styled_writeValue fuel w) w false cv i x.
Proof.
  intros Hx s Ha Hi _. destruct (do_writeIndent_spec w s Hi) as (b & Hb & A & _).
  destruct (Hx (do_writeIndent w s)) as (b2 & t & s' & E & A2 & Hb2 & Ht & Hst);
    [by rewrite (appends_add _ _ _ A)|by rewrite (appends_indent _ _ _ A)|].
  exists (b ++ b2), t, s'. split_and!; [done| |by apply blanks_app|done|done].
  rewrite <- app_assoc. by eapply appends_trans.
Qed.

Lemma element_writes_child rec w cv i (x : Value) t :
  cv !! i = Some t -> text_of x t -> element_writes rec w true cv i x.
Proof.
  intros Hcv Ht s Ha Hi Hc. specialize (Hc eq_refl). destruct (writeWithIndent_spec w t s Hi) as (b & Hb & A & Hk).
  exists b, t, (writeWithIndent w t s). unfold element_step. rewrite Hc, Hcv. split_and!; try done. by rewrite Hk.
Qed.

Lemma line_loop_spec w l : forall cv, Forall2 text_of l cv -> l <> [] -> forall index s,
  exists t, appends t s (line_loop w cv index s) /\
    forall b1 b2, blanks b1 -> blanks b2 ->
      elements l (b1 ++ drop (if (0 <? index)%nat then 1 else 0) t ++ b2 ++ [93]) /\
      ((0 < index)%nat -> exists t', t = 44 :: t').
Proof.
  induction 1 as [|x t l cv [Hx Hst] Hl IH]; intros Hne index s; [done|]. cbn [line_loop].
  set (sep := if (0 <? index)%nat then line_comma w else []).
  assert (Hsep : exists b0, blanks b0 /\ ((0 < index)%nat -> sep = 44 :: b0) /\
    drop (if (0 <? index)%nat then 1 else 0) sep = b0).
  { unfold sep, line_comma. destruct (Nat.ltb_spec 0 index).
    - exists (if is_simple w then [] else [32]). destruct (is_simple w); split_and!; auto using blanks_nil, blanks_single.
    - exists []. split_and!; auto using blanks_nil. lia. }
  destruct Hsep as (b0 & Hb0 & Hs1 & Hs2).
  assert (Hdrop : forall u, drop (if (0 <? index)%nat then 1 else 0) (sep ++ u) = b0 ++ u).
  { intros u. rewrite <- Hs2. destruct (Nat.ltb_spec 0 index); [|done]. by rewrite (Hs1 ltac:(done)). }
  set (s1 := emit t (if (0 <? index)%nat then emit (line_comma w) s else s)).
  assert (A1 : appends (sep ++ t) s s1).
  { unfold s1, sep. destruct (0 <? index)%nat; [|done]. eapply appends_trans; apply appends_emit. }
  destruct Hl as [|x2 t2 l cv Hx2 Hl].
  - exists (sep ++ t). split; [exact A1|]. intros b1 b2 Hb1 Hb2. split; [|intros Hi; rewrite (Hs1 Hi); eauto].
    rewrite Hdrop, <- app_assoc, (app_assoc b1). apply elements_last; auto using blanks_app.
  - destruct (IH ltac:(done) (S index) s1) as (t3 & A3 & He). exists ((sep ++ t) ++ t3).
    split; [by eapply appends_trans|]. intros b1 b2 Hb1 Hb2.
    split; [|intros Hi; rewrite (Hs1 Hi); cbn; eauto].
    rewrite <- app_assoc, Hdrop, <- !app_assoc, (app_assoc b1).
    destruct (He [] b2 blanks_nil Hb2) as [He1 He2]. destruct (He2 ltac:(lia)) as (t4 & ->). cbn in He1.
    apply (elements_cons x t (b1 ++ b0) [] _ _ Hx Hst); auto using blanks_app, blanks_nil.
Qed.

Lemma write_array_lines fuel w (l : list Value) s has cv :
  zlen l < 2 ^ 31 - 1 -> l <> [] -> blank_writer w -> addChildValues_ s = false -> blanks (indentString_ s) ->
  (has = true -> childValues_ s = cv) ->
  (forall i x, l !! i = Some x -> element_writes (styled_writeValue fuel w) w has cv i x) ->
  exists b body s', blanks b /\ appends (b ++ 91 :: body) s s' /\ elements l body /\
    (s ← element_loop (styled_writeValue fuel w) w no_comments (arrayValue (dense 0 l)) has (seqZ 0 (zlen l))
           (indent w (writeWithIndent w [91] s));
     s ← unindent w s; Some (writeWithIndent w [93] s)) = Some s'.
Proof.
  intros Hlen Hne Hw Ha Hi Hcv Hel.
  destruct (writeWithIndent_spec w [91] s Hi) as (b & Hb & A1 & Hk). set (s1 := writeWithIndent w [91] s) in *.
  assert (Hi1 : blanks (indentString_ s1)) by (by rewrite (appends_indent _ _ _ A1)).
  destruct (indent_spec w s1 Hw Hi1) as (Hi2 & Hd2 & Ha2 & Hc2).
  destruct (element_loop_spec (styled_writeValue fuel w) w has cv l Hlen l [] (indent w s1) eq_refl Hne Hel)
    as (s2 & t & E2 & A2 & He).
  { by rewrite Ha2, (appends_add _ _ _ A1). }
  { done. }
  { by rewrite Hc2, Hk. }
  change (zlen (@nil Value)) with 0 in E2. rewrite E2. cbn [mbind option_bind].
  destruct (unindent_indent w t s1 s2 A2) as (s3 & -> & A3). cbn [mbind option_bind].
  destruct (writeWithIndent_spec w [93] s3) as (b3 & Hb3 & A4 & _); [by rewrite (appends_indent _ _ _ A3)|].
  exists b, (t ++ b3 ++ [93]), (writeWithIndent w [93] s3). split_and!; [done| |by apply He|done].
  eapply appends_eq; [eapply appends_trans; [eapply appends_trans; [exact A1|exact A3]|exact A4]|].
  by rewrite <- !app_assoc.
Qed.

Lemma write_array fuel w (l : list Value) :
  zlen l < 2 ^ 31 - 1 -> blank_writer w -> Forall json_ok l -> Forall sized l -> Forall (styled_writes fuel w) l ->
  (l <> [] -> fuel <> 0%nat) ->
  styled_writes (S fuel) w (arrayValue (dense 0 l)).
Proof.
  intros Hlen Hw Hj Hs Hrec Hfuel s Ha Hi. cbn [styled_writeValue]. unfold writeArrayValue. rewrite size_dense by done.
  destruct l as [|x0 l0].
  { exists [], [91; 93], (pushValue [91; 93] s). split_and!; [done|by apply push_appends|apply blanks_nil| |done].
    apply (reads_container_empty 91 93 _ []); [by left|apply blanks_nil]. }
  set (l := x0 :: l0) in *. assert (Hz : (zlen l =? 0) = false).
  { unfold l. rewrite zlen_cons. pose proof (zlen_nonneg l0). lia. }
  rewrite Hz. destruct fuel as [|fuel]; [by destruct Hfuel|].
  destruct (isMultineArray_spec fuel (measures_with w) l s Hlen Hj Hs Ha) as (multi & s1 & -> & A1 & Hc).
  cbn [mbind option_bind]. assert (Ha1 : addChildValues_ s1 = false) by (by rewrite (appends_add _ _ _ A1)).
  assert (Hi1 : blanks (indentString_ s1)) by (by rewrite (appends_indent _ _ _ A1)).
  destruct multi.
  - set (s2 := indent w (writeWithIndent w [91] s1)). set (has := match childValues_ s2 with [] => false | _ => true end).
    assert (Hcv : childValues_ s2 = childValues_ s1).
    { destruct (writeWithIndent_spec w [91] s1 Hi1) as (b & Hb & A & Hk). rewrite <- Hk. apply indent_spec; [done|].
      by rewrite (appends_indent _ _ _ A). }
    destruct (write_array_lines (S fuel) w l s1 has (childValues_ s1)) as (b & body & s' & Hb & A2 & He & E); try done.
    + intros i x Hx. unfold has. rewrite Hcv. destruct Hc as [[_ ->]|Hc].
      * apply element_writes_rec. rewrite Forall_forall in Hrec. apply Hrec. by eapply list_elem_of_lookup_2.
      * destruct (Forall2_lookup_l _ _ _ _ _ Hc Hx) as (t & Ht & Htx). destruct (childValues_ s1) as [|c cs] eqn:Ec; [done|].
        by eapply element_writes_child.
    + exists b, (91 :: body), s'. split_and!; [exact E| |done|by apply reads_elements|done].
      eapply appends_eq; [eapply appends_trans; [exact A1|exact A2]|done].
  - destruct Hc as [[Hc _]|Hc]; [done|].
    assert (Hzl : zlen (childValues_ s1) = zlen l) by (unfold zlen; by rewrite (Forall2_length _ _ _ Hc)).
    rewrite Hzl, Z.eqb_refl.
    destruct (line_loop_spec w l _ Hc ltac:(done) 0 (emit (line_open w) s1)) as (t & A2 & He).
    set (b0 := if is_simple w then [] else [32]). assert (Hb0 : blanks b0) by (unfold b0; destruct (is_simple w); auto using blanks_nil, blanks_single).
    destruct (He b0 b0 Hb0 Hb0) as [He1 _]. exists [], (91 :: b0 ++ t ++ b0 ++ [93]). eexists. split; [done|].
    split_and!; [|apply blanks_nil|by apply reads_elements|done].
    eapply appends_eq.
    + eapply appends_trans; [exact A1|]. eapply appends_trans; [|apply appends_emit].
      eapply appends_trans; [apply appends_emit|exact A2].
    + unfold b0, line_open, line_close. cbn [app]. destruct (is_simple w); by rewrite <- ?app_assoc.
Qed.

Lemma write_object fuel w (m : list (CZString * Value)) :
  blank_writer w -> keys_ok m -> Forall name_key m.*1 -> Forall (styled_writes fuel w) m.*2 ->
  styled_writes (S fuel) w (objectValue m).
Proof.
  intros Hw Hk Hn Hrec s Ha Hi. cbn [styled_writeValue getMemberNames ok_or_none mbind option_bind].
  destruct m as [|q m0].
  { exists [], [123; 125], (pushValue [123; 125] s). split_and!; [done|by apply push_appends|apply blanks_nil| |done].
    apply (reads_container_empty 123 125 _ []); [by right|apply blanks_nil]. }
  set (m := q :: m0) in *. destruct (writeWithIndent_spec w [123] s Hi) as (b & Hb & A1 & _).
  set (s1 := writeWithIndent w [123] s) in *.
  destruct (indent_spec w s1 Hw) as (Hi2 & Hd2 & Ha2 & _); [by rewrite (appends_indent _ _ _ A1)|].
  destruct (member_loop_spec fuel w m m Hk ltac:(done) ltac:(done) Hn Hrec (indent w s1)) as (s2 & t & E2 & A2 & Hm);
    [by rewrite Ha2, (appends_add _ _ _ A1)|done|].
  destruct (unindent_indent w t s1 s2 A2) as (s3 & E3 & A3).
  destruct (writeWithIndent_spec w [125] s3) as (b3 & Hb3 & A4 & _);
    [by rewrite (appends_indent _ _ _ A3), (appends_indent _ _ _ A1)|].
  exists b, (123 :: t ++ b3 ++ [125]), (writeWithIndent w [125] s3). split_and!.
  - unfold m in *. cbn [fmap list_fmap] in *. by rewrite E2; cbn [mbind option_bind]; rewrite E3.
  - eapply appends_eq; [eapply appends_trans; [eapply appends_trans; [exact A1|exact A3]|exact A4]|].
    by rewrite <- !app_assoc.
  - done.
  - apply reads_members; [by apply Hm|done].
  - done.
Qed.

Lemma depth_nonzero (v : Value) : depth v <> 0%nat.
Proof. by destruct v. Qed.

Lemma styled_write_reads w (v : Value) fuel :
  blank_writer w -> json_ok v -> sized v -> (depth v <= fuel)%nat -> styled_writes fuel w v.
Proof.
  intros Hw. revert fuel. induction v as [|z|z|d|t|b|m IH|m IH] using Value_nested_ind; intros [|fuel] Hv Hs Hd;
    try (cbn in Hd; lia).
  1-6: intros s Ha Hi; destruct (write_leaf _ Hv I) as (u & Hu & Hst & E); exists [], u, (pushValue u s);
    split_and!; [apply E|by apply push_appends|apply blanks_nil|done|done].
  - cbn in Hv, Hs. rewrite json_all_Forall in Hv. rewrite sized_all_Forall in Hs. destruct Hv as (Hm & Hlen & Hall).
    cbn [depth] in Hd. pose proof (depth_elements m) as Hde. set (l := m.*2) in *.
    assert (Hrec : Forall (styled_writes fuel w) l).
    { rewrite Forall_forall in IH, Hall, Hs, Hde |- *. intros x Hx. apply IH; auto. specialize (Hde x Hx). lia. }
    rewrite Hm. apply write_array; auto.
    + unfold l. replace (zlen m.*2) with (zlen m) by (unfold zlen; by rewrite length_fmap). done.
    + intros Hne. destruct l as [|x l]; [done|]. apply Forall_cons in Hde as [Hx _]. pose proof (depth_nonzero x). lia.
  - cbn in Hv, Hs. rewrite json_all_Forall in Hv. rewrite sized_all_Forall in Hs. destruct Hv as (Hk & Hn & Hall).
    destruct Hs as [_ Hs]. cbn [depth] in Hd. pose proof (depth_elements m) as Hde. apply write_object; auto.
    rewrite Forall_forall in IH, Hall, Hs, Hde |- *. intros x Hx. apply IH; auto. specialize (Hde x Hx). lia.
Qed.

(** The text of a value without comments: blanks, a text that the reader reads as the
    value, and blanks. *)
Lemma styled_write_text (w : Writer) (v : Value) (out : bytes) (s : Styled) :
  blank_writer w -> json_ok v -> sized v ->
  exists b t tl s', styled_write w out no_comments v s = Some s' /\
    document_ s' = (match w with StyledStreamWriter _ => out | _ => [] end) ++ b ++ t ++ tl /\
    indentString_ s' = [] /\ addChildValues_ s' = false /\ reads v t /\ starts t /\ blanks b /\ blanks tl.
Proof.
  intros Hw Hv Hs. unfold styled_write. set (s0 := mkStyled _ (childValues_ s) [] false).
  change (writeCommentBeforeValue w no_comments s0) with s0.
  destruct (styled_write_reads w v (depth v) Hw Hv Hs ltac:(lia) s0 eq_refl blanks_nil)
    as (b & t & s1 & -> & A & Hb & Ht & Hst). cbn [mbind option_bind].
  set (tl := if is_simple w then [] else [10]).
  assert (Htl : blanks tl) by (unfold tl; destruct (is_simple w); auto using blanks_nil, blanks_single).
  exists b, t, tl, (emit tl s1). split_and!; [done| |apply (appends_indent _ _ _ A)|apply (appends_add _ _ _ A)|done..].
  cbn [emit document_]. rewrite (appends_document _ _ _ A), <- !app_assoc. done.
Qed.

Lemma simple_string_reads (v root : Value) (f : Features) (collect : bool) :
  json_ok v -> sized v -> (strictRoot_ f = true -> isArray v || isObject v = true) ->
  exists text r, toSimpleString no_comments v = Some text /\ parse f text root collect = Some (true, v, r).
Proof.
  intros Hv Hs Hroot.
  destruct (styled_write_text StyledSimple v [] new_writer I Hv Hs) as (b & t & tl & s' & E & Ed & _ & _ & Ht & Hst & Hb & Htl).
  destruct (parse_blanks v root b t tl f collect Ht Hst Hb Htl Hroot) as (r & Er & _).
  exists (b ++ t ++ tl), r. split; [|done]. unfold toSimpleString. rewrite E. cbn. by rewrite Ed.
Qed.


(** *** Comments in arrays *)
Lemma child_at_comments (l : list Value) front x back c :
  zlen l < 2 ^ 31 - 1 -> l = front ++ x :: back ->
  exists cx, child_at (zlen front) (arrayValue (dense 0 l)) c = Some (x, cx).
Proof.
  intros Hlen El. destruct (child_at_dense l front x back Hlen El) as [E _]. unfold child_at in *.
  destruct (ok_or_none _) as [[y|]|]; cbn in E |- *; try discriminate E; injection E as <-; eauto.
Qed.

Lemma measure_loop_comments fuel w (l : list Value) c : zlen l < 2 ^ 31 - 1 -> forall back front len s, l = front ++ back ->
  Forall json_ok back -> Forall leaf back ->
  measure_loop (styled_writeValue (S fuel) w) c (arrayValue (dense 0 l)) (seqZ (zlen front) (zlen back)) len false s =
  measure_loop (styled_writeValue (S fuel) w) no_comments (arrayValue (dense 0 l)) (seqZ (zlen front) (zlen back)) len false s.
Proof.
  intros Hlen. induction back as [|x back IH]; intros front len s El Hj Hl; [by rewrite seqZ_nil|].
  apply Forall_cons in Hj as [Hx Hj], Hl as [Hlx Hl]. rewrite seqZ_split. cbn [measure_loop].
  destruct (child_at_dense l front x back Hlen El) as [-> _]. destruct (child_at_comments l front x back c Hlen El) as (cx & ->).
  cbn [mbind option_bind]. destruct (write_leaf x Hx Hlx) as (t & _ & _ & Ew). rewrite !Ew. cbn [mbind option_bind].
  destruct (_ !! _) as [u|]; [|done]. cbn [mbind option_bind andb]. apply IH; [by rewrite <- app_assoc|done|done].
Qed.

(** Comments on the elements of an array that fits on one line are lost: the
    test for them in [isMultineArray] is a conjunction with a flag that is false
    there, so such an array is written as if it had no comments. *)
Theorem styled_array_loses_comments (w : Writer) (c : Comments) (l : list Value) (s s1 : Styled) (fuel : nat) :
  zlen l < 2 ^ 31 - 1 -> l <> [] -> Forall json_ok l -> Forall leaf l ->
  isMultineArray (styled_writeValue (S fuel) (measures_with w)) no_comments (arrayValue (dense 0 l)) s = Some (false, s1) ->
  styled_writeValue (S (S fuel)) w c (arrayValue (dense 0 l)) s =
  styled_writeValue (S (S fuel)) w no_comments (arrayValue (dense 0 l)) s.
Proof.
  intros Hlen Hne Hj Hl E.
  set (measure := styled_writeValue (S fuel) (measures_with w)) in *. set (rec := styled_writeValue (S fuel) w).
  change (writeArrayValue measure rec w c (arrayValue (dense 0 l)) s = writeArrayValue measure rec w no_comments (arrayValue (dense 0 l)) s).
  assert (Em : isMultineArray measure c (arrayValue (dense 0 l)) s = Some (false, s1)).
  { rewrite <- E. unfold isMultineArray. rewrite size_dense, (swrap_id 32 (zlen l)) by (unfold in_s; zlen_lia). cbv zeta.
    unfold isMultineArray in E. rewrite size_dense, (swrap_id 32 (zlen l)) in E by (unfold in_s; zlen_lia).
    destruct (nested_loop _ _ _) as [[|]|]; [done| |done]. cbn [mbind option_bind negb].
    pose proof (measure_loop_comments fuel (measures_with w) l c Hlen l [] (i32 (4 + (zlen l - 1) * 2))
      (set_children (childValues_ (set_children [] (addChildValues_ s) s)) true (set_children [] (addChildValues_ s) s))
      eq_refl Hj Hl) as Ec.
    change (zlen (@nil Value)) with 0 in Ec. fold measure in Ec. by rewrite Ec. }
  unfold writeArrayValue. by rewrite Em, E.
Qed.
End StyledRoundTrip.


(** An instance of [styled_array_loses_comments]: [[1, 2]] with a comment before each element. *)
Lemma styled_array_loses_comments_witness :
  @styled_writeValue Z digit_double 2 StyledWriter (fun _ _ => Some [47; 42; 42; 47]) (arrayValue (dense 0 [intValue 1; intValue 2]))
    (mkStyled [] [] [] false) =
  @styled_writeValue Z digit_double 2 StyledWriter no_comments (arrayValue (dense 0 [intValue 1; intValue 2])) (mkStyled [] [] [] false).
Proof.
  apply (@styled_array_loses_comments Z digit_double StyledWriter (fun _ _ => Some [47; 42; 42; 47]) [intValue 1; intValue 2]
    (mkStyled [] [] [] false) (mkStyled [] [[49]; [50]] [] false) 0); [unfold zlen; cbn; lia|done| |by repeat constructor|reflexivity].
  repeat constructor; unfold maxInt; cbn; lia.
Defined.

(** A comment of the reader is kept by the writer where it is written: the member
    [a] of an object with a comment before it. *)
Lemma styled_keeps_member_comment :
  exists r, @parse Z digit_double Features_all [123; 47; 47; 120; 10; 34; 97; 34; 58; 49; 125] nullValue true =
      Some (true, objectValue [(CZName [97], intValue 1)], r) /\
    comments_of (comments_ r) [CZName [97]] commentBefore = Some [47; 47; 120; 10].
Proof. eexists. split; vm_compute; reflexivity. Qed.

(** [writeSimple] puts no line end behind a comment in front of a value, so a line
    comment without a line end of its own hides the value from the reader. *)
Lemma simple_comment_hides_value :
  exists text r, @toSimpleString Z digit_double
      (comments_of [([], commentBefore, [47; 47; 120])]) (intValue 1) = Some text /\
    @parse Z digit_double Features_all text nullValue true = Some (false, nullValue, r).
Proof. exists [47; 47; 120; 49]. eexists. split; vm_compute; reflexivity. Qed.
