(* ===== verification/JsonFile.v ===== *)
(** Configuration files: source/json/JME_JsonFile.cpp.

    A file is its bytes (none when it cannot be opened); the directory walk of
    [find_files] and its pattern are boost's, so the list of the files found is an
    argument of the functions that load a directory. *)
From S2P Require Import Prelude JsonValue JsonReader JsonWriter.
Local Open Scope Z_scope.

(** [while (getline(ifs, line))]: [line] is what was read of the current line. *)
Fixpoint getlines (line content : bytes) : list (list Z) :=
  match content with
  | [] => match line with [] => [] | _ => [line] end
  | c :: content => if c =? 10 then line :: getlines [] content else getlines (line ++ [c]) content
  end.

(** [load_jsonfile]: the lines, appended without their ends. *)
Definition load_jsonfile (content : bytes) : list Z := concat (getlines [] content).

Section JsonFile.
Context {D : Type} `{Double D}.
Local Abbreviation Value := (JsonValue.Value D) (only parsing).

(** [Json::Reader reader; reader.parse(s, val)] on a fresh value. *)
Definition parse_string (s : bytes) : option (bool * JsonValue.Value D * Reader) :=
  parse Features_all s nullValue true.

(** [load_jsonfile_val]. *)
Definition load_jsonfile_val (content : bytes) : option (JsonValue.Value D) :=
  '(ok, val, r) ← parse_string (load_jsonfile content);
  Some (if (ok : bool) then val else nullValue).

(** [createWithString]. *)
Definition createWithString (str : bytes) : option (JsonValue.Value D) :=
  '(ok, val, r) ← parse_string str;
  Some (if (ok : bool) then val else nullValue).

(** The three [load_jsonfiles_from_dir]; the first component is the return value.
    The results of the parses are not looked at. *)
Definition load_jsonfiles_text (found : list bytes) : Z * list (list Z) :=
  match found with [] => (0, []) | _ => (1, load_jsonfile <$> found) end.

Definition load_jsonfiles_vec (found : list bytes) : option (Z * list (JsonValue.Value D)) :=
  match found with
  | [] => Some (0, [])
  | _ =>
      vals ← mapM (fun content => '(ok, val, r) ← parse_string (load_jsonfile content); Some val) found;
      Some (1, vals)
  end.

(** One file of the last variant: [m.insert(make_pair(val["id"].asInt(), val))], where
    [val["id"]] adds the member when it is missing and [insert] keeps an entry that
    is there. *)
Definition id_key : list Z := [105; 100].
Definition insert_by_id (val : Value) (m : gmap Z Value) : res (gmap Z (JsonValue.Value D)) :=
  '(val, id) ← resolveReference id_key val;
  n ← asInt id;
  Ok (match m !! n with Some _ => m | None => <[n := val]> m end).

Fixpoint load_map_loop (found : list bytes) (m : gmap Z Value) : option (res (gmap Z (JsonValue.Value D))) :=
  match found with
  | [] => Some (Ok m)
  | content :: found =>
      '(ok, val, r) ← parse_string (load_jsonfile content);
      match insert_by_id val m with
      | Ok m => load_map_loop found m
      | Throw e => Some (Throw e)
      | AssertFail => Some AssertFail
      end
  end.
Definition load_jsonfiles_map (found : list bytes) : option (Z * res (gmap Z (JsonValue.Value D))) :=
  match found with
  | [] => Some (0, Ok ∅)
  | _ => m ← load_map_loop found ∅; Some (1, m)
  end.
End JsonFile.

(** * Lemmas *)
Lemma getlines_filter line content : concat (getlines line content) = line ++ filter (fun c => c <> 10) content.
Proof.
  revert line. induction content as [|c content IH]; intros line; cbn [getlines].
  - destruct line; cbn; by rewrite ?app_nil_r.
  - rewrite filter_cons. destruct (Z.eqb_spec c 10) as [->|Hc].
    + cbn [concat]. rewrite IH, decide_False by auto. done.
    + rewrite IH, decide_True by done. by rewrite <- app_assoc.
Qed.

Lemma one_line_filter t : one_line t -> filter (fun c => c <> 10) t = t.
Proof. induction 1 as [|c t Hc Ht IH]; [done|]. rewrite filter_cons, decide_True by done. by rewrite IH. Qed.

(** * Properties *)
Section FileRoundTrip.
Context {D : Type} `{Double D}.

(** Configuration round trip: a value saved with [FastWriter] is loaded back
    from its file by [load_jsonfile_val], although the loader drops the line
    ends. *)
Theorem json_file_roundtrip (v : JsonValue.Value D) (yaml : bool) :
  json_ok v -> exists text, write yaml v = Some text /\ load_jsonfile_val text = Some v.
Proof.
  intros Hv. destruct (write_reads v yaml (depth v) Hv ltac:(lia)) as (t & Et & Ht & Hs & Hl).
  exists (t ++ [10]). unfold write. rewrite Et. split; [done|]. unfold load_jsonfile_val, load_jsonfile.
  rewrite getlines_filter. cbn [app]. rewrite filter_app, one_line_filter by done.
  destruct (parse_text v nullValue t [] Features_all true Ht Hs) as (r & Hr & _); [by left|done|].
  unfold parse_string. change (filter (fun c => c <> 10) [10]) with (@nil Z). by rewrite Hr.
Qed.
End FileRoundTrip.

(** An instance of [json_file_roundtrip]. *)
Lemma json_file_roundtrip_witness :
  exists text, @write Z digit_double true (objectValue [(CZName [105; 100], intValue 7)]) = Some text /\
    @load_jsonfile_val Z digit_double text = Some (objectValue [(CZName [105; 100], intValue 7)]).
Proof.
  apply (@json_file_roundtrip Z digit_double). split; [cbn; split; [constructor|done]|].
  split; [constructor; [cbn; decide_closed|constructor]|]. split; [split; [lia|unfold maxInt; lia]|exact I].
Defined.

(** Without the line ends a line comment runs to the end of the file: a document
    that the reader accepts as it is (an object with two members, the first
    followed by a comment) is not accepted when it is loaded from a file, and the
    loader answers null. *)
Definition commented : list Z :=
  [123; 34; 97; 34; 58; 49; 44; 47; 47; 120; 10; 34; 98; 34; 58; 50; 125].
Lemma line_comment_loses_file :
  (exists r, @parse_string Z digit_double commented =
     Some (true, objectValue [(CZName [97], intValue 1); (CZName [98], intValue 2)], r)) /\
  @load_jsonfile_val Z digit_double commented = Some nullValue.
Proof. split; [eexists|]; vm_compute; reflexivity. Qed.
