(* ===== verification/JsonRpc.v ===== *)
(** The older envelope of remote calls, backup/include/rpc/JME_Rpc.h: a JSON object
    with the id, the method and the parameters, written with [toSimpleString] and read
    back with the JSON reader. *)
From stdpp Require Import list.
From S2P Require Import Prelude JsonValue JsonReader JsonWriter JsonStyled JsonFile.
Local Open Scope Z_scope.

Record JME_Rpc : Set := mkRpc { _rpcId : Z; _method : list Z; _params : list Z }.

(** The names of the members: rpc_id, method, params. *)
Definition rpc_id_key : list Z := [114; 112; 99; 95; 105; 100].
Definition method_key : list Z := [109; 101; 116; 104; 111; 100].
Definition params_key : list Z := [112; 97; 114; 97; 109; 115].

Section JsonRpc.
Context {D : Type} `{Double D}.
Local Abbreviation Value := (JsonValue.Value D) (only parsing).

(** The object that [serializeAsString] builds. *)
Definition rpc_value (r : JME_Rpc) : res (JsonValue.Value D) :=
  val ← member_set rpc_id_key (intValue (_rpcId r)) nullValue;
  val ← member_set method_key (Value_string (_method r)) val;
  member_set params_key (Value_string (_params r)) val.
Definition serializeAsString (r : JME_Rpc) : option (list Z) :=
  match rpc_value r with Ok val => toSimpleString no_comments val | _ => None end.

(** [parseFromString]: the answer of [reader.parse] is not looked at. *)
Definition parseFromString (str : bytes) : option (res JME_Rpc) :=
  '(_, val, _) ← parse_string str;
  Some ('(val, x) ← resolveReference rpc_id_key val;
        id ← asInt x;
        '(val, x) ← resolveReference method_key val;
        method ← asString x;
        '(val, x) ← resolveReference params_key val;
        params ← asString x;
        Ok (mkRpc id method params)).

Definition rpc_members (r : JME_Rpc) : list (CZString * JsonValue.Value D) :=
  [(CZName method_key, Value_string (_method r)); (CZName params_key, Value_string (_params r));
   (CZName rpc_id_key, intValue (_rpcId r))].

Lemma rpc_value_members r : rpc_value r = Ok (objectValue (rpc_members r)).
Proof. reflexivity. Qed.

Lemma rpc_members_ok r : bytes_ok (_method r) -> bytes_ok (_params r) -> -2147483640 < _rpcId r <= maxInt ->
  json_ok (objectValue (rpc_members r)) /\ sized (objectValue (rpc_members r)).
Proof.
  intros Hm Hp Hi. split; [|by cbn]. split; [by repeat constructor|].
  split; [repeat constructor; cbn; decide_closed|]. split; [by apply cstr_text|]. split; [by apply cstr_text|]. split; [exact Hi|exact I].
Qed.

(** C37. Round trip of the JSON envelope, up to the first zero byte: an envelope of any
    bytes, with an id that is not next to the smallest [int], is serialized and read
    back with the same id; method and parameters arrive as far as their first zero
    byte. So texts arrive unchanged, and the binary parameters of a protocol buffer
    with a zero byte are cut. *)
Theorem json_rpc_roundtrip (r : JME_Rpc) :
  bytes_ok (_method r) -> bytes_ok (_params r) -> -2147483640 < _rpcId r <= maxInt ->
  exists text, serializeAsString r = Some text /\
    parseFromString text = Some (Ok (mkRpc (_rpcId r) (cstr (_method r)) (cstr (_params r)))).
Proof.
  intros Hm Hp Hi. destruct (rpc_members_ok r Hm Hp Hi) as [Hj Hs].
  unfold serializeAsString. rewrite rpc_value_members.
  destruct (simple_string_reads (objectValue (rpc_members r)) nullValue Features_all true Hj Hs) as (text & rd & -> & E); [done|].
  exists text. split; [done|]. unfold parseFromString, parse_string. rewrite E. reflexivity.
Qed.
End JsonRpc.

(** Witness of C37: binary parameters with a zero byte in the middle. *)
Lemma json_rpc_roundtrip_witness :
  exists text, @serializeAsString Z digit_double (mkRpc 7 [97; 100; 100] [8; 150; 1; 0; 18; 34]) = Some text /\
    @parseFromString Z digit_double text = Some (Ok (mkRpc 7 [97; 100; 100] [8; 150; 1])).
Proof.
  apply (@json_rpc_roundtrip Z digit_double (mkRpc 7 [97; 100; 100] [8; 150; 1; 0; 18; 34])).
  - cbn. decide_closed.
  - cbn. decide_closed.
  - unfold maxInt. cbn. lia.
Defined.

(** A text that is not JSON gives an empty call of id zero, not an error. *)
Lemma json_rpc_garbage : @parseFromString Z digit_double [120; 121] = Some (Ok (mkRpc 0 [] [])).
Proof. vm_compute. reflexivity. Qed.
