(* ===== verification/ServerConf.v ===== *)
(** The start of a server from its configuration file, backup/source/game/
    JME_ServerInterface.cpp: the clients for remote calls, the sessions to other
    servers and the acceptor that [onInit] creates from a JSON value, as a list of
    effects. An exception of the JSON values ends the start. *)
From stdpp Require Import gmap list.
From S2P Require Import Prelude JsonValue JsonOrder JsonFile.
Local Open Scope Z_scope.

(** What the server asks of the network: objects are numbered as they are created. *)
Inductive Effect : Set :=
| RpcClient_create (ip port : list Z) (reconnect buffer_size : Z)
| TcpSession_create (bufferSize reconnect : Z)
| Session_connect (ip port : list Z)
| TcpAcceptor_create (port : Z)
| Acceptor_accept (net_id bufferSize : Z).

Record ServerInterface : Set := mkServer {
  _serverId : Z;
  _rpcClient : gmap (list Z) nat;
  _servers : gmap (list Z) nat;
  created : nat
}.

(** The names of the members. *)
Definition k_base : list Z := [98; 97; 115; 101].
Definition k_server_id : list Z := [115; 101; 114; 118; 101; 114; 95; 105; 100].
Definition k_rpc : list Z := [114; 112; 99].
Definition k_client : list Z := [99; 108; 105; 101; 110; 116].
Definition k_ip : list Z := [105; 112].
Definition k_port : list Z := [112; 111; 114; 116].
Definition k_reconnect : list Z := [114; 101; 99; 111; 110; 110; 101; 99; 116].
Definition k_buffer_size : list Z := [98; 117; 102; 102; 101; 114; 95; 115; 105; 122; 101].
Definition k_name : list Z := [110; 97; 109; 101].
Definition k_server : list Z := [115; 101; 114; 118; 101; 114].
Definition k_remote : list Z := [114; 101; 109; 111; 116; 101].
Definition k_acceptor : list Z := [97; 99; 99; 101; 112; 116; 111; 114].

Section ServerConf.
Context {D : Type} `{Double D}.
Local Abbreviation Value := (JsonValue.Value D) (only parsing).
(** [boost::lexical_cast<string>] of a number. *)
Context (lexical_cast : Z -> list Z).

Definition values (v : Value) : res (list (JsonValue.Value D)) :=
  match Iterator.for_each false (Iterator.deref v) v with Some l => Ok l | None => AssertFail end.

(** One round of the loop over the clients, and of the loop over the remote servers. *)
Definition init_client (c : Value) (s : ServerInterface) : res (ServerInterface * list Effect) :=
  ip ← (x ← member_get k_ip c; asString x);
  port ← (x ← member_get k_port c; asString x);
  reconnect ← (x ← member_get k_reconnect c; asUInt x);
  buffer_size ← (x ← member_get k_buffer_size c; asUInt x);
  name ← (x ← member_get k_name c; asString x);
  Ok (mkServer (_serverId s) (<[name := created s]> (_rpcClient s)) (_servers s) (S (created s)),
      [RpcClient_create ip port reconnect buffer_size]).
Definition init_remote (it : Value) (s : ServerInterface) : res (ServerInterface * list Effect) :=
  port ← (x ← member_get k_port it; asUInt x);
  ip ← (x ← member_get k_ip it; asString x);
  bufferSize ← (x ← member_get k_buffer_size it; asUInt x);
  reconnect ← (x ← member_get k_reconnect it; asUInt x);
  name ← (x ← member_get k_server it; asString x);
  Ok (mkServer (_serverId s) (_rpcClient s) (<[name := created s]> (_servers s)) (S (created s)),
      [TcpSession_create bufferSize reconnect; Session_connect ip (lexical_cast (uwrap 16 port))]).
Fixpoint init_all (f : Value -> ServerInterface -> res (ServerInterface * list Effect)) (l : list (JsonValue.Value D)) (s : ServerInterface)
    : res (ServerInterface * list Effect) :=
  match l with
  | [] => Ok (s, [])
  | c :: l => '(s, e) ← f c s; '(s, e') ← init_all f l s; Ok (s, e ++ e')
  end.

(** The two parts of [init_]. *)
Definition init_servers (baseConf : Value) (s : ServerInterface) : res (ServerInterface * list Effect) :=
  remote ← isMember k_remote baseConf;
  if (remote : bool) then remoteConf ← member_get k_remote baseConf; l ← values remoteConf; init_all init_remote l s
  else Ok (s, []).
Definition init_acceptor (baseConf : Value) : res (list Effect) :=
  acceptor ← isMember k_acceptor baseConf;
  if (acceptor : bool) then
    acceptConf ← member_get k_acceptor baseConf;
    port ← (x ← member_get k_port acceptConf; asUInt x);
    bufferSize ← (x ← member_get k_buffer_size acceptConf; asUInt x);
    Ok [TcpAcceptor_create (uwrap 16 port); Acceptor_accept 0 bufferSize]
  else Ok [].
Definition init_ (config : Value) (s : ServerInterface) : res (ServerInterface * list Effect) :=
  '(config, baseConf) ← resolveReference k_base config;
  '(s, e1) ← init_servers baseConf s;
  e2 ← init_acceptor baseConf;
  Ok (s, e1 ++ e2).

(** [onInit]; the virtual [init] of the base class does nothing. *)
Definition onInit (config : Value) : res (ServerInterface * list Effect) :=
  '(config, baseConf) ← resolveReference k_base config;
  serverId ← (x ← member_get k_server_id baseConf; asInt x);
  let s := mkServer serverId ∅ ∅ 0 in
  '(config, rpc) ← resolveReference k_rpc config;
  clientConf ← member_get k_client rpc;
  l ← values clientConf;
  '(s, e1) ← init_all init_client l s;
  '(s, e2) ← init_ config s;
  Ok (s, e1 ++ e2).

Definition getRpcByName (name : bytes) (s : ServerInterface) : option nat := _rpcClient s !! name.

(** * What a configuration says *)
Record ClientConf : Set := mkClient { cl_name : list Z; cl_ip : list Z; cl_port : list Z; cl_reconnect : Z; cl_buffer : Z }.
Record RemoteConf : Set := mkRemote { rm_name : list Z; rm_ip : list Z; rm_port : Z; rm_reconnect : Z; rm_buffer : Z }.

(** A member of a value, read with a conversion. *)
Definition field {A} (k : bytes) (conv : Value -> res A) (v : Value) (a : A) : Prop := (x ← member_get k v; conv x) = Ok a.

Definition client_says (v : Value) (c : ClientConf) : Prop :=
  field k_ip asString v (cl_ip c) /\ field k_port asString v (cl_port c) /\ field k_reconnect asUInt v (cl_reconnect c) /\
  field k_buffer_size asUInt v (cl_buffer c) /\ field k_name asString v (cl_name c).
Definition remote_says (v : Value) (c : RemoteConf) : Prop :=
  field k_port asUInt v (rm_port c) /\ field k_ip asString v (rm_ip c) /\ field k_buffer_size asUInt v (rm_buffer c) /\
  field k_reconnect asUInt v (rm_reconnect c) /\ field k_server asString v (rm_name c).

Definition client_effects (c : ClientConf) : list Effect := [RpcClient_create (cl_ip c) (cl_port c) (cl_reconnect c) (cl_buffer c)].
Definition remote_effects (c : RemoteConf) : list Effect :=
  [TcpSession_create (rm_buffer c) (rm_reconnect c); Session_connect (rm_ip c) (lexical_cast (uwrap 16 (rm_port c)))].
Definition acceptor_effects (a : option (Z * Z)) : list Effect :=
  match a with Some (port, buffer) => [TcpAcceptor_create (uwrap 16 port); Acceptor_accept 0 buffer] | None => [] end.

(** The member [remote] of the base configuration, and the member [acceptor]. *)
Definition remotes_say (base : Value) (cs : list RemoteConf) : Prop :=
  match member_find k_remote base with
  | Ok (Some v) => exists l, values v = Ok l /\ Forall2 remote_says l cs
  | Ok None => cs = []
  | _ => False
  end.
Definition acceptor_says (base : Value) (a : option (Z * Z)) : Prop :=
  match member_find k_acceptor base with
  | Ok (Some v) => exists port buffer, a = Some (port, buffer) /\ field k_port asUInt v port /\ field k_buffer_size asUInt v buffer
  | Ok None => a = None
  | _ => False
  end.

(** The table of names: objects are numbered from [n], a later one of the same name
    replaces an earlier one. *)
Fixpoint table (names : list (list Z)) (n : nat) (t : gmap (list Z) nat) : gmap (list Z) nat :=
  match names with [] => t | x :: names => table names (S n) (<[x := n]> t) end.

Lemma values_container (v : Value) : values v = Ok (Iterator.container v).*2.
Proof.
  unfold values. rewrite (Iterator.for_each_entries (Iterator.deref v) snd); [done|].
  intros it e He. unfold Iterator.deref. by rewrite He.
Qed.

Lemma init_clients l cs s : Forall2 client_says l cs ->
  init_all init_client l s =
    Ok (mkServer (_serverId s) (table (cl_name <$> cs) (created s) (_rpcClient s)) (_servers s) (length cs + created s),
        concat (client_effects <$> cs)).
Proof.
  intros Hf. revert s. induction Hf as [|v c l cs (E1 & E2 & E3 & E4 & E5) _ IH]; intros s; [by destruct s|]. cbn [init_all]. unfold init_client.
  unfold field in *. rewrite E1. cbn. rewrite E2. cbn. rewrite E3. cbn. rewrite E4. cbn. rewrite E5. cbn. rewrite IH. cbn. do 3 f_equal. lia.
Qed.

Lemma init_remotes l cs s : Forall2 remote_says l cs ->
  init_all init_remote l s =
    Ok (mkServer (_serverId s) (_rpcClient s) (table (rm_name <$> cs) (created s) (_servers s)) (length cs + created s),
        concat (remote_effects <$> cs)).
Proof.
  intros Hf. revert s. induction Hf as [|v c l cs (E1 & E2 & E3 & E4 & E5) _ IH]; intros s; [by destruct s|]. cbn [init_all]. unfold init_remote.
  unfold field in *. rewrite E1. cbn. rewrite E2. cbn. rewrite E3. cbn. rewrite E4. cbn. rewrite E5. cbn. rewrite IH. cbn. do 3 f_equal. lia.
Qed.

Lemma resolve_found k (v x : Value) : member_find k v = Ok (Some x) -> resolveReference k v = Ok (v, x) /\ member_get k v = Ok x.
Proof.
  unfold member_get. intros E. split; [|by rewrite E]. destruct v; try done. cbn in E |- *. injection E as E. by rewrite E.
Qed.

Lemma isMember_spec k (v : Value) r : member_find k v = Ok r -> isMember k v = Ok (bool_decide (is_Some r)).
Proof. unfold isMember. by intros ->. Qed.

Lemma init_servers_ok base s cs : remotes_say base cs ->
  init_servers base s = Ok (mkServer (_serverId s) (_rpcClient s) (table (rm_name <$> cs) (created s) (_servers s)) (length cs + created s),
    concat (remote_effects <$> cs)).
Proof.
  unfold remotes_say, init_servers. intros Hr. destruct (member_find k_remote base) as [[v|]| |] eqn:Er; try done.
  - rewrite (isMember_spec _ _ _ Er), (proj2 (resolve_found _ _ _ Er)). destruct Hr as (l & El & Hl). cbn [bool_decide mbind res_bind].
    rewrite bool_decide_eq_true_2 by done. cbn [mbind res_bind]. rewrite El. cbn [mbind res_bind]. by apply init_remotes.
  - rewrite (isMember_spec _ _ _ Er). cbn [mbind res_bind]. rewrite bool_decide_eq_false_2 by (by intros [? ?]). subst cs. by destruct s.
Qed.

Lemma init_acceptor_ok base a : acceptor_says base a -> init_acceptor base = Ok (acceptor_effects a).
Proof.
  unfold acceptor_says, init_acceptor, field. intros Ha. destruct (member_find k_acceptor base) as [[v|]| |] eqn:Er; try done.
  - rewrite (isMember_spec _ _ _ Er), (proj2 (resolve_found _ _ _ Er)). destruct Ha as (port & buffer & -> & E1 & E2).
    cbn [mbind res_bind]. rewrite bool_decide_eq_true_2 by done. cbn [mbind res_bind]. rewrite E1. cbn [mbind res_bind]. by rewrite E2.
  - rewrite (isMember_spec _ _ _ Er). cbn [mbind res_bind]. rewrite bool_decide_eq_false_2 by (by intros [? ?]). by subst a.
Qed.

Lemma table_lookup names n t x :
  table names n t !! x = match last (filter (fun p => p.2 = x) (zip (seq n (length names)) names)) with Some p => Some p.1 | None => t !! x end.
Proof.
  revert n t. induction names as [|y names IH]; intros n t; [done|]. cbn [table length seq zip zip_with]. rewrite IH.
  destruct (decide (y = x)) as [->|Hne].
  - rewrite filter_cons_True, last_cons by done. destruct (last _); [done|]. by rewrite lookup_insert_eq.
  - rewrite filter_cons_False by done. destruct (last _); [done|]. by rewrite lookup_insert_ne.
Qed.

(** The start of a server does what its configuration says: one client for remote
    calls per entry, one connected session per remote server, and the acceptor, in
    the order of the configuration and with its numbers (ports in sixteen bits);
    [getRpcByName] finds the last client of a name, and no others. *)
Theorem server_starts_as_configured (config base rpc clientConf : Value) (l : list (JsonValue.Value D)) (id : Z)
    (clients : list ClientConf) (remotes : list RemoteConf) (acceptor : option (Z * Z)) :
  member_find k_base config = Ok (Some base) -> field k_server_id asInt base id ->
  member_find k_rpc config = Ok (Some rpc) -> member_get k_client rpc = Ok clientConf -> values clientConf = Ok l ->
  Forall2 client_says l clients -> remotes_say base remotes -> acceptor_says base acceptor ->
  exists s, onInit config =
      Ok (s, concat (client_effects <$> clients) ++ concat (remote_effects <$> remotes) ++ acceptor_effects acceptor) /\
    _serverId s = id /\ created s = (length clients + length remotes)%nat /\
    forall name, getRpcByName name s =
      match last (filter (fun p => p.2 = name) (zip (seq 0 (length clients)) (cl_name <$> clients))) with Some p => Some p.1 | None => None end.
Proof.
  intros Hb Hid Hrpc Hc Hl Hcl Hr Ha. unfold onInit. rewrite (proj1 (resolve_found _ _ _ Hb)). cbn [mbind res_bind].
  unfold field in Hid. rewrite Hid. cbn [mbind res_bind]. cbv zeta. rewrite (proj1 (resolve_found _ _ _ Hrpc)). cbn [mbind res_bind].
  rewrite Hc. cbn [mbind res_bind]. rewrite Hl. cbn [mbind res_bind]. rewrite (init_clients l clients _ Hcl). cbn [mbind res_bind].
  unfold init_. rewrite (proj1 (resolve_found _ _ _ Hb)). cbn [mbind res_bind]. rewrite (init_servers_ok base _ remotes Hr). cbn [mbind res_bind].
  rewrite (init_acceptor_ok base acceptor Ha). cbn [mbind res_bind _serverId _rpcClient _servers created]. eexists. split; [done|].
  cbn [_serverId created]. split_and!; [done|lia|]. intros name. unfold getRpcByName. cbn [_rpcClient]. rewrite table_lookup, length_fmap.
  by destruct (last _).
Qed.
End ServerConf.

(** A configuration with one client, one remote server and an acceptor. *)
Definition sample_client : JsonValue.Value Z :=
  objectValue [(CZName k_buffer_size, uintValue 4096); (CZName k_ip, stringValue (Some [49])); (CZName k_name, stringValue (Some [103]));
               (CZName k_port, stringValue (Some [57; 57])); (CZName k_reconnect, intValue 5)].
Definition sample_remote : JsonValue.Value Z :=
  objectValue [(CZName k_buffer_size, intValue 1024); (CZName k_ip, stringValue (Some [50])); (CZName k_port, uintValue 8000);
               (CZName k_reconnect, intValue 3); (CZName k_server, stringValue (Some [100; 98]))].
Definition sample_base : JsonValue.Value Z :=
  objectValue [(CZName k_acceptor, objectValue [(CZName k_buffer_size, intValue 512); (CZName k_port, intValue 7000)]);
               (CZName k_remote, arrayValue (dense 0 [sample_remote])); (CZName k_server_id, intValue 1)].
Definition sample_rpc : JsonValue.Value Z := objectValue [(CZName k_client, arrayValue (dense 0 [sample_client]))].

(** An instance of [server_starts_as_configured]: the server of that configuration. *)
Lemma server_starts_as_configured_witness :
  exists s, @onInit Z Z_double (fun z => [z]) (objectValue [(CZName k_base, sample_base); (CZName k_rpc, sample_rpc)]) =
      Ok (s, [RpcClient_create [49] [57; 57] 5 4096; TcpSession_create 1024 3; Session_connect [50] [8000];
              TcpAcceptor_create 7000; Acceptor_accept 0 512]) /\
    _serverId s = 1 /\ created s = 2%nat /\ getRpcByName [103] s = Some 0%nat.
Proof.
  destruct (@server_starts_as_configured Z Z_double (fun z => [z]) (objectValue [(CZName k_base, sample_base); (CZName k_rpc, sample_rpc)])
    sample_base sample_rpc (arrayValue (dense 0 [sample_client])) [sample_client] 1
    [mkClient [103] [49] [57; 57] 5 4096] [mkRemote [100; 98] [50] 8000 3 1024] (Some (7000, 512)))
    as (s & E & H1 & H2 & H3); try done.
  - by repeat constructor.
  - exists [sample_remote]. split; [done|]. by repeat constructor.
  - exists 7000, 512. by split_and!.
  - exists s. split_and!; [exact E|done|done|by rewrite H3].
Defined.
